(* ===== verification/_CoqProject ===== *)
-Q . S2P
Prelude.v
Neon.v
RandomX.v
Blake2b.v
Superscalar.v
SuperscalarGen.v
Argon2.v
Dataset.v
Float.v
Bytecode.v
BytecodeSafety.v
BytecodeTermination.v
BytecodeStale.v
Vm.v
HashSim.v
AesTables.v
Aes.v
AesHash.v
Hash.v
Worker.v
Engine.v
Text.v
Json.v
Hex.v
Stratum.v
Connection.v
Config.v
Pool.v
Cli.v
PartialDataset.v
Platform.v
Footprint.v
JitSchedule.v
JitEquiv.v
JitSim.v
JitSuper.v
A64.v
JitDataset.v
JitItem.v
JitItemEquiv.v
A64Vec.v
JitEmit.v
JitLayout.v
JitWords.v
JitValues.v
JitVmRun.v
JitVmSim.v
JitVmFloat.v
JitVmEquiv.v
A64Loop.v
JitTemplate.v
JitGenerate.v
A64Run.v
JitLoop.v
JitEntry.v
JitLines.v
JitHybrid.v
JitRun.v
JitCall.v
JitHash.v
JitTwoWay.v
JitTwoWayItem.v
