(* ===== verification/Prelude.v ===== *)
(** * armrx: a verification library for the AArch64 RandomX v1 miner

    armrx mines RandomX (the proof of work of Monero).  From a seed key it builds a 256 MiB Argon2d
    cache and eight superscalar programs; from those it derives the items of a 2 GiB dataset, either
    all at once (fast mode) or one at a time (light mode); a virtual machine with a 2 MiB scratchpad
    runs eight random programs per hash over them; worker threads hash block templates with
    successive nonces and report the shares that meet the pool's target.  A Stratum client takes jobs
    from a pool and returns the shares, a pool manager moves between pools, and a command line and a
    configuration file set all of it up.  The library models the chain from the hash primitives up to a
    worker, as the interpreted machine computes it; the JIT compiler: its schedulers, the machine code it
    emits for RandomX programs and for superscalar programs, and the compiled function as a whole, called
    in place of the interpreter; the threads that build a full or a partial
    dataset; the client and its text formats; and the start-up decisions; and proves what makes them
    correct.

    ** Modelling conventions

    C++ functions are Rocq functions of the same name.  A call that can throw, read or write outside
    an object, or loop on data, returns an [outcome] (this file): [Done], [Throw] with the exception,
    [UB] for undefined behaviour, [NoFuel] when a bounded loop was cut off; [x ← m; k] sequences
    them.  A w-bit integer is a [Z] kept in range by [wrap w]; a byte array is a list of bytes,
    accessed through [read_bytes] / [write_bytes] / [at_index], which are [UB] out of range.  Objects
    are records, methods take and return them.  Build variants (scalar or NEON, the AES
    implementations, ARMRX_ENABLE_D2_PIPELINE) are separate definitions or a parameter, and are
    proved equal.  ARMRX_ASSERT logs and continues, as in release builds.

    ** Files and the sources they model (under src/)

    - Prelude.v: outcomes, machine words, byte strings, loops, the hint databases [word] and [len], and
      the tactics [bools], [blia], [steps], [explode].
    - Neon.v: the NEON intrinsics used, on 64-bit lanes and on bytes.
    - RandomX.v: include/armrx/randomx_config.hpp, instruction.hpp, and the integer helpers of
      src/superscalar.cpp (reciprocal, high multiplications).
    - Blake2b.v: src/blake2b.cpp ([Module Blake2b]) and src/blake2_generator.cpp
      ([Module Blake2Generator]).
    - Superscalar.v, SuperscalarGen.v: src/superscalar.cpp, the two interpreters and the generator
      (decode groups, port scheduling, register selection).
    - Argon2.v: src/argon2.cpp: H', compression, indexing, filling, [Argon2dCache].
    - Dataset.v: src/dataset.cpp: item derivation and the range filler.
    - Float.v: IEEE 754 binary64 on bit patterns with the four rounding directions, as <cfenv> and the
      double arithmetic of src/vm.cpp need it.
    - Bytecode.v, BytecodeSafety.v, BytecodeTermination.v, BytecodeStale.v: src/vm.cpp, the bytecode
      compiler (handlers, [kCompileHandlers], [register_usage_]) and [execute_bytecode]; its safety;
      its termination; and that fields left over from an earlier program are never read.
    - Vm.v: src/vm.cpp and include/armrx/vm.hpp: the machine's state, [initialize_vm_state],
      [dataset_read] in both modes, [run_interpreted].
    - AesTables.v, Aes.v: src/soft_aes.cpp and include/armrx/aes.hpp: the T-tables, and the rounds in
      the T-table, tower-field NEON and AESE/AESMC forms, against FIPS 197 ([Module FIPS197]).
    - AesHash.v: src/aes_generator.cpp, src/aes_hash.cpp, include/armrx/aes_keys.hpp.
    - HashSim.v, Hash.v: src/vm.cpp: [run], [get_final_result], [randomx_calculate_hash] and
      [randomx_calculate_hash_pipelined]; HashSim.v holds the simulation between two machines.
    - Footprint.v, JitSchedule.v: src/jit_compiler_a64.cpp: instruction footprints and hazards, the two
      schedulers of VM programs.  JitEquiv.v, JitSim.v: what a footprint says about the interpreter, and
      the simulation between a program and its scheduled order.
    - JitSuper.v: src/jit_compiler_a64.cpp: the scheduler of superscalar programs.
    - A64.v: the A64 instructions the dataset code uses: decoding and execution.
    - JitDataset.v: src/jit_compiler_a64.cpp: [emit32], [emitCpoolImmediate], [generateSuperscalarHash];
      the bytes written and their execution.
    - JitItem.v, JitItemEquiv.v: the dataset item function of src/jit_compiler_a64_static.S with the
      generated rounds: a machine with memory and a stack, and the function's correctness.
    - JitTwoWay.v, JitTwoWayItem.v: src/jit_dataset_2way.cpp, the generator of code for two items at once, and
      the function [randomx_calc_dataset_item_aarch64_2way] it completes, on the same machine.
    - A64Vec.v: the A64 instructions of compiled RandomX programs: vector registers, FPCR, condition flag and
      scratchpad.
    - JitEmit.v: src/jit_compiler_a64.cpp: the thirty handlers behind [engine], the immediates and memory
      operands, [emitPrologueMix].  JitLayout.v: where they write.
    - JitWords.v, JitValues.v, JitVmRun.v: the words the handlers emit and what they decode to; the values
      they compute; running them from the finished buffer.
    - JitVmSim.v, JitVmFloat.v: each handler's code simulates the interpreter's step ([sim] is the register
      allocation).  JitVmEquiv.v: whole programs.
    - A64Loop.v: the machine of the compiled function: the vector machine with a stack pointer and the rest
      of memory.  A64Run.v: straight pieces of its code, and the tactics that execute them symbolically.
    - JitTemplate.v: the function [randomx_program_aarch64] of src/jit_compiler_a64_static.S, and
      src/jit_compiler_a64.cpp: [generateProgram], [generateProgramLight].  JitGenerate.v: the buffer they leave.
    - JitLoop.v: a turn of the loop against the body of [run_interpreted], for any source of dataset lines
      (Class [LineSource]).  JitLines.v, JitHybrid.v: the three sources: the dataset, the item function, and
      the partial dataset with the item function behind it.
    - JitEntry.v, JitRun.v: the function's entry and exit, and the function from call to return.
    - JitCall.v: src/vm.cpp: [run_jit].  JitHash.v: [run] with a JIT and both hash entry points over it.
    - Worker.v: src/mining_engine.cpp ([worker_loop], [update_nonce_in_template]) and
      include/armrx/mining_common.hpp ([Job], [meets_target]).
    - Engine.v: src/mining_engine.cpp: [set_job], the division of a dataset among threads, and the
      handshake by which running workers rebuild it, as a step relation.
    - PartialDataset.v: src/partial_dataset.cpp and its header: fill workers, rotation to a new seed,
      readers and the writer-preferring lock, as a step relation at the grain of atomic accesses.
    - Text.v: [std::string], [std::to_string] and number parsing, shared by the files below.
    - Json.v: src/json.cpp: [escape], [find_key], the accessors, [rpc_envelope].
    - Hex.v: hexadecimal text, nonces and targets, of src/stratum_client.cpp and src/miner_app.cpp.
    - Stratum.v: src/stratum_client.cpp: message builders, line reader, [handle_line] and its handlers.
    - Connection.v: src/stratum_client.cpp: [connect], [disconnect], [reconnect_loop].
    - Config.v: src/config.cpp.  Cli.v: src/cli_parser.cpp.
    - Pool.v: src/pool_manager.cpp.
    - Platform.v: src/memory.cpp, the CPU lists of src/cpu_features.cpp, and [MinerApp::run].

    How they call each other: [worker_turn] (Worker) hashes through Hash, which runs Vm over a Bytecode
    program and reads Dataset items made from the Argon2 cache; Engine and PartialDataset decide when
    those items may be read; [handle_line] (Stratum) produces the [Job]s of Worker from Json and Hex;
    Connection runs [handle_line] while it waits for a reply; Pool drives the client; Cli takes its
    defaults from Config, and Platform takes Cli's options.

    ** What the theorems show

    Primitives: BLAKE2b refines RFC 7693, its NEON compression is the scalar one, it throws on exactly
    the bad lengths; Argon2's H' and reference indexing refine RFC 9106; the reciprocal is exact, zero for a
    power of two and undefined for a zero divisor; the AES rounds of all builds are FIPS 197's with the key last; fills and hashes agree between builds,
    and the fused loops are the separate ones.

    Cache and dataset: the superscalar generator stays inside its tables (the port table included)
    and yields runnable programs; the prepared programs
    (divisors replaced by table indices) compute what the generated ones do; [initialize] leaves a
    usable cache ([cache_ready]); the dataset filler writes exactly the items of its range.

    Machine: every program compiles to bytecode that stays inside registers and scratchpad and
    terminates; the 2048 iterations are safe in both modes and both modes agree; a hash returns and is
    a function of the input and the cache alone ([hash_deterministic]); the pipelined entry point
    computes the same hashes ([pipelined_hash]).

    JIT: running a program in the order the scheduler emits it gives what the program gives, whenever the
    instructions the scheduler pins are the real branch targets ([scheduled_program_equiv]); they need not
    be ([hidden_anchor_diverges]); the dependence-graph scheduler never reorders
    ([dag_scheduler_identity]).  The machine code of a RandomX program fits its buffer
    ([program_code_fits]) and, run on the A64 machine, does what the interpreter does
    ([jit_program_equiv]), unless a floating-point memory operand has no displacement
    ([zero_displacement_diverges]).  The machine code of a superscalar program computes what the interpreter
    computes ([superscalar_code_equiv]) and always fits its buffer ([superscalar_code_fits]); the whole
    dataset item function stores the item of Dataset.v and gives back every register
    ([jit_dataset_item]), and the two-stream function of src/jit_dataset_2way.cpp stores two ([jit_two_items]).
    Put together: [run_jit], which patches the template, emits the program into it and
    calls it, ends with the registers, the scratchpad and the rounding mode of [run_interpreted], with a
    dataset, a cache or a partial dataset behind it, and leaves the buffer ready for the next program
    ([run_jit_equiv]).  A hash over compiled programs is the interpreted hash whenever the scheduler handles its
    eight programs ([jit_hash_equiv]).

    Worker: by induction over its reachable states, every turn returns and every reported share is
    the digest of the reported block and meets the target ([worker_shares_valid]).

    Threads: in every interleaving a worker that hashes in fast mode has a complete dataset of its job's
    seed ([worker_dataset_complete]); a read of the partial dataset returns the item of the reader's
    seed or reports a miss ([partial_reads_safe]); a fill that is not superseded completes
    ([partial_fill_completes]).  Engine.v also shows a state in which [set_job] and a worker wait for
    each other ([rotation_deadlock]).

    Protocol and text: every JSON accessor is total; of compact JSON it reads exactly the first place where the
    name stands as a key, which a text inside an array can be ([json_scalars_print]); a difficulty becomes
    the quotient (2^256 - 1) / D, or less once a remainder reaches 2^56 ([difficulty_target]); every line from a pool is handled without undefined behaviour or an escaped exception, and
    only well-formed jobs are announced; the three messages that announce a job reach the engine as
    announced ([job_announced]); a share that is printed reads back; the reader delivers exactly
    the lines of the stream, however it is cut into chunks; [connect] ends within two attempts and
    returns normally exactly when a handshake was accepted ([connect_negotiates]);
    a pool that accepts is reached by failover.

    Start-up: a configuration file that describes a configuration is loaded as it, from each of the places it is
    looked for ([config_described]); numbers are bounded, accepted options are in range; each start-up
    decision is the one the memory found asks for ([startup_decided]), in the code's own accounting, which
    counts one scratchpad per worker in fast mode where the engine allocates two ([fast_budget_short]).

    ** Bounds and fuel

    - [execute_fuel] = 768 instructions per pass of [execute_bytecode]: proved enough, since a branch
      is taken at most twice in a row.
    - The superscalar generator: [slot_fuel] = 1300 turns of the slot loop, proved enough; the two
      loops that redraw rejected random values take a parameter [rejections], and the theorem covers
      every bound, saying that [NoFuel] arises only when all draws are rejected.
    - [pair_loop] and BLAKE2b's [absorb] take the input size as fuel, which is enough.
    - The loops over text ([find_key], the accessors, the line reader) take the length of the text plus
      one: each turn advances the position, and the theorems prove that [NoFuel] does not arise.
    - The schedulers take the program size as fuel: each turn emits an instruction.
    - [connect] takes what each attempt meets as a list; two are proved enough.
    - [call] (JitCall.v) takes a bound on the number of A64 instructions; [run_jit_equiv] proves that there is
      one that is enough.
    - Threads are step relations without fuel; the liveness theorems bound the number of steps.

    ** Parameters

    In JitDataset.v, the assembled pieces of src/jit_compiler_a64_static.S ([templates]), with the lengths
    that jit_contract.h records ([contract]); JitItem.v instantiates them.  Chunks that a socket returns and what a connection attempt meets, with the lines the
    reader thread handles before each point where [connect] looks at what they change; [std::stod]; the contents of
    files and of the environment; the number of CPUs; whether a pool accepts a connection.  In JitCall.v, where
    the thread's memory has the scratchpad, the stack and the objects of the call ([Host]), and whether the
    changes of the pages' protection succeed.

    ** Not modelled, and the plan

    Of the JIT compiler: the mixing blocks of RandomX v2
    in the template, the code dump and the mapping of the buffer.
    NaN payloads: a floating-point operation that yields a NaN
    yields the canonical one here.  Memory orders weaker than sequential consistency.  Sockets, TLS,
    terminal output, metrics, logging, thermal control, memory mapping, CPU detection.
    Planned next, in this order: the worker's use of the partial dataset; the mining sessions of
    src/miner_app.cpp. *)

From Stdlib Require Export ZArith Lia Btauto.
From stdpp Require Export base tactics list numbers strings option.

Open Scope Z_scope.

(** ** Outcomes of C++ code

    A C++ call returns a value, throws, or has undefined behaviour (an access
    outside an object, here).  [NoFuel] only arises in definitions that bound a
    loop whose exit the source leaves to the data. *)

Inductive exn : Type :=
  | invalid_argument (msg : string)
  | out_of_range (msg : string)
  | runtime_error (msg : string)
  | bad_alloc
  | future_error.

Inductive outcome (A : Type) : Type :=
  | Done (a : A)
  | Throw (e : exn)
  | UB
  | NoFuel.
Arguments Done {A} _.
Arguments Throw {A} _.
Arguments UB {A}.
Arguments NoFuel {A}.

#[export] Instance outcome_ret : MRet outcome := fun A a => Done a.
#[export] Instance outcome_bind : MBind outcome := fun A B f m =>
  match m with
  | Done a => f a
  | Throw e => Throw e
  | UB => UB
  | NoFuel => NoFuel
  end.

Lemma bind_Done {A B} (m : outcome A) (f : A -> outcome B) b :
  (m ≫= f) = Done b <-> exists a, m = Done a /\ f a = Done b.
Proof.
  split.
  - destruct m; simpl; try discriminate; eauto.
  - intros (a & -> & H). exact H.
Qed.

Lemma Done_pair {A B} (a c : A) (b d : B) : Done (a, b) = Done (c, d) -> a = c /\ b = d.
Proof. intros H. split; congruence. Qed.

#[export] Instance exn_eq_dec : EqDecision exn.
Proof. solve_decision. Defined.
#[export] Instance outcome_eq_dec {A} `{!EqDecision A} : EqDecision (outcome A).
Proof. solve_decision. Defined.

(** ** Machine words

    A w-bit unsigned integer is a [Z] in [0, 2^w). *)

Definition wrap (w x : Z) : Z := x mod 2 ^ w.
Definition in_range (w x : Z) : Prop := 0 <= x < 2 ^ w.

Abbreviation word64 := (in_range 64).
Abbreviation word32 := (in_range 32).
Abbreviation byte8 := (in_range 8).
Abbreviation Bytes := (Forall byte8).
Abbreviation Words := (Forall word64).

Definition add64 (a b : Z) : Z := wrap 64 (a + b).
Definition sub64 (a b : Z) : Z := wrap 64 (a - b).
Definition mul64 (a b : Z) : Z := wrap 64 (a * b).
Definition shl64 (a n : Z) : Z := wrap 64 (Z.shiftl a n).
Definition shr (a n : Z) : Z := Z.shiftr a n.
Definition not64 (a : Z) : Z := Z.lxor a (Z.ones 64).

(** [std::rotr] and [std::rotl] on [std::uint64_t]. *)
Definition rotr64 (x n : Z) : Z :=
  let r := n mod 64 in Z.lor (Z.shiftr x r) (shl64 x (64 - r)).
Definition rotl64 (x n : Z) : Z :=
  let r := n mod 64 in Z.lor (shl64 x r) (Z.shiftr x (64 - r)).

(** [static_cast<std::int64_t>] and [static_cast<std::int32_t>]. *)
Definition to_signed (w x : Z) : Z :=
  let y := wrap w x in if y <? 2 ^ (w - 1) then y else y - 2 ^ w.

(** A 32-bit immediate sign-extended to 64 bits. *)
Definition sext32 (x : Z) : Z := wrap 64 (to_signed 32 x).

Definition u64_max : Z := 2 ^ 64 - 1.

Lemma pow2_pos w : 0 <= w -> 0 < 2 ^ w.
Proof. intros. apply Z.pow_pos_nonneg; lia. Qed.

Lemma wrap_range w x : 0 <= w -> in_range w (wrap w x).
Proof. intros. apply Z.mod_pos_bound. by apply pow2_pos. Qed.

Lemma wrap_small w x : in_range w x -> wrap w x = x.
Proof. intros. by apply Z.mod_small. Qed.

Lemma wrap_wrap w x : 0 <= w -> wrap w (wrap w x) = wrap w x.
Proof. intros. by apply wrap_small, wrap_range. Qed.

Lemma in_range_mono w w' x : 0 <= w <= w' -> in_range w x -> in_range w' x.
Proof.
  intros Hw [H0 H1]. split; [done|].
  eapply Z.lt_le_trans; [done|]. apply Z.pow_le_mono_r; lia.
Qed.

(** *** Reasoning bit by bit *)

Lemma testbit_wrap w x i :
  0 <= w -> 0 <= i -> Z.testbit (wrap w x) i = (i <? w) && Z.testbit x i.
Proof.
  intros Hw Hi. unfold wrap. destruct (Z.ltb_spec i w); simpl.
  - by rewrite Z.mod_pow2_bits_low by lia.
  - by rewrite Z.mod_pow2_bits_high by lia.
Qed.

Lemma testbit_shiftl x n i :
  0 <= i -> 0 <= n -> Z.testbit (Z.shiftl x n) i = (n <=? i) && Z.testbit x (i - n).
Proof.
  intros Hi Hn. rewrite Z.shiftl_spec by lia.
  destruct (Z.leb_spec n i); simpl; [done|]. apply Z.testbit_neg_r; lia.
Qed.

Lemma testbit_ones w i : 0 <= w -> 0 <= i -> Z.testbit (Z.ones w) i = (i <? w).
Proof.
  intros. destruct (Z.ltb_spec i w);
    [apply Z.ones_spec_low | apply Z.ones_spec_high]; lia.
Qed.

Lemma testbit_high w x i : in_range w x -> 0 <= w <= i -> Z.testbit x i = false.
Proof.
  intros Hx Hi. rewrite <- (wrap_small w x) by done.
  rewrite testbit_wrap by lia. by destruct (Z.ltb_spec i w); [lia|].
Qed.

Lemma in_range_testbit w x :
  0 <= w -> 0 <= x -> (forall i, w <= i -> Z.testbit x i = false) -> in_range w x.
Proof.
  intros Hw Hx Hb. replace x with (wrap w x); [by apply wrap_range|].
  apply Z.bits_inj'. intros i Hi. rewrite testbit_wrap by lia.
  destruct (Z.ltb_spec i w); simpl; [done|]. symmetry. apply Hb; lia.
Qed.

Create HintDb word.
#[export] Hint Resolve wrap_range : word.
#[export] Hint Extern 1 (0 <= _) => lia : word.
#[export] Hint Extern 1 (0 < _) => lia : word.
#[export] Hint Extern 1 (_ <= _ <= _) => lia : word.

Lemma lor_range w x y : 0 <= w -> in_range w x -> in_range w y -> in_range w (Z.lor x y).
Proof.
  intros Hw Hx Hy. apply in_range_testbit; [done| |].
  - apply Z.lor_nonneg; split; [apply Hx|apply Hy].
  - intros i Hi. rewrite Z.lor_spec, (testbit_high w x), (testbit_high w y); auto; lia.
Qed.

Lemma lxor_range w x y : 0 <= w -> in_range w x -> in_range w y -> in_range w (Z.lxor x y).
Proof.
  intros Hw Hx Hy. apply in_range_testbit; [done| |].
  - apply Z.lxor_nonneg; split; intros _; [apply Hy|apply Hx].
  - intros i Hi. rewrite Z.lxor_spec, (testbit_high w x), (testbit_high w y); auto; lia.
Qed.

Lemma land_range_r w x y : 0 <= w -> in_range w y -> in_range w (Z.land x y).
Proof.
  intros Hw Hy. apply in_range_testbit; [done| |].
  - apply Z.land_nonneg; right; apply Hy.
  - intros i Hi. rewrite Z.land_spec, (testbit_high w y) by (auto; lia). apply andb_false_r.
Qed.

Lemma land_range_l w x y : 0 <= w -> in_range w x -> in_range w (Z.land x y).
Proof. rewrite Z.land_comm. apply land_range_r. Qed.

Lemma shiftr_range w x n : 0 <= w -> 0 <= n -> in_range w x -> in_range w (Z.shiftr x n).
Proof.
  intros Hw Hn Hx. apply in_range_testbit; [done| |].
  - apply Z.shiftr_nonneg, Hx.
  - intros i Hi. rewrite Z.shiftr_spec by lia. apply (testbit_high w); [done|lia].
Qed.

Lemma shiftr_range_sub w x n : 0 <= n <= w -> in_range w x -> in_range (w - n) (Z.shiftr x n).
Proof.
  intros Hn Hx. apply in_range_testbit; [lia| |].
  - apply Z.shiftr_nonneg, Hx.
  - intros i Hi. rewrite Z.shiftr_spec by lia. apply (testbit_high w); [done|lia].
Qed.

Lemma ones_range w : 0 <= w -> in_range w (Z.ones w).
Proof.
  intros. rewrite Z.ones_equiv. unfold in_range. pose proof (pow2_pos w). lia.
Qed.

Lemma add64_range a b : word64 (add64 a b).
Proof. by apply wrap_range. Qed.
Lemma sub64_range a b : word64 (sub64 a b).
Proof. by apply wrap_range. Qed.
Lemma mul64_range a b : word64 (mul64 a b).
Proof. by apply wrap_range. Qed.
Lemma shl64_range a n : word64 (shl64 a n).
Proof. by apply wrap_range. Qed.
Lemma not64_range a : word64 a -> word64 (not64 a).
Proof. intros. by apply lxor_range; [| |apply ones_range]. Qed.
Lemma rotr64_range x n : word64 x -> word64 (rotr64 x n).
Proof.
  intros Hx. pose proof (Z.mod_pos_bound n 64). unfold rotr64. apply lor_range; [lia| |].
  - apply shiftr_range; lia || done.
  - apply shl64_range.
Qed.
Lemma rotl64_range x n : word64 x -> word64 (rotl64 x n).
Proof.
  intros Hx. pose proof (Z.mod_pos_bound n 64). unfold rotl64. apply lor_range; [lia| |].
  - apply shl64_range.
  - apply shiftr_range; lia || done.
Qed.
Lemma sext32_range x : word64 (sext32 x).
Proof. by apply wrap_range. Qed.

#[export] Hint Resolve lor_range lxor_range land_range_l land_range_r shiftr_range ones_range
  add64_range sub64_range mul64_range shl64_range not64_range rotr64_range rotl64_range
  sext32_range : word.

Lemma testbit_rotr64 x n i :
  word64 x -> 0 <= i < 64 -> Z.testbit (rotr64 x n) i = Z.testbit x ((i + n) mod 64).
Proof.
  intros Hx Hi. pose proof (Z.mod_pos_bound n 64) as Hn.
  unfold rotr64, shl64. rewrite Z.lor_spec, Z.shiftr_spec, testbit_wrap, testbit_shiftl by lia.
  replace ((i + n) mod 64) with ((i + n mod 64) mod 64) by (by rewrite Z.add_mod_idemp_r).
  destruct (Z.ltb_spec i 64); [|lia]. simpl. set (r := n mod 64) in *.
  destruct (Z.leb_spec (64 - r) i); simpl.
  - rewrite (testbit_high 64) by (done || lia). simpl. f_equal.
    rewrite (Z.mod_eq (i + r) 64) by lia.
    assert ((i + r) / 64 = 1) as -> by (Z.div_mod_to_equations; lia). lia.
  - rewrite orb_false_r. f_equal. symmetry. apply Z.mod_small. lia.
Qed.

(** Two 64-bit words with the same low 64 bits are equal. *)
Lemma word64_ext x y :
  word64 x -> word64 y -> (forall i, 0 <= i < 64 -> Z.testbit x i = Z.testbit y i) -> x = y.
Proof.
  intros Hx Hy H. apply Z.bits_inj'. intros i Hi.
  destruct (Z.lt_ge_cases i 64); [apply H; lia|].
  rewrite (testbit_high 64 x), (testbit_high 64 y); auto; lia.
Qed.

Lemma add64_wrap_l a b : add64 (wrap 64 a) b = add64 a b.
Proof. unfold add64, wrap. apply Z.add_mod_idemp_l. lia. Qed.
Lemma add64_wrap_r a b : add64 a (wrap 64 b) = add64 a b.
Proof. unfold add64, wrap. apply Z.add_mod_idemp_r. lia. Qed.
Lemma add64_assoc a b c : add64 a (add64 b c) = add64 (add64 a b) c.
Proof.
  unfold add64, wrap. rewrite Z.add_mod_idemp_l, Z.add_mod_idemp_r by lia. f_equal. lia.
Qed.
Lemma add64_comm a b : add64 a b = add64 b a.
Proof. unfold add64. f_equal. lia. Qed.

(** Turn the boolean tests of the code into propositions, then decide. *)
Ltac bools :=
  repeat match goal with
    | H : (_ && _)%bool = true |- _ => apply andb_true_iff in H as [? ?]
    | H : (_ || _)%bool = false |- _ => apply orb_false_iff in H as [? ?]
    | H : (_ <=? _) = true |- _ => apply Z.leb_le in H
    | H : (_ <=? _) = false |- _ => apply Z.leb_gt in H
    | H : (_ <? _) = true |- _ => apply Z.ltb_lt in H
    | H : (_ <? _) = false |- _ => apply Z.ltb_ge in H
    | H : (_ =? _) = true |- _ => apply Z.eqb_eq in H
    | H : (_ =? _) = false |- _ => apply Z.eqb_neq in H
    | H : negb _ = true |- _ => apply negb_true_iff in H
    | H : negb _ = false |- _ => apply negb_false_iff in H
    end.
Ltac blia := bools; lia.

(** ** Byte strings and little-endian words

    Arrays and vectors are lists; [l !!! i] reads and [<[i := x]> l] writes one
    element.  A memory access that the source does through a pointer goes through
    [read_bytes] and [write_bytes], which are [UB] outside the object. *)

Fixpoint le_bytes (n : nat) (x : Z) : list Z :=
  match n with
  | O => []
  | S n => x mod 256 :: le_bytes n (x / 256)
  end.

Fixpoint of_le (bs : list Z) : Z :=
  match bs with
  | [] => 0
  | b :: bs => b + 256 * of_le bs
  end.

(** [std::memcpy] of [n] bytes at [off] of an object, as an access check. *)
Definition read_bytes (mem : list Z) (off : Z) (n : nat) : outcome (list Z) :=
  if (0 <=? off) && (off + Z.of_nat n <=? Z.of_nat (length mem))
  then Done (take n (drop (Z.to_nat off) mem)) else UB.

Definition write_bytes (mem : list Z) (off : Z) (bs : list Z) : outcome (list Z) :=
  if (0 <=? off) && (off + Z.of_nat (length bs) <=? Z.of_nat (length mem))
  then Done (take (Z.to_nat off) mem ++ bs ++ drop (Z.to_nat off + length bs) mem) else UB.

Definition read_le (mem : list Z) (off : Z) (n : nat) : outcome Z :=
  bs ← read_bytes mem off n; Done (of_le bs).

Lemma length_le_bytes n x : length (le_bytes n x) = n.
Proof. revert x; induction n; simpl; auto. Qed.

Lemma le_bytes_range n x : Bytes (le_bytes n x).
Proof.
  revert x; induction n; intros x; simpl; constructor; auto.
  apply (Z.mod_pos_bound x 256). lia.
Qed.

Lemma of_le_range bs : Bytes bs -> in_range (8 * Z.of_nat (length bs)) (of_le bs).
Proof.
  induction 1 as [|b bs Hb _ IH]; [unfold in_range; simpl; lia|].
  unfold in_range in *. cbn [length of_le].
  replace (8 * Z.of_nat (S (length bs))) with (8 + 8 * Z.of_nat (length bs)) by lia.
  rewrite Z.pow_add_r by lia. change (2 ^ 8) with 256 in *. lia.
Qed.

(** Storing a word and loading it back gives the word (truncated to the stored width). *)
Lemma of_le_bytes n x : of_le (le_bytes n x) = wrap (8 * Z.of_nat n) x.
Proof.
  revert x; induction n as [|n IH]; intros x; cbn [le_bytes of_le].
  - unfold wrap. change (2 ^ (8 * Z.of_nat 0)) with 1. by rewrite Z.mod_1_r.
  - rewrite IH. unfold wrap.
    replace (8 * Z.of_nat (S n)) with (8 + 8 * Z.of_nat n) by lia.
    rewrite Z.pow_add_r by lia. change (2 ^ 8) with 256.
    rewrite Z.rem_mul_r; [lia|lia|]. apply pow2_pos. lia.
Qed.

Lemma le_bytes_of_le bs : Bytes bs -> le_bytes (length bs) (of_le bs) = bs.
Proof.
  induction 1 as [|b bs Hb _ IH]; [done|]. cbn [length le_bytes of_le]. f_equal.
  - rewrite (Z.mul_comm 256), Z.mod_add by lia. by apply Z.mod_small.
  - rewrite (Z.mul_comm 256), Z.div_add by lia. by rewrite (Z.div_small b 256).
Qed.

Lemma read_bytes_Done mem off n bs :
  read_bytes mem off n = Done bs -> length bs = n.
Proof.
  unfold read_bytes. destruct (_ && _) eqn:E; [|done]. intros [= <-].
  rewrite length_take, length_drop. lia.
Qed.

Lemma read_bytes_ok mem off n :
  0 <= off -> off + Z.of_nat n <= Z.of_nat (length mem) ->
  read_bytes mem off n = Done (take n (drop (Z.to_nat off) mem)).
Proof. intros. unfold read_bytes. destruct (_ && _) eqn:E; [done|lia]. Qed.

Lemma write_bytes_ok mem off bs :
  0 <= off -> off + Z.of_nat (length bs) <= Z.of_nat (length mem) ->
  write_bytes mem off bs =
    Done (take (Z.to_nat off) mem ++ bs ++ drop (Z.to_nat off + length bs) mem).
Proof. intros. unfold write_bytes. destruct (_ && _) eqn:E; [done|lia]. Qed.

Lemma write_bytes_length mem off bs mem' :
  write_bytes mem off bs = Done mem' -> length mem' = length mem.
Proof.
  unfold write_bytes. destruct (_ && _) eqn:E; [|done]. intros [= <-].
  rewrite !length_app, length_take, length_drop. lia.
Qed.

Lemma write_bytes_range mem off bs mem' :
  Bytes mem -> Bytes bs -> write_bytes mem off bs = Done mem' -> Bytes mem'.
Proof.
  intros Hm Hb. unfold write_bytes. destruct (_ && _) eqn:E; [|done]. intros [= <-].
  rewrite !Forall_app. auto using Forall_take, Forall_drop.
Qed.

(** What was written is what is read. *)
Lemma read_write_same mem off bs mem' :
  write_bytes mem off bs = Done mem' -> read_bytes mem' off (length bs) = Done bs.
Proof.
  intros H. pose proof (write_bytes_length _ _ _ _ H) as Hl. revert H.
  unfold write_bytes. destruct (_ && _) eqn:E; [|done]. intros [= <-].
  rewrite read_bytes_ok by (rewrite ?Hl; lia). f_equal.
  rewrite drop_app_length'; [by rewrite take_app_length|]. rewrite length_take. blia.
Qed.

(** Two adjacent writes are one, two adjacent reads are one. *)
Lemma write_bytes_app mem off b1 b2 :
  0 <= off -> off + Z.of_nat (length b1) + Z.of_nat (length b2) <= Z.of_nat (length mem) ->
  (mem' ← write_bytes mem off b1; write_bytes mem' (off + Z.of_nat (length b1)) b2) =
    write_bytes mem off (b1 ++ b2).
Proof.
  intros H0 Hl. rewrite (write_bytes_ok _ _ b1), (write_bytes_ok mem _ (b1 ++ b2))
    by (rewrite ?length_app; lia). cbn [mbind outcome_bind].
  rewrite write_bytes_ok by (rewrite ?length_app, ?length_take, ?length_drop; lia).
  f_equal. replace (Z.to_nat (off + Z.of_nat (length b1))) with (Z.to_nat off + length b1)%nat by lia.
  rewrite (app_assoc (take _ mem) b1), take_app_le by (rewrite length_app, length_take; lia).
  rewrite take_ge, drop_app_ge by (rewrite length_app, length_take; lia).
  rewrite drop_drop, length_app, length_take, <- !app_assoc, length_app. do 4 f_equal. lia.
Qed.

Lemma read_bytes_app mem off n1 n2 :
  0 <= off -> off + Z.of_nat n1 + Z.of_nat n2 <= Z.of_nat (length mem) ->
  (b1 ← read_bytes mem off n1; b2 ← read_bytes mem (off + Z.of_nat n1) n2; Done (b1 ++ b2)) =
    read_bytes mem off (n1 + n2).
Proof.
  intros H0 Hl. rewrite !read_bytes_ok by lia. cbn [mbind outcome_bind]. f_equal.
  replace (Z.to_nat (off + Z.of_nat n1)) with (Z.to_nat off + n1)%nat by lia.
  by rewrite <- take_take_drop, drop_drop.
Qed.

#[export] Hint Resolve le_bytes_range Forall_take Forall_drop : word.
Create Rewrite HintDb len.
#[export] Hint Rewrite @length_app @length_take @length_drop @length_insert length_le_bytes
  @length_replicate @length_seq @length_fmap : len.

(** Reading an element of a list of words gives a word. *)
Lemma Forall_lookup_total_range w l i : 0 < w -> Forall (in_range w) l -> in_range w (l !!! i).
Proof.
  intros Hw H. destruct (l !! i) eqn:E.
  - rewrite (list_lookup_total_correct _ _ _ E). by eapply Forall_lookup_1.
  - rewrite list_lookup_total_alt, E. simpl. split; [done|].
    apply (Z.pow_gt_1 2 w); lia.
Qed.

Lemma Forall_insert_range w l i x :
  in_range w x -> Forall (in_range w) l -> Forall (in_range w) (<[i := x]> l).
Proof. intros. by apply Forall_insert. Qed.

#[export] Hint Resolve Forall_lookup_total_range Forall_insert_range : word.

(** An invariant of every step is an invariant of the fold. *)
Lemma foldl_inv {A B} (P : A -> Prop) (f : A -> B -> A) l a :
  (forall a b, P a -> P (f a b)) -> P a -> P (foldl f a l).
Proof. intros Hf. revert a. induction l; simpl; auto. Qed.

(** Two folds agree when their steps agree under an invariant. *)
Lemma foldl_ext_inv {A B} (P : A -> Prop) (f g : A -> B -> A) l a :
  (forall a b, P a -> P (g a b)) -> (forall a b, P a -> f a b = g a b) ->
  P a -> foldl f a l = foldl g a l.
Proof.
  intros Hg Hfg. revert a. induction l as [|b l IH]; intros a Ha; simpl; [done|].
  rewrite Hfg by done. auto.
Qed.

(** [returns P m]: the computation returns, and its result satisfies [P]. *)
Definition returns {A} (P : A -> Prop) (m : outcome A) : Prop :=
  match m with Done a => P a | _ => False end.

Lemma returns_bind {A B} (P : A -> Prop) (Q : B -> Prop) (m : outcome A) (f : A -> outcome B) :
  returns P m -> (forall a, P a -> returns Q (f a)) -> returns Q (m ≫= f).
Proof. destruct m; simpl; auto; done. Qed.

Lemma returns_weaken {A} (P Q : A -> Prop) (m : outcome A) :
  returns P m -> (forall a, P a -> Q a) -> returns Q m.
Proof. destruct m; simpl; auto. Qed.

Lemma returns_Done {A} (P : A -> Prop) (m : outcome A) :
  returns P m <-> exists a, m = Done a /\ P a.
Proof.
  split; [destruct m; simpl; try done; eauto|]. by intros (a & -> & H).
Qed.

(** An in-bounds load of [n] bytes gives an [8*n]-bit word. *)
Lemma read_le_range mem off n w :
  Bytes mem -> 0 <= off -> off + Z.of_nat n <= Z.of_nat (length mem) -> w = 8 * Z.of_nat n ->
  returns (in_range w) (read_le mem off n).
Proof.
  intros Hm H0 Hn ->. unfold read_le. rewrite read_bytes_ok by done. cbn.
  assert (length (take n (drop (Z.to_nat off) mem)) = n) as Hl by (rewrite length_take, length_drop; lia).
  rewrite <- Hl at 1. apply of_le_range. by apply Forall_take, Forall_drop.
Qed.

(** [a[i]] for an index of any integer type. *)
Definition at_index {A} (l : list A) (i : Z) : outcome A :=
  if 0 <=? i then match l !! Z.to_nat i with Some x => Done x | None => UB end else UB.

Lemma at_index_ok {A} (P : A -> Prop) (l : list A) i :
  Forall P l -> 0 <= i < Z.of_nat (length l) -> exists x, at_index l i = Done x /\ P x.
Proof.
  intros HP Hi. unfold at_index. destruct (Z.leb_spec 0 i); [|lia].
  destruct (lookup_lt_is_Some_2 l (Z.to_nat i)) as [x E]; [lia|]. rewrite E. exists x. split; [done|].
  by apply (Forall_lookup_1 _ _ _ _ HP E).
Qed.

Lemma at_index_Forall {A} (P : A -> Prop) (l : list A) i x :
  Forall P l -> at_index l i = Done x -> P x.
Proof.
  intros HP. unfold at_index. destruct (0 <=? i); [|done].
  destruct (l !! _) eqn:E; [|done]. intros [= <-]. by apply (Forall_lookup_1 _ _ _ _ HP E).
Qed.

Lemma at_index_Done {A} (l : list A) i x :
  at_index l i = Done x <-> 0 <= i /\ l !! Z.to_nat i = Some x.
Proof.
  unfold at_index. destruct (Z.leb_spec 0 i); [|split; [done|lia]].
  destruct (l !! Z.to_nat i); split; try done; [by intros [= ->]|by intros [_ [= ->]]|].
  by intros [_ ?].
Qed.

Lemma at_index_insert_ne {A} (l : list A) i j x :
  0 <= i -> i <> j -> at_index (<[Z.to_nat i := x]> l) j = at_index l j.
Proof.
  intros Hi Hne. unfold at_index. destruct (Z.leb_spec 0 j); [|done].
  by rewrite list_lookup_insert_ne by lia.
Qed.

Lemma at_index_insert_eq {A} (l : list A) i x :
  0 <= i < Z.of_nat (length l) -> at_index (<[Z.to_nat i := x]> l) i = Done x.
Proof.
  intros Hi. apply at_index_Done. split; [lia|]. apply list_lookup_insert_eq. lia.
Qed.

(** A [for] loop whose body may throw: stop at the first outcome that is not [Done]. *)
Fixpoint ofoldl {A B} (f : A -> B -> outcome A) (a : A) (l : list B) : outcome A :=
  match l with
  | [] => Done a
  | b :: l => a ← f a b; ofoldl f a l
  end.

Lemma ofoldl_ok {A B} (P : A -> Prop) (f : A -> B -> outcome A) l a :
  (forall a b, b ∈ l -> P a -> exists a', f a b = Done a' /\ P a') -> P a ->
  exists a', ofoldl f a l = Done a' /\ P a'.
Proof.
  revert a. induction l as [|b l IH]; intros a Hf Ha; cbn [ofoldl]; [eauto|].
  destruct (Hf a b) as (a1 & -> & Ha1); [by left|done|]. cbn. apply IH; [|done].
  intros a2 b2 Hb. apply Hf. by right.
Qed.

Lemma ofoldl_app {A B} (f : A -> B -> outcome A) a l1 l2 :
  ofoldl f a (l1 ++ l2) = (a' ← ofoldl f a l1; ofoldl f a' l2).
Proof.
  revert a. induction l1 as [|b l1 IH]; intros a; cbn; [done|]. destruct (f a b); cbn; auto.
Qed.

(** Two loops agree when their bodies agree under an invariant. *)
Lemma ofoldl_ext_inv {A B} (P : A -> Prop) (f g : A -> B -> outcome A) l a :
  (forall a b a', b ∈ l -> P a -> g a b = Done a' -> P a') ->
  (forall a b, b ∈ l -> P a -> f a b = g a b) -> P a -> ofoldl f a l = ofoldl g a l.
Proof.
  revert a. induction l as [|b l IH]; intros a Hg Hfg Ha; cbn [ofoldl]; [done|].
  rewrite Hfg by (done || by left). destruct (g a b) eqn:E; cbn; try done.
  apply IH; [| |by eapply (Hg a b); [left|done|done]].
  - intros a1 b1 a2 Hb. apply Hg. by right.
  - intros a1 b1 Hb. apply Hfg. by right.
Qed.

(** What every turn keeps, the loop keeps. *)
Lemma ofoldl_keeps {A B} (P : A -> A -> Prop) (f : A -> B -> outcome A) l a a' :
  (forall a, P a a) -> (forall a b c, P a b -> P b c -> P a c) ->
  (forall a b a', f a b = Done a' -> P a a') -> ofoldl f a l = Done a' -> P a a'.
Proof.
  intros Hr Ht Hf. revert a. induction l as [|b l IH]; intros a; cbn [ofoldl].
  - intros E. assert (a = a') as -> by congruence. done.
  - intros E. apply bind_Done in E as (a1 & E1 & E). eauto.
Qed.

(** Split a hypothesis [m1 ≫= fun x1 => ... = Done y] into its steps. *)
Ltac steps H :=
  repeat (lazymatch type of H with mbind _ _ = _ => idtac end;
    apply bind_Done in H as (? & ? & H); cbv beta zeta in H;
    repeat match type of H with
      | context [match ?p with pair _ _ => _ end] => is_var p; destruct p
      end).

(** A list of known length is a list of that many variables. *)
Ltac explode l :=
  match goal with
  | H : length l = _ |- _ =>
      let rec go l' := (destruct l'; [discriminate H|]; cbn [length] in H;
        match type of H with context [length ?l''] => go l'' end) || (destruct l'; [clear H|discriminate H])
      in go l
  end.
