(* ===== verification/Neon.v ===== *)
(** * The NEON intrinsics the sources use

    A [uint64x2_t] is a pair of 64-bit lanes.  The definitions follow the Arm
    intrinsics reference; [vsriq_n_u64 d x n] shifts [x] right by [n] and inserts the
    result below the top [n] bits of [d].  Shared by the NEON builds of BLAKE2b,
    Argon2 and the superscalar interpreter.  A [uint8x16_t] is the list of its 16 bytes; the
    table lookup [vqtbl1q_u8] gives 0 for an index above 15.  Used by the AES code. *)

From S2P Require Import Prelude.

Abbreviation vec2 := (Z * Z)%type.
Definition vmap2 (f : Z -> Z -> Z) (x y : vec2) : vec2 := (f x.1 y.1, f x.2 y.2).
Definition vaddq (x y : vec2) : vec2 := vmap2 add64 x y.
Definition veorq (x y : vec2) : vec2 := vmap2 Z.lxor x y.
Definition vshlq_n (x : vec2) (n : Z) : vec2 := (shl64 x.1 n, shl64 x.2 n).
Definition sri_lane (n d x : Z) : Z :=
  Z.lor (Z.land d (Z.lxor (Z.ones 64) (Z.ones (64 - n)))) (Z.shiftr x n).
Definition vsriq_n (d x : vec2) (n : Z) : vec2 := vmap2 (sri_lane n) d x.
Definition vcombine (lo hi : Z) : vec2 := (lo, hi).
Definition vmovq_n (x : Z) : vec2 := (x, x).
Definition vst1q (i : nat) (x : vec2) (v : list Z) : list Z := <[S i := x.2]> (<[i := x.1]> v).

Definition vld1q (i : nat) (v : list Z) : vec2 := (v !!! i, v !!! S i).
Definition vsubq (x y : vec2) : vec2 := vmap2 sub64 x y.
(** [vmull_u32(vmovn_u64(x), vmovn_u64(y))]: the 32x32-bit product of the low halves. *)
Definition vmull_low (x y : vec2) : vec2 := vmap2 (fun a b => wrap 32 a * wrap 32 b) x y.
(** [vrev64q_u32]: swap the two 32-bit halves of each lane. *)
Definition rev64_lane (x : Z) : Z := Z.lor (Z.shiftr x 32) (shl64 x 32).
Definition vrev64q_u32 (x : vec2) : vec2 := (rev64_lane x.1, rev64_lane x.2).

(** Shift left by [64 - n] and insert the right shift by [n] below it: a rotation. *)
Lemma sri_shl_rotr x n k :
  word64 x -> 0 < n < 64 -> k = 64 - n -> sri_lane n (shl64 x k) x = rotr64 x n.
Proof.
  intros Hx Hn ->. apply word64_ext.
  - unfold sri_lane. auto 6 with word.
  - by apply rotr64_range.
  - intros i Hi. rewrite testbit_rotr64 by done. unfold sri_lane, shl64.
    rewrite Z.lor_spec, Z.land_spec, testbit_wrap, testbit_shiftl, Z.lxor_spec, !testbit_ones,
      Z.shiftr_spec by lia.
    destruct (Z.ltb_spec i 64), (Z.ltb_spec i (64 - n)), (Z.leb_spec (64 - n) i); try lia;
      simpl; rewrite ?andb_false_r, ?andb_true_r, ?orb_false_l, ?orb_false_r.
    + f_equal. symmetry. apply Z.mod_small. lia.
    + rewrite (testbit_high 64 x (i + n)) by (done || lia). rewrite orb_false_r. f_equal.
      rewrite (Z.mod_eq (i + n) 64) by lia.
      assert ((i + n) / 64 = 1) as -> by (Z.div_mod_to_equations; lia). lia.
Qed.

Definition wvec2 (x : vec2) : Prop := word64 x.1 /\ word64 x.2.

Lemma vsriq_shlq x n k :
  wvec2 x -> 0 < n < 64 -> k = 64 - n ->
  vsriq_n (vshlq_n x k) x n = (rotr64 x.1 n, rotr64 x.2 n).
Proof. intros [H1 H2] Hn Hk. unfold vsriq_n, vmap2. simpl. by rewrite !sri_shl_rotr. Qed.

Lemma veorq_wvec x y : wvec2 x -> wvec2 y -> wvec2 (veorq x y).
Proof. intros [] []. split; simpl; auto with word. Qed.
Lemma vaddq_wvec x y : wvec2 (vaddq x y).
Proof. split; simpl; auto with word. Qed.
Lemma rot_wvec x n : wvec2 x -> wvec2 (rotr64 x.1 n, rotr64 x.2 n).
Proof. intros []. split; simpl; auto with word. Qed.
#[export] Hint Resolve veorq_wvec vaddq_wvec rot_wvec : word.

(** ** Byte vectors *)

Abbreviation uint8x16 := (list Z).
Definition vdupq_n_u8 (c : Z) : uint8x16 := replicate 16 c.
Definition veorq_u8 (x y : uint8x16) : uint8x16 := zip_with Z.lxor x y.
Definition vandq_u8 (x y : uint8x16) : uint8x16 := zip_with Z.land x y.
Definition vorrq_u8 (x y : uint8x16) : uint8x16 := zip_with Z.lor x y.
Definition vaddq_u8 (x y : uint8x16) : uint8x16 := zip_with (fun a b => wrap 8 (a + b)) x y.
Definition vsubq_u8 (x y : uint8x16) : uint8x16 := zip_with (fun a b => wrap 8 (a - b)) x y.
Definition vcgeq_u8 (x y : uint8x16) : uint8x16 :=
  zip_with (fun a b => if b <=? a then 255 else 0) x y.
Definition vshlq_n_u8 (x : uint8x16) (n : Z) : uint8x16 := (fun a => wrap 8 (Z.shiftl a n)) <$> x.
Definition vshrq_n_u8 (x : uint8x16) (n : Z) : uint8x16 := (fun a => Z.shiftr a n) <$> x.
Definition tbl_lane (tbl : uint8x16) (i : Z) : Z := if i <? 16 then tbl !!! Z.to_nat i else 0.
Definition vqtbl1q_u8 (tbl idx : uint8x16) : uint8x16 := tbl_lane tbl <$> idx.

(** Vectors computed lane by lane from one vector [s]. *)
Section lanes.
Context (s : uint8x16) (Hs : length s = 16%nat).

Lemma lanes_zip (op : Z -> Z -> Z) (g h : Z -> Z) :
  zip_with op (g <$> s) (h <$> s) = (fun x => op (g x) (h x)) <$> s.
Proof. clear Hs. induction s as [|x l IH]; cbn; [done|]. by f_equal. Qed.

Lemma lanes_fmap (g h : Z -> Z) : g <$> (h <$> s) = (fun x => g (h x)) <$> s.
Proof. by rewrite <- list_fmap_compose. Qed.

Lemma lanes_dup c : vdupq_n_u8 c = (fun _ => c) <$> s.
Proof. unfold vdupq_n_u8. by explode s. Qed.
End lanes.
