(* ===== verification/RandomX.v ===== *)
(** * Consensus parameters and the instruction format

    Models src/include/armrx/randomx_config.hpp (sizes and scratchpad masks) and
    src/include/armrx/instruction.hpp (the 8-byte instruction and its fields), plus the
    integer helpers that src/src/superscalar.cpp and src/src/vm.cpp both define
    ([signExtend2sCompl], [mulh], [smulh], [randomx_reciprocal]). *)

From S2P Require Import Prelude.

Definition kRandomXCacheBytes : Z := 256 * 1024 * 1024.
Definition kRandomXDatasetBytes : Z := 2 * 1024 * 1024 * 1024 + 32 * 1024 * 1024.
Definition kRandomXScratchpadL1Bytes : Z := 16 * 1024.
Definition kRandomXScratchpadL2Bytes : Z := 256 * 1024.
Definition kRandomXScratchpadBytes : Z := 2 * 1024 * 1024.
Definition kRandomXCacheAccesses : nat := 8.
Definition kSuperscalarLatency : Z := 170.
Definition kSuperscalarMaxSize : Z := 3 * kSuperscalarLatency + 2.

Definition scratchpad_mask (bytes alignment : Z) : Z :=
  wrap 32 ((bytes / alignment - 1) * alignment).
Definition kScratchpadL1Mask : Z := scratchpad_mask kRandomXScratchpadL1Bytes 8.
Definition kScratchpadL2Mask : Z := scratchpad_mask kRandomXScratchpadL2Bytes 8.
Definition kScratchpadL3Mask : Z := scratchpad_mask kRandomXScratchpadBytes 8.
Definition kScratchpadL3Mask64 : Z := scratchpad_mask kRandomXScratchpadBytes 64.

Inductive RandomXMode : Type := fast | light.

Definition randomx_shared_memory (mode : RandomXMode) : Z :=
  match mode with fast => kRandomXDatasetBytes | light => kRandomXCacheBytes end.
Definition randomx_worker_memory : Z := kRandomXScratchpadBytes.

(** ** Instructions *)

Record Instruction : Type := mkInstruction {
  opcode : Z;
  dst : Z;
  src : Z;
  mod_ : Z;
  imm32 : Z;
}.

Definition getImm32 (i : Instruction) : Z := imm32 i.
Definition setImm32 (val : Z) (i : Instruction) : Instruction :=
  mkInstruction (opcode i) (dst i) (src i) (mod_ i) val.
Definition setMod (val : Z) (i : Instruction) : Instruction :=
  mkInstruction (opcode i) (dst i) (src i) val (imm32 i).
Definition getModMem (i : Instruction) : Z := mod_ i mod 4.
Definition getModShift (i : Instruction) : Z := Z.shiftr (mod_ i) 2 mod 4.
Definition getModCond (i : Instruction) : Z := Z.shiftr (mod_ i) 4.

(** The object representation: opcode, dst, src, mod, imm32 (little-endian). *)
Definition decode_instruction (bs : list Z) : Instruction :=
  mkInstruction (bs !!! 0%nat) (bs !!! 1%nat) (bs !!! 2%nat) (bs !!! 3%nat)
    (of_le (take 4 (drop 4 bs))).

Definition instruction_wf (i : Instruction) : Prop :=
  byte8 (opcode i) /\ byte8 (dst i) /\ byte8 (src i) /\ byte8 (mod_ i) /\ word32 (imm32 i).

(** ** Integer helpers *)

Definition signExtend2sCompl (value : Z) : Z := sext32 value.
Definition mulh (a b : Z) : Z := wrap 64 (Z.shiftr (a * b) 64).
Definition smulh (a b : Z) : Z := wrap 64 (Z.shiftr (to_signed 64 a * to_signed 64 b) 64).

(** [64 - __builtin_clzll(divisor)] is the number of bits of [divisor]. *)
Definition bit_length (x : Z) : Z := Z.log2 x + 1.

(** A divisor of 0 is excluded by an [assert], which the default build (Release, NDEBUG) compiles to nothing:
    the division that follows is undefined. *)
Definition randomx_reciprocal (divisor : Z) : outcome Z :=
  if divisor =? 0 then UB else
  let p2exp63 := shl64 1 63 in
  let q := p2exp63 / divisor in
  let r := p2exp63 mod divisor in
  let shift := bit_length divisor in
  Done (add64 (shl64 q shift) (shl64 r shift / divisor)).

(** The 32-bit test of superscalar.cpp and the 64-bit one of vm.cpp. *)
Definition isZeroOrPowerOf2 (val : Z) : bool :=
  (val =? 0) || (Z.land val (wrap 32 (val - 1)) =? 0).
Definition isZeroOrPowerOf2_64 (x : Z) : bool := Z.land x (wrap 64 (x - 1)) =? 0.

#[export] Hint Resolve wrap_range : word.
Lemma mulh_range a b : word64 (mulh a b).
Proof. by apply wrap_range. Qed.
Lemma smulh_range a b : word64 (smulh a b).
Proof. by apply wrap_range. Qed.
#[export] Hint Resolve mulh_range smulh_range : word.

Lemma getModShift_range i : 0 <= getModShift i < 4.
Proof. apply Z.mod_pos_bound. lia. Qed.

(** A number with no bit in common with its predecessor is a power of two. *)
Lemma land_pred_pow2 x : 0 < x -> Z.land x (x - 1) = 0 <-> x = 2 ^ Z.log2 x.
Proof.
  intros Hx. split; intros H.
  - destruct (Z.log2_spec x Hx) as [Hlo Hhi].
    destruct (Z.eq_dec x (2 ^ Z.log2 x)) as [|Hne]; [done|exfalso].
    assert (Z.testbit (Z.land x (x - 1)) (Z.log2 x) = true) as Hb; [|by rewrite H, Z.testbit_0_l in Hb].
    rewrite Z.land_spec, Z.bit_log2 by done. simpl.
    replace (Z.log2 x) with (Z.log2 (x - 1)); [apply Z.bit_log2|].
    + enough (0 < 2 ^ Z.log2 x) by lia. apply pow2_pos, Z.log2_nonneg.
    + apply Z.log2_unique; [apply Z.log2_nonneg|]. lia.
  - rewrite H. replace (2 ^ Z.log2 x - 1) with (Z.ones (Z.log2 x))
      by (rewrite Z.ones_equiv; lia).
    rewrite Z.land_ones by apply Z.log2_nonneg. apply Z.mod_same.
    pose proof (pow2_pos (Z.log2 x) (Z.log2_nonneg x)). lia.
Qed.

Lemma isZeroOrPowerOf2_spec x :
  word32 x -> isZeroOrPowerOf2 x = false <-> 0 < x /\ x <> 2 ^ Z.log2 x.
Proof.
  intros [H0 H1]. unfold isZeroOrPowerOf2. rewrite orb_false_iff, Z.eqb_neq.
  split.
  - intros [Hx Hl]. rewrite Z.eqb_neq in Hl. split; [lia|]. intros E. apply Hl.
    rewrite wrap_small by (split; lia). apply land_pred_pow2; lia || done.
  - intros [Hx Hl]. split; [lia|]. rewrite Z.eqb_neq. intros E. apply Hl.
    rewrite wrap_small in E by (split; lia). by apply land_pred_pow2.
Qed.

Lemma isZeroOrPowerOf2_64_eq x : word32 x -> isZeroOrPowerOf2_64 x = isZeroOrPowerOf2 x.
Proof.
  intros [H0 H1]. unfold isZeroOrPowerOf2_64, isZeroOrPowerOf2.
  destruct (Z.eqb_spec x 0) as [->|]; [done|]. simpl.
  rewrite !wrap_small; [done|split; lia|]. split; [lia|].
  eapply Z.lt_trans; [|apply (Z.pow_lt_mono_r 2 32 64); lia]. lia.
Qed.

Lemma reciprocal_quotient d :
  word32 d -> isZeroOrPowerOf2 d = false ->
  randomx_reciprocal d = Done (2 ^ (63 + bit_length d) / d) /\
  2 ^ 63 <= 2 ^ (63 + bit_length d) / d < 2 ^ 64.
Proof.
  intros Hd Hp. pose proof Hd as [_ Hd32]. apply isZeroOrPowerOf2_spec in Hp as [Hpos Hne]; [|done].
  destruct (Z.log2_spec d Hpos) as [Hlo Hhi]. pose proof (Z.log2_nonneg d) as Hl0.
  unfold randomx_reciprocal, bit_length. destruct (Z.eqb_spec d 0); [lia|].
  set (s := Z.log2 d + 1) in *. assert (Hs : 1 <= s <= 32).
  { split; [lia|]. assert (Z.log2 d < 32) by (apply Z.log2_lt_pow2; lia). lia. }
  change (shl64 1 63) with (2 ^ 63).
  set (q := 2 ^ 63 / d). set (r := 2 ^ 63 mod d).
  assert (Hr : 0 <= r < d) by (apply Z.mod_pos_bound; lia).
  assert (Hqr : 2 ^ 63 = d * q + r) by (apply Z.div_mod; lia).
  assert (H2s : 2 ^ 1 <= 2 ^ s <= 2 ^ 32) by (split; apply Z.pow_le_mono_r; lia).
  assert (Hexp : 2 ^ (63 + s) = (q * 2 ^ s) * d + r * 2 ^ s) by (rewrite Z.pow_add_r by lia; nia).
  assert (Hdiv : 2 ^ (63 + s) / d = q * 2 ^ s + r * 2 ^ s / d)
    by (rewrite Hexp, Z.div_add_l by lia; lia).
  assert (Hlow : 2 ^ s = 2 * 2 ^ Z.log2 d) by (unfold s; rewrite Z.pow_add_r by lia; lia).
  assert (Hbound : 2 ^ 63 <= 2 ^ (63 + s) / d < 2 ^ 64).
  { replace (Z.succ (Z.log2 d)) with s in Hhi by lia. split.
    - apply Z.div_le_lower_bound; [lia|]. rewrite Z.pow_add_r by lia. nia.
    - apply Z.div_lt_upper_bound; [lia|]. rewrite Z.pow_add_r by lia.
      replace (2 ^ 64) with (2 * 2 ^ 63) by lia. nia. }
  split; [|done]. f_equal. unfold shl64. rewrite !Z.shiftl_mul_pow2 by lia.
  assert (0 <= r * 2 ^ s / d) by (apply Z.div_pos; nia).
  assert (0 <= q) by (apply Z.div_pos; lia).
  rewrite (wrap_small 64 (q * 2 ^ s)) by (unfold in_range; nia).
  rewrite (wrap_small 64 (r * 2 ^ s)) by (unfold in_range; nia).
  unfold add64. rewrite Hdiv in *. apply wrap_small. unfold in_range. lia.
Qed.

Lemma reciprocal_power d : 0 < d -> word32 d -> isZeroOrPowerOf2 d = true -> randomx_reciprocal d = Done 0.
Proof.
  intros Hpos Hd Hp. assert (d = 2 ^ Z.log2 d) as E.
  { destruct (Z.eq_dec d (2 ^ Z.log2 d)) as [|Hn]; [done|].
    pose proof (proj2 (isZeroOrPowerOf2_spec d Hd) (conj Hpos Hn)). congruence. }
  destruct Hd as [_ H32]. assert (0 <= Z.log2 d < 32) as Hk by (split; [apply Z.log2_nonneg|apply Z.log2_lt_pow2; lia]).
  unfold randomx_reciprocal, bit_length. destruct (Z.eqb_spec d 0); [lia|]. rewrite E. rewrite Z.log2_pow2 by lia.
  set (k := Z.log2 d) in *. clearbody k. assert (forallb (fun k => bool_decide
    (Done (add64 (shl64 (shl64 1 63 / 2 ^ k) (k + 1)) (shl64 (shl64 1 63 mod 2 ^ k) (k + 1) / 2 ^ k)) = (Done 0 : outcome Z))) (seqZ 0 32) = true) as H
    by (vm_compute; reflexivity).
  rewrite forallb_forall in H. specialize (H k). rewrite bool_decide_eq_true in H. apply H, list_elem_of_In, elem_of_seqZ. lia.
Qed.

(** C39: what [randomx_reciprocal] returns for every 32-bit divisor.  A divisor that is neither 0 nor a power of
    two (the only ones IMUL_RCP uses) gives the exact quotient floor(2^(63 + bits) / divisor), where [bits] is
    the divisor's bit length: no intermediate shift or sum overflows, and the result fits 64 bits with its
    top bit set.  For a power of two, 1 included, that quotient is 2^64 and the code returns 0.  For 0, which the
    assert excludes, the release build divides by zero. *)
Theorem randomx_reciprocal_exact d : word32 d ->
  (isZeroOrPowerOf2 d = false ->
     randomx_reciprocal d = Done (2 ^ (63 + bit_length d) / d) /\ 2 ^ 63 <= 2 ^ (63 + bit_length d) / d < 2 ^ 64) /\
  (0 < d -> isZeroOrPowerOf2 d = true -> randomx_reciprocal d = Done 0) /\
  (d = 0 -> randomx_reciprocal d = UB).
Proof.
  intros Hd. split; [by apply reciprocal_quotient|]. split; [intros; by apply reciprocal_power|by intros ->].
Qed.

Lemma randomx_reciprocal_exact_witness :
  randomx_reciprocal 13 = Done 11351842506898185609 /\ 2 ^ (63 + bit_length 13) / 13 = 11351842506898185609 /\
  randomx_reciprocal 1 = Done 0.
Proof.
  split; [|split; [reflexivity|]].
  - refine (eq_trans (proj1 (proj1 (randomx_reciprocal_exact 13 _) eq_refl)) eq_refl). split; [lia|reflexivity].
  - refine (proj1 (proj2 (randomx_reciprocal_exact 1 _)) _ eq_refl); [split; [lia|reflexivity]|reflexivity].
Defined.
