(* ===== verification/Blake2b.v ===== *)
(** * BLAKE2b and the BLAKE2b-based byte generator

    Models src/src/blake2b.cpp (both the scalar and the NEON build of [compress])
    and src/src/blake2_generator.cpp.  A 64-bit word is a [Z] in range, a byte
    string a list of [Z]; the host is little-endian, so [load64]/[store64] are the
    plain [memcpy] (the byte-swap is compiled out). *)

From S2P Require Import Prelude Neon.

Module Blake2b.

(** ** Constants *)

Definition iv : list Z :=
  [0x6a09e667f3bcc908; 0xbb67ae8584caa73b;
   0x3c6ef372fe94f82b; 0xa54ff53a5f1d36f1;
   0x510e527fade682d1; 0x9b05688c2b3e6c1f;
   0x1f83d9abfb41bd6b; 0x5be0cd19137e2179].

Definition sigma : list (list nat) :=
  ([[0; 1; 2; 3; 4; 5; 6; 7; 8; 9; 10; 11; 12; 13; 14; 15];
     [14; 10; 4; 8; 9; 15; 13; 6; 1; 12; 0; 2; 11; 7; 5; 3];
     [11; 8; 12; 0; 5; 2; 15; 13; 10; 14; 3; 6; 7; 1; 9; 4];
     [7; 9; 3; 1; 13; 12; 11; 14; 2; 6; 5; 10; 4; 0; 15; 8];
     [9; 0; 5; 7; 2; 4; 10; 15; 14; 1; 11; 12; 6; 8; 3; 13];
     [2; 12; 6; 10; 0; 11; 8; 3; 4; 13; 7; 5; 15; 14; 1; 9];
     [12; 5; 1; 15; 14; 13; 4; 10; 0; 7; 6; 3; 9; 2; 8; 11];
     [13; 11; 7; 14; 12; 1; 3; 9; 5; 0; 15; 4; 8; 6; 2; 10];
     [6; 15; 14; 9; 11; 3; 0; 8; 12; 2; 13; 7; 1; 4; 10; 5];
     [10; 2; 8; 4; 7; 6; 1; 5; 15; 11; 9; 14; 3; 12; 13; 0];
     [0; 1; 2; 3; 4; 5; 6; 7; 8; 9; 10; 11; 12; 13; 14; 15];
     [14; 10; 4; 8; 9; 15; 13; 6; 1; 12; 0; 2; 11; 7; 5; 3]])%nat.

Definition load64 (input : list Z) (off : nat) : Z := of_le (take 8 (drop off input)).
Definition store64 (value : Z) : list Z := le_bytes 8 value.

(** ** The compression function, scalar build *)

(** The working vector: [v[0..7] = h], [v[8..15] = iv], counter and last-block flag. *)
Definition init_v (h : list Z) (bytes : Z) (last : bool) : list Z :=
  let v := h ++ iv in
  let v := <[12%nat := Z.lxor (v !!! 12%nat) bytes]> v in
  if last then <[14%nat := not64 (v !!! 14%nat)]> v else v.

(** The lambda [g], writing through [v] in the source's order. *)
Definition g (m : list Z) (a b c d x y : nat) (v : list Z) : list Z :=
  let v := <[a := add64 (add64 (v !!! a) (v !!! b)) (m !!! x)]> v in
  let v := <[d := rotr64 (Z.lxor (v !!! d) (v !!! a)) 32]> v in
  let v := <[c := add64 (v !!! c) (v !!! d)]> v in
  let v := <[b := rotr64 (Z.lxor (v !!! b) (v !!! c)) 24]> v in
  let v := <[a := add64 (add64 (v !!! a) (v !!! b)) (m !!! y)]> v in
  let v := <[d := rotr64 (Z.lxor (v !!! d) (v !!! a)) 16]> v in
  let v := <[c := add64 (v !!! c) (v !!! d)]> v in
  <[b := rotr64 (Z.lxor (v !!! b) (v !!! c)) 63]> v.

Definition round (m v : list Z) (s : list nat) : list Z :=
  let v := g m 0 4 8 12 (s !!! 0%nat) (s !!! 1%nat) v in
  let v := g m 1 5 9 13 (s !!! 2%nat) (s !!! 3%nat) v in
  let v := g m 2 6 10 14 (s !!! 4%nat) (s !!! 5%nat) v in
  let v := g m 3 7 11 15 (s !!! 6%nat) (s !!! 7%nat) v in
  let v := g m 0 5 10 15 (s !!! 8%nat) (s !!! 9%nat) v in
  let v := g m 1 6 11 12 (s !!! 10%nat) (s !!! 11%nat) v in
  let v := g m 2 7 8 13 (s !!! 12%nat) (s !!! 13%nat) v in
  g m 3 4 9 14 (s !!! 14%nat) (s !!! 15%nat) v.

Definition load_block (block : list Z) : list Z :=
  (fun i : nat => load64 block (8 * i)) <$> seq 0 16.

Definition xor_halves (h v : list Z) : list Z :=
  (fun i : nat => Z.lxor (h !!! i) (Z.lxor (v !!! i) (v !!! (i + 8)%nat))) <$> seq 0 8.

Definition compress (h block : list Z) (bytes : Z) (last : bool) : list Z :=
  let m := load_block block in
  xor_halves h (foldl (round m) (init_v h bytes last) sigma).

(** ** The compression function, NEON build

    Two G functions run in the two lanes of a [uint64x2_t] (see Neon.v). *)

(** The eight statements shared by the four rows of the NEON loop body. *)
Definition mix_neon (va vb vc vd mx my : vec2) : vec2 * vec2 * vec2 * vec2 :=
  let va := vaddq va (vaddq vb mx) in
  let vd := vsriq_n (vshlq_n (veorq vd va) 32) (veorq vd va) 32 in
  let vc := vaddq vc vd in
  let vb := vsriq_n (vshlq_n (veorq vb vc) 40) (veorq vb vc) 24 in
  let va := vaddq va (vaddq vb my) in
  let vd := vsriq_n (vshlq_n (veorq vd va) 48) (veorq vd va) 16 in
  let vc := vaddq vc vd in
  let vb := vsriq_n (vshlq_n (veorq vb vc) 1) (veorq vb vc) 63 in
  (va, vb, vc, vd).

(** Row 0: G(0,4,8,12) and G(1,5,9,13). *)
Definition neon_row0 (m : list Z) (s : list nat) (v : list Z) : list Z :=
  let '(va, vb, vc, vd) := mix_neon
    (vcombine (v !!! 0%nat) (v !!! 1%nat)) (vcombine (v !!! 4%nat) (v !!! 5%nat))
    (vcombine (v !!! 8%nat) (v !!! 9%nat)) (vcombine (v !!! 12%nat) (v !!! 13%nat))
    (vcombine (m !!! (s !!! 0%nat)) (m !!! (s !!! 2%nat)))
    (vcombine (m !!! (s !!! 1%nat)) (m !!! (s !!! 3%nat))) in
  vst1q 12 vd (vst1q 8 vc (vst1q 4 vb (vst1q 0 va v))).

(** Row 1: G(2,6,10,14) and G(3,7,11,15). *)
Definition neon_row1 (m : list Z) (s : list nat) (v : list Z) : list Z :=
  let '(va, vb, vc, vd) := mix_neon
    (vcombine (v !!! 2%nat) (v !!! 3%nat)) (vcombine (v !!! 6%nat) (v !!! 7%nat))
    (vcombine (v !!! 10%nat) (v !!! 11%nat)) (vcombine (v !!! 14%nat) (v !!! 15%nat))
    (vcombine (m !!! (s !!! 4%nat)) (m !!! (s !!! 6%nat)))
    (vcombine (m !!! (s !!! 5%nat)) (m !!! (s !!! 7%nat))) in
  vst1q 14 vd (vst1q 10 vc (vst1q 6 vb (vst1q 2 va v))).

(** Row 2: G(0,5,10,15) and G(1,6,11,12); [vd] holds (v[15], v[12]). *)
Definition neon_row2 (m : list Z) (s : list nat) (v : list Z) : list Z :=
  let '(va, vb, vc, vd) := mix_neon
    (vcombine (v !!! 0%nat) (v !!! 1%nat)) (vcombine (v !!! 5%nat) (v !!! 6%nat))
    (vcombine (v !!! 10%nat) (v !!! 11%nat)) (vcombine (v !!! 15%nat) (v !!! 12%nat))
    (vcombine (m !!! (s !!! 8%nat)) (m !!! (s !!! 10%nat)))
    (vcombine (m !!! (s !!! 9%nat)) (m !!! (s !!! 11%nat))) in
  let v := vst1q 10 vc (vst1q 5 vb (vst1q 0 va v)) in
  <[12%nat := vd.2]> (<[15%nat := vd.1]> v).

(** Row 3: G(2,7,8,13) and G(3,4,9,14); [vb] holds (v[7], v[4]). *)
Definition neon_row3 (m : list Z) (s : list nat) (v : list Z) : list Z :=
  let '(va, vb, vc, vd) := mix_neon
    (vcombine (v !!! 2%nat) (v !!! 3%nat)) (vcombine (v !!! 7%nat) (v !!! 4%nat))
    (vcombine (v !!! 8%nat) (v !!! 9%nat)) (vcombine (v !!! 13%nat) (v !!! 14%nat))
    (vcombine (m !!! (s !!! 12%nat)) (m !!! (s !!! 14%nat)))
    (vcombine (m !!! (s !!! 13%nat)) (m !!! (s !!! 15%nat))) in
  let v := vst1q 2 va v in
  let v := <[4%nat := vb.2]> (<[7%nat := vb.1]> v) in
  vst1q 13 vd (vst1q 8 vc v).

Definition round_neon (m v : list Z) (s : list nat) : list Z :=
  neon_row3 m s (neon_row2 m s (neon_row1 m s (neon_row0 m s v))).

Definition compress_neon (h block : list Z) (bytes : Z) (last : bool) : list Z :=
  let m := load_block block in
  xor_halves h (foldl (round_neon m) (init_v h bytes last) sigma).

(** ** The hash *)

Definition length_error : exn :=
  invalid_argument "BLAKE2b output length must be between 1 and 64 bytes".

(** [while (input.size() > 128U)]: every turn consumes 128 bytes, so the length of
    the input is enough fuel (see [absorb_exits]). *)
Fixpoint absorb (fuel : nat) (state : list Z) (bytes : Z) (input : list Z)
  : outcome (list Z * Z * list Z) :=
  if (128 <? length input)%nat then
    match fuel with
    | O => NoFuel
    | S fuel =>
        let bytes := add64 bytes 128 in
        absorb fuel (compress state (take 128 input) bytes false) bytes (drop 128 input)
    end
  else Done (state, bytes, input).

Definition initial_state (output_bytes : Z) : list Z :=
  <[0%nat := Z.lxor (iv !!! 0%nat) (Z.lxor 0x01010000 output_bytes)]> iv.

Definition finalize (state : list Z) (bytes : Z) (input : list Z) : list Z :=
  let last := input ++ replicate (128 - length input) 0 in
  let bytes := add64 bytes (Z.of_nat (length input)) in
  compress state last bytes true.

Definition digest_bytes (state : list Z) : list Z := concat (store64 <$> state).

(** [std::vector<std::byte> blake2b(input, output_bytes)]. *)
Definition blake2b (input : list Z) (output_bytes : Z) : outcome (list Z) :=
  if (output_bytes =? 0) || (64 <? output_bytes) then Throw length_error else
  st ← absorb (length input) (initial_state output_bytes) 0 input;
  let '(state, bytes, input) := st in
  Done (take (Z.to_nat output_bytes) (digest_bytes (finalize state bytes input))).

(** [void blake2b(input, std::byte* output, output_bytes)]: the digest goes to the
    start of the caller's buffer. *)
Definition blake2b_into (input output : list Z) (output_bytes : Z) : outcome (list Z) :=
  if (output_bytes =? 0) || (64 <? output_bytes) then Throw length_error else
  st ← absorb (length input) (initial_state output_bytes) 0 input;
  let '(state, bytes, input) := st in
  write_bytes output 0 (take (Z.to_nat output_bytes) (digest_bytes (finalize state bytes input))).

Definition blake2b_512 (input : list Z) : outcome (list Z) :=
  blake2b_into input (replicate 64 0) 64.

Example blake2b_512_abc :
  blake2b_512 [97; 98; 99] = Done
    [0xba; 0x80; 0xa5; 0x3f; 0x98; 0x1c; 0x4d; 0x0d; 0x6a; 0x27; 0x97; 0xb6; 0x9f; 0x12; 0xf6; 0xe9;
     0x4c; 0x21; 0x2f; 0x14; 0x68; 0x5a; 0xc4; 0xb7; 0x4b; 0x12; 0xbb; 0x6f; 0xdb; 0xff; 0xa2; 0xd1;
     0x7d; 0x87; 0xc5; 0x39; 0x2a; 0xab; 0x79; 0x2d; 0xc2; 0x52; 0xd5; 0xde; 0x45; 0x33; 0xcc; 0x95;
     0x18; 0xd3; 0x8a; 0xa8; 0xdb; 0xf1; 0x92; 0x5a; 0xb9; 0x23; 0x86; 0xed; 0xd4; 0x00; 0x99; 0x23].
Proof. vm_compute. reflexivity. Qed.

(** ** The NEON build computes the scalar function *)

(** The pure mixing function behind both builds. *)
Definition G (a b c d x y : Z) : Z * Z * Z * Z :=
  let a := add64 (add64 a b) x in
  let d := rotr64 (Z.lxor d a) 32 in
  let c := add64 c d in
  let b := rotr64 (Z.lxor b c) 24 in
  let a := add64 (add64 a b) y in
  let d := rotr64 (Z.lxor d a) 16 in
  let c := add64 c d in
  let b := rotr64 (Z.lxor b c) 63 in
  (a, b, c, d).

Lemma mix_neon_lanes va vb vc vd mx my :
  wvec2 va -> wvec2 vb -> wvec2 vc -> wvec2 vd ->
  mix_neon va vb vc vd mx my =
    (let '(a0, b0, c0, d0) := G va.1 vb.1 vc.1 vd.1 mx.1 my.1 in
     let '(a1, b1, c1, d1) := G va.2 vb.2 vc.2 vd.2 mx.2 my.2 in
     ((a0, a1), (b0, b1), (c0, c1), (d0, d1))).
Proof.
  intros Ha Hb Hc Hd. unfold mix_neon, G.
  rewrite !vsriq_shlq by (lia || auto 12 with word).
  unfold vaddq, veorq, vmap2. simpl. by rewrite !add64_assoc.
Qed.

Definition words16 (v : list Z) : Prop := length v = 16%nat /\ Words v.

Lemma g_words16 m a b c d x y v : words16 v -> words16 (g m a b c d x y v).
Proof.
  intros [Hl Hv]. unfold g. split; [by rewrite !length_insert|].
  repeat match goal with |- Forall _ (<[_ := ?e]> _) => apply Forall_insert end;
    auto 40 with word.
Qed.

Ltac solve_row :=
  intros m s v [Hl Hv]; explode v;
  rewrite !Forall_cons_iff in Hv; destruct_and! Hv;
  match goal with |- ?f _ _ _ = _ => unfold f end;
  rewrite mix_neon_lanes by (split; assumption);
  cbv -[add64 rotr64 Z.lxor]; reflexivity.

Lemma neon_row0_g : forall m s v, words16 v -> neon_row0 m s v =
  g m 1 5 9 13 (s !!! 2%nat) (s !!! 3%nat) (g m 0 4 8 12 (s !!! 0%nat) (s !!! 1%nat) v).
Proof. solve_row. Qed.
Lemma neon_row1_g : forall m s v, words16 v -> neon_row1 m s v =
  g m 3 7 11 15 (s !!! 6%nat) (s !!! 7%nat) (g m 2 6 10 14 (s !!! 4%nat) (s !!! 5%nat) v).
Proof. solve_row. Qed.
Lemma neon_row2_g : forall m s v, words16 v -> neon_row2 m s v =
  g m 1 6 11 12 (s !!! 10%nat) (s !!! 11%nat) (g m 0 5 10 15 (s !!! 8%nat) (s !!! 9%nat) v).
Proof. solve_row. Qed.
Lemma neon_row3_g : forall m s v, words16 v -> neon_row3 m s v =
  g m 3 4 9 14 (s !!! 14%nat) (s !!! 15%nat) (g m 2 7 8 13 (s !!! 12%nat) (s !!! 13%nat) v).
Proof. solve_row. Qed.

Lemma round_words16 m v s : words16 v -> words16 (round m v s).
Proof. intros. unfold round. by repeat apply g_words16. Qed.

Lemma round_neon_eq m v s : words16 v -> round_neon m v s = round m v s.
Proof.
  intros H. unfold round_neon, round.
  rewrite neon_row0_g, neon_row1_g, neon_row2_g, neon_row3_g by auto 8 using g_words16.
  reflexivity.
Qed.

Definition words8 (h : list Z) : Prop := length h = 8%nat /\ Words h.

Lemma iv_words8 : words8 iv.
Proof. split; [done|]. by repeat (constructor; [split; [lia|done]|]). Qed.

Lemma init_v_words16 h bytes last : words8 h -> word64 bytes -> words16 (init_v h bytes last).
Proof.
  intros [Hl Hh] Hb. destruct iv_words8 as [Hil Hi].
  assert (Words (h ++ iv)) by (by rewrite Forall_app).
  unfold init_v. split.
  - destruct last; autorewrite with len; by rewrite Hl, Hil.
  - destruct last; auto 8 with word.
Qed.

(** C35: the NEON build of [compress] computes exactly what the scalar build computes, on
    every chaining value, block, byte counter and last-block flag. *)
Theorem compress_neon_eq h block bytes last :
  words8 h -> word64 bytes -> compress_neon h block bytes last = compress h block bytes last.
Proof.
  intros Hh Hb. unfold compress_neon, compress.
  by rewrite (foldl_ext_inv words16 _ (round (load_block block)))
    by auto using round_words16, round_neon_eq, init_v_words16.
Qed.

Lemma compress_neon_eq_witness :
  compress_neon iv (replicate 128 0) 128 false = compress iv (replicate 128 0) 128 false.
Proof. apply compress_neon_eq; [apply iv_words8|split; [lia|done]]. Defined.

(** ** Totality, errors and ranges of the hash *)

Lemma compress_words8 h block bytes last :
  words8 h -> word64 bytes -> words8 (compress h block bytes last).
Proof.
  intros Hh Hb. unfold compress.
  assert (words16 (foldl (round (load_block block)) (init_v h bytes last) sigma)) as [_ Hv].
  { apply foldl_inv; auto using round_words16, init_v_words16. }
  unfold xor_halves. split; [by rewrite length_fmap, length_seq|].
  apply Forall_fmap, Forall_forall. intros i _.
  destruct Hh as [_ Hh]. repeat (apply lxor_range; [lia|..]); by apply Forall_lookup_total_range.
Qed.

#[global] Opaque compress compress_neon.

Lemma initial_state_words8 n : word64 n -> words8 (initial_state n).
Proof.
  intros Hn. destruct iv_words8 as [Hl Hi]. split; [done|].
  apply Forall_insert_range; [|done].
  apply lxor_range; [lia|auto with word|]. apply lxor_range; [lia|split; [lia|done]|done].
Qed.

(** The loop of [blake2b] leaves after at most [length input] turns, with at most one
    block left over. *)
Lemma absorb_exits fuel state bytes input :
  (length input <= fuel)%nat ->
  exists state' bytes' rest, absorb fuel state bytes input = Done (state', bytes', rest) /\
    (length rest <= 128)%nat.
Proof.
  revert state bytes input. induction fuel as [|fuel IH]; intros state bytes input Hf; simpl;
    destruct (Nat.ltb_spec 128 (length input)); eauto; [lia|].
  apply IH. rewrite length_drop. lia.
Qed.

Lemma absorb_words8 fuel state bytes input state' bytes' rest :
  words8 state -> word64 bytes -> absorb fuel state bytes input = Done (state', bytes', rest) ->
  words8 state' /\ word64 bytes'.
Proof.
  revert state bytes input. induction fuel as [|fuel IH]; intros state bytes input Hs Hb; simpl;
    destruct (Nat.ltb_spec 128 (length input)); try (by intros [= <- <- <-]); try done.
  apply IH; auto using compress_words8 with word.
Qed.

Lemma length_digest_bytes state : length (digest_bytes state) = (8 * length state)%nat.
Proof.
  unfold digest_bytes. induction state as [|x l IH]; [done|].
  change (store64 <$> (x :: l)) with (store64 x :: (store64 <$> l)).
  cbn [concat length]. rewrite length_app, IH. unfold store64. rewrite length_le_bytes. lia.
Qed.

Lemma digest_bytes_range state : Bytes (digest_bytes state).
Proof. apply Forall_concat, Forall_fmap, Forall_forall. intros x _. apply le_bytes_range. Qed.

(** The digest before truncation. *)
Definition full_digest (input : list Z) (n : Z) : list Z :=
  match absorb (length input) (initial_state n) 0 input with
  | Done (state, bytes, rest) => digest_bytes (finalize state bytes rest)
  | _ => []
  end.

Lemma blake2b_eq input n :
  1 <= n <= 64 -> blake2b input n = Done (take (Z.to_nat n) (full_digest input n)).
Proof.
  intros Hn. unfold blake2b, full_digest.
  destruct (_ || _) eqn:E; [exfalso; lia|].
  destruct (absorb_exits (length input) (initial_state n) 0 input)
    as (st & b & rest & -> & _); [lia|]. done.
Qed.

Lemma full_digest_spec input n :
  1 <= n <= 64 -> length (full_digest input n) = 64%nat /\ Bytes (full_digest input n).
Proof.
  intros Hn. unfold full_digest.
  destruct (absorb_exits (length input) (initial_state n) 0 input)
    as (st & b & rest & E & Hr); [lia|]. rewrite E.
  apply absorb_words8 in E as [Hs Hb];
    [|apply initial_state_words8; split; [lia|]; eapply Z.le_lt_trans; [apply Hn|done]
     |split; [lia|done]].
  split; [|apply digest_bytes_range]. rewrite length_digest_bytes.
  assert (words8 (finalize st b rest)) as [-> _]; [|done].
  apply compress_words8; auto with word.
Qed.

(** [blake2b] either throws, exactly when the requested length is not in 1..64, or returns
    that many bytes; the two overloads agree: the in-place one stores the same digest at the
    start of any buffer that can hold it and leaves the rest of the buffer alone. *)
Theorem blake2b_total input buf n :
  0 <= n ->
  ((n = 0 \/ 64 < n) ->
     blake2b input n = Throw length_error /\ blake2b_into input buf n = Throw length_error) /\
  (1 <= n <= 64 -> exists d, blake2b input n = Done d /\ length d = Z.to_nat n /\ Bytes d /\
     (n <= Z.of_nat (length buf) ->
        blake2b_into input buf n = Done (d ++ drop (Z.to_nat n) buf))).
Proof.
  intros H0. split.
  - intros Hn. unfold blake2b, blake2b_into.
    destruct (_ || _) eqn:E; [done|]. apply orb_false_iff in E. lia.
  - intros Hn. destruct (full_digest_spec input n Hn) as [Hl Hb].
    eexists. rewrite (blake2b_eq input n Hn). split_and!; [reflexivity|..].
    + rewrite length_take. lia.
    + by apply Forall_take.
    + intros Hbuf. unfold blake2b_into. destruct (_ || _) eqn:E; [exfalso; lia|].
      revert Hl Hb. unfold full_digest.
      destruct (absorb_exits (length input) (initial_state n) 0 input)
        as (st & b & rest & -> & _); [lia|]. cbn. intros Hl Hb.
      assert (length (take (Z.to_nat n) (digest_bytes (finalize st b rest))) = Z.to_nat n)
        as Hd by (rewrite length_take; lia).
      rewrite write_bytes_ok by (rewrite ?Hd; lia). by rewrite Hd.
Qed.

Lemma blake2b_total_witness :
  blake2b [97; 98; 99] 0 = Throw length_error /\
  exists d, blake2b [97; 98; 99] 20 = Done d /\ length d = 20%nat.
Proof.
  split.
  - apply (proj1 (blake2b_total [97; 98; 99] [] 0 ltac:(lia))). by left.
  - destruct (proj2 (blake2b_total [97; 98; 99] [] 20 ltac:(lia)) ltac:(lia))
      as (d & H & Hl & _). exists d. split; [exact H|]. exact Hl.
Defined.

(** ** Refinement of the block-list specification (RFC 7693, section 3.3)

    The specification cuts the input into blocks [0 .. dd-1], the last one padded with
    zeros; every block but the last is compressed with the number of bytes seen so far,
    the last with the input length and the final flag. *)

Definition rfc_block_count (input : list Z) : nat := (Nat.max 1 ((length input + 127) / 128)).
Definition rfc_block (input : list Z) (i : nat) : list Z :=
  let b := take 128 (drop (128 * i) input) in b ++ replicate (128 - length b) 0.
Definition rfc_step (input : list Z) (h : list Z) (i : nat) : list Z :=
  compress h (rfc_block input i) (wrap 64 (128 * (Z.of_nat i + 1))) false.
Definition rfc_state (input : list Z) (n : Z) : list Z :=
  let dd := rfc_block_count input in
  let h := foldl (rfc_step input) (initial_state n) (seq 0 (dd - 1)) in
  compress h (rfc_block input (dd - 1)) (wrap 64 (Z.of_nat (length input))) true.

Lemma rfc_block_full input i :
  (128 * (i + 1) <= length input)%nat -> rfc_block input i = take 128 (drop (128 * i) input).
Proof.
  intros H. unfold rfc_block. rewrite length_take, length_drop.
  replace (128 - _)%nat with 0%nat by lia. by rewrite app_nil_r.
Qed.

Lemma rfc_step_full input h i :
  (128 * (i + 1) <= length input)%nat ->
  rfc_step input h i =
    compress h (take 128 (drop (128 * i) input)) (wrap 64 (128 * Z.of_nat (i + 1))) false.
Proof.
  intros H. unfold rfc_step. rewrite rfc_block_full by done.
  by replace (Z.of_nat (i + 1)) with (Z.of_nat i + 1) by lia.
Qed.

Lemma block_count_bounds input :
  (128 * (rfc_block_count input - 1) <= length input)%nat /\
  (length input <= 128 * rfc_block_count input)%nat /\
  (1 <= rfc_block_count input)%nat /\
  (128 < length input -> 128 * (rfc_block_count input - 1) < length input)%nat /\
  (length input <= 128 -> rfc_block_count input = 1)%nat.
Proof.
  unfold rfc_block_count.
  pose proof (Nat.div_mod_eq (length input + 127) 128).
  pose proof (Nat.mod_upper_bound (length input + 127) 128). lia.
Qed.

Lemma absorb_rfc input fuel h k :
  (128 * k <= length input)%nat -> (length input - 128 * k <= fuel)%nat ->
  (k <= rfc_block_count input - 1)%nat ->
  absorb fuel h (wrap 64 (128 * Z.of_nat k)) (drop (128 * k) input) =
    Done (foldl (rfc_step input) h (seq k (rfc_block_count input - 1 - k)),
          wrap 64 (128 * Z.of_nat (rfc_block_count input - 1)),
          drop (128 * (rfc_block_count input - 1)) input).
Proof.
  destruct (block_count_bounds input) as (B1 & B2 & B3 & B4 & B5).
  revert h k. induction fuel as [|fuel IH]; intros h k Hk Hf Hd; cbn [absorb];
    rewrite length_drop; destruct (Nat.ltb_spec 128 (length input - 128 * k)) as [Hlt|Hge].
  1: lia.
  2: {
    rewrite drop_drop. replace (128 * k + 128)%nat with (128 * (k + 1))%nat by lia.
    replace (add64 (wrap 64 (128 * Z.of_nat k)) 128) with (wrap 64 (128 * Z.of_nat (k + 1)))
      by (rewrite add64_wrap_l; unfold add64; f_equal; lia).
    rewrite <- rfc_step_full, IH by lia.
    replace (rfc_block_count input - 1 - k)%nat with (S (rfc_block_count input - 1 - (k + 1)))%nat
      by lia.
    cbn [seq foldl]. by replace (S k) with (k + 1)%nat by lia. }
  all: replace k with (rfc_block_count input - 1)%nat by lia; by rewrite Nat.sub_diag.
Qed.

(** C36: [blake2b] implements the block-list specification of RFC 7693: whatever the input
    length (empty, a multiple of 128, or not), the result is the first [n] bytes of the state
    obtained by compressing the padded blocks with the specified counters and final flag. *)
Theorem blake2b_rfc7693 input n :
  1 <= n <= 64 ->
  blake2b input n = Done (take (Z.to_nat n) (digest_bytes (rfc_state input n))).
Proof.
  intros Hn. rewrite blake2b_eq by done. unfold full_digest.
  destruct (block_count_bounds input) as (B1 & B2 & B3 & _).
  pose proof (absorb_rfc input (length input) (initial_state n) 0) as Habs.
  replace (128 * 0)%nat with 0%nat in Habs by lia. rewrite drop_0 in Habs.
  change (wrap 64 (128 * Z.of_nat 0)) with 0 in Habs. rewrite Habs by lia. clear Habs.
  do 3 f_equal. unfold finalize, rfc_state. rewrite Nat.sub_0_r. f_equal.
  - unfold rfc_block. rewrite (take_ge (drop _ _)) by (rewrite length_drop; lia). done.
  - rewrite length_drop, add64_wrap_l. unfold add64. f_equal. lia.
Qed.

Lemma blake2b_rfc7693_witness :
  blake2b (replicate 256 7) 64 = Done (take 64 (digest_bytes (rfc_state (replicate 256 7) 64))).
Proof. apply blake2b_rfc7693. lia. Defined.

End Blake2b.

(** * Blake2Generator *)

Module Blake2Generator.
Import Blake2b.

Record t : Type := mk { data_ : list Z; data_index_ : nat }.

Definition kMaxSeedSize : nat := 60.
Definition load32_le (input : list Z) (off : nat) : Z := of_le (take 4 (drop off input)).
Definition store32_le (value : Z) : list Z := le_bytes 4 value.

(** The constructor: up to 60 bytes of seed, zero padding, the nonce in the last 4 bytes. *)
Definition make (seed : list Z) (nonce : Z) : t :=
  let data := replicate 64 0 in
  let s := take (if (kMaxSeedSize <? length seed)%nat then kMaxSeedSize else length seed) seed in
  let data := s ++ drop (length s) data in
  mk (take kMaxSeedSize data ++ store32_le (wrap 32 nonce)) 64.

Definition check_data (bytes_needed : nat) (gen : t) : outcome t :=
  if (length (data_ gen) <? data_index_ gen + bytes_needed)%nat then
    digest ← blake2b (data_ gen) 64;
    Done (mk digest 0)
  else Done gen.

Definition get_byte (gen : t) : outcome (Z * t) :=
  gen ← check_data 1 gen;
  Done (data_ gen !!! data_index_ gen, mk (data_ gen) (data_index_ gen + 1)).

Definition get_uint32 (gen : t) : outcome (Z * t) :=
  gen ← check_data 4 gen;
  Done (load32_le (data_ gen) (data_index_ gen), mk (data_ gen) (data_index_ gen + 4)).

Definition wf (gen : t) : Prop :=
  length (data_ gen) = 64%nat /\ Bytes (data_ gen) /\ (data_index_ gen <= 64)%nat.

Lemma make_wf seed nonce : Bytes seed -> wf (make seed nonce).
Proof.
  intros Hs. unfold make, wf; cbn [data_ data_index_]. split_and!; [| |lia].
  - autorewrite with len. unfold store32_le, kMaxSeedSize. rewrite length_le_bytes.
    destruct (Nat.ltb_spec 60 (length seed)); lia.
  - rewrite Forall_app. split; [|apply le_bytes_range]. apply Forall_take, Forall_app.
    split; [by apply Forall_take|]. apply Forall_drop, Forall_replicate. split; [lia|done].
Qed.

Lemma check_data_wf k gen :
  wf gen -> (k <= 64)%nat -> exists gen', check_data k gen = Done gen' /\ wf gen' /\
    (data_index_ gen' + k <= 64)%nat.
Proof.
  intros (Hl & Hb & Hi) Hk. unfold check_data. rewrite Hl.
  destruct (Nat.ltb_spec 64 (data_index_ gen + k)).
  - destruct (full_digest_spec (data_ gen) 64) as [Hdl Hdb]; [lia|].
    rewrite blake2b_eq by lia. eexists. split; [reflexivity|]. unfold wf; cbn [data_ data_index_].
    split_and!; [by rewrite take_ge by (by rewrite Hdl)|by apply Forall_take|lia|lia].
  - exists gen. unfold wf. split_and!; auto; lia.
Qed.

Lemma generator_byte gen :
  wf gen -> exists b gen', get_byte gen = Done (b, gen') /\ byte8 b /\ wf gen'.
Proof.
  intros Hwf. destruct (check_data_wf 1 gen Hwf) as (g' & E & (Hl & Hb & Hi) & Hlt); [lia|].
  unfold get_byte. rewrite E. do 2 eexists. split; [reflexivity|].
  split; [by apply Forall_lookup_total_range|]. unfold wf; simpl. split_and!; auto; lia.
Qed.

Lemma generator_word gen :
  wf gen -> exists w gen', get_uint32 gen = Done (w, gen') /\ word32 w /\ wf gen'.
Proof.
  intros Hwf. destruct (check_data_wf 4 gen Hwf) as (g' & E & (Hl & Hb & Hi) & Hlt); [lia|].
  unfold get_uint32. rewrite E. do 2 eexists. split; [reflexivity|]. split.
  - assert (length (take 4 (drop (data_index_ g') (data_ g'))) = 4%nat) as H4
      by (rewrite length_take, length_drop; lia).
    pose proof (of_le_range (take 4 (drop (data_index_ g') (data_ g')))) as Hr.
    rewrite H4 in Hr. apply Hr. by apply Forall_take, Forall_drop.
  - unfold wf; simpl. split_and!; auto; lia.
Qed.

(** The generator's buffer invariant (64 bytes, index at most 64) holds after construction
    and is kept by both draws; every draw returns, and yields a byte resp. a 32-bit word. *)
Theorem generator_draws seed nonce gen :
  (Bytes seed -> wf (make seed nonce)) /\
  (wf gen ->
    (exists b gen', get_byte gen = Done (b, gen') /\ byte8 b /\ wf gen') /\
    (exists w gen', get_uint32 gen = Done (w, gen') /\ word32 w /\ wf gen')).
Proof. split; [apply make_wf|]. intros Hwf. split; [by apply generator_byte|by apply generator_word]. Qed.

Lemma generator_draws_witness :
  exists w gen', get_uint32 (make [1; 2; 3] 0) = Done (w, gen') /\ word32 w /\ wf gen'.
Proof.
  apply (generator_draws [1; 2; 3] 0), (generator_draws [1; 2; 3] 0 (make [1; 2; 3] 0)).
  repeat (apply List.Forall_cons; [split; [lia|done]|]). apply List.Forall_nil.
Defined.

End Blake2Generator.
