(* ===== verification/Superscalar.v ===== *)
(** * Superscalar programs: format and execution

    Models the instruction set and the two interpreters of src/src/superscalar.cpp
    ([execute_superscalar] and the two-lane [execute_superscalar_neon]) and the program
    container of src/include/armrx/superscalar.hpp.  The generator is in SuperscalarGen.v. *)

From S2P Require Import Prelude Neon RandomX.

Inductive SuperscalarInstructionType : Type :=
  | ISUB_R | IXOR_R | IADD_RS | IMUL_R | IROR_C
  | IADD_C7 | IXOR_C7 | IADD_C8 | IXOR_C8 | IADD_C9 | IXOR_C9
  | IMULH_R | ISMULH_R | IMUL_RCP
  | INVALID.

#[export] Instance ss_type_eq_dec : EqDecision SuperscalarInstructionType.
Proof. solve_decision. Defined.

Definition type_code (t : SuperscalarInstructionType) : Z :=
  match t with
  | ISUB_R => 0 | IXOR_R => 1 | IADD_RS => 2 | IMUL_R => 3 | IROR_C => 4
  | IADD_C7 => 5 | IXOR_C7 => 6 | IADD_C8 => 7 | IXOR_C8 => 8 | IADD_C9 => 9 | IXOR_C9 => 10
  | IMULH_R => 11 | ISMULH_R => 12 | IMUL_RCP => 13 | INVALID => -1
  end.

Definition all_types : list SuperscalarInstructionType :=
  [ISUB_R; IXOR_R; IADD_RS; IMUL_R; IROR_C; IADD_C7; IXOR_C7; IADD_C8; IXOR_C8; IADD_C9; IXOR_C9;
   IMULH_R; ISMULH_R; IMUL_RCP].

(** [static_cast<SuperscalarInstructionType>(instr.opcode)]. *)
Definition type_of_opcode (op : Z) : option SuperscalarInstructionType :=
  if (0 <=? op) then all_types !! Z.to_nat op else None.

Record SuperscalarProgram : Type := mkProgram {
  program_buffer_ : list Instruction;
  size_ : Z;
  addr_reg_ : Z;
}.

Definition program_at (prog : SuperscalarProgram) (pc : nat) : outcome Instruction :=
  match program_buffer_ prog !! pc with Some i => Done i | None => UB end.

(** ** Scalar interpreter *)

Section exec.
Context {A : Type}.

(** [r[i]] on an 8-element array of registers (scalar or two-lane). *)
Definition get_reg (r : list A) (i : Z) : outcome A :=
  match r !! Z.to_nat i with Some x => Done x | None => UB end.
Definition set_reg (r : list A) (i : Z) (x : A) : list A := <[Z.to_nat i := x]> r.

Definition upd2 (f : A -> A -> A) (r : list A) (i : Instruction) : outcome (list A) :=
  d ← get_reg r (dst i);
  s ← get_reg r (src i);
  Done (set_reg r (dst i) (f d s)).
Definition upd1 (f : A -> A) (r : list A) (i : Instruction) : outcome (list A) :=
  d ← get_reg r (dst i);
  Done (set_reg r (dst i) (f d)).

End exec.

(** The multiplier of IMUL_RCP: from the cache's table, or computed on the spot. *)
Definition reciprocal_of (reciprocals : option (list Z)) (imm : Z) : outcome Z :=
  match reciprocals with
  | Some rs => match rs !! Z.to_nat imm with Some x => Done x | None => UB end
  | None => randomx_reciprocal imm
  end.

Definition execute_instruction (reciprocals : option (list Z)) (r : list Z) (i : Instruction)
  : outcome (list Z) :=
  match type_of_opcode (opcode i) with
  | Some ISUB_R => upd2 sub64 r i
  | Some IXOR_R => upd2 Z.lxor r i
  | Some IADD_RS => upd2 (fun d s => add64 d (shl64 s (getModShift i))) r i
  | Some IMUL_R => upd2 mul64 r i
  | Some IROR_C => upd1 (fun d => rotr64 d (to_signed 32 (getImm32 i))) r i
  | Some IADD_C7 | Some IADD_C8 | Some IADD_C9 =>
      upd1 (fun d => add64 d (signExtend2sCompl (getImm32 i))) r i
  | Some IXOR_C7 | Some IXOR_C8 | Some IXOR_C9 =>
      upd1 (fun d => Z.lxor d (signExtend2sCompl (getImm32 i))) r i
  | Some IMULH_R => upd2 mulh r i
  | Some ISMULH_R => upd2 smulh r i
  | Some IMUL_RCP =>
      rcp ← reciprocal_of reciprocals (getImm32 i);
      upd1 (fun d => mul64 d rcp) r i
  | Some INVALID | None =>
      Throw (runtime_error "unreachable instruction opcode in execute_superscalar")
  end.

Fixpoint run_from {R} (step : R -> Instruction -> outcome R) (prog : SuperscalarProgram)
  (js : list nat) (r : R) : outcome R :=
  match js with
  | [] => Done r
  | j :: js =>
      i ← program_at prog j;
      r ← step r i;
      run_from step prog js r
  end.

Definition execute_superscalar (r : list Z) (prog : SuperscalarProgram)
  (reciprocals : option (list Z)) : outcome (list Z) :=
  run_from (execute_instruction reciprocals) prog (seq 0 (Z.to_nat (size_ prog))) r.

(** ** Two-lane interpreter *)

Definition lanes2 (f : Z -> Z -> Z) (d s : vec2) : vec2 := vcombine (f d.1 s.1) (f d.2 s.2).
Definition lanes1 (f : Z -> Z) (d : vec2) : vec2 := vcombine (f d.1) (f d.2).

Definition neon_shift (shift : Z) (s : vec2) : vec2 :=
  if shift =? 0 then s
  else if shift =? 1 then vshlq_n s 1
  else if shift =? 2 then vshlq_n s 2
  else vshlq_n s 3.

Definition neon_opcode_error : exn :=
  runtime_error "unreachable instruction opcode in execute_superscalar_neon".

Definition execute_instruction_neon (reciprocals : option (list Z)) (vr : list vec2)
  (i : Instruction) : outcome (list vec2) :=
  match type_of_opcode (opcode i) with
  | Some ISUB_R => upd2 vsubq vr i
  | Some IXOR_R => upd2 veorq vr i
  | Some IADD_RS => upd2 (fun d s => vaddq d (neon_shift (getModShift i) s)) vr i
  | Some IMUL_R => upd2 (lanes2 mul64) vr i
  | Some IROR_C => upd1 (lanes1 (fun d => rotr64 d (to_signed 32 (getImm32 i)))) vr i
  | Some IADD_C7 | Some IADD_C8 | Some IADD_C9 =>
      upd1 (fun d => vaddq d (vmovq_n (signExtend2sCompl (getImm32 i)))) vr i
  | Some IXOR_C7 | Some IXOR_C8 | Some IXOR_C9 =>
      upd1 (fun d => veorq d (vmovq_n (signExtend2sCompl (getImm32 i)))) vr i
  | Some IMULH_R => upd2 (lanes2 mulh) vr i
  | Some ISMULH_R => upd2 (lanes2 smulh) vr i
  | Some IMUL_RCP =>
      rcp ← reciprocal_of reciprocals (getImm32 i);
      upd1 (lanes1 (fun d => mul64 d rcp)) vr i
  | Some INVALID | None => Throw neon_opcode_error
  end.

Definition execute_superscalar_neon (vr : list vec2) (prog : SuperscalarProgram)
  (reciprocals : option (list Z)) : outcome (list vec2) :=
  run_from (execute_instruction_neon reciprocals) prog (seq 0 (Z.to_nat (size_ prog))) vr.

(** ** The two interpreters agree lane by lane *)

(** Two scalar outcomes as one two-lane outcome (each interpreter has its own message). *)
Definition pair_outcome (x y : outcome (list Z)) : outcome (list vec2) :=
  match x, y with
  | Done a, Done b => Done (zip a b)
  | Throw _, _ | _, Throw _ => Throw neon_opcode_error
  | UB, _ | _, UB => UB
  | NoFuel, _ | _, NoFuel => NoFuel
  end.

(** Lane-wise operations on a pair of register files of the same shape. *)
Lemma upd2_lanes f g r0 r1 i :
  length r0 = length r1 -> (forall d s, f d s = (g d.1 s.1, g d.2 s.2)) ->
  upd2 f (zip r0 r1) i = pair_outcome (upd2 g r0 i) (upd2 g r1 i).
Proof.
  intros Hl Hfg. unfold upd2, get_reg, set_reg. rewrite !lookup_zip_with.
  assert (Hs : forall k, is_Some (r0 !! k) <-> is_Some (r1 !! k))
    by (intros k; rewrite !lookup_lt_is_Some; by rewrite Hl).
  destruct (r0 !! Z.to_nat (dst i)) eqn:D0, (r1 !! Z.to_nat (dst i)) eqn:D1;
    try (specialize (Hs (Z.to_nat (dst i))); rewrite D0, D1 in Hs;
         destruct Hs as [H1 H2]; (destruct H1 + destruct H2); eauto; discriminate); [|done].
  destruct (r0 !! Z.to_nat (src i)) eqn:S0, (r1 !! Z.to_nat (src i)) eqn:S1;
    try (specialize (Hs (Z.to_nat (src i))); rewrite S0, S1 in Hs;
         destruct Hs as [H1 H2]; (destruct H1 + destruct H2); eauto; discriminate); [|done].
  simpl. f_equal. rewrite Hfg. simpl. by rewrite insert_zip_with.
Qed.

Lemma upd1_lanes f g r0 r1 i :
  length r0 = length r1 -> (forall d, f d = (g d.1, g d.2)) ->
  upd1 f (zip r0 r1) i = pair_outcome (upd1 g r0 i) (upd1 g r1 i).
Proof.
  intros Hl Hfg. unfold upd1, get_reg, set_reg. rewrite !lookup_zip_with.
  destruct (r0 !! Z.to_nat (dst i)) eqn:D0, (r1 !! Z.to_nat (dst i)) eqn:D1;
    try (apply lookup_lt_Some in D0; apply lookup_ge_None in D1; lia);
    try (apply lookup_lt_Some in D1; apply lookup_ge_None in D0; lia); [|done].
  simpl. f_equal. rewrite Hfg. simpl. by rewrite insert_zip_with.
Qed.

Lemma upd2_length {A} (f : A -> A -> A) r i r' : upd2 f r i = Done r' -> length r' = length r.
Proof.
  unfold upd2. destruct (get_reg r (dst i)); simpl; try done.
  destruct (get_reg r (src i)); simpl; try done. intros [= <-]. apply length_insert.
Qed.
Lemma upd1_length {A} (f : A -> A) r i r' : upd1 f r i = Done r' -> length r' = length r.
Proof.
  unfold upd1. destruct (get_reg r (dst i)); simpl; try done. intros [= <-]. apply length_insert.
Qed.

Lemma execute_instruction_length rc r i r' :
  execute_instruction rc r i = Done r' -> length r' = length r.
Proof.
  unfold execute_instruction. destruct (type_of_opcode (opcode i)) as [[]|]; try discriminate;
    try apply upd2_length; try apply upd1_length.
  destruct (reciprocal_of rc (getImm32 i)); simpl; try discriminate. apply upd1_length.
Qed.

Lemma upd2_words f r i r' :
  Words r -> (forall d s, word64 d -> word64 s -> word64 (f d s)) -> upd2 f r i = Done r' -> Words r'.
Proof.
  intros Hr Hf. unfold upd2, get_reg. destruct (r !! Z.to_nat (dst i)) eqn:D; simpl; [|done].
  destruct (r !! Z.to_nat (src i)) eqn:S; simpl; [|done]. intros [= <-].
  apply Forall_insert; [done|]. apply Hf; eapply Forall_lookup_1; eauto.
Qed.
Lemma upd1_words f r i r' :
  Words r -> (forall d, word64 d -> word64 (f d)) -> upd1 f r i = Done r' -> Words r'.
Proof.
  intros Hr Hf. unfold upd1, get_reg. destruct (r !! Z.to_nat (dst i)) eqn:D; simpl; [|done].
  intros [= <-]. apply Forall_insert; [done|]. apply Hf; eapply Forall_lookup_1; eauto.
Qed.

Lemma execute_instruction_words rc r i r' :
  Words r -> execute_instruction rc r i = Done r' -> Words r'.
Proof.
  intros Hr. unfold execute_instruction, signExtend2sCompl.
  destruct (type_of_opcode (opcode i)) as [[]|]; try discriminate;
    try (apply upd2_words; auto with word); try (apply upd1_words; auto with word).
  destruct (reciprocal_of rc (getImm32 i)); simpl; try discriminate.
  apply upd1_words; auto with word.
Qed.

Lemma neon_shift_lanes i s :
  wvec2 s -> neon_shift (getModShift i) s = (shl64 s.1 (getModShift i), shl64 s.2 (getModShift i)).
Proof.
  intros [H1 H2]. pose proof (getModShift_range i). unfold neon_shift, vshlq_n.
  destruct (Z.eqb_spec (getModShift i) 0) as [->|]; [|destruct (Z.eqb_spec (getModShift i) 1) as [->|];
    [done|destruct (Z.eqb_spec (getModShift i) 2) as [->|]; [done|by replace (getModShift i) with 3 by lia]]].
  unfold shl64. rewrite !Z.shiftl_0_r, !wrap_small by done. by destruct s.
Qed.

Lemma upd2_ext f g (r : list vec2) i :
  (forall d s, s ∈ r -> f d s = g d s) -> upd2 f r i = upd2 g r i.
Proof.
  intros Hfg. unfold upd2, get_reg. destruct (r !! Z.to_nat (dst i)); simpl; [|done].
  destruct (r !! Z.to_nat (src i)) eqn:S; simpl; [|done].
  rewrite Hfg; [done|]. by eapply list_elem_of_lookup_2.
Qed.

Lemma zip_wvec r0 r1 s : Words r0 -> Words r1 -> s ∈ zip r0 r1 -> wvec2 s.
Proof.
  intros H0 H1 Hs. destruct s as [a b]. split; simpl.
  - rewrite list.Forall_forall in H0. apply H0. by eapply elem_of_zip_l.
  - rewrite list.Forall_forall in H1. apply H1. by eapply elem_of_zip_r.
Qed.

Lemma reciprocal_of_cases rc imm :
  (exists x, reciprocal_of rc imm = Done x) \/ reciprocal_of rc imm = UB.
Proof.
  unfold reciprocal_of, randomx_reciprocal.
  destruct rc as [rs|]; [destruct (rs !! Z.to_nat imm)|destruct (imm =? 0)]; eauto.
Qed.

Lemma execute_instruction_lanes rc r0 r1 i :
  length r0 = length r1 -> Words r0 -> Words r1 ->
  execute_instruction_neon rc (zip r0 r1) i =
    pair_outcome (execute_instruction rc r0 i) (execute_instruction rc r1 i).
Proof.
  intros Hl H0 H1. unfold execute_instruction_neon, execute_instruction.
  destruct (type_of_opcode (opcode i)) as [[]|]; try done;
    try (by apply upd2_lanes); try (by apply upd1_lanes).
  - rewrite (upd2_ext _ (fun d s => (add64 d.1 (shl64 s.1 (getModShift i)),
                                     add64 d.2 (shl64 s.2 (getModShift i))))).
    + by apply (upd2_lanes _ (fun d s => add64 d (shl64 s (getModShift i)))).
    + intros d s Hs. rewrite neon_shift_lanes; [done|]. exact (zip_wvec _ _ _ H0 H1 Hs).
  - destruct (reciprocal_of_cases rc (getImm32 i)) as [[x ->]| ->]; [by apply upd1_lanes|done].
Qed.

(** Both lanes always end the same way: a fault or a throw does not depend on register values. *)
Lemma execute_instruction_same rc r0 r1 i :
  length r0 = length r1 ->
  match execute_instruction rc r0 i, execute_instruction rc r1 i with
  | Done _, Done _ | Throw _, Throw _ | UB, UB => True
  | _, _ => False
  end.
Proof.
  intros Hl.
  assert (Hget : forall k, match get_reg r0 k, get_reg r1 k with
                           | Done _, Done _ | UB, UB => True | _, _ => False end).
  { intros k. unfold get_reg.
    destruct (r0 !! Z.to_nat k) eqn:D0, (r1 !! Z.to_nat k) eqn:D1; try done;
      [apply lookup_lt_Some in D0; apply lookup_ge_None in D1
      |apply lookup_lt_Some in D1; apply lookup_ge_None in D0]; lia. }
  unfold execute_instruction, upd2, upd1.
  pose proof (Hget (dst i)) as Hd. pose proof (Hget (src i)) as Hs.
  destruct (type_of_opcode (opcode i)) as [[]|]; try done;
    try (destruct (reciprocal_of_cases rc (getImm32 i)) as [[x ->]| ->]; [|done]);
    destruct (get_reg r0 (dst i)), (get_reg r1 (dst i)); try done; simpl;
    destruct (get_reg r0 (src i)), (get_reg r1 (src i)); done.
Qed.

Lemma run_from_lanes rc prog js r0 r1 :
  length r0 = length r1 -> Words r0 -> Words r1 ->
  run_from (execute_instruction_neon rc) prog js (zip r0 r1) =
    pair_outcome (run_from (execute_instruction rc) prog js r0)
                 (run_from (execute_instruction rc) prog js r1).
Proof.
  revert r0 r1. induction js as [|j js IH]; intros r0 r1 Hl H0 H1; [done|]. cbn [run_from].
  destruct (program_at prog j) as [i| | |] eqn:Ep; try done;
    [|unfold program_at in Ep; destruct (program_buffer_ prog !! j); discriminate].
  cbn. rewrite execute_instruction_lanes by done.
  pose proof (execute_instruction_same rc r0 r1 i Hl) as Hsame.
  destruct (execute_instruction rc r0 i) as [a| | |] eqn:E0,
           (execute_instruction rc r1 i) as [b| | |] eqn:E1; try done; [].
  cbn. apply IH; eauto using execute_instruction_words.
  by rewrite (execute_instruction_length _ _ _ _ E0), (execute_instruction_length _ _ _ _ E1).
Qed.

(** The two-lane NEON interpreter, run on two register files side by side, computes in each
    lane what the scalar interpreter computes on that file, for every program and reciprocal table;
    it faults or throws exactly when the scalar one does. *)
Theorem execute_superscalar_neon_lanes r0 r1 prog reciprocals :
  length r0 = 8%nat -> length r1 = 8%nat -> Words r0 -> Words r1 ->
  execute_superscalar_neon (zip r0 r1) prog reciprocals =
    pair_outcome (execute_superscalar r0 prog reciprocals) (execute_superscalar r1 prog reciprocals).
Proof. intros L0 L1. apply run_from_lanes. by rewrite L0, L1. Qed.

Lemma execute_superscalar_neon_lanes_witness :
  let p := mkProgram [mkInstruction 3 0 1 0 0; mkInstruction 2 4 3 12 0; mkInstruction 13 2 0 0 7] 3 0 in
  let r := [1; 2; 3; 4; 5; 6; 7; 8] in
  execute_superscalar_neon (zip r (reverse r)) p None =
    pair_outcome (execute_superscalar r p None) (execute_superscalar (reverse r) p None) /\
  execute_superscalar r p None = Done [2; 2; 3 * 10540996613548315209 - 2 ^ 64; 4; 37; 6; 7; 8].
Proof.
  split; [|vm_compute; reflexivity].
  apply execute_superscalar_neon_lanes; try reflexivity;
    repeat (apply List.Forall_cons; [split; [lia|reflexivity]|]); apply List.Forall_nil.
Defined.

Lemma execute_superscalar_words r prog rc r' :
  Words r -> execute_superscalar r prog rc = Done r' -> Words r' /\ length r' = length r.
Proof.
  unfold execute_superscalar. generalize (seq 0 (Z.to_nat (size_ prog))). intros js.
  revert r. induction js as [|j js IH]; intros r Hr; cbn [run_from]; [by intros [= <-]|].
  intros H. apply bind_Done in H as (i & _ & H). apply bind_Done in H as (r1 & E & H).
  rewrite <- (execute_instruction_length _ _ _ _ E).
  apply IH in H; [done|]. by eapply execute_instruction_words.
Qed.

(** ** Programs that execute

    What execution needs of an instruction: a known opcode, registers below 8, and for IMUL_RCP an
    index of the reciprocal table (or a usable divisor when there is no table). *)
Definition executable (rc : option (list Z)) (i : Instruction) : Prop :=
  0 <= opcode i < 14 /\ 0 <= dst i < 8 /\ 0 <= src i < 8 /\
  (opcode i = 13 -> match rc with
                    | Some rs => 0 <= imm32 i < Z.of_nat (length rs)
                    | None => imm32 i <> 0
                    end).

Lemma execute_instruction_ok rc r i :
  length r = 8%nat -> executable rc i -> exists r', execute_instruction rc r i = Done r'.
Proof.
  intros Hl (Ho & Hd & Hs & Hr).
  assert (exists x, get_reg r (dst i) = Done x) as [x Ex].
  { unfold get_reg. destruct (lookup_lt_is_Some_2 r (Z.to_nat (dst i))) as [y ->]; [lia|eauto]. }
  assert (exists y, get_reg r (src i) = Done y) as [y Ey].
  { unfold get_reg. destruct (lookup_lt_is_Some_2 r (Z.to_nat (src i))) as [z ->]; [lia|eauto]. }
  assert (opcode i = 13 -> exists z, reciprocal_of rc (imm32 i) = Done z) as Hz.
  { intros E. specialize (Hr E). unfold reciprocal_of, randomx_reciprocal. destruct rc as [rs|].
    - destruct (lookup_lt_is_Some_2 rs (Z.to_nat (imm32 i))) as [z ->]; [lia|eauto].
    - destruct (Z.eqb_spec (imm32 i) 0); [done|eauto]. }
  unfold execute_instruction, type_of_opcode, upd2, upd1. destruct (Z.leb_spec 0 (opcode i)); [|lia].
  assert (Z.to_nat (opcode i) < 14)%nat as Hn by lia.
  destruct (Z.to_nat (opcode i)) as [|[|[|[|[|[|[|[|[|[|[|[|[|[|]]]]]]]]]]]]]] eqn:En; try lia;
    cbn [all_types lookup list_lookup]; rewrite ?Ex, ?Ey; simpl; eauto.
  destruct Hz as [z Ez]; [lia|]. unfold getImm32. rewrite Ez. simpl. eauto.
Qed.

Lemma execute_superscalar_ok r prog rc :
  length r = 8%nat -> 0 <= size_ prog ->
  (Z.to_nat (size_ prog) <= length (program_buffer_ prog))%nat ->
  Forall (executable rc) (take (Z.to_nat (size_ prog)) (program_buffer_ prog)) ->
  exists r', execute_superscalar r prog rc = Done r'.
Proof.
  intros Hl Hs Hn Hf. unfold execute_superscalar.
  assert (Hjs : forall j, j ∈ seq 0 (Z.to_nat (size_ prog)) ->
    exists i, program_at prog j = Done i /\ executable rc i).
  { intros j Hj. apply elem_of_seq in Hj. unfold program_at.
    destruct (lookup_lt_is_Some_2 (program_buffer_ prog) j) as [i Ei]; [lia|]. rewrite Ei.
    exists i. split; [done|]. apply (Forall_lookup_1 _ _ j i Hf).
    by rewrite lookup_take_lt by lia. }
  revert r Hl Hjs. generalize (seq 0 (Z.to_nat (size_ prog))). intros js.
  induction js as [|j js IH]; intros r Hl Hjs; cbn [run_from]; [eauto|].
  destruct (Hjs j) as (i & -> & Hi); [by left|]. cbn.
  destruct (execute_instruction_ok rc r i Hl Hi) as [r1 E]. rewrite E. cbn.
  apply IH; [by rewrite (execute_instruction_length _ _ _ _ E)|]. intros k Hk. apply Hjs. by right.
Qed.
