(* ===== verification/SuperscalarGen.v ===== *)
(** * The superscalar program generator

    Models the generator of src/src/superscalar.cpp: macro-operations and their execution
    ports, instruction templates, decoder buffers, register selection, port scheduling and
    the generation loop, with the pseudo-random draws of the Blake2Generator threaded
    through explicitly.

    Two loops of the source have no static bound: the [do ... while] draws of IROR_C and
    IMUL_RCP immediates reject and draw again.  They run on the parameter [rejections], the
    number of draws a single rejection loop may take ([NoFuel] beyond it).  The [while] over the
    slots of a decoder buffer runs on [slot_fuel] turns, which [slot_loop_safe] proves enough. *)

From stdpp Require Import sets.
From S2P Require Import Prelude Blake2b RandomX Superscalar.
Import Blake2Generator.

Definition isMultiplication (type : SuperscalarInstructionType) : bool :=
  bool_decide (type = IMUL_R) || bool_decide (type = IMULH_R) ||
  bool_decide (type = ISMULH_R) || bool_decide (type = IMUL_RCP).

(** ** Macro-operations *)

Module ExecutionPort.
Definition Null : Z := 0.
Definition P0 : Z := 1.
Definition P1 : Z := 2.
Definition P5 : Z := 4.
Definition P01 : Z := Z.lor P0 P1.
Definition P05 : Z := Z.lor P0 P5.
Definition P015 : Z := Z.lor (Z.lor P0 P1) P5.
End ExecutionPort.

Record MacroOp : Type := mkMacroOp {
  mop_name : string;
  mop_size : Z;
  mop_latency : Z;
  uop1 : Z;
  uop2 : Z;
  isDependent : bool;
}.

Definition mop0 (name : string) (size : Z) : MacroOp :=
  mkMacroOp name size 0 ExecutionPort.Null ExecutionPort.Null false.
Definition mop1 (name : string) (size latency uop : Z) : MacroOp :=
  mkMacroOp name size latency uop ExecutionPort.Null false.
Definition mop2 (name : string) (size latency u1 u2 : Z) : MacroOp :=
  mkMacroOp name size latency u1 u2 false.
Definition mop_dep (parent : MacroOp) (dependent : bool) : MacroOp :=
  mkMacroOp (mop_name parent) (mop_size parent) (mop_latency parent) (uop1 parent) (uop2 parent)
    dependent.

Definition isSimple (m : MacroOp) : bool := uop2 m =? ExecutionPort.Null.
Definition isEliminated (m : MacroOp) : bool := uop1 m =? ExecutionPort.Null.

Definition Sub_rr := mop1 "sub r,r" 3 1 ExecutionPort.P015.
Definition Xor_rr := mop1 "xor r,r" 3 1 ExecutionPort.P015.
Definition Imul_r := mop2 "imul r" 3 4 ExecutionPort.P1 ExecutionPort.P5.
Definition Mul_r := mop2 "mul r" 3 4 ExecutionPort.P1 ExecutionPort.P5.
Definition Mov_rr := mop0 "mov r,r" 3.
Definition Lea_sib := mop1 "lea r,r+r*s" 4 1 ExecutionPort.P01.
Definition Imul_rr := mop1 "imul r,r" 4 3 ExecutionPort.P1.
Definition Ror_ri := mop1 "ror r,i" 4 1 ExecutionPort.P05.
Definition Add_ri := mop1 "add r,i" 7 1 ExecutionPort.P015.
Definition Xor_ri := mop1 "xor r,i" 7 1 ExecutionPort.P015.
Definition Mov_ri64 := mop1 "mov rax,i64" 10 1 ExecutionPort.P015.

Definition IMULH_R_ops_array := [Mov_rr; Mul_r; Mov_rr].
Definition ISMULH_R_ops_array := [Mov_rr; Imul_r; Mov_rr].
Definition IMUL_RCP_ops_array := [Mov_ri64; mop_dep Imul_rr true].

(** ** Instruction templates *)

Record SuperscalarInstructionInfo : Type := mkInfo {
  getType : SuperscalarInstructionType;
  ops_ : list MacroOp;
  getResultOp : Z;
  getDstOp : Z;
  getSrcOp : Z;
}.

Definition getSize (i : SuperscalarInstructionInfo) : Z := Z.of_nat (length (ops_ i)).
Definition getOp (i : SuperscalarInstructionInfo) (index : Z) : outcome MacroOp :=
  match ops_ i !! Z.to_nat index with Some m => Done m | None => UB end.

(** The template objects [SuperscalarInstructionInfo::ISUB_R] and so on, by type. *)
Definition info_of (type : SuperscalarInstructionType) : SuperscalarInstructionInfo :=
  match type with
  | ISUB_R => mkInfo ISUB_R [Sub_rr] 0 0 0
  | IXOR_R => mkInfo IXOR_R [Xor_rr] 0 0 0
  | IADD_RS => mkInfo IADD_RS [Lea_sib] 0 0 0
  | IMUL_R => mkInfo IMUL_R [Imul_rr] 0 0 0
  | IROR_C => mkInfo IROR_C [Ror_ri] 0 0 (-1)
  | IADD_C7 => mkInfo IADD_C7 [Add_ri] 0 0 (-1)
  | IXOR_C7 => mkInfo IXOR_C7 [Xor_ri] 0 0 (-1)
  | IADD_C8 => mkInfo IADD_C8 [Add_ri] 0 0 (-1)
  | IXOR_C8 => mkInfo IXOR_C8 [Xor_ri] 0 0 (-1)
  | IADD_C9 => mkInfo IADD_C9 [Add_ri] 0 0 (-1)
  | IXOR_C9 => mkInfo IXOR_C9 [Xor_ri] 0 0 (-1)
  | IMULH_R => mkInfo IMULH_R IMULH_R_ops_array 1 0 1
  | ISMULH_R => mkInfo ISMULH_R ISMULH_R_ops_array 1 0 1
  | IMUL_RCP => mkInfo IMUL_RCP IMUL_RCP_ops_array 1 1 (-1)
  | INVALID => mkInfo INVALID [] 0 0 (-1)
  end.

(** ** Decoder buffers *)

Record DecoderBuffer : Type := mkBuffer { getIndex : Z; counts_ : list Z }.

Definition buffer_size (b : DecoderBuffer) : Z := Z.of_nat (length (counts_ b)).
Definition decodeBuffer484 := mkBuffer 0 [4; 8; 4].
Definition decodeBuffer7333 := mkBuffer 1 [7; 3; 3; 3].
Definition decodeBuffer3733 := mkBuffer 2 [3; 7; 3; 3].
Definition decodeBuffer493 := mkBuffer 3 [4; 9; 3].
Definition decodeBuffer4444 := mkBuffer 4 [4; 4; 4; 4].
Definition decodeBuffer3310 := mkBuffer 5 [3; 3; 10].
Definition decodeBuffers : list DecoderBuffer :=
  [decodeBuffer484; decodeBuffer7333; decodeBuffer3733; decodeBuffer493].

Definition pick {A} (l : list A) (i : Z) : outcome A :=
  match l !! Z.to_nat i with Some x => Done x | None => UB end.

Definition fetchNextDefault (gen : t) : outcome (DecoderBuffer * t) :=
  '(b, gen) ← get_byte gen;
  buf ← pick decodeBuffers (Z.land b 3);
  Done (buf, gen).

Definition fetchNext (instrType : SuperscalarInstructionType) (cycle mulCount : Z) (gen : t)
  : outcome (DecoderBuffer * t) :=
  if bool_decide (instrType = IMULH_R) || bool_decide (instrType = ISMULH_R) then
    Done (decodeBuffer3310, gen)
  else if mulCount <? cycle + 1 then Done (decodeBuffer4444, gen)
  else if bool_decide (instrType = IMUL_RCP) then
    '(b, gen) ← get_byte gen;
    Done (if Z.land b 1 =? 0 then decodeBuffer493 else decodeBuffer484, gen)
  else fetchNextDefault gen.

(** ** Instructions under construction *)

Record RegisterInfo : Type := mkRegister {
  latency : Z;
  lastOpGroup : SuperscalarInstructionType;
  lastOpPar : Z;
}.
Definition RegisterInfo_init : RegisterInfo := mkRegister 0 INVALID (-1).

Record SuperscalarInstruction : Type := mkSI {
  info_ : SuperscalarInstructionInfo;
  src_ : Z;
  dst_ : Z;
  simod_ : Z;
  imm32_ : Z;
  opGroup_ : SuperscalarInstructionType;
  opGroupPar_ : Z;
  canReuse_ : bool;
  groupParIsSource_ : bool;
}.

Definition SI_Null : SuperscalarInstruction :=
  mkSI (info_of INVALID) (-1) (-1) 0 0 INVALID (-1) false false.

Definition si_type (si : SuperscalarInstruction) : SuperscalarInstructionType := getType (info_ si).

Definition toInstr (si : SuperscalarInstruction) : Instruction :=
  mkInstruction (wrap 8 (type_code (si_type si))) (wrap 8 (dst_ si))
    (wrap 8 (if 0 <=? src_ si then src_ si else dst_ si)) (wrap 8 (simod_ si)) (imm32_ si).

(** [do { imm32_ = gen.get_byte() & 63; } while (imm32_ == 0);] *)
Fixpoint draw_rotation (rejections : nat) (gen : t) : outcome (Z * t) :=
  match rejections with
  | O => NoFuel
  | S n =>
      '(b, gen) ← get_byte gen;
      let imm := Z.land b 63 in
      if imm =? 0 then draw_rotation n gen else Done (imm, gen)
  end.

(** [do { imm32_ = gen.get_uint32(); } while (isZeroOrPowerOf2(imm32_));] *)
Fixpoint draw_divisor (rejections : nat) (gen : t) : outcome (Z * t) :=
  match rejections with
  | O => NoFuel
  | S n =>
      '(w, gen) ← get_uint32 gen;
      if isZeroOrPowerOf2 w then draw_divisor n gen else Done (w, gen)
  end.

(** [create]: [reset()] clears registers and flags; the other fields keep the value of the
    previous instruction unless the case sets them. *)
Definition create (rejections : nat) (type : SuperscalarInstructionType)
  (si : SuperscalarInstruction) (gen : t) : outcome (SuperscalarInstruction * t) :=
  let info := info_of type in
  let par := opGroupPar_ si in
  match type with
  | ISUB_R => Done (mkSI info (-1) (-1) 0 0 IADD_RS par false true, gen)
  | IXOR_R => Done (mkSI info (-1) (-1) 0 0 IXOR_R par false true, gen)
  | IADD_RS =>
      '(b, gen) ← get_byte gen;
      Done (mkSI info (-1) (-1) b 0 IADD_RS par false true, gen)
  | IMUL_R => Done (mkSI info (-1) (-1) 0 0 IMUL_R par false true, gen)
  | IROR_C =>
      '(imm, gen) ← draw_rotation rejections gen;
      Done (mkSI info (-1) (-1) 0 imm IROR_C (-1) false false, gen)
  | IADD_C7 | IADD_C8 | IADD_C9 =>
      '(imm, gen) ← get_uint32 gen;
      Done (mkSI info (-1) (-1) 0 imm IADD_C7 (-1) false false, gen)
  | IXOR_C7 | IXOR_C8 | IXOR_C9 =>
      '(imm, gen) ← get_uint32 gen;
      Done (mkSI info (-1) (-1) 0 imm IXOR_C7 (-1) false false, gen)
  | IMULH_R =>
      '(w, gen) ← get_uint32 gen;
      Done (mkSI info (-1) (-1) 0 0 IMULH_R (to_signed 32 w) true false, gen)
  | ISMULH_R =>
      '(w, gen) ← get_uint32 gen;
      Done (mkSI info (-1) (-1) 0 0 ISMULH_R (to_signed 32 w) true false, gen)
  | IMUL_RCP =>
      '(imm, gen) ← draw_divisor rejections gen;
      Done (mkSI info (-1) (-1) 0 imm IMUL_RCP (-1) false false, gen)
  | INVALID =>
      Done (mkSI info (-1) (-1) (simod_ si) (imm32_ si) (opGroup_ si) par false false, gen)
  end.

Definition slot_3 := [ISUB_R; IXOR_R].
Definition slot_3L := [ISUB_R; IXOR_R; IMULH_R; ISMULH_R].
Definition slot_4 := [IROR_C; IADD_RS].
Definition slot_7 := [IXOR_C7; IADD_C7].
Definition slot_8 := [IXOR_C8; IADD_C8].
Definition slot_9 := [IXOR_C9; IADD_C9].

Definition create_from (rejections : nat) (slot : list SuperscalarInstructionType) (mask : Z)
  (si : SuperscalarInstruction) (gen : t) : outcome (SuperscalarInstruction * t) :=
  '(b, gen) ← get_byte gen;
  type ← pick slot (Z.land b mask);
  create rejections type si gen.

Definition createForSlot (rejections : nat) (gen : t) (slotSize fetchType : Z) (isLast : bool)
  (si : SuperscalarInstruction) : outcome (SuperscalarInstruction * t) :=
  if slotSize =? 3 then
    if isLast then create_from rejections slot_3L 3 si gen
    else create_from rejections slot_3 1 si gen
  else if slotSize =? 4 then
    if (fetchType =? 4) && negb isLast then create rejections IMUL_R si gen
    else create_from rejections slot_4 1 si gen
  else if slotSize =? 7 then create_from rejections slot_7 1 si gen
  else if slotSize =? 8 then create_from rejections slot_8 1 si gen
  else if slotSize =? 9 then create_from rejections slot_9 1 si gen
  else if slotSize =? 10 then create rejections IMUL_RCP si gen
  else Throw (runtime_error "invalid superscalar slot size").

(** ** Register selection *)

Definition RegisterNeedsDisplacement : Z := 5.

Definition selectRegister (availableRegisters : list Z) (gen : t) : outcome (option Z * t) :=
  let numAvailable := Z.of_nat (length availableRegisters) in
  if numAvailable =? 0 then Done (None, gen)
  else if 1 <? numAvailable then
    '(w, gen) ← get_uint32 gen;
    reg ← pick availableRegisters (w mod numAvailable);
    Done (Some reg, gen)
  else
    reg ← pick availableRegisters 0;
    Done (Some reg, gen).

(** The loop that collects the indices that pass a test; the test may fail. *)
Fixpoint ofilter {A} (f : A -> outcome bool) (l : list A) : outcome (list A) :=
  match l with
  | [] => Done []
  | x :: l => keep ← f x; l ← ofilter f l; Done (if (keep : bool) then x :: l else l)
  end.

Definition register_indices : list Z := [0; 1; 2; 3; 4; 5; 6; 7].

Definition dst_available (si : SuperscalarInstruction) (cycle : Z) (allowChainedMul : bool)
  (registers : list RegisterInfo) (i : Z) : outcome bool :=
  ri ← at_index registers i;
  Done ((latency ri <=? cycle) && (canReuse_ si || negb (i =? src_ si)) &&
  (allowChainedMul || bool_decide (opGroup_ si <> IMUL_R) || bool_decide (lastOpGroup ri <> IMUL_R)) &&
  (bool_decide (lastOpGroup ri <> opGroup_ si) || negb (lastOpPar ri =? opGroupPar_ si)) &&
  (bool_decide (si_type si <> IADD_RS) || negb (i =? RegisterNeedsDisplacement))).

Definition set_dst (d : Z) (si : SuperscalarInstruction) : SuperscalarInstruction :=
  mkSI (info_ si) (src_ si) d (simod_ si) (imm32_ si) (opGroup_ si) (opGroupPar_ si) (canReuse_ si)
    (groupParIsSource_ si).
Definition set_src (s par : Z) (si : SuperscalarInstruction) : SuperscalarInstruction :=
  mkSI (info_ si) s (dst_ si) (simod_ si) (imm32_ si) (opGroup_ si) par (canReuse_ si)
    (groupParIsSource_ si).

Definition selectDestination (cycle : Z) (allowChainedMul : bool) (registers : list RegisterInfo)
  (si : SuperscalarInstruction) (gen : t) : outcome (bool * SuperscalarInstruction * t) :=
  available ← ofilter (dst_available si cycle allowChainedMul registers) register_indices;
  '(reg, gen) ← selectRegister available gen;
  Done (match reg with Some d => (true, set_dst d si, gen) | None => (false, si, gen) end).

Definition selectSource (cycle : Z) (registers : list RegisterInfo)
  (si : SuperscalarInstruction) (gen : t) : outcome (bool * SuperscalarInstruction * t) :=
  available ← ofilter (fun i => ri ← at_index registers i; Done (latency ri <=? cycle)) register_indices;
  if (Z.of_nat (length available) =? 2) && bool_decide (si_type si = IADD_RS) &&
     existsb (fun i => i =? RegisterNeedsDisplacement) available
  then Done (true, set_src RegisterNeedsDisplacement RegisterNeedsDisplacement si, gen)
  else
    '(reg, gen) ← selectRegister available gen;
    Done (match reg with
          | Some s => (true, set_src s (if groupParIsSource_ si then s else opGroupPar_ si) si, gen)
          | None => (false, si, gen)
          end).

(** ** Port scheduling *)

Definition CYCLE_MAP_SIZE : Z := kSuperscalarLatency + 4.
Definition LOOK_FORWARD_CYCLES : nat := 4.
Definition MAX_THROWAWAY_COUNT : Z := 256.

(** [portBusy[cycle][port]], a table of [CYCLE_MAP_SIZE] rows. *)
Definition PortBusy : Type := list (list Z).
Definition portBusy_init : PortBusy := replicate (Z.to_nat CYCLE_MAP_SIZE) [0; 0; 0].
Definition busy (pb : PortBusy) (cycle port : Z) : outcome bool :=
  row ← at_index pb cycle; uop ← at_index row port; Done (negb (uop =? 0)).
Definition set_busy (pb : PortBusy) (cycle port uop : Z) : outcome PortBusy :=
  row ← at_index pb cycle; _ ← at_index row port;
  Done (<[Z.to_nat cycle := <[Z.to_nat port := uop]> row]> pb).

(** [(uop & mask) != 0 && !portBusy[cycle][port]]. *)
Definition port_free (uop mask : Z) (pb : PortBusy) (cycle port : Z) : outcome bool :=
  if Z.land uop mask =? 0 then Done false else b ← busy pb cycle port; Done (negb b).

(** The port a micro-operation can take at one cycle, tried in the order P5, P0, P1. *)
Definition free_port (uop : Z) (pb : PortBusy) (cycle : Z) : outcome (option Z) :=
  p5 ← port_free uop ExecutionPort.P5 pb cycle 2;
  if p5 : bool then Done (Some 2) else
  p0 ← port_free uop ExecutionPort.P0 pb cycle 0;
  if p0 : bool then Done (Some 0) else
  p1 ← port_free uop ExecutionPort.P1 pb cycle 1;
  Done (if p1 : bool then Some 1 else None).

Fixpoint scheduleUop_from (n : nat) (commit : bool) (uop : Z) (pb : PortBusy) (cycle : Z)
  : outcome (Z * PortBusy) :=
  match n with
  | O => Done (-1, pb)
  | S n =>
      port ← free_port uop pb cycle;
      match port with
      | Some port => if commit then pb ← set_busy pb cycle port uop; Done (cycle, pb) else Done (cycle, pb)
      | None => scheduleUop_from n commit uop pb (cycle + 1)
      end
  end.

Definition scheduleUop (commit : bool) (uop : Z) (pb : PortBusy) (cycle : Z) : outcome (Z * PortBusy) :=
  scheduleUop_from (Z.to_nat (CYCLE_MAP_SIZE - cycle)) commit uop pb cycle.

Fixpoint scheduleMop_from (n : nat) (commit : bool) (mop : MacroOp) (pb : PortBusy) (cycle : Z)
  : outcome (Z * PortBusy) :=
  match n with
  | O => Done (-1, pb)
  | S n =>
      '(cycle1, _) ← scheduleUop false (uop1 mop) pb cycle;
      '(cycle2, _) ← scheduleUop false (uop2 mop) pb cycle;
      if (0 <=? cycle1) && (cycle1 =? cycle2) then
        if commit then
          '(_, pb) ← scheduleUop true (uop1 mop) pb cycle1;
          '(_, pb) ← scheduleUop true (uop2 mop) pb cycle2;
          Done (cycle1, pb)
        else Done (cycle1, pb)
      else scheduleMop_from n commit mop pb (cycle + 1)
  end.

Definition scheduleMop (commit : bool) (mop : MacroOp) (pb : PortBusy) (cycle depCycle : Z)
  : outcome (Z * PortBusy) :=
  let cycle := if isDependent mop then Z.max cycle depCycle else cycle in
  if isEliminated mop then Done (cycle, pb)
  else if isSimple mop then scheduleUop commit (uop1 mop) pb cycle
  else scheduleMop_from (Z.to_nat (CYCLE_MAP_SIZE - cycle)) commit mop pb cycle.

(** ** The generation loop *)

Record gstate : Type := mkG {
  portBusy : PortBusy;
  registers : list RegisterInfo;
  currentInstruction : SuperscalarInstruction;
  macroOpIndex : Z;
  codeSize : Z;
  macroOpCount : Z;
  cycle_ : Z;
  depCycle : Z;
  retireCycle : Z;
  portsSaturated : bool;
  programSize : Z;
  mulCount : Z;
  throwAwayCount : Z;
  buffer : list Instruction;
  gen_ : t;
}.

(** How one turn of the slot loop ends: on to the slot [bufferIndex], or [break]. *)
Inductive turn : Type :=
  | Next (bufferIndex : Z) (st : gstate)
  | Break (st : gstate).

(** The look-ahead [for]: up to 4 calls of the selector, one cycle later after each failure. *)
Fixpoint look_forward (n : nat)
  (select : Z -> SuperscalarInstruction -> t -> outcome (bool * SuperscalarInstruction * t))
  (scheduleCycle cycle : Z) (si : SuperscalarInstruction) (gen : t)
  : outcome (bool * Z * Z * SuperscalarInstruction * t) :=
  match n with
  | O => Done (false, scheduleCycle, cycle, si, gen)
  | S n =>
      '(ok, si, gen) ← select scheduleCycle si gen;
      if ok : bool then Done (true, scheduleCycle, cycle, si, gen)
      else look_forward n select (scheduleCycle + 1) (cycle + 1) si gen
  end.

(** What happens when no register could be selected: throw the instruction away and try the slot
    again, or give up the buffer after too many attempts. *)
Definition throw_away (bufferIndex cycle : Z) (si : SuperscalarInstruction) (gen : t) (st : gstate)
  : turn :=
  if throwAwayCount st <? MAX_THROWAWAY_COUNT then
    Next bufferIndex
      (mkG (portBusy st) (registers st) si (getSize (info_ si)) (codeSize st) (macroOpCount st) cycle
         (depCycle st) (retireCycle st) (portsSaturated st) (programSize st) (mulCount st)
         (throwAwayCount st + 1) (buffer st) gen)
  else
    Break
      (mkG (portBusy st) (registers st) SI_Null (macroOpIndex st) (codeSize st) (macroOpCount st) cycle
         (depCycle st) (retireCycle st) (portsSaturated st) (programSize st) (mulCount st)
         (throwAwayCount st) (buffer st) gen).

Definition saturate (cycle : Z) (si : SuperscalarInstruction) (gen : t) (ta : Z) (pb : PortBusy)
  (st : gstate) : turn :=
  Break (mkG pb (registers st) si (macroOpIndex st) (codeSize st) (macroOpCount st) cycle
           (depCycle st) (retireCycle st) true (programSize st) (mulCount st) ta (buffer st) gen).

(** After both selections: commit the macro-operation, retire it, emit a finished instruction. *)
Definition commit_mop (bufferIndex topCycle scheduleCycle cycle : Z) (mop : MacroOp)
  (si : SuperscalarInstruction) (gen : t) (st : gstate) : outcome turn :=
  '(scheduleCycle, pb) ← scheduleMop true mop (portBusy st) scheduleCycle scheduleCycle;
  if scheduleCycle <? 0 then Done (saturate cycle si gen 0 pb st) else
  let dep := scheduleCycle + mop_latency mop in
  let retires := macroOpIndex st =? getResultOp (info_ si) in
  regs ← (if retires then
            if (0 <=? dst_ si) && (dst_ si <? 8)
            then Done (<[Z.to_nat (dst_ si) := mkRegister dep (opGroup_ si) (opGroupPar_ si)]> (registers st))
            else UB
          else Done (registers st));
  let index := macroOpIndex st + 1 in
  let saturated := portsSaturated st || (kSuperscalarLatency <=? scheduleCycle) in
  let emit := getSize (info_ si) <=? index in
  buf ← (if emit then
           if programSize st <? Z.of_nat (length (buffer st))
           then Done (<[Z.to_nat (programSize st) := toInstr si]> (buffer st)) else UB
         else Done (buffer st));
  Done (Next (bufferIndex + 1)
    (mkG pb regs si index (codeSize st + mop_size mop) (macroOpCount st + 1) topCycle dep
       (if retires then dep else retireCycle st) saturated
       (if emit then programSize st + 1 else programSize st)
       (if emit && isMultiplication (si_type si) then mulCount st + 1 else mulCount st)
       0 buf gen)).

(** One turn of [while (bufferIndex < decodeBuffer->getSize())], after the current instruction has
    been made available. *)
Definition slot_body (bufferIndex topCycle : Z) (st : gstate) : outcome turn :=
  let si := currentInstruction st in
  mop ← getOp (info_ si) (macroOpIndex st);
  '(scheduleCycle, _) ← scheduleMop false mop (portBusy st) (cycle_ st) (depCycle st);
  if scheduleCycle <? 0 then
    Done (saturate (cycle_ st) si (gen_ st) (throwAwayCount st) (portBusy st) st) else
  '(ok, scheduleCycle, cycle, si, gen) ←
    (if macroOpIndex st =? getSrcOp (info_ si) then
       look_forward LOOK_FORWARD_CYCLES (fun c => selectSource c (registers st))
         scheduleCycle (cycle_ st) si (gen_ st)
     else Done (true, scheduleCycle, cycle_ st, si, gen_ st));
  if negb ok then Done (throw_away bufferIndex cycle si gen st) else
  '(ok, scheduleCycle, cycle, si, gen) ←
    (if macroOpIndex st =? getDstOp (info_ si) then
       look_forward LOOK_FORWARD_CYCLES
         (fun c => selectDestination c (0 <? throwAwayCount st) (registers st))
         scheduleCycle cycle si gen
     else Done (true, scheduleCycle, cycle, si, gen));
  if negb ok then Done (throw_away bufferIndex cycle si gen st) else
  commit_mop bufferIndex topCycle scheduleCycle cycle mop si gen st.

Definition slot_turn (rejections : nat) (buf : DecoderBuffer) (bufferIndex : Z) (st : gstate)
  : outcome turn :=
  let si := currentInstruction st in
  if getSize (info_ si) <=? macroOpIndex st then
    if portsSaturated st || (kSuperscalarMaxSize <=? programSize st) then Done (Break st) else
    slotSize ← pick (counts_ buf) bufferIndex;
    '(si, gen) ← createForSlot rejections (gen_ st) slotSize (getIndex buf)
                   (buffer_size buf =? bufferIndex + 1) si;
    slot_body bufferIndex (cycle_ st)
      (mkG (portBusy st) (registers st) si 0 (codeSize st) (macroOpCount st) (cycle_ st)
         (depCycle st) (retireCycle st) (portsSaturated st) (programSize st) (mulCount st)
         (throwAwayCount st) (buffer st) gen)
  else slot_body bufferIndex (cycle_ st) st.

Fixpoint slot_loop (fuel rejections : nat) (buf : DecoderBuffer) (bufferIndex : Z) (st : gstate)
  : outcome gstate :=
  if bufferIndex <? buffer_size buf then
    match fuel with
    | O => NoFuel
    | S fuel =>
        turn ← slot_turn rejections buf bufferIndex st;
        match turn with
        | Next bufferIndex st => slot_loop fuel rejections buf bufferIndex st
        | Break st => Done st
        end
    end
  else Done st.

(** A buffer has at most 4 slots and each slot is retried at most 256 times in a row; see
    [slot_measure] for why this is enough. *)
Definition slot_fuel : nat := 1300.

Definition bump_cycle (st : gstate) : gstate :=
  mkG (portBusy st) (registers st) (currentInstruction st) (macroOpIndex st) (codeSize st)
    (macroOpCount st) (cycle_ st + 1) (depCycle st) (retireCycle st) (portsSaturated st)
    (programSize st) (mulCount st) (throwAwayCount st) (buffer st) (gen_ st).

Definition set_gen (gen : t) (st : gstate) : gstate :=
  mkG (portBusy st) (registers st) (currentInstruction st) (macroOpIndex st) (codeSize st)
    (macroOpCount st) (cycle_ st) (depCycle st) (retireCycle st) (portsSaturated st)
    (programSize st) (mulCount st) (throwAwayCount st) (buffer st) gen.

(** [for (decodeCycle = 0; decodeCycle < kSuperscalarLatency && ...; ++decodeCycle)]; [n] counts the
    cycles left, the result also gives the final [decodeCycle]. *)
Fixpoint decode_loop (n : nat) (rejections : nat) (decodeCycle : Z) (st : gstate)
  : outcome (Z * gstate) :=
  match n with
  | O => Done (decodeCycle, st)
  | S n =>
      if negb (portsSaturated st) && (programSize st <? kSuperscalarMaxSize) then
        '(buf, gen) ← fetchNext (si_type (currentInstruction st)) decodeCycle (mulCount st) (gen_ st);
        st ← slot_loop slot_fuel rejections buf 0 (set_gen gen st);
        decode_loop n rejections (decodeCycle + 1) (bump_cycle st)
      else Done (decodeCycle, st)
  end.

Definition gstate_init (buf : list Instruction) (gen : t) : gstate :=
  mkG portBusy_init (replicate 8 RegisterInfo_init) SI_Null 0 0 0 0 0 0 false 0 0 0 buf gen.

(** The ASIC latency of each register, from the finished program. *)
Definition asic_step (lat : list Z) (i : Instruction) : outcome (list Z) :=
  latDst ← at_index lat (dst i);
  latSrc ← (if negb (dst i =? src i) then l ← at_index lat (src i); Done (l + 1) else Done 0);
  Done (<[Z.to_nat (dst i) := Z.max (latDst + 1) latSrc]> lat).

Definition address_step (lat : list Z) (acc : Z * Z) (i : Z) : outcome (Z * Z) :=
  let '(asicLatencyMax, addressReg) := acc in
  l ← at_index lat i;
  Done (if asicLatencyMax <? l then (l, i) else (asicLatencyMax, addressReg)).

Record Statistics : Type := mkStatistics {
  code_size : Z;
  macro_ops : Z;
  decode_cycles : Z;
  cpu_latency : Z;
  asic_latency : Z;
  mul_count : Z;
  cpu_latencies : list Z;
  asic_latencies : list Z;
}.

Definition generate_superscalar (rejections : nat) (prog : SuperscalarProgram) (gen : t)
  : outcome (SuperscalarProgram * Statistics * t) :=
  '(decodeCycle, st) ← decode_loop (Z.to_nat kSuperscalarLatency) rejections 0
                          (gstate_init (program_buffer_ prog) gen);
  let emitted := take (Z.to_nat (programSize st)) (buffer st) in
  lat ← ofoldl asic_step (replicate 8 0) emitted;
  '(asicLatencyMax, addressReg) ← ofoldl (address_step lat) (0, 0) register_indices;
  Done (mkProgram (buffer st) (wrap 32 (programSize st)) addressReg,
        mkStatistics (codeSize st) (macroOpCount st) decodeCycle (retireCycle st) asicLatencyMax
          (mulCount st) (latency <$> registers st) lat,
        gen_ st).

Definition empty_program : SuperscalarProgram :=
  mkProgram (replicate (Z.to_nat kSuperscalarMaxSize) (mkInstruction 0 0 0 0 0)) 0 0.

(** ** What the generator guarantees

    [safe gen0 P m]: the computation [m], started with generator state [gen0], never throws, never
    has undefined behaviour, and if it returns then its result satisfies [P]; the only other end
    is that one of the two rejection loops used up its draws at a generator state reachable from
    [gen0]. *)

Inductive draws : t -> t -> Prop :=
  | draws_refl gen : draws gen gen
  | draws_byte gen gen' b gen'' :
      draws gen gen' -> get_byte gen' = Done (b, gen'') -> draws gen gen''
  | draws_uint32 gen gen' w gen'' :
      draws gen gen' -> get_uint32 gen' = Done (w, gen'') -> draws gen gen''.

Definition exhausted (rejections : nat) (gen0 : t) : Prop :=
  exists gen, draws gen0 gen /\
    (draw_rotation rejections gen = NoFuel \/ draw_divisor rejections gen = NoFuel).

Section safety.
Context (rejections : nat) (gen0 : t).

Definition safe {A} (P : A -> Prop) (m : outcome A) : Prop :=
  match m with
  | Done a => P a
  | NoFuel => exhausted rejections gen0
  | Throw _ | UB => False
  end.

Lemma safe_bind {A B} (P : A -> Prop) (Q : B -> Prop) (m : outcome A) (f : A -> outcome B) :
  safe P m -> (forall a, P a -> safe Q (f a)) -> safe Q (m ≫= f).
Proof. destruct m; simpl; auto. Qed.

Lemma safe_weaken {A} (P Q : A -> Prop) (m : outcome A) :
  safe P m -> (forall a, P a -> Q a) -> safe Q m.
Proof. destruct m; simpl; auto. Qed.

(** A generator state reached from [gen0]. *)
Definition reached (gen : t) : Prop := wf gen /\ draws gen0 gen.

Lemma safe_get_byte gen :
  reached gen -> safe (fun x => byte8 x.1 /\ reached x.2) (get_byte gen).
Proof.
  intros [Hwf Hd]. destruct (generator_byte gen Hwf) as (b & g' & E & Hb & Hw).
  rewrite E. simpl. split; [done|]. split; [done|]. by eapply draws_byte.
Qed.

Lemma safe_get_uint32 gen :
  reached gen -> safe (fun x => word32 x.1 /\ reached x.2) (get_uint32 gen).
Proof.
  intros [Hwf Hd]. destruct (generator_word gen Hwf) as (b & g' & E & Hb & Hw).
  rewrite E. simpl. split; [done|]. split; [done|]. by eapply draws_uint32.
Qed.

Lemma safe_draw_rotation gen :
  reached gen -> safe (fun x => 1 <= x.1 <= 63 /\ reached x.2) (draw_rotation rejections gen).
Proof.
  intros Hg.
  assert (forall n gen, reached gen ->
    match draw_rotation n gen with
    | Done x => 1 <= x.1 <= 63 /\ reached x.2 | NoFuel => True | _ => False end) as H.
  { clear gen Hg. induction n as [|n IH]; intros gen Hg; cbn [draw_rotation]; [done|].
    pose proof (safe_get_byte gen Hg) as Hb.
    destruct (get_byte gen) as [[b g']| | |] eqn:E; simpl in *; try done.
    destruct Hb as [_ Hr]. destruct (Z.eqb_spec (Z.land b 63) 0); [by apply IH|].
    split; [|done]. assert (in_range 6 (Z.land b 63)) as [? ?]
      by (apply land_range_r; [lia|split; [lia|done]]). simpl. lia. }
  specialize (H rejections gen Hg). destruct (draw_rotation rejections gen) eqn:E; simpl; try done.
  exists gen. destruct Hg. auto.
Qed.

Lemma safe_draw_divisor gen :
  reached gen ->
  safe (fun x => word32 x.1 /\ isZeroOrPowerOf2 x.1 = false /\ reached x.2) (draw_divisor rejections gen).
Proof.
  intros Hg.
  assert (forall n gen, reached gen ->
    match draw_divisor n gen with
    | Done x => word32 x.1 /\ isZeroOrPowerOf2 x.1 = false /\ reached x.2
    | NoFuel => True | _ => False end) as H.
  { clear gen Hg. induction n as [|n IH]; intros gen Hg; cbn [draw_divisor]; [done|].
    pose proof (safe_get_uint32 gen Hg) as Hb.
    destruct (get_uint32 gen) as [[b g']| | |] eqn:E; simpl in *; try done.
    destruct Hb as [Hw Hr]. destruct (isZeroOrPowerOf2 b) eqn:Ez; [by apply IH|]. done. }
  specialize (H rejections gen Hg). destruct (draw_divisor rejections gen) eqn:E; simpl; try done.
  exists gen. destruct Hg. auto.
Qed.

(** *** Instructions under construction *)

(** The template and immediate of a created instruction. *)
Definition si_wf (si : SuperscalarInstruction) : Prop :=
  si_type si <> INVALID /\ info_ si = info_of (si_type si) /\
  byte8 (simod_ si) /\ word32 (imm32_ si) /\
  (si_type si = IROR_C -> 1 <= imm32_ si <= 63) /\
  (si_type si = IMUL_RCP -> isZeroOrPowerOf2 (imm32_ si) = false) /\
  (canReuse_ si = true <-> si_type si = IMULH_R \/ si_type si = ISMULH_R) /\
  -1 <= src_ si < 8.

Ltac fresh_si :=
  unfold si_wf, si_type; simpl; split_and!; try done; try (split; [lia|done]);
  try (split; [intros [=]|intros [[=]|[=]]]); try (split; auto); try lia; auto.

Lemma byte_small x : 0 <= x < 256 -> byte8 x.
Proof. done. Qed.
Lemma word_small x : 0 <= x < 256 -> word32 x.
Proof. intros. apply (in_range_mono 8 32); [lia|done]. Qed.

Lemma create_safe type si gen :
  type <> INVALID -> reached gen ->
  safe (fun x => si_wf x.1 /\ si_type x.1 = type /\ reached x.2) (create rejections type si gen).
Proof.
  intros Ht Hg. destruct type; try done; simpl;
    first
      [ (* no draw *) split; [fresh_si|auto]
      | (* a byte *)
        eapply safe_bind; [by apply safe_get_byte|]; intros [b g'] [Hb Hr]; simpl in *;
        split; [fresh_si|auto]
      | (* a word *)
        eapply safe_bind; [by apply safe_get_uint32|]; intros [b g'] [Hb Hr]; simpl in *;
        split; [fresh_si|auto]
      | eapply safe_bind; [by apply safe_draw_rotation|]; intros [b g'] [Hb Hr]; simpl in *;
        split; [fresh_si; apply word_small; lia|auto]
      | eapply safe_bind; [by apply safe_draw_divisor|]; intros [b g'] (Hb & Hz & Hr); simpl in *;
        split; [fresh_si|auto] ].
Qed.

Lemma pick_safe {A} (l : list A) i :
  0 <= i < Z.of_nat (length l) -> safe (fun x => x ∈ l) (pick l i).
Proof.
  intros Hi. unfold pick. destruct (lookup_lt_is_Some_2 l (Z.to_nat i)) as [x E]; [lia|].
  rewrite E. simpl. by eapply list_elem_of_lookup_2.
Qed.

Lemma land_ones_bound b k : 0 <= k -> 0 <= Z.land b (Z.ones k) < 2 ^ k.
Proof. intros. apply land_range_r; [done|]. by apply ones_range. Qed.

Lemma create_from_safe slot k si gen :
  0 <= k -> Z.of_nat (length slot) = 2 ^ k -> Forall (fun ty => ty <> INVALID) slot -> reached gen ->
  safe (fun x => si_wf x.1 /\ reached x.2) (create_from rejections slot (Z.ones k) si gen).
Proof.
  intros Hk Hl Hf Hg. eapply safe_bind; [by apply safe_get_byte|]. intros [b g'] [_ Hr].
  eapply safe_bind; [apply pick_safe; rewrite Hl; by apply land_ones_bound|].
  intros ty Hty. simpl in Hr. eapply safe_weaken;
    [apply create_safe; [|done]; rewrite list.Forall_forall in Hf; by apply Hf|].
  by intros x (? & _ & ?).
Qed.

Definition buffer_ok (buf : DecoderBuffer) : Prop :=
  0 < buffer_size buf <= 4 /\ Forall (fun c => c ∈ [3; 4; 7; 8; 9; 10]) (counts_ buf).

Lemma createForSlot_safe gen slotSize fetchType isLast si :
  slotSize ∈ [3; 4; 7; 8; 9; 10] -> reached gen ->
  safe (fun x => si_wf x.1 /\ reached x.2) (createForSlot rejections gen slotSize fetchType isLast si).
Proof.
  intros Hs Hg.
  assert (forall ty, ty <> INVALID ->
    safe (fun x => si_wf x.1 /\ reached x.2) (create rejections ty si gen)) as Hc.
  { intros ty Hty. eapply safe_weaken; [by apply create_safe|by intros x (? & _ & ?)]. }
  assert (forall slot, Z.of_nat (length slot) = 2 ^ 1 -> Forall (fun ty => ty <> INVALID) slot ->
    safe (fun x => si_wf x.1 /\ reached x.2) (create_from rejections slot 1 si gen)) as H1.
  { intros slot Hl Hf. by apply (create_from_safe slot 1). }
  unfold createForSlot. rewrite !elem_of_cons, elem_of_nil in Hs.
  destruct Hs as [->|[->|[->|[->|[->|[->|[]]]]]]]; cbn -[create create_from];
    [destruct isLast| destruct (_ && _)|..]; try (by apply Hc);
    try (apply H1; [done|by repeat constructor]).
  apply (create_from_safe slot_3L 2); [lia|done|by repeat constructor|done].
Qed.

(** *** Register selection *)

Lemma selectRegister_safe available gen :
  reached gen ->
  safe (fun x => reached x.2 /\ forall r, x.1 = Some r -> r ∈ available) (selectRegister available gen).
Proof.
  intros Hg. unfold selectRegister.
  destruct (Z.eqb_spec (Z.of_nat (length available)) 0); [split; [done|by intros ? [=]]|].
  destruct (Z.ltb_spec 1 (Z.of_nat (length available))).
  - eapply safe_bind; [by apply safe_get_uint32|]. intros [w g'] [_ Hr].
    eapply safe_bind; [apply pick_safe, Z.mod_pos_bound; lia|]. intros r Hin. simpl.
    split; [done|by intros ? [= <-]].
  - eapply safe_bind; [apply pick_safe; lia|]. intros r Hin. simpl.
    split; [done|by intros ? [= <-]].
Qed.

Lemma register_indices_range r : r ∈ register_indices -> 0 <= r < 8.
Proof.
  unfold register_indices. rewrite !elem_of_cons, elem_of_nil. lia.
Qed.

Lemma ofilter_safe {A} (f : A -> outcome bool) (g : A -> bool) l :
  (forall x, x ∈ l -> f x = Done (g x)) -> safe (fun l' => forall x, x ∈ l' -> x ∈ l /\ g x = true) (ofilter f l).
Proof.
  induction l as [|x l IH]; intros Hf; cbn [ofilter]; [intros y Hy; by apply elem_of_nil in Hy|].
  rewrite Hf by (by left). cbn [mbind outcome_bind]. eapply safe_bind; [apply IH; intros y Hy; apply Hf; by right|].
  intros l' Hl' y Hy. destruct (g x) eqn:E; [apply elem_of_cons in Hy as [->|Hy]; [split; [by left|done]|]|];
    (split; [right|]; by apply Hl').
Qed.

(** The eight registers, tested one after the other. *)
Lemma ofilter_registers (regs : list RegisterInfo) (g : Z -> RegisterInfo -> bool) : length regs = 8%nat ->
  safe (fun l => forall r, r ∈ l -> 0 <= r < 8 /\ exists ri, g r ri = true)
    (ofilter (fun i => ri ← at_index regs i; Done (g i ri)) register_indices).
Proof.
  intros Hl. eapply safe_weaken; [apply (ofilter_safe _ (fun i => g i (default RegisterInfo_init (regs !! Z.to_nat i))))|].
  - intros i Hi%register_indices_range. unfold at_index. destruct (Z.leb_spec 0 i); [|lia].
    destruct (lookup_lt_is_Some_2 regs (Z.to_nat i)) as [ri E]; [lia|]. by rewrite E.
  - intros l Hin r Hr. destruct (Hin r Hr) as [H1 H2]. split; [by apply register_indices_range|eauto].
Qed.

(** A chosen destination: in range, allowed for the instruction, distinct from the source. *)
Definition dst_ok (si : SuperscalarInstruction) : Prop :=
  0 <= dst_ si < 8 /\ (si_type si = IADD_RS -> dst_ si <> 5) /\
  (canReuse_ si = false -> dst_ si <> src_ si).

Lemma selectDestination_safe c allow regs si gen :
  length regs = 8%nat -> reached gen -> si_wf si ->
  safe (fun x => let '(ok, si', gen') := x in reached gen' /\ si_wf si' /\
          si_type si' = si_type si /\ src_ si' = src_ si /\ (ok = true -> dst_ok si'))
    (selectDestination c allow regs si gen).
Proof.
  intros Hl Hg Hsi. eapply safe_bind; [exact (ofilter_registers regs _ Hl)|]. intros available Hin.
  eapply safe_bind; [by apply selectRegister_safe|].
  intros [[d|] g'] [Hr Hd]; cbn -[register_indices] in *; [|by split_and!].
  split; [done|]. split; [exact Hsi|]. split; [done|]. split; [done|]. intros _.
  specialize (Hd d eq_refl). apply Hin in Hd as [Hrange [ri Hav]].
  rewrite !andb_true_iff, !orb_true_iff in Hav.
  destruct Hav as ((((_ & Hreuse) & _) & _) & Hadd).
  split; [done|]. split.
  - intros Ht. destruct Hadd as [Hadd|Hadd]; [by apply bool_decide_eq_true in Hadd|].
    simpl. unfold RegisterNeedsDisplacement in Hadd. blia.
  - intros Hc. destruct Hreuse as [Hreuse|Hreuse]; cbn in *; [congruence|]. blia.
Qed.

Lemma set_src_wf s par si : si_wf si -> 0 <= s < 8 -> si_wf (set_src s par si).
Proof. intros (H1 & H2 & H3 & H4 & H5 & H6 & H7 & H8) Hs. unfold si_wf. simpl. split_and!; auto; lia. Qed.

Lemma selectSource_safe c regs si gen :
  length regs = 8%nat -> reached gen -> si_wf si ->
  safe (fun x => let '(ok, si', gen') := x in reached gen' /\ si_wf si' /\
          si_type si' = si_type si /\ dst_ si' = dst_ si /\ (ok = true -> 0 <= src_ si' < 8))
    (selectSource c regs si gen).
Proof.
  intros Hl Hg Hsi. unfold selectSource.
  eapply safe_bind; [exact (ofilter_registers regs (fun _ ri => latency ri <=? c) Hl)|]. intros available Hin. destruct (_ && _).
  - simpl. split_and!; auto; [by apply set_src_wf|unfold RegisterNeedsDisplacement; lia].
  - eapply safe_bind; [by apply selectRegister_safe|].
    intros [[r|] g'] [Hr Hd]; cbn -[register_indices] in *; [|by split_and!; auto].
    specialize (Hd r eq_refl). apply Hin in Hd as [Hrange _].
    split_and!; auto. by apply set_src_wf.
Qed.

Lemma look_forward_safe (R : SuperscalarInstruction -> SuperscalarInstruction -> Prop)
    (Q : SuperscalarInstruction -> Prop) n select sc c si gen :
  (forall si, R si si) -> (forall a b c, R a b -> R b c -> R a c) ->
  (forall c si gen, reached gen -> si_wf si ->
     safe (fun x => let '(ok, si', gen') := x in
             reached gen' /\ si_wf si' /\ R si si' /\ (ok = true -> Q si')) (select c si gen)) ->
  reached gen -> si_wf si -> 0 <= sc -> 0 <= c ->
  safe (fun x => let '(ok, sc', c', si', gen') := x in
          reached gen' /\ si_wf si' /\ R si si' /\ (ok = true -> Q si') /\ 0 <= sc' /\ 0 <= c')
    (look_forward n select sc c si gen).
Proof.
  intros Rrefl Rtrans Hsel. revert sc c si gen.
  induction n as [|n IH]; intros sc c si gen Hg Hsi Hsc Hc; cbn [look_forward]; [by split_and!|].
  eapply safe_bind; [by apply Hsel|]. intros [[[] si'] g'] (Hr & Hw & HR & HQ); [by split_and!; auto|].
  eapply safe_weaken; [apply IH; auto; lia|]. intros [[[[ok ?] ?] si''] g''] (? & ? & ? & ? & ? & ?).
  split_and!; eauto.
Qed.

(** *** Port scheduling *)

(** The table has [CYCLE_MAP_SIZE] rows of three ports. *)
Definition ports_wf (pb : PortBusy) : Prop :=
  Z.of_nat (length pb) = CYCLE_MAP_SIZE /\ Forall (fun row => length row = 3%nat) pb.

Lemma ports_row pb c : ports_wf pb -> 0 <= c < CYCLE_MAP_SIZE -> exists row, at_index pb c = Done row /\ length row = 3%nat.
Proof. intros [Hl Hf] Hc. apply (at_index_ok _ pb c Hf). lia. Qed.
Lemma row_port (row : list Z) p : length row = 3%nat -> 0 <= p < 3 -> exists u, at_index row p = Done u.
Proof. intros Hl Hp. unfold at_index. destruct (Z.leb_spec 0 p); [|lia]. destruct (lookup_lt_is_Some_2 row (Z.to_nat p)) as [u ->]; [lia|]. eauto. Qed.

Lemma port_free_ok uop mask pb c p : ports_wf pb -> 0 <= c < CYCLE_MAP_SIZE -> 0 <= p < 3 -> exists b, port_free uop mask pb c p = Done b.
Proof.
  intros Hpb Hc Hp. unfold port_free, busy. destruct (_ =? 0); [eauto|].
  destruct (ports_row pb c Hpb Hc) as (row & -> & Hl). cbn [mbind outcome_bind]. destruct (row_port row p Hl Hp) as [u ->]. cbn. eauto.
Qed.

Lemma free_port_ok uop pb c : ports_wf pb -> 0 <= c < CYCLE_MAP_SIZE ->
  exists o, free_port uop pb c = Done o /\ forall p, o = Some p -> 0 <= p < 3.
Proof.
  intros Hpb Hc. unfold free_port.
  destruct (port_free_ok uop ExecutionPort.P5 pb c 2 Hpb Hc) as [b5 ->]; [lia|].
  destruct (port_free_ok uop ExecutionPort.P0 pb c 0 Hpb Hc) as [b0 ->]; [lia|].
  destruct (port_free_ok uop ExecutionPort.P1 pb c 1 Hpb Hc) as [b1 ->]; [lia|]. cbn [mbind outcome_bind].
  destruct b5, b0, b1; (eexists; split; [reflexivity|]); intros p [= <-]; lia.
Qed.

Lemma set_busy_ok pb c p u : ports_wf pb -> 0 <= c < CYCLE_MAP_SIZE -> 0 <= p < 3 ->
  exists pb', set_busy pb c p u = Done pb' /\ ports_wf pb'.
Proof.
  intros Hpb Hc Hp. unfold set_busy. destruct (ports_row pb c Hpb Hc) as (row & -> & Hl). cbn [mbind outcome_bind].
  destruct (row_port row p Hl Hp) as [v ->]. cbn [mbind outcome_bind]. eexists. split; [reflexivity|]. destruct Hpb as [H1 H2]. split.
  - unfold PortBusy. by rewrite length_insert.
  - apply Forall_insert; [done|]. by rewrite length_insert.
Qed.

(** A scheduled cycle: none, or one of the table's from [c] on. *)
Definition scheduled (pb : PortBusy) (c : Z) (m : outcome (Z * PortBusy)) : Prop :=
  exists c' pb', m = Done (c', pb') /\ ports_wf pb' /\ (c' = -1 \/ c <= c' < CYCLE_MAP_SIZE).

Lemma scheduleUop_ok commit uop pb c : ports_wf pb -> 0 <= c -> scheduled pb c (scheduleUop commit uop pb c).
Proof.
  intros Hpb Hc. unfold scheduleUop. remember (Z.to_nat (CYCLE_MAP_SIZE - c)) as n eqn:Hn. revert c Hc Hn.
  induction n as [|n IH]; intros c Hc Hn; cbn [scheduleUop_from]; [by exists (-1), pb; auto|].
  destruct (free_port_ok uop pb c Hpb) as (o & -> & Ho); [lia|]. cbn [mbind outcome_bind]. destruct o as [p|].
  - destruct commit; [|by exists c, pb; split_and!; [..|right; lia]].
    destruct (set_busy_ok pb c p uop Hpb) as (pb' & -> & H'); [lia|by apply Ho|]. exists c, pb'. split_and!; [done|done|right; lia].
  - destruct (IH (c + 1)) as (c' & pb' & -> & H1 & H2); [lia|lia|]. exists c', pb'. split_and!; [done|done|lia].
Qed.

Lemma scheduleMop_from_ok commit mop pb c : ports_wf pb -> 0 <= c ->
  scheduled pb c (scheduleMop_from (Z.to_nat (CYCLE_MAP_SIZE - c)) commit mop pb c).
Proof.
  intros Hpb Hc. remember (Z.to_nat (CYCLE_MAP_SIZE - c)) as n eqn:Hn. revert c Hc Hn.
  induction n as [|n IH]; intros c Hc Hn; cbn [scheduleMop_from]; [by exists (-1), pb; auto|].
  destruct (scheduleUop_ok false (uop1 mop) pb c Hpb Hc) as (c1 & pb1 & -> & _ & H1). cbn [mbind outcome_bind].
  destruct (scheduleUop_ok false (uop2 mop) pb c Hpb Hc) as (c2 & pb2 & -> & _ & H2). cbn [mbind outcome_bind].
  destruct ((0 <=? c1) && (c1 =? c2)) eqn:E.
  - destruct commit; [|by exists c1, pb; split_and!; [..|right; lia]].
    destruct (scheduleUop_ok true (uop1 mop) pb c1 Hpb) as (c3 & pb3 & -> & Hpb3 & _); [lia|]. cbn [mbind outcome_bind].
    destruct (scheduleUop_ok true (uop2 mop) pb3 c2 Hpb3) as (c4 & pb4 & -> & Hpb4 & _); [lia|]. cbn [mbind outcome_bind].
    exists c1, pb4. split_and!; [done|done|right; lia].
  - destruct (IH (c + 1)) as (c' & pb' & -> & H3 & H4); [lia|lia|]. exists c', pb'. split_and!; [done|done|lia].
Qed.

Lemma scheduleMop_ok commit mop pb c dep : ports_wf pb -> 0 <= c ->
  safe (fun x => ports_wf x.2) (scheduleMop commit mop pb c dep).
Proof.
  intros Hpb Hc. unfold scheduleMop. set (c0 := if isDependent mop then Z.max c dep else c).
  assert (0 <= c0) as H0 by (unfold c0; destruct (isDependent mop); lia). destruct (isEliminated mop); [done|].
  destruct (isSimple mop).
  - by destruct (scheduleUop_ok commit (uop1 mop) pb c0 Hpb H0) as (? & ? & -> & ? & _).
  - by destruct (scheduleMop_from_ok commit mop pb c0 Hpb H0) as (? & ? & -> & ? & _).
Qed.

(** *** The loop invariant *)

(** A generated instruction: known opcode, registers below 8, an immediate the interpreter and the
    JIT can use, and for the two-register forms a source other than the destination. *)
Definition ss_wf (i : Instruction) : Prop :=
  0 <= opcode i < 14 /\ 0 <= dst i < 8 /\ 0 <= src i < 8 /\ byte8 (mod_ i) /\ word32 (imm32 i) /\
  (opcode i = type_code IMUL_RCP -> isZeroOrPowerOf2 (imm32 i) = false) /\
  (opcode i = type_code IROR_C -> 1 <= imm32 i <= 63) /\
  (opcode i = type_code IADD_RS -> dst i <> RegisterNeedsDisplacement) /\
  (opcode i <= type_code IMUL_R -> dst i <> src i).

(** The registers selected once the macro-operations below [k] are scheduled. *)
Definition progress (si : SuperscalarInstruction) (k : Z) : Prop :=
  (0 <= getSrcOp (info_ si) < k -> 0 <= src_ si < 8) /\
  (getDstOp (info_ si) < k -> dst_ok si).

Lemma toInstr_wf si : si_wf si -> progress si (getSize (info_ si)) -> ss_wf (toInstr si).
Proof.
  intros (Hty & Hinfo & Hmod & Himm & Hror & Hrcp & Hreuse & Hsrc) [Ps Pd]. rewrite Hinfo in Ps, Pd.
  assert (getDstOp (info_of (si_type si)) < getSize (info_of (si_type si))) as Hlt
    by (destruct (si_type si); done).
  destruct (Pd Hlt) as (Hd & H5 & Hne).
  assert (0 <= (if 0 <=? src_ si then src_ si else dst_ si) < 8) as Hs
    by (destruct (Z.leb_spec 0 (src_ si)); lia).
  assert (forall x, 0 <= x < 8 -> wrap 8 x = x) as Hw by (intros; apply wrap_small; split; lia).
  unfold ss_wf, toInstr, RegisterNeedsDisplacement. cbn [opcode dst src mod_ imm32].
  rewrite (Hw (dst_ si)), (Hw _ Hs), (wrap_small 8 (simod_ si)) by done.
  assert (wrap 8 (type_code (si_type si)) = type_code (si_type si)) as ->
    by (destruct (si_type si); done).
  assert (0 <= type_code (si_type si) < 14) as Hop by (destruct (si_type si); simpl; done || lia).
  do 5 (split; [done|]). split_and!.
  - intros E. apply Hrcp. by destruct (si_type si).
  - intros E. apply Hror. by destruct (si_type si).
  - intros E. apply H5. by destruct (si_type si).
  - intros E.
    assert (canReuse_ si = false) as Hc.
    { apply not_true_is_false. rewrite Hreuse. intros [Ht|Ht]; rewrite Ht in E; simpl in E; lia. }
    assert (0 <= src_ si) by (apply Ps; destruct (si_type si); simpl in *; done || lia).
    destruct (Z.leb_spec 0 (src_ si)); [auto|lia].
Qed.

Record Inv (st : gstate) : Prop := mkInv {
  inv_ports : ports_wf (portBusy st);
  inv_cycle : 0 <= cycle_ st;
  inv_regs : length (registers st) = 8%nat;
  inv_buf : length (buffer st) = 512%nat;
  inv_size : 0 <= programSize st <= 512;
  inv_prog : Forall ss_wf (take (Z.to_nat (programSize st)) (buffer st));
  inv_gen : reached (gen_ st);
  inv_ta : 0 <= throwAwayCount st <= 256;
  inv_index : 0 <= macroOpIndex st;
  inv_cur : getSize (info_ (currentInstruction st)) <= macroOpIndex st \/
            (si_wf (currentInstruction st) /\ progress (currentInstruction st) (macroOpIndex st) /\
             programSize st < 512);
}.

Definition active (st : gstate) : Prop :=
  Inv st /\ si_wf (currentInstruction st) /\ progress (currentInstruction st) (macroOpIndex st) /\
  programSize st < 512 /\ macroOpIndex st < getSize (info_ (currentInstruction st)).

Definition turn_ok (bufferIndex ta : Z) (t : turn) : Prop :=
  match t with
  | Next bi st => Inv st /\ ((bi = bufferIndex /\ throwAwayCount st = ta + 1) \/
                            (bi = bufferIndex + 1 /\ throwAwayCount st = 0))
  | Break st => Inv st
  end.

Lemma take_insert_snoc {A} (l : list A) n x :
  (n < length l)%nat -> take (S n) (<[n := x]> l) = take n l ++ [x].
Proof.
  intros Hn. rewrite (take_S_r _ _ x) by (by apply list_lookup_insert_eq).
  by rewrite take_insert_ge by lia.
Qed.

Lemma getSize_nonneg i : 0 <= getSize i.
Proof. unfold getSize. lia. Qed.

Lemma throw_away_ok bi c si gen st :
  Inv st -> reached gen -> 0 <= c -> turn_ok bi (throwAwayCount st) (throw_away bi c si gen st).
Proof.
  intros [] Hg Hc. unfold throw_away, MAX_THROWAWAY_COUNT. pose proof (getSize_nonneg (info_ si)).
  destruct (Z.ltb_spec (throwAwayCount st) 256).
  - split; [|by left]. constructor; simpl; auto; lia.
  - constructor; simpl; auto; lia.
Qed.

Lemma saturate_ok bi ta c si gen n pb st :
  active st -> reached gen -> 0 <= n <= 256 -> si_wf si -> progress si (macroOpIndex st) -> ports_wf pb -> 0 <= c ->
  turn_ok bi ta (saturate c si gen n pb st).
Proof.
  intros ([] & _ & _ & Hsz & _) Hg Hn Hsi Hp Hpb Hc. constructor; simpl; auto; lia.
Qed.

Lemma progress_mono si k k' : k <= k' -> progress si k' -> progress si k.
Proof. intros Hk [H1 H2]. split; intros; [apply H1|apply H2]; lia. Qed.

Lemma commit_mop_ok bi ta top sc c mop si gen st :
  active st -> reached gen -> si_wf si -> si_type si = si_type (currentInstruction st) ->
  progress si (macroOpIndex st + 1) -> 0 <= top -> 0 <= sc -> 0 <= c ->
  safe (turn_ok bi ta) (commit_mop bi top sc c mop si gen st).
Proof.
  intros Hact Hg Hsi Hty Hp Htop Hsc Hcc. pose proof Hact as ([] & Hcw & _ & Hps & Hlt). unfold commit_mop.
  eapply safe_bind; [by apply scheduleMop_ok|]. intros [cyc pb] Hpb. cbn [snd] in Hpb.
  destruct (cyc <? 0).
  { apply saturate_ok; auto; [lia|]. by eapply progress_mono; [|exact Hp]; lia. }
  assert (Hinfo : info_ si = info_ (currentInstruction st)).
  { destruct Hsi as (_ & -> & _), Hcw as (_ & -> & _). by rewrite Hty. }
  eapply (safe_bind (fun regs => length regs = 8%nat)).
  { destruct (Z.eqb_spec (macroOpIndex st) (getResultOp (info_ si))) as [Er|]; [|done].
    assert (dst_ok si) as [Hd _].
    { apply Hp. destruct Hsi as (_ & E & _). rewrite E in Er |- *. rewrite Er.
      destruct (si_type si); simpl; lia. }
    destruct (_ && _) eqn:E; [|blia]. simpl. by rewrite length_insert. }
  intros regs Hregs.
  destruct (Z.leb_spec (getSize (info_ si)) (macroOpIndex st + 1)) as [Hem|Hem].
  - rewrite inv_buf0. destruct (Z.ltb_spec (programSize st) (Z.of_nat 512)); [|lia]. cbn.
    split; [|by right]. constructor; simpl; auto; try lia.
    + by rewrite length_insert.
    + replace (Z.to_nat (programSize st + 1)) with (S (Z.to_nat (programSize st))) by lia.
      rewrite take_insert_snoc by (rewrite inv_buf0; lia).
      apply Forall_app. split; [done|]. apply Forall_singleton, toInstr_wf; [done|].
      eapply progress_mono; [|exact Hp]. lia.
  - cbn. split; [|by right]. constructor; simpl; auto; try lia.
Qed.

(** Selecting a source keeps what an earlier destination selection established: only the two
    high-multiply templates select the destination first, and they may reuse it. *)
Lemma progress_after_source si si' k :
  si_wf si -> si_wf si' -> si_type si' = si_type si -> dst_ si' = dst_ si ->
  k = getSrcOp (info_ si) -> progress si k ->
  getDstOp (info_ si') < k -> dst_ok si'.
Proof.
  intros Hw Hw' Ht Hd Hk [_ Hp] Hlt.
  pose proof Hw as (_ & Hi & _). pose proof Hw' as (_ & Hi' & _ & _ & _ & _ & Hr' & _).
  rewrite Hi', Ht in Hlt. rewrite Hi in Hk.
  destruct Hp as (H1 & H2 & H3); [by rewrite Hi|].
  unfold dst_ok. rewrite Ht, Hd. split; [exact H1|]. split; [exact H2|].
  intros Hc. exfalso. rewrite Ht in Hr'.
  destruct (si_type si); simpl in *; try lia; rewrite (proj2 Hr') in Hc by auto; done.
Qed.

Lemma slot_body_ok bi top st :
  active st -> 0 <= top -> safe (turn_ok bi (throwAwayCount st)) (slot_body bi top st).
Proof.
  intros Hact Htop. pose proof Hact as (Hinv & Hsi & Hp & Hps & Hlt). pose proof Hinv as [].
  unfold slot_body, getOp.
  destruct (lookup_lt_is_Some_2 (ops_ (info_ (currentInstruction st))) (Z.to_nat (macroOpIndex st)))
    as [mop ->]; [unfold getSize in Hlt; lia|]. cbn [mbind outcome_bind].
  eapply safe_bind; [by apply scheduleMop_ok|]. intros [sc pb] _.
  destruct (Z.ltb_spec sc 0) as [|Hsc]; [by apply saturate_ok|].
  set (si := currentInstruction st) in *. set (k := macroOpIndex st) in *.
  eapply (safe_bind (fun x => let '(ok, sc', c', si', gen') := x in
    reached gen' /\ si_wf si' /\ si_type si' = si_type si /\ 0 <= sc' /\ 0 <= c' /\
    (ok = true -> (0 <= getSrcOp (info_ si') < k + 1 -> 0 <= src_ si' < 8) /\
                  (getDstOp (info_ si') < k -> dst_ok si')))).
  { destruct (Z.eqb_spec k (getSrcOp (info_ si))) as [Ek|Ek].
    - eapply safe_weaken.
      + apply (look_forward_safe (fun a b => si_type b = si_type a /\ dst_ b = dst_ a)
                 (fun si' => 0 <= src_ si' < 8)); auto; [intros a b c []; intros []; split; congruence|].
        intros c a g Hg Ha. eapply safe_weaken; [by apply selectSource_safe|].
        intros [[ok si'] g'] (? & ? & ? & ? & ?). by split_and!.
      + intros [[[[ok ?] ?] si'] g'] (H1 & H2 & (H3 & H4) & H5 & H6 & H7). split_and!; auto.
        intros Hok. split; [auto|]. intros Hlt'.
        exact (progress_after_source si si' k Hsi H2 H3 H4 Ek Hp Hlt').
    - simpl. split_and!; auto. intros _. destruct Hp as [Hp1 Hp2].
      split; intros; [apply Hp1; lia|by apply Hp2]. }
  intros [[[[ok sc1] c1] si1] g1] (Hr1 & Hw1 & Ht1 & Hsc1 & Hc1 & Hok1).
  destruct ok; cbn [negb]; [|by apply throw_away_ok]. destruct (Hok1 eq_refl) as [Hs1 Hd1].
  eapply (safe_bind (fun x => let '(ok, sc', c', si', gen') := x in
    reached gen' /\ si_wf si' /\ si_type si' = si_type si /\ 0 <= sc' /\ 0 <= c' /\ (ok = true -> progress si' (k + 1)))).
  { destruct (Z.eqb_spec k (getDstOp (info_ si1))) as [Ek|Ek].
    - eapply safe_weaken.
      + apply (look_forward_safe (fun a b => si_type b = si_type a /\ src_ b = src_ a) dst_ok);
          auto; [intros a b c []; intros []; split; congruence|].
        intros c a g Hg Ha. eapply safe_weaken; [by apply selectDestination_safe|].
        intros [[ok si'] g'] (? & ? & ? & ? & ?). by split_and!.
      + intros [[[[ok ?] ?] si'] g'] (H1 & H2 & (H3 & H4) & H5 & H6 & H7). split_and!; auto; [congruence|].
        intros Hok. split; [|auto]. rewrite H4. intros Hs. apply Hs1.
        destruct Hw1 as (_ & -> & _). destruct H2 as (_ & E2 & _). by rewrite E2, H3 in Hs.
    - simpl. split_and!; auto. intros _. split; [done|]. intros. apply Hd1. lia. }
  intros [[[[ok sc2] c2] si2] g2] (Hr2 & Hw2 & Ht2 & Hsc2 & Hc2 & Hok2).
  destruct ok; cbn [negb]; [|by apply throw_away_ok]. by apply commit_mop_ok; auto.
Qed.

Lemma slot_turn_ok buf bi st :
  Inv st -> buffer_ok buf -> 0 <= bi < buffer_size buf ->
  safe (turn_ok bi (throwAwayCount st)) (slot_turn rejections buf bi st).
Proof.
  intros Hinv [Hbuf Hcounts] Hbi. pose proof Hinv as []. unfold slot_turn.
  destruct (Z.leb_spec (getSize (info_ (currentInstruction st))) (macroOpIndex st)) as [Hge|Hlt].
  - destruct (_ || _) eqn:E; [done|]. apply orb_false_iff in E as [_ E].
    change kSuperscalarMaxSize with 512 in E. apply Z.leb_gt in E.
    eapply safe_bind; [apply pick_safe; done|]. intros sz Hsz.
    eapply safe_bind; [apply createForSlot_safe; [|done]; by rewrite list.Forall_forall in Hcounts; apply Hcounts|].
    intros [si g] [Hsi Hg]. cbn [fst snd] in Hsi, Hg.
    match goal with |- safe _ (slot_body _ _ ?st') => apply (slot_body_ok bi (cycle_ st) st'); [|done] end.
    assert (0 < getSize (info_ si)).
    { destruct Hsi as (Hne & -> & _). destruct (si_type si); simpl; lia || done. }
    assert (progress si 0) as Hp.
    { split; [lia|]. destruct Hsi as (Hne & -> & _). destruct (si_type si); simpl; lia. }
    split; [|simpl; auto]. constructor; simpl; auto; lia.
  - destruct inv_cur0 as [?|(H1 & H2 & H3)]; [lia|]. by apply slot_body_ok.
Qed.

(** The measure that decreases with every turn of the slot loop. *)
Definition slot_measure (buf : DecoderBuffer) (bi : Z) (st : gstate) : Z :=
  (buffer_size buf - bi) * 258 + (257 - throwAwayCount st).

Lemma slot_loop_safe fuel buf bi st :
  Inv st -> buffer_ok buf -> 0 <= bi <= buffer_size buf -> slot_measure buf bi st <= Z.of_nat fuel ->
  safe Inv (slot_loop fuel rejections buf bi st).
Proof.
  revert bi st. induction fuel as [|fuel IH]; intros bi st Hinv Hbuf Hbi Hm; cbn [slot_loop];
    destruct (Z.ltb_spec bi (buffer_size buf)); try done.
  - pose proof (inv_ta _ Hinv). unfold slot_measure in Hm. lia.
  - eapply safe_bind; [apply slot_turn_ok; [done|done|lia]|].
    intros [bi' st'|st'] Ht; simpl in Ht; [|done]. destruct Ht as [Hinv' Hstep].
    pose proof (inv_ta _ Hinv). pose proof (inv_ta _ Hinv').
    apply IH; auto; [lia|]. unfold slot_measure in *. lia.
Qed.

Lemma fetchNext_safe type c mc gen :
  reached gen -> safe (fun x => buffer_ok x.1 /\ reached x.2) (fetchNext type c mc gen).
Proof.
  intros Hg. assert (Hok : forall i cs, (0 < length cs <= 4)%nat -> Forall (fun c => c ∈ [3; 4; 7; 8; 9; 10]) cs ->
    buffer_ok (mkBuffer i cs)) by (intros i cs H1 H2; split; [unfold buffer_size; simpl; lia|done]).
  unfold fetchNext, fetchNextDefault.
  destruct (_ || _); [split; [apply Hok; [simpl; lia|]|done]; by repeat (constructor; [set_solver|])|].
  destruct (_ <? _); [split; [apply Hok; [simpl; lia|]|done]; by repeat (constructor; [set_solver|])|].
  destruct (bool_decide _); (eapply safe_bind; [by apply safe_get_byte|]; intros [b g] [_ Hr]; simpl in Hr).
  - simpl. split; [|done]. destruct (_ =? _);
      (apply Hok; [simpl; lia|]; by repeat (constructor; [set_solver|])).
  - eapply safe_bind; [apply pick_safe, (land_ones_bound b 2); lia|]. intros buf Hin. simpl.
    split; [|done]. unfold decodeBuffers in Hin. rewrite !elem_of_cons, elem_of_nil in Hin.
    destruct Hin as [->|[->|[->|[->|[]]]]];
      (apply Hok; [simpl; lia|]; by repeat (constructor; [set_solver|])).
Qed.

Lemma decode_loop_safe n c st :
  Inv st -> safe (fun x => Inv x.2) (decode_loop n rejections c st).
Proof.
  revert c st. induction n as [|n IH]; intros c st Hinv; cbn [decode_loop]; [done|].
  destruct (_ && _); [|done].
  eapply safe_bind; [by apply fetchNext_safe, inv_gen|]. intros [buf g] [Hbuf Hg]. simpl in Hbuf, Hg.
  eapply safe_bind.
  - apply slot_loop_safe; [|done|unfold buffer_ok in Hbuf; lia|].
    + destruct Hinv. by constructor.
    + pose proof (inv_ta _ Hinv). destruct Hbuf as [Hb _]. unfold slot_measure, slot_fuel; simpl. lia.
  - intros st' Hinv'. apply IH. destruct Hinv'. constructor; cbn; auto; lia.
Qed.

(** A generated program: it fits the buffer, every instruction is well formed, and the address
    register is a register. *)
Definition program_wf (p : SuperscalarProgram) : Prop :=
  0 <= size_ p <= kSuperscalarMaxSize /\ length (program_buffer_ p) = Z.to_nat kSuperscalarMaxSize /\
  Forall ss_wf (take (Z.to_nat (size_ p)) (program_buffer_ p)) /\ 0 <= addr_reg_ p < 8.

Lemma asic_safe l : Forall ss_wf l -> safe (fun lat => length lat = 8%nat) (ofoldl asic_step (replicate 8 0) l).
Proof.
  intros Hf. destruct (ofoldl_ok (fun lat : list Z => length lat = 8%nat) asic_step l (replicate 8 0)) as (lat & -> & H); [|done|exact H].
  intros lat i Hi Hl. rewrite list.Forall_forall in Hf. destruct (Hf i Hi) as (_ & Hd & Hs & _).
  assert (forall k, 0 <= k < 8 -> exists x, at_index lat k = Done x) as Hat.
  { intros k Hk. unfold at_index. destruct (Z.leb_spec 0 k); [|lia]. destruct (lookup_lt_is_Some_2 lat (Z.to_nat k)) as [x ->]; [lia|]. eauto. }
  unfold asic_step. destruct (Hat _ Hd) as [x ->], (Hat _ Hs) as [y ->]. cbn [mbind outcome_bind].
  destruct (negb _); cbn [mbind outcome_bind]; (eexists; split; [reflexivity|]; by rewrite length_insert).
Qed.

Lemma address_safe lat : length lat = 8%nat -> safe (fun x => 0 <= x.2 < 8) (ofoldl (address_step lat) (0, 0) register_indices).
Proof.
  intros Hl. destruct (ofoldl_ok (fun x : Z * Z => 0 <= x.2 < 8) (address_step lat) register_indices (0, 0)) as (x & -> & H); [|cbn; lia|exact H].
  intros [m r] i Hi Hr. apply register_indices_range in Hi. unfold address_step, at_index. destruct (Z.leb_spec 0 i); [|lia].
  destruct (lookup_lt_is_Some_2 lat (Z.to_nat i)) as [l ->]; [lia|]. cbn [mbind outcome_bind]. eexists. split; [reflexivity|]. by destruct (m <? l).
Qed.

Lemma generate_superscalar_safe prog gen :
  length (program_buffer_ prog) = Z.to_nat kSuperscalarMaxSize -> reached gen ->
  safe (fun x => let '(p, _, gen') := x in program_wf p /\ reached gen')
    (generate_superscalar rejections prog gen).
Proof.
  intros Hlen Hg.
  assert (Inv (gstate_init (program_buffer_ prog) gen)) as Hinit.
  { assert (ports_wf portBusy_init) by (split; [reflexivity|by apply Forall_replicate]).
    constructor; cbn -[portBusy_init]; auto; try lia; try done. by left. }
  unfold generate_superscalar. eapply safe_bind; [by apply decode_loop_safe|].
  intros [c st] [_ _ Hregs Hbuf Hsize Hprog Hg' _ _ _]. cbn [snd] in *.
  eapply safe_bind; [by apply asic_safe|]. intros lat Hlat. eapply safe_bind; [by apply address_safe|]. intros [m r] Ha. cbn [snd] in Ha.
  cbn [safe]. split; [|done]. unfold program_wf; cbn [size_ program_buffer_ addr_reg_].
  rewrite (wrap_small 32) by (split; [lia|]; eapply Z.le_lt_trans; [apply Hsize|done]).
  change kSuperscalarMaxSize with 512. split; [exact Hsize|]. split; [exact Hbuf|].
  by split; [|lia].
Qed.

End safety.

(** C24: the generator never throws, never indexes outside its tables (the port table included) or the program
    buffer, and always leaves its loops: whatever the generator state, it returns a well-formed
    program (size at most 512; opcodes, registers and immediates valid for execution; no IADD_RS
    into r5; source and destination distinct where required) and a valid generator state, unless
    one of the two rejection loops meets [rejections] rejected draws in a row. *)
Theorem generate_superscalar_wf rejections prog gen :
  length (program_buffer_ prog) = Z.to_nat kSuperscalarMaxSize -> wf gen ->
  match generate_superscalar rejections prog gen with
  | Done (p, _, gen') => program_wf p /\ wf gen' /\ draws gen gen'
  | NoFuel => exhausted rejections gen
  | Throw _ | UB => False
  end.
Proof.
  intros Hlen Hwf.
  pose proof (generate_superscalar_safe rejections gen prog gen Hlen (conj Hwf (draws_refl gen))) as H.
  by destruct (generate_superscalar rejections prog gen) as [[[p s] g]| | |].
Qed.

Lemma generate_superscalar_wf_witness :
  match generate_superscalar 5 empty_program (make [] 0) with
  | Done (p, _, gen') => program_wf p /\ wf gen' /\ draws (make [] 0) gen'
  | NoFuel => exhausted 5 (make [] 0)
  | Throw _ | UB => False
  end.
Proof.
  apply generate_superscalar_wf; [apply length_replicate|apply make_wf, List.Forall_nil].
Defined.

(** The first decode cycles on a concrete key: the generator emits instructions. *)
Example first_decode_cycles :
  match decode_loop 4 3 0 (gstate_init (program_buffer_ empty_program) (make [116; 101; 115; 116] 0)) with
  | Done (_, st) => Some (programSize st, opcode <$> take 6 (buffer st))
  | _ => None
  end = Some (15, [3; 3; 3; 4; 0; 5]).
Proof. vm_compute. reflexivity. Qed.
