(* ===== verification/Argon2.v ===== *)
(** * Argon2: the variable-length hash, the compression function and the RandomX cache

    Models src/src/argon2.cpp: [argon2_hprime], the scalar and the NEON build of the BlaMka
    permutation, [argon2_compress], and the one-lane Argon2d fill of [Argon2dCache::initialize]
    together with the eight superscalar programs and the reciprocal table it prepares. *)

From S2P Require Import Prelude Neon RandomX Blake2b Superscalar SuperscalarGen.
Import Blake2b.Blake2b Blake2b.Blake2Generator.

(** ** Little-endian helpers *)

Definition append_le32 (output : list Z) (value : Z) : list Z := output ++ le_bytes 4 value.

Definition load_le64 (input : list Z) (off : nat) : Z := of_le (take 8 (drop off input)).

(** An [Argon2Block] is 128 64-bit words. *)
Definition bytes_to_block (input : list Z) : list Z :=
  (fun word : nat => load_le64 input (word * 8)) <$> seq 0 128.

(** ** H', the variable-length hash *)

(** The loop that emits 32 bytes of each intermediate digest; [n] turns remain. *)
Fixpoint hprime_rounds (n : nat) (value output : list Z) : outcome (list Z * list Z) :=
  match n with
  | O => Done (value, output)
  | S n =>
      let output := output ++ take 32 value in
      value ← (if (0 <? n)%nat then blake2b value 64 else Done value);
      hprime_rounds n value output
  end.

Definition hprime_error : exn := invalid_argument "Argon2 H' output length is invalid".

Definition argon2_hprime (input : list Z) (output_bytes : Z) : outcome (list Z) :=
  if (output_bytes =? 0) || (2 ^ 32 - 1 <? output_bytes) then Throw hprime_error else
  let initial := append_le32 [] (wrap 32 output_bytes) ++ input in
  if output_bytes <=? 64 then blake2b initial output_bytes else
  let rounds := (output_bytes + 31) / 32 - 2 in
  value ← blake2b initial 64;
  '(value, output) ← hprime_rounds (Z.to_nat rounds) value [];
  final ← blake2b value (output_bytes - rounds * 32);
  Done (output ++ final).

(** ** The BlaMka permutation, scalar build *)

Definition blamka_add (left right : Z) : Z :=
  let product := wrap 32 left * wrap 32 right in
  add64 (add64 left right) (mul64 2 product).

(** [gb] on four words of an array, in the source's order of assignments. *)
Definition gb (a b c d : nat) (w : list Z) : list Z :=
  let w := <[a := blamka_add (w !!! a) (w !!! b)]> w in
  let w := <[d := rotr64 (Z.lxor (w !!! d) (w !!! a)) 32]> w in
  let w := <[c := blamka_add (w !!! c) (w !!! d)]> w in
  let w := <[b := rotr64 (Z.lxor (w !!! b) (w !!! c)) 24]> w in
  let w := <[a := blamka_add (w !!! a) (w !!! b)]> w in
  let w := <[d := rotr64 (Z.lxor (w !!! d) (w !!! a)) 16]> w in
  let w := <[c := blamka_add (w !!! c) (w !!! d)]> w in
  <[b := rotr64 (Z.lxor (w !!! b) (w !!! c)) 63]> w.

Definition permute_16 (words : list Z) : list Z :=
  let words := gb 0 4 8 12 words in
  let words := gb 1 5 9 13 words in
  let words := gb 2 6 10 14 words in
  let words := gb 3 7 11 15 words in
  let words := gb 0 5 10 15 words in
  let words := gb 1 6 11 12 words in
  let words := gb 2 7 8 13 words in
  gb 3 4 9 14 words.

(** ** The BlaMka permutation, NEON build *)

Definition blamka_add_neon (a b : vec2) : vec2 :=
  let prod := vmull_low a b in
  vaddq (vaddq a b) (vshlq_n prod 1).

Definition rotr32_neon (x : vec2) : vec2 := vrev64q_u32 x.
Definition rotr24_neon (x : vec2) : vec2 := vsriq_n (vshlq_n x 40) x 24.
Definition rotr16_neon (x : vec2) : vec2 := vsriq_n (vshlq_n x 48) x 16.
Definition rotr63_neon (x : vec2) : vec2 := vsriq_n (vshlq_n x 1) x 63.

Definition gb_neon (va vb vc vd : vec2) : vec2 * vec2 * vec2 * vec2 :=
  let va := blamka_add_neon va vb in
  let vd := rotr32_neon (veorq vd va) in
  let vc := blamka_add_neon vc vd in
  let vb := rotr24_neon (veorq vb vc) in
  let va := blamka_add_neon va vb in
  let vd := rotr16_neon (veorq vd va) in
  let vc := blamka_add_neon vc vd in
  let vb := rotr63_neon (veorq vb vc) in
  (va, vb, vc, vd).

(** One column block: load at four offsets, mix, store back. *)
Definition column_neon (i0 i1 i2 i3 : nat) (words : list Z) : list Z :=
  let '(va, vb, vc, vd) :=
    gb_neon (vld1q i0 words) (vld1q i1 words) (vld1q i2 words) (vld1q i3 words) in
  vst1q i3 vd (vst1q i2 vc (vst1q i1 vb (vst1q i0 va words))).

(** First diagonal block: [vd] gathers words 15 and 12. *)
Definition diagonal_neon0 (words : list Z) : list Z :=
  let '(va, vb, vc, vd) :=
    gb_neon (vld1q 0 words) (vld1q 5 words) (vld1q 10 words)
      (vcombine (words !!! 15%nat) (words !!! 12%nat)) in
  let words := vst1q 10 vc (vst1q 5 vb (vst1q 0 va words)) in
  <[12%nat := vd.2]> (<[15%nat := vd.1]> words).

(** Second diagonal block: [vb] gathers words 7 and 4. *)
Definition diagonal_neon1 (words : list Z) : list Z :=
  let '(va, vb, vc, vd) :=
    gb_neon (vld1q 2 words) (vcombine (words !!! 7%nat) (words !!! 4%nat))
      (vld1q 8 words) (vld1q 13 words) in
  let words := <[4%nat := vb.2]> (<[7%nat := vb.1]> (vst1q 2 va words)) in
  vst1q 13 vd (vst1q 8 vc words).

Definition permute_16_neon (words : list Z) : list Z :=
  let words := column_neon 0 4 8 12 words in
  let words := column_neon 2 6 10 14 words in
  let words := diagonal_neon0 words in
  diagonal_neon1 words.

(** ** Permuting a block: eight rows, then eight columns *)

(** Run [f] on the [n] words of the array at offset [off]. *)
Definition on_slice (off n : nat) (f : list Z -> list Z) (l : list Z) : list Z :=
  take off l ++ f (take n (drop off l)) ++ drop (off + n) l.

Definition gather_column (block : list Z) (column : nat) : list Z :=
  concat ((fun row : nat => [block !!! (16 * row + 2 * column)%nat;
                             block !!! (16 * row + 2 * column + 1)%nat]) <$> seq 0 8).

Definition scatter_column (words : list Z) (column : nat) (block : list Z) : list Z :=
  foldl (fun block row =>
    <[(16 * row + 2 * column + 1)%nat := words !!! (2 * row + 1)%nat]>
      (<[(16 * row + 2 * column)%nat := words !!! (2 * row)%nat]> block)) block (seq 0 8).

Definition permute_block_with (permute : list Z -> list Z) (block : list Z) : list Z :=
  let block := foldl (fun block row => on_slice (16 * row) 16 permute block) block (seq 0 8) in
  foldl (fun block column =>
    let words := permute (gather_column block column) in
    scatter_column words column block) block (seq 0 8).

Definition permute_block (block : list Z) : list Z := permute_block_with permute_16 block.
Definition permute_block_neon (block : list Z) : list Z := permute_block_with permute_16_neon block.

(** [argon2_compress]: [permute] is the build's [permute_block]. *)
Definition argon2_compress (permute : list Z -> list Z) (previous reference : list Z)
  (destination : option (list Z)) : list Z :=
  let result := zip_with Z.lxor previous reference in
  let permuted := permute result in
  let result := zip_with Z.lxor result permuted in
  match destination with
  | None => result
  | Some d => zip_with Z.lxor result d
  end.

(** ** The cache *)

Record Argon2dCache : Type := mkCache {
  passes_ : Z;
  memory_blocks_ : Z;
  blocks_ : list (list Z);
  programs_ : list SuperscalarProgram;
  reciprocal_cache_ : list Z;
}.

Definition cache_argument_error : exn :=
  invalid_argument "Argon2d cache needs at least 8 blocks, a multiple of 4, and one pass".

(** The constructor.  [mapped] says whether one of the two allocations (huge pages, plain
    anonymous memory) succeeded; fresh anonymous memory reads as zero. *)
Definition make_cache (mapped : bool) (memory_blocks passes : Z) : outcome Argon2dCache :=
  if (memory_blocks <? 8) || negb (memory_blocks mod 4 =? 0) || (passes =? 0)
  then Throw cache_argument_error else
  let allocated_size := mul64 memory_blocks 1024 in
  if negb mapped then Throw (runtime_error "mmap failed for Argon2dCache allocation") else
  Done (mkCache passes memory_blocks
          (replicate (Z.to_nat (allocated_size / 1024)) (replicate 128 0))
          (replicate kRandomXCacheAccesses empty_program) []).

Definition block_at (blocks : list (list Z)) (i : Z) : outcome (list Z) := at_index blocks i.

Definition set_block (blocks : list (list Z)) (i : Z) (b : list Z) : outcome (list (list Z)) :=
  if (0 <=? i) && (i <? Z.of_nat (length blocks)) then Done (<[Z.to_nat i := b]> blocks) else UB.

(** The index of the reference block, in [std::size_t] arithmetic. *)
Definition reference_area (memory_blocks segment_length pass slice index : Z) : Z :=
  if pass =? 0 then sub64 (add64 (mul64 slice segment_length) index) 1
  else sub64 (add64 (sub64 memory_blocks segment_length) index) 1.

Definition reference_index (memory_blocks segment_length pass slice index j1 : Z) : Z :=
  let area := reference_area memory_blocks segment_length pass slice index in
  let square := mul64 j1 j1 in
  let x := Z.shiftr square 32 in
  let y := Z.shiftr (mul64 area x) 32 in
  let relative := sub64 (sub64 area 1) y in
  let start_position :=
    if pass =? 0 then 0
    else if slice =? 3 then 0 else mul64 (slice + 1) segment_length in
  add64 start_position relative mod memory_blocks.

Definition current_index (segment_length slice index : Z) : Z :=
  add64 (mul64 slice segment_length) index.
Definition previous_index (memory_blocks current : Z) : Z :=
  if current =? 0 then sub64 memory_blocks 1 else current - 1.

Section fill.
Context (permute : list Z -> list Z) (memory_blocks : Z).
Let segment_length := memory_blocks / 4.

(** The body of the innermost loop of [initialize]. *)
Definition fill_step (pass slice : Z) (blocks : list (list Z)) (index : Z)
  : outcome (list (list Z)) :=
  let current := current_index segment_length slice index in
  let previous := previous_index memory_blocks current in
  prev ← block_at blocks previous;
  let j1 := wrap 32 (prev !!! 0%nat) in
  let reference := reference_index memory_blocks segment_length pass slice index j1 in
  ref ← block_at blocks reference;
  dest ← (if pass =? 0 then Done None else b ← block_at blocks current; Done (Some b));
  set_block blocks current (argon2_compress permute prev ref dest).

Definition fill_segment (pass : Z) (blocks : list (list Z)) (slice : Z) : outcome (list (list Z)) :=
  let start_index := if (pass =? 0) && (slice =? 0) then 2 else 0 in
  ofoldl (fill_step pass slice) blocks (seqZ start_index (segment_length - start_index)).

Definition fill_pass (blocks : list (list Z)) (pass : Z) : outcome (list (list Z)) :=
  ofoldl (fill_segment pass) blocks (seqZ 0 4).

Definition fill_memory (passes : Z) (blocks : list (list Z)) : outcome (list (list Z)) :=
  ofoldl fill_pass blocks (seqZ 0 passes).

End fill.

Definition salt : list Z := [82; 97; 110; 100; 111; 109; 88; 3].

Definition prehash (memory_blocks passes : Z) (key : list Z) : list Z :=
  let p := append_le32 [] 1 in
  let p := append_le32 p 0 in
  let p := append_le32 p (wrap 32 memory_blocks) in
  let p := append_le32 p (wrap 32 passes) in
  let p := append_le32 p 0x13 in
  let p := append_le32 p 0 in
  let p := append_le32 p (wrap 32 (Z.of_nat (length key))) in
  let p := p ++ key in
  let p := append_le32 p (wrap 32 (Z.of_nat (length salt))) in
  let p := p ++ salt in
  let p := append_le32 p 0 in
  append_le32 p 0.

(** The two starting blocks. *)
Definition first_block (h0 : list Z) (blocks : list (list Z)) (index : Z)
  : outcome (list (list Z)) :=
  let input := append_le32 (append_le32 h0 index) 0 in
  bytes ← argon2_hprime input 1024;
  set_block blocks index (bytes_to_block bytes).

(** Replacing the divisor of every IMUL_RCP by the index of its reciprocal. *)
Definition cache_reciprocal (st : list Instruction * list Z) (j : nat)
  : outcome (list Instruction * list Z) :=
  let '(buf, rc) := st in
  match buf !! j with
  | None => UB
  | Some instr =>
      if bool_decide (type_of_opcode (opcode instr) = Some IMUL_RCP) then
        rcp ← randomx_reciprocal (getImm32 instr);
        Done (<[j := setImm32 (wrap 32 (Z.of_nat (length rc))) instr]> buf, rc ++ [rcp])
      else Done (buf, rc)
  end.

Definition cache_reciprocals (prog : SuperscalarProgram) (rc : list Z)
  : outcome (SuperscalarProgram * list Z) :=
  '(buf, rc) ← ofoldl cache_reciprocal (program_buffer_ prog, rc) (seq 0 (Z.to_nat (size_ prog)));
  Done (mkProgram buf (size_ prog) (addr_reg_ prog), rc).

(** The last loop of [initialize]: generate, then cache the reciprocals, program by program. *)
Definition prepare_program (rejections : nat) (st : list SuperscalarProgram * list Z * t)
  (prog : SuperscalarProgram) : outcome (list SuperscalarProgram * list Z * t) :=
  let '(done, rc, gen) := st in
  '(prog, _, gen) ← generate_superscalar rejections prog gen;
  '(prog, rc) ← cache_reciprocals prog rc;
  Done (done ++ [prog], rc, gen).

Definition prepare_programs (rejections : nat) (programs : list SuperscalarProgram) (key : list Z)
  : outcome (list SuperscalarProgram * list Z) :=
  '(programs, rc, _) ← ofoldl (prepare_program rejections) ([], [], make key 0) programs;
  Done (programs, rc).

Definition initialize (permute : list Z -> list Z) (rejections : nat) (key : list Z)
  (cache : Argon2dCache) : outcome Argon2dCache :=
  h0 ← blake2b (prehash (memory_blocks_ cache) (passes_ cache) key) 64;
  blocks ← ofoldl (first_block h0) (blocks_ cache) [0; 1];
  blocks ← fill_memory permute (memory_blocks_ cache) (passes_ cache) blocks;
  '(programs, rc) ← prepare_programs rejections (programs_ cache) key;
  Done (mkCache (passes_ cache) (memory_blocks_ cache) blocks programs rc).

(** ** H' is the variable-length hash of RFC 9106, section 3.3 *)

Definition digest64 (x : list Z) : list Z := take 64 (full_digest x 64).

Lemma blake2b_64 x : blake2b x 64 = Done (digest64 x).
Proof. by apply blake2b_eq. Qed.

Lemma digest64_spec x : length (digest64 x) = 64%nat /\ Bytes (digest64 x).
Proof.
  destruct (full_digest_spec x 64) as [Hl Hb]; [lia|]. unfold digest64.
  split; [rewrite length_take; lia|by apply Forall_take].
Qed.

(** The chain V_1, V_2, ... of the specification (counted from 0). *)
Definition chain (x : list Z) (i : nat) : list Z := Nat.iter i digest64 (digest64 x).

Lemma hprime_rounds_next n x k output :
  hprime_rounds (S (S n)) (chain x k) output =
    hprime_rounds (S n) (chain x (S k)) (output ++ take 32 (chain x k)).
Proof.
  change (chain x (S k)) with (digest64 (chain x k)). generalize (chain x k). intros v.
  unfold hprime_rounds at 1. replace (0 <? S n)%nat with true by done. rewrite blake2b_64.
  reflexivity.
Qed.

Lemma hprime_rounds_chain x k n output :
  hprime_rounds (S n) (chain x k) output =
    Done (chain x (k + n), output ++ concat ((fun i => take 32 (chain x i)) <$> seq k (S n))).
Proof.
  revert k output. induction n as [|n IH]; intros k output; [cbn|].
  - by rewrite Nat.add_0_r, app_nil_r.
  - rewrite hprime_rounds_next, IH. replace (S k + n)%nat with (k + S n)%nat by lia.
    by rewrite <- app_assoc.
Qed.

Lemma length_chain_pieces x l :
  length (concat ((fun i => take 32 (chain x i)) <$> l)) = (32 * length l)%nat.
Proof.
  induction l as [|i l IH]; [done|].
  change (concat _) with (take 32 (chain x i) ++ concat ((fun i => take 32 (chain x i)) <$> l)).
  rewrite length_app, IH, length_take. cbn [length].
  assert (length (chain x i) = 64%nat) as -> by (destruct i; apply digest64_spec). lia.
Qed.

Lemma chain_pieces_bytes x l : Bytes (concat ((fun i => take 32 (chain x i)) <$> l)).
Proof.
  apply Forall_concat, Forall_fmap, Forall_forall. intros i _. apply Forall_take.
  destruct i; apply digest64_spec.
Qed.

(** The long branch of [argon2_hprime]. *)
Lemma argon2_hprime_long input n :
  64 < n < 2 ^ 32 ->
  let r := (n + 31) / 32 - 2 in
  let x := le_bytes 4 n ++ input in
  exists last, blake2b (chain x (Z.to_nat r - 1)) (n - 32 * r) = Done last /\
    argon2_hprime input n =
      Done (concat ((fun i => take 32 (chain x i)) <$> seq 0 (Z.to_nat r)) ++ last) /\
    length last = Z.to_nat (n - 32 * r) /\ Bytes last /\ 1 <= r /\ 33 <= n - 32 * r <= 64.
Proof.
  intros Hn r x.
  assert (1 <= r /\ 33 <= n - 32 * r <= 64) as [Hr Hlast] by (subst r; Z.div_mod_to_equations; lia).
  destruct (full_digest_spec (chain x (Z.to_nat r - 1)) (n - 32 * r)) as [Hl Hb]; [lia|].
  eexists. split; [apply blake2b_eq; lia|]. split_and!; try lia.
  - unfold argon2_hprime. destruct (_ || _) eqn:E; [exfalso; lia|]. destruct (Z.leb_spec n 64); [lia|].
    rewrite (wrap_small 32 n) by (split; lia). cbv zeta. fold r.
    change (append_le32 [] n ++ input) with x. rewrite blake2b_64.
    change (digest64 x) with (chain x 0). cbn [mbind outcome_bind].
    replace (Z.to_nat r) with (S (Z.to_nat r - 1)) at 1 by lia.
    rewrite hprime_rounds_chain. cbn [mbind outcome_bind]. rewrite Nat.add_0_l, app_nil_l.
    replace (n - r * 32) with (n - 32 * r) by lia. rewrite blake2b_eq by lia.
    cbn [mbind outcome_bind]. by replace (S (Z.to_nat r - 1)) with (Z.to_nat r) by lia.
  - rewrite length_take. lia.
  - by apply Forall_take.
Qed.

Lemma argon2_hprime_bytes input n :
  1 <= n < 2 ^ 32 ->
  exists out, argon2_hprime input n = Done out /\ length out = Z.to_nat n /\ Bytes out.
Proof.
  intros Hn. destruct (Z.le_gt_cases n 64) as [Hs|Hlong].
  - destruct (full_digest_spec (append_le32 [] (wrap 32 n) ++ input) n) as [Hl Hb]; [lia|].
    unfold argon2_hprime. destruct (_ || _) eqn:E; [exfalso; lia|].
    destruct (Z.leb_spec n 64); [|lia]. rewrite blake2b_eq by lia. eexists. split; [done|].
    rewrite length_take. split; [lia|by apply Forall_take].
  - destruct (argon2_hprime_long input n) as (last & _ & -> & Hl & Hb & Hr & Hlast); [lia|].
    eexists. split; [done|]. rewrite length_app, length_chain_pieces, length_seq, Hl.
    split; [lia|]. apply Forall_app. split; [apply chain_pieces_bytes|done].
Qed.

(** C37: [argon2_hprime] throws exactly when the requested length is 0 or above 2^32-1, and is
    otherwise the variable-length hash H' of RFC 9106: BLAKE2b of the length and the input when
    64 bytes or fewer are asked for, else the first halves of a chain V_1, V_2, .. V_r of 64-byte
    digests followed by one digest of the remaining 33 to 64 bytes; it returns exactly [n] bytes. *)
Theorem argon2_hprime_rfc9106 input n :
  0 <= n ->
  ((n = 0 \/ 2 ^ 32 <= n) -> argon2_hprime input n = Throw hprime_error) /\
  (1 <= n <= 64 -> argon2_hprime input n = blake2b (le_bytes 4 n ++ input) n) /\
  (64 < n < 2 ^ 32 -> exists (V : nat -> list Z) (last : list Z) (r : Z),
     r = (n + 31) / 32 - 2 /\ 1 <= r /\ 33 <= n - 32 * r <= 64 /\
     blake2b (le_bytes 4 n ++ input) 64 = Done (V 1%nat) /\
     (forall i, (1 <= i)%nat -> blake2b (V i) 64 = Done (V (S i))) /\
     blake2b (V (Z.to_nat r)) (n - 32 * r) = Done last /\
     argon2_hprime input n =
       Done (concat ((fun i => take 32 (V i)) <$> seq 1 (Z.to_nat r)) ++ last)) /\
  (1 <= n < 2 ^ 32 -> exists out, argon2_hprime input n = Done out /\ length out = Z.to_nat n).
Proof.
  intros H0. split_and!.
  - intros Hn. unfold argon2_hprime. destruct (_ || _) eqn:E; [done|]. exfalso. lia.
  - intros Hn. unfold argon2_hprime. destruct (_ || _) eqn:E; [exfalso; lia|].
    destruct (Z.leb_spec n 64); [|lia]. by rewrite (wrap_small 32 n) by (split; lia).
  - intros Hn. destruct (argon2_hprime_long input n Hn) as (last & Hlast & Hout & _ & _ & Hr & Hd).
    set (x := le_bytes 4 n ++ input) in *.
    exists (fun i => chain x (i - 1)), last, ((n + 31) / 32 - 2). split_and!; try lia; auto.
    + apply blake2b_64.
    + intros [|i] Hi; [lia|]. rewrite blake2b_64. replace (S i - 1)%nat with i by lia.
      by replace (S (S i) - 1)%nat with (S i) by lia.
    + rewrite Hout. do 3 f_equal. rewrite <- (fmap_S_seq 0), <- list_fmap_compose.
      apply list_fmap_ext. intros ? i _. cbn. by rewrite Nat.sub_0_r.
  - intros Hn. destruct (argon2_hprime_bytes input n Hn) as (out & E & Hl & _). eauto.
Qed.

Lemma argon2_hprime_rfc9106_witness :
  argon2_hprime [1; 2] 0 = Throw hprime_error /\
  exists out, argon2_hprime [1; 2] 1024 = Done out /\ length out = Z.to_nat 1024.
Proof.
  split.
  - apply (proj1 (argon2_hprime_rfc9106 [1; 2] 0 ltac:(lia))). by left.
  - apply (argon2_hprime_rfc9106 [1; 2] 1024 ltac:(lia)). lia.
Defined.

(** ** The NEON build permutes like the scalar build *)

(** The pure mixing function behind both builds. *)
Definition GB (a b c d : Z) : Z * Z * Z * Z :=
  let a := blamka_add a b in
  let d := rotr64 (Z.lxor d a) 32 in
  let c := blamka_add c d in
  let b := rotr64 (Z.lxor b c) 24 in
  let a := blamka_add a b in
  let d := rotr64 (Z.lxor d a) 16 in
  let c := blamka_add c d in
  let b := rotr64 (Z.lxor b c) 63 in
  (a, b, c, d).

Lemma blamka_add_lanes a b :
  blamka_add_neon a b = (blamka_add a.1 b.1, blamka_add a.2 b.2).
Proof.
  unfold blamka_add_neon, blamka_add, vaddq, vshlq_n, vmull_low, vmap2, shl64, mul64; simpl.
  assert (forall p, Z.shiftl p 1 = 2 * p) as E by (intros; rewrite Z.shiftl_mul_pow2; lia).
  by rewrite !E.
Qed.

Lemma blamka_add_range a b : word64 (blamka_add a b).
Proof. apply add64_range. Qed.
#[local] Hint Resolve blamka_add_range : word.

Lemma rotr32_lanes x : rotr32_neon x = (rotr64 x.1 32, rotr64 x.2 32).
Proof. done. Qed.

Lemma gb_neon_lanes va vb vc vd :
  wvec2 va -> wvec2 vb -> wvec2 vc -> wvec2 vd ->
  gb_neon va vb vc vd =
    (let '(a0, b0, c0, d0) := GB va.1 vb.1 vc.1 vd.1 in
     let '(a1, b1, c1, d1) := GB va.2 vb.2 vc.2 vd.2 in
     ((a0, a1), (b0, b1), (c0, c1), (d0, d1))).
Proof.
  intros Ha Hb Hc Hd. unfold gb_neon, GB, rotr24_neon, rotr16_neon, rotr63_neon.
  rewrite !blamka_add_lanes, !rotr32_lanes.
  assert (Hbl : forall p q r s, wvec2 (blamka_add p q, blamka_add r s))
    by (intros; split; simpl; auto with word).
  rewrite !vsriq_shlq by (lia || auto 12 with word).
  unfold veorq, vmap2. reflexivity.
Qed.

Lemma gb_words16 a b c d w : words16 w -> words16 (gb a b c d w).
Proof.
  intros [Hl Hw]. unfold gb. split; [by rewrite !length_insert|].
  repeat match goal with |- Forall _ (<[_ := ?e]> _) => apply Forall_insert end;
    auto 40 with word.
Qed.

Ltac solve_quarter :=
  intros w [Hl Hv]; explode w;
  rewrite !Forall_cons_iff in Hv; destruct_and! Hv;
  unfold column_neon, diagonal_neon0, diagonal_neon1;
  rewrite gb_neon_lanes by (split; assumption);
  cbv -[blamka_add rotr64 Z.lxor]; reflexivity.

Lemma column_neon_lo : forall w, words16 w -> column_neon 0 4 8 12 w = gb 1 5 9 13 (gb 0 4 8 12 w).
Proof. solve_quarter. Qed.
Lemma column_neon_hi : forall w, words16 w -> column_neon 2 6 10 14 w = gb 3 7 11 15 (gb 2 6 10 14 w).
Proof. solve_quarter. Qed.
Lemma diagonal_neon_lo : forall w, words16 w -> diagonal_neon0 w = gb 1 6 11 12 (gb 0 5 10 15 w).
Proof. solve_quarter. Qed.
Lemma diagonal_neon_hi : forall w, words16 w -> diagonal_neon1 w = gb 3 4 9 14 (gb 2 7 8 13 w).
Proof. solve_quarter. Qed.

Lemma permute_16_words16 w : words16 w -> words16 (permute_16 w).
Proof. intros. unfold permute_16. by repeat apply gb_words16. Qed.

Lemma permute_16_neon_eq w : words16 w -> permute_16_neon w = permute_16 w.
Proof.
  intros H. unfold permute_16_neon, permute_16.
  rewrite column_neon_lo, column_neon_hi, diagonal_neon_lo, diagonal_neon_hi
    by auto 8 using gb_words16.
  reflexivity.
Qed.

Definition block_wf (b : list Z) : Prop := length b = 128%nat /\ Words b.

Lemma on_slice_wf row f b :
  (row < 8)%nat -> (forall w, words16 w -> words16 (f w)) -> block_wf b ->
  words16 (take 16 (drop (16 * row) b)) /\ block_wf (on_slice (16 * row) 16 f b).
Proof.
  intros Hr Hf [Hl Hb].
  assert (words16 (take 16 (drop (16 * row) b))) as Hs.
  { split; [autorewrite with len; lia|]. by apply Forall_take, Forall_drop. }
  split; [done|]. destruct (Hf _ Hs) as [Hfl Hfb]. unfold on_slice. split.
  - rewrite !length_app, Hfl. autorewrite with len. lia.
  - rewrite !Forall_app. split_and!; auto using Forall_take, Forall_drop.
Qed.

Lemma gather_column_words16 b column : Words b -> words16 (gather_column b column).
Proof.
  intros Hb. unfold gather_column. split; [reflexivity|].
  apply Forall_concat, Forall_fmap, Forall_forall. intros row _.
  by repeat (apply List.Forall_cons; [by apply Forall_lookup_total_range|]).
Qed.

Lemma scatter_column_wf w column b : Words w -> block_wf b -> block_wf (scatter_column w column b).
Proof.
  intros Hw Hb. unfold scatter_column. apply foldl_inv; [|done].
  intros b' row [Hl Hb']. split; [by rewrite !length_insert|]. auto 8 with word.
Qed.

(** Permuting a block depends on the row permutation only through what it does to 16 words. *)
Lemma permute_block_with_ext f g b :
  (forall w, words16 w -> words16 (g w)) -> (forall w, words16 w -> f w = g w) -> block_wf b ->
  permute_block_with f b = permute_block_with g b /\ block_wf (permute_block_with g b).
Proof.
  intros Hg Hfg Hb. unfold permute_block_with.
  assert (Hrows : forall l b', (forall r, r ∈ l -> (r < 8)%nat) -> block_wf b' ->
    foldl (fun block row => on_slice (16 * row) 16 f block) b' l =
    foldl (fun block row => on_slice (16 * row) 16 g block) b' l /\
    block_wf (foldl (fun block row => on_slice (16 * row) 16 g block) b' l)).
  { induction l as [|r l IH]; intros b' Hl Hb'; [done|]. cbn [foldl].
    destruct (on_slice_wf r g b') as [Hs Hw]; [apply Hl; by left|done|done|].
    replace (on_slice (16 * r) 16 f b') with (on_slice (16 * r) 16 g b')
      by (unfold on_slice; by rewrite Hfg).
    apply IH; [|done]. intros; apply Hl; by right. }
  destruct (Hrows (seq 0 8) b) as [-> Hw]; [intros r Hr; apply elem_of_seq in Hr; lia|done|].
  split.
  - apply (foldl_ext_inv block_wf); [| |done]; intros b' c [Hl' Hb'].
    + apply scatter_column_wf; [by apply Hg, gather_column_words16|done].
    + by rewrite Hfg by (by apply gather_column_words16).
  - apply foldl_inv; [|done]. intros b' c [Hl' Hb'].
    apply scatter_column_wf; [by apply Hg, gather_column_words16|done].
Qed.

Lemma permute_block_wf b : block_wf b -> block_wf (permute_block b).
Proof. intros. by apply (permute_block_with_ext permute_16); [apply permute_16_words16| |]. Qed.

Lemma permute_block_neon_eq b : block_wf b -> permute_block_neon b = permute_block b.
Proof.
  intros. by apply permute_block_with_ext; [apply permute_16_words16|apply permute_16_neon_eq|].
Qed.

Lemma zip_lxor_wf a b : block_wf a -> block_wf b -> block_wf (zip_with Z.lxor a b).
Proof.
  intros [La Ha] [Lb Hb]. split; [rewrite length_zip_with, La, Lb; done|].
  apply (Forall_zip_with_fst _ word64); [done|]. eapply list.Forall_impl; [exact Hb|].
  auto with word.
Qed.

Definition dest_wf (d : option (list Z)) : Prop := match d with Some b => block_wf b | None => True end.

Lemma argon2_compress_wf p r d :
  block_wf p -> block_wf r -> dest_wf d -> block_wf (argon2_compress permute_block p r d).
Proof.
  intros Hp Hr Hd. unfold argon2_compress.
  destruct d; simpl in Hd; auto 8 using zip_lxor_wf, permute_block_wf.
Qed.

Lemma argon2_compress_neon p r d :
  block_wf p -> block_wf r ->
  argon2_compress permute_block_neon p r d = argon2_compress permute_block p r d.
Proof.
  intros Hp Hr. unfold argon2_compress.
  by rewrite permute_block_neon_eq by auto using zip_lxor_wf.
Qed.

(** ** The reference block is the one RFC 9106, section 3.4 prescribes

    With one lane, block [index] of segment [slice] may refer to: in the first pass, every block
    already written except the previous one; in later passes, the blocks of the three other
    segments (oldest first) and those of this segment already rewritten, except the previous one. *)

Definition segment (L s : Z) : list Z := seqZ (s mod 4 * L) L.
Definition candidates (L pass slice index : Z) : list Z :=
  if pass =? 0 then seqZ 0 (slice * L + index)
  else segment L (slice + 1) ++ segment L (slice + 2) ++ segment L (slice + 3) ++
       seqZ (slice * L) index.
Definition reference_set (L pass slice index : Z) : list Z :=
  let all := candidates L pass slice index in take (length all - 1) all.

(** The mapping of J1 to a position in the reference set: quadratic, biased to recent blocks. *)
Definition position (W : list Z) (j1 : Z) : Z :=
  let n := Z.of_nat (length W) in n - 1 - n * (j1 * j1 / 2 ^ 32) / 2 ^ 32.

Section reference.
Context (L pass slice index : Z).
Hypothesis HL : 2 <= L <= 2 ^ 30.
Hypothesis Hslice : 0 <= slice < 4.
Hypothesis Hindex : 0 <= index < L.
Hypothesis Hstart : pass = 0 -> 2 <= slice * L + index.

Definition window_start : Z := if pass =? 0 then 0 else if slice =? 3 then 0 else (slice + 1) * L.
Definition window_size : Z := if pass =? 0 then slice * L + index - 1 else 3 * L + index - 1.

Lemma slice_cases : slice = 0 \/ slice = 1 \/ slice = 2 \/ slice = 3.
Proof. lia. Qed.

Lemma window_bounds : 1 <= window_size <= 4 * L - 2 /\ 0 <= window_start < 4 * L.
Proof.
  unfold window_size, window_start. destruct (Z.eqb_spec pass 0) as [E|];
    destruct slice_cases as [->|[->|[->| ->]]]; simpl; lia.
Qed.

Lemma rotate_seqZ start off base n :
  0 <= base -> base + n <= 4 * L ->
  (start + off = base \/ start + off = base + 4 * L) ->
  (fun k => (start + k) mod (4 * L)) <$> seqZ off n = seqZ base n.
Proof.
  intros Hb Hn Hs. apply list_eq. intros i. rewrite list_lookup_fmap.
  destruct (decide (Z.of_nat i < n)).
  - rewrite !lookup_seqZ_lt by lia. cbn. f_equal.
    rewrite Z.add_assoc. destruct Hs as [-> | ->]; [apply Z.mod_small; lia|].
    replace (base + 4 * L + Z.of_nat i) with (base + Z.of_nat i + 1 * (4 * L)) by lia.
    rewrite Z.mod_add by lia. apply Z.mod_small. lia.
  - by rewrite !lookup_seqZ_ge by lia.
Qed.

Lemma candidates_window :
  candidates L pass slice index =
    (fun k => (window_start + k) mod (4 * L)) <$> seqZ 0 (window_size + 1).
Proof.
  unfold candidates, window_start, window_size. destruct (Z.eqb_spec pass 0) as [E|].
  - symmetry. replace (slice * L + index - 1 + 1) with (slice * L + index) by lia.
    apply rotate_seqZ; [lia| |lia].
    destruct slice_cases as [->|[->|[->| ->]]]; lia.
  - replace (3 * L + index - 1 + 1) with (L + (L + (L + index))) by lia.
    rewrite !seqZ_app by lia. rewrite !fmap_app. unfold segment.
    destruct slice_cases as [->|[->|[->| ->]]]; cbn -[Z.mul seqZ];
      repeat match goal with |- context [(?a mod 4) * L] =>
        let v := eval compute in (a mod 4) in change (a mod 4) with v end;
      repeat f_equal; symmetry; apply rotate_seqZ; lia.
Qed.

Lemma reference_set_window :
  reference_set L pass slice index =
    (fun k => (window_start + k) mod (4 * L)) <$> seqZ 0 window_size.
Proof.
  pose proof window_bounds. unfold reference_set. rewrite candidates_window, length_fmap, length_seqZ.
  rewrite <- fmap_take. f_equal. rewrite seqZ_app by lia.
  rewrite take_app_length'; [done|]. rewrite length_seqZ. lia.
Qed.

Lemma j1_scaled j1 : word32 j1 -> 0 <= j1 * j1 / 2 ^ 32 < 2 ^ 32.
Proof. intros [H0 H1]. split; [apply Z.div_pos; nia|]. apply Z.div_lt_upper_bound; nia. Qed.

Lemma position_bounds j1 :
  word32 j1 -> 0 <= position (reference_set L pass slice index) j1 < window_size.
Proof.
  intros Hj. pose proof window_bounds. pose proof (j1_scaled j1 Hj).
  unfold position. rewrite reference_set_window, length_fmap, length_seqZ.
  rewrite Z2Nat.id by lia. set (x := j1 * j1 / 2 ^ 32) in *.
  assert (0 <= window_size * x / 2 ^ 32 < window_size); [|lia].
  split; [apply Z.div_pos; nia|]. apply Z.div_lt_upper_bound; nia.
Qed.

Lemma reference_area_window :
  reference_area (4 * L) (4 * L / 4) pass slice index = window_size.
Proof.
  pose proof window_bounds. replace (4 * L / 4) with L by (Z.div_mod_to_equations; lia).
  unfold reference_area, window_size in *. unfold sub64, add64, mul64.
  assert (Hw : forall a, 0 <= a < 2 ^ 63 -> wrap 64 a = a) by (intros; apply wrap_small; split; lia).
  destruct (Z.eqb_spec pass 0) as [E|].
  - rewrite (Hw (slice * L)) by (destruct slice_cases as [->|[->|[->| ->]]]; lia).
    rewrite (Hw (slice * L + index)) by lia. apply Hw. lia.
  - rewrite (Hw (4 * L - L)), (Hw (4 * L - L + index)) by lia. rewrite Hw; lia.
Qed.

Lemma reference_index_window j1 :
  word32 j1 ->
  reference_index (4 * L) (4 * L / 4) pass slice index j1 =
    (window_start + position (reference_set L pass slice index) j1) mod (4 * L).
Proof.
  intros Hj. pose proof (position_bounds j1 Hj) as Hp. pose proof window_bounds as [Hwin Hst].
  pose proof (j1_scaled j1 Hj) as Hx.
  unfold reference_index. rewrite reference_area_window. unfold position in *.
  rewrite reference_set_window, length_fmap, length_seqZ in *. rewrite Z2Nat.id in * by lia.
  replace (mul64 j1 j1) with (j1 * j1) by (symmetry; apply wrap_small; destruct Hj; split; nia).
  rewrite !Z.shiftr_div_pow2 by lia. set (x := j1 * j1 / 2 ^ 32) in *.
  replace (mul64 window_size x) with (window_size * x)
    by (symmetry; apply wrap_small; split; nia).
  set (y := window_size * x / 2 ^ 32) in *.
  assert (Hw : forall a, 0 <= a < 2 ^ 63 -> wrap 64 a = a) by (intros; apply wrap_small; split; lia).
  unfold sub64. rewrite (Hw (window_size - 1)), (Hw (window_size - 1 - y)) by lia.
  unfold add64. replace (if pass =? 0 then 0 else if slice =? 3 then 0 else
    mul64 (slice + 1) (4 * L / 4)) with window_start.
  - by rewrite Hw by lia.
  - unfold window_start. replace (4 * L / 4) with L by (Z.div_mod_to_equations; lia).
    unfold mul64. destruct (pass =? 0); [done|]. destruct (Z.eqb_spec slice 3); [done|].
    rewrite Hw; [done|]. destruct slice_cases as [->|[->|[->| ->]]]; lia.
Qed.

Lemma mod_twice a :
  0 <= a < 8 * L -> (a < 4 * L /\ a mod (4 * L) = a) \/ (4 * L <= a /\ a mod (4 * L) = a - 4 * L).
Proof.
  intros Ha. destruct (Z.lt_ge_cases a (4 * L)); [left|right]; (split; [lia|]).
  - apply Z.mod_small. lia.
  - replace a with (a - 4 * L + 1 * (4 * L)) at 1 by lia. rewrite Z.mod_add by lia.
    apply Z.mod_small. lia.
Qed.

Lemma reference_set_avoids r :
  r ∈ reference_set L pass slice index ->
  0 <= r < 4 * L /\ r <> slice * L + index /\
  r <> previous_index (4 * L) (slice * L + index).
Proof.
  rewrite reference_set_window, list_elem_of_fmap. intros (k & -> & Hk%elem_of_seqZ).
  pose proof window_bounds as [Hwin Hst].
  split; [apply Z.mod_pos_bound; lia|].
  assert (sub64 (4 * L) 1 = 4 * L - 1) as Hs by (apply wrap_small; split; lia).
  unfold previous_index. rewrite Hs.
  assert (Hk2 : 0 <= window_start + k < 8 * L) by lia.
  apply mod_twice in Hk2. unfold window_start, window_size in *.
  destruct (Z.eqb_spec (slice * L + index) 0), (Z.eqb_spec pass 0) as [E|];
    destruct slice_cases as [->|[->|[->| ->]]]; simpl in *; lia.
Qed.

End reference.

(** C38: the reference block chosen by [initialize] is the one RFC 9106 prescribes for one lane:
    position |W|-1-(|W|*(J1^2/2^32))/2^32 of the reference set W, computed without overflow for
    every memory size up to 2^32 blocks; every member of W is a block of the cache other than
    the current and the previous one (and already written, in the first pass). *)
Theorem reference_index_rfc9106 L pass slice index j1 :
  2 <= L <= 2 ^ 30 -> 0 <= slice < 4 -> 0 <= index < L ->
  (pass = 0 -> 2 <= slice * L + index) -> word32 j1 ->
  let W := reference_set L pass slice index in
  let current := slice * L + index in
  let reference := reference_index (4 * L) (4 * L / 4) pass slice index j1 in
  0 <= position W j1 /\ W !! Z.to_nat (position W j1) = Some reference /\
  0 <= reference < 4 * L /\ reference <> current /\
  reference <> previous_index (4 * L) current /\ (pass = 0 -> reference < current - 1).
Proof.
  intros HL Hs Hi Hst Hj W current reference.
  pose proof (position_bounds L pass slice index HL Hs Hi Hst j1 Hj) as Hpos.
  pose proof (reference_index_window L pass slice index HL Hs Hi Hst j1 Hj) as Href.
  assert (W !! Z.to_nat (position W j1) = Some reference) as Hin.
  { subst W reference. rewrite Href. clear Href.
    generalize dependent (position (reference_set L pass slice index) j1). intros z Hz.
    rewrite reference_set_window by done. rewrite list_lookup_fmap, lookup_seqZ_lt by lia. cbn. do 3 f_equal. lia. }
  destruct (reference_set_avoids L pass slice index HL Hs Hi Hst reference) as (H1 & H2 & H3);
    [by eapply list_elem_of_lookup_2|].
  split; [apply Hpos|]. split; [done|]. split; [done|]. split; [done|]. split; [done|].
  intros E. subst reference current. rewrite Href. unfold window_start.
  unfold window_size in Hpos. rewrite E in Hpos |- *. cbn [Z.eqb] in *.
  rewrite Z.mod_small; [lia|]. assert (slice * L <= 3 * L) by nia. lia.
Qed.

Lemma reference_index_rfc9106_witness :
  reference_set 2 1 2 1 = [6; 7; 0; 1; 2; 3] /\
  reference_set 2 1 2 1 !! 4%nat = Some (reference_index 8 2 1 2 1 2147483648).
Proof.
  split; [reflexivity|].
  apply (reference_index_rfc9106 2 1 2 1 2147483648); try lia. split; [lia|done].
Defined.

(** ** The memory fill never leaves the cache *)

Definition blocks_wf (m : Z) (blocks : list (list Z)) : Prop :=
  Z.of_nat (length blocks) = m /\ Forall block_wf blocks.

Lemma set_block_ok m blocks i b :
  blocks_wf m blocks -> 0 <= i < m -> block_wf b ->
  exists blocks', set_block blocks i b = Done blocks' /\ blocks_wf m blocks'.
Proof.
  intros [Hl Hb] Hi Hw. unfold set_block. destruct (_ && _) eqn:E; [|exfalso; lia].
  eexists. split; [done|]. split; [by rewrite length_insert|by apply Forall_insert].
Qed.

Lemma set_block_wf m blocks i b blocks' :
  blocks_wf m blocks -> block_wf b -> set_block blocks i b = Done blocks' -> blocks_wf m blocks'.
Proof.
  intros [Hl Hb] Hw. unfold set_block. destruct (_ && _); [|done]. intros [= <-].
  split; [by rewrite length_insert|by apply Forall_insert].
Qed.

Section fill_ok.
Context (L : Z) (HL : 2 <= L <= 2 ^ 30).

Lemma segment_length_eq : 4 * L / 4 = L.
Proof. rewrite Z.mul_comm. by apply Z.div_mul. Qed.

Lemma current_index_eq slice index :
  0 <= slice < 4 -> 0 <= index < L -> current_index L slice index = slice * L + index.
Proof.
  intros Hs Hi. unfold current_index, add64, mul64.
  assert (0 <= slice * L <= 3 * L) by nia.
  rewrite (wrap_small 64 (slice * L)) by (split; lia). apply wrap_small. split; lia.
Qed.

Lemma previous_index_range current :
  0 <= current < 4 * L -> 0 <= previous_index (4 * L) current < 4 * L.
Proof.
  intros H. unfold previous_index. destruct (Z.eqb_spec current 0); [|lia].
  assert (sub64 (4 * L) 1 = 4 * L - 1) as -> by (apply wrap_small; split; lia). lia.
Qed.

Lemma reference_index_range pass slice index j1 :
  0 <= reference_index (4 * L) (4 * L / 4) pass slice index j1 < 4 * L.
Proof. apply Z.mod_pos_bound. lia. Qed.

Definition step_ok (pass slice index : Z) : Prop :=
  0 <= slice < 4 /\ 0 <= index < L /\ (pass = 0 -> 2 <= slice * L + index).

Lemma fill_step_ok pass slice index blocks :
  step_ok pass slice index -> blocks_wf (4 * L) blocks ->
  exists blocks', fill_step permute_block (4 * L) pass slice blocks index = Done blocks' /\
    blocks_wf (4 * L) blocks'.
Proof.
  intros (Hs & Hi & Hst) Hw. pose proof Hw as [Hl Hb]. unfold fill_step, block_at.
  assert (0 <= slice * L + index < 4 * L) as Hc by nia.
  replace (current_index (4 * L / 4) slice index) with (slice * L + index)
    by (by rewrite segment_length_eq, current_index_eq).
  destruct (at_index_ok block_wf blocks (previous_index (4 * L) (slice * L + index)))
    as (prev & -> & Hprev); [done|rewrite Hl; by apply previous_index_range|]. cbn [mbind outcome_bind].
  set (ref := reference_index _ _ _ _ _ _).
  destruct (at_index_ok block_wf blocks ref) as (rb & -> & Hrb);
    [done|rewrite Hl; apply reference_index_range|]. cbn [mbind outcome_bind].
  destruct (at_index_ok block_wf blocks (slice * L + index)) as (cur & Ecur & Hcur); [done|lia|].
  destruct (pass =? 0); [|rewrite Ecur]; cbn [mbind outcome_bind];
    (apply set_block_ok; [done|lia|]; by apply argon2_compress_wf).
Qed.

Lemma fill_step_neon pass slice index blocks :
  blocks_wf (4 * L) blocks ->
  fill_step permute_block_neon (4 * L) pass slice blocks index =
  fill_step permute_block (4 * L) pass slice blocks index.
Proof.
  intros [Hl Hb]. unfold fill_step, block_at.
  destruct (at_index blocks (previous_index _ _)) as [p| | |] eqn:Ep; try done. cbn [mbind outcome_bind].
  set (ref := reference_index _ _ _ _ _ _).
  destruct (at_index blocks ref) as [r| | |] eqn:Er; try done. cbn [mbind outcome_bind].
  match goal with |- (?m ≫= _) = _ => destruct m end; try done. cbn [mbind outcome_bind].
  by rewrite argon2_compress_neon by (by eapply at_index_Forall).
Qed.

Lemma segment_steps pass slice index :
  0 <= pass -> 0 <= slice < 4 ->
  let start := if (pass =? 0) && (slice =? 0) then 2 else 0 in
  index ∈ seqZ start (L - start) -> step_ok pass slice index.
Proof.
  intros Hp Hs start Hi%elem_of_seqZ. unfold step_ok. subst start.
  destruct (Z.eqb_spec pass 0), (Z.eqb_spec slice 0); simpl in *; split_and!; try lia; intros; nia.
Qed.

Lemma fill_segment_ok pass slice blocks :
  0 <= pass -> 0 <= slice < 4 -> blocks_wf (4 * L) blocks ->
  exists blocks', fill_segment permute_block (4 * L) pass blocks slice = Done blocks' /\
    blocks_wf (4 * L) blocks'.
Proof.
  intros Hp Hs Hw. unfold fill_segment. rewrite segment_length_eq.
  apply ofoldl_ok; [|done]. intros b index Hi Hb. apply fill_step_ok; [|done].
  by apply segment_steps.
Qed.

Lemma fill_pass_ok pass blocks :
  0 <= pass -> blocks_wf (4 * L) blocks ->
  exists blocks', fill_pass permute_block (4 * L) blocks pass = Done blocks' /\
    blocks_wf (4 * L) blocks'.
Proof.
  intros Hp Hw. unfold fill_pass. apply ofoldl_ok; [|done].
  intros b slice Hs%elem_of_seqZ Hb. apply fill_segment_ok; lia || done.
Qed.

(** The fill returns and leaves a cache of the same shape; the NEON build agrees with it. *)
Lemma fill_memory_ok passes blocks :
  blocks_wf (4 * L) blocks ->
  exists blocks', fill_memory permute_block (4 * L) passes blocks = Done blocks' /\
    blocks_wf (4 * L) blocks'.
Proof.
  intros Hw. unfold fill_memory. apply ofoldl_ok; [|done].
  intros b pass Hp%elem_of_seqZ Hb. apply fill_pass_ok; lia || done.
Qed.

Lemma fill_memory_neon passes blocks :
  blocks_wf (4 * L) blocks ->
  fill_memory permute_block_neon (4 * L) passes blocks =
  fill_memory permute_block (4 * L) passes blocks.
Proof.
  intros Hw. unfold fill_memory. apply (ofoldl_ext_inv (blocks_wf (4 * L))); [| |done].
  - intros b pass b' Hp%elem_of_seqZ Hb E. destruct (fill_pass_ok pass b) as (b2 & E2 & Hb2); [lia|done|].
    congruence.
  - intros b pass Hp%elem_of_seqZ Hb. unfold fill_pass. apply (ofoldl_ext_inv (blocks_wf (4 * L))); [| |done].
    + intros b1 slice b2 Hs%elem_of_seqZ Hb1 E.
      destruct (fill_segment_ok pass slice b1) as (b3 & E3 & Hb3); [lia|lia|done|]. congruence.
    + intros b1 slice Hs%elem_of_seqZ Hb1. unfold fill_segment. rewrite segment_length_eq.
      apply (ofoldl_ext_inv (blocks_wf (4 * L))); [| |done].
      * intros b2 index b3 Hi Hb2 E.
        destruct (fill_step_ok pass slice index b2) as (b4 & E4 & Hb4); [|done|congruence].
        apply segment_steps; [lia|lia|done].
      * intros b2 index _ Hb2. by apply fill_step_neon.
Qed.

End fill_ok.

(** ** The reciprocal table

    [initialize] overwrites the divisor of every IMUL_RCP by the index of its reciprocal. *)

(** What becomes of an instruction. *)
Definition cached (rc : list Z) (i i' : Instruction) : Prop :=
  if bool_decide (type_of_opcode (opcode i) = Some IMUL_RCP) then
    exists k rcp, i' = setImm32 k i /\ 0 <= k < 2 ^ 32 /\ rc !! Z.to_nat k = Some rcp /\
      randomx_reciprocal (imm32 i) = Done rcp
  else i' = i.

Lemma cached_app rc extra i i' : cached rc i i' -> cached (rc ++ extra) i i'.
Proof.
  unfold cached. case_bool_decide; [|done]. intros (k & rcp & H1 & H2 & H3 & H4).
  exists k, rcp. split; [done|]. split; [done|]. split; [|done]. by apply lookup_app_l_Some.
Qed.

(** The rewritten instruction with the table does what the original does without one. *)
Lemma cached_execute rc r i i' :
  cached rc i i' -> execute_instruction (Some rc) r i' = execute_instruction None r i.
Proof.
  unfold cached. case_bool_decide as E.
  - intros (k & rcp & -> & Hk & Hrc & Hr). unfold execute_instruction. simpl. rewrite E.
    unfold getImm32. simpl. by rewrite Hrc, Hr.
  - intros ->. unfold execute_instruction. by destruct (type_of_opcode (opcode i)) as [[]|].
Qed.

(** State of the rewriting loop after [n] instructions of the buffer [orig]. *)
Record cached_upto (orig : list Instruction) (rc0 : list Z) (n : nat)
  (buf : list Instruction) (rc : list Z) : Prop := mkCachedUpto {
  cu_length : length buf = length orig;
  cu_table : exists new, rc = rc0 ++ new /\ (length new <= n)%nat;
  cu_done : forall j i, (j < n)%nat -> orig !! j = Some i -> exists i', buf !! j = Some i' /\ cached rc i i';
  cu_todo : forall j, (n <= j)%nat -> buf !! j = orig !! j;
}.

Lemma rcp_divisor i : ss_wf i -> type_of_opcode (opcode i) = Some IMUL_RCP -> imm32 i <> 0.
Proof.
  intros (Ho & _ & _ & _ & _ & Hr & _) E H0.
  assert (opcode i = type_code IMUL_RCP) as Hop.
  { revert E. unfold type_of_opcode. destruct (Z.leb_spec 0 (opcode i)); [|done]. simpl.
    destruct (Z.to_nat (opcode i)) as [|[|[|[|[|[|[|[|[|[|[|[|[|[|]]]]]]]]]]]]]] eqn:En; simpl;
      try discriminate; lia. }
  specialize (Hr Hop). by rewrite H0 in Hr.
Qed.

Lemma cache_reciprocal_step orig rc0 n buf rc i :
  cached_upto orig rc0 n buf rc -> orig !! n = Some i -> ss_wf i ->
  Z.of_nat (length rc) < 2 ^ 32 ->
  exists buf' rc', cache_reciprocal (buf, rc) n = Done (buf', rc') /\
    cached_upto orig rc0 (S n) buf' rc'.
Proof.
  intros [Hl (new & -> & Hn) Hd Ht] Hi Hwf Hrc. unfold cache_reciprocal. rewrite (Ht n), Hi by lia.
  case_bool_decide as E.
  - pose proof (rcp_divisor i Hwf E) as H0. unfold getImm32.
    assert (exists rcp, randomx_reciprocal (imm32 i) = Done rcp) as [rcp Er].
    { unfold randomx_reciprocal. destruct (Z.eqb_spec (imm32 i) 0); [done|eauto]. }
    rewrite Er. cbn. do 2 eexists. split; [done|]. constructor.
    + by rewrite length_insert.
    + exists (new ++ [rcp]). rewrite app_assoc, length_app. split; [done|simpl; lia].
    + intros j i0 Hj Hi0. destruct (decide (j = n)) as [->|Hne].
      * assert (i0 = i) as -> by congruence. eexists.
        split; [apply list_lookup_insert_eq; rewrite Hl; by eapply lookup_lt_Some|].
        unfold cached. rewrite bool_decide_true by done. eexists _, rcp. split; [done|].
        rewrite (wrap_small 32) by (split; lia). split; [lia|]. split; [|done].
        rewrite Nat2Z.id. apply list_lookup_middle. done.
      * destruct (Hd j i0) as (i' & Hb & Hc); [lia|done|]. exists i'.
        rewrite list_lookup_insert_ne by done. split; [done|by apply cached_app].
    + intros j Hj. rewrite list_lookup_insert_ne by lia. apply Ht. lia.
  - do 2 eexists. split; [done|]. constructor; auto.
    + exists new. split; [done|lia].
    + intros j i0 Hj Hi0. destruct (decide (j = n)) as [->|Hne]; [|apply Hd; [lia|done]].
      exists i0. assert (i0 = i) as -> by congruence. rewrite (Ht n), Hi by lia. split; [done|].
      unfold cached. by rewrite bool_decide_false.
    + intros j Hj. apply Ht. lia.
Qed.

Lemma cache_reciprocals_loop orig rc0 n :
  Forall ss_wf (take n orig) -> (n <= length orig)%nat -> Z.of_nat (length rc0 + n) < 2 ^ 32 ->
  exists buf rc, ofoldl cache_reciprocal (orig, rc0) (seq 0 n) = Done (buf, rc) /\
    cached_upto orig rc0 n buf rc.
Proof.
  induction n as [|n IH]; intros Hf Hn Hrc.
  - exists orig, rc0. split; [done|]. constructor; auto; [|lia].
    exists []. by rewrite app_nil_r.
  - destruct (lookup_lt_is_Some_2 orig n) as [i Hi]; [lia|].
    rewrite (take_S_r _ _ i Hi), Forall_app, Forall_singleton in Hf. destruct Hf as [Hf Hwf].
    destruct IH as (buf & rc & E & Hcu); [done|lia|lia|].
    rewrite seq_S, ofoldl_app, E. cbn [mbind outcome_bind ofoldl].
    destruct (cache_reciprocal_step orig rc0 n buf rc i Hcu Hi Hwf) as (b' & r' & E' & H').
    + destruct Hcu as [_ (new & -> & Hnew) _ _]. rewrite length_app. lia.
    + rewrite Nat.add_0_l, E'. cbn. eauto.
Qed.

Record same_program (rc : list Z) (p p' : SuperscalarProgram) : Prop := mkSame {
  same_size : size_ p' = size_ p;
  same_addr : addr_reg_ p' = addr_reg_ p;
  same_length : length (program_buffer_ p') = length (program_buffer_ p);
  same_instr : forall j i, (j < Z.to_nat (size_ p))%nat -> program_buffer_ p !! j = Some i ->
    exists i', program_buffer_ p' !! j = Some i' /\ cached rc i i';
}.

Lemma same_program_app rc extra p p' : same_program rc p p' -> same_program (rc ++ extra) p p'.
Proof.
  intros [H1 H2 H3 H4]. constructor; auto. intros j i Hj Hi.
  destruct (H4 j i Hj Hi) as (i' & Hi' & Hc). eauto using cached_app.
Qed.

Lemma cache_reciprocals_ok prog rc :
  program_wf prog -> Z.of_nat (length rc) + 512 < 2 ^ 32 ->
  exists prog' new, cache_reciprocals prog rc = Done (prog', rc ++ new) /\
    (length new <= 512)%nat /\ same_program (rc ++ new) prog prog'.
Proof.
  intros (Hs & Hl & Hf & Ha) Hrc. change kSuperscalarMaxSize with 512 in *.
  destruct (cache_reciprocals_loop (program_buffer_ prog) rc (Z.to_nat (size_ prog)))
    as (buf & rc' & E & [Hbl (new & -> & Hnew) Hd _]); [done|lia|lia|].
  exists (mkProgram buf (size_ prog) (addr_reg_ prog)), new. unfold cache_reciprocals. rewrite E.
  split; [done|]. split; [lia|]. by constructor.
Qed.

Lemma run_from_same rc p p' js r :
  same_program rc p p' -> (forall j, j ∈ js -> (j < Z.to_nat (size_ p))%nat) ->
  (Z.to_nat (size_ p) <= length (program_buffer_ p))%nat ->
  run_from (execute_instruction (Some rc)) p' js r = run_from (execute_instruction None) p js r.
Proof.
  intros Hsame Hjs Hlen. revert r. induction js as [|j js IH]; intros r; [done|]. cbn [run_from].
  assert (j < Z.to_nat (size_ p))%nat as Hj by (apply Hjs; by left).
  destruct (lookup_lt_is_Some_2 (program_buffer_ p) j) as [i Hi]; [lia|].
  destruct (same_instr _ _ _ Hsame j i Hj Hi) as (i' & Hi' & Hc).
  unfold program_at. rewrite Hi, Hi'. cbn [mbind outcome_bind].
  rewrite (cached_execute rc r i i' Hc). destruct (execute_instruction None r i); try done.
  apply IH. intros k Hk. apply Hjs. by right.
Qed.

Lemma execute_same rc p p' r :
  program_wf p -> same_program rc p p' ->
  execute_superscalar r p' (Some rc) = execute_superscalar r p None.
Proof.
  intros (Hs & Hl & _) Hsame. unfold execute_superscalar. rewrite (same_size _ _ _ Hsame).
  apply run_from_same; [done| |change kSuperscalarMaxSize with 512 in *; lia].
  intros j Hj%elem_of_seq. lia.
Qed.

Lemma program_wf_executes p r :
  program_wf p -> length r = 8%nat -> exists r', execute_superscalar r p None = Done r'.
Proof.
  intros (Hs & Hl & Hf & Ha) Hr. change kSuperscalarMaxSize with 512 in *.
  apply execute_superscalar_ok; [done|lia|lia|]. eapply list.Forall_impl; [exact Hf|].
  intros i Hi. pose proof Hi as (Ho & Hd & Hsr & _). split_and!; try lia. intros E.
  apply (rcp_divisor i Hi). unfold type_of_opcode. by rewrite E.
Qed.

(** The reference: generate the programs in order and leave them as they are. *)
Fixpoint generate_all (rejections : nat) (programs : list SuperscalarProgram) (gen : t)
  : outcome (list SuperscalarProgram * t) :=
  match programs with
  | [] => Done ([], gen)
  | prog :: programs =>
      '(prog, _, gen) ← generate_superscalar rejections prog gen;
      '(programs, gen) ← generate_all rejections programs gen;
      Done (prog :: programs, gen)
  end.

Definition fresh_buffers (programs : list SuperscalarProgram) : Prop :=
  Forall (fun p => length (program_buffer_ p) = Z.to_nat kSuperscalarMaxSize) programs.

Lemma prepare_loop rejections gen0 programs gen acc rc :
  reached gen0 gen -> fresh_buffers programs ->
  Z.of_nat (length rc) + 512 * Z.of_nat (length programs) < 2 ^ 32 ->
  match generate_all rejections programs gen with
  | Done (ps, gen') => Forall program_wf ps /\ exists ps' new,
      ofoldl (prepare_program rejections) (acc, rc, gen) programs = Done (acc ++ ps', rc ++ new, gen') /\
      Forall2 (same_program (rc ++ new)) ps ps'
  | NoFuel => ofoldl (prepare_program rejections) (acc, rc, gen) programs = NoFuel /\
      exhausted rejections gen0
  | Throw _ | UB => False
  end.
Proof.
  revert gen acc rc. induction programs as [|prog programs IH]; intros gen acc rc Hg Hfresh Hrc.
  - cbn. split; [done|]. exists [], []. by rewrite !app_nil_r.
  - apply Forall_cons_iff in Hfresh as [Hlen Hfresh]. cbn [length] in Hrc.
    cbn [generate_all ofoldl prepare_program].
    pose proof (generate_superscalar_safe rejections gen0 prog gen Hlen Hg) as Hsafe.
    destruct (generate_superscalar rejections prog gen) as [[[p st] gen1]| | |];
      simpl in Hsafe; try done. destruct Hsafe as [Hwf Hg1]. cbn [mbind outcome_bind].
    destruct (cache_reciprocals_ok p rc Hwf) as (p' & new & -> & Hnew & Hsame); [lia|].
    cbn [mbind outcome_bind].
    specialize (IH gen1 (acc ++ [p']) (rc ++ new) Hg1 Hfresh). rewrite length_app in IH.
    specialize (IH ltac:(lia)).
    destruct (generate_all rejections programs gen1) as [[ps gen2]| | |]; try done.
    destruct IH as [Hps (ps' & new' & -> & Hall)]. cbn [mbind outcome_bind].
    split; [by constructor|]. exists (p' :: ps'), (new ++ new'). rewrite <- !app_assoc in *.
    split; [done|]. constructor; [|done]. rewrite app_assoc. by apply same_program_app.
Qed.

(** C27: preparing the cache's eight programs is sound: unless a rejection loop of the generator
    runs dry, every prepared program, run with the shared reciprocal table, returns on every
    register file, and returns what the program as generated returns with its reciprocals computed
    on the spot; the address registers are those of the generated programs. *)
Theorem prepared_programs_equiv rejections programs key r :
  length programs = kRandomXCacheAccesses -> fresh_buffers programs -> Bytes key -> length r = 8%nat ->
  match generate_all rejections programs (make key 0) with
  | Done (generated, _) => exists prepared rc,
      prepare_programs rejections programs key = Done (prepared, rc) /\
      Forall2 (fun p p' => addr_reg_ p' = addr_reg_ p /\ 0 <= addr_reg_ p' < 8 /\
        exists r', execute_superscalar r p' (Some rc) = Done r' /\
                   execute_superscalar r p None = Done r') generated prepared
  | NoFuel => prepare_programs rejections programs key = NoFuel /\ exhausted rejections (make key 0)
  | Throw _ | UB => False
  end.
Proof.
  intros Hn Hfresh Hkey Hr. unfold prepare_programs.
  pose proof (prepare_loop rejections (make key 0) programs (make key 0) [] []) as H.
  rewrite Hn in H. specialize (H (conj (make_wf key 0 Hkey) (draws_refl _)) Hfresh ltac:(done)).
  destruct (generate_all rejections programs (make key 0)) as [[ps gen]| | |]; try done.
  - destruct H as [Hwf (ps' & rc & -> & Hall)]. cbn [mbind outcome_bind].
    exists ps', rc. split; [done|]. revert Hwf. induction Hall as [|p p' ps ps' Hsame _ IH];
      intros Hwf; constructor.
    + apply Forall_cons_iff in Hwf as [Hp _]. rewrite (same_addr _ _ _ Hsame).
      destruct (program_wf_executes p r Hp Hr) as [r' E]. split; [done|].
      split; [apply Hp|]. exists r'. by rewrite (execute_same rc p p').
    + apply Forall_cons_iff in Hwf as [_ Hwf]. auto.
  - destruct H as [-> H]. done.
Qed.

Lemma prepared_programs_equiv_witness :
  match generate_all 9 (replicate 8 empty_program) (make [7] 0) with
  | Done (generated, _) => exists prepared rc,
      prepare_programs 9 (replicate 8 empty_program) [7] = Done (prepared, rc) /\
      Forall2 (fun p p' => addr_reg_ p' = addr_reg_ p /\ 0 <= addr_reg_ p' < 8 /\
        exists r', execute_superscalar (replicate 8 1) p' (Some rc) = Done r' /\
                   execute_superscalar (replicate 8 1) p None = Done r') generated prepared
  | NoFuel => prepare_programs 9 (replicate 8 empty_program) [7] = NoFuel /\
      exhausted 9 (make [7] 0)
  | Throw _ | UB => False
  end.
Proof.
  apply prepared_programs_equiv; [reflexivity| | |reflexivity].
  - apply Forall_replicate. apply length_replicate.
  - apply List.Forall_cons; [split; [lia|reflexivity]|apply List.Forall_nil].
Defined.

(** ** Initialising the cache *)

(** A program that runs with the cache's table. *)
Definition program_ready (rc : list Z) (p : SuperscalarProgram) : Prop :=
  0 <= addr_reg_ p < 8 /\ length (program_buffer_ p) = Z.to_nat kSuperscalarMaxSize /\
  forall r, length r = 8%nat -> exists r', execute_superscalar r p (Some rc) = Done r'.

Record cache_wf (c : Argon2dCache) : Prop := mkCacheWf {
  cw_memory : 8 <= memory_blocks_ c <= 2 ^ 32 /\ memory_blocks_ c mod 4 = 0;
  cw_blocks : blocks_wf (memory_blocks_ c) (blocks_ c);
  cw_programs : length (programs_ c) = kRandomXCacheAccesses /\ fresh_buffers (programs_ c);
}.

Definition cache_ready (c : Argon2dCache) : Prop :=
  cache_wf c /\ Forall (program_ready (reciprocal_cache_ c)) (programs_ c).

Lemma prepare_programs_ready rejections programs key :
  length programs = kRandomXCacheAccesses -> fresh_buffers programs -> Bytes key ->
  match prepare_programs rejections programs key with
  | Done (ps, rc) => length ps = kRandomXCacheAccesses /\ Forall (program_ready rc) ps
  | NoFuel => exhausted rejections (make key 0)
  | Throw _ | UB => False
  end.
Proof.
  intros Hn Hfresh Hkey. unfold prepare_programs.
  pose proof (prepare_loop rejections (make key 0) programs (make key 0) [] []) as H.
  rewrite Hn in H. specialize (H (conj (make_wf key 0 Hkey) (draws_refl _)) Hfresh ltac:(done)).
  assert (Hlen : forall ps gen, generate_all rejections programs (make key 0) = Done (ps, gen) ->
    length ps = length programs).
  { clear. generalize (make key 0). induction programs as [|p programs IH]; intros g ps gen; cbn.
    - by intros [= <- <-].
    - intros ([[p1 st] g1] & _ & E)%bind_Done. apply bind_Done in E as ([ps1 g2] & E1 & [= <- <-]).
      cbn. f_equal. eauto. }
  destruct (generate_all rejections programs (make key 0)) as [[ps gen]| | |]; try done.
  - destruct H as [Hwf (ps' & rc & -> & Hall)]. cbn [mbind outcome_bind]. split.
    + pose proof (Forall2_length Hall) as Hl. pose proof (Hlen _ _ eq_refl). simpl in *. congruence.
    + clear Hlen. revert Hwf. induction Hall as [|p p' ps ps' Hsame _ IH]; intros Hwf; [constructor|].
      apply Forall_cons_iff in Hwf as [Hp Hwf]. constructor; [|auto].
      unfold program_ready. rewrite (same_addr _ _ _ Hsame), (same_length _ _ _ Hsame).
      split; [apply Hp|]. split; [apply Hp|]. intros r Hr. rewrite (execute_same rc p p') by done.
      by apply program_wf_executes.
  - destruct H as [-> H]. done.
Qed.

Lemma bytes_to_block_wf bs : Bytes bs -> block_wf (bytes_to_block bs).
Proof.
  intros Hb. unfold bytes_to_block. split; [by rewrite length_fmap, length_seq|].
  apply Forall_fmap, Forall_forall. intros i _. cbn. unfold load_le64.
  eapply in_range_mono; [|apply of_le_range; by apply Forall_take, Forall_drop].
  rewrite length_take. lia.
Qed.

Lemma first_blocks_ok m h0 blocks :
  2 <= m -> blocks_wf m blocks ->
  exists blocks', ofoldl (first_block h0) blocks [0; 1] = Done blocks' /\ blocks_wf m blocks'.
Proof.
  intros Hm Hb. apply ofoldl_ok; [|done]. intros b i Hi Hw. unfold first_block.
  destruct (argon2_hprime_bytes (append_le32 (append_le32 h0 i) 0) 1024)
    as (out & -> & _ & Hout); [lia|]. cbn [mbind outcome_bind].
  rewrite !elem_of_cons, elem_of_nil in Hi.
  apply set_block_ok; [done|destruct Hi as [->|[->|[]]]; lia|by apply bytes_to_block_wf].
Qed.

Lemma make_cache_cases mapped m passes :
  ((m < 8 \/ m mod 4 <> 0 \/ passes = 0) -> make_cache mapped m passes = Throw cache_argument_error) /\
  (8 <= m <= 2 ^ 32 -> m mod 4 = 0 -> passes <> 0 ->
     exists c, make_cache true m passes = Done c /\ cache_wf c).
Proof.
  unfold make_cache. split.
  - intros H. destruct (_ || _) eqn:E; [done|]. exfalso.
    destruct (Z.ltb_spec m 8), (Z.eqb_spec (m mod 4) 0), (Z.eqb_spec passes 0); try done; lia.
  - intros Hm H4 Hp. destruct (Z.ltb_spec m 8), (Z.eqb_spec (m mod 4) 0), (Z.eqb_spec passes 0); try lia.
    cbn [orb negb]. eexists. split; [done|]. constructor; cbn [memory_blocks_ blocks_ programs_].
    + done.
    + unfold mul64. rewrite (wrap_small 64) by (split; lia). rewrite Z.div_mul by lia.
      split; [rewrite length_replicate; lia|]. apply Forall_replicate.
      split; [done|]. apply Forall_replicate. split; [lia|done].
    + split; [done|]. apply Forall_replicate. apply length_replicate.
Qed.

(** [initialize] on a well-formed cache. *)
Lemma initialize_cases rejections key c : cache_wf c -> Bytes key ->
  match initialize permute_block rejections key c with
  | Done c' => cache_ready c' /\ memory_blocks_ c' = memory_blocks_ c /\ passes_ c' = passes_ c
  | NoFuel => exhausted rejections (make key 0)
  | Throw _ | UB => False
  end /\
  initialize permute_block_neon rejections key c = initialize permute_block rejections key c.
Proof.
  intros [[Hm Hm4] Hblocks [Hpl Hpf]] Hkey. unfold initialize. rewrite blake2b_64. cbn [mbind outcome_bind].
  destruct (first_blocks_ok (memory_blocks_ c) (digest64 (prehash (memory_blocks_ c) (passes_ c) key))
    (blocks_ c)) as (b1 & -> & Hb1); [lia|done|]. cbn [mbind outcome_bind].
  assert (exists L, memory_blocks_ c = 4 * L /\ 2 <= L <= 2 ^ 30) as (L & HL & HLr).
  { exists (memory_blocks_ c / 4). Z.div_mod_to_equations. lia. }
  rewrite HL in *. rewrite fill_memory_neon by done. split; [|done].
  destruct (fill_memory_ok L HLr (passes_ c) b1 Hb1) as (b2 & -> & Hb2). cbn [mbind outcome_bind].
  pose proof (prepare_programs_ready rejections (programs_ c) key Hpl Hpf Hkey) as Hp.
  destruct (prepare_programs rejections (programs_ c) key) as [[ps rc]| | |]; try done.
  destruct Hp as [Hlen Hready]. cbn. split; [|done]. split; [|done].
  constructor; simpl; auto. split; [done|]. eapply list.Forall_impl; [exact Hready|]. by intros p (_ & ? & _).
Qed.

(** C26: the constructor throws on exactly the documented bad arguments; on a constructed (or
    previously initialised) cache of up to 2^32 blocks, [initialize] never throws and never touches
    a block or instruction outside the cache, keeps the cache well formed and leaves eight programs
    that run with its reciprocal table, unless a rejection loop of the program generator runs dry;
    the NEON build fills the memory with the same blocks. *)
Theorem initialize_ready rejections key c :
  (forall mapped m passes, (m < 8 \/ m mod 4 <> 0 \/ passes = 0) ->
     make_cache mapped m passes = Throw cache_argument_error) /\
  (forall m passes, 8 <= m <= 2 ^ 32 -> m mod 4 = 0 -> passes <> 0 ->
     exists c, make_cache true m passes = Done c /\ cache_wf c) /\
  (cache_wf c -> Bytes key ->
  match initialize permute_block rejections key c with
  | Done c' => cache_ready c' /\ memory_blocks_ c' = memory_blocks_ c /\ passes_ c' = passes_ c
  | NoFuel => exhausted rejections (make key 0)
  | Throw _ | UB => False
  end /\
  initialize permute_block_neon rejections key c = initialize permute_block rejections key c).
Proof.
  split; [intros; by apply make_cache_cases|]. split; [intros; by apply (make_cache_cases true)|].
  by apply initialize_cases.
Qed.

Lemma initialize_ready_witness :
  exists c, make_cache true 8 1 = Done c /\
    match initialize permute_block 9 [7] c with
    | Done c' => cache_ready c'
    | NoFuel => exhausted 9 (make [7] 0)
    | Throw _ | UB => False
    end.
Proof.
  destruct (proj2 (make_cache_cases true 8 1)) as (c & E & Hc); [lia|reflexivity|lia|].
  exists c. split; [exact E|].
  pose proof (proj1 (proj2 (proj2 (initialize_ready 9 [7] c)) Hc
    ltac:(apply List.Forall_cons; [split; [lia|reflexivity]|apply List.Forall_nil]))) as H.
  destruct (initialize permute_block 9 [7] c); [apply H|exact H|exact H|exact H].
Defined.
