(* ===== verification/Dataset.v ===== *)
(** * Dataset items

    Models src/src/dataset.cpp and src/include/armrx/dataset.hpp: reading a cache line,
    deriving one dataset item from the cache with the eight superscalar programs, and filling a
    range of the dataset, in the portable build (item by item) and in the AArch64 build (two items
    at a time in the lanes of NEON registers). *)

From S2P Require Import Prelude Neon RandomX Blake2b Superscalar SuperscalarGen Argon2.

Definition kRandomXDatasetItemBytes : Z := 64.
Definition randomx_dataset_item_count : Z := kRandomXDatasetBytes / kRandomXDatasetItemBytes.
Definition dataset_output_bytes (item_count : Z) : Z := mul64 item_count kRandomXDatasetItemBytes.

Definition dataset_seed_registers (item_number : Z) : list Z :=
  let seed := mul64 (add64 item_number 1) 6364136223846793005 in
  [seed; Z.lxor seed 9298411001130361340; Z.lxor seed 12065312585734608966;
   Z.lxor seed 9306329213124626780; Z.lxor seed 5281919268842080866;
   Z.lxor seed 10536153434571861004; Z.lxor seed 3398623926847679864;
   Z.lxor seed 9549104520008361294].

Definition lines_per_block : Z := 1024 / kRandomXDatasetItemBytes.
Definition cache_line_count (cache : Argon2dCache) : Z :=
  mul64 (memory_blocks_ cache) (1024 / kRandomXDatasetItemBytes).

Definition dataset_range_is_valid (start_item item_count : Z) : bool :=
  (start_item <=? randomx_dataset_item_count) &&
  (item_count <=? sub64 randomx_dataset_item_count start_item).

Definition no_lines : exn := runtime_error "cache has no lines".

(** The bytes of a block in memory. *)
Definition block_bytes (block : list Z) : list Z := concat (le_bytes 8 <$> block).

Definition load_cache_line (cache : Argon2dCache) (line_index : Z) : outcome (list Z) :=
  let line_count := cache_line_count cache in
  if line_count =? 0 then Throw no_lines else
  let line_index := line_index mod line_count in
  let block_index := line_index / lines_per_block in
  let line_in_block := line_index mod lines_per_block in
  block ← block_at (blocks_ cache) block_index;
  read_bytes (block_bytes block) (line_in_block * kRandomXDatasetItemBytes) 64.

(** [val] of the XOR loops: word [q] of a cache line. *)
Definition line_word (line : list Z) (q : nat) : Z := of_le (take 8 (drop (q * 8) line)).

Definition xor_line (rl line : list Z) : list Z :=
  (fun q => Z.lxor (rl !!! q) (line_word line q)) <$> seq 0 8.

(** One turn of the loop over the eight programs. *)
Definition item_round (cache : Argon2dCache) (line_count : Z) (st : list Z * Z) (i : Z)
  : outcome (list Z * Z) :=
  let '(rl, register_value) := st in
  let line_index := register_value mod line_count in
  line ← load_cache_line cache line_index;
  prog ← at_index (programs_ cache) i;
  rl ← execute_superscalar rl prog (Some (reciprocal_cache_ cache));
  let rl := xor_line rl line in
  register_value ← at_index rl (addr_reg_ prog);
  Done (rl, register_value).

Definition cache_accesses : list Z := seqZ 0 (Z.of_nat kRandomXCacheAccesses).

Definition store_registers (rl : list Z) : list Z := concat (le_bytes 8 <$> rl).

Definition generate_dataset_item (cache : Argon2dCache) (item_number : Z) : outcome (list Z) :=
  let line_count := cache_line_count cache in
  if line_count =? 0 then Throw no_lines else
  '(rl, _) ← ofoldl (item_round cache line_count)
               (dataset_seed_registers item_number, item_number) cache_accesses;
  Done (store_registers rl).

(** ** Filling a range *)

Definition range_error : exn := invalid_argument "dataset item range is invalid".
Definition count_error : exn := invalid_argument "dataset item count is too large".
Definition size_error : exn := invalid_argument "dataset output buffer is too small".

(** The loop that computes and stores one item per turn (portable build; leftover loop of the
    AArch64 build). *)
Definition store_item (cache : Argon2dCache) (start_item : Z) (output : list Z) (offset : Z)
  : outcome (list Z) :=
  item ← generate_dataset_item cache (add64 start_item offset);
  write_bytes output (offset * kRandomXDatasetItemBytes) item.

(** The checks at the head of [initialize_dataset]. *)
Definition check_range (output : list Z) (start_item item_count : Z) : outcome unit :=
  if negb (dataset_range_is_valid start_item item_count) then Throw range_error else
  if u64_max / kRandomXDatasetItemBytes <? item_count then Throw count_error else
  let required_bytes := dataset_output_bytes item_count in
  if Z.of_nat (length output) <? required_bytes then Throw size_error else
  Done tt.

Definition initialize_dataset_portable (output : list Z) (cache : Argon2dCache)
  (start_item item_count : Z) : outcome (list Z) :=
  _ ← check_range output start_item item_count;
  ofoldl (store_item cache start_item) output (seqZ 0 item_count).

(** The two-lane versions of the item loop. *)
Definition xor_lines (vr : list vec2) (line0 line1 : list Z) : list vec2 :=
  (fun q => veorq (vr !!! q) (vcombine (line_word line0 q) (line_word line1 q))) <$> seq 0 8.

Definition pair_round (cache : Argon2dCache) (line_count : Z) (st : list vec2 * Z * Z) (p : Z)
  : outcome (list vec2 * Z * Z) :=
  let '(vr, reg_val0, reg_val1) := st in
  let line_index0 := reg_val0 mod line_count in
  let line_index1 := reg_val1 mod line_count in
  line0 ← load_cache_line cache line_index0;
  line1 ← load_cache_line cache line_index1;
  prog ← at_index (programs_ cache) p;
  vr ← execute_superscalar_neon vr prog (Some (reciprocal_cache_ cache));
  let vr := xor_lines vr line0 line1 in
  v ← at_index vr (addr_reg_ prog);
  Done (vr, v.1, v.2).

(** Storing word [q] of both items. *)
Definition store_pair_word (offset : Z) (vr : list vec2) (output : list Z) (q : nat)
  : outcome (list Z) :=
  let out0 := (vr !!! q).1 in
  let out1 := (vr !!! q).2 in
  output ← write_bytes output (offset * kRandomXDatasetItemBytes + Z.of_nat q * 8) (le_bytes 8 out0);
  write_bytes output ((offset + 1) * kRandomXDatasetItemBytes + Z.of_nat q * 8) (le_bytes 8 out1).

Definition store_pair (cache : Argon2dCache) (line_count start_item offset : Z) (output : list Z)
  : outcome (list Z) :=
  let item0 := add64 start_item offset in
  let item1 := add64 (add64 start_item offset) 1 in
  let rl0 := dataset_seed_registers item0 in
  let rl1 := dataset_seed_registers item1 in
  let vr := (fun q => vcombine (rl0 !!! q) (rl1 !!! q)) <$> seq 0 8 in
  '(vr, _, _) ← ofoldl (pair_round cache line_count) (vr, item0, item1) cache_accesses;
  ofoldl (store_pair_word offset vr) output (seq 0 8).

(** [for (; offset + 1 < item_count; offset += 2)]. *)
Fixpoint pair_loop (fuel : nat) (cache : Argon2dCache) (line_count start_item item_count offset : Z)
  (output : list Z) : outcome (list Z * Z) :=
  if offset + 1 <? item_count then
    match fuel with
    | O => NoFuel
    | S fuel =>
        output ← store_pair cache line_count start_item offset output;
        pair_loop fuel cache line_count start_item item_count (offset + 2) output
    end
  else Done (output, offset).

Definition initialize_dataset (output : list Z) (cache : Argon2dCache)
  (start_item item_count : Z) : outcome (list Z) :=
  _ ← check_range output start_item item_count;
  let line_count := cache_line_count cache in
  if line_count =? 0 then Throw no_lines else
  '(output, offset) ← pair_loop (Z.to_nat item_count) cache line_count start_item item_count 0 output;
  ofoldl (store_item cache start_item) output (seqZ offset (item_count - offset)).

(** ** One item *)

Section ready.
Context (c : Argon2dCache) (Hc : cache_ready c).

Definition file_wf (r : list Z) : Prop := length r = 8%nat /\ Words r.

Lemma line_count_eq : cache_line_count c = memory_blocks_ c * 16 /\ 0 < cache_line_count c.
Proof.
  destruct Hc as [[[Hm _] _ _] _]. assert (cache_line_count c = memory_blocks_ c * 16) as ->.
  { apply wrap_small. split; lia. } lia.
Qed.

Lemma length_words_bytes l : length (concat (le_bytes 8 <$> l)) = (8 * length l)%nat.
Proof.
  induction l as [|x l IH]; [done|]. change (le_bytes 8 <$> x :: l) with (le_bytes 8 x :: (le_bytes 8 <$> l)).
  cbn [concat length]. rewrite length_app, IH, length_le_bytes. lia.
Qed.

Lemma words_bytes_range l : Bytes (concat (le_bytes 8 <$> l)).
Proof. apply Forall_concat, Forall_fmap, Forall_forall. intros x _. apply le_bytes_range. Qed.

(** A cache line can be read at any index. *)
Lemma load_cache_line_ok i :
  exists line, load_cache_line c i = Done line /\ length line = 64%nat /\ Bytes line.
Proof.
  destruct line_count_eq as [Hlc Hpos]. unfold load_cache_line.
  destruct (Z.eqb_spec (cache_line_count c) 0); [lia|].
  pose proof (Z.mod_pos_bound i (cache_line_count c) Hpos) as Hi.
  set (j := i mod cache_line_count c) in *. destruct Hc as [[_ [Hl Hb] _] _].
  change lines_per_block with 16. change kRandomXDatasetItemBytes with 64.
  destruct (at_index_ok block_wf (blocks_ c) (j / 16)) as (b & Eb & [Hbl _]);
    [done|rewrite Hl; Z.div_mod_to_equations; lia|].
  unfold block_at. rewrite Eb. cbn [mbind outcome_bind].
  assert (length (block_bytes b) = 1024%nat) as Hbb
    by (unfold block_bytes; rewrite length_words_bytes, Hbl; done).
  rewrite read_bytes_ok by (rewrite ?Hbb; Z.div_mod_to_equations; lia).
  eexists. split; [done|]. split.
  - rewrite length_take, length_drop, Hbb. Z.div_mod_to_equations. lia.
  - apply Forall_take, Forall_drop, words_bytes_range.
Qed.

Lemma line_word_range line q : Bytes line -> word64 (line_word line q).
Proof.
  intros Hb. unfold line_word.
  eapply in_range_mono; [|apply of_le_range; by apply Forall_take, Forall_drop].
  rewrite length_take. lia.
Qed.

Lemma xor_line_wf rl line : file_wf rl -> Bytes line -> file_wf (xor_line rl line).
Proof.
  intros [Hl Hr] Hb. unfold xor_line. split; [by rewrite length_fmap, length_seq|].
  apply Forall_fmap, Forall_forall. intros q _. cbn. apply lxor_range; [lia|auto with word|].
  by apply line_word_range.
Qed.

Lemma seed_registers_wf n : file_wf (dataset_seed_registers n).
Proof.
  unfold dataset_seed_registers. split; [done|].
  repeat (apply List.Forall_cons; [first [apply mul64_range | apply lxor_range;
    [lia|apply mul64_range|split; [lia|done]]]|]). apply List.Forall_nil.
Qed.

Lemma program_at_ready i :
  i ∈ cache_accesses ->
  exists p, at_index (programs_ c) i = Done p /\ program_ready (reciprocal_cache_ c) p.
Proof.
  intros Hi%elem_of_seqZ. destruct Hc as [[_ _ [Hn _]] Hp].
  apply at_index_ok; [done|]. rewrite Hn. exact Hi.
Qed.

(** What one turn of the item loop needs and gives. *)
Lemma item_round_ok rl v i :
  file_wf rl -> i ∈ cache_accesses ->
  exists rl' v', item_round c (cache_line_count c) (rl, v) i = Done (rl', v') /\ file_wf rl'.
Proof.
  intros [Hl Hw] Hi. unfold item_round.
  destruct (load_cache_line_ok (v mod cache_line_count c)) as (line & -> & _ & Hb). cbn [mbind outcome_bind].
  destruct (program_at_ready i Hi) as (p & -> & Ha & _ & Hx). cbn [mbind outcome_bind].
  destruct (Hx rl Hl) as [r1 E]. rewrite E. cbn [mbind outcome_bind].
  apply execute_superscalar_words in E as [Hw1 Hl1]; [|done].
  assert (file_wf (xor_line r1 line)) as Hf by (apply xor_line_wf; [split; [congruence|done]|done]).
  destruct (at_index_ok word64 (xor_line r1 line) (addr_reg_ p)) as (v' & -> & _);
    [apply Hf|destruct Hf as [-> _]; lia|]. cbn. eauto.
Qed.

Lemma generate_dataset_item_ok n :
  exists item, generate_dataset_item c n = Done item /\ length item = 64%nat /\ Bytes item.
Proof.
  unfold generate_dataset_item. destruct line_count_eq as [_ Hpos].
  destruct (Z.eqb_spec (cache_line_count c) 0); [lia|].
  destruct (ofoldl_ok (fun st => file_wf st.1) (item_round c (cache_line_count c)) cache_accesses
    (dataset_seed_registers n, n)) as ([rl v] & -> & Hl & _).
  - intros [rl v] i Hi Hf. destruct (item_round_ok rl v i Hf Hi) as (rl' & v' & E & H). eauto.
  - apply seed_registers_wf.
  - cbn in *. eexists. split; [done|]. unfold store_registers.
    rewrite length_words_bytes, Hl. split; [done|apply words_bytes_range].
Qed.

(** ** Two items at a time *)

Lemma xor_lines_zip a b l0 l1 :
  length a = 8%nat -> length b = 8%nat ->
  xor_lines (zip a b) l0 l1 = zip (xor_line a l0) (xor_line b l1).
Proof.
  intros Ha Hb. explode a. explode b. unfold xor_lines, xor_line. cbv -[Z.lxor line_word]. reflexivity.
Qed.

Lemma at_index_zip {A B} (a : list A) (b : list B) i x y :
  at_index a i = Done x -> at_index b i = Done y -> at_index (zip a b) i = Done (x, y).
Proof.
  unfold at_index. destruct (0 <=? i); [|done].
  destruct (a !! _) eqn:Ea; [|done]. destruct (b !! _) eqn:Eb; [|done]. intros [= ->] [= ->].
  assert (zip a b !! Z.to_nat i = Some (x, y)) as ->; [|done].
  apply lookup_zip_with_Some. eauto.
Qed.

Lemma pair_round_lanes rl0 rl1 v0 v1 i :
  file_wf rl0 -> file_wf rl1 -> i ∈ cache_accesses ->
  exists rl0' v0' rl1' v1',
    item_round c (cache_line_count c) (rl0, v0) i = Done (rl0', v0') /\ file_wf rl0' /\
    item_round c (cache_line_count c) (rl1, v1) i = Done (rl1', v1') /\ file_wf rl1' /\
    pair_round c (cache_line_count c) (zip rl0 rl1, v0, v1) i = Done (zip rl0' rl1', v0', v1').
Proof.
  intros H0 H1 Hi.
  destruct (item_round_ok rl0 v0 i H0 Hi) as (rl0' & v0' & E0 & H0').
  destruct (item_round_ok rl1 v1 i H1 Hi) as (rl1' & v1' & E1 & H1').
  exists rl0', v0', rl1', v1'. split_and!; auto; try apply H0'; try apply H1'.
  revert E0 E1. unfold item_round, pair_round.
  destruct (load_cache_line c (v0 mod _)) as [line0| | |]; try done.
  destruct (load_cache_line c (v1 mod _)) as [line1| | |]; try done. cbn [mbind outcome_bind].
  destruct (at_index (programs_ c) i) as [p| | |]; try done. cbn [mbind outcome_bind].
  unfold execute_superscalar_neon. rewrite run_from_lanes by (apply H0 || apply H1 || by destruct H0, H1; congruence).
  fold (execute_superscalar rl0 p (Some (reciprocal_cache_ c))).
  fold (execute_superscalar rl1 p (Some (reciprocal_cache_ c))).
  destruct (execute_superscalar rl0 _ _) as [r0| | |] eqn:X0; try done.
  destruct (execute_superscalar rl1 _ _) as [r1| | |] eqn:X1; try done.
  cbn [mbind outcome_bind pair_outcome].
  apply execute_superscalar_words in X0 as [_ L0]; [|apply H0].
  apply execute_superscalar_words in X1 as [_ L1]; [|apply H1].
  rewrite xor_lines_zip by (destruct H0, H1; congruence).
  destruct (at_index (xor_line r0 line0) _) eqn:A0; try done.
  destruct (at_index (xor_line r1 line1) _) eqn:A1; try done.
  cbn [mbind outcome_bind]. intros [<- <-]%Done_pair [<- <-]%Done_pair.
  by rewrite (at_index_zip _ _ _ _ _ A0 A1).
Qed.

Lemma pair_rounds_lanes l rl0 rl1 v0 v1 :
  file_wf rl0 -> file_wf rl1 -> (forall i, i ∈ l -> i ∈ cache_accesses) ->
  exists rl0' v0' rl1' v1',
    ofoldl (item_round c (cache_line_count c)) (rl0, v0) l = Done (rl0', v0') /\ file_wf rl0' /\
    ofoldl (item_round c (cache_line_count c)) (rl1, v1) l = Done (rl1', v1') /\ file_wf rl1' /\
    ofoldl (pair_round c (cache_line_count c)) (zip rl0 rl1, v0, v1) l = Done (zip rl0' rl1', v0', v1').
Proof.
  revert rl0 rl1 v0 v1. induction l as [|i l IH]; intros rl0 rl1 v0 v1 H0 H1 Hl.
  - do 4 eexists. cbn [ofoldl]. split_and!; try done; try apply H0; apply H1.
  - destruct (pair_round_lanes rl0 rl1 v0 v1 i H0 H1) as (a & va & b & vb & Ea & Ha & Eb & Hb & Ep);
      [apply Hl; by left|].
    cbn [ofoldl]. rewrite Ea, Eb, Ep. cbn [mbind outcome_bind]. apply IH; [done|done|].
    intros j Hj. apply Hl. by right.
Qed.

End ready.

(** ** Chunked stores *)

Lemma chunks_of n (a : list Z) :
  length a = (8 * n)%nat ->
  exists A, concat A = a /\ length A = n /\ Forall (fun x => length x = 8%nat) A.
Proof.
  revert a. induction n as [|n IH]; intros a Ha.
  - exists []. by destruct a.
  - destruct (IH (drop 8 a)) as (A & HA & Hn & HF); [rewrite length_drop; lia|].
    exists (take 8 a :: A). cbn [concat length]. rewrite HA, take_drop, Hn. split; [done|].
    split; [done|]. constructor; [rewrite length_take; lia|done].
Qed.

Lemma length_concat8 {A} (l : list (list A)) :
  Forall (fun x => length x = 8%nat) l -> length (concat l) = (8 * length l)%nat.
Proof. induction 1 as [|x l Hx _ IH]; [done|]. cbn [concat length]. rewrite length_app. lia. Qed.

(** Writing word [q] of an array of 8-byte words. *)
Lemma write_chunk pre A suf q x off :
  Forall (fun y => length y = 8%nat) A -> (q < length A)%nat -> length x = 8%nat ->
  off = Z.of_nat (length pre) + Z.of_nat q * 8 ->
  write_bytes (pre ++ concat A ++ suf) off x = Done (pre ++ concat (<[q := x]> A) ++ suf) /\
  Forall (fun y => length y = 8%nat) (<[q := x]> A).
Proof.
  intros HA Hq Hx ->. split; [|by apply Forall_insert].
  destruct (lookup_lt_is_Some_2 A q Hq) as [y Hy].
  pose proof (take_drop_middle A q y Hy) as HAeq.
  assert (Hlt : length (concat (take q A)) = (8 * q)%nat).
  { rewrite length_concat8 by (by apply Forall_take). rewrite length_take. lia. }
  rewrite insert_take_drop by done. rewrite <- HAeq at 1. rewrite !concat_app. cbn [concat].
  assert (length y = 8%nat) as Hy8 by (by apply (Forall_lookup_1 _ _ _ _ HA Hy)).
  rewrite write_bytes_ok.
  - f_equal. rewrite <- !app_assoc, (app_assoc pre).
    set (P := pre ++ concat (take q A)). assert (Z.to_nat (Z.of_nat (length pre) + Z.of_nat q * 8) = length P) as ->
      by (subst P; rewrite length_app; lia).
    rewrite take_app_length, (app_assoc P y), drop_app_length' by (rewrite length_app; lia).
    by rewrite (app_assoc pre).
  - lia.
  - rewrite !length_app, Hlt. lia.
Qed.

Lemma split_at (n : nat) (l : list Z) : (n <= length l)%nat -> exists a b, l = a ++ b /\ length a = n.
Proof. intros H. exists (take n l), (drop n l). rewrite take_drop, length_take. split; [done|lia]. Qed.

(** Storing one item over 64 bytes. *)
Lemma write_item pre item old suf off :
  length item = length old -> off = Z.of_nat (length pre) ->
  write_bytes (pre ++ old ++ suf) off item = Done (pre ++ item ++ suf).
Proof.
  intros Hl ->. rewrite write_bytes_ok by (rewrite ?length_app; lia). f_equal.
  rewrite Nat2Z.id, take_app_length, (app_assoc pre old). rewrite drop_app_length' by (rewrite length_app; lia). done.
Qed.

Definition put_words (f : nat -> Z) (A : list (list Z)) (qs : list nat) : list (list Z) :=
  foldl (fun A q => <[q := le_bytes 8 (f q)]> A) A qs.

Abbreviation chunks8 A := (length A = 8%nat /\ Forall (fun y => length y = 8%nat) A).

Lemma store_pair_word_ok offset vr pre suf q A B :
  chunks8 A -> chunks8 B -> (q < 8)%nat -> Z.of_nat (length pre) = offset * 64 ->
  store_pair_word offset vr (pre ++ concat A ++ concat B ++ suf) q =
    Done (pre ++ concat (<[q := le_bytes 8 (vr !!! q).1]> A) ++
          concat (<[q := le_bytes 8 (vr !!! q).2]> B) ++ suf).
Proof.
  intros [LA FA] [LB FB] Hq Hpre. unfold store_pair_word. change kRandomXDatasetItemBytes with 64.
  destruct (write_chunk pre A (concat B ++ suf) q (le_bytes 8 (vr !!! q).1)
    (offset * 64 + Z.of_nat q * 8)) as [-> FA']; [done|lia|done|lia|]. cbn [mbind outcome_bind].
  destruct (write_chunk (pre ++ concat (<[q := le_bytes 8 (vr !!! q).1]> A)) B suf q
    (le_bytes 8 (vr !!! q).2) ((offset + 1) * 64 + Z.of_nat q * 8)) as [E FB']; [done|lia|done| |].
  { rewrite length_app, length_concat8, length_insert, LA by done. lia. }
  by rewrite <- !app_assoc in E.
Qed.

Lemma store_pair_words_ok offset vr pre suf qs A B :
  chunks8 A -> chunks8 B -> (forall q, q ∈ qs -> (q < 8)%nat) -> Z.of_nat (length pre) = offset * 64 ->
  ofoldl (store_pair_word offset vr) (pre ++ concat A ++ concat B ++ suf) qs =
    Done (pre ++ concat (put_words (fun q => (vr !!! q).1) A qs) ++
          concat (put_words (fun q => (vr !!! q).2) B qs) ++ suf).
Proof.
  intros HA HB Hq Hpre. revert A B HA HB.
  induction qs as [|q qs IH]; intros A B [LA FA] [LB FB]; [done|].
  unfold put_words in *. cbn [ofoldl foldl].
  rewrite store_pair_word_ok by (done || (apply Hq; by left)). cbn [mbind outcome_bind].
  apply IH; [by intros; apply Hq; right|..]; split; rewrite ?length_insert; auto using Forall_insert.
Qed.

Lemma put_all_words f A :
  length A = 8%nat -> put_words f A (seq 0 8) = le_bytes 8 <$> (f <$> seq 0 8).
Proof. intros HA. explode A. reflexivity. Qed.

Lemma zip_columns (a b : list Z) :
  length a = 8%nat -> length b = 8%nat ->
  (fun q => (zip a b !!! q).1) <$> seq 0 8 = a /\ (fun q => (zip a b !!! q).2) <$> seq 0 8 = b /\
  (fun q => vcombine (a !!! q) (b !!! q)) <$> seq 0 8 = zip a b.
Proof. intros Ha Hb. explode a. explode b. done. Qed.

Section fill.
Context (c : Argon2dCache) (Hc : cache_ready c).

(** The item with number [n] (a total function on a ready cache). *)
Definition item_of (n : Z) : list Z :=
  match generate_dataset_item c n with Done item => item | _ => [] end.

Lemma item_of_spec n :
  generate_dataset_item c n = Done (item_of n) /\ length (item_of n) = 64%nat.
Proof.
  unfold item_of. by destruct (generate_dataset_item_ok c Hc n) as (item & -> & Hl & _).
Qed.

Definition items_from (start n : Z) : list Z := concat (item_of <$> seqZ start n).

Lemma length_items_from start n : length (items_from start n) = (64 * Z.to_nat n)%nat.
Proof.
  unfold items_from. rewrite <- (length_seqZ start n). induction (seqZ start n) as [|i l IH]; [done|].
  change (item_of <$> i :: l) with (item_of i :: (item_of <$> l)). cbn [concat length].
  rewrite length_app, IH. destruct (item_of_spec i) as [_ ->]. lia.
Qed.

Lemma items_from_app start n m :
  0 <= n -> 0 <= m -> items_from start (n + m) = items_from start n ++ items_from (start + n) m.
Proof. intros. unfold items_from. by rewrite seqZ_app, fmap_app, concat_app by done. Qed.

Lemma items_from_1 start : items_from start 1 = item_of start.
Proof. unfold items_from. rewrite seqZ_cons by lia. cbn. by rewrite app_nil_r. Qed.

Lemma store_pair_ok start offset pre old suf :
  word64 (start + offset) -> word64 (start + offset + 1) -> length old = 128%nat ->
  Z.of_nat (length pre) = offset * 64 ->
  store_pair c (cache_line_count c) start offset (pre ++ old ++ suf) =
    Done (pre ++ item_of (start + offset) ++ item_of (start + offset + 1) ++ suf).
Proof.
  intros H0 H1 Hold Hpre. unfold store_pair, add64. rewrite (wrap_small _ _ H0), (wrap_small _ _ H1).
  set (n0 := start + offset) in *. set (n1 := n0 + 1) in *.
  pose proof (seed_registers_wf n0) as [L0 W0]. pose proof (seed_registers_wf n1) as [L1 W1].
  destruct (zip_columns _ _ L0 L1) as (_ & _ & ->).
  destruct (pair_rounds_lanes c Hc cache_accesses (dataset_seed_registers n0)
    (dataset_seed_registers n1) n0 n1) as (r0 & v0 & r1 & v1 & E0 & [Lr0 _] & E1 & [Lr1 _] & ->); try done.
  cbn [mbind outcome_bind].
  destruct (split_at 64 old) as (a & b & -> & La); [lia|]. rewrite length_app in Hold.
  destruct (chunks_of 8 a) as (A & <- & LA & FA); [lia|].
  destruct (chunks_of 8 b) as (B & <- & LB & FB); [lia|]. rewrite <- !app_assoc.
  rewrite store_pair_words_ok; [|done|done|intros q Hq%elem_of_seq; lia|done].
  rewrite !put_all_words by done. destruct (zip_columns _ _ Lr0 Lr1) as (-> & -> & _).
  unfold item_of, generate_dataset_item. destruct (line_count_eq c Hc) as [_ Hpos].
  destruct (Z.eqb_spec (cache_line_count c) 0); [lia|]. by rewrite E0, E1.
Qed.

Lemma store_item_ok start offset pre old suf :
  word64 (start + offset) -> length old = 64%nat -> Z.of_nat (length pre) = offset * 64 ->
  store_item c start (pre ++ old ++ suf) offset = Done (pre ++ item_of (start + offset) ++ suf).
Proof.
  intros H0 Hold Hpre. unfold store_item, add64. rewrite (wrap_small _ _ H0).
  destruct (item_of_spec (start + offset)) as [-> Hl]. cbn [mbind outcome_bind].
  apply write_item; [lia|]. change kRandomXDatasetItemBytes with 64. lia.
Qed.

Lemma pair_loop_ok fuel start count offset rest :
  0 <= start -> 0 <= offset <= count -> start + count <= 2 ^ 63 ->
  64 * (count - offset) <= Z.of_nat (length rest) -> count - offset <= Z.of_nat fuel ->
  exists offset', offset <= offset' <= count /\
    pair_loop fuel c (cache_line_count c) start count offset (items_from start offset ++ rest) =
      Done (items_from start offset' ++ drop (64 * Z.to_nat (offset' - offset)) rest, offset').
Proof.
  intros Hs. revert offset rest. induction fuel as [|fuel IH]; intros offset rest Ho Hc2 Hl Hf;
    cbn [pair_loop]; destruct (Z.ltb_spec (offset + 1) count); try lia.
  1, 3: exists offset; split; [lia|]; by rewrite Z.sub_diag, drop_0.
  destruct (split_at 128 rest) as (old & suf & -> & Hold); [lia|]. rewrite length_app in Hl.
  rewrite store_pair_ok; [|split; lia|split; lia|done|rewrite length_items_from; lia].
  cbn [mbind outcome_bind].
  assert (items_from start (offset + 2) =
    items_from start offset ++ item_of (start + offset) ++ item_of (start + offset + 1)) as Hi.
  { rewrite items_from_app by lia. change 2 with (1 + 1). rewrite items_from_app by lia.
    by rewrite !items_from_1. }
  rewrite !app_assoc, <- (app_assoc (items_from start offset)), <- Hi.
  destruct (IH (offset + 2) suf) as (off' & Hoff & ->); [lia|lia|lia|lia|].
  exists off'. split; [lia|]. do 3 f_equal.
  replace (64 * Z.to_nat (off' - offset))%nat with (length old + 64 * Z.to_nat (off' - (offset + 2)))%nat by lia.
  by rewrite <- drop_drop, drop_app_length.
Qed.

Lemma store_items_ok start offset n rest :
  0 <= start -> 0 <= offset -> start + offset + Z.of_nat n <= 2 ^ 63 ->
  (64 * n <= length rest)%nat ->
  ofoldl (store_item c start) (items_from start offset ++ rest) (seqZ offset (Z.of_nat n)) =
    Done (items_from start (offset + Z.of_nat n) ++ drop (64 * n) rest).
Proof.
  intros Hs. revert offset rest. induction n as [|n IH]; intros offset rest Ho Hb Hl.
  - by rewrite Z.add_0_r, drop_0.
  - rewrite seqZ_cons by lia. cbn [ofoldl].
    destruct (split_at 64 rest) as (old & suf & -> & Hold); [lia|]. rewrite length_app in Hl.
    rewrite store_item_ok by (done || (split; lia) || (rewrite length_items_from; lia)). cbn [mbind outcome_bind].
    rewrite app_assoc, <- items_from_1, <- items_from_app by lia.
    replace (Z.pred (Z.of_nat (S n))) with (Z.of_nat n) by lia.
    change (Z.succ offset) with (offset + 1). rewrite IH by lia.
    replace (offset + Z.of_nat (S n)) with (offset + 1 + Z.of_nat n) by lia.
    replace (64 * S n)%nat with (length old + 64 * n)%nat by lia.
    by rewrite <- drop_drop, drop_app_length.
Qed.

Lemma range_valid_spec start count :
  word64 start -> word64 count ->
  dataset_range_is_valid start count = true <-> start + count <= randomx_dataset_item_count.
Proof.
  intros [Hs _] [Hn _]. unfold dataset_range_is_valid.
  change randomx_dataset_item_count with 34078720.
  rewrite andb_true_iff, !Z.leb_le. split.
  - intros [H1 H2]. unfold sub64 in H2. rewrite wrap_small in H2 by (split; lia). lia.
  - intros H. unfold sub64. rewrite wrap_small by (split; lia). lia.
Qed.

Lemma check_range_ok output start count :
  word64 start -> word64 count -> start + count <= randomx_dataset_item_count ->
  64 * count <= Z.of_nat (length output) -> check_range output start count = Done tt.
Proof.
  intros Hs Hn Hr Hl. unfold check_range. rewrite (proj2 (range_valid_spec start count Hs Hn) Hr).
  change randomx_dataset_item_count with 34078720 in Hr. cbn [negb].
  destruct (Z.ltb_spec (u64_max / kRandomXDatasetItemBytes) count) as [H|_].
  { change (u64_max / kRandomXDatasetItemBytes) with 288230376151711743 in H. destruct Hs. lia. }
  unfold dataset_output_bytes, mul64. change kRandomXDatasetItemBytes with 64.
  rewrite wrap_small by (destruct Hs, Hn; split; lia).
  by destruct (Z.ltb_spec (Z.of_nat (length output)) (count * 64)); [lia|].
Qed.

End fill.

(** Both builds on a valid range. *)
Lemma initialize_dataset_filled c output start count :
  cache_ready c -> word64 start -> word64 count ->
  start + count <= randomx_dataset_item_count -> 64 * count <= Z.of_nat (length output) ->
  let filled := concat (item_of c <$> seqZ start count) ++ drop (Z.to_nat (64 * count)) output in
  initialize_dataset output c start count = Done filled /\
  initialize_dataset_portable output c start count = Done filled.
Proof.
  intros Hc Hs Hn Hr Hl filled.
  unfold initialize_dataset, initialize_dataset_portable.
  rewrite check_range_ok by done. cbn [mbind outcome_bind].
  change randomx_dataset_item_count with 34078720 in Hr.
  destruct (line_count_eq c Hc) as [_ Hpos]. destruct (Z.eqb_spec (cache_line_count c) 0); [lia|].
  destruct Hs as [Hs0 Hs1], Hn as [Hn0 Hn1]. fold (items_from c start count) in filled.
  assert (Htail : forall off, 0 <= off <= count ->
    ofoldl (store_item c start) (items_from c start off ++ drop (64 * Z.to_nat (off - 0)) output)
      (seqZ off (count - off)) = Done filled).
  { intros off Hoff. replace (count - off) with (Z.of_nat (Z.to_nat (count - off))) by lia.
    rewrite (store_items_ok c Hc) by (rewrite ?length_drop; lia).
    subst filled. rewrite drop_drop.
    replace (off + Z.of_nat (Z.to_nat (count - off))) with count by lia.
    by replace (64 * Z.to_nat (off - 0) + 64 * Z.to_nat (count - off))%nat
      with (Z.to_nat (64 * count)) by lia. }
  split.
  + destruct (pair_loop_ok c Hc (Z.to_nat count) start count 0 output) as (off & Hoff & E); try lia.
    change (items_from c start 0) with (@nil Z) in E. rewrite app_nil_l in E. rewrite E.
    cbn [mbind outcome_bind]. apply Htail. lia.
  + specialize (Htail 0 ltac:(lia)). rewrite !Z.sub_0_r in Htail. exact Htail.
Qed.

(** C10: on an initialised cache every item number has a 64-byte item, and [initialize_dataset]
    fills the buffer with the items of the requested range in order and leaves the rest of the
    buffer alone; the AArch64 build (two items per turn, words stored interleaved, one left over
    when the count is odd) and the portable build agree.  Both throw, before writing anything,
    exactly when the range leaves the dataset or the buffer is too small. *)
Theorem initialize_dataset_items c output start count :
  cache_ready c -> word64 start -> word64 count ->
  (forall n, generate_dataset_item c n = Done (item_of c n) /\ length (item_of c n) = 64%nat) /\
  (randomx_dataset_item_count < start + count ->
     initialize_dataset output c start count = Throw range_error /\
     initialize_dataset_portable output c start count = Throw range_error) /\
  (start + count <= randomx_dataset_item_count -> Z.of_nat (length output) < 64 * count ->
     initialize_dataset output c start count = Throw size_error /\
     initialize_dataset_portable output c start count = Throw size_error) /\
  (start + count <= randomx_dataset_item_count -> 64 * count <= Z.of_nat (length output) ->
     let filled := concat (item_of c <$> seqZ start count) ++ drop (Z.to_nat (64 * count)) output in
     initialize_dataset output c start count = Done filled /\
     initialize_dataset_portable output c start count = Done filled).
Proof.
  intros Hc Hs Hn. split; [by apply item_of_spec|]. split; [|split].
  - intros Hr. unfold initialize_dataset, initialize_dataset_portable, check_range.
    destruct (dataset_range_is_valid start count) eqn:E; [|done].
    apply range_valid_spec in E; [lia|done|done].
  - intros Hr Hl. unfold initialize_dataset, initialize_dataset_portable, check_range.
    rewrite (proj2 (range_valid_spec start count Hs Hn) Hr).
    change randomx_dataset_item_count with 34078720 in Hr. cbn [negb].
    destruct (Z.ltb_spec (u64_max / kRandomXDatasetItemBytes) count) as [H|_].
    { change (u64_max / kRandomXDatasetItemBytes) with 288230376151711743 in H. destruct Hs. lia. }
    unfold dataset_output_bytes, mul64. change kRandomXDatasetItemBytes with 64.
    rewrite wrap_small by (destruct Hs, Hn; split; lia).
    by destruct (Z.ltb_spec (Z.of_nat (length output)) (count * 64)); [|lia].
  - intros Hr Hl. by apply initialize_dataset_filled.
Qed.

(** A cache whose eight programs are empty: the items are the seed registers XORed with lines. *)
Definition idle_cache : Argon2dCache :=
  mkCache 1 8 (replicate 8 (replicate 128 5)) (replicate 8 empty_program) [].

Lemma idle_cache_ready : cache_ready idle_cache.
Proof.
  split; [constructor|]; cbn [memory_blocks_ blocks_ programs_ reciprocal_cache_ idle_cache].
  - split; [lia|done].
  - split; [by rewrite length_replicate|]. apply Forall_replicate. split; [apply length_replicate|].
    apply Forall_replicate. split; [lia|done].
  - split; [done|]. apply Forall_replicate, length_replicate.
  - apply Forall_replicate. split; [done|]. split; [apply length_replicate|]. intros r _. by exists r.
Qed.

Lemma initialize_dataset_items_witness :
  initialize_dataset (replicate 200 9) idle_cache 5 3 =
    initialize_dataset_portable (replicate 200 9) idle_cache 5 3 /\
  initialize_dataset (replicate 200 9) idle_cache 34078719 3 = Throw range_error.
Proof.
  assert (H5 : word64 5) by (split; [lia|reflexivity]).
  assert (H3 : word64 3) by (split; [lia|reflexivity]).
  split.
  - destruct (proj2 (proj2 (proj2 (initialize_dataset_items idle_cache (replicate 200 9) 5 3
      idle_cache_ready H5 H3)))) as [E1 E2];
      [vm_compute; discriminate|vm_compute; discriminate|].
    exact (eq_trans E1 (eq_sym E2)).
  - apply (initialize_dataset_items idle_cache (replicate 200 9) 34078719 3 idle_cache_ready);
      [split; [lia|reflexivity]|exact H3|reflexivity].
Defined.
