(* ===== verification/Float.v ===== *)
(** * IEEE 754 binary64 with the four rounding directions

    The virtual machine (src/src/vm.cpp) computes on [double] with [+ - * /], [std::sqrt] and the
    conversion from [std::int32_t], under the rounding direction CFROUND selects with
    [std::fesetround].  A [double] is its 64-bit pattern, as the source itself treats it when it
    copies the bits out with [memcpy].  Every operation computes the exact result as an integer
    multiple of a power of two (with a sticky flag for what is below it) and rounds once.

    A NaN result is the default quiet NaN; the range lemmas at the end show that the operations
    on the E registers never produce one. *)

From S2P Require Import Prelude.

(** [FE_TONEAREST], [FE_DOWNWARD], [FE_UPWARD], [FE_TOWARDZERO]. *)
Inductive rounding : Type := ToNearest | Downward | Upward | TowardZero.

Definition sign_bit : Z := 2 ^ 63.
Definition inf_bits : Z := 0x7FF0000000000000.
Definition max_bits : Z := 0x7FEFFFFFFFFFFFFF.
Definition nan_bits : Z := 0x7FF8000000000000.

Definition with_sign (s : bool) (bits : Z) : Z := if s then sign_bit + bits else bits.
Definition negative (x : Z) : bool := Z.testbit x 63.
Definition magnitude (x : Z) : Z := x mod sign_bit.
Definition is_nan (x : Z) : bool := inf_bits <? magnitude x.
Definition is_inf (x : Z) : bool := magnitude x =? inf_bits.

(** A finite pattern is [significand * 2 ^ exponent]. *)
Definition biased (x : Z) : Z := magnitude x / 2 ^ 52.
Definition significand (x : Z) : Z :=
  let f := x mod 2 ^ 52 in if biased x =? 0 then f else 2 ^ 52 + f.
Definition exponent (x : Z) : Z := if biased x =? 0 then -1074 else biased x - 1075.

(** Should the magnitude be rounded away from zero?  [q] is the truncated significand, [r] the
    discarded part in units of [2^-sh], [sticky] whether something nonzero is below. *)
Definition round_away (mode : rounding) (s : bool) (q r sh : Z) (sticky : bool) : bool :=
  let inexact := negb (r =? 0) || sticky in
  match mode with
  | ToNearest =>
      let half := 2 ^ (sh - 1) in
      (half <? r) || ((r =? half) && (sticky || Z.odd q))
  | Downward => s && inexact
  | Upward => negb s && inexact
  | TowardZero => false
  end.

Definition overflow (mode : rounding) (s : bool) : Z :=
  match mode with
  | ToNearest => inf_bits
  | Downward => if s then inf_bits else max_bits
  | Upward => if s then max_bits else inf_bits
  | TowardZero => max_bits
  end.

(** Round the exact value [m * 2^e] (plus less than one unit when [sticky]) to a pattern.  The
    callers give a sticky value at least 55 significant bits. *)
Definition round_pack (mode : rounding) (s : bool) (m e : Z) (sticky : bool) : Z :=
  if m =? 0 then with_sign s 0 else
  let e' := Z.max (e + Z.log2 m - 52) (-1074) in
  let q := if e' <=? e then Z.shiftl m (e - e') else
    let sh := e' - e in
    let q := Z.shiftr m sh in
    let r := m mod 2 ^ sh in
    if round_away mode s q r sh sticky then q + 1 else q in
  let bits := (e' + 1074) * 2 ^ 52 + q in
  with_sign s (if inf_bits <=? bits then overflow mode s else bits).

(** ** Operations *)

Definition signed (s : bool) (m : Z) : Z := if s then - m else m.

(** The sign of an exact zero sum. *)
Definition zero_sign (mode : rounding) (sx sy : bool) : bool :=
  if Bool.eqb sx sy then sx else match mode with Downward => true | _ => false end.

Definition fadd (mode : rounding) (x y : Z) : Z :=
  if is_nan x || is_nan y then nan_bits
  else if is_inf x then if is_inf y && negb (Bool.eqb (negative x) (negative y)) then nan_bits else x
  else if is_inf y then y
  else
    let e := Z.min (exponent x) (exponent y) in
    let mx := signed (negative x) (Z.shiftl (significand x) (exponent x - e)) in
    let my := signed (negative y) (Z.shiftl (significand y) (exponent y - e)) in
    let sum := mx + my in
    if sum =? 0 then with_sign (zero_sign mode (negative x) (negative y)) 0
    else round_pack mode (sum <? 0) (Z.abs sum) e false.

Definition fneg (x : Z) : Z := Z.lxor x sign_bit.
Definition fsub (mode : rounding) (x y : Z) : Z :=
  if is_nan y then nan_bits else fadd mode x (fneg y).

Definition fmul (mode : rounding) (x y : Z) : Z :=
  let s := xorb (negative x) (negative y) in
  if is_nan x || is_nan y then nan_bits
  else if is_inf x then if magnitude y =? 0 then nan_bits else with_sign s inf_bits
  else if is_inf y then if magnitude x =? 0 then nan_bits else with_sign s inf_bits
  else round_pack mode s (significand x * significand y) (exponent x + exponent y) false.

Definition fdiv (mode : rounding) (x y : Z) : Z :=
  let s := xorb (negative x) (negative y) in
  if is_nan x || is_nan y then nan_bits
  else if is_inf x then if is_inf y then nan_bits else with_sign s inf_bits
  else if is_inf y then with_sign s 0
  else if magnitude y =? 0 then if magnitude x =? 0 then nan_bits else with_sign s inf_bits
  else
    let n := Z.shiftl (significand x) 120 in
    let q := n / significand y in
    round_pack mode s q (exponent x - exponent y - 120) (negb (n mod significand y =? 0)).

Definition fsqrt (mode : rounding) (x : Z) : Z :=
  if is_nan x then nan_bits
  else if magnitude x =? 0 then x
  else if negative x then nan_bits
  else if is_inf x then x
  else
    let k := if Z.even (exponent x) then 120 else 121 in
    let n := Z.shiftl (significand x) k in
    let q := Z.sqrt n in
    round_pack mode false q ((exponent x - k) / 2) (negb (q * q =? n)).

(** [static_cast<double>(std::int32_t)]: exact. *)
Definition of_int32 (x : Z) : Z :=
  let v := to_signed 32 x in round_pack ToNearest (v <? 0) (Z.abs v) 0 false.

(** ** Known values *)

Example fadd_half_ulp :
  fadd ToNearest 0x3FF0000000000000 0x3CA0000000000000 = 0x3FF0000000000000 /\
  fadd Upward 0x3FF0000000000000 0x3CA0000000000000 = 0x3FF0000000000001 /\
  fadd Downward 0xBFF0000000000000 0x3FF0000000000000 = 0x8000000000000000.
Proof. vm_compute. auto. Qed.

Example fdiv_third :
  fdiv ToNearest 0x3FF0000000000000 0x4008000000000000 = 0x3FD5555555555555 /\
  fdiv Upward 0x3FF0000000000000 0x4008000000000000 = 0x3FD5555555555556.
Proof. vm_compute. auto. Qed.

Example fsqrt_two :
  fsqrt ToNearest 0x4000000000000000 = 0x3FF6A09E667F3BCD /\
  fsqrt TowardZero 0x4000000000000000 = 0x3FF6A09E667F3BCC.
Proof. vm_compute. auto. Qed.

Example of_int32_values :
  of_int32 5 = 0x4014000000000000 /\ of_int32 0xFFFFFFFF = 0xBFF0000000000000 /\
  of_int32 0x80000000 = 0xC1E0000000000000 /\ of_int32 0 = 0.
Proof. vm_compute. auto. Qed.

Example fmul_overflow :
  fmul ToNearest max_bits max_bits = inf_bits /\ fmul TowardZero max_bits max_bits = max_bits /\
  fmul Downward 1 1 = 0 /\ fmul Upward 1 1 = 1.
Proof. vm_compute. auto. Qed.

(** ** Ranges

    [epos]: a non-negative number or infinity, never a NaN (the E registers).  [apos]: a positive
    finite number (the A registers and the masked divisors). *)

Definition epos (x : Z) : Prop := 0 <= x <= inf_bits.
Definition apos (x : Z) : Prop := 0 < x < inf_bits.

Lemma overflow_range mode s : 0 < overflow mode s <= inf_bits.
Proof. by destruct mode, s. Qed.

Lemma round_pack_magnitude mode s m e sticky :
  0 <= m -> exists b, 0 <= b <= inf_bits /\ round_pack mode s m e sticky = with_sign s b.
Proof.
  intros Hm. unfold round_pack. destruct (Z.eqb_spec m 0); [by exists 0|].
  set (e' := Z.max _ _). set (q := if e' <=? e then _ else _).
  assert (0 <= q) as Hq.
  { subst q. assert (0 <= Z.shiftr m (e' - e)) by (by apply Z.shiftr_nonneg).
    assert (0 <= Z.shiftl m (e - e')) by (by apply Z.shiftl_nonneg).
    destruct (_ <=? _); [lia|]. destruct (round_away _ _ _ _ _ _); lia. }
  assert (0 <= e' + 1074) by lia. pose proof (overflow_range mode s).
  exists (if inf_bits <=? (e' + 1074) * 2 ^ 52 + q then overflow mode s
          else (e' + 1074) * 2 ^ 52 + q).
  split; [|done]. destruct (Z.leb_spec inf_bits ((e' + 1074) * 2 ^ 52 + q)); lia.
Qed.

Lemma with_sign_word64 s b : 0 <= b <= inf_bits -> word64 (with_sign s b).
Proof. unfold with_sign, sign_bit, inf_bits. intros. destruct s; split; lia. Qed.

Lemma round_pack_word64 mode s m e sticky : 0 <= m -> word64 (round_pack mode s m e sticky).
Proof.
  intros Hm. destruct (round_pack_magnitude mode s m e sticky Hm) as (b & Hb & ->).
  by apply with_sign_word64.
Qed.

Lemma round_pack_epos mode m e sticky : 0 <= m -> epos (round_pack mode false m e sticky).
Proof. intros Hm. by destruct (round_pack_magnitude mode false m e sticky Hm) as (b & Hb & ->). Qed.

Lemma significand_nonneg x : 0 <= significand x.
Proof.
  unfold significand. pose proof (Z.mod_pos_bound x (2 ^ 52) ltac:(lia)). destruct (_ =? _); lia.
Qed.

Lemma epos_decode x : epos x -> negative x = false /\ magnitude x = x /\ is_nan x = false.
Proof.
  intros Hx. unfold epos, inf_bits in Hx. assert (magnitude x = x) as Hm.
  { unfold magnitude, sign_bit. apply Z.mod_small. lia. }
  split; [|split; [done|]].
  - unfold negative. apply (testbit_high 63); [split; lia|lia].
  - unfold is_nan. rewrite Hm. apply Z.ltb_ge. unfold inf_bits. lia.
Qed.

Lemma apos_epos x : apos x -> epos x.
Proof. unfold apos, epos. lia. Qed.

Lemma inf_epos : epos inf_bits.
Proof. by unfold epos, inf_bits. Qed.

Lemma fmul_epos mode x y : epos x -> apos y -> epos (fmul mode x y).
Proof.
  intros Hx Hy. destruct (epos_decode x Hx) as (Nx & Mx & Qx).
  destruct (epos_decode y (apos_epos y Hy)) as (Ny & My & Qy). unfold fmul, is_inf.
  rewrite Nx, Ny, Qx, Qy, Mx, My. simpl.
  destruct (x =? inf_bits); [destruct (Z.eqb_spec y 0); [unfold apos in Hy; lia|apply inf_epos]|].
  destruct (Z.eqb_spec y inf_bits); [unfold apos in Hy; lia|].
  apply round_pack_epos. pose proof (significand_nonneg x). pose proof (significand_nonneg y). nia.
Qed.

Lemma fdiv_epos mode x y : epos x -> apos y -> epos (fdiv mode x y).
Proof.
  intros Hx Hy. destruct (epos_decode x Hx) as (Nx & Mx & Qx).
  destruct (epos_decode y (apos_epos y Hy)) as (Ny & My & Qy). unfold fdiv, is_inf.
  rewrite Nx, Ny, Qx, Qy, Mx, My. cbn [xorb orb].
  destruct (Z.eqb_spec y inf_bits); [unfold apos in Hy; lia|].
  destruct (x =? inf_bits); [apply inf_epos|].
  destruct (Z.eqb_spec y 0); [unfold apos in Hy; lia|].
  apply round_pack_epos. pose proof (significand_nonneg x). pose proof (significand_nonneg y).
  assert (0 <= Z.shiftl (significand x) 120) by (by apply Z.shiftl_nonneg).
  destruct (Z.eqb_spec (significand y) 0) as [->|]; [by rewrite Z.div_0_r|].
  apply Z.div_pos; lia.
Qed.

Lemma fsqrt_epos mode x : epos x -> epos (fsqrt mode x).
Proof.
  intros Hx. destruct (epos_decode x Hx) as (Nx & Mx & Qx). unfold fsqrt.
  rewrite Nx, Qx. destruct (_ =? _); [done|]. destruct (is_inf x); [done|].
  apply round_pack_epos, Z.sqrt_nonneg.
Qed.

Lemma nan_word64 : word64 nan_bits.
Proof. by split. Qed.

Lemma fadd_word64 mode x y : word64 x -> word64 y -> word64 (fadd mode x y).
Proof.
  intros Hx Hy. unfold fadd. destruct (_ || _); [apply nan_word64|].
  destruct (is_inf x); [by destruct (_ && _)|]. destruct (is_inf y); [done|].
  destruct (_ =? 0); [apply with_sign_word64; by unfold inf_bits|].
  apply round_pack_word64. lia.
Qed.

Lemma fsub_word64 mode x y : word64 x -> word64 y -> word64 (fsub mode x y).
Proof.
  intros Hx Hy. unfold fsub. destruct (is_nan y); [apply nan_word64|].
  apply fadd_word64; [done|]. apply lxor_range; [lia|done|]. by unfold sign_bit.
Qed.

Lemma of_int32_word64 x : word64 (of_int32 x).
Proof. apply round_pack_word64. lia. Qed.

Lemma epos_word64 x : epos x -> word64 x.
Proof. unfold epos, inf_bits. split; lia. Qed.

#[export] Hint Resolve fmul_epos fdiv_epos fsqrt_epos fadd_word64 fsub_word64 of_int32_word64
  apos_epos epos_word64 : word.
