(* ===== verification/Bytecode.v ===== *)
(** * The virtual machine's bytecode: compiler and interpreter

    Models the part of src/src/vm.cpp that lowers the 256 program instructions to
    [InstructionByteCode] (the [h_*] handlers behind the 256-entry dispatch table) and runs them
    ([execute_bytecode]).  Pointers into the register file are constructors of [ptr]; the two
    pointer unions of the C++ struct are one field each, and so are [target]/[shift]. *)

From S2P Require Import Prelude RandomX Float.

(** ** Data *)

Inductive InstructionType : Type :=
  | IADD_RS | IADD_M | ISUB_R | ISUB_M | IMUL_R | IMUL_M | IMULH_R | IMULH_M | ISMULH_R | ISMULH_M
  | IMUL_RCP | INEG_R | IXOR_R | IXOR_M | IROR_R | IROL_R | ISWAP_R | FSWAP_R | FADD_R | FADD_M
  | FSUB_R | FSUB_M | FSCAL_R | FMUL_R | FDIV_M | FSQRT_R | CBRANCH | CFROUND | ISTORE | NOP.

#[export] Instance InstructionType_eq_dec : EqDecision InstructionType.
Proof. solve_decision. Defined.

(** The two halves of a 128-bit float register, as bit patterns. *)
Record FloatRegister : Type := mkFloat { lo : Z; hi : Z }.

Record RegisterFile : Type := mkRegisterFile {
  r : list Z;
  f : list FloatRegister;
  e : list FloatRegister;
  a : list FloatRegister;
}.

(** [&reg_.r[i]], [&reg_.f[i]], [&reg_.e[i]], [&reg_.a[i]], the static zero, the instruction's own
    [imm], and null. *)
Inductive ptr : Type :=
  | PR (i : nat) | PF (i : nat) | PE (i : nat) | PA (i : nat) | PZero | PImm | PNull.

#[export] Instance ptr_eq_dec : EqDecision ptr.
Proof. solve_decision. Defined.

Record InstructionByteCode : Type := mkIBC {
  idst : ptr;        (* idst / fdst *)
  isrc : ptr;        (* isrc / fsrc *)
  imm : Z;           (* imm / simm, 64 bits *)
  type : InstructionType;
  shift : Z;         (* target / shift, 16 bits *)
  memMask : Z;       (* 32 bits *)
}.

Definition target (ibc : InstructionByteCode) : Z := to_signed 16 (shift ibc).
Definition ibc_init : InstructionByteCode := mkIBC PNull PNull 0 IADD_RS 0 0.

(** ** The compiler *)

Definition reg8 (x : Z) : nat := Z.to_nat (x mod 8).
Definition reg4 (x : Z) : nat := Z.to_nat (x mod 4).

(** [register_usage_[d] = i]. *)
Definition use (d : nat) (i : Z) (usage : list Z) : list Z := <[d := i]> usage.

Definition mem_level (instr : Instruction) : Z :=
  if negb (getModMem instr =? 0) then kScratchpadL1Mask else kScratchpadL2Mask.

Definition compile_mem_op (ibc : InstructionByteCode) (instr : Instruction) (dst_ptr src_ptr : ptr)
  (ty : InstructionType) (im : Z) : InstructionByteCode :=
  if negb (bool_decide (src_ptr = dst_ptr))
  then mkIBC dst_ptr src_ptr im ty (shift ibc) (mem_level instr)
  else mkIBC dst_ptr PZero im ty (shift ibc) kScratchpadL3Mask.

Definition compile_alu_reg (ibc : InstructionByteCode) (dst_ptr src_ptr : ptr)
  (ty : InstructionType) (im : Z) : InstructionByteCode :=
  if negb (bool_decide (src_ptr = dst_ptr))
  then mkIBC dst_ptr src_ptr (imm ibc) ty (shift ibc) (memMask ibc)
  else mkIBC dst_ptr PImm im ty (shift ibc) (memMask ibc).

(** The state a handler changes: [register_usage_] and its bytecode slot. *)
Definition handler : Type := Instruction -> Z -> list Z -> InstructionByteCode ->
  outcome (list Z * InstructionByteCode).

Definition set_type (ty : InstructionType) (ibc : InstructionByteCode) : InstructionByteCode :=
  mkIBC (idst ibc) (isrc ibc) (imm ibc) ty (shift ibc) (memMask ibc).

Definition h_IADD_RS : handler := fun instr i usage ibc =>
  let d := reg8 (dst instr) in
  let s := reg8 (src instr) in
  let im := if negb (d =? 5)%nat then 0 else signExtend2sCompl (getImm32 instr) in
  Done (use d i usage, mkIBC (PR d) (PR s) im IADD_RS (wrap 16 (getModShift instr)) (memMask ibc)).

Definition h_mem (ty : InstructionType) : handler := fun instr i usage ibc =>
  let d := reg8 (dst instr) in
  Done (use d i usage,
        compile_mem_op ibc instr (PR d) (PR (reg8 (src instr))) ty (signExtend2sCompl (getImm32 instr))).

Definition h_alu (ty : InstructionType) : handler := fun instr i usage ibc =>
  let d := reg8 (dst instr) in
  Done (use d i usage,
        compile_alu_reg ibc (PR d) (PR (reg8 (src instr))) ty (signExtend2sCompl (getImm32 instr))).

Definition h_rotate (ty : InstructionType) : handler := fun instr i usage ibc =>
  let d := reg8 (dst instr) in
  Done (use d i usage, compile_alu_reg ibc (PR d) (PR (reg8 (src instr))) ty (getImm32 instr)).

Definition h_mulh (ty : InstructionType) : handler := fun instr i usage ibc =>
  let d := reg8 (dst instr) in
  Done (use d i usage,
        mkIBC (PR d) (PR (reg8 (src instr))) (imm ibc) ty (shift ibc) (memMask ibc)).

Definition h_IADD_M := h_mem IADD_M.
Definition h_ISUB_R := h_alu ISUB_R.
Definition h_ISUB_M := h_mem ISUB_M.
Definition h_IMUL_R := h_alu IMUL_R.
Definition h_IMUL_M := h_mem IMUL_M.
Definition h_IMULH_R := h_mulh IMULH_R.
Definition h_IMULH_M := h_mem IMULH_M.
Definition h_ISMULH_R := h_mulh ISMULH_R.
Definition h_ISMULH_M := h_mem ISMULH_M.
Definition h_IXOR_R := h_alu IXOR_R.
Definition h_IXOR_M := h_mem IXOR_M.
Definition h_IROR_R := h_rotate IROR_R.
Definition h_IROL_R := h_rotate IROL_R.

Definition h_NOP : handler := fun _ _ usage ibc => Done (usage, set_type NOP ibc).

Definition h_IMUL_RCP : handler := fun instr i usage ibc =>
  let divisor := getImm32 instr in
  if negb (isZeroOrPowerOf2_64 divisor) then
    let d := reg8 (dst instr) in
    rcp ← randomx_reciprocal divisor;
    Done (use d i usage, mkIBC (PR d) PImm rcp IMUL_R (shift ibc) (memMask ibc))
  else Done (usage, set_type NOP ibc).

Definition h_INEG_R : handler := fun instr i usage ibc =>
  let d := reg8 (dst instr) in
  Done (use d i usage, mkIBC (PR d) (isrc ibc) (imm ibc) INEG_R (shift ibc) (memMask ibc)).

Definition h_ISWAP_R : handler := fun instr i usage ibc =>
  let d := reg8 (dst instr) in
  let s := reg8 (src instr) in
  if negb (s =? d)%nat
  then Done (use s i (use d i usage),
             mkIBC (PR d) (PR s) (imm ibc) ISWAP_R (shift ibc) (memMask ibc))
  else Done (usage, set_type NOP ibc).

Definition h_FSWAP_R : handler := fun instr _ usage ibc =>
  let d := reg8 (dst instr) in
  let p := if (d <? 4)%nat then PF d else PE (d - 4) in
  Done (usage, mkIBC p (isrc ibc) (imm ibc) FSWAP_R (shift ibc) (memMask ibc)).

(** FADD_R, FSUB_R: an F register and an A register. *)
Definition h_fa (ty : InstructionType) : handler := fun instr _ usage ibc =>
  Done (usage, mkIBC (PF (reg4 (dst instr))) (PA (reg4 (src instr))) (imm ibc) ty (shift ibc)
                 (memMask ibc)).

(** FADD_M, FSUB_M, FDIV_M: a float register and a scratchpad operand. *)
Definition h_fmem (p : nat -> ptr) (ty : InstructionType) : handler := fun instr _ usage ibc =>
  Done (usage, mkIBC (p (reg4 (dst instr))) (PR (reg8 (src instr)))
                 (signExtend2sCompl (getImm32 instr)) ty (shift ibc) (mem_level instr)).

Definition h_FADD_R := h_fa FADD_R.
Definition h_FADD_M := h_fmem PF FADD_M.
Definition h_FSUB_R := h_fa FSUB_R.
Definition h_FSUB_M := h_fmem PF FSUB_M.
Definition h_FDIV_M := h_fmem PE FDIV_M.

Definition h_FSCAL_R : handler := fun instr _ usage ibc =>
  Done (usage, mkIBC (PF (reg4 (dst instr))) (isrc ibc) (imm ibc) FSCAL_R (shift ibc) (memMask ibc)).
Definition h_FMUL_R : handler := fun instr _ usage ibc =>
  Done (usage, mkIBC (PE (reg4 (dst instr))) (PA (reg4 (src instr))) (imm ibc) FMUL_R (shift ibc)
                 (memMask ibc)).
Definition h_FSQRT_R : handler := fun instr _ usage ibc =>
  Done (usage, mkIBC (PE (reg4 (dst instr))) (isrc ibc) (imm ibc) FSQRT_R (shift ibc) (memMask ibc)).

Definition h_CBRANCH : handler := fun instr i usage ibc =>
  let creg := reg8 (dst instr) in
  let tgt := wrap 16 (usage !!! creg) in
  let sh := getModCond instr + 8 in
  let im := Z.lor (signExtend2sCompl (getImm32 instr)) (shl64 1 sh) in
  let im := if 0 <? sh then Z.land im (not64 (shl64 1 (sh - 1))) else im in
  Done (replicate 8 i, mkIBC (PR creg) (isrc ibc) im CBRANCH tgt (wrap 32 (Z.shiftl 255 sh))).

Definition h_CFROUND : handler := fun instr _ usage ibc =>
  Done (usage, mkIBC (idst ibc) (PR (reg8 (src instr))) (Z.land (getImm32 instr) 63) CFROUND
                 (shift ibc) (memMask ibc)).

Definition h_ISTORE : handler := fun instr _ usage ibc =>
  let mask := if getModCond instr <? 14 then mem_level instr else kScratchpadL3Mask in
  Done (usage, mkIBC (PR (reg8 (dst instr))) (PR (reg8 (src instr)))
                 (signExtend2sCompl (getImm32 instr)) ISTORE (shift ibc) mask).

(** [kCompileHandlers]: every handler repeated [RANDOMX_FREQ_*] times. *)
Definition weights : list (handler * nat) :=
  [(h_IADD_RS, 16); (h_IADD_M, 7); (h_ISUB_R, 16); (h_ISUB_M, 7); (h_IMUL_R, 16); (h_IMUL_M, 4);
   (h_IMULH_R, 4); (h_IMULH_M, 1); (h_ISMULH_R, 4); (h_ISMULH_M, 1); (h_IMUL_RCP, 8);
   (h_INEG_R, 2); (h_IXOR_R, 15); (h_IXOR_M, 5); (h_IROR_R, 8); (h_IROL_R, 2); (h_ISWAP_R, 4);
   (h_FSWAP_R, 4); (h_FADD_R, 16); (h_FADD_M, 5); (h_FSUB_R, 16); (h_FSUB_M, 5); (h_FSCAL_R, 6);
   (h_FMUL_R, 32); (h_FDIV_M, 4); (h_FSQRT_R, 6); (h_CBRANCH, 25); (h_CFROUND, 1); (h_ISTORE, 16);
   (h_NOP, 0)]%nat.

Definition kCompileHandlers : list handler := concat ((fun '(h, n) => replicate n h) <$> weights).

Definition compile_instruction (instr : Instruction) (i : Z) (usage : list Z)
  (ibc : InstructionByteCode) : outcome (list Z * InstructionByteCode) :=
  h ← at_index kCompileHandlers (opcode instr);
  h instr i usage ibc.

(** One turn of the loop of [compile_program]. *)
Definition compile_step (program : list Instruction) (st : list Z * list InstructionByteCode) (i : Z)
  : outcome (list Z * list InstructionByteCode) :=
  let '(usage, bytecode) := st in
  instr ← at_index program i;
  ibc ← at_index bytecode i;
  '(usage, ibc) ← compile_instruction instr i usage ibc;
  Done (usage, <[Z.to_nat i := ibc]> bytecode).

Definition compile_program (program : list Instruction) (bytecode : list InstructionByteCode)
  : outcome (list Z * list InstructionByteCode) :=
  ofoldl (compile_step program) (replicate 8 (-1), bytecode) (seqZ 0 256).

(** ** The interpreter *)

(** The state [execute_bytecode] changes: registers, scratchpad, the cached rounding mode and the
    thread's floating-point rounding direction. *)
Record xstate : Type := mkX {
  reg_ : RegisterFile;
  scratchpad_ : list Z;
  last_rounding_mode_ : Z;
  fe_round : rounding;
}.

Definition mantissaSize : Z := 52.
Definition dynamicMantissaMask : Z := 2 ^ (mantissaSize + 4) - 1.

Definition rounding_of (mode : Z) : rounding :=
  if mode =? 1 then Downward else if mode =? 2 then Upward
  else if mode =? 3 then TowardZero else ToNearest.

Definition rx_set_rounding_mode (mode : Z) (st : xstate) : xstate :=
  let mode := Z.land mode 3 in
  if mode =? last_rounding_mode_ st then st
  else mkX (reg_ st) (scratchpad_ st) mode (rounding_of mode).

Definition unsigned32ToSigned2sCompl (x : Z) : Z := of_int32 x.

(** Loads through a pointer. *)
Definition load_int (st : xstate) (ibc : InstructionByteCode) (p : ptr) : outcome Z :=
  match p with
  | PR i => at_index (r (reg_ st)) (Z.of_nat i)
  | PZero => Done 0
  | PImm => Done (imm ibc)
  | _ => UB
  end.

Definition load_float (st : xstate) (p : ptr) : outcome FloatRegister :=
  match p with
  | PF i => at_index (f (reg_ st)) (Z.of_nat i)
  | PE i => at_index (e (reg_ st)) (Z.of_nat i)
  | PA i => at_index (a (reg_ st)) (Z.of_nat i)
  | _ => UB
  end.

Definition set_reg_file (rf : RegisterFile) (st : xstate) : xstate :=
  mkX rf (scratchpad_ st) (last_rounding_mode_ st) (fe_round st).

Definition set_at {A} (l : list A) (i : nat) (x : A) : outcome (list A) :=
  if (i <? length l)%nat then Done (<[i := x]> l) else UB.

Definition store_int (p : ptr) (x : Z) (st : xstate) : outcome xstate :=
  let rf := reg_ st in
  match p with
  | PR i => l ← set_at (r rf) i x; Done (set_reg_file (mkRegisterFile l (f rf) (e rf) (a rf)) st)
  | _ => UB
  end.

Definition store_float (p : ptr) (x : FloatRegister) (st : xstate) : outcome xstate :=
  let rf := reg_ st in
  match p with
  | PF i => l ← set_at (f rf) i x; Done (set_reg_file (mkRegisterFile (r rf) l (e rf) (a rf)) st)
  | PE i => l ← set_at (e rf) i x; Done (set_reg_file (mkRegisterFile (r rf) (f rf) l (a rf)) st)
  | PA i => l ← set_at (a rf) i x; Done (set_reg_file (mkRegisterFile (r rf) (f rf) (e rf) l) st)
  | _ => UB
  end.

Definition getScratchpadAddress (ibc : InstructionByteCode) (st : xstate) : outcome Z :=
  s ← load_int st ibc (isrc ibc);
  Done (Z.land (wrap 32 (wrap 32 s + wrap 32 (imm ibc))) (memMask ibc)).

Definition load64 (st : xstate) (addr : Z) : outcome Z := read_le (scratchpad_ st) addr 8.
Definition load32 (st : xstate) (addr : Z) : outcome Z := read_le (scratchpad_ st) addr 4.
Definition store64 (addr x : Z) (st : xstate) : outcome xstate :=
  m ← write_bytes (scratchpad_ st) addr (le_bytes 8 x);
  Done (mkX (reg_ st) m (last_rounding_mode_ st) (fe_round st)).

(** [*ibc.idst op= *ibc.isrc]. *)
Definition alu (op : Z -> Z -> Z) (ibc : InstructionByteCode) (st : xstate) : outcome xstate :=
  d ← load_int st ibc (idst ibc);
  s ← load_int st ibc (isrc ibc);
  store_int (idst ibc) (op d s) st.

(** [*ibc.idst op= load64(getScratchpadAddress(ibc, scratchpad))]. *)
Definition alu_mem (op : Z -> Z -> Z) (ibc : InstructionByteCode) (st : xstate) : outcome xstate :=
  d ← load_int st ibc (idst ibc);
  addr ← getScratchpadAddress ibc st;
  s ← load64 st addr;
  store_int (idst ibc) (op d s) st.

(** The same on both halves of a float register. *)
Definition flt (op : Z -> Z -> Z) (ibc : InstructionByteCode) (s : FloatRegister) (st : xstate)
  : outcome xstate :=
  d ← load_float st (idst ibc);
  store_float (idst ibc) (mkFloat (op (lo d) (lo s)) (op (hi d) (hi s))) st.

(** The two signed 32-bit integers at a scratchpad address, as doubles. *)
Definition load_int_pair (st : xstate) (addr : Z) : outcome FloatRegister :=
  l ← load32 st addr;
  h ← load32 st (addr + 4);
  Done (mkFloat (unsigned32ToSigned2sCompl l) (unsigned32ToSigned2sCompl h)).

Definition mask_float (e_mask : Z * Z) (x : FloatRegister) : FloatRegister :=
  mkFloat (Z.lor (Z.land (lo x) dynamicMantissaMask) e_mask.1)
          (Z.lor (Z.land (hi x) dynamicMantissaMask) e_mask.2).

Definition scale_bits (x : Z) : Z := Z.lxor x 0x80F0000000000000.

(** One instruction.  The first component is [pc] after the [switch], before [++pc]. *)
Definition execute_one (e_mask : Z * Z) (ibc : InstructionByteCode) (pc : Z) (st : xstate)
  : outcome (Z * xstate) :=
  let next (m : outcome xstate) := st ← m; Done (pc, st) in
  let mode := fe_round st in
  match type ibc with
  | IADD_RS => next (alu (fun d s => add64 d (add64 (shl64 s (shift ibc)) (imm ibc))) ibc st)
  | IADD_M => next (alu_mem add64 ibc st)
  | ISUB_R => next (alu sub64 ibc st)
  | ISUB_M => next (alu_mem sub64 ibc st)
  | IMUL_R => next (alu mul64 ibc st)
  | IMUL_M => next (alu_mem mul64 ibc st)
  | IMULH_R => next (alu mulh ibc st)
  | IMULH_M => next (alu_mem mulh ibc st)
  | ISMULH_R => next (alu smulh ibc st)
  | ISMULH_M => next (alu_mem smulh ibc st)
  | IMUL_RCP => Done (pc, st)
  | INEG_R => next (d ← load_int st ibc (idst ibc); store_int (idst ibc) (add64 (not64 d) 1) st)
  | IXOR_R => next (alu Z.lxor ibc st)
  | IXOR_M => next (alu_mem Z.lxor ibc st)
  | IROR_R => next (alu (fun d s => rotr64 d (Z.land s 63)) ibc st)
  | IROL_R => next (alu (fun d s => rotl64 d (Z.land s 63)) ibc st)
  | ISWAP_R =>
      next (temp ← load_int st ibc (isrc ibc);
            d ← load_int st ibc (idst ibc);
            st ← store_int (isrc ibc) d st;
            store_int (idst ibc) temp st)
  | FSWAP_R => next (d ← load_float st (idst ibc); store_float (idst ibc) (mkFloat (hi d) (lo d)) st)
  | FADD_R => next (s ← load_float st (isrc ibc); flt (fadd mode) ibc s st)
  | FADD_M => next (addr ← getScratchpadAddress ibc st; s ← load_int_pair st addr;
                    flt (fadd mode) ibc s st)
  | FSUB_R => next (s ← load_float st (isrc ibc); flt (fsub mode) ibc s st)
  | FSUB_M => next (addr ← getScratchpadAddress ibc st; s ← load_int_pair st addr;
                    flt (fsub mode) ibc s st)
  | FSCAL_R =>
      next (d ← load_float st (idst ibc);
            store_float (idst ibc) (mkFloat (scale_bits (lo d)) (scale_bits (hi d))) st)
  | FMUL_R => next (s ← load_float st (isrc ibc); flt (fmul mode) ibc s st)
  | FDIV_M => next (addr ← getScratchpadAddress ibc st; s ← load_int_pair st addr;
                    flt (fdiv mode) ibc (mask_float e_mask s) st)
  | FSQRT_R =>
      next (d ← load_float st (idst ibc);
            store_float (idst ibc) (mkFloat (fsqrt mode (lo d)) (fsqrt mode (hi d))) st)
  | CBRANCH =>
      d ← load_int st ibc (idst ibc);
      st ← store_int (idst ibc) (add64 d (imm ibc)) st;
      Done (if Z.land (add64 d (imm ibc)) (memMask ibc) =? 0 then target ibc else pc, st)
  | CFROUND =>
      next (s ← load_int st ibc (isrc ibc);
            Done (rx_set_rounding_mode (rotr64 s (wrap 32 (imm ibc)) mod 4) st))
  | ISTORE =>
      next (d ← load_int st ibc (idst ibc);
            s ← load_int st ibc (isrc ibc);
            store64 (Z.land (add64 d (imm ibc)) (memMask ibc)) s st)
  | NOP => Done (pc, st)
  end.

(** [for (int pc = 0; pc < 256; ++pc)] from a given [pc]. *)
Fixpoint execute_from (fuel : nat) (e_mask : Z * Z) (bytecode : list InstructionByteCode)
  (pc : Z) (st : xstate) : outcome xstate :=
  if pc <? 256 then
    match fuel with
    | O => NoFuel
    | S fuel =>
        ibc ← at_index bytecode pc;
        '(pc, st) ← execute_one e_mask ibc pc st;
        execute_from fuel e_mask bytecode (pc + 1) st
    end
  else Done st.

(** Every branch is taken at most twice in a row ([execute_bytecode_total] below), so the 256
    instructions take at most 3 * 256 turns. *)
Definition execute_fuel : nat := 768.
Definition execute_bytecode (e_mask : Z * Z) (bytecode : list InstructionByteCode) (st : xstate)
  : outcome xstate :=
  execute_from execute_fuel e_mask bytecode 0 st.
