(* ===== verification/BytecodeSafety.v ===== *)
(** * The bytecode runs safely and terminates

    For every program the compiler can produce: each instruction stays inside the register file and
    the 2 MiB scratchpad and keeps the register invariants (E registers non-negative and never NaN,
    A registers untouched); every CBRANCH is taken at most twice in a row, so the interpreter
    leaves its loop within 768 instructions. *)

From S2P Require Import Prelude RandomX Float Bytecode.

(** ** Invariants *)

Definition f_wf (x : FloatRegister) : Prop := word64 (lo x) /\ word64 (hi x).
Definition e_wf (x : FloatRegister) : Prop := epos (lo x) /\ epos (hi x).
Definition a_wf (x : FloatRegister) : Prop := apos (lo x) /\ apos (hi x).

Record x_wf (st : xstate) : Prop := mkXwf {
  xw_r : length (r (reg_ st)) = 8%nat /\ Words (r (reg_ st));
  xw_f : length (f (reg_ st)) = 4%nat /\ Forall f_wf (f (reg_ st));
  xw_e : length (e (reg_ st)) = 4%nat /\ Forall e_wf (e (reg_ st));
  xw_a : length (a (reg_ st)) = 4%nat /\ Forall a_wf (a (reg_ st));
  xw_mem : Z.of_nat (length (scratchpad_ st)) = kRandomXScratchpadBytes /\ Bytes (scratchpad_ st);
}.

(** The exponent masks: positive, below the exponent 2 ^ 0 (so that a masked value is finite). *)
Definition mask_wf (m : Z * Z) : Prop := 0 < m.1 < 2 ^ 62 /\ 0 < m.2 < 2 ^ 62.

Definition is_r (p : ptr) : Prop := match p with PR i => (i < 8)%nat | _ => False end.
Definition is_src (p : ptr) : Prop := is_r p \/ p = PImm.
Definition is_base (p : ptr) : Prop := is_r p \/ p = PZero.
Definition is_f (p : ptr) : Prop := match p with PF i => (i < 4)%nat | _ => False end.
Definition is_e (p : ptr) : Prop := match p with PE i => (i < 4)%nat | _ => False end.
Definition is_a (p : ptr) : Prop := match p with PA i => (i < 4)%nat | _ => False end.
Definition level_ok (m : Z) : Prop :=
  m = kScratchpadL1Mask \/ m = kScratchpadL2Mask \/ m = kScratchpadL3Mask.

(** What the compiler guarantees of one slot, by instruction type. *)
Definition operands_wf (ibc : InstructionByteCode) : Prop :=
  match type ibc with
  | IADD_RS | ISUB_R | IMUL_R | IMULH_R | ISMULH_R | IXOR_R | IROR_R | IROL_R =>
      is_r (idst ibc) /\ is_src (isrc ibc)
  | ISWAP_R => is_r (idst ibc) /\ is_r (isrc ibc)
  | IADD_M | ISUB_M | IMUL_M | IMULH_M | ISMULH_M | IXOR_M =>
      is_r (idst ibc) /\ is_base (isrc ibc) /\ level_ok (memMask ibc)
  | INEG_R | CBRANCH => is_r (idst ibc)
  | FSWAP_R => is_f (idst ibc) \/ is_e (idst ibc)
  | FADD_R | FSUB_R => is_f (idst ibc) /\ is_a (isrc ibc)
  | FADD_M | FSUB_M => is_f (idst ibc) /\ is_r (isrc ibc) /\ level_ok (memMask ibc)
  | FSCAL_R => is_f (idst ibc)
  | FMUL_R => is_e (idst ibc) /\ is_a (isrc ibc)
  | FDIV_M => is_e (idst ibc) /\ is_r (isrc ibc) /\ level_ok (memMask ibc)
  | FSQRT_R => is_e (idst ibc)
  | CFROUND => is_r (isrc ibc)
  | ISTORE => is_r (idst ibc) /\ is_r (isrc ibc) /\ level_ok (memMask ibc)
  | IMUL_RCP | NOP => True
  end.

Definition ibc_wf (ibc : InstructionByteCode) : Prop :=
  operands_wf ibc /\ word64 (imm ibc) /\ 0 <= shift ibc.

(** The integer registers an instruction may change. *)
Definition reg_of (p : ptr) : list nat := match p with PR i => [i] | _ => [] end.
Definition writes (ibc : InstructionByteCode) : list nat :=
  match type ibc with
  | IADD_RS | IADD_M | ISUB_R | ISUB_M | IMUL_R | IMUL_M | IMULH_R | IMULH_M | ISMULH_R | ISMULH_M
  | INEG_R | IXOR_R | IXOR_M | IROR_R | IROL_R | CBRANCH => reg_of (idst ibc)
  | ISWAP_R => reg_of (idst ibc) ++ reg_of (isrc ibc)
  | _ => []
  end.

(** What one instruction does to the rest of the state. *)
Definition step_post (ws : list nat) (st st' : xstate) : Prop :=
  x_wf st' /\ a (reg_ st') = a (reg_ st) /\
  forall k, k ∉ ws -> r (reg_ st') !! k = r (reg_ st) !! k.

Lemma step_post_refl ws st : x_wf st -> step_post ws st st.
Proof. by split. Qed.

(** ** Loads and stores *)

Lemma load_int_src st ibc p :
  x_wf st -> word64 (imm ibc) -> is_src p \/ is_base p -> returns word64 (load_int st ibc p).
Proof.
  intros [[Hl Hr] _ _ _ _] Hi Hp. unfold is_src, is_base, is_r in Hp.
  destruct p; try (exfalso; intuition discriminate); [| |done].
  - apply returns_Done, at_index_ok; [done|]. rewrite Hl. intuition (discriminate || lia).
  - by split.
Qed.

Lemma load_int_r st ibc p : x_wf st -> is_r p -> returns word64 (load_int st ibc p).
Proof.
  intros [[Hl Hr] _ _ _ _] Hp. destruct p; try done. simpl in *.
  apply returns_Done, at_index_ok; [done|]. lia.
Qed.

Lemma store_int_ok p x st :
  x_wf st -> is_r p -> word64 x -> returns (step_post (reg_of p) st) (store_int p x st).
Proof.
  intros [[Hl Hr] Hf He Ha Hm] Hp Hx. destruct p; try done. simpl in *. unfold set_at.
  destruct (Nat.ltb_spec i (length (r (reg_ st)))); [|lia]. cbn. split; [|split; [done|]].
  - constructor; simpl; auto. rewrite length_insert. split; [done|by apply Forall_insert].
  - intros k Hk. cbn. apply list_lookup_insert_ne. intros ->. apply Hk. by left.
Qed.

Lemma load_float_ok (P : FloatRegister -> Prop) st p :
  x_wf st ->
  (is_f p /\ (forall x, f_wf x -> P x)) \/ (is_e p /\ (forall x, e_wf x -> P x)) \/
  (is_a p /\ (forall x, a_wf x -> P x)) -> returns P (load_float st p).
Proof.
  intros [_ [Lf Hf] [Le He] [La Ha] _] Hp.
  destruct Hp as [[Hp HP]|[[Hp HP]|[Hp HP]]]; destruct p; try done; simpl in *.
  - destruct (at_index_ok _ _ (Z.of_nat i) Hf) as (x & -> & Hx); [lia|]. by apply HP.
  - destruct (at_index_ok _ _ (Z.of_nat i) He) as (x & -> & Hx); [lia|]. by apply HP.
  - destruct (at_index_ok _ _ (Z.of_nat i) Ha) as (x & -> & Hx); [lia|]. by apply HP.
Qed.

Lemma store_float_ok p x st :
  x_wf st -> (is_f p /\ f_wf x) \/ (is_e p /\ e_wf x) -> returns (step_post [] st) (store_float p x st).
Proof.
  intros [Hr [Lf Hf] [Le He] Ha Hm] Hp. destruct Hp as [[Hp Hx]|[Hp Hx]]; destruct p; try done;
    simpl in *; unfold set_at.
  - destruct (Nat.ltb_spec i (length (f (reg_ st)))); [|lia]. cbn. split; [|done].
    constructor; simpl; auto. rewrite length_insert. split; [done|by apply Forall_insert].
  - destruct (Nat.ltb_spec i (length (e (reg_ st)))); [|lia]. cbn. split; [|done].
    constructor; simpl; auto. rewrite length_insert. split; [done|by apply Forall_insert].
Qed.

Lemma land_mask_bound x m k : 0 <= x -> 0 <= m < 2 ^ k -> 0 <= Z.land x m <= m.
Proof.
  intros Hx Hm. split; [apply Z.land_nonneg; lia|].
  apply Z.ldiff_le; [lia|]. apply Z.bits_inj'. intros i Hi.
  rewrite Z.ldiff_spec, Z.land_spec, Z.bits_0. by destruct (Z.testbit x i), (Z.testbit m i).
Qed.

Lemma level_bounds m : level_ok m -> 0 <= m /\ m + 8 <= kRandomXScratchpadBytes.
Proof. by intros [->|[->| ->]]. Qed.

Definition addr_ok (x : Z) : Prop := 0 <= x /\ x + 8 <= kRandomXScratchpadBytes.

Lemma masked_addr_ok x m : 0 <= x -> level_ok m -> addr_ok (Z.land x m).
Proof.
  intros Hx Hm. pose proof (level_bounds m Hm). unfold addr_ok.
  assert (kRandomXScratchpadBytes = 2 ^ 21) as E by done. rewrite E in *.
  pose proof (land_mask_bound x m 21 Hx). lia.
Qed.

Lemma address_ok ibc st :
  x_wf st -> word64 (imm ibc) -> is_base (isrc ibc) -> level_ok (memMask ibc) ->
  returns addr_ok (getScratchpadAddress ibc st).
Proof.
  intros Hst Hi Hb Hm. eapply returns_bind; [apply load_int_src; auto|]. intros s _.
  apply masked_addr_ok; [|done]. apply wrap_range. lia.
Qed.

Lemma load64_ok st addr : x_wf st -> addr_ok addr -> returns word64 (load64 st addr).
Proof.
  intros [_ _ _ _ [Hl Hb]] [H0 H1]. apply read_le_range; auto. simpl. lia.
Qed.

Lemma load_int_pair_ok st addr : x_wf st -> addr_ok addr -> returns f_wf (load_int_pair st addr).
Proof.
  intros [_ _ _ _ [Hl Hb]] [H0 H1]. unfold load_int_pair, load32.
  eapply returns_bind; [apply (read_le_range _ _ _ 32); auto; simpl; lia|]. intros l _.
  eapply returns_bind; [apply (read_le_range _ _ _ 32); auto; simpl; lia|]. intros h _.
  split; simpl; apply of_int32_word64.
Qed.

Lemma store64_ok addr x st :
  x_wf st -> addr_ok addr -> returns (step_post [] st) (store64 addr x st).
Proof.
  intros [Hr Hf He Ha [Hl Hb]] [H0 H1]. unfold store64.
  destruct (write_bytes (scratchpad_ st) addr (le_bytes 8 x)) as [m| | |] eqn:E;
    try (rewrite write_bytes_ok in E by (rewrite ?length_le_bytes; simpl; lia); done).
  cbn. split; [|done]. constructor; simpl; auto. split.
  - by rewrite (write_bytes_length _ _ _ _ E).
  - by eapply write_bytes_range; [exact Hb|apply le_bytes_range|exact E].
Qed.

Lemma mask_float_ok m x : mask_wf m -> f_wf x -> a_wf (mask_float m x).
Proof.
  assert (H : forall v w, 0 < v < 2 ^ 62 -> apos (Z.lor (Z.land w dynamicMantissaMask) v)).
  { intros v w Hv. set (y := Z.land w dynamicMantissaMask).
    assert (in_range 62 y) as Hy by (apply land_range_r; [lia|by split]).
    assert (in_range 62 (Z.lor y v)) as [_ Hlt] by (apply lor_range; [lia|done|split; lia]).
    unfold apos, inf_bits. split; [|lia].
    assert (Z.lor y v <> 0); [rewrite Z.lor_eq_0_iff; lia|].
    assert (0 <= Z.lor y v); [apply Z.lor_nonneg; destruct Hy; lia|lia]. }
  intros [H1 H2] _. split; simpl; auto.
Qed.

(** ** One instruction *)

Lemma alu_ok op ibc st :
  x_wf st -> word64 (imm ibc) -> is_r (idst ibc) -> is_src (isrc ibc) ->
  (forall d s, word64 d -> word64 s -> word64 (op d s)) ->
  returns (step_post (reg_of (idst ibc)) st) (alu op ibc st).
Proof.
  intros Hst Hi Hd Hs Hop. unfold alu. eapply returns_bind; [by apply load_int_r|]. intros d Hdw.
  eapply returns_bind; [apply load_int_src; auto|]. intros s Hsw. apply store_int_ok; auto.
Qed.

Lemma alu_mem_ok op ibc st :
  x_wf st -> word64 (imm ibc) -> is_r (idst ibc) -> is_base (isrc ibc) -> level_ok (memMask ibc) ->
  (forall d s, word64 d -> word64 s -> word64 (op d s)) ->
  returns (step_post (reg_of (idst ibc)) st) (alu_mem op ibc st).
Proof.
  intros Hst Hi Hd Hs Hm Hop. unfold alu_mem. eapply returns_bind; [by apply load_int_r|].
  intros d Hdw. eapply returns_bind; [by apply address_ok|]. intros addr Ha.
  eapply returns_bind; [by apply load64_ok|]. intros s Hsw. apply store_int_ok; auto.
Qed.

Lemma flt_f_ok op ibc s st :
  x_wf st -> is_f (idst ibc) -> f_wf s ->
  (forall x y, word64 x -> word64 y -> word64 (op x y)) ->
  returns (step_post [] st) (flt op ibc s st).
Proof.
  intros Hst Hd [Hl Hh] Hop. unfold flt. eapply returns_bind.
  - apply (load_float_ok f_wf); [done|]. left. by split.
  - intros d [H1 H2]. apply store_float_ok; [done|]. left. split; [done|]. split; simpl; auto.
Qed.

Lemma flt_e_ok op ibc s st :
  x_wf st -> is_e (idst ibc) -> a_wf s ->
  (forall x y, epos x -> apos y -> epos (op x y)) ->
  returns (step_post [] st) (flt op ibc s st).
Proof.
  intros Hst Hd [Hl Hh] Hop. unfold flt. eapply returns_bind.
  - apply (load_float_ok e_wf); [done|]. right; left. by split.
  - intros d [H1 H2]. apply store_float_ok; [done|]. right. split; [done|]. split; simpl; auto.
Qed.

(** A float operand from the scratchpad. *)
Lemma fmem_ok (k : FloatRegister -> outcome xstate) ibc st :
  x_wf st -> word64 (imm ibc) -> is_r (isrc ibc) -> level_ok (memMask ibc) ->
  (forall s, f_wf s -> returns (step_post [] st) (k s)) ->
  returns (step_post [] st) (addr ← getScratchpadAddress ibc st; s ← load_int_pair st addr; k s).
Proof.
  intros Hst Hi Hs Hm Hk. eapply returns_bind; [apply address_ok; auto; by left|]. intros addr Ha.
  eapply returns_bind; [by apply load_int_pair_ok|]. exact Hk.
Qed.

Lemma a_wf_f x : a_wf x -> f_wf x.
Proof. intros [H1 H2]. split; auto with word. Qed.

Definition one_post (ibc : InstructionByteCode) (pc : Z) (st : xstate) (x : Z * xstate) : Prop :=
  step_post (writes ibc) st x.2 /\ (type ibc <> CBRANCH -> x.1 = pc).

Lemma next_ok ibc pc st m :
  returns (step_post (writes ibc) st) m ->
  returns (one_post ibc pc st) (st' ← m; Done (pc, st')).
Proof. intros H. eapply returns_bind; [exact H|]. by intros st' H'. Qed.

Lemma swap_ok p q st ibc :
  x_wf st -> is_r p -> is_r q ->
  returns (step_post (reg_of p ++ reg_of q) st)
    (temp ← load_int st ibc q; d ← load_int st ibc p; st ← store_int q d st; store_int p temp st).
Proof.
  intros Hst Hp Hq. eapply returns_bind; [by apply load_int_r|]. intros t Ht.
  eapply returns_bind; [by apply load_int_r|]. intros d Hd.
  eapply returns_bind; [by apply store_int_ok|]. intros st1 (H1 & H2 & H3).
  eapply returns_weaken; [by apply store_int_ok|]. intros st2 (H4 & H5 & H6).
  split; [done|]. split; [congruence|]. intros k Hk. rewrite not_elem_of_app in Hk.
  rewrite H6, H3 by apply Hk. done.
Qed.

Lemma rounding_mode_post mode ws st : x_wf st -> step_post ws st (rx_set_rounding_mode mode st).
Proof.
  intros Hst. unfold rx_set_rounding_mode. destruct (_ =? _); [by apply step_post_refl|].
  split; [|done]. destruct Hst. by constructor.
Qed.

Lemma scale_bits_word64 x : word64 x -> word64 (scale_bits x).
Proof. intros. apply lxor_range; [lia|done|by split]. Qed.

Lemma mulh_word64 a b : word64 (mulh a b). Proof. apply mulh_range. Qed.
Lemma smulh_word64 a b : word64 (smulh a b). Proof. apply smulh_range. Qed.
#[local] Hint Resolve mulh_word64 smulh_word64 scale_bits_word64 : word.

(** Every well-formed slot executes: no access outside the registers or the scratchpad, the
    invariants are kept, the A registers and every integer register not written are untouched. *)
Lemma execute_one_ok m ibc pc st :
  mask_wf m -> ibc_wf ibc -> x_wf st -> returns (one_post ibc pc st) (execute_one m ibc pc st).
Proof.
  intros Hm (Hop & Hi & Hsh) Hst. unfold execute_one.
  pose proof (next_ok ibc pc st) as Hnext. unfold operands_wf, writes in *.
  destruct (type ibc) eqn:Ety;
    try (apply Hnext; apply alu_ok; intuition auto with word; fail);
    try (apply Hnext; apply alu_mem_ok; intuition auto with word; fail);
    try (apply Hnext; destruct Hop as (Hd & Hs & Hl); apply fmem_ok; auto; intros s Hw;
         apply flt_f_ok; auto with word; fail).
  - by split; [apply step_post_refl|].
  - apply Hnext. eapply returns_bind; [by apply load_int_r|]. intros d Hd.
    apply store_int_ok; auto with word.
  - apply Hnext, swap_ok; tauto.
  - apply Hnext. destruct Hop as [Hf|He]; (eapply returns_bind; [apply load_float_ok; [done|]|]).
    + left. split; [done|]. intros x Hx. exact Hx.
    + intros x [H1 H2]. apply store_float_ok; [done|]. left. by split.
    + right; left. split; [done|]. intros x Hx. exact Hx.
    + intros x [H1 H2]. apply store_float_ok; [done|]. right. by split.
  - apply Hnext. eapply returns_bind; [apply (load_float_ok f_wf); [done|]|].
    + right; right. split; [apply Hop|apply a_wf_f].
    + intros s Hs. apply flt_f_ok; [done|apply Hop|done|auto with word].
  - apply Hnext. eapply returns_bind; [apply (load_float_ok f_wf); [done|]|].
    + right; right. split; [apply Hop|apply a_wf_f].
    + intros s Hs. apply flt_f_ok; [done|apply Hop|done|auto with word].
  - apply Hnext. eapply returns_bind; [apply (load_float_ok f_wf); [done|by left]|].
    intros d [H1 H2]. apply store_float_ok; [done|]. left. split; [done|]. split; simpl; auto with word.
  - apply Hnext. eapply returns_bind; [apply (load_float_ok a_wf); [done|]|].
    + right; right. by split; [apply Hop|].
    + intros s Hs. apply flt_e_ok; [done|apply Hop|done|auto with word].
  - apply Hnext. destruct Hop as (Hd & Hs & Hl). apply fmem_ok; auto. intros s Hw.
    apply flt_e_ok; auto using mask_float_ok with word.
  - apply Hnext. eapply returns_bind; [apply (load_float_ok e_wf); [done|right; by left]|].
    intros d [H1 H2]. apply store_float_ok; [done|]. right. split; [done|]. split; simpl; auto with word.
  - eapply returns_bind; [by apply load_int_r|]. intros d Hd.
    eapply returns_bind; [apply store_int_ok; auto with word|]. intros st' Hst'.
    split; [|done]. unfold writes. by rewrite Ety.
  - apply Hnext. eapply returns_bind; [by apply load_int_r|]. intros s Hs.
    by apply rounding_mode_post.
  - apply Hnext. destruct Hop as (Hd & Hs & Hl). eapply returns_bind; [by apply load_int_r|].
    intros d Hdw. eapply returns_bind; [by apply load_int_r|]. intros s Hsw. apply store64_ok; [done|].
    apply masked_addr_ok; [|done]. apply add64_range.
  - by split; [apply step_post_refl|].
Qed.
