(* ===== verification/BytecodeTermination.v ===== *)
(** * Every compiled program leaves the interpreter's loop

    The compiler records for every integer register where it was last written; CBRANCH jumps back
    to just after that place.  [compiled] is what this gives for a whole program; from it,
    [execute_bytecode_total] bounds the run by 768 instructions. *)

From S2P Require Import Prelude RandomX Float Bytecode BytecodeSafety.

(** ** The arithmetic of CBRANCH

    The immediate has bit [sh] set and bit [sh - 1] clear; the branch is taken when the eight bits
    from [sh] of the incremented register are zero. *)

Definition imm_ok (sh im : Z) : Prop :=
  8 <= sh <= 23 /\ word64 im /\ Z.testbit im sh = true /\ Z.testbit im (sh - 1) = false.

Definition field (sh x : Z) : Z := (x / 2 ^ sh) mod 256.

Lemma mask_field sh x : 0 <= sh -> Z.land x (255 * 2 ^ sh) = field sh x * 2 ^ sh.
Proof.
  intros Hsh. replace (field sh x) with (Z.land (Z.shiftr x sh) (Z.ones 8))
    by (rewrite Z.land_ones, Z.shiftr_div_pow2 by lia; done).
  rewrite <- !Z.shiftl_mul_pow2 by lia. change 255 with (Z.ones 8).
  apply Z.bits_inj'. intros i Hi. rewrite Z.land_spec, !Z.shiftl_spec by lia.
  destruct (Z.lt_ge_cases i sh).
  - by rewrite !(Z.testbit_neg_r _ (i - sh)), andb_false_r by lia.
  - rewrite Z.land_spec, Z.shiftr_spec by lia. by replace (i - sh + sh) with i by lia.
Qed.

Lemma taken_field sh x : 0 <= sh -> (Z.land x (255 * 2 ^ sh) =? 0) = (field sh x =? 0).
Proof.
  intros Hsh. rewrite mask_field by done. pose proof (pow2_pos sh Hsh).
  destruct (Z.eqb_spec (field sh x) 0) as [->|]; [done|]. apply Z.eqb_neq. nia.
Qed.

(** The immediate as high part, odd 8-bit field and small low part. *)
Lemma imm_split sh im :
  imm_ok sh im -> exists h k l, im = h * 2 ^ (sh + 8) + k * 2 ^ sh + l /\
    0 <= k < 256 /\ k mod 2 = 1 /\ 0 <= l < 2 ^ (sh - 1).
Proof.
  intros (Hsh & _ & Ht & Hf). exists (im / 2 ^ (sh + 8)), (field sh im), (im mod 2 ^ sh).
  pose proof (pow2_pos sh). pose proof (Z.mod_pos_bound (im / 2 ^ sh) 256).
  split_and!; try (unfold field; lia).
  - rewrite Z.pow_add_r by lia. change (2 ^ 8) with 256. unfold field.
    rewrite <- Z.div_div by lia. pose proof (Z.div_mod im (2 ^ sh)).
    pose proof (Z.div_mod (im / 2 ^ sh) 256). nia.
  - unfold field. rewrite Z.testbit_odd, Z.shiftr_div_pow2 in Ht by lia.
    rewrite Z.mod_mod_divide by (by exists 128). by rewrite Zmod_odd, Ht.
  - apply Z.mod_pos_bound; lia.
  - assert (in_range (sh - 1) (im mod 2 ^ sh)) as [_ H']; [|done].
    apply in_range_testbit; [lia|apply Z.mod_pos_bound; lia|]. intros i Hi.
    destruct (Z.lt_ge_cases i sh); [|by rewrite Z.mod_pow2_bits_high by lia].
    rewrite Z.mod_pow2_bits_low by lia. by replace i with (sh - 1) by lia.
Qed.

Lemma field_add64 sh d im : 0 <= sh <= 56 -> field sh (add64 d im) = field sh (d + im).
Proof.
  intros Hsh. unfold field, add64, wrap. change 256 with (2 ^ 8).
  rewrite <- !Z.land_ones, <- !Z.shiftr_div_pow2 by lia. apply Z.bits_inj'. intros i Hi.
  rewrite !Z.land_spec, !Z.shiftr_spec, testbit_ones, Z.land_spec, testbit_ones by lia.
  destruct (Z.ltb_spec i 8), (Z.ltb_spec (i + sh) 64); try lia; by rewrite ?andb_true_r, ?andb_false_r.
Qed.

Lemma low_add64 sh d im : 0 <= sh <= 56 -> add64 d im mod 2 ^ sh = (d + im) mod 2 ^ sh.
Proof.
  intros Hsh. unfold add64, wrap. apply Z.mod_mod_divide.
  exists (2 ^ (64 - sh)). rewrite <- Z.pow_add_r by lia. f_equal. lia.
Qed.

(** Adding the immediate to a register whose field is zero: the new field and low part. *)
Lemma add_imm_split sh im d :
  imm_ok sh im -> field sh d = 0 -> exists k l, 0 <= k < 256 /\ k mod 2 = 1 /\ 0 <= l < 2 ^ (sh - 1) /\
    field sh (add64 d im) = (k + (d mod 2 ^ sh + l) / 2 ^ sh) mod 256 /\
    add64 d im mod 2 ^ sh = (d mod 2 ^ sh + l) mod 2 ^ sh /\
    forall d', field sh d' = 0 ->
      field sh (add64 d' im) = (k + (d' mod 2 ^ sh + l) / 2 ^ sh) mod 256.
Proof.
  intros Him Hd. destruct (imm_split sh im Him) as (h & k & l & E & Hk & Hodd & Hl).
  destruct Him as (Hsh & _). exists k, l. pose proof (pow2_pos sh).
  assert (Hfield : forall d', field sh d' = 0 ->
    field sh (add64 d' im) = (k + (d' mod 2 ^ sh + l) / 2 ^ sh) mod 256).
  { intros d' Hd'. rewrite field_add64 by lia. unfold field in *. rewrite E.
    rewrite (Z.div_mod d' (2 ^ sh)) at 1 by lia. rewrite (Z.div_mod (d' / 2 ^ sh) 256) at 1 by lia.
    rewrite Hd', Z.pow_add_r by lia. change (2 ^ 8) with 256.
    replace (2 ^ sh * (256 * (d' / 2 ^ sh / 256) + 0) + d' mod 2 ^ sh +
             (h * (2 ^ sh * 256) + k * 2 ^ sh + l))
      with (d' mod 2 ^ sh + l + (k + (d' / 2 ^ sh / 256 + h) * 256) * 2 ^ sh) by ring.
    rewrite Z.div_add by lia.
    replace ((d' mod 2 ^ sh + l) / 2 ^ sh + (k + (d' / 2 ^ sh / 256 + h) * 256))
      with (k + (d' mod 2 ^ sh + l) / 2 ^ sh + (d' / 2 ^ sh / 256 + h) * 256) by ring.
    by rewrite Z.mod_add. }
  split_and!; auto; try lia.
  rewrite low_add64 by lia. rewrite E, Z.pow_add_r by lia.
  replace (d + (h * (2 ^ sh * 2 ^ 8) + k * 2 ^ sh + l)) with (d + l + (h * 2 ^ 8 + k) * 2 ^ sh) by ring.
  rewrite Z.mod_add by lia. by rewrite Z.add_mod_idemp_l by lia.
Qed.

(** After two taken branches in a row the third is not taken. *)
Lemma third_not_taken sh im d :
  imm_ok sh im -> field sh d = 0 -> field sh (add64 d im) = 0 ->
  field sh (add64 (add64 d im) im) <> 0.
Proof.
  intros Him H0 H1. destruct (add_imm_split sh im d Him H0) as (k & l & Hk & Hodd & Hl & E1 & Elow & Hall).
  destruct Him as (Hsh & _). rewrite Hall by done. rewrite Elow. rewrite E1 in H1.
  set (P := 2 ^ sh) in *. assert (P = 2 * 2 ^ (sh - 1)) as HP
    by (subst P; rewrite <- Z.pow_succ_r by lia; f_equal; lia).
  pose proof (pow2_pos (sh - 1) ltac:(lia)). pose proof (Z.mod_pos_bound d P ltac:(lia)) as Hc.
  set (c := d mod P) in *.
  assert ((c + l) / P = 0 \/ (c + l) / P = 1) as [Eq|Eq].
  { pose proof (Z.div_pos (c + l) P ltac:(lia) ltac:(lia)). assert ((c + l) / P < 2) by (apply Z.div_lt_upper_bound; lia). lia. }
  - rewrite Eq, Z.add_0_r, Z.mod_small in H1 by lia. subst k. done.
  - assert ((c + l) mod P = c + l - P) as -> by (rewrite Z.mod_eq, Eq; lia).
    pose proof (Z.mul_div_le (c + l) P ltac:(lia)) as Hge. rewrite Eq in Hge.
    assert ((c + l - P + l) / P = 0) as -> by (apply Z.div_small; lia).
    rewrite Z.add_0_r, Z.mod_small by lia. intros ->. done.
Qed.

(** ** What the compiler guarantees of a whole program *)

Definition no_touch (k : nat) (ibc : InstructionByteCode) : Prop :=
  type ibc <> CBRANCH /\ k ∉ writes ibc.

Record branch_ok (bc : list InstructionByteCode) (i : Z) (ibc : InstructionByteCode) : Prop := mkBranch {
  br_shape : exists creg sh, idst ibc = PR creg /\ (creg < 8)%nat /\ imm_ok sh (imm ibc) /\
    memMask ibc = 255 * 2 ^ sh /\
    (forall j x, target ibc < j < i -> at_index bc j = Done x -> no_touch creg x);
  br_target : -1 <= target ibc < i;
}.

Record compiled (bc : list InstructionByteCode) : Prop := mkCompiled {
  cp_length : length bc = 256%nat;
  cp_wf : Forall ibc_wf bc;
  cp_branch : forall i ibc, at_index bc i = Done ibc -> type ibc = CBRANCH -> branch_ok bc i ibc;
}.

(** ** The handlers *)

Definition slot_ok (ibc : InstructionByteCode) : Prop := word64 (imm ibc) /\ 0 <= shift ibc.

Definition usage_ok (i : Z) (usage : list Z) : Prop :=
  length usage = 8%nat /\ Forall (fun u => -1 <= u < i) usage.

(** A handler fills its slot well; a CBRANCH refers to the last write of its register and resets
    every entry of [register_usage_]; otherwise an entry changes to [i] or its register is not
    written. *)
Definition handler_post (i : Z) (usage : list Z) (x : list Z * InstructionByteCode) : Prop :=
  let '(usage', ibc) := x in
  ibc_wf ibc /\ length usage' = 8%nat /\
  (type ibc = CBRANCH ->
     usage' = replicate 8 i /\
     exists creg sh, idst ibc = PR creg /\ (creg < 8)%nat /\ imm_ok sh (imm ibc) /\
       memMask ibc = 255 * 2 ^ sh /\ target ibc = usage !!! creg) /\
  (type ibc <> CBRANCH -> forall k, (k < 8)%nat ->
     usage' !!! k = i \/ (usage' !!! k = usage !!! k /\ k ∉ writes ibc)).

Definition handler_ok (h : handler) : Prop := forall instr i usage ibc,
  instruction_wf instr -> 0 <= i < 256 -> usage_ok i usage -> slot_ok ibc ->
  returns (handler_post i usage) (h instr i usage ibc).

Lemma reg8_lt x : (reg8 x < 8)%nat.
Proof. unfold reg8. pose proof (Z.mod_pos_bound x 8). lia. Qed.
Lemma reg4_lt x : (reg4 x < 4)%nat.
Proof. unfold reg4. pose proof (Z.mod_pos_bound x 4). lia. Qed.
Lemma mem_level_ok instr : level_ok (mem_level instr).
Proof. unfold mem_level, level_ok. destruct (negb _); auto. Qed.
Lemma imm32_word64 instr : instruction_wf instr -> word64 (imm32 instr).
Proof. intros (_ & _ & _ & _ & H). by eapply in_range_mono; [|exact H]. Qed.

(** An update of one usage entry, when only that register is written. *)
Lemma use_one d i usage (ws : list nat) :
  length usage = 8%nat -> (d < 8)%nat -> (forall k, k ∈ ws -> k = d) ->
  forall k, (k < 8)%nat -> use d i usage !!! k = i \/ (use d i usage !!! k = usage !!! k /\ k ∉ ws).
Proof.
  intros Hl Hd Hw k Hk. unfold use. destruct (decide (k = d)) as [->|Hne].
  - left. apply list_lookup_total_insert_eq. lia.
  - right. split; [apply list_lookup_total_insert_ne; done|]. intros Hin. apply Hne, Hw, Hin.
Qed.

Lemma single_reg (d k : nat) : k ∈ [d] -> k = d.
Proof. apply list_elem_of_singleton. Qed.

(** Slots that write one integer register and are not branches. *)
Lemma post_one i usage d ibc :
  usage_ok i usage -> ibc_wf ibc -> (d < 8)%nat -> idst ibc = PR d -> type ibc <> CBRANCH ->
  type ibc <> ISWAP_R -> handler_post i usage (use d i usage, ibc).
Proof.
  intros [Hl _] Hwf Hd Hdst Hty Hsw. split; [done|]. split; [unfold use; by rewrite length_insert|].
  split; [done|]. intros _. apply use_one; [done|done|]. intros k Hk. unfold writes in Hk.
  rewrite Hdst in Hk. destruct (type ibc); simpl in Hk; first [done | by apply single_reg in Hk | by apply elem_of_nil in Hk].
Qed.

(** Slots that write no integer register. *)
Lemma post_none i usage ibc :
  usage_ok i usage -> ibc_wf ibc -> type ibc <> CBRANCH -> writes ibc = [] ->
  handler_post i usage (usage, ibc).
Proof.
  intros [Hl _] Hwf Hty Hw. split; [done|]. split; [done|]. split; [done|]. intros _ k Hk. right.
  split; [done|]. rewrite Hw. apply not_elem_of_nil.
Qed.

Lemma alu_slot_wf ibc d s ty im :
  slot_ok ibc -> word64 im -> (d < 8)%nat -> (s < 8)%nat ->
  ty ∈ [ISUB_R; IMUL_R; IXOR_R; IROR_R; IROL_R] ->
  ibc_wf (compile_alu_reg ibc (PR d) (PR s) ty im) /\
  idst (compile_alu_reg ibc (PR d) (PR s) ty im) = PR d /\
  type (compile_alu_reg ibc (PR d) (PR s) ty im) = ty.
Proof.
  intros [Hi Hsh] Him Hd Hs Hty. unfold compile_alu_reg, ibc_wf, operands_wf.
  destruct (negb _); simpl; (split; [|done]); (split; [|done]);
    rewrite !elem_of_cons, elem_of_nil in Hty;
    destruct Hty as [->|[->|[->|[->|[->|[]]]]]]; (split; [done|]); unfold is_src; simpl; auto.
Qed.

Lemma mem_slot_wf ibc instr d s ty im :
  slot_ok ibc -> word64 im -> (d < 8)%nat -> (s < 8)%nat ->
  ty ∈ [IADD_M; ISUB_M; IMUL_M; IMULH_M; ISMULH_M; IXOR_M] ->
  ibc_wf (compile_mem_op ibc instr (PR d) (PR s) ty im) /\
  idst (compile_mem_op ibc instr (PR d) (PR s) ty im) = PR d /\
  type (compile_mem_op ibc instr (PR d) (PR s) ty im) = ty.
Proof.
  intros [Hi Hsh] Him Hd Hs Hty. unfold compile_mem_op, ibc_wf, operands_wf.
  assert (level_ok kScratchpadL3Mask) by (unfold level_ok; auto).
  destruct (negb _); simpl; (split; [|done]); (split; [|done]);
    rewrite !elem_of_cons, elem_of_nil in Hty;
    destruct Hty as [->|[->|[->|[->|[->|[->|[]]]]]]]; (split; [done|]); (split; [|auto using mem_level_ok]);
    unfold is_base; simpl; auto.
Qed.

Lemma h_alu_ok ty : ty ∈ [ISUB_R; IMUL_R; IXOR_R; IROR_R; IROL_R] -> handler_ok (h_alu ty).
Proof.
  intros Hty instr i usage ibc Hi Hr Hu Hs. cbn.
  destruct (alu_slot_wf ibc (reg8 (dst instr)) (reg8 (src instr)) ty (signExtend2sCompl (getImm32 instr)))
    as (H1 & H2 & H3); auto using reg8_lt, sext32_range.
  apply post_one; auto using reg8_lt; rewrite H3; intros ->; by rewrite !elem_of_cons, elem_of_nil in Hty;
    intuition discriminate.
Qed.

Lemma h_rotate_ok ty : ty ∈ [ISUB_R; IMUL_R; IXOR_R; IROR_R; IROL_R] -> handler_ok (h_rotate ty).
Proof.
  intros Hty instr i usage ibc Hi Hr Hu Hs. cbn.
  destruct (alu_slot_wf ibc (reg8 (dst instr)) (reg8 (src instr)) ty (getImm32 instr))
    as (H1 & H2 & H3); auto using reg8_lt, imm32_word64.
  apply post_one; auto using reg8_lt; rewrite H3; intros ->; by rewrite !elem_of_cons, elem_of_nil in Hty;
    intuition discriminate.
Qed.

Lemma h_mem_ok ty : ty ∈ [IADD_M; ISUB_M; IMUL_M; IMULH_M; ISMULH_M; IXOR_M] -> handler_ok (h_mem ty).
Proof.
  intros Hty instr i usage ibc Hi Hr Hu Hs. cbn.
  destruct (mem_slot_wf ibc instr (reg8 (dst instr)) (reg8 (src instr)) ty (signExtend2sCompl (getImm32 instr)))
    as (H1 & H2 & H3); auto using reg8_lt, sext32_range.
  apply post_one; auto using reg8_lt; rewrite H3; intros ->; by rewrite !elem_of_cons, elem_of_nil in Hty;
    intuition discriminate.
Qed.

Lemma h_mulh_ok ty : ty ∈ [IMULH_R; ISMULH_R] -> handler_ok (h_mulh ty).
Proof.
  intros Hty instr i usage ibc Hi Hr Hu [Him Hsh]. rewrite !elem_of_cons, elem_of_nil in Hty.
  pose proof (reg8_lt (dst instr)). pose proof (reg8_lt (src instr)).
  destruct Hty as [->|[->|[]]]; (apply post_one; [done| |done|done|done|done]);
    (split; [split; [done|by left]|done]).
Qed.

Lemma h_IADD_RS_ok : handler_ok h_IADD_RS.
Proof.
  intros instr i usage ibc Hi Hr Hu [Him Hsh]. unfold h_IADD_RS.
  pose proof (reg8_lt (dst instr)). pose proof (reg8_lt (src instr)).
  apply post_one; try done. split; [split; [done|by left]|]. cbn [imm shift].
  split; [destruct (negb _); [by split|apply sext32_range]|]. apply wrap_range. lia.
Qed.

Lemma nop_ok i usage ibc : usage_ok i usage -> slot_ok ibc -> handler_post i usage (usage, set_type NOP ibc).
Proof. intros Hu [Him Hsh]. by apply post_none. Qed.

Lemma h_NOP_ok : handler_ok h_NOP.
Proof. intros instr i usage ibc Hi Hr Hu Hs. by apply nop_ok. Qed.

Lemma reciprocal_word64 d :
  word32 d -> isZeroOrPowerOf2 d = false -> returns word64 (randomx_reciprocal d).
Proof.
  intros Hd Hp. unfold randomx_reciprocal. destruct (Z.eqb_spec d 0) as [->|]; [done|].
  apply wrap_range. lia.
Qed.

Lemma h_IMUL_RCP_ok : handler_ok h_IMUL_RCP.
Proof.
  intros instr i usage ibc Hi Hr Hu [Him Hsh]. unfold h_IMUL_RCP, getImm32.
  assert (word32 (imm32 instr)) as Hw by apply Hi. rewrite isZeroOrPowerOf2_64_eq by done.
  destruct (isZeroOrPowerOf2 (imm32 instr)) eqn:E; cbn [negb]; [by apply nop_ok|].
  eapply returns_bind; [by apply reciprocal_word64|]. intros rcp Hrcp.
  pose proof (reg8_lt (dst instr)). apply post_one; try done. split; [split; [done|by right]|done].
Qed.

Lemma h_INEG_R_ok : handler_ok h_INEG_R.
Proof.
  intros instr i usage ibc Hi Hr Hu [Him Hsh]. pose proof (reg8_lt (dst instr)). by apply post_one.
Qed.

Lemma h_ISWAP_R_ok : handler_ok h_ISWAP_R.
Proof.
  intros instr i usage ibc Hi Hr Hu [Him Hsh]. unfold h_ISWAP_R.
  pose proof (reg8_lt (dst instr)) as Hd. pose proof (reg8_lt (src instr)) as Hs.
  destruct (Nat.eqb_spec (reg8 (src instr)) (reg8 (dst instr))); cbn [negb]; [by apply nop_ok|].
  destruct Hu as [Hl Hu]. split; [by split|]. split; [unfold use; by rewrite !length_insert|].
  split; [done|]. intros _ k Hk. unfold use.
  destruct (decide (k = reg8 (src instr))) as [->|Hks].
  { left. apply list_lookup_total_insert_eq. rewrite length_insert. lia. }
  rewrite list_lookup_total_insert_ne by done.
  destruct (decide (k = reg8 (dst instr))) as [->|Hkd].
  { left. apply list_lookup_total_insert_eq. lia. }
  right. rewrite list_lookup_total_insert_ne by done. split; [done|].
  change (k ∉ [reg8 (dst instr); reg8 (src instr)]). rewrite !elem_of_cons, elem_of_nil. tauto.
Qed.

Lemma h_FSWAP_R_ok : handler_ok h_FSWAP_R.
Proof.
  intros instr i usage ibc Hi Hr Hu [Him Hsh]. unfold h_FSWAP_R. pose proof (reg8_lt (dst instr)).
  apply post_none; try done. split; [|done]. unfold operands_wf. cbn [type idst].
  destruct (Nat.ltb_spec (reg8 (dst instr)) 4); [left|right]; unfold is_f, is_e; lia.
Qed.

Lemma h_fa_ok ty : ty ∈ [FADD_R; FSUB_R] -> handler_ok (h_fa ty).
Proof.
  intros Hty instr i usage ibc Hi Hr Hu [Him Hsh]. rewrite !elem_of_cons, elem_of_nil in Hty.
  pose proof (reg4_lt (dst instr)). pose proof (reg4_lt (src instr)).
  destruct Hty as [->|[->|[]]]; by apply post_none.
Qed.

Lemma h_fmem_ok p ty :
  (p = PF /\ ty ∈ [FADD_M; FSUB_M]) \/ (p = PE /\ ty = FDIV_M) -> handler_ok (h_fmem p ty).
Proof.
  intros Hty instr i usage ibc Hi Hr Hu [Him Hsh].
  pose proof (reg4_lt (dst instr)). pose proof (reg8_lt (src instr)).
  assert (word64 (signExtend2sCompl (getImm32 instr))) by apply sext32_range.
  pose proof (mem_level_ok instr).
  destruct Hty as [[-> Hty]|[-> ->]]; [rewrite !elem_of_cons, elem_of_nil in Hty;
    destruct Hty as [->|[->|[]]]|]; by apply post_none.
Qed.

Lemma h_FSCAL_R_ok : handler_ok h_FSCAL_R.
Proof.
  intros instr i usage ibc Hi Hr Hu [Him Hsh]. pose proof (reg4_lt (dst instr)). by apply post_none.
Qed.
Lemma h_FMUL_R_ok : handler_ok h_FMUL_R.
Proof.
  intros instr i usage ibc Hi Hr Hu [Him Hsh]. pose proof (reg4_lt (dst instr)).
  pose proof (reg4_lt (src instr)). by apply post_none.
Qed.
Lemma h_FSQRT_R_ok : handler_ok h_FSQRT_R.
Proof.
  intros instr i usage ibc Hi Hr Hu [Him Hsh]. pose proof (reg4_lt (dst instr)). by apply post_none.
Qed.

Lemma h_CFROUND_ok : handler_ok h_CFROUND.
Proof.
  intros instr i usage ibc Hi Hr Hu [Him Hsh]. pose proof (reg8_lt (src instr)).
  apply post_none; try done. split; [done|]. split; [|done]. cbn.
  apply land_range_r; [lia|by split].
Qed.

Lemma h_ISTORE_ok : handler_ok h_ISTORE.
Proof.
  intros instr i usage ibc Hi Hr Hu [Him Hsh]. pose proof (reg8_lt (src instr)).
  pose proof (reg8_lt (dst instr)). apply post_none; try done.
  split; [|split; [apply sext32_range|done]]. split; [done|]. split; [done|]. cbn.
  destruct (_ <? 14); [apply mem_level_ok|]. unfold level_ok. auto.
Qed.

Lemma modCond_range instr : instruction_wf instr -> 0 <= getModCond instr <= 15.
Proof.
  intros (_ & _ & _ & [H0 H1] & _). unfold getModCond. rewrite Z.shiftr_div_pow2 by lia.
  split; [apply Z.div_pos; lia|]. apply Z.lt_succ_r. apply Z.div_lt_upper_bound; lia.
Qed.

Lemma branch_imm_ok x sh :
  word64 x -> 8 <= sh <= 23 ->
  imm_ok sh (Z.land (Z.lor x (shl64 1 sh)) (not64 (shl64 1 (sh - 1)))).
Proof.
  intros Hx Hsh.
  assert (Hbit : forall n i, 0 <= n < 64 -> 0 <= i < 64 -> Z.testbit (shl64 1 n) i = (i =? n)).
  { intros n i Hn Hi. unfold shl64. rewrite testbit_wrap, Z.shiftl_1_l, Z.pow2_bits_eqb by lia.
    destruct (Z.ltb_spec i 64); [|lia]. simpl. apply Z.eqb_sym. }
  split; [done|]. split; [|split].
  - apply land_range_l; [lia|]. apply lor_range; [lia|done|apply shl64_range].
  - unfold not64. rewrite Z.land_spec, Z.lor_spec, Z.lxor_spec, !Hbit, testbit_ones, Z.eqb_refl by lia.
    destruct (Z.eqb_spec sh (sh - 1)); [lia|]. destruct (Z.ltb_spec sh 64); [|lia].
    by rewrite orb_true_r.
  - unfold not64. rewrite Z.land_spec, Z.lor_spec, Z.lxor_spec, !Hbit, testbit_ones, Z.eqb_refl by lia.
    destruct (Z.ltb_spec (sh - 1) 64); [|lia]. by rewrite andb_false_r.
Qed.

Lemma target_of_usage u : -1 <= u < 256 -> to_signed 16 (wrap 16 u) = u.
Proof.
  intros Hu. unfold to_signed. rewrite wrap_wrap by lia. unfold wrap.
  destruct (Z.eq_dec u (-1)) as [->|]; [done|]. rewrite Z.mod_small by (simpl; lia).
  destruct (Z.ltb_spec u (2 ^ (16 - 1))); [done|]. simpl in *. lia.
Qed.

Lemma h_CBRANCH_ok : handler_ok h_CBRANCH.
Proof.
  intros instr i usage ibc Hi Hr [Hl Hu] [Him Hsh]. unfold h_CBRANCH.
  pose proof (reg8_lt (dst instr)) as Hd. pose proof (modCond_range instr Hi) as Hc.
  set (sh := getModCond instr + 8). assert (8 <= sh <= 23) as Hs by (subst sh; lia).
  destruct (Z.ltb_spec 0 sh); [|lia]. cbv zeta.
  pose proof (branch_imm_ok (signExtend2sCompl (getImm32 instr)) sh (sext32_range _) Hs) as Himm.
  assert (0 <= wrap 16 (usage !!! reg8 (dst instr))) by (apply wrap_range; lia).
  cbn [returns handler_post type idst imm memMask]. split; [split; [done|split; [apply Himm|done]]|].
  split; [done|]. split; [|done]. intros _. split; [done|]. exists (reg8 (dst instr)), sh.
  split_and!; auto; try apply Himm.
  - rewrite Z.shiftl_mul_pow2 by lia. apply wrap_small. split; [lia|].
    assert (2 ^ sh <= 2 ^ 23) by (apply Z.pow_le_mono_r; lia). lia.
  - apply target_of_usage.
    destruct (lookup_lt_is_Some_2 usage (reg8 (dst instr))) as [u Eu]; [lia|].
    rewrite (list_lookup_total_correct _ _ _ Eu). pose proof (Forall_lookup_1 _ _ _ _ Hu Eu). simpl in *. lia.
Qed.

Lemma handlers_ok : Forall handler_ok kCompileHandlers.
Proof.
  unfold kCompileHandlers. apply Forall_concat, Forall_fmap.
  assert (Forall (fun x => handler_ok x.1) weights) as H.
  { unfold weights. repeat (apply List.Forall_cons; [cbn [fst]|]); [..|apply List.Forall_nil];
      first [apply h_IADD_RS_ok | apply h_IMUL_RCP_ok | apply h_INEG_R_ok | apply h_ISWAP_R_ok
        | apply h_FSWAP_R_ok | apply h_FSCAL_R_ok | apply h_FMUL_R_ok | apply h_FSQRT_R_ok
        | apply h_CBRANCH_ok | apply h_CFROUND_ok | apply h_ISTORE_ok | apply h_NOP_ok
        | apply h_mem_ok; by repeat constructor | apply h_alu_ok; by repeat constructor
        | apply h_rotate_ok; by repeat constructor | apply h_mulh_ok; by repeat constructor
        | apply h_fa_ok; by repeat constructor
        | apply h_fmem_ok; left; split; [done|by repeat constructor]
        | apply h_fmem_ok; by right ]. }
  eapply list.Forall_impl; [exact H|]. intros [h n] Hh. cbn. by apply Forall_replicate.
Qed.

(** ** The compiler loop *)

Record compiling (i : Z) (usage : list Z) (bc : list InstructionByteCode) : Prop := mkCompiling {
  cg_length : length bc = 256%nat;
  cg_slots : Forall slot_ok bc;
  cg_usage : usage_ok i usage;
  cg_done : forall j x, j < i -> at_index bc j = Done x ->
    ibc_wf x /\ (type x = CBRANCH -> branch_ok bc j x);
  cg_last : forall k j x, (k < 8)%nat -> usage !!! k < j < i -> at_index bc j = Done x -> no_touch k x;
}.

Lemma branch_ok_insert bc i x j ibc :
  0 <= i -> j <= i -> branch_ok bc j ibc -> branch_ok (<[Z.to_nat i := x]> bc) j ibc.
Proof.
  intros Hi Hj [(creg & sh & H1 & H2 & H3 & H4 & H5) Ht]. constructor; [|done].
  exists creg, sh. split_and!; auto; try apply H3.
  intros j' y Hj' Hy. apply (H5 j'); [done|]. by rewrite at_index_insert_ne in Hy by lia.
Qed.

Lemma usage_lookup i usage k : usage_ok i usage -> (k < 8)%nat -> -1 <= usage !!! k < i.
Proof.
  intros [Hl Hu] Hk. destruct (lookup_lt_is_Some_2 usage k) as [u Eu]; [lia|].
  rewrite (list_lookup_total_correct _ _ _ Eu). by pose proof (Forall_lookup_1 _ _ _ _ Hu Eu).
Qed.

Lemma usage_ok_next i usage usage' :
  usage_ok i usage -> length usage' = 8%nat ->
  (forall k, (k < 8)%nat -> usage' !!! k = i \/ usage' !!! k = usage !!! k) -> 0 <= i ->
  usage_ok (i + 1) usage'.
Proof.
  intros Hu Hl Hk Hi. split; [done|]. apply list.Forall_forall. intros u Hin.
  apply list_elem_of_lookup_1 in Hin as [k Ek]. pose proof (lookup_lt_Some _ _ _ Ek).
  rewrite <- (list_lookup_total_correct _ _ _ Ek).
  pose proof (usage_lookup i usage k Hu ltac:(lia)). destruct (Hk k) as [-> | ->]; lia.
Qed.

Lemma compiling_step i usage bc usage' ibc :
  0 <= i < 256 -> compiling i usage bc -> handler_post i usage (usage', ibc) ->
  compiling (i + 1) usage' (<[Z.to_nat i := ibc]> bc).
Proof.
  intros Hi [Hl Hs Hu Hd Hlast] (Hwf & Hl' & Hbr & Hno).
  assert (Huse : forall k, (k < 8)%nat -> usage' !!! k = i \/ usage' !!! k = usage !!! k).
  { intros k Hk. destruct (decide (type ibc = CBRANCH)) as [E|E].
    - destruct (Hbr E) as [-> _]. left. rewrite lookup_total_replicate_2 by done. done.
    - destruct (Hno E k Hk) as [?|[? _]]; auto. }
  assert (Hlast' : forall k j x, (k < 8)%nat -> usage !!! k < j < i ->
    at_index (<[Z.to_nat i := ibc]> bc) j = Done x -> no_touch k x).
  { intros k j x Hk Hj Hx. rewrite at_index_insert_ne in Hx by lia. by apply (Hlast k j). }
  constructor.
  - by rewrite length_insert.
  - apply Forall_insert; [done|]. apply Hwf.
  - by eapply usage_ok_next; [| |exact Huse|lia].
  - intros j x Hj Hx. destruct (decide (j = i)) as [->|Hne].
    + rewrite at_index_insert_eq in Hx by lia. injection Hx as <-. split; [done|]. intros E.
      destruct (Hbr E) as [_ (creg & sh & H1 & H2 & H3 & H4 & H5)]. constructor.
      * exists creg, sh. split_and!; auto; try apply H3. rewrite H5. intros j x Hj'. by apply Hlast'.
      * rewrite H5. by apply usage_lookup.
    + rewrite at_index_insert_ne in Hx by lia. destruct (Hd j x) as [Hw Hb]; [lia|done|].
      split; [done|]. intros E. apply branch_ok_insert; [lia|lia|auto].
  - intros k j x Hk Hj Hx. destruct (decide (j = i)) as [->|Hne].
    + rewrite at_index_insert_eq in Hx by lia. injection Hx as <-.
      destruct (decide (type ibc = CBRANCH)) as [E|E].
      * destruct (Hbr E) as [-> _]. rewrite lookup_total_replicate_2 in Hj by done. lia.
      * destruct (Hno E k Hk) as [?|[_ ?]]; [lia|by split].
    + apply (Hlast' k j x); [done| |done]. destruct (Huse k Hk) as [Eq|Eq]; rewrite Eq in Hj; lia.
Qed.

Lemma compile_program_compiled program bc :
  length program = 256%nat -> Forall instruction_wf program ->
  length bc = 256%nat -> Forall slot_ok bc ->
  returns (fun x => compiled x.2) (compile_program program bc).
Proof.
  intros Hp Hpw Hl Hs. unfold compile_program.
  assert (Hn : forall n, (n <= 256)%nat ->
    returns (fun x => compiling (Z.of_nat n) x.1 x.2)
      (ofoldl (compile_step program) (replicate 8 (-1), bc) (seqZ 0 (Z.of_nat n)))).
  { induction n as [|n IH]; intros Hn.
    - constructor; try done.
      + split; [done|]. by apply Forall_replicate.
      + intros j x Hj Hx. apply at_index_Done in Hx. simpl in Hj. lia.
      + intros k j x Hk Hj. cbn [fst] in Hj. rewrite lookup_total_replicate_2 in Hj by done.
        simpl in Hj. lia.
    - replace (Z.of_nat (S n)) with (Z.of_nat n + 1) by lia. rewrite seqZ_app by lia.
      rewrite ofoldl_app. eapply returns_bind; [apply IH; lia|]. intros [usage b] Hc.
      cbn [fst snd] in Hc. rewrite Z.add_0_l. change (seqZ (Z.of_nat n) 1) with [Z.of_nat n].
      cbn [ofoldl compile_step].
      destruct (at_index_ok _ program (Z.of_nat n) Hpw) as (instr & -> & Hw); [lia|].
      destruct (at_index_ok _ b (Z.of_nat n) (cg_slots _ _ _ Hc)) as (ibc & -> & Hib);
        [rewrite (cg_length _ _ _ Hc); lia|]. cbn [mbind outcome_bind]. unfold compile_instruction.
      destruct (at_index_ok _ kCompileHandlers (opcode instr) handlers_ok) as (h & -> & Hh);
        [destruct Hw as ([? ?] & _); exact (conj H H0)|]. cbn [mbind outcome_bind].
      eapply (returns_bind (fun x => compiling (Z.of_nat n + 1) x.1 x.2)); [|by intros x Hx].
      eapply returns_bind; [apply Hh; [done|lia|apply Hc|done]|]. intros [usage' ibc'] Hpost.
      by apply (compiling_step _ usage); [lia|..]. }
  eapply returns_weaken; [apply (Hn 256%nat); lia|]. intros [usage b] [H1 H2 H3 H4 H5]. cbn in *.
  assert (Hlt : forall j x, at_index b j = Done x -> j < 256).
  { intros j x [Hj Hx]%at_index_Done. apply lookup_lt_Some in Hx. lia. }
  constructor; [done| |].
  - apply list.Forall_forall. intros x Hin. apply list_elem_of_lookup_1 in Hin as [k Ek].
    apply (H4 (Z.of_nat k)); [pose proof (lookup_lt_Some _ _ _ Ek); lia|].
    apply at_index_Done. rewrite Nat2Z.id. split; [lia|done].
  - intros i x Hx E. apply H4; eauto.
Qed.

(** ** Execution *)

Section run.
Context (m : Z * Z) (bc : list InstructionByteCode) (Hm : mask_wf m) (Hbc : compiled bc).

(** [reaches n pc st pc' st']: [n] instructions lead from one to the other. *)
Definition reaches (n : nat) (pc : Z) (st : xstate) (pc' : Z) (st' : xstate) : Prop :=
  forall fuel, execute_from (n + fuel) m bc pc st = execute_from fuel m bc pc' st'.

Lemma reaches_trans n1 n2 p1 s1 p2 s2 p3 s3 :
  reaches n1 p1 s1 p2 s2 -> reaches n2 p2 s2 p3 s3 -> reaches (n1 + n2) p1 s1 p3 s3.
Proof. intros H1 H2 fuel. rewrite <- Nat.add_assoc, H1. apply H2. Qed.

Lemma reaches_one pc st ibc pc' st' :
  pc < 256 -> at_index bc pc = Done ibc -> execute_one m ibc pc st = Done (pc', st') ->
  reaches 1 pc st (pc' + 1) st'.
Proof.
  intros Hpc Hi He fuel. cbn [Nat.add execute_from]. destruct (Z.ltb_spec pc 256); [|lia].
  rewrite Hi. cbn [mbind outcome_bind]. by rewrite He.
Qed.

Lemma slot_at pc : 0 <= pc < 256 -> exists ibc, at_index bc pc = Done ibc /\ ibc_wf ibc.
Proof.
  intros Hpc. destruct Hbc as [Hl Hw _]. apply at_index_ok; [done|]. rewrite Hl. done.
Qed.

(** What stays true from one point of the run to a later one. *)
Definition later (st st' : xstate) : Prop := x_wf st' /\ a (reg_ st') = a (reg_ st).

Lemma later_refl st : x_wf st -> later st st.
Proof. by split. Qed.
Lemma later_trans s1 s2 s3 : later s1 s2 -> later s2 s3 -> later s1 s3.
Proof. intros [_ H1] [H2 H3]. split; [done|congruence]. Qed.

Definition is_branch (pc : Z) : Prop := exists x, at_index bc pc = Done x /\ type x = CBRANCH.
Definition untouched (k : nat) (p q : Z) : Prop :=
  forall j x, p <= j < q -> at_index bc j = Done x -> k ∉ writes x.

(** Straight-line code. *)
Lemma straight n p st :
  0 <= p -> p + Z.of_nat n <= 256 -> x_wf st ->
  (forall j, p <= j < p + Z.of_nat n -> ~ is_branch j) ->
  exists st', reaches n p st (p + Z.of_nat n) st' /\ later st st' /\
    forall k, untouched k p (p + Z.of_nat n) -> r (reg_ st') !! k = r (reg_ st) !! k.
Proof.
  revert p st. induction n as [|n IH]; intros p st Hp Hn Hst Hnb.
  - exists st. rewrite Z.add_0_r. split; [by intros fuel|]. split; [by apply later_refl|done].
  - destruct (slot_at p) as (ibc & Hi & Hw); [lia|].
    pose proof (execute_one_ok m ibc p st Hm Hw Hst) as H. apply returns_Done in H as ([pc' st1] & He & Hpost).
    destruct Hpost as [(Hw1 & Ha1 & Hr1) Hpc]. cbn [fst snd] in *.
    assert (type ibc <> CBRANCH) as Hty by (intros E; apply (Hnb p); [lia|by exists ibc]).
    rewrite (Hpc Hty) in He. clear Hpc.
    destruct (IH (p + 1) st1) as (st' & Hre & Hlater & Hr); [lia|lia|done| |].
    { intros j Hj. apply Hnb. lia. }
    exists st'. replace (p + Z.of_nat (S n)) with (p + 1 + Z.of_nat n) by lia. split; [|split].
    + apply (reaches_trans 1 n _ _ (p + 1) st1); [by eapply reaches_one; [lia|..]|done].
    + eapply later_trans; [|exact Hlater]. by split.
    + intros k Hk. rewrite Hr, Hr1; [done|by apply (Hk p); [lia|]|]. intros j x Hj. apply Hk. lia.
Qed.

(** A branch adds its immediate and goes back when the field is zero. *)
Lemma branch_step b ibc creg sh d st :
  0 <= b < 256 -> at_index bc b = Done ibc -> type ibc = CBRANCH -> x_wf st ->
  idst ibc = PR creg -> (creg < 8)%nat -> imm_ok sh (imm ibc) -> memMask ibc = 255 * 2 ^ sh ->
  r (reg_ st) !! creg = Some d ->
  exists st', later st st' /\ r (reg_ st') !! creg = Some (add64 d (imm ibc)) /\
    reaches 1 b st (if field sh (add64 d (imm ibc)) =? 0 then target ibc + 1 else b + 1) st'.
Proof.
  intros Hb Hi Hty Hst Hd Hc Him Hmask Hr. pose proof Hst as [[Hl _] _ _ _ _].
  assert (exists st', execute_one m ibc b st =
    Done (if field sh (add64 d (imm ibc)) =? 0 then target ibc else b, st') /\
    later st st' /\ r (reg_ st') !! creg = Some (add64 d (imm ibc))) as (st' & He & Hlater & Hr').
  { assert (load_int st ibc (PR creg) = Done d) as Hload
      by (apply at_index_Done; rewrite Nat2Z.id; split; [lia|done]).
    pose proof (store_int_ok (PR creg) (add64 d (imm ibc)) st Hst Hc (add64_range _ _)) as Hs.
    unfold execute_one. rewrite Hty, Hd, Hload. cbn [mbind outcome_bind].
    rewrite Hmask, (taken_field sh) by (destruct Him; lia).
    unfold store_int, set_at in *. destruct (Nat.ltb_spec creg (length (r (reg_ st)))); [|lia].
    cbn in Hs |- *. eexists. split; [done|]. destruct Hs as (Hw & Ha & _). split; [by split|].
    cbn. apply list_lookup_insert_eq. lia. }
  exists st'. split; [done|]. split; [done|].
  replace (if field sh (add64 d (imm ibc)) =? 0 then target ibc + 1 else b + 1)
    with ((if field sh (add64 d (imm ibc)) =? 0 then target ibc else b) + 1)
    by (by destruct (_ =? 0)).
  eapply reaches_one; [lia|exact Hi|exact He].
Qed.

Lemma reg_value st creg : x_wf st -> (creg < 8)%nat -> exists d, r (reg_ st) !! creg = Some d.
Proof. intros [[Hl _] _ _ _ _] Hc. apply lookup_lt_is_Some_2. lia. Qed.

(** From just after the target back to the branch, its register unchanged. *)
Lemma back_to_branch t b creg st :
  -1 <= t < b -> b < 256 -> x_wf st ->
  (forall j x, t < j < b -> at_index bc j = Done x -> no_touch creg x) ->
  exists st', reaches (Z.to_nat (b - t - 1)) (t + 1) st b st' /\ later st st' /\
    r (reg_ st') !! creg = r (reg_ st) !! creg.
Proof.
  intros Ht Hb Hst Hno. destruct (straight (Z.to_nat (b - t - 1)) (t + 1) st) as (st' & Hre & Hl & Hr);
    [lia|lia|done| |].
  { intros j Hj (x & Hx & E). destruct (Hno j x) as [Hn _]; [lia|done|done]. }
  replace (t + 1 + Z.of_nat (Z.to_nat (b - t - 1))) with b in * by lia.
  exists st'. split; [done|]. split; [done|]. apply Hr. intros j x Hj Hx. apply (Hno j x); [lia|done].
Qed.

(** A segment: from [p] to just after the first branch at or after [p]. *)
Lemma segment p b st :
  0 <= p <= b -> b < 256 -> x_wf st -> is_branch b -> (forall j, p <= j < b -> ~ is_branch j) ->
  (p = 0 \/ is_branch (p - 1)) ->
  exists n st', (n <= 3 * Z.to_nat (b + 1 - p))%nat /\ reaches n p st (b + 1) st' /\ later st st'.
Proof.
  intros Hp Hb Hst (ibc & Hi & Hty) Hno Hbound.
  destruct (cp_branch bc Hbc b ibc Hi Hty) as [(creg & sh & Hd & Hc & Him & Hmask & Hfree) Ht].
  set (t := target ibc) in *.
  assert (p - 1 <= t) as Htp.
  { destruct Hbound as [->|(x & Hx & E)]; [lia|]. destruct (Z.le_gt_cases (p - 1) t); [done|].
    destruct (Hfree (p - 1) x) as [Hn _]; [lia|done|done]. }
  destruct (straight (Z.to_nat (b - p)) p st) as (st1 & R1 & L1 & _); [lia|lia|done| |].
  { intros j Hj. apply Hno. lia. }
  replace (p + Z.of_nat (Z.to_nat (b - p))) with b in R1 by lia.
  destruct (reg_value st1 creg (proj1 L1) Hc) as [d1 E1].
  destruct (branch_step b ibc creg sh d1 st1) as (st2 & L2 & E2 & R2); [lia|try done..|]; [apply L1|].
  pose proof (reaches_trans _ _ _ _ _ _ _ _ R1 R2) as R12. pose proof (later_trans _ _ _ L1 L2) as L12.
  set (d2 := add64 d1 (imm ibc)) in *.
  destruct (Z.eqb_spec (field sh d2) 0) as [Z2|]; 
    [|eexists _, st2; split; [|exact (conj R12 L12)]; lia].
  destruct (back_to_branch t b creg st2) as (st3 & R3 & L3 & E3); [lia|lia|apply L2|done|].
  rewrite E2 in E3.
  destruct (branch_step b ibc creg sh d2 st3) as (st4 & L4 & E4 & R4); [lia|try done..|]; [apply L3|].
  pose proof (reaches_trans _ _ _ _ _ _ _ _ R12 (reaches_trans _ _ _ _ _ _ _ _ R3 R4)) as R14.
  pose proof (later_trans _ _ _ L12 (later_trans _ _ _ L3 L4)) as L14.
  set (d3 := add64 d2 (imm ibc)) in *.
  destruct (Z.eqb_spec (field sh d3) 0) as [Z3|]; 
    [|eexists _, st4; split; [|exact (conj R14 L14)]; lia].
  destruct (back_to_branch t b creg st4) as (st5 & R5 & L5 & E5); [lia|lia|apply L4|done|].
  rewrite E4 in E5.
  destruct (branch_step b ibc creg sh d3 st5) as (st6 & L6 & E6 & R6); [lia|try done..|]; [apply L5|].
  destruct (Z.eqb_spec (field sh (add64 d3 (imm ibc))) 0) as [Z4|].
  { by destruct (third_not_taken sh (imm ibc) d2 Him Z2 Z3). }
  pose proof (later_trans _ _ _ L14 (later_trans _ _ _ L5 L6)) as L16.
  pose proof (reaches_trans _ _ _ _ _ _ _ _ R14 (reaches_trans _ _ _ _ _ _ _ _ R5 R6)) as R16.
  eexists _, st6. split; [|exact (conj R16 L16)]. lia.
Qed.

Lemma first_branch p :
  0 <= p <= 256 ->
  (forall j, p <= j < 256 -> ~ is_branch j) \/
  (exists b, p <= b < 256 /\ is_branch b /\ forall j, p <= j < b -> ~ is_branch j).
Proof.
  intros Hp. remember (Z.to_nat (256 - p)) as n eqn:En. revert p Hp En.
  induction n as [|n IH]; intros p Hp En; [left; lia|].
  destruct (slot_at p) as (x & Hx & _); [lia|].
  destruct (decide (type x = CBRANCH)) as [E|E].
  - right. exists p. split; [lia|]. split; [by exists x|lia].
  - assert (~ is_branch p) as Hnp by (intros (y & Hy & Ey); congruence).
    destruct (IH (p + 1)) as [H|(b & Hb & Hbb & H)]; [lia|lia| |].
    + left. intros j Hj. destruct (decide (j = p)) as [->|]; [done|]. apply H. lia.
    + right. exists b. split; [lia|]. split; [done|]. intros j Hj.
      destruct (decide (j = p)) as [->|]; [done|]. apply H. lia.
Qed.

Lemma run_from_boundary p st :
  0 <= p <= 256 -> x_wf st -> (p = 0 \/ is_branch (p - 1)) ->
  exists n st', (n <= 3 * Z.to_nat (256 - p))%nat /\ reaches n p st 256 st' /\ later st st'.
Proof.
  remember (Z.to_nat (256 - p)) as k eqn:Ek. revert p st Ek.
  induction k as [k IH] using lt_wf_ind. intros p st Ek Hp Hst Hbd.
  destruct (first_branch p Hp) as [Hnone|(b & Hb & Hbb & Hfirst)].
  - destruct (straight k p st) as (st' & R & L & _); [lia|lia|done| |].
    { intros j Hj. apply Hnone. lia. }
    replace (p + Z.of_nat k) with 256 in R by lia. exists k, st'. split; [lia|by split].
  - destruct (segment p b st) as (n1 & st1 & Hn1 & R1 & L1); [lia|lia|done|done|done|done|].
    destruct (IH (Z.to_nat (256 - (b + 1))) ltac:(lia) (b + 1) st1 eq_refl)
      as (n2 & st2 & Hn2 & R2 & L2); [lia|apply L1|right; by replace (b + 1 - 1) with b by lia|].
    exists (n1 + n2)%nat, st2. split; [lia|]. split; [|by eapply later_trans].
    by eapply reaches_trans.
Qed.

Lemma execute_bytecode_ok st : x_wf st -> returns (later st) (execute_bytecode m bc st).
Proof.
  intros Hst. destruct (run_from_boundary 0 st) as (n & st' & Hn & R & L); [lia|done|by left|].
  unfold execute_bytecode. replace execute_fuel with (n + (execute_fuel - n))%nat
    by (unfold execute_fuel; lia).
  rewrite R. destruct (execute_fuel - n)%nat; exact L.
Qed.

End run.

(** C7: whatever the 256 instructions (any bytes) and whatever the slots held before, the compiler
    returns, and the compiled program run from any well-formed state leaves the interpreter's loop
    within 768 instructions without touching anything outside the register file and the scratchpad;
    afterwards the integer registers are 64-bit words, no half of an E register is negative or NaN,
    and the A registers are what they were. *)
Theorem execute_bytecode_total program slots m st :
  length program = 256%nat -> Forall instruction_wf program ->
  length slots = 256%nat -> Forall slot_ok slots -> mask_wf m -> x_wf st ->
  exists usage bytecode st',
    compile_program program slots = Done (usage, bytecode) /\
    execute_bytecode m bytecode st = Done st' /\ x_wf st' /\
    Forall (fun x => is_nan (lo x) = false /\ negative (lo x) = false /\
                     is_nan (hi x) = false /\ negative (hi x) = false) (e (reg_ st')) /\
    a (reg_ st') = a (reg_ st).
Proof.
  intros Hp Hpw Hl Hs Hm Hst. pose proof (compile_program_compiled program slots Hp Hpw Hl Hs) as Hc.
  apply returns_Done in Hc as ([usage bc] & Ec & Hc). cbn [snd] in Hc.
  pose proof (execute_bytecode_ok m bc Hm Hc st Hst) as He. apply returns_Done in He as (st' & Ee & Hw & Ha).
  exists usage, bc, st'. split; [exact Ec|]. split; [exact Ee|]. split; [exact Hw|]. split; [|exact Ha].
  destruct Hw as [_ _ [_ He] _ _]. eapply list.Forall_impl; [exact He|]. intros x [H1 H2].
  destruct (epos_decode _ H1) as (? & _ & ?), (epos_decode _ H2) as (? & _ & ?). by split_and!.
Qed.

Definition demo_state : xstate :=
  mkX (mkRegisterFile (replicate 8 0) (replicate 4 (mkFloat 0 0)) (replicate 4 (mkFloat 1 1))
        (replicate 4 (mkFloat 1 1)))
      (replicate (Z.to_nat kRandomXScratchpadBytes) 0) 0 ToNearest.

Lemma demo_state_wf : x_wf demo_state.
Proof.
  constructor; cbn [reg_ r f e a scratchpad_ demo_state].
  - split; [done|]. by apply Forall_replicate.
  - split; [done|]. by apply Forall_replicate.
  - split; [done|]. by apply Forall_replicate.
  - split; [done|]. by apply Forall_replicate.
  - rewrite length_replicate. split; [by rewrite Z2Nat.id|]. by apply Forall_replicate.
Qed.

(** 256 times the same CBRANCH (opcode 214 is the first of its 25 codes). *)
Lemma execute_bytecode_total_witness :
  exists usage bytecode st',
    compile_program (replicate 256 (mkInstruction 214 3 0 0x5f 0)) (replicate 256 ibc_init) =
      Done (usage, bytecode) /\
    execute_bytecode (1, 1) bytecode demo_state = Done st' /\ x_wf st'.
Proof.
  destruct (execute_bytecode_total (replicate 256 (mkInstruction 214 3 0 0x5f 0)) (replicate 256 ibc_init)
    (1, 1) demo_state) as (u & b & s & H1 & H2 & H3 & _).
  - reflexivity.
  - apply Forall_replicate. unfold instruction_wf, in_range. cbn. lia.
  - reflexivity.
  - apply Forall_replicate. unfold slot_ok, in_range. cbn. lia.
  - unfold mask_wf. cbn. lia.
  - exact demo_state_wf.
  - exists u, b, s. exact (conj H1 (conj H2 H3)).
Defined.
