(* ===== verification/BytecodeStale.v ===== *)
(** * Stale bytecode fields are never read

    [compile_program] reuses the bytecode array of the previous program and its handlers assign only
    some fields of a slot, so a slot may keep operands, immediates or masks of an older program.
    [live] erases the fields [execute_bytecode] does not read for the slot's type; the interpreter
    cannot tell a slot from its live part, and the live part of a compiled program does not depend
    on what the array held before. *)

From S2P Require Import Prelude RandomX Float Bytecode BytecodeSafety.

Definition live_imm (ibc : InstructionByteCode) : Z :=
  if bool_decide (idst ibc = PImm) || bool_decide (isrc ibc = PImm) then imm ibc else 0.

Definition live (ibc : InstructionByteCode) : InstructionByteCode :=
  let d := idst ibc in
  let s := isrc ibc in
  let ty := type ibc in
  match ty with
  | IADD_RS => mkIBC d s (imm ibc) ty (shift ibc) 0
  | IADD_M | ISUB_M | IMUL_M | IMULH_M | ISMULH_M | IXOR_M | FADD_M | FSUB_M | FDIV_M | ISTORE =>
      mkIBC d s (imm ibc) ty 0 (memMask ibc)
  | ISUB_R | IMUL_R | IMULH_R | ISMULH_R | IXOR_R | IROR_R | IROL_R | ISWAP_R =>
      mkIBC d s (live_imm ibc) ty 0 0
  | INEG_R => mkIBC d PNull (if bool_decide (d = PImm) then imm ibc else 0) ty 0 0
  | FADD_R | FSUB_R | FMUL_R => mkIBC d s 0 ty 0 0
  | FSWAP_R | FSCAL_R | FSQRT_R => mkIBC d PNull 0 ty 0 0
  | CBRANCH => mkIBC d PNull (imm ibc) ty (shift ibc) (memMask ibc)
  | CFROUND => mkIBC PNull s (imm ibc) ty 0 0
  | IMUL_RCP | NOP => mkIBC PNull PNull 0 ty 0 0
  end.

(** Loads through the operands of the live part. *)
Lemma load_int_same st x y p : (p = PImm -> imm x = imm y) -> load_int st x p = load_int st y p.
Proof. destruct p; cbn; intros H; try done. by rewrite H. Qed.

Lemma live_imm_src x y : y = live_imm x -> isrc x = PImm -> imm x = y.
Proof.
  intros -> E. unfold live_imm. by rewrite (bool_decide_true (isrc x = PImm)), orb_true_r.
Qed.
Lemma live_imm_dst x y : y = live_imm x -> idst x = PImm -> imm x = y.
Proof. intros -> E. unfold live_imm. by rewrite (bool_decide_true (idst x = PImm)). Qed.

Lemma alu_live op x st ty :
  alu op (mkIBC (idst x) (isrc x) (live_imm x) ty 0 0) st = alu op x st.
Proof.
  unfold alu. cbn [idst isrc imm].
  rewrite (load_int_same st _ x (idst x)) by (intros E; symmetry; by apply live_imm_dst).
  by rewrite (load_int_same st _ x (isrc x)) by (intros E; symmetry; by apply live_imm_src).
Qed.

Lemma execute_one_live m ibc pc st : execute_one m (live ibc) pc st = execute_one m ibc pc st.
Proof.
  assert (Hty : type (live ibc) = type ibc) by (unfold live; by destruct (type ibc)).
  unfold execute_one. rewrite Hty. unfold live. destruct (type ibc) eqn:E; rewrite ?alu_live; try done.
  - cbn [idst imm]. rewrite (load_int_same st _ ibc (idst ibc)); [done|].
    intros H. cbn [imm]. by rewrite bool_decide_true.
  - cbn [idst isrc imm]. rewrite !(load_int_same st (mkIBC _ _ _ _ _ _) ibc); [done| |];
      intros H; symmetry; [by apply live_imm_src|by apply live_imm_dst].
Qed.

Lemma execute_from_live fuel m bc pc st :
  execute_from fuel m (live <$> bc) pc st = execute_from fuel m bc pc st.
Proof.
  revert pc st. induction fuel as [|fuel IH]; intros pc st; cbn [execute_from]; [done|].
  destruct (pc <? 256); [|done]. unfold at_index. destruct (0 <=? pc); [|done].
  rewrite list_lookup_fmap. destruct (bc !! Z.to_nat pc) as [ibc|]; cbn [fmap option_fmap option_map]; [|done].
  cbn [mbind outcome_bind]. rewrite execute_one_live.
  destruct (execute_one m ibc pc st) as [[pc' st']| | |]; cbn; auto.
Qed.

(** The interpreter runs the live part of its program. *)
Lemma execute_bytecode_live m bc bc' st :
  live <$> bc = live <$> bc' -> execute_bytecode m bc st = execute_bytecode m bc' st.
Proof.
  intros E. unfold execute_bytecode. by rewrite <- execute_from_live, E, execute_from_live.
Qed.

(** ** The compiler determines the live part *)

(** A handler's usage and live slot do not depend on the slot it overwrites. *)
Definition fresh_result (x : list Z * InstructionByteCode) : list Z * InstructionByteCode :=
  let '(usage, ibc) := x in (usage, live ibc).
Definition handler_fresh (h : handler) : Prop := forall instr i usage ibc ibc',
  fresh_result <$> (match h instr i usage ibc with Done x => Some x | _ => None end) =
  fresh_result <$> (match h instr i usage ibc' with Done x => Some x | _ => None end).

Lemma handlers_fresh : Forall handler_fresh kCompileHandlers.
Proof.
  unfold kCompileHandlers. apply Forall_concat, Forall_fmap.
  assert (forall h n, handler_fresh h -> Forall handler_fresh (replicate n h)) as Hr
    by (intros; by apply Forall_replicate).
  unfold weights.
  repeat (apply List.Forall_cons; [cbn [compose]; apply Hr; intros instr i usage ibc ibc'|]); [..|by apply List.Forall_nil].
  all: try reflexivity.
  all: try (unfold h_IMUL_RCP; destruct (negb _); [destruct (randomx_reciprocal _)|]; reflexivity).
  all: try (unfold h_ISWAP_R; destruct (negb _); reflexivity).
  all: cbn -[compile_mem_op compile_alu_reg reg8]; do 2 f_equal.
  all: try (unfold compile_mem_op; case_match; reflexivity).
  all: try (unfold compile_alu_reg; case_match; reflexivity).
Qed.

(** Two arrays agree on the live parts of the first [i] slots. *)
Definition agree (i : Z) (bc bc' : list InstructionByteCode) : Prop :=
  length bc = length bc' /\
  forall j, (Z.of_nat j < i) -> live <$> (bc !! j) = live <$> (bc' !! j).

Lemma compile_step_agree program i usage bc bc' usage1 bc1 usage2 bc2 :
  0 <= i -> agree i bc bc' ->
  compile_step program (usage, bc) i = Done (usage1, bc1) ->
  compile_step program (usage, bc') i = Done (usage2, bc2) ->
  usage1 = usage2 /\ agree (i + 1) bc1 bc2.
Proof.
  intros Hi [Hl Ha]. unfold compile_step. intros E1 E2.
  apply bind_Done in E1 as (instr & Ei & E1). rewrite Ei in E2. cbn [mbind outcome_bind] in E2.
  apply bind_Done in E1 as (s1 & Es1 & E1). apply bind_Done in E1 as ([u1 x1] & Ec1 & E1).
  apply bind_Done in E2 as (s2 & Es2 & E2). apply bind_Done in E2 as ([u2 x2] & Ec2 & E2).
  apply Done_pair in E1 as [<- <-]. apply Done_pair in E2 as [<- <-].
  unfold compile_instruction in Ec1, Ec2. apply bind_Done in Ec1 as (h & Eh & Ec1).
  rewrite Eh in Ec2. cbn [mbind outcome_bind] in Ec2.
  pose proof (at_index_Forall _ _ _ _ handlers_fresh Eh instr i usage s1 s2) as Hf.
  rewrite Ec1, Ec2 in Hf. cbn in Hf. injection Hf as -> Hx. split; [done|].
  apply at_index_Done in Es1 as [_ Es1]. apply at_index_Done in Es2 as [_ Es2].
  apply lookup_lt_Some in Es1, Es2. split; [by rewrite !length_insert|]. intros j Hj.
  destruct (decide (j = Z.to_nat i)) as [->|Hne].
  - rewrite !list_lookup_insert_eq by done. cbn. by rewrite Hx.
  - rewrite !list_lookup_insert_ne by done. apply Ha. lia.
Qed.

Lemma compile_loop_agree program n : forall i usage bc bc' usage1 bc1 usage2 bc2,
  0 <= i -> agree i bc bc' ->
  ofoldl (compile_step program) (usage, bc) (seqZ i (Z.of_nat n)) = Done (usage1, bc1) ->
  ofoldl (compile_step program) (usage, bc') (seqZ i (Z.of_nat n)) = Done (usage2, bc2) ->
  agree (i + Z.of_nat n) bc1 bc2.
Proof.
  induction n as [|n IH]; intros i usage bc bc' usage1 bc1 usage2 bc2 Hi Ha.
  - rewrite (seqZ_nil i (Z.of_nat 0)) by lia. cbn [ofoldl]. intros E1 E2. apply Done_pair in E1 as [_ <-].
    apply Done_pair in E2 as [_ <-]. by rewrite Z.add_0_r.
  - rewrite (seqZ_cons i (Z.of_nat (S n))) by lia. cbn [ofoldl].
    replace (Z.pred (Z.of_nat (S n))) with (Z.of_nat n) by lia.
    replace (Z.succ i) with (i + 1) by lia. intros E1 E2.
    apply bind_Done in E1 as ([u1 b1] & S1 & E1). apply bind_Done in E2 as ([u2 b2] & S2 & E2).
    destruct (compile_step_agree _ _ _ _ _ _ _ _ _ Hi Ha S1 S2) as [-> Ha'].
    replace (i + Z.of_nat (S n)) with (i + 1 + Z.of_nat n) by lia.
    eapply IH; [lia|exact Ha'|exact E1|exact E2].
Qed.

(** What the array held before does not show in the live part of the compiled program. *)
Lemma compile_program_live program bc bc' usage1 bc1 usage2 bc2 :
  length bc = 256%nat -> length bc' = 256%nat -> length bc1 = 256%nat -> length bc2 = 256%nat ->
  compile_program program bc = Done (usage1, bc1) ->
  compile_program program bc' = Done (usage2, bc2) ->
  live <$> bc1 = live <$> bc2.
Proof.
  intros L L' L1 L2 E1 E2.
  destruct (compile_loop_agree program 256 0 _ bc bc' _ _ _ _ ltac:(lia)
    ltac:(split; [by rewrite L, L'|lia]) E1 E2) as [_ H].
  apply list_eq. intros j. rewrite !list_lookup_fmap.
  destruct (decide (j < 256)%nat); [apply H; lia|].
  by rewrite !lookup_ge_None_2 by lia.
Qed.
