(* ===== verification/Vm.v ===== *)
(** * The virtual machine: state, program initialisation, the 2048-iteration loop

    Models the rest of the interpreted machine of src/src/vm.cpp: [initialize_vm_state], the
    dataset access in both modes, the body and the loop of [run_interpreted], and the setters.
    The generator that produces the program bytes and the final hashing are in Hash.v. *)

From S2P Require Import Prelude RandomX Argon2 Dataset.
From S2P Require Import Float Bytecode BytecodeSafety BytecodeTermination.

(** ** State *)

Record VirtualMachine : Type := mkVM {
  flags_ : Z;
  cache_ : option Argon2dCache;
  dataset_ : list Z;
  dataset_offset_ : Z;
  mx_ : Z;
  ma_ : Z;
  e_mask_ : Z * Z;
  read_reg0_ : Z;
  read_reg1_ : Z;
  read_reg2_ : Z;
  read_reg3_ : Z;
  core_ : xstate;  (* reg_, scratchpad_data_, last_rounding_mode_, the thread's rounding direction *)
  program_ : list Instruction;
  entropy_ : list Z;
  bytecode_ : list InstructionByteCode;
}.

Definition kRandOMXFlagFullMem : Z := 32.
Definition is_fast_mode (vm : VirtualMachine) : bool :=
  negb (Z.land (flags_ vm) kRandOMXFlagFullMem =? 0).

Definition set_core (c : xstate) (vm : VirtualMachine) : VirtualMachine :=
  mkVM (flags_ vm) (cache_ vm) (dataset_ vm) (dataset_offset_ vm) (mx_ vm) (ma_ vm) (e_mask_ vm)
    (read_reg0_ vm) (read_reg1_ vm) (read_reg2_ vm) (read_reg3_ vm) c (program_ vm) (entropy_ vm)
    (bytecode_ vm).

Definition set_bytecode (b : list InstructionByteCode) (vm : VirtualMachine) : VirtualMachine :=
  mkVM (flags_ vm) (cache_ vm) (dataset_ vm) (dataset_offset_ vm) (mx_ vm) (ma_ vm) (e_mask_ vm)
    (read_reg0_ vm) (read_reg1_ vm) (read_reg2_ vm) (read_reg3_ vm) (core_ vm) (program_ vm)
    (entropy_ vm) b.

Definition set_mem_regs (mx ma : Z) (vm : VirtualMachine) : VirtualMachine :=
  mkVM (flags_ vm) (cache_ vm) (dataset_ vm) (dataset_offset_ vm) mx ma (e_mask_ vm)
    (read_reg0_ vm) (read_reg1_ vm) (read_reg2_ vm) (read_reg3_ vm) (core_ vm) (program_ vm)
    (entropy_ vm) (bytecode_ vm).

Definition set_cache (cache : option Argon2dCache) (vm : VirtualMachine) : VirtualMachine :=
  mkVM (flags_ vm) cache (dataset_ vm) (dataset_offset_ vm) (mx_ vm) (ma_ vm) (e_mask_ vm)
    (read_reg0_ vm) (read_reg1_ vm) (read_reg2_ vm) (read_reg3_ vm) (core_ vm) (program_ vm)
    (entropy_ vm) (bytecode_ vm).

(** [set_dataset]: in fast mode only a span of the full dataset size is accepted. *)
Definition set_dataset (dataset : list Z) (vm : VirtualMachine) : bool * VirtualMachine :=
  if is_fast_mode vm && negb (Z.of_nat (length dataset) =? kRandomXDatasetBytes) then (false, vm)
  else (true,
    mkVM (flags_ vm) (cache_ vm) dataset (dataset_offset_ vm) (mx_ vm) (ma_ vm) (e_mask_ vm)
      (read_reg0_ vm) (read_reg1_ vm) (read_reg2_ vm) (read_reg3_ vm) (core_ vm) (program_ vm)
      (entropy_ vm) (bytecode_ vm)).

Definition reset_rounding_mode (vm : VirtualMachine) : VirtualMachine :=
  let c := core_ vm in set_core (mkX (reg_ c) (scratchpad_ c) 0 ToNearest) vm.

(** The constructor ([mapped]: whether the scratchpad could be mapped; a fresh mapping is zero). *)
Definition fresh_vm (mapped : bool) (flags : Z) : outcome VirtualMachine :=
  if negb mapped then Throw bad_alloc else
  let zero := mkFloat 0 0 in
  Done (mkVM flags None [] 0 0 0 (0, 0) 0 0 0 0
    (mkX (mkRegisterFile (replicate 8 0) (replicate 4 zero) (replicate 4 zero) (replicate 4 zero))
       (replicate (Z.to_nat kRandomXScratchpadBytes) 0) 0xFF ToNearest)
    (replicate 256 (mkInstruction 0 0 0 0 0)) (replicate 16 0) (replicate 256 ibc_init)).

(** ** Program initialisation *)

Definition mantissaMask : Z := 2 ^ mantissaSize - 1.
Definition exponentMask : Z := 2 ^ 11 - 1.
Definition exponentBias : Z := 1023.
Definition constExponentBits : Z := 0x300.

Definition getSmallPositiveFloatBits (entropy : Z) : Z :=
  let exponent := Z.shiftr entropy 59 in
  let mantissa := Z.land entropy mantissaMask in
  let exponent := add64 exponent exponentBias in
  let exponent := Z.land exponent exponentMask in
  let exponent := shl64 exponent mantissaSize in
  Z.lor exponent mantissa.

Definition getStaticExponent (entropy : Z) : Z :=
  let exponent := Z.lor constExponentBits (shl64 (Z.shiftr entropy (64 - 4)) 4) in
  shl64 exponent mantissaSize.

Definition getFloatMask (entropy : Z) : Z :=
  Z.lor (Z.land entropy (2 ^ 22 - 1)) (getStaticExponent entropy).

Definition small (entropy : list Z) (i : nat) : Z := getSmallPositiveFloatBits (entropy !!! i).

Definition initialize_vm_state (vm : VirtualMachine) : VirtualMachine :=
  let en := entropy_ vm in
  let rf := reg_ (core_ vm) in
  let regs := mkRegisterFile (replicate 8 0) (f rf) (e rf)
    [mkFloat (small en 0) (small en 1); mkFloat (small en 2) (small en 3);
     mkFloat (small en 4) (small en 5); mkFloat (small en 6) (small en 7)] in
  let ma := wrap 32 (Z.land (en !!! 8%nat) 0x7fffffc0) in
  let mx := wrap 32 (en !!! 10%nat) in
  let ar := en !!! 12%nat in
  mkVM (flags_ vm) (cache_ vm) (dataset_ vm)
    ((en !!! 13%nat) mod 524288 * 64) mx ma
    (getFloatMask (en !!! 14%nat), getFloatMask (en !!! 15%nat))
    (0 + Z.land ar 1) (2 + Z.land (Z.shiftr ar 1) 1) (4 + Z.land (Z.shiftr ar 2) 1)
    (6 + Z.land (Z.shiftr ar 3) 1)
    (set_reg_file regs (core_ vm)) (program_ vm) en (bytecode_ vm).

(** ** Dataset access *)

Definition xor_words (rs : list Z) (bytes : list Z) : list Z :=
  (fun i => Z.lxor (rs !!! i) (of_le (take 8 (drop (8 * i) bytes)))) <$> seq 0 8.

(** In fast mode an address outside the dataset leaves the registers alone (the assertion only
    logs in release builds). *)
Definition dataset_read (vm : VirtualMachine) (address : Z) (rs : list Z) : outcome (list Z) :=
  if is_fast_mode vm then
    if Z.of_nat (length (dataset_ vm)) <? add64 address 64 then Done rs else
    line ← read_bytes (dataset_ vm) address 64;
    Done (xor_words rs line)
  else
    let itemNumber := wrap 32 (address / 64) in
    match cache_ vm with
    | None => UB
    | Some cache =>
        item ← generate_dataset_item cache itemNumber;
        Done (xor_words rs item)
    end.

(** ** One iteration of [run_interpreted] *)

(** The eight words at [spAddr0], XORed into the integer registers. *)
Definition load_registers (spAddr0 : Z) (c : xstate) : outcome (list Z) :=
  line ← read_bytes (scratchpad_ c) spAddr0 64;
  Done (xor_words (r (reg_ c)) line).

Fixpoint load_pairs (c : xstate) (addr : Z) (n : nat) : outcome (list FloatRegister) :=
  match n with
  | O => Done []
  | S n =>
      x ← load_int_pair c addr;
      xs ← load_pairs c (addr + 8) n;
      Done (x :: xs)
  end.

Definition xor_float (x y : FloatRegister) : FloatRegister :=
  mkFloat (Z.lxor (lo x) (lo y)) (Z.lxor (hi x) (hi y)).

Definition float_bytes (x : FloatRegister) : list Z := le_bytes 8 (lo x) ++ le_bytes 8 (hi x).

Definition store_bytes (addr : Z) (bs : list Z) (c : xstate) : outcome xstate :=
  mem ← write_bytes (scratchpad_ c) addr bs;
  Done (mkX (reg_ c) mem (last_rounding_mode_ c) (fe_round c)).

Definition iteration (st : VirtualMachine * Z * Z) (ic : Z) : outcome (VirtualMachine * Z * Z) :=
  let '(vm, spAddr0, spAddr1) := st in
  let c := core_ vm in
  r0 ← at_index (r (reg_ c)) (read_reg0_ vm);
  r1 ← at_index (r (reg_ c)) (read_reg1_ vm);
  let spMix := Z.lxor r0 r1 in
  let spAddr0 := Z.land (Z.lxor spAddr0 (wrap 32 spMix)) kScratchpadL3Mask64 in
  let spAddr1 := Z.land (Z.lxor spAddr1 (wrap 32 (Z.shiftr spMix 32))) kScratchpadL3Mask64 in
  rs ← load_registers spAddr0 c;
  fs ← load_pairs c spAddr1 4;
  es ← load_pairs c (spAddr1 + 32) 4;
  let es := mask_float (e_mask_ vm) <$> es in
  let c := set_reg_file (mkRegisterFile rs fs es (a (reg_ c))) c in
  c ← execute_bytecode (e_mask_ vm) (bytecode_ vm) c;
  let readPtr := add64 (dataset_offset_ vm) (Z.land (ma_ vm) 0x7fffffc0) in
  r2 ← at_index (r (reg_ c)) (read_reg2_ vm);
  r3 ← at_index (r (reg_ c)) (read_reg3_ vm);
  let mx := Z.lxor (mx_ vm) (wrap 32 (Z.lxor r2 r3)) in
  rs ← dataset_read vm readPtr (r (reg_ c));
  let vm := set_mem_regs (ma_ vm) mx vm in
  c ← store_bytes spAddr1 (concat (le_bytes 8 <$> rs)) c;
  let fs := zip_with xor_float (f (reg_ c)) (e (reg_ c)) in
  let c := set_reg_file (mkRegisterFile rs fs (e (reg_ c)) (a (reg_ c))) c in
  c ← store_bytes spAddr0 (concat (float_bytes <$> fs)) c;
  Done (set_core c vm, 0, 0).

Definition run_interpreted (vm : VirtualMachine) : outcome VirtualMachine :=
  '(_, bytecode) ← compile_program (program_ vm) (bytecode_ vm);
  let vm := set_bytecode bytecode vm in
  '(vm, _, _) ← ofoldl iteration (vm, mx_ vm, ma_ vm) (seqZ 0 2048);
  Done vm.

(** ** Invariants *)

Definition memory_ok (vm : VirtualMachine) : Prop :=
  if is_fast_mode vm
  then Z.of_nat (length (dataset_ vm)) = kRandomXDatasetBytes /\ Bytes (dataset_ vm)
  else exists c, cache_ vm = Some c /\ cache_ready c.

(** Between programs: everything except the A registers, which the next program sets. *)
Record vm_idle (vm : VirtualMachine) : Prop := mkIdle {
  vi_r : length (r (reg_ (core_ vm))) = 8%nat /\ Words (r (reg_ (core_ vm)));
  vi_f : length (f (reg_ (core_ vm))) = 4%nat /\ Forall f_wf (f (reg_ (core_ vm)));
  vi_e : length (e (reg_ (core_ vm))) = 4%nat /\ Forall e_wf (e (reg_ (core_ vm)));
  vi_mem : Z.of_nat (length (scratchpad_ (core_ vm))) = kRandomXScratchpadBytes /\
           Bytes (scratchpad_ (core_ vm));
  vi_entropy : Words (entropy_ vm);
  vi_program : length (program_ vm) = 256%nat /\ Forall instruction_wf (program_ vm);
  vi_bytecode : length (bytecode_ vm) = 256%nat /\ Forall slot_ok (bytecode_ vm);
  vi_memory : memory_ok vm;
}.

Definition reg_index (i : Z) : Prop := 0 <= i < 8.

(** While a program runs. *)
Record vm_running (vm : VirtualMachine) : Prop := mkRunning {
  vr_idle : vm_idle vm;
  vr_core : x_wf (core_ vm);
  vr_mask : mask_wf (e_mask_ vm);
  vr_regs : reg_index (read_reg0_ vm) /\ reg_index (read_reg1_ vm) /\
            reg_index (read_reg2_ vm) /\ reg_index (read_reg3_ vm);
  vr_offset : 0 <= dataset_offset_ vm <= 524287 * 64 /\ dataset_offset_ vm mod 64 = 0;
  vr_mx : word32 (mx_ vm) /\ word32 (ma_ vm);
}.

Lemma small_float_apos x : word64 x -> apos (getSmallPositiveFloatBits x).
Proof.
  intros Hx. unfold getSmallPositiveFloatBits.
  assert (in_range 5 (Z.shiftr x 59)) as [H0 H1] by (apply (shiftr_range_sub 64 x 59); [lia|done]).
  set (ex := Z.shiftr x 59) in *. change (2 ^ 5) with 32 in H1.
  assert (add64 ex exponentBias = ex + 1023) as -> by (apply wrap_small; unfold exponentBias; split; lia).
  replace (Z.land (ex + 1023) exponentMask) with (ex + 1023)
    by (change exponentMask with (Z.ones 11); rewrite Z.land_ones, Z.mod_small by lia; done).
  assert (shl64 (ex + 1023) mantissaSize = (ex + 1023) * 2 ^ 52) as ->.
  { unfold shl64. rewrite Z.shiftl_mul_pow2 by (unfold mantissaSize; lia).
    apply wrap_small. unfold mantissaSize. split; lia. }
  set (mm := Z.land x mantissaMask).
  assert (in_range 52 mm) as Hm by (apply land_range_r; [lia|by split]).
  assert (Z.lor ((ex + 1023) * 2 ^ 52) mm = (ex + 1023) * 2 ^ 52 + mm) as ->.
  { rewrite <- Z.shiftl_mul_pow2 by lia. symmetry. apply Z.add_nocarry_lor.
    apply Z.bits_inj'; intros i Hi; rewrite Z.land_spec, Z.bits_0, Z.shiftl_spec by lia.
    destruct (Z.lt_ge_cases i 52); [by rewrite (Z.testbit_neg_r _ (i - 52)) by lia|].
    by rewrite (testbit_high 52 mm i), andb_false_r by (done || lia). }
  destruct Hm. unfold apos, inf_bits. lia.
Qed.

Lemma float_mask_ok x : word64 x -> 0 < getFloatMask x < 2 ^ 62.
Proof.
  intros Hx. unfold getFloatMask, getStaticExponent.
  assert (in_range 4 (Z.shiftr x (64 - 4))) as [H0 H1] by (apply (shiftr_range_sub 64 x 60); [lia|done]).
  set (h := Z.shiftr x (64 - 4)) in *.
  assert (in_range 10 (Z.lor constExponentBits (shl64 h 4))) as [Hl Hu].
  { apply lor_range; [lia|by split|]. unfold shl64. rewrite Z.shiftl_mul_pow2 by lia.
    rewrite wrap_small; split; lia. }
  set (ex := Z.lor constExponentBits (shl64 h 4)) in *.
  assert (0 < ex) as Hpos.
  { assert (ex <> 0); [|lia]. subst ex. rewrite Z.lor_eq_0_iff. unfold constExponentBits. lia. }
  assert (shl64 ex mantissaSize = ex * 2 ^ 52) as ->.
  { unfold shl64. rewrite Z.shiftl_mul_pow2 by (unfold mantissaSize; lia).
    apply wrap_small. unfold mantissaSize. split; lia. }
  assert (in_range 62 (Z.lor (Z.land x (2 ^ 22 - 1)) (ex * 2 ^ 52))) as [Ha Hb].
  { apply lor_range; [lia| |split; lia]. apply land_range_r; [lia|by split]. }
  split; [|done].
  assert (Z.lor (Z.land x (2 ^ 22 - 1)) (ex * 2 ^ 52) <> 0); [|lia]. rewrite Z.lor_eq_0_iff. lia.
Qed.

Lemma land_1_range x : 0 <= Z.land x 1 <= 1.
Proof.
  pose proof (Z.land_ones x 1 ltac:(lia)) as E. change (Z.ones 1) with 1 in E. rewrite E.
  pose proof (Z.mod_pos_bound x (2 ^ 1) ltac:(lia)). lia.
Qed.

Lemma initialize_running vm : vm_idle vm -> vm_running (initialize_vm_state vm).
Proof.
  intros [Hr Hf He Hmem Hen Hp Hb Hmm].
  assert (Hw : forall i, word64 (entropy_ vm !!! i)) by (intros; by apply Forall_lookup_total_range).
  assert (Hz : Words (replicate 8 0)) by (by apply Forall_replicate).
  assert (Hs : forall i, apos (small (entropy_ vm) i)) by (intros; by apply small_float_apos).
  constructor; cbn -[Z.land Z.shiftr Z.modulo Z.mul wrap small getFloatMask replicate].
  - by constructor.
  - constructor; try done; cbn -[small replicate]. split; [done|].
    repeat (apply List.Forall_cons; [split; cbn [lo hi]; apply Hs|]). apply List.Forall_nil.
  - split; by apply float_mask_ok.
  - unfold reg_index. pose proof (land_1_range (entropy_ vm !!! 12%nat)).
    pose proof (land_1_range (Z.shiftr (entropy_ vm !!! 12%nat) 1)).
    pose proof (land_1_range (Z.shiftr (entropy_ vm !!! 12%nat) 2)).
    pose proof (land_1_range (Z.shiftr (entropy_ vm !!! 12%nat) 3)). lia.
  - pose proof (Z.mod_pos_bound (entropy_ vm !!! 13%nat) 524288 ltac:(lia)). split; [lia|].
    by rewrite Z.mod_mul by lia.
  - split; apply wrap_range; lia.
Qed.

(** ** The loop *)

Lemma xor_words_wf rs bs : Words rs -> Bytes bs -> length (xor_words rs bs) = 8%nat /\ Words (xor_words rs bs).
Proof.
  intros Hr Hb. unfold xor_words. split; [by rewrite length_fmap, length_seq|].
  apply Forall_fmap, Forall_forall. intros i _. cbn. apply lxor_range; [lia|auto with word|].
  eapply in_range_mono; [|apply of_le_range; by apply Forall_take, Forall_drop].
  rewrite length_take. lia.
Qed.

(** The address of a dataset access stays inside the dataset, in both modes. *)
Lemma read_address offset ma :
  0 <= offset <= 524287 * 64 -> 0 <= ma ->
  add64 offset (Z.land ma 0x7fffffc0) = offset + Z.land ma 0x7fffffc0 /\
  0 <= Z.land ma 0x7fffffc0 <= 0x7fffffc0 /\
  offset + Z.land ma 0x7fffffc0 + 64 <= kRandomXDatasetBytes /\
  Z.land ma 0x7fffffc0 mod 64 = 0.
Proof.
  intros Ho Hma. pose proof (land_mask_bound ma 0x7fffffc0 31 Hma ltac:(lia)) as Hb.
  change kRandomXDatasetBytes with 2181038080. split; [|split; [done|split; [lia|]]].
  - apply wrap_small. split; lia.
  - change 64 with (2 ^ 6). rewrite <- Z.land_ones, <- Z.land_assoc by lia.
    change (Z.land 0x7fffffc0 (Z.ones 6)) with 0. apply Z.land_0_r.
Qed.

Lemma dataset_read_ok vm address rs :
  memory_ok vm -> 0 <= address -> address + 64 <= kRandomXDatasetBytes -> Words rs ->
  returns (fun rs' => length rs' = 8%nat /\ Words rs') (dataset_read vm address rs).
Proof.
  intros Hm H0 H1 Hr. unfold dataset_read, memory_ok in *. destruct (is_fast_mode vm).
  - destruct Hm as [Hl Hb]. change kRandomXDatasetBytes with 2181038080 in *. rewrite Hl.
    unfold add64. rewrite wrap_small by (split; lia).
    destruct (Z.ltb_spec 2181038080 (address + 64)); [lia|].
    rewrite read_bytes_ok by (rewrite ?Hl; simpl; lia). cbn [mbind outcome_bind returns].
    apply xor_words_wf; [done|]. by apply Forall_take, Forall_drop.
  - destruct Hm as (c & -> & Hc).
    destruct (generate_dataset_item_ok c Hc (wrap 32 (address / 64))) as (item & -> & _ & Hb).
    by apply xor_words_wf.
Qed.

Lemma load_pairs_ok c n addr :
  x_wf c -> 0 <= addr -> addr + 8 * Z.of_nat n <= kRandomXScratchpadBytes ->
  returns (fun xs => length xs = n /\ Forall f_wf xs) (load_pairs c addr n).
Proof.
  intros Hc. revert addr. induction n as [|n IH]; intros addr H0 H1; cbn [load_pairs]; [done|].
  eapply returns_bind; [apply load_int_pair_ok; [done|split; lia]|]. intros x Hx.
  eapply returns_bind; [apply IH; lia|]. intros xs [Hl Hxs]. cbn. split; [lia|by constructor].
Qed.

Lemma store_bytes_ok addr bs c :
  Z.of_nat (length (scratchpad_ c)) = kRandomXScratchpadBytes /\ Bytes (scratchpad_ c) ->
  Bytes bs -> 0 <= addr -> addr + Z.of_nat (length bs) <= kRandomXScratchpadBytes ->
  returns (fun c' => reg_ c' = reg_ c /\ Z.of_nat (length (scratchpad_ c')) = kRandomXScratchpadBytes /\
                     Bytes (scratchpad_ c')) (store_bytes addr bs c).
Proof.
  intros [Hl Hm] Hb H0 H1. unfold store_bytes.
  destruct (write_bytes (scratchpad_ c) addr bs) as [m| | |] eqn:E;
    try (rewrite write_bytes_ok in E by lia; done).
  cbn. split; [done|]. rewrite (write_bytes_length _ _ _ _ E). split; [done|].
  by eapply write_bytes_range; [exact Hm|exact Hb|exact E].
Qed.

Lemma length_float_bytes l : length (concat (float_bytes <$> l)) = (16 * length l)%nat.
Proof.
  induction l as [|x l IH]; [done|].
  change (float_bytes <$> x :: l) with (float_bytes x :: (float_bytes <$> l)).
  cbn [concat length]. rewrite length_app, IH. cbn. lia.
Qed.

Lemma float_bytes_range l : Bytes (concat (float_bytes <$> l)).
Proof.
  apply Forall_concat, Forall_fmap, Forall_forall. intros x _. apply Forall_app.
  split; apply le_bytes_range.
Qed.

Lemma xor_floats_wf fs es :
  length fs = 4%nat -> length es = 4%nat -> Forall f_wf fs -> Forall e_wf es ->
  length (zip_with xor_float fs es) = 4%nat /\ Forall f_wf (zip_with xor_float fs es).
Proof.
  intros Lf Le Hf He. split; [rewrite length_zip_with; lia|].
  apply (Forall_zip_with_fst _ f_wf); [done|]. eapply list.Forall_impl; [exact He|].
  intros y [? ?] x [? ?]. split; cbn; auto with word.
Qed.

Lemma l3_address x : 0 <= x -> 0 <= Z.land x kScratchpadL3Mask64 /\
  Z.land x kScratchpadL3Mask64 + 64 <= kRandomXScratchpadBytes.
Proof.
  intros Hx. pose proof (land_mask_bound x kScratchpadL3Mask64 21 Hx ltac:(by split)) as Hb.
  change kScratchpadL3Mask64 with 2097088 in *. change kRandomXScratchpadBytes with 2097152. lia.
Qed.

(** The loop invariant: a running machine with a compiled program and two 32-bit addresses. *)
Definition loop_inv (st : VirtualMachine * Z * Z) : Prop :=
  let '(vm, a0, a1) := st in vm_running vm /\ compiled (bytecode_ vm) /\ word32 a0 /\ word32 a1.

Lemma compiled_slots bc : compiled bc -> length bc = 256%nat /\ Forall slot_ok bc.
Proof.
  intros [Hl Hw _]. split; [done|]. eapply list.Forall_impl; [exact Hw|]. by intros x (_ & ? & ?).
Qed.

Lemma word32_lxor x y : word32 x -> word32 y -> word32 (Z.lxor x y).
Proof. apply lxor_range. lia. Qed.
Lemma wrap32_range x : word32 (wrap 32 x).
Proof. apply wrap_range. lia. Qed.

Lemma reg_read c i : x_wf c -> reg_index i -> returns word64 (at_index (r (reg_ c)) i).
Proof.
  intros [[Hl Hr] _ _ _ _] Hi. apply returns_Done, at_index_ok; [done|].
  unfold reg_index in Hi. rewrite Hl. exact Hi.
Qed.

(** The first half of an iteration: the registers loaded from the two scratchpad lines. *)
Lemma loaded_wf c rs fs es m :
  x_wf c -> mask_wf m -> length rs = 8%nat /\ Words rs -> length fs = 4%nat /\ Forall f_wf fs ->
  length es = 4%nat /\ Forall f_wf es ->
  x_wf (set_reg_file (mkRegisterFile rs fs (mask_float m <$> es) (a (reg_ c))) c).
Proof.
  intros [_ _ _ Ha Hmem] Hm Hrs Hfs [Le He]. constructor; cbn; auto.
  rewrite length_fmap. split; [done|]. apply Forall_fmap. eapply list.Forall_impl; [exact He|].
  intros x Hx. pose proof (mask_float_ok m x Hm Hx) as [? ?]. split; auto with word.
Qed.

(** The machine after an iteration, from the state after the bytecode. *)
Lemma finish_running vm c rs mx c2 :
  vm_running vm -> x_wf c -> word32 mx -> length rs = 8%nat -> Words rs ->
  reg_ c2 = mkRegisterFile rs (zip_with xor_float (f (reg_ c)) (e (reg_ c))) (e (reg_ c)) (a (reg_ c)) ->
  Z.of_nat (length (scratchpad_ c2)) = kRandomXScratchpadBytes /\ Bytes (scratchpad_ c2) ->
  vm_running (set_core c2 (set_mem_regs (ma_ vm) mx vm)).
Proof.
  intros [[_ _ _ _ Hen Hp Hb Hmm] _ Hm Hi Ho [_ Hma]] [Hr [Lf Hf] [Le He] [La Ha] _] Hmx Lr Wr E Hmem.
  destruct (xor_floats_wf _ _ Lf Le Hf He) as [Lx Hx].
  constructor; cbn [core_ set_core set_mem_regs e_mask_ read_reg0_ read_reg1_ read_reg2_ read_reg3_
    dataset_offset_ mx_ ma_]; auto.
  - constructor; cbn [core_ set_core set_mem_regs]; rewrite ?E; try done.
  - constructor; rewrite ?E; cbn [r f e a]; auto.
Qed.

Lemma iteration_ok st ic : loop_inv st -> returns loop_inv (iteration st ic).
Proof.
  destruct st as [[vm a0] a1]. intros (Hvm & Hbc & H0 & H1). unfold iteration.
  pose proof Hvm as [Hidle Hc Hm (I0 & I1 & I2 & I3) [Ho _] [Hmx Hma]].
  eapply returns_bind; [by apply reg_read|]. intros r0 Hr0.
  eapply returns_bind; [by apply reg_read|]. intros r1 Hr1.
  set (spMix := Z.lxor r0 r1). cbv zeta.
  set (s0 := Z.land (Z.lxor a0 _) _). set (s1 := Z.land (Z.lxor a1 _) _).
  assert (0 <= s0 /\ s0 + 64 <= kRandomXScratchpadBytes) as Hs0
    by (apply l3_address, (word32_lxor _ _ H0 (wrap32_range _))).
  assert (0 <= s1 /\ s1 + 64 <= kRandomXScratchpadBytes) as Hs1
    by (apply l3_address, (word32_lxor _ _ H1 (wrap32_range _))).
  eapply (returns_bind (fun rs => length rs = 8%nat /\ Words rs)).
  { unfold load_registers. destruct Hc as [[_ Wr] _ _ _ [Hl Hb]].
    rewrite read_bytes_ok by (simpl; lia). apply xor_words_wf; [done|]. by apply Forall_take, Forall_drop. }
  intros rs Hrs. eapply returns_bind; [apply load_pairs_ok; [done|lia|simpl; lia]|]. intros fs Hfs.
  eapply returns_bind; [apply load_pairs_ok; [done|lia|simpl; lia]|]. intros es Hes.
  eapply returns_bind; [apply execute_bytecode_ok; [done|done|by apply loaded_wf]|].
  intros c2 [Hc2 _].
  eapply returns_bind; [by apply reg_read|]. intros r2 Hr2.
  eapply returns_bind; [by apply reg_read|]. intros r3 Hr3.
  destruct (read_address (dataset_offset_ vm) (ma_ vm) Ho (proj1 Hma)) as (-> & Hb1 & Hb2 & _).
  eapply returns_bind; [apply dataset_read_ok; [apply Hidle|lia|lia|apply Hc2]|].
  intros rs2 [Lr2 Wr2].
  eapply returns_bind; [apply store_bytes_ok; [apply Hc2|apply words_bytes_range|lia|
    rewrite length_words_bytes, Lr2; simpl; lia]|].
  intros c3 (E3 & Hm3). rewrite E3.
  destruct Hc2 as [R2 [Lf2 Hf2] [Le2 He2] A2 M2].
  eapply returns_bind; [apply store_bytes_ok; [exact Hm3|apply float_bytes_range|lia|]|].
  { rewrite length_float_bytes, length_zip_with, Lf2, Le2. simpl. lia. }
  intros c4 (E4 & Hm4). cbn [returns loop_inv]. split; [|split; [done|by split]].
  eapply finish_running; [done|by constructor| |done|done|exact E4|done].
  apply word32_lxor; [done|apply wrap32_range].
Qed.

Lemma ofoldl_inv_returns {A B} (P : A -> Prop) (g : A -> B -> outcome A) l x :
  (forall x b, P x -> returns P (g x b)) -> P x -> returns P (ofoldl g x l).
Proof.
  intros Hg. revert x. induction l as [|b l IH]; intros x Hx; cbn [ofoldl]; [done|].
  eapply returns_bind; [by apply Hg|]. exact IH.
Qed.

Lemma run_interpreted_ok vm : vm_running vm -> returns vm_running (run_interpreted vm).
Proof.
  intros Hvm. pose proof Hvm as [[_ _ _ _ _ [Lp Hp] [Lb Hb] _] _ _ _ _ [Hmx Hma]]. unfold run_interpreted.
  eapply returns_bind; [by apply compile_program_compiled|]. intros [usage bc] Hc. cbn [snd] in Hc.
  eapply (returns_bind loop_inv).
  - apply ofoldl_inv_returns; [intros; by apply iteration_ok|]. split; [|by split_and!].
    destruct Hvm as [[] ]. constructor; cbn; auto. constructor; cbn; auto. by apply compiled_slots.
  - intros [[vm' a0] a1] [H _]. exact H.
Qed.

(** C8: from any machine between programs, whatever its entropy and program bytes, setting up the
    program and running the 2048 iterations returns a machine in the same condition: every
    scratchpad, register and dataset access is in bounds in fast mode (a dataset of the full size)
    and in light mode (an initialised cache); in fast mode the guard in [dataset_read] that skips the
    read never fires. *)
Theorem run_interpreted_safe vm :
  vm_idle vm ->
  (exists vm', run_interpreted (initialize_vm_state vm) = Done vm' /\ vm_running vm') /\
  (forall ma, word32 ma ->
     let address := add64 (dataset_offset_ (initialize_vm_state vm)) (Z.land ma 0x7fffffc0) in
     0 <= address /\ add64 address 64 <= kRandomXDatasetBytes).
Proof.
  intros Hvm. pose proof (initialize_running vm Hvm) as Hr. split.
  - apply returns_Done, run_interpreted_ok, Hr.
  - intros ma [Hma _] address. destruct Hr as [_ _ _ _ [Ho _] _].
    destruct (read_address (dataset_offset_ (initialize_vm_state vm)) ma Ho Hma) as (E & H1 & H2 & _).
    subst address. rewrite E. split; [lia|]. unfold add64.
    rewrite wrap_small; [lia|]. change kRandomXDatasetBytes with 2181038080 in H2. split; lia.
Qed.

(** A fresh machine in light mode with an initialised cache is ready to run. *)
Definition light_vm : VirtualMachine :=
  mkVM 0 (Some idle_cache) [] 0 0 0 (0, 0) 0 0 0 0 demo_state
    (replicate 256 (mkInstruction 0 0 0 0 0)) (replicate 16 0) (replicate 256 ibc_init).

Lemma light_vm_idle : vm_idle light_vm.
Proof.
  destruct demo_state_wf as [Hr Hf He _ Hm]. constructor; try done.
  - by apply Forall_replicate.
  - split; [done|]. apply Forall_replicate. unfold instruction_wf, in_range. cbn. lia.
  - split; [done|]. apply Forall_replicate. unfold slot_ok, in_range. cbn. lia.
  - exists idle_cache. split; [done|apply idle_cache_ready].
Qed.

Lemma run_interpreted_safe_witness :
  exists vm', run_interpreted (initialize_vm_state light_vm) = Done vm' /\ vm_running vm'.
Proof. exact (proj1 (run_interpreted_safe light_vm light_vm_idle)). Defined.

(** ** Light mode and fast mode agree *)

(** The same machine with another mode and memory. *)
Definition with_memory (flags : Z) (cache : option Argon2dCache) (dataset : list Z)
  (vm : VirtualMachine) : VirtualMachine :=
  mkVM flags cache dataset (dataset_offset_ vm) (mx_ vm) (ma_ vm) (e_mask_ vm)
    (read_reg0_ vm) (read_reg1_ vm) (read_reg2_ vm) (read_reg3_ vm) (core_ vm) (program_ vm)
    (entropy_ vm) (bytecode_ vm).

Definition full_dataset (c : Argon2dCache) : list Z := items_from c 0 randomx_dataset_item_count.

Section modes.
Context (c : Argon2dCache) (Hc : cache_ready c).
Context (light fast : Z) (cache : option Argon2dCache) (unused : list Z).
Hypothesis Hlight : Z.land light kRandOMXFlagFullMem = 0.
Hypothesis Hfast : Z.land fast kRandOMXFlagFullMem <> 0.

Definition as_light (vm : VirtualMachine) := with_memory light (Some c) unused vm.
Definition as_fast (vm : VirtualMachine) := with_memory fast cache (full_dataset c) vm.

Lemma full_dataset_line k :
  0 <= k < randomx_dataset_item_count ->
  read_bytes (full_dataset c) (k * 64) 64 = Done (item_of c k).
Proof.
  intros Hk. unfold full_dataset.
  assert (items_from c 0 randomx_dataset_item_count =
    items_from c 0 k ++ item_of c k ++ items_from c (k + 1) (randomx_dataset_item_count - k - 1)) as ->.
  { replace randomx_dataset_item_count with (k + (1 + (randomx_dataset_item_count - k - 1))) at 1 by lia.
    rewrite !items_from_app, items_from_1 by lia. done. }
  pose proof (length_items_from c Hc 0 k) as Hl. destruct (item_of_spec c Hc k) as [_ Hi].
  rewrite read_bytes_ok by (rewrite ?length_app, ?Hl, ?Hi; lia). f_equal.
  rewrite drop_app_length' by lia. rewrite take_app_length' by lia. done.
Qed.

Lemma dataset_read_agree vm address rs :
  0 <= address -> address + 64 <= kRandomXDatasetBytes -> address mod 64 = 0 ->
  dataset_read (as_fast vm) address rs = dataset_read (as_light vm) address rs.
Proof.
  intros H0 H1 H64. change kRandomXDatasetBytes with 2181038080 in H1.
  unfold dataset_read, is_fast_mode. cbn [flags_ as_fast as_light with_memory cache_ dataset_].
  rewrite Hlight. destruct (Z.eqb_spec (Z.land fast kRandOMXFlagFullMem) 0) as [|_]; [done|]. cbn [negb Z.eqb].
  assert (address = address / 64 * 64) as Ea by (rewrite (Z.div_mod address 64) at 1 by lia; lia).
  assert (0 <= address / 64 < randomx_dataset_item_count) as Hk.
  { change randomx_dataset_item_count with 34078720. split; [apply Z.div_pos; lia|].
    apply Z.div_lt_upper_bound; lia. }
  assert (Z.of_nat (length (full_dataset c)) = 2181038080) as Hl.
  { unfold full_dataset. rewrite (length_items_from c Hc). rewrite Nat2Z.inj_mul, Z2Nat.id by done. done. }
  rewrite Hl. unfold add64. rewrite wrap_small by (split; lia).
  destruct (Z.ltb_spec 2181038080 (address + 64)); [lia|].
  rewrite (wrap_small 32) by (change randomx_dataset_item_count with 34078720 in Hk; split; lia).
  rewrite Ea at 1. rewrite full_dataset_line by done.
  by destruct (item_of_spec c Hc (address / 64)) as [-> _].
Qed.

#[local] Opaque full_dataset execute_bytecode dataset_read load_registers load_pairs store_bytes.

Definition to_fast (st : VirtualMachine * Z * Z) : VirtualMachine * Z * Z :=
  let '(vm, a0, a1) := st in (as_fast vm, a0, a1).

(** The two machines share every field but the memory. *)
Ltac same_fields vm :=
  repeat match goal with
    | |- context [?p (as_fast vm)] =>
        first [constr_eq p dataset_read; fail 1 | change (p (as_fast vm)) with (p vm)]
    | |- context [?p (as_light vm)] =>
        first [constr_eq p dataset_read; fail 1 | change (p (as_light vm)) with (p vm)]
    end.

Lemma running_read_agree vm rs :
  vm_running (as_light vm) ->
  let address := add64 (dataset_offset_ vm) (Z.land (ma_ vm) 0x7fffffc0) in
  dataset_read (as_fast vm) address rs = dataset_read (as_light vm) address rs.
Proof.
  intros [_ _ _ _ [Ho Ho64] [_ Hma]] address. subst address.
  cbn [dataset_offset_ ma_ as_light with_memory] in *.
  destruct (read_address _ _ Ho (proj1 Hma)) as (-> & Hb1 & Hb2 & Hb3).
  apply dataset_read_agree; [lia|lia|]. by rewrite Zplus_mod, Ho64, Hb3.
Qed.

Lemma iteration_agree vm a0 a1 ic st' :
  loop_inv (as_light vm, a0, a1) ->
  iteration (as_light vm, a0, a1) ic = Done st' ->
  iteration (as_fast vm, a0, a1) ic = Done (to_fast st').
Proof.
  intros (Hvm & _). unfold iteration. same_fields vm.
  pose proof (fun rs => running_read_agree vm rs Hvm) as Hdr. cbv zeta in Hdr.
  intros H.
  repeat match goal with
    | H : (?m ≫= _) = Done _ |- _ =>
        let x := fresh "x" in let E := fresh "E" in
        apply bind_Done in H as (x & E & H); cbv beta in H;
        first [rewrite E | rewrite Hdr, E]; cbn [mbind outcome_bind]
    end.
  injection H as <-. reflexivity.
Qed.

Lemma as_fast_light vm : as_fast (as_light vm) = as_fast vm.
Proof. reflexivity. Qed.

Lemma iteration_light vm a0 a1 ic vm' b0 b1 :
  iteration (as_light vm, a0, a1) ic = Done (vm', b0, b1) -> vm' = as_light vm'.
Proof.
  unfold iteration. intros E.
  repeat (apply bind_Done in E as (? & _ & E); cbv beta in E). injection E as <- _ _. reflexivity.
Qed.

Lemma loop_agree l vm a0 a1 :
  loop_inv (as_light vm, a0, a1) ->
  exists vm' b0 b1, ofoldl iteration (as_light vm, a0, a1) l = Done (as_light vm', b0, b1) /\
    ofoldl iteration (as_fast vm, a0, a1) l = Done (as_fast vm', b0, b1).
Proof.
  revert vm a0 a1. induction l as [|ic l IH]; intros vm1 a0 a1 H; [by exists vm1, a0, a1|]. cbn [ofoldl].
  pose proof (iteration_ok _ ic H) as Hok. apply returns_Done in Hok as ([[vm2 b0] b1] & E & H2).
  rewrite E, (iteration_agree _ _ _ _ _ H E). cbn [mbind outcome_bind to_fast].
  pose proof (iteration_light _ _ _ _ _ _ _ E) as Hself.
  rewrite Hself in H2. destruct (IH vm2 b0 b1 H2) as (vm' & d0 & d1 & E1 & E2).
  rewrite <- Hself in E1. by exists vm', d0, d1.
Qed.

Lemma run_agree vm :
  vm_running (as_light vm) ->
  exists vm', run_interpreted (as_light vm) = Done (as_light vm') /\
              run_interpreted (as_fast vm) = Done (as_fast vm').
Proof.
  intros Hvm. pose proof Hvm as [[_ _ _ _ _ [Lp Hp] [Lb Hb] _] _ _ _ _ [Hmx Hma]].
  unfold run_interpreted. same_fields vm.
  pose proof (compile_program_compiled _ _ Lp Hp Lb Hb) as Hcomp.
  apply returns_Done in Hcomp as ([usage bc] & Ec & Hbc). cbn [program_ bytecode_ as_light with_memory snd] in *.
  rewrite Ec. cbn [mbind outcome_bind].
  change (set_bytecode bc (as_fast vm)) with (as_fast (set_bytecode bc vm)).
  change (set_bytecode bc (as_light vm)) with (as_light (set_bytecode bc vm)).
  assert (Hinit : loop_inv (as_light (set_bytecode bc vm), mx_ (set_bytecode bc vm), ma_ (set_bytecode bc vm))).
  { split; [|by split_and!]. destruct Hvm as [[] ]. constructor; cbn in *; auto.
    constructor; cbn in *; auto. by apply compiled_slots. }
  revert Hinit. generalize (set_bytecode bc vm). intros v Hinit. clear - Hinit Hc Hlight Hfast.
  same_fields v. destruct (loop_agree (seqZ 0 2048) _ _ _ Hinit) as (vm' & b0 & b1 & E1 & E2).
  rewrite E1, E2. cbn [mbind outcome_bind]. by exists vm'.
Qed.

End modes.

(** C9: light mode and fast mode compute the same: a machine that derives dataset items from the
    cache on the fly and a machine that reads them from the dataset filled from that cache go through
    the same 2048 iterations and end with the same registers, scratchpad and memory registers,
    whatever the program. *)
Theorem modes_agree c vm light fast cache unused :
  cache_ready c -> vm_idle (with_memory light (Some c) unused vm) ->
  Z.land light kRandOMXFlagFullMem = 0 -> Z.land fast kRandOMXFlagFullMem <> 0 ->
  exists vm',
    run_interpreted (initialize_vm_state (with_memory light (Some c) unused vm)) = Done vm' /\
    run_interpreted (initialize_vm_state (with_memory fast cache (full_dataset c) vm)) =
      Done (with_memory fast cache (full_dataset c) vm').
Proof.
  intros Hc Hvm Hl Hf.
  pose proof (run_agree c Hc light fast cache unused Hl Hf (initialize_vm_state vm)) as H.
  assert (Hi : forall fl ca ds, initialize_vm_state (with_memory fl ca ds vm) =
    with_memory fl ca ds (initialize_vm_state vm)) by reflexivity.
  pose proof (initialize_running _ Hvm) as Hr. rewrite Hi in Hr.
  destruct (H Hr) as (vm' & E1 & E2). exists (as_light c light unused vm'). rewrite !Hi.
  split; [exact E1|]. rewrite <- (as_fast_light c light fast cache unused) in E2. exact E2.
Qed.

Lemma modes_agree_witness :
  exists vm',
    run_interpreted (initialize_vm_state (with_memory 0 (Some idle_cache) [] light_vm)) = Done vm' /\
    run_interpreted (initialize_vm_state (with_memory 32 None (full_dataset idle_cache) light_vm)) =
      Done (with_memory 32 None (full_dataset idle_cache) vm').
Proof.
  exact (modes_agree idle_cache light_vm 0 32 None [] idle_cache_ready light_vm_idle eq_refl
    ltac:(discriminate)).
Defined.
