(* ===== verification/HashSim.v ===== *)
(** * The machine's result depends on its memory, its scratchpad and its program only

    Two machines with the same scratchpad and rounding state, each serving the items of the same
    cache (one may derive them, the other read them from the dataset), run the same program to the
    same registers and scratchpad, whatever their register files, old bytecode and old programs. *)

From S2P Require Import Prelude RandomX Argon2 Dataset Float.
From S2P Require Import Bytecode BytecodeSafety BytecodeTermination BytecodeStale Vm.

(** The machine's memory is the dataset of cache [c]. *)
Definition serves (c : Argon2dCache) (vm : VirtualMachine) : Prop :=
  if is_fast_mode vm then dataset_ vm = full_dataset c else cache_ vm = Some c.

Lemma length_full_dataset c : cache_ready c -> Z.of_nat (length (full_dataset c)) = 2181038080.
Proof.
  intros Hc. unfold full_dataset. rewrite (length_items_from c Hc).
  rewrite Nat2Z.inj_mul, Z2Nat.id by done. done.
Qed.
Lemma full_dataset_bytes c : cache_ready c -> Bytes (full_dataset c).
Proof.
  intros Hc. unfold full_dataset, items_from. apply Forall_concat, Forall_fmap, Forall_forall. intros n _.
  unfold compose, item_of. by destruct (generate_dataset_item_ok c Hc n) as (item & -> & _ & Hb).
Qed.

Lemma dataset_read_fast vm address rs item :
  is_fast_mode vm = true -> Z.of_nat (length (dataset_ vm)) = 2181038080 ->
  read_bytes (dataset_ vm) address 64 = Done item -> 0 <= address -> address + 64 <= 2181038080 ->
  dataset_read vm address rs = Done (xor_words rs item).
Proof.
  intros Hm Hl Hr H0 H1. unfold dataset_read. rewrite Hm, Hl, Hr. unfold add64.
  rewrite wrap_small by (split; lia). by destruct (Z.ltb_spec 2181038080 (address + 64)); [lia|].
Qed.

Lemma dataset_read_light vm c address rs item :
  is_fast_mode vm = false -> cache_ vm = Some c ->
  generate_dataset_item c (wrap 32 (address / 64)) = Done item ->
  dataset_read vm address rs = Done (xor_words rs item).
Proof. intros Hm Hc Hi. unfold dataset_read. rewrite Hm, Hc. cbv zeta. by rewrite Hi. Qed.

Lemma load_registers_same x c1 c2 :
  r (reg_ c1) = r (reg_ c2) -> scratchpad_ c1 = scratchpad_ c2 ->
  load_registers x c1 = load_registers x c2.
Proof. intros E1 E2. unfold load_registers. by rewrite E1, E2. Qed.
Lemma load_pairs_same c1 c2 n : scratchpad_ c1 = scratchpad_ c2 ->
  forall addr, load_pairs c1 addr n = load_pairs c2 addr n.
Proof.
  intros E. induction n as [|n IH]; intros addr; cbn [load_pairs]; [done|].
  unfold load_int_pair, load32. rewrite E. by rewrite IH.
Qed.
Lemma set_reg_file_same rf c1 c2 : scratchpad_ c1 = scratchpad_ c2 ->
  last_rounding_mode_ c1 = last_rounding_mode_ c2 -> fe_round c1 = fe_round c2 ->
  set_reg_file rf c1 = set_reg_file rf c2.
Proof. intros E1 E2 E3. unfold set_reg_file. by rewrite E1, E2, E3. Qed.

#[local] Opaque full_dataset execute_bytecode dataset_read load_registers load_pairs store_bytes.

Lemma dataset_read_serves c vm address rs :
  cache_ready c -> serves c vm ->
  0 <= address -> address + 64 <= kRandomXDatasetBytes -> address mod 64 = 0 ->
  dataset_read vm address rs = Done (xor_words rs (item_of c (address / 64))).
Proof.
  intros Hc Hs H0 H1 H64. change kRandomXDatasetBytes with 2181038080 in H1.
  assert (0 <= address / 64 < 34078720) as Hk.
  { split; [apply Z.div_pos; lia|apply Z.div_lt_upper_bound; lia]. }
  unfold serves in Hs. destruct (is_fast_mode vm) eqn:Hm.
  - apply dataset_read_fast; [done|rewrite Hs; by apply length_full_dataset| |done|done].
    rewrite Hs. replace address with (address / 64 * 64) at 1
      by (rewrite (Z.div_mod address 64) at 2 by lia; lia).
    by apply full_dataset_line.
  - apply (dataset_read_light _ c); [done|done|].
    rewrite wrap_small by (split; lia). apply (item_of_spec c Hc).
Qed.

(** What the loop of [run_interpreted] reads of a machine, its memory apart. *)
Record sim (vm1 vm2 : VirtualMachine) : Prop := mkSim {
  sim_r : r (reg_ (core_ vm1)) = r (reg_ (core_ vm2));
  sim_a : a (reg_ (core_ vm1)) = a (reg_ (core_ vm2));
  sim_mem : scratchpad_ (core_ vm1) = scratchpad_ (core_ vm2);
  sim_last : last_rounding_mode_ (core_ vm1) = last_rounding_mode_ (core_ vm2);
  sim_fe : fe_round (core_ vm1) = fe_round (core_ vm2);
  sim_offset : dataset_offset_ vm1 = dataset_offset_ vm2;
  sim_mx : mx_ vm1 = mx_ vm2;
  sim_ma : ma_ vm1 = ma_ vm2;
  sim_mask : e_mask_ vm1 = e_mask_ vm2;
  sim_regs : read_reg0_ vm1 = read_reg0_ vm2 /\ read_reg1_ vm1 = read_reg1_ vm2 /\
             read_reg2_ vm1 = read_reg2_ vm2 /\ read_reg3_ vm1 = read_reg3_ vm2;
  sim_bytecode : live <$> bytecode_ vm1 = live <$> bytecode_ vm2;
}.

Lemma running_read c vm rs :
  cache_ready c -> serves c vm -> vm_running vm ->
  let address := add64 (dataset_offset_ vm) (Z.land (ma_ vm) 0x7fffffc0) in
  dataset_read vm address rs = Done (xor_words rs (item_of c (address / 64))).
Proof.
  intros Hc Hs [_ _ _ _ [Ho Ho64] [_ Hma]] address. subst address.
  destruct (read_address _ _ Ho (proj1 Hma)) as (-> & Hb1 & Hb2 & Hb3).
  apply dataset_read_serves; [done|done|lia|lia|]. by rewrite Zplus_mod, Ho64, Hb3.
Qed.

Lemma iteration_sim c vm1 vm2 a0 a1 ic vm1' b0 b1 :
  cache_ready c -> serves c vm1 -> serves c vm2 -> vm_running vm1 -> vm_running vm2 -> sim vm1 vm2 ->
  iteration (vm1, a0, a1) ic = Done (vm1', b0, b1) ->
  exists vm2', iteration (vm2, a0, a1) ic = Done (vm2', b0, b1) /\
    sim vm1' vm2' /\ core_ vm1' = core_ vm2' /\ serves c vm1' /\ serves c vm2'.
Proof.
  intros Hc S1 S2 R1 R2 Hsim.
  pose proof (fun rs => running_read c vm1 rs Hc S1 R1) as D1.
  pose proof (fun rs => running_read c vm2 rs Hc S2 R2) as D2. cbv zeta in D1, D2. clear R1 R2.
  unfold iteration.
  destruct Hsim as [Er Ea Em El Ef Eo Emx Ema Emk (E0 & E1 & E2 & E3) Ebc].
  rewrite <- Ea, <- E0, <- E1, <- E2, <- E3, <- Emk, <- Eo, <- Ema, <- Emx in *.
  rewrite <- Er. intros H.
  repeat match goal with
    | H : (?m ≫= _) = Done _ |- _ =>
        let x := fresh "x" in let E := fresh "E" in
        apply bind_Done in H as (x & E & H); cbv beta zeta in H;
        first
          [ rewrite E
          | rewrite <- (load_registers_same _ (core_ vm1) (core_ vm2) Er Em), E
          | rewrite <- !(load_pairs_same (core_ vm1) (core_ vm2) 4%nat Em), E
          | rewrite <- (set_reg_file_same (mkRegisterFile _ _ _ _) (core_ vm1) (core_ vm2) Em El Ef),
              <- (execute_bytecode_live _ _ _ _ Ebc), E
          | rewrite D1 in E; rewrite D2, E ];
        cbn [mbind outcome_bind]
    end.
  injection H as <- <- <-. eexists. split; [reflexivity|]. 
  split; [|done]. by constructor.
Qed.

(** A program leaves the mode and the memory alone. *)
Definition memory_of (vm : VirtualMachine) : Z * option Argon2dCache * list Z :=
  (flags_ vm, cache_ vm, dataset_ vm).

Lemma iteration_memory st ic st' :
  iteration st ic = Done st' -> memory_of st'.1.1 = memory_of st.1.1.
Proof.
  destruct st as [[vm a0] a1]. unfold iteration. intros E. steps E. injection E as <-. reflexivity.
Qed.

#[local] Opaque iteration.

Lemma run_interpreted_memory vm vm' : run_interpreted vm = Done vm' -> memory_of vm' = memory_of vm.
Proof.
  unfold run_interpreted. intros E. steps E. injection E as <-.
  match goal with H : ofoldl _ _ _ = Done _ |- _ =>
    apply (ofoldl_keeps (fun x y => memory_of y.1.1 = memory_of x.1.1)) in H; [exact H|..] end.
  - done.
  - intros x y w H1 H2. by rewrite H2.
  - intros x k y E1. by apply iteration_memory in E1.
Qed.

Lemma loop_sim c l : cache_ready c -> forall vm1 vm2 a0 a1,
  serves c vm1 -> serves c vm2 -> loop_inv (vm1, a0, a1) -> loop_inv (vm2, a0, a1) -> sim vm1 vm2 ->
  exists vm1' vm2' b0 b1,
    ofoldl iteration (vm1, a0, a1) l = Done (vm1', b0, b1) /\
    ofoldl iteration (vm2, a0, a1) l = Done (vm2', b0, b1) /\
    (l = [] \/ core_ vm1' = core_ vm2') /\ serves c vm1' /\ serves c vm2' /\
    vm_running vm1' /\ vm_running vm2'.
Proof.
  intros Hc. induction l as [|ic l IH]; intros vm1 vm2 a0 a1 S1 S2 I1 I2 Hsim; cbn [ofoldl].
  - destruct I1, I2. exists vm1, vm2, a0, a1. auto 10.
  - pose proof (iteration_ok _ ic I1) as O1. apply returns_Done in O1 as ([[v1 c0] c1] & E1 & J1).
    destruct (iteration_sim c vm1 vm2 a0 a1 ic v1 c0 c1 Hc S1 S2 (proj1 I1) (proj1 I2) Hsim E1)
      as (v2 & E2 & Hsim' & Hcore & S1' & S2').
    pose proof (iteration_ok _ ic I2) as O2. rewrite E2 in O2. cbn [returns] in O2.
    rewrite E1, E2. cbn [mbind outcome_bind].
    destruct (IH v1 v2 c0 c1 S1' S2' J1 O2 Hsim') as (w1 & w2 & d0 & d1 & F1 & F2 & Hl & Rest).
    exists w1, w2, d0, d1. split; [done|]. split; [done|]. split; [|done]. right.
    destruct Hl as [->|Hl]; [|done]. cbn in F1, F2. apply Done_pair in F1 as [F1 _], F2 as [F2 _]. congruence.
Qed.

Lemma set_bytecode_loop_inv bc vm a0 a1 :
  vm_running vm -> compiled bc -> word32 a0 -> word32 a1 -> loop_inv (set_bytecode bc vm, a0, a1).
Proof.
  intros [[] ] Hbc H0 H1. split; [|done]. constructor; cbn in *; auto. constructor; cbn in *; auto.
  by apply compiled_slots.
Qed.

Lemma run_interpreted_sim c vm1 vm2 :
  cache_ready c -> serves c vm1 -> serves c vm2 -> vm_running vm1 -> vm_running vm2 ->
  program_ vm1 = program_ vm2 ->
  (forall bc1 bc2, live <$> bc1 = live <$> bc2 -> sim (set_bytecode bc1 vm1) (set_bytecode bc2 vm2)) ->
  exists vm1' vm2', run_interpreted vm1 = Done vm1' /\ run_interpreted vm2 = Done vm2' /\
    core_ vm1' = core_ vm2' /\ serves c vm1' /\ serves c vm2' /\ vm_running vm1' /\ vm_running vm2'.
Proof.
  intros Hc S1 S2 R1 R2 Hp Hsim. unfold run_interpreted.
  pose proof R1 as [[_ _ _ _ _ [Lp1 Hp1] [Lb1 Hb1] _] _ _ _ _ [Hmx1 Hma1]].
  pose proof R2 as [[_ _ _ _ _ [Lp2 Hp2] [Lb2 Hb2] _] _ _ _ _ [Hmx2 Hma2]].
  pose proof (compile_program_compiled _ _ Lp1 Hp1 Lb1 Hb1) as C1. apply returns_Done in C1 as ([u1 bc1] & E1 & C1).
  pose proof (compile_program_compiled _ _ Lp2 Hp2 Lb2 Hb2) as C2. apply returns_Done in C2 as ([u2 bc2] & E2 & C2).
  cbn [snd] in C1, C2. rewrite E1, E2. cbn [mbind outcome_bind]. rewrite <- Hp in E2.
  assert (Hlive : live <$> bc1 = live <$> bc2).
  { eapply compile_program_live; [exact Lb1|exact Lb2|apply C1|apply C2|exact E1|exact E2]. }
  specialize (Hsim bc1 bc2 Hlive).
  pose proof (set_bytecode_loop_inv bc1 vm1 _ _ R1 C1 Hmx1 Hma1) as I1.
  pose proof (set_bytecode_loop_inv bc2 vm2 _ _ R2 C2 Hmx2 Hma2) as I2.
  assert (mx_ vm2 = mx_ vm1 /\ ma_ vm2 = ma_ vm1) as [Emx Ema] by (destruct Hsim; done).
  rewrite Emx, Ema in I2. change (mx_ (set_bytecode bc1 vm1)) with (mx_ vm1).
  change (ma_ (set_bytecode bc1 vm1)) with (ma_ vm1). change (mx_ (set_bytecode bc2 vm2)) with (mx_ vm2).
  change (ma_ (set_bytecode bc2 vm2)) with (ma_ vm2). rewrite Emx, Ema.
  destruct (loop_sim c (seqZ 0 2048) Hc (set_bytecode bc1 vm1) (set_bytecode bc2 vm2) _ _ S1 S2 I1 I2 Hsim)
    as (w1 & w2 & d0 & d1 & F1 & F2 & [Hl|Hl] & Rest); [by rewrite seqZ_cons in Hl|].
  rewrite F1, F2. cbn [mbind outcome_bind]. by exists w1, w2.
Qed.

(** From two machines between programs with the same scratchpad, rounding state, entropy and
    program. *)
Lemma initialized_sim c vm1 vm2 :
  cache_ready c -> serves c vm1 -> serves c vm2 -> vm_idle vm1 -> vm_idle vm2 ->
  program_ vm1 = program_ vm2 -> entropy_ vm1 = entropy_ vm2 ->
  scratchpad_ (core_ vm1) = scratchpad_ (core_ vm2) ->
  last_rounding_mode_ (core_ vm1) = last_rounding_mode_ (core_ vm2) ->
  fe_round (core_ vm1) = fe_round (core_ vm2) ->
  exists vm1' vm2', run_interpreted (initialize_vm_state vm1) = Done vm1' /\
    run_interpreted (initialize_vm_state vm2) = Done vm2' /\
    core_ vm1' = core_ vm2' /\ serves c vm1' /\ serves c vm2' /\ vm_running vm1' /\ vm_running vm2'.
Proof.
  intros Hc S1 S2 I1 I2 Hp He Hm Hl Hf.
  apply run_interpreted_sim; [done|exact S1|exact S2|by apply initialize_running..|exact Hp|].
  intros bc1 bc2 Hlive. unfold initialize_vm_state. rewrite <- He.
  constructor; cbn -[small getFloatMask Z.land Z.modulo Z.mul]; auto.
Qed.
