(* ===== verification/Aes.v ===== *)
(** * The AES round

    Models src/include/armrx/aes.hpp: the T-table transforms, the zero-key hardware form, the
    tower-field NEON form and the rounds built on them, for every build configuration, against
    FIPS 197.  A block is the list of its 16 bytes, column by column. *)

From S2P Require Import Prelude Neon AesTables.

Abbreviation AesBlock := (list Z).
Definition block16 (s : AesBlock) : Prop := length s = 16%nat /\ Bytes s.

(** ** FIPS 197

    The field GF(2^8) modulo x^8 + x^4 + x^3 + x + 1, the S-box (inversion, then the affine map)
    and the three steps of a round. *)
Module FIPS197.
Definition double (x : Z) : Z := if 128 <=? x then Z.lxor (2 * x) 0x11B else 2 * x.
Fixpoint mul_bits (n : nat) (c x : Z) : Z :=
  match n with
  | O => 0
  | S n => Z.lxor (if Z.odd c then x else 0) (mul_bits n (c / 2) (double x))
  end.
Definition gf_mul (c x : Z) : Z := mul_bits 8 c x.
(** x^(2 + 4 + ... + 2^n); the inverse is x^254. *)
Fixpoint gf_pow2 (n : nat) (x : Z) : Z :=
  match n with O => 1 | S n => let y := gf_mul x x in gf_mul y (gf_pow2 n y) end.
Definition gf_inv (x : Z) : Z := gf_pow2 7 x.

Definition bits8 (f : Z -> bool) : Z :=
  foldr (fun i acc => Z.b2z (f i) + 2 * acc) 0 [0; 1; 2; 3; 4; 5; 6; 7].
Definition cyc (x i : Z) : bool := Z.testbit x (i mod 8).
Definition affine (x : Z) : Z := bits8 (fun i =>
  xorb (cyc x i) (xorb (cyc x (i + 4)) (xorb (cyc x (i + 5)) (xorb (cyc x (i + 6))
    (xorb (cyc x (i + 7)) (Z.testbit 0x63 i)))))).
Definition inv_affine (x : Z) : Z := bits8 (fun i =>
  xorb (cyc x (i + 2)) (xorb (cyc x (i + 5)) (xorb (cyc x (i + 7)) (Z.testbit 0x05 i)))).
Definition sbox (x : Z) : Z := affine (gf_inv x).
Definition inv_sbox (x : Z) : Z := gf_inv (inv_affine x).

(** Byte [r] of column [c] is at position [r + 4 * c]. *)
Definition by_cell (f : nat -> nat -> Z) : AesBlock :=
  (fun k => f (k mod 4)%nat (k / 4)%nat) <$> seq 0 16.
Definition cell (s : AesBlock) (r c : nat) : Z := s !!! (r mod 4 + 4 * (c mod 4))%nat.

Definition SubBytes (s : AesBlock) : AesBlock := sbox <$> s.
Definition InvSubBytes (s : AesBlock) : AesBlock := inv_sbox <$> s.
Definition ShiftRows (s : AesBlock) : AesBlock := by_cell (fun r c => cell s r (c + r)).
Definition InvShiftRows (s : AesBlock) : AesBlock := by_cell (fun r c => cell s r (c + 4 - r)).
(** Each column times the circulant matrix whose first row is [cs]. *)
Definition mix (cs : list Z) (s : AesBlock) : AesBlock := by_cell (fun r c =>
  foldr Z.lxor 0 ((fun j => gf_mul (cs !!! ((j + 4 - r) mod 4)%nat) (cell s j c)) <$> seq 0 4)).
Definition MixColumns : AesBlock -> AesBlock := mix [2; 3; 1; 1].
Definition InvMixColumns : AesBlock -> AesBlock := mix [14; 11; 13; 9].
End FIPS197.
Import FIPS197.

(** ** The T-table transforms *)

(** [table[i][(s >> 8 * i) & 0xff]]. *)
Definition lut (table : list (list Z)) (i : nat) (s : Z) : Z :=
  (table !!! i) !!! Z.to_nat (Z.land (Z.shiftr s (8 * Z.of_nat i)) 0xff).

Definition lut_column (table : list (list Z)) (s0 s1 s2 s3 : Z) : Z :=
  Z.lxor (Z.lxor (Z.lxor (lut table 0 s0) (lut table 1 s1)) (lut table 2 s2)) (lut table 3 s3).

(** [memcpy(&s, &input[4 * i], 4)]. *)
Definition column (input : AesBlock) (i : nat) : Z := of_le (take 4 (drop (4 * i) input)).

Definition encrypt_transform_ttable (input : AesBlock) : AesBlock :=
  let s0 := column input 0 in
  let s1 := column input 1 in
  let s2 := column input 2 in
  let s3 := column input 3 in
  let t0 := lut_column randomx_aes_lut_enc s0 s1 s2 s3 in
  let t1 := lut_column randomx_aes_lut_enc s1 s2 s3 s0 in
  let t2 := lut_column randomx_aes_lut_enc s2 s3 s0 s1 in
  let t3 := lut_column randomx_aes_lut_enc s3 s0 s1 s2 in
  le_bytes 4 t0 ++ le_bytes 4 t1 ++ le_bytes 4 t2 ++ le_bytes 4 t3.

Definition decrypt_transform_ttable (input : AesBlock) : AesBlock :=
  let s0 := column input 0 in
  let s1 := column input 1 in
  let s2 := column input 2 in
  let s3 := column input 3 in
  let t0 := lut_column randomx_aes_lut_dec s0 s3 s2 s1 in
  let t1 := lut_column randomx_aes_lut_dec s1 s0 s3 s2 in
  let t2 := lut_column randomx_aes_lut_dec s2 s1 s0 s3 in
  let t3 := lut_column randomx_aes_lut_dec s3 s2 s1 s0 in
  le_bytes 4 t0 ++ le_bytes 4 t1 ++ le_bytes 4 t2 ++ le_bytes 4 t3.

(** ** The hardware form

    The Arm instructions: AESE and AESD add the key first, AESMC and AESIMC mix the columns. *)
Definition vaeseq_u8 (s k : uint8x16) : uint8x16 := ShiftRows (SubBytes (veorq_u8 s k)).
Definition vaesdq_u8 (s k : uint8x16) : uint8x16 := InvSubBytes (InvShiftRows (veorq_u8 s k)).
Definition vaesmcq_u8 (s : uint8x16) : uint8x16 := MixColumns s.
Definition vaesimcq_u8 (s : uint8x16) : uint8x16 := InvMixColumns s.

Definition encrypt_transform_hw (input : AesBlock) : AesBlock :=
  let z := vdupq_n_u8 0 in vaesmcq_u8 (vaeseq_u8 input z).
Definition decrypt_transform_hw (input : AesBlock) : AesBlock :=
  let z := vdupq_n_u8 0 in vaesimcq_u8 (vaesdq_u8 input z).

(** ** The tower-field NEON form *)

Definition kLog4 : list Z := [240; 0; 1; 4; 2; 8; 5; 10; 3; 14; 9; 7; 6; 13; 11; 12].
Definition kAntilog4 : list Z := [1; 2; 4; 8; 3; 6; 12; 11; 5; 10; 7; 14; 15; 13; 9; 0].

Definition aes_gf4_mul_neon (a c : uint8x16) : uint8x16 :=
  let la := vqtbl1q_u8 kLog4 a in
  let lc := vqtbl1q_u8 kLog4 c in
  let s := vaddq_u8 la lc in
  let ge15 := vcgeq_u8 s (vdupq_n_u8 15) in
  let s := vsubq_u8 s (vandq_u8 ge15 (vdupq_n_u8 15)) in
  vqtbl1q_u8 kAntilog4 s.

Definition kFwdHi : list Z := [0; 60; 213; 233; 52; 8; 225; 221; 229; 217; 48; 12; 209; 237; 4; 56].
Definition kFwdLo : list Z := [0; 1; 32; 33; 70; 71; 102; 103; 76; 77; 108; 109; 10; 11; 42; 43].
Definition kBackHi : list Z := [0; 162; 2; 160; 184; 26; 186; 24; 219; 121; 217; 123; 99; 193; 97; 195].
Definition kBackLo : list Z := [0; 1; 92; 93; 224; 225; 188; 189; 80; 81; 12; 13; 176; 177; 236; 237].
Definition kGsq4 : list Z := [0; 1; 4; 5; 3; 2; 7; 6; 12; 13; 8; 9; 15; 14; 11; 10].
Definition kGinv4 : list Z := [0; 1; 9; 14; 13; 11; 7; 6; 15; 2; 12; 5; 10; 4; 3; 8].

Definition aes_tower_invert_neon (byte_vec : uint8x16) : uint8x16 :=
  let low_mask := vdupq_n_u8 0x0F in
  let lambda := vdupq_n_u8 0x8 in
  let hi := vshrq_n_u8 byte_vec 4 in
  let lo := vandq_u8 byte_vec low_mask in
  let packed := veorq_u8 (vqtbl1q_u8 kFwdHi hi) (vqtbl1q_u8 kFwdLo lo) in
  let a := vshrq_n_u8 packed 4 in
  let c := vandq_u8 packed low_mask in
  let gsq_a := vqtbl1q_u8 kGsq4 a in
  let gsq_a_lambda := aes_gf4_mul_neon gsq_a lambda in
  let ac := aes_gf4_mul_neon a c in
  let gsq_c := vqtbl1q_u8 kGsq4 c in
  let d := veorq_u8 (veorq_u8 gsq_a_lambda ac) gsq_c in
  let dinv := vqtbl1q_u8 kGinv4 d in
  let ainv := aes_gf4_mul_neon a dinv in
  let cinv := aes_gf4_mul_neon (veorq_u8 a c) dinv in
  veorq_u8 (vqtbl1q_u8 kBackHi ainv) (vqtbl1q_u8 kBackLo cinv).

Definition aes_sub_bytes_neon (s : uint8x16) : uint8x16 :=
  let inv_std := aes_tower_invert_neon s in
  let r1 := vorrq_u8 (vshlq_n_u8 inv_std 1) (vshrq_n_u8 inv_std 7) in
  let r2 := vorrq_u8 (vshlq_n_u8 inv_std 2) (vshrq_n_u8 inv_std 6) in
  let r3 := vorrq_u8 (vshlq_n_u8 inv_std 3) (vshrq_n_u8 inv_std 5) in
  let r4 := vorrq_u8 (vshlq_n_u8 inv_std 4) (vshrq_n_u8 inv_std 4) in
  let out := veorq_u8 inv_std r1 in
  let out := veorq_u8 out r2 in
  let out := veorq_u8 out r3 in
  let out := veorq_u8 out r4 in
  veorq_u8 out (vdupq_n_u8 0x63).

Definition kAffineInvHi : list Z :=
  [0; 164; 73; 237; 146; 54; 219; 127; 37; 129; 108; 200; 183; 19; 254; 90].
Definition kAffineInvLo : list Z :=
  [0; 74; 148; 222; 41; 99; 189; 247; 82; 24; 198; 140; 123; 49; 239; 165].

Definition aes_inv_sub_bytes_neon (s : uint8x16) : uint8x16 :=
  let low_mask := vdupq_n_u8 0x0F in
  let c_xor := veorq_u8 s (vdupq_n_u8 0x63) in
  let hi := vshrq_n_u8 c_xor 4 in
  let lo := vandq_u8 c_xor low_mask in
  let d0 := veorq_u8 (vqtbl1q_u8 kAffineInvHi hi) (vqtbl1q_u8 kAffineInvLo lo) in
  aes_tower_invert_neon d0.

Definition kShiftRows : list Z := [0; 5; 10; 15; 4; 9; 14; 3; 8; 13; 2; 7; 12; 1; 6; 11].
Definition kInvShiftRows : list Z := [0; 13; 10; 7; 4; 1; 14; 11; 8; 5; 2; 15; 12; 9; 6; 3].
Definition aes_shift_rows_neon (s : uint8x16) : uint8x16 := vqtbl1q_u8 s kShiftRows.
Definition aes_inv_shift_rows_neon (s : uint8x16) : uint8x16 := vqtbl1q_u8 s kInvShiftRows.

Definition aes_xtime_neon (v : uint8x16) : uint8x16 :=
  let hi_mask := vcgeq_u8 v (vdupq_n_u8 0x80) in
  let shifted := vshlq_n_u8 v 1 in
  let reduction := vandq_u8 hi_mask (vdupq_n_u8 0x1B) in
  veorq_u8 shifted reduction.

Definition kRot1 : list Z := [1; 2; 3; 0; 5; 6; 7; 4; 9; 10; 11; 8; 13; 14; 15; 12].
Definition kRot2 : list Z := [2; 3; 0; 1; 6; 7; 4; 5; 10; 11; 8; 9; 14; 15; 12; 13].
Definition kRot3 : list Z := [3; 0; 1; 2; 7; 4; 5; 6; 11; 8; 9; 10; 15; 12; 13; 14].

Definition aes_mix_columns_neon (s : uint8x16) : uint8x16 :=
  let rot1 := vqtbl1q_u8 s kRot1 in
  let rot2 := vqtbl1q_u8 s kRot2 in
  let rot3 := vqtbl1q_u8 s kRot3 in
  let d := veorq_u8 (veorq_u8 s rot1) (veorq_u8 rot2 rot3) in
  let t := aes_xtime_neon (veorq_u8 s rot1) in
  veorq_u8 (veorq_u8 s d) t.

Definition aes_inv_mix_columns_neon (s : uint8x16) : uint8x16 :=
  let rot2 := vqtbl1q_u8 s kRot2 in
  let xor02_13 := veorq_u8 s rot2 in
  let uv := aes_xtime_neon (aes_xtime_neon xor02_13) in
  let adjusted := veorq_u8 s uv in
  aes_mix_columns_neon adjusted.

Definition encrypt_transform_neon (input : AesBlock) : AesBlock :=
  let s := aes_sub_bytes_neon input in
  let s := aes_shift_rows_neon s in
  aes_mix_columns_neon s.

Definition decrypt_transform_neon (input : AesBlock) : AesBlock :=
  let s := aes_inv_shift_rows_neon input in
  let s := aes_inv_sub_bytes_neon s in
  aes_inv_mix_columns_neon s.

(** ** Rounds, for every build *)

(** [__ARM_FEATURE_AES], [ARMRX_ENABLE_NEON_AES], [ARMRX_ENABLE_NEON_TTABLE_AES]. *)
Record build : Type := mkBuild { feature_aes : bool; neon_aes : bool; neon_ttable_aes : bool }.

Definition encrypt_transform (b : build) (input : AesBlock) : AesBlock :=
  if feature_aes b then encrypt_transform_hw input else encrypt_transform_ttable input.
Definition decrypt_transform (b : build) (input : AesBlock) : AesBlock :=
  if feature_aes b then decrypt_transform_hw input else decrypt_transform_ttable input.

(** [for (i...) output[i] ^= round_key[i]]. *)
Definition add_round_key (output round_key : AesBlock) : AesBlock := zip_with Z.lxor output round_key.

Definition aes_encrypt_round (b : build) (state round_key : AesBlock) : AesBlock :=
  let output := if neon_aes b then encrypt_transform_neon state else encrypt_transform b state in
  add_round_key output round_key.
Definition aes_decrypt_round (b : build) (state round_key : AesBlock) : AesBlock :=
  let output := if neon_aes b then decrypt_transform_neon state else decrypt_transform b state in
  add_round_key output round_key.
Definition aes_encrypt_round_ttable (state round_key : AesBlock) : AesBlock :=
  add_round_key (encrypt_transform_ttable state) round_key.
Definition aes_decrypt_round_ttable (state round_key : AesBlock) : AesBlock :=
  add_round_key (decrypt_transform_ttable state) round_key.

Abbreviation quad := (AesBlock * AesBlock * AesBlock * AesBlock)%type.

Definition encrypt_round_x4_neon (b : build) (s k : quad) : quad :=
  let '(b0, b1, b2, b3) := s in
  let '(k0, k1, k2, k3) := k in
  let b0 := encrypt_transform b b0 in
  let b1 := encrypt_transform b b1 in
  let b2 := encrypt_transform b b2 in
  let b3 := encrypt_transform b b3 in
  (veorq_u8 b0 k0, veorq_u8 b1 k1, veorq_u8 b2 k2, veorq_u8 b3 k3).

Definition decrypt_round_x4_neon (b : build) (s k : quad) : quad :=
  let '(b0, b1, b2, b3) := s in
  let '(k0, k1, k2, k3) := k in
  let b0 := decrypt_transform b b0 in
  let b1 := decrypt_transform b b1 in
  let b2 := decrypt_transform b b2 in
  let b3 := decrypt_transform b b3 in
  (veorq_u8 b0 k0, veorq_u8 b1 k1, veorq_u8 b2 k2, veorq_u8 b3 k3).

(** ** The tables against FIPS 197 *)

(** Checking a byte property on the 256 bytes. *)
Lemma all_bytes (P : Z -> bool) : forallb P (seqZ 0 256) = true -> forall x, byte8 x -> P x = true.
Proof.
  intros H x [H0 H1]. change (2 ^ 8) with 256 in H1. rewrite forallb_forall in H. apply H.
  apply list_elem_of_In, elem_of_seqZ. lia.
Qed.

(** Entry [x] of table [i] holds the column of products of the S-box value with the coefficients
    of column [i] of the matrix. *)
Definition lut_ok (table : list (list Z)) (cs : list Z) (box : Z -> Z) (x : Z) : bool :=
  forallb (fun i => bool_decide (le_bytes 4 ((table !!! i) !!! Z.to_nat x) =
    (fun r => gf_mul (cs !!! ((i + 4 - r) mod 4)%nat) (box x)) <$> seq 0 4)) (seq 0 4).

Lemma lut_enc_checked : forallb (lut_ok randomx_aes_lut_enc [2; 3; 1; 1] sbox) (seqZ 0 256) = true.
Proof. vm_compute. reflexivity. Qed.
Lemma lut_dec_checked :
  forallb (lut_ok randomx_aes_lut_dec [14; 11; 13; 9] inv_sbox) (seqZ 0 256) = true.
Proof. vm_compute. reflexivity. Qed.

(** The inverse S-box undoes the S-box, and inversion is inversion. *)
Lemma sbox_checked :
  forallb (fun x => (inv_sbox (sbox x) =? x) && (0 <=? sbox x) && (sbox x <? 256) &&
    (0 <=? inv_sbox x) && (inv_sbox x <? 256) &&
    ((x =? 0) || (gf_mul x (gf_inv x) =? 1))) (seqZ 0 256) = true.
Proof. vm_compute. reflexivity. Qed.

(** ** The tower-field form, lane by lane *)

Definition gf4_lane (a c : Z) : Z :=
  let s := wrap 8 (tbl_lane kLog4 a + tbl_lane kLog4 c) in
  tbl_lane kAntilog4 (wrap 8 (s - Z.land (if 15 <=? s then 255 else 0) 15)).

Definition tower_lane (x : Z) : Z :=
  let packed := Z.lxor (tbl_lane kFwdHi (Z.shiftr x 4)) (tbl_lane kFwdLo (Z.land x 0x0F)) in
  let a := Z.shiftr packed 4 in
  let c := Z.land packed 0x0F in
  let d := Z.lxor (Z.lxor (gf4_lane (tbl_lane kGsq4 a) 8) (gf4_lane a c)) (tbl_lane kGsq4 c) in
  let dinv := tbl_lane kGinv4 d in
  Z.lxor (tbl_lane kBackHi (gf4_lane a dinv)) (tbl_lane kBackLo (gf4_lane (Z.lxor a c) dinv)).

Definition rot_lane (x n m : Z) : Z := Z.lor (wrap 8 (Z.shiftl x n)) (Z.shiftr x m).
Definition sub_lane (x : Z) : Z :=
  let y := tower_lane x in
  Z.lxor (Z.lxor (Z.lxor (Z.lxor (Z.lxor y (rot_lane y 1 7)) (rot_lane y 2 6)) (rot_lane y 3 5))
    (rot_lane y 4 4)) 0x63.
Definition inv_sub_lane (x : Z) : Z :=
  let y := Z.lxor x 0x63 in
  tower_lane (Z.lxor (tbl_lane kAffineInvHi (Z.shiftr y 4)) (tbl_lane kAffineInvLo (Z.land y 0x0F))).
Definition xtime (x : Z) : Z :=
  Z.lxor (wrap 8 (Z.shiftl x 1)) (Z.land (if 0x80 <=? x then 255 else 0) 0x1B).

Section lane_forms.
Context (s : uint8x16) (Hs : length s = 16%nat).

Ltac lanes := rewrite ?(lanes_dup s Hs), ?(lanes_fmap s), ?(lanes_zip s).
Ltac all_lanes := unfold veorq_u8, vandq_u8, vorrq_u8, vaddq_u8, vsubq_u8, vcgeq_u8, vqtbl1q_u8,
  vshrq_n_u8, vshlq_n_u8; repeat (progress lanes).

Lemma gf4_lanes g h :
  aes_gf4_mul_neon (g <$> s) (h <$> s) = (fun x => gf4_lane (g x) (h x)) <$> s.
Proof using Hs. unfold aes_gf4_mul_neon. all_lanes. done. Qed.

Lemma tower_lanes g : aes_tower_invert_neon (g <$> s) = (fun x => tower_lane (g x)) <$> s.
Proof using Hs.
  unfold aes_tower_invert_neon. all_lanes. rewrite !gf4_lanes. all_lanes. rewrite !gf4_lanes.
  all_lanes. done.
Qed.

Lemma sub_lanes g : aes_sub_bytes_neon (g <$> s) = (fun x => sub_lane (g x)) <$> s.
Proof using Hs. unfold aes_sub_bytes_neon. rewrite tower_lanes. all_lanes. unfold sub_lane, rot_lane. done. Qed.

Lemma inv_sub_lanes g : aes_inv_sub_bytes_neon (g <$> s) = (fun x => inv_sub_lane (g x)) <$> s.
Proof using Hs. unfold aes_inv_sub_bytes_neon, inv_sub_lane. all_lanes. rewrite tower_lanes. done. Qed.

Lemma xtime_lanes g : aes_xtime_neon (g <$> s) = (fun x => xtime (g x)) <$> s.
Proof using Hs. unfold aes_xtime_neon. all_lanes. done. Qed.
End lane_forms.

(** The lanes compute the S-boxes, and [xtime] doubles. *)
Lemma lanes_checked :
  forallb (fun x => (sub_lane x =? sbox x) && (inv_sub_lane x =? inv_sbox x) &&
    (gf_mul 2 x =? xtime x) && (gf_mul 3 x =? Z.lxor (xtime x) x) && (gf_mul 1 x =? x) &&
    (gf_mul 14 x =? Z.lxor (xtime (xtime (xtime x))) (Z.lxor (xtime (xtime x)) (xtime x))) &&
    (gf_mul 11 x =? Z.lxor (xtime (xtime (xtime x))) (Z.lxor (xtime x) x)) &&
    (gf_mul 13 x =? Z.lxor (xtime (xtime (xtime x))) (Z.lxor (xtime (xtime x)) x)) &&
    (gf_mul 9 x =? Z.lxor (xtime (xtime (xtime x))) x)) (seqZ 0 256) = true.
Proof. vm_compute. reflexivity. Qed.

Lemma lanes_spec x : byte8 x ->
  sub_lane x = sbox x /\ inv_sub_lane x = inv_sbox x /\
  gf_mul 2 x = xtime x /\ gf_mul 3 x = Z.lxor (xtime x) x /\ gf_mul 1 x = x /\
  gf_mul 14 x = Z.lxor (xtime (xtime (xtime x))) (Z.lxor (xtime (xtime x)) (xtime x)) /\
  gf_mul 11 x = Z.lxor (xtime (xtime (xtime x))) (Z.lxor (xtime x) x) /\
  gf_mul 13 x = Z.lxor (xtime (xtime (xtime x))) (Z.lxor (xtime (xtime x)) x) /\
  gf_mul 9 x = Z.lxor (xtime (xtime (xtime x))) x.
Proof. intros Hx. pose proof (all_bytes _ lanes_checked x Hx) as H. cbv beta in H. by bools. Qed.

Lemma sbox_spec x : byte8 x -> inv_sbox (sbox x) = x /\ byte8 (sbox x) /\ byte8 (inv_sbox x).
Proof.
  intros Hx. pose proof (all_bytes _ sbox_checked x Hx) as H. cbv beta in H. bools.
  by unfold in_range; change (2 ^ 8) with 256.
Qed.

Lemma le_bytes_lxor n x y : le_bytes n (Z.lxor x y) = zip_with Z.lxor (le_bytes n x) (le_bytes n y).
Proof.
  revert x y. induction n as [|n IH]; intros x y; cbn [le_bytes zip_with]; [done|].
  rewrite <- IH. change 256 with (2 ^ 8). rewrite <- !Z.land_ones, <- !Z.shiftr_div_pow2 by lia. f_equal.
  - apply Z.bits_inj'. intros i Hi. rewrite !Z.land_spec, !Z.lxor_spec, !Z.land_spec. btauto.
  - by rewrite Z.shiftr_lxor.
Qed.

(** Byte [i] of the word loaded from four bytes. *)
Lemma lut_byte table i a0 a1 a2 a3 : (i < 4)%nat -> Bytes [a0; a1; a2; a3] ->
  lut table i (of_le [a0; a1; a2; a3]) = (table !!! i) !!! Z.to_nat ([a0; a1; a2; a3] !!! i).
Proof.
  intros Hi Hb. unfold lut. do 2 f_equal. change 0xff with (Z.ones 8).
  rewrite Z.land_ones, Z.shiftr_div_pow2 by lia.
  rewrite !Forall_cons_iff in Hb. destruct Hb as ([] & [] & [] & [] & _). change (2 ^ 8) with 256 in *.
  unfold of_le. destruct i as [|[|[|[|]]]]; cbn -[Z.div Z.modulo Z.mul Z.add Z.pow]; try lia;
    [change (2 ^ 0) with 1|change (2 ^ 8) with 256|change (2 ^ 16) with (256 * 256)|
     change (2 ^ 24) with (256 * 256 * 256)]; Z.div_mod_to_equations; lia.
Qed.

(** One table lookup per byte gives the products of a column; their sum is the mixed column. *)
Lemma lut_column_mix table cs box s0 s1 s2 s3 x0 x1 x2 x3 :
  (forall x, byte8 x -> lut_ok table cs box x = true) -> Bytes [x0; x1; x2; x3] ->
  lut table 0 s0 = (table !!! 0%nat) !!! Z.to_nat x0 -> lut table 1 s1 = (table !!! 1%nat) !!! Z.to_nat x1 ->
  lut table 2 s2 = (table !!! 2%nat) !!! Z.to_nat x2 -> lut table 3 s3 = (table !!! 3%nat) !!! Z.to_nat x3 ->
  le_bytes 4 (lut_column table s0 s1 s2 s3) =
    (fun r => foldr Z.lxor 0 (zip_with (fun j x => gf_mul (cs !!! ((j + 4 - r) mod 4)%nat) (box x))
      (seq 0 4) [x0; x1; x2; x3])) <$> seq 0 4.
Proof.
  intros Hok Hb E0 E1 E2 E3. unfold lut_column. rewrite E0, E1, E2, E3, !le_bytes_lxor.
  assert (Hl : forall i x, byte8 x -> (i < 4)%nat -> le_bytes 4 ((table !!! i) !!! Z.to_nat x) =
    (fun r => gf_mul (cs !!! ((i + 4 - r) mod 4)%nat) (box x)) <$> seq 0 4).
  { intros i x Hx Hi. specialize (Hok x Hx). unfold lut_ok in Hok. rewrite forallb_forall in Hok.
    eapply bool_decide_eq_true_1, Hok, in_seq. lia. }
  rewrite !Forall_cons_iff in Hb. destruct Hb as (H0 & H1 & H2 & H3 & _).
  rewrite !Hl by (done || lia). clear. cbv -[gf_mul Z.lxor lookup_total].
  by rewrite !Z.lxor_0_r, !Z.lxor_assoc.
Qed.

Lemma lut_column_words table cs box a0 a1 a2 a3 b0 b1 b2 b3 c0 c1 c2 c3 d0 d1 d2 d3 :
  (forall x, byte8 x -> lut_ok table cs box x = true) ->
  Bytes [a0; a1; a2; a3] -> Bytes [b0; b1; b2; b3] -> Bytes [c0; c1; c2; c3] -> Bytes [d0; d1; d2; d3] ->
  le_bytes 4 (lut_column table (of_le [a0; a1; a2; a3]) (of_le [b0; b1; b2; b3])
    (of_le [c0; c1; c2; c3]) (of_le [d0; d1; d2; d3])) =
  (fun r => foldr Z.lxor 0 (zip_with (fun j x => gf_mul (cs !!! ((j + 4 - r) mod 4)%nat) (box x))
      (seq 0 4) [a0; b1; c2; d3])) <$> seq 0 4.
Proof.
  intros Hok Ha Hb Hc Hd. apply lut_column_mix; [done| |rewrite lut_byte by (done || lia); done..].
  rewrite !Forall_cons_iff in *. intuition.
Qed.

Lemma lut_enc_ok x : byte8 x -> lut_ok randomx_aes_lut_enc [2; 3; 1; 1] sbox x = true.
Proof. apply (all_bytes _ lut_enc_checked). Qed.
Lemma lut_dec_ok x : byte8 x -> lut_ok randomx_aes_lut_dec [14; 11; 13; 9] inv_sbox x = true.
Proof. apply (all_bytes _ lut_dec_checked). Qed.

Ltac bytes := repeat (apply List.Forall_cons; [done|]); apply List.Forall_nil.
Ltac block_cases s H :=
  let Hl := fresh "Hl" in let Hb := fresh "Hb" in
  destruct H as [Hl Hb]; explode s; rewrite !Forall_cons_iff in Hb; destruct_and! Hb.

Lemma encrypt_ttable_fips s :
  block16 s -> encrypt_transform_ttable s = MixColumns (ShiftRows (SubBytes s)).
Proof.
  intros H. block_cases s H. unfold encrypt_transform_ttable, column. cbn [take drop Nat.mul Nat.add].
  rewrite !(lut_column_words _ _ _ _ _ _ _ _ _ _ _ _ _ _ _ _ _ _ _ lut_enc_ok) by bytes.
  by cbv -[gf_mul Z.lxor sbox].
Qed.

Lemma decrypt_ttable_fips s :
  block16 s -> decrypt_transform_ttable s = InvMixColumns (InvSubBytes (InvShiftRows s)).
Proof.
  intros H. block_cases s H. unfold decrypt_transform_ttable, column. cbn [take drop Nat.mul Nat.add].
  rewrite !(lut_column_words _ _ _ _ _ _ _ _ _ _ _ _ _ _ _ _ _ _ _ lut_dec_ok) by bytes.
  by cbv -[gf_mul Z.lxor inv_sbox].
Qed.

Lemma testbit7 x : byte8 x -> (0x80 <=? x) = Z.testbit x 7.
Proof.
  intros [H0 H1]. change (2 ^ 8) with 256 in H1. rewrite Z.testbit_odd, Z.shiftr_div_pow2 by lia.
  change (2 ^ 7) with 128. destruct (Z.leb_spec 128 x).
  - by replace (x / 128) with 1 by (Z.div_mod_to_equations; lia).
  - by rewrite Z.div_small.
Qed.

Lemma xtime_byte x : byte8 x -> byte8 (xtime x).
Proof. intros Hx. unfold xtime. apply lxor_range; [lia|by apply wrap_range|]. by destruct (_ <=? _). Qed.

(** Doubling is linear. *)
Lemma xtime_lxor x y : byte8 x -> byte8 y -> xtime (Z.lxor x y) = Z.lxor (xtime x) (xtime y).
Proof.
  intros Hx Hy. unfold xtime. rewrite !testbit7, Z.lxor_spec by (done || by apply lxor_range).
  apply Z.bits_inj'. intros i Hi.
  rewrite !Z.lxor_spec, !testbit_wrap, !testbit_shiftl, Z.lxor_spec by lia.
  destruct (Z.testbit x 7), (Z.testbit y 7); cbn [xorb]; rewrite ?Z.land_0_l, ?Z.bits_0; btauto.
Qed.

(** Both sides of an XOR identity, bit by bit. *)
Ltac xor_bits := apply Z.bits_inj'; intros ? ?; rewrite ?Z.lxor_spec, ?Z.bits_0; btauto.

Lemma fmap_ext_bytes (g h : Z -> Z) s : (forall x, byte8 x -> g x = h x) -> Bytes s -> g <$> s = h <$> s.
Proof. intros Hgh. induction 1; cbn; [done|]. rewrite Hgh by done. by f_equal. Qed.

Lemma sub_bytes_fips s : block16 s -> aes_sub_bytes_neon s = SubBytes s.
Proof.
  intros [Hl Hb]. rewrite <- (list_fmap_id s) at 1. rewrite (sub_lanes s Hl id).
  apply fmap_ext_bytes; [|done]. intros x Hx. apply (lanes_spec x Hx).
Qed.
Lemma inv_sub_bytes_fips s : block16 s -> aes_inv_sub_bytes_neon s = InvSubBytes s.
Proof.
  intros [Hl Hb]. rewrite <- (list_fmap_id s) at 1. rewrite (inv_sub_lanes s Hl id).
  apply fmap_ext_bytes; [|done]. intros x Hx. apply (lanes_spec x Hx).
Qed.
Lemma xtime_neon s : length s = 16%nat -> aes_xtime_neon s = xtime <$> s.
Proof. intros Hl. rewrite <- (list_fmap_id s) at 1. by rewrite (xtime_lanes s Hl id). Qed.

Lemma shift_rows_fips s : length s = 16%nat -> aes_shift_rows_neon s = ShiftRows s.
Proof. intros Hl. by explode s. Qed.
Lemma inv_shift_rows_fips s : length s = 16%nat -> aes_inv_shift_rows_neon s = InvShiftRows s.
Proof. intros Hl. by explode s. Qed.

Lemma gf_mul_enc x : byte8 x ->
  gf_mul 2 x = xtime x /\ gf_mul 3 x = Z.lxor (xtime x) x /\ gf_mul 1 x = x.
Proof. intros Hx. pose proof (lanes_spec x Hx). tauto. Qed.

Lemma mix_columns_fips s : block16 s -> aes_mix_columns_neon s = MixColumns s.
Proof.
  intros H. block_cases s H. unfold aes_mix_columns_neon. rewrite xtime_neon by done.
  cbv -[gf_mul Z.lxor xtime].
  repeat match goal with
    | |- context [gf_mul 2 ?x] => destruct (gf_mul_enc x ltac:(done)) as (-> & -> & ->)
    end.
  rewrite !xtime_lxor by done. repeat (apply (f_equal2 cons); [xor_bits|]). done.
Qed.

Lemma veorq_block s t : block16 s -> block16 t -> block16 (veorq_u8 s t).
Proof.
  intros [Hs Bs] [Ht Bt]. unfold veorq_u8. split; [rewrite length_zip_with; lia|].
  clear Hs Ht. revert t Bt. induction Bs as [|x l Hx Bl IH]; intros t Bt; cbn; [apply List.Forall_nil|].
  destruct Bt; [apply List.Forall_nil|]. apply List.Forall_cons; [by apply lxor_range|auto].
Qed.
Lemma xtime_block s : block16 s -> block16 (xtime <$> s).
Proof.
  intros [Hs Bs]. split; [by rewrite length_fmap|]. apply Forall_fmap.
  eapply list.Forall_impl; [done|]. apply xtime_byte.
Qed.
Lemma rot2_block s : block16 s -> block16 (vqtbl1q_u8 s kRot2).
Proof. intros H. block_cases s H. split; [done|]. cbv -[in_range]. bytes. Qed.
#[local] Hint Resolve veorq_block xtime_block rot2_block : word.

Ltac byte := repeat first [assumption | apply xtime_byte | apply lxor_range; [lia| |]].

(** InvMixColumns as MixColumns of an adjusted block. *)
Lemma inv_mix_columns_fips s : block16 s -> aes_inv_mix_columns_neon s = InvMixColumns s.
Proof.
  intros H. unfold aes_inv_mix_columns_neon. rewrite (xtime_neon (veorq_u8 _ _)) by (apply veorq_block; auto with word).
  rewrite xtime_neon by (apply xtime_block; auto with word).
  rewrite mix_columns_fips by auto 8 with word. block_cases s H.
  cbv -[gf_mul Z.lxor xtime].
  repeat match goal with
    | |- context [gf_mul 2 ?x] => 
      destruct (gf_mul_enc x) as (-> & -> & ->);
        [byte|]
    end.
  repeat match goal with
    | |- context [gf_mul 14 ?x] =>
       let E := fresh in pose proof (lanes_spec x ltac:(done)) as E; 
       destruct E as (_ & _ & _ & _ & _ & -> & -> & -> & ->)
    end.
  rewrite !xtime_lxor by byte.
  repeat (apply (f_equal2 cons); [xor_bits|]). done.
Qed.

(** ** The rounds *)

Lemma encrypt_neon_fips s : block16 s -> encrypt_transform_neon s = MixColumns (ShiftRows (SubBytes s)).
Proof.
  intros H. unfold encrypt_transform_neon. rewrite sub_bytes_fips by done.
  assert (block16 (SubBytes s)) as Hb.
  { destruct H as [Hl Hb]. split; [by unfold SubBytes; rewrite length_fmap|]. apply Forall_fmap.
    eapply list.Forall_impl; [done|]. intros x Hx. by apply sbox_spec. }
  rewrite shift_rows_fips by apply Hb. apply mix_columns_fips.
  revert Hb. generalize (SubBytes s) as t. intros t Ht. block_cases t Ht. split; [done|].
  cbv -[in_range]. bytes.
Qed.

Lemma decrypt_neon_fips s :
  block16 s -> decrypt_transform_neon s = InvMixColumns (InvSubBytes (InvShiftRows s)).
Proof.
  intros H. unfold decrypt_transform_neon. rewrite inv_shift_rows_fips by apply H.
  assert (block16 (InvShiftRows s)) as Hb.
  { block_cases s H. split; [done|]. cbv -[in_range]. bytes. }
  rewrite inv_sub_bytes_fips by done. apply inv_mix_columns_fips. destruct Hb as [Hl Hb].
  split; [by unfold InvSubBytes; rewrite length_fmap|]. apply Forall_fmap.
  eapply list.Forall_impl; [done|]. intros x Hx. by apply sbox_spec.
Qed.

Lemma veorq_zero s : length s = 16%nat -> veorq_u8 s (vdupq_n_u8 0) = s.
Proof. intros Hl. explode s. cbn -[Z.lxor]. by rewrite !Z.lxor_0_r. Qed.

Lemma encrypt_hw_fips s : block16 s -> encrypt_transform_hw s = MixColumns (ShiftRows (SubBytes s)).
Proof. intros [Hl _]. unfold encrypt_transform_hw, vaesmcq_u8, vaeseq_u8. by rewrite veorq_zero. Qed.
Lemma decrypt_hw_fips s : block16 s -> decrypt_transform_hw s = InvMixColumns (InvSubBytes (InvShiftRows s)).
Proof. intros [Hl _]. unfold decrypt_transform_hw, vaesimcq_u8, vaesdq_u8. by rewrite veorq_zero. Qed.

(** The reference round: T-tables, then the key. *)
Abbreviation enc := aes_encrypt_round_ttable.
Abbreviation dec := aes_decrypt_round_ttable.

Lemma encrypt_transform_ref b s : block16 s -> encrypt_transform b s = encrypt_transform_ttable s.
Proof.
  intros H. unfold encrypt_transform. destruct (feature_aes b); [|done].
  by rewrite encrypt_hw_fips, encrypt_ttable_fips.
Qed.
Lemma decrypt_transform_ref b s : block16 s -> decrypt_transform b s = decrypt_transform_ttable s.
Proof.
  intros H. unfold decrypt_transform. destruct (feature_aes b); [|done].
  by rewrite decrypt_hw_fips, decrypt_ttable_fips.
Qed.
Lemma encrypt_round_ref b s k : block16 s -> aes_encrypt_round b s k = enc s k.
Proof.
  intros H. unfold aes_encrypt_round, enc. f_equal. destruct (neon_aes b).
  - by rewrite encrypt_neon_fips, encrypt_ttable_fips.
  - by apply encrypt_transform_ref.
Qed.
Lemma decrypt_round_ref b s k : block16 s -> aes_decrypt_round b s k = dec s k.
Proof.
  intros H. unfold aes_decrypt_round, dec. f_equal. destruct (neon_aes b).
  - by rewrite decrypt_neon_fips, decrypt_ttable_fips.
  - by apply decrypt_transform_ref.
Qed.

Lemma le4_block a b c d : block16 (le_bytes 4 a ++ le_bytes 4 b ++ le_bytes 4 c ++ le_bytes 4 d).
Proof. split; [done|]. rewrite !Forall_app. auto using le_bytes_range. Qed.
Lemma enc_block s k : block16 k -> block16 (enc s k).
Proof. intros. apply veorq_block; [apply le4_block|done]. Qed.
Lemma dec_block s k : block16 k -> block16 (dec s k).
Proof. intros. apply veorq_block; [apply le4_block|done]. Qed.
#[export] Hint Resolve enc_block dec_block : word.

(** C23: in every build (hardware AESE/AESMC with a zero key, tower-field NEON, or T-tables) the
    rounds compute FIPS 197's SubBytes, ShiftRows, MixColumns (their inverses for the decrypt
    round) and then add the round key, on every block and key. *)
Theorem aes_round_fips (b : build) (s k : AesBlock) :
  block16 s ->
  aes_encrypt_round b s k = add_round_key (MixColumns (ShiftRows (SubBytes s))) k /\
  aes_decrypt_round b s k = add_round_key (InvMixColumns (InvSubBytes (InvShiftRows s))) k /\
  aes_encrypt_round_ttable s k = aes_encrypt_round b s k /\
  aes_decrypt_round_ttable s k = aes_decrypt_round b s k.
Proof.
  intros Hs. rewrite encrypt_round_ref, decrypt_round_ref by done.
  unfold aes_encrypt_round_ttable, aes_decrypt_round_ttable.
  by rewrite encrypt_ttable_fips, decrypt_ttable_fips.
Qed.

Lemma aes_round_fips_witness :
  let s := replicate 16 7 in let b := mkBuild true false false in
  aes_encrypt_round_ttable s s = aes_encrypt_round b s s.
Proof.
  intros s b. assert (block16 s) as Hs by (split; [done|by apply Forall_replicate]).
  exact (proj1 (proj2 (proj2 (aes_round_fips b s s Hs)))).
Defined.

(** The four-block rounds, which add the four keys with vector XORs, are four single rounds,
    in every build. *)
Theorem round_x4_eq (b : build) (s0 s1 s2 s3 k0 k1 k2 k3 : AesBlock) :
  block16 s0 -> block16 s1 -> block16 s2 -> block16 s3 ->
  encrypt_round_x4_neon b (s0, s1, s2, s3) (k0, k1, k2, k3) =
    (aes_encrypt_round b s0 k0, aes_encrypt_round b s1 k1, aes_encrypt_round b s2 k2,
     aes_encrypt_round b s3 k3) /\
  decrypt_round_x4_neon b (s0, s1, s2, s3) (k0, k1, k2, k3) =
    (aes_decrypt_round b s0 k0, aes_decrypt_round b s1 k1, aes_decrypt_round b s2 k2,
     aes_decrypt_round b s3 k3).
Proof.
  intros. unfold encrypt_round_x4_neon, decrypt_round_x4_neon.
  by rewrite !encrypt_round_ref, !decrypt_round_ref, !encrypt_transform_ref, !decrypt_transform_ref.
Qed.

Lemma round_x4_eq_witness :
  let s := replicate 16 7 in let b := mkBuild false true true in
  encrypt_round_x4_neon b (s, s, s, s) (s, s, s, s) =
    (aes_encrypt_round b s s, aes_encrypt_round b s s, aes_encrypt_round b s s, aes_encrypt_round b s s).
Proof.
  intros s b. assert (block16 s) as Hs by (split; [done|by apply Forall_replicate]).
  exact (proj1 (round_x4_eq b s s s s s s s s Hs Hs Hs Hs)).
Defined.
