(* ===== verification/AesHash.v ===== *)
(** * AES generators and the AES hash

    Models src/src/aes_generator.cpp, src/include/armrx/aes_keys.hpp and src/src/aes_hash.cpp: the
    two generator classes, the buffer fills, the scratchpad hash, and the two fused hash-and-fill
    loops, in every build.  An [AesState] is the list of its 64 bytes; output buffers are byte
    lists written through [write_bytes].  [ARMRX_ASSERT] only logs in release builds, so a buffer
    whose size is not a multiple of 64 runs into the out-of-bounds access the assertion announces. *)

From S2P Require Import Prelude Neon AesTables Aes.

Abbreviation AesState := (list Z).

(** ** Keys *)

Definition aes_key_byte_at (val index : Z) : Z := Z.land (Z.shiftr val (index * 8)) 0xff.
Definition build_aes_key (i3 i2 i1 i0 : Z) : AesBlock :=
  [aes_key_byte_at i0 0; aes_key_byte_at i0 1; aes_key_byte_at i0 2; aes_key_byte_at i0 3;
   aes_key_byte_at i1 0; aes_key_byte_at i1 1; aes_key_byte_at i1 2; aes_key_byte_at i1 3;
   aes_key_byte_at i2 0; aes_key_byte_at i2 1; aes_key_byte_at i2 2; aes_key_byte_at i2 3;
   aes_key_byte_at i3 0; aes_key_byte_at i3 1; aes_key_byte_at i3 2; aes_key_byte_at i3 3].

Definition kAesGen1RKey0 : AesBlock := build_aes_key 0xb4f44917 0xdbb5552b 0x62716609 0x6daca553.
Definition kAesGen1RKey1 : AesBlock := build_aes_key 0x0da1dc4e 0x1725d378 0x846a710d 0x6d7caf07.
Definition kAesGen1RKey2 : AesBlock := build_aes_key 0x3e20e345 0xf4c0794f 0x9f947ec6 0x3f1262f1.
Definition kAesGen1RKey3 : AesBlock := build_aes_key 0x49169154 0x16314c88 0xb1ba317c 0x6aef8135.

Definition kAesGen4RKey0 : AesBlock := build_aes_key 0x99e5d23f 0x2f546d2b 0xd1833ddb 0x6421aadd.
Definition kAesGen4RKey1 : AesBlock := build_aes_key 0xa5dfcde5 0x06f79d53 0xb6913f55 0xb20e3450.
Definition kAesGen4RKey2 : AesBlock := build_aes_key 0x171c02bf 0x0aa4679f 0x515e7baf 0x5c3ed904.
Definition kAesGen4RKey3 : AesBlock := build_aes_key 0xd8ded291 0xcd673785 0xe78f5d08 0x85623763.
Definition kAesGen4RKey4 : AesBlock := build_aes_key 0x229effb4 0x3d518b6d 0xe3d6a7a6 0xb5826f73.
Definition kAesGen4RKey5 : AesBlock := build_aes_key 0xb272b7d2 0xe9024d4e 0x9c10b3d9 0xc7566bf3.
Definition kAesGen4RKey6 : AesBlock := build_aes_key 0xf63befa7 0x2ba9660a 0xf765a38b 0xf273c9e7.
Definition kAesGen4RKey7 : AesBlock := build_aes_key 0xc0b0762d 0x0c06d1fd 0x915839de 0x7a7cd609.

Definition hash_state_0 : AesBlock := build_aes_key 0xd7983aad 0xcc82db47 0x9fa856de 0x92b52c0d.
Definition hash_state_1 : AesBlock := build_aes_key 0xace78057 0xf59e125a 0x15c7b798 0x338d996e.
Definition hash_state_2 : AesBlock := build_aes_key 0xe8a07ce4 0x5079506b 0xae62c7d0 0x6a770017.
Definition hash_state_3 : AesBlock := build_aes_key 0x7e994948 0x79a10005 0x07ad828d 0x630a240c.
Definition hash_xkey_0 : AesBlock := build_aes_key 0x06890201 0x90dc56bf 0x8b24949f 0xf6fa8389.
Definition hash_xkey_1 : AesBlock := build_aes_key 0xed18f99b 0xee1043c6 0x51f4e03c 0x61b263d1.

(** ** Blocks of a state, blocks of a span *)

Definition read_block (state : AesState) (index : nat) : AesBlock := take 16 (drop (index * 16) state).
Definition write_block (state : AesState) (index : nat) (block : AesBlock) : AesState :=
  take (index * 16) state ++ block ++ drop (index * 16 + 16) state.
Definition read_block_from_span (input : list Z) (offset : Z) : outcome AesBlock :=
  read_bytes input offset 16.
Definition write_block_to_span (output : list Z) (offset : Z) (block : AesBlock) : outcome (list Z) :=
  write_bytes output offset block.

Definition read_quad (state : AesState) : quad :=
  (read_block state 0, read_block state 1, read_block state 2, read_block state 3).
Definition write_quad (state : AesState) (s : quad) : AesState :=
  let '(s0, s1, s2, s3) := s in
  write_block (write_block (write_block (write_block state 0 s0) 1 s1) 2 s2) 3 s3.

Definition read_quad_from_span (input : list Z) (offset : Z) : outcome quad :=
  in0 ← read_block_from_span input (offset + 0);
  in1 ← read_block_from_span input (offset + 16);
  in2 ← read_block_from_span input (offset + 32);
  in3 ← read_block_from_span input (offset + 48);
  Done (in0, in1, in2, in3).
Definition write_quad_to_span (output : list Z) (offset : Z) (s : quad) : outcome (list Z) :=
  let '(s0, s1, s2, s3) := s in
  output ← write_block_to_span output (offset + 0) s0;
  output ← write_block_to_span output (offset + 16) s1;
  output ← write_block_to_span output (offset + 32) s2;
  write_block_to_span output (offset + 48) s3.

(** The values of [offset] in [for (offset = 0; offset < size; offset += 64)]. *)
Definition offsets (size : Z) : list Z := (fun k => 64 * k) <$> seqZ 0 ((size + 63) / 64).

(** ** The generator classes *)
Section Generators.
Context (b : build).

(** [AesGenerator1R::next]: the new state, which is also what it returns. *)
Definition next_1r (state : AesState) : AesState :=
  let state := write_block state 0 (aes_decrypt_round b (read_block state 0) kAesGen1RKey0) in
  let state := write_block state 1 (aes_encrypt_round b (read_block state 1) kAesGen1RKey1) in
  let state := write_block state 2 (aes_decrypt_round b (read_block state 2) kAesGen1RKey2) in
  write_block state 3 (aes_encrypt_round b (read_block state 3) kAesGen1RKey3).

(** The body of [AesGenerator4R::next] on its four blocks. *)
Definition rounds_4r (s : quad) : quad :=
  let '(s0, s1, s2, s3) := s in
  let '(s0, s1) := foldl (fun '(s0, s1) key => (aes_decrypt_round b s0 key, aes_encrypt_round b s1 key))
    (s0, s1) [kAesGen4RKey0; kAesGen4RKey1; kAesGen4RKey2; kAesGen4RKey3] in
  let '(s2, s3) := foldl (fun '(s2, s3) key => (aes_decrypt_round b s2 key, aes_encrypt_round b s3 key))
    (s2, s3) [kAesGen4RKey4; kAesGen4RKey5; kAesGen4RKey6; kAesGen4RKey7] in
  (s0, s1, s2, s3).

Definition next_4r (state : AesState) : AesState := write_quad state (rounds_4r (read_quad state)).

(** [fill] of either class. *)
Definition generator_fill (next : AesState -> AesState) (msg : string) (state : AesState)
  (output : list Z) : outcome (AesState * list Z) :=
  if negb (Z.of_nat (length output) mod 64 =? 0) then Throw (invalid_argument msg) else
  ofoldl (fun '(state, output) offset =>
      let block := next state in
      output ← write_bytes output offset block;
      Done (block, output))
    (state, output) (offsets (Z.of_nat (length output))).

Definition AesGenerator1R_fill : AesState -> list Z -> outcome (AesState * list Z) :=
  generator_fill next_1r "AesGenerator1R output must be a multiple of 64 bytes".
Definition AesGenerator4R_fill : AesState -> list Z -> outcome (AesState * list Z) :=
  generator_fill next_4r "AesGenerator4R output must be a multiple of 64 bytes".

(** ** The free functions *)

(** The loop body of [fill_aes_1r_x4] on the four blocks, in both builds. *)
Definition fill_round (s : quad) : quad :=
  let '(s0, s1, s2, s3) := s in
  if neon_ttable_aes b then
    let s0 := decrypt_transform b s0 in
    let s1 := encrypt_transform b s1 in
    let s2 := decrypt_transform b s2 in
    let s3 := encrypt_transform b s3 in
    (veorq_u8 s0 kAesGen1RKey0, veorq_u8 s1 kAesGen1RKey1, veorq_u8 s2 kAesGen1RKey2,
     veorq_u8 s3 kAesGen1RKey3)
  else
    (aes_decrypt_round b s0 kAesGen1RKey0, aes_encrypt_round b s1 kAesGen1RKey1,
     aes_decrypt_round b s2 kAesGen1RKey2, aes_encrypt_round b s3 kAesGen1RKey3).

(** One of the eight rounds of the NEON build of [fill_aes_4r_x4]. *)
Definition pair_round_neon (s : AesBlock * AesBlock) (key : AesBlock) : AesBlock * AesBlock :=
  let '(x, y) := s in
  let x := decrypt_transform b x in
  let y := encrypt_transform b y in
  (veorq_u8 x key, veorq_u8 y key).

Definition fill_rounds_4r (s : quad) : quad :=
  if neon_ttable_aes b then
    let '(s0, s1, s2, s3) := s in
    let '(s0, s1) := foldl (fun s ri => pair_round_neon s
        (if ri =? 0 then kAesGen4RKey0 else if ri =? 1 then kAesGen4RKey1
         else if ri =? 2 then kAesGen4RKey2 else kAesGen4RKey3)) (s0, s1) [0; 1; 2; 3] in
    let '(s2, s3) := foldl (fun s ri => pair_round_neon s
        (if ri =? 0 then kAesGen4RKey4 else if ri =? 1 then kAesGen4RKey5
         else if ri =? 2 then kAesGen4RKey6 else kAesGen4RKey7)) (s2, s3) [0; 1; 2; 3] in
    (s0, s1, s2, s3)
  else rounds_4r s.

(** The loop both fills share around their rounds. *)
Definition fill_loop (rounds : quad -> quad) (state : AesState) (output : list Z)
  : outcome (AesState * list Z) :=
  '(s, output) ← ofoldl (fun '(s, output) offset =>
      let s := rounds s in
      output ← write_quad_to_span output offset s;
      Done (s, output))
    (read_quad state, output) (offsets (Z.of_nat (length output)));
  Done (write_quad state s, output).

Definition fill_aes_1r_x4 (state : AesState) (output : list Z) : outcome (AesState * list Z) :=
  fill_loop fill_round state output.
Definition fill_aes_4r_x4 (state : AesState) (output : list Z) : outcome (AesState * list Z) :=
  fill_loop fill_rounds_4r state output.

(** One step of the hash: the input blocks are the round keys. *)
Definition hash_round (s k : quad) : quad :=
  let '(s0, s1, s2, s3) := s in
  let '(k0, k1, k2, k3) := k in
  if neon_ttable_aes b then
    let s0 := encrypt_transform b s0 in
    let s1 := decrypt_transform b s1 in
    let s2 := encrypt_transform b s2 in
    let s3 := decrypt_transform b s3 in
    (veorq_u8 s0 k0, veorq_u8 s1 k1, veorq_u8 s2 k2, veorq_u8 s3 k3)
  else
    (aes_encrypt_round b s0 k0, aes_decrypt_round b s1 k1, aes_encrypt_round b s2 k2,
     aes_decrypt_round b s3 k3).

Definition same_key (k : AesBlock) : quad := (k, k, k, k).
Definition hash_start : quad := (hash_state_0, hash_state_1, hash_state_2, hash_state_3).
Definition hash_finish (s : quad) : quad :=
  hash_round (hash_round s (same_key hash_xkey_0)) (same_key hash_xkey_1).

Definition hash_aes_1r_x4 (input : list Z) (hash : AesState) : outcome AesState :=
  s ← ofoldl (fun s offset =>
      k ← read_quad_from_span input offset;
      Done (hash_round s k))
    hash_start (offsets (Z.of_nat (length input)));
  Done (write_quad hash (hash_finish s)).

(** The fused loop over one scratchpad. *)
Definition hash_and_fill_aes_1r_x4 (scratchpad : list Z) (hash fill_state : AesState)
  : outcome (list Z * AesState * AesState) :=
  '(hs, fs, scratchpad) ← ofoldl (fun '(hs, fs, scratchpad) offset =>
      sp ← read_quad_from_span scratchpad offset;
      let hs := hash_round hs sp in
      let fs := fill_round fs in
      scratchpad ← write_quad_to_span scratchpad offset fs;
      Done (hs, fs, scratchpad))
    (hash_start, read_quad fill_state, scratchpad) (offsets (Z.of_nat (length scratchpad)));
  Done (scratchpad, write_quad hash (hash_finish hs), write_quad fill_state fs).

(** The fused loop over two scratchpads. *)
Definition hash_and_fill_aes_interleaved_x4 (hash_scratchpad fill_scratchpad : list Z)
  (hash_state fill_state : AesState) : outcome (list Z * AesState * AesState) :=
  '(hs, fs, fill_scratchpad) ← ofoldl (fun '(hs, fs, fill_scratchpad) offset =>
      sp ← read_quad_from_span hash_scratchpad offset;
      let hs := hash_round hs sp in
      let fs := fill_round fs in
      fill_scratchpad ← write_quad_to_span fill_scratchpad offset fs;
      Done (hs, fs, fill_scratchpad))
    (hash_start, read_quad fill_state, fill_scratchpad) (offsets (Z.of_nat (length hash_scratchpad)));
  Done (fill_scratchpad, write_quad hash_state (hash_finish hs), write_quad fill_state fs).
End Generators.

(** ** Specification: streams of 64-byte states *)

Definition state64 (state : AesState) : Prop := length state = 64%nat /\ Bytes state.
Definition quad_wf (s : quad) : Prop :=
  let '(s0, s1, s2, s3) := s in block16 s0 /\ block16 s1 /\ block16 s2 /\ block16 s3.
Definition flat (s : quad) : AesState := let '(s0, s1, s2, s3) := s in s0 ++ s1 ++ s2 ++ s3.

(** The specification's AesGenerator1R, AesGenerator4R and AesHash1R steps. *)
Definition gen1 (s : quad) : quad :=
  let '(s0, s1, s2, s3) := s in
  (dec s0 kAesGen1RKey0, enc s1 kAesGen1RKey1, dec s2 kAesGen1RKey2, enc s3 kAesGen1RKey3).
Definition dec4 (s k0 k1 k2 k3 : AesBlock) : AesBlock := dec (dec (dec (dec s k0) k1) k2) k3.
Definition enc4 (s k0 k1 k2 k3 : AesBlock) : AesBlock := enc (enc (enc (enc s k0) k1) k2) k3.
Definition gen4 (s : quad) : quad :=
  let '(s0, s1, s2, s3) := s in
  (dec4 s0 kAesGen4RKey0 kAesGen4RKey1 kAesGen4RKey2 kAesGen4RKey3,
   enc4 s1 kAesGen4RKey0 kAesGen4RKey1 kAesGen4RKey2 kAesGen4RKey3,
   dec4 s2 kAesGen4RKey4 kAesGen4RKey5 kAesGen4RKey6 kAesGen4RKey7,
   enc4 s3 kAesGen4RKey4 kAesGen4RKey5 kAesGen4RKey6 kAesGen4RKey7).
Definition hash1 (s k : quad) : quad :=
  let '(s0, s1, s2, s3) := s in
  let '(k0, k1, k2, k3) := k in
  (enc s0 k0, dec s1 k1, enc s2 k2, dec s3 k3).

(** The first [n] states after [s], as bytes. *)
Fixpoint stream (next : quad -> quad) (n : nat) (s : quad) : list Z :=
  match n with
  | O => []
  | S n => stream next n s ++ flat (Nat.iter (S n) next s)
  end.

(** The [k]-th 64 bytes of an input, and the hash of the first [n]. *)
Definition chunk (input : list Z) (k : nat) : quad := read_quad (take 64 (drop (64 * k) input)).
Definition hash_chunks (step : quad -> quad -> quad) (input : list Z) (n : nat) : quad :=
  foldl (fun s k => step s (chunk input k)) hash_start (seq 0 n).

(** ** Blocks and quads *)

Lemma build_aes_key_block i3 i2 i1 i0 : block16 (build_aes_key i3 i2 i1 i0).
Proof.
  split; [done|]. unfold build_aes_key.
  repeat (apply List.Forall_cons; [by apply (land_range_r 8 _ 0xff)|]). apply List.Forall_nil.
Qed.
#[local] Hint Extern 1 (block16 ?k) => (is_const k; apply build_aes_key_block) : word.

Lemma gen1_wf s : quad_wf (gen1 s).
Proof. destruct s as [[[s0 s1] s2] s3]. unfold gen1, quad_wf. auto 6 with word. Qed.
Lemma gen4_wf s : quad_wf (gen4 s).
Proof. destruct s as [[[s0 s1] s2] s3]. unfold gen4, quad_wf, dec4, enc4. auto 6 with word. Qed.
Lemma hash1_wf s k : quad_wf k -> quad_wf (hash1 s k).
Proof.
  destruct s as [[[s0 s1] s2] s3], k as [[[k0 k1] k2] k3]. unfold hash1, quad_wf.
  intros (?&?&?&?). auto 6 with word.
Qed.
Lemma hash_start_wf : quad_wf hash_start.
Proof. unfold quad_wf, hash_start. auto 6 with word. Qed.
Lemma same_key_wf k : block16 k -> quad_wf (same_key k).
Proof. by unfold quad_wf, same_key. Qed.
#[local] Hint Resolve gen1_wf gen4_wf hash1_wf hash_start_wf same_key_wf : word.

Lemma length_flat s : quad_wf s -> length (flat s) = 64%nat.
Proof.
  destruct s as [[[s0 s1] s2] s3]. intros ([H0 _]&[H1 _]&[H2 _]&[H3 _]). unfold flat.
  rewrite !length_app. lia.
Qed.
Lemma flat_bytes s : quad_wf s -> Bytes (flat s).
Proof.
  destruct s as [[[s0 s1] s2] s3]. intros ([_ H0]&[_ H1]&[_ H2]&[_ H3]). unfold flat.
  rewrite !Forall_app. auto.
Qed.

Lemma read_quad_wf state : state64 state -> quad_wf (read_quad state).
Proof.
  intros [Hl Hb]. unfold read_quad, quad_wf, read_block, block16. rewrite !length_take, !length_drop.
  repeat split; try (lia || by apply Forall_take, Forall_drop).
Qed.
Lemma flat_read_quad state : length state = 64%nat -> flat (read_quad state) = state.
Proof. intros Hl. by explode state. Qed.
Lemma read_quad_flat s : quad_wf s -> read_quad (flat s) = s.
Proof.
  destruct s as [[[s0 s1] s2] s3]. intros ([H0 _]&[H1 _]&[H2 _]&[H3 _]).
  by explode s0; explode s1; explode s2; explode s3.
Qed.
Lemma write_quad_flat state s : length state = 64%nat -> quad_wf s -> write_quad state s = flat s.
Proof.
  destruct s as [[[s0 s1] s2] s3]. intros Hl ([H0 _]&[H1 _]&[H2 _]&[H3 _]).
  explode s0; explode s1; explode s2; explode s3. by explode state.
Qed.

Lemma quad_blocks x0 x1 x2 x3 y : length x0 = 16%nat -> length x1 = 16%nat -> length x2 = 16%nat ->
  length x3 = 16%nat -> length y = 16%nat -> let q := flat (x0, x1, x2, x3) in
  read_block q 0 = x0 /\ read_block q 1 = x1 /\ read_block q 2 = x2 /\ read_block q 3 = x3 /\
  write_block q 0 y = flat (y, x1, x2, x3) /\ write_block q 1 y = flat (x0, y, x2, x3) /\
  write_block q 2 y = flat (x0, x1, y, x3) /\ write_block q 3 y = flat (x0, x1, x2, y).
Proof. intros. by explode x0; explode x1; explode x2; explode x3; explode y. Qed.

(** ** Every build runs the specification's steps *)
Section builds.
Context (b : build).

Lemma fill_round_ref s : quad_wf s -> fill_round b s = gen1 s.
Proof.
  destruct s as [[[s0 s1] s2] s3]. intros (?&?&?&?). unfold fill_round, gen1.
  destruct (neon_ttable_aes b);
    by rewrite ?encrypt_transform_ref, ?decrypt_transform_ref, ?encrypt_round_ref, ?decrypt_round_ref.
Qed.
Lemma hash_round_ref s k : quad_wf s -> hash_round b s k = hash1 s k.
Proof.
  destruct s as [[[s0 s1] s2] s3], k as [[[k0 k1] k2] k3]. intros (?&?&?&?). unfold hash_round, hash1.
  destruct (neon_ttable_aes b);
    by rewrite ?encrypt_transform_ref, ?decrypt_transform_ref, ?encrypt_round_ref, ?decrypt_round_ref.
Qed.
Lemma hash_finish_ref s :
  quad_wf s -> hash_finish b s = hash1 (hash1 s (same_key hash_xkey_0)) (same_key hash_xkey_1).
Proof.
  intros Hs. unfold hash_finish. rewrite !hash_round_ref; auto with word.
  rewrite hash_round_ref by done. auto with word.
Qed.
Lemma rounds_4r_ref s : quad_wf s -> rounds_4r b s = gen4 s.
Proof.
  destruct s as [[[s0 s1] s2] s3]. intros (?&?&?&?). unfold rounds_4r, gen4, dec4, enc4. cbn [foldl].
  rewrite !encrypt_round_ref, !decrypt_round_ref; auto 8 with word;
    repeat (rewrite ?encrypt_round_ref, ?decrypt_round_ref; auto 8 with word).
Qed.

Lemma pair_round_ref x y key :
  block16 x -> block16 y -> pair_round_neon b (x, y) key = (dec x key, enc y key).
Proof.
  intros. unfold pair_round_neon. by rewrite encrypt_transform_ref, decrypt_transform_ref.
Qed.
Lemma fill_rounds_4r_ref s : quad_wf s -> fill_rounds_4r b s = gen4 s.
Proof.
  intros Hs. unfold fill_rounds_4r. destruct (neon_ttable_aes b); [|by apply rounds_4r_ref].
  destruct s as [[[s0 s1] s2] s3], Hs as (?&?&?&?). unfold gen4, dec4, enc4.
  cbn [foldl Z.eqb Pos.eqb]. by rewrite !pair_round_ref by auto 8 with word.
Qed.

Lemma next_1r_ref state : state64 state -> next_1r b state = flat (gen1 (read_quad state)).
Proof.
  intros Hs. pose proof (read_quad_wf _ Hs) as Hq. pose proof (gen1_wf (read_quad state)) as Hg.
  rewrite <- (flat_read_quad state) at 1 by apply Hs. revert Hq Hg.
  destruct (read_quad state) as [[[s0 s1] s2] s3]. unfold gen1, quad_wf. intros (H0&H1&H2&H3) Hg.
  rewrite <- !(encrypt_round_ref b), <- !(decrypt_round_ref b) in * by done. unfold next_1r.
  destruct Hg as ([G0 _]&[G1 _]&[G2 _]&[G3 _]), H0 as [H0 _], H1 as [H1 _], H2 as [H2 _], H3 as [H3 _].
  destruct (quad_blocks _ _ _ _ _ H0 H1 H2 H3 G0) as (-> & _ & _ & _ & -> & _).
  destruct (quad_blocks _ _ _ _ _ G0 H1 H2 H3 G1) as (_ & -> & _ & _ & _ & -> & _).
  destruct (quad_blocks _ _ _ _ _ G0 G1 H2 H3 G2) as (_ & _ & -> & _ & _ & _ & -> & _).
  by destruct (quad_blocks _ _ _ _ _ G0 G1 G2 H3 G3) as (_ & _ & _ & -> & _ & _ & _ & ->).
Qed.
Lemma next_4r_ref state : state64 state -> next_4r b state = flat (gen4 (read_quad state)).
Proof.
  intros Hs. pose proof (read_quad_wf _ Hs). unfold next_4r. rewrite rounds_4r_ref by done.
  apply write_quad_flat; [apply Hs|apply gen4_wf].
Qed.
End builds.

(** ** Loops over a buffer of [n] times 64 bytes *)

Lemma offsets_mul n : offsets (Z.of_nat (64 * n)) = (fun k => Z.of_nat (64 * k)) <$> seq 0 n.
Proof.
  unfold offsets. replace ((Z.of_nat (64 * n) + 63) / 64) with (Z.of_nat n)
    by (Z.div_mod_to_equations; lia).
  unfold seqZ. rewrite <- list_fmap_compose, Nat2Z.id. apply list_fmap_ext. intros i k _. cbn. lia.
Qed.

Lemma offsets_loop {A} (P : nat -> A -> Prop) (f : A -> Z -> outcome A) a n :
  P 0%nat a ->
  (forall k a, (k < n)%nat -> P k a -> exists a', f a (Z.of_nat (64 * k)) = Done a' /\ P (S k) a') ->
  exists a', ofoldl f a (offsets (Z.of_nat (64 * n))) = Done a' /\ P n a'.
Proof.
  rewrite offsets_mul. intros H0 Hf. induction n as [|n IH]; [by eexists|].
  destruct IH as (a1 & E1 & H1); [intros; apply Hf; [lia|done]|].
  destruct (Hf n a1) as (a2 & E2 & H2); [lia|done|]. exists a2. split; [|done].
  rewrite seq_S, fmap_app, ofoldl_app, E1. cbn [mbind outcome_bind fmap list_fmap ofoldl].
  rewrite Nat.add_0_l, E2. done.
Qed.

(** Writing the four blocks at [64 * k] replaces the [k]-th 64 bytes; reading them gives them. *)
Lemma write_quad_to_span_ok s out k :
  quad_wf s -> (64 * S k <= length out)%nat ->
  write_quad_to_span out (Z.of_nat (64 * k)) s =
    Done (take (64 * k) out ++ flat s ++ drop (64 * S k) out).
Proof.
  intros Hs Hl. pose proof (length_flat s Hs) as Hf. revert Hs Hf.
  destruct s as [[[s0 s1] s2] s3]. intros ([H0 _]&[H1 _]&[H2 _]&[H3 _]) Hf.
  transitivity (write_bytes out (Z.of_nat (64 * k)) (s0 ++ s1 ++ s2 ++ s3)).
  - unfold write_quad_to_span, write_block_to_span. set (o := Z.of_nat (64 * k)).
    replace (o + 0) with o by lia. replace (o + 16) with (o + Z.of_nat (length s0)) by lia.
    replace (o + 32) with (o + Z.of_nat (length s0) + Z.of_nat (length s1)) by lia.
    replace (o + 48) with (o + Z.of_nat (length s0) + Z.of_nat (length s1) + Z.of_nat (length s2)) by lia.
    rewrite <- write_bytes_app by (rewrite ?length_app; lia).
    destruct (write_bytes out o s0) as [m0| | |] eqn:E0; cbn [mbind outcome_bind]; try done.
    apply write_bytes_length in E0. rewrite <- write_bytes_app by (rewrite ?length_app, ?E0; lia).
    destruct (write_bytes m0 _ s1) as [m1| | |] eqn:E1; cbn [mbind outcome_bind]; try done.
    apply write_bytes_length in E1. by rewrite <- write_bytes_app by (rewrite ?length_app, ?E1; lia).
  - unfold flat in Hf. rewrite write_bytes_ok by (rewrite ?Hf; lia). rewrite Hf, Nat2Z.id.
    by replace (64 * k + 64)%nat with (64 * S k)%nat by lia.
Qed.

Lemma read_quad_from_span_ok inp k :
  (64 * S k <= length inp)%nat -> read_quad_from_span inp (Z.of_nat (64 * k)) = Done (chunk inp k).
Proof.
  intros Hl. unfold read_quad_from_span, read_block_from_span.
  rewrite !read_bytes_ok by lia. cbn [mbind outcome_bind]. f_equal. unfold chunk, read_quad, read_block.
  rewrite !take_drop_commute, !take_take, !drop_drop.
  repeat f_equal; lia.
Qed.

Section fills.
Context (next : quad -> quad) (Hnext : forall s, quad_wf (next s)).

Lemma iter_wf n s : quad_wf s -> quad_wf (Nat.iter n next s).
Proof using Hnext. destruct n; [done|]. intros _. apply Hnext. Qed.

Lemma length_stream n s : length (stream next n s) = (64 * n)%nat.
Proof using Hnext.
  induction n as [|n IH]; cbn [stream]; [done|]. rewrite length_app, IH, length_flat by apply Hnext. lia.
Qed.
Lemma stream_bytes n s : Bytes (stream next n s).
Proof using Hnext.
  induction n as [|n IH]; cbn [stream]; [apply List.Forall_nil|]. apply Forall_app. split; [done|].
  apply flat_bytes, Hnext.
Qed.

(** A buffer of which the first [k] times 64 bytes have been filled. *)
Definition filled (s : quad) (out : list Z) (k : nat) : list Z := stream next k s ++ drop (64 * k) out.

Lemma length_filled s out k : (64 * k <= length out)%nat -> length (filled s out k) = length out.
Proof using Hnext. intros. unfold filled. rewrite length_app, length_stream, length_drop. lia. Qed.

Lemma drop_filled s out k : drop (64 * k) (filled s out k) = drop (64 * k) out.
Proof using Hnext. unfold filled. by rewrite drop_app_length' by (symmetry; apply length_stream). Qed.

Lemma filled_all s out n : length out = (64 * n)%nat -> filled s out n = stream next n s.
Proof. intros Hl. unfold filled. by rewrite drop_ge, app_nil_r by lia. Qed.

Lemma filled_split s out k : (64 * S k <= length out)%nat ->
  take (64 * k) (filled s out k) ++ flat (Nat.iter (S k) next s) ++ drop (64 * S k) (filled s out k) =
    filled s out (S k).
Proof using Hnext.
  intros. unfold filled at 1 2. rewrite take_app_length' by (symmetry; apply length_stream).
  rewrite drop_app_ge by (rewrite length_stream; lia). rewrite drop_drop, length_stream.
  unfold filled. cbn [stream]. rewrite <- app_assoc. do 3 f_equal. lia.
Qed.

Lemma filled_write s out k : (64 * S k <= length out)%nat ->
  write_quad_to_span (filled s out k) (Z.of_nat (64 * k)) (Nat.iter (S k) next s) =
    Done (filled s out (S k)).
Proof using Hnext.
  intros Hl. rewrite write_quad_to_span_ok by (first [apply Hnext | rewrite length_filled; lia]).
  by rewrite filled_split.
Qed.

Context (state : AesState) (Hst : state64 state) (out : list Z) (n : nat)
  (Hout : length out = (64 * n)%nat).

Lemma fill_loop_ref rounds :
  (forall s, quad_wf s -> rounds s = next s) ->
  fill_loop rounds state out =
    Done (flat (Nat.iter n next (read_quad state)), stream next n (read_quad state)).
Proof using Hnext Hst Hout.
  intros Hr. pose proof (read_quad_wf _ Hst) as Hq. unfold fill_loop. rewrite Hout. set (q := read_quad state) in *.
  edestruct (offsets_loop (fun k a => a = (Nat.iter k next q, filled q out k))) as (a & -> & ->).
  - unfold filled. cbn [Nat.iter stream]. by rewrite drop_0.
  - intros k a Hk ->. cbv beta iota. rewrite Hr by (by apply iter_wf).
    change (next (Nat.iter k next q)) with (Nat.iter (S k) next q). rewrite filled_write by lia. by eexists.
  - cbn [mbind outcome_bind]. rewrite filled_all by done. rewrite write_quad_flat; [done|apply Hst|].
    by apply iter_wf.
Qed.

Lemma generator_fill_ref nxt msg :
  (forall st, state64 st -> nxt st = flat (next (read_quad st))) ->
  generator_fill nxt msg state out =
    Done (flat (Nat.iter n next (read_quad state)), stream next n (read_quad state)).
Proof using Hnext Hst Hout.
  intros Hr. pose proof (read_quad_wf _ Hst) as Hq. unfold generator_fill. rewrite Hout. set (q := read_quad state) in *.
  replace (Z.of_nat (64 * n) mod 64) with 0 by (rewrite Nat2Z.inj_mul, Z.mul_comm, Z.mod_mul; lia).
  cbn [Z.eqb negb].
  edestruct (offsets_loop (fun k a => a = (flat (Nat.iter k next q), filled q out k))) as (a & -> & ->).
  - unfold filled. cbn [stream app]. rewrite Nat.mul_0_r, drop_0. change (Nat.iter 0 next q) with q.
    unfold q. by rewrite flat_read_quad by apply Hst.
  - intros k a Hk ->. cbv beta iota zeta. pose proof (iter_wf k q Hq) as Hw.
    rewrite Hr by (split; [by apply length_flat|by apply flat_bytes]). rewrite read_quad_flat by done.
    change (next (Nat.iter k next q)) with (Nat.iter (S k) next q).
    rewrite write_bytes_ok by (rewrite ?length_flat, ?length_filled by (first [apply Hnext|lia]); lia).
    cbn [mbind outcome_bind]. rewrite length_flat, Nat2Z.id by apply Hnext.
    replace (64 * k + 64)%nat with (64 * S k)%nat by lia. rewrite filled_split by lia. by eexists.
  - by rewrite filled_all.
Qed.
End fills.

(** ** The hash and the fused loops *)
Section hashes.
Context (b : build) (n : nat).

Lemma chunk_wf inp k : Bytes inp -> (64 * S k <= length inp)%nat -> quad_wf (chunk inp k).
Proof.
  intros Hb Hl. apply read_quad_wf. split; [rewrite length_take, length_drop; lia|].
  by apply Forall_take, Forall_drop.
Qed.

Lemma hash_chunks_S inp k : hash_chunks hash1 inp (S k) = hash1 (hash_chunks hash1 inp k) (chunk inp k).
Proof. unfold hash_chunks. by rewrite seq_S, foldl_app. Qed.

Lemma hash_chunks_wf inp k : Bytes inp -> (64 * k <= length inp)%nat -> quad_wf (hash_chunks hash1 inp k).
Proof.
  intros Hb Hl. destruct k; [apply hash_start_wf|]. rewrite hash_chunks_S. apply hash1_wf, chunk_wf; [done|lia].
Qed.

Definition hash_result (inp : list Z) : AesState := flat
  (hash1 (hash1 (hash_chunks hash1 inp n) (same_key hash_xkey_0)) (same_key hash_xkey_1)).

Lemma hash_result_wf inp : state64 (hash_result inp).
Proof. split; [apply length_flat|apply flat_bytes]; auto with word. Qed.

Lemma hash_out_ref h inp : length h = 64%nat -> Bytes inp -> length inp = (64 * n)%nat ->
  write_quad h (hash_finish b (hash_chunks hash1 inp n)) = hash_result inp.
Proof.
  intros Hh Hb Hl. rewrite hash_finish_ref by (apply hash_chunks_wf; [done|lia]).
  rewrite write_quad_flat; auto with word.
Qed.

Lemma hash_ref inp h : length h = 64%nat -> Bytes inp -> length inp = (64 * n)%nat ->
  hash_aes_1r_x4 b inp h = Done (hash_result inp).
Proof.
  intros Hh Hb Hl. unfold hash_aes_1r_x4. rewrite Hl.
  edestruct (offsets_loop (fun k s => s = hash_chunks hash1 inp k)) as (a & -> & ->); [done| |].
  - intros k s Hk ->. rewrite read_quad_from_span_ok by lia. cbn [mbind outcome_bind].
    rewrite hash_round_ref, <- hash_chunks_S by (apply hash_chunks_wf; [done|lia]). by eexists.
  - cbn [mbind outcome_bind]. by rewrite hash_out_ref.
Qed.

Context (fill_state : AesState) (Hst : state64 fill_state).

(** Reading past the filled part of a buffer reads the old contents. *)
Lemma chunk_filled s inp k : chunk (filled gen1 s inp k) k = chunk inp k.
Proof. unfold chunk. by rewrite (drop_filled gen1 gen1_wf). Qed.

Lemma hash_and_fill_ref sp h : length h = 64%nat -> Bytes sp -> length sp = (64 * n)%nat ->
  hash_and_fill_aes_1r_x4 b sp h fill_state =
    Done (stream gen1 n (read_quad fill_state), hash_result sp,
          flat (Nat.iter n gen1 (read_quad fill_state))).
Proof using Hst.
  intros Hh Hb Hl. pose proof (read_quad_wf _ Hst) as Hq. unfold hash_and_fill_aes_1r_x4. rewrite Hl.
  set (q := read_quad fill_state) in *.
  edestruct (offsets_loop (fun k a => a = (hash_chunks hash1 sp k, Nat.iter k gen1 q, filled gen1 q sp k)))
    as (a & -> & ->).
  - unfold filled. cbn [stream app]. by rewrite Nat.mul_0_r, drop_0.
  - intros k a Hk ->. cbv beta iota zeta.
    rewrite read_quad_from_span_ok by (rewrite (length_filled gen1 gen1_wf); lia).
    cbn [mbind outcome_bind]. rewrite chunk_filled, hash_round_ref, <- hash_chunks_S
      by (apply hash_chunks_wf; [done|lia]).
    rewrite fill_round_ref by (by apply (iter_wf gen1 gen1_wf)).
    change (gen1 (Nat.iter k gen1 q)) with (Nat.iter (S k) gen1 q).
    rewrite (filled_write gen1 gen1_wf) by lia. by eexists.
  - cbn [mbind outcome_bind]. rewrite filled_all, hash_out_ref by done. f_equal. f_equal.
    apply write_quad_flat; [apply Hst|]. by apply (iter_wf gen1 gen1_wf).
Qed.

Lemma interleaved_ref hsp fsp h : length h = 64%nat -> Bytes hsp -> length hsp = (64 * n)%nat ->
  length fsp = (64 * n)%nat ->
  hash_and_fill_aes_interleaved_x4 b hsp fsp h fill_state =
    Done (stream gen1 n (read_quad fill_state), hash_result hsp,
          flat (Nat.iter n gen1 (read_quad fill_state))).
Proof using Hst.
  intros Hh Hb Hl Hf. pose proof (read_quad_wf _ Hst) as Hq. unfold hash_and_fill_aes_interleaved_x4.
  rewrite Hl. set (q := read_quad fill_state) in *.
  edestruct (offsets_loop (fun k a => a = (hash_chunks hash1 hsp k, Nat.iter k gen1 q, filled gen1 q fsp k)))
    as (a & -> & ->).
  - unfold filled. cbn [stream app]. by rewrite Nat.mul_0_r, drop_0.
  - intros k a Hk ->. cbv beta iota zeta. rewrite read_quad_from_span_ok by lia.
    cbn [mbind outcome_bind]. rewrite hash_round_ref, <- hash_chunks_S
      by (apply hash_chunks_wf; [done|lia]).
    rewrite fill_round_ref by (by apply (iter_wf gen1 gen1_wf)).
    change (gen1 (Nat.iter k gen1 q)) with (Nat.iter (S k) gen1 q).
    rewrite (filled_write gen1 gen1_wf) by lia. by eexists.
  - cbn [mbind outcome_bind]. rewrite filled_all, hash_out_ref by done. f_equal. f_equal.
    apply write_quad_flat; [apply Hst|]. by apply (iter_wf gen1 gen1_wf).
Qed.
End hashes.

Lemma fill_1r_ref b st out n : state64 st -> length out = (64 * n)%nat ->
  fill_aes_1r_x4 b st out = Done (flat (Nat.iter n gen1 (read_quad st)), stream gen1 n (read_quad st)).
Proof. intros. apply fill_loop_ref; auto using gen1_wf, fill_round_ref. Qed.

Lemma fill_4r_ref b st out n : state64 st -> length out = (64 * n)%nat ->
  AesGenerator4R_fill b st out = Done (flat (Nat.iter n gen4 (read_quad st)), stream gen4 n (read_quad st)).
Proof. intros. apply generator_fill_ref; auto using gen4_wf, next_4r_ref. Qed.

(** ** Properties *)

(** C25: in every build, the generator classes and the free fill functions write the same bytes,
    the consecutive states of the specification's AesGenerator1R and AesGenerator4R, and leave the
    last one in the generator; the classes throw on exactly the sizes that are not a multiple of
    64. *)
Theorem aes_fills (b : build) (st : AesState) (out : list Z) :
  state64 st ->
  (Z.of_nat (length out) mod 64 <> 0 ->
   AesGenerator1R_fill b st out =
     Throw (invalid_argument "AesGenerator1R output must be a multiple of 64 bytes") /\
   AesGenerator4R_fill b st out =
     Throw (invalid_argument "AesGenerator4R output must be a multiple of 64 bytes")) /\
  (forall n, length out = (64 * n)%nat ->
   AesGenerator1R_fill b st out =
     Done (flat (Nat.iter n gen1 (read_quad st)), stream gen1 n (read_quad st)) /\
   fill_aes_1r_x4 b st out = AesGenerator1R_fill b st out /\
   AesGenerator4R_fill b st out =
     Done (flat (Nat.iter n gen4 (read_quad st)), stream gen4 n (read_quad st)) /\
   fill_aes_4r_x4 b st out = AesGenerator4R_fill b st out).
Proof.
  intros Hst. split.
  - intros Hm. unfold AesGenerator1R_fill, AesGenerator4R_fill, generator_fill.
    by destruct (Z.eqb_spec (Z.of_nat (length out) mod 64) 0).
  - intros n Hl. rewrite (fill_1r_ref b st out n Hst Hl), (fill_4r_ref b st out n Hst Hl).
    assert (AesGenerator1R_fill b st out =
      Done (flat (Nat.iter n gen1 (read_quad st)), stream gen1 n (read_quad st))) as ->
      by (apply generator_fill_ref; auto using gen1_wf, next_1r_ref).
    split_and!; try done. apply fill_loop_ref; auto using gen4_wf, fill_rounds_4r_ref.
Qed.

Lemma aes_fills_witness :
  fill_aes_1r_x4 (mkBuild true false true) (replicate 64 5) (replicate 64 0) =
    AesGenerator1R_fill (mkBuild true false true) (replicate 64 5) (replicate 64 0).
Proof.
  assert (state64 (replicate 64 5)) as Hs by (split; [done|by apply Forall_replicate]).
  exact (proj1 (proj2 (proj2 (aes_fills (mkBuild true false true) _ (replicate 64 0) Hs) 1%nat eq_refl))).
Defined.

(** Both fused loops give what hashing the first buffer and then filling the second give
    separately, also when the two are the same buffer, in every build, and they return. *)
Theorem hash_and_fill_separate (b : build) (sp sp2 : list Z) (h fs : AesState) (n : nat) :
  Bytes sp -> length sp = (64 * n)%nat -> length sp2 = (64 * n)%nat -> state64 h -> state64 fs ->
  let separately out :=
    h' ← hash_aes_1r_x4 b sp h; '(fs', out') ← fill_aes_1r_x4 b fs out; Done (out', h', fs') in
  hash_and_fill_aes_1r_x4 b sp h fs = separately sp /\
  hash_and_fill_aes_interleaved_x4 b sp sp2 h fs = separately sp2 /\
  returns (fun '(out', h', fs') => length out' = (64 * n)%nat /\ Bytes out' /\ state64 h' /\ state64 fs')
    (separately sp2).
Proof.
  intros Hb Hl Hl2 [Hh _] Hfs. cbv zeta.
  rewrite (hash_ref b n), !(fill_1r_ref b fs _ n), (hash_and_fill_ref b n), (interleaved_ref b n) by done.
  split; [done|]. split; [done|]. cbn [mbind outcome_bind returns].
  pose proof (iter_wf gen1 gen1_wf n _ (read_quad_wf _ Hfs)) as Hq.
  split; [apply (length_stream gen1 gen1_wf)|]. split; [apply (stream_bytes gen1 gen1_wf)|].
  split; [apply hash_result_wf|]. split; [by apply length_flat|by apply flat_bytes].
Qed.

Lemma hash_and_fill_separate_witness :
  let s := replicate 64 5 in let b := mkBuild false true false in
  hash_and_fill_aes_1r_x4 b s s s =
    (h' ← hash_aes_1r_x4 b s s; '(fs', out') ← fill_aes_1r_x4 b s s; Done (out', h', fs')).
Proof.
  intros s b. assert (state64 s) as Hs by (split; [done|by apply Forall_replicate]).
  exact (proj1 (hash_and_fill_separate b s s s s 1 (proj2 Hs) eq_refl eq_refl Hs Hs)).
Defined.
