(* ===== verification/Hash.v ===== *)
(** * The RandomX hash

    Models the top of src/src/vm.cpp: [run] (program generation and execution), the final AES and
    BLAKE2b hashing of the machine, [randomx_calculate_hash] and its pipelined form, for the
    interpreted machine. *)

From S2P Require Import Prelude Neon Blake2b RandomX Argon2 Dataset Float.
From S2P Require Import Bytecode BytecodeSafety BytecodeTermination Vm HashSim AesTables Aes AesHash.

(** ** Programs *)

Definition set_program (entropy : list Z) (program : list Instruction) (vm : VirtualMachine)
  : VirtualMachine :=
  mkVM (flags_ vm) (cache_ vm) (dataset_ vm) (dataset_offset_ vm) (mx_ vm) (ma_ vm) (e_mask_ vm)
    (read_reg0_ vm) (read_reg1_ vm) (read_reg2_ vm) (read_reg3_ vm) (core_ vm) program entropy
    (bytecode_ vm).

(** The [memcpy]s into [entropy_] (16 words) and [program_buffer_] (256 instructions of 8 bytes). *)
Definition entropy_of (prog_bytes : list Z) : list Z :=
  (fun i => of_le (take 8 (drop (8 * i) prog_bytes))) <$> seq 0 16.
Definition program_of (prog_bytes : list Z) : list Instruction :=
  (fun i => decode_instruction (take 8 (drop (8 * i) (drop 128 prog_bytes)))) <$> seq 0 256.

(** [VirtualMachine::run] without a JIT. *)
Definition run (b : build) (seed : AesState) (vm : VirtualMachine) : outcome VirtualMachine :=
  '(_, prog_bytes) ← AesGenerator4R_fill b seed (replicate (128 + 2048) 0);
  run_interpreted (initialize_vm_state (set_program (entropy_of prog_bytes) (program_of prog_bytes) vm)).

(** ** The scratchpad and the register file as bytes *)

Definition set_scratchpad (mem : list Z) (vm : VirtualMachine) : VirtualMachine :=
  let c := core_ vm in set_core (mkX (reg_ c) mem (last_rounding_mode_ c) (fe_round c)) vm.
Definition set_regs (rf : RegisterFile) (vm : VirtualMachine) : VirtualMachine :=
  set_core (set_reg_file rf (core_ vm)) vm.
Definition set_fe_round (mode : rounding) (vm : VirtualMachine) : VirtualMachine :=
  let c := core_ vm in set_core (mkX (reg_ c) (scratchpad_ c) (last_rounding_mode_ c) mode) vm.

(** [seed] is updated in place to the last state of the fill. *)
Definition init_scratchpad (b : build) (seed : AesState) (vm : VirtualMachine)
  : outcome (AesState * VirtualMachine) :=
  '(seed, mem) ← fill_aes_1r_x4 b seed (scratchpad_ (core_ vm));
  Done (seed, set_scratchpad mem vm).

Definition floats_bytes (l : list FloatRegister) : list Z := concat (float_bytes <$> l).
Definition floats_of (bs : list Z) : list FloatRegister :=
  (fun i => mkFloat (of_le (take 8 (drop (16 * i) bs))) (of_le (take 8 (drop (16 * i + 8) bs)))) <$> seq 0 4.

(** The object representation of [RegisterFile]: r, f, e, a. *)
Definition reg_bytes (rf : RegisterFile) : list Z :=
  concat (le_bytes 8 <$> r rf) ++ floats_bytes (f rf) ++ floats_bytes (e rf) ++ floats_bytes (a rf).
(** [reinterpret_cast<AesState&>(reg_.a) = state]. *)
Definition set_a (state : AesState) (rf : RegisterFile) : RegisterFile :=
  mkRegisterFile (r rf) (f rf) (e rf) (floats_of state).

(** ** Final hashing *)

Definition get_final_result (b : build) (vm : VirtualMachine) (out : list Z)
  : outcome (VirtualMachine * list Z) :=
  let rf := reg_ (core_ vm) in
  h ← hash_aes_1r_x4 b (scratchpad_ (core_ vm)) (floats_bytes (a rf));
  let vm := set_regs (set_a h rf) vm in
  out ← Blake2b.blake2b_into (reg_bytes (reg_ (core_ vm))) out 32;
  Done (vm, out).

Definition hash_and_fill (b : build) (vm : VirtualMachine) (out : list Z) (fill_state : AesState)
  : outcome (VirtualMachine * list Z * AesState) :=
  let rf := reg_ (core_ vm) in
  '(mem, h, new_fill_state) ←
    hash_and_fill_aes_1r_x4 b (scratchpad_ (core_ vm)) (floats_bytes (a rf)) fill_state;
  let vm := set_regs (set_a h rf) (set_scratchpad mem vm) in
  out ← Blake2b.blake2b_into (reg_bytes (reg_ (core_ vm))) out 32;
  Done (vm, out, new_fill_state).

(** One of the seven chained programs: run, then hash the register file into the next seed. *)
Definition chain_step (b : build) (st : VirtualMachine * AesState) (chain : Z)
  : outcome (VirtualMachine * AesState) :=
  let '(vm, temp) := st in
  vm ← run b temp vm;
  temp ← Blake2b.blake2b_into (reg_bytes (reg_ (core_ vm))) temp 64;
  Done (vm, temp).

(** The eight programs, from a filled scratchpad. *)
Definition run_programs (b : build) (vm : VirtualMachine) (temp : AesState) : outcome VirtualMachine :=
  let vm := reset_rounding_mode vm in
  '(vm, temp) ← ofoldl (chain_step b) (vm, temp) (seqZ 0 7);
  run b temp vm.

(** [fegetenv]/[fesetenv] restore the caller's rounding direction. *)
Definition randomx_calculate_hash (b : build) (vm : VirtualMachine) (input output : list Z)
  : outcome (VirtualMachine * list Z) :=
  let fpstate := fe_round (core_ vm) in
  temp ← Blake2b.blake2b_into input (replicate 64 0) 64;
  '(temp, vm) ← init_scratchpad b temp vm;
  vm ← run_programs b vm temp;
  '(vm, output) ← get_final_result b vm output;
  Done (set_fe_round fpstate vm, output).

(** Part D of the pipelined form, [d2]: ARMRX_ENABLE_D2_PIPELINE.  [next_scratchpad] is a buffer
    of its own ([Some]) or the machine's active scratchpad [mem] itself ([None]); the interleaved
    loop over one buffer is the loop of [hash_and_fill_aes_1r_x4].  Returns the hash state, the
    final fill state and the filled buffer. *)
Definition hash_then_fill (b : build) (d2 : bool) (mem : list Z) (next_scratchpad : option (list Z))
  (hash_state next_seed : AesState) : outcome (AesState * AesState * list Z) :=
  if d2 then
    '(next, hash_state, next_seed) ←
      match next_scratchpad with
      | Some next => hash_and_fill_aes_interleaved_x4 b mem next hash_state next_seed
      | None => hash_and_fill_aes_1r_x4 b mem hash_state next_seed
      end;
    Done (hash_state, next_seed, next)
  else
    hash_state ← hash_aes_1r_x4 b mem hash_state;
    '(next_seed, next) ← fill_aes_1r_x4 b next_seed (default mem next_scratchpad);
    Done (hash_state, next_seed, next).

(** The pipelined form: besides the digest of [input] it fills [next_scratchpad] for [next_input],
    publishes the final fill state in [next_seed_out], and makes [next_scratchpad] the machine's
    scratchpad; the last component is the buffer the machine gave up, unless it keeps it.
    [run_seed] is the seed a previous call published ([nullptr]: fill the scratchpad now). *)
Definition randomx_calculate_hash_pipelined (b : build) (d2 : bool) (vm : VirtualMachine)
  (input output next_input : list Z) (next_scratchpad : option (list Z)) (run_seed : option AesState)
  : outcome (VirtualMachine * list Z * AesState * option (list Z)) :=
  let fpstate := fe_round (core_ vm) in
  temp ← Blake2b.blake2b_into input (replicate 64 0) 64;
  '(temp, vm) ← match run_seed with
                | Some seed => Done (seed, vm)
                | None => init_scratchpad b temp vm
                end;
  vm ← run_programs b vm temp;
  next_seed ← Blake2b.blake2b_into next_input (replicate 64 0) 64;
  let current_reg := reg_ (core_ vm) in
  let hash_state := floats_bytes (a current_reg) in
  '(hash_state, next_seed, next) ←
    hash_then_fill b d2 (scratchpad_ (core_ vm)) next_scratchpad hash_state next_seed;
  let next_seed_out := next_seed in
  let current_reg := set_a hash_state current_reg in
  output ← Blake2b.blake2b_into (reg_bytes current_reg) output 32;
  let retired := (fun _ => scratchpad_ (core_ vm)) <$> next_scratchpad in
  let vm := set_scratchpad next vm in
  Done (set_fe_round fpstate vm, output, next_seed_out, retired).

(** ** Hashing and filling, as values *)

Definition digest (input : list Z) (n : Z) : list Z := take (Z.to_nat n) (Blake2b.full_digest input n).

Lemma blake_into_eq input buf n :
  1 <= n <= 64 -> Z.of_nat (length buf) = n ->
  Blake2b.blake2b_into input buf n = Done (digest input n) /\
  Z.of_nat (length (digest input n)) = n /\ Bytes (digest input n).
Proof.
  intros Hn Hl. destruct (Blake2b.full_digest_spec input n Hn) as [Hd Hb]. unfold digest.
  assert (Z.of_nat (length (take (Z.to_nat n) (Blake2b.full_digest input n))) = n) as Hlen
    by (rewrite length_take; lia).
  split; [|split; [done|by apply Forall_take]].
  pose proof (Blake2b.blake2b_eq input n Hn) as E. unfold Blake2b.blake2b in E.
  unfold Blake2b.blake2b_into. destruct (_ || _); [discriminate E|].
  apply bind_Done in E as ([[st bytes] rest] & Ea & E). rewrite Ea. cbn [mbind outcome_bind].
  injection E as E. rewrite E, write_bytes_ok by lia. cbn [Z.to_nat take app Nat.add].
  f_equal. rewrite drop_ge, app_nil_r by lia. done.
Qed.

Lemma digest64 input buf : length buf = 64%nat ->
  Blake2b.blake2b_into input buf 64 = Done (digest input 64) /\ state64 (digest input 64).
Proof.
  intros Hl. destruct (blake_into_eq input buf 64) as (E & Hd & Hb); [lia|lia|].
  split; [done|]. split; [lia|done].
Qed.

Definition scratchpad_lines : nat := Z.to_nat 32768.
Lemma scratchpad_chunks (mem : list Z) :
  Z.of_nat (length mem) = kRandomXScratchpadBytes -> length mem = (64 * scratchpad_lines)%nat.
Proof. change kRandomXScratchpadBytes with 2097152. unfold scratchpad_lines. lia. Qed.

(** The scratchpad and the seed after filling from [seed]. *)
Definition filled_pad (seed : AesState) : list Z := stream gen1 scratchpad_lines (read_quad seed).
Definition filled_seed (seed : AesState) : AesState := flat (Nat.iter scratchpad_lines gen1 (read_quad seed)).

Lemma fill_pad b seed mem : state64 seed -> Z.of_nat (length mem) = kRandomXScratchpadBytes ->
  fill_aes_1r_x4 b seed mem = Done (filled_seed seed, filled_pad seed).
Proof. intros Hs Hm. by apply fill_1r_ref, scratchpad_chunks. Qed.

Lemma interleaved_pad b seed mem next h : state64 seed ->
  Z.of_nat (length mem) = kRandomXScratchpadBytes -> Bytes mem -> length h = 64%nat ->
  Z.of_nat (length next) = kRandomXScratchpadBytes ->
  hash_and_fill_aes_interleaved_x4 b mem next h seed =
    Done (filled_pad seed, hash_result scratchpad_lines mem, filled_seed seed).
Proof. intros Hs Hm Hb Hh Hn. by apply interleaved_ref; try apply scratchpad_chunks. Qed.

Lemma fused_pad b seed mem h : state64 seed ->
  Z.of_nat (length mem) = kRandomXScratchpadBytes -> Bytes mem -> length h = 64%nat ->
  hash_and_fill_aes_1r_x4 b mem h seed =
    Done (filled_pad seed, hash_result scratchpad_lines mem, filled_seed seed).
Proof. intros Hs Hm Hb Hh. by apply hash_and_fill_ref; try apply scratchpad_chunks. Qed.

Lemma filled_seed_wf seed : state64 seed -> state64 (filled_seed seed).
Proof.
  intros Hs. pose proof (iter_wf gen1 gen1_wf scratchpad_lines _ (read_quad_wf _ Hs)).
  split; [by apply length_flat|by apply flat_bytes].
Qed.
Lemma filled_pad_wf seed :
  Z.of_nat (length (filled_pad seed)) = kRandomXScratchpadBytes /\ Bytes (filled_pad seed).
Proof.
  unfold filled_pad. split; [|apply (stream_bytes gen1 gen1_wf)].
  rewrite (length_stream gen1 gen1_wf). change kRandomXScratchpadBytes with 2097152.
  unfold scratchpad_lines. lia.
Qed.
#[local] Opaque filled_pad filled_seed scratchpad_lines.

(** The program a seed generates. *)
Definition prog_stream (seed : AesState) : list Z := stream gen4 34 (read_quad seed).

Lemma program_wf bs : Bytes bs ->
  Words (entropy_of bs) /\ length (program_of bs) = 256%nat /\ Forall instruction_wf (program_of bs).
Proof.
  intros Hb. assert (forall n k, Bytes (take k (drop n bs))) as Ht by (intros; by apply Forall_take, Forall_drop).
  split; [|split; [by unfold program_of; rewrite length_fmap, length_seq|]].
  - apply Forall_fmap, Forall_forall. intros i _. cbn. eapply in_range_mono; [|apply of_le_range, Ht].
    rewrite length_take. lia.
  - apply Forall_fmap, Forall_forall. intros i _. cbn [compose]. rewrite drop_drop.
    specialize (Ht (128 + 8 * i)%nat 8%nat). revert Ht.
    generalize (take 8 (drop (128 + 8 * i) bs)) as l. intros l Hl. unfold decode_instruction, instruction_wf.
    cbn [opcode dst src mod_ imm32].
    split_and!; try (apply Forall_lookup_total_range; [lia|done]).
    eapply in_range_mono; [|apply of_le_range; by apply Forall_take, Forall_drop]. rewrite length_take. lia.
Qed.

Lemma run_eq b seed vm : state64 seed ->
  run b seed vm = run_interpreted (initialize_vm_state
    (set_program (entropy_of (prog_stream seed)) (program_of (prog_stream seed)) vm)).
Proof.
  intros Hs. unfold run, prog_stream.
  by rewrite (fill_4r_ref b seed (replicate (128 + 2048) 0) 34) by (done || by rewrite length_replicate).
Qed.

Lemma set_program_idle seed vm : vm_idle vm ->
  vm_idle (set_program (entropy_of (prog_stream seed)) (program_of (prog_stream seed)) vm).
Proof.
  intros [Hr Hf He Hm _ _ Hb Hmm].
  destruct (program_wf (prog_stream seed)) as (Hen & Hl & Hp); [apply (stream_bytes gen4 gen4_wf)|].
  constructor; try done.
Qed.

(** ** Two machines hash alike *)

(** What two machines share between two programs. *)
Record linked (c : Argon2dCache) (vm1 vm2 : VirtualMachine) : Prop := mkLinked {
  lk_serves : serves c vm1 /\ serves c vm2;
  lk_idle : vm_idle vm1 /\ vm_idle vm2;
  lk_mem : scratchpad_ (core_ vm1) = scratchpad_ (core_ vm2);
  lk_last : last_rounding_mode_ (core_ vm1) = last_rounding_mode_ (core_ vm2);
  lk_fe : fe_round (core_ vm1) = fe_round (core_ vm2);
}.

(** After a program they also share their registers, and the A registers are 64 bytes. *)
Definition joined (c : Argon2dCache) (vm1 vm2 : VirtualMachine) : Prop :=
  linked c vm1 vm2 /\ core_ vm1 = core_ vm2 /\ length (floats_bytes (a (reg_ (core_ vm1)))) = 64%nat.

Section two_machines.
Context (c : Argon2dCache) (Hc : cache_ready c) (b1 b2 : build).

Lemma run_linked vm1 vm2 seed : linked c vm1 vm2 -> state64 seed ->
  exists vm1' vm2', run b1 seed vm1 = Done vm1' /\ run b2 seed vm2 = Done vm2' /\ joined c vm1' vm2'.
Proof using Hc.
  intros [[S1 S2] [I1 I2] Hm Hl Hf] Hs. rewrite !run_eq by done.
  destruct (initialized_sim c
    (set_program (entropy_of (prog_stream seed)) (program_of (prog_stream seed)) vm1)
    (set_program (entropy_of (prog_stream seed)) (program_of (prog_stream seed)) vm2))
    as (v1 & v2 & E1 & E2 & Hcore & S1' & S2' & R1 & R2); try done; try by apply set_program_idle.
  exists v1, v2. split; [done|]. split; [done|]. split; [|split; [done|]].
  - constructor; [done|split; [apply R1|apply R2]|by rewrite Hcore..].
  - unfold floats_bytes. rewrite length_float_bytes. destruct R1 as [_ [_ _ _ [-> _] _] _ _ _ _]. done.
Qed.

Lemma chain_linked l vm1 vm2 temp : linked c vm1 vm2 -> state64 temp ->
  exists vm1' vm2' temp', ofoldl (chain_step b1) (vm1, temp) l = Done (vm1', temp') /\
    ofoldl (chain_step b2) (vm2, temp) l = Done (vm2', temp') /\ linked c vm1' vm2' /\ state64 temp'.
Proof using Hc.
  revert vm1 vm2 temp. induction l as [|k l IH]; intros vm1 vm2 temp H Ht; cbn [ofoldl]; [eauto 10|].
  destruct (run_linked vm1 vm2 temp H Ht) as (v1 & v2 & E1 & E2 & H' & Hcore & _).
  destruct (digest64 (reg_bytes (reg_ (core_ v1))) temp (proj1 Ht)) as [Ed Hd].
  assert (chain_step b1 (vm1, temp) k = Done (v1, digest (reg_bytes (reg_ (core_ v1))) 64)) as ->
    by (unfold chain_step; rewrite E1; cbn [mbind outcome_bind]; by rewrite Ed).
  assert (chain_step b2 (vm2, temp) k = Done (v2, digest (reg_bytes (reg_ (core_ v1))) 64)) as ->
    by (unfold chain_step; rewrite E2; cbn [mbind outcome_bind]; rewrite <- Hcore; by rewrite Ed).
  cbn [mbind outcome_bind]. by apply IH.
Qed.

Lemma programs_linked vm1 vm2 temp :
  serves c vm1 -> serves c vm2 -> vm_idle vm1 -> vm_idle vm2 ->
  scratchpad_ (core_ vm1) = scratchpad_ (core_ vm2) -> state64 temp ->
  exists vm1' vm2', run_programs b1 vm1 temp = Done vm1' /\ run_programs b2 vm2 temp = Done vm2' /\
    joined c vm1' vm2'.
Proof using Hc.
  intros S1 S2 I1 I2 Hm Ht. unfold run_programs.
  assert (linked c (reset_rounding_mode vm1) (reset_rounding_mode vm2)) as H.
  { constructor; try done. split; [destruct I1|destruct I2]; by constructor. }
  destruct (chain_linked (seqZ 0 7) _ _ temp H Ht) as (v1 & v2 & t & E1 & E2 & H' & Ht').
  rewrite E1, E2. cbn [mbind outcome_bind]. by apply run_linked.
Qed.

Lemma set_scratchpad_idle mem vm : vm_idle vm ->
  Z.of_nat (length mem) = kRandomXScratchpadBytes -> Bytes mem -> vm_idle (set_scratchpad mem vm).
Proof. intros [] Hl Hb. by constructor. Qed.

Lemma init_scratchpad_eq b vm seed : vm_idle vm -> state64 seed ->
  init_scratchpad b seed vm = Done (filled_seed seed, set_scratchpad (filled_pad seed) vm) /\
  vm_idle (set_scratchpad (filled_pad seed) vm).
Proof.
  intros Hi Hs. pose proof Hi as [_ _ _ [Hm _] _ _ _ _]. unfold init_scratchpad. rewrite fill_pad by done.
  destruct (filled_pad_wf seed) as [Hl Hb]. split; [done|]. by apply set_scratchpad_idle.
Qed.

(** The digest of a machine that has run its programs. *)
Definition final_digest (vm : VirtualMachine) : list Z :=
  digest (reg_bytes (set_a (hash_result scratchpad_lines (scratchpad_ (core_ vm))) (reg_ (core_ vm)))) 32.

Lemma final_result_eq b vm out :
  vm_idle vm -> length (floats_bytes (a (reg_ (core_ vm)))) = 64%nat -> length out = 32%nat ->
  get_final_result b vm out =
    Done (set_regs (set_a (hash_result scratchpad_lines (scratchpad_ (core_ vm))) (reg_ (core_ vm))) vm,
          final_digest vm).
Proof.
  intros [_ _ _ [Hm Hb] _ _ _ _] Ha Ho. unfold get_final_result.
  rewrite (hash_ref b scratchpad_lines) by (done || by apply scratchpad_chunks).
  cbn [mbind outcome_bind]. destruct (blake_into_eq (reg_bytes (reg_ (core_ (set_regs (set_a
    (hash_result scratchpad_lines (scratchpad_ (core_ vm))) (reg_ (core_ vm))) vm)))) out 32) as (-> & _);
    [lia|lia|]. done.
Qed.

Lemma final_digest_wf vm : length (final_digest vm) = 32%nat /\ Bytes (final_digest vm).
Proof.
  destruct (blake_into_eq (reg_bytes (set_a (hash_result scratchpad_lines (scratchpad_ (core_ vm)))
    (reg_ (core_ vm)))) (replicate 32 0) 32) as (_ & Hl & Hb); [lia|done|]. unfold final_digest. split; [lia|done].
Qed.

Lemma finished_idle rf fe vm :
  vm_idle vm -> vm_idle (set_fe_round fe (set_regs (set_a rf (reg_ (core_ vm))) vm)).
Proof. intros []. by constructor. Qed.

Lemma hash_linked vm1 vm2 input out1 out2 :
  serves c vm1 -> serves c vm2 -> vm_idle vm1 -> vm_idle vm2 ->
  length out1 = 32%nat -> length out2 = 32%nat ->
  exists vm1' vm2' h,
    randomx_calculate_hash b1 vm1 input out1 = Done (vm1', h) /\
    randomx_calculate_hash b2 vm2 input out2 = Done (vm2', h) /\ length h = 32%nat /\ Bytes h /\
    vm_idle vm1' /\ serves c vm1' /\ fe_round (core_ vm1') = fe_round (core_ vm1) /\
    exists w, run_programs b1 (set_scratchpad (filled_pad (digest input 64)) vm1)
                (filled_seed (digest input 64)) = Done w /\ h = final_digest w.
Proof using Hc.
  intros S1 S2 I1 I2 L1 L2. unfold randomx_calculate_hash.
  destruct (digest64 input (replicate 64 0)) as [-> Hd]; [done|]. cbn [mbind outcome_bind].
  set (t := digest input 64) in *.
  destruct (init_scratchpad_eq b1 vm1 t I1 Hd) as [-> J1].
  destruct (init_scratchpad_eq b2 vm2 t I2 Hd) as [-> J2]. cbn [mbind outcome_bind].
  destruct (programs_linked (set_scratchpad (filled_pad t) vm1) (set_scratchpad (filled_pad t) vm2)
    (filled_seed t)) as (v1 & v2 & E1 & E2 & [[T1 T2] [K1 K2] _ _ _] & Hcore & Ha);
    [done..|by apply filled_seed_wf|].
  rewrite E1, E2. cbn [mbind outcome_bind].
  rewrite (final_result_eq b1 v1 out1 K1 Ha L1).
  rewrite (final_result_eq b2 v2 out2 K2) by (by rewrite <- ?Hcore). cbn [mbind outcome_bind].
  destruct (final_digest_wf v1) as [Hl Hb].
  eexists _, _, (final_digest v1). split; [reflexivity|]. split.
  { unfold final_digest. by rewrite Hcore. }
  split; [done|]. split; [done|]. split; [by apply finished_idle|]. split; [exact T1|]. split; [done|].
  by exists v1.
Qed.
End two_machines.

(** ** The machine's memory is left alone *)

Lemma run_memory b seed vm vm' : run b seed vm = Done vm' -> memory_of vm' = memory_of vm.
Proof. unfold run. intros E. steps E. apply run_interpreted_memory in E. exact E. Qed.

Lemma run_programs_memory b vm temp vm' : run_programs b vm temp = Done vm' -> memory_of vm' = memory_of vm.
Proof.
  unfold run_programs. intros E. steps E. apply run_memory in E. rewrite E.
  match goal with H : ofoldl _ _ _ = Done _ |- _ =>
    apply (ofoldl_keeps (fun x y => memory_of y.1 = memory_of x.1)) in H; [exact H|..] end.
  - done.
  - intros x y w H1 H2. by rewrite H2.
  - intros [x t] k y H1. unfold chain_step in H1. steps H1. injection H1 as <-. by eapply run_memory.
Qed.

Lemma init_scratchpad_memory b seed vm seed' vm' :
  init_scratchpad b seed vm = Done (seed', vm') -> memory_of vm' = memory_of vm.
Proof. unfold init_scratchpad. intros E. steps E. by apply Done_pair in E as [_ <-]. Qed.

Lemma hash_memory b vm input out vm' h :
  randomx_calculate_hash b vm input out = Done (vm', h) -> memory_of vm' = memory_of vm.
Proof.
  unfold randomx_calculate_hash, get_final_result. intros E. steps E.
  apply Done_pair in E as [<- _].
  match goal with H : (_ ≫= _) = Done (v0, _) |- _ => steps H; apply Done_pair in H as [<- _] end.
  repeat match goal with
    | H : run_programs _ _ _ = Done _ |- _ => apply run_programs_memory in H
    | H : init_scratchpad _ _ _ = Done _ |- _ => apply init_scratchpad_memory in H
    end.
  unfold memory_of in *. cbn in *. congruence.
Qed.

Lemma pipelined_memory b d2 vm input out next_input next run_seed vm' h seed retired :
  randomx_calculate_hash_pipelined b d2 vm input out next_input next run_seed = Done (vm', h, seed, retired) ->
  memory_of vm' = memory_of vm.
Proof.
  unfold randomx_calculate_hash_pipelined. intros E. steps E.
  apply Done_pair in E as [E _]. injection E as <- _ _.
  match goal with H : match run_seed with _ => _ end = Done (_, ?v) |- _ =>
    assert (memory_of v = memory_of vm) as Hv;
      [destruct run_seed; [apply Done_pair in H as [_ <-]; done|by eapply init_scratchpad_memory]|] end.
  match goal with H : run_programs _ _ _ = Done _ |- _ => apply run_programs_memory in H end.
  unfold memory_of in *. cbn in *. congruence.
Qed.

(** C1: the hash is a function of the cache and the input.  Any two idle machines that serve the
    same cache (one may be in light mode, the other in fast mode; built with any of the AES
    implementations; with any leftovers of earlier hashes in registers, scratchpad, bytecode and
    rounding state) return, and return the same 32-byte digest for the same input; the machine is
    again idle, serves the same cache and the caller's rounding direction is restored. *)
Theorem hash_deterministic (c : Argon2dCache) (b1 b2 : build) (vm1 vm2 : VirtualMachine)
  (input out1 out2 : list Z) :
  cache_ready c -> serves c vm1 -> serves c vm2 -> vm_idle vm1 -> vm_idle vm2 ->
  length out1 = 32%nat -> length out2 = 32%nat ->
  exists vm1' vm2' h,
    randomx_calculate_hash b1 vm1 input out1 = Done (vm1', h) /\
    randomx_calculate_hash b2 vm2 input out2 = Done (vm2', h) /\ length h = 32%nat /\ Bytes h /\
    vm_idle vm1' /\ serves c vm1' /\ fe_round (core_ vm1') = fe_round (core_ vm1).
Proof.
  intros Hc S1 S2 I1 I2 L1 L2.
  destruct (hash_linked c Hc b1 b2 vm1 vm2 input out1 out2 S1 S2 I1 I2 L1 L2)
    as (vm1' & vm2' & h & E1 & E2 & Hl & Hb & J & S & F & _).
  by exists vm1', vm2', h.
Qed.

Lemma hash_deterministic_witness :
  exists vm1' vm2' h,
    randomx_calculate_hash (mkBuild true false false) light_vm [1; 2; 3] (replicate 32 0) = Done (vm1', h) /\
    randomx_calculate_hash (mkBuild false true false) light_vm [1; 2; 3] (replicate 32 0) = Done (vm2', h).
Proof.
  destruct (hash_deterministic idle_cache (mkBuild true false false) (mkBuild false true false) light_vm
    light_vm [1; 2; 3] (replicate 32 0) (replicate 32 0) idle_cache_ready eq_refl eq_refl light_vm_idle
    light_vm_idle eq_refl eq_refl) as (v1 & v2 & h & E1 & E2 & _).
  exists v1, v2, h. exact (conj E1 E2).
Defined.

(** ** The pipelined form *)

(** The machine's scratchpad is the one [input] asks for, and [seed] is the seed its fill left. *)
Definition prepared (b : build) (input : list Z) (vm : VirtualMachine) (seed : AesState) : Prop :=
  exists temp, Blake2b.blake2b_into input (replicate 64 0) 64 = Done temp /\
    fill_aes_1r_x4 b temp (scratchpad_ (core_ vm)) = Done (seed, scratchpad_ (core_ vm)).

Lemma prepared_eq b input vm seed : vm_idle vm -> prepared b input vm seed ->
  seed = filled_seed (digest input 64) /\ scratchpad_ (core_ vm) = filled_pad (digest input 64).
Proof.
  intros [_ _ _ [Hm _] _ _ _ _] (temp & E & F).
  destruct (digest64 input (replicate 64 0)) as [E' Hd]; [done|].
  assert (temp = digest input 64) as -> by congruence.
  rewrite fill_pad in F by done. apply Done_pair in F as [F1 F2]. by split; symmetry.
Qed.

Lemma set_scratchpad_same vm mem : scratchpad_ (core_ vm) = mem -> set_scratchpad mem vm = vm.
Proof. intros <-. by destruct vm as [? ? ? ? ? ? ? ? ? ? ? [] ? ? ?]. Qed.

Definition pad_sized (mem : list Z) : Prop := Z.of_nat (length mem) = kRandomXScratchpadBytes.

(** Both builds of Part D, with a buffer of its own or the machine's. *)
Lemma hash_then_fill_eq b d2 mem next h seed :
  pad_sized mem -> Bytes mem -> length h = 64%nat -> state64 seed -> (forall m, next = Some m -> pad_sized m) ->
  hash_then_fill b d2 mem next h seed =
    Done (hash_result scratchpad_lines mem, filled_seed seed, filled_pad seed).
Proof.
  intros Hm Hb Hh Hs Hn. unfold hash_then_fill. destruct d2.
  - destruct next as [m|]; [by rewrite interleaved_pad by (done || by apply Hn)|by rewrite fused_pad].
  - rewrite (hash_ref b scratchpad_lines) by (done || by apply scratchpad_chunks).
    cbn [mbind outcome_bind]. rewrite fill_pad; [done|done|]. destruct next; [by apply Hn|done].
Qed.

Lemma pipelined_ok c b d2 vm input out next_input next run_seed :
  cache_ready c -> serves c vm -> vm_idle vm -> length out = 32%nat ->
  (forall m, next = Some m -> pad_sized m) ->
  (forall seed, run_seed = Some seed -> prepared b input vm seed) ->
  exists vm' h seed' retired vm2,
    randomx_calculate_hash_pipelined b d2 vm input out next_input next run_seed =
      Done (vm', h, seed', retired) /\
    randomx_calculate_hash b vm input out = Done (vm2, h) /\ prepared b next_input vm' seed' /\
    vm_idle vm' /\ serves c vm' /\
    (next = None /\ retired = None \/ exists m, retired = Some m /\ pad_sized m) /\
    fe_round (core_ vm') = fe_round (core_ vm).
Proof.
  intros Hc S I Lo Ln Hseed.
  destruct (hash_linked c Hc b b vm vm input out out S S I I Lo Lo)
    as (vm1 & _ & h & E1 & _ & _ & _ & _ & _ & _ & w & Ew & Eh).
  pose proof I as Hi.
  unfold randomx_calculate_hash_pipelined.
  destruct (digest64 input (replicate 64 0)) as [-> Hd]; [done|]. cbn [mbind outcome_bind].
  assert ((match run_seed with
           | Some seed => Done (seed, vm)
           | None => init_scratchpad b (digest input 64) vm
           end) = Done (filled_seed (digest input 64), set_scratchpad (filled_pad (digest input 64)) vm)) as ->.
  { destruct run_seed as [seed|]; [|by apply init_scratchpad_eq].
    destruct (prepared_eq b input vm seed I (Hseed _ eq_refl)) as [-> Hp]. by rewrite set_scratchpad_same. }
  cbn [mbind outcome_bind].
  destruct (init_scratchpad_eq b vm (digest input 64) I Hd) as [_ J].
  destruct (programs_linked c Hc b b (set_scratchpad (filled_pad (digest input 64)) vm)
    (set_scratchpad (filled_pad (digest input 64)) vm) (filled_seed (digest input 64)))
    as (v1 & ? & F1 & _ & [[T1 _] [K1 _] _ _ _] & _ & Ha); [done..|by apply filled_seed_wf|].
  rewrite F1 in Ew. injection Ew as <-. rewrite F1. cbn [mbind outcome_bind].
  destruct (digest64 next_input (replicate 64 0)) as [En Hn]; [done|]. rewrite En. cbn [mbind outcome_bind].
  pose proof K1 as [_ _ _ [Hm Hb] _ _ _ _].
  rewrite hash_then_fill_eq by done. cbn [mbind outcome_bind].
  destruct (blake_into_eq (reg_bytes (set_a (hash_result scratchpad_lines (scratchpad_ (core_ v1)))
    (reg_ (core_ v1)))) out 32) as (-> & _); [lia|lia|]. cbn [mbind outcome_bind].
  destruct (filled_pad_wf (digest next_input 64)) as [Hl Hbp].
  eexists _, _, _, _, vm1. split; [reflexivity|]. subst h. split; [exact E1|]. split.
  { exists (digest next_input 64). split; [exact En|]. by apply fill_pad. }
  split; [|split; [exact T1|split; [|reflexivity]]].
  2:{ destruct next as [m|]; [right; eexists; split; [reflexivity|exact Hm]|left; split; reflexivity]. }
  destruct K1 as [Kr Kf Ke _ Ken Kp Kb Kmm]. constructor; [exact Kr|exact Kf|exact Ke| |exact Ken|exact Kp|exact Kb|exact Kmm].
  exact (conj Hl Hbp).
Qed.

(** C6: a pipelined call, with or without the D2 interleaving, returns the digest
    [randomx_calculate_hash] gives for the same input, provided the seed it is handed (if any) was
    published by the call that filled the machine's scratchpad for this input; the call leaves the
    machine in the same condition for the next input, also when the caller passes the machine's
    own scratchpad as the next one. *)
Theorem pipelined_hash (c : Argon2dCache) (b : build) (d2 : bool) (vm : VirtualMachine)
  (input out next_input : list Z) (next : option (list Z)) (run_seed : option AesState) :
  cache_ready c -> serves c vm -> vm_idle vm -> length out = 32%nat ->
  (forall m, next = Some m -> pad_sized m) ->
  (forall seed, run_seed = Some seed -> prepared b input vm seed) ->
  exists vm' h seed' retired vm2,
    randomx_calculate_hash_pipelined b d2 vm input out next_input next run_seed =
      Done (vm', h, seed', retired) /\
    randomx_calculate_hash b vm input out = Done (vm2, h) /\
    prepared b next_input vm' seed' /\ vm_idle vm' /\ serves c vm'.
Proof.
  intros Hc S I Lo Ln Hs.
  destruct (pipelined_ok c b d2 vm input out next_input next run_seed Hc S I Lo Ln Hs)
    as (vm' & h & seed' & retired & vm2 & E1 & E2 & Hp & Hi & Hv & _).
  by exists vm', h, seed', retired, vm2.
Qed.

Lemma pipelined_hash_witness :
  exists vm' h seed' retired vm2,
    randomx_calculate_hash_pipelined (mkBuild true false false) true light_vm [1] (replicate 32 0) [2] None None =
      Done (vm', h, seed', retired) /\
    randomx_calculate_hash (mkBuild true false false) light_vm [1] (replicate 32 0) = Done (vm2, h) /\
    prepared (mkBuild true false false) [2] vm' seed' /\ vm_idle vm' /\ serves idle_cache vm'.
Proof.
  refine (pipelined_hash idle_cache (mkBuild true false false) true light_vm [1] (replicate 32 0) [2] None None
    idle_cache_ready eq_refl light_vm_idle eq_refl _ _); discriminate.
Defined.
