(* ===== verification/Worker.v ===== *)
(** * A mining worker

    Models src/include/armrx/mining_common.hpp and the hashing path of
    [MiningEngine::worker_loop] in src/src/mining_engine.cpp: picking up a job, the nonce in the
    block template, the first (prime) hash, the pipelined hashes over the two scratchpads, and the
    shares reported.  The partial dataset is not configured ([partial_dataset_] is null); affinity,
    statistics and the dataset rebuild are not part of this file. *)

From S2P Require Import Prelude Neon Blake2b RandomX Argon2 Dataset Float Bytecode.
From S2P Require Import BytecodeSafety BytecodeTermination Vm HashSim AesTables Aes AesHash Hash.

(** ** Jobs *)

Abbreviation Target := (list Z).
Record Job : Type := mkJob {
  job_id : list Z;
  block_template : list Z;
  nonce_offset : Z;
  nonce_size : Z;
  target : Target;
  seed_key : list Z;
}.

(** [for (int i = 31; i >= 0; --i)]: [i + 1] is the argument. *)
Fixpoint meets_from (i : nat) (hash target : list Z) : bool :=
  match i with
  | O => true
  | S i =>
      if (hash !!! i) <? (target !!! i) then true
      else if (target !!! i) <? (hash !!! i) then false
      else meets_from i hash target
  end.
Definition meets_target (hash : list Z) (target : Target) : bool := meets_from 32 hash target.

(** One turn of the loop of [update_nonce_in_template]; shifting a 64-bit value by 64 or more is
    undefined. *)
Definition store_nonce_byte (nonce offset : Z) (block : list Z) (i : Z) : outcome (list Z) :=
  if 64 <=? 8 * i then UB else
  if wrap 64 (offset + i) <? Z.of_nat (length block)
  then Done (<[Z.to_nat (wrap 64 (offset + i)) := Z.land (Z.shiftr nonce (8 * i)) 0xff]> block)
  else UB.

(** [false] leaves the block alone; [size_t] arithmetic wraps. *)
Definition update_nonce_in_template (block : list Z) (nonce offset size : Z)
  : outcome (bool * list Z) :=
  if Z.of_nat (length block) <? wrap 64 (offset + size) then Done (false, block) else
  block ← ofoldl (store_nonce_byte nonce offset) block (seqZ 0 size);
  Done (true, block).

(** ** The worker's local state

    [sp[0]] and [sp[1]] are the two scratchpads: the machine runs on [sp[active_sp]], whose
    contents are the machine's; [other] holds the contents of the other one. *)
Record worker : Type := mkWorker {
  vm : VirtualMachine;
  active_sp : Z;
  other : list Z;
  sp_fill : Z;
  pipelined_active : bool;
  pipelined_calls : Z;
  pipeline_seed : AesState;
  local_job : Job;
  active : bool;
  local_hashes : Z;
  local_nonce : Z;
  block_input : list Z;
  current_nonce : Z;
}.

(** What [share_callback_] receives. *)
Definition share : Type := Job * Z * list Z.

Section Worker.
Context (b : build) (d2 : bool) (thread_id num_threads_ : Z).

(** The locals before the loop, with the machine constructed for [flags]. *)
Definition start_worker (mapped : bool) (flags : Z) (job : Job) : outcome worker :=
  vm ← fresh_vm mapped flags;
  let pad := replicate (Z.to_nat kRandomXScratchpadBytes) 0 in
  Done (mkWorker (set_scratchpad pad vm) 0 pad 0 false 0 (replicate 64 0) job false 0
          thread_id [] 0).

(** The job block under [job_mutex_]: [cache] and [dataset] are the shared ones. *)
Definition take_job (fast : bool) (job : Job) (cache : Argon2dCache) (dataset : option (list Z))
  (w : worker) : worker :=
  let vm := set_cache (Some cache) (vm w) in
  let '(accepted, vm) :=
    match dataset with
    | Some dataset => if fast then set_dataset dataset vm else (true, vm)
    | None => (true, vm)
    end in
  mkWorker vm (active_sp w) (other w) (sp_fill w) false 0 (pipeline_seed w) job accepted
    (local_hashes w) thread_id (block_template job) 0.

(** [has_job_] is false. *)
Definition no_job (w : worker) : worker :=
  mkWorker (vm w) (active_sp w) (other w) (sp_fill w) (pipelined_active w) (pipelined_calls w)
    (pipeline_seed w) (local_job w) false (local_hashes w) (local_nonce w) (block_input w)
    (current_nonce w).

Definition deactivate (local_nonce : Z) (w : worker) : worker :=
  mkWorker (vm w) (active_sp w) (other w) (sp_fill w) (pipelined_active w) (pipelined_calls w)
    (pipeline_seed w) (local_job w) false (local_hashes w) local_nonce (block_input w)
    (current_nonce w).

Definition report (job : Job) (nonce : Z) (hash : list Z) : list share :=
  if meets_target hash (target job) then [(job, nonce, hash)] else [].

Definition nonce_into (job : Job) (nonce : Z) (block : list Z) : outcome (bool * list Z) :=
  update_nonce_in_template block nonce (nonce_offset job) (nonce_size job).

(** The first hash of a job. *)
Definition prime_hash (w : worker) : outcome (worker * list share) :=
  let job := local_job w in
  let nonce := local_nonce w in
  let next := wrap 64 (nonce + num_threads_) in
  '(ok, block) ← nonce_into job nonce (block_input w);
  if negb ok then Done (deactivate next w, []) else
  '(vm, hash) ← randomx_calculate_hash b (vm w) block (replicate 32 0);
  let shares := report job nonce hash in
  let hashes := local_hashes w + 1 in
  let nonce' := next in
  let next := wrap 64 (nonce' + num_threads_) in
  '(ok, block') ← nonce_into job nonce' block;
  if negb ok then
    Done (mkWorker vm (active_sp w) (other w) (sp_fill w) false (pipelined_calls w) (pipeline_seed w) job
            false hashes next block nonce, shares)
  else
    Done (mkWorker vm (active_sp w) (other w) 1 true (pipelined_calls w) (pipeline_seed w) job true
            hashes next block' nonce', shares).

(** A pipelined hash: [sp[sp_fill]] may be the machine's own scratchpad. *)
Definition pipelined_turn (w : worker) : outcome (worker * list share) :=
  let job := local_job w in
  let next_nonce := local_nonce w in
  let next := wrap 64 (next_nonce + num_threads_) in
  '(ok, next_block) ← nonce_into job next_nonce (block_input w);
  if negb ok then Done (deactivate next w, []) else
  let run_seed := if 0 <? pipelined_calls w then Some (pipeline_seed w) else None in
  let target_sp := if sp_fill w =? active_sp w then None else Some (other w) in
  '(vm, hash, seed, retired) ← randomx_calculate_hash_pipelined b d2 (vm w) (block_input w)
    (replicate 32 0) next_block target_sp run_seed;
  let shares := report job (current_nonce w) hash in
  Done (mkWorker vm (sp_fill w) (default (other w) retired) (1 - sp_fill w) true (pipelined_calls w + 1)
          seed job true (local_hashes w + 1) next next_block next_nonce, shares).

(** One turn of the loop with an unchanged job. *)
Definition hash_turn (w : worker) : outcome (worker * list share) :=
  if negb (active w) then Done (w, [])
  else if pipelined_active w then pipelined_turn w else prime_hash w.
End Worker.

(** ** Targets and nonces *)

Lemma of_le_snoc l x : of_le (l ++ [x]) = of_le l + 256 ^ Z.of_nat (length l) * x.
Proof.
  induction l as [|y l IH]; cbn [of_le app length]; [lia|]. rewrite IH, Nat2Z.inj_succ, Z.pow_succ_r by lia. lia.
Qed.

Lemma meets_from_le n hash target : Bytes hash -> Bytes target ->
  (n <= length hash)%nat -> (n <= length target)%nat ->
  meets_from n hash target = (of_le (take n hash) <=? of_le (take n target)).
Proof.
  intros Hh Ht. induction n as [|n IH]; intros Lh Lt; cbn [meets_from]; [done|].
  destruct (lookup_lt_is_Some_2 hash n) as [x Ex]; [lia|]. destruct (lookup_lt_is_Some_2 target n) as [y Ey]; [lia|].
  rewrite (take_S_r _ _ _ Ex), (take_S_r _ _ _ Ey), !of_le_snoc, !length_take, !Nat.min_l by lia.
  rewrite (list_lookup_total_correct _ _ _ Ex), (list_lookup_total_correct _ _ _ Ey).
  rewrite IH by lia.
  assert (forall l, Bytes l -> (n <= length l)%nat -> 0 <= of_le (take n l) < 256 ^ Z.of_nat n) as Hr.
  { intros l Hl Ln. pose proof (of_le_range (take n l) (Forall_take _ _ _ Hl)) as [H0 H1].
    rewrite length_take, Nat.min_l in H1 by lia. change 256 with (2 ^ 8). rewrite <- Z.pow_mul_r by lia. done. }
  pose proof (Hr hash Hh ltac:(lia)). pose proof (Hr target Ht ltac:(lia)).
  destruct (Z.ltb_spec x y); [symmetry; apply Z.leb_le; nia|].
  destruct (Z.ltb_spec y x); [symmetry; apply Z.leb_gt; nia|].
  assert (x = y) as -> by lia. destruct (Z.leb_spec (of_le (take n hash)) (of_le (take n target)));
    symmetry; [apply Z.leb_le|apply Z.leb_gt]; lia.
Qed.

(** [meets_target] compares the hash with the target as 256-bit little-endian numbers. *)
Theorem meets_target_le (hash target : list Z) :
  length hash = 32%nat -> length target = 32%nat -> Bytes hash -> Bytes target ->
  meets_target hash target = (of_le hash <=? of_le target).
Proof.
  intros Lh Lt Hh Ht. unfold meets_target. rewrite meets_from_le by (done || lia).
  by rewrite !take_ge by lia.
Qed.

Lemma meets_target_le_witness :
  meets_target (replicate 32 1) (replicate 32 2) = (of_le (replicate 32 1) <=? of_le (replicate 32 2)).
Proof. apply meets_target_le; try done; by apply Forall_replicate. Defined.

Lemma le_bytes_snoc n x : le_bytes (S n) x = le_bytes n x ++ [Z.land (Z.shiftr x (8 * Z.of_nat n)) 0xff].
Proof.
  revert x. induction n as [|n IH]; intros x.
  - cbn [le_bytes app]. change 0xff with (Z.ones 8). by rewrite Z.land_ones, Z.shiftr_0_r by lia.
  - change (le_bytes (S (S n)) x) with (x mod 256 :: le_bytes (S n) (x / 256)). rewrite IH.
    cbn [le_bytes app]. do 4 f_equal. change 256 with (2 ^ 8).
    rewrite <- Z.shiftr_div_pow2, Z.shiftr_shiftr by lia. f_equal. lia.
Qed.

(** [block] with the first [n] bytes of the nonce at [off]. *)
Definition spliced (block : list Z) (off n : nat) (nonce : Z) : list Z :=
  take off block ++ le_bytes n nonce ++ drop (off + n) block.

Lemma length_spliced block off n nonce : (off + n <= length block)%nat ->
  length (spliced block off n nonce) = length block.
Proof. intros. unfold spliced. rewrite !length_app, length_take, length_le_bytes, length_drop. lia. Qed.

Lemma spliced_S block off n nonce : (off + S n <= length block)%nat ->
  <[(off + n)%nat := Z.land (Z.shiftr nonce (8 * Z.of_nat n)) 0xff]> (spliced block off n nonce) =
    spliced block off (S n) nonce.
Proof.
  intros Hl. unfold spliced. rewrite le_bytes_snoc, <- app_assoc.
  rewrite insert_app_r_alt by (rewrite length_take; lia).
  rewrite length_take, Nat.min_l by lia. replace (off + n - off)%nat with n by lia.
  rewrite insert_app_r_alt by (rewrite length_le_bytes; lia). rewrite length_le_bytes, Nat.sub_diag.
  destruct (drop (off + n) block) as [|x l] eqn:E; [apply (f_equal length) in E; rewrite length_drop in E; cbn in E; lia|].
  assert (drop (off + S n) block = l) as ->; [|done].
  replace (off + S n)%nat with (off + n + 1)%nat by lia. by rewrite <- drop_drop, E.
Qed.

Lemma nonce_loop block nonce off n : (n <= 8)%nat -> (off + n <= length block)%nat ->
  Z.of_nat (length block) < 2 ^ 64 ->
  ofoldl (store_nonce_byte nonce (Z.of_nat off)) block (seqZ 0 (Z.of_nat n)) = Done (spliced block off n nonce).
Proof.
  intros Hn Hl Hb. induction n as [|n IH].
  - cbn [seqZ]. rewrite seqZ_nil by lia. cbn [ofoldl]. unfold spliced. cbn [le_bytes app].
    by rewrite Nat.add_0_r, take_drop.
  - replace (Z.of_nat (S n)) with (Z.of_nat n + 1) by lia. rewrite seqZ_app by lia.
    rewrite ofoldl_app, IH by lia. cbn [mbind outcome_bind]. rewrite Z.add_0_l.
    rewrite (seqZ_cons (Z.of_nat n) 1), seqZ_nil by lia. cbn [ofoldl].
    unfold store_nonce_byte. destruct (Z.leb_spec 64 (8 * Z.of_nat n)); [lia|].
    rewrite length_spliced, wrap_small by (first [lia|split; lia]).
    destruct (Z.ltb_spec (Z.of_nat off + Z.of_nat n) (Z.of_nat (length block))); [|lia].
    cbn [mbind outcome_bind]. replace (Z.to_nat (Z.of_nat off + Z.of_nat n)) with (off + n)%nat by lia.
    by rewrite spliced_S.
Qed.

(** A job whose sizes do not overflow a [size_t] and whose nonce has at most 8 bytes. *)
Record job_ok (job : Job) : Prop := mkJobOk {
  jo_offset : 0 <= nonce_offset job;
  jo_size : 0 <= nonce_size job <= 8;
  jo_sum : nonce_offset job + nonce_size job < 2 ^ 64;
  jo_length : Z.of_nat (length (block_template job)) < 2 ^ 64;
}.
Definition nonce_fits (job : Job) : Prop :=
  nonce_offset job + nonce_size job <= Z.of_nat (length (block_template job)).

(** The block a nonce stands for. *)
Definition with_nonce (job : Job) (nonce : Z) : list Z :=
  spliced (block_template job) (Z.to_nat (nonce_offset job)) (Z.to_nat (nonce_size job)) nonce.

(** Blocks that differ from the template in the nonce bytes only. *)
Definition frame (job : Job) (block : list Z) : Prop :=
  length block = length (block_template job) /\
  (nonce_fits job -> forall nonce,
     spliced block (Z.to_nat (nonce_offset job)) (Z.to_nat (nonce_size job)) nonce = with_nonce job nonce).

Lemma frame_template job : frame job (block_template job).
Proof. by split. Qed.

Lemma frame_with_nonce job nonce : job_ok job -> nonce_fits job -> frame job (with_nonce job nonce).
Proof.
  intros [Ho Hs _ _] Hf. unfold nonce_fits in Hf. split; [apply length_spliced; lia|].
  intros _ nonce'. unfold with_nonce, spliced.
  set (off := Z.to_nat _). set (n := Z.to_nat _). set (T := block_template job) in *.
  assert (off + n <= length T)%nat by lia.
  rewrite take_app_length' by (rewrite length_take; lia).
  rewrite (app_assoc (take off T) (le_bytes n nonce)), drop_app_length'; [done|].
  rewrite length_app, length_take, length_le_bytes. lia.
Qed.

Lemma nonce_into_ok job nonce block : job_ok job -> nonce_fits job -> frame job block ->
  nonce_into job nonce block = Done (true, with_nonce job nonce).
Proof.
  intros [Ho Hs Hsum Hl] Hf [Lb Hfr]. unfold nonce_into, update_nonce_in_template.
  rewrite wrap_small by (split; lia). unfold nonce_fits in *. rewrite Lb.
  destruct (Z.ltb_spec (Z.of_nat (length (block_template job))) (nonce_offset job + nonce_size job)); [lia|].
  replace (nonce_offset job) with (Z.of_nat (Z.to_nat (nonce_offset job))) at 1 by lia.
  replace (nonce_size job) with (Z.of_nat (Z.to_nat (nonce_size job))) at 1 by lia.
  rewrite nonce_loop by (rewrite ?Lb; lia). cbn [mbind outcome_bind]. by rewrite Hfr by lia.
Qed.

Lemma nonce_into_bad job nonce block : job_ok job -> ~ nonce_fits job -> frame job block ->
  nonce_into job nonce block = Done (false, block).
Proof.
  intros [Ho Hs Hsum Hl] Hf [Lb _]. unfold nonce_into, update_nonce_in_template.
  rewrite wrap_small by (split; lia). unfold nonce_fits in *. rewrite Lb.
  by destruct (Z.ltb_spec (Z.of_nat (length (block_template job))) (nonce_offset job + nonce_size job)); [|lia].
Qed.

(** ** Reachable workers

    A worker starts without a job; jobs arrive with the cache (and, in fast mode, the dataset) built
    for their seed; a job may be withdrawn; every other turn hashes. *)
Section reachability.
Context (b : build) (d2 : bool) (thread_id num_threads_ : Z) (fast : bool).

Inductive reachable : worker -> option Argon2dCache -> Prop :=
  | R_start mapped flags job w :
      start_worker thread_id mapped flags job = Done w ->
      negb (Z.land flags kRandOMXFlagFullMem =? 0) = fast -> reachable w None
  | R_job w o job cache dataset :
      reachable w o -> job_ok job -> cache_ready cache ->
      (fast = true -> dataset = Some (full_dataset cache)) ->
      reachable (take_job thread_id fast job cache dataset w) (Some cache)
  | R_none w o : reachable w o -> reachable (no_job w) o
  | R_turn w o w' shares :
      reachable w o -> hash_turn b d2 num_threads_ w = Done (w', shares) -> reachable w' o.

(** The machine apart from its memory. *)
Record machine_ok (vm : VirtualMachine) : Prop := mkMachineOk {
  mo_mode : is_fast_mode vm = fast;
  mo_r : length (r (reg_ (core_ vm))) = 8%nat /\ Words (r (reg_ (core_ vm)));
  mo_f : length (f (reg_ (core_ vm))) = 4%nat /\ Forall f_wf (f (reg_ (core_ vm)));
  mo_e : length (e (reg_ (core_ vm))) = 4%nat /\ Forall e_wf (e (reg_ (core_ vm)));
  mo_mem : pad_sized (scratchpad_ (core_ vm)) /\ Bytes (scratchpad_ (core_ vm));
  mo_entropy : Words (entropy_ vm);
  mo_program : length (program_ vm) = 256%nat /\ Forall instruction_wf (program_ vm);
  mo_bytecode : length (bytecode_ vm) = 256%nat /\ Forall slot_ok (bytecode_ vm);
}.

Lemma machine_idle vm : machine_ok vm -> memory_ok vm -> vm_idle vm.
Proof. intros [] ?. by constructor. Qed.
Lemma idle_machine vm : is_fast_mode vm = fast -> vm_idle vm -> machine_ok vm.
Proof. intros ? []. by constructor. Qed.

(** What an active worker knows of its job and its pipeline. *)
Record at_work (w : worker) (c : Argon2dCache) : Prop := mkAtWork {
  aw_cache : cache_ready c;
  aw_serves : serves c (vm w);
  aw_memory : memory_ok (vm w);
  aw_job : job_ok (local_job w);
  aw_frame : frame (local_job w) (block_input w);
  aw_calls : pipelined_active w = false -> pipelined_calls w = 0;
  aw_pipeline : pipelined_active w = true ->
    nonce_fits (local_job w) /\ block_input w = with_nonce (local_job w) (current_nonce w) /\
    (0 < pipelined_calls w -> prepared b (block_input w) (vm w) (pipeline_seed w));
}.

Record worker_inv (w : worker) (o : option Argon2dCache) : Prop := mkInv {
  wi_machine : machine_ok (vm w);
  wi_other : pad_sized (other w);
  wi_calls : 0 <= pipelined_calls w;
  wi_active : active w = true -> exists c, o = Some c /\ at_work w c;
}.

(** A share is the digest of its job's block with its nonce, on every machine that serves the
    cache, and meets the job's target. *)
Definition valid_share (c : Argon2dCache) (s : share) : Prop :=
  let '(job, nonce, hash) := s in
  (forall b' vm', serves c vm' -> vm_idle vm' -> exists vm'',
     randomx_calculate_hash b' vm' (with_nonce job nonce) (replicate 32 0) = Done (vm'', hash)) /\
  meets_target hash (target job) = true.

Lemma report_valid c job nonce hash vm0 vm1 :
  cache_ready c -> serves c vm0 -> vm_idle vm0 ->
  randomx_calculate_hash b vm0 (with_nonce job nonce) (replicate 32 0) = Done (vm1, hash) ->
  Forall (valid_share c) (report job nonce hash).
Proof.
  intros Hc S I E. unfold report. destruct (meets_target hash (target job)) eqn:Em; [|by apply List.Forall_nil].
  apply List.Forall_cons; [|by apply List.Forall_nil]. split; [|done]. intros b' vm' S' I'.
  destruct (hash_linked c Hc b b' vm0 vm' (with_nonce job nonce) (replicate 32 0) (replicate 32 0) S S' I I'
    eq_refl eq_refl) as (v1 & v2 & h & E1 & E2 & _).
  assert (h = hash) as -> by congruence. by exists v2.
Qed.

Lemma memory_mode vm0 vm1 : memory_of vm1 = memory_of vm0 -> is_fast_mode vm1 = is_fast_mode vm0.
Proof. unfold memory_of, is_fast_mode. by intros [= -> _ _]. Qed.

(** Giving up the job keeps the rest. *)
Lemma inactive_inv w o : machine_ok (vm w) -> pad_sized (other w) -> 0 <= pipelined_calls w ->
  active w = false -> worker_inv w o.
Proof. intros Hm Ho Hc Ha. constructor; [done..|]. by rewrite Ha. Qed.

Lemma prime_hash_ok w c : machine_ok (vm w) -> pad_sized (other w) -> at_work w c ->
  pipelined_active w = false ->
  exists w' shares, prime_hash b num_threads_ w = Done (w', shares) /\ worker_inv w' (Some c) /\
    Forall (valid_share c) shares.
Proof.
  intros Hm Ho [Hc S Hmem Hj Hfr Hcalls _] Hp. specialize (Hcalls Hp).
  pose proof (machine_idle _ Hm Hmem) as I. unfold prime_hash.
  destruct (Z_le_dec (nonce_offset (local_job w) + nonce_size (local_job w))
    (Z.of_nat (length (block_template (local_job w))))) as [Hf|Hf].
  2:{ rewrite nonce_into_bad by done. cbn [mbind outcome_bind negb]. eexists _, _. split; [reflexivity|].
      split; [|by apply List.Forall_nil]. apply inactive_inv; cbn; [done|done|lia|done]. }
  rewrite nonce_into_ok by done. cbn [mbind outcome_bind negb].
  set (nonce := local_nonce w).
  destruct (hash_linked c Hc b b (vm w) (vm w) (with_nonce (local_job w) nonce) (replicate 32 0) (replicate 32 0)
    S S I I eq_refl eq_refl) as (v & _ & h & E & _ & _ & _ & I' & S' & _).
  pose proof (hash_memory _ _ _ _ _ _ E) as Hmm.
  rewrite E. cbn [mbind outcome_bind]. rewrite nonce_into_ok by (done || by apply frame_with_nonce).
  cbn [mbind outcome_bind negb]. eexists _, _. split; [reflexivity|]. split.
  - constructor; cbn [vm other pipelined_calls active]; [|done|lia|].
    + apply idle_machine; [|done]. rewrite (memory_mode _ _ Hmm). apply Hm.
    + intros _. exists c. split; [done|]. constructor; cbn; try done; [apply I'|by apply frame_with_nonce|].
      intros _. split; [done|]. split; [done|]. lia.
  - exact (report_valid c _ _ _ _ _ Hc S I E).
Qed.

Lemma pipelined_turn_ok w c : machine_ok (vm w) -> pad_sized (other w) -> 0 <= pipelined_calls w ->
  at_work w c -> pipelined_active w = true ->
  exists w' shares, pipelined_turn b d2 num_threads_ w = Done (w', shares) /\ worker_inv w' (Some c) /\
    Forall (valid_share c) shares.
Proof.
  intros Hm Ho Hn [Hc S Hmem Hj Hfr _ Hpipe] Hp. destruct (Hpipe Hp) as (Hf & Hb & Hprep).
  pose proof (machine_idle _ Hm Hmem) as I. unfold pipelined_turn.
  rewrite nonce_into_ok by done. cbn [mbind outcome_bind negb].
  set (next := local_nonce w). set (run_seed := if 0 <? pipelined_calls w then _ else _).
  set (target_sp := if sp_fill w =? active_sp w then _ else _).
  destruct (pipelined_ok c b d2 (vm w) (block_input w) (replicate 32 0) (with_nonce (local_job w) next)
    target_sp run_seed Hc S I eq_refl) as (v & h & seed & retired & v2 & E & E2 & Hp' & I' & S' & Hr & _).
  { intros m. unfold target_sp. destruct (_ =? _); [done|]. by intros [= <-]. }
  { intros sd. unfold run_seed. destruct (Z.ltb_spec 0 (pipelined_calls w)); [|done]. intros [= <-]. by apply Hprep. }
  rewrite E. cbn [mbind outcome_bind]. pose proof (pipelined_memory _ _ _ _ _ _ _ _ _ _ _ _ E) as Hmm.
  eexists _, _. split; [reflexivity|]. split.
  - constructor; cbn [vm other pipelined_calls active]; [| |lia|].
    + apply idle_machine; [|done]. rewrite (memory_mode _ _ Hmm). apply Hm.
    + destruct Hr as [[_ ->]|(m & -> & Hsz)]; done.
    + intros _. exists c. split; [done|]. constructor; cbn; try done; [apply I'|by apply frame_with_nonce].
  - rewrite Hb in E2. exact (report_valid c _ _ _ _ _ Hc S I E2).
Qed.

Lemma hash_turn_ok w o : worker_inv w o ->
  exists w' shares, hash_turn b d2 num_threads_ w = Done (w', shares) /\ worker_inv w' o /\
    Forall (fun s => exists c, o = Some c /\ valid_share c s) shares.
Proof.
  intros Hinv. pose proof Hinv as [Hm Ho Hc Ha]. unfold hash_turn. destruct (active w) eqn:Ea; cbn [negb].
  - destruct (Ha eq_refl) as (c & -> & Hw).
    assert (forall w' shares, worker_inv w' (Some c) /\ Forall (valid_share c) shares ->
      worker_inv w' (Some c) /\ Forall (fun s => exists c', Some c = Some c' /\ valid_share c' s) shares) as Hlift.
    { intros w' shares [H1 H2]. split; [done|]. eapply list.Forall_impl; [exact H2|]. eauto. }
    destruct (pipelined_active w) eqn:Ep.
    + destruct (pipelined_turn_ok w c Hm Ho Hc Hw Ep) as (w' & sh & -> & H). exists w', sh. auto.
    + destruct (prime_hash_ok w c Hm Ho Hw Ep) as (w' & sh & -> & H). exists w', sh. auto.
  - exists w, []. split; [done|]. split; [done|]. apply List.Forall_nil.
Qed.

Lemma fresh_machine_ok mapped flags v pad :
  fresh_vm mapped flags = Done v -> negb (Z.land flags kRandOMXFlagFullMem =? 0) = fast ->
  pad_sized pad -> Bytes pad -> machine_ok (set_scratchpad pad v).
Proof.
  unfold fresh_vm. destruct mapped; cbn [negb]; [|discriminate]. intros E Hm Hl Hb.
  assert (Hz : Forall f_wf (replicate 4 (mkFloat 0 0)) /\ Forall e_wf (replicate 4 (mkFloat 0 0))).
  { split; apply Forall_replicate; unfold f_wf, e_wf, epos, in_range, inf_bits; cbn; lia. }
  assert (Hp : Forall instruction_wf (replicate 256 (mkInstruction 0 0 0 0 0))).
  { apply Forall_replicate. unfold instruction_wf, in_range. cbn. lia. }
  assert (Hs : Forall slot_ok (replicate 256 ibc_init)).
  { apply Forall_replicate. unfold slot_ok, in_range. cbn. lia. }
  apply (f_equal (fun o => match o with Done x => set_scratchpad pad x | _ => set_scratchpad pad v end)) in E.
  cbv beta iota in E. rewrite <- E. destruct Hz.
  assert (forall n, Words (replicate n 0)) by (intros; by apply Forall_replicate).
  constructor; cbn [set_scratchpad set_core core_ reg_ r f e scratchpad_ entropy_ program_ bytecode_]; auto.
Qed.

#[local] Opaque full_dataset.

Lemma take_job_memory c dataset v : cache_ready c -> is_fast_mode v = fast ->
  (fast = true -> dataset = Some (full_dataset c)) ->
  let '(accepted, v') := match dataset with
    | Some dataset => if fast then set_dataset dataset (set_cache (Some c) v) else (true, set_cache (Some c) v)
    | None => (true, set_cache (Some c) v)
    end in
  accepted = true /\ serves c v' /\ memory_ok v' /\ is_fast_mode v' = fast /\ core_ v' = core_ v /\
  entropy_ v' = entropy_ v /\ program_ v' = program_ v /\ bytecode_ v' = bytecode_ v.
Proof.
  intros Hc Hm Hd. destruct fast eqn:Hf.
  - rewrite (Hd eq_refl). unfold set_dataset. change (is_fast_mode (set_cache (Some c) v)) with (is_fast_mode v).
    rewrite Hm, (length_full_dataset c Hc). cbn [andb negb]. change (2181038080 =? kRandomXDatasetBytes) with true.
    cbn [andb negb]. unfold serves, memory_ok, is_fast_mode in *. cbn [flags_ set_cache dataset_] in *.
    rewrite Hm. split; [done|]. split; [done|]. split; [|done].
    split; [by apply length_full_dataset|by apply full_dataset_bytes].
  - assert (let '(accepted, v') := (true, set_cache (Some c) v) in
      accepted = true /\ serves c v' /\ memory_ok v' /\ is_fast_mode v' = false /\ core_ v' = core_ v /\
      entropy_ v' = entropy_ v /\ program_ v' = program_ v /\ bytecode_ v' = bytecode_ v); [|by destruct dataset].
    unfold serves, memory_ok, is_fast_mode in *. cbn [flags_ set_cache cache_] in *. rewrite Hm.
    split; [done|]. split; [done|]. split; [by exists c|done].
Qed.

Lemma take_job_inv w o job c dataset : worker_inv w o -> job_ok job -> cache_ready c ->
  (fast = true -> dataset = Some (full_dataset c)) ->
  worker_inv (take_job thread_id fast job c dataset w) (Some c).
Proof.
  intros [Hm Ho _ _] Hj Hc Hd. unfold take_job.
  pose proof (take_job_memory c dataset (vm w) Hc (mo_mode _ Hm) Hd) as H. revert H.
  destruct (match dataset with Some _ => _ | None => _ end) as [accepted v].
  intros (-> & S & M & Hf & Ecore & Een & Ep & Eb).
  destruct Hm as [_ Hr Hff He Hmem Hen Hp Hb].
  constructor; cbn [vm other pipelined_calls active]; [|done|lia|].
  - constructor; rewrite ?Ecore, ?Een, ?Ep, ?Eb; done.
  - intros _. exists c. split; [done|]. by constructor.
Qed.

Lemma zero_pad n : Z.of_nat n = kRandomXScratchpadBytes ->
  pad_sized (replicate n 0) /\ Bytes (replicate n 0).
Proof. intros Hn. split; [unfold pad_sized; by rewrite length_replicate|by apply Forall_replicate]. Qed.

Lemma reachable_inv w o : reachable w o -> worker_inv w o.
Proof.
  induction 1 as [mapped flags job w E Hf|w o job c dataset _ IH Hj Hc Hd|w o _ IH|w o w' sh _ IH E].
  - unfold start_worker in E.
    assert (Z.of_nat (Z.to_nat kRandomXScratchpadBytes) = kRandomXScratchpadBytes) as Hn by (by apply Z2Nat.id).
    revert E Hn. generalize (Z.to_nat kRandomXScratchpadBytes). intros n E Hn.
    destruct (zero_pad n Hn) as [Hl Hb]. apply bind_Done in E as (v & Ev & E). cbv zeta in E.
    injection E as <-. apply inactive_inv; cbn [vm other pipelined_calls active]; [|done|lia|done].
    by eapply fresh_machine_ok.
  - by apply (take_job_inv w o).
  - destruct IH. by apply inactive_inv.
  - destruct (hash_turn_ok w o IH) as (w2 & sh2 & E2 & H & _). assert (w2 = w') as <- by congruence. exact H.
Qed.
End reachability.

(** C4: every turn of every reachable worker returns (no access outside a buffer, no undefined
    shift), and every share it reports is valid: the digest of the job's block with the reported
    nonce, as any machine serving the job's cache computes it, meeting the job's target.  This
    covers the first hash of a job, the pipelined hashes that skip the scratchpad fill, the
    alternation of the two scratchpads, and a job change that leaves the machine on the scratchpad
    the next call fills. *)
Theorem worker_shares_valid (b : build) (d2 fast : bool) (thread_id num_threads : Z) (w : worker)
  (o : option Argon2dCache) :
  reachable b d2 thread_id num_threads fast w o ->
  exists w' shares, hash_turn b d2 num_threads w = Done (w', shares) /\
    reachable b d2 thread_id num_threads fast w' o /\
    Forall (fun s => exists c, o = Some c /\ valid_share c s) shares.
Proof.
  intros H. destruct (hash_turn_ok b d2 num_threads fast w o (reachable_inv b d2 thread_id num_threads fast w o H))
    as (w' & shares & E & _ & Hs).
  exists w', shares. split; [done|]. split; [|done]. by eapply R_turn.
Qed.

Definition demo_job : Job := mkJob [49] (replicate 76 0) 39 4 (replicate 32 255) [].

Lemma worker_shares_valid_witness :
  exists w w' shares,
    active w = true /\
    hash_turn (mkBuild true false false) false 4 w = Done (w', shares) /\
    reachable (mkBuild true false false) false 1 4 false w' (Some idle_cache) /\
    Forall (fun s => exists c, Some idle_cache = Some c /\ valid_share c s) shares.
Proof.
  destruct (start_worker 1 true 0 demo_job) as [w0| | |] eqn:E; try discriminate E.
  exists (take_job 1 false demo_job idle_cache None w0).
  assert (reachable (mkBuild true false false) false 1 4 false (take_job 1 false demo_job idle_cache None w0)
    (Some idle_cache)) as H.
  { apply (R_job _ _ _ _ _ w0 None demo_job idle_cache None).
    - exact (R_start _ _ _ _ _ true 0 demo_job w0 E eq_refl).
    - constructor; cbn; lia.
    - exact idle_cache_ready.
    - discriminate. }
  destruct (worker_shares_valid _ _ _ _ _ _ _ H) as (w' & shares & E1 & H1 & H2).
  exists w', shares. split; [reflexivity|]. exact (conj E1 (conj H1 H2)).
Defined.
