(* ===== verification/Engine.v ===== *)
(** * The mining engine: building the dataset

    Models [MiningEngine::set_job] and the dataset part of [MiningEngine::worker_loop] in
    src/src/mining_engine.cpp: how the items of a new dataset are divided among threads, and the
    handshake by which a running engine lets its workers build it. *)

From stdpp Require Import relations.
From S2P Require Import Prelude RandomX Argon2 Dataset.
From S2P Require Import Bytecode Vm HashSim.

(** ** The parts of the dataset *)

(** The item range of thread [i] of [n]; the last one takes the remainder. *)
Definition part_range (n i : Z) : Z * Z :=
  let items_per_thread := randomx_dataset_item_count / n in
  let start_item := mul64 i items_per_thread in
  let count := if i =? n - 1 then sub64 randomx_dataset_item_count start_item else items_per_thread in
  (start_item, count).

(** One thread: [initialize_dataset] on its sub-span of the shared dataset. *)
Definition fill_part (cache : Argon2dCache) (n : Z) (dataset : list Z) (i : Z) : outcome (list Z) :=
  if n =? 0 then UB else
  let '(start_item, count) := part_range n i in
  let offset := start_item * kRandomXDatasetItemBytes in
  span ← read_bytes dataset offset (Z.to_nat (count * kRandomXDatasetItemBytes));
  span ← initialize_dataset span cache start_item count;
  write_bytes dataset offset span.

Lemma part_range_ok n i : 1 <= n < 2 ^ 32 -> 0 <= i < n ->
  let '(start, count) := part_range n i in
  word64 start /\ word64 count /\ start + count <= randomx_dataset_item_count /\
  start = i * (randomx_dataset_item_count / n) /\
  (i = n - 1 -> start + count = randomx_dataset_item_count) /\
  (i <> n - 1 -> count = randomx_dataset_item_count / n).
Proof.
  intros Hn Hi. unfold part_range. change randomx_dataset_item_count with 34078720.
  pose proof (Z.mul_div_le 34078720 n ltac:(lia)) as H1.
  pose proof (Z.div_pos 34078720 n ltac:(lia) ltac:(lia)) as H2. set (q := 34078720 / n) in *.
  assert (0 <= i * q <= 34078720) as Hs by nia.
  unfold mul64, sub64. rewrite (wrap_small 64 (i * q)) by (split; lia).
  destruct (Z.eqb_spec i (n - 1)) as [E|E].
  - rewrite wrap_small by (split; lia). split_and!; try (split; lia); lia.
  - assert (i * q + q <= 34078720) by nia. split_and!; try (split; lia); lia.
Qed.

(** Every item belongs to some part. *)
Lemma part_covers n k : 1 <= n < 2 ^ 32 -> 0 <= k < randomx_dataset_item_count ->
  exists i, 0 <= i < n /\ let '(start, count) := part_range n i in start <= k < start + count.
Proof.
  intros Hn Hk. set (q := randomx_dataset_item_count / n).
  assert (0 <= q) as Hq by (apply Z.div_pos; change randomx_dataset_item_count with 34078720 in *; lia).
  destruct (Z_lt_dec k ((n - 1) * q)) as [Hlt|Hge].
  - assert (0 < q) as Hq0 by nia. exists (k / q).
    assert (0 <= k / q < n - 1) as Hr.
    { split; [apply Z.div_pos; lia|]. apply Z.div_lt_upper_bound; lia. }
    split; [lia|]. pose proof (part_range_ok n (k / q) Hn ltac:(lia)) as Hp.
    destruct (part_range n (k / q)) as [start count]. destruct Hp as (_ & _ & _ & -> & _ & Hc).
    rewrite Hc by lia. fold q. pose proof (Z.div_mod k q ltac:(lia)). pose proof (Z.mod_pos_bound k q Hq0). lia.
  - exists (n - 1). split; [lia|]. pose proof (part_range_ok n (n - 1) Hn ltac:(lia)) as Hp.
    destruct (part_range n (n - 1)) as [start count]. destruct Hp as (_ & _ & _ & Es & Hc & _).
    specialize (Hc eq_refl). fold q in Es. lia.
Qed.

Section parts.
Context (c : Argon2dCache) (Hc : cache_ready c).

(** The full dataset around a range of items. *)
Lemma full_dataset_split start count :
  0 <= start -> 0 <= count -> start + count <= randomx_dataset_item_count ->
  full_dataset c = items_from c 0 start ++ items_from c start count ++
    items_from c (start + count) (randomx_dataset_item_count - start - count).
Proof.
  intros H0 H1 H2. unfold full_dataset.
  replace randomx_dataset_item_count with (start + (count + (randomx_dataset_item_count - start - count))) at 1 by lia.
  by rewrite !items_from_app by lia.
Qed.

(** A part writes its bytes of the full dataset and nothing else. *)
Lemma fill_part_ok n i ds : 1 <= n < 2 ^ 32 -> 0 <= i < n ->
  Z.of_nat (length ds) = kRandomXDatasetBytes ->
  exists ds', fill_part c n ds i = Done ds' /\ length ds' = length ds /\
    forall p, ds' !! p =
      (let '(start, count) := part_range n i in
       if decide (start <= Z.of_nat p / 64 < start + count) then full_dataset c !! p else ds !! p).
Proof using Hc.
  intros Hn Hi Hl. unfold fill_part. destruct (Z.eqb_spec n 0); [lia|].
  pose proof (part_range_ok n i Hn Hi) as Hp. destruct (part_range n i) as [start count].
  destruct Hp as (Ws & Wc & Hr & _). pose proof Ws as [Hs0 _]. pose proof Wc as [Hc0 _].
  change kRandomXDatasetBytes with (64 * randomx_dataset_item_count) in Hl.
  change kRandomXDatasetItemBytes with 64.
  rewrite read_bytes_ok by lia. cbn [mbind outcome_bind].
  set (sub := take _ _). assert (Z.of_nat (length sub) = 64 * count) as Lsub
    by (unfold sub; rewrite length_take, length_drop; lia).
  destruct (initialize_dataset_filled c sub start count Hc Ws Wc Hr ltac:(lia)) as [-> _].
  cbn [mbind outcome_bind]. rewrite (drop_ge sub), app_nil_r by lia. fold (items_from c start count).
  pose proof (length_items_from c Hc start count) as Li.
  rewrite write_bytes_ok by (rewrite ?Li; lia). eexists. split; [reflexivity|]. split.
  { rewrite !length_app, length_take, length_drop, Li. lia. }
  intros p. rewrite (full_dataset_split start count Hs0 Hc0 Hr).
  pose proof (length_items_from c Hc 0 start) as L0.
  assert (Z.of_nat p = 64 * (Z.of_nat p / 64) + Z.of_nat p mod 64) as Hpd by (apply Z.div_mod; lia).
  pose proof (Z.mod_pos_bound (Z.of_nat p) 64 ltac:(lia)) as Hpm.
  destruct (decide _) as [Hin|Hout].
  - rewrite lookup_app_r by (rewrite length_take; lia). rewrite lookup_app_l by (rewrite length_take, Li; lia).
    rewrite lookup_app_r by lia. rewrite lookup_app_l by lia. f_equal. rewrite length_take. lia.
  - destruct (Z_lt_dec (Z.of_nat p / 64) start).
    + rewrite lookup_app_l by (rewrite length_take; lia). apply lookup_take_lt. lia.
    + rewrite lookup_app_r by (rewrite length_take; lia). rewrite lookup_app_r by (rewrite length_take, Li; lia).
      rewrite lookup_drop, length_take, Li. f_equal. lia.
Qed.
End parts.

(** The parts filled in any order, each at least once. *)
Lemma fill_parts_ok c n order ds : cache_ready c -> 1 <= n < 2 ^ 32 -> Forall (fun i => 0 <= i < n) order ->
  Z.of_nat (length ds) = kRandomXDatasetBytes ->
  exists ds', ofoldl (fill_part c n) ds order = Done ds' /\ length ds' = length ds /\
    forall p, ds' !! p = full_dataset c !! p \/
      (ds' !! p = ds !! p /\ forall i, i ∈ order ->
        let '(start, count) := part_range n i in ~ (start <= Z.of_nat p / 64 < start + count)).
Proof.
  intros Hc Hn Hord. revert ds. induction Hord as [|i order Hi Hord IH]; intros ds Hl; cbn [ofoldl].
  - exists ds. split; [done|]. split; [done|]. intros p. right. split; [done|]. intros i Hin. by apply elem_of_nil in Hin.
  - destruct (fill_part_ok c Hc n i ds Hn Hi Hl) as (d1 & -> & L1 & P1). cbn [mbind outcome_bind].
    destruct (IH d1) as (d2 & E2 & L2 & P2); [by rewrite L1|]. exists d2. split; [done|].
    split; [by rewrite L2|]. intros p. specialize (P1 p). specialize (P2 p).
    destruct P2 as [P2|[P2 Hno]]; [by left|]. rewrite P1 in P2.
    destruct (part_range n i) as [start count] eqn:Er.
    destruct (decide (start <= Z.of_nat p / 64 < start + count)); [by left|]. right. split; [done|].
    intros j Hj. apply elem_of_cons in Hj as [->|Hj]; [by rewrite Er|by apply Hno].
Qed.

Lemma fill_every_part c n order ds :
  cache_ready c -> 1 <= n < 2 ^ 32 -> Forall (fun i => 0 <= i < n) order ->
  (forall i, 0 <= i < n -> i ∈ order) -> Z.of_nat (length ds) = kRandomXDatasetBytes ->
  ofoldl (fill_part c n) ds order = Done (full_dataset c).
Proof.
  intros Hc Hn Hord Hall Hl. destruct (fill_parts_ok c n order ds Hc Hn Hord Hl) as (d & -> & Ld & P).
  f_equal. apply list_eq. intros p. destruct (P p) as [->|[E Hno]]; [done|].
  pose proof (length_full_dataset c Hc) as Lf. change kRandomXDatasetBytes with 2181038080 in Hl.
  destruct (Z_lt_dec (Z.of_nat p) 2181038080) as [Hlt|Hge].
  - exfalso. destruct (part_covers n (Z.of_nat p / 64) Hn) as (i & Hi & Hr).
    { change randomx_dataset_item_count with 34078720.
      split; [apply Z.div_pos; lia|apply Z.div_lt_upper_bound; lia]. }
    specialize (Hno i (Hall i Hi)). destruct (part_range n i). by apply Hno.
  - rewrite !lookup_ge_None_2 by lia. done.
Qed.

(** Dividing the dataset among any number of threads and filling the parts in any order (every
    thread once or more) leaves exactly the full dataset of the cache: no item is missed by the
    rounding of the division, none is written by two threads with different values. *)
Theorem dataset_parts_complete (c : Argon2dCache) (n : Z) (order : list Z) (ds : list Z) :
  cache_ready c -> 1 <= n < 2 ^ 32 -> Forall (fun i => 0 <= i < n) order ->
  (forall i, 0 <= i < n -> i ∈ order) -> Z.of_nat (length ds) = kRandomXDatasetBytes ->
  ofoldl (fill_part c n) ds order = Done (full_dataset c).
Proof. apply fill_every_part. Qed.

Lemma dataset_parts_complete_witness :
  exists ds, ofoldl (fill_part idle_cache 3) ds [2; 0; 1] = Done (full_dataset idle_cache).
Proof.
  assert (Hl : Z.of_nat (length (replicate (Z.to_nat kRandomXDatasetBytes) 0)) = kRandomXDatasetBytes)
    by (rewrite length_replicate; by apply Z2Nat.id).
  revert Hl. generalize (replicate (Z.to_nat kRandomXDatasetBytes) 0). intros ds Hl. exists ds.
  refine (dataset_parts_complete idle_cache 3 [2; 0; 1] ds idle_cache_ready _ _ _ Hl).
  - lia.
  - repeat (apply List.Forall_cons; [lia|]). apply List.Forall_nil.
  - intros i Hi. assert (i = 0 \/ i = 1 \/ i = 2) as [->|[->| ->]] by lia; rewrite !elem_of_cons; tauto.
Defined.

(** ** The engine as a transition system

    A fast-mode engine without a partial dataset.  What [set_job] needs of a cache is an interface:
    [cache_for key c] says that [c] is a cache initialised from [key]. *)
Class CacheBuilder : Type := {
  cache_for : list Z -> Argon2dCache -> Prop;
  cache_for_ready key c : cache_for key c -> cache_ready c;
}.

(** [std::make_shared<Argon2dCache>()] (with the default arguments) and [initialize(seed_key)]. *)
Definition argon2d_cache_for (key : list Z) (c : Argon2dCache) : Prop :=
  Bytes key /\ exists rejections c0, make_cache true 262144 3 = Done c0 /\
    initialize permute_block rejections key c0 = Done c.

Lemma argon2d_cache_for_ready key c : argon2d_cache_for key c -> cache_ready c.
Proof.
  intros (Hk & r & c0 & E0 & E). destruct (proj2 (make_cache_cases true 262144 3))
    as (c1 & E1 & W1); [lia|reflexivity|lia|].
  assert (c1 = c0) as -> by (revert E0; rewrite E1; generalize c0 c1; clear; by intros ? ? [= ->]).
  pose proof (proj1 (initialize_cases r key c0 W1 Hk)) as H. rewrite E in H. apply H.
Qed.

#[export] Instance argon2d_builder : CacheBuilder := {| cache_for_ready := argon2d_cache_for_ready |}.

(** The state.  A dataset is shared memory: [heap] holds the contents of the allocated ones, the
    fields hold indices into it.  A cache is not written after its initialisation.  [jobs] is what
    [job_mutex_] guards, [init] what [dataset_init_mutex_] guards, with the two atomic counters. *)
Record jobs_state : Type := mkJobs {
  current_seed_key_ : list Z;
  shared_cache_ : option Argon2dCache;
  shared_dataset_ : option nat;
  current_job_ : option (list Z);   (* the job's seed key; None: [has_job_] is false *)
  job_generation_ : Z;
}.
Record init_state : Type := mkInit {
  pending_cache_ : option Argon2dCache;
  pending_dataset_ : option nat;
  dataset_init_generation_ : Z;
  dataset_init_remaining_ : Z;
}.

(** [set_job] holds [job_mutex_] unless [Idle]: before the bump of [dataset_init_generation_], and
    in the wait on [dataset_init_cv_]. *)
Inductive phase : Type := Idle | Announcing (key : list Z) | Waiting (key : list Z).

(** Where a worker is in [worker_loop]: at the loop condition, at the load of
    [dataset_init_generation_], about to read what is pending, filling its part of
    [target_dataset] from [target_cache], at the load of [job_generation_], blocked on [job_mutex_]
    with the value loaded, in the hashing part, after the loop. *)
Inductive wpc : Type :=
  | Top | InitCheck | Fetching
  | Filling (target_dataset : option nat) (target_cache : option Argon2dCache)
  | JobCheck | WantLock (current_gen : Z) | Hashing | Exited.
Record wstate : Type := mkW {
  pc : wpc;
  local_gen : Z;
  local_dataset_init_gen : Z;
  local_key : option (list Z);   (* [local_job]'s seed key; None: not active *)
  active_cache : option Argon2dCache;
  active_dataset : option nat;
}.
Record engine : Type := mkEngine {
  running_ : bool;
  setter : phase;
  heap : list (list Z);
  jobs : jobs_state;
  init : init_state;
  workers_ : list wstate;
  filled_by : list nat;   (* the workers that have filled their part of the pending dataset *)
  starts : nat;           (* the number of calls of [start] *)
}.

Definition at_pc (p : wpc) (w : wstate) : wstate :=
  mkW p (local_gen w) (local_dataset_init_gen w) (local_key w) (active_cache w) (active_dataset w).
Definition put_worker (i : nat) (w : wstate) (e : engine) : engine :=
  mkEngine (running_ e) (setter e) (heap e) (jobs e) (init e) (<[i := w]> (workers_ e)) (filled_by e) (starts e).

(** *** [start], [stop] *)
Definition new_worker : wstate := mkW Top 0 0 None None None.
Definition start (num_threads_ : nat) (e : engine) : engine :=
  mkEngine true (setter e) (heap e) (jobs e) (init e) (replicate num_threads_ new_worker) (filled_by e) (S (starts e)).
Definition request_stop (e : engine) : engine :=
  mkEngine false (setter e) (heap e) (jobs e) (init e) (workers_ e) (filled_by e) (starts e).
Definition join_workers (e : engine) : engine :=
  mkEngine (running_ e) (setter e) (heap e) (jobs e) (init e) [] (filled_by e) (starts e).

(** *** [set_job] *)

(** [key_changed || !shared_cache_] *)
Definition needs_cache (key : list Z) (e : engine) : bool :=
  negb (bool_decide (current_seed_key_ (jobs e) = key)) ||
  match shared_cache_ (jobs e) with None => true | Some _ => false end.
Definition live (e : engine) : bool := running_ e && (0 <? Z.of_nat (length (workers_ e))).

(** The last statements: the job is published. *)
Definition publish (key : list Z) (j : jobs_state) : jobs_state :=
  mkJobs (current_seed_key_ j) (shared_cache_ j) (shared_dataset_ j) (Some key) (wrap 64 (job_generation_ j + 1)).
Definition set_job_same (key : list Z) (e : engine) : engine :=
  mkEngine (running_ e) (setter e) (heap e) (publish key (jobs e)) (init e) (workers_ e) (filled_by e) (starts e).

(** No workers to reuse: temporary threads fill [ds] to [ds'] before anything else happens. *)
Definition set_job_threads (key : list Z) (c : Argon2dCache) (ds' : list Z) (e : engine) : engine :=
  mkEngine (running_ e) (setter e) (heap e ++ [ds'])
    (publish key (mkJobs key (Some c) (Some (length (heap e))) (current_job_ (jobs e)) (job_generation_ (jobs e))))
    (init e) (workers_ e) (filled_by e) (starts e).

(** The live rotation: the new cache and memory, and the block under [dataset_init_mutex_]. *)
Definition set_job_begin (key : list Z) (c : Argon2dCache) (ds : list Z) (e : engine) : engine :=
  let j := jobs e in
  mkEngine (running_ e) (Announcing key) (heap e ++ [ds])
    (mkJobs (current_seed_key_ j) (Some c) (shared_dataset_ j) (current_job_ j) (job_generation_ j))
    (mkInit (Some c) (Some (length (heap e))) (dataset_init_generation_ (init e)) (Z.of_nat (length (workers_ e))))
    (workers_ e) [] (starts e).
Definition set_job_announce (key : list Z) (e : engine) : engine :=
  let n := init e in
  mkEngine (running_ e) (Waiting key) (heap e) (jobs e)
    (mkInit (pending_cache_ n) (pending_dataset_ n) (wrap 64 (dataset_init_generation_ n + 1)) (dataset_init_remaining_ n))
    (workers_ e) (filled_by e) (starts e).
(** The predicate of the wait. *)
Definition wait_over (e : engine) : bool := (dataset_init_remaining_ (init e) =? 0) || negb (running_ e).
Definition set_job_publish (key : list Z) (e : engine) : engine :=
  let j := jobs e in
  mkEngine (running_ e) Idle (heap e)
    (publish key (mkJobs key (shared_cache_ j) (pending_dataset_ (init e)) (current_job_ j) (job_generation_ j)))
    (init e) (workers_ e) (filled_by e) (starts e).

(** *** The worker's side *)
Definition loop_top (w : wstate) (e : engine) : wstate := at_pc (if running_ e then InitCheck else Exited) w.

Definition check_init (w : wstate) (e : engine) : wstate :=
  let current := dataset_init_generation_ (init e) in
  if current =? local_dataset_init_gen w then at_pc JobCheck w
  else mkW Fetching (local_gen w) current (local_key w) (active_cache w) (active_dataset w).

(** The block under [dataset_init_mutex_]. *)
Definition fetch_target (w : wstate) (e : engine) : wstate :=
  at_pc (Filling (pending_dataset_ (init e)) (pending_cache_ (init e))) w.

(** The worker's part of the dataset, the decrement, [continue]. *)
Definition finish_fill (i : nat) (w : wstate) (target_dataset : option nat) (target_cache : option Argon2dCache)
  (e : engine) : outcome engine :=
  match target_dataset, target_cache with
  | Some p, Some c =>
      match heap e !! p with
      | Some ds =>
          ds ← fill_part c (Z.of_nat (length (workers_ e))) ds (Z.of_nat i);
          let n := init e in
          Done (mkEngine (running_ e) (setter e) (<[p := ds]> (heap e)) (jobs e)
            (mkInit (pending_cache_ n) (pending_dataset_ n) (dataset_init_generation_ n)
               (wrap 32 (dataset_init_remaining_ n - 1)))
            (<[i := at_pc Top w]> (workers_ e)) (filled_by e ++ [i]) (starts e))
      | None => UB
      end
  | _, _ => UB
  end.

Definition check_job (w : wstate) (e : engine) : wstate :=
  let current_gen := job_generation_ (jobs e) in
  at_pc (if current_gen =? local_gen w then Hashing else WantLock current_gen) w.

(** The critical section on [job_mutex_]. *)
Definition pick_job (current_gen : Z) (w : wstate) (e : engine) : wstate :=
  let j := jobs e in
  match current_job_ j with
  | None => mkW Hashing current_gen (local_dataset_init_gen w) None (active_cache w) (active_dataset w)
  | Some key => mkW Hashing current_gen (local_dataset_init_gen w) (Some key) (shared_cache_ j) (shared_dataset_ j)
  end.

Section step.
Context {B : CacheBuilder} (num_threads_ : nat).

Inductive step (e : engine) : engine -> Prop :=
  | S_start : running_ e = false -> workers_ e = [] -> step e (start num_threads_ e)
  | S_stop : running_ e = true -> step e (request_stop e)
  | S_join : running_ e = false -> Forall (fun w => pc w = Exited) (workers_ e) -> step e (join_workers e)
  | S_same key : setter e = Idle -> needs_cache key e = false -> step e (set_job_same key e)
  | S_threads key c ds online_cpus order ds' : setter e = Idle -> needs_cache key e = true -> live e = false ->
      cache_for key c -> Z.of_nat (length ds) = kRandomXDatasetBytes -> 1 <= online_cpus < 2 ^ 32 ->
      order ≡ₚ seqZ 0 online_cpus -> ofoldl (fill_part c online_cpus) ds order = Done ds' ->
      step e (set_job_threads key c ds' e)
  | S_begin key c ds : setter e = Idle -> needs_cache key e = true -> live e = true ->
      cache_for key c -> Z.of_nat (length ds) = kRandomXDatasetBytes -> step e (set_job_begin key c ds e)
  | S_announce key : setter e = Announcing key -> step e (set_job_announce key e)
  | S_publish key : setter e = Waiting key -> wait_over e = true -> step e (set_job_publish key e)
  | W_top i w : workers_ e !! i = Some w -> pc w = Top -> step e (put_worker i (loop_top w e) e)
  | W_init i w : workers_ e !! i = Some w -> pc w = InitCheck -> step e (put_worker i (check_init w e) e)
  | W_fetch i w : workers_ e !! i = Some w -> pc w = Fetching -> step e (put_worker i (fetch_target w e) e)
  | W_fill i w d c e' : workers_ e !! i = Some w -> pc w = Filling d c -> finish_fill i w d c e = Done e' -> step e e'
  | W_job i w : workers_ e !! i = Some w -> pc w = JobCheck -> step e (put_worker i (check_job w e) e)
  | W_lock i w g : workers_ e !! i = Some w -> pc w = WantLock g -> setter e = Idle ->
      step e (put_worker i (pick_job g w e) e)
  | W_hash i w : workers_ e !! i = Some w -> pc w = Hashing -> step e (put_worker i (at_pc Top w) e).

Definition new_engine : engine :=
  mkEngine false Idle [] (mkJobs [] None None None 0) (mkInit None None 0 0) [] [] 0.
Definition engine_reachable (e : engine) : Prop := rtc step new_engine e.
End step.

(** ** The invariant of a run *)

Definition filling (p : wpc) : bool := match p with Fetching | Filling _ _ => true | _ => false end.
(** A worker that still owes the pending dataset its part. *)
Definition owes (g : Z) (w : wstate) : bool :=
  negb (local_dataset_init_gen w =? g) || filling (pc w).
Fixpoint owing (g : Z) (ws : list wstate) : nat :=
  match ws with [] => 0 | w :: ws => Nat.b2n (owes g w) + owing g ws end.

Lemma owing_insert g ws i w w' : ws !! i = Some w ->
  (owing g (<[i := w']> ws) + Nat.b2n (owes g w) = owing g ws + Nat.b2n (owes g w'))%nat.
Proof.
  revert i. induction ws as [|x ws IH]; intros i Hi; [done|]. destruct i as [|i].
  - injection Hi as ->. cbn [insert list_insert owing]. generalize (Nat.b2n (owes g w)) (Nat.b2n (owes g w')). intros. lia.
  - change (<[S i := w']> (x :: ws)) with (x :: <[i := w']> ws). cbn [owing].
    rewrite <- !Nat.add_assoc. f_equal. by apply IH.
Qed.

Lemma owing_all g ws : Forall (fun w => owes g w = true) ws -> owing g ws = length ws.
Proof. induction 1 as [|w ws Hw _ IH]; cbn [owing length]; [done|]. by rewrite Hw, IH. Qed.

Lemma owing_le g ws : (owing g ws <= length ws)%nat.
Proof. induction ws as [|w ws IH]; cbn [owing length]; [done|]. destruct (owes g w); cbn [Nat.b2n]; lia. Qed.

Lemma owing_zero g ws i w : owing g ws = 0%nat -> ws !! i = Some w -> owes g w = false.
Proof.
  revert i. induction ws as [|x ws IH]; intros i H0 Hi; [done|]. cbn [owing] in H0. destruct i as [|i].
  - injection Hi as ->. by destruct (owes g w).
  - apply (IH i); [by destruct (owes g x)|done].
Qed.

Section invariant.
Context {B : CacheBuilder} (num_threads_ : nat) (Hthreads : Z.of_nat num_threads_ < 2 ^ 32).

(** A complete dataset of the cache for [key]. *)
Definition dataset_for (e : engine) (key : list Z) (cache : option Argon2dCache) (dataset : option nat) : Prop :=
  exists c p, cache = Some c /\ dataset = Some p /\ cache_for key c /\ heap e !! p = Some (full_dataset c).

Definition gen (e : engine) : Z := dataset_init_generation_ (init e).

Record worker_ok (e : engine) (w : wstate) : Prop := {
  wo_job key : local_key w = Some key -> dataset_for e key (active_cache w) (active_dataset w) /\
    (setter e <> Idle -> pending_dataset_ (init e) <> active_dataset w);
  wo_filling : filling (pc w) = true -> local_dataset_init_gen w = gen e;
  wo_target d c : pc w = Filling d c -> d = pending_dataset_ (init e) /\ c = pending_cache_ (init e);
}.

Definition published (e : engine) : Prop :=
  let j := jobs e in
  (current_job_ j = None /\ shared_cache_ j = None) \/
  (current_job_ j = Some (current_seed_key_ j) /\
   dataset_for e (current_seed_key_ j) (shared_cache_ j) (shared_dataset_ j)).

(** The pending dataset: the parts of [filled_by] over the memory as allocated. *)
Definition under_way (e : engine) (key : list Z) : Prop :=
  exists c p ds0 ds, pending_cache_ (init e) = Some c /\ shared_cache_ (jobs e) = Some c /\
    pending_dataset_ (init e) = Some p /\ cache_for key c /\ heap e !! p = Some ds /\
    Z.of_nat (length ds0) = kRandomXDatasetBytes /\
    ofoldl (fill_part c (Z.of_nat (length (workers_ e)))) ds0 (Z.of_nat <$> filled_by e) = Done ds.

Definition phase_ok (e : engine) : Prop :=
  let settled := Forall (fun w => owes (gen e) w = false) (workers_ e) in
  match setter e with
  | Idle => settled /\ published e
  | Announcing key => settled /\ under_way e key /\ filled_by e = [] /\
      dataset_init_remaining_ (init e) = Z.of_nat (length (workers_ e))
  | Waiting key => under_way e key /\ Forall (fun i => (i < length (workers_ e))%nat) (filled_by e) /\
      dataset_init_remaining_ (init e) = Z.of_nat (owing (gen e) (workers_ e)) /\
      (forall i w, workers_ e !! i = Some w -> owes (gen e) w = false -> i ∈ filled_by e)
  end.

Record good (e : engine) : Prop := {
  gd_workers : Forall (worker_ok e) (workers_ e);
  gd_count : Z.of_nat (length (workers_ e)) < 2 ^ 32;
  gd_gen : word64 (gen e);
  gd_live : setter e <> Idle -> 0 < Z.of_nat (length (workers_ e));
  gd_phase : phase_ok e;
}.

(** A worker moves without settling its debt. *)
Lemma put_worker_good e i w w' : good e -> workers_ e !! i = Some w ->
  worker_ok e w' -> owes (gen e) w' = owes (gen e) w -> good (put_worker i w' e).
Proof.
  intros [Gw Gc Gg Gl Gp] Hi Hw' Ho. constructor.
  - apply Forall_insert; [|destruct Hw' as [H1 H2 H3]; by constructor].
    eapply list.Forall_impl; [exact Gw|]. intros x [H1 H2 H3]. by constructor.
  - cbn. by rewrite length_insert.
  - done.
  - cbn. by rewrite length_insert.
  - assert (owing (gen e) (<[i:=w']> (workers_ e)) = owing (gen e) (workers_ e)) as Hcount.
    { pose proof (owing_insert (gen e) (workers_ e) i w w' Hi). rewrite Ho in H. apply Nat.add_cancel_r in H. done. }
    assert (Forall (fun x => owes (gen e) x = false) (workers_ e) ->
      Forall (fun x => owes (gen e) x = false) (<[i:=w']> (workers_ e))) as Hset.
    { intros Hs. apply Forall_insert; [done|]. rewrite Ho. by apply (Forall_lookup_1 _ _ _ _ Hs Hi). }
    unfold phase_ok, under_way in *. cbn. rewrite length_insert.
    change (gen (put_worker i w' e)) with (gen e). destruct (setter e) as [|key|key].
    + destruct Gp. split; [by apply Hset|done].
    + destruct Gp as (? & ? & ? & ?). split_and!; try done. by apply Hset.
    + destruct Gp as (? & ? & ? & Hf). rewrite Hcount. split_and!; try done.
      intros k x Hk Hx. destruct (Nat.eq_dec k i) as [->|Hne].
      * apply (Hf i w Hi). rewrite list_lookup_insert_eq in Hk by (by eapply lookup_lt_Some). congruence.
      * rewrite list_lookup_insert_ne in Hk by done. by apply (Hf k x).
Qed.

(** The moves of a worker that touch only its own state. *)
Lemma at_pc_good e i w p : good e -> workers_ e !! i = Some w -> filling (pc w) = false -> filling p = false ->
  good (put_worker i (at_pc p w) e).
Proof.
  intros G Hi Hf Hp. apply (put_worker_good e i w); [done..| |].
  - pose proof (Forall_lookup_1 _ _ _ _ (gd_workers e G) Hi) as [H1 _ _]. constructor; cbn; [exact H1|by rewrite Hp|]. by intros ? ? ->.
  - unfold owes. cbn. by rewrite Hp, Hf.
Qed.

Lemma check_init_good e i w : good e -> workers_ e !! i = Some w -> pc w = InitCheck ->
  good (put_worker i (check_init w e) e).
Proof.
  intros G Hi Hpc. unfold check_init. fold (gen e).
  destruct (Z.eqb_spec (gen e) (local_dataset_init_gen w)) as [E|E]; [by apply at_pc_good; rewrite ?Hpc|].
  apply (put_worker_good e i w); [done..| |].
  - pose proof (Forall_lookup_1 _ _ _ _ (gd_workers e G) Hi) as [H1 _ _]. by constructor.
  - unfold owes. cbn. rewrite Z.eqb_refl. destruct (Z.eqb_spec (local_dataset_init_gen w) (gen e)); [congruence|done].
Qed.

Lemma fetch_target_good e i w : good e -> workers_ e !! i = Some w -> pc w = Fetching ->
  good (put_worker i (fetch_target w e) e).
Proof.
  intros G Hi Hpc. pose proof (Forall_lookup_1 _ _ _ _ (gd_workers e G) Hi) as [H1 H2 _].
  apply (put_worker_good e i w); [done..| |unfold owes; by rewrite Hpc].
  constructor; cbn; [exact H1| |by intros d c [= <- <-]]. intros _. apply H2. by rewrite Hpc.
Qed.

Lemma pick_job_good e i w g : good e -> workers_ e !! i = Some w -> pc w = WantLock g -> setter e = Idle ->
  good (put_worker i (pick_job g w e) e).
Proof.
  intros G Hi Hpc HI. apply (put_worker_good e i w); [done..| |].
  - pose proof (gd_phase e G) as Hp. unfold phase_ok in Hp. rewrite HI in Hp. destruct Hp as [_ Hp].
    unfold pick_job. destruct Hp as [[Ej Ec]|[Ej Hd]]; rewrite Ej.
    + by constructor.
    + constructor; cbn; [|done..]. intros key [= <-]. split; [exact Hd|]. by rewrite HI.
  - unfold owes, pick_job. rewrite Hpc. by destruct (current_job_ (jobs e)).
Qed.

(** A step that leaves the dataset of a worker alone. *)
Lemma worker_ok_frame e e' w : worker_ok e w ->
  (filling (pc w) = true -> gen e' = gen e /\ pending_dataset_ (init e') = pending_dataset_ (init e) /\
     pending_cache_ (init e') = pending_cache_ (init e)) ->
  (forall p ds, heap e !! p = Some ds -> (setter e <> Idle -> pending_dataset_ (init e) <> Some p) ->
     heap e' !! p = Some ds /\ (setter e' <> Idle -> pending_dataset_ (init e') <> Some p)) ->
  worker_ok e' w.
Proof.
  intros [H1 H2 H3] Hg Hh. constructor.
  - intros key Hk. destruct (H1 key Hk) as [(c & p & Ec & Ed & Hc & Hp) Hne]. rewrite Ed in *.
    destruct (Hh p _ Hp Hne) as [Hp' Hne']. split; [by exists c, p|done].
  - intros Hf. destruct (Hg Hf) as [-> _]. by apply H2.
  - intros d c Hf. destruct (Hg ltac:(by rewrite Hf)) as (_ & -> & ->). by apply H3.
Qed.

(** Only a worker that owes its part fills, while [set_job] waits. *)
Lemma filling_waits e i w : good e -> workers_ e !! i = Some w -> filling (pc w) = true ->
  owes (gen e) w = true /\ exists key, setter e = Waiting key.
Proof.
  intros G Hi Hpc. assert (owes (gen e) w = true) as Ho by (unfold owes; rewrite Hpc; by rewrite orb_true_r).
  split; [done|]. pose proof (gd_phase e G) as Hp. unfold phase_ok in Hp.
  destruct (setter e) as [|key|key]; [| |by exists key]; destruct Hp as [Hs _];
    pose proof (Forall_lookup_1 _ _ _ _ Hs Hi) as H; cbn in H; congruence.
Qed.

Lemma finish_fill_good e i w td tc e' : good e -> workers_ e !! i = Some w -> pc w = Filling td tc ->
  finish_fill i w td tc e = Done e' -> good e'.
Proof.
  intros G Hi Hpc. assert (filling (pc w) = true) as Hpf by (by rewrite Hpc).
  destruct (filling_waits e i w G Hi Hpf) as [Ho [key HW]].
  destruct (Forall_lookup_1 _ _ _ _ (gd_workers e G) Hi) as [_ Hg Ht]. specialize (Hg Hpf).
  destruct (Ht td tc Hpc) as [-> ->].
  destruct G as [Gw Gc Gg Gl Gp]. unfold phase_ok in Gp. rewrite HW in Gp. destruct Gp as (Hu & Hlt & Hr & Hf).
  destruct Hu as (c & p & ds0 & ds & Ec & Es & Ed & Hc & Eh & L0 & Efold).
  unfold finish_fill. rewrite Ed, Ec, Eh. intros (ds' & Efill & E)%bind_Done.
  pose proof (owing_insert (gen e) (workers_ e) i w (at_pc Top w) Hi) as Hcnt.
  assert (owes (gen e) (at_pc Top w) = false) as Ho' by (unfold owes; cbn; by rewrite Hg, Z.eqb_refl).
  rewrite Ho, Ho' in Hcnt. cbn [Nat.b2n] in Hcnt. pose proof (lookup_lt_Some _ _ _ Hi) as Hil.
  injection E as <-. pose proof (owing_le (gen e) (workers_ e)) as Hle. constructor; cbn.
  - set (e' := mkEngine _ _ _ _ _ _ _ _).
    assert (forall x, worker_ok e x -> worker_ok e' x) as Hkeep.
    { intros x Hx. apply (worker_ok_frame e); [done..|]. intros q d Hq Hne. cbn. rewrite Ed in Hne.
      rewrite list_lookup_insert_ne; [|by intros ->; apply Hne; [rewrite HW|]].
      split; [done|]. rewrite HW. intros _. apply Hne. by rewrite HW. }
    apply Forall_insert; [eapply list.Forall_impl; [exact Gw|exact Hkeep]|].
    destruct (Hkeep w (Forall_lookup_1 _ _ _ _ Gw Hi)) as [H1 _ _]. by constructor.
  - by rewrite length_insert.
  - done.
  - by rewrite length_insert.
  - unfold phase_ok. cbn. rewrite HW, length_insert. unfold gen in *. cbn. split_and!.
    + exists c, p, ds0, ds'. cbn. rewrite length_insert. split_and!; try done.
      * apply list_lookup_insert_eq. by eapply lookup_lt_Some.
      * rewrite fmap_app, ofoldl_app, Efold. cbn [mbind outcome_bind fmap list_fmap ofoldl]. by rewrite Efill.
    + apply Forall_app. split; [done|]. by constructor.
    + rewrite Hr. rewrite wrap_small by (split; lia). lia.
    + intros k x Hk Hx. rewrite elem_of_app, list_elem_of_singleton. destruct (Nat.eq_dec k i) as [->|Hne]; [by right|].
      rewrite list_lookup_insert_ne in Hk by done. left. by apply (Hf k x).
Qed.

Lemma settled_not_filling g ws i w : Forall (fun w => owes g w = false) ws -> ws !! i = Some w ->
  filling (pc w) <> true.
Proof.
  intros Hs Hi Hf. pose proof (Forall_lookup_1 _ _ _ _ Hs Hi) as H. unfold owes in H. by rewrite Hf, orb_true_r in H.
Qed.

Lemma settled_workers e : good e -> setter e = Idle ->
  Forall (fun w => owes (gen e) w = false) (workers_ e) /\ published e.
Proof. intros G HI. pose proof (gd_phase e G) as Hp. unfold phase_ok in Hp. by rewrite HI in Hp. Qed.

Lemma set_job_same_good key e : good e -> setter e = Idle -> needs_cache key e = false -> good (set_job_same key e).
Proof.
  intros G HI Hn. destruct (settled_workers e G HI) as [Hs Hp]. apply orb_false_iff in Hn as [Hk Hc].
  apply negb_false_iff, bool_decide_eq_true in Hk. destruct G as [Gw Gc Gg Gl Gp]. constructor; try done.
  - eapply list.Forall_impl; [exact Gw|]. intros x Hx. by apply (worker_ok_frame e).
  - unfold phase_ok. cbn. rewrite HI. split; [done|]. right. cbn. rewrite Hk. split; [done|].
    destruct Hp as [[_ E]|[_ Hd]]; [by rewrite E in Hc|]. by rewrite Hk in Hd.
Qed.

Lemma set_job_threads_good key c ds' e : good e -> setter e = Idle -> cache_for key c -> ds' = full_dataset c ->
  good (set_job_threads key c ds' e).
Proof.
  intros G HI Hc Hd. destruct (settled_workers e G HI) as [Hs _]. destruct G as [Gw Gc Gg Gl Gp]. constructor; try done.
  - eapply list.Forall_impl; [exact Gw|]. intros x Hx. apply (worker_ok_frame e); [done..|].
    intros p ds Hp _. cbn. rewrite HI. split; [by apply lookup_app_l_Some|done].
  - unfold phase_ok. cbn. rewrite HI. split; [done|]. right. cbn. split; [done|]. exists c, (length (heap e)).
    cbn. split_and!; try done. rewrite list_lookup_middle by done. by rewrite Hd.
Qed.

Lemma set_job_begin_good key c ds e : good e -> setter e = Idle -> live e = true ->
  cache_for key c -> Z.of_nat (length ds) = kRandomXDatasetBytes -> good (set_job_begin key c ds e).
Proof.
  intros G HI Hl Hc Hd. destruct (settled_workers e G HI) as [Hs _]. destruct G as [Gw Gc Gg Gl Gp].
  constructor; try done.
  - apply Forall_lookup_2. intros i w Hi. apply (worker_ok_frame e); [by apply (Forall_lookup_1 _ _ _ _ Gw Hi)| |].
    { intros Hf. by apply (settled_not_filling _ _ _ _ Hs Hi) in Hf. }
    intros p d Hp _. cbn. split; [by apply lookup_app_l_Some|].
    intros _ [= <-]. apply lookup_lt_Some in Hp. lia.
  - intros _. cbn. apply andb_true_iff in Hl as [_ Hl]. by apply Z.ltb_lt in Hl.
  - unfold phase_ok. cbn. split_and!; try done. exists c, (length (heap e)), ds, ds. cbn.
    split_and!; try done. by apply list_lookup_middle.
Qed.

Lemma set_job_announce_good key e : good e -> setter e = Announcing key -> good (set_job_announce key e).
Proof.
  intros [Gw Gc Gg Gl Gp] HA. unfold phase_ok in Gp. rewrite HA in Gp. destruct Gp as (Hs & Hu & Hf & Hr).
  assert (word64 (wrap 64 (gen e + 1)) /\ wrap 64 (gen e + 1) <> gen e) as [Hw Hne].
  { split; [by apply wrap_range|]. unfold wrap. destruct Gg. Z.div_mod_to_equations. lia. }
  assert (Forall (fun w => owes (wrap 64 (gen e + 1)) w = true) (workers_ e)) as Ho.
  { eapply list.Forall_impl; [exact Hs|]. intros w Hw'. unfold owes in *. apply orb_false_iff in Hw' as [E _].
    apply negb_false_iff, Z.eqb_eq in E. destruct (Z.eqb_spec (local_dataset_init_gen w) (wrap 64 (gen e + 1))); [congruence|done]. }
  constructor; try done.
  - apply Forall_lookup_2. intros i w Hi. apply (worker_ok_frame e).
    + by apply (Forall_lookup_1 _ _ _ _ Gw Hi).
    + intros Hfl. by apply (settled_not_filling _ _ _ _ Hs Hi) in Hfl.
    + intros p ds Hp Hn. cbn. split; [done|]. intros _. apply Hn. by rewrite HA.
  - intros _. apply Gl. by rewrite HA.
  - unfold phase_ok. cbn. unfold gen in *. cbn. split_and!.
    + done.
    + by rewrite Hf.
    + by rewrite Hr, owing_all.
    + intros i w Hi Hw'. pose proof (Forall_lookup_1 _ _ _ _ Ho Hi) as H. cbn in H. congruence.
Qed.

(** When the last part is done, the pending dataset is complete. *)
Lemma rebuilt key e : good e -> setter e = Waiting key -> dataset_init_remaining_ (init e) = 0 ->
  dataset_for e key (shared_cache_ (jobs e)) (pending_dataset_ (init e)).
Proof.
  intros [Gw Gc Gg Gl Gp] HW H0. specialize (Gl ltac:(by rewrite HW)). unfold phase_ok in Gp. rewrite HW in Gp. destruct Gp as (Hu & Hlt & Hr & Hf).
  destruct Hu as (c & p & ds0 & ds & Ec & Es & Ed & Hc & Eh & L0 & Efold). exists c, p. split_and!; try done.
  rewrite Eh. f_equal.
  assert (Done ds = Done (full_dataset c)) as E; [|revert E; generalize (full_dataset c); by intros ? [= ->]].
  rewrite <- Efold. apply fill_every_part; [by eapply cache_for_ready|lia| | |done].
  - apply Forall_fmap. eapply list.Forall_impl; [exact Hlt|]. cbn. lia.
  - intros i Hi. destruct (lookup_lt_is_Some_2 (workers_ e) (Z.to_nat i)) as [w Hw]; [lia|].
    replace i with (Z.of_nat (Z.to_nat i)) by lia. apply list_elem_of_fmap_2. apply (Hf _ w Hw).
    apply (owing_zero _ (workers_ e) (Z.to_nat i)); [lia|done].
Qed.

Lemma set_job_publish_good key e : good e -> setter e = Waiting key -> dataset_init_remaining_ (init e) = 0 ->
  good (set_job_publish key e).
Proof.
  intros G HW H0. pose proof (rebuilt key e G HW H0) as Hd. destruct G as [Gw Gc Gg Gl Gp].
  unfold phase_ok in Gp. rewrite HW in Gp. destruct Gp as (_ & _ & Hr & _). constructor; try done.
  - eapply list.Forall_impl; [exact Gw|]. intros x Hx. by apply (worker_ok_frame e).
  - unfold phase_ok. cbn. split; [|by right]. apply Forall_lookup_2. intros i w Hi.
    apply (owing_zero _ (workers_ e) i); [unfold gen in *; cbn; lia|done].
Qed.

(** The invariant of every reachable state: an engine started at most once and not stopped is
    [good]. *)
Definition inv (e : engine) : Prop :=
  (2 <= starts e)%nat \/ (starts e = 1%nat /\ running_ e = false) \/
  (starts e = 1%nat /\ running_ e = true /\ good e) \/
  (starts e = 0%nat /\ running_ e = false /\ workers_ e = [] /\ setter e = Idle /\ gen e = 0 /\ good e).

Lemma start_good e : good e -> setter e = Idle -> gen e = 0 -> good (start num_threads_ e).
Proof using Hthreads.
  intros G HI H0. destruct (settled_workers e G HI) as [_ Hp]. destruct G as [Gw Gc Gg Gl Gp].
  constructor; cbn; [by apply Forall_replicate|by rewrite length_replicate|done|by rewrite HI|].
  unfold phase_ok. cbn. rewrite HI. split; [|done]. apply Forall_replicate. unfold owes.
  change (gen (start num_threads_ e)) with (gen e). by rewrite H0.
Qed.

(** What the temporary threads leave. *)
Lemma threads_fill key c cpus order ds ds' : cache_for key c -> Z.of_nat (length ds) = kRandomXDatasetBytes ->
  1 <= cpus < 2 ^ 32 -> order ≡ₚ seqZ 0 cpus -> ofoldl (fill_part c cpus) ds order = Done ds' ->
  ds' = full_dataset c.
Proof.
  intros Hc Hd Hcpu Hord Hfill.
  assert (Done ds' = Done (full_dataset c)) as E; [|revert E; generalize (full_dataset c); by intros ? [= ->]].
  rewrite <- Hfill. apply fill_every_part; [by eapply cache_for_ready|done| | |done].
  - apply Forall_forall. intros k Hk%list_elem_of_In. rewrite Hord, elem_of_seqZ in Hk. lia.
  - intros k Hk. rewrite Hord, elem_of_seqZ. lia.
Qed.

Lemma finish_fill_frame i w d c e e' : finish_fill i w d c e = Done e' ->
  running_ e' = running_ e /\ starts e' = starts e /\ setter e' = setter e /\ gen e' = gen e /\
  workers_ e' = <[i := at_pc Top w]> (workers_ e).
Proof.
  unfold finish_fill. intros Hf. destruct d, c; [|done..]. destruct (heap e !! _); [|done].
  by apply bind_Done in Hf as (? & _ & [= <-]).
Qed.

Lemma step_starts e e' : step num_threads_ e e' -> (starts e <= starts e')%nat.
Proof.
  destruct 1 as [| | | | | | | | | | |i w d c e' Hi Hpc Hfill| | |]; cbn; try lia.
  destruct (finish_fill_frame i w d c e e' Hfill) as (_ & -> & _). lia.
Qed.

(** A step of a running engine. *)
Lemma running_step e e' : good e -> running_ e = true -> step num_threads_ e e' ->
  (running_ e' = false /\ starts e' = starts e) \/ (running_ e' = true /\ starts e' = starts e /\ good e').
Proof.
  intros G Hr Hstep. destruct Hstep as
    [H| |H|key HI Hn|key c ds cpus order ds' HI Hn Hl Hc Hd Hcpu Hord Hfill|key c ds HI Hn Hl Hc Hd|key HA|key HW Ho
    |i w Hi Hpc|i w Hi Hpc|i w Hi Hpc|i w d c e' Hi Hpc Hfill|i w Hi Hpc|i w g Hi Hpc HI|i w Hi Hpc];
    try congruence; [by left|right..].
  - split_and!; [done..|]. by apply set_job_same_good.
  - split_and!; [done..|]. apply set_job_threads_good; [done..|]. by eapply threads_fill.
  - split_and!; [done..|]. by apply set_job_begin_good.
  - split_and!; [done..|]. by apply set_job_announce_good.
  - split_and!; [done..|]. apply set_job_publish_good; [done..|]. unfold wait_over in Ho.
    rewrite Hr, orb_false_r in Ho. by apply Z.eqb_eq.
  - split_and!; [done..|]. apply at_pc_good; [done..|by rewrite Hpc|by rewrite Hr].
  - split_and!; [done..|]. by apply check_init_good.
  - split_and!; [done..|]. by apply fetch_target_good.
  - destruct (finish_fill_frame i w d c e e' Hfill) as (-> & -> & _).
    split_and!; [done..|by eapply finish_fill_good].
  - split_and!; [done..|]. apply at_pc_good; [done..|by rewrite Hpc|by destruct (_ =? _)].
  - split_and!; [done..|]. by apply pick_job_good.
  - split_and!; [done..|]. apply at_pc_good; [done..|by rewrite Hpc|done].
Qed.

(** A step before the first [start]: there are no workers. *)
Lemma stopped_step e e' : running_ e = false -> step num_threads_ e e' ->
  (starts e' = S (starts e) /\ e' = start num_threads_ e) \/
  (running_ e' = false /\ starts e' = starts e /\
   (workers_ e = [] -> setter e = Idle -> good e -> gen e = 0 ->
     workers_ e' = [] /\ setter e' = Idle /\ gen e' = 0 /\ good e')).
Proof.
  intros Hr Hstep. destruct Hstep as
    [H| |H|key HI Hn|key c ds cpus order ds' HI Hn Hl Hc Hd Hcpu Hord Hfill|key c ds HI Hn Hl Hc Hd|key HA|key HW Ho
    |i w Hi Hpc|i w Hi Hpc|i w Hi Hpc|i w d c e' Hi Hpc Hfill|i w Hi Hpc|i w g Hi Hpc HI|i w Hi Hpc];
    try congruence; [by left|right..].
  - split_and!; [done..|]. intros Hw HI G Hg. split_and!; try done. destruct e. cbn in *. by subst.
  - split_and!; [done..|]. intros Hw _ G Hg. split_and!; try done. by apply set_job_same_good.
  - split_and!; [done..|]. intros Hw _ G Hg. split_and!; try done. apply set_job_threads_good; [done..|]. by eapply threads_fill.
  - unfold live in Hl. by rewrite Hr in Hl.
  - split_and!; [done..|]. congruence.
  - split_and!; [done..|]. congruence.
  - split_and!; [done..|]. intros Hw. by rewrite Hw in Hi.
  - split_and!; [done..|]. intros Hw. by rewrite Hw in Hi.
  - split_and!; [done..|]. intros Hw. by rewrite Hw in Hi.
  - destruct (finish_fill_frame i w d c e e' Hfill) as (-> & -> & _).
    split_and!; [done..|]. intros Hw. by rewrite Hw in Hi.
  - split_and!; [done..|]. intros Hw. by rewrite Hw in Hi.
  - split_and!; [done..|]. intros Hw. by rewrite Hw in Hi.
  - split_and!; [done..|]. intros Hw. by rewrite Hw in Hi.
Qed.

Lemma inv_step e e' : inv e -> step num_threads_ e e' -> inv e'.
Proof using Hthreads.
  intros [H|[[H1 Hr]|[(H1 & Hr & G)|(H0 & Hr & Hw & HI & Hg & G)]]] Hstep.
  - left. pose proof (step_starts e e' Hstep). lia.
  - destruct (stopped_step e e' Hr Hstep) as [[Hs _]|(Hr' & Hs & _)]; [left; lia|]. right. left. by rewrite Hs.
  - destruct (running_step e e' G Hr Hstep) as [[Hr' Hs]|(Hr' & Hs & G')]; right; [left|right; left]; by rewrite Hs.
  - destruct (stopped_step e e' Hr Hstep) as [[Hs ->]|(Hr' & Hs & Hk)]; right; right.
    + left. rewrite Hs, H0. split_and!; [done..|]. by apply start_good.
    + right. destruct (Hk Hw HI G Hg) as (? & ? & ? & ?). rewrite Hs. by split_and!.
Qed.

Lemma engine_inv e : engine_reachable num_threads_ e -> inv e.
Proof using Hthreads.
  intros Hr. assert (inv new_engine) as H0.
  { right. right. right. split_and!; try done. constructor; try done. split; [constructor|]. by left. }
  revert H0. unfold engine_reachable in Hr. induction Hr as [|e1 e2 e3 H12 _ IH]; [done|].
  intros H1. apply IH. by eapply inv_step.
Qed.

Lemma running_good e : engine_reachable num_threads_ e -> starts e = 1%nat -> running_ e = true -> good e.
Proof using Hthreads. intros [H|[[_ H]|[(_ & _ & H)|(H & _)]]]%engine_inv Hs Hr; [lia|congruence|done|lia]. Qed.
End invariant.

(** ** Traces *)
Section trace.
Context {B : CacheBuilder} (num_threads_ : nat) (Hpos : (0 < num_threads_)%nat).

(** The first job set before [start], and worker 0 about to take [job_mutex_]. *)
Lemma reach_want_lock key c : cache_for key c -> exists e,
  engine_reachable num_threads_ e /\ starts e = 1%nat /\ running_ e = true /\ setter e = Idle /\
  current_seed_key_ (jobs e) = key /\ current_job_ (jobs e) = Some key /\ gen e = 0 /\
  workers_ e !! 0%nat = Some (mkW (WantLock 1) 0 0 None None None).
Proof using Hpos.
  intros Hc. pose proof (cache_for_ready key c Hc) as Hr.
  assert (Z.of_nat (length (full_dataset c)) = kRandomXDatasetBytes) as Hl by (by rewrite length_full_dataset).
  set (e1 := set_job_threads key c (full_dataset c) new_engine). set (e2 := start num_threads_ e1).
  assert (forall w, <[0%nat := w]> (workers_ e2) !! 0%nat = Some w) as Hw.
  { intros w. apply list_lookup_insert_eq. cbn. by rewrite length_replicate. }
  assert (workers_ e2 !! 0%nat = Some new_worker) as Hw0 by (by apply lookup_replicate_2).
  eexists. split.
  - unfold engine_reachable. eapply rtc_l.
    { apply (S_threads num_threads_ new_engine key c (full_dataset c) 1 [0] (full_dataset c));
        [reflexivity|apply orb_true_r|reflexivity|exact Hc|exact Hl|lia|reflexivity|].
      apply fill_every_part; [done|lia| | |done].
      - apply List.Forall_cons; [lia|apply List.Forall_nil].
      - intros i Hi. replace i with 0 by lia. by apply list_elem_of_singleton. }
    eapply rtc_l; [by apply (S_start num_threads_ e1)|].
    eapply rtc_l; [by apply (W_top num_threads_ e2 0 new_worker)|].
    eapply rtc_l; [eapply (W_init num_threads_ (put_worker 0 (loop_top new_worker e2) e2) 0); [apply Hw|done]|].
    eapply rtc_l; [|apply rtc_refl]. eapply (W_job num_threads_ _ 0);
      [cbn [put_worker workers_]; rewrite list_insert_insert_eq; apply Hw|reflexivity].
  - split_and!; try done. cbn [put_worker workers_]. rewrite !list_insert_insert_eq. apply Hw.
Qed.
End trace.

(** C5: in an engine that has been started once and not stopped, whatever the interleaving of
    [set_job] calls and workers, a worker that holds a job holds a cache initialised from that job's
    seed key and the complete dataset of that cache: no worker ever sees a dataset that is partly
    built or belongs to another seed.  A fast-mode machine given the two serves the cache. *)
Theorem worker_dataset_complete {B : CacheBuilder} (num_threads_ : nat) (e : engine) (i : nat) (w : wstate)
  (key : list Z) :
  Z.of_nat num_threads_ < 2 ^ 32 -> engine_reachable num_threads_ e -> starts e = 1%nat -> running_ e = true ->
  workers_ e !! i = Some w -> local_key w = Some key ->
  exists c p, active_cache w = Some c /\ active_dataset w = Some p /\ cache_for key c /\
    heap e !! p = Some (full_dataset c) /\
    forall vm, is_fast_mode vm = true -> exists vm',
      set_dataset (full_dataset c) (set_cache (Some c) vm) = (true, vm') /\ serves c vm'.
Proof.
  intros Hn Hr Hs Hrun Hi Hk. pose proof (running_good num_threads_ Hn e Hr Hs Hrun) as G.
  destruct (wo_job e w (Forall_lookup_1 _ _ _ _ (gd_workers e G) Hi) key Hk) as [(c & p & Ec & Ed & Hc & Hp) _].
  exists c, p. split_and!; try done. intros vm Hf. unfold set_dataset.
  rewrite (length_full_dataset c (cache_for_ready key c Hc)).
  change (2181038080 =? kRandomXDatasetBytes) with true. rewrite andb_false_r. eexists. split; [reflexivity|].
  unfold serves. change (is_fast_mode _) with (is_fast_mode vm). rewrite Hf. reflexivity.
Qed.

(** A builder for examples. *)
Definition idle_builder : CacheBuilder :=
  {| cache_for _ c := c = idle_cache;
     cache_for_ready _ c E := eq_rect_r cache_ready idle_cache_ready E |}.

Lemma worker_dataset_complete_witness :
  exists e w c p, @engine_reachable idle_builder 2 e /\ workers_ e !! 0%nat = Some w /\
    local_key w = Some [1] /\ active_cache w = Some c /\ active_dataset w = Some p /\
    heap e !! p = Some (full_dataset c).
Proof.
  destruct (@reach_want_lock idle_builder 2 ltac:(lia) [1] idle_cache eq_refl)
    as (e & Hr & Hs & Hrun & HI & Hk & Hj & Hg & Hw).
  set (w := mkW (WantLock 1) 0 0 None None None) in Hw. set (w' := pick_job 1 w e).
  assert (workers_ (put_worker 0 w' e) !! 0%nat = Some w') as Hw'
    by (apply list_lookup_insert_eq; by eapply lookup_lt_Some).
  assert (local_key w' = Some [1]) as Hk' by (unfold w', pick_job; by rewrite Hj).
  assert (@engine_reachable idle_builder 2 (put_worker 0 w' e)) as Hr'
    by (eapply rtc_r; [exact Hr|]; by apply (@W_lock idle_builder 2 e 0 w 1)).
  destruct (@worker_dataset_complete idle_builder 2 (put_worker 0 w' e) 0 w' [1] ltac:(lia) Hr' Hs Hrun Hw' Hk')
    as (c & p & Ec & Ed & _ & Hp & _).
  exists (put_worker 0 w' e), w', c, p. split; [exact Hr'|]. split; [exact Hw'|]. split; [exact Hk'|].
  split; [exact Ec|]. split; [exact Ed|exact Hp].
Defined.

(** ** The rotation can hang *)

(** Worker 0 waits for [job_mutex_] while [set_job], which holds it, waits for worker 0. *)
Record stuck (key : list Z) (e : engine) : Prop := {
  sk_waiting : setter e = Waiting key;
  sk_worker : exists w g, workers_ e !! 0%nat = Some w /\ pc w = WantLock g /\ owes (gen e) w = true;
}.

Lemma stuck_remaining {B : CacheBuilder} key e : good e -> stuck key e -> dataset_init_remaining_ (init e) <> 0.
Proof.
  intros G [HW (w & g & Hw & _ & Ho)] E. pose proof (gd_phase e G) as Hp. unfold phase_ok in Hp. rewrite HW in Hp.
  destruct Hp as (_ & _ & Hr & _). rewrite E in Hr.
  pose proof (owing_zero (gen e) (workers_ e) 0 w ltac:(lia) Hw). congruence.
Qed.

Lemma stuck_put key e i w w' : stuck key e -> workers_ e !! i = Some w ->
  (forall g, pc w = WantLock g -> setter e = Idle) -> stuck key (put_worker i w' e).
Proof.
  intros [HW (w0 & g & Hw & Hpc & Ho)] Hi Hpcw. constructor; [done|]. exists w0, g. split_and!; try done.
  cbn [put_worker workers_]. rewrite list_lookup_insert_ne; [done|]. intros ->. rewrite Hw in Hi.
  injection Hi as <-. specialize (Hpcw g Hpc). congruence.
Qed.

Lemma stuck_step {B : CacheBuilder} num_threads_ key e e' : good e -> running_ e = true -> stuck key e ->
  step num_threads_ e e' -> running_ e' = false \/ stuck key e'.
Proof.
  intros G Hr S Hstep. pose proof (stuck_remaining key e G S) as Hrem. pose proof (sk_waiting key e S) as HW.
  destruct Hstep as [H| |H| | | |k HA|k HW' Ho|i w Hi Hpc|i w Hi Hpc|i w Hi Hpc|i w d c e' Hi Hpc Hfill
    |i w Hi Hpc|i w g Hi Hpc HI|i w Hi Hpc]; try congruence; [by left|..]; 
    try (right; apply (stuck_put key e i w); [done|done|congruence]).
  - unfold wait_over in Ho. rewrite Hr, orb_false_r in Ho. by apply Z.eqb_eq in Ho.
  - right. destruct (finish_fill_frame i w d c e e' Hfill) as (_ & _ & E1 & E2 & E3).
    destruct S as [_ (w0 & g & Hw & Hpc0 & Ho)]. constructor; [congruence|]. exists w0, g. rewrite E2, E3.
    split_and!; try done. rewrite list_lookup_insert_ne; [done|]. intros ->. congruence.
Qed.

Lemma stuck_forever {B : CacheBuilder} num_threads_ key e e' : Z.of_nat num_threads_ < 2 ^ 32 ->
  engine_reachable num_threads_ e -> starts e = 1%nat -> running_ e = true -> stuck key e ->
  rtc (step num_threads_) e e' -> starts e' = 1%nat -> running_ e' = true -> stuck key e'.
Proof.
  intros Hn Hr Hs Hrun S Hsteps Hs' Hrun'.
  enough ((starts e' <= 1)%nat -> running_ e' = false \/ stuck key e') as H
    by (destruct H; [lia|congruence|done]).
  clear Hs' Hrun'. assert (inv e) as Hi by (by eapply engine_inv). revert Hi Hs Hrun S. clear Hr.
  induction Hsteps as [e|e e1 e' H1 Hrest IH]; intros Hi Hs Hrun S Hle; [by right|].
  pose proof (inv_step num_threads_ Hn e e1 Hi H1) as Hi1.
  destruct Hi as [H|[[_ H]|[(_ & _ & G)|(H & _)]]]; [lia|congruence| |lia].
  destruct (running_step num_threads_ e e1 G Hrun H1) as [[Hr1 Hs1]|(Hr1 & Hs1 & G1)].
  - clear IH. left. clear S Hi1 G H1. rewrite Hs in Hs1. clear Hs Hrun.
    induction Hrest as [e1|e1 e2 e' H12 Hrest IH]; [done|].
    destruct (stopped_step num_threads_ e1 e2 Hr1 H12) as [[Hs2 _]|(Hr2 & Hs2 & _)].
    + exfalso. assert (starts e2 <= starts e')%nat; [|lia]. clear -Hrest.
      induction Hrest as [|x y z H _ IH]; [done|]. apply step_starts in H. lia.
    + apply IH; [lia|done|congruence].
  - destruct (stuck_step num_threads_ key e e1 G Hrun S H1) as [H|S1]; [congruence|]. apply IH; [done|congruence..| |done]. done.
Qed.

(** A live seed rotation can deadlock.  A worker that has loaded a changed [job_generation_] and
    not yet taken [job_mutex_] when [set_job] takes it for a new seed key never fills its part: from
    that state on, in every continuation without [stop], [set_job] is still waiting. *)
Theorem rotation_deadlock {B : CacheBuilder} (num_threads_ : nat) (k1 k2 : list Z) (c1 c2 : Argon2dCache) :
  (0 < num_threads_)%nat -> Z.of_nat num_threads_ < 2 ^ 32 -> cache_for k1 c1 -> cache_for k2 c2 -> k1 <> k2 ->
  exists e, engine_reachable num_threads_ e /\ starts e = 1%nat /\ running_ e = true /\
    forall e', rtc (step num_threads_) e e' -> starts e' = 1%nat -> running_ e' = true -> setter e' = Waiting k2.
Proof.
  intros Hp Hn Hc1 Hc2 Hk. destruct (reach_want_lock num_threads_ Hp k1 c1 Hc1)
    as (e & Hr & Hs & Hrun & HI & Hk1 & Hj & Hg & Hw).
  set (e1 := set_job_begin k2 c2 (full_dataset c2) e). set (e2 := set_job_announce k2 e1).
  assert (engine_reachable num_threads_ e2) as Hr2.
  { eapply rtc_r; [|by apply (S_announce num_threads_ e1 k2)]. eapply rtc_r; [exact Hr|].
    apply S_begin; [done| | |done|by rewrite length_full_dataset; [|eapply cache_for_ready]].
    - unfold needs_cache. rewrite Hk1, bool_decide_false by done. done.
    - unfold live. rewrite Hrun. apply Z.ltb_lt. apply lookup_lt_Some in Hw. lia. }
  exists e2. split_and!; [done..|]. intros e' Hsteps Hs' Hr'.
  apply (sk_waiting k2 e'). apply (stuck_forever num_threads_ k2 e2 e'); try done. constructor; [done|].
  exists (mkW (WantLock 1) 0 0 None None None), 1. split_and!; [exact Hw|done|]. unfold owes, gen. cbn.
  fold (gen e). by rewrite Hg.
Qed.

Lemma rotation_deadlock_witness :
  exists e, @engine_reachable idle_builder 4 e /\ starts e = 1%nat /\ running_ e = true /\
    forall e', rtc (@step idle_builder 4) e e' -> starts e' = 1%nat -> running_ e' = true -> setter e' = Waiting [2].
Proof. apply (@rotation_deadlock idle_builder 4 [1] [2] idle_cache idle_cache); [lia|lia|reflexivity|reflexivity|discriminate]. Defined.
