(* ===== verification/Text.v ===== *)
(** * Text

    [std::string] as a list of byte values, with the operations of it the sources use: searching,
    [substr], concatenation, [std::to_string] and [std::stoull]. *)

From S2P Require Import Prelude.

Abbreviation text := (list Z).

(** Characters. *)
Abbreviation tab := 9.
Abbreviation newline := 10.
Abbreviation carriage := 13.
Abbreviation space := 32.
Abbreviation dquote := 34.
Abbreviation comma := 44.
Abbreviation minus := 45.
Abbreviation colon := 58.
Abbreviation lbracket := 91.
Abbreviation backslash := 92.
Abbreviation rbracket := 93.
Abbreviation lbrace := 123.
Abbreviation rbrace := 125.

(** A string literal. *)
Definition lit (s : string) : text := (fun a => Z.of_N (Ascii.N_of_ascii a)) <$> String.list_ascii_of_string s.

(** ** Searching *)

Fixpoint prefix_of (p s : text) : bool :=
  match p, s with
  | [], _ => true
  | x :: p, y :: s => (x =? y) && prefix_of p s
  | _ :: _, [] => false
  end.

Fixpoint find_text (needle s : text) : option nat :=
  if prefix_of needle s then Some 0%nat
  else match s with [] => None | _ :: s => S <$> find_text needle s end.

(** [s.find(needle, pos)]; [None] is [npos]. *)
Definition find_from (s needle : text) (pos : nat) : option nat :=
  (fun q => pos + q)%nat <$> (if (length s <? pos)%nat then None else find_text needle (drop pos s)).
Definition contains (s needle : text) : bool := match find_from s needle 0 with Some _ => true | None => false end.

(** [s.rfind(c)] *)
Fixpoint rfind_char (c : Z) (s : text) : option nat :=
  match s with
  | [] => None
  | x :: s => match rfind_char c s with
              | Some i => Some (S i)
              | None => if x =? c then Some 0%nat else None
              end
  end.

(** [s.substr(pos, n)] *)
Definition substr (s : text) (pos n : nat) : outcome text :=
  if (length s <? pos)%nat then Throw (out_of_range "basic_string::substr") else Done (take n (drop pos s)).

(** [pos < s.size() && s[pos] == c].  The sources read a character only under such a test (or under
    [pos >= s.size() ||] before its negation), so a read past the end does not arise here. *)
Definition looking_at (s : text) (pos : nat) (c : Z) : bool :=
  match s !! pos with Some x => x =? c | None => false end.

(** The number of steps of [while (pos < s.size() && p(s[pos])) ++pos]. *)
Fixpoint span (p : Z -> bool) (s : text) : nat :=
  match s with c :: s => if p c then S (span p s) else 0 | [] => 0 end.

Lemma span_le p s : (span p s <= length s)%nat.
Proof. induction s as [|c s IH]; cbn; [lia|]. destruct (p c); lia. Qed.

Lemma span_all p s rest : forallb p s = true -> match rest with c :: _ => p c = false | [] => True end ->
  span p (s ++ rest) = length s.
Proof.
  intros Hs Hr. induction s as [|c s IH]; cbn in *.
  - destruct rest as [|c rest]; cbn; [done|]. by rewrite Hr.
  - apply andb_true_iff in Hs as [-> Hs]. by rewrite IH.
Qed.

Lemma prefix_of_spec p s : prefix_of p s = true <-> exists r, s = p ++ r.
Proof.
  revert s. induction p as [|x p IH]; intros s; cbn; [by split; eauto|]. destruct s as [|y s]; [by split; [|intros [? ?]]|].
  rewrite andb_true_iff, Z.eqb_eq, IH. split.
  - intros [-> [r ->]]. by exists r.
  - intros [r E]. injection E as -> ->. eauto.
Qed.

Lemma prefix_of_app p r : prefix_of p (p ++ r) = true.
Proof. apply prefix_of_spec. by exists r. Qed.

Lemma prefix_of_head x p y s : x <> y -> prefix_of (x :: p) (y :: s) = false.
Proof. intros H. cbn. by destruct (Z.eqb_spec x y). Qed.

Lemma looking_at_spec s pos c : looking_at s pos c = true <-> s !! pos = Some c.
Proof.
  unfold looking_at. destruct (s !! pos) as [x|]; [|done]. rewrite Z.eqb_eq. split; [by intros ->|congruence].
Qed.

Lemma find_text_spec needle s q : find_text needle s = Some q ->
  (q <= length s)%nat /\ prefix_of needle (drop q s) = true /\ forall k, (k < q)%nat -> prefix_of needle (drop k s) = false.
Proof.
  revert q. induction s as [|c s IH]; intros q; cbn [find_text]; destruct (prefix_of needle _) eqn:E.
  - intros [= <-]. split_and!; [cbn; lia|done|lia].
  - done.
  - intros [= <-]. split_and!; [cbn; lia|done|lia].
  - destruct (find_text needle s) as [q'|] eqn:Eq; [|done]. intros [= <-]. destruct (IH q' eq_refl) as (H1 & H2 & H3).
    split_and!; [cbn; lia|done|]. intros [|k] Hk; [done|]. apply H3. lia.
Qed.

Lemma find_text_none needle s : find_text needle s = None -> forall k, prefix_of needle (drop k s) = false.
Proof.
  induction s as [|c s IH]; cbn [find_text]; destruct (prefix_of needle _) eqn:E; try done; intros H k.
  - by rewrite drop_nil.
  - destruct (find_text needle s); [done|]. destruct k; [done|]. by apply IH.
Qed.

(** ** Decimal numbers *)

(** The decimal digits of a number, least significant first: [n] bounds their number. *)
Fixpoint digits (n : nat) (x : Z) : text :=
  match n with O => [] | S n => (48 + x mod 10) :: (if x <? 10 then [] else digits n (x / 10)) end.

(** [std::to_string] of an unsigned 64-bit number (at most 20 digits). *)
Definition to_string (x : Z) : text := rev (digits 20 x).

Definition is_digit (c : Z) : bool := (48 <=? c) && (c <=? 57).
Definition of_digits (s : text) : Z := foldl (fun acc c => 10 * acc + (c - 48)) 0 s.

Lemma digits_ok n x : 0 <= x < 10 ^ Z.of_nat n -> (0 < n)%nat ->
  forallb is_digit (digits n x) = true /\ digits n x <> [] /\ of_digits (rev (digits n x)) = x.
Proof.
  revert x. induction n as [|n IH]; intros x Hx Hn; [lia|]. cbn [digits].
  pose proof (Z.mod_pos_bound x 10 ltac:(lia)) as Hm. pose proof (Z.div_mod x 10 ltac:(lia)) as Hd.
  assert (is_digit (48 + x mod 10) = true) as Hdig.
  { unfold is_digit. apply andb_true_iff. split; apply Z.leb_le; lia. }
  destruct (Z.ltb_spec x 10) as [Hlt|Hge].
  - split_and!; [cbn; by rewrite Hdig|done|]. cbn. rewrite Z.mod_small by lia. unfold of_digits. cbn. lia.
  - destruct n as [|n]; [change (10 ^ Z.of_nat 1) with 10 in Hx; lia|].
    destruct (IH (x / 10)) as (H1 & H2 & H3); [|lia|].
    { rewrite (Nat2Z.inj_succ (S n)), Z.pow_succ_r in Hx by lia. split; [apply Z.div_pos; lia|].
      apply Z.div_lt_upper_bound; lia. }
    split_and!; [|done|].
    + cbn [forallb]. by rewrite Hdig.
    + cbn [rev]. unfold of_digits in *. rewrite foldl_app, H3. cbn. lia.
Qed.

Lemma forallb_rev {A} (p : A -> bool) l : forallb p (rev l) = forallb p l.
Proof. induction l as [|x l IH]; cbn; [done|]. rewrite forallb_app, IH. cbn. rewrite andb_true_r. apply andb_comm. Qed.

Lemma to_string_ok x : word64 x ->
  forallb is_digit (to_string x) = true /\ to_string x <> [] /\ of_digits (to_string x) = x.
Proof.
  intros Hx. destruct (digits_ok 20 x) as (H1 & H2 & H3); [destruct Hx; split; [lia|]; change (10 ^ Z.of_nat 20) with (10^20); lia|lia|].
  unfold to_string. rewrite forallb_rev. split_and!; [done| |done].
  intros E. apply H2. apply (f_equal (@rev Z)) in E. by rewrite rev_involutive in E.
Qed.
