(* ===== verification/Json.v ===== *)
(** * The JSON extractor

    Models src/src/json.cpp: [escape], the key search [find_key], the accessors built on it and
    [rpc_envelope].  A position is a [nat]; [None] is [std::string::npos].  The specification is a
    type of JSON values with a printer: the accessors are proved to read back what was printed. *)

From S2P Require Import Prelude Text.

(** ** Scanning *)

(** A character is escaped when an odd number of backslashes precede it. *)
Definition is_escaped (s : text) (pos : nat) : bool :=
  if (pos =? 0)%nat then false else Nat.odd (span (fun c => c =? backslash) (rev (take pos s))).

(** [while (pos < s.size() && s[pos] != dquote) { if (s[pos] == backslash) ++pos; ++pos; }]: how far
    [pos] moves; a trailing backslash carries it one past the end. *)
Fixpoint quoted_span (s : text) : nat :=
  match s with
  | [] => 0
  | c :: s => if c =? dquote then 0
              else if c =? backslash then match s with [] => 2 | _ :: s => S (S (quoted_span s)) end
              else S (quoted_span s)
  end.

(** The same loop, collecting the characters without the backslashes. *)
Fixpoint unquote (s : text) : text :=
  match s with
  | [] => []
  | c :: s => if c =? dquote then []
              else if c =? backslash then match s with [] => [] | d :: s => d :: unquote s end
              else c :: unquote s
  end.

Definition skip_string (s : text) (pos : nat) : option nat :=
  if negb (looking_at s pos dquote) then None else
  let pos := (pos + 1 + quoted_span (drop (pos + 1) s))%nat in
  if (length s <=? pos)%nat then None else Some (pos + 1)%nat.

Definition is_ws (c : Z) : bool := (c =? space) || (c =? tab) || (c =? newline) || (c =? carriage).
Definition is_blank (c : Z) : bool := (c =? space) || (c =? tab).
Definition skip_ws (s : text) (pos : nat) : nat := (pos + span is_ws (drop pos s))%nat.

(** ** Escaping *)

Definition hex_digit (n : Z) : Z := if n <? 10 then 48 + n else 87 + n.
Definition escape_char (c : Z) : text :=
  if c =? backslash then [backslash; backslash]
  else if c =? dquote then [backslash; dquote]
  else if c =? newline then [backslash; 110]
  else if c =? carriage then [backslash; 114]
  else if c =? tab then [backslash; 116]
  else if c <? 0x20 then [backslash; 117; 48; 48; hex_digit (Z.land (Z.shiftr c 4) 0xf); hex_digit (Z.land c 0xf)]
  else [c].
Definition escape (s : text) : text := concat (escape_char <$> s).

(** ** The key search *)

(** The character before [pos], blanks skipped, opens an object or separates members. *)
Definition key_position (json : text) (pos : nat) : bool :=
  let before := (pos - span is_blank (rev (take pos json)))%nat in
  (before =? 0)%nat || looking_at json (before - 1) lbrace || looking_at json (before - 1) comma.

Fixpoint find_key_from (fuel : nat) (json search : text) (pos : nat) : outcome (option nat) :=
  match fuel with
  | O => NoFuel
  | S fuel =>
      match find_from json search pos with
      | None => Done None
      | Some pos => if key_position json pos then Done (Some pos)
                    else find_key_from fuel json search (pos + length search)
      end
  end.

Definition search_text (key : text) : text := [dquote] ++ key ++ [dquote].

(** The position of the value of [key]. *)
Definition find_key (json key : text) : outcome (option nat) :=
  found ← find_key_from (S (length json)) json (search_text key) 0;
  match found with
  | None => Done None
  | Some pos =>
      let pos := skip_ws json (pos + length (search_text key)) in
      if negb (looking_at json pos colon) then Done None else Done (Some (skip_ws json (pos + 1)))
  end.

(** ** The accessors *)

Definition get_string (json key : text) : outcome text :=
  found ← find_key json key;
  match found with
  | None => Done []
  | Some pos => if negb (looking_at json pos dquote) then Done [] else Done (unquote (drop (pos + 1) json))
  end.

Definition in_raw (c : Z) : bool := negb ((c =? comma) || (c =? rbrace) || (c =? rbracket) || (c =? newline)).
Definition trim_blanks (s : text) (start pos : nat) : nat :=
  (pos - Nat.min (pos - start) (span is_blank (rev (take pos s))))%nat.

Definition get_raw (json key : text) : outcome text :=
  found ← find_key json key;
  match found with
  | None => Done []
  | Some start =>
      let pos := (start + span in_raw (drop start json))%nat in
      substr json start (trim_blanks json start pos - start)
  end.

Definition in_token (c : Z) : bool := negb ((c =? comma) || (c =? rbracket) || (c =? space) || (c =? tab)).
Definition raw_token (json : text) (start : nat) : outcome text :=
  let pos := (start + span in_token (drop start json))%nat in
  substr json start (trim_blanks json start pos - start).

Definition get_array_first (json key : text) : outcome text :=
  found ← find_key json key;
  match found with
  | None => Done []
  | Some pos =>
      let pos := skip_ws json pos in
      if negb (looking_at json pos lbracket) then Done [] else
      let pos := skip_ws json (pos + 1) in
      if (length json <=? pos)%nat then Done []
      else if looking_at json pos dquote
      then substr json (pos + 1) (quoted_span (drop (pos + 1) json))
      else raw_token json pos
  end.

(** [if (pos < json.size()) ++pos] *)
Definition past_quote (json : text) (pos : nat) : nat := if (pos <? length json)%nat then S pos else pos.

Fixpoint str_elements (fuel : nat) (json : text) (pos : nat) (result : list text) : outcome (list text) :=
  match fuel with
  | O => NoFuel
  | S fuel =>
      if (length json <=? pos)%nat || looking_at json pos rbracket then Done result else
      let pos := skip_ws json pos in
      if (length json <=? pos)%nat || looking_at json pos rbracket then Done result
      else if looking_at json pos comma then str_elements fuel json (pos + 1) result
      else if looking_at json pos dquote
      then str_elements fuel json (past_quote json (pos + 1 + quoted_span (drop (pos + 1) json)))
             (result ++ [unquote (drop (pos + 1) json)])
      else str_elements fuel json (pos + span in_token (drop pos json)) result
  end.

Definition get_str_array (json key : text) : outcome (list text) :=
  found ← find_key json key;
  match found with
  | None => Done []
  | Some pos =>
      let pos := skip_ws json pos in
      if negb (looking_at json pos lbracket) then Done [] else str_elements (S (length json)) json (pos + 1) []
  end.

Fixpoint array_element (fuel : nat) (json : text) (pos : nat) (cur index : Z) : outcome text :=
  match fuel with
  | O => NoFuel
  | S fuel =>
      if (length json <=? pos)%nat || looking_at json pos rbracket then Done [] else
      let pos := skip_ws json pos in
      if (length json <=? pos)%nat || looking_at json pos rbracket then Done []
      else if looking_at json pos comma then array_element fuel json (pos + 1) cur index
      else if cur =? index then
        if looking_at json pos dquote then Done (unquote (drop (pos + 1) json)) else raw_token json pos
      else if looking_at json pos dquote then
        match skip_string json pos with
        | None => Done []
        | Some pos => array_element fuel json pos (wrap 32 (cur + 1)) index
        end
      else array_element fuel json (pos + span in_token (drop pos json)) (wrap 32 (cur + 1)) index
  end.

Definition get_array_element (json key : text) (index : Z) : outcome text :=
  found ← find_key json key;
  match found with
  | None => Done []
  | Some pos =>
      let pos := skip_ws json pos in
      if negb (looking_at json pos lbracket) then Done [] else array_element (S (length json)) json (pos + 1) 0 index
  end.

(** The bracket matcher: [s] is the text from [pos] on; where it stops. *)
Fixpoint match_from (json : text) (op cl : Z) (s : text) (pos : nat) (depth : Z) (in_string : bool) : nat :=
  match s with
  | [] => pos
  | c :: s =>
      if depth <=? 0 then pos
      else if (c =? dquote) && negb (is_escaped json pos)
      then match_from json op cl s (S pos) depth (negb in_string)
      else if in_string then match_from json op cl s (S pos) depth in_string
      else if c =? op then match_from json op cl s (S pos) (depth + 1) in_string
      else if c =? cl then match_from json op cl s (S pos) (depth - 1) in_string
      else match_from json op cl s (S pos) depth in_string
  end.

Definition get_object (json key : text) : outcome text :=
  found ← find_key json key;
  match found with
  | None => Done []
  | Some start =>
      match json !! start with
      | None => Done []
      | Some open =>
          if (open =? lbrace) || (open =? lbracket) then
            let close := if open =? lbrace then rbrace else rbracket in
            substr json start (match_from json open close (drop (start + 1) json) (start + 1) 1 false - start)
          else Done []
      end
  end.

Definition rpc_envelope (id : Z) (method params : text) : text :=
  [lbrace; dquote] ++ lit "id" ++ [dquote; colon] ++ to_string id ++
  [comma; dquote] ++ lit "method" ++ [dquote; colon; dquote] ++ method ++ [dquote] ++
  [comma; dquote] ++ lit "params" ++ [dquote; colon] ++ params ++ [rbrace; newline].

(** ** The key search as a scan

    Reading from left to right, [ok] says that the last character that was not a blank opened an
    object or separated members (or that there was none). *)
Definition after_char (ok : bool) (c : Z) : bool := if is_blank c then ok else (c =? lbrace) || (c =? comma).
Fixpoint first_hit (ok : bool) (search s : text) : option nat :=
  if ok && prefix_of search s then Some 0%nat
  else match s with [] => None | c :: s => S <$> first_hit (after_char ok c) search s end.

(** The keys looked up are identifiers. *)
Definition plain_char (c : Z) : bool :=
  ((48 <=? c) && (c <=? 57)) || ((65 <=? c) && (c <=? 90)) || ((97 <=? c) && (c <=? 122)) || (c =? 95).
Definition plain (k : text) : bool := negb (bool_decide (k = [])) && forallb plain_char k.

Lemma plain_char_not c : plain_char c = true ->
  c <> dquote /\ c <> backslash /\ is_ws c = false /\ c <> comma /\ c <> colon /\ c <> lbrace /\ c <> rbrace /\
  c <> lbracket /\ c <> rbracket /\ 32 <= c.
Proof. unfold plain_char, is_ws. intros H. lia. Qed.

Lemma plain_after ok c : plain_char c = true -> after_char ok c = false.
Proof. unfold after_char, is_blank, plain_char. intros H. destruct ((c =? space) || (c =? tab)) eqn:E; [exfalso; lia|lia]. Qed.

Lemma key_position_state json pos : (pos <= length json)%nat ->
  key_position json pos = foldl after_char true (take pos json).
Proof.
  induction pos as [|pos IH]; intros Hp; [done|]. destruct (lookup_lt_is_Some_2 json pos ltac:(lia)) as [c Hc].
  rewrite (take_S_r _ _ _ Hc), foldl_snoc, <- IH by lia. unfold key_position.
  rewrite (take_S_r _ _ _ Hc), rev_app_distr. cbn [rev app span]. unfold after_char.
  destruct (is_blank c) eqn:Eb.
  - replace (S pos - S (span is_blank (rev (take pos json))))%nat
      with (pos - span is_blank (rev (take pos json)))%nat by lia. done.
  - replace (S pos - 0 - 1)%nat with pos by lia. cbn [Nat.eqb orb]. unfold looking_at. by rewrite Hc.
Qed.

Lemma first_hit_skip search m : forall ok s,
  (forall j, (j < m)%nat -> foldl after_char ok (take j s) && prefix_of search (drop j s) = false) ->
  (m <= length s)%nat ->
  first_hit ok search s = (fun q => m + q)%nat <$> first_hit (foldl after_char ok (take m s)) search (drop m s).
Proof.
  induction m as [|m IH]; intros ok s Hno Hm.
  - change (first_hit ok search s = id <$> first_hit ok search s). by rewrite option_fmap_id.
  - destruct s as [|c s]; [cbn in Hm; lia|]. pose proof (Hno 0%nat ltac:(lia)) as H0. cbn [take drop foldl] in H0.
    cbn [first_hit take drop foldl]. rewrite H0. rewrite (IH (after_char ok c) s).
    + by destruct (first_hit _ search (drop m s)).
    + intros j Hj. apply (Hno (S j)). lia.
    + cbn in Hm. lia.
Qed.

Lemma first_hit_none search ok s : (forall j, prefix_of search (drop j s) = false) -> first_hit ok search s = None.
Proof.
  revert ok. induction s as [|c s IH]; intros ok H; cbn [first_hit]; pose proof (H 0%nat) as H0; cbn [drop] in H0;
    rewrite H0, andb_false_r; [done|]. rewrite IH; [done|]. intros j. apply (H (S j)).
Qed.

Lemma first_hit_here search s : prefix_of search s = true -> first_hit true search s = Some 0%nat.
Proof. destruct s; cbn [first_hit andb]; by intros ->. Qed.

Section search.
Context (key : text) (Hkey : plain key = true).

Lemma key_plain : key <> [] /\ forallb plain_char key = true.
Proof using Hkey. apply andb_true_iff in Hkey as [H1 H2]. split; [|done]. intros ->. done. Qed.

(** Two occurrences overlap in a quote at most, where the second one is not a key. *)
Lemma overlap s j : prefix_of (search_text key) s = true -> (0 < j < length (search_text key))%nat ->
  forall ok, foldl after_char ok (take j s) && prefix_of (search_text key) (drop j s) = false.
Proof using Hkey.
  intros [r ->]%prefix_of_spec Hj ok. destruct key_plain as [Hne Hp].
  unfold search_text in *. rewrite !length_app in Hj. cbn [length] in Hj.
  assert (([dquote] ++ key ++ [dquote]) ++ r = (dquote :: key) ++ dquote :: r) as -> by (cbn; by rewrite <- app_assoc).
  destruct (decide (j = S (length key))) as [->|Hlt].
  - rewrite take_app_length' by done. apply andb_false_iff. left.
    destruct (exists_last Hne) as (k' & c & ->). cbn [foldl]. rewrite foldl_snoc. apply plain_after.
    rewrite forallb_app in Hp. apply andb_true_iff in Hp as [_ Hp]. cbn in Hp. by rewrite andb_true_r in Hp.
  - apply andb_false_iff. right. rewrite drop_app_le by (cbn; lia).
    destruct j as [|j]; [lia|]. cbn [drop]. destruct (drop j key) as [|c k'] eqn:Ed.
    { apply (f_equal length) in Ed. rewrite length_drop in Ed. cbn in Ed. lia. }
    cbn [app]. apply prefix_of_head. intros <-. assert (plain_char dquote = true) as Hq; [|done].
    rewrite <- (take_drop j key), forallb_app, Ed in Hp. apply andb_true_iff in Hp as [_ Hp]. cbn in Hp. done.
Qed.

Lemma find_key_from_scan json : forall fuel pos, (pos <= length json)%nat -> (length json - pos < fuel)%nat ->
  find_key_from fuel json (search_text key) pos =
    Done ((fun q => pos + q)%nat <$> first_hit (foldl after_char true (take pos json)) (search_text key) (drop pos json)).
Proof using Hkey.
  induction fuel as [|fuel IH]; intros pos Hp Hf; [lia|]. cbn [find_key_from]. unfold find_from.
  destruct (Nat.ltb_spec (length json) pos); [lia|].
  destruct (find_text (search_text key) (drop pos json)) as [q|] eqn:Eq; cbn [fmap option_fmap option_map].
  2: { by rewrite (first_hit_none _ _ _ (find_text_none _ _ Eq)). }
  destruct (find_text_spec _ _ _ Eq) as (H1 & H2 & H3). rewrite drop_drop in H2. rewrite length_drop in H1.
  set (st := foldl after_char true (take pos json)).
  assert (forall j, foldl after_char st (take j (drop pos json)) = foldl after_char true (take (pos + j) json)) as Hst.
  { intros j. unfold st. rewrite <- foldl_app. f_equal. apply take_take_drop. }
  rewrite (first_hit_skip _ q st (drop pos json)) by (rewrite ?length_drop; intros; rewrite ?H3, ?andb_false_r; lia || done).
  rewrite key_position_state by lia. rewrite Hst, drop_drop.
  destruct (foldl after_char true (take (pos + q) json)) eqn:Ek.
  { rewrite first_hit_here by done. cbn. by rewrite Nat.add_0_r. }
  assert (length (search_text key) <= length json - (pos + q))%nat as Hlen.
  { apply prefix_of_spec in H2 as [r Er]. apply (f_equal length) in Er. rewrite length_drop, length_app in Er. lia. }
  rewrite (first_hit_skip _ (length (search_text key)) false (drop (pos + q) json)).
  - rewrite IH by (unfold search_text in *; rewrite ?length_app in *; cbn [length] in *; lia).
    rewrite drop_drop, <- Ek, <- foldl_app, take_take_drop.
    destruct (first_hit _ _ _); cbn; [|done]. do 2 f_equal. lia.
  - intros [|j] Hj; [done|]. apply overlap; [done|lia].
  - rewrite length_drop. lia.
Qed.
End search.

(** ** JSON values and their text *)

#[warnings="-register-all"]
Inductive json_value : Type :=
  | JRaw (token : text)
  | JStr (s : text)
  | JArr (elements : list json_value)
  | JObj (members : list (text * json_value)).

Section json_value_ind.
Context (P : json_value -> Prop)
  (Hraw : forall t, P (JRaw t)) (Hstr : forall s, P (JStr s))
  (Harr : forall l, Forall P l -> P (JArr l))
  (Hobj : forall l, Forall (fun m => P m.2) l -> P (JObj l)).
Fixpoint json_value_ind' (v : json_value) : P v :=
  match v with
  | JRaw t => Hraw t
  | JStr s => Hstr s
  | JArr l => Harr l ((fix go l : Forall P l :=
      match l with [] => List.Forall_nil _ | x :: l => List.Forall_cons _ x l (json_value_ind' x) (go l) end) l)
  | JObj l => Hobj l ((fix go l : Forall (fun m => P m.2) l :=
      match l with [] => List.Forall_nil _ | x :: l => List.Forall_cons _ x l (json_value_ind' x.2) (go l) end) l)
  end.
End json_value_ind.

Definition quoted (s : text) : text := [dquote] ++ escape s ++ [dquote].
Definition joined (l : list text) : text :=
  match l with [] => [] | x :: l => x ++ concat (map (cons comma) l) end.

Fixpoint print (v : json_value) : text :=
  match v with
  | JRaw t => t
  | JStr s => quoted s
  | JArr l => [lbracket] ++ joined (map print l) ++ [rbracket]
  | JObj l => [lbrace] ++ joined (map (fun m => quoted m.1 ++ [colon] ++ print m.2) l) ++ [rbrace]
  end.
Definition member (m : text * json_value) : text := quoted m.1 ++ [colon] ++ print m.2.

(** Raw tokens are numbers and the words [true], [false], [null]; member names are identifiers. *)
Definition raw_char (c : Z) : bool := plain_char c || (c =? 43) || (c =? 45) || (c =? 46).
Definition raw_ok (t : text) : bool := negb (bool_decide (t = [])) && forallb raw_char t.
Fixpoint wf_json (v : json_value) : bool :=
  match v with
  | JRaw t => raw_ok t
  | JStr _ => true
  | JArr l => forallb wf_json l
  | JObj l => forallb (fun m => plain m.1 && wf_json m.2) l
  end.

(** The first place where the search takes [k] for a key, in the order of the text and at any depth, and the text
    after it: a member named [k], or the string [k] in an array, which stands behind a comma as a key does
    unless it is the first element. *)
#[warnings="-register-all"]
Inductive occurrence : Type := AsMember (v : json_value) | AsElement.

Definition is_string (k : text) (v : json_value) : bool := match v with JStr s => bool_decide (s = k) | _ => false end.
Definition in_elements (k : text) (f : json_value -> option (occurrence * text)) : bool -> list json_value -> option (occurrence * text) :=
  fix go first l :=
    match l with
    | [] => None
    | x :: l =>
        let rest := concat (map (cons comma) (map print l)) ++ [rbracket] in
        if negb first && is_string k x then Some (AsElement, rest)
        else match f x with Some (o, t) => Some (o, t ++ rest) | None => go false l end
    end.
Definition in_members (k : text) (f : json_value -> option (occurrence * text)) : list (text * json_value) -> option (occurrence * text) :=
  fix go l :=
    match l with
    | [] => None
    | m :: l =>
        let rest := concat (map (cons comma) (map member l)) ++ [rbrace] in
        if bool_decide (m.1 = k) then Some (AsMember m.2, rest)
        else match f m.2 with Some (o, t) => Some (o, t ++ rest) | None => go l end
    end.
Fixpoint occurs_in (k : text) (v : json_value) : option (occurrence * text) :=
  match v with
  | JRaw _ | JStr _ => None
  | JArr l => in_elements k (occurs_in k) true l
  | JObj l => in_members k (occurs_in k) l
  end.

(** What follows a value: nothing that could continue a name. *)
Definition separated (r : text) : Prop := match r with c :: _ => plain_char c = false | [] => True end.

(** The text after the first hit. *)
Definition first_key (ok : bool) (search s : text) : option text :=
  (fun q => drop (q + length search) s) <$> first_hit ok search s.

Lemma first_key_cons ok search c s : ok && prefix_of search (c :: s) = false ->
  first_key ok search (c :: s) = first_key (after_char ok c) search s.
Proof.
  intros H. unfold first_key. cbn [first_hit]. rewrite H. by destruct (first_hit _ search s).
Qed.

Section tree.
Context (k : text) (Hk : plain k = true).

Lemma first_key_char ok c s : c <> dquote ->
  first_key ok (search_text k) (c :: s) = first_key (after_char ok c) (search_text k) s.
Proof. intros Hc. apply first_key_cons. apply andb_false_iff. right. by apply prefix_of_head. Qed.

Lemma first_key_false s c : after_char false c = false ->
  first_key false (search_text k) (c :: s) = first_key false (search_text k) s.
Proof. intros Hc. rewrite first_key_cons by done. by rewrite Hc. Qed.

(** The key followed by a quote is a prefix of an escaped string only if it is the string. *)
Lemma prefix_escape s r : forall k', forallb plain_char k' = true ->
  prefix_of (k' ++ [dquote]) (escape s ++ dquote :: r) = bool_decide (s = k').
Proof.
  induction s as [|c s IH]; intros k' Hp.
  - destruct k' as [|x k']; [done|]. cbn in Hp. apply andb_true_iff in Hp as [Hx _]. apply plain_char_not in Hx as [Hx _].
    cbn [app escape fmap list_fmap concat]. by rewrite prefix_of_head.
  - assert (escape (c :: s) = escape_char c ++ escape s) as -> by done. rewrite <- app_assoc.
    destruct (decide (escape_char c = [c])) as [E|E].
    + rewrite E. destruct k' as [|x k'].
      { cbn [app]. rewrite prefix_of_head; [done|]. intros <-. done. }
      cbn [app prefix_of]. cbn in Hp. apply andb_true_iff in Hp as [_ Hp]. rewrite IH by done.
      destruct (Z.eqb_spec x c) as [->|Hne]; cbn [andb].
      * apply bool_decide_ext. split; [by intros ->|congruence].
      * symmetry. apply bool_decide_false. congruence.
    + assert (exists t, escape_char c = backslash :: t /\ plain_char c = false) as (t & -> & Hc).
      { revert E. unfold escape_char. repeat (case_match; [eexists; split; [reflexivity|]; unfold plain_char; lia|]). done. }
      cbn [app]. rewrite bool_decide_false.
      * destruct k' as [|x k']; [done|]. cbn [app]. apply prefix_of_head. cbn in Hp. intros ->. done.
      * intros <-. cbn in Hp. by rewrite Hc in Hp.
Qed.

Lemma first_key_escape s r : forall ok,
  exists ok', first_key ok (search_text k) (escape s ++ r) = first_key ok' (search_text k) r.
Proof.
  induction s as [|c s IH]; intros ok; [by exists ok|].
  assert (escape (c :: s) = escape_char c ++ escape s) as -> by done. rewrite <- app_assoc.
  assert (exists ok1, first_key ok (search_text k) (escape_char c ++ escape s ++ r)
    = first_key ok1 (search_text k) (escape s ++ r)) as (ok1 & ->); [|apply IH].
  generalize (escape s ++ r). intros t. unfold escape_char.
  assert (forall n, 0 <= n -> hex_digit n <> dquote) as Hh by (intros n Hn; unfold hex_digit; case_match; lia).
  repeat case_match; cbn [app]; eexists.
  - by rewrite !first_key_char.
  - rewrite first_key_char by done. by rewrite first_key_cons.
  - by rewrite !first_key_char.
  - by rewrite !first_key_char.
  - by rewrite !first_key_char.
  - rewrite !first_key_char; [done|apply Hh, Z.land_nonneg; lia|apply Hh, Z.land_nonneg; lia|done..].
  - rewrite first_key_char; [done|lia].
Qed.

Lemma first_key_close ok r : separated r ->
  first_key ok (search_text k) (dquote :: r) = first_key false (search_text k) r.
Proof using Hk.
  intros Hr. destruct (key_plain k Hk) as [Hne Hp]. rewrite first_key_cons; [done|]. apply andb_false_iff. right.
  destruct k as [|x k']; [done|]. cbn [search_text app prefix_of]. cbn [Z.eqb andb Pos.eqb].
  destruct r as [|c r]; [done|]. apply prefix_of_head. intros ->. cbn in Hr, Hp. by rewrite Hr in Hp.
Qed.

Lemma first_key_quoted ok s r : ok = false \/ s <> k -> separated r ->
  first_key ok (search_text k) (quoted s ++ r) = first_key false (search_text k) r.
Proof using Hk.
  intros Hok Hr. unfold quoted. rewrite <- app_assoc. cbn [app]. rewrite <- app_assoc. rewrite first_key_cons.
  - destruct (first_key_escape s ([dquote] ++ r) (after_char ok dquote)) as [ok' ->]. cbn [app]. by apply first_key_close.
  - destruct Hok as [->|Hs]; [done|]. apply andb_false_iff. right. unfold search_text. cbn [app prefix_of].
    rewrite prefix_escape by apply (key_plain k Hk). by rewrite bool_decide_false.
Qed.

Lemma escape_plain s : forallb plain_char s = true -> escape s = s.
Proof.
  induction s as [|c s IH]; intros Hs; [done|]. cbn in Hs. apply andb_true_iff in Hs as [Hc Hs].
  assert (escape (c :: s) = escape_char c ++ escape s) as -> by done. rewrite IH by done.
  apply plain_char_not in Hc as (H1 & H2 & H3 & _ & _ & _ & _ & _ & _ & H4). unfold is_ws in H3.
  unfold escape_char. repeat (case_match; [lia|]). done.
Qed.

Lemma first_key_found r : first_key true (search_text k) (quoted k ++ r) = Some r.
Proof using Hk.
  unfold quoted. rewrite escape_plain by apply (key_plain k Hk). fold (search_text k). unfold first_key.
  rewrite first_hit_here by apply prefix_of_app. cbn [fmap option_fmap option_map Nat.add]. by rewrite drop_app_length.
Qed.

Lemma first_key_raw ok t r : raw_ok t = true ->
  first_key ok (search_text k) (t ++ r) = first_key false (search_text k) r.
Proof.
  intros [Hne Ht]%andb_true_iff. apply negb_true_iff, bool_decide_eq_false in Hne.
  assert (forall c, raw_char c = true -> c <> dquote /\ forall b, after_char b c = false) as Hc.
  { intros c H. unfold raw_char, plain_char, after_char, is_blank in *. split; [lia|]. intros b.
    destruct ((c =? space) || (c =? tab)) eqn:E; [exfalso; lia|lia]. }
  destruct t as [|c t]; [done|]. cbn [forallb] in Ht. apply andb_true_iff in Ht as [H1 H2]. cbn [app].
  destruct (Hc c H1) as [Hq Ha]. rewrite first_key_char, Ha by done. clear Hne H1 Hq Ha. revert H2.
  induction t as [|d t IH]; intros H2; [done|]. cbn [forallb] in H2. apply andb_true_iff in H2 as [H1 H2].
  destruct (Hc d H1) as [Hq Ha]. cbn [app]. rewrite first_key_char, Ha by done. by apply IH.
Qed.

(** What the search gives: the text after the key, or what it gives for [rest]. *)
Definition at_occurrence (o : occurrence) : text := match o with AsMember v => [colon] ++ print v | AsElement => [] end.
Definition found (r : option (occurrence * text)) (rest : text) : option text :=
  match r with
  | Some (o, t) => Some (at_occurrence o ++ t ++ rest)
  | None => first_key false (search_text k) rest
  end.

Definition print_found (v : json_value) : Prop := forall ok rest,
  wf_json v = true -> ok = false \/ v <> JStr k -> separated rest ->
  first_key ok (search_text k) (print v ++ rest) = found (occurs_in k v) rest.

Lemma elements_found l rest : Forall print_found l -> separated rest -> forallb wf_json l = true ->
  first_key false (search_text k) (concat (map (cons comma) (map print l)) ++ [rbracket] ++ rest) = found (in_elements k (occurs_in k) false l) rest.
Proof using Hk.
  intros Hl Hr. induction Hl as [|x l Hx Hl IH]; intros Hw.
  - cbn [map concat app]. rewrite first_key_char by done. done.
  - cbn [forallb] in *. apply andb_true_iff in Hw as [Hw1 Hw2].
    specialize (IH Hw2). cbn [map concat app in_elements negb andb]. rewrite first_key_char, <- app_assoc by done.
    destruct (is_string k x) eqn:Ex.
    { destruct x as [|s0| |]; try done. apply bool_decide_eq_true in Ex as ->. cbn [print].
      change (after_char false comma) with true. rewrite first_key_found. cbn [found at_occurrence app]. by rewrite <- !app_assoc. }
    rewrite Hx; [|done| |by destruct l].
    2: { right. intros ->. cbn [is_string] in Ex. by rewrite bool_decide_true in Ex. }
    destruct (occurs_in k x) as [[o t]|].
    + cbn [found]. by rewrite <- !app_assoc.
    + exact IH.
Qed.

Lemma members_found l rest : Forall (fun m => print_found m.2) l -> separated rest ->
  forallb (fun m => plain m.1 && wf_json m.2) l = true ->
  first_key false (search_text k) (concat (map (cons comma) (map member l)) ++ [rbrace] ++ rest) = found (in_members k (occurs_in k) l) rest
  /\ forall x, l = x :: tail l ->
  first_key true (search_text k) (member x ++ concat (map (cons comma) (map member (tail l))) ++ [rbrace] ++ rest)
    = found (in_members k (occurs_in k) l) rest.
Proof using Hk.
  intros Hl Hr. induction Hl as [|x l Hx Hl IH]; intros Hw.
  - split; [|done]. cbn [map concat app]. rewrite first_key_char by done. done.
  - cbn [forallb] in *. apply andb_true_iff in Hw as [[Hp Hw1]%andb_true_iff Hw2].
    destruct (IH Hw2) as [IH1 _].
    assert (first_key true (search_text k) (member x ++ concat (map (cons comma) (map member l)) ++ [rbrace] ++ rest)
      = found (in_members k (occurs_in k) (x :: l)) rest) as H.
    + unfold member at 1. rewrite <- !app_assoc. cbn [in_members]. case_bool_decide as Ek.
      * rewrite Ek, first_key_found by done. cbn [found at_occurrence]. by rewrite <- !app_assoc.
      * rewrite first_key_quoted; [|by right|done]. cbn [app]. rewrite first_key_char by done.
        change (after_char false colon) with false.
        rewrite Hx; [|done|by left|by destruct l]. destruct (occurs_in k x.2) as [[o t]|].
        -- cbn [found]. by rewrite <- !app_assoc.
        -- exact IH1.
    + split; [|by intros y [= <-]]. cbn [map concat app]. rewrite first_key_char, <- app_assoc by done. exact H.
Qed.

(** The search reads a printed value as the tree does. *)
Lemma first_key_print v : print_found v.
Proof using Hk.
  induction v as [t|s|l IH|l IH] using json_value_ind'; intros ok rest Hw Hok Hr; cbn [print wf_json occurs_in] in *.
  - by apply first_key_raw.
  - apply first_key_quoted; [|done]. destruct Hok as [->|Hs]; [by left|right; congruence].
  - rewrite <- !app_assoc. cbn [app]. rewrite first_key_char by done. change (after_char ok lbracket) with false.
    destruct l as [|x l]; cbn [map joined app].
    { rewrite first_key_char by done. done. }
    cbn [forallb] in *. apply andb_true_iff in Hw as [Hw1 Hw2].
    apply Forall_cons_iff in IH as [Hx Hl]. rewrite <- app_assoc.
    rewrite Hx; [|done|by left|by destruct l]. cbn [in_elements negb andb]. destruct (occurs_in k x) as [[o t]|].
    + cbn [found]. by rewrite <- !app_assoc.
    + by apply (elements_found l rest).
  - rewrite <- !app_assoc. cbn [app]. rewrite first_key_char by done.
    replace (after_char ok lbrace) with true by done. destruct l as [|x l]; cbn [map joined app].
    { rewrite first_key_char by done. done. }
    rewrite <- !app_assoc. destruct (members_found (x :: l) rest IH Hr Hw) as [_ H].
    specialize (H x eq_refl). unfold member in H at 1. rewrite <- !app_assoc in H. exact H.
Qed.
End tree.

(** ** Every input is handled *)

Lemma skip_ws_le s pos : (pos <= length s)%nat -> (pos <= skip_ws s pos <= length s)%nat.
Proof. intros H. unfold skip_ws. pose proof (span_le is_ws (drop pos s)). rewrite length_drop in *. lia. Qed.

Lemma looking_at_lt s pos c : looking_at s pos c = true -> (pos < length s)%nat.
Proof. intros H%looking_at_spec. by eapply lookup_lt_Some. Qed.

Lemma find_key_from_total json search : (0 < length search)%nat -> forall fuel pos,
  (pos <= length json)%nat -> (length json - pos < fuel)%nat ->
  exists r, find_key_from fuel json search pos = Done r /\
    match r with Some q => (q + length search <= length json)%nat | None => True end.
Proof.
  intros Hs. induction fuel as [|fuel IH]; intros pos Hp Hf; [lia|]. cbn [find_key_from]. unfold find_from.
  destruct (Nat.ltb_spec (length json) pos); [by exists None|].
  destruct (find_text search (drop pos json)) as [q|] eqn:Eq; cbn [fmap option_fmap option_map]; [|by exists None].
  destruct (find_text_spec _ _ _ Eq) as (_ & [r Er]%prefix_of_spec & _). rewrite drop_drop in Er.
  apply (f_equal length) in Er. rewrite length_drop, length_app in Er.
  destruct (key_position json (pos + q)); [eexists; split; [done|]; cbn beta iota; lia|]. apply IH; lia.
Qed.

Lemma find_key_total json key : exists r, find_key json key = Done r /\
  match r with Some pos => (pos <= length json)%nat | None => True end.
Proof.
  unfold find_key. destruct (find_key_from_total json (search_text key)) with (fuel := S (length json)) (pos := 0%nat)
    as (r & -> & Hr); [unfold search_text; rewrite !length_app; cbn; lia|lia|lia|]. cbn [mbind outcome_bind].
  destruct r as [q|]; [|by exists None]. destruct (looking_at json _ colon) eqn:E; cbn [negb]; [|by exists None].
  eexists. split; [done|]. apply looking_at_lt in E. apply skip_ws_le. lia.
Qed.

Lemma substr_total s pos n : (pos <= length s)%nat -> exists t, substr s pos n = Done t.
Proof. intros H. unfold substr. destruct (Nat.ltb_spec (length s) pos); [lia|]. by eexists. Qed.

(** One turn of an array loop moves on. *)
Lemma in_token_moves json pos : (pos < length json)%nat -> looking_at json pos rbracket = false ->
  looking_at json pos comma = false -> skip_ws json pos = pos -> (0 < span in_token (drop pos json))%nat.
Proof.
  intros Hp H1 H2 H3. destruct (lookup_lt_is_Some_2 json pos Hp) as [c Hc]. unfold looking_at in *. rewrite Hc in H1, H2.
  unfold skip_ws in H3. rewrite (drop_S _ _ _ Hc) in *. cbn [span] in *. unfold in_token. rewrite H1, H2.
  destruct (is_ws c) eqn:Ew; [lia|]. unfold is_ws in Ew. destruct (c =? space) eqn:E1, (c =? tab) eqn:E2; cbn in *; lia.
Qed.

Lemma skip_ws_idem s pos : skip_ws s (skip_ws s pos) = skip_ws s pos.
Proof.
  unfold skip_ws. rewrite <- drop_drop. generalize (drop pos s). intros t.
  assert (span is_ws (drop (span is_ws t) t) = 0%nat) as ->; [|lia].
  induction t as [|c t IH]; [done|]. cbn [span]. destruct (is_ws c) eqn:E; [exact IH|]. cbn. by rewrite E.
Qed.

Lemma quoted_span_le s : (quoted_span s <= S (length s))%nat.
Proof.
  assert (forall n s, (length s < n)%nat -> (quoted_span s <= S (length s))%nat) as H; [|apply (H (S (length s))); lia].
  clear s. induction n as [|n IH]; intros s Hs; [lia|]. destruct s as [|c s]; [cbn; lia|]. cbn [quoted_span length] in *.
  case_match; [lia|]. case_match; [destruct s as [|d s]; [cbn; lia|]; cbn in *|]; (pose proof (IH s ltac:(lia)); lia).
Qed.

(** A position after a step: within the text, or one past its end. *)
Lemma str_elements_total json : forall fuel pos result, (pos <= S (length json))%nat ->
  (S (length json) - pos < fuel)%nat -> exists r, str_elements fuel json pos result = Done r.
Proof.
  induction fuel as [|fuel IH]; intros pos result Hp Hf; [lia|]. cbn [str_elements].
  destruct (Nat.leb_spec (length json) pos); cbn [orb]; [by eexists|]. destruct (looking_at json pos rbracket); [by eexists|].
  pose proof (skip_ws_le json pos ltac:(lia)) as Hw. pose proof (skip_ws_idem json pos) as Hi.
  set (q := skip_ws json pos) in *. destruct (Nat.leb_spec (length json) q); cbn [orb]; [by eexists|].
  destruct (looking_at json q rbracket) eqn:E1; [by eexists|]. destruct (looking_at json q comma) eqn:E2; [apply IH; lia|].
  destruct (looking_at json q dquote).
  - pose proof (quoted_span_le (drop (q + 1) json)) as Hq. rewrite length_drop in Hq. unfold past_quote.
    destruct (Nat.ltb_spec (q + 1 + quoted_span (drop (q + 1) json)) (length json)); apply IH; lia.
  - pose proof (in_token_moves json q ltac:(lia) E1 E2 Hi). pose proof (span_le in_token (drop q json)).
    rewrite length_drop in *. apply IH; lia.
Qed.

Lemma array_element_total json index : forall fuel pos cur, (pos <= length json)%nat ->
  (length json - pos < fuel)%nat -> exists r, array_element fuel json pos cur index = Done r.
Proof.
  induction fuel as [|fuel IH]; intros pos cur Hp Hf; [lia|]. cbn [array_element].
  destruct (Nat.leb_spec (length json) pos); cbn [orb]; [by eexists|]. destruct (looking_at json pos rbracket); [by eexists|].
  pose proof (skip_ws_le json pos ltac:(lia)) as Hw. pose proof (skip_ws_idem json pos) as Hi.
  set (q := skip_ws json pos) in *. destruct (Nat.leb_spec (length json) q); cbn [orb]; [by eexists|].
  destruct (looking_at json q rbracket) eqn:E1; [by eexists|]. destruct (looking_at json q comma) eqn:E2; [apply IH; lia|].
  destruct (cur =? index).
  { destruct (looking_at json q dquote); [by eexists|]. apply substr_total. lia. }
  destruct (looking_at json q dquote) eqn:E3.
  - unfold skip_string. rewrite E3. cbn [negb].
    destruct (Nat.leb_spec (length json) (q + 1 + quoted_span (drop (q + 1) json))); [by eexists|]. apply IH; lia.
  - pose proof (in_token_moves json q ltac:(lia) E1 E2 Hi). pose proof (span_le in_token (drop q json)).
    rewrite length_drop in *. apply IH; lia.
Qed.

Section returns.
Context (json key : text).

Lemma get_string_returns : exists r, get_string json key = Done r.
Proof.
  destruct (find_key_total json key) as (r & E & Hr). unfold get_string. rewrite E. cbn [mbind outcome_bind].
  destruct r; [|by eexists]. destruct (looking_at _ _ _); by eexists.
Qed.

Lemma get_raw_returns : exists r, get_raw json key = Done r.
Proof.
  destruct (find_key_total json key) as (r & E & Hr). unfold get_raw. rewrite E. cbn [mbind outcome_bind].
  destruct r; [by apply substr_total|by eexists].
Qed.

Lemma get_array_first_returns : exists r, get_array_first json key = Done r.
Proof.
  destruct (find_key_total json key) as (r & E & Hr). unfold get_array_first. rewrite E. cbn [mbind outcome_bind].
  destruct r as [pos|]; [|by eexists]. pose proof (skip_ws_le json pos Hr) as Hw. set (q := skip_ws json pos) in *.
  destruct (looking_at json q lbracket) eqn:El; cbn [negb]; [|by eexists]. apply looking_at_lt in El.
  pose proof (skip_ws_le json (q + 1) ltac:(lia)) as Hw1.
  destruct (Nat.leb_spec (length json) (skip_ws json (q + 1))); [by eexists|].
  destruct (looking_at json _ dquote); apply substr_total; lia.
Qed.

Lemma get_str_array_returns : exists r, get_str_array json key = Done r.
Proof.
  destruct (find_key_total json key) as (r & E & Hr). unfold get_str_array. rewrite E. cbn [mbind outcome_bind].
  destruct r as [pos|]; [|by eexists]. pose proof (skip_ws_le json pos Hr) as Hw.
  destruct (looking_at json (skip_ws json pos) lbracket) eqn:El; cbn [negb]; [|by eexists]. apply looking_at_lt in El.
  apply str_elements_total; lia.
Qed.

Lemma get_array_element_returns index : exists r, get_array_element json key index = Done r.
Proof.
  destruct (find_key_total json key) as (r & E & Hr). unfold get_array_element. rewrite E. cbn [mbind outcome_bind].
  destruct r as [pos|]; [|by eexists]. pose proof (skip_ws_le json pos Hr) as Hw.
  destruct (looking_at json (skip_ws json pos) lbracket) eqn:El; cbn [negb]; [|by eexists]. apply looking_at_lt in El.
  apply array_element_total; lia.
Qed.

Lemma get_object_returns : exists r, get_object json key = Done r.
Proof.
  destruct (find_key_total json key) as (r & E & Hr). unfold get_object. rewrite E. cbn [mbind outcome_bind].
  destruct r as [pos|]; [|by eexists]. destruct (json !! pos); [|by eexists]. case_match; [|by eexists]. by apply substr_total.
Qed.
End returns.

(** C33: the accessors return on every text and every key, however malformed: no access or [substr]
    outside the text, no exception, and every loop ends. *)
Theorem json_accessors_total (json key : text) (index : Z) :
  (exists r, get_string json key = Done r) /\ (exists r, get_raw json key = Done r) /\
  (exists r, get_array_first json key = Done r) /\ (exists r, get_str_array json key = Done r) /\
  (exists r, get_array_element json key index = Done r) /\ (exists r, get_object json key = Done r).
Proof.
  split_and!; [apply get_string_returns|apply get_raw_returns|apply get_array_first_returns|apply get_str_array_returns
    |apply get_array_element_returns|apply get_object_returns].
Qed.

(** ** Reading back what was printed *)

(** What follows a member's value. *)
Definition closing (t : text) : Prop :=
  match t with c :: _ => c = comma \/ c = rbracket \/ c = rbrace | [] => False end.

Lemma closing_tail l c : c = rbracket \/ c = rbrace -> closing (concat (map (cons comma) l) ++ [c]).
Proof. intros Hc. destruct l; cbn; tauto. Qed.

Lemma closing_app t r : closing t -> closing (t ++ r).
Proof. by destruct t. Qed.

Lemma occurs_in_wf k v : forall o t, wf_json v = true -> occurs_in k v = Some (o, t) ->
  closing t /\ forall v', o = AsMember v' -> wf_json v' = true.
Proof.
  induction v as [s|s|l IH|l IH] using json_value_ind'; intros o t Hw Hf; [done..| |].
  - cbn [wf_json occurs_in] in *. revert Hf. generalize true at 1 as first. induction IH as [|x l Hx _ IHl]; intros first Hf; [done|]. cbn [forallb] in Hw.
    apply andb_true_iff in Hw as [Hw1 Hw2]. cbn [in_elements] in Hf. destruct (negb first && is_string k x).
    { injection Hf as <- <-. split; [apply closing_tail; by left|done]. }
    destruct (occurs_in k x) as [[o1 t1]|] eqn:E; [|by eapply IHl].
    injection Hf as <- <-. destruct (Hx o1 t1 Hw1 eq_refl) as [H1 H2]. split; [by apply closing_app|done].
  - cbn [wf_json occurs_in] in *. induction IH as [|x l Hx _ IHl]; [done|]. cbn [forallb] in Hw.
    apply andb_true_iff in Hw as [[_ Hw1]%andb_true_iff Hw2]. cbn [in_members] in Hf. case_bool_decide.
    + injection Hf as <- <-. split; [apply closing_tail; by right|]. by intros v' [= <-].
    + destruct (occurs_in k x.2) as [[o1 t1]|] eqn:E; [|by apply IHl].
      injection Hf as <- <-. destruct (Hx o1 t1 Hw1 eq_refl) as [H1 H2]. split; [by apply closing_app|done].
Qed.
Lemma member_wf k v v' t : wf_json v = true -> occurs_in k v = Some (AsMember v', t) -> wf_json v' = true /\ closing t.
Proof. intros Hw E. destruct (occurs_in_wf k v _ t Hw E). auto. Qed.

Lemma raw_char_not c : raw_char c = true ->
  is_ws c = false /\ is_blank c = false /\ in_raw c = true /\ in_token c = true /\ c <> dquote /\ c <> lbrace /\ c <> lbracket
  /\ c <> comma /\ c <> rbracket /\ c <> colon /\ c <> backslash /\ c <> rbrace.
Proof. unfold raw_char, plain_char, is_ws, is_blank, in_raw, in_token. intros H. split_and!; lia. Qed.

Lemma print_head v : wf_json v = true -> exists c s, print v = c :: s /\ is_ws c = false.
Proof.
  destruct v as [t|s|l|l]; cbn [wf_json print quoted app]; intros Hw; [|do 2 eexists; split; [reflexivity|done]..].
  apply andb_true_iff in Hw as [Hne Ht]. destruct t as [|c t]; [done|]. cbn in Ht. apply andb_true_iff in Ht as [Hc _].
  exists c, t. split; [done|]. by apply raw_char_not.
Qed.

Lemma skip_ws_stop s pos c r : drop pos s = c :: r -> is_ws c = false -> skip_ws s pos = pos.
Proof. intros E H. unfold skip_ws. rewrite E. cbn [span]. rewrite H. lia. Qed.

Lemma looking_at_drop s pos c r x : drop pos s = c :: r -> looking_at s pos x = (c =? x).
Proof.
  intros E. unfold looking_at. rewrite <- (Nat.add_0_r pos), <- lookup_drop, E. done.
Qed.

Lemma first_hit_spec search s : forall ok q, first_hit ok search s = Some q -> prefix_of search (drop q s) = true.
Proof.
  induction s as [|c s IH]; intros ok q; cbn [first_hit]; destruct (ok && _) eqn:E.
  - intros [= <-]. by apply andb_true_iff in E as [_ E].
  - done.
  - intros [= <-]. by apply andb_true_iff in E as [_ E].
  - destruct (first_hit _ search s) as [q'|] eqn:Eh; [|done]. intros [= <-]. by apply (IH _ _ Eh).
Qed.

Lemma no_quote_no_hit k r : forallb (fun c => negb (c =? dquote)) r = true -> forall ok, first_key ok (search_text k) r = None.
Proof.
  induction r as [|c r IH]; intros Hr ok.
  - unfold first_key. cbn. by rewrite andb_false_r.
  - cbn [forallb] in Hr. apply andb_true_iff in Hr as [Hc Hr]. rewrite first_key_char; [by apply IH|]. lia.
Qed.

(** The printed value: an object or an array, then what ends the line. *)
Record printed (k : text) (v : json_value) (rest : text) : Prop := {
  pr_key : plain k = true;
  pr_wf : wf_json v = true;
  pr_root : v <> JStr k;
  pr_sep : separated rest;
  pr_end : forallb (fun c => negb (c =? dquote)) rest = true;
}.

(** The name is not taken for a key, or for one of an array's strings only. *)
Definition absent (k : text) (v : json_value) : Prop := forall v' t, occurs_in k v <> Some (AsMember v', t).

Lemma find_key_print k v rest : printed k v rest ->
  match occurs_in k v with
  | Some (AsMember v', t) => exists pre, print v ++ rest = pre ++ [colon] ++ print v' ++ t ++ rest /\
      find_key (print v ++ rest) k = Done (Some (length pre + 1)%nat)
  | _ => find_key (print v ++ rest) k = Done None
  end.
Proof.
  intros [Hk Hw Hr Hs He]. pose proof (first_key_print k Hk v true rest Hw (or_intror Hr) Hs) as H.
  unfold find_key. rewrite find_key_from_scan by (done || lia).
  rewrite take_0, drop_0. cbn [mbind outcome_bind foldl].
  unfold first_key in H at 1. destruct (occurs_in k v) as [[o t]|] eqn:Ef; cbn [found] in H.
  2: { rewrite (no_quote_no_hit k rest He) in H. by destruct (first_hit _ _ _). }
  destruct (first_hit true (search_text k) (print v ++ rest)) as [q|] eqn:Eh; [|done].
  cbn [fmap option_fmap option_map] in H |- *. apply (inj Some) in H.
  pose proof (first_hit_spec _ _ _ _ Eh) as [r Er]%prefix_of_spec.
  set (json := print v ++ rest) in *. cbn [fmap option_fmap option_map Nat.add].
  destruct (occurs_in_wf k v o t Hw Ef) as [Ht Hw']. destruct o as [v'|]; cbn [at_occurrence] in H.
  - assert (json = (take q json ++ search_text k) ++ [colon] ++ print v' ++ t ++ rest) as Ej.
    { etransitivity; [symmetry; apply (take_drop q)|]. rewrite <- app_assoc. f_equal. rewrite Er. f_equal.
      rewrite <- app_assoc in H. etransitivity; [|exact H]. rewrite <- drop_drop, Er. symmetry. apply drop_app_length. }
    exists (take q json ++ search_text k). split; [exact Ej|].
    assert (q <= length json)%nat as Hq.
    { apply (f_equal length) in Er. rewrite length_drop, length_app in Er. unfold search_text in Er.
      rewrite !length_app in Er. cbn in Er. lia. }
    assert (length (take q json ++ search_text k) = q + length (search_text k))%nat as -> by (rewrite length_app, length_take; lia).
    rewrite <- app_assoc in H. cbn [app] in H.
    rewrite (skip_ws_stop _ _ _ _ H) by done. rewrite (looking_at_drop _ _ _ _ _ H). cbn [Z.eqb Pos.eqb negb].
    assert (drop (q + length (search_text k) + 1) json = print v' ++ t ++ rest) as E1 by (by rewrite <- drop_drop, H).
    destruct (print_head v' (Hw' v' eq_refl)) as (c & s & Ec & Hc).
    rewrite Ec in E1. rewrite (skip_ws_stop _ _ _ _ E1) by done. done.
  - destruct t as [|c t]; [done|]. cbn [app] in H.
    assert (is_ws c = false /\ (c =? colon) = false) as [H1 H2] by (destruct Ht as [->|[->| ->]]; by split).
    rewrite (skip_ws_stop _ _ _ _ H) by done. by rewrite (looking_at_drop _ _ _ _ _ H), H2.
Qed.

Lemma find_key_absent k v rest : printed k v rest -> absent k v -> find_key (print v ++ rest) k = Done None.
Proof. intros Hp Ha. pose proof (find_key_print k v rest Hp) as H. destruct (occurs_in k v) as [[[v'|] t]|] eqn:E; [by destruct (Ha v' t)|done..]. Qed.

(** ** Scalars *)

(** The text [unquote] recovers from an escaped character: control characters lose their backslash. *)
Definition read_char (c : Z) : text := match escape_char c with x :: r => if x =? backslash then r else [x] | [] => [] end.
Definition read_back (s : text) : text := concat (read_char <$> s).

Lemma unquote_escape s r : unquote (escape s ++ dquote :: r) = read_back s.
Proof.
  induction s as [|c s IH]; [done|]. assert (escape (c :: s) = escape_char c ++ escape s) as -> by done.
  assert (read_back (c :: s) = read_char c ++ read_back s) as -> by done. rewrite <- app_assoc, <- IH.
  generalize (escape s ++ dquote :: r). intros t. unfold read_char, escape_char.
  assert (forall n, 0 <= n -> (hex_digit n =? dquote) = false /\ (hex_digit n =? backslash) = false) as Hh.
  { intros n Hn. unfold hex_digit. case_match; split; lia. }
  repeat case_match; try done; try lia; cbn [app unquote].
  - destruct (Hh (Z.land (Z.shiftr c 4) 0xf)) as [-> ->]; [apply Z.land_nonneg; lia|].
    destruct (Hh (Z.land c 0xf)) as [-> ->]; [apply Z.land_nonneg; lia|]. done.
  - destruct (Z.eqb_spec c dquote); [lia|]. destruct (Z.eqb_spec c backslash); [lia|]. done.
Qed.

(** Text without control characters survives escaping and reading. *)
Lemma read_back_printable s : forallb (fun c => 32 <=? c) s = true -> read_back s = s.
Proof.
  induction s as [|c s IH]; intros Hs; [done|]. cbn [forallb] in Hs. apply andb_true_iff in Hs as [Hc Hs].
  assert (read_back (c :: s) = read_char c ++ read_back s) as -> by done. rewrite IH by done.
  unfold read_char, escape_char. destruct (Z.eqb_spec c backslash) as [->|H1]; [done|].
  destruct (Z.eqb_spec c dquote) as [->|H2]; [done|].
  replace (c =? newline) with false by lia. replace (c =? carriage) with false by lia.
  replace (c =? tab) with false by lia. replace (c <? 0x20) with false by lia.
  by destruct (Z.eqb_spec c backslash).
Qed.

Lemma drop_at_value pre c (s : text) : drop (length pre + 1) (pre ++ [c] ++ s) = s.
Proof. rewrite <- drop_drop, drop_app_length. done. Qed.

(** The raw token in front of [t]. *)
Lemma raw_span p tok t : forallb raw_char tok = true -> (forall c, raw_char c = true -> p c = true) ->
  match t with c :: _ => p c = false | [] => True end -> span p (tok ++ t) = length tok.
Proof.
  intros Ht Hp Hc. apply span_all; [|done]. rewrite forallb_forall in *. intros x Hx. by apply Hp, Ht.
Qed.

Lemma closing_stops (p : Z -> bool) t r : p comma = false -> p rbracket = false -> p rbrace = false -> closing t ->
  match t ++ r with c :: _ => p c = false | [] => True end.
Proof. intros H1 H2 H3 Hc. destruct t as [|c t]; [done|]. cbn. by destruct Hc as [->|[->| ->]]. Qed.

(** A token without blanks is not trimmed. *)
Lemma no_trim json start tok r : drop start json = tok ++ r -> forallb raw_char tok = true ->
  trim_blanks json start (start + length tok) = (start + length tok)%nat.
Proof.
  intros E Ht. unfold trim_blanks. destruct tok as [|c tok]; [cbn; lia|].
  destruct (exists_last (l := c :: tok)) as (tok' & d & Ed); [done|]. rewrite Ed in *.
  rewrite length_app in *. cbn [length] in *.
  assert (take (start + (length tok' + 1)) json = (take start json ++ tok') ++ [d]) as ->.
  { rewrite <- take_take_drop, E. rewrite take_app_length' by (rewrite length_app; cbn; lia). by rewrite app_assoc. }
  rewrite rev_app_distr. cbn [rev app span]. rewrite forallb_app in Ht. apply andb_true_iff in Ht as [_ Hd].
  cbn in Hd. rewrite andb_true_r in Hd. destruct (raw_char_not d Hd) as (_ & -> & _). lia.
Qed.

Lemma substr_value json start tok r : drop start json = tok ++ r -> (0 < length tok)%nat ->
  substr json start (length tok) = Done tok.
Proof.
  intros E Hl. unfold substr. destruct (Nat.ltb_spec (length json) start) as [H|H].
  - rewrite drop_ge in E by lia. apply (f_equal length) in E. rewrite length_app in E. cbn in E. lia.
  - rewrite E. by rewrite take_app_length.
Qed.

(** The accessors on the value found, each on its own. *)
Lemma get_string_found k v s t rest : printed k v rest -> occurs_in k v = Some (AsMember (JStr s), t) ->
  get_string (print v ++ rest) k = Done (read_back s).
Proof.
  intros Hp Ef. pose proof (find_key_print k v rest Hp) as H. rewrite Ef in H. destruct H as (pre & Ej & E).
  unfold get_string. rewrite E. cbn [mbind outcome_bind]. rewrite Ej.
  pose proof (drop_at_value pre colon (print (JStr s) ++ t ++ rest)) as Ed.
  set (json := pre ++ _) in *. clearbody json. cbn [print] in Ed. unfold quoted in Ed.
  rewrite <- !app_assoc in Ed. cbn [app] in Ed. rewrite (looking_at_drop _ _ _ _ _ Ed). cbn [Z.eqb Pos.eqb negb].
  rewrite <- (drop_drop _ 1), Ed. change (drop 1 (dquote :: ?x)) with x. by rewrite unquote_escape.
Qed.

Lemma get_raw_found k v tok t rest : printed k v rest -> occurs_in k v = Some (AsMember (JRaw tok), t) ->
  get_raw (print v ++ rest) k = Done tok.
Proof.
  intros Hp Ef. pose proof (find_key_print k v rest Hp) as H. rewrite Ef in H. destruct H as (pre & Ej & E).
  destruct (member_wf k v _ t (pr_wf _ _ _ Hp) Ef) as [Hw Ht]. unfold get_raw. rewrite E. cbn [mbind outcome_bind].
  assert (drop (length pre + 1) (print v ++ rest) = tok ++ t ++ rest) as Ed by (rewrite Ej; apply drop_at_value).
  set (pos := (length pre + 1)%nat) in *. set (json := print v ++ rest) in *. clearbody pos json.
  apply andb_true_iff in Hw as [Hne Htok].
  rewrite Ed, raw_span; [|done|intros x Hx; by apply raw_char_not|by apply closing_stops].
  rewrite (no_trim json pos tok (t ++ rest)) by done. replace (pos + length tok - pos)%nat with (length tok) by lia.
  apply (substr_value json pos tok (t ++ rest)); [done|]. destruct tok; [done|cbn; lia].
Qed.

Lemma get_missing k v rest : printed k v rest -> absent k v ->
  get_string (print v ++ rest) k = Done [] /\ get_raw (print v ++ rest) k = Done [] /\ get_object (print v ++ rest) k = Done [] /\
  get_str_array (print v ++ rest) k = Done [].
Proof.
  intros Hp Ha. unfold get_string, get_raw, get_object, get_str_array. by rewrite (find_key_absent k v rest Hp Ha).
Qed.

(** C34: what [get_string] and [get_raw] read from the compact text of any JSON value (no spaces, identifiers as
    names).  The first place where the name stands as a key, at any depth, decides.  If it is a member,
    [get_string] gives its string as [read_back] (the string itself when it has no control characters) and
    nothing for other values, and [get_raw] gives the token of a number, [true], [false] or [null].  If it is a
    string of an array behind a comma, or if there is no such place, every accessor gives nothing, even
    when a member of that name follows. *)
Theorem json_scalars_print (k : text) (v : json_value) (rest : text) : printed k v rest ->
  let json := print v ++ rest in
  match occurs_in k v with
  | Some (AsMember (JStr s), _) => get_string json k = Done (read_back s) /\
      (forallb (fun c => 32 <=? c) s = true -> get_string json k = Done s)
  | Some (AsMember (JRaw tok), _) => get_raw json k = Done tok /\ get_string json k = Done []
  | Some (AsMember _, _) => get_string json k = Done []
  | Some (AsElement, _) | None => get_string json k = Done [] /\ get_raw json k = Done [] /\ get_object json k = Done []
  end.
Proof.
  intros Hp. pose proof (find_key_print k v rest Hp) as H. pose proof (get_missing k v rest Hp) as Hm. cbv zeta.
  destruct (occurs_in k v) as [[[v'|] t]|] eqn:Ef; [|destruct Hm as (? & ? & ? & _); [intros ? ? E; congruence|done]..].
  assert (forall c r, print v' = c :: r -> c <> dquote -> get_string (print v ++ rest) k = Done []) as Hno.
  { intros c r Ep Hc. destruct H as (pre & Ej & Hkey). unfold get_string. rewrite Hkey. cbn [mbind outcome_bind].
    assert (drop (length pre + 1) (print v ++ rest) = c :: r ++ t ++ rest) as Ed by (rewrite Ej, drop_at_value, Ep; done).
    rewrite (looking_at_drop _ _ _ _ _ Ed). by destruct (Z.eqb_spec c dquote). }
  destruct (member_wf k v v' t (pr_wf _ _ _ Hp) Ef) as [Hw _]. destruct v' as [tok|s|l|l].
  - split; [by eapply get_raw_found|]. cbn [wf_json] in Hw. apply andb_true_iff in Hw as [Hne Htok].
    destruct tok as [|c r]; [done|]. apply (Hno c r); [done|]. cbn [forallb] in Htok. apply andb_true_iff in Htok as [Hc _].
    by intros ->.
  - rewrite (get_string_found k v s t rest Hp Ef). split; [done|]. intros Hs. by rewrite read_back_printable.
  - by eapply Hno.
  - by eapply Hno.
Qed.

(** A member that is read, and one that an array's string hides. *)
Lemma json_scalars_print_witness :
  let v := JObj [(lit "id", JRaw (lit "7")); (lit "pass", JStr [97; dquote; backslash])] in
  let hidden := JObj [(lit "a", JArr [JStr (lit "x"); JStr (lit "b")]); (lit "b", JRaw (lit "1"))] in
  get_string (print v ++ []) (lit "pass") = Done [97; dquote; backslash] /\ get_raw (print hidden ++ []) (lit "b") = Done [].
Proof.
  intros v hidden. split.
  - assert (printed (lit "pass") v []) as Hp by (constructor; [reflexivity|reflexivity|discriminate|exact I|reflexivity]).
    exact (proj2 (json_scalars_print (lit "pass") v [] Hp) eq_refl).
  - assert (printed (lit "b") hidden []) as Hp by (constructor; [reflexivity|reflexivity|discriminate|exact I|reflexivity]).
    exact (proj1 (proj2 (json_scalars_print (lit "b") hidden [] Hp))).
Defined.

(** ** Nested objects *)

Definition esc_after (esc : bool) (c : Z) : bool := (c =? backslash) && negb esc.

Lemma is_escaped_state s pos : (pos <= length s)%nat -> is_escaped s pos = foldl esc_after false (take pos s).
Proof.
  assert (forall pos, is_escaped s pos = Nat.odd (span (fun c => c =? backslash) (rev (take pos s)))) as E
    by (by intros []).
  induction pos as [|pos IH]; intros Hp; [done|]. destruct (lookup_lt_is_Some_2 s pos ltac:(lia)) as [c Hc].
  rewrite (take_S_r _ _ _ Hc), foldl_snoc, <- IH, !E, (take_S_r _ _ _ Hc), rev_app_distr by lia. cbn [rev app span].
  unfold esc_after. destruct (c =? backslash); [|done]. rewrite Nat.odd_succ. by rewrite <- Nat.negb_odd.
Qed.

Section brackets.
Context (op cl : Z) (Hb : (op = lbrace /\ cl = rbrace) \/ (op = lbracket /\ cl = rbracket)).

(** The matcher with the escape state carried along: the number of characters it consumes. *)
Fixpoint scan (s : text) (depth : Z) (in_string esc : bool) : nat :=
  match s with
  | [] => 0
  | c :: s =>
      if depth <=? 0 then 0
      else let esc' := esc_after esc c in
        S (if (c =? dquote) && negb esc then scan s depth (negb in_string) esc'
           else if in_string then scan s depth in_string esc'
           else if c =? op then scan s (depth + 1) in_string esc'
           else if c =? cl then scan s (depth - 1) in_string esc'
           else scan s depth in_string esc')
  end.

Lemma match_from_scan json s : forall p depth in_string, json = p ++ s ->
  match_from json op cl s (length p) depth in_string
    = (length p + scan s depth in_string (foldl esc_after false p))%nat.
Proof.
  induction s as [|c s IH]; intros p depth in_string E; cbn [match_from scan]; [lia|].
  destruct (depth <=? 0); [lia|].
  assert (is_escaped json (length p) = foldl esc_after false p) as ->.
  { rewrite is_escaped_state by (rewrite E, length_app; lia). by rewrite E, take_app_length. }
  assert (json = (p ++ [c]) ++ s) as E' by (by rewrite <- app_assoc).
  assert (forall d i, match_from json op cl s (S (length p)) d i
    = (length p + S (scan s d i (esc_after (foldl esc_after false p) c)))%nat) as H.
  { intros d i. specialize (IH (p ++ [c]) d i E'). rewrite length_app, foldl_app in IH. cbn [length foldl] in IH.
    replace (S (length p)) with (length p + 1)%nat by lia. rewrite IH. lia. }
  repeat case_match; apply H.
Qed.

Lemma scan_in_string s r d : 0 < d ->
  scan (escape s ++ dquote :: r) d true false = (length (escape s) + S (scan r d false false))%nat.
Proof.
  intros Hd. induction s as [|c s IH].
  - cbn. by replace (d <=? 0) with false by lia.
  - assert (escape (c :: s) = escape_char c ++ escape s) as -> by done. rewrite <- app_assoc, length_app.
    rewrite <- Nat.add_assoc, <- IH. generalize (escape s ++ dquote :: r). intros t.
    assert (forall n, 0 <= n -> (hex_digit n =? dquote) = false /\ (hex_digit n =? backslash) = false) as Hh.
    { intros n Hn. unfold hex_digit. case_match; split; lia. }
    unfold escape_char. repeat case_match; cbn [app scan length Nat.add]; replace (d <=? 0) with false by lia; try done.
    + destruct (Hh (Z.land (Z.shiftr c 4) 0xf)) as [E1 E2]; [apply Z.land_nonneg; lia|].
      destruct (Hh (Z.land c 0xf)) as [E3 E4]; [apply Z.land_nonneg; lia|].
      unfold esc_after. rewrite E1, E2, E3, E4. done.
    + unfold esc_after. replace (c =? dquote) with false by lia. replace (c =? backslash) with false by lia. done.
Qed.

Lemma scan_quoted s r d : 0 < d -> scan (quoted s ++ r) d false false = (length (quoted s) + scan r d false false)%nat.
Proof.
  intros Hd. unfold quoted. rewrite <- !app_assoc. cbn [app scan]. replace (d <=? 0) with false by lia. cbn [Z.eqb Pos.eqb andb negb].
  change (esc_after false dquote) with false. rewrite scan_in_string by done. cbn [length]. rewrite length_app. cbn [length]. lia.
Qed.

(** A character outside strings that is no quote, backslash or bracket of the kind matched. *)
Lemma scan_char c r d : 0 < d -> c <> dquote -> c <> backslash -> c <> op -> c <> cl ->
  scan (c :: r) d false false = S (scan r d false false).
Proof.
  intros Hd H1 H2 H3 H4. cbn [scan]. unfold esc_after. replace (d <=? 0) with false by lia.
  replace (c =? dquote) with false by lia. replace (c =? backslash) with false by lia.
  replace (c =? op) with false by lia. by replace (c =? cl) with false by lia.
Qed.

Lemma scan_open r d : 0 < d -> scan (op :: r) d false false = S (scan r (d + 1) false false).
Proof using Hb.
  intros Hd. cbn [scan]. replace (d <=? 0) with false by lia. rewrite Z.eqb_refl.
  destruct Hb as [[-> ->]|[-> ->]]; done.
Qed.

Lemma scan_close r d : 0 < d -> scan (cl :: r) d false false = S (scan r (d - 1) false false).
Proof using Hb.
  intros Hd. cbn [scan]. replace (d <=? 0) with false by lia. rewrite Z.eqb_refl.
  destruct Hb as [[-> ->]|[-> ->]]; done.
Qed.

Lemma scan_raw tok r d : 0 < d -> forallb raw_char tok = true ->
  scan (tok ++ r) d false false = (length tok + scan r d false false)%nat.
Proof using Hb.
  intros Hd. induction tok as [|c tok IH]; intros Ht; [done|]. cbn [forallb] in Ht. apply andb_true_iff in Ht as [Hc Ht].
  cbn [app length Nat.add]. rewrite <- IH by done.
  destruct (raw_char_not c Hc) as (_ & _ & _ & _ & H1 & H2 & H3 & _ & H4 & _ & H5 & H6).
  apply scan_char; [done..| |]; destruct Hb as [[-> ->]|[-> ->]]; done.
Qed.

(** The matcher passes over a whole value at any depth. *)
Definition passes (x : text) : Prop := forall r d, 0 < d -> scan (x ++ r) d false false = (length x + scan r d false false)%nat.

Lemma passes_app x y : passes x -> passes y -> passes (x ++ y).
Proof. intros Hx Hy r d Hd. rewrite <- app_assoc, Hx, Hy, length_app by done. lia. Qed.

Lemma passes_joined l : Forall passes l -> passes (joined l).
Proof using Hb.
  assert (passes [comma]) as Hc by (intros r d Hd; apply scan_char; [done..| |]; destruct Hb as [[-> ->]|[-> ->]]; done).
  destruct 1 as [|x l Hx Hl]; [by intros r d Hd|]. cbn [joined]. apply passes_app; [done|].
  induction Hl as [|y l Hy _ IH]; [by intros r d Hd|]. cbn [map concat].
  change (passes ([comma] ++ y ++ concat (map (cons comma) l))). by apply passes_app; [|apply passes_app].
Qed.

Lemma passes_wrapped o c x : (o = lbrace /\ c = rbrace) \/ (o = lbracket /\ c = rbracket) -> passes x ->
  passes ([o] ++ x ++ [c]).
Proof using Hb.
  intros Ho Hx r d Hd. rewrite <- !app_assoc. cbn [app length]. destruct (decide (o = op)) as [->|Hne].
  - assert (c = cl) as -> by (destruct Hb as [[-> ->]|[-> ->]], Ho as [[? ?]|[? ?]]; congruence).
    rewrite scan_open, Hx by lia. cbn [app]. rewrite scan_close by lia.
    replace (d + 1 - 1) with d by lia. rewrite length_app. cbn [length]. lia.
  - assert (c <> cl /\ c <> op /\ o <> cl /\ o <> dquote /\ o <> backslash /\ c <> dquote /\ c <> backslash) as (?&?&?&?&?&?&?)
      by (destruct Hb as [[-> ->]|[-> ->]], Ho as [[-> ->]|[-> ->]]; done).
    rewrite scan_char, Hx by done. cbn [app]. rewrite scan_char by done. rewrite length_app. cbn [length]. lia.
Qed.

Definition body (v : json_value) : text :=
  match v with
  | JArr l => joined (map print l)
  | JObj l => joined (map member l)
  | _ => []
  end.

Lemma passes_print v : wf_json v = true -> passes (print v) /\ passes (body v).
Proof using Hb.
  assert (passes [colon]) as Hcolon by (intros r d Hd; apply scan_char; [done..| |]; destruct Hb as [[-> ->]|[-> ->]]; done).
  assert (passes []) as Hnil by (by intros r d Hd).
  induction v as [t|s|l IH|l IH] using json_value_ind'; cbn [wf_json]; intros Hw.
  - split; [|done]. apply andb_true_iff in Hw as [_ Hw]. intros r d Hd. by apply scan_raw.
  - split; [|done]. intros r d Hd. by apply scan_quoted.
  - assert (passes (body (JArr l))) as Hbody.
    { apply passes_joined. induction IH as [|x l Hx _ IHl]; [constructor|]. cbn [forallb map] in *.
      apply andb_true_iff in Hw as [Hw1 Hw2]. constructor; [by apply Hx|by apply IHl]. }
    split; [|done]. apply passes_wrapped; [by right|exact Hbody].
  - assert (passes (body (JObj l))) as Hbody.
    { apply passes_joined. induction IH as [|x l Hx _ IHl]; [constructor|]. cbn [forallb map] in *.
      apply andb_true_iff in Hw as [[_ Hw1]%andb_true_iff Hw2]. constructor; [|by apply IHl].
      unfold member. apply passes_app; [intros r d Hd; by apply scan_quoted|]. apply passes_app; [done|by apply Hx]. }
    split; [|done]. apply passes_wrapped; [by left|exact Hbody].
Qed.
End brackets.

Definition container (v : json_value) : bool := match v with JArr _ | JObj _ => true | _ => false end.

Lemma print_container v : container v = true ->
  exists op cl, ((op = lbrace /\ cl = rbrace) \/ (op = lbracket /\ cl = rbracket)) /\ print v = op :: body v ++ [cl].
Proof.
  destruct v as [t|s|l|l]; intros Hc; try done.
  - exists lbracket, rbracket. split; [by right|done].
  - exists lbrace, rbrace. split; [by left|done].
Qed.

Lemma get_object_found k v v' t rest : printed k v rest -> occurs_in k v = Some (AsMember v', t) -> container v' = true ->
  get_object (print v ++ rest) k = Done (print v').
Proof.
  intros Hp Ef Hc. pose proof (find_key_print k v rest Hp) as H. rewrite Ef in H. destruct H as (pre & Ej & E).
  destruct (member_wf k v v' t (pr_wf _ _ _ Hp) Ef) as [Hw Ht].
  destruct (print_container v' Hc) as (op & cl & Hb & Ev). unfold get_object. rewrite E. cbn [mbind outcome_bind].
  rewrite Ej. set (json := pre ++ [colon] ++ print v' ++ t ++ rest).
  assert (drop (length pre + 1) json = print v' ++ t ++ rest) as Ed by apply drop_at_value.
  assert (json !! (length pre + 1)%nat = Some op) as ->
    by (by rewrite <- (Nat.add_0_r (length pre + 1)), <- lookup_drop, Ed, Ev).
  assert ((op =? lbrace) || (op =? lbracket) = true /\ (if op =? lbrace then rbrace else rbracket) = cl) as [-> ->]
    by (by destruct Hb as [[-> ->]|[-> ->]]).
  set (p := pre ++ [colon; op]). assert (length p = length pre + 1 + 1)%nat as Lp by (unfold p; rewrite length_app; cbn; lia).
  assert (json = p ++ body v' ++ [cl] ++ t ++ rest) as Ejson.
  { unfold json, p. rewrite Ev, <- !app_assoc. cbn [app]. by rewrite <- app_assoc. }
  assert (drop (length pre + 1 + 1) json = body v' ++ [cl] ++ t ++ rest) as -> by (by rewrite <- Lp, Ejson, drop_app_length).
  rewrite <- Lp, (match_from_scan op cl json (body v' ++ [cl] ++ t ++ rest) p 1 false Ejson).
  assert (foldl esc_after false p = false) as ->.
  { unfold p. rewrite foldl_app. cbn [foldl]. destruct Hb as [[-> _]|[-> _]]; done. }
  rewrite (proj2 (passes_print op cl Hb v' Hw)) by lia. cbn [app]. rewrite scan_close by (done || lia).
  assert (forall r, scan op cl r (1 - 1) false false = 0%nat) as -> by (by intros []).
  assert (length (print v') = S (length (body v') + 1)) as L by (rewrite Ev; cbn; rewrite length_app; done).
  replace (length p + (length (body v') + 1) - (length pre + 1))%nat with (length (print v')) by lia.
  apply (substr_value json _ (print v') (t ++ rest)); [done|lia].
Qed.

(** A member that is neither an object nor an array is none to [get_object]. *)
Lemma get_object_scalar k v v' t rest : printed k v rest -> occurs_in k v = Some (AsMember v', t) -> container v' = false ->
  get_object (print v ++ rest) k = Done [].
Proof.
  intros Hp Ef Hc. pose proof (find_key_print k v rest Hp) as H. rewrite Ef in H. destruct H as (pre & Ej & E).
  destruct (member_wf k v v' t (pr_wf _ _ _ Hp) Ef) as [Hw _]. unfold get_object. rewrite E. cbn [mbind outcome_bind].
  assert (exists c r, print v' = c :: r /\ (c =? lbrace) || (c =? lbracket) = false) as (c & r & Ec & Hc').
  { destruct v' as [tok|s| |]; [|by exists dquote, (escape s ++ [dquote])|done..].
    cbn [wf_json raw_ok] in Hw. apply andb_true_iff in Hw as [_ Htok]. cbn [print].
    destruct tok as [|c r]; [by destruct (member_wf k v _ t (pr_wf _ _ _ Hp) Ef)|]. exists c, r. split; [done|].
    cbn [forallb] in Htok. apply andb_true_iff in Htok as [Hr _]. apply raw_char_not in Hr. lia. }
  assert ((print v ++ rest) !! (length pre + 1)%nat = Some c) as ->.
  { rewrite <- (Nat.add_0_r (length pre + 1)), <- lookup_drop, Ej, drop_at_value, Ec. done. }
  by rewrite Hc'.
Qed.

(** The text of a member, behind its name. *)
Lemma member_text k v v' t rest : printed k v rest -> occurs_in k v = Some (AsMember v', t) ->
  exists pre, print v ++ rest = pre ++ search_text k ++ [colon] ++ print v' ++ t ++ rest.
Proof.
  intros [Hk Hw Hr Hs He] Ef. pose proof (first_key_print k Hk v true rest Hw (or_intror Hr) Hs) as H.
  rewrite Ef in H. cbn [found at_occurrence] in H. unfold first_key in H. destruct (first_hit _ _ _) as [q|] eqn:Eh; [|done].
  apply first_hit_spec, prefix_of_spec in Eh as [r Er]. exists (take q (print v ++ rest)).
  etransitivity; [symmetry; apply (take_drop q)|]. f_equal. rewrite Er. f_equal.
  cbn [fmap option_fmap option_map] in H. apply (inj Some) in H. rewrite <- drop_drop, Er, drop_app_length in H.
  rewrite H. by rewrite <- !app_assoc.
Qed.

(** [get_object] finds the end of a nested object or array: whatever its members hold (quotes,
    escapes and brackets inside strings, deeper objects), it returns exactly the text of the value, so
    that the members of the nested object can be read from the result. *)
Theorem json_object_print (k : text) (v v' : json_value) (t rest : text) :
  printed k v rest -> occurs_in k v = Some (AsMember v', t) -> container v' = true ->
  get_object (print v ++ rest) k = Done (print v') /\
  forall k' s t', plain k' = true -> occurs_in k' v' = Some (AsMember (JStr s), t') ->
    (obj ← get_object (print v ++ rest) k; get_string obj k') = Done (read_back s).
Proof.
  intros Hp Ef Hc. rewrite (get_object_found k v v' t rest Hp Ef Hc). split; [done|]. intros k' s t' Hk' Es.
  cbn [mbind outcome_bind]. rewrite <- (app_nil_r (print v')). apply (get_string_found k' v' s t'); [|done].
  constructor; try done; [by eapply member_wf; [apply Hp|]|by intros ->].
Qed.

Lemma json_object_print_witness :
  let job := JObj [(lit "blob", JStr [rbrace; dquote; lbrace]); (lit "job_id", JStr (lit "7"))] in
  let v := JObj [(lit "id", JRaw (lit "1")); (lit "result", JObj [(lit "job", job); (lit "status", JStr (lit "OK"))])] in
  (obj ← get_object (print v ++ []) (lit "job"); get_string obj (lit "blob")) = Done [rbrace; dquote; lbrace].
Proof.
  intros job v. assert (printed (lit "job") v []) as Hp by (constructor; [reflexivity|reflexivity|discriminate|exact I|reflexivity]).
  exact (proj2 (json_object_print (lit "job") v job _ [] Hp eq_refl eq_refl) (lit "blob") _ _ eq_refl eq_refl).
Defined.

(** ** Arrays of scalars *)

Definition scalar (v : json_value) : bool := negb (container v).
(** What the element accessors return for a scalar. *)
Definition element_text (v : json_value) : text := match v with JRaw t => t | JStr s => read_back s | _ => [] end.
Definition string_of (v : json_value) : option text := match v with JStr s => Some (read_back s) | _ => None end.

Lemma quoted_span_escape s r : quoted_span (escape s ++ dquote :: r) = length (escape s).
Proof.
  induction s as [|c s IH]; [done|]. assert (escape (c :: s) = escape_char c ++ escape s) as -> by done.
  rewrite <- app_assoc, length_app, <- IH. generalize (escape s ++ dquote :: r). intros t.
  assert (forall n, 0 <= n -> (hex_digit n =? dquote) = false /\ (hex_digit n =? backslash) = false) as Hh.
  { intros n Hn. unfold hex_digit. case_match; split; lia. }
  unfold escape_char. repeat case_match; cbn [app quoted_span length Nat.add]; try done.
  - destruct (Hh (Z.land (Z.shiftr c 4) 0xf)) as [E1 E2]; [apply Z.land_nonneg; lia|].
    destruct (Hh (Z.land c 0xf)) as [E3 E4]; [apply Z.land_nonneg; lia|]. by rewrite E1, E2, E3, E4.
  - replace (c =? dquote) with false by lia. by replace (c =? backslash) with false by lia.
Qed.

(** A scalar at [pos], followed by [r]. *)
Section element.
Context (json : text) (pos : nat) (r : text) (Hr : match r with c :: _ => c = comma \/ c = rbracket | [] => False end).

Lemma at_string s : drop pos json = quoted s ++ r ->
  (pos < length json)%nat /\ skip_ws json pos = pos /\ looking_at json pos rbracket = false /\
  looking_at json pos comma = false /\ looking_at json pos dquote = true /\
  drop (pos + 1) json = escape s ++ dquote :: r /\
  skip_string json pos = Some (pos + length (quoted s))%nat /\
  past_quote json (pos + 1 + quoted_span (drop (pos + 1) json)) = (pos + length (quoted s))%nat.
Proof using Hr.
  intros E. assert (drop pos json = dquote :: escape s ++ dquote :: r) as E'
    by (rewrite E; unfold quoted; by rewrite <- !app_assoc).
  assert (drop (pos + 1) json = escape s ++ dquote :: r) as E1 by (by rewrite <- drop_drop, E').
  assert (length json = pos + length (quoted s) + length r)%nat as Hl.
  { apply (f_equal length) in E. rewrite length_drop, length_app in E. destruct r; [done|]. cbn in *. lia. }
  assert (length (quoted s) = length (escape s) + 2)%nat as Hq by (unfold quoted; rewrite !length_app; cbn; lia).
  assert (0 < length r)%nat as Hr0 by (destruct r; [done|cbn; lia]).
  split_and!; [lia|by eapply skip_ws_stop|by rewrite (looking_at_drop _ _ _ _ _ E')..|done| |].
  - unfold skip_string. rewrite (looking_at_drop _ _ _ _ _ E'). cbn [Z.eqb Pos.eqb negb]. rewrite E1, quoted_span_escape.
    destruct (Nat.leb_spec (length json) (pos + 1 + length (escape s))); [lia|]. f_equal. lia.
  - unfold past_quote. rewrite E1, quoted_span_escape.
    destruct (Nat.ltb_spec (pos + 1 + length (escape s)) (length json)); lia.
Qed.

Lemma at_raw tok : raw_ok tok = true -> drop pos json = tok ++ r ->
  (pos < length json)%nat /\ skip_ws json pos = pos /\ looking_at json pos rbracket = false /\
  looking_at json pos comma = false /\ looking_at json pos dquote = false /\
  span in_token (drop pos json) = length tok /\ raw_token json pos = Done tok.
Proof using Hr.
  intros [Hne Ht]%andb_true_iff E. assert (span in_token (drop pos json) = length tok) as Hs.
  { rewrite E. apply raw_span; [done|intros c Hc; by apply raw_char_not|]. destruct r; [done|]. by destruct Hr as [->| ->]. }
  destruct tok as [|c tok]; [done|]. cbn [forallb] in Ht. pose proof Ht as [Hc _]%andb_true_iff.
  destruct (raw_char_not c Hc) as (Hw & _ & _ & _ & H1 & _ & _ & H2 & H3 & _).
  assert (looking_at json pos rbracket = false /\ looking_at json pos comma = false /\ looking_at json pos dquote = false) as (?&?&?).
  { rewrite !(looking_at_drop _ _ _ _ _ E). split_and!; by apply Z.eqb_neq. }
  split_and!; try done.
  - apply (f_equal length) in E. rewrite length_drop, length_app in E. cbn in E. lia.
  - by eapply skip_ws_stop.
  - unfold raw_token. rewrite Hs, (no_trim json pos (c :: tok) r) by done.
    replace (pos + length (c :: tok) - pos)%nat with (length (c :: tok)) by lia.
    apply (substr_value json pos (c :: tok) r); [done|cbn; lia].
Qed.
End element.

Definition tail_text (l : list json_value) (t : text) : text := concat (map (cons comma) (map print l)) ++ rbracket :: t.

Lemma joined_cons x l t : joined (map print (x :: l)) ++ rbracket :: t = print x ++ tail_text l t.
Proof. unfold tail_text. cbn [map joined]. by rewrite <- app_assoc. Qed.

Lemma tail_text_head l t : match tail_text l t with c :: _ => c = comma \/ c = rbracket | [] => False end.
Proof. destruct l; cbn; tauto. Qed.

Section elements.
Context (json t : text).

(** At the end of an element: the array ends, or a comma leads to the next element. *)
Lemma at_tail l pos : drop pos json = tail_text l t ->
  match l with
  | [] => looking_at json pos rbracket = true
  | _ => (pos < length json)%nat /\ skip_ws json pos = pos /\ looking_at json pos rbracket = false /\
      looking_at json pos comma = true /\ drop (pos + 1) json = joined (map print l) ++ rbracket :: t
  end.
Proof.
  intros E. destruct l as [|y l].
  - by rewrite (looking_at_drop json pos _ _ _ E).
  - rewrite joined_cons. assert (drop pos json = comma :: print y ++ tail_text l t) as E'.
    { rewrite E. unfold tail_text. cbn [map concat app]. by rewrite <- app_assoc. }
    assert (drop (pos + 1) json = print y ++ tail_text l t) as E1 by (by rewrite <- drop_drop, E').
    split_and!; [|by eapply skip_ws_stop|by rewrite (looking_at_drop _ _ _ _ _ E')..|done].
    apply (f_equal length) in E'. rewrite length_drop in E'. cbn in E'. lia.
Qed.

Lemma array_element_nth index l : forallb (fun x => scalar x && wf_json x) l = true ->
  forall fuel pos cur, drop pos json = joined (map print l) ++ rbracket :: t -> (length json - pos < fuel)%nat ->
  0 <= cur <= index -> cur + Z.of_nat (length l) < 2 ^ 32 ->
  array_element fuel json pos cur index = Done (default [] (element_text <$> l !! Z.to_nat (index - cur))).
Proof.
  induction l as [|x l IH]; intros Hl fuel pos cur E Hf Hi Hn; (destruct fuel as [|fuel]; [lia|]).
  - cbn [array_element]. rewrite (looking_at_drop json pos _ _ rbracket E). cbn [Z.eqb Pos.eqb]. by rewrite orb_true_r.
  - cbn [forallb] in Hl. apply andb_true_iff in Hl as [[Hs Hw]%andb_true_iff Hl]. rewrite joined_cons in E.
    pose proof (tail_text_head l t) as Hr.
    assert (0 < length (print x))%nat as Hx0 by (destruct (print_head x Hw) as (c & s & -> & _); cbn; lia).
    assert (drop (pos + length (print x)) json = tail_text l t) as Et by (by rewrite <- drop_drop, E, drop_app_length).
    assert (array_element (S fuel) json pos cur index =
      if cur =? index then Done (element_text x) else array_element fuel json (pos + length (print x)) (wrap 32 (cur + 1)) index) as ->.
    { destruct x as [tok|s|l'|l']; try done; cbn [print wf_json element_text] in *; cbn [array_element].
      - destruct (at_raw json pos _ Hr tok Hw E) as (H1 & -> & H3 & -> & -> & -> & ->). rewrite H3.
        destruct (Nat.leb_spec (length json) pos); [lia|]. done.
      - destruct (at_string json pos _ Hr s E) as (H1 & -> & H3 & -> & -> & -> & -> & _). rewrite H3.
        destruct (Nat.leb_spec (length json) pos); [lia|]. cbn [orb]. by rewrite unquote_escape. }
    destruct (Z.eqb_spec cur index) as [->|Hne]; [by rewrite Z.sub_diag|]. cbn [length] in Hn.
    rewrite wrap_small by (split; lia). pose proof (at_tail l _ Et) as Ht.
    replace (Z.to_nat (index - cur)) with (S (Z.to_nat (index - (cur + 1)))) by lia.
    apply (f_equal length) in E. rewrite length_drop, length_app in E.
    assert (0 < length (tail_text l t))%nat as Ht0 by (destruct (tail_text l t); [done|cbn; lia]).
    destruct l as [|y l].
    + destruct fuel as [|fuel]; [lia|]. cbn [array_element]. rewrite Ht. by rewrite orb_true_r.
    + destruct Ht as (H1 & H2 & H3 & H4 & H5). destruct fuel as [|fuel]; [lia|].
      cbn [array_element]. rewrite H2, H3, H4. destruct (Nat.leb_spec (length json) (pos + length (print x))); [lia|].
      cbn [orb]. change ((x :: y :: l) !! S (Z.to_nat (index - (cur + 1)))) with ((y :: l) !! Z.to_nat (index - (cur + 1))).
      apply IH; [done|done|lia|lia|lia].
Qed.

Lemma str_elements_all l : forallb (fun x => scalar x && wf_json x) l = true ->
  forall fuel pos result, drop pos json = joined (map print l) ++ rbracket :: t -> (length json - pos < fuel)%nat ->
  str_elements fuel json pos result = Done (result ++ omap string_of l).
Proof.
  induction l as [|x l IH]; intros Hl fuel pos result E Hf; (destruct fuel as [|fuel]; [lia|]).
  - cbn [str_elements omap list_omap]. rewrite (looking_at_drop json pos _ _ rbracket E). cbn [Z.eqb Pos.eqb].
    by rewrite orb_true_r, app_nil_r.
  - cbn [forallb] in Hl. apply andb_true_iff in Hl as [[Hs Hw]%andb_true_iff Hl]. rewrite joined_cons in E.
    pose proof (tail_text_head l t) as Hr.
    assert (0 < length (print x))%nat as Hx0 by (destruct (print_head x Hw) as (c & s & -> & _); cbn; lia).
    assert (drop (pos + length (print x)) json = tail_text l t) as Et by (by rewrite <- drop_drop, E, drop_app_length).
    set (result' := result ++ omap string_of [x]).
    assert (str_elements (S fuel) json pos result = str_elements fuel json (pos + length (print x)) result') as ->.
    { unfold result'. destruct x as [tok|s|l'|l']; try done; cbn [print wf_json] in *; cbn [str_elements omap list_omap string_of].
      - destruct (at_raw json pos _ Hr tok Hw E) as (H1 & -> & H3 & -> & -> & -> & _). rewrite H3.
        destruct (Nat.leb_spec (length json) pos); [lia|]. by rewrite app_nil_r.
      - destruct (at_string json pos _ Hr s E) as (H1 & -> & H3 & -> & -> & Ed & _ & ->). rewrite H3, Ed.
        destruct (Nat.leb_spec (length json) pos); [lia|]. cbn [orb]. by rewrite unquote_escape. }
    replace (result ++ omap string_of (x :: l)) with (result' ++ omap string_of l)
      by (unfold result'; rewrite <- app_assoc; by destruct x).
    pose proof (at_tail l _ Et) as Ht. apply (f_equal length) in E. rewrite length_drop, length_app in E.
    assert (0 < length (tail_text l t))%nat as Ht0 by (destruct (tail_text l t); [done|cbn; lia]).
    destruct l as [|y l].
    + destruct fuel as [|fuel]; [lia|]. cbn [str_elements omap list_omap]. rewrite Ht. by rewrite orb_true_r, app_nil_r.
    + destruct Ht as (H1 & H2 & H3 & H4 & H5). destruct fuel as [|fuel]; [lia|].
      cbn [str_elements]. rewrite H2, H3, H4. destruct (Nat.leb_spec (length json) (pos + length (print x))); [lia|].
      cbn [orb]. apply IH; [done|done|lia].
Qed.
End elements.

Lemma scalars_ok l : forallb scalar l = true -> forallb wf_json l = true -> forallb (fun x => scalar x && wf_json x) l = true.
Proof. rewrite !forallb_forall. intros Hs Hw x Hx. by rewrite Hs, Hw. Qed.

(** The array a key leads to. *)
Lemma find_array k v l t rest : printed k v rest -> occurs_in k v = Some (AsMember (JArr l), t) ->
  exists pos, find_key (print v ++ rest) k = Done (Some pos) /\ forallb wf_json l = true /\
    skip_ws (print v ++ rest) pos = pos /\ looking_at (print v ++ rest) pos lbracket = true /\
    drop (pos + 1) (print v ++ rest) = joined (map print l) ++ rbracket :: t ++ rest.
Proof.
  intros Hp Ef. pose proof (find_key_print k v rest Hp) as H. rewrite Ef in H. destruct H as (pre & Ej & E).
  destruct (member_wf k v _ t (pr_wf _ _ _ Hp) Ef) as [Hw Ht]. cbn [wf_json] in Hw. exists (length pre + 1)%nat.
  assert (drop (length pre + 1) (print v ++ rest) = lbracket :: joined (map print l) ++ rbracket :: t ++ rest) as Ed.
  { rewrite Ej, drop_at_value. cbn [print app]. by rewrite <- app_assoc. }
  split_and!; [done|done|by eapply skip_ws_stop|by rewrite (looking_at_drop _ _ _ _ _ Ed)|].
  by rewrite <- drop_drop, Ed.
Qed.

Lemma get_array_element_found k v l t rest index : printed k v rest -> occurs_in k v = Some (AsMember (JArr l), t) ->
  forallb scalar l = true -> Z.of_nat (length l) < 2 ^ 32 -> 0 <= index < 2 ^ 32 ->
  get_array_element (print v ++ rest) k index = Done (default [] (element_text <$> l !! Z.to_nat index)).
Proof.
  intros Hp Ef Hs Hn Hi. destruct (find_array k v l t rest Hp Ef) as (pos & E & Hw & Ews & El & Ed).
  unfold get_array_element. rewrite E. cbn [mbind outcome_bind]. rewrite Ews, El. cbn [negb].
  rewrite (array_element_nth _ (t ++ rest) index l (scalars_ok l Hs Hw)) by (done || lia). by rewrite Z.sub_0_r.
Qed.

Lemma get_str_array_found k v l t rest : printed k v rest -> occurs_in k v = Some (AsMember (JArr l), t) -> forallb scalar l = true ->
  get_str_array (print v ++ rest) k = Done (omap string_of l).
Proof.
  intros Hp Ef Hs. destruct (find_array k v l t rest Hp Ef) as (pos & E & Hw & Ews & El & Ed).
  unfold get_str_array. rewrite E. cbn [mbind outcome_bind]. rewrite Ews, El. cbn [negb].
  by rewrite (str_elements_all _ (t ++ rest) l (scalars_ok l Hs Hw)) by (done || lia).
Qed.

(** Arrays of strings and raw tokens read back from printed text: [get_array_element] gives the
    element at the index (nothing past the end), [get_str_array] all the strings in order, and
    [get_array_first] the first element, a string with its escapes left in. *)
Theorem json_arrays_print (k : text) (v : json_value) (l : list json_value) (t rest : text) (index : Z) :
  printed k v rest -> occurs_in k v = Some (AsMember (JArr l), t) -> forallb scalar l = true ->
  Z.of_nat (length l) < 2 ^ 32 -> 0 <= index < 2 ^ 32 ->
  get_array_element (print v ++ rest) k index = Done (default [] (element_text <$> l !! Z.to_nat index)) /\
  get_str_array (print v ++ rest) k = Done (omap string_of l) /\
  get_array_first (print v ++ rest) k =
    Done (match l with JStr s :: _ => escape s | JRaw tok :: _ => tok | _ => [] end).
Proof.
  intros Hp Ef Hs Hn Hi. split; [by eapply get_array_element_found|]. split; [by eapply get_str_array_found|].
  destruct (find_array k v l t rest Hp Ef) as (pos & E & Hw & Ews & El & E1). pose proof (scalars_ok l Hs Hw) as Hl.
  unfold get_array_first. rewrite E. cbn [mbind outcome_bind]. rewrite Ews, El. cbn [negb].
  set (json := print v ++ rest) in *. clearbody json. clear E.
  destruct l as [|x l].
  - cbn [map joined app] in E1. rewrite (skip_ws_stop _ _ _ _ E1), (looking_at_drop _ _ _ _ _ E1) by done. cbn [Z.eqb Pos.eqb].
    case_match; [done|]. unfold raw_token. rewrite E1. cbn [span in_token Z.eqb Pos.eqb orb negb].
    assert (trim_blanks json (pos + 1) (pos + 1 + 0) = pos + 1)%nat as -> by (unfold trim_blanks; lia).
    rewrite Nat.sub_diag. unfold substr. destruct (Nat.ltb_spec (length json) (pos + 1)); [|done].
    rewrite drop_ge in E1 by lia. done.
  - rewrite joined_cons in E1. cbn [forallb] in Hl, Hs. apply andb_true_iff in Hl as [[Hsx Hwx]%andb_true_iff _].
    pose proof (tail_text_head l (t ++ rest)) as Hr. destruct x as [tok|s|l'|l']; try done; cbn [print wf_json] in *.
    + destruct (at_raw json _ _ Hr tok Hwx E1) as (H1 & -> & H3 & H4 & -> & H6 & ->).
        by destruct (Nat.leb_spec (length json) (pos + 1)); [lia|].
    + destruct (at_string json _ _ Hr s E1) as (H1 & -> & H3 & H4 & -> & H5 & _).
        destruct (Nat.leb_spec (length json) (pos + 1)); [lia|]. rewrite H5, quoted_span_escape.
        unfold substr. destruct (Nat.ltb_spec (length json) (pos + 1 + 1)); [lia|]. by rewrite H5, take_app_length.
Qed.

Lemma json_arrays_print_witness :
  let l := [JStr (lit "job 1"); JRaw (lit "true"); JStr [dquote]] in
  let v := JObj [(lit "method", JStr (lit "mining.notify")); (lit "params", JArr l)] in
  get_array_element (print v ++ []) (lit "params") 2 = Done [dquote].
Proof.
  intros l v. assert (printed (lit "params") v []) as Hp by (constructor; [reflexivity|reflexivity|discriminate|exact I|reflexivity]).
  exact (proj1 (json_arrays_print (lit "params") v l _ [] 2 Hp eq_refl eq_refl ltac:(cbn; lia) ltac:(lia))).
Defined.
