(* ===== verification/Hex.v ===== *)
(** * Hexadecimal text, nonces and targets

    The static helpers of [StratumClient] in src/src/stratum_client.cpp ([hex_to_bytes],
    [bytes_to_hex], [nonce_to_hex], [is_valid_hex], [valid_job_hex], [difficulty_to_target]) and
    [difficulty_to_target] and [hash_to_hex] of src/src/miner_app.cpp. *)

From S2P Require Import Prelude Text Float.

(** ** Hexadecimal *)

Definition from_hex (c : Z) : Z :=
  if (48 <=? c) && (c <=? 57) then c - 48
  else if (97 <=? c) && (c <=? 102) then c - 97 + 10
  else if (65 <=? c) && (c <=? 70) then c - 65 + 10
  else 0.

(** An odd last digit is dropped. *)
Fixpoint hex_to_bytes (hex : text) : list Z :=
  match hex with
  | hi :: lo :: hex => Z.lor (Z.shiftl (from_hex hi) 4) (from_hex lo) :: hex_to_bytes hex
  | _ => []
  end.

(** The table [h]. *)
Definition h : text := lit "0123456789abcdef".
Definition byte_hex (v : Z) : text := [h !!! Z.to_nat (Z.shiftr v 4); h !!! Z.to_nat (Z.land v 0xf)].
Definition bytes_to_hex (bytes : list Z) : text := concat (byte_hex <$> bytes).

(** Shifting a 64-bit value by 64 or more is undefined. *)
Definition nonce_digits (nonce : Z) (result : text) (i : Z) : outcome text :=
  if 64 <=? i * 8 then UB else Done (result ++ byte_hex (wrap 8 (Z.shiftr nonce (i * 8)))).
Definition nonce_to_hex (nonce bytes : Z) : outcome text := ofoldl (nonce_digits nonce) [] (seqZ 0 bytes).

Definition is_hex (c : Z) : bool :=
  ((48 <=? c) && (c <=? 57)) || ((97 <=? c) && (c <=? 102)) || ((65 <=? c) && (c <=? 70)).
Definition is_valid_hex (s : text) : bool := (Z.of_nat (length s) mod 2 =? 0) && forallb is_hex s.

Definition kMinMoneroBlobBytes : Z := 76.
Definition kSeedHashBytes : Z := 32.
Definition valid_job_hex (blob_hex seed_hex : text) : bool :=
  if Z.of_nat (length blob_hex) <? 2 * kMinMoneroBlobBytes then false
  else if negb (is_valid_hex blob_hex) then false
  else if negb (bool_decide (seed_hex = [])) && negb (Z.of_nat (length seed_hex) =? 2 * kSeedHashBytes) then false
  else if negb (bool_decide (seed_hex = [])) && negb (is_valid_hex seed_hex) then false
  else true.

(** ** Targets *)

(** One turn of the long division: the bytes from [i] on, the remainder. *)
Definition target_byte (d : Z) (st : list Z * Z) (_ : nat) : list Z * Z :=
  let '(bytes, remainder) := st in
  let val := Z.lor (shl64 remainder 8) 0xff in
  (wrap 8 (val / d) :: bytes, val mod d).
(** [for (int i = 31; i >= 0; --i)] *)
Definition target_of (d : Z) : list Z := (foldl (target_byte d) ([], 0) (seq 0 32)).1.

(** [difficulty_to_target] of src/src/miner_app.cpp. *)
Definition app_difficulty_to_target (diff : Z) : list Z := target_of (if diff =? 0 then 1 else diff).

(** The conversion of a finite, non-negative double below 2^64 to [std::uint64_t]. *)
Definition to_uint64 (x : Z) : Z := Z.shiftl (significand x) (exponent x).
Definition kLargestDoubleBelow2Pow64 : Z := 0x43EFFFFFFFFFFFFF.

(** [difficulty_to_target] of src/src/stratum_client.cpp; [diff] is the bit pattern of a double. *)
Definition difficulty_to_target (diff : Z) : list Z :=
  if is_nan diff || is_inf diff || negative diff || (magnitude diff =? 0) then replicate 32 0xff else
  let diff := if kLargestDoubleBelow2Pow64 <? diff then kLargestDoubleBelow2Pow64 else diff in
  let d := to_uint64 diff in
  target_of (if d =? 0 then 1 else d).

(** ** Round trips *)

Lemma hex_digit_values n : 0 <= n < 16 -> from_hex (h !!! Z.to_nat n) = n /\ is_hex (h !!! Z.to_nat n) = true.
Proof.
  intros Hn. assert (forallb (fun n => (from_hex (h !!! Z.to_nat n) =? n) && is_hex (h !!! Z.to_nat n)) (seqZ 0 16) = true) as H
    by (vm_compute; reflexivity).
  rewrite forallb_forall in H. specialize (H n). rewrite andb_true_iff, Z.eqb_eq in H. apply H.
  apply list_elem_of_In, elem_of_seqZ. lia.
Qed.

Lemma nibbles v : byte8 v -> 0 <= Z.shiftr v 4 < 16 /\ 0 <= Z.land v 0xf < 16 /\
  Z.lor (Z.shiftl (Z.shiftr v 4) 4) (Z.land v 0xf) = v.
Proof.
  intros [H0 H1]. change (Z.land v 0xf) with (Z.land v (Z.ones 4)). rewrite Z.land_ones, Z.shiftr_div_pow2 by lia.
  change (2 ^ 4) with 16. pose proof (Z.mod_pos_bound v 16 ltac:(lia)) as Hm. pose proof (Z.div_mod v 16 ltac:(lia)) as Hd.
  split_and!; [apply Z.div_pos; lia|apply Z.div_lt_upper_bound; lia|lia|lia|].
  rewrite Z.shiftl_mul_pow2 by lia. change (2 ^ 4) with 16.
  assert (Z.land (v / 16 * 16) (v mod 16) = 0) as Hz.
  { apply Z.bits_inj'. intros i Hi. rewrite Z.land_spec, Z.bits_0. change 16 with (2 ^ 4).
    destruct (Z_lt_dec i 4) as [Hlt|Hge].
    - by rewrite Z.mul_pow2_bits_low by lia.
    - rewrite Z.mod_pow2_bits_high by lia. apply andb_false_r. }
  rewrite <- Z.lxor_lor, <- Z.add_nocarry_lxor by done. lia.
Qed.

Lemma hex_bytes bytes : Bytes bytes ->
  hex_to_bytes (bytes_to_hex bytes) = bytes /\ is_valid_hex (bytes_to_hex bytes) = true /\
  length (bytes_to_hex bytes) = (2 * length bytes)%nat.
Proof.
  intros H. assert (length (bytes_to_hex bytes) = (2 * length bytes)%nat) as Hl.
  { clear H. induction bytes as [|v bytes IH]; [done|]. change (bytes_to_hex (v :: bytes)) with (byte_hex v ++ bytes_to_hex bytes).
    rewrite length_app, IH. cbn. lia. }
  assert (hex_to_bytes (bytes_to_hex bytes) = bytes /\ forallb is_hex (bytes_to_hex bytes) = true) as [H1 H2].
  { clear Hl. induction H as [|v bytes Hv _ [IH1 IH2]]; [done|].
    change (bytes_to_hex (v :: bytes)) with (byte_hex v ++ bytes_to_hex bytes). destruct (nibbles v Hv) as (Hh & Hlo & E).
    destruct (hex_digit_values _ Hh) as [E1 E2], (hex_digit_values _ Hlo) as [E3 E4].
    cbn [byte_hex app hex_to_bytes forallb]. by rewrite E1, E2, E3, E4, E, IH1, IH2. }
  split_and!; [done| |done]. unfold is_valid_hex. rewrite H2, Hl, andb_true_r.
  apply Z.eqb_eq. rewrite Nat2Z.inj_mul, Z.mul_comm. apply Z.mod_mul. lia.
Qed.

Lemma from_hex_range c : 0 <= from_hex c < 16.
Proof. unfold from_hex. repeat case_match; lia. Qed.

Lemma hex_to_bytes_ok s : Bytes (hex_to_bytes s) /\ (2 * length (hex_to_bytes s) <= length s)%nat /\
  (is_valid_hex s = true -> (2 * length (hex_to_bytes s) = length s)%nat).
Proof.
  assert (forall n s, (length s <= n)%nat -> Bytes (hex_to_bytes s) /\ (2 * length (hex_to_bytes s) <= length s)%nat /\
    (Z.of_nat (length s) mod 2 = 0 -> (2 * length (hex_to_bytes s) = length s)%nat)) as H.
  { induction n as [|n IH]; intros x Hx.
    - destruct x; [|cbn in Hx; lia]. split_and!; [constructor|cbn; lia|done].
    - destruct x as [|hi [|lo x]]; [split_and!; [constructor|cbn; lia|done]|split_and!; [constructor|cbn; lia|done]|].
      cbn [hex_to_bytes length] in *. destruct (IH x ltac:(lia)) as (H1 & H2 & H3). split_and!; [|lia|].
      + constructor; [|done]. pose proof (from_hex_range hi). pose proof (from_hex_range lo).
        apply lor_range; [lia| |apply (in_range_mono 4); [lia|split; lia]].
        rewrite Z.shiftl_mul_pow2 by lia. change (2 ^ 4) with 16. split; lia.
      + intros Hm. rewrite !Nat2Z.inj_succ in Hm. specialize (H3 ltac:(revert Hm; Z.div_mod_to_equations; lia)). lia. }
  destruct (H (length s) s) as (H1 & H2 & H3); [done|]. split_and!; [done..|].
  intros [Hv _]%andb_true_iff. apply H3. lia.
Qed.

Lemma nonce_hex nonce bytes : 0 <= bytes <= 8 ->
  nonce_to_hex nonce bytes = Done (bytes_to_hex (le_bytes (Z.to_nat bytes) nonce)).
Proof.
  intros Hb. unfold nonce_to_hex. assert (exists n, bytes = Z.of_nat n) as [n ->] by (exists (Z.to_nat bytes); lia).
  rewrite Nat2Z.id. assert (forall acc i nonce', (forall j, 0 <= j -> Z.shiftr nonce ((Z.of_nat i + j) * 8) = Z.shiftr nonce' (j * 8)) ->
    (i + n <= 8)%nat ->
    ofoldl (nonce_digits nonce) acc (seqZ (Z.of_nat i) (Z.of_nat n)) = Done (acc ++ bytes_to_hex (le_bytes n nonce'))) as H.
  { clear Hb. induction n as [|n IH]; intros acc i nonce' Hs Hi.
    - cbn. by rewrite app_nil_r.
    - rewrite Nat2Z.inj_succ, seqZ_cons, Z.pred_succ by lia. cbn [ofoldl].
      assert (nonce_digits nonce acc (Z.of_nat i) = Done (acc ++ byte_hex (wrap 8 (Z.shiftr nonce (Z.of_nat i * 8))))) as ->
        by (unfold nonce_digits; by destruct (Z.leb_spec 64 (Z.of_nat i * 8)); [lia|]). cbn [mbind outcome_bind].
      replace (Z.succ (Z.of_nat i)) with (Z.of_nat (S i)) by lia. rewrite (IH _ (S i) (nonce' / 256)).
      + cbn [le_bytes]. change (bytes_to_hex (?a :: ?l)) with (byte_hex a ++ bytes_to_hex l). rewrite <- app_assoc.
        do 3 f_equal. specialize (Hs 0 ltac:(lia)). rewrite Z.add_0_r in Hs. rewrite Hs. by rewrite Z.shiftr_0_r.
      + intros j Hj. replace ((Z.of_nat (S i) + j) * 8) with ((Z.of_nat i + (j + 1)) * 8) by lia. rewrite Hs by lia.
        replace ((j + 1) * 8) with (8 + j * 8) by lia. rewrite <- Z.shiftr_shiftr by lia. f_equal.
        by rewrite Z.shiftr_div_pow2 by lia.
      + lia. }
  apply (H [] 0%nat nonce); [intros; done|lia].
Qed.

(** Hexadecimal text.  Printing bytes and reading them back is the identity, and the result passes
    [is_valid_hex]; valid text decodes to half as many bytes; the digits [nonce_to_hex] writes for a
    share are those of the little-endian bytes the worker put into the block; the two byte printers
    agree, and a nonce wider than 8 bytes is undefined. *)
Theorem hex_roundtrip (bytes : list Z) (s : text) (nonce size : Z) :
  (Bytes bytes -> hex_to_bytes (bytes_to_hex bytes) = bytes /\ is_valid_hex (bytes_to_hex bytes) = true) /\
  (Bytes (hex_to_bytes s) /\ (is_valid_hex s = true -> (2 * length (hex_to_bytes s) = length s)%nat)) /\
  (0 <= size <= 8 -> nonce_to_hex nonce size = Done (bytes_to_hex (le_bytes (Z.to_nat size) nonce))) /\
  (8 < size -> nonce_to_hex nonce size = UB).
Proof.
  split_and!.
  - intros Hb. by destruct (hex_bytes bytes Hb) as (H1 & H2 & _).
  - apply hex_to_bytes_ok.
  - apply hex_to_bytes_ok.
  - apply nonce_hex.
  - intros Hs. unfold nonce_to_hex. replace size with (8 + (size - 8)) by lia. rewrite seqZ_app, ofoldl_app by lia.
    change (ofoldl (nonce_digits nonce) [] (seqZ 0 8)) with (nonce_to_hex nonce 8). rewrite nonce_hex by lia.
    cbn [mbind outcome_bind]. by rewrite seqZ_cons by lia.
Qed.

Lemma hex_roundtrip_witness :
  hex_to_bytes (bytes_to_hex [0xde; 0xad]) = [0xde; 0xad] /\ nonce_to_hex 0x1234 4 = Done (lit "34120000").
Proof.
  split.
  - refine (proj1 (proj1 (hex_roundtrip [0xde; 0xad] [] 0 0) _)).
    apply List.Forall_cons; [split; reflexivity || discriminate|]. apply List.Forall_cons; [split; reflexivity || discriminate|]. apply List.Forall_nil.
  - refine (eq_trans (proj1 (proj2 (proj2 (hex_roundtrip [] [] 0x1234 4))) _) _); [lia|]. vm_compute. reflexivity.
Defined.

(** ** Targets are quotients *)

(** The remainder before byte [31 - n] is divided out. *)
Definition target_remainder (d : Z) (n : nat) : Z := (foldl (target_byte d) ([], 0) (seq 0 n)).2.

(** A turn: the byte of the quotient when nothing is shifted out of the remainder, a smaller one otherwise. *)
Lemma target_turn d r : 0 < d < 2 ^ 64 -> 0 <= r < d ->
  let val := Z.lor (shl64 r 8) 0xff in
  exists k, val = 256 * r + 255 - k * 2 ^ 64 /\ (r < 2 ^ 56 -> k = 0) /\ (2 ^ 56 <= r -> 1 <= k) /\ 0 <= val < 2 ^ 64 /\ 0 <= val / d < 256.
Proof.
  intros Hd Hr. assert (Z.lor (shl64 r 8) 0xff = (256 * r) mod 2 ^ 64 + 255) as E.
  { unfold shl64, wrap. rewrite Z.shiftl_mul_pow2 by lia. change (2 ^ 8) with 256. rewrite (Z.mul_comm r).
    assert (Z.land ((256 * r) mod 2 ^ 64) 0xff = 0) as Hz.
    { change 0xff with (Z.ones 8). rewrite Z.land_ones by lia. change (2 ^ 8) with 256. Z.div_mod_to_equations. lia. }
    rewrite <- Z.lxor_lor, <- Z.add_nocarry_lxor by done. lia. }
  cbv zeta. rewrite E. exists (256 * r / 2 ^ 64). pose proof (Z.div_mod (256 * r) (2 ^ 64) ltac:(lia)) as Hdm.
  pose proof (Z.mod_pos_bound (256 * r) (2 ^ 64) ltac:(lia)) as Hm.
  assert ((256 * r) mod 2 ^ 64 <= 2 ^ 64 - 256) as Hm' by (Z.div_mod_to_equations; lia).
  assert (0 <= 256 * r / 2 ^ 64) by (apply Z.div_pos; lia).
  set (k := 256 * r / 2 ^ 64) in *. set (v := (256 * r) mod 2 ^ 64) in *. clearbody k v.
  split_and!; [lia|lia|lia|lia|lia|apply Z.div_pos; lia|]. apply Z.div_lt_upper_bound; [lia|].
  destruct (Z.lt_ge_cases r (2 ^ 56)); [assert (k = 0) by lia; lia|lia].
Qed.

(** After [n] bytes: the quotient and remainder of the first [8 n] bits of [2^256 - 1], or less than the quotient
    once a remainder of 2^56 or more was shifted. *)
Lemma target_loop d n : 0 < d < 2 ^ 64 ->
  let '(bytes, r) := foldl (target_byte d) ([], 0) (seq 0 n) in
  length bytes = n /\ Bytes bytes /\ 0 <= r < d /\
  (((forall k, (k < n)%nat -> target_remainder d k < 2 ^ 56) /\ d * of_le bytes + r = 256 ^ Z.of_nat n - 1) \/
   ((exists k, (k < n)%nat /\ 2 ^ 56 <= target_remainder d k) /\ d * (of_le bytes + 1) <= 256 ^ Z.of_nat n - 1)).
Proof.
  intros Hd. induction n as [|n IH]; [cbn; split_and!; [done|constructor|lia..|left; split; [intros; lia|lia]]|].
  assert (target_remainder d n = (foldl (target_byte d) ([], 0) (seq 0 n)).2) as Et by done.
  rewrite seq_S, foldl_snoc. destruct (foldl (target_byte d) ([], 0) (seq 0 n)) as [bytes r]. cbn [snd] in Et.
  destruct IH as (Hl & Hb & Hr & E). unfold target_byte.
  destruct (target_turn d r Hd Hr) as (k & Ek & K0 & K1 & Hv & Hq). set (val := Z.lor (shl64 r 8) 0xff) in *. clearbody val.
  pose proof (Z.div_mod val d ltac:(lia)) as Hdm. pose proof (Z.mod_pos_bound val d ltac:(lia)) as Hm.
  rewrite wrap_small by (split; lia). split_and!; [cbn; lia|constructor; [split; lia|done]|lia|lia|].
  cbn [of_le]. rewrite Nat2Z.inj_succ, Z.pow_succ_r by lia. destruct E as [[Hs E]|[[i [Hi Hs]] E]].
  - destruct (Z.lt_ge_cases r (2 ^ 56)) as [Hlt|Hge].
    + left. split; [|rewrite (K0 Hlt) in Ek; lia]. intros i Hi. destruct (Nat.eq_dec i n) as [->|]; [lia|]. apply Hs. lia.
    + right. specialize (K1 Hge). split; [exists n; split; lia|]. nia.
  - right. split; [exists i; split; [lia|done]|]. nia.
Qed.

(** A target is at most the quotient, and is the quotient exactly when no remainder overflows. *)
Definition divided (d target : Z) : Prop :=
  let exact := (2 ^ 256 - 1) / d in
  target <= exact /\ (target = exact <-> forall n, (n < 32)%nat -> target_remainder d n < 2 ^ 56) /\ (d <= 2 ^ 56 -> target = exact).

Lemma target_of_divided d : 0 < d < 2 ^ 64 -> divided d (of_le (target_of d)).
Proof.
  intros Hd. pose proof (target_loop d 32 Hd) as H. unfold divided, target_of.
  assert (d <= 2 ^ 56 -> forall n, (n < 32)%nat -> target_remainder d n < 2 ^ 56) as Hsmall.
  { intros H56 n _. pose proof (target_loop d n Hd) as Hn. unfold target_remainder at 1. revert Hn. generalize (foldl (target_byte d) ([], 0) (seq 0 n)). intros [bs r] (_ & _ & Hr & _). cbn. lia. }
  destruct (foldl _ _ _) as [bytes r]. destruct H as (_ & _ & Hr & H). cbn [fst]. change (256 ^ Z.of_nat 32) with (2 ^ 256) in H.
  destruct H as [[Hs E]|[[k [Hk Hs]] E]].
  - assert (of_le bytes = (2 ^ 256 - 1) / d) as -> by (apply (Z.div_unique _ _ _ r); [by left|lia]). by split_and!.
  - assert (of_le bytes + 1 <= (2 ^ 256 - 1) / d) as Hlt by (apply Z.div_le_lower_bound; lia).
    split_and!; [lia| |intros H56; specialize (Hsmall H56 k Hk); lia]. split; [lia|]. intros Hall. specialize (Hall k Hk). lia.
Qed.

(** Even past that bound the target is 32 bytes. *)
Lemma length_target_of d : length (target_of d) = 32%nat /\ Bytes (target_of d).
Proof.
  unfold target_of. assert (forall n, length (foldl (target_byte d) ([], 0) (seq 0 n)).1 = n /\
    Bytes (foldl (target_byte d) ([], 0) (seq 0 n)).1) as H; [|apply H].
  induction n as [|n [IH1 IH2]]; [split; [done|constructor]|]. rewrite seq_S, foldl_snoc.
  destruct (foldl (target_byte d) ([], 0) (seq 0 n)) as [bytes r]. cbn in *. split; [lia|]. constructor; [by apply wrap_range|done].
Qed.

(** The integer part of a positive double. *)
Lemma to_uint64_pos x : 0 <= to_uint64 x.
Proof. unfold to_uint64. apply Z.shiftl_nonneg. unfold significand. case_match; pose proof (Z.mod_pos_bound x (2 ^ 52)); lia. Qed.

Lemma to_uint64_range x : word64 x -> is_nan x = false -> is_inf x = false -> negative x = false -> x <= kLargestDoubleBelow2Pow64 -> word64 (to_uint64 x).
Proof.
  intros [H0 H1] _ _ Hn Hx. split; [apply to_uint64_pos|]. unfold kLargestDoubleBelow2Pow64 in Hx.
  assert (magnitude x = x) as Em by (unfold magnitude; change sign_bit with (2 ^ 63); apply Z.mod_small; lia).
  unfold to_uint64, significand, exponent, biased. rewrite Em.
  pose proof (Z.mod_pos_bound x (2 ^ 52) ltac:(lia)) as Hm. assert (x / 2 ^ 52 <= 1086) as Hb.
  { change 1086 with (0x43EFFFFFFFFFFFFF / 2 ^ 52). apply Z.div_le_mono; lia. }
  destruct (Z.eqb_spec (x / 2 ^ 52) 0).
  - rewrite Z.shiftl_div_pow2 by lia. eapply Z.le_lt_trans; [apply Z.div_le_upper_bound with (q := x mod 2 ^ 52)|]; nia.
  - set (e := x / 2 ^ 52 - 1075). assert (e <= 11) by (unfold e; lia). destruct (Z.le_gt_cases 0 e).
    + rewrite Z.shiftl_mul_pow2 by lia. assert (2 ^ e <= 2 ^ 11) by (apply Z.pow_le_mono_r; lia). nia.
    + rewrite Z.shiftl_div_pow2 by lia. assert (0 < 2 ^ (- e)) by (apply Z.pow_pos_nonneg; lia).
      eapply Z.le_lt_trans; [apply Z.div_le_upper_bound with (q := 2 ^ 52 + x mod 2 ^ 52)|]; nia.
Qed.

(** C40: the targets of both [difficulty_to_target] functions.  The application's takes a 64-bit difficulty D (0
    counts as 1); the Stratum client's takes a double, of which it uses the integer part D after a clamp below
    2^64 (a fraction below one counts as 1), and answers a NaN, infinite, zero or negative one with the
    all-accepting target.  The 32 bytes, little-endian, never exceed (2^256 - 1) / D, and are exactly that
    quotient if and only if no remainder of the byte-wise long division reaches 2^56, the point where the
    64-bit shift loses bits; so always for D up to 2^56. *)
Theorem difficulty_target (diff x : Z) : word64 diff -> word64 x ->
  (length (app_difficulty_to_target diff) = 32%nat /\ length (difficulty_to_target x) = 32%nat /\
   Bytes (app_difficulty_to_target diff) /\ Bytes (difficulty_to_target x)) /\
  divided (Z.max 1 diff) (of_le (app_difficulty_to_target diff)) /\
  (is_nan x || is_inf x || negative x || (magnitude x =? 0) = true -> of_le (difficulty_to_target x) = 2 ^ 256 - 1) /\
  (is_nan x || is_inf x || negative x || (magnitude x =? 0) = false ->
     divided (Z.max 1 (to_uint64 (Z.min x kLargestDoubleBelow2Pow64))) (of_le (difficulty_to_target x))).
Proof.
  intros Hdiff Hx. assert (forall d, word64 d -> divided (Z.max 1 d) (of_le (target_of (if d =? 0 then 1 else d)))) as H.
  { intros d [H0 H1]. destruct (Z.eqb_spec d 0) as [->|Hne]; [by apply target_of_divided|].
    rewrite Z.max_r by lia. apply target_of_divided. lia. }
  unfold app_difficulty_to_target, difficulty_to_target. split_and!.
  - apply length_target_of.
  - case_match; [done|apply length_target_of].
  - apply length_target_of.
  - case_match; [by apply Forall_replicate|apply length_target_of].
  - by apply H.
  - intros ->. vm_compute. reflexivity.
  - intros E. rewrite E. rewrite !orb_false_iff in E. destruct E as (((E1 & E2) & E3) & _).
    destruct (Z.ltb_spec kLargestDoubleBelow2Pow64 x).
    + rewrite Z.min_r by lia. apply H. by split.
    + rewrite Z.min_l by lia. by apply H, to_uint64_range.
Qed.

(** Difficulty 2^57: the first remainder that is shifted past 64 bits, and the bytes lost. *)
Lemma difficulty_target_witness :
  of_le (app_difficulty_to_target 100) = (2 ^ 256 - 1) / 100 /\
  of_le (difficulty_to_target 0x4059000000000000) = (2 ^ 256 - 1) / 100 /\
  ~ of_le (app_difficulty_to_target (2 ^ 57)) = (2 ^ 256 - 1) / 2 ^ 57.
Proof.
  assert (forall d, 0 <= d <= 2 ^ 63 -> word64 d) as Hw by (intros d [H0 H1]; split; lia).
  split; [|split].
  - exact (proj2 (proj2 (proj1 (proj2 (difficulty_target 100 0 (Hw 100 ltac:(lia)) (Hw 0 ltac:(lia)))))) ltac:(discriminate)).
  - refine (proj2 (proj2 (proj2 (proj2 (proj2 (difficulty_target 0 0x4059000000000000 (Hw 0 ltac:(lia)) (Hw 0x4059000000000000 ltac:(lia))))) eq_refl)) ltac:(discriminate)).
  - intros E. destruct (difficulty_target (2 ^ 57) 0 (Hw (2 ^ 57) ltac:(lia)) (Hw 0 ltac:(lia))) as (_ & (_ & H & _) & _).
    pose proof (proj1 H E 8%nat ltac:(lia)) as H8. vm_compute in H8. discriminate H8.
Defined.
