(* ===== verification/Stratum.v ===== *)
(** * The Stratum client

    Models src/src/stratum_client.cpp: the message builders, the line reader, the dispatch of incoming
    lines and their handlers, the connection attempt with its protocol fallback and the reconnect loop.
    The socket is a parameter: the chunks [recv] returns, the outcome of each connection attempt.
    Logging and TLS are left out.  [std::stod] is a parameter that gives the bit pattern of a double. *)

From S2P Require Import Prelude Text Json Float Hex Worker.

(** ** State *)

Inductive StratumProtocol : Type := AUTO | STRATUM_V1 | CRYPTONOTE.
#[export] Instance StratumProtocol_eq_dec : EqDecision StratumProtocol.
Proof. solve_decision. Defined.

(** What stays fixed: the account and where the nonce lives. *)
Record account : Type := mkAccount {
  wallet_ : text;
  password_ : text;
  nonce_offset_ : Z;
  nonce_size_ : Z;
}.

Record client : Type := mkClient {
  acct : account;
  protocol_ : StratumProtocol;
  request_id_ : Z;
  handshake_req_id_ : Z;
  authorize_req_id_ : Z;
  session_id_ : text;
  extra_nonce1_ : text;
  current_target_ : Target;
  subscribe_done_ : option bool;   (* the promise: None until [set_value] *)
  subscribe_ok_ : bool;
  shares_accepted_ : Z;
  shares_rejected_ : Z;
}.

Definition new_client (a : account) : client :=
  mkClient a AUTO 1 0 0 [] [] (replicate 32 0) None false 0 0.

Definition with_requests (next handshake authorize : Z) (c : client) : client :=
  mkClient (acct c) (protocol_ c) next handshake authorize (session_id_ c) (extra_nonce1_ c) (current_target_ c)
    (subscribe_done_ c) (subscribe_ok_ c) (shares_accepted_ c) (shares_rejected_ c).
Definition with_protocol (p : StratumProtocol) (c : client) : client :=
  mkClient (acct c) p (request_id_ c) (handshake_req_id_ c) (authorize_req_id_ c) (session_id_ c) (extra_nonce1_ c)
    (current_target_ c) (subscribe_done_ c) (subscribe_ok_ c) (shares_accepted_ c) (shares_rejected_ c).
Definition with_session (s : text) (c : client) : client :=
  mkClient (acct c) (protocol_ c) (request_id_ c) (handshake_req_id_ c) (authorize_req_id_ c) s (extra_nonce1_ c)
    (current_target_ c) (subscribe_done_ c) (subscribe_ok_ c) (shares_accepted_ c) (shares_rejected_ c).
Definition with_extra_nonce (en1 : text) (c : client) : client :=
  mkClient (acct c) (protocol_ c) (request_id_ c) (handshake_req_id_ c) (authorize_req_id_ c) (session_id_ c) en1
    (current_target_ c) (subscribe_done_ c) (subscribe_ok_ c) (shares_accepted_ c) (shares_rejected_ c).
Definition with_target (t : Target) (c : client) : client :=
  mkClient (acct c) (protocol_ c) (request_id_ c) (handshake_req_id_ c) (authorize_req_id_ c) (session_id_ c) (extra_nonce1_ c)
    t (subscribe_done_ c) (subscribe_ok_ c) (shares_accepted_ c) (shares_rejected_ c).
Definition with_handshake (done : option bool) (ok : bool) (c : client) : client :=
  mkClient (acct c) (protocol_ c) (request_id_ c) (handshake_req_id_ c) (authorize_req_id_ c) (session_id_ c) (extra_nonce1_ c)
    (current_target_ c) done ok (shares_accepted_ c) (shares_rejected_ c).
Definition with_shares (accepted rejected : Z) (c : client) : client :=
  mkClient (acct c) (protocol_ c) (request_id_ c) (handshake_req_id_ c) (authorize_req_id_ c) (session_id_ c) (extra_nonce1_ c)
    (current_target_ c) (subscribe_done_ c) (subscribe_ok_ c) accepted rejected.

(** ** Message builders *)

(** [request_id_.fetch_add(1)] *)
Definition next_id (c : client) : Z * client :=
  (request_id_ c, with_requests (wrap 64 (request_id_ c + 1)) (handshake_req_id_ c) (authorize_req_id_ c) c).

(** A quoted name or value, inserted as it is. *)
Definition bare (s : text) : text := [dquote] ++ s ++ [dquote].

Definition build_subscribe_msg (c : client) : text * client :=
  let '(id, c) := next_id c in
  (rpc_envelope id (lit "mining.subscribe") ([lbracket] ++ bare (lit "armrx/1.0") ++ [rbracket]),
   with_requests (request_id_ c) id (authorize_req_id_ c) c).

Definition build_login_msg (c : client) : text * client :=
  let '(id, c) := next_id c in
  ([lbrace] ++ bare (lit "id") ++ [colon] ++ to_string id ++
   [comma] ++ bare (lit "jsonrpc") ++ [colon] ++ bare (lit "2.0") ++
   [comma] ++ bare (lit "method") ++ [colon] ++ bare (lit "login") ++
   [comma] ++ bare (lit "params") ++ [colon; lbrace] ++
     bare (lit "login") ++ [colon] ++ bare (escape (wallet_ (acct c))) ++ [comma] ++
     bare (lit "pass") ++ [colon] ++ bare (escape (password_ (acct c))) ++ [comma] ++
     bare (lit "agent") ++ [colon] ++ bare (lit "armrx/1.0") ++ [comma] ++
     bare (lit "rigid") ++ [colon] ++ bare [] ++ [comma] ++
     bare (lit "algo") ++ [colon; lbracket] ++ bare (lit "rx/0") ++ [rbracket] ++
   [rbrace; rbrace; newline],
   with_requests (request_id_ c) id (authorize_req_id_ c) c).

Definition build_authorize_msg (c : client) : text * client :=
  let '(id, c) := next_id c in
  (rpc_envelope id (lit "mining.authorize")
     ([lbracket] ++ bare (escape (wallet_ (acct c))) ++ [comma] ++ bare (escape (password_ (acct c))) ++ [rbracket]),
   with_requests (request_id_ c) (handshake_req_id_ c) id c).

Definition build_submit_msg (job : Job) (nonce : Z) (hash : list Z) (c : client) : outcome (text * client) :=
  let '(id, c) := next_id c in
  nonce_hex ← nonce_to_hex nonce (nonce_size job);
  match protocol_ c with
  | CRYPTONOTE =>
      let result_hex := bytes_to_hex hash in
      Done ([lbrace] ++ bare (lit "id") ++ [colon] ++ to_string id ++
        [comma] ++ bare (lit "jsonrpc") ++ [colon] ++ bare (lit "2.0") ++
        [comma] ++ bare (lit "method") ++ [colon] ++ bare (lit "submit") ++
        [comma] ++ bare (lit "params") ++ [colon; lbrace] ++
          bare (lit "id") ++ [colon] ++ bare (escape (session_id_ c)) ++ [comma] ++
          bare (lit "job_id") ++ [colon] ++ bare (escape (job_id job)) ++ [comma] ++
          bare (lit "nonce") ++ [colon] ++ bare nonce_hex ++ [comma] ++
          bare (lit "result") ++ [colon] ++ bare result_hex ++
        [rbrace; rbrace; newline], c)
  | _ =>
      Done (rpc_envelope id (lit "mining.submit")
        ([lbracket] ++ bare (escape (wallet_ (acct c))) ++ [comma] ++ bare (escape (job_id job)) ++ [comma] ++
         bare nonce_hex ++ [rbracket]), c)
  end.

Definition keepalive_msg (c : client) : text * client :=
  let '(id, c) := next_id c in
  ([lbrace] ++ bare (lit "id") ++ [colon] ++ to_string id ++
   [comma] ++ bare (lit "jsonrpc") ++ [colon] ++ bare (lit "2.0") ++
   [comma] ++ bare (lit "method") ++ [colon] ++ bare (lit "keepalived") ++
   [comma] ++ bare (lit "params") ++ [colon; lbrace] ++
     bare (lit "id") ++ [colon] ++ bare (escape (session_id_ c)) ++ [rbrace; rbrace; newline], c).

(** ** The line reader *)

Definition kMaxBuf : Z := 2 ^ 20.

Definition strip_cr (s : text) : text :=
  match rev s with c :: r => if c =? carriage then rev r else s | [] => s end.

(** [chunks] is what the following calls of [recv] return; an exhausted list is a closed connection.
    The line or [None], the buffer and the chunks left. *)
Fixpoint read_line (chunks : list text) (read_buf : text) : option text * text * list text :=
  match find_text [newline] read_buf with
  | Some nl => (Some (strip_cr (take nl read_buf)), drop (nl + 1) read_buf, chunks)
  | None =>
      match chunks with
      | [] => if bool_decide (read_buf = []) then (None, [], []) else (Some read_buf, [], [])
      | tmp :: chunks =>
          if kMaxBuf <? Z.of_nat (length read_buf) + Z.of_nat (length tmp) then (None, [], chunks)
          else read_line chunks (read_buf ++ tmp)
      end
  end.

(** ** Handlers

    A handler returns the client, the jobs given to [job_callback_] in order, and the exception it
    ended with, if any: what it did before stays. *)
Definition handled : Type := client * list Job * option exn.
Definition ok (c : client) : outcome handled := Done (c, [], None).

Section handlers.
Context (stod : text -> option Z).

(** The target of a job: 4 compact bytes fill the high end of the little-endian target. *)
Definition compact_target (tgt_hex : text) : Target :=
  let compact := hex_to_bytes tgt_hex in
  if Z.of_nat (length compact) =? 4 then replicate 28 0xff ++ compact else replicate 32 0xff.

Definition seed_of (seed_hex : text) : list Z := if bool_decide (seed_hex = []) then [] else hex_to_bytes seed_hex.

Definition handle_notify (line : text) (c : client) : outcome handled :=
  job_id ← get_array_element line (lit "params") 0;
  blob_hex ← get_array_element line (lit "params") 1;
  tgt_hex ← get_array_element line (lit "params") 2;
  seed_hex ← get_array_element line (lit "params") 3;
  if bool_decide (job_id = []) || bool_decide (blob_hex = []) then ok c
  else if negb (valid_job_hex blob_hex seed_hex) then ok c
  else
    let target := if Z.of_nat (length tgt_hex) =? 8 then compact_target tgt_hex else current_target_ c in
    Done (c, [mkJob job_id (hex_to_bytes blob_hex) (nonce_offset_ (acct c)) (nonce_size_ (acct c)) target (seed_of seed_hex)], None).

Definition handle_set_target (line : text) (c : client) : outcome handled :=
  tgt_hex ← get_array_first line (lit "params");
  if negb (Z.of_nat (length tgt_hex) =? 64) then ok c
  else
    let bytes := hex_to_bytes tgt_hex in
    ok (with_target (if Z.of_nat (length bytes) =? 32 then bytes else replicate 32 0) c).

Definition handle_set_difficulty (line : text) (c : client) : outcome handled :=
  diff_str ← get_array_first line (lit "params");
  if bool_decide (diff_str = []) then ok c
  else match stod diff_str with
       | Some diff => ok (with_target (difficulty_to_target diff) c)
       | None => ok c   (* std::stod throws, the handler catches *)
       end.

Definition handle_set_extranonce (line : text) (c : client) : outcome handled :=
  en1 ← get_array_first line (lit "params");
  ok (if bool_decide (en1 = []) then c else with_extra_nonce en1 c).

Definition process_cryptonote_job (job_id blob_hex target_hex seed_hex : text) (c : client) : outcome handled :=
  if bool_decide (job_id = []) || bool_decide (blob_hex = []) then ok c
  else if negb (valid_job_hex blob_hex seed_hex) then ok c
  else
    let target :=
      if Z.of_nat (length target_hex) =? 8 then compact_target target_hex
      else if Z.of_nat (length target_hex) =? 64 then
        let bytes := hex_to_bytes target_hex in if Z.of_nat (length bytes) =? 32 then bytes else replicate 32 0
      else current_target_ c in
    Done (with_target target c,
      [mkJob job_id (hex_to_bytes blob_hex) (nonce_offset_ (acct c)) (nonce_size_ (acct c)) target (seed_of seed_hex)], None).

(** The members of a CryptoNote job object. *)
Definition process_job_object (obj : text) (c : client) : outcome handled :=
  job_id ← get_string obj (lit "job_id");
  blob_hex ← get_string obj (lit "blob");
  target_hex ← get_string obj (lit "target");
  seed_hex ← get_string obj (lit "seed_hash");
  process_cryptonote_job job_id blob_hex target_hex seed_hex c.

(** [subscribe_ok_ = ok; subscribe_done_.set_value(ok)]: a second value throws. *)
Definition finish_handshake (ok : bool) (c : client) : client * option exn :=
  match subscribe_done_ c with
  | Some done => (with_handshake (Some done) ok c, Some future_error)
  | None => (with_handshake (Some ok) ok c, None)
  end.

(** The extranonce of a subscribe reply: the second element of the result array. *)
Definition subscribe_extranonce (line : text) : text :=
  match find_from line (bare (lit "result")) 0 with
  | None => []
  | Some en1_pos =>
      match find_from line [lbracket] en1_pos with
      | None => []
      | Some outer =>
          let from := match find_from line [lbracket] (outer + 1) with Some inner => inner | None => outer end in
          match find_from line [rbracket] from with
          | None => []
          | Some after_inner =>
              match find_from line [comma] after_inner with
              | None => []
              | Some c =>
                  let c := (c + 1 + span (fun x => Z.eqb x space) (drop (c + 1) line))%nat in
                  if looking_at line c dquote
                  then take (span (fun x => negb (x =? dquote)) (drop (c + 1) line)) (drop (c + 1) line)
                  else []
              end
          end
      end
  end.

Definition null_or_empty (s : text) : bool := bool_decide (s = []) || bool_decide (s = lit "null").

Definition result_true (line : text) : bool :=
  contains line (bare (lit "result") ++ [colon] ++ lit "true") ||
  contains line (bare (lit "result") ++ [colon] ++ bare (lit "true")).

Definition handle_reply (line : text) (c : client) : outcome handled :=
  error ← get_object line (lit "error");
  result ← get_object line (lit "result");
  id_str ← get_raw line (lit "id");
  let is_cryptonote_reply := contains line (bare (lit "jsonrpc") ++ [colon] ++ bare (lit "2.0")) in
  if bool_decide (id_str = to_string (handshake_req_id_ c)) then
    if negb (null_or_empty error) then
      let '(c, e) := finish_handshake false c in Done (c, [], e)
    else if is_cryptonote_reply then
      session ← get_string result (lit "id");
      let '(c, e) := finish_handshake true (with_session session c) in
      match e with
      | Some e => Done (c, [], Some e)
      | None =>
          job_obj ← get_object result (lit "job");
          if bool_decide (job_obj = []) then ok c else process_job_object job_obj c
      end
    else
      let en1 := subscribe_extranonce line in
      let c := if bool_decide (en1 = []) then c else with_extra_nonce en1 c in
      let '(c, e) := finish_handshake true c in Done (c, [], e)
  else if bool_decide (id_str = to_string (authorize_req_id_ c)) then ok c
  else if contains line (lit "KEEPALIVED") then ok c
  else if result_true line || contains line (bare (lit "status") ++ [colon] ++ bare (lit "OK"))
  then ok (with_shares (wrap 64 (shares_accepted_ c + 1)) (shares_rejected_ c) c)
  else if negb (null_or_empty result)
  then ok (with_shares (shares_accepted_ c) (wrap 64 (shares_rejected_ c + 1)) c)
  else ok c.

Definition handle_line (line : text) (c : client) : outcome handled :=
  if contains line (bare (lit "method")) then
    method ← get_string line (lit "method");
    if bool_decide (method = lit "mining.notify") then handle_notify line c
    else if bool_decide (method = lit "mining.set_target") then handle_set_target line c
    else if bool_decide (method = lit "mining.set_difficulty") then handle_set_difficulty line c
    else if bool_decide (method = lit "mining.set_extranonce") then handle_set_extranonce line c
    else if bool_decide (method = lit "job") then
      params_obj ← get_object line (lit "params");
      process_job_object params_obj c
    else ok c
  else handle_reply line c.

(** [reader_thread_fn]: every line, until the connection closes or a handler throws.  [fuel] bounds the
    number of lines. *)
Fixpoint reader (fuel : nat) (chunks : list text) (read_buf : text) (c : client) (jobs : list Job)
  : outcome (client * list Job * option exn) :=
  match fuel with
  | O => NoFuel
  | S fuel =>
      let '(line, read_buf, chunks) := read_line chunks read_buf in
      match line with
      | None => Done (c, jobs, None)
      | Some [] => reader fuel chunks read_buf c jobs
      | Some line =>
          '(c, new, e) ← handle_line line c;
          match e with
          | Some e => Done (c, jobs ++ new, Some e)
          | None => reader fuel chunks read_buf c (jobs ++ new)
          end
      end
  end.
End handlers.

(** ** Every line is handled, every job is usable *)

(** A job as the handlers hand it out. *)
Record job_delivered (a : account) (job : Job) : Prop := {
  jd_block : kMinMoneroBlobBytes <= Z.of_nat (length (block_template job)) /\ Bytes (block_template job);
  jd_offset : nonce_offset job = nonce_offset_ a;
  jd_size : nonce_size job = nonce_size_ a;
  jd_target : length (target job) = 32%nat /\ Bytes (target job);
  jd_seed : (seed_key job = [] \/ Z.of_nat (length (seed_key job)) = kSeedHashBytes) /\ Bytes (seed_key job);
  jd_id : job_id job <> [];
}.

Definition client_ok (c : client) : Prop := length (current_target_ c) = 32%nat /\ Bytes (current_target_ c).

(** What a handler may do to a client: the account stays, the target stays a target, every job it hands
    out is usable; [quiet] handlers do not throw. *)
Definition quiet (a : account) (m : outcome handled) : Prop :=
  exists c jobs, m = Done (c, jobs, None) /\ client_ok c /\ acct c = a /\ Forall (job_delivered a) jobs.

Lemma quiet_ok a c : client_ok c -> acct c = a -> quiet a (ok c).
Proof. intros H Ha. exists c, []. by split_and!. Qed.

Lemma compact_target_ok s : length (compact_target s) = 32%nat /\ Bytes (compact_target s).
Proof.
  unfold compact_target. destruct (Z.eqb_spec (Z.of_nat (length (hex_to_bytes s))) 4) as [E|E].
  - rewrite length_app, length_replicate. split; [lia|]. apply Forall_app. split; [by apply Forall_replicate|]. apply hex_to_bytes_ok.
  - split; [done|]. by apply Forall_replicate.
Qed.

Lemma long_target_ok s (bytes := hex_to_bytes s) :
  let t := if Z.of_nat (length bytes) =? 32 then bytes else replicate 32 0 in length t = 32%nat /\ Bytes t.
Proof.
  cbv zeta. destruct (Z.eqb_spec (Z.of_nat (length bytes)) 32) as [E|E]; [split; [lia|apply hex_to_bytes_ok]|].
  split; [done|]. by apply Forall_replicate.
Qed.

Lemma valid_job_hex_ok blob seed : valid_job_hex blob seed = true ->
  2 * kMinMoneroBlobBytes <= Z.of_nat (length blob) /\ is_valid_hex blob = true /\
  (seed = [] \/ (Z.of_nat (length seed) = 2 * kSeedHashBytes /\ is_valid_hex seed = true)).
Proof.
  unfold valid_job_hex. destruct (Z.ltb_spec (Z.of_nat (length blob)) (2 * kMinMoneroBlobBytes)); [done|].
  destruct (is_valid_hex blob); [|done]. case_bool_decide; cbn [negb andb]; [by auto|].
  destruct (Z.eqb_spec (Z.of_nat (length seed)) (2 * kSeedHashBytes)); cbn [negb]; [|done].
  destruct (is_valid_hex seed); [|done]. auto.
Qed.

Lemma job_from_hex (a : account) id blob seed (target : Target) : id <> [] -> valid_job_hex blob seed = true ->
  length target = 32%nat -> Bytes target ->
  job_delivered a (mkJob id (hex_to_bytes blob) (nonce_offset_ a) (nonce_size_ a) target (seed_of seed)).
Proof.
  intros Hid (H1 & H2 & H3)%valid_job_hex_ok Ht Hb. destruct (hex_to_bytes_ok blob) as (B1 & _ & B2). specialize (B2 H2).
  change kMinMoneroBlobBytes with 76 in H1. constructor; cbn [block_template nonce_offset nonce_size Worker.target seed_key job_id]; try done.
  - change kMinMoneroBlobBytes with 76. split; [lia|done].
  - unfold seed_of. case_bool_decide as E; [split; [by left|constructor]|]. destruct H3 as [H3|[H3 H4]]; [done|].
    destruct (hex_to_bytes_ok seed) as (S1 & _ & S2). specialize (S2 H4). change kSeedHashBytes with 32 in *. split; [right; lia|done].
Qed.

Section safety.
Context (stod : text -> option Z).

Ltac accessor H :=
  match goal with
  | |- _ _ (mbind _ ?m) =>
      match m with
      | get_array_element ?l ?k ?i => destruct (get_array_element_returns l k i) as [? H]
      | get_array_first ?l ?k => destruct (get_array_first_returns l k) as [? H]
      | get_object ?l ?k => destruct (get_object_returns l k) as [? H]
      | get_raw ?l ?k => destruct (get_raw_returns l k) as [? H]
      | get_string ?l ?k => destruct (get_string_returns l k) as [? H]
      end
  end; rewrite H; clear H; cbn [mbind outcome_bind].

Lemma handle_notify_ok line c : client_ok c -> quiet (acct c) (handle_notify line c).
Proof.
  intros Hc. unfold handle_notify. do 4 (let H := fresh in accessor H).
  repeat (case_bool_decide; cbn [orb]; [by apply quiet_ok|]). destruct (valid_job_hex _ _) eqn:Ev; cbn [negb]; [|by apply quiet_ok].
  exists c. eexists. split_and!; [reflexivity|done|done|]. constructor; [|constructor].
  apply job_from_hex; [done..| |]; (destruct (_ =? 8); [apply compact_target_ok|apply Hc]).
Qed.

Lemma handle_set_target_ok line c : client_ok c -> quiet (acct c) (handle_set_target line c).
Proof.
  intros Hc. unfold handle_set_target. let H := fresh in accessor H. destruct (negb _); [by apply quiet_ok|].
  apply quiet_ok; [apply long_target_ok|done].
Qed.

Lemma handle_set_difficulty_ok line c : client_ok c -> quiet (acct c) (handle_set_difficulty stod line c).
Proof.
  intros Hc. unfold handle_set_difficulty. let H := fresh in accessor H. case_bool_decide; [by apply quiet_ok|].
  destruct (stod _); [|by apply quiet_ok]. apply quiet_ok; [|done]. unfold client_ok. cbn. unfold difficulty_to_target.
  case_match; [split; [done|by apply Forall_replicate]|apply length_target_of].
Qed.

Lemma handle_set_extranonce_ok line c : client_ok c -> quiet (acct c) (handle_set_extranonce line c).
Proof.
  intros Hc. unfold handle_set_extranonce. let H := fresh in accessor H. case_bool_decide; [by apply quiet_ok|by apply quiet_ok].
Qed.

Lemma process_cryptonote_job_ok id blob tgt seed c : client_ok c -> quiet (acct c) (process_cryptonote_job id blob tgt seed c).
Proof.
  intros Hc. unfold process_cryptonote_job.
  repeat (case_bool_decide; cbn [orb]; [by apply quiet_ok|]). destruct (valid_job_hex _ _) eqn:Ev; cbn [negb]; [|by apply quiet_ok].
  set (target := if _ =? 8 then _ else _).
  assert (length target = 32%nat /\ Bytes target) as Ht.
  { unfold target. destruct (_ =? 8); [apply compact_target_ok|]. destruct (_ =? 64); [apply long_target_ok|apply Hc]. }
  do 2 eexists. split_and!; [reflexivity|exact Ht|done|]. constructor; [|constructor]. destruct Ht. by apply job_from_hex.
Qed.

Lemma process_job_object_ok a obj c : client_ok c -> acct c = a -> quiet a (process_job_object obj c).
Proof. intros Hc <-. unfold process_job_object. do 4 (let H := fresh in accessor H). by apply process_cryptonote_job_ok. Qed.

(** The outcome of a line: as [quiet], but a second handshake reply ends in [std::future_error]. *)
Definition handles (c : client) (m : outcome handled) : Prop :=
  quiet (acct c) m \/
  exists c' done, m = Done (c', [], Some future_error) /\ client_ok c' /\ acct c' = acct c /\
    subscribe_done_ c = Some done.

Lemma finish_handshake_ok b c : client_ok c ->
  handles c (let '(c', e) := finish_handshake b c in Done (c', [], e)).
Proof.
  intros Hc. unfold finish_handshake. destruct (subscribe_done_ c) as [d|] eqn:E.
  - right. eexists _, d. by split_and!.
  - left. eexists _, []. split_and!; [reflexivity|done..|constructor].
Qed.

Lemma handle_reply_ok line c : client_ok c -> handles c (handle_reply line c).
Proof.
  intros Hc. unfold handle_reply. do 3 (let H := fresh in accessor H). case_bool_decide as Eid.
  - destruct (negb _); [by apply finish_handshake_ok|]. destruct (contains line _).
    + let H := fresh in accessor H. unfold finish_handshake. cbn [subscribe_done_ with_session].
      destruct (subscribe_done_ c) as [d|] eqn:E.
      * right. eexists _, d. by split_and!.
      * left. let H := fresh in accessor H. case_bool_decide; [by apply quiet_ok|].
        by apply process_job_object_ok.
    + set (c1 := if bool_decide _ then c else _). assert (client_ok c1 /\ acct c1 = acct c /\ subscribe_done_ c1 = subscribe_done_ c) as (H1 & H2 & H3)
        by (unfold c1; by case_bool_decide).
      pose proof (finish_handshake_ok true c1 H1) as H. unfold handles in *. by rewrite H2, H3 in H.
  - left. repeat (case_bool_decide || destruct (contains _ _) || destruct (_ || _) || destruct (negb _)); by apply quiet_ok.
Qed.

Lemma handle_line_ok line c : client_ok c -> handles c (handle_line stod line c).
Proof.
  intros Hc. unfold handle_line. destruct (contains line _); [|by apply handle_reply_ok]. left. let H := fresh in accessor H.
  repeat (case_bool_decide; [by (apply handle_notify_ok || apply handle_set_target_ok || apply handle_set_difficulty_ok
    || apply handle_set_extranonce_ok)
    || (let H := fresh in accessor H; by apply process_job_object_ok)|]). by apply quiet_ok.
Qed.
End safety.

(** C19: whatever line a pool sends, in whatever state, the client handles it: no access out of range, no
    exception but the one the reader thread catches (a second reply to the handshake), the target stays
    32 bytes, and every job handed to the engine has a block of at least 76 bytes, a 32-byte target and
    a seed of 32 bytes or none, so that the nonce field fits wherever it lies in the first 76 bytes. *)
Theorem handle_line_safe (stod : text -> option Z) (line : text) (c : client) : client_ok c ->
  exists c' jobs e, handle_line stod line c = Done (c', jobs, e) /\ client_ok c' /\
    Forall (job_delivered (acct c)) jobs /\
    (nonce_offset_ (acct c) + nonce_size_ (acct c) <= kMinMoneroBlobBytes -> Forall nonce_fits jobs) /\
    (e = None \/ (e = Some future_error /\ subscribe_done_ c <> None)).
Proof.
  intros Hc. assert (forall jobs, Forall (job_delivered (acct c)) jobs ->
    nonce_offset_ (acct c) + nonce_size_ (acct c) <= kMinMoneroBlobBytes -> Forall nonce_fits jobs) as Hfit.
  { intros jobs Hj Hn. eapply list.Forall_impl; [exact Hj|]. intros job [[H1 _] H2 H3 _ _ _]. unfold nonce_fits. lia. }
  destruct (handle_line_ok stod line c Hc) as [(c' & jobs & E & H1 & H2 & H3)|(c' & d & E & H1 & H2 & H3)].
  - exists c', jobs, None. split_and!; [done..|by apply Hfit|by left].
  - exists c', [], (Some future_error). split_and!; [done..|constructor|by apply Hfit|]. right. by rewrite H3.
Qed.

Definition monero (wallet password : text) : account := mkAccount wallet password 39 4.

Lemma handle_line_safe_witness :
  exists c' jobs e, handle_line (fun _ => None) (lit "garbage") (new_client (monero (lit "w") (lit "x"))) = Done (c', jobs, e) /\
    client_ok c' /\ Forall nonce_fits jobs.
Proof.
  destruct (handle_line_safe (fun _ => None) (lit "garbage") (new_client (monero (lit "w") (lit "x")))
    (conj eq_refl (Forall_replicate (in_range 8) 32 0 (conj (Z.le_refl 0) eq_refl)))) as (c' & jobs & e & E & H1 & _ & H2 & _).
  exists c', jobs, e. split; [exact E|]. split; [exact H1|]. apply H2. discriminate.
Defined.

(** ** Outgoing messages *)

(** A message is one line: the text of a JSON value without control characters, then a newline. *)
Definition one_line (v : json_value) (msg : text) : Prop :=
  wf_json v = true /\ msg = print v ++ [newline] /\ forallb (fun c => 32 <=? c) (print v) = true.

Definition safe_char (c : Z) : bool := (32 <=? c) && negb (c =? dquote) && negb (c =? backslash).

Lemma quoted_safe s : forallb safe_char s = true -> quoted s = bare s.
Proof.
  intros Hs. unfold quoted, bare. f_equal. f_equal. induction s as [|c s IH]; [done|]. cbn [forallb] in Hs.
  apply andb_true_iff in Hs as [Hc Hs]. change (escape (c :: s)) with (escape_char c ++ escape s). rewrite IH by done.
  unfold safe_char in Hc. unfold escape_char. repeat (case_match; [lia|]). done.
Qed.

Lemma escape_clean s : forallb (fun c => 32 <=? c) (escape s) = true.
Proof.
  induction s as [|c s IH]; [done|]. change (escape (c :: s)) with (escape_char c ++ escape s). rewrite forallb_app, IH, andb_true_r.
  assert (forall n, 0 <= n -> (32 <=? hex_digit n) = true) as Hh by (intros n Hn; unfold hex_digit; case_match; lia).
  unfold escape_char. repeat case_match; try done; cbn [forallb].
  - rewrite !Hh; [done|apply Z.land_nonneg; lia|apply Z.land_nonneg; lia].
  - replace (32 <=? c) with true by lia. done.
Qed.

Lemma clean_app (x y : text) : forallb (fun c => 32 <=? c) x = true -> forallb (fun c => 32 <=? c) y = true ->
  forallb (fun c => 32 <=? c) (x ++ y) = true.
Proof. intros H1 H2. by rewrite forallb_app, H1, H2. Qed.

Lemma quoted_clean s : forallb (fun c => 32 <=? c) (quoted s) = true.
Proof. unfold quoted. repeat apply clean_app; [done|apply escape_clean|done]. Qed.

Lemma joined_clean l : Forall (fun x => forallb (fun c => 32 <=? c) x = true) l -> forallb (fun c => 32 <=? c) (joined l) = true.
Proof.
  destruct 1 as [|x l Hx Hl]; [done|]. cbn [joined]. apply clean_app; [done|].
  induction Hl as [|y l Hy _ IH]; [done|]. cbn [map concat]. by apply (clean_app (comma :: y)).
Qed.

(** A printed value never contains a line break. *)
Lemma print_clean v : wf_json v = true -> forallb (fun c => 32 <=? c) (print v) = true.
Proof.
  induction v as [t|s|l IH|l IH] using json_value_ind'; cbn [wf_json print]; intros Hw.
  - apply andb_true_iff in Hw as [_ Hw]. rewrite forallb_forall in *. intros c Hc. specialize (Hw c Hc).
    unfold raw_char, plain_char in Hw. lia.
  - apply quoted_clean.
  - repeat apply clean_app; [done| |done]. apply joined_clean. induction IH as [|x l Hx _ IHl]; [constructor|]. cbn [forallb map] in *.
    apply andb_true_iff in Hw as [H1 H2]. constructor; [by apply Hx|by apply IHl].
  - repeat apply clean_app; [done| |done]. apply joined_clean. induction IH as [|x l Hx _ IHl]; [constructor|]. cbn [forallb map] in *.
    apply andb_true_iff in Hw as [[_ H1]%andb_true_iff H2]. constructor; [|by apply IHl].
    apply clean_app; [apply quoted_clean|]. apply (clean_app [colon]); [done|by apply Hx].
Qed.

Lemma to_string_raw x : word64 x -> raw_ok (to_string x) = true.
Proof.
  intros Hx. destruct (to_string_ok x Hx) as (H1 & H2 & _). unfold raw_ok. rewrite bool_decide_false by done. cbn [negb andb].
  rewrite forallb_forall in *. intros c Hc. specialize (H1 c Hc). unfold is_digit in H1. unfold raw_char, plain_char. lia.
Qed.

Lemma hex_plain bytes : Bytes bytes -> forallb plain_char (bytes_to_hex bytes) = true.
Proof.
  intros Hb. induction Hb as [|v bytes Hv _ IH]; [done|].
  change (bytes_to_hex (v :: bytes)) with (byte_hex v ++ bytes_to_hex bytes). rewrite forallb_app, IH, andb_true_r.
  destruct (nibbles v Hv) as (H1 & H2 & _).
  assert (forall n, 0 <= n < 16 -> plain_char (h !!! Z.to_nat n) = true) as Hn.
  { intros n Hn. destruct (hex_digit_values n Hn) as [_ E]. unfold is_hex in E. unfold plain_char. lia. }
  cbn [byte_hex forallb]. by rewrite !Hn.
Qed.

Lemma bare_hex bytes : Bytes bytes -> bare (bytes_to_hex bytes) = quoted (bytes_to_hex bytes).
Proof.
  intros Hb. symmetry. apply quoted_safe. pose proof (hex_plain bytes Hb) as H. rewrite forallb_forall in *. intros c Hc.
  specialize (H c Hc). unfold plain_char in H. unfold safe_char. lia.
Qed.

(** Right-nested concatenations. *)
Ltac flatten := repeat progress (cbn [app]; rewrite <- ?app_assoc); rewrite ?app_nil_r.

Lemma envelope_line id method params v : word64 id -> forallb safe_char method = true -> wf_json v = true -> params = print v ->
  one_line (JObj [(lit "id", JRaw (to_string id)); (lit "method", JStr method); (lit "params", v)])
    (rpc_envelope id method params).
Proof.
  intros Hid Hm Hv ->. assert (wf_json (JObj [(lit "id", JRaw (to_string id)); (lit "method", JStr method); (lit "params", v)]) = true) as Hw.
  { cbn [wf_json forallb snd]. by rewrite to_string_raw, Hv. }
  split_and!; [done| |by apply print_clean]. unfold rpc_envelope. cbn [print map joined concat fst snd].
  rewrite (quoted_safe method), !quoted_safe by done. unfold bare. by flatten.
Qed.

Definition subscribe_tree (id : Z) : json_value :=
  JObj [(lit "id", JRaw (to_string id)); (lit "method", JStr (lit "mining.subscribe"));
        (lit "params", JArr [JStr (lit "armrx/1.0")])].
Definition login_tree (id : Z) (a : account) : json_value :=
  JObj [(lit "id", JRaw (to_string id)); (lit "jsonrpc", JStr (lit "2.0")); (lit "method", JStr (lit "login"));
        (lit "params", JObj [(lit "login", JStr (wallet_ a)); (lit "pass", JStr (password_ a));
           (lit "agent", JStr (lit "armrx/1.0")); (lit "rigid", JStr []); (lit "algo", JArr [JStr (lit "rx/0")])])].
Definition authorize_tree (id : Z) (a : account) : json_value :=
  JObj [(lit "id", JRaw (to_string id)); (lit "method", JStr (lit "mining.authorize"));
        (lit "params", JArr [JStr (wallet_ a); JStr (password_ a)])].
Definition keepalive_tree (id : Z) (session : text) : json_value :=
  JObj [(lit "id", JRaw (to_string id)); (lit "jsonrpc", JStr (lit "2.0")); (lit "method", JStr (lit "keepalived"));
        (lit "params", JObj [(lit "id", JStr session)])].
Definition submit_params (session job : text) (nonce hash : list Z) : json_value :=
  JObj [(lit "id", JStr session); (lit "job_id", JStr job); (lit "nonce", JStr (bytes_to_hex nonce));
        (lit "result", JStr (bytes_to_hex hash))].
Definition submit_tree (id : Z) (params : json_value) : json_value :=
  JObj [(lit "id", JRaw (to_string id)); (lit "jsonrpc", JStr (lit "2.0")); (lit "method", JStr (lit "submit"));
        (lit "params", params)].
Definition submit_v1_tree (id : Z) (wallet job : text) (nonce : list Z) : json_value :=
  JObj [(lit "id", JRaw (to_string id)); (lit "method", JStr (lit "mining.submit"));
        (lit "params", JArr [JStr wallet; JStr job; JStr (bytes_to_hex nonce)])].

(** The text of a tree of literals and escaped strings. *)
Ltac print_tree :=
  cbn [print map joined concat fst snd];
  repeat match goal with |- context [quoted (lit ?s)] => rewrite (quoted_safe (lit s)) by reflexivity end;
  unfold quoted, bare; change (escape []) with (@nil Z); flatten; reflexivity.

Lemma tree_line v msg : wf_json v = true -> msg = print v ++ [newline] -> one_line v msg.
Proof. intros Hw ->. split_and!; [done..|by apply print_clean]. Qed.

Lemma login_line c : word64 (request_id_ c) -> one_line (login_tree (request_id_ c) (acct c)) (build_login_msg c).1.
Proof.
  intros Hid. apply tree_line; [cbn [wf_json login_tree forallb snd]; by rewrite to_string_raw|].
  unfold build_login_msg, next_id. cbn [fst with_requests acct]. unfold login_tree. print_tree.
Qed.

Lemma keepalive_line c : word64 (request_id_ c) -> one_line (keepalive_tree (request_id_ c) (session_id_ c)) (keepalive_msg c).1.
Proof.
  intros Hid. apply tree_line; [cbn [wf_json keepalive_tree forallb snd]; by rewrite to_string_raw|].
  unfold keepalive_msg, next_id. cbn [fst with_requests session_id_]. unfold keepalive_tree. print_tree.
Qed.

Lemma subscribe_line c : word64 (request_id_ c) -> one_line (subscribe_tree (request_id_ c)) (build_subscribe_msg c).1.
Proof. intros Hid. by apply envelope_line. Qed.

Lemma authorize_line c : word64 (request_id_ c) -> one_line (authorize_tree (request_id_ c) (acct c)) (build_authorize_msg c).1.
Proof. intros Hid. apply envelope_line; [done..|]. cbn [with_requests acct]. print_tree. Qed.

Lemma submit_line job nonce hash c : word64 (request_id_ c) -> 0 <= nonce_size job <= 8 -> Bytes hash ->
  let nonce_bytes := le_bytes (Z.to_nat (nonce_size job)) nonce in
  let v := match protocol_ c with
    | CRYPTONOTE => submit_tree (request_id_ c) (submit_params (session_id_ c) (job_id job) nonce_bytes hash)
    | _ => submit_v1_tree (request_id_ c) (wallet_ (acct c)) (job_id job) nonce_bytes
    end in
  exists msg c', build_submit_msg job nonce hash c = Done (msg, c') /\ one_line v msg.
Proof.
  intros Hid Hs Hh nb v. unfold build_submit_msg, next_id. rewrite nonce_hex by done. cbn [mbind outcome_bind].
  assert (Bytes nb) as Hn by apply le_bytes_range. unfold v. cbn [protocol_ with_requests]. fold nb.
  destruct (protocol_ c); (do 2 eexists; split; [reflexivity|]).
  - apply envelope_line; [done..|]. rewrite bare_hex by done. cbn [with_requests acct]. print_tree.
  - apply envelope_line; [done..|]. rewrite bare_hex by done. cbn [with_requests acct]. print_tree.
  - apply tree_line; [cbn [wf_json submit_tree submit_params forallb snd]; by rewrite to_string_raw|].
    rewrite !bare_hex by done. cbn [with_requests session_id_]. unfold submit_tree, submit_params. print_tree.
Qed.

(** Every message the client sends is one line holding one well-formed JSON value, whatever the
    wallet, the password, the session and the job name contain (quotes, backslashes, line breaks): the
    text of the tree, no control character, then the newline. *)
Theorem messages_one_line (c : client) (job : Job) (nonce : Z) (hash : list Z) :
  word64 (request_id_ c) -> 0 <= nonce_size job <= 8 -> Bytes hash ->
  let id := request_id_ c in let a := acct c in
  one_line (subscribe_tree id) (build_subscribe_msg c).1 /\ one_line (login_tree id a) (build_login_msg c).1 /\
  one_line (authorize_tree id a) (build_authorize_msg c).1 /\
  one_line (keepalive_tree id (session_id_ c)) (keepalive_msg c).1 /\
  exists msg c' v, build_submit_msg job nonce hash c = Done (msg, c') /\ one_line v msg.
Proof.
  intros Hid Hs Hh. split_and!; [by apply subscribe_line|by apply login_line|by apply authorize_line|by apply keepalive_line|].
  destruct (submit_line job nonce hash c Hid Hs Hh) as (msg & c' & E & H). by eexists msg, c', _.
Qed.

Lemma messages_one_line_witness :
  let c := new_client (monero [119; newline; dquote] (lit "x")) in
  one_line (login_tree 1 (acct c)) (build_login_msg c).1.
Proof.
  intros c. refine (proj1 (proj2 (messages_one_line c demo_job 7 (replicate 32 0) _ _ _))).
  - split; [discriminate|reflexivity].
  - split; discriminate.
  - apply Forall_replicate. split; [discriminate|reflexivity].
Defined.

(** A share the pool refuses with an error object is counted neither as accepted nor as rejected: only a
    result that is an object or an array and not a success counts as a rejection. *)
Lemma refusal_not_counted :
  let member k v := [dquote] ++ lit k ++ [dquote; colon] ++ v in
  let refusal := [lbrace] ++ member "id" (lit "9") ++ [comma] ++ member "jsonrpc" (bare (lit "2.0")) ++ [comma] ++
    member "error" ([lbrace] ++ member "message" (bare (lit "Low difficulty share")) ++ [rbrace]) ++ [rbrace] in
  let c := with_protocol CRYPTONOTE (new_client (monero (lit "w") (lit "x"))) in
  handle_line (fun _ => None) refusal c = Done (c, [], None).
Proof. vm_compute. reflexivity. Qed.

(** ** A share as the pool reads it *)

Section share.
Context (c : client) (job : Job) (nonce : Z) (hash : list Z).
Context (Hid : word64 (request_id_ c)) (Hs : 0 <= nonce_size job <= 8) (Hh : Bytes hash).
Let params := submit_params (session_id_ c) (job_id job) (le_bytes (Z.to_nat (nonce_size job)) nonce) hash.

Lemma params_read k s t : plain k = true -> occurs_in k params = Some (AsMember (JStr s), t) -> get_string (print params) k = Done (read_back s).
Proof.
  intros Hk Ef. rewrite <- (app_nil_r (print params)). apply (get_string_found k params s t); [|done]. by constructor.
Qed.

Lemma hex_read_back bytes : Bytes bytes -> read_back (bytes_to_hex bytes) = bytes_to_hex bytes.
Proof.
  intros Hb. apply read_back_printable. pose proof (hex_plain bytes Hb) as H. rewrite forallb_forall in *. intros x Hx.
  specialize (H x Hx). unfold plain_char in H. lia.
Qed.
End share.

(** C20: a share submitted over the CryptoNote protocol carries the work: reading the message the client
    sends, as any reader of its JSON would, gives the job's name, the bytes of the nonce exactly as the
    worker wrote them into the hashed block, and the 32 bytes of the hash. *)
Theorem share_roundtrip (c : client) (job : Job) (nonce : Z) (hash : list Z) :
  word64 (request_id_ c) -> 0 <= nonce_size job <= 8 -> Bytes hash -> protocol_ c = CRYPTONOTE ->
  0 <= nonce_offset job -> nonce_fits job ->
  exists msg c' params n r, build_submit_msg job nonce hash c = Done (msg, c') /\
    get_object msg (lit "params") = Done params /\
    get_string params (lit "job_id") = Done (read_back (job_id job)) /\
    get_string params (lit "nonce") = Done n /\ get_string params (lit "result") = Done r /\
    hex_to_bytes n = take (Z.to_nat (nonce_size job)) (drop (Z.to_nat (nonce_offset job)) (with_nonce job nonce)) /\
    hex_to_bytes r = hash.
Proof.
  intros Hid Hs Hh Hp Ho Hf. destruct (submit_line job nonce hash c Hid Hs Hh) as (msg & c' & E & H). rewrite Hp in H.
  set (nb := le_bytes _ nonce) in H. assert (Bytes nb) as Hn by apply le_bytes_range.
  set (params := submit_params _ _ nb hash) in H. destruct H as (Hw & -> & _).
  exists (print (submit_tree (request_id_ c) params) ++ [newline]), c', (print params), (bytes_to_hex nb), (bytes_to_hex hash).
  split_and!; [done| | | | | |].
  - eapply get_object_found; [|reflexivity|reflexivity]. by constructor.
  - eapply params_read; [done|reflexivity].
  - rewrite <- (hex_read_back nb Hn). eapply params_read; [done|reflexivity].
  - rewrite <- (hex_read_back hash Hh). eapply params_read; [done|reflexivity].
  - rewrite (proj1 (hex_bytes nb Hn)). unfold with_nonce, spliced. unfold nonce_fits in Hf.
    rewrite drop_app_length' by (rewrite length_take; lia). by rewrite take_app_length' by (by rewrite length_le_bytes).
  - by apply hex_bytes.
Qed.

Definition demo_client : client := with_protocol CRYPTONOTE (new_client (monero (lit "w") (lit "x"))).

Lemma share_roundtrip_witness :
  exists msg c', build_submit_msg demo_job 7 (replicate 32 0) demo_client = Done (msg, c') /\
    (exists params, get_object msg (lit "params") = Done params /\ get_string params (lit "job_id") = Done [49]).
Proof.
  destruct (share_roundtrip demo_client demo_job 7 (replicate 32 0)) as (msg & c' & params & n & r & E & H1 & H2 & _).
  - split; [discriminate|reflexivity].
  - split; discriminate.
  - apply Forall_replicate. split; [discriminate|reflexivity].
  - reflexivity.
  - discriminate.
  - unfold nonce_fits. cbn. lia.
  - exists msg, c'. split; [exact E|]. exists params. split; [exact H1|exact H2].
Defined.

(** ** Jobs as the pool sends them *)

Lemma contains_app a n b : contains (a ++ n ++ b) n = true.
Proof.
  unfold contains, find_from. cbn [Nat.ltb Nat.leb]. rewrite drop_0.
  destruct (find_text n (a ++ n ++ b)) as [q|] eqn:E; [done|]. exfalso.
  pose proof (find_text_none _ _ E (length a)) as H. by rewrite drop_app_length, prefix_of_app in H.
Qed.

Lemma found_contains k v v' t : printed k v [] -> occurs_in k v = Some (AsMember v', t) ->
  contains (print v) (bare k) = true /\ contains (print v) (bare k ++ [colon] ++ print v') = true.
Proof.
  intros Hp Ef. destruct (member_text k v v' t [] Hp Ef) as [pre E]. rewrite app_nil_r in E. rewrite E. fold (bare k). split.
  - apply contains_app.
  - change (search_text k) with (bare k). rewrite (app_assoc [colon]), (app_assoc (bare k)). apply contains_app.
Qed.

(** A root value that is searched for a name. *)
Lemma root_printed k v v' t : plain k = true -> wf_json v = true -> occurs_in k v = Some (AsMember v', t) -> printed k v [].
Proof. intros Hk Hw E. constructor; try done. by intros ->. Qed.
Lemma root_string k v s t : plain k = true -> wf_json v = true -> occurs_in k v = Some (AsMember (JStr s), t) ->
  forallb (fun c => 32 <=? c) s = true -> get_string (print v) k = Done s.
Proof.
  intros Hk Hw E Hs. rewrite <- (app_nil_r (print v)), (get_string_found k v s t); [by rewrite read_back_printable| |done].
  by eapply root_printed.
Qed.
Lemma root_object k v v' t : plain k = true -> wf_json v = true -> occurs_in k v = Some (AsMember v', t) -> container v' = true ->
  get_object (print v) k = Done (print v').
Proof. intros Hk Hw E Hc. rewrite <- (app_nil_r (print v)). eapply get_object_found; [by eapply root_printed|done|done]. Qed.

(** The members of a job object, in any order and among others. *)
Record job_object (v : json_value) (id blob target seed : text) : Prop := {
  jo_shape : container v = true;
  jo_id : exists t, occurs_in (lit "job_id") v = Some (AsMember (JStr id), t);
  jo_blob : exists t, occurs_in (lit "blob") v = Some (AsMember (JStr blob), t);
  jo_target : exists t, occurs_in (lit "target") v = Some (AsMember (JStr target), t);
  jo_seed : exists t, occurs_in (lit "seed_hash") v = Some (AsMember (JStr seed), t);
  jo_text : forallb (fun c => 32 <=? c) (id ++ blob ++ target ++ seed) = true;
  jo_named : id <> [];
  jo_valid : valid_job_hex blob seed = true;
  jo_hex : Z.of_nat (length target) = 64 -> is_valid_hex target = true;
}.

(** The target of a job object, and the job. *)
Definition announced_target (target : text) (c : client) : Target :=
  if Z.of_nat (length target) =? 8 then compact_target target
  else if Z.of_nat (length target) =? 64 then hex_to_bytes target else current_target_ c.
Definition announced_job (id blob seed : text) (target : Target) (c : client) : Job :=
  mkJob id (hex_to_bytes blob) (nonce_offset_ (acct c)) (nonce_size_ (acct c)) target (seed_of seed).

Lemma process_job_object_print v id blob target seed c : wf_json v = true -> job_object v id blob target seed ->
  process_job_object (print v) c =
    Done (with_target (announced_target target c) c, [announced_job id blob seed (announced_target target c) c], None).
Proof.
  intros Hw [_ [t1 E1] [t2 E2] [t3 E3] [t4 E4] Ht Hid Hv H64]. rewrite !forallb_app, !andb_true_iff in Ht. destruct Ht as (T1 & T2 & T3 & T4).
  unfold process_job_object. rewrite (root_string (lit "job_id") v id t1) by done. rewrite (root_string (lit "blob") v blob t2) by done.
  rewrite (root_string (lit "target") v target t3) by done. rewrite (root_string (lit "seed_hash") v seed t4) by done.
  cbn [mbind outcome_bind]. unfold process_cryptonote_job. rewrite bool_decide_false by done.
  destruct (valid_job_hex_ok blob seed Hv) as (Hb & _ & _). change kMinMoneroBlobBytes with 76 in Hb.
  rewrite bool_decide_false by (intros ->; cbn in Hb; lia). rewrite Hv. cbn [orb negb]. unfold announced_target.
  assert ((if Z.of_nat (length target) =? 64
           then if Z.of_nat (length (hex_to_bytes target)) =? 32 then hex_to_bytes target else replicate 32 0
           else current_target_ c)
    = (if Z.of_nat (length target) =? 64 then hex_to_bytes target else current_target_ c)) as ->; [|done].
  destruct (Z.eqb_spec (Z.of_nat (length target)) 64) as [E|E]; [|done].
  pose proof (proj2 (proj2 (hex_to_bytes_ok target)) (H64 E)). by destruct (Z.eqb_spec (Z.of_nat (length (hex_to_bytes target))) 32); [|lia].
Qed.

(** The three messages that announce a job to a client in state [c], with the state after and the job: a CryptoNote
    notification, the reply to the login while [connect] waits for it, and [mining.notify] of Stratum V1. *)
Inductive announces (c : client) : json_value -> client -> Job -> Prop :=
  | announce_job v params id blob target seed t1 t2 :
      wf_json v = true ->
      occurs_in (lit "method") v = Some (AsMember (JStr (lit "job")), t1) ->
      occurs_in (lit "params") v = Some (AsMember params, t2) -> job_object params id blob target seed ->
      let tgt := announced_target target c in
      announces c v (with_target tgt c) (announced_job id blob seed tgt c)
  | announce_login v result params session id blob target seed t1 t2 t3 t4 t5 :
      wf_json v = true -> contains (print v) (bare (lit "method")) = false -> subscribe_done_ c = None ->
      occurs_in (lit "id") v = Some (AsMember (JRaw (to_string (handshake_req_id_ c))), t1) ->
      occurs_in (lit "jsonrpc") v = Some (AsMember (JStr (lit "2.0")), t2) ->
      (forall e t, occurs_in (lit "error") v = Some (AsMember e, t) -> container e = false) ->
      occurs_in (lit "result") v = Some (AsMember result, t3) -> container result = true ->
      occurs_in (lit "id") result = Some (AsMember (JStr session), t4) -> forallb (fun c => 32 <=? c) session = true ->
      occurs_in (lit "job") result = Some (AsMember params, t5) -> job_object params id blob target seed ->
      let tgt := announced_target target c in
      announces c v (with_target tgt (with_handshake (Some true) true (with_session session c))) (announced_job id blob seed tgt c)
  | announce_notify v id blob target seed more t1 t2 :
      wf_json v = true ->
      occurs_in (lit "method") v = Some (AsMember (JStr (lit "mining.notify")), t1) ->
      occurs_in (lit "params") v = Some (AsMember (JArr (JStr id :: JStr blob :: JStr target :: JStr seed :: more)), t2) ->
      forallb scalar more = true -> Z.of_nat (length more) < 2 ^ 31 ->
      forallb (fun c => 32 <=? c) (id ++ blob ++ target ++ seed) = true -> id <> [] -> valid_job_hex blob seed = true ->
      let tgt := if Z.of_nat (length target) =? 8 then compact_target target else current_target_ c in
      announces c v c (announced_job id blob seed tgt c).

Lemma job_line stod c v params id blob target seed t1 t2 : wf_json v = true ->
  occurs_in (lit "method") v = Some (AsMember (JStr (lit "job")), t1) ->
  occurs_in (lit "params") v = Some (AsMember params, t2) -> job_object params id blob target seed ->
  handle_line stod (print v) c =
    Done (with_target (announced_target target c) c, [announced_job id blob seed (announced_target target c) c], None).
Proof.
  intros Hw E1 E2 Hj. unfold handle_line. rewrite (proj1 (found_contains (lit "method") v _ _ (root_printed (lit "method") v _ _ eq_refl Hw E1) E1)).
  rewrite (root_string (lit "method") v (lit "job") t1) by done. cbn [mbind outcome_bind]. rewrite !bool_decide_false by (intros E; discriminate E).
  rewrite bool_decide_true by reflexivity. rewrite (root_object (lit "params") v params t2) by (done || apply Hj). cbn [mbind outcome_bind].
  apply process_job_object_print; [by destruct (member_wf _ _ _ _ Hw E2)|done].
Qed.

Lemma notify_line stod c v id blob target seed more t1 t2 : wf_json v = true ->
  occurs_in (lit "method") v = Some (AsMember (JStr (lit "mining.notify")), t1) ->
  occurs_in (lit "params") v = Some (AsMember (JArr (JStr id :: JStr blob :: JStr target :: JStr seed :: more)), t2) ->
  forallb scalar more = true -> Z.of_nat (length more) < 2 ^ 31 ->
  forallb (fun c => 32 <=? c) (id ++ blob ++ target ++ seed) = true -> id <> [] -> valid_job_hex blob seed = true ->
  handle_line stod (print v) c =
    Done (c, [announced_job id blob seed (if Z.of_nat (length target) =? 8 then compact_target target else current_target_ c) c], None).
Proof.
  intros Hw E1 E2 Hs Hn Ht Hid Hv. unfold handle_line. rewrite (proj1 (found_contains (lit "method") v _ _ (root_printed (lit "method") v _ _ eq_refl Hw E1) E1)).
  rewrite (root_string (lit "method") v (lit "mining.notify") t1) by done. cbn [mbind outcome_bind]. rewrite bool_decide_true by reflexivity.
  rewrite !forallb_app, !andb_true_iff in Ht. destruct Ht as (T1 & T2 & T3 & T4).
  assert (forall i x, 0 <= i < 4 -> (JStr id :: JStr blob :: JStr target :: JStr seed :: more) !! Z.to_nat i = Some (JStr x) ->
    forallb (fun c => 32 <=? c) x = true -> get_array_element (print v) (lit "params") i = Done x) as Hel.
  { intros i x Hi Ex Hx. rewrite <- (app_nil_r (print v)). erewrite get_array_element_found; [|by eapply root_printed|exact E2|done|cbn [length]; lia|lia].
    rewrite Ex. cbn [fmap option_fmap option_map default element_text]. by rewrite read_back_printable. }
  unfold handle_notify. rewrite (Hel 0 id), (Hel 1 blob), (Hel 2 target), (Hel 3 seed) by (done || lia). cbn [mbind outcome_bind].
  rewrite bool_decide_false by done. destruct (valid_job_hex_ok blob seed Hv) as (Hb & _ & _). change kMinMoneroBlobBytes with 76 in Hb.
  rewrite bool_decide_false by (intros ->; cbn in Hb; lia). rewrite Hv. done.
Qed.

Lemma login_line_ok stod c v result params session id blob target seed t1 t2 t3 t4 t5 :
  wf_json v = true -> contains (print v) (bare (lit "method")) = false -> subscribe_done_ c = None ->
  occurs_in (lit "id") v = Some (AsMember (JRaw (to_string (handshake_req_id_ c))), t1) ->
  occurs_in (lit "jsonrpc") v = Some (AsMember (JStr (lit "2.0")), t2) ->
  (forall e t, occurs_in (lit "error") v = Some (AsMember e, t) -> container e = false) ->
  occurs_in (lit "result") v = Some (AsMember result, t3) -> container result = true ->
  occurs_in (lit "id") result = Some (AsMember (JStr session), t4) -> forallb (fun c => 32 <=? c) session = true ->
  occurs_in (lit "job") result = Some (AsMember params, t5) -> job_object params id blob target seed ->
  handle_line stod (print v) c =
    Done (with_target (announced_target target c) (with_handshake (Some true) true (with_session session c)),
      [announced_job id blob seed (announced_target target c) c], None).
Proof.
  intros Hw Hm Hd E1 E2 He E3 Hc E4 Hs E5 Hj. unfold handle_line, handle_reply. rewrite Hm.
  assert (get_object (print v) (lit "error") = Done []) as ->.
  { rewrite <- (app_nil_r (print v)). assert (printed (lit "error") v []) as Hp by (constructor; try done; by intros ->).
    destruct (occurs_in (lit "error") v) as [[[e|] t]|] eqn:Ee.
    - eapply get_object_scalar; [done|exact Ee|by eapply He].
    - apply get_missing; [done|]. intros ? ? E. congruence.
    - apply get_missing; [done|]. intros ? ? E. congruence. }
  rewrite (root_object (lit "result") v result t3) by done.
  assert (get_raw (print v) (lit "id") = Done (to_string (handshake_req_id_ c))) as ->.
  { rewrite <- (app_nil_r (print v)). exact (get_raw_found (lit "id") v _ t1 [] (root_printed (lit "id") v _ _ eq_refl Hw E1) E1). }
  cbn [mbind outcome_bind].
  rewrite bool_decide_true by reflexivity. change (null_or_empty []) with true. cbn [negb].
  destruct (found_contains (lit "jsonrpc") v _ _ (root_printed (lit "jsonrpc") v _ _ eq_refl Hw E2) E2) as [_ Hj2]. cbn [print] in Hj2.
  change (quoted (lit "2.0")) with (bare (lit "2.0")) in Hj2. rewrite Hj2.
  destruct (member_wf _ _ _ _ Hw E3) as [Hwr _]. rewrite (root_string (lit "id") result session t4) by done. cbn [mbind outcome_bind].
  unfold finish_handshake. cbn [subscribe_done_ with_session]. rewrite Hd.
  rewrite (root_object (lit "job") result params t5) by (done || apply Hj). cbn [mbind outcome_bind].
  destruct (member_wf _ _ _ _ Hwr E5) as [Hwp _]. destruct (print_head params Hwp) as (x & r & Ep & _).
  rewrite bool_decide_false by (by rewrite Ep). by rewrite (process_job_object_print params id blob target seed).
Qed.

(** C21: a job a pool announces reaches the engine as announced.  For each of the three messages that announce a
    job, written as compact JSON (members in any order and among any others, as long as the first place where a
    name stands as a key is that member, and the texts have no control characters): a [job] notification, the
    reply to the login that [connect] waits for, and [mining.notify].  The engine gets exactly one job, with that
    name, the decoded block, the decoded seed and the target: 4 compact bytes at the high end, or for the first two
    all 32 bytes, else the current target.  The first two make the target the current one; the login reply also
    completes the handshake with its session. *)
Theorem job_announced (stod : text -> option Z) (c c' : client) (v : json_value) (job : Job) :
  announces c v c' job -> handle_line stod (print v) c = Done (c', [job], None).
Proof. intros [v0| v0 | v0]; [by eapply job_line|by eapply login_line_ok|by eapply notify_line]. Qed.

(** A notification, a login reply and a [mining.notify]. *)
Lemma job_announced_witness :
  let blob := concat (replicate 76 (lit "0a")) in
  let params := JObj [(lit "seed_hash", JStr []); (lit "height", JRaw (lit "3"));
    (lit "target", JStr (lit "b88d0600")); (lit "blob", JStr blob); (lit "job_id", JStr (lit "j1"))] in
  let v := JObj [(lit "jsonrpc", JStr (lit "2.0")); (lit "method", JStr (lit "job")); (lit "params", params)] in
  let login := JObj [(lit "id", JRaw (lit "0")); (lit "jsonrpc", JStr (lit "2.0")); (lit "error", JRaw (lit "null"));
    (lit "result", JObj [(lit "id", JStr (lit "s1")); (lit "job", params); (lit "status", JStr (lit "OK"))])] in
  let notify := JObj [(lit "id", JRaw (lit "null")); (lit "method", JStr (lit "mining.notify"));
    (lit "params", JArr [JStr (lit "j1"); JStr blob; JStr (lit "b88d0600"); JStr []; JRaw (lit "true")])] in
  let tgt := replicate 28 0xff ++ [0xb8; 0x8d; 0x06; 0x00] in
  let job := mkJob (lit "j1") (replicate 76 0x0a) 39 4 tgt [] in
  handle_line (fun _ => None) (print v) demo_client = Done (with_target tgt demo_client, [job], None) /\
  handle_line (fun _ => None) (print login) demo_client =
    Done (with_target tgt (with_handshake (Some true) true (with_session (lit "s1") demo_client)), [job], None) /\
  handle_line (fun _ => None) (print notify) demo_client = Done (demo_client, [job], None).
Proof.
  intros blob params v login notify tgt job. assert (job_object params (lit "j1") blob (lit "b88d0600") []) as Hj.
  { constructor; [reflexivity|eexists; reflexivity|eexists; reflexivity|eexists; reflexivity|eexists; reflexivity|reflexivity|discriminate|reflexivity|discriminate]. }
  split; [|split].
  - refine (job_announced (fun _ => None) demo_client _ v job _).
    exact (announce_job demo_client v params (lit "j1") blob (lit "b88d0600") [] _ _ eq_refl eq_refl eq_refl Hj).
  - refine (job_announced (fun _ => None) demo_client _ login job _).
    refine (announce_login demo_client login _ params (lit "s1") (lit "j1") blob (lit "b88d0600") [] _ _ _ _ _
      eq_refl eq_refl eq_refl eq_refl eq_refl _ eq_refl eq_refl eq_refl eq_refl eq_refl Hj).
    intros e t E. injection E as <- _. reflexivity.
  - refine (job_announced (fun _ => None) demo_client _ notify job _).
    refine (announce_notify demo_client notify (lit "j1") blob (lit "b88d0600") [] [JRaw (lit "true")] _ _ eq_refl eq_refl eq_refl eq_refl _ eq_refl _ eq_refl); [reflexivity|discriminate].
Defined.

(** ** Lines do not depend on how the stream is cut *)

Definition no_newline (s : text) : bool := forallb (fun c => negb (c =? newline)) s.

Lemma find_newline s rest : no_newline s = true -> find_text [newline] (s ++ newline :: rest) = Some (length s).
Proof.
  induction s as [|c s IH]; intros Hs; [done|]. cbn [no_newline forallb] in Hs. apply andb_true_iff in Hs as [Hc Hs].
  cbn [app find_text]. rewrite prefix_of_head by lia. by rewrite IH.
Qed.

Lemma find_newline_none s : no_newline s = true -> find_text [newline] s = None.
Proof.
  induction s as [|c s IH]; intros Hs; [done|]. cbn [no_newline forallb] in Hs. apply andb_true_iff in Hs as [Hc Hs].
  cbn [find_text]. rewrite prefix_of_head by lia. by rewrite IH.
Qed.

(** The part of a stream already read: up to the first newline, or past it. *)
Lemma split_at_newline line rest : forall buf more, no_newline line = true -> buf ++ more = line ++ newline :: rest ->
  (exists b, buf = line ++ newline :: b /\ rest = b ++ more) \/ (no_newline buf = true /\ (length buf <= length line)%nat).
Proof.
  induction line as [|c line IH]; intros buf more Hl E.
  - destruct buf as [|x buf]; [right; split; [done|cbn; lia]|]. injection E as -> E. left. by exists buf.
  - cbn [no_newline forallb] in Hl. apply andb_true_iff in Hl as [Hc Hl].
    destruct buf as [|x buf]; [right; split; [done|cbn; lia]|]. injection E as -> E.
    destruct (IH buf more Hl E) as [(b & -> & ->)|[H1 H2]]; [left; by exists b|]. right. split; [|cbn; lia].
    cbn [no_newline forallb]. by rewrite Hc.
Qed.

Abbreviation chunk_ok := (fun c : text => (length c <= 4096)%nat).

Lemma read_line_stream line rest chunks buf : no_newline line = true -> Z.of_nat (length line) + 4096 <= kMaxBuf ->
  Forall chunk_ok chunks -> buf ++ concat chunks = line ++ newline :: rest ->
  exists buf' chunks', read_line chunks buf = (Some (strip_cr line), buf', chunks') /\
    buf' ++ concat chunks' = rest /\ Forall chunk_ok chunks'.
Proof.
  intros Hl Hk Hc. revert buf. induction Hc as [|tmp chunks Ht Hc IH]; intros buf E.
  - cbn [concat] in E. rewrite app_nil_r in E. subst buf. cbn [read_line]. rewrite find_newline by done.
    exists rest, []. rewrite take_app_length, Nat.add_1_r. split_and!; [|by rewrite app_nil_r|constructor].
    by rewrite (cons_middle newline line rest), app_assoc, drop_app_length' by (rewrite length_app; cbn; lia).
  - destruct (split_at_newline line rest buf (concat (tmp :: chunks)) Hl E) as [(b & -> & ->)|[Hb Hlen]].
    + exists b, (tmp :: chunks). cbn [read_line]. rewrite find_newline by done. rewrite take_app_length, Nat.add_1_r.
      split_and!; [|done|by constructor].
      by rewrite (cons_middle newline line b), app_assoc, drop_app_length' by (rewrite length_app; cbn; lia).
    + cbn [read_line]. rewrite find_newline_none by done.
      destruct (Z.ltb_spec kMaxBuf (Z.of_nat (length buf) + Z.of_nat (length tmp))); [lia|]. apply IH.
      cbn [concat] in E. by rewrite <- app_assoc.
Qed.

(** The lines of a stream handled one after the other, until a handler throws. *)
Fixpoint handle_lines (stod : text -> option Z) (lines : list text) (c : client) (jobs : list Job) : outcome handled :=
  match lines with
  | [] => Done (c, jobs, None)
  | line :: lines =>
      '(c, new, e) ← handle_line stod line c;
      match e with
      | Some e => Done (c, jobs ++ new, Some e)
      | None => handle_lines stod lines c (jobs ++ new)
      end
  end.

Record line_ok (line : text) : Prop := {
  lk_newline : no_newline line = true;
  lk_nonempty : line <> [];
  lk_carriage : strip_cr line = line;
  lk_size : Z.of_nat (length line) + 4096 <= kMaxBuf;
}.

(** C28: the reader thread handles the lines the pool sent, in order, one by one, however the network cuts
    the stream into chunks of up to 4096 bytes, until the connection closes or a handler throws. *)
Theorem reader_lines (stod : text -> option Z) (lines chunks : list text) (c : client) (fuel : nat) :
  Forall line_ok lines -> Forall chunk_ok chunks -> concat chunks = concat (map (fun l => l ++ [newline]) lines) ->
  (length lines < fuel)%nat -> reader stod fuel chunks [] c [] = handle_lines stod lines c [].
Proof.
  intros Hl Hc E Hf. enough (forall lines buf chunks jobs c fuel, Forall line_ok lines -> Forall chunk_ok chunks ->
    buf ++ concat chunks = concat (map (fun l => l ++ [newline]) lines) -> (length lines < fuel)%nat ->
    reader stod fuel chunks buf c jobs = handle_lines stod lines c jobs) as H by (by apply H).
  clear lines chunks c fuel Hl Hc E Hf. induction lines as [|line lines IH]; intros buf chunks jobs c fuel Hl Hc E Hf;
    (destruct fuel as [|fuel]; [lia|]); cbn [reader handle_lines].
  - apply app_eq_nil in E as [-> E]. assert (forall chunks, concat chunks = @nil Z -> read_line chunks [] = (None, [], [])) as ->; [|done|done].
    clear. induction chunks as [|x chunks IH]; [done|]. cbn [concat]. intros [-> E]%app_eq_nil. by apply IH.
  - apply Forall_cons_iff in Hl as [[H1 H2 H3 H4] Hl]. cbn [map concat length] in *. rewrite <- app_assoc in E.
    destruct (read_line_stream line _ chunks buf H1 H4 Hc E) as (buf' & chunks' & -> & E' & Hc'). rewrite H3.
    destruct line as [|x line]; [done|]. destruct (handle_line stod (x :: line) c) as [[[c' new] [e|]]| | |]; try done.
    cbn [mbind outcome_bind]. apply IH; [done..|lia].
Qed.

Lemma reader_lines_witness :
  reader (fun _ => None) 3 [lit "{}"; [newline] ++ lit "{"; lit "}"; [newline]] [] demo_client [] =
    handle_lines (fun _ => None) [lit "{}"; lit "{}"] demo_client [].
Proof.
  apply (reader_lines (fun _ => None) [lit "{}"; lit "{}"]).
  - repeat apply List.Forall_cons; try apply List.Forall_nil; (constructor; [reflexivity|discriminate|reflexivity|discriminate]).
  - repeat apply List.Forall_cons; try apply List.Forall_nil; cbn; lia.
  - reflexivity.
  - cbn. lia.
Defined.
