(* ===== verification/Connection.v ===== *)
(** * Connecting and reconnecting

    [StratumClient::connect], [disconnect] and [reconnect_loop] of src/src/stratum_client.cpp.  What the
    network and the pool do is a parameter: what each attempt to connect meets, and the lines the reader
    thread is given between the points where [connect] looks at what they change. *)

From stdpp Require Import relations.
From S2P Require Import Prelude Text Json Hex Worker Stratum.

(** ** What a line does to the handshake *)

(** The parts of a client that the negotiation depends on, before and after a line. *)
Definition same_session (c c' : client) : Prop :=
  protocol_ c' = protocol_ c /\ request_id_ c' = request_id_ c /\ handshake_req_id_ c' = handshake_req_id_ c /\
  authorize_req_id_ c' = authorize_req_id_ c /\
  (subscribe_done_ c' = subscribe_done_ c \/ subscribe_done_ c' = Some (subscribe_ok_ c')).

Definition keeps_session (c : client) (m : outcome handled) : Prop :=
  exists c' jobs e, m = Done (c', jobs, e) /\ same_session c c' /\ (subscribe_done_ c = None -> e = None).

Lemma keeps_done c c' : same_session c c' -> keeps_session c (ok c').
Proof. intros H. exists c', [], None. by split_and!. Qed.

Lemma same_refl c : same_session c c.
Proof. unfold same_session. tauto. Qed.

Ltac same := unfold same_session; cbn; tauto.
Ltac accessor H :=
  match goal with
  | |- _ _ (mbind _ ?m) =>
      match m with
      | get_array_element ?l ?k ?i => destruct (get_array_element_returns l k i) as [? H]
      | get_array_first ?l ?k => destruct (get_array_first_returns l k) as [? H]
      | get_object ?l ?k => destruct (get_object_returns l k) as [? H]
      | get_raw ?l ?k => destruct (get_raw_returns l k) as [? H]
      | get_string ?l ?k => destruct (get_string_returns l k) as [? H]
      end
  end; rewrite H; clear H; cbn [mbind outcome_bind].

Lemma process_job_object_keeps obj c0 c : same_session c0 c -> keeps_session c0 (process_job_object obj c).
Proof.
  intros H0. unfold process_job_object. do 4 (let H := fresh in accessor H). unfold process_cryptonote_job.
  destruct (_ || _); [by apply keeps_done|]. destruct (negb _); [by apply keeps_done|].
  do 3 eexists. split; [reflexivity|by split].
Qed.

Lemma handle_reply_keeps line c : keeps_session c (handle_reply line c).
Proof.
  unfold handle_reply. do 3 (let H := fresh in accessor H). case_bool_decide.
  - unfold finish_handshake. destruct (negb _).
    + destruct (subscribe_done_ c) eqn:E; (do 3 eexists; split; [reflexivity|]); (split; [unfold same_session; cbn; rewrite E; tauto|congruence]).
    + destruct (contains line _).
      * let H := fresh in accessor H. cbn [subscribe_done_ with_session]. destruct (subscribe_done_ c) eqn:E.
        -- do 3 eexists. split; [reflexivity|]. split; [unfold same_session; cbn; rewrite E; tauto|congruence].
        -- let H := fresh in accessor H. case_bool_decide; [apply keeps_done; same|]. apply process_job_object_keeps. same.
      * set (c1 := if bool_decide _ then c else _). assert (c1 = c \/ exists en1, c1 = with_extra_nonce en1 c) as Hc
          by (unfold c1; case_bool_decide; eauto).
        destruct Hc as [->|[en1 ->]]; cbn [subscribe_done_ with_extra_nonce];
          destruct (subscribe_done_ c) eqn:E; (do 3 eexists; split; [reflexivity|]); (split; [unfold same_session; cbn; rewrite E; tauto|congruence]).
  - repeat (case_bool_decide || destruct (contains _ _) || destruct (_ || _) || destruct (negb _)); apply keeps_done; same.
Qed.

Lemma handle_line_keeps stod line c : keeps_session c (handle_line stod line c).
Proof.
  unfold handle_line. destruct (contains line _); [|apply handle_reply_keeps]. let H := fresh in accessor H.
  case_bool_decide; [|case_bool_decide; [|case_bool_decide; [|case_bool_decide; [|case_bool_decide]]]].
  - unfold handle_notify. do 4 (let H := fresh in accessor H). destruct (_ || _); [apply keeps_done; same|].
    destruct (negb _); [apply keeps_done; same|]. do 3 eexists. split; [reflexivity|split; [same|done]].
  - unfold handle_set_target. let H := fresh in accessor H. destruct (negb _); apply keeps_done; same.
  - unfold handle_set_difficulty. let H := fresh in accessor H. case_bool_decide; [apply keeps_done; same|].
    destruct (stod _); apply keeps_done; same.
  - unfold handle_set_extranonce. let H := fresh in accessor H. apply keeps_done. case_bool_decide; same.
  - let H := fresh in accessor H. apply process_job_object_keeps, same_refl.
  - apply keeps_done, same_refl.
Qed.

(** ** One connection *)

(** What a turn of the loop in [connect] meets: no address of the host answers (or its TLS handshake
    fails), or a peer.  Of a peer: the lines the reader thread handles until the reply to the handshake or the end
    of the 10 seconds, then those it handles before [connect] looks at [subscribe_ok_], those before
    [connect] acts on it, and those before [connect] returns; [lost]: the peer closes in the meantime. *)
Inductive attempt : Type := Unreachable | Answers (lines early middle late : list text) (lost : bool).
#[export] Instance attempt_eq_dec : EqDecision attempt.
Proof. solve_decision. Defined.

(** The client, what it has handed to [send_line], the jobs given to the engine, and [connected_]. *)
Record session : Type := mkSession { peer : client; sent : list text; delivered : list Job; connected_ : bool }.

Definition connect_error : exn := runtime_error "StratumClient".

Section connecting.
Context (stod : text -> option Z).

(** The reader thread over some lines: the client, the jobs, and whether the thread goes on; it ends, and clears
    [connected_], when a handler throws. *)
Fixpoint follow (lines : list text) (c : client) : outcome (client * list Job * bool) :=
  match lines with
  | [] => Done (c, [], true)
  | line :: lines =>
      '(c, new, e) ← handle_line stod line c;
      match e with
      | Some _ => Done (c, new, false)
      | None => '(c, jobs, alive) ← follow lines c; Done (c, new ++ jobs, alive)
      end
  end.
Definition follow_if (alive : bool) (lines : list text) (c : client) : outcome (client * list Job * bool) :=
  if alive then follow lines c else Done (c, [], false).

(** The same while [connect] waits: until the promise has its value. *)
Fixpoint await_reply (lines : list text) (c : client) : outcome (client * list Job * bool) :=
  match subscribe_done_ c, lines with
  | None, line :: lines =>
      '(c, new, e) ← handle_line stod line c;
      match e with
      | Some _ => Done (c, new, false)
      | None => '(c, jobs, alive) ← await_reply lines c; Done (c, new ++ jobs, alive)
      end
  | _, _ => Done (c, [], true)
  end.

Definition handshake_msg (c : client) : text * client :=
  match (match protocol_ c with AUTO => CRYPTONOTE | p => p end) with
  | STRATUM_V1 => build_subscribe_msg c
  | _ => build_login_msg c
  end.

(** What follows a successful handshake: [AUTO] becomes the active protocol; Stratum V1 authorizes. *)
Definition settle (c : client) : client * list text :=
  let c := match protocol_ c with AUTO => with_protocol CRYPTONOTE c | _ => c end in
  match protocol_ c with
  | STRATUM_V1 => let '(msg, c) := build_authorize_msg c in (c, [msg])
  | _ => (c, [])
  end.

(** The loop of [connect]: the session left behind and the exception thrown, if any.  A new turn is a
    new attempt; [NoFuel] when the list of attempts ends first.  [close_connection] clears [connected_] and
    joins the reader thread. *)
Fixpoint connect_loop (attempts : list attempt) (s : session) : outcome (session * option exn) :=
  match attempts with
  | [] => NoFuel
  | Unreachable :: _ => Done (s, Some connect_error)
  | Answers lines early middle late lost :: attempts =>
      let '(msg, c) := handshake_msg (with_handshake None (subscribe_ok_ (peer s)) (peer s)) in
      let out := sent s ++ [msg] in
      '(c, jobs, alive) ← await_reply lines c;
      let ready := subscribe_done_ c in
      '(c, jobs1, alive) ← follow_if alive early c;
      let ok := subscribe_ok_ c in
      '(c, jobs2, alive) ← follow_if alive middle c;
      let jobs := delivered s ++ jobs ++ jobs1 ++ jobs2 in
      if bool_decide (ready = None) then Done (mkSession c out jobs false, Some connect_error)
      else if negb ok then
        match protocol_ c with
        | AUTO => connect_loop attempts (mkSession (with_protocol STRATUM_V1 c) out jobs false)
        | _ => Done (mkSession c out jobs false, Some connect_error)
        end
      else
        let '(c, more) := settle c in
        '(c, jobs3, alive) ← follow_if alive late c;
        Done (mkSession c (out ++ more) (jobs ++ jobs3) (alive && negb lost), None)
  end.

(** [have_tls]: the build defines ARMRX_HAVE_TLS. *)
Definition connect (have_tls tls_enabled_ : bool) (attempts : list attempt) (s : session) : outcome (session * option exn) :=
  if connected_ s then Done (s, None)
  else if negb have_tls && tls_enabled_ then Done (s, Some connect_error)
  else connect_loop attempts s.
End connecting.

(** [submit_share]: dropped when the connection is down. *)
Definition submit_share (job : Job) (nonce : Z) (hash : list Z) (s : session) : outcome session :=
  if negb (connected_ s) then Done s
  else '(msg, c) ← build_submit_msg job nonce hash (peer s);
       Done (mkSession c (sent s ++ [msg]) (delivered s) (connected_ s)).

(** ** Reconnecting *)

Definition kMaxBackoffMs : Z := 30000.

(** One turn of [reconnect_loop]: [disconnect] is called during the wait, [connect] throws, or it
    succeeds. *)
Inductive retry : Type := Disabled | Failed | Reconnected.
Inductive loop_end : Type := Stopped | Exhausted | Success | Running.

(** The delays waited, the counter of attempts, how the loop ends ([Running]: the trace ends first). *)
Fixpoint reconnect_loop (max_retries : Z) (retries : list retry) (delay attempts : Z) (waited : list Z)
  : list Z * Z * loop_end :=
  match retries with
  | [] => (waited, attempts, Running)
  | r :: retries =>
      let delay := if kMaxBackoffMs <? delay then kMaxBackoffMs else delay in
      let waited := waited ++ [delay] in
      match r with
      | Disabled => (waited, attempts, Stopped)
      | _ =>
          let attempts := wrap 32 (attempts + 1) in
          if (0 <? max_retries) && (max_retries <? attempts) then (waited, attempts, Exhausted)
          else match r with
               | Reconnected => (waited, 0, Success)
               | _ => reconnect_loop max_retries retries (wrap 32 (delay * 2)) attempts waited
               end
      end
  end.

(** ** The negotiation *)

Section negotiation.
Context (stod : text -> option Z).

(** What the peer makes of the handshake, said without the loop: one of the lines is the reply, *)
Inductive replies : list text -> client -> client -> bool -> Prop :=
  | reply_now line lines c c' jobs e :
      handle_line stod line c = Done (c', jobs, e) -> subscribe_done_ c' <> None -> replies (line :: lines) c c' (bool_decide (e = None))
  | reply_later line lines c c1 jobs c' alive :
      handle_line stod line c = Done (c1, jobs, None) -> subscribe_done_ c1 = None -> replies lines c1 c' alive ->
      replies (line :: lines) c c' alive.
(** and [subscribe_ok_] is what it is when [connect] looks. *)
Inductive verdict : attempt -> client -> bool -> client -> Prop :=
  | verdict_reply lines early middle late lost c msg c0 c1 c2 c3 alive1 alive2 alive3 jobs2 jobs3 :
      handshake_msg (with_handshake None (subscribe_ok_ c) c) = (msg, c0) -> replies lines c0 c1 alive1 ->
      follow_if stod alive1 early c1 = Done (c2, jobs2, alive2) -> follow_if stod alive2 middle c2 = Done (c3, jobs3, alive3) ->
      verdict (Answers lines early middle late lost) c (subscribe_ok_ c2) c3.

Lemma follow_keeps lines : forall c, exists c' jobs alive, follow stod lines c = Done (c', jobs, alive) /\ protocol_ c' = protocol_ c.
Proof.
  induction lines as [|line lines IH]; intros c; cbn [follow]; [by exists c, [], true|].
  destruct (handle_line_keeps stod line c) as (c1 & new & e & -> & (H1 & _) & _). cbn [mbind outcome_bind].
  destruct e; [by eexists _, _, _|]. destruct (IH c1) as (c2 & jobs & alive & -> & H2). cbn [mbind outcome_bind].
  eexists _, _, _. split; [reflexivity|congruence].
Qed.
Lemma follow_if_keeps alive lines c : exists c' jobs alive', follow_if stod alive lines c = Done (c', jobs, alive') /\ protocol_ c' = protocol_ c /\
  (lines = [] -> alive' = alive).
Proof.
  destruct alive; [|by exists c, [], false]. destruct (follow_keeps lines c) as (c' & jobs & alive & E & H). exists c', jobs, alive.
  split_and!; [done|done|]. intros ->. cbn in E. congruence.
Qed.

(** Waiting ends with the reply, or without one. *)
Lemma await_reply_ends lines : forall c, subscribe_done_ c = None ->
  exists c' jobs alive, await_reply stod lines c = Done (c', jobs, alive) /\ protocol_ c' = protocol_ c /\ alive = true /\
    (subscribe_done_ c' <> None -> replies lines c c' alive) /\
    (forall c2 alive2, replies lines c c2 alive2 -> c2 = c' /\ alive2 = alive /\ subscribe_done_ c' <> None).
Proof.
  induction lines as [|line lines IH]; intros c Hn; cbn [await_reply]; rewrite Hn.
  - exists c, [], true. split_and!; [done..|]. intros c2 a H. inversion H.
  - destruct (handle_line_keeps stod line c) as (c1 & new & e & E & (H1 & _) & He). specialize (He Hn). subst e.
    rewrite E. cbn [mbind outcome_bind]. destruct (subscribe_done_ c1) eqn:E1.
    + exists c1, new, true. split_and!; [|done|done| |].
      * destruct lines; cbn [await_reply]; rewrite E1; cbn; by rewrite app_nil_r.
      * intros _. apply (reply_now line lines c c1 new None E). congruence.
      * intros c2 a H. inversion H as [? ? ? ? ? ? E' Hs|? ? ? ? ? ? ? E' Hs]; subst; rewrite E in E'; inversion E'; subst; [|congruence].
        split_and!; [done|done|congruence].
    + destruct (IH c1 E1) as (c2 & jobs & alive & E2 & H2 & Ha & H3 & H4). rewrite E2. cbn [mbind outcome_bind].
      exists c2, (new ++ jobs), alive. split_and!; [done|congruence|done| |].
      * intros Hs. by eapply reply_later; [exact E|exact E1|apply H3].
      * intros c3 a H. inversion H as [? ? ? ? ? ? E' Hs|? ? ? ? ? ? ? E' Hs Hr]; subst; rewrite E in E'; inversion E'; subst; [congruence|].
        by apply H4.
Qed.

Lemma handshake_msg_keeps c : exists msg c', handshake_msg c = (msg, c') /\ protocol_ c' = protocol_ c /\
  subscribe_done_ c' = subscribe_done_ c.
Proof. unfold handshake_msg. destruct (protocol_ c) eqn:E; (do 2 eexists; split; [reflexivity|by rewrite <- E]). Qed.

(** A peer whose connection stays and that sends nothing after the reply. *)
Definition quiet (a : attempt) : Prop :=
  match a with Answers _ early middle late lost => early = [] /\ middle = [] /\ late = [] /\ lost = false | Unreachable => True end.

(** One turn that meets a peer ends by its verdict. *)
Lemma connect_turn a rest s : a <> Unreachable -> exists msg,
  (exists c jobs, (forall b c', ~ verdict a (peer s) b c') /\
     connect_loop stod (a :: rest) s = Done (mkSession c (sent s ++ [msg]) jobs false, Some connect_error)) \/
  (exists b c jobs, protocol_ c = protocol_ (peer s) /\ (forall b' c', verdict a (peer s) b' c' <-> b' = b /\ c' = c) /\
     if b : bool then exists c' more jobs' up, connect_loop stod (a :: rest) s = Done (mkSession c' ((sent s ++ [msg]) ++ more) jobs' up, None) /\
       (length more <= 1)%nat /\ protocol_ c' = match protocol_ c with AUTO => CRYPTONOTE | p => p end /\
       (protocol_ c = STRATUM_V1 -> length more = 1%nat) /\ (quiet a -> up = true)
     else connect_loop stod (a :: rest) s =
       match protocol_ c with
       | AUTO => connect_loop stod rest (mkSession (with_protocol STRATUM_V1 c) (sent s ++ [msg]) jobs false)
       | _ => Done (mkSession c (sent s ++ [msg]) jobs false, Some connect_error)
       end).
Proof.
  destruct a as [|lines early middle late lost]; [done|intros _]. cbn [connect_loop]. set (c0 := with_handshake None _ _).
  destruct (handshake_msg_keeps c0) as (msg & c1 & Em & Hp1 & Hd1). rewrite Em. exists msg.
  destruct (await_reply_ends lines c1 Hd1) as (c2 & jobs1 & alive & -> & Hp2 & -> & Hr & Hu). cbn [mbind outcome_bind].
  destruct (follow_if_keeps true early c2) as (c3 & jobs2 & alive2 & E2 & Hp3 & Q2). rewrite E2. cbn [mbind outcome_bind].
  destruct (follow_if_keeps alive2 middle c3) as (c4 & jobs3 & alive3 & E3 & Hp4 & Q3). rewrite E3. cbn [mbind outcome_bind].
  assert (forall b c', verdict (Answers lines early middle late lost) (peer s) b c' -> b = subscribe_ok_ c3 /\ c' = c4 /\ subscribe_done_ c2 <> None) as Hv.
  { intros b c' H. inversion H as [? ? ? ? ? ? ? ? ? ? ? ? ? ? ? ? Em' Hr' E2' E3']; subst. fold c0 in Em'. rewrite Em in Em'. injection Em' as <- <-.
    destruct (Hu _ _ Hr') as (-> & -> & Hs). rewrite E2 in E2'. injection E2' as <- <- <-. rewrite E3 in E3'. by injection E3' as <- <- <-. }
  case_bool_decide as Ed.
  { left. eexists _, _. split; [|reflexivity]. intros b c' H. by destruct (Hv b c' H) as (_ & _ & ?). }
  right. exists (subscribe_ok_ c3), c4. assert (protocol_ c4 = protocol_ (peer s)) as Hp
    by (change (protocol_ c0) with (protocol_ (peer s)) in Hp1; congruence).
  eexists. split; [exact Hp|]. split.
  { intros b c'. split; [intros H; by destruct (Hv b c' H) as (-> & -> & _)|]. intros [-> ->]. eapply verdict_reply; [exact Em|by apply Hr|exact E2|exact E3]. }
  destruct (subscribe_ok_ c3); cbn [negb]; [|reflexivity]. unfold settle.
  assert (exists c5 more, (let c := match protocol_ c4 with AUTO => with_protocol CRYPTONOTE c4 | _ => c4 end in
      match protocol_ c with STRATUM_V1 => let '(msg, c) := build_authorize_msg c in (c, [msg]) | _ => (c, []) end) = (c5, more) /\
    (length more <= 1)%nat /\ protocol_ c5 = match protocol_ c4 with AUTO => CRYPTONOTE | p => p end /\ (protocol_ c4 = STRATUM_V1 -> length more = 1%nat))
    as (c5 & more & Es & H1 & H2 & H3).
  { destruct (protocol_ c4) eqn:E; cbn [protocol_ with_protocol]; rewrite ?E.
    - eexists _, _. split; [reflexivity|]. split_and!; [cbn; lia|done|done].
    - unfold build_authorize_msg, next_id. eexists _, _. split; [reflexivity|]. split_and!; [cbn; lia|by cbn|done].
    - eexists _, _. split; [reflexivity|]. split_and!; [cbn; lia|done|done]. }
  cbv zeta in Es. rewrite Es. destruct (follow_if_keeps alive3 late c5) as (c6 & jobs4 & alive4 & E4 & Hp6 & Q4). rewrite E4. cbn [mbind outcome_bind].
  eexists c6, more, _, _. split; [reflexivity|]. split_and!; [done|congruence|done|]. intros (-> & -> & -> & ->). rewrite Q4, Q3, Q2 by done. done.
Qed.
End negotiation.

(** [connect] threw: what is left to show is that no handshake was accepted. *)
Ltac threw := do 2 eexists; split; [reflexivity|]; split_and!; [split; [done|]; intros [Hbuild Haccept]|done|done|done|cbn; lia|done|done].


(** Runs without a configured protocol: the login is accepted and the peer stays; it is accepted twice, and the
    second reply ends the reader thread; it is refused and the subscription accepted; both are refused. *)
Example connect_runs :
  let reply id more := print (JObj ((lit "id", JRaw (lit id)) :: more)) in
  let accept id := reply id [(lit "jsonrpc", JStr (lit "2.0")); (lit "result", JObj [(lit "id", JStr (lit "s"))])] in
  let refuse id := reply id [(lit "error", JObj [(lit "code", JRaw (lit "-1"))])] in
  let subscribed id := reply id [(lit "result", JArr [])] in
  let start := mkSession (new_client (monero (lit "w") (lit "x"))) [] [] false in
  let run first second :=
    match connect (fun _ => None) false false [first; second] start with
    | Done (s, e) => Some (protocol_ (peer s), length (sent s), connected_ s, e)
    | _ => None
    end in
  run (Answers [accept "1"] [] [] [] false) Unreachable = Some (CRYPTONOTE, 1%nat, true, None) /\
  run (Answers [accept "1"] [] [] [accept "1"] false) Unreachable = Some (CRYPTONOTE, 1%nat, false, None) /\
  run (Answers [refuse "1"] [] [] [] false) (Answers [subscribed "2"] [] [] [] false) = Some (STRATUM_V1, 3%nat, true, None) /\
  run (Answers [refuse "1"] [] [] [] false) (Answers [refuse "2"] [] [] [] false) = Some (STRATUM_V1, 2%nat, false, Some connect_error).
Proof. vm_compute. done. Qed.

(** ** Backing off *)

(** The delay before attempt [i] counted from 0. *)
Definition backoff (base : Z) (i : nat) : Z := Z.min kMaxBackoffMs (base * 2 ^ Z.of_nat i).

Lemma reconnect_failures m base : 0 <= base < 2 ^ 32 -> 0 < m < 2 ^ 31 -> forall n k delay waited rest,
  Z.of_nat (k + n) <= m -> Z.min kMaxBackoffMs delay = backoff base k -> 0 <= delay ->
  exists delay', reconnect_loop m (replicate n Failed ++ rest) delay (Z.of_nat k) waited
    = reconnect_loop m rest delay' (Z.of_nat (k + n)) (waited ++ (backoff base <$> seq k n)) /\
    Z.min kMaxBackoffMs delay' = backoff base (k + n) /\ 0 <= delay'.
Proof.
  intros Hb Hm. induction n as [|n IH]; intros k delay waited rest Hn Hd H0.
  - exists delay. cbn [replicate app seq fmap list_fmap]. rewrite app_nil_r, Nat.add_0_r. done.
  - cbn [replicate app reconnect_loop].
    assert ((if kMaxBackoffMs <? delay then kMaxBackoffMs else delay) = backoff base k) as ->
      by (rewrite <- Hd; destruct (Z.ltb_spec kMaxBackoffMs delay); lia).
    rewrite (wrap_small 32 (Z.of_nat k + 1)) by (split; lia).
    replace ((0 <? m) && (m <? Z.of_nat k + 1)) with false by lia.
    assert (0 <= backoff base k <= 30000) as Hr.
    { unfold backoff, kMaxBackoffMs. assert (0 <= base * 2 ^ Z.of_nat k); [|lia]. apply Z.mul_nonneg_nonneg; [lia|]. apply Z.pow_nonneg. lia. }
    rewrite (wrap_small 32 (backoff base k * 2)) by (split; lia).
    replace (Z.of_nat k + 1) with (Z.of_nat (S k)) by lia.
    destruct (IH (S k) (backoff base k * 2) (waited ++ [backoff base k]) rest) as (d' & E & H1 & H2); [lia| |lia|].
    + unfold backoff. rewrite Nat2Z.inj_succ, Z.pow_succ_r by lia. unfold kMaxBackoffMs. lia.
    + exists d'. rewrite E. replace (S k + n)%nat with (k + S n)%nat in * by lia. split_and!; [|done..].
      by rewrite <- app_assoc.
Qed.

(** The reconnect loop backs off and gives up.  The wait before attempt i is base * 2^i
    milliseconds, never more than 30 seconds and without overflow; with a limit of m attempts, m failed
    ones are followed by one more wait and the end of the loop, with the counter at m + 1; a success
    resets the counter. *)
Theorem reconnect_backoff (m base : Z) (n : nat) (rest : list retry) :
  0 <= base < 2 ^ 32 -> 0 < m < 2 ^ 31 -> Z.of_nat n < m ->
  (exists waited, reconnect_loop m (replicate n Failed ++ Reconnected :: rest) base 0 [] = (waited, 0, Success) /\
     waited = backoff base <$> seq 0 (S n) /\ Forall (fun d => 0 <= d <= 30000) waited) /\
  reconnect_loop m (replicate (Z.to_nat m) Failed ++ Failed :: rest) base 0 []
    = (backoff base <$> seq 0 (S (Z.to_nat m)), m + 1, Exhausted).
Proof.
  intros Hb Hm Hn. assert (Z.min kMaxBackoffMs base = backoff base 0) as E0 by (unfold backoff; f_equal; lia). split.
  - eexists. destruct (reconnect_failures m base Hb Hm n 0 base [] (Reconnected :: rest)) as (d' & E & H1 & H2); [lia|done|lia|].
    cbn [app] in E. change (Z.of_nat 0) with 0 in E. rewrite Nat.add_0_l in *. rewrite E. split; [|split; [reflexivity|]].
    + cbn [reconnect_loop]. assert ((if kMaxBackoffMs <? d' then kMaxBackoffMs else d') = backoff base n) as ->
        by (rewrite <- H1; destruct (Z.ltb_spec kMaxBackoffMs d'); lia).
      rewrite wrap_small by (split; lia). replace ((0 <? m) && (m <? Z.of_nat n + 1)) with false by lia.
      by rewrite seq_S, fmap_app.
    + apply Forall_fmap, Forall_forall. intros i _. cbn. unfold backoff, kMaxBackoffMs.
      assert (0 <= base * 2 ^ Z.of_nat i); [|lia]. apply Z.mul_nonneg_nonneg; [lia|]. apply Z.pow_nonneg. lia.
  - destruct (reconnect_failures m base Hb Hm (Z.to_nat m) 0 base [] (Failed :: rest)) as (d' & E & H1 & H2); [lia|done|lia|].
    cbn [app] in E. change (Z.of_nat 0) with 0 in E. rewrite Nat.add_0_l in *. rewrite E. cbn [reconnect_loop].
    assert ((if kMaxBackoffMs <? d' then kMaxBackoffMs else d') = backoff base (Z.to_nat m)) as ->
      by (rewrite <- H1; destruct (Z.ltb_spec kMaxBackoffMs d'); lia).
    rewrite (Z2Nat.id m), wrap_small by (try split; lia). destruct (Z.ltb_spec 0 m), (Z.ltb_spec m (m + 1)); [|lia..].
    cbn [andb]. by rewrite (seq_S (Z.to_nat m)), fmap_app.
Qed.

Lemma reconnect_backoff_witness :
  reconnect_loop 5 (replicate 5 Failed ++ [Failed]) 1000 0 [] = ([1000; 2000; 4000; 8000; 16000; 30000], 6, Exhausted).
Proof. refine (eq_trans (proj2 (reconnect_backoff 5 1000 4 [] _ _ _)) eq_refl); lia. Defined.

(** ** Disconnecting while a reconnection is under way

    [disconnect] on one thread, [reconnect_loop] on its own; the flags they share.  [connect] stores
    [true] into [reconnect_enabled_] before it opens the socket. *)
Inductive disconnect_pc : Type := DClear | DClose | DJoin | DReturned.
Inductive reconnect_pc : Type := RWait | RCheck | RConnect | RHandshake | RExited.

Record shared : Type := mkShared {
  reconnect_enabled_ : bool;
  up : bool;                       (* connected_, with its reader thread running *)
  disconnecting : disconnect_pc;
  reconnecting : reconnect_pc;
}.

Inductive shared_step : shared -> shared -> Prop :=
  | step_clear en u r : shared_step (mkShared en u DClear r) (mkShared false u DClose r)
  | step_close en u r : shared_step (mkShared en u DClose r) (mkShared en false DJoin r)
  | step_join en u : shared_step (mkShared en u DJoin RExited) (mkShared en u DReturned RExited)
  | step_wait en u d : shared_step (mkShared en u d RWait) (mkShared en u d RCheck)
  | step_check en u d : shared_step (mkShared en u d RCheck) (mkShared en u d (if en then RConnect else RExited))
  | step_enable en u d : shared_step (mkShared en u d RConnect) (mkShared true u d RHandshake)
  | step_accepted en u d : shared_step (mkShared en u d RHandshake) (mkShared en true d RExited)
  | step_failed en u d : shared_step (mkShared en u d RHandshake) (mkShared en false d (if en then RWait else RExited)).

(** Once the loop has passed its check, [disconnect] can return with the connection up again and its
    reader thread running; a loop that sees the cleared flag exits without connecting. *)
Lemma disconnect_overtaken :
  rtc shared_step (mkShared true false DClear RCheck) (mkShared true true DReturned RExited).
Proof.
  eapply rtc_l; [apply step_check|]. eapply rtc_l; [apply step_clear|]. eapply rtc_l; [apply step_close|].
  eapply rtc_l; [apply step_enable|]. eapply rtc_l; [apply step_accepted|]. eapply rtc_l; [apply step_join|]. apply rtc_refl.
Qed.

Definition cleared_before_check (s : shared) : Prop :=
  reconnect_enabled_ s = false /\ disconnecting s <> DClear /\
  (reconnecting s = RWait \/ reconnecting s = RCheck \/ reconnecting s = RExited) /\
  (disconnecting s = DJoin \/ disconnecting s = DReturned -> up s = false).

Lemma disconnect_in_time s s' : cleared_before_check s -> rtc shared_step s s' ->
  disconnecting s' = DReturned -> up s' = false /\ reconnect_enabled_ s' = false.
Proof.
  intros H Hs. assert (cleared_before_check s') as (H1 & _ & _ & H2).
  { induction Hs as [s|s s1 s' Hstep _ IH]; [done|]. apply IH. destruct H as (H1 & H2 & H3 & H4).
    inversion Hstep; subst; cbn in *; subst; unfold cleared_before_check; cbn; intuition congruence. }
  auto.
Qed.
