(* ===== verification/Config.v ===== *)
(** * The configuration file

    Models src/src/config.cpp: the checked parse of unsigned numbers ([std::stoull] included), "host:port",
    and the load of a JSON file or of the first default location that gives a pool or a wallet.  The file
    system and the environment are parameters: [files path] is the text of a file that opens. *)

From S2P Require Import Prelude Text Json.

(** ** Numbers *)

(** [isspace] in the C locale. *)
Definition is_space (c : Z) : bool := (c =? space) || ((9 <=? c) && (c <=? 13)).
Abbreviation plus := 43.

(** [std::stoull]: whitespace, a sign, digits; a minus sign negates modulo 2^64; what follows the digits
    is ignored. *)
Definition stoull (s : text) : outcome Z :=
  let t := drop (span is_space s) s in
  let '(neg, t) := match t with
                   | c :: r => if c =? minus then (true, r) else if c =? plus then (false, r) else (false, t)
                   | [] => (false, [])
                   end in
  let ds := take (span is_digit t) t in
  if bool_decide (ds = []) then Throw (invalid_argument "stoull")
  else let v := of_digits ds in
       if 2 ^ 64 <=? v then Throw (out_of_range "stoull") else Done (wrap 64 (if (neg : bool) then - v else v)).

Definition parse_bounded_ull (s : text) (max_value : Z) : outcome Z :=
  if looking_at s (span is_blank s) minus then Throw (out_of_range "negative value not allowed")
  else v ← stoull s;
       if max_value <? v then Throw (out_of_range "value exceeds allowed maximum") else Done v.

(** A number that a [try] around [parse_bounded_ull] gives, or the value it had. *)
Definition parse_or (s : text) (max_value default : Z) : Z :=
  match parse_bounded_ull s max_value with Done v => v | _ => default end.

(** ** Pools *)

Record PoolConfig : Type := mkPool { host : text; port : Z; tls : bool }.
Definition default_port : Z := 3333.

Definition parse_pool_str (s : text) : PoolConfig :=
  match rfind_char colon s with
  | Some i => mkPool (take i s) (parse_or (drop (i + 1) s) 65535 default_port) false
  | None => mkPool s default_port false
  end.

(** ** The file *)

Record AppConfig : Type := mkConfig {
  pools : list PoolConfig;
  wallet : text;
  password : text;
  pool_tls : bool;
  mode : text;
  workers : Z;
  difficulty : Z;
  seconds : Z;
}.

Definition default_config : AppConfig := mkConfig [] [] (lit "x") false (lit "auto") 0 100 10.

Definition or_default (s default : text) : text := if bool_decide (s = []) then default else s.
Definition number_or (s : text) (max_value default : Z) : Z :=
  if bool_decide (s = []) then default else parse_or s max_value default.

(** The part of [load_config] after the file is read. *)
Definition read_config (json : text) : outcome AppConfig :=
  pool_str ← get_string json (lit "pool");
  pools_arr ← get_str_array json (lit "pools");
  wallet ← get_string json (lit "wallet");
  password ← get_string json (lit "password");
  mode ← get_string json (lit "mode");
  tls_str ← get_raw json (lit "tls");
  workers_str ← get_raw json (lit "workers");
  diff_str ← get_raw json (lit "difficulty");
  sec_str ← get_raw json (lit "seconds");
  Done (mkConfig
    ((if bool_decide (pool_str = []) then [] else [parse_pool_str pool_str]) ++ (parse_pool_str <$> pools_arr))
    wallet (or_default password (lit "x")) (bool_decide (tls_str = lit "true")) (or_default mode (lit "auto"))
    (number_or workers_str 4096 (workers default_config))
    (number_or diff_str (2 ^ 64 - 1) (difficulty default_config))
    (number_or sec_str (2 ^ 32 - 1) (seconds default_config))).

Section load.
Context (files : text -> option text) (getenv : text -> option text).

Definition load_config (path : text) : outcome AppConfig :=
  match files path with Some json => read_config json | None => Done default_config end.

Definition usable (cfg : AppConfig) : bool := negb (bool_decide (pools cfg = [])) || negb (bool_decide (wallet cfg = [])).

(** The first of the files that gives a pool or a wallet. *)
Fixpoint first_usable (paths : list text) : outcome AppConfig :=
  match paths with
  | [] => Done default_config
  | path :: paths => cfg ← load_config path; if usable cfg then Done cfg else first_usable paths
  end.

Definition load_default_config : outcome AppConfig :=
  let env := match getenv (lit "ARMRX_CONFIG") with Some path => [path] | None => [] end in
  let home := match getenv (lit "HOME") with Some h => [h ++ lit "/.config/armrx/config.json"] | None => [] end in
  first_usable (env ++ home ++ [lit "./armrx.conf"]).

Definition load_config_with_fallback (explicit_path : text) : outcome AppConfig :=
  if bool_decide (explicit_path = []) then load_default_config else load_config explicit_path.
End load.

(** ** Numbers that are parsed *)

Lemma parse_bounded_range s m v : 0 <= m -> parse_bounded_ull s m = Done v -> 0 <= v <= m.
Proof.
  intros Hm. unfold parse_bounded_ull. destruct (looking_at _ _ _); [done|]. unfold stoull.
  set (p := match drop _ s with [] => _ | _ :: _ => _ end). destruct p as [neg t]. case_bool_decide; [done|].
  destruct (_ <=? _); [done|]. cbn [mbind outcome_bind]. destruct (Z.ltb_spec m (wrap 64 (if neg then - of_digits (take (span is_digit t) t) else of_digits (take (span is_digit t) t)))); [done|].
  intros [= <-]. split; [|done]. apply wrap_range. lia.
Qed.

Lemma parse_or_range s m d : 0 <= m -> 0 <= d <= m -> 0 <= parse_or s m d <= m.
Proof.
  intros Hm Hd. unfold parse_or. destruct (parse_bounded_ull s m) eqn:E; [|done..]. by eapply parse_bounded_range.
Qed.

Lemma number_or_range s m d : 0 <= m -> 0 <= d <= m -> 0 <= number_or s m d <= m.
Proof. intros Hm Hd. unfold number_or. case_bool_decide; [done|]. by apply parse_or_range. Qed.

Lemma digit_not c : is_digit c = true -> is_space c = false /\ is_blank c = false /\ c <> minus /\ c <> plus.
Proof. unfold is_digit, is_space, is_blank. lia. Qed.

Lemma of_digits_nonneg ds : forallb is_digit ds = true -> 0 <= of_digits ds.
Proof.
  induction ds as [|d ds IH] using rev_ind; intros Hd; [done|]. rewrite forallb_app in Hd. apply andb_true_iff in Hd as [H1 H2].
  specialize (IH H1). unfold of_digits in *. rewrite foldl_app. cbn [foldl]. cbn [forallb] in H2. unfold is_digit in H2. lia.
Qed.

(** Digits, then anything but a digit: the number. *)
Lemma parse_digits ds rest m : forallb is_digit ds = true -> ds <> [] ->
  match rest with c :: _ => is_digit c = false | [] => True end ->
  parse_bounded_ull (ds ++ rest) m =
    (if 2 ^ 64 <=? of_digits ds then Throw (out_of_range "stoull")
     else if m <? of_digits ds then Throw (out_of_range "value exceeds allowed maximum") else Done (of_digits ds)).
Proof.
  intros Hd Hn Hr. destruct ds as [|c ds]; [done|]. pose proof Hd as Hc. cbn [forallb] in Hc. apply andb_true_iff in Hc as [Hc _].
  destruct (digit_not c Hc) as (H1 & H2 & H3 & H4). unfold parse_bounded_ull, stoull.
  cbn [app span]. rewrite H1, H2, drop_0. cbn [looking_at lookup list_lookup]. destruct (Z.eqb_spec c minus); [done|].
  destruct (Z.eqb_spec c plus); [done|]. change (c :: ds ++ rest) with ((c :: ds) ++ rest).
  rewrite (span_all is_digit (c :: ds) rest Hd Hr), take_app_length, bool_decide_false by done.
  destruct (Z.leb_spec (2 ^ 64) (of_digits (c :: ds))) as [H|H]; [done|]. cbn [mbind outcome_bind].
  rewrite wrap_small; [done|]. split; [by apply of_digits_nonneg|done].
Qed.

Lemma parse_number n m : word64 n -> parse_bounded_ull (to_string n) m =
  if m <? n then Throw (out_of_range "value exceeds allowed maximum") else Done n.
Proof.
  intros Hn. destruct (to_string_ok n Hn) as (H1 & H2 & H3). rewrite <- (app_nil_r (to_string n)).
  rewrite parse_digits, H3 by done. destruct Hn. by destruct (Z.leb_spec (2 ^ 64) n); [lia|].
Qed.

Lemma number_or_number n m d : word64 n -> n <= m -> number_or (to_string n) m d = n.
Proof.
  intros Hn Hm. unfold number_or. rewrite bool_decide_false by (by apply to_string_ok). unfold parse_or.
  rewrite parse_number by done. by destruct (Z.ltb_spec m n); [lia|].
Qed.

(** A number is taken only when it is in range.  Whatever the text, [parse_bounded_ull] returns or
    throws [out_of_range] or [invalid_argument], and what it returns is at most the maximum; the decimal
    text of a 64-bit number gives that number, or throws exactly when it is above the maximum; text that
    starts with a minus sign after spaces and tabs throws. *)
Theorem numbers_bounded (s : text) (n m : Z) : 0 <= m < 2 ^ 64 -> word64 n ->
  match parse_bounded_ull s m with
  | Done v => 0 <= v <= m
  | Throw (out_of_range _) | Throw (invalid_argument _) => True
  | _ => False
  end /\
  parse_bounded_ull (to_string n) m =
    (if m <? n then Throw (out_of_range "value exceeds allowed maximum") else Done n) /\
  (forall blanks rest, forallb is_blank blanks = true ->
     parse_bounded_ull (blanks ++ minus :: rest) m = Throw (out_of_range "negative value not allowed")).
Proof.
  intros Hm Hn. split_and!; [|by apply parse_number|].
  - destruct (parse_bounded_ull s m) as [v|e| |] eqn:E; [eapply parse_bounded_range; [lia|exact E]|..]; revert E;
      unfold parse_bounded_ull, stoull; destruct (looking_at _ _ _); try (by intros [= <-]); try done;
      destruct (match drop _ s with [] => _ | _ :: _ => _ end) as [neg t]; case_bool_decide; try (by intros [= <-]); try done;
      destruct (_ <=? _); try (by intros [= <-]); try done; cbn [mbind outcome_bind]; destruct (_ <? _); try (by intros [= <-]); done.
  - intros blanks rest Hb. unfold parse_bounded_ull. rewrite span_all by done. unfold looking_at.
    by rewrite list_lookup_middle.
Qed.

Lemma numbers_bounded_witness :
  parse_bounded_ull (to_string 65539) 65535 = Throw (out_of_range "value exceeds allowed maximum") /\
  parse_bounded_ull (lit " -1") 65535 = Throw (out_of_range "negative value not allowed").
Proof.
  assert (0 <= 65535 < 2 ^ 64) as Hm by (split; [discriminate|reflexivity]).
  assert (word64 65539) as Hn by (split; [discriminate|reflexivity]).
  exact (conj (proj1 (proj2 (numbers_bounded [] 65539 65535 Hm Hn)))
              (proj2 (proj2 (numbers_bounded [] 65539 65535 Hm Hn)) [space] [49] eq_refl)).
Defined.

(** [std::stoull] skips all whitespace, the check only blanks: a minus sign after a line break wraps. *)
Lemma negative_after_newline : parse_bounded_ull [newline; minus; 49] (2 ^ 64 - 1) = Done (2 ^ 64 - 1).
Proof. reflexivity. Qed.

(** The port of an address without one: the last group of an IPv6 address becomes the port. *)
Lemma ipv6_config_misread : parse_pool_str (lit "2001:db8::1") = mkPool (lit "2001:db8:") 1 false.
Proof. reflexivity. Qed.

(** ** Every file gives a configuration in range *)

Record config_range (cfg : AppConfig) : Prop := {
  cr_ports : Forall (fun p => 0 <= port p <= 65535) (pools cfg);
  cr_workers : 0 <= workers cfg <= 4096;
  cr_difficulty : word64 (difficulty cfg);
  cr_seconds : 0 <= seconds cfg < 2 ^ 32;
}.

Lemma parse_pool_str_port s : 0 <= port (parse_pool_str s) <= 65535.
Proof. unfold parse_pool_str. destruct (rfind_char colon s); [|done]. by apply parse_or_range. Qed.

Lemma read_config_range json : exists cfg, read_config json = Done cfg /\ config_range cfg.
Proof.
  unfold read_config. destruct (get_string_returns json (lit "pool")) as [pool_str ->], (get_str_array_returns json (lit "pools")) as [pools_arr ->],
    (get_string_returns json (lit "wallet")) as [w ->], (get_string_returns json (lit "password")) as [p ->],
    (get_string_returns json (lit "mode")) as [m ->], (get_raw_returns json (lit "tls")) as [t ->], (get_raw_returns json (lit "workers")) as [ws ->],
    (get_raw_returns json (lit "difficulty")) as [ds ->], (get_raw_returns json (lit "seconds")) as [ss ->].
  cbn [mbind outcome_bind]. eexists. split; [reflexivity|].
  constructor; cbn [pools workers difficulty seconds].
  - apply Forall_app. split; [case_bool_decide; [constructor|constructor; [apply parse_pool_str_port|constructor]]|].
    apply Forall_fmap, Forall_forall. intros x _. apply parse_pool_str_port.
  - apply number_or_range; [lia|cbn; lia].
  - pose proof (number_or_range ds (2 ^ 64 - 1) (difficulty default_config)). cbn in *. split; lia.
  - pose proof (number_or_range ss (2 ^ 32 - 1) (seconds default_config)). cbn in *. split; lia.
Qed.

Lemma load_range files getenv path : exists cfg, load_config_with_fallback files getenv path = Done cfg /\ config_range cfg.
Proof.
  assert (config_range default_config) as Hd by (constructor; [constructor|cbn; lia|split; cbn; lia|cbn; lia]).
  assert (forall p, exists cfg, load_config files p = Done cfg /\ config_range cfg) as Hl.
  { intros p. unfold load_config. destruct (files p); [apply read_config_range|by eexists]. }
  unfold load_config_with_fallback. case_bool_decide; [|apply Hl]. unfold load_default_config. generalize ((match getenv (lit "ARMRX_CONFIG") with Some path0 => [path0] | None => [] end)
    ++ (match getenv (lit "HOME") with Some h => [h ++ lit "/.config/armrx/config.json"] | None => [] end) ++ [lit "./armrx.conf"]).
  induction l as [|p l IH]; [by eexists|]. cbn [first_usable]. destruct (Hl p) as (cfg & -> & Hc). cbn [mbind outcome_bind].
  destruct (usable cfg); [by eexists|done].
Qed.

(** ** The file that describes a configuration *)

Definition pool_text (p : PoolConfig) : text := host p ++ [colon] ++ to_string (port p).
Definition printable (s : text) : bool := forallb (fun c => 32 <=? c) s.
Definition pool_ok (p : PoolConfig) : Prop := printable (host p) = true /\ 0 <= port p <= 65535 /\ tls p = false.

(** What a member of a JSON object says, or the default when there is no such member. *)
Section members.
Context (v : json_value).
Definition gives_text (k s dflt : text) : Prop :=
  (absent k v /\ s = dflt) \/ (exists t, occurs_in k v = Some (AsMember (JStr s), t) /\ printable s = true /\ (s = [] -> dflt = [])).
Definition gives_number (k : text) (n dflt max : Z) : Prop :=
  (absent k v /\ n = dflt) \/ (exists t, occurs_in k v = Some (AsMember (JRaw (to_string n)), t) /\ word64 n /\ n <= max).
Definition gives_flag (k : text) (b : bool) : Prop :=
  (absent k v /\ b = false) \/ (exists t, occurs_in k v = Some (AsMember (JRaw (if b then lit "true" else lit "false")), t)).
Definition gives_pool (ps : list PoolConfig) : Prop :=
  (absent (lit "pool") v /\ ps = []) \/
  (exists p t, ps = [p] /\ occurs_in (lit "pool") v = Some (AsMember (JStr (pool_text p)), t) /\ pool_ok p).
Definition gives_pools (ps : list PoolConfig) : Prop :=
  (absent (lit "pools") v /\ ps = []) \/
  (exists t, occurs_in (lit "pools") v = Some (AsMember (JArr (JStr <$> (pool_text <$> ps))), t) /\ Forall pool_ok ps).
End members.

(** A JSON object that describes a configuration: its members in any order, among any others, each optional. *)
Record describes (v : json_value) (cfg : AppConfig) : Prop := mkDescribes {
  ds_wf : wf_json v = true;
  ds_shape : container v = true;
  ds_pools : exists one many, pools cfg = one ++ many /\ gives_pool v one /\ gives_pools v many;
  ds_wallet : gives_text v (lit "wallet") (wallet cfg) [];
  ds_password : gives_text v (lit "password") (password cfg) (lit "x");
  ds_mode : gives_text v (lit "mode") (mode cfg) (lit "auto");
  ds_tls : gives_flag v (lit "tls") (pool_tls cfg);
  ds_workers : gives_number v (lit "workers") (workers cfg) 0 4096;
  ds_difficulty : gives_number v (lit "difficulty") (difficulty cfg) 100 (2 ^ 64 - 1);
  ds_seconds : gives_number v (lit "seconds") (seconds cfg) 10 (2 ^ 32 - 1);
}.

Lemma rfind_char_last c s rest : forallb (fun x => negb (x =? c)) rest = true -> rfind_char c (s ++ c :: rest) = Some (length s).
Proof.
  intros Hr. assert (rfind_char c rest = None) as E.
  { induction rest as [|x rest IH]; [done|]. cbn [forallb] in Hr. apply andb_true_iff in Hr as [H1 H2]. cbn [rfind_char].
    rewrite IH by done. by destruct (x =? c). }
  induction s as [|x s IH]; cbn [app rfind_char]; [by rewrite E, Z.eqb_refl|]. by rewrite IH.
Qed.

Lemma digits_no_colon s : forallb is_digit s = true -> forallb (fun x => negb (x =? colon)) s = true.
Proof. rewrite !forallb_forall. intros H c Hc. specialize (H c Hc). unfold is_digit in H. lia. Qed.

Lemma parse_pool_text p : 0 <= port p <= 65535 -> tls p = false -> parse_pool_str (pool_text p) = p.
Proof.
  intros Hp Ht. assert (word64 (port p)) as Hw by (split; lia). destruct (to_string_ok _ Hw) as (H1 & _ & _).
  unfold parse_pool_str, pool_text. cbn [app]. rewrite rfind_char_last by (by apply digits_no_colon).
  rewrite take_app_length, Nat.add_1_r.
  rewrite cons_middle, app_assoc, drop_app_length' by (rewrite length_app; cbn; lia).
  unfold parse_or. rewrite parse_number by done. destruct (Z.ltb_spec 65535 (port p)); [lia|]. destruct p; cbn in *. by subst.
Qed.

Lemma pool_text_printable p : pool_ok p -> printable (pool_text p) = true.
Proof.
  intros (H1 & H2 & _). unfold printable, pool_text in *. rewrite !forallb_app, H1. cbn [forallb andb Z.leb Z.compare Pos.compare Pos.compare_cont].
  assert (word64 (port p)) as Hw by (split; lia). destruct (to_string_ok _ Hw) as (E1 & _ & _).
  rewrite forallb_forall in *. intros c Hc. specialize (E1 c Hc). unfold is_digit in E1. lia.
Qed.

(** Whitespace at the end of the file. *)
Lemma file_printed k v rest : plain k = true -> wf_json v = true -> container v = true -> forallb is_ws rest = true -> printed k v rest.
Proof.
  intros Hk Hw Hc Hr. constructor; [done|done|by intros ->| |].
  - destruct rest as [|c rest]; [done|]. cbn [forallb] in Hr. apply andb_true_iff in Hr as [Hr _]. unfold separated, is_ws, plain_char in *. lia.
  - rewrite forallb_forall in *. intros c Hc'. specialize (Hr c Hc'). unfold is_ws in Hr. lia.
Qed.

Section described.
Context (v : json_value) (cfg : AppConfig) (rest : text) (Hv : describes v cfg) (Hrest : forallb is_ws rest = true).
Let json := print v ++ rest.

Lemma key_printed k : plain k = true -> printed k v rest.
Proof using Hv Hrest. intros Hk. destruct Hv. by apply file_printed. Qed.

Lemma described_text k s d : plain k = true -> gives_text v k s d -> exists r, get_string json k = Done r /\ or_default r d = s.
Proof using Hv Hrest.
  intros Hk [[Ha ->]|(t & E & Hp & Hd)].
  - exists []. split; [by apply get_missing; [apply key_printed|]|]. unfold or_default. by rewrite bool_decide_true.
  - exists s. unfold json. rewrite (get_string_found k v s t rest (key_printed k Hk) E), read_back_printable by done. split; [done|].
    unfold or_default. case_bool_decide; [|done]. subst s. by apply Hd.
Qed.

Lemma described_number k n d m : plain k = true -> gives_number v k n d m -> exists r, get_raw json k = Done r /\ number_or r m d = n.
Proof using Hv Hrest.
  intros Hk [[Ha ->]|(t & E & Hn & Hm)].
  - exists []. split; [by apply get_missing; [apply key_printed|]|]. unfold number_or. by rewrite bool_decide_true.
  - exists (to_string n). unfold json. rewrite (get_raw_found k v _ t rest (key_printed k Hk) E). split; [done|by apply number_or_number].
Qed.

Lemma described_flag k b : plain k = true -> gives_flag v k b -> exists r, get_raw json k = Done r /\ bool_decide (r = lit "true") = b.
Proof using Hv Hrest.
  intros Hk [[Ha ->]|(t & E)].
  - exists []. split; [by apply get_missing; [apply key_printed|]|]. done.
  - eexists. unfold json. rewrite (get_raw_found k v _ t rest (key_printed k Hk) E). split; [done|]. by destruct b.
Qed.

Lemma described_pool ps : gives_pool v ps ->
  exists r, get_string json (lit "pool") = Done r /\ (if bool_decide (r = []) then [] else [parse_pool_str r]) = ps.
Proof using Hv Hrest.
  intros [[Ha ->]|(p & t & -> & E & Hp)].
  - exists []. split; [by apply get_missing; [apply key_printed|]|done].
  - exists (pool_text p). unfold json. rewrite (get_string_found _ v _ t rest (key_printed (lit "pool") eq_refl) E).
    rewrite read_back_printable by (by apply pool_text_printable). split; [done|]. destruct Hp as (_ & H2 & H3).
    rewrite bool_decide_false by (unfold pool_text; by destruct (host p)). by rewrite parse_pool_text.
Qed.

Lemma described_pools ps : gives_pools v ps -> exists r, get_str_array json (lit "pools") = Done r /\ parse_pool_str <$> r = ps.
Proof using Hv Hrest.
  intros [[Ha ->]|(t & E & Hp)].
  - exists []. split; [by apply get_missing; [apply key_printed|]|done].
  - exists (pool_text <$> ps). unfold json. rewrite (get_str_array_found _ v _ t rest (key_printed (lit "pools") eq_refl) E).
    + clear E. split; [f_equal|]; induction Hp as [|p l Hp _ IH]; [done| |done|]; cbn [fmap list_fmap omap list_omap string_of].
      * rewrite read_back_printable by (by apply pool_text_printable). by f_equal.
      * destruct Hp as (_ & H2 & H3). rewrite parse_pool_text by done. by f_equal.
    + apply forallb_forall. intros x (y & <- & _)%in_map_iff. reflexivity.
Qed.

Lemma described_read : read_config json = Done cfg.
Proof using Hv Hrest.
  destruct (Hv) as [_ _ (one & many & Ep & H1 & H2) H3 H4 H5 H6 H7 H8 H9]. unfold read_config.
  destruct (described_pool one H1) as (r1 & -> & E1), (described_pools many H2) as (r2 & -> & E2),
    (described_text (lit "wallet") _ _ eq_refl H3) as (r3 & -> & E3), (described_text (lit "password") _ _ eq_refl H4) as (r4 & -> & E4),
    (described_text (lit "mode") _ _ eq_refl H5) as (r5 & -> & E5), (described_flag (lit "tls") _ eq_refl H6) as (r6 & -> & E6),
    (described_number (lit "workers") _ _ _ eq_refl H7) as (r7 & -> & E7), (described_number (lit "difficulty") _ _ _ eq_refl H8) as (r8 & -> & E8),
    (described_number (lit "seconds") _ _ _ eq_refl H9) as (r9 & -> & E9).
  cbn [mbind outcome_bind workers difficulty seconds default_config]. rewrite E1, E2, E4, E5, E6, E7, E8, E9, <- Ep.
  assert (r3 = wallet cfg) as -> by (rewrite <- E3; unfold or_default; by destruct (bool_decide_reflect (r3 = []))). by destruct cfg.
Qed.
End described.

(** A location that gives nothing: no such file, or one without a pool and a wallet. *)
Definition passed_over (files : text -> option text) (location : option text) : Prop :=
  forall path cfg, location = Some path -> load_config files path = Done cfg -> usable cfg = false.
Definition home_config (getenv : text -> option text) : option text := (fun h => h ++ lit "/.config/armrx/config.json") <$> getenv (lit "HOME").

Lemma pass_over files location paths : passed_over files location ->
  first_usable files (match location with Some p => [p] | None => [] end ++ paths) = first_usable files paths.
Proof.
  intros H. destruct location as [p|]; [|done]. cbn [app first_usable]. unfold load_config in *.
  destruct (files p) as [json|] eqn:E; [|done]. destruct (read_config_range json) as (cfg & Er & _). rewrite Er. cbn [mbind outcome_bind].
  rewrite (H p cfg eq_refl); [done|]. unfold load_config. by rewrite E, Er.
Qed.

(** C31: a configuration file says what it says, wherever it is found.  Take any compact JSON object that describes
    a configuration (members optional, in any order and among others; pools as "host:port", whatever colons the
    host has; texts without control characters; numbers in range), ending in any whitespace.  Loaded from the path given on the
    command line it yields that configuration with the defaults for what it leaves out.  Without a path, and if
    it names a pool or a wallet, it is found at $ARMRX_CONFIG, else at $HOME/.config/armrx/config.json, else at
    ./armrx.conf, when the places before give nothing; if all three give nothing the defaults are used. *)
Theorem config_described (files getenv : text -> option text) (v : json_value) (rest : text) (cfg : AppConfig) :
  describes v cfg -> forallb is_ws rest = true ->
  let found path := files path = Some (print v ++ rest) in
  let env := getenv (lit "ARMRX_CONFIG") in let home := home_config getenv in
  (forall path, path <> [] -> found path -> load_config_with_fallback files getenv path = Done cfg) /\
  (usable cfg = true -> forall path, found path ->
     env = Some path \/ (passed_over files env /\ home = Some path) \/
     (passed_over files env /\ passed_over files home /\ path = lit "./armrx.conf") ->
     load_config_with_fallback files getenv [] = Done cfg) /\
  (passed_over files env -> passed_over files home -> passed_over files (Some (lit "./armrx.conf")) ->
     load_config_with_fallback files getenv [] = Done default_config).
Proof.
  intros Hv Hr found env home. assert (forall path, found path -> load_config files path = Done cfg) as Hl.
  { intros path Hf. unfold load_config. rewrite Hf. by apply described_read. }
  assert (load_config_with_fallback files getenv [] = first_usable files (match env with Some p => [p] | None => [] end ++
    match home with Some p => [p] | None => [] end ++ [lit "./armrx.conf"])) as E.
  { unfold load_config_with_fallback, load_default_config, home, home_config. rewrite bool_decide_true by done. by destruct (getenv (lit "HOME")). }
  assert (usable cfg = true -> forall path more, found path -> first_usable files (path :: more) = Done cfg) as Hu.
  { intros Hu path more Hf. cbn [first_usable]. rewrite (Hl path Hf). cbn [mbind outcome_bind]. by rewrite Hu. }
  split_and!.
  - intros path Hp Hf. unfold load_config_with_fallback. rewrite bool_decide_false by done. by apply Hl.
  - intros Hus path Hf Hwhere. rewrite E. destruct Hwhere as [->|[[H1 ->]|(H1 & H2 & ->)]].
    + by apply Hu.
    + rewrite pass_over by done. by apply Hu.
    + rewrite !pass_over by done. by apply Hu.
  - intros H1 H2 H3. rewrite E, !pass_over by done. exact (pass_over files (Some (lit "./armrx.conf")) [] H3).
Qed.

(** A file in the home directory with some of the members. *)
Lemma config_described_witness :
  let cfg := mkConfig [mkPool (lit "2001:db8::1") 3333 false] (lit "4A") [dquote] true (lit "auto") 4 100 10 in
  let v := JObj [(lit "wallet", JStr (lit "4A")); (lit "tls", JRaw (lit "true")); (lit "comment", JStr (lit "x"));
    (lit "pools", JArr [JStr (lit "2001:db8::1:3333")]); (lit "workers", JRaw (lit "4")); (lit "password", JStr [dquote])] in
  let files path := if bool_decide (path = lit "/h/.config/armrx/config.json") then Some (print v ++ [newline]) else None in
  let getenv k := if bool_decide (k = lit "HOME") then Some (lit "/h") else None in
  load_config_with_fallback files getenv [] = Done cfg.
Proof.
  intros cfg v files getenv. assert (describes v cfg) as Hv.
  { constructor; [reflexivity|reflexivity|..].
    - exists [], [mkPool (lit "2001:db8::1") 3333 false]. split; [reflexivity|]. split; [left; split; [intros ? ? E; discriminate E|reflexivity]|].
      right. eexists. split; [reflexivity|]. apply List.Forall_cons; [|apply List.Forall_nil]. split; [reflexivity|]. split; [split; discriminate|reflexivity].
    - right. eexists. split; [reflexivity|]. split; [reflexivity|discriminate].
    - right. eexists. split; [reflexivity|]. split; [reflexivity|discriminate].
    - left. split; [intros ? ? E; discriminate E|reflexivity].
    - right. eexists. reflexivity.
    - right. eexists. split; [reflexivity|]. split; [split; [discriminate|reflexivity]|discriminate].
    - left. split; [intros ? ? E; discriminate E|reflexivity].
    - left. split; [intros ? ? E; discriminate E|reflexivity]. }
  refine (proj1 (proj2 (config_described files getenv v [newline] cfg Hv eq_refl)) eq_refl (lit "/h/.config/armrx/config.json") eq_refl (or_intror (or_introl (conj _ eq_refl)))).
  intros path cfg' E. discriminate E.
Defined.

(** A member on a line of its own is not found: before the name the search skips spaces and tabs but not
    line breaks.  The same members on one line are read. *)
Lemma multiline_config_ignored :
  let member k v := [dquote] ++ lit k ++ [dquote; colon; space; dquote] ++ lit v ++ [dquote] in
  read_config ([lbrace; newline; space] ++ member "pool" "a:1" ++ [comma; newline; space] ++ member "wallet" "w" ++ [newline; rbrace])
    = Done default_config /\
  read_config ([lbrace] ++ member "pool" "a:1" ++ [comma; space] ++ member "wallet" "w" ++ [rbrace])
    = Done (mkConfig [mkPool (lit "a") 1 false] (lit "w") (lit "x") false (lit "auto") 0 100 10).
Proof. split; vm_compute; reflexivity. Qed.

(** With CRLF line ends the flag before the line break is lost: the carriage return stays in the token. *)
Lemma crlf_tls_lost : let tls := [lbrace; dquote] ++ lit "tls" ++ [dquote; colon] ++ lit "true" in
  read_config (tls ++ [newline; rbrace]) = Done (mkConfig [] [] (lit "x") true (lit "auto") 0 100 10) /\
  read_config (tls ++ [carriage; newline; rbrace]) = Done default_config.
Proof. split; vm_compute; reflexivity. Qed.
