(* ===== verification/Pool.v ===== *)
(** * Pool failover

    Models [PoolManager] of src/src/pool_manager.cpp.  The Stratum client it owns is seen through what
    [tick] reads of it; whether a pool accepts a connection is a parameter of each call. *)

From stdpp Require Import relations.
From S2P Require Import Prelude Text Config Connection.

Record PoolEntry : Type := mkEntry { entry_host : text; entry_port : Z }.

(** What [tick] reads of the client. *)
Record client_view : Type := mkView {
  is_connected : bool;
  reconnect_attempts : Z;
  reconnect_loop_active : bool;
}.

Record PoolManager : Type := mkManager {
  pools_ : list PoolEntry;
  current_idx_ : Z;
  failover_cooldown_ : Z;
  sync_retry_count_ : Z;
  stratum_ : option client_view;
}.

Definition new_manager (pools : list PoolConfig) : outcome PoolManager :=
  let pools_ := (fun p => mkEntry (host p) (port p)) <$> pools in
  if bool_decide (pools_ = []) then Throw (invalid_argument "PoolManager: at least one pool required")
  else Done (mkManager pools_ 0 0 0 None).

Definition with_stratum (s : option client_view) (m : PoolManager) : PoolManager :=
  mkManager (pools_ m) (current_idx_ m) (failover_cooldown_ m) (sync_retry_count_ m) s.
Definition with_failover (idx cooldown retries : Z) (m : PoolManager) : PoolManager :=
  mkManager (pools_ m) idx cooldown retries (stratum_ m).

Definition in_use (m : PoolManager) : option PoolEntry := pools_ m !! Z.to_nat (current_idx_ m).

Definition current_pool_name (m : PoolManager) : text :=
  match in_use m with Some e => entry_host e ++ [colon] ++ to_string (entry_port e) | None => lit "(none)" end.

(** A new client for the current pool; [reachable]: its [connect] succeeds. *)
Definition connect_to_current (reachable : PoolEntry -> bool) (m : PoolManager) : PoolManager :=
  match in_use m with
  | None => m
  | Some entry => with_stratum (Some (mkView (reachable entry) 0 false)) m
  end.

Definition manager_connected (m : PoolManager) : bool :=
  match stratum_ m with Some v => is_connected v | None => false end.

Definition connect_manager (reachable : PoolEntry -> bool) (m : PoolManager) : PoolManager * bool :=
  let m := connect_to_current reachable (with_failover 0 0 0 m) in (m, manager_connected m).

Definition disconnect_manager (m : PoolManager) : PoolManager := with_stratum None m.

(** [(current_idx_ + 1) % pools_.size()] *)
Definition next_idx (m : PoolManager) : Z := wrap 32 (current_idx_ m + 1) mod Z.of_nat (length (pools_ m)).

(** The first half of [tick]: the retry counters. *)
Definition count_retries (v : client_view) (m : PoolManager) : PoolManager :=
  if negb (is_connected v) && (failover_cooldown_ m =? 0) then
    let retries := reconnect_attempts v in
    if (0 <? retries) || reconnect_loop_active v then
      if 5 <=? retries then with_failover (next_idx m) 2 0 m else with_failover (current_idx_ m) (failover_cooldown_ m) 0 m
    else
      let count := wrap 32 (sync_retry_count_ m + 1) in
      if 5 <=? count then with_failover (next_idx m) 2 0 m else with_failover (current_idx_ m) 2 count m
  else if is_connected v then with_failover (current_idx_ m) (failover_cooldown_ m) 0 m
  else m.

Definition tick (reachable : PoolEntry -> bool) (m : PoolManager) : PoolManager :=
  match stratum_ m with
  | None => m
  | Some v =>
      let m := count_retries v m in
      if 0 <? failover_cooldown_ m then
        let cooldown := failover_cooldown_ m - 1 in
        let m := with_failover (current_idx_ m) cooldown (sync_retry_count_ m) m in
        if cooldown =? 0 then connect_to_current reachable m else m
      else m
  end.

Fixpoint ticks (n : nat) (reachable : PoolEntry -> bool) (m : PoolManager) : PoolManager :=
  match n with O => m | S n => ticks n reachable (tick reachable m) end.

(** ** The invariant *)

(** The manager's calls, and the client's threads changing what it shows. *)
Inductive manager_step : PoolManager -> PoolManager -> Prop :=
  | step_tick reachable m : manager_step m (tick reachable m)
  | step_connect reachable m : manager_step m (connect_manager reachable m).1
  | step_disconnect m : manager_step m (disconnect_manager m)
  | step_client m v v' : stratum_ m = Some v -> manager_step m (with_stratum (Some v') m).

Record manager_ok (m : PoolManager) : Prop := {
  mo_pools : 0 < Z.of_nat (length (pools_ m)) < 2 ^ 32;
  mo_idx : 0 <= current_idx_ m < Z.of_nat (length (pools_ m));
  mo_cooldown : 0 <= failover_cooldown_ m <= 1;
  mo_retries : 0 <= sync_retry_count_ m <= 4;
}.

Lemma next_idx_ok m : 0 < Z.of_nat (length (pools_ m)) -> 0 <= next_idx m < Z.of_nat (length (pools_ m)).
Proof. intros H. apply Z.mod_pos_bound. lia. Qed.

Lemma count_retries_ok v m : manager_ok m ->
  let m' := count_retries v m in
  pools_ m' = pools_ m /\ stratum_ m' = stratum_ m /\ 0 <= current_idx_ m' < Z.of_nat (length (pools_ m)) /\
  0 <= failover_cooldown_ m' <= 2 /\ 0 <= sync_retry_count_ m' <= 4.
Proof.
  intros [H1 H2 H3 H4]. pose proof (next_idx_ok m ltac:(lia)) as Hn. unfold count_retries.
  rewrite (wrap_small 32 (sync_retry_count_ m + 1)) by (split; lia).
  destruct (negb _ && _); [destruct (_ || _); [destruct (5 <=? _)|destruct (Z.leb_spec 5 (sync_retry_count_ m + 1))]|destruct (is_connected v)];
    cbn; repeat split; lia.
Qed.

Lemma connect_to_current_ok reachable m : manager_ok m -> manager_ok (connect_to_current reachable m) /\ pools_ (connect_to_current reachable m) = pools_ m.
Proof. intros H. unfold connect_to_current. destruct (in_use m); [|done]. split; [|done]. by destruct H. Qed.

Lemma tick_ok reachable m : manager_ok m -> manager_ok (tick reachable m) /\ pools_ (tick reachable m) = pools_ m.
Proof.
  intros H. unfold tick. destruct (stratum_ m) as [v|]; [|done].
  destruct (count_retries_ok v m H) as (E1 & E2 & H2 & H3 & H4). set (m1 := count_retries v m) in *. clearbody m1.
  destruct H as [H1 _ _ _]. rewrite <- E1 in *. destruct (Z.ltb_spec 0 (failover_cooldown_ m1)).
  - set (m2 := with_failover _ _ _ m1). assert (manager_ok m2) as Hm by (constructor; cbn; lia).
    destruct (_ =? 0); [by apply (connect_to_current_ok reachable m2)|done].
  - split; [|done]. constructor; lia.
Qed.

Lemma manager_step_ok m m' : manager_step m m' -> manager_ok m -> manager_ok m' /\ pools_ m' = pools_ m.
Proof.
  destruct 1 as [reachable m|reachable m|m|m v v' Hv]; intros H.
  - by apply tick_ok.
  - apply (connect_to_current_ok reachable (with_failover 0 0 0 m)). destruct H. constructor; cbn; lia.
  - split; [|done]. by destruct H.
  - split; [|done]. by destruct H.
Qed.

(** The pool manager always points at a configured pool.  An empty list is refused; from the
    constructor on, whatever the calls and whatever the client does in between, the index stays inside the
    list of pools (which never changes), the cooldown is at most one tick between ticks, and the retry
    counter stays below the failover limit, so the name shown is one of the configured pools. *)
Theorem manager_invariant (pools : list PoolConfig) : Z.of_nat (length pools) < 2 ^ 32 ->
  (pools = [] -> exists e, new_manager pools = Throw e) /\
  forall m m', new_manager pools = Done m -> rtc manager_step m m' ->
    manager_ok m' /\ exists p, p ∈ pools /\ current_pool_name m' = host p ++ [colon] ++ to_string (port p).
Proof.
  intros Hn. split; [intros ->; eexists; reflexivity|]. intros m m' Hm Hs.
  assert (manager_ok m /\ pools_ m = (fun p => mkEntry (host p) (port p)) <$> pools) as [H0 E0].
  { unfold new_manager in Hm. case_bool_decide as Hp; [done|]. injection Hm as <-. split; [|done].
    destruct pools as [|p pools]; [done|]. constructor; cbn [pools_ current_idx_ failover_cooldown_ sync_retry_count_]; rewrite ?length_fmap; cbn in *; lia. }
  assert (manager_ok m' /\ pools_ m' = pools_ m) as [H1 E1].
  { clear -Hs H0. induction Hs as [m|m m1 m' Hstep _ IH]; [done|]. destruct (manager_step_ok m m1 Hstep H0) as [H1 E1].
    destruct (IH H1) as [H2 E2]. split; [done|]. by rewrite E2. }
  split; [done|]. destruct H1 as [_ Hi _ _]. destruct (lookup_lt_is_Some_2 (pools_ m') (Z.to_nat (current_idx_ m'))) as [e He]; [lia|].
  pose proof He as Hp. rewrite E1, E0, list_lookup_fmap in Hp. destruct (pools !! _) as [p|] eqn:Ep; [|done].
  injection Hp as <-. exists p. split; [by eapply list_elem_of_lookup_2|]. unfold current_pool_name, in_use. by rewrite He.
Qed.

Lemma manager_invariant_witness : exists m, new_manager [mkPool (lit "a") 1 false] = Done m /\
  manager_ok (tick (fun _ => false) m).
Proof.
  eexists. split; [reflexivity|].
  refine (proj1 (proj2 (manager_invariant [mkPool (lit "a") 1 false] ltac:(reflexivity)) _ _ eq_refl _)).
  eapply rtc_l; [apply (step_tick (fun _ => false))|apply rtc_refl].
Defined.

(** ** Failover *)

Section failover.
Context (reachable : PoolEntry -> bool) (ps : list PoolEntry).
Let n := Z.of_nat (length ps).
Context (Hn : 0 < n < 2 ^ 32).

(** The pool at position [i] of the rotation accepts connections. *)
Definition up_at (i : Z) : bool := match ps !! Z.to_nat (i mod n) with Some e => reachable e | None => false end.

(** A manager whose client has just been made for pool [i], after [k] failed retries. *)
Definition fresh (i k : Z) : PoolManager := mkManager ps (i mod n) 0 k (Some (mkView (up_at i) 0 false)).

Lemma connect_fresh i k v : connect_to_current reachable (mkManager ps (i mod n) 0 k v) = fresh i k.
Proof using Hn.
  unfold connect_to_current, in_use, fresh, up_at. cbn [pools_ current_idx_].
  pose proof (Z.mod_pos_bound i n ltac:(lia)). destruct (lookup_lt_is_Some_2 ps (Z.to_nat (i mod n))) as [e ->]; [unfold n in *; lia|done].
Qed.

Lemma next_fresh i : wrap 32 (i mod n + 1) mod n = (i + 1) mod n.
Proof using Hn.
  pose proof (Z.mod_pos_bound i n ltac:(lia)). rewrite wrap_small by (split; lia). by rewrite Zplus_mod_idemp_l.
Qed.

Lemma retry_same i k : up_at i = false -> 0 <= k < 4 -> ticks 2 reachable (fresh i k) = fresh i (k + 1).
Proof using Hn.
  intros Hu Hk. cbn [ticks]. unfold fresh at 1, tick at 2. cbn [stratum_]. rewrite Hu. unfold count_retries. cbn.
  rewrite wrap_small by (split; lia). destruct (Z.leb_spec 5 (k + 1)); [lia|]. unfold tick. cbn. by apply connect_fresh.
Qed.

Lemma retry_next i : up_at i = false -> ticks 2 reachable (fresh i 4) = fresh (i + 1) 0.
Proof using Hn.
  intros Hu. cbn [ticks]. unfold fresh at 1, tick at 2. cbn [stratum_]. rewrite Hu. unfold count_retries. cbn.
  unfold tick. cbn. unfold next_idx. cbn. fold n. rewrite next_fresh. apply connect_fresh.
Qed.

Lemma retry_dropped i k a active : 5 <= a ->
  ticks 2 reachable (mkManager ps (i mod n) 0 k (Some (mkView false a active))) = fresh (i + 1) 0.
Proof using Hn.
  intros Ha. cbn [ticks]. unfold tick at 2. cbn [stratum_]. unfold count_retries. cbn. destruct (Z.ltb_spec 0 a); [|lia].
  destruct (Z.leb_spec 5 a); [|lia]. unfold tick. cbn. unfold next_idx. cbn. fold n. rewrite next_fresh. apply connect_fresh.
Qed.

Lemma ticks_add a b m : ticks (a + b) reachable m = ticks b reachable (ticks a reachable m).
Proof. revert m. induction a as [|a IH]; intros m; [done|]. cbn [Nat.add ticks]. apply IH. Qed.

Lemma leave_dead i : up_at i = false -> ticks 10 reachable (fresh i 0) = fresh (i + 1) 0.
Proof using Hn.
  intros Hu. rewrite (ticks_add 2 8), retry_same, (ticks_add 2 6), retry_same, (ticks_add 2 4), retry_same, (ticks_add 2 2), retry_same by (done || lia).
  by apply retry_next.
Qed.

Lemma stay_up i k : up_at i = true -> ticks k reachable (fresh i 0) = fresh i 0.
Proof.
  intros Hu. induction k as [|k IH]; [done|]. cbn [ticks]. assert (tick reachable (fresh i 0) = fresh i 0) as ->; [|done].
  unfold tick, fresh. cbn [stratum_]. unfold count_retries. by rewrite Hu.
Qed.

Lemma rotate d : forall i, (forall j, (j < d)%nat -> up_at (i + Z.of_nat j) = false) ->
  ticks (10 * d) reachable (fresh i 0) = fresh (i + Z.of_nat d) 0.
Proof using Hn.
  induction d as [|d IH]; intros i Hd; [f_equal; cbn; f_equal; lia|]. replace (10 * S d)%nat with (10 + 10 * d)%nat by lia.
  rewrite ticks_add, leave_dead by (specialize (Hd 0%nat ltac:(lia)); by rewrite Z.add_0_r in Hd).
  rewrite IH by (intros j Hj; replace (i + 1 + Z.of_nat j) with (i + Z.of_nat (S j)) by lia; apply Hd; lia). f_equal. lia.
Qed.

End failover.

