(* ===== verification/Cli.v ===== *)
(** * The command line

    Models src/src/cli_parser.cpp: the options record, the defaults taken from the configuration file, the
    argument loop in the order of the source, and the checks after it.  The number of CPUs and whether
    the build has TLS are parameters; what is printed is left out. *)

From S2P Require Import Prelude RandomX Text Json Config.

Inductive AffinityMode : Type := All | Unpinned | BigOnly.
Inductive Level : Type := trace | debug | info | warn | error.

Record MinerOptions : Type := mkOptions {
  mode_is_auto : bool;
  requested_mode : RandomXMode;
  workers : Z;
  should_init_cache : bool;
  init_cache_key : text;
  should_mine : bool;
  difficulty : Z;
  runtime_seconds : Z;
  warmup_secs : Z;
  should_connect_pool : bool;
  pool_list : list (text * Z);
  pool_wallet : text;
  pool_password : text;
  pool_tls : bool;
  pool_tls_verify : bool;
  use_tui : bool;
  tui_color : Z;
  use_mlock : bool;
  use_rt_priority : bool;
  stagger_ms : Z;
  metrics_port : Z;
  affinity_mode : AffinityMode;
  pool_test : bool;
  jit_dump_mode : bool;
  jit_dump_key : text;
  dataset_mb : Z;
}.

Definition default_options : MinerOptions :=
  mkOptions true light 0 false [] false 100 10 30 false [] [] (lit "x") false true false (-1) false false 0 0 All false false (lit "test key 000") 0.

(** Assignments to one member. *)
Definition set_mode_is_auto (x : bool) (o : MinerOptions) : MinerOptions :=
  mkOptions x (requested_mode o) (workers o) (should_init_cache o) (init_cache_key o) (should_mine o)
    (difficulty o) (runtime_seconds o) (warmup_secs o) (should_connect_pool o) (pool_list o) (pool_wallet o)
    (pool_password o) (pool_tls o) (pool_tls_verify o) (use_tui o) (tui_color o) (use_mlock o)
    (use_rt_priority o) (stagger_ms o) (metrics_port o) (affinity_mode o) (pool_test o) (jit_dump_mode o)
    (jit_dump_key o) (dataset_mb o).
Definition set_requested_mode (x : RandomXMode) (o : MinerOptions) : MinerOptions :=
  mkOptions (mode_is_auto o) x (workers o) (should_init_cache o) (init_cache_key o) (should_mine o)
    (difficulty o) (runtime_seconds o) (warmup_secs o) (should_connect_pool o) (pool_list o) (pool_wallet o)
    (pool_password o) (pool_tls o) (pool_tls_verify o) (use_tui o) (tui_color o) (use_mlock o)
    (use_rt_priority o) (stagger_ms o) (metrics_port o) (affinity_mode o) (pool_test o) (jit_dump_mode o)
    (jit_dump_key o) (dataset_mb o).
Definition set_workers (x : Z) (o : MinerOptions) : MinerOptions :=
  mkOptions (mode_is_auto o) (requested_mode o) x (should_init_cache o) (init_cache_key o) (should_mine o)
    (difficulty o) (runtime_seconds o) (warmup_secs o) (should_connect_pool o) (pool_list o) (pool_wallet o)
    (pool_password o) (pool_tls o) (pool_tls_verify o) (use_tui o) (tui_color o) (use_mlock o)
    (use_rt_priority o) (stagger_ms o) (metrics_port o) (affinity_mode o) (pool_test o) (jit_dump_mode o)
    (jit_dump_key o) (dataset_mb o).
Definition set_should_init_cache (x : bool) (o : MinerOptions) : MinerOptions :=
  mkOptions (mode_is_auto o) (requested_mode o) (workers o) x (init_cache_key o) (should_mine o)
    (difficulty o) (runtime_seconds o) (warmup_secs o) (should_connect_pool o) (pool_list o) (pool_wallet o)
    (pool_password o) (pool_tls o) (pool_tls_verify o) (use_tui o) (tui_color o) (use_mlock o)
    (use_rt_priority o) (stagger_ms o) (metrics_port o) (affinity_mode o) (pool_test o) (jit_dump_mode o)
    (jit_dump_key o) (dataset_mb o).
Definition set_init_cache_key (x : text) (o : MinerOptions) : MinerOptions :=
  mkOptions (mode_is_auto o) (requested_mode o) (workers o) (should_init_cache o) x (should_mine o)
    (difficulty o) (runtime_seconds o) (warmup_secs o) (should_connect_pool o) (pool_list o) (pool_wallet o)
    (pool_password o) (pool_tls o) (pool_tls_verify o) (use_tui o) (tui_color o) (use_mlock o)
    (use_rt_priority o) (stagger_ms o) (metrics_port o) (affinity_mode o) (pool_test o) (jit_dump_mode o)
    (jit_dump_key o) (dataset_mb o).
Definition set_should_mine (x : bool) (o : MinerOptions) : MinerOptions :=
  mkOptions (mode_is_auto o) (requested_mode o) (workers o) (should_init_cache o) (init_cache_key o) x
    (difficulty o) (runtime_seconds o) (warmup_secs o) (should_connect_pool o) (pool_list o) (pool_wallet o)
    (pool_password o) (pool_tls o) (pool_tls_verify o) (use_tui o) (tui_color o) (use_mlock o)
    (use_rt_priority o) (stagger_ms o) (metrics_port o) (affinity_mode o) (pool_test o) (jit_dump_mode o)
    (jit_dump_key o) (dataset_mb o).
Definition set_difficulty (x : Z) (o : MinerOptions) : MinerOptions :=
  mkOptions (mode_is_auto o) (requested_mode o) (workers o) (should_init_cache o) (init_cache_key o)
    (should_mine o) x (runtime_seconds o) (warmup_secs o) (should_connect_pool o) (pool_list o)
    (pool_wallet o) (pool_password o) (pool_tls o) (pool_tls_verify o) (use_tui o) (tui_color o) (use_mlock o)
    (use_rt_priority o) (stagger_ms o) (metrics_port o) (affinity_mode o) (pool_test o) (jit_dump_mode o)
    (jit_dump_key o) (dataset_mb o).
Definition set_runtime_seconds (x : Z) (o : MinerOptions) : MinerOptions :=
  mkOptions (mode_is_auto o) (requested_mode o) (workers o) (should_init_cache o) (init_cache_key o)
    (should_mine o) (difficulty o) x (warmup_secs o) (should_connect_pool o) (pool_list o) (pool_wallet o)
    (pool_password o) (pool_tls o) (pool_tls_verify o) (use_tui o) (tui_color o) (use_mlock o)
    (use_rt_priority o) (stagger_ms o) (metrics_port o) (affinity_mode o) (pool_test o) (jit_dump_mode o)
    (jit_dump_key o) (dataset_mb o).
Definition set_warmup_secs (x : Z) (o : MinerOptions) : MinerOptions :=
  mkOptions (mode_is_auto o) (requested_mode o) (workers o) (should_init_cache o) (init_cache_key o)
    (should_mine o) (difficulty o) (runtime_seconds o) x (should_connect_pool o) (pool_list o) (pool_wallet o)
    (pool_password o) (pool_tls o) (pool_tls_verify o) (use_tui o) (tui_color o) (use_mlock o)
    (use_rt_priority o) (stagger_ms o) (metrics_port o) (affinity_mode o) (pool_test o) (jit_dump_mode o)
    (jit_dump_key o) (dataset_mb o).
Definition set_should_connect_pool (x : bool) (o : MinerOptions) : MinerOptions :=
  mkOptions (mode_is_auto o) (requested_mode o) (workers o) (should_init_cache o) (init_cache_key o)
    (should_mine o) (difficulty o) (runtime_seconds o) (warmup_secs o) x (pool_list o) (pool_wallet o)
    (pool_password o) (pool_tls o) (pool_tls_verify o) (use_tui o) (tui_color o) (use_mlock o)
    (use_rt_priority o) (stagger_ms o) (metrics_port o) (affinity_mode o) (pool_test o) (jit_dump_mode o)
    (jit_dump_key o) (dataset_mb o).
Definition set_pool_list (x : list (text * Z)) (o : MinerOptions) : MinerOptions :=
  mkOptions (mode_is_auto o) (requested_mode o) (workers o) (should_init_cache o) (init_cache_key o)
    (should_mine o) (difficulty o) (runtime_seconds o) (warmup_secs o) (should_connect_pool o) x
    (pool_wallet o) (pool_password o) (pool_tls o) (pool_tls_verify o) (use_tui o) (tui_color o) (use_mlock o)
    (use_rt_priority o) (stagger_ms o) (metrics_port o) (affinity_mode o) (pool_test o) (jit_dump_mode o)
    (jit_dump_key o) (dataset_mb o).
Definition set_pool_wallet (x : text) (o : MinerOptions) : MinerOptions :=
  mkOptions (mode_is_auto o) (requested_mode o) (workers o) (should_init_cache o) (init_cache_key o)
    (should_mine o) (difficulty o) (runtime_seconds o) (warmup_secs o) (should_connect_pool o) (pool_list o) x
    (pool_password o) (pool_tls o) (pool_tls_verify o) (use_tui o) (tui_color o) (use_mlock o)
    (use_rt_priority o) (stagger_ms o) (metrics_port o) (affinity_mode o) (pool_test o) (jit_dump_mode o)
    (jit_dump_key o) (dataset_mb o).
Definition set_pool_password (x : text) (o : MinerOptions) : MinerOptions :=
  mkOptions (mode_is_auto o) (requested_mode o) (workers o) (should_init_cache o) (init_cache_key o)
    (should_mine o) (difficulty o) (runtime_seconds o) (warmup_secs o) (should_connect_pool o) (pool_list o)
    (pool_wallet o) x (pool_tls o) (pool_tls_verify o) (use_tui o) (tui_color o) (use_mlock o)
    (use_rt_priority o) (stagger_ms o) (metrics_port o) (affinity_mode o) (pool_test o) (jit_dump_mode o)
    (jit_dump_key o) (dataset_mb o).
Definition set_pool_tls (x : bool) (o : MinerOptions) : MinerOptions :=
  mkOptions (mode_is_auto o) (requested_mode o) (workers o) (should_init_cache o) (init_cache_key o)
    (should_mine o) (difficulty o) (runtime_seconds o) (warmup_secs o) (should_connect_pool o) (pool_list o)
    (pool_wallet o) (pool_password o) x (pool_tls_verify o) (use_tui o) (tui_color o) (use_mlock o)
    (use_rt_priority o) (stagger_ms o) (metrics_port o) (affinity_mode o) (pool_test o) (jit_dump_mode o)
    (jit_dump_key o) (dataset_mb o).
Definition set_pool_tls_verify (x : bool) (o : MinerOptions) : MinerOptions :=
  mkOptions (mode_is_auto o) (requested_mode o) (workers o) (should_init_cache o) (init_cache_key o)
    (should_mine o) (difficulty o) (runtime_seconds o) (warmup_secs o) (should_connect_pool o) (pool_list o)
    (pool_wallet o) (pool_password o) (pool_tls o) x (use_tui o) (tui_color o) (use_mlock o)
    (use_rt_priority o) (stagger_ms o) (metrics_port o) (affinity_mode o) (pool_test o) (jit_dump_mode o)
    (jit_dump_key o) (dataset_mb o).
Definition set_use_tui (x : bool) (o : MinerOptions) : MinerOptions :=
  mkOptions (mode_is_auto o) (requested_mode o) (workers o) (should_init_cache o) (init_cache_key o)
    (should_mine o) (difficulty o) (runtime_seconds o) (warmup_secs o) (should_connect_pool o) (pool_list o)
    (pool_wallet o) (pool_password o) (pool_tls o) (pool_tls_verify o) x (tui_color o) (use_mlock o)
    (use_rt_priority o) (stagger_ms o) (metrics_port o) (affinity_mode o) (pool_test o) (jit_dump_mode o)
    (jit_dump_key o) (dataset_mb o).
Definition set_tui_color (x : Z) (o : MinerOptions) : MinerOptions :=
  mkOptions (mode_is_auto o) (requested_mode o) (workers o) (should_init_cache o) (init_cache_key o)
    (should_mine o) (difficulty o) (runtime_seconds o) (warmup_secs o) (should_connect_pool o) (pool_list o)
    (pool_wallet o) (pool_password o) (pool_tls o) (pool_tls_verify o) (use_tui o) x (use_mlock o)
    (use_rt_priority o) (stagger_ms o) (metrics_port o) (affinity_mode o) (pool_test o) (jit_dump_mode o)
    (jit_dump_key o) (dataset_mb o).
Definition set_use_mlock (x : bool) (o : MinerOptions) : MinerOptions :=
  mkOptions (mode_is_auto o) (requested_mode o) (workers o) (should_init_cache o) (init_cache_key o)
    (should_mine o) (difficulty o) (runtime_seconds o) (warmup_secs o) (should_connect_pool o) (pool_list o)
    (pool_wallet o) (pool_password o) (pool_tls o) (pool_tls_verify o) (use_tui o) (tui_color o) x
    (use_rt_priority o) (stagger_ms o) (metrics_port o) (affinity_mode o) (pool_test o) (jit_dump_mode o)
    (jit_dump_key o) (dataset_mb o).
Definition set_use_rt_priority (x : bool) (o : MinerOptions) : MinerOptions :=
  mkOptions (mode_is_auto o) (requested_mode o) (workers o) (should_init_cache o) (init_cache_key o)
    (should_mine o) (difficulty o) (runtime_seconds o) (warmup_secs o) (should_connect_pool o) (pool_list o)
    (pool_wallet o) (pool_password o) (pool_tls o) (pool_tls_verify o) (use_tui o) (tui_color o) (use_mlock o)
    x (stagger_ms o) (metrics_port o) (affinity_mode o) (pool_test o) (jit_dump_mode o) (jit_dump_key o)
    (dataset_mb o).
Definition set_stagger_ms (x : Z) (o : MinerOptions) : MinerOptions :=
  mkOptions (mode_is_auto o) (requested_mode o) (workers o) (should_init_cache o) (init_cache_key o)
    (should_mine o) (difficulty o) (runtime_seconds o) (warmup_secs o) (should_connect_pool o) (pool_list o)
    (pool_wallet o) (pool_password o) (pool_tls o) (pool_tls_verify o) (use_tui o) (tui_color o) (use_mlock o)
    (use_rt_priority o) x (metrics_port o) (affinity_mode o) (pool_test o) (jit_dump_mode o) (jit_dump_key o)
    (dataset_mb o).
Definition set_metrics_port (x : Z) (o : MinerOptions) : MinerOptions :=
  mkOptions (mode_is_auto o) (requested_mode o) (workers o) (should_init_cache o) (init_cache_key o)
    (should_mine o) (difficulty o) (runtime_seconds o) (warmup_secs o) (should_connect_pool o) (pool_list o)
    (pool_wallet o) (pool_password o) (pool_tls o) (pool_tls_verify o) (use_tui o) (tui_color o) (use_mlock o)
    (use_rt_priority o) (stagger_ms o) x (affinity_mode o) (pool_test o) (jit_dump_mode o) (jit_dump_key o)
    (dataset_mb o).
Definition set_affinity_mode (x : AffinityMode) (o : MinerOptions) : MinerOptions :=
  mkOptions (mode_is_auto o) (requested_mode o) (workers o) (should_init_cache o) (init_cache_key o)
    (should_mine o) (difficulty o) (runtime_seconds o) (warmup_secs o) (should_connect_pool o) (pool_list o)
    (pool_wallet o) (pool_password o) (pool_tls o) (pool_tls_verify o) (use_tui o) (tui_color o) (use_mlock o)
    (use_rt_priority o) (stagger_ms o) (metrics_port o) x (pool_test o) (jit_dump_mode o) (jit_dump_key o)
    (dataset_mb o).
Definition set_pool_test (x : bool) (o : MinerOptions) : MinerOptions :=
  mkOptions (mode_is_auto o) (requested_mode o) (workers o) (should_init_cache o) (init_cache_key o)
    (should_mine o) (difficulty o) (runtime_seconds o) (warmup_secs o) (should_connect_pool o) (pool_list o)
    (pool_wallet o) (pool_password o) (pool_tls o) (pool_tls_verify o) (use_tui o) (tui_color o) (use_mlock o)
    (use_rt_priority o) (stagger_ms o) (metrics_port o) (affinity_mode o) x (jit_dump_mode o) (jit_dump_key o)
    (dataset_mb o).
Definition set_jit_dump_mode (x : bool) (o : MinerOptions) : MinerOptions :=
  mkOptions (mode_is_auto o) (requested_mode o) (workers o) (should_init_cache o) (init_cache_key o)
    (should_mine o) (difficulty o) (runtime_seconds o) (warmup_secs o) (should_connect_pool o) (pool_list o)
    (pool_wallet o) (pool_password o) (pool_tls o) (pool_tls_verify o) (use_tui o) (tui_color o) (use_mlock o)
    (use_rt_priority o) (stagger_ms o) (metrics_port o) (affinity_mode o) (pool_test o) x (jit_dump_key o)
    (dataset_mb o).
Definition set_jit_dump_key (x : text) (o : MinerOptions) : MinerOptions :=
  mkOptions (mode_is_auto o) (requested_mode o) (workers o) (should_init_cache o) (init_cache_key o)
    (should_mine o) (difficulty o) (runtime_seconds o) (warmup_secs o) (should_connect_pool o) (pool_list o)
    (pool_wallet o) (pool_password o) (pool_tls o) (pool_tls_verify o) (use_tui o) (tui_color o) (use_mlock o)
    (use_rt_priority o) (stagger_ms o) (metrics_port o) (affinity_mode o) (pool_test o) (jit_dump_mode o) x
    (dataset_mb o).
Definition set_dataset_mb (x : Z) (o : MinerOptions) : MinerOptions :=
  mkOptions (mode_is_auto o) (requested_mode o) (workers o) (should_init_cache o) (init_cache_key o)
    (should_mine o) (difficulty o) (runtime_seconds o) (warmup_secs o) (should_connect_pool o) (pool_list o)
    (pool_wallet o) (pool_password o) (pool_tls o) (pool_tls_verify o) (use_tui o) (tui_color o) (use_mlock o)
    (use_rt_priority o) (stagger_ms o) (metrics_port o) (affinity_mode o) (pool_test o) (jit_dump_mode o)
    (jit_dump_key o) x.

(** What [parse] returns, and the log level it leaves behind. *)
Record ParsedArgs : Type := mkParsed {
  options : MinerOptions;
  should_exit : bool;
  exit_code : Z;
  log_level : Level;
}.

Definition usage_error (o : MinerOptions) (level : Level) : ParsedArgs := mkParsed o true 64 level.

(** ** Arguments *)

(** [argument.rfind(flag, 0) == 0], and the rest of the argument. *)
Definition flag_value (flag : string) (argument : text) : option text :=
  if prefix_of (lit flag) argument then Some (drop (length (lit flag)) argument) else None.
Definition is_flag (flag : string) (argument : text) : bool := bool_decide (argument = lit flag).

Definition number (s : text) (max_value : Z) : option Z :=
  match parse_bounded_ull s max_value with Done v => Some v | _ => None end.

(** [s.find(c)] *)
Definition find_char (c : Z) (s : text) : option nat := find_text [c] s.

(** The value of [--pool=]: the host and the port, or [None] for a usage error. *)
Definition parse_pool_arg (addr : text) : option (text * Z) :=
  if (3 <=? length addr)%nat && looking_at addr 0 lbracket then
    match find_char rbracket addr with
    | Some close =>
        let host := take (close - 1) (drop 1 addr) in
        if looking_at addr (close + 1) colon then
          match number (drop (close + 2) addr) 65535 with
          | Some port => Some (host, port)
          | None => None
          end
        else Some (host, default_port)
    | None => Some (addr, default_port)
    end
  else
    let '(before, maybe_port, host_port) :=
      match rfind_char colon addr with
      | None => ([], [], None)
      | Some i =>
          let before := take i addr in
          let maybe_port := drop (i + 1) addr in
          (before, maybe_port,
           if negb (bool_decide (before = [])) && bool_decide (find_char colon before = None)
           then (fun p => (before, p)) <$> number maybe_port 65535 else None)
      end in
    match host_port with
    | Some hp => Some hp
    | None => if bool_decide (find_char colon before = None) && negb (bool_decide (maybe_port = [])) then None
              else Some (addr, default_port)
    end.

Definition affinity_of (s : text) : option AffinityMode :=
  if bool_decide (s = lit "all") then Some All
  else if bool_decide (s = lit "unpinned") then Some Unpinned
  else if bool_decide (s = lit "big-only") then Some BigOnly
  else None.

Definition level_of (s : text) : option Level :=
  if bool_decide (s = lit "trace") then Some trace else if bool_decide (s = lit "debug") then Some debug
  else if bool_decide (s = lit "info") then Some info else if bool_decide (s = lit "warn") then Some warn
  else if bool_decide (s = lit "error") then Some error else None.

(** What one argument asks for: a change of the options or the log level, the key in the next argument,
    nothing, or an exit. *)
Inductive action : Type :=
  | Set_ (o : MinerOptions)
  | SetLevel (l : Level)
  | NextIsKey
  | Skip
  | Exit (o : MinerOptions) (code : Z).

(** A value that is refused is a usage error. *)
Definition refuse (o : MinerOptions) : action := Exit o 64.
Definition accept {A} (v : option A) (set : A -> MinerOptions -> MinerOptions) (o : MinerOptions) : action :=
  match v with Some v => Set_ (set v o) | None => refuse o end.
Definition with_number (s : text) (max_value : Z) (set : Z -> MinerOptions -> MinerOptions) (o : MinerOptions) : action :=
  accept (number s max_value) set o.

Definition set_mode (s : text) (o : MinerOptions) : action :=
  if bool_decide (s = lit "auto") then Set_ (set_mode_is_auto true o)
  else if bool_decide (s = lit "light") then Set_ (set_mode_is_auto false (set_requested_mode light o))
  else if bool_decide (s = lit "fast") then Set_ (set_mode_is_auto false (set_requested_mode fast o))
  else refuse o.

Definition add_pool (addr : text) (o : MinerOptions) : action :=
  accept (parse_pool_arg addr) (fun hp o => set_pool_list (pool_list o ++ [hp]) o) (set_should_connect_pool true o).

(** The flags in the order they are tried; [None]: not one of these. *)
Definition mining_flag (argument : text) (o : MinerOptions) : option action :=
  match flag_value "--config=" argument with Some _ => Some Skip | None =>
  match flag_value "--mode=" argument with Some s => Some (set_mode s o) | None =>
  match flag_value "--workers=" argument with
  | Some s => Some (with_number s 4096 (fun v => set_workers (Z.max 1 v)) o) | None =>
  if is_flag "--init-cache" argument then Some NextIsKey else
  if is_flag "--mine" argument then Some (Set_ (set_should_mine true o)) else
  match flag_value "--difficulty=" argument with Some s => Some (with_number s (2 ^ 64 - 1) set_difficulty o) | None =>
  match flag_value "--seconds=" argument with Some s => Some (with_number s (2 ^ 32 - 1) set_runtime_seconds o) | None =>
  match flag_value "--warmup=" argument with Some s => Some (with_number s (2 ^ 32 - 1) set_warmup_secs o) | None =>
  match flag_value "--affinity-mode=" argument with
  | Some s => Some (accept (affinity_of s) set_affinity_mode o) | None => None
  end end end end end end end.

Definition pool_flag (argument : text) (o : MinerOptions) : option action :=
  match flag_value "--pool=" argument with Some s => Some (add_pool s o) | None =>
  match flag_value "--wallet=" argument with Some s => Some (Set_ (set_pool_wallet s o)) | None =>
  match flag_value "--password=" argument with Some s => Some (Set_ (set_pool_password s o)) | None =>
  if is_flag "--tls" argument then Some (Set_ (set_pool_tls true o)) else
  if is_flag "--no-tls" argument then Some (Set_ (set_pool_tls false o)) else
  if is_flag "--no-verify-tls" argument then Some (Set_ (set_pool_tls_verify false o)) else
  if is_flag "--pool-test" argument then Some (Set_ (set_pool_test true o)) else
  if is_flag "--tui" argument then Some (Set_ (set_use_tui true o)) else
  if is_flag "--no-tui" argument then Some (Set_ (set_use_tui false o)) else None
  end end end.

Definition other_flag (argument : text) (o : MinerOptions) : action :=
  if is_flag "--jit-dump" argument then Set_ (set_jit_dump_mode true o) else
  match flag_value "--jit-dump=" argument with
  | Some s => Set_ (set_jit_dump_key s (set_jit_dump_mode true o)) | None =>
  match flag_value "--log-level=" argument with
  | Some s => match level_of s with Some l => SetLevel l | None => refuse o end | None =>
  if is_flag "--mlock" argument then Set_ (set_use_mlock true o) else
  if is_flag "--rt-priority" argument then Set_ (set_use_rt_priority true o) else
  match flag_value "--dataset-mb=" argument with Some s => with_number s 1048576 set_dataset_mb o | None =>
  match flag_value "--metrics-port=" argument with Some s => with_number s 65535 set_metrics_port o | None =>
  if is_flag "--no-color" argument then Set_ (set_tui_color 0 o) else
  if is_flag "--color" argument then Set_ (set_tui_color 1 o) else
  match flag_value "--stagger-ms=" argument with Some s => with_number s 60000 set_stagger_ms o | None =>
  if is_flag "--version" argument || is_flag "-V" argument then Exit o 0 else
  if is_flag "--help" argument || is_flag "-h" argument then Exit o 0 else
  Exit o 64
  end end end end end.

Definition flag_action (argument : text) (o : MinerOptions) : action :=
  match mining_flag argument o with
  | Some a => a
  | None => match pool_flag argument o with Some a => a | None => other_flag argument o end
  end.

(** The argument loop. *)
Fixpoint parse_args (args : list text) (o : MinerOptions) (level : Level) : ParsedArgs :=
  match args with
  | [] => mkParsed o false 0 level
  | argument :: args =>
      match flag_action argument o with
      | Set_ o => parse_args args o level
      | SetLevel level => parse_args args o level
      | Skip => parse_args args o level
      | NextIsKey =>
          match args with
          | [] => usage_error o level
          | key :: args => parse_args args (set_init_cache_key key (set_should_init_cache true o)) level
          end
      | Exit o code => mkParsed o true code level
      end
  end.

(** ** The configuration file first, the checks last *)

Fixpoint config_path (args : list text) : text :=
  match args with
  | [] => []
  | a :: args => match flag_value "--config=" a with Some path => path | None => config_path args end
  end.

Definition default_workers (online_cpus : Z) (isolated : list Z) : Z :=
  if bool_decide (isolated = []) then online_cpus else Z.min online_cpus (wrap 32 (Z.of_nat (length isolated))).

Definition config_mode (mode : text) (o : MinerOptions) : MinerOptions :=
  if bool_decide (mode = lit "auto") then o
  else let o := set_mode_is_auto false o in
       if bool_decide (mode = lit "light") then set_requested_mode light o
       else if bool_decide (mode = lit "fast") then set_requested_mode fast o
       else o.

Definition from_config (cfg : AppConfig) (o : MinerOptions) : MinerOptions :=
  let o := foldl (fun o p => set_should_connect_pool true (set_pool_list (pool_list o ++ [(host p, port p)]) o)) o (pools cfg) in
  let o := if bool_decide (wallet cfg = []) then o else set_pool_wallet (wallet cfg) o in
  let o := if bool_decide (password cfg = lit "x") then o else set_pool_password (password cfg) o in
  let o := set_pool_tls (Config.pool_tls cfg) o in
  let o := if 0 <? Config.workers cfg then set_workers (Config.workers cfg) o else o in
  let o := config_mode (mode cfg) o in
  set_runtime_seconds (seconds cfg) (set_difficulty (Config.difficulty cfg) o).

Definition test_pool : text * Z := (lit "tr.monero.herominers.com", 1111).

(** After the loop: TLS needs a build that has it; the pool test needs a wallet. *)
Definition final_checks (have_tls : bool) (r : ParsedArgs) : ParsedArgs :=
  let o := options r in
  let level := log_level r in
  if negb have_tls && pool_tls o then usage_error o level
  else if pool_test o then
    let o := if bool_decide (pool_list o = []) then set_should_connect_pool true (set_pool_list [test_pool] o) else o in
    if bool_decide (pool_wallet o = []) then usage_error o level
    else mkParsed (if bool_decide (pool_password o = []) then set_pool_password (lit "armrx-core") o else o) false 0 level
  else r.

Section parse.
Context (files getenv : text -> option text) (online_cpus : Z) (isolated : list Z) (have_tls : bool) (level : Level).

Definition parse (args : list text) : outcome ParsedArgs :=
  cfg ← load_config_with_fallback files getenv (config_path args);
  let o := from_config cfg (set_workers (default_workers online_cpus isolated) default_options) in
  let r := parse_args args o level in
  Done (if should_exit r then r else final_checks have_tls r).
End parse.

(** ** What comes out *)

Record options_ok (o : MinerOptions) : Prop := {
  ok_workers : 1 <= workers o < 2 ^ 32;
  ok_difficulty : word64 (difficulty o);
  ok_seconds : 0 <= runtime_seconds o < 2 ^ 32 /\ 0 <= warmup_secs o < 2 ^ 32;
  ok_pools : Forall (fun hp => 0 <= hp.2 <= 65535) (pool_list o);
  ok_connect : should_connect_pool o = negb (bool_decide (pool_list o = []));
  ok_ranges : 0 <= stagger_ms o <= 60000 /\ 0 <= metrics_port o <= 65535 /\ 0 <= dataset_mb o <= 1048576;
}.

Lemma number_range s m v : 0 <= m -> number s m = Some v -> 0 <= v <= m.
Proof. unfold number. destruct (parse_bounded_ull s m) eqn:E; intros Hm; intros [= <-]. by eapply parse_bounded_range. Qed.

Lemma parse_pool_arg_port addr hp : parse_pool_arg addr = Some hp -> 0 <= hp.2 <= 65535.
Proof.
  unfold parse_pool_arg. assert (forall h, 0 <= (h : text, default_port).2 <= 65535) as Hd by done. destruct (_ && _).
  - destruct (find_char rbracket addr) as [close|]; [|by intros [= <-]]. destruct (looking_at _ _ _); [|by intros [= <-]].
    destruct (number _ _) eqn:E; [|done]. intros [= <-]. by apply number_range in E.
  - set (p := match rfind_char colon addr with Some _ => _ | None => _ end). destruct p as [[before maybe_port] host_port] eqn:Ep.
    destruct host_port as [hp'|]; [|destruct (_ && _); [done|by intros [= <-]]]. intros [= <-]. unfold p in Ep.
    destruct (rfind_char colon addr) as [i|]; [|done]. destruct (negb _ && _); [|done].
    destruct (number _ _) eqn:E; [|done]. injection Ep as _ _ <-. by apply number_range in E.
Qed.

(** An argument keeps the options in range, or ends the program with 0 or 64. *)
Definition keeps_ok (a : action) : Prop :=
  match a with
  | Set_ o => options_ok o
  | Exit _ code => code = 0 \/ code = 64
  | _ => True
  end.

Lemma keeps_number s m set o : 0 <= m -> (forall v, 0 <= v <= m -> options_ok (set v o)) -> keeps_ok (with_number s m set o).
Proof.
  intros Hm Hs. unfold with_number, accept. destruct (number s m) eqn:E; [|by right]. by apply Hs, (number_range s m).
Qed.

Definition keeps_some (a : option action) : Prop := match a with Some a => keeps_ok a | None => True end.

Ltac one_branch :=
  lazymatch goal with
  | |- keeps_ok (match ?x with _ => _ end) => destruct x
  | |- keeps_some (match ?x with _ => _ end) => destruct x
  end.

(** A branch that sets one member, to a number in range or to anything. *)
Ltac one_member :=
  first [exact I|by left|by right|by constructor|
    apply keeps_number; [lia|intros v Hv; constructor; cbn; first [done|lia|split; lia]]|idtac].

Section flags.
Context (argument : text) (o : MinerOptions) (Ho : options_ok o).

Lemma mining_flag_ok : keeps_some (mining_flag argument o).
Proof using Ho.
  destruct (Ho) as [Hw Hd [Hs1 Hs2] Hp Hc (Hr1 & Hr2 & Hr3)]. unfold mining_flag. repeat one_branch; cbn [keeps_some]; one_member.
  - unfold set_mode. repeat one_branch; first [by right|by constructor].
  - unfold accept. destruct (affinity_of _); [by constructor|by right].
Qed.

Lemma pool_flag_ok : keeps_some (pool_flag argument o).
Proof using Ho.
  destruct (Ho) as [Hw Hd [Hs1 Hs2] Hp Hc (Hr1 & Hr2 & Hr3)]. unfold pool_flag. repeat one_branch; cbn [keeps_some]; one_member.
  unfold add_pool, accept. destruct (parse_pool_arg _) as [hp|] eqn:E; [|by right]. apply parse_pool_arg_port in E.
  constructor; cbn; try done.
  - apply Forall_app. split; [done|]. by constructor.
  - rewrite bool_decide_false; [done|]. by destruct (pool_list o).
Qed.

Lemma other_flag_ok : keeps_ok (other_flag argument o).
Proof using Ho.
  destruct (Ho) as [Hw Hd [Hs1 Hs2] Hp Hc (Hr1 & Hr2 & Hr3)]. unfold other_flag. repeat one_branch; one_member.
Qed.

Lemma flag_action_ok : keeps_ok (flag_action argument o).
Proof using Ho.
  unfold flag_action. pose proof mining_flag_ok as H1. destruct (mining_flag argument o); [exact H1|].
  pose proof pool_flag_ok as H2. destruct (pool_flag argument o); [exact H2|]. exact other_flag_ok.
Qed.
End flags.

Lemma parse_args_ok : forall n args o level, (length args <= n)%nat -> options_ok o ->
  let r := parse_args args o level in
  if should_exit r then exit_code r = 0 \/ exit_code r = 64 else options_ok (options r) /\ exit_code r = 0.
Proof.
  induction n as [|n IH]; intros [|argument args] o level Hn Ho; try (cbn in Hn; lia); try by split.
  cbn [length] in Hn. cbn [parse_args]. pose proof (flag_action_ok argument o Ho) as H.
  destruct (flag_action argument o) as [o'|l| | |o' code]; cbn [keeps_ok] in H; try (apply IH; [lia|done]); [|done].
  destruct args as [|key args]; [by right|]. apply IH; [cbn in Hn; lia|]. by destruct Ho.
Qed.

Lemma from_config_ok cfg o : config_range cfg -> options_ok o -> options_ok (from_config cfg o).
Proof.
  intros [Hp Hw Hd Hs] Ho. unfold from_config. set (o1 := foldl _ o (pools cfg)).
  assert (options_ok o1) as H1.
  { unfold o1. clear o1. revert o Ho. induction Hp as [|p l Hx _ IH]; intros o Ho; [done|]. cbn [foldl]. apply IH.
    destruct Ho as [? ? [? ?] Hl ? (? & ? & ?)]. constructor; cbn; try done.
    - apply Forall_app. split; [done|by constructor].
    - rewrite bool_decide_false; [done|]. by destruct (pool_list o). }
  clearbody o1. clear Hp Ho o.
  assert (forall b w, options_ok (if (b : bool) then o1 else set_pool_wallet w o1)) as H2 by (intros [] w; [done|by destruct H1]).
  set (o2 := if bool_decide (wallet cfg = []) then _ else _). assert (options_ok o2) as H3 by apply H2. clearbody o2. clear H1 H2 o1.
  set (o3 := if bool_decide (password cfg = _) then _ else _).
  assert (options_ok o3) as H4 by (unfold o3; case_bool_decide; [done|by destruct H3]). clearbody o3. clear H3 o2.
  set (o4 := if 0 <? Config.workers cfg then _ else _).
  assert (options_ok o4) as H5.
  { unfold o4. destruct H4. destruct (Z.ltb_spec 0 (Config.workers cfg)); constructor; cbn; try done; lia. }
  clearbody o4. clear H4 o3. assert (options_ok (config_mode (mode cfg) o4)) as H6
    by (unfold config_mode; destruct H5; repeat case_match; by constructor).
  destruct H6 as [? ? [? ?] ? ? ?]. by constructor.
Qed.

(** C30: whatever the arguments, the configuration file and the environment, parsing ends without an
    exception in one of two ways: an exit with code 0 or 64, or options the miner can run with.  Then
    there is at least one worker, every number is in the range its flag documents, every pool has a
    16-bit port, a pool is to be connected exactly when one is listed, TLS is asked only of a build that
    has it, and a pool test has a pool and a wallet. *)
Theorem cli_options_valid (files getenv : text -> option text) (online_cpus : Z) (isolated : list Z) (have_tls : bool)
    (level : Level) (args : list text) :
  1 <= online_cpus < 2 ^ 32 -> Z.of_nat (length isolated) < 2 ^ 32 ->
  exists r, parse files getenv online_cpus isolated have_tls level args = Done r /\
    if should_exit r then exit_code r = 0 \/ exit_code r = 64
    else exit_code r = 0 /\ options_ok (options r) /\ (pool_tls (options r) = true -> have_tls = true) /\
         (pool_test (options r) = true -> pool_list (options r) <> [] /\ pool_wallet (options r) <> []).
Proof.
  intros Hc Hi. unfold parse. destruct (load_range files getenv (config_path args)) as (cfg & -> & Hcfg). cbn [mbind outcome_bind].
  eexists. split; [reflexivity|].
  assert (options_ok (set_workers (default_workers online_cpus isolated) default_options)) as H0.
  { constructor; cbn; try done; try lia. unfold default_workers. case_bool_decide; [done|].
    destruct isolated; [done|]. rewrite wrap_small by (split; [lia|done]). cbn [length] in *. lia. }
  pose proof (parse_args_ok _ args _ level (le_n _) (from_config_ok cfg _ Hcfg H0)) as H. cbv zeta in H.
  set (r := parse_args args _ level) in *. clearbody r. clear H0. destruct (should_exit r) eqn:Ee; [by rewrite Ee|].
  destruct H as [Ho Hx]. unfold final_checks. destruct (negb have_tls && pool_tls (options r)) eqn:Et; [by right|].
  assert (pool_tls (options r) = true -> have_tls = true) as Htls by (intros E; rewrite E in Et; by destruct have_tls).
  destruct (pool_test (options r)) eqn:Ep; [|rewrite Ee, Ep; by split_and!].
  set (o := if bool_decide (pool_list (options r) = []) then _ else _).
  assert (options_ok o /\ pool_list o <> [] /\ pool_tls o = pool_tls (options r)) as (Ho' & Hl & Ht).
  { unfold o. case_bool_decide as El; [|done]. split_and!; [|done|done]. destruct Ho as [? ? [? ?] ? ? ?]. constructor; cbn; try done.
    by constructor. }
  clearbody o. case_bool_decide as Ew; [by right|]. cbn [should_exit exit_code options]. split; [done|].
  rewrite <- Ht in Htls. case_bool_decide; [|done]. split; [by destruct Ho'|]. done.
Qed.

Lemma cli_options_valid_witness :
  exists r, parse (fun _ => None) (fun _ => None) 8 [] false info [lit "--pool-test"; lit "--wallet=4A"; lit "--workers=0"] = Done r /\
    options_ok (options r) /\ pool_list (options r) <> [].
Proof.
  destruct (cli_options_valid (fun _ => None) (fun _ => None) 8 [] false info [lit "--pool-test"; lit "--wallet=4A"; lit "--workers=0"])
    as (r & E & H); [split; [discriminate|reflexivity]|reflexivity|].
  pose (view := fun m => match m with Done r => (should_exit r, pool_test (options r)) | _ => (true, false) end).
  assert (view (Done r) = (false, true)) as Hv by (rewrite <- E; vm_compute; reflexivity).
  injection Hv as E1 E2. rewrite E1 in H. destruct H as (_ & H1 & _ & H2).
  exists r. split; [exact E|]. split; [exact H1|]. exact (proj1 (H2 E2)).
Defined.

(** ** Pool addresses *)

Definition no_char (c : Z) (s : text) : bool := forallb (fun x => negb (x =? c)) s.

Lemma find_char_first c s rest : no_char c s = true -> find_char c (s ++ c :: rest) = Some (length s).
Proof.
  unfold find_char. induction s as [|x s IH]; intros Hs; cbn [app find_text prefix_of]; [by rewrite Z.eqb_refl|].
  cbn [no_char forallb] in Hs. apply andb_true_iff in Hs as [Hx Hs]. destruct (Z.eqb_spec c x) as [->|_]; [by rewrite Z.eqb_refl in Hx|].
  cbn [andb]. by rewrite IH.
Qed.

Lemma find_char_none c s : no_char c s = true -> find_char c s = None.
Proof.
  unfold find_char. induction s as [|x s IH]; intros Hs; [done|]. cbn [no_char forallb] in Hs. apply andb_true_iff in Hs as [Hx Hs].
  cbn [find_text prefix_of]. destruct (Z.eqb_spec c x) as [->|_]; [by rewrite Z.eqb_refl in Hx|]. cbn [andb]. by rewrite IH.
Qed.

Lemma rfind_char_none c s : no_char c s = true -> rfind_char c s = None.
Proof.
  induction s as [|x s IH]; intros Hs; [done|]. cbn [no_char forallb] in Hs. apply andb_true_iff in Hs as [Hx Hs]. cbn [rfind_char].
  rewrite IH by done. by destruct (x =? c).
Qed.

Lemma number_to_string n m : word64 n -> n <= m -> number (to_string n) m = Some n.
Proof. intros Hn Hm. unfold number. rewrite parse_number by done. by destruct (Z.ltb_spec m n); [lia|]. Qed.

(** How an address without brackets splits at its last colon. *)
Lemma unbracketed before maybe_port : looking_at (before ++ colon :: maybe_port) 0 lbracket = false -> no_char colon maybe_port = true ->
  parse_pool_arg (before ++ colon :: maybe_port) =
    match (if negb (bool_decide (before = [])) && bool_decide (find_char colon before = None)
           then (fun p => (before, p)) <$> number maybe_port 65535 else None) with
    | Some hp => Some hp
    | None => if bool_decide (find_char colon before = None) && negb (bool_decide (maybe_port = [])) then None
              else Some (before ++ colon :: maybe_port, default_port)
    end.
Proof.
  intros Hb Hp. unfold parse_pool_arg. rewrite Hb, andb_false_r, rfind_char_last by done.
  rewrite take_app_length, Nat.add_1_r. by rewrite (cons_middle colon before maybe_port), app_assoc, drop_app_length' by (rewrite length_app; cbn; lia).
Qed.

(** Every documented form of [--pool=] is understood: host:port, a host alone, [ipv6]:port, [ipv6]
    alone and a bare IPv6 address (two colons or more, never taken for a port); a host followed by
    something that is not a port in range is refused. *)
Theorem cli_pool_forms (host h before middle group bad : text) (port : Z) :
  0 <= port <= 65535 -> host <> [] -> no_char colon host = true -> looking_at host 0 lbracket = false ->
  h <> [] -> no_char rbracket h = true ->
  looking_at before 0 lbracket = false -> before <> [] -> no_char colon group = true ->
  no_char colon bad = true -> bad <> [] -> number bad 65535 = None ->
  parse_pool_arg (host ++ colon :: to_string port) = Some (host, port) /\
  parse_pool_arg host = Some (host, 3333) /\
  parse_pool_arg (lbracket :: h ++ rbracket :: colon :: to_string port) = Some (h, port) /\
  parse_pool_arg (lbracket :: h ++ [rbracket]) = Some (h, 3333) /\
  parse_pool_arg ((before ++ colon :: middle) ++ colon :: group) = Some ((before ++ colon :: middle) ++ colon :: group, 3333) /\
  parse_pool_arg (host ++ colon :: bad) = None.
Proof.
  intros Hport Hh0 Hh Hhb Hb0 Hb Hbf Hbf0 Hg Hbad Hbad0 Hbn. assert (word64 port) as Hw by (split; lia).
  destruct (to_string_ok port Hw) as (Hd & _ & _). assert (no_char colon (to_string port) = true) as Hdc by (by apply digits_no_colon).
  assert (forall s r, s <> [] -> looking_at (s ++ r) 0 lbracket = looking_at s 0 lbracket) as Hla by (intros [|x s] r Hs; done).
  split_and!.
  - rewrite unbracketed by (rewrite ?Hla by done; done). rewrite bool_decide_false by done.
    rewrite bool_decide_true by (by apply find_char_none). cbn [negb andb]. by rewrite number_to_string by (done || lia).
  - unfold parse_pool_arg. rewrite Hhb, andb_false_r, rfind_char_none by done. by rewrite bool_decide_true.
  - unfold parse_pool_arg. set (s := to_string port) in *.
    replace (3 <=? length (lbracket :: h ++ rbracket :: colon :: s))%nat with true
      by (symmetry; apply Nat.leb_le; cbn; rewrite length_app; cbn; lia).
    change (looking_at (lbracket :: ?x) 0 lbracket) with true. cbn [andb]. change (lbracket :: h ++ ?r) with ((lbracket :: h) ++ r).
    rewrite find_char_first by (cbn; exact Hb). unfold looking_at.
    rewrite lookup_app_r by (cbn; lia). replace (length (lbracket :: h) + 1 - length (lbracket :: h))%nat with 1%nat by lia.
    cbn [lookup list_lookup Z.eqb Pos.eqb]. replace (length (lbracket :: h) + 2)%nat with (length ((lbracket :: h) ++ [rbracket; colon]))
      by (rewrite length_app; cbn; lia).
    change (rbracket :: colon :: s) with ([rbracket; colon] ++ s). rewrite app_assoc, drop_app_length.
    unfold s. rewrite number_to_string by (done || lia). f_equal. f_equal. rewrite <- app_assoc. cbn [length Nat.sub app drop].
    rewrite Nat.sub_0_r, drop_0. apply take_app_length.
  - unfold parse_pool_arg. replace (3 <=? length (lbracket :: h ++ [rbracket]))%nat with true
      by (symmetry; apply Nat.leb_le; destruct h; [done|cbn; rewrite length_app; cbn; lia]).
    change (looking_at (lbracket :: ?x) 0 lbracket) with true. cbn [andb]. change (lbracket :: h ++ ?r) with ((lbracket :: h) ++ r).
    rewrite find_char_first by (cbn; exact Hb). unfold looking_at. rewrite lookup_ge_None_2 by (rewrite length_app; cbn; lia).
    f_equal. f_equal. cbn [length Nat.sub app drop]. rewrite Nat.sub_0_r, drop_0. apply take_app_length.
  - rewrite unbracketed by (rewrite ?Hla by (destruct before; done); done).
    assert (find_char colon (before ++ colon :: middle) <> None) as Hf.
    { unfold find_char. intros E. pose proof (find_text_none _ _ E (length before)) as H. by rewrite drop_app_length in H. }
    rewrite (bool_decide_false (_ = None)) by done. by rewrite andb_false_r.
  - rewrite unbracketed by (rewrite ?Hla by done; done). rewrite bool_decide_false by done.
    rewrite bool_decide_true by (by apply find_char_none). cbn [negb andb]. rewrite Hbn. cbn [fmap option_fmap option_map].
    by rewrite bool_decide_false.
Qed.

Lemma cli_pool_forms_witness :
  parse_pool_arg (lit "2001:db8::1") = Some (lit "2001:db8::1", 3333) /\ parse_pool_arg (lit "a.b:99999") = None.
Proof.
  destruct (cli_pool_forms (lit "a.b") (lit "::1") (lit "2001:db8") [] (lit "1") (lit "99999") 80) as (_ & _ & _ & _ & E1 & E2);
    try reflexivity; try discriminate; [split; discriminate|].
  exact (conj E1 E2).
Defined.

(** A colon with no port after it stays in the host name. *)
Lemma cli_trailing_colon : parse_pool_arg (lit "a.b:") = Some (lit "a.b:", 3333).
Proof. reflexivity. Qed.
