(* ===== verification/PartialDataset.v ===== *)
(** * The partial dataset

    Models src/src/partial_dataset.cpp and src/include/armrx/partial_dataset.hpp: a prefix of the dataset
    that background threads fill while hashing threads read it, and that is refilled for a new seed.  The
    threads interleave at every access to a shared atomic: a step relation over the shared memory, the
    fill workers, the rotation ([start_fill]), the writer-preferring lock and its readers.  The buffer is
    a function from item numbers to items; a worker writes one item per step. *)

From stdpp Require Import relations.
From S2P Require Import Prelude RandomX Argon2 Dataset.

Definition kFillChunkBytes : Z := 64 * 1024 * 1024.
Definition kFillChunkItems : Z := kFillChunkBytes / kRandomXDatasetItemBytes.

(** ** Construction *)

(** The constructor's checks: how many items it allocates, or what it throws. *)
Definition allocate (item_count : Z) : outcome Z :=
  if item_count =? 0 then Done 0
  else if randomx_dataset_item_count <? item_count then Throw (invalid_argument "PartialDataset: item_count")
  else if u64_max / kRandomXDatasetItemBytes <? item_count then Throw (invalid_argument "PartialDataset: item_count overflows")
  else Done item_count.

Lemma allocate_fits n : 0 < n -> (exists e, allocate n = Throw e) \/ (allocate n = Done n /\ n <= randomx_dataset_item_count).
Proof.
  intros Hn. unfold allocate. destruct (Z.eqb_spec n 0); [lia|]. destruct (Z.ltb_spec randomx_dataset_item_count n); [by left; eexists|].
  destruct (_ <? n); [by left; eexists|]. by right.
Qed.

(** ** Dividing the items among the workers *)

Definition avail_cores (core_order exclude_cores : list Z) : list Z :=
  let avail := filter (fun c => negb (bool_decide (c ∈ exclude_cores))) core_order in
  if bool_decide (avail = []) then core_order else avail.

Definition num_workers (total_items : Z) (cores : list Z) : Z :=
  wrap 32 (Z.min (wrap 64 (total_items + kFillChunkItems - 1) / kFillChunkItems) (Z.max 1 (Z.of_nat (length cores)))).

Definition items_per_worker (total_items workers : Z) : Z := wrap 64 (total_items + workers - 1) / workers.

Definition chunk_start (per_worker : Z) (i : nat) : Z := Z.of_nat i * per_worker.
Definition chunk_end (total per_worker : Z) (i : nat) : Z := Z.min (chunk_start per_worker i + per_worker) total.

(** The number of threads the loop of [start_fill] creates: it stops at the first empty chunk. *)
Fixpoint spawned (total per_worker : Z) (i rest : nat) : nat :=
  match rest with
  | O => 0
  | S rest => if chunk_end total per_worker i <=? chunk_start per_worker i then 0 else S (spawned total per_worker (S i) rest)
  end.

(** Every chunk the flags are made for has items: none is empty, together they cover the prefix. *)
Record plan_ok (total per_worker workers : Z) : Prop := {
  pl_positive : 0 < per_worker /\ 0 < workers < 2 ^ 32;
  pl_last : (workers - 1) * per_worker < total;
  pl_cover : total <= workers * per_worker;
}.

Lemma plan total cores : 0 < total <= randomx_dataset_item_count ->
  let w := num_workers total cores in plan_ok total (items_per_worker total w) w.
Proof.
  intros Ht w. change randomx_dataset_item_count with 34078720 in Ht. unfold w, num_workers.
  change kFillChunkItems with 1048576. rewrite (wrap_small 64) by (split; lia).
  set (q := (total + 1048576 - 1) / 1048576). assert (1 <= q <= 33 /\ (q - 1) * 1048576 < total) as [Hq1 Hq2].
  { pose proof (Z.div_mod (total + 1048576 - 1) 1048576 ltac:(lia)) as H1. fold q in H1.
    pose proof (Z.mod_pos_bound (total + 1048576 - 1) 1048576 ltac:(lia)). lia. }
  set (n := Z.min q (Z.max 1 (Z.of_nat (length cores)))). assert (1 <= n <= q) as Hn by lia.
  rewrite (wrap_small 32) by (split; lia). unfold items_per_worker. rewrite wrap_small by (split; lia).
  pose proof (Z.div_mod (total + n - 1) n ltac:(lia)) as H1. pose proof (Z.mod_pos_bound (total + n - 1) n ltac:(lia)) as H2.
  set (p := (total + n - 1) / n) in *. constructor; [split; [|lia]|nia|nia]. nia.
Qed.

Lemma plan_chunk total p n i : plan_ok total p n -> Z.of_nat i < n -> chunk_start p i < chunk_end total p i.
Proof. intros [[H1 H2] H3 H4] Hi. unfold chunk_end, chunk_start. nia. Qed.

Lemma plan_spawned total p n : plan_ok total p n -> spawned total p 0 (Z.to_nat n) = Z.to_nat n.
Proof.
  intros Hp. assert (forall rest i, Z.of_nat (i + rest) <= n -> spawned total p i rest = rest) as H.
  { induction rest as [|rest IH]; intros i Hi; [done|]. cbn [spawned]. pose proof (plan_chunk total p n i Hp ltac:(lia)).
    destruct (Z.leb_spec (chunk_end total p i) (chunk_start p i)); [lia|]. by rewrite IH by lia. }
  apply H. destruct Hp as [[_ ?] _ _]. lia.
Qed.

(** ** The lock *)

Record RotationLock : Type := mkLock { active_readers_ : Z; waiting_writers_ : Z; writer_active_ : bool }.

(** The predicates the condition variables wait for, and what happens once they hold. *)
Definition can_lock_shared (l : RotationLock) : bool := negb (writer_active_ l) && (waiting_writers_ l =? 0).
Definition lock_shared (l : RotationLock) : RotationLock := mkLock (active_readers_ l + 1) (waiting_writers_ l) (writer_active_ l).
Definition unlock_shared (l : RotationLock) : RotationLock := mkLock (active_readers_ l - 1) (waiting_writers_ l) (writer_active_ l).
Definition want_lock (l : RotationLock) : RotationLock := mkLock (active_readers_ l) (waiting_writers_ l + 1) (writer_active_ l).
Definition can_lock (l : RotationLock) : bool := negb (writer_active_ l) && (active_readers_ l =? 0).
Definition lock (l : RotationLock) : RotationLock := mkLock (active_readers_ l) (waiting_writers_ l - 1) true.
Definition unlock (l : RotationLock) : RotationLock := mkLock (active_readers_ l) (waiting_writers_ l) false.

(** ** The shared memory *)

Record fill_mem : Type := mkMem {
  data_ : Z -> list Z;
  item_count_ : Z;
  contiguous_done_ : Z;
  fill_complete_ : bool;
  fill_failed_ : bool;
  shutdown_requested_ : bool;
  stop_ : bool;
  generation_ : Z;
  chunk_done_ : list bool;
  items_per_chunk_ : Z;
  cache_holder_ : option Argon2dCache;
}.

Definition put_item (i : Z) (item : list Z) (m : fill_mem) : fill_mem :=
  mkMem (fun j => if j =? i then item else data_ m j) (item_count_ m) (contiguous_done_ m) (fill_complete_ m) (fill_failed_ m)
    (shutdown_requested_ m) (stop_ m) (generation_ m) (chunk_done_ m) (items_per_chunk_ m) (cache_holder_ m).
Definition set_item_count (n : Z) (m : fill_mem) : fill_mem :=
  mkMem (data_ m) n (contiguous_done_ m) (fill_complete_ m) (fill_failed_ m)
    (shutdown_requested_ m) (stop_ m) (generation_ m) (chunk_done_ m) (items_per_chunk_ m) (cache_holder_ m).
Definition set_contiguous (n : Z) (m : fill_mem) : fill_mem :=
  mkMem (data_ m) (item_count_ m) n (fill_complete_ m) (fill_failed_ m)
    (shutdown_requested_ m) (stop_ m) (generation_ m) (chunk_done_ m) (items_per_chunk_ m) (cache_holder_ m).
Definition set_complete (m : fill_mem) : fill_mem :=
  mkMem (data_ m) (item_count_ m) (contiguous_done_ m) true (fill_failed_ m)
    (shutdown_requested_ m) (stop_ m) (generation_ m) (chunk_done_ m) (items_per_chunk_ m) (cache_holder_ m).
Definition set_failed (m : fill_mem) : fill_mem :=
  mkMem (data_ m) (item_count_ m) (contiguous_done_ m) (fill_complete_ m) true
    (shutdown_requested_ m) true (generation_ m) (chunk_done_ m) (items_per_chunk_ m) (cache_holder_ m).
Definition set_chunk_done (k : nat) (m : fill_mem) : fill_mem :=
  mkMem (data_ m) (item_count_ m) (contiguous_done_ m) (fill_complete_ m) (fill_failed_ m)
    (shutdown_requested_ m) (stop_ m) (generation_ m) (<[k:=true]> (chunk_done_ m)) (items_per_chunk_ m) (cache_holder_ m).

(** [cancel]: the persistent flag, then the token of the fill it finds. *)
Definition set_shutdown (m : fill_mem) : fill_mem :=
  mkMem (data_ m) (item_count_ m) (contiguous_done_ m) (fill_complete_ m) (fill_failed_ m)
    true (stop_ m) (generation_ m) (chunk_done_ m) (items_per_chunk_ m) (cache_holder_ m).
Definition set_stop (m : fill_mem) : fill_mem :=
  mkMem (data_ m) (item_count_ m) (contiguous_done_ m) (fill_complete_ m) (fill_failed_ m)
    (shutdown_requested_ m) true (generation_ m) (chunk_done_ m) (items_per_chunk_ m) (cache_holder_ m).

(** [start_fill] inside the exclusive section, and after it. *)
Definition reset_counts (m : fill_mem) : fill_mem :=
  mkMem (data_ m) 0 0 false false (shutdown_requested_ m) false (wrap 64 (generation_ m + 1))
    (chunk_done_ m) (items_per_chunk_ m) (cache_holder_ m).
Definition prepare_chunks (workers per_worker : Z) (cache : Argon2dCache) (m : fill_mem) : fill_mem :=
  mkMem (data_ m) (item_count_ m) (contiguous_done_ m) (fill_complete_ m) (fill_failed_ m) (shutdown_requested_ m) (stop_ m)
    (generation_ m) (replicate (Z.to_nat workers) false) per_worker (Some cache).

Definition cancelled (m : fill_mem) : bool := stop_ m || shutdown_requested_ m.

(** When [wait_for_fill] stops waiting. *)
Definition fill_wait_over (m : fill_mem) : bool := fill_complete_ m || cancelled m.

(** ** A fill worker *)

(** Where [fill_worker] stands; [Writing pos sub_end] is inside [initialize_dataset]. *)
Inductive worker : Type :=
  | Start
  | SubCheck (sub_start : Z)
  | Writing (pos sub_end : Z)
  | Mark
  | LoadCursor
  | Scan (cursor : Z)
  | Exchange (cursor : Z)
  | LoadCount (cursor prev : Z)
  | Raise (cursor prev item_prev : Z)
  | Decide (cursor prev : Z)
  | Final
  | Exited.
#[export] Instance worker_eq_dec : EqDecision worker.
Proof. solve_decision. Defined.

Section filling.
Context (allocated_items_ : Z).

Definition item_at (m : fill_mem) (i : Z) : list Z :=
  match cache_holder_ m with Some cache => item_of cache i | None => [] end.

(** The chunk at the cursor is done: how far its span reaches. *)
Definition swallow (m : fill_mem) (cursor : Z) : option Z :=
  if cursor <? allocated_items_ then
    let owning := Z.to_nat (cursor / items_per_chunk_ m) in
    match chunk_done_ m !! owning with
    | Some true =>
        Some (cursor + if (owning + 1 <? length (chunk_done_ m))%nat then items_per_chunk_ m
                       else allocated_items_ - Z.of_nat owning * items_per_chunk_ m)
    | _ => None
    end
  else None.

(** One step of worker [k], the thread of chunk [k]. *)
Inductive worker_step (k : nat) (m : fill_mem) : worker -> fill_mem -> worker -> Prop :=
  | begin_cancelled : cancelled m = true -> worker_step k m Start m Exited
  | begin_fill : cancelled m = false -> worker_step k m Start m (SubCheck (chunk_start (items_per_chunk_ m) k))
  | sub_cancelled p : p < chunk_end allocated_items_ (items_per_chunk_ m) k -> cancelled m = true ->
      worker_step k m (SubCheck p) m Exited
  | sub_begin p (sub_end := Z.min (p + kFillChunkItems) (chunk_end allocated_items_ (items_per_chunk_ m) k)) :
      p < chunk_end allocated_items_ (items_per_chunk_ m) k -> cancelled m = false ->
      dataset_range_is_valid p (sub_end - p) = true -> worker_step k m (SubCheck p) m (Writing p sub_end)
  | sub_fails p (sub_end := Z.min (p + kFillChunkItems) (chunk_end allocated_items_ (items_per_chunk_ m) k)) :
      p < chunk_end allocated_items_ (items_per_chunk_ m) k -> cancelled m = false ->
      dataset_range_is_valid p (sub_end - p) = false -> worker_step k m (SubCheck p) (set_failed m) Exited
  | sub_over p : chunk_end allocated_items_ (items_per_chunk_ m) k <= p -> worker_step k m (SubCheck p) m Mark
  | write_item p sub_end : p < sub_end -> worker_step k m (Writing p sub_end) (put_item p (item_at m p) m) (Writing (p + 1) sub_end)
  | write_over p sub_end : sub_end <= p -> worker_step k m (Writing p sub_end) m (SubCheck sub_end)
  | mark_done : worker_step k m Mark (set_chunk_done k m) LoadCursor
  | load_cursor : worker_step k m LoadCursor m (Scan (contiguous_done_ m))
  | scan_on cursor cursor' : swallow m cursor = Some cursor' -> worker_step k m (Scan cursor) m (Scan cursor')
  | scan_over cursor : swallow m cursor = None -> worker_step k m (Scan cursor) m (Exchange cursor)
  | exchange cursor : worker_step k m (Exchange cursor) (set_contiguous cursor m) (LoadCount cursor (contiguous_done_ m))
  | load_count cursor prev : worker_step k m (LoadCount cursor prev) m (Raise cursor prev (item_count_ m))
  | raise_done cursor prev item_prev : item_prev < cursor -> item_count_ m = item_prev ->
      worker_step k m (Raise cursor prev item_prev) (set_item_count cursor m) (Decide cursor prev)
  | raise_again cursor prev item_prev : item_prev < cursor ->      (* also a spurious failure *)
      worker_step k m (Raise cursor prev item_prev) m (Raise cursor prev (item_count_ m))
  | raise_over cursor prev item_prev : cursor <= item_prev -> worker_step k m (Raise cursor prev item_prev) m (Decide cursor prev)
  | decide_again cursor prev : cursor <> prev -> worker_step k m (Decide cursor prev) m LoadCursor
  | decide_over cursor : worker_step k m (Decide cursor cursor) m Final
  | complete : cancelled m = false -> allocated_items_ <= contiguous_done_ m -> worker_step k m Final (set_complete m) Exited
  | incomplete : cancelled m = true \/ contiguous_done_ m < allocated_items_ -> worker_step k m Final m Exited.

(** ** The whole system *)

(** [start_fill], call by call: waiting for the old threads, for the lock, resetting, starting threads. *)
Inductive rotation : Type :=
  | Idle
  | Joining (cache : Argon2dCache) (cores : list Z)
  | Queueing (cache : Argon2dCache) (cores : list Z)
  | Waiting (cache : Argon2dCache) (cores : list Z)
  | Resetting (cache : Argon2dCache) (cores : list Z)
  | Unlocking (cache : Argon2dCache) (cores : list Z)
  | Spawning (cache : Argon2dCache) (cores : list Z).

(** A hashing thread: outside, or under a [ReadGuard] with the generation it saw and the bound it loaded. *)
Inductive reader : Type := Outside | Inside (generation bound : Z).

Record state : Type := mkState {
  mem : fill_mem;
  fill_threads_ : list worker;
  rotation_mutex_ : RotationLock;
  rotating : rotation;
  readers : list reader;
}.

Inductive step : state -> state -> Prop :=
  | step_worker m ws l r rs k w m' w' : ws !! k = Some w -> worker_step k m w m' w' ->
      step (mkState m ws l r rs) (mkState m' (<[k:=w']> ws) l r rs)
  | step_start m ws l rs cache core_order exclude_cores : cache_ready cache -> core_order <> [] -> shutdown_requested_ m = false ->
      step (mkState m ws l Idle rs) (mkState m ws l (Joining cache (avail_cores core_order exclude_cores)) rs)
  | step_joined m ws l rs c a : Forall (eq Exited) ws ->
      step (mkState m ws l (Joining c a) rs) (mkState m [] l (Queueing c a) rs)
  | step_queue m ws l rs c a : step (mkState m ws l (Queueing c a) rs) (mkState m ws (want_lock l) (Waiting c a) rs)
  | step_locked m ws l rs c a : can_lock l = true ->
      step (mkState m ws l (Waiting c a) rs) (mkState m ws (lock l) (Resetting c a) rs)
  | step_reset m ws l rs c a :
      step (mkState m ws l (Resetting c a) rs) (mkState (reset_counts m) ws l (Unlocking c a) rs)
  | step_unlock m ws l rs c a : step (mkState m ws l (Unlocking c a) rs) (mkState m ws (unlock l) (Spawning c a) rs)
  | step_spawn m ws l rs c a (n := num_workers allocated_items_ a) (per := items_per_worker allocated_items_ n) :
      step (mkState m ws l (Spawning c a) rs)
        (mkState (prepare_chunks n per c m) (replicate (spawned allocated_items_ per 0 (Z.to_nat n)) Start) l Idle rs)
  | step_enter m ws l r rs i : rs !! i = Some Outside -> can_lock_shared l = true ->
      step (mkState m ws l r rs) (mkState m ws (lock_shared l) r (<[i:=Inside (generation_ m) 0]> rs))
  | step_load m ws l r rs i g b : rs !! i = Some (Inside g b) ->
      step (mkState m ws l r rs) (mkState m ws l r (<[i:=Inside g (item_count_ m)]> rs))
  | step_leave m ws l r rs i g b : rs !! i = Some (Inside g b) ->
      step (mkState m ws l r rs) (mkState m ws (unlock_shared l) r (<[i:=Outside]> rs))
  | step_waited m ws l r rs : fill_wait_over m = true -> Forall (eq Exited) ws ->     (* a waiter joins and clears the threads *)
      step (mkState m ws l r rs) (mkState m [] l r rs)
  | step_shutdown m ws l r rs : step (mkState m ws l r rs) (mkState (set_shutdown m) ws l r rs)
  | step_stop m ws l r rs : shutdown_requested_ m = true -> step (mkState m ws l r rs) (mkState (set_stop m) ws l r rs).

(** A new object with some hashing threads. *)
Definition new_state (threads : nat) : state :=
  mkState (mkMem (fun _ => []) 0 0 false false false false 0 [] 0 None) [] (mkLock 0 0 false) Idle (replicate threads Outside).
End filling.

(** ** What every state satisfies *)

Section invariant.
Context (T : Z) (HT : 0 < T <= randomx_dataset_item_count).

Definition flag (m : fill_mem) (k : nat) : Prop := chunk_done_ m !! k = Some true.
Definition filled (m : fill_mem) (a b : Z) : Prop := forall i, a <= i < b -> data_ m i = item_at m i.

(** A bound that may be published: the end of a chunk (or 0), every chunk below it done. *)
Definition covered (m : fill_mem) (x : Z) : Prop :=
  0 <= x <= T /\ (x = T \/ exists k : nat, x = Z.of_nat k * items_per_chunk_ m) /\
  forall k, (k < length (chunk_done_ m))%nat -> Z.of_nat k * items_per_chunk_ m < x -> flag m k.

Record mem_inv (m : fill_mem) : Prop := {
  mi_plan : plan_ok T (items_per_chunk_ m) (Z.of_nat (length (chunk_done_ m)));
  mi_done : forall k, flag m k -> filled m (chunk_start (items_per_chunk_ m) k) (chunk_end T (items_per_chunk_ m) k);
  mi_cursor : covered m (contiguous_done_ m);
  mi_count : covered m (item_count_ m);
  mi_complete : fill_complete_ m = true -> covered m T;
  mi_failed : fill_failed_ m = false;
  mi_cache : exists cache, cache_holder_ m = Some cache;
}.

Definition worker_inv (m : fill_mem) (k : nat) (w : worker) : Prop :=
  let start := chunk_start (items_per_chunk_ m) k in
  let stop := chunk_end T (items_per_chunk_ m) k in
  match w with
  | Start => True
  | SubCheck p => start <= p <= stop /\ filled m start p
  | Writing p e => start <= p <= e /\ e <= stop /\ filled m start p
  | Mark => filled m start stop
  | LoadCursor | Final => flag m k
  | Raise c _ item_prev => (covered m c /\ flag m k) /\ item_prev <= item_count_ m
  | Scan c | Exchange c | LoadCount c _ | Decide c _ => covered m c /\ flag m k
  | Exited => flag m k \/ cancelled m = true
  end.

(** What a step of another worker may do to the memory. *)
Record extends (m m' : fill_mem) : Prop := {
  ex_per : items_per_chunk_ m' = items_per_chunk_ m;
  ex_cache : cache_holder_ m' = cache_holder_ m;
  ex_generation : generation_ m' = generation_ m;
  ex_length : length (chunk_done_ m') = length (chunk_done_ m);
  ex_flags : forall k, flag m k -> flag m' k;
  ex_items : forall i, data_ m i = item_at m i -> data_ m' i = item_at m' i;
  ex_cancelled : cancelled m = true -> cancelled m' = true;
  ex_count : item_count_ m <= item_count_ m';
}.

Lemma extends_refl m : extends m m.
Proof. by constructor. Qed.

Lemma filled_extends m m' a b : extends m m' -> filled m a b -> filled m' a b.
Proof. intros He H i Hi. by apply (ex_items _ _ He), H. Qed.

Lemma covered_extends m m' x : extends m m' -> covered m x -> covered m' x.
Proof.
  intros He (H1 & H2 & H3). destruct He as [E1 _ _ E2 E3 _ _ _]. unfold covered. rewrite E1, E2. split_and!; [lia|lia|done|].
  intros k Hk Hx. by apply E3, H3.
Qed.

Lemma worker_inv_extends m m' k w : extends m m' -> worker_inv m k w -> worker_inv m' k w.
Proof.
  intros He. unfold worker_inv. rewrite (ex_per _ _ He).
  pose proof (ex_flags _ _ He k) as Hf.
  destruct w as [|p|p e| | |c|c|c pr|c pr ip|c pr| |]; intros H;
    first [done|exact (Hf H)|exact (filled_extends _ _ _ _ He H)|exact (conj (covered_extends _ _ _ He (proj1 H)) (Hf (proj2 H)))|idtac].
  - destruct H as [H1 H2]. split; [done|]. by apply (filled_extends m).
  - destruct H as (H1 & H2 & H3). split; [done|]. split; [done|]. by apply (filled_extends m).
  - destruct H as [[H1 H2] H3]. pose proof (ex_count _ _ He). split; [|lia]. split; [by apply (covered_extends m)|by apply Hf].
  - destruct H as [H|H]; [left; by apply Hf|right; by apply (ex_cancelled _ _ He)].
Qed.

Lemma plan_div p n (k : nat) : plan_ok T p n -> Z.to_nat (Z.of_nat k * p / p) = k.
Proof. intros [[H _] _ _]. rewrite Z.div_mul by lia. lia. Qed.

Lemma swallow_covered m c c' : mem_inv m -> covered m c -> swallow T m c = Some c' -> covered m c' /\ c < c'.
Proof.
  intros Hm (H1 & H2 & H3). unfold swallow. destruct (Z.ltb_spec c T); [|done].
  destruct H2 as [->|[k ->]]; [lia|]. destruct (mi_plan _ Hm) as [[P1 P2] P3 P4] eqn:Ep. rewrite (plan_div _ _ _ (mi_plan _ Hm)).
  destruct (chunk_done_ m !! k) as [[]|] eqn:Ek; [|done..]. pose proof (lookup_lt_Some _ _ _ Ek) as Hk. intros [= <-].
  set (p := items_per_chunk_ m) in *. destruct (Nat.ltb_spec (k + 1) (length (chunk_done_ m))) as [Hl|Hl].
  - split; [|lia]. split; [nia|]. split; [right; exists (S k); lia|]. intros j Hj Hx.
    destruct (decide (j = k)) as [->|Hjk]; [exact Ek|]. apply H3; [done|]. fold p. assert (Z.of_nat j < Z.of_nat k + 1) by nia. nia.
  - split; [|lia]. split; [lia|]. split; [left; lia|]. intros j Hj Hx.
    destruct (decide (j = k)) as [->|Hjk]; [exact Ek|]. apply H3; [done|]. fold p. nia.
Qed.

(** A bound short of the end whose chunk is done can be advanced. *)
Lemma swallow_stops m c : mem_inv m -> covered m c -> swallow T m c = None -> (forall k, (k < length (chunk_done_ m))%nat -> flag m k) -> c = T.
Proof.
  intros Hm (H1 & H2 & H3). unfold swallow. destruct (Z.ltb_spec c T); [|lia]. destruct H2 as [->|[k ->]]; [lia|].
  destruct (mi_plan _ Hm) as [[P1 P2] P3 P4] eqn:Ep. rewrite (plan_div _ _ _ (mi_plan _ Hm)). intros E Hall.
  assert (k < length (chunk_done_ m))%nat as Hk by nia. specialize (Hall k Hk). unfold flag in Hall. by rewrite Hall in E.
Qed.

(** The published prefix holds the items of the cache. *)
Lemma covered_filled m x : mem_inv m -> covered m x -> filled m 0 x.
Proof.
  intros Hm (H1 & H2 & H3) i Hi. destruct (mi_plan _ Hm) as [[P1 P2] P3 P4] eqn:Ep. set (p := items_per_chunk_ m) in *.
  set (k := Z.to_nat (i / p)). pose proof (Z.div_mod i p ltac:(lia)) as Hd. pose proof (Z.mod_pos_bound i p P1) as Hr.
  assert (0 <= i / p) by (apply Z.div_pos; lia). assert (Z.of_nat k = i / p) as Ek by (unfold k; lia).
  assert (k < length (chunk_done_ m))%nat as Hk by nia. apply (mi_done _ Hm k).
  - apply H3; [done|]. fold p. nia.
  - fold p. unfold chunk_start, chunk_end, chunk_start. rewrite Ek. nia.
Qed.

Lemma put_item_extends m p : extends m (put_item p (item_at m p) m).
Proof.
  constructor; try done. intros i Hi. cbn. destruct (Z.eqb_spec i p) as [->|]; done.
Qed.

Lemma set_chunk_done_extends m k : extends m (set_chunk_done k m).
Proof.
  constructor; try done; [by cbn; rewrite length_insert|]. intros j Hj. unfold flag in *. cbn.
  destruct (decide (j = k)) as [->|Hjk]; [|by rewrite list_lookup_insert_ne].
  rewrite list_lookup_insert_eq; [done|]. by eapply lookup_lt_Some.
Qed.

Lemma mem_inv_extends m m' : mem_inv m -> extends m m' ->
  (forall k, flag m' k -> flag m k \/ filled m' (chunk_start (items_per_chunk_ m) k) (chunk_end T (items_per_chunk_ m) k)) ->
  (contiguous_done_ m' = contiguous_done_ m \/ covered m (contiguous_done_ m')) ->
  (item_count_ m' = item_count_ m \/ covered m (item_count_ m')) ->
  (fill_complete_ m' = fill_complete_ m \/ covered m T) -> fill_failed_ m' = fill_failed_ m -> mem_inv m'.
Proof.
  intros Hm He Hf Hg Hc Hx Hl. pose proof (covered_extends m m') as Hcov. constructor.
  - rewrite (ex_per _ _ He), (ex_length _ _ He). by apply mi_plan.
  - intros k Hk. rewrite (ex_per _ _ He). destruct (Hf k Hk) as [H|H]; [|done]. apply (filled_extends m); [done|]. by apply (mi_done _ Hm).
  - apply Hcov; [done|]. destruct Hg as [->|H]; [by apply mi_cursor|done].
  - apply Hcov; [done|]. destruct Hc as [->|H]; [by apply mi_count|done].
  - intros Ex. apply Hcov; [done|]. destruct Hx as [H|H]; [|done]. apply (mi_complete _ Hm). by rewrite <- H.
  - rewrite Hl. by apply mi_failed.
  - rewrite (ex_cache _ _ He). by apply mi_cache.
Qed.

Lemma worker_extends k m w m' w' : mem_inv m -> worker_step T k m w m' w' -> worker_inv m k w -> extends m m'.
Proof.
  intros Hm Hs Hw. destruct Hs; first [apply extends_refl|apply put_item_extends|apply set_chunk_done_extends|by constructor|idtac].
  constructor; try done. cbn. lia.
Qed.

Lemma sub_range_valid m k p : mem_inv m -> (k < length (chunk_done_ m))%nat ->
  chunk_start (items_per_chunk_ m) k <= p < chunk_end T (items_per_chunk_ m) k ->
  dataset_range_is_valid p (Z.min (p + kFillChunkItems) (chunk_end T (items_per_chunk_ m) k) - p) = true.
Proof using HT.
  intros Hm Hk Hp. destruct (mi_plan _ Hm) as [[P1 P2] P3 P4]. change randomx_dataset_item_count with 34078720 in HT.
  assert (chunk_end T (items_per_chunk_ m) k <= T) as He by (unfold chunk_end; lia).
  assert (0 <= chunk_start (items_per_chunk_ m) k) as Hz by (unfold chunk_start; nia).
  change kFillChunkItems with 1048576. apply range_valid_spec; [split; lia|split; lia|].
  change randomx_dataset_item_count with 34078720. lia.
Qed.

Lemma worker_step_inv k m w m' w' : mem_inv m -> (k < length (chunk_done_ m))%nat -> worker_inv m k w ->
  worker_step T k m w m' w' -> mem_inv m' /\ worker_inv m' k w'.
Proof using HT.
  intros Hm Hk Hw Hs. pose proof (worker_extends k m w m' w' Hm Hs Hw) as He.
  pose proof (mi_plan _ Hm) as Hp. pose proof (plan_chunk _ _ _ k Hp ltac:(lia)) as Hch.
  destruct Hs as [Hx|Hx|p Hx Hc|p sub_end Hx Hc Hv|p sub_end Hx Hc Hv|p Hx|p e Hx|p e Hx| | |c c' Hx|c Hx|c|c pr|c pr ip H1 H2|c pr ip H1|c pr ip H1|c pr Hx|c|Hx Hg|Hx].
  - split; [done|]. by right.
  - split; [done|]. split; [lia|]. intros i Hi. lia.
  - split; [done|]. by right.
  - split; [done|]. destruct Hw as [H1 H2]. unfold sub_end. change kFillChunkItems with 1048576.
    split; [lia|]. split; [lia|done].
  - destruct Hw as [H1 H2]. unfold sub_end in Hv. by rewrite sub_range_valid in Hv by (done || lia).
  - split; [done|]. destruct Hw as [H1 H2]. cbn. replace (chunk_end T (items_per_chunk_ m) k) with p by lia. done.
  - destruct Hw as (H1 & H2 & H3). split; [eapply mem_inv_extends; [done|done|by auto..]|].
    split; [cbn; lia|]. split; [done|]. intros i Hi. destruct (decide (i = p)) as [->|Hip].
    + cbn. by rewrite Z.eqb_refl.
    + apply (ex_items _ _ He), H3. cbn in Hi. lia.
  - split; [done|]. destruct Hw as (H1 & H2 & H3). split; [lia|]. replace e with p by lia. done.
  - split.
    + eapply mem_inv_extends; [done|done| |by auto..]. intros j Hj. unfold flag in Hj. cbn in Hj.
      destruct (decide (j = k)) as [->|Hjk]; [right; exact Hw|left]. by rewrite list_lookup_insert_ne in Hj.
    + cbn. unfold flag. cbn. by rewrite list_lookup_insert_eq.
  - split; [done|]. split; [by apply mi_cursor|done].
  - split; [done|]. destruct Hw as [H1 H2]. split; [|done]. by apply (swallow_covered m c).
  - by split.
  - destruct Hw as [H1 H2]. split; [eapply mem_inv_extends; [done|done|by auto..]|]. split; [by apply (covered_extends m)|done].
  - split; [done|]. split; [done|lia].
  - destruct Hw as [[H3 H4] _]. split; [eapply mem_inv_extends; [done|done|by auto..]|]. split; [by apply (covered_extends m)|done].
  - split; [done|]. destruct Hw as [Hw _]. split; [done|lia].
  - split; [done|]. by destruct Hw.
  - split; [done|]. by destruct Hw.
  - split; [done|]. by destruct Hw.
  - split; [|by left]. eapply mem_inv_extends; [done|done|by auto..| |done]. right. destruct (mi_cursor _ Hm) as (G1 & G2 & G3).
    cbn. replace T with (contiguous_done_ m) by lia. by apply mi_cursor.
  - split; [done|]. by left.
Qed.

(** ** Progress *)

(** A worker that will store a larger cursor, or look again. *)
Definition responsible (m : fill_mem) (w : worker) : Prop :=
  match w with
  | LoadCursor => True
  | Scan c => contiguous_done_ m <= c
  | Exchange c => contiguous_done_ m < c
  | LoadCount c prev | Raise c prev _ | Decide c prev => c <> prev
  | _ => False
  end.

(** A worker that is about to raise [item_count_] to the cursor stored. *)
Definition pending (m : fill_mem) (w : worker) : Prop :=
  match w with LoadCount c _ | Raise c _ _ => contiguous_done_ m <= c | _ => False end.

Definition some_worker (P : worker -> Prop) (ws : list worker) : Prop := exists k w, ws !! k = Some w /\ P w.

Record progress (m : fill_mem) (ws : list worker) : Prop := {
  pg_advance : swallow T m (contiguous_done_ m) <> None -> some_worker (responsible m) ws;
  pg_count : contiguous_done_ m <= item_count_ m \/ some_worker (pending m) ws;
  pg_finish : fill_complete_ m = true \/ cancelled m = true \/ some_worker (fun w => w <> Exited) ws;
}.

Lemma some_worker_step (P Q : worker -> Prop) ws k w w' : ws !! k = Some w -> some_worker P ws ->
  (forall v, P v -> Q v) -> (P w -> Q w') -> some_worker Q (<[k:=w']> ws).
Proof.
  intros Hk (j & v & Hj & Hv) H1 H2. destruct (decide (j = k)) as [->|Hjk].
  - rewrite Hk in Hj. injection Hj as ->. exists k, w'. split; [|auto]. apply list_lookup_insert_eq. by eapply lookup_lt_Some.
  - exists j, v. split; [by rewrite list_lookup_insert_ne|auto].
Qed.

Lemma some_worker_new (Q : worker -> Prop) ws k w w' : ws !! k = Some w -> Q w' -> some_worker Q (<[k:=w']> ws).
Proof. intros Hk Hq. exists k, w'. split; [|done]. apply list_lookup_insert_eq. by eapply lookup_lt_Some. Qed.

Lemma swallow_same m m' c : chunk_done_ m' = chunk_done_ m -> items_per_chunk_ m' = items_per_chunk_ m -> swallow T m' c = swallow T m c.
Proof. intros E1 E2. unfold swallow. by rewrite E1, E2. Qed.

(** The cursor stays advanceable only while someone will advance it. *)
Lemma advance_step m ws k w m' w' : mem_inv m -> worker_inv m k w -> ws !! k = Some w -> worker_step T k m w m' w' ->
  (swallow T m (contiguous_done_ m) <> None -> some_worker (responsible m) ws) ->
  swallow T m' (contiguous_done_ m') <> None -> some_worker (responsible m') (<[k:=w']> ws).
Proof.
  intros Hm Hw Hk Hs Hold Hnew.
  assert (forall P : worker -> Prop, (forall v, responsible m v -> P v) -> (responsible m w -> P w') ->
    swallow T m (contiguous_done_ m) <> None -> some_worker P (<[k:=w']> ws)) as Hkeep
    by (intros P H1 H2 H3; eapply some_worker_step; eauto).
  destruct Hs as [Hx|Hx|p Hx Hc|p sub_end Hx Hc Hv|p sub_end Hx Hc Hv|p Hx|p e Hx|p e Hx| | |c c' Hx|c Hx|c|c pr|c pr ip H1 H2|c pr ip H1|c pr ip H1|c pr Hx|c|Hx Hg|Hx];
    try (apply Hkeep; [done|done|exact Hnew]); try (by eapply some_worker_new).
  - eapply some_worker_new; [done|]. cbn. lia.
  - apply Hkeep; [done| |exact Hnew]. cbn. intros H. destruct Hw as [Hw _].
    pose proof (proj2 (swallow_covered m c c' Hm Hw Hx)). lia.
  - apply Hkeep; [done| |exact Hnew]. cbn. intros H. destruct (decide (c = contiguous_done_ m)) as [->|]; [done|lia].
  - destruct (decide (c = contiguous_done_ m)) as [Ec|Ec]; [|by eapply some_worker_new].
    apply Hkeep.
    + intros v Hv. destruct v; cbn in *; lia.
    + cbn. lia.
    + cbn in Hnew. rewrite Ec in Hnew. exact Hnew.
Qed.

Lemma count_step m ws k w m' w' : worker_inv m k w -> ws !! k = Some w -> worker_step T k m w m' w' ->
  contiguous_done_ m <= item_count_ m \/ some_worker (pending m) ws ->
  contiguous_done_ m' <= item_count_ m' \/ some_worker (pending m') (<[k:=w']> ws).
Proof.
  intros Hw Hk Hs Hold.
  assert ((forall v, pending m v -> pending m' v) -> contiguous_done_ m' = contiguous_done_ m -> item_count_ m <= item_count_ m' ->
    (pending m w -> pending m' w' \/ contiguous_done_ m <= item_count_ m') ->
    contiguous_done_ m' <= item_count_ m' \/ some_worker (pending m') (<[k:=w']> ws)) as Hkeep.
  { intros H1 H2 H3 H4. destruct Hold as [H|(j & v & Hj & Hv)]; [left; lia|]. destruct (decide (j = k)) as [->|Hjk].
    - rewrite Hk in Hj. injection Hj as ->. destruct (H4 Hv) as [H|H]; [|left; lia]. right. by eapply some_worker_new.
    - right. exists j, v. split; [by rewrite list_lookup_insert_ne|auto]. }
  destruct Hs as [Hx|Hx|p Hx Hc|p sub_end Hx Hc Hv|p sub_end Hx Hc Hv|p Hx|p e Hx|p e Hx| | |c c' Hx|c Hx|c|c pr|c pr ip H1 H2|c pr ip H1|c pr ip H1|c pr Hx|c|Hx Hg|Hx];
    try (apply Hkeep; [done|done|cbn; lia|cbn; lia]); try (apply Hkeep; [done|done|cbn; lia|cbn; tauto]).
  - right. eapply some_worker_new; [done|]. cbn. lia.
  - destruct Hw as [_ Hw]. apply Hkeep; [done|done|lia|]. cbn. intros H. right. lia.
Qed.

Lemma finish_step m ws k w m' w' : mem_inv m -> length ws = length (chunk_done_ m) ->
  (forall j v, ws !! j = Some v -> worker_inv m j v) -> ws !! k = Some w -> worker_step T k m w m' w' -> progress m ws ->
  fill_complete_ m' = true \/ cancelled m' = true \/ some_worker (fun v => v <> Exited) (<[k:=w']> ws).
Proof.
  intros Hm Hl Hws Hk Hs Hp.
  destruct Hs as [Hx|Hx|p Hx Hc|p sub_end Hx Hc Hv|p sub_end Hx Hc Hv|p Hx|p e Hx|p e Hx| | |c c' Hx|c Hx|c|c pr|c pr ip H1 H2|c pr ip H1|c pr ip H1|c pr Hx|c|Hx Hg|Hx];
    try (right; right; by eapply some_worker_new); try (right; left; done); [by left|].
  destruct (cancelled m) eqn:Ec; [by right; left|]. destruct Hx as [Hx|Hx]; [done|].
  destruct (decide (Forall (fun v => v = Exited) (<[k:=Exited]> ws))) as [Hall|Hsome]; cycle 1.
  { right; right. apply not_Forall_Exists, Exists_exists in Hsome as (v & Hin & Hv); [|intros v; apply decide; tc_solve].
    apply list_elem_of_In, list_elem_of_lookup in Hin as [j Hj]. by exists j, v. }
  exfalso. assert (forall j v, ws !! j = Some v -> v = Exited \/ j = k) as Hex.
  { intros j v Hj. destruct (decide (j = k)); [by right|left]. rewrite Forall_lookup in Hall. apply (Hall j). by rewrite list_lookup_insert_ne. }
  assert (forall j, (j < length (chunk_done_ m))%nat -> flag m j) as Hflags.
  { intros j Hj. destruct (lookup_lt_is_Some_2 ws j) as [v Hv]; [lia|]. pose proof (Hws j v Hv) as Hw.
    destruct (Hex j v Hv) as [->| ->]; [destruct Hw as [Hw|Hw]; [done|congruence]|]. rewrite Hk in Hv. injection Hv as <-. exact Hw. }
  destruct (swallow T m (contiguous_done_ m)) eqn:Es.
  - destruct (pg_advance _ _ Hp) as (j & v & Hj & Hr); [by rewrite Es|]. destruct (Hex j v Hj) as [->| ->]; [done|].
    rewrite Hk in Hj. by injection Hj as <-.
  - pose proof (swallow_stops m (contiguous_done_ m) Hm (mi_cursor _ Hm) Es Hflags). lia.
Qed.

Lemma progress_step m ws k w m' w' : mem_inv m -> length ws = length (chunk_done_ m) ->
  (forall j v, ws !! j = Some v -> worker_inv m j v) -> ws !! k = Some w -> worker_step T k m w m' w' -> progress m ws ->
  progress m' (<[k:=w']> ws).
Proof.
  intros Hm Hl Hws Hk Hs Hp. constructor.
  - eapply advance_step; eauto. by apply pg_advance.
  - eapply count_step; eauto. by apply pg_count.
  - by eapply finish_step.
Qed.

(** ** The whole system *)

Fixpoint inside (rs : list reader) : Z :=
  match rs with [] => 0 | Inside _ _ :: rs => 1 + inside rs | Outside :: rs => inside rs end.

Lemma inside_nonneg rs : 0 <= inside rs.
Proof. induction rs as [|[|g b] rs IH]; cbn; lia. Qed.

Lemma inside_insert rs i r r' : rs !! i = Some r -> inside (<[i:=r']> rs) = inside rs - inside [r] + inside [r'].
Proof.
  revert i. induction rs as [|x rs IH]; intros [|i] Hi; [done..| |]; cbn [lookup list_lookup] in Hi.
  - injection Hi as ->. change (<[0%nat:=r']> (r :: rs)) with (r' :: rs). destruct r, r'; cbn [inside]; lia.
  - change (<[S i:=r']> (x :: rs)) with (x :: <[i:=r']> rs). specialize (IH i Hi). destruct x; cbn [inside] in *; lia.
Qed.

Lemma inside_some rs i g b : rs !! i = Some (Inside g b) -> 0 < inside rs.
Proof.
  revert i. induction rs as [|x rs IH]; intros [|i] Hi; [done..| |]; cbn [lookup list_lookup] in Hi.
  - injection Hi as ->. pose proof (inside_nonneg rs). cbn. lia.
  - specialize (IH i Hi). destruct x; cbn; lia.
Qed.

Definition quiet (m : fill_mem) : Prop :=
  item_count_ m = 0 /\ contiguous_done_ m = 0 /\ fill_complete_ m = false /\ fill_failed_ m = false.

Definition threads_ok (m : fill_mem) (ws : list worker) : Prop :=
  length ws = length (chunk_done_ m) /\ progress m ws /\ forall k w, ws !! k = Some w -> worker_inv m k w.

Definition fill_ok (m : fill_mem) (ws : list worker) : Prop :=
  (ws = [] /\ chunk_done_ m = [] /\ quiet m) \/ (mem_inv m /\ (ws = [] \/ threads_ok m ws)).

Definition rotation_ok (m : fill_mem) (ws : list worker) (l : RotationLock) (r : rotation) : Prop :=
  match r with
  | Idle | Joining _ _ => writer_active_ l = false /\ waiting_writers_ l = 0
  | Queueing _ _ => ws = [] /\ writer_active_ l = false /\ waiting_writers_ l = 0
  | Waiting _ _ => ws = [] /\ writer_active_ l = false /\ waiting_writers_ l = 1
  | Resetting _ _ => ws = [] /\ writer_active_ l = true /\ waiting_writers_ l = 0 /\ active_readers_ l = 0
  | Unlocking _ _ => ws = [] /\ writer_active_ l = true /\ waiting_writers_ l = 0 /\ active_readers_ l = 0 /\ quiet m
  | Spawning _ _ => ws = [] /\ writer_active_ l = false /\ waiting_writers_ l = 0 /\ quiet m
  end.

Definition reader_ok (m : fill_mem) (r : reader) : Prop :=
  match r with Outside => True | Inside g b => g = generation_ m /\ b <= item_count_ m end.

Record state_inv (s : state) : Prop := {
  si_fill : fill_ok (mem s) (fill_threads_ s);
  si_rotation : rotation_ok (mem s) (fill_threads_ s) (rotation_mutex_ s) (rotating s);
  si_active : active_readers_ (rotation_mutex_ s) = inside (readers s);
  si_readers : Forall (reader_ok (mem s)) (readers s);
}.

Lemma reader_ok_extends m m' r : extends m m' -> reader_ok m r -> reader_ok m' r.
Proof. intros He. destruct r as [|g b]; [done|]. intros [-> H]. split; [by rewrite (ex_generation _ _ He)|]. pose proof (ex_count _ _ He). lia. Qed.

Lemma covered_0 m : 0 <= items_per_chunk_ m -> covered m 0.
Proof using HT. intros Hp. split; [lia|]. split; [right; exists 0%nat; lia|]. intros k _ H. nia. Qed.

(** A flag raised by [cancel]. *)
Lemma cancel_ok m m' ws : extends m m' -> chunk_done_ m' = chunk_done_ m -> contiguous_done_ m' = contiguous_done_ m ->
  item_count_ m' = item_count_ m -> fill_complete_ m' = fill_complete_ m -> fill_failed_ m' = fill_failed_ m ->
  cancelled m' = true -> fill_ok m ws -> fill_ok m' ws.
Proof.
  intros He E1 E2 E3 E4 E5 Hc [(H1 & H2 & H3)|[Hm Hw]].
  - left. unfold quiet. rewrite E1, E2, E3, E4, E5. done.
  - right. split; [eapply mem_inv_extends; [done|done| |by auto..]; intros k Hk; left; unfold flag in *; by rewrite <- E1|].
    destruct Hw as [Hw|(Hl & Hp & Hw)]; [by left|right]. split; [by rewrite E1|]. split.
    + destruct Hp as [P1 P2 P3]. constructor.
      * rewrite E2, (swallow_same m m') by (done || apply (ex_per _ _ He)). intros H. destruct (P1 H) as (k & w & Hk & Hr).
        exists k, w. split; [done|]. destruct w; cbn in *; rewrite ?E2; done.
      * rewrite E2, E3. destruct P2 as [P2|(k & w & Hk & Hr)]; [by left|right]. exists k, w. split; [done|]. destruct w; cbn in *; rewrite ?E2; done.
      * by right; left.
    + intros k w Hk. apply (worker_inv_extends m); [done|]. by apply Hw.
Qed.

Lemma cancel_inv m m' ws l r rs : extends m m' -> chunk_done_ m' = chunk_done_ m -> contiguous_done_ m' = contiguous_done_ m ->
  item_count_ m' = item_count_ m -> fill_complete_ m' = fill_complete_ m -> fill_failed_ m' = fill_failed_ m ->
  cancelled m' = true -> state_inv (mkState m ws l r rs) -> state_inv (mkState m' ws l r rs).
Proof.
  intros He E1 E2 E3 E4 E5 Hc [H1 H2 H3 H4]. constructor; cbn in *; [by eapply cancel_ok| |done|].
  - destruct r; cbn in *; unfold quiet in *; rewrite ?E2, ?E3, ?E4, ?E5; done.
  - eapply list.Forall_impl; [done|]. intros x. by apply reader_ok_extends.
Qed.

Lemma worker_state_inv m ws l r rs k w m' w' : state_inv (mkState m ws l r rs) -> ws !! k = Some w -> worker_step T k m w m' w' ->
  state_inv (mkState m' (<[k:=w']> ws) l r rs).
Proof using HT.
  intros [H1 H2 H3 H4] Hk Hs. cbn in *. destruct H1 as [(-> & _)|[Hm [->|(Hl & Hp & Hw)]]]; [done..|].
  assert (k < length (chunk_done_ m))%nat as Hlt by (rewrite <- Hl; by eapply lookup_lt_Some).
  pose proof (worker_extends k m w m' w' Hm Hs (Hw k w Hk)) as He.
  destruct (worker_step_inv k m w m' w' Hm Hlt (Hw k w Hk) Hs) as [Hm' Hw'].
  constructor; cbn; [|destruct r; cbn in *; try done; by destruct H2 as [-> _]|done|].
  - right. split; [done|right]. split; [by rewrite length_insert, (ex_length _ _ He)|]. split; [exact (progress_step m ws k w m' w' Hm Hl Hw Hk Hs Hp)|].
    intros j v Hj. destruct (decide (j = k)) as [->|Hjk].
    + rewrite list_lookup_insert_eq in Hj by lia. by injection Hj as <-.
    + rewrite list_lookup_insert_ne in Hj by done. apply (worker_inv_extends m); [done|]. by apply Hw.
  - eapply list.Forall_impl; [done|]. intros x. by apply reader_ok_extends.
Qed.

Lemma reset_fill m : fill_ok m [] -> fill_ok (reset_counts m) [].
Proof using HT.
  intros [(_ & H & _)|[Hm _]]; [left; by split_and!|]. right. split; [|by left]. pose proof (mi_plan _ Hm) as [[P1 P2] P3 P4].
  constructor; [exact (mi_plan _ Hm)|exact (mi_done _ Hm)|apply covered_0; cbn; lia|apply covered_0; cbn; lia|done|done|exact (mi_cache _ Hm)].
Qed.

Lemma spawn_fill m c cores (n := num_workers T cores) (per := items_per_worker T n) : quiet m ->
  fill_ok (prepare_chunks n per c m) (replicate (spawned T per 0 (Z.to_nat n)) Start).
Proof using HT.
  intros (Q1 & Q2 & Q3 & Q4). assert (plan_ok T per n) as Hp by exact (plan T cores HT). clearbody per n. rewrite (plan_spawned _ _ _ Hp).
  destruct (Hp) as [[P1 P2] P3 P4]. assert (forall k, ~ flag (prepare_chunks n per c m) k) as Hf.
  { intros k Hk. unfold flag in Hk. cbn in Hk. by apply lookup_replicate in Hk as [? _]. }
  assert (swallow T (prepare_chunks n per c m) 0 = None) as Hs.
  { unfold swallow. destruct (_ <? _); [|done]. destruct (chunk_done_ _ !! _) as [[]|] eqn:E; [|done..]. by apply Hf in E. }
  right. split; [|right]; cbn.
  - constructor; cbn; rewrite ?Q1, ?Q2, ?Q3;
      [by rewrite length_replicate, Z2Nat.id by lia|intros k Hk; by apply Hf in Hk|apply covered_0; cbn; lia|apply covered_0; cbn; lia|done|done|by eexists].
  - split; [cbn; by rewrite !length_replicate|]. split.
    + constructor; cbn; rewrite ?Q1, ?Q2; [by intros H|left; lia|]. right; right. exists 0%nat, Start. split; [|done].
      apply lookup_replicate. split; [done|lia].
    + intros k w [-> _]%lookup_replicate. exact I.
Qed.

Lemma step_inv s s' : state_inv s -> step T s s' -> state_inv s'.
Proof using HT.
  intros H Hs. destruct Hs as [m ws l r rs k w m' w' Hk Hw|m ws l rs c co ex Hc Hco Hsd|m ws l rs c a Hall|m ws l rs c a|m ws l rs c a Hl|m ws l rs c a|m ws l rs c a|m ws l rs c a n per|m ws l r rs i Hi Hl|m ws l r rs i g b Hi|m ws l r rs i g b Hi|m ws l r rs Ho Hall|m ws l r rs|m ws l r rs Hsd];
    [by eapply worker_state_inv|..|by eapply cancel_inv; [constructor; unfold cancelled; cbn; auto using orb_true_r|..|exact H];
       try done; unfold cancelled; cbn; rewrite orb_true_r|by eapply cancel_inv; [constructor; unfold cancelled; cbn; auto|..|exact H]];
    destruct H as [H1 H2 H3 H4]; cbn in *.
  - by constructor.
  - constructor; cbn; try done. destruct H1 as [(_ & ? & ?)|[Hm _]]; [by left|right]. split; [done|by left].
  - destruct H2 as (-> & H5 & H6). constructor; cbn; try done. split_and!; [done|done|lia].
  - destruct H2 as (-> & H5 & H6). unfold can_lock in Hl. constructor; cbn; try done. split_and!; [done|done|lia|lia].
  - destruct H2 as (-> & H5 & H6 & H7). constructor; cbn; try done; [by apply reset_fill|].
    apply Forall_lookup. intros i [|g b] Hi; [done|]. pose proof (inside_some rs i g b Hi). lia.
  - destruct H2 as (-> & H5 & H6 & H7 & H8). constructor; cbn; done.
  - destruct H2 as (-> & H5 & H6 & H7). constructor; cbn; [by apply spawn_fill|done|done|done].
  - unfold can_lock_shared in Hl. assert (writer_active_ l = false /\ waiting_writers_ l = 0) as [L1 L2] by (destruct (writer_active_ l); [done|lia]).
    constructor; cbn; [done| |rewrite (inside_insert rs i Outside) by done; cbn; lia|].
    + destruct r; cbn in *; try done; destruct H2 as (? & ? & ? & ?); congruence.
    + apply Forall_insert; [done|]. split; [done|]. destruct H1 as [(_ & _ & -> & _)|[Hm _]]; [lia|]. destruct (mi_count _ Hm) as [? _]. lia.
  - constructor; cbn; [done|done|rewrite (inside_insert rs i (Inside g b)) by done; cbn; lia|].
    apply Forall_insert; [done|]. rewrite Forall_lookup in H4. destruct (H4 i _ Hi) as [-> _]. split; [done|lia].
  - constructor; cbn; [done| |rewrite (inside_insert rs i (Inside g b)) by done; cbn; lia|by apply Forall_insert].
    pose proof (inside_some rs i g b Hi). destruct r; cbn in *; try done; destruct H2 as (? & ? & ? & ? & ?) || destruct H2 as (? & ? & ? & ?); lia.
  - constructor; cbn; [|destruct r; cbn in *; try done; by destruct H2 as [_ H2]|done|done].
    destruct H1 as [(_ & ? & ?)|[Hm _]]; [by left|right]. split; [done|by left].
Qed.

Lemma partial_inv n s : rtc (step T) (new_state n) s -> state_inv s.
Proof using HT.
  intros Hs. assert (state_inv (new_state n)) as H0.
  { constructor; cbn; [left; by split_and!|done| |by apply Forall_replicate]. clear Hs. induction n as [|n IH]; [done|exact IH]. }
  induction Hs as [s|s s1 s' Hstep _ IH]; [done|]. apply IH. by eapply step_inv.
Qed.

(** C17: a hashing thread never reads a wrong item.  In every interleaving of the fill workers, the
    rotations to new seeds, cancellations and the readers, a thread that holds the read guard sees no
    rotation (the generation stays the one it entered with), and every item below the bound it loaded
    lies inside the buffer and is, completely, the item of the cache the buffer is filled from; a fill
    never asks for items outside the dataset. *)
Theorem partial_reads_safe (n : nat) (s : state) (i : nat) (g b : Z) :
  rtc (step T) (new_state n) s -> readers s !! i = Some (Inside g b) ->
  g = generation_ (mem s) /\ b <= T /\ fill_failed_ (mem s) = false /\
  forall k, 0 <= k < b -> exists cache, cache_holder_ (mem s) = Some cache /\ data_ (mem s) k = item_of cache k.
Proof using HT.
  intros Hr Hi. destruct (partial_inv n s Hr) as [H1 H2 H3 H4]. rewrite Forall_lookup in H4. destruct (H4 i _ Hi) as [Hg Hb].
  destruct H1 as [(_ & _ & Q1 & _ & _ & Q2)|[Hm _]]; [split_and!; [done|lia|done|lia]|].
  pose proof (mi_count _ Hm) as (C1 & _ & _). split_and!; [done|lia|by apply mi_failed|].
  intros k Hk. destruct (mi_cache _ Hm) as [cache Ec]. exists cache. split; [done|].
  rewrite (covered_filled _ _ Hm (mi_count _ Hm) k ltac:(lia)). unfold item_at. by rewrite Ec.
Qed.

(** C18: a fill ends.  Whatever order the workers publish their chunks in (a late one may even move the
    shared cursor back), once all threads of a fill have exited the waiters are released; unless the fill
    was cancelled it is then marked complete, the bound is the whole allocation, and every item of the
    buffer is the item of the cache. *)
Theorem partial_fill_completes (n : nat) (s : state) :
  rtc (step T) (new_state n) s -> fill_threads_ s <> [] -> Forall (eq Exited) (fill_threads_ s) ->
  fill_wait_over (mem s) = true /\
  (cancelled (mem s) = false -> fill_complete_ (mem s) = true /\ item_count_ (mem s) = T /\
     exists cache, cache_holder_ (mem s) = Some cache /\ forall k, 0 <= k < T -> data_ (mem s) k = item_of cache k).
Proof using HT.
  intros Hr Hne Hex. destruct (partial_inv n s Hr) as [H1 _ _ _].
  destruct H1 as [(? & _)|[Hm [?|(Hl & Hp & Hw)]]]; [done..|]. set (m := mem s) in *. set (ws := fill_threads_ s) in *.
  assert (forall P : worker -> Prop, ~ P Exited -> ~ some_worker P ws) as Hno.
  { intros P HP (k & w & Hk & Hw'). rewrite Forall_lookup in Hex. by rewrite (Hex k w Hk) in *. }
  unfold fill_wait_over. destruct (cancelled m) eqn:Ec; [by rewrite orb_true_r|]. rewrite orb_false_r.
  destruct (pg_finish _ _ Hp) as [E|[E|E]]; [|congruence|by destruct (Hno (fun w => w <> Exited) (fun H => H eq_refl))].
  split; [done|]. intros _. split; [done|].
  assert (forall k, (k < length (chunk_done_ m))%nat -> flag m k) as Hflags.
  { intros k Hk. destruct (lookup_lt_is_Some_2 ws k) as [w Hw']; [lia|]. rewrite Forall_lookup in Hex. pose proof (Hw k w Hw') as H.
    rewrite <- (Hex k w Hw') in H. destruct H as [H|H]; [done|congruence]. }
  assert (contiguous_done_ m = T) as Eg.
  { apply (swallow_stops m); [done|by apply mi_cursor| |done]. destruct (swallow T m (contiguous_done_ m)) eqn:Es; [|done].
    exfalso. apply (Hno (responsible m) (fun H => H)). apply (pg_advance _ _ Hp). by rewrite Es. }
  assert (item_count_ m = T) as Ei.
  { destruct (mi_count _ Hm) as (C1 & _). destruct (pg_count _ _ Hp) as [H|H]; [lia|]. by destruct (Hno (pending m) (fun H => H) H). }
  split; [done|]. destruct (mi_cache _ Hm) as [cache Eca]. exists cache. split; [done|]. intros k Hk.
  rewrite (covered_filled _ _ Hm (mi_count _ Hm) k ltac:(lia)). unfold item_at. by rewrite Eca.
Qed.
End invariant.

(** ** A run *)

(** One item, one hashing thread, one core: a complete fill, then the thread reads under its guard. *)
Lemma one_item_run c : cache_ready c ->
  exists m, rtc (step 1) (new_state 1) (mkState m [Exited] (mkLock 1 0 false) Idle [Inside 1 1]) /\ cancelled m = false.
Proof.
  intros Hc. pose (M := fun d count cursor over done => mkMem d count cursor over false false false 1 [done] 1 (Some c)).
  pose (St := fun m w => mkState m [w] (mkLock 0 0 false) Idle [Outside]). pose (d0 := fun _ : Z => @nil Z).
  assert (rtc (step 1) (new_state 1) (St (M d0 0 0 false false) Start)) as H0.
  { eapply rtc_l; [apply (step_start _ _ _ _ _ c [0] [] Hc); [discriminate|reflexivity]|].
    eapply rtc_l; [apply step_joined; constructor|]. eapply rtc_l; [apply step_queue|].
    eapply rtc_l; [apply step_locked; reflexivity|]. eapply rtc_l; [apply step_reset|]. eapply rtc_l; [apply step_unlock|].
    eapply rtc_l; [apply step_spawn|]. apply rtc_refl. }
  assert (forall m w m' w', worker_step 1 0 m w m' w' -> step 1 (St m w) (St m' w')) as Hw.
  { intros m w m' w' H. by apply (step_worker 1 m [w] _ _ _ 0 w m' w'). }
  pose (d1 := data_ (put_item 0 (item_at (M d0 0 0 false false) 0) (M d0 0 0 false false))).
  exists (M d1 1 1 true true). split; [|reflexivity]. etransitivity; [exact H0|].
  eapply rtc_l; [apply Hw, begin_fill; reflexivity|]. eapply rtc_l; [apply Hw, sub_begin; reflexivity|].
  eapply rtc_l; [apply Hw, write_item; reflexivity|]. eapply rtc_l; [apply (Hw _ _ (M d1 0 0 false false) (SubCheck 1)), write_over; discriminate|].
  eapply rtc_l; [apply Hw, sub_over; discriminate|]. eapply rtc_l; [apply (Hw _ _ (M d1 0 0 false true)), mark_done|].
  eapply rtc_l; [apply Hw, load_cursor|]. eapply rtc_l; [apply Hw, (scan_on _ _ _ 0 1); reflexivity|].
  eapply rtc_l; [apply Hw, scan_over; reflexivity|]. eapply rtc_l; [apply (Hw _ _ (M d1 0 1 false true)), exchange|].
  eapply rtc_l; [apply Hw, load_count|]. eapply rtc_l; [apply (Hw _ _ (M d1 1 1 false true)), raise_done; reflexivity|].
  eapply rtc_l; [apply Hw, decide_again; discriminate|]. eapply rtc_l; [apply Hw, load_cursor|].
  eapply rtc_l; [apply Hw, scan_over; reflexivity|]. eapply rtc_l; [apply (Hw _ _ (M d1 1 1 false true)), exchange|].
  eapply rtc_l; [apply Hw, load_count|]. eapply rtc_l; [apply Hw, raise_over; discriminate|].
  eapply rtc_l; [apply Hw, decide_over|]. eapply rtc_l; [apply (Hw _ _ (M d1 1 1 true true)), complete; [reflexivity|discriminate]|].
  eapply rtc_l; [apply (step_enter _ _ _ _ _ _ 0); reflexivity|]. eapply rtc_l; [apply (step_load _ _ _ _ _ _ 0 1 0); reflexivity|].
  apply rtc_refl.
Qed.

Lemma one_item_fits : 0 < 1 <= randomx_dataset_item_count.
Proof. change randomx_dataset_item_count with 34078720. lia. Qed.

Lemma partial_reads_safe_witness : exists m, fill_failed_ m = false /\
  exists cache, cache_holder_ m = Some cache /\ data_ m 0 = item_of cache 0.
Proof.
  destruct (one_item_run idle_cache idle_cache_ready) as (m & Hr & _). exists m.
  pose proof (partial_reads_safe 1 one_item_fits 1 _ 0 1 1 Hr eq_refl) as (_ & _ & Hf & Hd).
  split; [exact Hf|]. exact (Hd 0 (conj (Z.le_refl 0) eq_refl)).
Defined.

Lemma partial_fill_completes_witness : exists m, fill_complete_ m = true /\ item_count_ m = 1.
Proof.
  destruct (one_item_run idle_cache idle_cache_ready) as (m & Hr & Hc). exists m.
  assert (Forall (eq Exited) [Exited]) as Hx by (repeat constructor). assert ([Exited] <> []) as Hn by discriminate.
  pose proof (proj2 (partial_fill_completes 1 one_item_fits 1 _ Hr Hn Hx) Hc) as (H1 & H2 & _).
  exact (conj H1 H2).
Defined.
