(* ===== verification/Platform.v ===== *)
(** * Memory budget, CPU lists and start-up

    Models src/src/memory.cpp and src/include/armrx/memory.hpp (available memory, the choice of the mode,
    the check of a partial dataset request), the CPU lists of src/src/cpu_features.cpp and the decisions
    of [MinerApp::run] in src/src/miner_app.cpp.  The contents of /proc, /sys and the cgroup files are
    parameters; messages are left out. *)

From S2P Require Import Prelude RandomX Argon2 Dataset Text Json Config Cli PartialDataset.

(** ** Available memory *)

Definition kAutoModeSafetyReserve : Z := 256 * 1024 * 1024.

Record MemorySnapshot : Type := mkSnapshot { available_bytes : Z; constrained_by_cgroup : bool }.

(** A limit and what is used of it, as the two files of a controller give them. *)
Definition remaining (limit used : option Z) (bound : Z) : option Z :=
  match limit, used with
  | Some limit, Some used => if (used <=? limit) && (limit <? bound) then Some (limit - used) else None
  | _, _ => None
  end.

(** cgroup v2, then v1, where a limit of 2^60 or more means none. *)
Definition cgroup_available (max2 current2 limit1 usage1 : option Z) : option Z :=
  match remaining max2 current2 (2 ^ 64) with
  | Some n => Some n
  | None => remaining limit1 usage1 (2 ^ 60)
  end.

Definition available_memory (mem_available : option Z) (group : option Z) : MemorySnapshot :=
  let host_available := default 0 mem_available in
  match group with
  | None => mkSnapshot host_available false
  | Some group => mkSnapshot (Z.min host_available group) true
  end.

(** ** The mode *)

Definition choose_randomx_mode (available workers safety_reserve : Z) : RandomXMode * Z :=
  let worker_bytes := mul64 workers randomx_worker_memory in
  let fast_bytes := add64 (add64 (randomx_shared_memory fast) worker_bytes) safety_reserve in
  if fast_bytes <=? available then (fast, fast_bytes)
  else (light, add64 (add64 (randomx_shared_memory light) worker_bytes) safety_reserve).

(** ** A partial dataset request *)

Definition mining_worker_actual_scratchpad_bytes : Z := 2 * randomx_worker_memory.
Definition kMiB : Z := 1024 * 1024.

Record PartialDatasetValidation : Type := mkValidation { valid : bool; item_count : Z; dataset_bytes : Z; required_bytes : Z }.

(** The [add] lambda: [None] is the overflow flag. *)
Definition add_checked (required : option Z) (x : Z) : option Z :=
  match required with
  | Some r => if u64_max - r <? x then None else Some (r + x)
  | None => None
  end.

Definition validate_partial_dataset_request (dataset_mb workers available : Z) : PartialDatasetValidation :=
  if dataset_mb =? 0 then mkValidation true 0 0 0
  else if u64_max / kMiB <? dataset_mb then mkValidation false 0 0 0
  else
    let bytes := mul64 dataset_mb kMiB in
    let items := bytes / kRandomXDatasetItemBytes in
    if mul64 randomx_dataset_item_count kRandomXDatasetItemBytes <? bytes then mkValidation false items bytes 0
    else
      let required := add_checked (add_checked (add_checked (Some kRandomXCacheBytes)
        (mul64 workers mining_worker_actual_scratchpad_bytes)) bytes) kAutoModeSafetyReserve in
      match required with
      | None => mkValidation false items bytes 0
      | Some required => mkValidation (required <=? available) items bytes required
      end.

(** ** CPU lists *)

Definition dash : Z := 45.

(** [std::getline(ss, token, ',')] until the end: no token after a trailing comma. *)
Fixpoint split_commas (s token : text) : list text :=
  match s with
  | [] => if bool_decide (token = []) then [] else [token]
  | c :: s => if c =? comma then token :: split_commas s [] else split_commas s (token ++ [c])
  end.

(** A token: one CPU, or a range; [None]: a number does not parse. *)
Definition cpu_range (token : text) : option (Z * Z) :=
  match find_char dash token with
  | None => match stoull token with Done v => Some (wrap 32 v, wrap 32 v) | _ => None end
  | Some i =>
      match stoull (take i token), stoull (drop (i + 1) token) with
      | Done lo, Done hi => Some (wrap 32 lo, wrap 32 hi)
      | _, _ => None
      end
  end.

(** The loop of [online_cpu_count]; a single CPU is counted without being parsed. *)
Fixpoint count_cpus (tokens : list text) (total : Z) : Z :=
  match tokens with
  | [] => total
  | token :: tokens =>
      match find_char dash token with
      | None => count_cpus tokens (wrap 32 (total + 1))
      | Some _ =>
          match cpu_range token with
          | Some (lo, hi) => count_cpus tokens (if lo <=? hi then wrap 32 (total + wrap 32 (hi - lo + 1)) else total)
          | None => 0
          end
      end
  end.

Definition online_cpu_count (online : option text) (hardware_concurrency : Z) : Z :=
  let total := match online with Some line => count_cpus (split_commas line []) 0 | None => 0 end in
  if 0 <? total then total else Z.max 1 hardware_concurrency.

(** The loop of [isolated_cpu_list]; a range up to 2^32 - 1 would never end. *)
Fixpoint list_cpus (tokens : list text) (isolated : list Z) : outcome (list Z) :=
  match tokens with
  | [] => Done isolated
  | token :: tokens =>
      match cpu_range token with
      | Some (lo, hi) => if hi =? 2 ^ 32 - 1 then NoFuel else list_cpus tokens (isolated ++ seqZ lo (hi - lo + 1))
      | None => Done []
      end
  end.

Definition isolated_cpu_list (isolated : option text) : outcome (list Z) :=
  match isolated with Some line => list_cpus (split_commas line []) [] | None => Done [] end.

(** ** Start-up *)

#[export] Instance RandomXMode_eq_dec : EqDecision RandomXMode.
Proof. solve_decision. Defined.

(** What [MinerApp::run] does with the options: the exit code of a refusal, the code dump of a JIT build,
    or the sessions it runs (a local benchmark, the pool), with the mode and the items of the partial
    dataset; a missing wallet is noticed after the benchmark. *)
Inductive startup : Type :=
  | Refused (code : Z)
  | JitDump
  | Sessions (mode : RandomXMode) (partial_dataset_items : Z) (benchmark : bool) (pool : option (list (text * Z))).

Definition MinerApp_run (have_jit : bool) (o : MinerOptions) (available : Z) : startup :=
  let '(automatic, automatic_bytes) := choose_randomx_mode available (workers o) kAutoModeSafetyReserve in
  let effective := if mode_is_auto o then automatic else requested_mode o in
  let required := if mode_is_auto o then automatic_bytes
    else add64 (add64 (randomx_shared_memory (requested_mode o)) (mul64 (workers o) randomx_worker_memory)) kAutoModeSafetyReserve in
  let partial := (0 <? dataset_mb o) && bool_decide (effective = light) in
  let v := validate_partial_dataset_request (dataset_mb o) (workers o) available in
  if partial && negb (valid v) then Refused 64
  else if negb (mode_is_auto o) && bool_decide (effective = fast) && (available <? required) then Refused 2
  else if have_jit && jit_dump_mode o then JitDump
  else
    Sessions effective (if partial then item_count v else 0) (should_mine o)
      (if should_connect_pool o && negb (bool_decide (pool_wallet o = [])) && negb (bool_decide (pool_list o = []))
       then Some (pool_list o) else None).

(** ** The budget holds *)

Lemma worker_memory_small workers : 0 <= workers < 2 ^ 32 -> mul64 workers randomx_worker_memory = workers * 2097152 /\
  mul64 workers mining_worker_actual_scratchpad_bytes = workers * 4194304.
Proof.
  intros Hw. unfold mul64. change randomx_worker_memory with 2097152. change mining_worker_actual_scratchpad_bytes with 4194304.
  rewrite !wrap_small by (split; lia). done.
Qed.

Lemma add_checked_exact r x : 0 <= x -> 0 <= r <= u64_max -> r + x <= u64_max -> add_checked (Some r) x = Some (r + x).
Proof. intros Hx Hr H. unfold add_checked. destruct (Z.ltb_spec (u64_max - r) x); [lia|done]. Qed.

(** A request passes exactly when it is at most the whole dataset and everything fits; the constructor takes its
    item count. *)
Lemma validated mb workers available (v := validate_partial_dataset_request mb workers available) :
  0 < mb <= 1048576 -> 0 <= workers < 2 ^ 32 ->
  item_count v = mb * 16384 /\
  (valid v = true <-> mb <= 2080 /\ 536870912 + workers * 4194304 + mb * 1048576 <= available) /\
  (mb <= 2080 -> allocate (mb * 16384) = Done (mb * 16384)).
Proof.
  intros Hmb Hw. destruct (worker_memory_small workers Hw) as [_ Ew]. unfold v, validate_partial_dataset_request. rewrite Ew.
  destruct (Z.eqb_spec mb 0); [lia|]. change (u64_max / kMiB) with 17592186044415.
  destruct (Z.ltb_spec 17592186044415 mb); [lia|].
  assert (mul64 mb kMiB = mb * 1048576) as -> by (unfold mul64; change kMiB with 1048576; rewrite wrap_small by (split; lia); done).
  change (mul64 randomx_dataset_item_count kRandomXDatasetItemBytes) with 2181038080.
  assert (mb * 1048576 / kRandomXDatasetItemBytes = mb * 16384) as ->
    by (change kRandomXDatasetItemBytes with 64; replace (mb * 1048576) with (mb * 16384 * 64) by lia; apply Z.div_mul; lia).
  assert (mb <= 2080 -> allocate (mb * 16384) = Done (mb * 16384)) as Ha.
  { intros Hle. unfold allocate. change randomx_dataset_item_count with 34078720. change (u64_max / kRandomXDatasetItemBytes) with 288230376151711743.
    destruct (Z.eqb_spec (mb * 16384) 0); [lia|]. destruct (Z.ltb_spec 34078720 (mb * 16384)); [lia|].
    by destruct (Z.ltb_spec 288230376151711743 (mb * 16384)); [lia|]. }
  destruct (Z.ltb_spec 2181038080 (mb * 1048576)); [cbn; split_and!; [done|split; [done|lia]|done]|].
  change kRandomXCacheBytes with 268435456. change kAutoModeSafetyReserve with 268435456. change u64_max with 18446744073709551615 in *.
  rewrite !add_checked_exact by (change u64_max with 18446744073709551615; lia). cbn [valid item_count].
  split_and!; [done|rewrite Z.leb_le; lia|done].
Qed.

(** What a fast session is checked against: the dataset, one scratchpad for every worker, and the reserve. *)
Definition fast_bytes (o : MinerOptions) : Z := 2181038080 + workers o * 2097152 + 268435456.
(** What a partial dataset is checked against: the cache, both scratchpads of every worker, the buffer, and the reserve. *)
Definition partial_bytes (o : MinerOptions) : Z := 268435456 + workers o * 4194304 + dataset_mb o * 1048576 + 268435456.
Definition chosen_mode (o : MinerOptions) (available : Z) : RandomXMode :=
  if mode_is_auto o then if fast_bytes o <=? available then fast else light else requested_mode o.

Lemma mode_chosen o available : 1 <= workers o < 2 ^ 32 ->
  let '(automatic, automatic_bytes) := choose_randomx_mode available (workers o) kAutoModeSafetyReserve in
  let effective := if mode_is_auto o then automatic else requested_mode o in
  let required := if mode_is_auto o then automatic_bytes
    else add64 (add64 (randomx_shared_memory (requested_mode o)) (mul64 (workers o) randomx_worker_memory)) kAutoModeSafetyReserve in
  effective = chosen_mode o available /\
  negb (mode_is_auto o) && bool_decide (effective = fast) && (available <? required) =
    negb (mode_is_auto o) && bool_decide (requested_mode o = fast) && (available <? fast_bytes o).
Proof.
  intros Hw. destruct (worker_memory_small (workers o) ltac:(lia)) as [Ew _]. unfold choose_randomx_mode, chosen_mode, fast_bytes. rewrite Ew.
  unfold add64. change (randomx_shared_memory fast) with 2181038080. change kAutoModeSafetyReserve with 268435456.
  rewrite (wrap_small 64 (2181038080 + workers o * 2097152)), (wrap_small 64 (2181038080 + workers o * 2097152 + 268435456)) by (split; lia).
  destruct (_ <=? available); (destruct (mode_is_auto o); [by split|]); split; try done; cbn [negb andb];
    (destruct (requested_mode o); [change (randomx_shared_memory fast) with 2181038080;
       by rewrite (wrap_small 64 (2181038080 + workers o * 2097152)), (wrap_small 64 (2181038080 + workers o * 2097152 + 268435456)) by (split; lia)|by rewrite bool_decide_false by discriminate]).
Qed.



(** The budget of a fast session counts one scratchpad for every worker; the engine allocates two.  With the
    memory between the two sums a fast session starts all the same. *)
Lemma fast_budget_short o available : mode_is_auto o = true -> fast_bytes o <= available ->
  available < fast_bytes o + workers o * randomx_worker_memory -> chosen_mode o available = fast /\
  available < randomx_shared_memory fast + workers o * mining_worker_actual_scratchpad_bytes + kAutoModeSafetyReserve.
Proof.
  intros Ha H1 H2. unfold chosen_mode. rewrite Ha. destruct (Z.leb_spec (fast_bytes o) available); [|lia]. split; [done|].
  unfold fast_bytes in H2. change randomx_worker_memory with 2097152 in H2. change (randomx_shared_memory fast) with 2181038080.
  change mining_worker_actual_scratchpad_bytes with 4194304. change kAutoModeSafetyReserve with 268435456. lia.
Qed.

(** At least one CPU is always counted. *)
Lemma online_cpus_positive online hc : 1 <= online_cpu_count online hc.
Proof.
  unfold online_cpu_count. destruct (Z.ltb_spec 0 (match online with Some line => count_cpus (split_commas line []) 0 | None => 0 end)); lia.
Qed.
