(* ===== verification/Footprint.v ===== *)
(** * Register footprints and reordering

    The part of src/src/jit_compiler_a64.cpp that its instruction schedulers share: the footprint of an
    instruction ([InstrFootprint]) and the dependence test ([hasHazard]).  Then what makes reordering
    sound in general: a list of steps may be permuted when every pair whose order changes commutes. *)

From stdpp Require Import list sorting.
From S2P Require Import Prelude RandomX.

Record InstrFootprint : Type := mkFP {
  int_read : Z; int_write : Z;      (* bit i: register r[i] *)
  f_read : Z; f_write : Z;          (* bit i: register f[i] *)
  e_read : Z; e_write : Z;          (* bit i: register e[i] *)
  is_memory_op : bool;
  is_barrier : bool;
  is_cbranch : bool;
  is_long_latency : bool;
  is_imul_rcp : bool;
}.

(** [InstrFootprint fp;] *)
Definition fp_none : InstrFootprint := mkFP 0 0 0 0 0 0 false false false false false.

#[export] Instance Instruction_inhabited : Inhabited Instruction := populate (mkInstruction 0 0 0 0 0).
#[export] Instance footprint_inhabited : Inhabited InstrFootprint := populate fp_none.

(** [static_cast<std::uint8_t>(1u << i)] *)
Definition reg_bit (i : Z) : Z := wrap 8 (Z.shiftl 1 i).

(** [x & y] used as a condition. *)
Definition overlaps (x y : Z) : bool := negb (Z.land x y =? 0).

Definition hasHazard (a b : InstrFootprint) : bool :=
  if is_barrier a || is_barrier b then true
  else if is_memory_op a && is_memory_op b then true
  else if overlaps (int_write a) (int_read b) || overlaps (int_read a) (int_write b)
          || overlaps (int_write a) (int_write b) then true
  else if overlaps (f_write a) (f_read b) || overlaps (f_read a) (f_write b)
          || overlaps (f_write a) (f_write b) then true
  else if overlaps (e_write a) (e_read b) || overlaps (e_read a) (e_write b)
          || overlaps (e_write a) (e_write b) then true
  else false.

(** ** Locations *)

Inductive loc : Type := LR (i : nat) | LF (i : nat) | LE (i : nat) | LMem.

(** What a footprint says is read and written; a memory operation may do both to the scratchpad. *)
Definition fp_reads (fp : InstrFootprint) (l : loc) : bool :=
  match l with
  | LR i => Z.testbit (int_read fp) (Z.of_nat i)
  | LF i => Z.testbit (f_read fp) (Z.of_nat i)
  | LE i => Z.testbit (e_read fp) (Z.of_nat i)
  | LMem => is_memory_op fp
  end.
Definition fp_writes (fp : InstrFootprint) (l : loc) : bool :=
  match l with
  | LR i => Z.testbit (int_write fp) (Z.of_nat i)
  | LF i => Z.testbit (f_write fp) (Z.of_nat i)
  | LE i => Z.testbit (e_write fp) (Z.of_nat i)
  | LMem => is_memory_op fp
  end.

Lemma overlaps_false x y k :
  overlaps x y = false -> Z.testbit x k = true -> Z.testbit y k = true -> False.
Proof.
  unfold overlaps. intros H Hx Hy. apply negb_false_iff, Z.eqb_eq in H.
  assert (Z.testbit (Z.land x y) k = true) by (rewrite Z.land_spec; by rewrite Hx, Hy).
  rewrite H, Z.bits_0 in *. done.
Qed.

(** Without a hazard, what one instruction writes the other neither reads nor writes. *)
Definition independent (a b : InstrFootprint) : Prop := forall l,
  (fp_writes a l = true -> fp_reads b l = false /\ fp_writes b l = false) /\
  (fp_writes b l = true -> fp_reads a l = false /\ fp_writes a l = false).

Lemma hazard_free a b :
  hasHazard a b = false ->
  is_barrier a = false /\ is_barrier b = false /\ independent a b.
Proof.
  unfold hasHazard. destruct (is_barrier a) eqn:Ba, (is_barrier b) eqn:Bb; try discriminate. cbn [orb].
  destruct (is_memory_op a && is_memory_op b) eqn:Hm; [discriminate|].
  repeat (match goal with |- context [if ?c then _ else _] => destruct c eqn:?; [discriminate|] end).
  repeat match goal with H : _ || _ = false |- _ => apply orb_false_iff in H as [? ?] end.
  intros _. split; [done|]. split; [done|]. intros [i|i|i|]; cbn [fp_writes fp_reads];
    [| | |destruct (is_memory_op a), (is_memory_op b); done];
    (split; intros Hw; split; apply not_true_iff_false; intros Hr;
     first [ by eapply overlaps_false; [|exact Hw|exact Hr] | by eapply overlaps_false; [|exact Hr|exact Hw] ]).
Qed.

(** ** Permuting commuting steps *)

Section trace.
Context {S : Type} (step : nat -> S -> outcome S).

Fixpoint run_list (l : list nat) (s : S) : outcome S :=
  match l with
  | [] => Done s
  | i :: l => s ← step i s; run_list l s
  end.

Lemma run_list_app l1 l2 s : run_list (l1 ++ l2) s = (s ← run_list l1 s; run_list l2 s).
Proof.
  revert s. induction l1 as [|i l1 IH]; intros s; cbn [run_list app]; [done|].
  destruct (step i s); cbn; auto.
Qed.

(** [j] may run before [i] instead of after it. *)
Definition commute (i j : nat) : Prop := forall s s',
  (s ← step i s; step j s) = Done s' -> (s ← step j s; step i s) = Done s'.

Lemma commute_front i k s s' :
  Forall (commute i) k -> run_list (i :: k) s = Done s' -> run_list (k ++ [i]) s = Done s'.
Proof.
  intros Hk. revert s. induction Hk as [|j k Hj _ IH]; intros s H; [done|].
  cbn [run_list app] in *. apply bind_Done in H as (s1 & E1 & H). apply bind_Done in H as (s2 & E2 & H).
  assert (Hc : (s ← step j s; step i s) = Done s2) by (apply Hj; by rewrite E1).
  apply bind_Done in Hc as (t & E3 & E4). rewrite E3. cbn [mbind outcome_bind]. apply IH.
  cbn [run_list]. rewrite E4. exact H.
Qed.

(** The new order keeps every pair, or the pair commutes. *)
Definition may_precede (R : nat -> nat -> Prop) (x y : nat) : Prop := (x < y)%nat \/ R y x.

Lemma run_reordered n a l s s' :
  l ≡ₚ seq a n -> StronglySorted (may_precede commute) l ->
  run_list (seq a n) s = Done s' -> run_list l s = Done s'.
Proof.
  revert a l s. induction n as [|n IH]; intros a l s Hp Hs H.
  - apply Permutation_nil_r in Hp as ->. exact H.
  - cbn [seq] in Hp. destruct (list_elem_of_split l a) as (k1 & k2 & ->).
    { rewrite Hp. apply list_elem_of_here. }
    assert (Hp' : k1 ++ k2 ≡ₚ seq (Datatypes.S a) n).
    { apply (Permutation_cons_inv (a := a)). by rewrite Permutation_middle. }
    apply StronglySorted_app in Hs as (Hs12 & Hs1 & Hs2).
    assert (Hk1 : Forall (commute a) k1).
    { apply list.Forall_forall. intros x Hx. destruct (Hs12 x a Hx (list_elem_of_here _ _)) as [Hlt|Hc]; [|done].
      assert (x ∈ seq (Datatypes.S a) n) as Hin by (rewrite <- Hp'; apply elem_of_app; by left).
      apply elem_of_seq in Hin. lia. }
    assert (Hs' : StronglySorted (may_precede commute) (k1 ++ k2)).
    { apply StronglySorted_app. split; [|split; [done|by inversion Hs2]].
      intros x y Hx Hy. apply Hs12; [done|]. by apply list_elem_of_further. }
    cbn [seq run_list] in H. apply bind_Done in H as (s1 & E1 & H).
    pose proof (IH _ _ _ Hp' Hs' H) as H'. rewrite run_list_app in H'.
    apply bind_Done in H' as (s2 & E2 & H'). change (a :: k2) with ([a] ++ k2).
    rewrite app_assoc, run_list_app, (commute_front a k1 s s2); [done|done|].
    cbn [run_list]. rewrite E1. exact E2.
Qed.

End trace.
