(* ===== verification/JitSchedule.v ===== *)
(** * The JIT's instruction schedulers

    Models the schedulers of src/src/jit_compiler_a64.cpp for the 256 instructions of a program: the
    opcode table, [computeFootprint], the CBRANCH anchors, [scheduleProgram], [scheduleProgramDag], and
    the pass of [emitPrologueMix] that normalises the register numbers and emits in the scheduled order.
    The emission order is what is modelled here; executing the instructions in that order, with
    branches resolved against it, is interpreting the reordered program, and the theorems compare this
    with interpreting the program itself.  [ARMRX_MAX_SWAPS] is a parameter: the swap budget, negative
    for none. *)

From stdpp Require Import list sorting.
From S2P Require Import Prelude RandomX Float Bytecode BytecodeSafety BytecodeTermination BytecodeStale Footprint.

(** ** Opcodes *)

(** [kTypeOfEngine]: every type repeated [RANDOMX_FREQ_*] times. *)
Definition type_weights : list (InstructionType * nat) :=
  [(IADD_RS, 16); (IADD_M, 7); (ISUB_R, 16); (ISUB_M, 7); (IMUL_R, 16); (IMUL_M, 4);
   (IMULH_R, 4); (IMULH_M, 1); (ISMULH_R, 4); (ISMULH_M, 1); (IMUL_RCP, 8);
   (INEG_R, 2); (IXOR_R, 15); (IXOR_M, 5); (IROR_R, 8); (IROL_R, 2); (ISWAP_R, 4);
   (FSWAP_R, 4); (FADD_R, 16); (FADD_M, 5); (FSUB_R, 16); (FSUB_M, 5); (FSCAL_R, 6);
   (FMUL_R, 32); (FDIV_M, 4); (FSQRT_R, 6); (CBRANCH, 25); (CFROUND, 1); (ISTORE, 16);
   (NOP, 0)]%nat.
Definition kTypeOfEngine : list InstructionType := concat ((fun '(t, n) => replicate n t) <$> type_weights).

#[export] Instance InstructionType_inhabited : Inhabited InstructionType := populate NOP.

Definition resolveInstructionType (op : Z) : InstructionType := kTypeOfEngine !!! Z.to_nat op.

(** ** Footprints *)

Definition computeFootprint (instr : Instruction) (ty : InstructionType) : InstrFootprint :=
  let dst8 := dst instr in
  let src8 := src instr in
  let dst4 := dst8 mod 4 in
  let both := Z.lor (reg_bit dst8) (reg_bit src8) in
  let int_fp r w mem barrier cbranch long := mkFP r w 0 0 0 0 mem barrier cbranch long false in
  match ty with
  | IADD_RS | ISUB_R | IMUL_R | IMULH_R | ISMULH_R | IXOR_R | IROR_R | IROL_R =>
      int_fp both (reg_bit dst8) false false false
        (bool_decide (ty = IMUL_R) || bool_decide (ty = IMULH_R) || bool_decide (ty = ISMULH_R))
  | IADD_M | ISUB_M | IMUL_M | IMULH_M | ISMULH_M | IXOR_M =>
      int_fp both (reg_bit dst8) true false false false
  | IMUL_RCP => int_fp (reg_bit dst8) (reg_bit dst8) false false false true
  | INEG_R => int_fp (reg_bit dst8) (reg_bit dst8) false false false false
  | ISWAP_R => int_fp both both false false false false
  | FSWAP_R =>
      if dst8 <? 4 then mkFP 0 0 (reg_bit dst8) (reg_bit dst8) 0 0 false false false false false
      else mkFP 0 0 0 0 (reg_bit (dst8 - 4)) (reg_bit (dst8 - 4)) false false false false false
  | FADD_R | FSUB_R | FSCAL_R => mkFP 0 0 (reg_bit dst4) (reg_bit dst4) 0 0 false false false false false
  | FMUL_R | FSQRT_R => mkFP 0 0 0 0 (reg_bit dst4) (reg_bit dst4) false false false false false
  | FADD_M | FSUB_M => mkFP (reg_bit src8) 0 (reg_bit dst4) (reg_bit dst4) 0 0 true false false false false
  | FDIV_M => mkFP (reg_bit src8) 0 0 0 (reg_bit dst4) (reg_bit dst4) true false false false false
  | CBRANCH => int_fp (reg_bit dst8) (reg_bit dst8) false true true false
  | CFROUND => int_fp (reg_bit src8) 0 false true false false
  | ISTORE => int_fp both 0 true false false false
  | NOP => fp_none
  end.

Definition footprint_of (instr : Instruction) : InstrFootprint :=
  computeFootprint instr (resolveInstructionType (opcode instr)).
Definition footprints (program : list Instruction) (size : nat) : list InstrFootprint :=
  (fun i => footprint_of (program !!! i)) <$> seq 0 size.

(** ** Anchors *)

(** [for (j = i; j-- > domain_start; ) if (fp[j].int_write & (1u << creg)) { ...; break; }] *)
Fixpoint last_writer (fp : list InstrFootprint) (creg : Z) (domain_start : nat) (j : nat) : option nat :=
  match j with
  | O => None
  | S j =>
      if (domain_start <=? j)%nat then
        if overlaps (int_write (fp !!! j)) (Z.shiftl 1 creg) then Some j
        else last_writer fp creg domain_start j
      else None
  end.

(** One turn of the loop over the CBRANCHes: [domain_start] and the marks. *)
Definition anchor_step (program : list Instruction) (fp : list InstrFootprint) (st : nat * list bool) (i : nat)
  : nat * list bool :=
  let '(domain_start, marks) := st in
  if is_cbranch (fp !!! i) then
    (S i, match last_writer fp (dst (program !!! i)) domain_start i with
          | Some j => <[j := true]> marks
          | None => marks
          end)
  else (domain_start, marks).

Definition mark_anchors (program : list Instruction) (fp : list InstrFootprint) (size : nat) (marks : list bool)
  : list bool :=
  (foldl (anchor_step program fp) (0%nat, marks) (seq 0 size)).2.

(** ** The adjacent-swap scheduler *)

Section swap.
Context (program : list Instruction) (fp : list InstrFootprint) (is_anchor : list bool) (size : nat).

(** [k < size && program(k).src == program(k).dst] *)
Definition src_eq_dst (k : nat) : bool :=
  (k <? size)%nat && (src (program !!! k) =? dst (program !!! k)).

(** The condition of the first swap: P, R, Q for P, Q, R. *)
Definition swap_near (i : nat) : bool :=
  is_long_latency (fp !!! i) && (i + 2 <? size)%nat &&
  negb (is_barrier (fp !!! (i + 1)%nat)) && negb (is_barrier (fp !!! (i + 2)%nat)) &&
  negb (is_anchor !!! (i + 1)%nat) && negb (is_anchor !!! (i + 2)%nat) &&
  negb (src_eq_dst (i + 1)) && negb (src_eq_dst (i + 2)) &&
  hasHazard (fp !!! i) (fp !!! (i + 1)%nat) &&
  negb (hasHazard (fp !!! i) (fp !!! (i + 2)%nat)) &&
  negb (hasHazard (fp !!! (i + 1)%nat) (fp !!! (i + 2)%nat)).

(** The condition of the second: P, R2, Q, R1 for P, Q, R1, R2. *)
Definition swap_far (i : nat) : bool :=
  is_long_latency (fp !!! i) && (i + 3 <? size)%nat &&
  negb (is_barrier (fp !!! (i + 1)%nat)) && negb (is_barrier (fp !!! (i + 2)%nat)) &&
  negb (is_barrier (fp !!! (i + 3)%nat)) &&
  negb (is_anchor !!! (i + 1)%nat) && negb (is_anchor !!! (i + 2)%nat) && negb (is_anchor !!! (i + 3)%nat) &&
  negb (src_eq_dst (i + 1)) && negb (src_eq_dst (i + 2)) && negb (src_eq_dst (i + 3)) &&
  hasHazard (fp !!! i) (fp !!! (i + 1)%nat) &&
  negb (hasHazard (fp !!! i) (fp !!! (i + 3)%nat)) &&
  negb (hasHazard (fp !!! (i + 1)%nat) (fp !!! (i + 3)%nat)) &&
  negb (hasHazard (fp !!! (i + 2)%nat) (fp !!! (i + 3)%nat)).

(** [if (g_swap_budget.load() > 0) g_swap_budget.fetch_sub(1);] *)
Definition spend (budget : Z) : Z := if 0 <? budget then budget - 1 else budget.

(** The [while] loop from [i]; what it pushes onto [order]. *)
Fixpoint schedule_from (fuel i : nat) (budget : Z) : outcome (list nat) :=
  if (i <? size)%nat then
    match fuel with
    | O => NoFuel
    | S fuel =>
        if is_barrier (fp !!! i) then
          rest ← schedule_from fuel (i + 1) budget; Done (i :: rest)
        else if swap_near i && negb (budget =? 0) then
          rest ← schedule_from fuel (i + 3) (spend budget); Done (i :: (i + 2)%nat :: (i + 1)%nat :: rest)
        else if swap_far i && negb (budget =? 0) then
          rest ← schedule_from fuel (i + 4) (spend budget);
          Done (i :: (i + 3)%nat :: (i + 1)%nat :: (i + 2)%nat :: rest)
        else
          rest ← schedule_from fuel (i + 1) budget; Done (i :: rest)
    end
  else Done [].

End swap.

Definition scheduleProgram (budget : Z) (program : list Instruction) (size : nat) : outcome (list nat) :=
  let fp := footprints program size in
  let is_anchor := mark_anchors program fp size (replicate size false) in
  schedule_from program fp is_anchor size size 0 budget.

(** ** The dependence-graph scheduler *)

Section dag.
Context (fp : list InstrFootprint) (is_anchor is_fixed src_eq_dsts : list bool) (size : nat).

(** [emitted], [order] and the swap budget; [indegree[j]] is the number of earlier instructions with a
    hazard that are not yet emitted. *)
Record dag_state : Type := mkDag {
  emitted : list bool;
  indegree : list nat;
  order : list nat;
  active_anchor : option nat;
  budget : Z;
}.

Definition successors (i : nat) : list nat :=
  base.filter (fun j : nat => hasHazard (fp !!! i) (fp !!! j) = true) (seq (S i) (size - S i)).
Definition indegrees : list nat :=
  (fun j => length (base.filter (fun i : nat => hasHazard (fp !!! i) (fp !!! j) = true) (seq 0 j))) <$> seq 0 size.

Definition ready (st : dag_state) (j : nat) : bool :=
  negb (emitted st !!! j) && (indegree st !!! j =? 0)%nat.

Definition decrement (ds : list nat) (j : nat) : list nat := <[j := Nat.pred (ds !!! j)]> ds.
Definition commit (st : dag_state) (j : nat) (budget : Z) : dag_state :=
  mkDag (<[j := true]> (emitted st)) (foldl decrement (indegree st) (successors j))
        (order st ++ [j]) (if (is_anchor !!! j : bool) then Some j else None) budget.

(** [crosses_src_eq_dst] for a candidate [j]. *)
Definition crosses (st : dag_state) (slot j : nat) : bool :=
  existsb (fun k => negb (emitted st !!! k) && (is_fixed !!! k || src_eq_dsts !!! k)) (seq slot (j - slot)).

Definition pair_safe (st : dag_state) (slot anchor j : nat) : bool :=
  negb (hasHazard (fp !!! anchor) (fp !!! j)) &&
  forallb (fun k => negb (negb (emitted st !!! k) && negb (k =? j)%nat) || negb (hasHazard (fp !!! k) (fp !!! j)))
    (seq slot (S j - slot)) &&
  negb (existsb (fun prior => (j <? prior)%nat && hasHazard (fp !!! prior) (fp !!! j)) (order st)).

(** [for (j = slot + 1; j < size && !is_fixed[j]; ++j)]: the candidate that fills the slot. *)
Fixpoint find_filler (fuel : nat) (st : dag_state) (slot anchor j : nat) : option nat :=
  match fuel with
  | O => None
  | S fuel =>
      if (j <? size)%nat && negb (is_fixed !!! j) then
        if negb (ready st j) || src_eq_dsts !!! j || is_anchor !!! j then find_filler fuel st slot anchor (S j)
        else if crosses st slot j then None
        else if negb (pair_safe st slot anchor j) then find_filler fuel st slot anchor (S j)
        else Some j
      else None
  end.

(** [for (j = slot; j < size && !is_fixed[j]; ++j) if (ready(j) && !src_eq_dst[j])] *)
Fixpoint find_ready (fuel : nat) (st : dag_state) (j : nat) : option nat :=
  match fuel with
  | O => None
  | S fuel =>
      if (j <? size)%nat && negb (is_fixed !!! j) then
        if ready st j && negb (src_eq_dsts !!! j) then Some j else find_ready fuel st (S j)
      else None
  end.

(** One slot; [None] is [return identity]. *)
Definition dag_slot (st : dag_state) (slot : nat) : option dag_state :=
  let filler :=
    match active_anchor st with
    | Some anchor =>
        if negb (is_fixed !!! slot) && ready st slot && hasHazard (fp !!! anchor) (fp !!! slot)
        then find_filler size st slot anchor (S slot) else None
    | None => None
    end in
  let candidate := match filler with Some j => j | None => slot end in
  let reordered := match filler with Some _ => true | None => false end in
  candidate ← (if ready st candidate then Some candidate else find_ready size st slot);
  if reordered then
    if negb (budget st =? 0) then
      Some (commit st candidate (if 0 <? budget st then budget st - 1 else budget st))
    else None
  else Some (commit st candidate (budget st)).

Fixpoint dag_slots (st : dag_state) (slots : list nat) : option dag_state :=
  match slots with
  | [] => Some st
  | slot :: slots => st ← dag_slot st slot; dag_slots st slots
  end.

Definition dag_order (swaps : Z) : list nat :=
  let identity := seq 0 size in
  if swaps =? 0 then identity else
  match dag_slots (mkDag (replicate size false) indegrees [] None swaps) identity with
  | Some st => order st
  | None => identity
  end.

End dag.

Definition dag_anchor (instr : Instruction) : bool :=
  let ty := resolveInstructionType (opcode instr) in
  bool_decide (ty = IMUL_R) || bool_decide (ty = IMULH_R) || bool_decide (ty = ISMULH_R) ||
  bool_decide (ty = IMUL_RCP).

Definition scheduleProgramDag (swaps : Z) (program : list Instruction) (size : nat) : list nat :=
  let fp := footprints program size in
  let is_anchor := (fun i => dag_anchor (program !!! i)) <$> seq 0 size in
  let src_eq_dsts := (fun i => src (program !!! i) =? dst (program !!! i)) <$> seq 0 size in
  let is_fixed := (fun i => dag_anchor (program !!! i) || is_barrier (fp !!! i)) <$> seq 0 size in
  dag_order fp is_anchor (mark_anchors program fp size is_fixed) src_eq_dsts size swaps.

(** ** [emitPrologueMix] *)

(** [instr.src %= RegistersCount; instr.dst %= RegistersCount;] *)
Definition normalize (instr : Instruction) : Instruction :=
  mkInstruction (opcode instr) (dst instr mod 8) (src instr mod 8) (mod_ instr) (imm32 instr).

Definition reorder (order : list nat) (program : list Instruction) : list Instruction :=
  (fun i => program !!! i) <$> order.

(** The instructions in the order in which their code is emitted. *)
Definition emitted_program (use_dag : bool) (swaps : Z) (program : list Instruction) : outcome (list Instruction) :=
  let program := normalize <$> program in
  order ← (if use_dag then Done (scheduleProgramDag swaps program 256) else scheduleProgram swaps program 256);
  Done (reorder order program).

(** ** What a scheduler promises *)

(** A permutation of the program that changes the order of no two instructions with a hazard between
    them, and moves nothing across an instruction of [fixed]. *)
Definition movable (fp : list InstrFootprint) (fixed : nat -> Prop) (y x : nat) : Prop :=
  hasHazard (fp !!! y) (fp !!! x) = false /\ ~ fixed x /\ ~ fixed y.
Record safe_order (fp : list InstrFootprint) (fixed : nat -> Prop) (size : nat) (l : list nat) : Prop := mkSafe {
  so_perm : l ≡ₚ seq 0 size;
  so_sorted : StronglySorted (may_precede (movable fp fixed)) l;
}.

Lemma sorted_cons R x l : Forall (fun y => (x < y)%nat) l -> StronglySorted (may_precede R) l ->
  StronglySorted (may_precede R) (x :: l).
Proof. intros H Hs. constructor; [done|]. eapply list.Forall_impl; [exact H|]. by left. Qed.

Lemma seq_above l a n x : l ≡ₚ seq a n -> (x < a)%nat -> Forall (fun y => (x < y)%nat) l.
Proof. intros Hp Hx. apply list.Forall_forall. intros y Hy. rewrite Hp in Hy. apply elem_of_seq in Hy. lia. Qed.

Lemma seq_safe fp fixed size : safe_order fp fixed size (seq 0 size).
Proof.
  split; [done|]. generalize 0%nat. induction size as [|n IH]; intros a; [constructor|].
  cbn [seq]. apply sorted_cons; [|apply IH]. by apply (seq_above _ (S a) n); [|lia].
Qed.

(** Splits a conjunction of tests. *)
Ltac split_tests :=
  repeat match goal with
  | H : _ && _ = true |- _ => apply andb_true_iff in H as [? ?]
  | H : negb _ = true |- _ => apply negb_true_iff in H
  | H : (_ <? _)%nat = true |- _ => apply Nat.ltb_lt in H
  end.

Section swap_safe.
Context (program : list Instruction) (fp : list InstrFootprint) (is_anchor : list bool) (size : nat).
Abbreviation fixed := (fun k => is_anchor !!! k = true).

(** What the two swap conditions give. *)
Lemma swap_near_movable i : swap_near program fp is_anchor size i = true ->
  (i + 2 < size)%nat /\ movable fp fixed (i + 1) (i + 2).
Proof.
  unfold swap_near, movable. intros H. split_tests. split; [lia|]. by split_and!; [|congruence..].
Qed.
Lemma swap_far_movable i : swap_far program fp is_anchor size i = true ->
  (i + 3 < size)%nat /\ movable fp fixed (i + 1) (i + 3) /\ movable fp fixed (i + 2) (i + 3).
Proof.
  unfold swap_far, movable. intros H. split_tests. split; [lia|]. by split_and!; try congruence.
Qed.

Lemma schedule_from_ok fuel i budget : (size - i <= fuel)%nat ->
  exists l, schedule_from program fp is_anchor size fuel i budget = Done l /\
    l ≡ₚ seq i (size - i) /\ StronglySorted (may_precede (movable fp fixed)) l.
Proof.
  revert i budget. induction fuel as [|fuel IH]; intros i budget Hf; cbn [schedule_from];
    (destruct (Nat.ltb_spec i size) as [Hi|Hi];
      [|exists []; replace (size - i)%nat with 0%nat by lia; by split_and!; [| |constructor]]); [lia|].
  assert (Hone : exists l, (rest ← schedule_from program fp is_anchor size fuel (i + 1) budget; Done (i :: rest))
      = Done l /\ l ≡ₚ seq i (size - i) /\ StronglySorted (may_precede (movable fp fixed)) l).
  { destruct (IH (i + 1)%nat budget ltac:(lia)) as (l & -> & Hp & Hs). exists (i :: l). split; [done|].
    replace (size - i)%nat with (S (size - (i + 1))) by lia. cbn [seq]. rewrite Nat.add_1_r in Hp.
    split; [by rewrite Nat.add_1_r, Hp|]. apply sorted_cons; [|done]. apply (seq_above _ _ _ _ Hp). lia. }
  destruct (is_barrier (fp !!! i)); [done|].
  destruct (swap_near program fp is_anchor size i && negb (budget =? 0)) eqn:Hn.
  { clear Hone. apply andb_true_iff in Hn as [Hn _]. apply swap_near_movable in Hn as [Hlt Hm].
    destruct (IH (i + 3)%nat (spend budget) ltac:(lia)) as (l & -> & Hp & Hs). eexists. split; [reflexivity|].
    pose proof (fun x => seq_above l _ _ x Hp) as Hab. split.
    - replace (size - i)%nat with (S (S (S (size - (i + 3))))) by lia. cbn [seq]. rewrite Hp.
      replace (S i) with (i + 1)%nat by lia. replace (S (i + 1)) with (i + 2)%nat by lia.
      replace (S (i + 2)) with (i + 3)%nat by lia. by apply Permutation_skip, Permutation_swap.
    - apply sorted_cons; [repeat constructor; try lia; apply Hab; lia|].
      constructor; [apply sorted_cons; [apply Hab; lia|done]|].
      constructor; [by right|]. eapply list.Forall_impl; [apply (Hab (i + 2)%nat); lia|]. by left. }
  destruct (swap_far program fp is_anchor size i && negb (budget =? 0)) eqn:Hn'; [|done]. clear Hone Hn.
  apply andb_true_iff in Hn' as [Hn _]. apply swap_far_movable in Hn as (Hlt & Hm1 & Hm2).
  destruct (IH (i + 4)%nat (spend budget) ltac:(lia)) as (l & -> & Hp & Hs). eexists. split; [reflexivity|].
  pose proof (fun x => seq_above l _ _ x Hp) as Hab. split.
  - replace (size - i)%nat with (S (S (S (S (size - (i + 4)))))) by lia. cbn [seq]. rewrite Hp.
    replace (S i) with (i + 1)%nat by lia. replace (S (i + 1)) with (i + 2)%nat by lia.
    replace (S (i + 2)) with (i + 3)%nat by lia. replace (S (i + 3)) with (i + 4)%nat by lia.
    apply Permutation_skip.
    change (seq (i + 4) (size - (i + 4))) with ([] ++ seq (i + 4) (size - (i + 4))).
    apply (Permutation_middle [(i + 1)%nat; (i + 2)%nat]).
  - apply sorted_cons; [repeat constructor; try lia; apply Hab; lia|].
    constructor; [apply sorted_cons; [constructor; [lia|apply Hab; lia]|apply sorted_cons; [apply Hab; lia|done]]|].
    constructor; [by right|]. constructor; [by right|].
    eapply list.Forall_impl; [apply (Hab (i + 3)%nat); lia|]. by left.
Qed.
End swap_safe.

(** The adjacent-swap scheduler, for the anchors it computes. *)
Lemma scheduleProgram_safe swaps program size :
  exists order, scheduleProgram swaps program size = Done order /\
    safe_order (footprints program size)
      (fun k => mark_anchors program (footprints program size) size (replicate size false) !!! k = true) size order.
Proof.
  unfold scheduleProgram. set (fp := footprints program size).
  set (marks := mark_anchors program fp size (replicate size false)).
  destruct (schedule_from_ok program fp marks size size 0 swaps) as (l & E & Hp & Hs); [lia|].
  rewrite Nat.sub_0_r in Hp. by exists l.
Qed.

(** ** The dependence-graph scheduler never reorders *)

(** Distinct numbers below [n], each at most as far left as its value: the identity. *)
Lemma rising_identity (l : list nat) n :
  length l = n -> NoDup l -> (forall p x, l !! p = Some x -> (p <= x < n)%nat) -> l = seq 0 n.
Proof.
  revert n. induction l as [|x l IH] using rev_ind; intros n Hl Hnd Hge; [by subst n|].
  rewrite length_app in Hl. cbn in Hl. destruct n as [|n]; [lia|].
  assert (x = n) as ->.
  { specialize (Hge (length l) x). rewrite lookup_app_r, Nat.sub_diag in Hge by lia. specialize (Hge eq_refl). lia. }
  rewrite seq_S, <- (IH n); [done|lia|by apply list.NoDup_app in Hnd as [? _]|].
  intros p y Hy. specialize (Hge p y (lookup_app_l_Some _ _ _ _ Hy)).
  apply list.NoDup_app in Hnd as (_ & Hnd & _). specialize (Hnd y (list_elem_of_lookup_2 _ _ _ Hy)).
  rewrite list_elem_of_singleton in Hnd. lia.
Qed.

Section dag_identity.
Context (fp : list InstrFootprint) (is_anchor is_fixed src_eq_dsts : list bool) (size : nat).

(** After [slot] slots. *)
Record dag_inv (slot : nat) (st : dag_state) : Prop := mkDagInv {
  di_length : length (order st) = slot;
  di_emitted : length (emitted st) = size;
  di_marked : forall k, k ∈ order st -> emitted st !! k = Some true;
  di_nodup : NoDup (order st);
  di_rising : forall p x, order st !! p = Some x -> (p <= x < size)%nat;
}.

Lemma find_filler_ready fuel st slot anchor j c :
  find_filler fp is_anchor is_fixed src_eq_dsts size fuel st slot anchor j = Some c ->
  ready st c = true /\ (j <= c < size)%nat.
Proof.
  revert j. induction fuel as [|fuel IH]; intros j; cbn [find_filler]; [done|].
  destruct ((j <? size)%nat && negb (is_fixed !!! j)) eqn:Hj; [|done]. split_tests.
  destruct (ready st j) eqn:Hr; cbn [negb orb]; [|intros [? ?]%IH; split; [done|lia]].
  destruct (src_eq_dsts !!! j || is_anchor !!! j); [intros [? ?]%IH; split; [done|lia]|].
  destruct (crosses is_fixed src_eq_dsts st slot j); [done|].
  destruct (pair_safe fp st slot anchor j); cbn [negb]; [intros [= <-]; split; [done|lia]|].
  intros [? ?]%IH. split; [done|lia].
Qed.

Lemma find_ready_ready fuel st j c :
  find_ready is_fixed src_eq_dsts size fuel st j = Some c -> ready st c = true /\ (j <= c < size)%nat.
Proof.
  revert j. induction fuel as [|fuel IH]; intros j; cbn [find_ready]; [done|].
  destruct ((j <? size)%nat && negb (is_fixed !!! j)) eqn:Hj; [|done]. split_tests.
  destruct (ready st j && negb (src_eq_dsts !!! j)) eqn:Hr; [|intros [? ?]%IH; split; [done|lia]].
  intros [= <-]. split_tests. split; [done|lia].
Qed.

Lemma commit_inv slot st c b :
  dag_inv slot st -> ready st c = true -> (slot <= c < size)%nat ->
  dag_inv (S slot) (commit fp is_anchor size st c b).
Proof.
  intros [Hl He Hm Hn Hr] Hc Hs. unfold ready in Hc. split_tests.
  assert (Hnew : c ∉ order st).
  { intros Hin%Hm. apply list_lookup_total_correct in Hin. congruence. }
  constructor; cbn [commit order emitted].
  - rewrite length_app. cbn. lia.
  - by rewrite length_insert.
  - intros k [Hk|Hk]%elem_of_app.
    + rewrite list_lookup_insert_ne by (intros ->; done). by apply Hm.
    + apply list_elem_of_singleton in Hk as ->. apply list_lookup_insert_eq. lia.
  - apply list.NoDup_app. split; [done|]. split; [|apply NoDup_singleton].
    intros x Hx Hxc. apply list_elem_of_singleton in Hxc as ->. done.
  - intros p x [Hp|[Hp Hx]]%lookup_app_Some; [by apply Hr|].
    apply list_lookup_singleton_Some in Hx as [? <-]. lia.
Qed.

Lemma dag_slot_inv slot st st' :
  (slot < size)%nat -> dag_inv slot st ->
  dag_slot fp is_anchor is_fixed src_eq_dsts size st slot = Some st' -> dag_inv (S slot) st'.
Proof.
  intros Hs Hinv. unfold dag_slot.
  match goal with |- context [match active_anchor st with Some _ => _ | None => _ end] =>
    set (filler := match active_anchor st with Some _ => _ | None => _ end) end.
  assert (Hf : forall j, filler = Some j -> ready st j = true /\ (slot <= j < size)%nat).
  { unfold filler. intros j. destruct (active_anchor st); [|done].
    destruct (_ && _); [|done]. intros [? ?]%find_filler_ready. split; [done|lia]. }
  intros E. apply bind_Some in E as (c & Ec & E).
  assert (Hc : ready st c = true /\ (slot <= c < size)%nat).
  { revert Ec. destruct filler as [j|]; [destruct (Hf j eq_refl) as [-> ?]; intros [= <-]; by apply Hf|].
    destruct (ready st slot) eqn:Er; [intros [= <-]; split; [done|lia]|].
    intros [? ?]%find_ready_ready. done. }
  destruct Hc as [Hr Hc]. destruct filler; [destruct (negb _); [|done]|];
    injection E as <-; by apply commit_inv.
Qed.

Lemma dag_order_identity swaps : dag_order fp is_anchor is_fixed src_eq_dsts size swaps = seq 0 size.
Proof.
  unfold dag_order. destruct (swaps =? 0); [done|].
  assert (Hall : forall n slot st st', (slot + n = size)%nat -> dag_inv slot st ->
    dag_slots fp is_anchor is_fixed src_eq_dsts size st (seq slot n) = Some st' -> dag_inv size st').
  { induction n as [|n IH]; intros slot st st' Hs Hi; cbn [seq dag_slots].
    - intros [= <-]. by replace size with slot by lia.
    - intros E. apply bind_Some in E as (st1 & E1 & E). eapply (IH (S slot)); [lia| |exact E].
      by apply (dag_slot_inv slot st); [lia|..]. }
  match goal with |- context [dag_slots _ _ _ _ _ ?s0 _] => set (st0 := s0) end.
  destruct (dag_slots _ _ _ _ _ st0 _) as [st|] eqn:E; [|done].
  destruct (Hall size 0%nat st0 st eq_refl) as [Hl _ _ Hn Hr]; [|exact E|by apply rising_identity].
  constructor; cbn; [done|apply length_replicate| |constructor|]; intros; [by apply elem_of_nil in H|].
  by rewrite lookup_nil in H.
Qed.
End dag_identity.
