(* ===== verification/JitEquiv.v ===== *)
(** * Reordered programs compute the same

    The instruction schedulers of src/src/jit_compiler_a64.cpp against the interpreter of
    src/src/vm.cpp: footprints cover what instructions touch, instructions without a hazard commute, and
    a safe order that keeps the branch targets leaves the result of a program unchanged. *)

From stdpp Require Import list sorting.
From S2P Require Import Prelude RandomX Float Bytecode BytecodeSafety BytecodeTermination BytecodeStale Footprint JitSchedule.

(** ** What an instruction touches *)

(** States that agree on the locations of [L] and on everything no instruction but a barrier changes. *)
Record agree_on (L : loc -> Prop) (s1 s2 : xstate) : Prop := mkAgree {
  ag_rl : length (r (reg_ s1)) = length (r (reg_ s2));
  ag_fl : length (f (reg_ s1)) = length (f (reg_ s2));
  ag_el : length (e (reg_ s1)) = length (e (reg_ s2));
  ag_a : a (reg_ s1) = a (reg_ s2);
  ag_mode : last_rounding_mode_ s1 = last_rounding_mode_ s2;
  ag_round : fe_round s1 = fe_round s2;
  ag_r : forall i, L (LR i) -> r (reg_ s1) !! i = r (reg_ s2) !! i;
  ag_f : forall i, L (LF i) -> f (reg_ s1) !! i = f (reg_ s2) !! i;
  ag_e : forall i, L (LE i) -> e (reg_ s1) !! i = e (reg_ s2) !! i;
  ag_mem : L LMem -> scratchpad_ s1 = scratchpad_ s2;
}.

Lemma agree_refl L s : agree_on L s s.
Proof. by constructor. Qed.
Lemma agree_sym L s1 s2 : agree_on L s1 s2 -> agree_on L s2 s1.
Proof. intros []. constructor; try (by symmetry); intros; symmetry; auto. Qed.
Lemma agree_trans L s1 s2 s3 : agree_on L s1 s2 -> agree_on L s2 s3 -> agree_on L s1 s3.
Proof.
  intros [] []. constructor; try congruence; intros;
    etrans; match goal with H : _ |- _ => by apply H end.
Qed.
Lemma agree_mono (L L' : loc -> Prop) s1 s2 : agree_on L s1 s2 -> (forall l, L' l -> L l) -> agree_on L' s1 s2.
Proof. intros [] HL. constructor; auto. Qed.
(** Agreement on the union, and everywhere. *)
Lemma agree_union (L1 L2 : loc -> Prop) s1 s2 :
  agree_on L1 s1 s2 -> agree_on L2 s1 s2 -> agree_on (fun l => L1 l \/ L2 l) s1 s2.
Proof. intros [] []. constructor; try done; intros; destruct_or?; auto. Qed.
Lemma agree_eq (L : loc -> Prop) s1 s2 : (forall l, L l) -> agree_on L s1 s2 -> s1 = s2.
Proof.
  intros HL []. destruct s1 as [[] ? ? ?], s2 as [[] ? ? ?]. cbn in *.
  f_equal; auto. f_equal; auto; apply list_eq; auto.
Qed.

(** A step that changes [W] at most, as a function of [R] and [W]. *)
Definition respects (R W : loc -> Prop) (step : xstate -> outcome xstate) : Prop :=
  (forall s s', step s = Done s' -> agree_on (fun l => ~ W l) s s') /\
  (forall s1 s2 s1', agree_on (fun l => R l \/ W l) s1 s2 -> step s1 = Done s1' ->
     exists s2', step s2 = Done s2' /\ agree_on W s1' s2').

Lemma respects_mono (R W R' W' : loc -> Prop) step :
  (forall l, W' l \/ ~ W' l) -> (forall l, W l \/ ~ W l) ->
  respects R W step -> (forall l, R l -> R' l \/ W' l) -> (forall l, W l -> W' l) -> respects R' W' step.
Proof.
  intros Hd HdW [Hf Hl] HR HW. split.
  - intros s s' E. eapply agree_mono; [by apply Hf|]. intros l Hn Hw. by apply Hn, HW.
  - intros s1 s2 s1' Ha E. destruct (Hl s1 s2 s1') as (s2' & E2 & Ha'); [|done|].
    { eapply agree_mono; [exact Ha|]. intros l [H%HR|H%HW]; [done|by right]. }
    exists s2'. split; [done|]. eapply agree_mono with (L := fun l => W l \/ (W' l /\ ~ W l)).
    + apply agree_union; [done|]. eapply agree_trans; [|eapply agree_trans].
      * apply agree_sym. eapply agree_mono; [by apply Hf|]. by intros l [_ ?].
      * eapply agree_mono; [exact Ha|]. intros l [? _]. by right.
      * eapply agree_mono; [by apply Hf|]. by intros l [_ ?].
    + intros l Hw. destruct (HdW l); auto.
Qed.

(** Steps with disjoint footprints commute. *)
Lemma respects_commute (R1 W1 R2 W2 : loc -> Prop) step1 step2 s s' :
  (forall l, W1 l \/ ~ W1 l) -> (forall l, W2 l \/ ~ W2 l) ->
  respects R1 W1 step1 -> respects R2 W2 step2 ->
  (forall l, W1 l -> ~ R2 l /\ ~ W2 l) -> (forall l, W2 l -> ~ R1 l /\ ~ W1 l) ->
  (s ← step1 s; step2 s) = Done s' -> (s ← step2 s; step1 s) = Done s'.
Proof.
  intros D1 D2 [F1 L1] [F2 L2] H12 H21 H. apply bind_Done in H as (s1 & E1 & E2).
  pose proof (F1 _ _ E1) as A1. pose proof (F2 _ _ E2) as A2.
  destruct (L2 s1 s s') as (t1 & E3 & B2); [|done|].
  { apply agree_sym. eapply agree_mono; [exact A1|]. intros l [H|H] HW; by apply H12 in HW as [? ?]. }
  pose proof (F2 _ _ E3) as A3.
  destruct (L1 s t1 s1) as (t2 & E4 & B1); [|done|].
  { eapply agree_mono; [exact A3|]. intros l [H|H] HW; by apply H21 in HW as [? ?]. }
  pose proof (F1 _ _ E4) as A4. rewrite E3. cbn [mbind outcome_bind]. rewrite E4. f_equal. symmetry.
  apply (agree_eq (fun l => W1 l \/ (W2 l \/ ~ W1 l /\ ~ W2 l))).
  { intros l. destruct (D1 l), (D2 l); auto. }
  apply agree_union; [|apply agree_union].
  - eapply agree_trans; [|exact B1]. apply agree_sym. eapply agree_mono; [exact A2|]. by intros l [? ?]%H12.
  - eapply agree_trans; [exact B2|]. eapply agree_mono; [exact A4|]. by intros l [? ?]%H21.
  - eapply agree_trans; [|eapply agree_mono; [exact A4|by intros l [? ?]]].
    eapply agree_trans; [|eapply agree_mono; [exact A3|by intros l [? ?]]].
    apply agree_sym. eapply agree_trans; [eapply agree_mono; [exact A1|by intros l [? ?]]|].
    eapply agree_mono; [exact A2|by intros l [? ?]].
Qed.

(** ** Instructions *)

Definition ploc (p : ptr) (l : loc) : Prop :=
  match p with PR i => l = LR i | PF i => l = LF i | PE i => l = LE i | _ => False end.

Definition uses_memory (ty : InstructionType) : bool :=
  match ty with
  | IADD_M | ISUB_M | IMUL_M | IMULH_M | ISMULH_M | IXOR_M | FADD_M | FSUB_M | FDIV_M | ISTORE => true
  | _ => false
  end.

Definition ibc_reads (x : InstructionByteCode) (l : loc) : Prop :=
  ploc (idst x) l \/ ploc (isrc x) l \/ (uses_memory (type x) = true /\ l = LMem).
Definition ibc_writes (x : InstructionByteCode) (l : loc) : Prop :=
  match type x with
  | ISTORE => l = LMem
  | ISWAP_R => ploc (idst x) l \/ ploc (isrc x) l
  | IMUL_RCP | NOP | CFROUND => False
  | _ => ploc (idst x) l
  end.

(** Reading and then writing. *)
Definition reads {B} (R : loc -> Prop) (g : xstate -> outcome B) : Prop :=
  forall s1 s2, agree_on R s1 s2 -> g s1 = g s2.

Lemma respects_store {B} R W (g : xstate -> outcome B) (w : B -> xstate -> outcome xstate) step :
  (forall s, step s = (b ← g s; w b s)) -> reads (fun l => R l \/ W l) g -> (forall b, respects W W (w b)) -> respects R W step.
Proof.
  intros Hstep Hg Hw. split.
  - intros s s' E. rewrite Hstep in E. apply bind_Done in E as (b & _ & E). by apply (Hw b).
  - intros s1 s2 s1' Ha E. rewrite Hstep in *. rewrite <- (Hg s1 s2 Ha).
    apply bind_Done in E as (b & -> & E). apply (proj2 (Hw b) s1 s2 s1'); [|done].
    eapply agree_mono; [exact Ha|]. intros l [H|H]; by right.
Qed.

Lemma load_int_reads R ibc p : (forall l, ploc p l -> R l) -> reads R (fun s => load_int s ibc p).
Proof.
  intros H s1 s2 Ha. destruct p; try done. cbn [load_int]. unfold at_index.
  by rewrite (ag_r _ _ _ Ha) by (rewrite Nat2Z.id; by apply H).
Qed.
Lemma load_float_reads R p : (forall l, ploc p l -> R l) -> reads R (fun s => load_float s p).
Proof.
  intros H s1 s2 Ha. destruct p; try done; cbn [load_float]; unfold at_index.
  - by rewrite (ag_f _ _ _ Ha) by (rewrite Nat2Z.id; by apply H).
  - by rewrite (ag_e _ _ _ Ha) by (rewrite Nat2Z.id; by apply H).
  - by rewrite (ag_a _ _ _ Ha).
Qed.
Lemma reads_bind {A B} R (g : xstate -> outcome A) (h : A -> xstate -> outcome B) :
  reads R g -> (forall x, reads R (h x)) -> reads R (fun s => x ← g s; h x s).
Proof. intros Hg Hh s1 s2 Ha. rewrite (Hg _ _ Ha). destruct (g s2); try done. by apply Hh. Qed.
Lemma reads_const {B} R (x : outcome B) : reads R (fun _ => x).
Proof. done. Qed.

Lemma store_int_respects p x : respects (ploc p) (ploc p) (store_int p x).
Proof.
  destruct p as [i|?|?|?| | |]; try done. split; cbn [store_int ploc]; unfold set_at.
  - intros s s' E. destruct (Nat.ltb_spec i (length (r (reg_ s)))); [|done]. injection E as <-.
    constructor; cbn; try done; [by rewrite length_insert|].
    intros j Hj. rewrite list_lookup_insert_ne; [done|]. congruence.
  - intros s1 s2 s1' Ha E. rewrite <- (ag_rl _ _ _ Ha).
    destruct (Nat.ltb_spec i (length (r (reg_ s1)))); [|done]. injection E as <-. eexists. split; [reflexivity|].
    destruct Ha. constructor; cbn; try done; [by rewrite !length_insert|].
    intros j [= ->]. rewrite !list_lookup_insert_eq by congruence. done.
Qed.

Lemma store_float_respects p x :
  (forall i, p <> PA i) -> respects (ploc p) (ploc p) (store_float p x).
Proof.
  intros Hp. destruct p as [?|i|i|i| | |]; try done; [| |by destruct (Hp i)];
    (split; cbn [store_float ploc]; unfold set_at;
     [ intros s s' E; case_match eqn:Hlt; [|done]; apply Nat.ltb_lt in Hlt; injection E as <-;
       constructor; cbn; try done; [by rewrite length_insert|];
       intros j Hj; rewrite list_lookup_insert_ne; [done|]; congruence
     | intros s1 s2 s1' Ha E;
       first [rewrite <- (ag_fl _ _ _ Ha) | rewrite <- (ag_el _ _ _ Ha)];
       case_match eqn:Hlt; [|done]; apply Nat.ltb_lt in Hlt; injection E as <-; eexists; split; [reflexivity|];
       destruct Ha; constructor; cbn; try done; [by rewrite !length_insert|];
       intros j [= ->]; rewrite !list_lookup_insert_eq by congruence; done ]).
Qed.

Lemma store64_respects addr x : respects (fun l => l = LMem) (fun l => l = LMem) (store64 addr x).
Proof.
  split; unfold store64.
  - intros s s' E. apply bind_Done in E as (mm & _ & [= <-]). by constructor.
  - intros s1 s2 s1' Ha E. rewrite <- (ag_mem _ _ _ Ha) by auto. apply bind_Done in E as (mm & -> & [= <-]).
    eexists. split; [reflexivity|]. by destruct Ha; constructor.
Qed.

Lemma respects_seq W (w1 w2 : xstate -> outcome xstate) :
  respects W W w1 -> respects W W w2 -> respects W W (fun s => s ← w1 s; w2 s).
Proof.
  intros [F1 L1] [F2 L2]. split.
  - intros s s' E. apply bind_Done in E as (s1 & E1 & E2).
    eapply agree_trans; [by apply F1|by apply F2].
  - intros s1 s2 s1' Ha E. apply bind_Done in E as (t1 & E1 & E2).
    destruct (L1 _ _ _ Ha E1) as (t2 & E3 & Ht). rewrite E3. cbn [mbind outcome_bind].
    eapply L2; [|exact E2]. eapply agree_mono; [exact Ht|]. by intros l [?|?].
Qed.

Lemma ploc_dec p l : ploc p l \/ ~ ploc p l.
Proof.
  destruct p as [i|i|i|i| | |], l as [j|j|j|]; cbn; try (right; solve [tauto | congruence]);
    (destruct (decide (j = i)) as [->|]; first [by left | right; congruence]).
Qed.
Lemma ibc_writes_dec x l : ibc_writes x l \/ ~ ibc_writes x l.
Proof.
  unfold ibc_writes. destruct (type x); try apply ploc_dec; try (right; tauto).
  - destruct (ploc_dec (idst x) l), (ploc_dec (isrc x) l); tauto.
  - destruct l; first [by left | right; congruence].
Qed.

(** One instruction that is not a branch, without the program counter. *)
Definition exec1 (m : Z * Z) (x : InstructionByteCode) (st : xstate) : outcome xstate :=
  '(_, st) ← execute_one m x 0 st; Done st.

Lemma execute_one_exec1 m x pc st :
  type x <> CBRANCH -> execute_one m x pc st = (st ← exec1 m x st; Done (pc, st)).
Proof.
  unfold exec1, execute_one. intros H. destruct (type x); try done;
    match goal with |- (st ← ?c; Done (pc, st)) = _ => by destruct c end.
Qed.

Ltac read_tac :=
  repeat match goal with
  | |- reads _ (fun s => mbind (fun x => _) (@?g s)) => apply (reads_bind _ g); [|intros ?]
  | |- reads _ (fun s => load_int s _ _) => apply load_int_reads
  | |- reads _ (fun s => load_float s _) => apply load_float_reads
  | |- reads _ (fun s => Done _) => apply reads_const
  end.

Lemma getScratchpadAddress_reads R x : (forall l, ploc (isrc x) l -> R l) -> reads R (getScratchpadAddress x).
Proof. intros H. unfold getScratchpadAddress. read_tac; done. Qed.
Lemma load64_reads (R : loc -> Prop) addr : R LMem -> reads R (fun s => load64 s addr).
Proof. intros H s1 s2 Ha. unfold load64. by rewrite (ag_mem _ _ _ Ha). Qed.
Lemma load_int_pair_reads (R : loc -> Prop) addr : R LMem -> reads R (fun s => load_int_pair s addr).
Proof. intros H s1 s2 Ha. unfold load_int_pair, load32. by rewrite (ag_mem _ _ _ Ha). Qed.

(** The shapes of instructions. *)
Lemma alu_respects op x :
  respects (fun l => ploc (idst x) l \/ ploc (isrc x) l) (ploc (idst x)) (alu op x).
Proof.
  apply (respects_store _ _ (fun s => d ← load_int s x (idst x); v ← load_int s x (isrc x); Done (op d v))
    (fun v => store_int (idst x) v)).
  - intros s. unfold alu. destruct (load_int s x (idst x)); try done. by destruct (load_int s x (isrc x)).
  - apply reads_bind; [apply load_int_reads; tauto|]. intros d. apply reads_bind; [apply load_int_reads; tauto|].
    intros v. apply reads_const.
  - intros v. apply store_int_respects.
Qed.

Lemma alu_mem_respects op x :
  respects (fun l => ploc (idst x) l \/ ploc (isrc x) l \/ l = LMem) (ploc (idst x)) (alu_mem op x).
Proof.
  apply (respects_store _ _ (fun s => d ← load_int s x (idst x); addr ← getScratchpadAddress x s;
      v ← load64 s addr; Done (op d v)) (fun v => store_int (idst x) v)).
  - intros s. unfold alu_mem. destruct (load_int s x (idst x)); try done.
    cbn [mbind outcome_bind]. destruct (getScratchpadAddress x s); try done. cbn [mbind outcome_bind].
    by destruct (load64 s _).
  - apply reads_bind; [apply load_int_reads; tauto|]. intros d.
    apply reads_bind; [apply getScratchpadAddress_reads; tauto|]. intros addr.
    apply reads_bind; [apply load64_reads; tauto|]. intros v. apply reads_const.
  - intros v. apply store_int_respects.
Qed.

(** A float register updated from itself and an operand that is read as [g]. *)
Lemma float_respects (R : loc -> Prop) (g : xstate -> outcome FloatRegister)
  (op : rounding -> FloatRegister -> FloatRegister -> FloatRegister) p step :
  (forall i, p <> PA i) -> reads (fun l => R l \/ ploc p l) g ->
  (forall s, step s = (v ← g s; d ← load_float s p; store_float p (op (fe_round s) d v) s)) ->
  respects R (ploc p) step.
Proof.
  intros Hp Hg Hstep.
  apply (respects_store _ _ (fun s => v ← g s; d ← load_float s p; Done (op (fe_round s) d v))
    (fun v => store_float p v)).
  - intros s. rewrite Hstep. destruct (g s); try done. cbn [mbind outcome_bind]. by destruct (load_float s p).
  - apply reads_bind; [done|]. intros v s1 s2 Ha.
    rewrite (load_float_reads (fun l => R l \/ ploc p l) p) with (s2 := s2); [|tauto|done].
    by rewrite (ag_round _ _ _ Ha).
  - intros v. by apply store_float_respects.
Qed.

Lemma swap_respects x :
  let W l := ploc (idst x) l \/ ploc (isrc x) l in
  respects W W (fun s => temp ← load_int s x (isrc x); d ← load_int s x (idst x);
                         s ← store_int (isrc x) d s; store_int (idst x) temp s).
Proof.
  intros W. assert (HW : forall l, W l \/ ~ W l).
  { intros l. unfold W. destruct (ploc_dec (idst x) l), (ploc_dec (isrc x) l); tauto. }
  apply (respects_store _ _ (fun s => temp ← load_int s x (isrc x); d ← load_int s x (idst x); Done (temp, d))
    (fun '(temp, d) s => s ← store_int (isrc x) d s; store_int (idst x) temp s)).
  - intros s. destruct (load_int s x (isrc x)); try done. cbn [mbind outcome_bind].
    by destruct (load_int s x (idst x)).
  - unfold W. apply reads_bind; [apply load_int_reads; tauto|]. intros temp.
    apply reads_bind; [apply load_int_reads; tauto|]. intros d. apply reads_const.
  - intros [temp d]. apply respects_seq.
    + eapply (respects_mono (ploc (isrc x)) (ploc (isrc x))); [done|apply ploc_dec|apply store_int_respects|..];
        intros l Hl; unfold W; tauto.
    + eapply (respects_mono (ploc (idst x)) (ploc (idst x))); [done|apply ploc_dec|apply store_int_respects|..];
        intros l Hl; unfold W; tauto.
Qed.

Lemma respects_ext R W step step' : (forall s, step' s = step s) -> respects R W step -> respects R W step'.
Proof.
  intros E [F L]. split; [intros s s' H; rewrite E in H; by apply F|]. intros s1 s2 s1' Ha H.
  rewrite E in H. destruct (L _ _ _ Ha H) as (s2' & H2 & Ha2). exists s2'. by rewrite E.
Qed.

Lemma is_f_not_a p : is_f p \/ is_e p -> forall i, p <> PA i.
Proof. intros H i ->. by destruct H. Qed.

Lemma skip_respects R W step : (forall s, step s = Done s) -> respects R W step.
Proof.
  intros E. split.
  - intros s s' H. rewrite E in H. injection H as <-. apply agree_refl.
  - intros s1 s2 s1' Ha H. rewrite E in H. injection H as <-. exists s2. split; [apply E|].
    eapply agree_mono; [exact Ha|]. intros l Hl. by right.
Qed.

Lemma istore_respects x :
  respects (fun l => ploc (idst x) l \/ ploc (isrc x) l) (fun l => l = LMem)
    (fun s => d ← load_int s x (idst x); v ← load_int s x (isrc x);
              store64 (Z.land (add64 d (imm x)) (memMask x)) v s).
Proof.
  apply (respects_store _ _ (fun s => d ← load_int s x (idst x); v ← load_int s x (isrc x); Done (d, v))
    (fun '(d, v) => store64 (Z.land (add64 d (imm x)) (memMask x)) v)).
  - intros s. destruct (load_int s x (idst x)); try done. cbn [mbind outcome_bind].
    by destruct (load_int s x (isrc x)).
  - apply reads_bind; [apply load_int_reads; tauto|]. intros d.
    apply reads_bind; [apply load_int_reads; tauto|]. intros v. apply reads_const.
  - intros [d v]. apply store64_respects.
Qed.

Lemma neg_respects x :
  respects (ploc (idst x)) (ploc (idst x))
    (fun s => d ← load_int s x (idst x); store_int (idst x) (add64 (not64 d) 1) s).
Proof.
  apply (respects_store _ _ (fun s => load_int s x (idst x)) (fun d => store_int (idst x) (add64 (not64 d) 1))).
  - done.
  - apply load_int_reads. tauto.
  - intros d. apply store_int_respects.
Qed.

(** A float register and a memory operand. *)
Lemma fmem_reads x (R : loc -> Prop) (k : FloatRegister -> FloatRegister) :
  (forall l, ploc (isrc x) l -> R l) -> R LMem ->
  reads R (fun s => addr ← getScratchpadAddress x s; v ← load_int_pair s addr; Done (k v)).
Proof.
  intros H1 H2. apply reads_bind; [by apply getScratchpadAddress_reads|]. intros addr.
  apply reads_bind; [by apply load_int_pair_reads|]. intros v. apply reads_const.
Qed.

Lemma exec1_from m x R W (g : xstate -> outcome xstate) :
  (forall s, execute_one m x 0 s = (st ← g s; Done (0, st))) -> respects R W g ->
  (forall l, W l \/ ~ W l) -> (forall l, R l -> ibc_reads x l \/ ibc_writes x l) ->
  (forall l, W l -> ibc_writes x l) -> respects (ibc_reads x) (ibc_writes x) (exec1 m x).
Proof.
  intros E Hg HW H1 H2. eapply respects_mono; [apply ibc_writes_dec|exact HW| |exact H1|exact H2].
  eapply respects_ext; [|exact Hg]. intros s. unfold exec1. rewrite E. by destruct (g s).
Qed.

Ltac touch_cover E := intros ?; unfold ibc_reads, ibc_writes; rewrite E; cbn; tauto.
Ltac by_shape E lem :=
  eapply exec1_from; [intros ?; unfold execute_one; rewrite E; reflexivity | apply lem
    | first [apply ploc_dec | apply ibc_writes_dec] | touch_cover E | touch_cover E].

(** A float instruction: its operand, and the operation on the register. *)
Lemma float_shape m x (R : loc -> Prop) (g : xstate -> outcome FloatRegister)
  (op : rounding -> FloatRegister -> FloatRegister -> FloatRegister) :
  is_f (idst x) \/ is_e (idst x) ->
  (forall s, execute_one m x 0 s =
     (st ← (v ← g s; d ← load_float s (idst x); store_float (idst x) (op (fe_round s) d v) s); Done (0, st))) ->
  reads (fun l => R l \/ ploc (idst x) l) g -> (forall l, R l -> ibc_reads x l \/ ibc_writes x l) ->
  (forall l, ploc (idst x) l -> ibc_writes x l) -> respects (ibc_reads x) (ibc_writes x) (exec1 m x).
Proof.
  intros Hp E Hg HR HW. eapply exec1_from; [exact E| |apply ploc_dec|exact HR|exact HW].
  eapply (float_respects _ g op); [by apply is_f_not_a|done|done].
Qed.

Definition both_lanes (op : Z -> Z -> Z) (d v : FloatRegister) : FloatRegister :=
  mkFloat (op (lo d) (lo v)) (op (hi d) (hi v)).

Ltac float_eq E :=
  let s := fresh "s" in
  intros s; unfold execute_one, flt; rewrite E; cbn [mbind outcome_bind];
  first [ reflexivity | by destruct (getScratchpadAddress _ s); cbn [mbind outcome_bind]; [destruct (load_int_pair s _)|..] ].

Lemma exec1_respects m x :
  operands_wf x -> type x <> CBRANCH -> type x <> CFROUND ->
  respects (ibc_reads x) (ibc_writes x) (exec1 m x).
Proof.
  intros Hw Hb Hr. unfold operands_wf in Hw. destruct (type x) eqn:E; try done.
  all: try by_shape E alu_respects.
  all: try by_shape E alu_mem_respects.
  all: try by_shape E neg_respects.
  all: try (apply skip_respects; intros s; unfold exec1, execute_one; by rewrite E).
  - eapply exec1_from; [intros s; unfold execute_one; rewrite E; reflexivity|apply swap_respects|..];
      [|touch_cover E|touch_cover E]. intros l. destruct (ploc_dec (idst x) l), (ploc_dec (isrc x) l); tauto.
  - eapply (float_shape _ _ (fun _ => False) (fun _ => Done (mkFloat 0 0)) (fun _ d _ => mkFloat (hi d) (lo d)));
      [done|float_eq E|done|done|touch_cover E].
  - eapply (float_shape _ _ (fun _ => False) (fun s => load_float s (isrc x)) (fun md => both_lanes (fadd md)));
      [tauto|float_eq E| |done|touch_cover E].
    apply load_float_reads. intros l. destruct Hw as [_ Hw]. by destruct (isrc x).
  - eapply (float_shape _ _ (fun l => ploc (isrc x) l \/ l = LMem)
      (fun s => addr ← getScratchpadAddress x s; v ← load_int_pair s addr; Done v) (fun md => both_lanes (fadd md)));
      [tauto|float_eq E| |touch_cover E|touch_cover E]. apply (fmem_reads _ _ (fun v => v)); tauto.
  - eapply (float_shape _ _ (fun _ => False) (fun s => load_float s (isrc x)) (fun md => both_lanes (fsub md)));
      [tauto|float_eq E| |done|touch_cover E].
    apply load_float_reads. intros l. destruct Hw as [_ Hw]. by destruct (isrc x).
  - eapply (float_shape _ _ (fun l => ploc (isrc x) l \/ l = LMem)
      (fun s => addr ← getScratchpadAddress x s; v ← load_int_pair s addr; Done v) (fun md => both_lanes (fsub md)));
      [tauto|float_eq E| |touch_cover E|touch_cover E]. apply (fmem_reads _ _ (fun v => v)); tauto.
  - eapply (float_shape _ _ (fun _ => False) (fun _ => Done (mkFloat 0 0))
      (fun _ d _ => mkFloat (scale_bits (lo d)) (scale_bits (hi d))));
      [tauto|float_eq E|done|done|touch_cover E].
  - eapply (float_shape _ _ (fun _ => False) (fun s => load_float s (isrc x)) (fun md => both_lanes (fmul md)));
      [tauto|float_eq E| |done|touch_cover E].
    apply load_float_reads. intros l. destruct Hw as [_ Hw]. by destruct (isrc x).
  - eapply (float_shape _ _ (fun l => ploc (isrc x) l \/ l = LMem)
      (fun s => addr ← getScratchpadAddress x s; v ← load_int_pair s addr; Done (mask_float m v))
      (fun md => both_lanes (fdiv md)));
      [tauto|float_eq E| |touch_cover E|touch_cover E]. apply fmem_reads; tauto.
  - eapply (float_shape _ _ (fun _ => False) (fun _ => Done (mkFloat 0 0))
      (fun md d _ => mkFloat (fsqrt md (lo d)) (fsqrt md (hi d))));
      [tauto|float_eq E|done|done|touch_cover E].
  - eapply exec1_from; [intros s; unfold execute_one; rewrite E; reflexivity|apply istore_respects|..];
      [|touch_cover E|touch_cover E]. intros l. destruct l; first [by left | right; congruence].
Qed.

(** ** Compiled slots *)

Definition handler_of (ty : InstructionType) : handler :=
  match ty with
  | IADD_RS => h_IADD_RS | IADD_M => h_IADD_M | ISUB_R => h_ISUB_R | ISUB_M => h_ISUB_M
  | IMUL_R => h_IMUL_R | IMUL_M => h_IMUL_M | IMULH_R => h_IMULH_R | IMULH_M => h_IMULH_M
  | ISMULH_R => h_ISMULH_R | ISMULH_M => h_ISMULH_M | IMUL_RCP => h_IMUL_RCP | INEG_R => h_INEG_R
  | IXOR_R => h_IXOR_R | IXOR_M => h_IXOR_M | IROR_R => h_IROR_R | IROL_R => h_IROL_R
  | ISWAP_R => h_ISWAP_R | FSWAP_R => h_FSWAP_R | FADD_R => h_FADD_R | FADD_M => h_FADD_M
  | FSUB_R => h_FSUB_R | FSUB_M => h_FSUB_M | FSCAL_R => h_FSCAL_R | FMUL_R => h_FMUL_R
  | FDIV_M => h_FDIV_M | FSQRT_R => h_FSQRT_R | CBRANCH => h_CBRANCH | CFROUND => h_CFROUND
  | ISTORE => h_ISTORE | NOP => h_NOP
  end.

(** The JIT's opcode table and the interpreter's name the same instructions. *)
Lemma handler_at op h :
  at_index kCompileHandlers op = Done h -> h = handler_of (resolveInstructionType op).
Proof.
  assert (E : kCompileHandlers = handler_of <$> kTypeOfEngine) by reflexivity.
  intros [_ H]%at_index_Done. rewrite E, list_lookup_fmap in H. unfold resolveInstructionType.
  apply fmap_Some in H as (ty & H & ->). by rewrite (list_lookup_total_correct _ _ _ H).
Qed.

Abbreviation type_of instr := (resolveInstructionType (opcode instr)).

(** The registers whose [register_usage_] entry an instruction changes. *)
Definition updates (instr : Instruction) (k : nat) : bool :=
  match type_of instr with
  | IADD_RS | IADD_M | ISUB_R | ISUB_M | IMUL_R | IMUL_M | IMULH_R | IMULH_M | ISMULH_R | ISMULH_M
  | INEG_R | IXOR_R | IXOR_M | IROR_R | IROL_R => (k =? reg8 (dst instr))%nat
  | IMUL_RCP => negb (isZeroOrPowerOf2_64 (getImm32 instr)) && (k =? reg8 (dst instr))%nat
  | ISWAP_R => negb (reg8 (src instr) =? reg8 (dst instr))%nat &&
               ((k =? reg8 (dst instr))%nat || (k =? reg8 (src instr))%nat)
  | _ => false
  end.
Definition is_cbranch_instr (instr : Instruction) : bool := bool_decide (type_of instr = CBRANCH).

(** The live part of the slot, given the usage entry of its destination. *)
Definition lower (u : Z) (instr : Instruction) : InstructionByteCode :=
  match handler_of (type_of instr) instr 0 (replicate 8 u) ibc_init with
  | Done (_, x) => live x
  | _ => mkIBC PNull PNull 0 NOP 0 0
  end.

Lemma use_lookup d i usage k :
  length usage = 8%nat -> (d < 8)%nat -> use d i usage !!! k = if (k =? d)%nat then i else usage !!! k.
Proof.
  intros Hl Hd. unfold use. destruct (Nat.eqb_spec k d) as [->|Hne].
  - apply list_lookup_total_insert_eq. lia.
  - by apply list_lookup_total_insert_ne.
Qed.

Lemma compile_usage instr i usage ibc usage' x :
  compile_instruction instr i usage ibc = Done (usage', x) -> length usage = 8%nat ->
  length usage' = 8%nat /\ forall k, (k < 8)%nat ->
    usage' !!! k = if is_cbranch_instr instr || updates instr k then i else usage !!! k.
Proof.
  unfold compile_instruction. intros E Hl. apply bind_Done in E as (h & ->%handler_at & E).
  pose proof (reg8_lt (dst instr)) as Hd. pose proof (reg8_lt (src instr)) as Hs.
  unfold is_cbranch_instr, updates. destruct (type_of instr) eqn:Hty; cbn [handler_of] in E; cbn [orb bool_decide].
  all: repeat match goal with |- context [bool_decide (?x = ?y)] => change (bool_decide (x = y)) with false end.
  all: cbn [orb].
  all: try (apply Done_pair in E as [<- _]; split; [unfold use; by rewrite ?length_insert|];
    intros k Hk; by rewrite ?use_lookup by done).
  - unfold h_IMUL_RCP in E. destruct (negb (isZeroOrPowerOf2_64 _)).
    + apply bind_Done in E as (rcp & _ & E). apply Done_pair in E as [<- _].
      split; [unfold use; by rewrite length_insert|]. intros k Hk. by rewrite use_lookup.
    + by apply Done_pair in E as [<- _].
  - unfold h_ISWAP_R in E. destruct (negb (_ =? _)%nat); [|by apply Done_pair in E as [<- _]].
    apply Done_pair in E as [<- _]. assert (length (use (reg8 (dst instr)) i usage) = 8%nat) by (unfold use; by rewrite length_insert).
    split; [unfold use at 1; by rewrite length_insert|]. intros k Hk. rewrite !use_lookup by done. cbn [andb].
    by destruct (k =? reg8 (src instr))%nat, (k =? reg8 (dst instr))%nat.
  - apply Done_pair in E as [<- _]. split; [done|]. intros k Hk. rewrite lookup_total_replicate_2 by done.
    by rewrite bool_decide_true.
Qed.

Lemma compile_slot instr i usage ibc usage' x :
  compile_instruction instr i usage ibc = Done (usage', x) ->
  live x = lower (usage !!! reg8 (dst instr)) instr.
Proof.
  unfold compile_instruction. intros E. apply bind_Done in E as (h & Hat & E).
  set (u := usage !!! reg8 (dst instr)).
  pose proof (at_index_Forall _ _ _ _ handlers_fresh Hat instr i usage ibc ibc_init) as Hf.
  rewrite E in Hf. apply handler_at in Hat as ->. unfold lower. revert Hf. clear E.
  destruct (type_of instr); cbn [handler_of];
    try (cbn -[compile_mem_op compile_alu_reg reg8]; congruence).
  - unfold h_IMUL_RCP. destruct (negb _); [destruct (randomx_reciprocal _)|]; cbn; intros Hf;
      first [discriminate Hf | by injection Hf].
  - unfold h_ISWAP_R. destruct (negb _); cbn; intros Hf; by injection Hf.
  - cbn -[reg8 Z.land Z.lor shl64 not64 signExtend2sCompl live].
    replace (replicate 8 u !!! reg8 (dst instr)) with u
      by (symmetry; apply lookup_total_replicate_2, reg8_lt).
    intros Hf. by injection Hf.
Qed.

(** Other instructions than branches do not depend on the usage. *)
Lemma lower_usage u u' instr : type_of instr <> CBRANCH -> lower u instr = lower u' instr.
Proof.
  unfold lower. intros H. destruct (type_of instr); try done; cbn [handler_of].
  - unfold h_IMUL_RCP. destruct (negb _); [destruct (randomx_reciprocal _)|]; done.
  - unfold h_ISWAP_R. by destruct (negb _).
Qed.

Lemma lower_type_live u instr x :
  handler_of (type_of instr) instr 0 (replicate 8 u) ibc_init = Done x -> type (lower u instr) = type x.2.
Proof. unfold lower. intros ->. destruct x as [u' x]. unfold live. cbn. by destruct (type x) eqn:E. Qed.

(** The slot's shape, by the instruction. *)
Ltac lower_cases :=
  unfold lower;
  match goal with |- context [handler_of (type_of ?instr)] => destruct (type_of instr) eqn:?; cbn [handler_of] end;
  try match goal with
  | |- context [h_IMUL_RCP] => unfold h_IMUL_RCP; destruct (negb _); [destruct (randomx_reciprocal _)|]
  | |- context [h_ISWAP_R] => unfold h_ISWAP_R; destruct (negb (_ =? _)%nat) eqn:?
  | |- context [h_FSWAP_R] => unfold h_FSWAP_R; cbv zeta; destruct (_ <? 4)%nat eqn:?
  end;
  cbn -[reg8 reg4 compile_mem_op compile_alu_reg level_ok];
  try match goal with
  | |- context [compile_mem_op] =>
      unfold compile_mem_op; destruct (negb (bool_decide (PR _ = PR _))) eqn:?; cbn -[reg8 level_ok]
  | |- context [compile_alu_reg] =>
      unfold compile_alu_reg; destruct (negb (bool_decide (PR _ = PR _))) eqn:?; cbn -[reg8 level_ok]
  end.

Lemma lower_branch u instr : type (lower u instr) = CBRANCH <-> type_of instr = CBRANCH.
Proof. lower_cases; split; congruence. Qed.
Lemma lower_round u instr : type (lower u instr) = CFROUND <-> type_of instr = CFROUND.
Proof. lower_cases; split; congruence. Qed.

Lemma level_ok_L3 : level_ok kScratchpadL3Mask.
Proof. unfold level_ok. auto. Qed.

Lemma lower_operands u instr : operands_wf (lower u instr).
Proof.
  pose proof (reg8_lt (dst instr)). pose proof (reg8_lt (src instr)).
  pose proof (reg4_lt (dst instr)). pose proof (reg4_lt (src instr)).
  pose proof (mem_level_ok instr). pose proof level_ok_L3.
  unfold operands_wf, is_src, is_base. lower_cases; try tauto.
  - left. by apply Nat.ltb_lt.
  - right. lia.
  - destruct (_ <? 14); tauto.
Qed.

(** ** Footprints cover what the slots touch *)

Definition normal (instr : Instruction) : Prop := 0 <= dst instr < 8 /\ 0 <= src instr < 8.

Lemma reg_bit_test x k : 0 <= x < 8 -> Z.testbit (reg_bit x) (Z.of_nat k) = bool_decide (k = Z.to_nat x).
Proof.
  intros Hx. unfold reg_bit. rewrite wrap_small.
  - rewrite Z.shiftl_1_l, Z.pow2_bits_eqb by lia. apply Bool.eq_iff_eq_true.
    rewrite Z.eqb_eq, bool_decide_eq_true. lia.
  - rewrite Z.shiftl_1_l. split; [lia|]. apply Z.pow_lt_mono_r; lia.
Qed.
Lemma reg8_normal x : 0 <= x < 8 -> reg8 x = Z.to_nat x.
Proof. intros H. unfold reg8. by rewrite Z.mod_small. Qed.

Lemma bit_ploc x k : 0 <= x < 8 -> k = Z.to_nat x -> Z.testbit (reg_bit x) (Z.of_nat k) = true.
Proof. intros H ->. rewrite reg_bit_test by done. by apply bool_decide_eq_true. Qed.

Lemma footprint_covers u instr l :
  normal instr ->
  (ibc_reads (lower u instr) l -> fp_reads (footprint_of instr) l = true) /\
  (ibc_writes (lower u instr) l -> fp_writes (footprint_of instr) l = true).
Proof.
  intros [Hd Hs]. assert (H4 : 0 <= dst instr mod 4 < 8) by (pose proof (Z.mod_pos_bound (dst instr) 4); lia).
  unfold footprint_of, ibc_reads, ibc_writes. 
  pose proof (reg8_normal _ Hd) as Ed. pose proof (reg8_normal _ Hs) as Es.
  pose proof (bit_ploc _ _ Hd Ed) as Bd. pose proof (bit_ploc _ _ Hs Es) as Bs.
  pose proof (bit_ploc _ (reg4 (dst instr)) H4 eq_refl) as B4.
  assert (Hf : (dst instr <? 4) = (reg8 (dst instr) <? 4)%nat) by (rewrite Ed; apply Bool.eq_iff_eq_true;
    rewrite Z.ltb_lt, Nat.ltb_lt; lia).
  assert (Bf : (dst instr <? 4) = false -> Z.testbit (reg_bit (dst instr - 4)) (Z.of_nat (reg8 (dst instr) - 4)) = true).
  { intros H%Z.ltb_ge. apply bit_ploc; [lia|]. rewrite Ed. lia. }
  clear Ed Es. lower_cases; cbn -[reg8 reg4]; try match goal with H : (_ <? 4)%nat = _ |- _ => rewrite H in Hf end.
  all: split; intros H; repeat match goal with H : _ \/ _ |- _ => destruct H | H : _ /\ _ |- _ => destruct H end; try done.
  all: subst l; cbn -[reg8 reg4]; rewrite ?Hf; cbn -[reg8 reg4]; rewrite ?Z.lor_spec, ?Bd, ?Bs, ?B4, ?orb_true_r;
    first [done | by apply Bf].
Qed.

Lemma footprint_barrier instr : is_barrier (footprint_of instr) = false ->
  type_of instr <> CBRANCH /\ type_of instr <> CFROUND.
Proof. unfold footprint_of. split; intros E; by rewrite E in H. Qed.

(** Instructions without a hazard between them may run in either order. *)
Lemma no_hazard_commute m u1 u2 x y s s' :
  normal x -> normal y -> hasHazard (footprint_of x) (footprint_of y) = false ->
  (s ← exec1 m (lower u1 x) s; exec1 m (lower u2 y) s) = Done s' ->
  (s ← exec1 m (lower u2 y) s; exec1 m (lower u1 x) s) = Done s'.
Proof.
  intros Hx Hy (Bx & By & Hi)%hazard_free.
  apply footprint_barrier in Bx as [Bx1 Bx2]. apply footprint_barrier in By as [By1 By2].
  apply (respects_commute (ibc_reads (lower u1 x)) _ (ibc_reads (lower u2 y)) _ _ _ s s' (ibc_writes_dec (lower u1 x)) (ibc_writes_dec (lower u2 y))).
  - apply exec1_respects; [apply lower_operands|by rewrite lower_branch|by rewrite lower_round].
  - apply exec1_respects; [apply lower_operands|by rewrite lower_branch|by rewrite lower_round].
  - intros l Hw%(footprint_covers u1 x l Hx). destruct (proj1 (Hi l) Hw) as [H1 H2].
    split; intros H%(footprint_covers u2 y l Hy); congruence.
  - intros l Hw%(footprint_covers u2 y l Hy). destruct (proj2 (Hi l) Hw) as [H1 H2].
    split; intros H%(footprint_covers u1 x l Hx); congruence.
Qed.
