(* ===== verification/JitSim.v ===== *)
(** * The scheduled program simulates the original

    For the emission order of the JIT's schedulers (src/src/jit_compiler_a64.cpp): between two branches or
    branch targets both programs run the same instructions in an order that does not matter, and at those
    points they are in the same state. *)

From stdpp Require Import list sorting.
From S2P Require Import Prelude RandomX Float Bytecode BytecodeSafety BytecodeTermination BytecodeStale Footprint JitSchedule JitEquiv.

(** ** Branch targets *)

(** The last instruction before [i] that is a CBRANCH or that [w] says changes register [k]; -1 when there
    is none. *)
Fixpoint last_use (w : Instruction -> nat -> bool) (program : list Instruction) (k i : nat) : Z :=
  match i with
  | O => -1
  | S j => if is_cbranch_instr (program !!! j) || w (program !!! j) k then Z.of_nat j
           else last_use w program k j
  end.

Definition hit (w : Instruction -> nat -> bool) (program : list Instruction) (k j : nat) : bool :=
  is_cbranch_instr (program !!! j) || w (program !!! j) k.

Definition is_last_use w program (k i : nat) (t : Z) : Prop :=
  -1 <= t < Z.of_nat i /\ (0 <= t -> hit w program k (Z.to_nat t) = true) /\
  forall j, t < Z.of_nat j < Z.of_nat i -> hit w program k j = false.

Lemma last_use_spec w program k i : is_last_use w program k i (last_use w program k i).
Proof.
  induction i as [|i IH]; cbn [last_use]; [split_and!; lia|].
  change (is_cbranch_instr (program !!! i) || w (program !!! i) k) with (hit w program k i).
  destruct (hit w program k i) eqn:E; [split_and!; try lia; by rewrite Nat2Z.id|].
  destruct IH as (H1 & H2 & H3). split_and!; [lia|lia|done|]. intros j Hj.
  destruct (decide (j = i)) as [->|]; [done|]. apply H3. lia.
Qed.

Lemma last_use_unique w program k i t : is_last_use w program k i t -> last_use w program k i = t.
Proof.
  intros (H1 & H2 & H3). destruct (last_use_spec w program k i) as (K1 & K2 & K3).
  destruct (Z.lt_trichotomy t (last_use w program k i)) as [Hlt|[->|Hlt]]; [|done|]; exfalso.
  - specialize (H3 (Z.to_nat (last_use w program k i))). rewrite K2 in H3 by lia. discriminate H3; lia.
  - specialize (K3 (Z.to_nat t)). rewrite H2 in K3 by lia. discriminate K3; lia.
Qed.

(** What the compiler puts into each slot. *)
Lemma compile_prefix program slots n usage bc :
  (n <= 256)%nat -> length program = 256%nat ->
  ofoldl (compile_step program) (replicate 8 (-1), slots) (seqZ 0 (Z.of_nat n)) = Done (usage, bc) ->
  length usage = 8%nat /\ (forall k, (k < 8)%nat -> usage !!! k = last_use updates program k n) /\
  forall i, (i < n)%nat -> exists x, bc !! i = Some x /\
    live x = lower (last_use updates program (reg8 (dst (program !!! i))) i) (program !!! i).
Proof.
  revert usage bc. induction n as [|n IH]; intros usage bc Hn Hp.
  - cbn. intros E. apply Done_pair in E as [<- <-]. split; [done|]. split; [|lia].
    intros k Hk. by apply (lookup_total_replicate_2 (A := Z) 8 (-1) k).
  - replace (Z.of_nat (S n)) with (Z.of_nat n + 1) by lia. rewrite seqZ_app, ofoldl_app by lia.
    intros E. apply bind_Done in E as ([usage0 bc0] & E0 & E). rewrite Z.add_0_l in E.
    change (seqZ (Z.of_nat n) 1) with [Z.of_nat n] in E. cbn [ofoldl] in E.
    apply bind_Done in E as ([usage1 bc1] & E & E1). apply Done_pair in E1 as [<- <-].
    destruct (IH _ _ ltac:(lia) Hp E0) as (Hl & Hu & Hs). unfold compile_step in E.
    apply bind_Done in E as (instr & Ei & E). apply bind_Done in E as (slot & Es & E).
    apply bind_Done in E as ([u x] & Ec & E). apply Done_pair in E as [<- <-].
    apply at_index_Done in Ei as [_ Ei]. rewrite Nat2Z.id in Ei. apply list_lookup_total_correct in Ei as Ei'.
    destruct (compile_usage _ _ _ _ _ _ Ec Hl) as [Hl' Hu']. split; [done|]. split.
    + intros k Hk. cbn [last_use]. rewrite Ei', Hu' by done. destruct (_ || _); [done|by apply Hu].
    + intros i Hi. rewrite Nat2Z.id. apply at_index_Done in Es as [_ Es%lookup_lt_Some]. rewrite Nat2Z.id in Es.
      destruct (decide (i = n)) as [->|Hne].
      * exists x. rewrite list_lookup_insert_eq by done. split; [done|].
        rewrite (compile_slot _ _ _ _ _ _ Ec), Ei', Hu; [done|]. apply reg8_lt.
      * rewrite list_lookup_insert_ne by done. apply Hs. lia.
Qed.

Lemma compile_slots program slots usage bc :
  length program = 256%nat -> compile_program program slots = Done (usage, bc) ->
  forall i, (i < 256)%nat -> exists x, at_index bc (Z.of_nat i) = Done x /\
    live x = lower (last_use updates program (reg8 (dst (program !!! i))) i) (program !!! i).
Proof.
  intros Hp E i Hi. destruct (compile_prefix program slots 256 usage bc) as (_ & _ & H); [done|done|exact E|].
  destruct (H i Hi) as (x & Hx & Hl). exists x. split; [|done]. apply at_index_Done. rewrite Nat2Z.id. by split; [lia|].
Qed.

(** ** Points that a safe order does not move *)

Lemma filter_all (P : nat -> Prop) `{!forall x, Decision (P x)} l : Forall P l -> base.filter P l = l.
Proof. induction 1 as [|x l Hx _ IH]; [done|]. rewrite filter_cons_True by done. by rewrite IH. Qed.
Lemma filter_none (P : nat -> Prop) `{!forall x, Decision (P x)} l :
  Forall (fun x => ~ P x) l -> base.filter P l = [].
Proof. induction 1 as [|x l Hx _ IH]; [done|]. by rewrite filter_cons_False. Qed.

Section cuts.
Context (fp : list InstrFootprint) (fixed : nat -> Prop) (size : nat) (order : list nat).
Context (Hsafe : safe_order fp fixed size order).

Definition pinned (x : nat) : Prop := is_barrier (fp !!! x) = true \/ fixed x.

(** The instructions before [p] are emitted before those from [p] on. *)
Definition cut (p : nat) : Prop := (p <= size)%nat /\ take p order ≡ₚ seq 0 p.

Lemma order_length : length order = size.
Proof. by rewrite (Permutation_length (so_perm _ _ _ _ Hsafe)), length_seq. Qed.

Lemma pinned_split x : (x < size)%nat -> pinned x ->
  exists k1 k2, order = k1 ++ x :: k2 /\ k1 ≡ₚ seq 0 x.
Proof.
  intros Hx Hpin. destruct Hsafe as [Hperm Hsort].
  destruct (list_elem_of_split order x) as (k1 & k2 & E).
  { rewrite Hperm. apply elem_of_seq. lia. }
  exists k1, k2. split; [done|]. rewrite E in Hsort, Hperm.
  apply StronglySorted_app in Hsort as (H12 & _ & H2).
  assert (Hnot : forall y, ~ movable fp fixed x y /\ ~ movable fp fixed y x).
  { intros y. split; intros (Hh & ? & ?); (destruct Hpin as [Hb|]; [|done]); unfold hasHazard in Hh;
      rewrite Hb in Hh; cbn in Hh; rewrite ?orb_true_r in Hh; discriminate. }
  assert (H1 : Forall (fun y => (y < x)%nat) k1).
  { apply list.Forall_forall. intros y Hy. destruct (H12 y x Hy (list_elem_of_here _ _)) as [?|Hm]; [done|].
    by apply Hnot in Hm. }
  assert (H2' : Forall (fun y => (x < y)%nat) k2).
  { inversion H2 as [|? ? ? HF]; subst. eapply list.Forall_impl; [exact HF|]. intros y [?|Hm]; [done|]. by apply Hnot in Hm. }
  assert (Hf : base.filter (fun y => y < x)%nat (k1 ++ x :: k2) ≡ₚ base.filter (fun y => y < x)%nat (seq 0 size))
    by (by rewrite Hperm).
  replace size with (x + (size - x))%nat in Hf by lia. rewrite seq_app, !list.filter_app in Hf. cbn [Nat.add] in Hf.
  rewrite (filter_all _ k1) in Hf by done.
  rewrite (filter_none _ (x :: k2)) in Hf
    by (constructor; [lia|eapply list.Forall_impl; [exact H2'|]; cbn; intros; lia]).
  rewrite (filter_all _ (seq 0 x)) in Hf by (apply list.Forall_forall; intros y Hy%elem_of_seq; cbn; lia).
  rewrite (filter_none _ (seq x (size - x))) in Hf by (apply list.Forall_forall; intros y Hy%elem_of_seq; cbn; lia).
  by rewrite !app_nil_r in Hf.
Qed.

Lemma pinned_cut x : (x < size)%nat -> pinned x -> cut x /\ cut (S x) /\ order !! x = Some x.
Proof.
  intros Hx Hpin. destruct (pinned_split x Hx Hpin) as (k1 & k2 & E & Hp).
  assert (Hl : length k1 = x) by (by rewrite (Permutation_length Hp), length_seq).
  assert (T : take x order = k1) by (by rewrite E, take_app_length').
  split_and!; [split; [lia|by rewrite T]| |by rewrite E, lookup_app_r, Hl, Nat.sub_diag by lia].
  split; [lia|]. replace (S x) with (x + 1)%nat by lia.
  rewrite E, take_app_add', seq_app by done. cbn [take]. by rewrite Hp.
Qed.

Lemma cut_0 : cut 0.
Proof. split; [lia|done]. Qed.

(** Between two cuts. *)
Definition segment (p q : nat) : list nat := take (q - p) (drop p order).

Lemma segment_perm p q : cut p -> cut q -> (p <= q)%nat -> segment p q ≡ₚ seq p (q - p).
Proof.
  intros [_ Hp] [Hq' Hq] Hle. unfold segment. apply (Permutation_app_inv_l (take p order)).
  replace q with (p + (q - p))%nat in Hq by lia. rewrite <- take_take_drop in Hq.
  rewrite Hq, Hp. rewrite seq_app. done.
Qed.

Lemma segment_sorted p q : StronglySorted (may_precede (movable fp fixed)) (segment p q).
Proof.
  pose proof (so_sorted _ _ _ _ Hsafe) as H. rewrite <- (take_drop p order) in H.
  apply StronglySorted_app in H as (_ & _ & H). rewrite <- (take_drop (q - p) (drop p order)) in H.
  by apply StronglySorted_app in H as (_ & H & _).
Qed.

Lemma segment_lookup p q i : (p <= i < q)%nat -> segment p q !! (i - p)%nat = order !! i.
Proof. intros Hi. unfold segment. rewrite lookup_take_lt, lookup_drop by lia. f_equal. lia. Qed.

Lemma segment_length p q : (p <= q <= size)%nat -> length (segment p q) = (q - p)%nat.
Proof. intros H. unfold segment. rewrite length_take, length_drop, order_length. lia. Qed.

(** What stands between two cuts comes from between them. *)
Lemma segment_range p q i x : cut p -> cut q -> (p <= i < q)%nat -> order !! i = Some x -> (p <= x < q)%nat.
Proof.
  intros Hp Hq Hi Hx. rewrite <- (segment_lookup p q i) in Hx by done.
  apply list_elem_of_lookup_2 in Hx. rewrite (segment_perm p q Hp Hq) in Hx by lia.
  apply elem_of_seq in Hx. lia.
Qed.

End cuts.

(** ** The simulation *)

Section sim.
Context (m : Z * Z) (program : list Instruction) (fixed : nat -> Prop) (order : list nat).
Context (bc bc' : list InstructionByteCode).
Let fp := footprints program 256.
Let program' := reorder order program.
Context (Hlen : length program = 256%nat) (Hnormal : Forall normal program).
Context (Hsafe : safe_order fp fixed 256 order).

Let branch (b : nat) : Prop := is_cbranch_instr (program !!! b) = true.
Let creg (b : nat) : nat := reg8 (dst (program !!! b)).

(** The slots, and that branch targets do not move. *)
Context (Hbc : forall i, (i < 256)%nat -> exists x, at_index bc (Z.of_nat i) = Done x /\
  live x = lower (last_use updates program (reg8 (dst (program !!! i))) i) (program !!! i)).
Context (Hbc' : forall i, (i < 256)%nat -> exists x, at_index bc' (Z.of_nat i) = Done x /\
  live x = lower (last_use updates program' (reg8 (dst (program' !!! i))) i) (program' !!! i)).
Context (Htarget : forall b t, (b < 256)%nat -> branch b ->
  last_use updates program (creg b) b = Z.of_nat t -> pinned fp fixed t).

Lemma fp_at i : (i < 256)%nat -> fp !!! i = footprint_of (program !!! i).
Proof.
  intros Hi. unfold fp, footprints. apply list_lookup_total_correct.
  rewrite list_lookup_fmap, lookup_seq_lt by done. done.
Qed.
Lemma normal_at i : (i < 256)%nat -> normal (program !!! i).
Proof.
  intros Hi. destruct (lookup_lt_is_Some_2 program i) as [x Hx]; [lia|].
  rewrite (list_lookup_total_correct _ _ _ Hx). by apply (Forall_lookup_1 _ _ _ _ Hnormal Hx).
Qed.
Lemma program'_at i x : order !! i = Some x -> program' !!! i = program !!! x.
Proof. intros H. apply list_lookup_total_correct. unfold program', reorder. by rewrite list_lookup_fmap, H. Qed.

Lemma branch_barrier b : (b < 256)%nat -> branch b -> pinned fp fixed b.
Proof.
  intros Hb Hbr. left. rewrite fp_at by done. unfold footprint_of, branch, is_cbranch_instr in *.
  apply bool_decide_eq_true in Hbr. by rewrite Hbr.
Qed.

(** The instruction number [i], without the program counter. *)
Definition step (i : nat) (st : xstate) : outcome xstate := exec1 m (lower 0 (program !!! i)) st.

Lemma movable_commute x y : (x < 256)%nat -> (y < 256)%nat -> movable fp fixed x y -> commute step x y.
Proof.
  intros Hx Hy (Hh & _ & _) s s'. rewrite !fp_at in Hh by done.
  apply no_hazard_commute; [by apply normal_at|by apply normal_at|done].
Qed.

(** A slot that is not a branch runs its instruction and goes on. *)
Lemma slot_step x u i pc st :
  live x = lower u (program !!! i) -> ~ branch i ->
  execute_one m x pc st = (st ← step i st; Done (pc, st)).
Proof.
  intros Hx Hb. assert (Hty : resolveInstructionType (opcode (program !!! i)) <> CBRANCH).
  { intros E. apply Hb. by apply bool_decide_eq_true. }
  rewrite <- execute_one_live, Hx, (lower_usage u 0) by done.
  apply execute_one_exec1. by rewrite lower_branch.
Qed.

(** Straight-line code of either program. *)
Lemma straight_run code l p fuel st :
  (forall k i, l !! k = Some i -> ~ branch i /\ exists x u, at_index code (Z.of_nat (p + k)) = Done x /\
     live x = lower u (program !!! i)) ->
  (p + length l <= 256)%nat ->
  execute_from (length l + fuel) m code (Z.of_nat p) st =
    (st ← run_list step l st; execute_from fuel m code (Z.of_nat (p + length l)) st).
Proof.
  revert p st. induction l as [|i l IH]; intros p st Hl Hp; cbn [length run_list].
  - cbn. by rewrite Nat.add_0_r.
  - cbn [length] in Hp. cbn [Nat.add execute_from]. destruct (Z.ltb_spec (Z.of_nat p) 256); [|lia].
    destruct (Hl 0%nat i eq_refl) as (Hb & x & u & Hx & Hlow). rewrite Nat.add_0_r in Hx.
    rewrite Hx. cbn [mbind outcome_bind]. rewrite (slot_step x u i) by done.
    destruct (step i st) as [st1| | |]; try done. cbn [mbind outcome_bind].
    replace (Z.of_nat p + 1) with (Z.of_nat (S p)) by lia. rewrite IH; [|intros k j Hk|lia].
    + do 3 f_equal. lia.
    + replace (S p + k)%nat with (p + S k)%nat by lia. by apply Hl.
Qed.

(** The target of a branch is the same in both programs. *)
Lemma same_target b :
  (b < 256)%nat -> branch b ->
  last_use updates program' (creg b) b = last_use updates program (creg b) b.
Proof.
  intros Hb Hbr. destruct (pinned_cut _ _ _ _ Hsafe b Hb (branch_barrier b Hb Hbr)) as (Cb & _ & _).
  pose proof (Htarget b) as Ht. set (t := last_use updates program (creg b) b) in *.
  destruct (last_use_spec updates program (creg b) b) as (H1 & H2 & H3). fold t in H1, H2, H3.
  apply last_use_unique. split; [done|].
  assert (Hfrom : forall p, (Z.of_nat p = t + 1) -> cut 256 order p ->
    forall j, t < Z.of_nat j < Z.of_nat b -> hit updates program' (creg b) j = false).
  { intros p Hp Cp j Hj. destruct (lookup_lt_is_Some_2 order j) as [x Hx].
    { rewrite (order_length _ _ _ _ Hsafe). lia. }
    unfold hit. rewrite (program'_at j x Hx). apply H3.
    pose proof (segment_range 256 order p b j x Cp Cb ltac:(lia) Hx). lia. }
  destruct (decide (0 <= t)) as [Hpos|Hneg].
  - destruct (pinned_cut _ _ _ _ Hsafe (Z.to_nat t)) as (_ & Ct & Ot); [lia|apply (Ht (Z.to_nat t)); [lia|done|lia]|].
    split; [|apply (Hfrom (S (Z.to_nat t))); [lia|done]].
    intros _. unfold hit. rewrite (program'_at _ _ Ot). by apply H2.
  - split; [lia|]. apply (Hfrom 0%nat); [lia|apply cut_0].
Qed.

Lemma branch_target u instr : type_of instr = CBRANCH -> -1 <= u < 256 -> target (lower u instr) = u.
Proof.
  intros E Hu. unfold lower. rewrite E. cbn [handler_of h_CBRANCH live type]. unfold target. cbn -[wrap reg8 to_signed].
  change (u :: u :: u :: u :: u :: u :: u :: [u]) with (replicate 8 u).
  rewrite lookup_total_replicate_2 by apply reg8_lt. by apply target_of_usage.
Qed.

(** Going back goes to the target. *)
Lemma branch_exec x b pc st pc' st' :
  (b < 256)%nat -> branch b -> live x = lower (last_use updates program (creg b) b) (program !!! b) ->
  execute_one m x pc st = Done (pc', st') -> pc' = pc \/ pc' = last_use updates program (creg b) b.
Proof.
  intros Hb Hbr Hx. set (u := last_use updates program (creg b) b) in *.
  pose proof (last_use_spec updates program (creg b) b) as (Hu & _ & _). fold u in Hu.
  assert (E : type_of (program !!! b) = CBRANCH) by (by apply bool_decide_eq_true in Hbr).
  pose proof (branch_target u _ E ltac:(lia)) as Ht. apply (lower_branch u) in E.
  rewrite <- execute_one_live, Hx. unfold execute_one. rewrite E, Ht. intros H.
  apply bind_Done in H as (d & _ & H). apply bind_Done in H as (st1 & _ & H).
  apply Done_pair in H as [<- _]. destruct (_ =? 0); auto.
Qed.

Lemma next_branch p : (p <= 256)%nat ->
  exists q, (p <= q <= 256)%nat /\ (forall j, (p <= j < q)%nat -> ~ branch j) /\ (q = 256%nat \/ branch q).
Proof.
  intros Hp. remember (256 - p)%nat as n eqn:En. revert p Hp En. induction n as [|n IH]; intros p Hp En.
  - exists p. split; [lia|]. split; [lia|]. left. lia.
  - destruct (is_cbranch_instr (program !!! p)) eqn:E.
    + exists p. split; [lia|]. split; [lia|by right].
    + destruct (IH (S p)) as (q & Hq & Hn & Hb); [lia|lia|]. exists q. split; [lia|]. split; [|done].
      intros j Hj. destruct (decide (j = p)) as [->|]; [unfold branch; congruence|]. apply Hn. lia.
Qed.

Lemma end_cut : cut 256 order 256.
Proof.
  split; [lia|]. rewrite take_ge; [apply Hsafe|]. rewrite (order_length _ _ _ _ Hsafe). lia.
Qed.

(** The slots of a stretch without branches. *)
Lemma original_slots p q : (p <= q <= 256)%nat -> (forall j, (p <= j < q)%nat -> ~ branch j) ->
  forall k i, seq p (q - p) !! k = Some i -> ~ branch i /\ exists x u, at_index bc (Z.of_nat (p + k)) = Done x /\
    live x = lower u (program !!! i).
Proof.
  intros Hq Hn k i [-> Hk]%lookup_seq. split; [apply Hn; lia|].
  destruct (Hbc (p + k)) as (x & Hx & Hl); [lia|]. eauto.
Qed.
Lemma scheduled_slots p q : cut 256 order p -> cut 256 order q -> (p <= q <= 256)%nat ->
  (forall j, (p <= j < q)%nat -> ~ branch j) ->
  forall k i, segment order p q !! k = Some i -> ~ branch i /\ exists x u, at_index bc' (Z.of_nat (p + k)) = Done x /\
    live x = lower u (program !!! i).
Proof.
  intros Cp Cq Hq Hn k i Hk. pose proof (lookup_lt_Some _ _ _ Hk) as Hlt.
  rewrite (segment_length _ _ _ _ Hsafe) in Hlt by done.
  assert (Hi : order !! (p + k)%nat = Some i).
  { rewrite <- (segment_lookup order p q) by lia. by replace (p + k - p)%nat with k by lia. }
  split; [apply Hn; by apply (segment_range 256 order p q (p + k)); [..|lia|]|].
  destruct (Hbc' (p + k)) as (x & Hx & Hl); [lia|]. rewrite (program'_at _ _ Hi) in Hl. eauto.
Qed.

Lemma simulate fuel p st st' :
  cut 256 order p -> execute_from fuel m bc (Z.of_nat p) st = Done st' ->
  execute_from fuel m bc' (Z.of_nat p) st = Done st'.
Proof.
  revert p st. induction fuel as [fuel IH] using lt_wf_ind. intros p st Cp H.
  destruct (next_branch p (proj1 Cp)) as (q & Hq & Hn & Hend).
  assert (Cq : cut 256 order q).
  { destruct Hend as [->|Hb]; [apply end_cut|]. destruct (decide (q = 256%nat)) as [->|]; [apply end_cut|].
    apply (pinned_cut _ _ _ _ Hsafe); [lia|]. apply branch_barrier; [lia|done]. }
  pose proof (original_slots p q Hq Hn) as Ho. pose proof (scheduled_slots p q Cp Cq Hq Hn) as Hs.
  destruct (decide (fuel < q - p)%nat) as [Hlt|Hge].
  { exfalso. assert (E := straight_run bc (seq p fuel) p 0 st). rewrite length_seq, Nat.add_0_r in E.
    rewrite E in H; [|intros k i Hk|lia].
    - apply bind_Done in H as (st1 & _ & H). cbn [execute_from] in H. destruct (Z.ltb_spec (Z.of_nat (p + fuel)) 256); [done|lia].
    - apply Ho. apply lookup_seq in Hk. apply lookup_seq. lia. }
  replace fuel with (length (seq p (q - p)) + (fuel - (q - p)))%nat in H by (rewrite length_seq; lia).
  rewrite (straight_run bc) in H by (rewrite ?length_seq; done || lia).
  apply bind_Done in H as (st1 & Hrun & H). rewrite length_seq in H. replace (p + (q - p))%nat with q in H by lia.
  assert (Hrun' : run_list step (segment order p q) st = Done st1).
  { apply (run_reordered step (q - p) p); [by apply (segment_perm 256); [| |lia]| |done].
    pose proof (segment_sorted _ _ _ _ Hsafe p q) as Hsort.
    pose proof (segment_perm _ _ p q Cp Cq ltac:(lia)) as Hperm.
    assert (Hlt : Forall (fun i => i < 256)%nat (segment order p q)).
    { apply list.Forall_forall. intros i Hi. rewrite Hperm in Hi. apply elem_of_seq in Hi. lia. }
    clear -Hsort Hlt Hnormal Hlen. induction Hsort as [|x l Hsort IHl HF]; [constructor|].
    inversion Hlt as [|? ? Hx Hl]; subst. constructor; [by apply IHl|].
    apply list.Forall_forall. intros y Hy. rewrite list.Forall_forall in HF, Hl.
    destruct (HF y Hy) as [?|Hm]; [by left|]. right. apply movable_commute; [by apply Hl|done|done]. }
  replace fuel with (length (segment order p q) + (fuel - (q - p)))%nat
    by (rewrite (segment_length _ _ _ _ Hsafe) by done; lia).
  rewrite (straight_run bc') by (rewrite ?(segment_length _ _ _ _ Hsafe) by done; done || lia).
  rewrite Hrun'. cbn [mbind outcome_bind]. rewrite (segment_length _ _ _ _ Hsafe) by done.
  replace (p + (q - p))%nat with q by lia.
  destruct (decide (q = 256%nat)) as [->|Hq256].
  { destruct (fuel - (256 - p))%nat; exact H. }
  destruct Hend as [?|Hb]; [lia|]. destruct (decide (q - p = 0)%nat) as [E0|]; [|by apply IH; [lia|..]].
  rewrite E0, Nat.sub_0_r in *. destruct fuel as [|fuel]; cbn [execute_from] in *;
    (destruct (Z.ltb_spec (Z.of_nat q) 256); [|lia]); [done|].
  destruct (Hbc q) as (x & Hx & Hlx); [lia|]. destruct (Hbc' q) as (x' & Hx' & Hlx'); [lia|].
  assert (Pq := pinned_cut _ _ _ _ Hsafe q ltac:(lia) (branch_barrier q ltac:(lia) Hb)).
  destruct Pq as (_ & CSq & Oq). rewrite (program'_at _ _ Oq) in Hlx'. fold (creg q) in Hlx, Hlx'.
  rewrite same_target, <- Hlx in Hlx' by (done || lia). rewrite Hx'. rewrite Hx in H. cbn [mbind outcome_bind] in *.
  rewrite <- execute_one_live, Hlx', execute_one_live.
  apply bind_Done in H as ([pc2 st2] & He & H). rewrite He. cbn [mbind outcome_bind].
  destruct (branch_exec x q _ _ _ _ ltac:(lia) Hb Hlx He) as [-> | ->].
  - replace (Z.of_nat q + 1) with (Z.of_nat (S q)) in * by lia. by apply IH; [lia|..].
  - pose proof (last_use_spec updates program (creg q) q) as (Hu & _ & _).
    set (u := last_use updates program (creg q) q) in *.
    replace (u + 1) with (Z.of_nat (Z.to_nat (u + 1))) in * by lia. apply IH; [lia| |done].
    destruct (decide (0 <= u)) as [Hpos|]; [|replace (Z.to_nat (u + 1)) with 0%nat by lia; apply cut_0].
    replace (Z.to_nat (u + 1)) with (S (Z.to_nat u)) by lia.
    apply (pinned_cut _ _ _ _ Hsafe); [lia|]. apply (Htarget q); [lia|done|]. fold u. lia.
Qed.
End sim.

(** ** The anchors of the adjacent-swap scheduler *)

(** The registers a footprint says are written. *)
Definition writes_bit (instr : Instruction) (k : nat) : bool :=
  Z.testbit (int_write (footprint_of instr)) (Z.of_nat k).

(** Before every CBRANCH, the last footprint that writes its register is that of the last instruction that
    really changes it.  It is not when that footprint belongs to an ISWAP_R of a register with itself or
    to an IMUL_RCP by zero or a power of two, which do nothing. *)
Definition anchors_agree (program : list Instruction) : bool :=
  forallb (fun b => let k := reg8 (dst (program !!! b)) in
    negb (is_cbranch_instr (program !!! b)) || (last_use writes_bit program k b =? last_use updates program k b))
    (seq 0 256).

Lemma overlaps_bit x c : 0 <= c -> overlaps x (Z.shiftl 1 c) = Z.testbit x c.
Proof.
  intros Hc. unfold overlaps. rewrite Z.shiftl_1_l. destruct (Z.testbit x c) eqn:E.
  - apply negb_true_iff, Z.eqb_neq. intros H0. assert (Z.testbit (Z.land x (2 ^ c)) c = true) as Ht.
    { rewrite Z.land_spec, E, Z.pow2_bits_true by lia. done. }
    by rewrite H0, Z.bits_0 in Ht.
  - apply negb_false_iff, Z.eqb_eq, Z.bits_inj_0. intros n. rewrite Z.land_spec.
    destruct (Z.eq_dec n c) as [->|Hne]; [by rewrite E|]. by rewrite Z.pow2_bits_false, andb_false_r by lia.
Qed.

Section anchors.
Context (program : list Instruction) (Hlen : length program = 256%nat) (Hnormal : Forall normal program).
Let fp := footprints program 256.

Lemma is_cbranch_at i : (i < 256)%nat -> is_cbranch (fp !!! i) = is_cbranch_instr (program !!! i).
Proof.
  intros Hi. unfold fp. rewrite fp_at by done. unfold footprint_of, is_cbranch_instr.
  destruct (type_of (program !!! i)); try done. cbn. by destruct (_ <? 4).
Qed.

(** The backward scan inside a domain finds the last use. *)
Lemma last_writer_spec c k ds i t :
  (i <= 256)%nat -> (ds <= t)%nat -> 0 <= c -> k = Z.to_nat c ->
  last_use writes_bit program k i = Z.of_nat t -> is_cbranch_instr (program !!! t) = false ->
  (forall j, (ds <= j < i)%nat -> is_cbranch_instr (program !!! j) = false) ->
  last_writer fp c ds i = Some t.
Proof.
  intros Hi Hds Hc Hk. revert Hi. induction i as [|i IH]; cbn [last_use last_writer]; intros Hi Hu Ht Hn; [lia|].
  destruct (Nat.leb_spec ds i) as [Hle|Hgt].
  - rewrite overlaps_bit by done. rewrite (Hn i) in Hu by lia. cbn [orb] in Hu. unfold writes_bit in Hu at 1.
    unfold fp. rewrite fp_at by lia. replace (Z.of_nat k) with c in Hu by lia. destruct (Z.testbit _ c).
    + f_equal. lia.
    + apply IH; [lia|done|done|]. intros j Hj. apply Hn. lia.
  - exfalso. pose proof (last_use_spec writes_bit program k (S i)) as (Hlt & _ & _). cbn [last_use] in Hlt.
    rewrite Hu in Hlt. lia.
Qed.

Record marking (n : nat) (ds : nat) (marks : list bool) : Prop := mkMarking {
  mk_length : length marks = 256%nat;
  mk_ds : (ds <= n)%nat;
  mk_domain : forall j, (ds <= j < n)%nat -> is_cbranch_instr (program !!! j) = false;
  mk_start : ds = 0%nat \/ is_cbranch_instr (program !!! (ds - 1)%nat) = true;
  mk_marked : forall b t, (b < n)%nat -> is_cbranch_instr (program !!! b) = true ->
    last_use writes_bit program (reg8 (dst (program !!! b))) b = Z.of_nat t ->
    is_cbranch_instr (program !!! t) = false -> marks !!! t = true;
}.

Lemma anchor_step_marking n ds marks :
  (n < 256)%nat -> marking n ds marks ->
  let '(ds', marks') := anchor_step program fp (ds, marks) n in marking (S n) ds' marks'.
Proof.
  intros Hn [Hl Hd Hdom Hst Hm]. unfold anchor_step. rewrite is_cbranch_at by done.
  destruct (is_cbranch_instr (program !!! n)) eqn:E.
  - set (w := last_writer fp (dst (program !!! n)) ds n).
    assert (Hkeep : forall t, marks !!! t = true -> match w with Some j => <[j := true]> marks | None => marks end !!! t = true).
    { intros t Ht. destruct w as [j|]; [|done]. destruct (decide (j = t)) as [->|].
      - destruct (decide (t < length marks)%nat); [by apply list_lookup_total_insert_eq|].
        by rewrite list_insert_ge by lia.
      - by rewrite list_lookup_total_insert_ne. }
    constructor; [destruct w; by rewrite ?length_insert|lia|lia|right; by replace (S n - 1)%nat with n by lia|].
    intros b t Hb Hbr Hu Ht. destruct (decide (b = n)) as [->|]; [|apply Hkeep, (Hm b); done || lia].
    assert (Hw : w = Some t).
    { pose proof (normal_at program Hlen Hnormal n Hn) as [Hdst _]. unfold w.
      apply (last_writer_spec _ (reg8 (dst (program !!! n)))); [lia| |lia|by apply reg8_normal|done|done|done].
      destruct (decide (ds <= t)%nat) as [|Hlt]; [done|]. exfalso.
      destruct Hst as [->|Hs]; [lia|]. pose proof (last_use_spec writes_bit program (reg8 (dst (program !!! n))) n) as (_ & _ & H3).
      rewrite Hu in H3. destruct (decide (t = ds - 1)%nat) as [->|]; [congruence|].
      specialize (H3 (ds - 1)%nat ltac:(lia)). unfold hit in H3. by rewrite Hs in H3. }
    rewrite Hw. apply list_lookup_total_insert_eq. rewrite Hl.
    pose proof (last_use_spec writes_bit program (reg8 (dst (program !!! n))) n) as (H1 & _ & _). lia.
  - constructor; [done|lia| |done|].
    + intros j Hj. destruct (decide (j = n)) as [->|]; [done|]. apply Hdom. lia.
    + intros b t Hb Hbr. destruct (decide (b = n)) as [->|]; [congruence|]. apply Hm; [lia|done].
Qed.

Lemma mark_anchors_ok marks n :
  (n <= 256)%nat -> length marks = 256%nat ->
  let st := foldl (anchor_step program fp) (0%nat, marks) (seq 0 n) in marking n st.1 st.2.
Proof.
  intros Hn Hl. induction n as [|n IH]; [constructor; cbn; done || lia || auto|].
  rewrite seq_S, foldl_app. cbn [foldl Nat.add]. specialize (IH ltac:(lia)). cbv zeta in IH.
  destruct (foldl _ _ (seq 0 n)) as [ds ms]. cbn [fst snd] in IH.
  pose proof (anchor_step_marking n ds ms ltac:(lia) IH) as H. by destruct (anchor_step _ _ _ _).
Qed.

End anchors.

(** ** Normalised register numbers *)

Lemma reg8_mod x : reg8 (x mod 8) = reg8 x.
Proof. unfold reg8. by rewrite Z.mod_mod. Qed.
Lemma reg4_mod x : reg4 (x mod 8) = reg4 x.
Proof. unfold reg4. rewrite Z.mod_mod_divide; [done|]. by exists 2. Qed.

Lemma lower_normalize u instr : lower u (normalize instr) = lower u instr.
Proof.
  unfold lower. change (opcode (normalize instr)) with (opcode instr).
  destruct (type_of instr); cbn [handler_of];
    unfold h_IADD_RS, h_IADD_M, h_ISUB_R, h_ISUB_M, h_IMUL_R, h_IMUL_M, h_IMULH_R, h_IMULH_M, h_ISMULH_R, h_ISMULH_M,
      h_IMUL_RCP, h_INEG_R, h_IXOR_R, h_IXOR_M, h_IROR_R, h_IROL_R, h_ISWAP_R, h_FSWAP_R, h_FADD_R, h_FADD_M, h_FSUB_R,
      h_FSUB_M, h_FSCAL_R, h_FMUL_R, h_FDIV_M, h_FSQRT_R, h_CBRANCH, h_CFROUND, h_ISTORE, h_NOP, h_mem, h_alu, h_rotate,
      h_mulh, h_fa, h_fmem, compile_mem_op, mem_level;
    cbn [normalize dst src]; rewrite ?reg8_mod, ?reg4_mod; done.
Qed.
Lemma updates_normalize instr k : updates (normalize instr) k = updates instr k.
Proof. unfold updates. cbn [normalize opcode dst src]. by rewrite !reg8_mod. Qed.

Lemma lookup_normalize program i : (i < length program)%nat ->
  (normalize <$> program) !!! i = normalize (program !!! i).
Proof.
  intros Hi. destruct (lookup_lt_is_Some_2 program i Hi) as [x Hx].
  rewrite (list_lookup_total_correct _ _ _ Hx). apply list_lookup_total_correct. by rewrite list_lookup_fmap, Hx.
Qed.
Lemma last_use_normalize program k i : (i <= length program)%nat ->
  last_use updates (normalize <$> program) k i = last_use updates program k i.
Proof.
  induction i as [|i IH]; intros Hi; cbn [last_use]; [done|].
  rewrite lookup_normalize, updates_normalize, IH by lia. done.
Qed.

Lemma normalize_wf instr : instruction_wf instr -> instruction_wf (normalize instr) /\ normal (normalize instr).
Proof.
  intros (H1 & H2 & H3 & H4 & H5). pose proof (Z.mod_pos_bound (dst instr) 8).
  pose proof (Z.mod_pos_bound (src instr) 8). unfold instruction_wf, normal, in_range in *.
  cbn [normalize opcode dst src mod_ imm32]. lia.
Qed.

(** ** The schedulers *)

Lemma emitted_wf order program :
  length program = 256%nat -> Forall instruction_wf program -> order ≡ₚ seq 0 256 ->
  length (reorder order program) = 256%nat /\ Forall instruction_wf (reorder order program) /\
  reorder order program ≡ₚ program.
Proof.
  intros Hl Hw Hp. assert (E : reorder order program ≡ₚ program).
  { unfold reorder. rewrite Hp. apply Permutation_refl'. apply list_eq_same_length with 256%nat;
      [exact Hl|reflexivity|].
    intros i x y Hi Hx Hy. change (((fun i => program !!! i) <$> seq 0 256) !! i = Some x) in Hx.
    rewrite list_lookup_fmap, lookup_seq_lt in Hx by done. cbn in Hx. injection Hx as <-.
    by apply list_lookup_total_correct. }
  split; [by rewrite E|]. split; [by rewrite E|done].
Qed.

Lemma reorder_id program : length program = 256%nat -> reorder (seq 0 256) program = program.
Proof.
  intros Hl. apply list_eq_same_length with 256%nat; [done|reflexivity|].
  intros i x y Hi Hx Hy. unfold reorder in Hx. rewrite list_lookup_fmap, lookup_seq_lt in Hx by done. cbn in Hx. injection Hx as <-.
  by apply list_lookup_total_correct.
Qed.

(** Compiling to bytecode and running it. *)
Definition interpret (m : Z * Z) (slots : list InstructionByteCode) (program : list Instruction) (st : xstate)
  : outcome xstate :=
  '(_, bytecode) ← compile_program program slots; execute_bytecode m bytecode st.

(** The JIT's adjacent-swap scheduler preserves what a program computes, whatever the swap budget: for
    every program whose branch anchors are real writers ([anchors_agree]) the emission order is a
    permutation of the instructions, and interpreting them in that order, with branches resolved against it,
    ends in the same state as interpreting the program. *)
Lemma scheduled_program_equiv swaps program slots m st :
  length program = 256%nat -> Forall instruction_wf program ->
  length slots = 256%nat -> Forall slot_ok slots -> mask_wf m -> x_wf st ->
  anchors_agree (normalize <$> program) = true ->
  exists emitted st',
    emitted_program false swaps program = Done emitted /\ emitted ≡ₚ normalize <$> program /\
    interpret m slots program st = Done st' /\ interpret m slots emitted st = Done st'.
Proof.
  intros Hl Hw Hsl Hs Hm Hst Hag. set (prog := normalize <$> program).
  assert (Hpl : length prog = 256%nat) by (unfold prog; by rewrite length_fmap).
  assert (Hpw : Forall instruction_wf prog /\ Forall normal prog).
  { unfold prog. split; apply Forall_fmap; eapply list.Forall_impl; try exact Hw; intros x Hx; by apply normalize_wf. }
  destruct Hpw as [Hpw Hpn]. destruct (scheduleProgram_safe swaps prog 256) as (order & Eo & Hsafe).
  set (fixed := fun k => mark_anchors prog (footprints prog 256) 256 (replicate 256 false) !!! k = true) in Hsafe.
  destruct (emitted_wf order prog Hpl Hpw (so_perm _ _ _ _ Hsafe)) as (Hel & Hew & Hperm).
  pose proof (compile_program_compiled program slots Hl Hw Hsl Hs) as Hc. apply returns_Done in Hc as ([usage bc] & Ec & Hc).
  pose proof (compile_program_compiled _ slots Hel Hew Hsl Hs) as Hc'. apply returns_Done in Hc' as ([usage' bc'] & Ec' & Hc').
  cbn [snd] in Hc, Hc'. pose proof (execute_bytecode_ok m bc Hm Hc st Hst) as He.
  apply returns_Done in He as (st' & Ee & _). exists (reorder order prog), st'.
  split; [unfold emitted_program; fold prog; by rewrite Eo|]. split; [done|]. unfold interpret.
  rewrite Ec, Ec'. cbn [mbind outcome_bind]. split; [done|]. unfold execute_bytecode in *. change 0 with (Z.of_nat 0) in *.
  apply (simulate m prog fixed order bc bc'); [done|done|done| | | |apply cut_0|done].
  - intros i Hi. destruct (compile_slots program slots usage bc Hl Ec i Hi) as (x & Hx & Hlow). exists x.
    split; [done|]. unfold prog. rewrite lookup_normalize, lower_normalize, last_use_normalize by lia.
    cbn [normalize dst]. by rewrite reg8_mod.
  - apply (compile_slots _ slots usage' bc' Hel Ec').
  - intros b t Hb Hbr Hu. destruct (is_cbranch_instr (prog !!! t)) eqn:Et.
    { apply branch_barrier; [|done]. pose proof (last_use_spec updates prog (reg8 (dst (prog !!! b))) b) as (H1 & _ & _). lia. }
    right. unfold fixed, mark_anchors.
    destruct (mark_anchors_ok prog Hpl Hpn (replicate 256 false) 256) as [_ _ _ _ Hmark]; [lia|done|].
    apply (Hmark b t); [done|done| |done]. unfold anchors_agree in Hag. rewrite forallb_forall in Hag.
    specialize (Hag b). cbv zeta in Hag. fold prog in Hag. rewrite Hbr in Hag. cbn [negb orb] in Hag.
    rewrite (proj1 (Z.eqb_eq _ _) (Hag ltac:(apply in_seq; lia))). exact Hu.
Qed.

(** Out-of-range register numbers in the instructions make no difference. *)
Lemma interpret_normalize program slots m st :
  length program = 256%nat -> Forall instruction_wf program -> length slots = 256%nat -> Forall slot_ok slots ->
  interpret m slots (normalize <$> program) st = interpret m slots program st.
Proof.
  intros Hl Hw Hsl Hs. set (prog := normalize <$> program).
  assert (Hpl : length prog = 256%nat) by (unfold prog; by rewrite length_fmap).
  assert (Hpw : Forall instruction_wf prog) by (apply Forall_fmap; eapply list.Forall_impl; [exact Hw|]; intros x Hx; by apply normalize_wf).
  pose proof (compile_program_compiled program slots Hl Hw Hsl Hs) as Hc. apply returns_Done in Hc as ([usage bc] & Ec & Hc).
  pose proof (compile_program_compiled prog slots Hpl Hpw Hsl Hs) as Hc'. apply returns_Done in Hc' as ([usage' bc'] & Ec' & Hc').
  unfold interpret. rewrite Ec, Ec'. cbn [mbind outcome_bind snd] in *. apply execute_bytecode_live.
  apply list_eq_same_length with 256%nat; [by rewrite length_fmap, (cp_length _ Hc)|by rewrite length_fmap, (cp_length _ Hc')|].
  intros i x y Hi Hx Hy. destruct (compile_slots _ _ _ _ Hl Ec i Hi) as (u & Hu & Lu). destruct (compile_slots _ _ _ _ Hpl Ec' i Hi) as (v & Hv & Lv).
  apply at_index_Done in Hu as [_ Hu]. apply at_index_Done in Hv as [_ Hv]. rewrite Nat2Z.id in *.
  rewrite list_lookup_fmap, Hu in Hy. rewrite list_lookup_fmap, Hv in Hx. injection Hy as <-. injection Hx as <-. rewrite Lu, Lv. unfold prog.
  rewrite lookup_normalize, lower_normalize, last_use_normalize by lia. cbn [normalize dst]. by rewrite reg8_mod.
Qed.

(** IMUL_R r0, r1; IADD_RS r2, r0; IXOR_R r3, r4; then r3 swapped with itself, or negated; CBRANCH r3. *)
Definition sample (fourth : Instruction) : list Instruction :=
  [mkInstruction 46 0 1 0 0; mkInstruction 0 2 0 0 0; mkInstruction 86 3 4 0 0;
   fourth; mkInstruction 214 3 0 0 0] ++ replicate 251 (mkInstruction 120 7 7 0 0).

Lemma sample_wf fourth : instruction_wf fourth -> Forall instruction_wf (sample fourth).
Proof.
  intros H. unfold sample. apply Forall_app. split.
  - repeat (apply List.Forall_cons; [first [exact H | unfold instruction_wf, in_range; cbn; lia]|]). apply List.Forall_nil.
  - apply Forall_replicate. unfold instruction_wf, in_range. cbn. lia.
Qed.

(** ** Where the condition fails *)

(** With r3 swapped with itself before the branch, the scan takes the swap for the last write of r3; the real
    one is moved to before the second instruction, which the branch then repeats. *)
Definition hidden_anchor : list Instruction := sample (mkInstruction 116 3 3 0 0).
Definition hidden_state (sp : list Z) : xstate :=
  mkX (mkRegisterFile [3; 5; 0; 0xFF00; 0; 0; 0; 0] (replicate 4 (mkFloat 0 0)) (replicate 4 (mkFloat 1 1))
        (replicate 4 (mkFloat 1 1))) sp 0 ToNearest.

(** C16: without that condition the scheduled program can compute something else: one program, started with
    any scratchpad, leaves 15 in r2 when interpreted and 30 when interpreted in the emission order. *)
Theorem hidden_anchor_diverges sp :
  anchors_agree (normalize <$> hidden_anchor) = false /\
  exists emitted st1 st2,
    emitted_program false (-1) hidden_anchor = Done emitted /\
    interpret (1, 1) (replicate 256 ibc_init) hidden_anchor (hidden_state sp) = Done st1 /\
    interpret (1, 1) (replicate 256 ibc_init) emitted (hidden_state sp) = Done st2 /\
    r (reg_ st1) !!! 2%nat = 15 /\ r (reg_ st2) !!! 2%nat = 30.
Proof.
  split; [vm_compute; reflexivity|]. do 3 eexists. split; [vm_compute; reflexivity|].
  split; [vm_compute; reflexivity|]. split; [vm_compute; reflexivity|]. split; reflexivity.
Qed.

(** The dependence-graph scheduler never reorders: it returns the original order for every program,
    size and swap budget, so with ARMRX_DAG_SCHED=1 the code is emitted unscheduled. *)
Theorem dag_scheduler_identity swaps program size :
  scheduleProgramDag swaps program size = seq 0 size /\
  (length program = 256%nat -> emitted_program true swaps program = Done (normalize <$> program)).
Proof.
  assert (H : forall p n, scheduleProgramDag swaps p n = seq 0 n) by (intros; apply dag_order_identity).
  split; [apply H|]. intros Hl. unfold emitted_program. rewrite H. cbn [mbind outcome_bind]. f_equal.
  apply reorder_id. by rewrite length_fmap.
Qed.
