(* ===== verification/JitSuper.v ===== *)
(** * The JIT's scheduler for superscalar programs

    [computeSuperscalarFootprint] and [scheduleSuperscalarProgram] of src/src/jit_compiler_a64.cpp: the
    order in which the instructions of a superscalar program are emitted, in the dataset code of one
    stream and in the two-stream code of src/src/jit_dataset_2way.cpp, which is given the same order. *)

From stdpp Require Import list sorting.
From S2P Require Import Prelude RandomX Superscalar Footprint.

Definition computeSuperscalarFootprint (instr : Instruction) (ty : option SuperscalarInstructionType)
  : InstrFootprint :=
  let d := reg_bit (dst instr) in
  let s := reg_bit (src instr) in
  match ty with
  | Some ISUB_R | Some IXOR_R | Some IADD_RS => mkFP (Z.lor d s) d 0 0 0 0 false false false false false
  | Some IMUL_R | Some IMULH_R | Some ISMULH_R => mkFP (Z.lor d s) d 0 0 0 0 false false false true false
  | Some IROR_C | Some IADD_C7 | Some IADD_C8 | Some IADD_C9 | Some IXOR_C7 | Some IXOR_C8 | Some IXOR_C9 =>
      mkFP d d 0 0 0 0 false false false false false
  | Some IMUL_RCP => mkFP d d 0 0 0 0 false false false true true
  | Some INVALID | None => fp_none
  end.

Definition super_footprint (instr : Instruction) : InstrFootprint :=
  computeSuperscalarFootprint instr (type_of_opcode (opcode instr)).

Section schedule.
Context (fp : list InstrFootprint) (size : nat).

Definition super_swap (i : nat) : bool :=
  let q_is_imul_rcp := (i + 1 <? size)%nat && is_imul_rcp (fp !!! (i + 1)%nat) in
  let r_is_imul_rcp := (i + 2 <? size)%nat && is_imul_rcp (fp !!! (i + 2)%nat) in
  is_long_latency (fp !!! i) && (i + 2 <? size)%nat && negb q_is_imul_rcp && negb r_is_imul_rcp &&
  hasHazard (fp !!! i) (fp !!! (i + 1)%nat) &&
  negb (hasHazard (fp !!! i) (fp !!! (i + 2)%nat)) &&
  negb (hasHazard (fp !!! (i + 1)%nat) (fp !!! (i + 2)%nat)).

(** The [while] loop from [i]; what it pushes onto [order]. *)
Fixpoint super_schedule_from (fuel i : nat) : outcome (list nat) :=
  if (i <? size)%nat then
    match fuel with
    | O => NoFuel
    | S fuel =>
        if super_swap i then
          rest ← super_schedule_from fuel (i + 3); Done (i :: (i + 2)%nat :: (i + 1)%nat :: rest)
        else
          rest ← super_schedule_from fuel (i + 1); Done (i :: rest)
    end
  else Done [].

End schedule.

Definition scheduleSuperscalarProgram (prog : SuperscalarProgram) : outcome (list nat) :=
  let size := Z.to_nat (size_ prog) in
  let fp := (fun i => super_footprint (program_buffer_ prog !!! i)) <$> seq 0 size in
  super_schedule_from fp size size 0.

(** ** The order is safe *)

Section safe.
Context (fp : list InstrFootprint) (size : nat).

(** Two instructions change places only without a hazard, and never an IMUL_RCP. *)
Definition super_movable (y x : nat) : Prop :=
  hasHazard (fp !!! y) (fp !!! x) = false /\ is_imul_rcp (fp !!! x) = false /\ is_imul_rcp (fp !!! y) = false.

Lemma super_swap_movable i : super_swap fp size i = true ->
  (i + 2 < size)%nat /\ super_movable (i + 1) (i + 2).
Proof.
  unfold super_swap, super_movable. cbv zeta. intros H.
  repeat match goal with H : _ && _ = true |- _ => apply andb_true_iff in H as [? ?] end.
  repeat match goal with H : negb _ = true |- _ => apply negb_true_iff in H end.
  assert (E : (i + 2 <? size)%nat = true) by done. apply Nat.ltb_lt in E. split; [done|]. split; [done|].
  assert (E1 : (i + 1 <? size)%nat = true) by (apply Nat.ltb_lt; lia).
  assert (E2 : (i + 2 <? size)%nat = true) by (by apply Nat.ltb_lt). rewrite E1, E2 in *. by split.
Qed.

Lemma super_sorted_cons R x l a n : l ≡ₚ seq a n -> (x < a)%nat -> StronglySorted (may_precede R) l ->
  StronglySorted (may_precede R) (x :: l).
Proof.
  intros Hp Hx Hs. constructor; [done|]. apply list.Forall_forall. intros y Hy. rewrite Hp in Hy.
  apply elem_of_seq in Hy. left. lia.
Qed.

Lemma super_schedule_ok fuel i : (size - i <= fuel)%nat ->
  exists l, super_schedule_from fp size fuel i = Done l /\
    l ≡ₚ seq i (size - i) /\ StronglySorted (may_precede super_movable) l.
Proof.
  revert i. induction fuel as [|fuel IH]; intros i Hf; cbn [super_schedule_from];
    (destruct (Nat.ltb_spec i size) as [Hi|Hi];
      [|exists []; replace (size - i)%nat with 0%nat by lia; by split_and!; [| |constructor]]); [lia|].
  destruct (super_swap fp size i) eqn:Hn.
  - apply super_swap_movable in Hn as [Hlt Hm].
    destruct (IH (i + 3)%nat ltac:(lia)) as (l & -> & Hp & Hs). eexists. split; [reflexivity|].
    assert (Hp3 : (i + 1)%nat :: (i + 2)%nat :: l ≡ₚ seq (i + 1) (size - (i + 1))).
    { replace (size - (i + 1))%nat with (S (S (size - (i + 3)))) by lia. cbn [seq]. rewrite Hp.
      replace (S (i + 1)) with (i + 2)%nat by lia. by replace (S (i + 2)) with (i + 3)%nat by lia. }
    assert (Hp2 : (i + 2)%nat :: (i + 1)%nat :: l ≡ₚ seq (i + 1) (size - (i + 1))).
    { rewrite <- Hp3. apply Permutation_swap. }
    split.
    + rewrite Hp2. replace (size - i)%nat with (S (size - (i + 1))) by lia. cbn [seq]. by rewrite Nat.add_1_r.
    + apply (super_sorted_cons _ _ _ _ _ Hp2); [lia|]. constructor.
      * apply (super_sorted_cons _ _ _ _ _ Hp); [lia|done].
      * constructor; [by right|]. apply list.Forall_forall. intros y Hy. rewrite Hp in Hy.
        apply elem_of_seq in Hy. left. lia.
  - destruct (IH (i + 1)%nat ltac:(lia)) as (l & -> & Hp & Hs). eexists. split; [reflexivity|]. split.
    + rewrite Hp. replace (size - i)%nat with (S (size - (i + 1))) by lia. cbn [seq]. by rewrite Nat.add_1_r.
    + apply (super_sorted_cons _ _ _ _ _ Hp); [lia|done].
Qed.
End safe.

(** ** Independent instructions commute *)

Definition regs_ok (instr : Instruction) : Prop := 0 <= dst instr < 8 /\ 0 <= src instr < 8.

(** Every instruction computes its destination from itself and, for some types, the source. *)
Definition two_operands (instr : Instruction) : bool :=
  match type_of_opcode (opcode instr) with
  | Some ISUB_R | Some IXOR_R | Some IADD_RS | Some IMUL_R | Some IMULH_R | Some ISMULH_R => true
  | _ => false
  end.
Definition update (F : Z -> Z -> Z) (instr : Instruction) (r : list Z) : outcome (list Z) :=
  d ← get_reg r (dst instr);
  s ← (if two_operands instr then get_reg r (src instr) else Done 0);
  Done (set_reg r (dst instr) (F d s)).

Lemma execute_update rc instr r r' :
  execute_instruction rc r instr = Done r' ->
  exists F, forall r, execute_instruction rc r instr = update F instr r.
Proof.
  unfold execute_instruction, update, two_operands. destruct (type_of_opcode (opcode instr)) as [[]|]; try done;
    try (intros _; eexists; intros r0; unfold upd2; reflexivity).
  all: try (intros _; match goal with |- exists F, forall r, upd1 ?f r _ = _ => exists (fun d _ => f d) end;
    intros r0; unfold upd1; by destruct (get_reg r0 (dst instr))).
  intros H. apply bind_Done in H as (v & -> & _). exists (fun d _ => mul64 d v). intros r0. cbn [mbind outcome_bind].
  unfold upd1. by destruct (get_reg r0 (dst instr)).
Qed.

Lemma bit_self x : 0 <= x < 8 -> Z.testbit (reg_bit x) x = true.
Proof.
  intros Hx. unfold reg_bit. rewrite Z.shiftl_1_l, wrap_small; [by rewrite Z.pow2_bits_true by lia|].
  split; [lia|]. apply Z.pow_lt_mono_r; lia.
Qed.

(** Without a hazard the destinations differ and neither is the other's source. *)
Lemma no_hazard_distinct x y rc r x' y' r1 r2 :
  regs_ok x -> regs_ok y -> hasHazard (super_footprint x) (super_footprint y) = false ->
  execute_instruction rc r x = Done x' -> execute_instruction rc r1 y = Done y' -> r2 = r1 ->
  dst x <> dst y /\ (two_operands x = true -> src x <> dst y) /\ (two_operands y = true -> src y <> dst x).
Proof.
  intros [Hdx Hsx] [Hdy Hsy] (_ & _ & Hi)%hazard_free Ex Ey _.
  assert (Wx : forall i, is_Some (type_of_opcode (opcode i)) -> regs_ok i -> type_of_opcode (opcode i) <> Some INVALID ->
    fp_writes (super_footprint i) (LR (Z.to_nat (dst i))) = true /\
    fp_reads (super_footprint i) (LR (Z.to_nat (dst i))) = true /\
    (two_operands i = true -> fp_reads (super_footprint i) (LR (Z.to_nat (src i))) = true)).
  { intros i [t Ht] [Hd Hs] Hinv. unfold super_footprint, two_operands. rewrite Ht in *. cbn [fp_writes fp_reads].
    rewrite !Z2Nat.id by lia. pose proof (bit_self _ Hd). pose proof (bit_self _ Hs).
    destruct t; try done; cbn [computeSuperscalarFootprint int_write int_read];
      rewrite ?Z.lor_spec; split_and!; intros; try done; by rewrite ?H, ?H0, ?orb_true_r. }
  assert (Hv : forall rc r i r', execute_instruction rc r i = Done r' ->
    is_Some (type_of_opcode (opcode i)) /\ type_of_opcode (opcode i) <> Some INVALID).
  { intros rc0 r0 i r' E. unfold execute_instruction in E. destruct (type_of_opcode (opcode i)) as [[]|]; split; done. }
  destruct (Hv _ _ _ _ Ex) as [Sx Nx], (Hv _ _ _ _ Ey) as [Sy Ny].
  destruct (Wx x Sx (conj Hdx Hsx) Nx) as (Wx1 & Rx1 & Rx2), (Wx y Sy (conj Hdy Hsy) Ny) as (Wy1 & Ry1 & Ry2).
  split_and!.
  - intros E. rewrite <- E in Wy1. destruct (proj1 (Hi _) Wx1) as [_ ?]. congruence.
  - intros H2 E. specialize (Rx2 H2). rewrite E in Rx2. destruct (proj2 (Hi _) Wy1) as [? _]. congruence.
  - intros H2 E. specialize (Ry2 H2). rewrite E in Ry2. destruct (proj1 (Hi _) Wx1) as [? _]. congruence.
Qed.

Lemma get_set_ne r i j (x : Z) : 0 <= i -> 0 <= j -> i <> j -> get_reg (set_reg r i x) j = get_reg r j.
Proof. intros Hi Hj Hne. unfold get_reg, set_reg. rewrite list_lookup_insert_ne; [done|]. lia. Qed.

Lemma super_commute rc x y r r' :
  regs_ok x -> regs_ok y -> hasHazard (super_footprint x) (super_footprint y) = false ->
  (r ← execute_instruction rc r x; execute_instruction rc r y) = Done r' ->
  (r ← execute_instruction rc r y; execute_instruction rc r x) = Done r'.
Proof.
  intros Hx Hy Hh H. apply bind_Done in H as (r1 & E1 & E2).
  destruct (no_hazard_distinct x y rc r r1 r' r1 r1 Hx Hy Hh E1 E2 eq_refl) as (Hd & Hsx & Hsy).
  destruct (execute_update _ _ _ _ E1) as [F HF]. destruct (execute_update _ _ _ _ E2) as [G HG].
  rewrite HF in E1. rewrite HG in *. destruct Hx as [Hdx Hsx0], Hy as [Hdy Hsy0]. unfold update in *.
  apply bind_Done in E1 as (dx & Gdx & E1). apply bind_Done in E1 as (sx & Gsx & [= <-]).
  apply bind_Done in E2 as (dy & Gdy & E2). apply bind_Done in E2 as (sy & Gsy & [= <-]).
  rewrite get_set_ne in Gdy by lia.
  assert (Gsy' : (if two_operands y then get_reg r (src y) else Done 0) = Done sy).
  { destruct (two_operands y); [|done]. by rewrite get_set_ne in Gsy by (done || lia || (symmetry; auto)). }
  rewrite Gdy. cbn [mbind outcome_bind]. rewrite Gsy'. cbn [mbind outcome_bind]. rewrite HF.
  unfold update. rewrite (get_set_ne _ (dst y) (dst x)) by lia. rewrite Gdx. cbn [mbind outcome_bind].
  assert (Gsx' : (if two_operands x then get_reg (set_reg r (dst y) (G dy sy)) (src x) else Done 0) = Done sx).
  { destruct (two_operands x); [|done]. rewrite get_set_ne; [done|lia|lia|]. symmetry. auto. }
  rewrite Gsx'. cbn [mbind outcome_bind]. f_equal. unfold set_reg. apply list_insert_insert_ne. lia.
Qed.

(** ** The scheduled program *)

Lemma run_from_list rc prog l r :
  run_from (execute_instruction rc) prog l r =
    run_list (fun j r => i ← program_at prog j; execute_instruction rc r i) l r.
Proof.
  revert r. induction l as [|j l IH]; intros r; cbn [run_from run_list]; [done|].
  destruct (program_at prog j); try done. cbn [mbind outcome_bind].
  destruct (execute_instruction rc r a); try done. cbn [mbind outcome_bind]. apply IH.
Qed.

(** The IMUL_RCP instructions among the first [size], in a given order. *)
Definition rcp_order (prog : SuperscalarProgram) (l : list nat) : list nat :=
  base.filter (fun i => is_imul_rcp (super_footprint (program_buffer_ prog !!! i)) = true) l.

Lemma fp_lookup prog i : (i < Z.to_nat (size_ prog))%nat ->
  ((fun i => super_footprint (program_buffer_ prog !!! i)) <$> seq 0 (Z.to_nat (size_ prog))) !!! i =
    super_footprint (program_buffer_ prog !!! i).
Proof.
  intros Hi. apply list_lookup_total_correct. rewrite list_lookup_fmap, lookup_seq_lt by done. done.
Qed.

Lemma seq_sorted a n : StronglySorted lt (seq a n).
Proof.
  revert a. induction n as [|n IH]; intros a; cbn [seq]; constructor; [done|].
  apply list.Forall_forall. intros y Hy%elem_of_seq. lia.
Qed.
Lemma filter_sorted (P : nat -> Prop) `{!forall x, Decision (P x)} R l :
  StronglySorted R l -> StronglySorted R (base.filter P l).
Proof.
  induction 1 as [|x l Hs IH HF]; [constructor|]. destruct (decide (P x)).
  - rewrite filter_cons_True by done. constructor; [done|]. apply list.Forall_forall. intros y Hy.
    apply list_elem_of_filter in Hy as [_ Hy]. by rewrite list.Forall_forall in HF; apply HF.
  - by rewrite filter_cons_False.
Qed.

(** The superscalar scheduler emits a permutation of a program's instructions that keeps the order of
    the IMUL_RCPs (whose literals are consumed in that order), and running the instructions in emission
    order gives the registers the program gives, with the reciprocal table or without. *)
Lemma superscalar_schedule_ok prog :
  0 <= size_ prog <= Z.of_nat (length (program_buffer_ prog)) ->
  Forall regs_ok (take (Z.to_nat (size_ prog)) (program_buffer_ prog)) ->
  exists order, scheduleSuperscalarProgram prog = Done order /\
    order ≡ₚ seq 0 (Z.to_nat (size_ prog)) /\
    rcp_order prog order = rcp_order prog (seq 0 (Z.to_nat (size_ prog))) /\
    forall rc r r', execute_superscalar r prog rc = Done r' ->
      run_from (execute_instruction rc) prog order r = Done r'.
Proof.
  intros Hsz Hregs. unfold scheduleSuperscalarProgram. set (n := Z.to_nat (size_ prog)) in *.
  match goal with |- context [super_schedule_from ?f] => set (fp := f) end.
  destruct (super_schedule_ok fp n n 0) as (order & E & Hp & Hs); [lia|]. rewrite Nat.sub_0_r in Hp.
  assert (Hlt : Forall (fun i => i < n)%nat order).
  { apply list.Forall_forall. intros i Hi. rewrite Hp in Hi. apply elem_of_seq in Hi. lia. }
  assert (Hat : forall i, (i < n)%nat -> program_at prog i = Done (program_buffer_ prog !!! i) /\
    regs_ok (program_buffer_ prog !!! i)).
  { intros i Hi. destruct (lookup_lt_is_Some_2 (program_buffer_ prog) i) as [x Hx]; [lia|].
    unfold program_at. rewrite Hx, (list_lookup_total_correct _ _ _ Hx). split; [done|].
    apply (Forall_lookup_1 _ _ i _ Hregs). by rewrite lookup_take_lt. }
  exists order. split; [done|]. split; [done|]. split.
  - unfold rcp_order. set (P := fun i => is_imul_rcp (super_footprint (program_buffer_ prog !!! i)) = true).
    apply (StronglySorted_unique_strong lt).
    + intros x y _ _ ? ?. lia.
    + assert (HP : Forall P (base.filter P order)) by (apply list.Forall_forall; by intros x [? _]%list_elem_of_filter).
      assert (HL : Forall (fun i => i < n)%nat (base.filter P order))
        by (apply list.Forall_forall; intros x [_ Hx]%list_elem_of_filter; by rewrite list.Forall_forall in Hlt; apply Hlt).
      pose proof (filter_sorted P _ _ Hs) as Hf. clear -Hf HP HL.
      induction Hf as [|x l _ IH HF]; [constructor|]. inversion HP; inversion HL; subst. constructor; [by apply IH|].
      apply list.Forall_forall. intros y Hy. rewrite list.Forall_forall in HF. destruct (HF y Hy) as [?|(_ & Hx & _)]; [done|].
      unfold fp in Hx. rewrite fp_lookup in Hx by done. unfold P in *. congruence.
    + apply filter_sorted, seq_sorted.
    + by rewrite Hp.
  - intros rc r r' Hrun. rewrite run_from_list. unfold execute_superscalar in Hrun. rewrite run_from_list in Hrun. fold n in Hrun.
    apply (run_reordered _ n 0); [done| |done].
    clear -Hs Hlt Hat. induction Hs as [|x l _ IH HF]; [constructor|]. inversion Hlt as [|? ? Hx Hl]; subst.
    constructor; [by apply IH|]. apply list.Forall_forall. intros y Hy. rewrite list.Forall_forall in HF, Hl.
    destruct (HF y Hy) as [?|(Hh & _)]; [by left|]. right. unfold fp in Hh.
    rewrite !fp_lookup in Hh by (done || by apply Hl). destruct (Hat y (Hl y Hy)) as [Ey Ry]. destruct (Hat x Hx) as [Ex Rx].
    intros s s'. rewrite Ex, Ey. cbn [mbind outcome_bind]. by apply super_commute.
Qed.

(** IMUL_R r0, r1; ISUB_R r2, r0; IXOR_R r3, r4: the third goes before the second. *)
Definition super_sample : SuperscalarProgram :=
  mkProgram [mkInstruction 3 0 1 0 0; mkInstruction 0 2 0 0 0; mkInstruction 1 3 4 0 0] 3 0.

Example superscalar_schedule_sample : scheduleSuperscalarProgram super_sample = Done [0; 2; 1]%nat.
Proof. reflexivity. Qed.
