(* ===== verification/A64.v ===== *)
(** * A64 machine code

    The part of the A64 instruction set (Arm Architecture Reference Manual) that the JIT emits for
    superscalar programs: decoding of 32-bit words, execution on the general registers, and code as bytes
    in memory.  The encodings here are the architecture's; those of src/src/jit_compiler_a64.cpp are
    proved to decode to what their comments say. *)

From S2P Require Import Prelude RandomX.

(** [xn], with register 31 the zero register (an [ADD_imm] on register 31, the stack pointer, is not in
    the table); byte offsets are relative to the instruction. *)
Inductive a64 : Type :=
  | ADD_shifted (d n m lsl : Z)
  | SUB_shifted (d n m lsl : Z)
  | EOR_shifted (d n m lsl : Z)
  | ORR_shifted (d n m lsl : Z)
  | MADD (d n m a : Z)
  | UMULH (d n m : Z)
  | SMULH (d n m : Z)
  | EXTR (d n m lsb : Z)
  | MOVZ (d imm lsl : Z)
  | MOVN (d imm lsl : Z)
  | MOVK (d imm lsl : Z)
  | ADD_imm (d n imm : Z)
  | LDR_literal (t off : Z)
  | B (off : Z).

(** Bits [lo .. lo + n - 1] of a word. *)
Definition bits (w lo n : Z) : Z := (w / 2 ^ lo) mod 2 ^ n.

Definition decode (w : Z) : option a64 :=
  let top := bits w 24 8 in
  let op3 := bits w 21 3 in
  let d := bits w 0 5 in
  let n := bits w 5 5 in
  let m := bits w 16 5 in
  let shifted f := if op3 =? 0 then Some (f d n m (bits w 10 6)) else None in
  let wide f := if bits w 23 1 =? 1 then Some (f d (bits w 5 16) (16 * bits w 21 2)) else None in
  if top =? 0x8B then shifted ADD_shifted
  else if top =? 0xCB then shifted SUB_shifted
  else if top =? 0xCA then shifted EOR_shifted
  else if top =? 0xAA then shifted ORR_shifted
  else if top =? 0x9B then
    if negb (bits w 15 1 =? 0) then None
    else if op3 =? 0 then Some (MADD d n m (bits w 10 5))
    else if op3 =? 6 then Some (UMULH d n m)
    else if op3 =? 2 then Some (SMULH d n m)
    else None
  else if top =? 0x93 then if op3 =? 6 then Some (EXTR d n m (bits w 10 6)) else None
  else if top =? 0xD2 then wide MOVZ
  else if top =? 0x92 then wide MOVN
  else if top =? 0xF2 then wide MOVK
  else if top =? 0x91 then
    if (bits w 23 1 =? 0) && negb (d =? 31) && negb (n =? 31)
    then Some (ADD_imm d n (bits w 10 12 * (if bits w 22 1 =? 1 then 4096 else 1))) else None
  else if top =? 0x58 then Some (LDR_literal d (4 * to_signed 19 (bits w 5 19)))
  else if bits w 26 6 =? 5 then Some (B (4 * to_signed 26 (bits w 0 26)))
  else None.

(** ** Execution *)

Definition xget (xs : list Z) (n : Z) : Z := if n =? 31 then 0 else xs !!! Z.to_nat n.
Definition xset (xs : list Z) (n v : Z) : list Z := if n =? 31 then xs else <[Z.to_nat n := v]> xs.

(** One instruction at [pc]: the next [pc] and the registers. *)
Definition exec (code : list Z) (i : a64) (pc : Z) (xs : list Z) : outcome (Z * list Z) :=
  let x := xget xs in
  let next d v := Done (pc + 4, xset xs d v) in
  match i with
  | ADD_shifted d n m sh => next d (add64 (x n) (shl64 (x m) sh))
  | SUB_shifted d n m sh => next d (sub64 (x n) (shl64 (x m) sh))
  | EOR_shifted d n m sh => next d (Z.lxor (x n) (shl64 (x m) sh))
  | ORR_shifted d n m sh => next d (Z.lor (x n) (shl64 (x m) sh))
  | MADD d n m a => next d (add64 (x a) (mul64 (x n) (x m)))
  | UMULH d n m => next d (mulh (x n) (x m))
  | SMULH d n m => next d (smulh (x n) (x m))
  | EXTR d n m lsb => next d (wrap 64 (Z.shiftr (x n * 2 ^ 64 + x m) lsb))
  | MOVZ d imm sh => next d (shl64 imm sh)
  | MOVN d imm sh => next d (not64 (shl64 imm sh))
  | MOVK d imm sh => next d (Z.lor (Z.land (x d) (not64 (shl64 0xFFFF sh))) (shl64 imm sh))
  | ADD_imm d n imm => next d (add64 (x n) imm)
  | LDR_literal t off => v ← read_le code (pc + off) 8; next t v
  | B off => Done (pc + off, xs)
  end.

(** Fetch, decode, execute; an encoding outside the table is undefined here. *)
Definition a64_step (code : list Z) (st : Z * list Z) : outcome (Z * list Z) :=
  let '(pc, xs) := st in
  w ← read_le code pc 4;
  match decode w with
  | Some i => exec code i pc xs
  | None => UB
  end.

Fixpoint a64_run (n : nat) (code : list Z) (st : Z * list Z) : outcome (Z * list Z) :=
  match n with
  | O => Done st
  | S n => st ← a64_step code st; a64_run n code st
  end.

Lemma a64_run_app n1 n2 code st :
  a64_run (n1 + n2) code st = (st ← a64_run n1 code st; a64_run n2 code st).
Proof.
  revert st. induction n1 as [|n1 IH]; intros st; cbn [a64_run Nat.add]; [done|].
  destruct (a64_step code st); cbn; auto.
Qed.

(** ** Words assembled with [|] *)

(** A field is or-ed into bits that are still zero. *)
Lemma lor_field w x a b :
  0 <= a -> 0 <= b -> 0 <= x < 2 ^ b -> w mod 2 ^ (a + b) < 2 ^ a -> Z.lor w (Z.shiftl x a) = w + x * 2 ^ a.
Proof.
  intros Ha Hb Hx Hw. pose proof (Z.add_lor_land w (Z.shiftl x a)) as E.
  assert (Z.land w (Z.shiftl x a) = 0) as E0.
  { apply Z.bits_inj_0. intros i. rewrite Z.land_spec. destruct (Z.lt_ge_cases i a) as [Hi|Hi].
    { destruct (Z.lt_ge_cases i 0); [by rewrite !Z.testbit_neg_r by lia|].
      by rewrite Z.shiftl_spec_low, andb_false_r by lia. }
    destruct (Z.lt_ge_cases i (a + b)) as [Hi'|Hi'].
    - rewrite <- (Z.mod_pow2_bits_low w (a + b)) by lia. rewrite (testbit_high a); [done| |lia].
      split; [apply Z.mod_pos_bound; lia|done].
    - rewrite Z.shiftl_spec, (testbit_high b x), andb_false_r by (done || lia). done. }
  rewrite E0, Z.shiftl_mul_pow2 in E by lia. rewrite Z.shiftl_mul_pow2 by lia. lia.
Qed.


(** Evaluates the powers of two with literal exponents, then [lia]. *)
Ltac plia :=
  repeat match goal with
  | |- context [2 ^ ?e] => let v := eval vm_compute in (2 ^ e) in change (2 ^ e) with v
  | H : context [2 ^ ?e] |- _ => let v := eval vm_compute in (2 ^ e) in change (2 ^ e) with v in H
  end; Z.to_euclidean_division_equations; lia.

Lemma lor_low op d : 0 <= d < 32 -> op mod 2 ^ 5 = 0 -> Z.lor op d = op + d.
Proof. intros Hd Ho. rewrite <- (Z.shiftl_0_r d) at 1. rewrite (lor_field op d 0 5) by plia. plia. Qed.

Section words.
Context (d n m k : Z) (Hd : 0 <= d < 32) (Hn : 0 <= n < 32) (Hm : 0 <= m < 32) (Hk : 0 <= k < 64).

(** [op | d | (n << 5) | (m << 16)] and, with a shift amount, [op | d | (n << 5) | (k << 10) | (m << 16)],
    for an [op] whose low 10 (or 16) bits and bits 16 to 20 are zero. *)
Lemma word3 op : op mod 2 ^ 10 = 0 -> op mod 2 ^ 21 < 2 ^ 16 ->
  Z.lor (Z.lor (Z.lor op d) (Z.shiftl n 5)) (Z.shiftl m 16) = op + d + n * 32 + m * 65536.
Proof.
  clear k Hk. intros H1 H2. rewrite (lor_low op d) by plia.
  rewrite (lor_field _ n 5 5) by plia. rewrite (lor_field _ m 16 5) by plia. plia.
Qed.
Lemma word4 op : op mod 2 ^ 21 = 0 ->
  Z.lor (Z.lor (Z.lor (Z.lor op d) (Z.shiftl n 5)) (Z.shiftl k 10)) (Z.shiftl m 16) =
    op + d + n * 32 + k * 1024 + m * 65536.
Proof.
  intros H1. rewrite (lor_low op d) by plia.
  rewrite (lor_field _ n 5 5) by plia. rewrite (lor_field _ k 10 6) by plia.
  rewrite (lor_field _ m 16 5) by plia. plia.
Qed.
End words.

(** Replaces a field of the word by its value. *)
Ltac field lo n v :=
  match goal with |- context [bits ?w lo n] =>
    let H := fresh in assert (H : bits w lo n = v) by (unfold bits; plia); rewrite !H; clear H end.
Ltac decode_fields := cbv zeta; cbn [Z.eqb Pos.eqb negb].

Section decodes.
Context (d n m k : Z) (Hd : 0 <= d < 32) (Hn : 0 <= n < 32) (Hm : 0 <= m < 32) (Hk : 0 <= k < 64).

Lemma decode_ADD : decode (0x8B000000 + d + n * 32 + k * 1024 + m * 65536) = Some (ADD_shifted d n m k).
Proof. unfold decode. field 24 8 0x8B. field 21 3 0. field 0 5 d. field 5 5 n. field 16 5 m. field 10 6 k. done. Qed.
Lemma decode_SUB : decode (0xCB000000 + d + n * 32 + k * 1024 + m * 65536) = Some (SUB_shifted d n m k).
Proof. unfold decode. field 24 8 0xCB. field 21 3 0. field 0 5 d. field 5 5 n. field 16 5 m. field 10 6 k. done. Qed.
Lemma decode_EOR : decode (0xCA000000 + d + n * 32 + k * 1024 + m * 65536) = Some (EOR_shifted d n m k).
Proof. unfold decode. field 24 8 0xCA. field 21 3 0. field 0 5 d. field 5 5 n. field 16 5 m. field 10 6 k. done. Qed.
Lemma decode_ORR : decode (0xAA000000 + d + n * 32 + k * 1024 + m * 65536) = Some (ORR_shifted d n m k).
Proof. unfold decode. field 24 8 0xAA. field 21 3 0. field 0 5 d. field 5 5 n. field 16 5 m. field 10 6 k. done. Qed.
Lemma decode_EXTR : decode (0x93C00000 + d + n * 32 + k * 1024 + m * 65536) = Some (EXTR d n m k).
Proof. unfold decode. field 24 8 0x93. field 21 3 6. field 0 5 d. field 5 5 n. field 16 5 m. field 10 6 k. done. Qed.
(** [mul] is [madd] with the zero register. *)
Lemma decode_MUL : decode (0x9B007C00 + d + n * 32 + m * 65536) = Some (MADD d n m 31).
Proof.
  clear k Hk. unfold decode. field 24 8 0x9B. field 15 1 0. field 21 3 0. field 0 5 d. field 5 5 n. field 16 5 m. field 10 5 31. done.
Qed.
Lemma decode_UMULH : decode (0x9BC07C00 + d + n * 32 + m * 65536) = Some (UMULH d n m).
Proof. clear k Hk. unfold decode. field 24 8 0x9B. field 15 1 0. field 21 3 6. field 0 5 d. field 5 5 n. field 16 5 m. done. Qed.
Lemma decode_SMULH : decode (0x9B407C00 + d + n * 32 + m * 65536) = Some (SMULH d n m).
Proof. clear k Hk. unfold decode. field 24 8 0x9B. field 15 1 0. field 21 3 2. field 0 5 d. field 5 5 n. field 16 5 m. done. Qed.
End decodes.

Section wide.
Context (d hw imm : Z) (Hd : 0 <= d < 32) (Hw : 0 <= hw < 4) (Hi : 0 <= imm < 65536).

Lemma decode_MOVZ : decode (0xD2800000 + d + hw * 2097152 + imm * 32) = Some (MOVZ d imm (16 * hw)).
Proof. unfold decode. field 24 8 0xD2. field 23 1 1. field 0 5 d. field 5 16 imm. field 21 2 hw. done. Qed.
Lemma decode_MOVN : decode (0x92800000 + d + hw * 2097152 + imm * 32) = Some (MOVN d imm (16 * hw)).
Proof. unfold decode. field 24 8 0x92. field 23 1 1. field 0 5 d. field 5 16 imm. field 21 2 hw. done. Qed.
Lemma decode_MOVK : decode (0xF2800000 + d + hw * 2097152 + imm * 32) = Some (MOVK d imm (16 * hw)).
Proof. unfold decode. field 24 8 0xF2. field 23 1 1. field 0 5 d. field 5 16 imm. field 21 2 hw. done. Qed.
End wide.

Section immediates.
Context (d n : Z) (Hd : 0 <= d < 31) (Hn : 0 <= n < 31).

Lemma decode_ADD_lo imm : 0 <= imm < 4096 -> decode (0x91000000 + d + n * 32 + imm * 1024) = Some (ADD_imm d n imm).
Proof.
  intros Hi. unfold decode. field 24 8 0x91. field 23 1 0. field 0 5 d. field 5 5 n. field 22 1 0. field 10 12 imm.
  destruct (Z.eqb_spec d 31); [lia|]. destruct (Z.eqb_spec n 31); [lia|]. cbn -[Z.mul]. by rewrite Z.mul_1_r.
Qed.
Lemma decode_ADD_hi imm : 0 <= imm < 4096 ->
  decode (0x91400000 + d + n * 32 + imm * 1024) = Some (ADD_imm d n (imm * 4096)).
Proof.
  intros Hi. unfold decode. field 24 8 0x91. field 23 1 0. field 0 5 d. field 5 5 n. field 22 1 1. field 10 12 imm.
  destruct (Z.eqb_spec d 31); [lia|]. destruct (Z.eqb_spec n 31); [lia|]. done.
Qed.
Lemma decode_LDR off : 0 <= off < 2 ^ 19 ->
  decode (0x58000000 + d + off * 32) = Some (LDR_literal d (4 * to_signed 19 off)).
Proof. clear n Hn. intros Hi. unfold decode. field 24 8 0x58. field 0 5 d. field 5 19 off. done. Qed.
Lemma decode_B off : 0 <= off < 2 ^ 26 -> decode (0x14000000 + off) = Some (B (4 * to_signed 26 off)).
Proof.
  clear d n Hd Hn. intros Hi. unfold decode.
  assert (H : exists t, bits (0x14000000 + off) 24 8 = t /\ 20 <= t < 24) by (eexists; split; [reflexivity|]; unfold bits; plia).
  destruct H as (t & -> & Ht). field 26 6 5. field 0 26 off.
  repeat match goal with |- context [t =? ?c] => destruct (Z.eqb_spec t c); [lia|] end. done.
Qed.
End immediates.
