(* ===== verification/JitDataset.v ===== *)
(** * Machine code of superscalar programs

    Models the emission of the dataset code in src/src/jit_compiler_a64.cpp ([emit32], [emit64],
    [emitCpoolImmediate], [generateSuperscalarHash]): the bytes written into the code buffer.  The bytes of
    the templates that the assembler makes of src/src/jit_compiler_a64_static.S are parameters.  The code of
    each superscalar program is proved to compute, on the A64 machine, what the interpreter computes. *)

From stdpp Require Import list sorting.
From S2P Require Import Prelude RandomX Blake2b Superscalar SuperscalarGen Argon2 Footprint JitSuper A64.

(** ** Emission *)

Module ARMV8A.
Definition B : Z := 0x14000000.
Definition EOR : Z := 0xCA000000.
Definition ADD : Z := 0x8B000000.
Definition SUB : Z := 0xCB000000.
Definition MUL : Z := 0x9B007C00.
Definition UMULH : Z := 0x9BC07C00.
Definition SMULH : Z := 0x9B407C00.
Definition MOVZ : Z := 0xD2800000.
Definition MOVN : Z := 0x92800000.
Definition MOVK : Z := 0xF2800000.
Definition LDR_LITERAL : Z := 0x58000000.
Definition ROR_IMM : Z := 0x93C00000.
Definition MOV_REG : Z := 0xAA0003E0.
Definition AND_IMM_64 : Z := 0x92400000.
End ARMV8A.

(** The code buffer and [codePos]. *)
Definition emitter : Type := list Z * Z.

Definition emit32 (val : Z) (st : emitter) : outcome emitter :=
  let '(code, codePos) := st in
  code ← write_bytes code codePos (le_bytes 4 val); Done (code, codePos + 4).
Definition emit64 (val : Z) (st : emitter) : outcome emitter :=
  let '(code, codePos) := st in
  code ← write_bytes code codePos (le_bytes 8 val); Done (code, codePos + 8).

(** [~x] on [uint32_t]. *)
Definition not32 (x : Z) : Z := wrap 32 (Z.lnot x).

Local Infix ".|" := Z.lor (at level 50, left associativity) : Z_scope.
Local Infix "<<" := Z.shiftl (at level 45, left associativity) : Z_scope.
Local Infix ">>" := Z.shiftr (at level 45, left associativity) : Z_scope.

(** [no_e24_pad]: built with ARMRX_NO_E24_PAD. *)
Definition emitCpoolImmediate (no_e24_pad : bool) (d imm : Z) (st : emitter) : outcome emitter :=
  if no_e24_pad && (imm <? 1 << 16) then emit32 (ARMV8A.MOVZ .| d .| imm << 5) st
  else
    st ← (if to_signed 32 imm <? 0
          then emit32 (ARMV8A.MOVN .| d .| 1 << 21 .| (not32 imm >> 16) << 5) st
          else emit32 (ARMV8A.MOVZ .| d .| 1 << 21 .| (imm >> 16) << 5) st);
    emit32 (ARMV8A.MOVK .| d .| (Z.land imm 0xFFFF) << 5) st.

Definition tmp_reg : Z := 12.

(** One turn of the loop over [emit_order]. *)
Definition emit_instruction (no_e24_pad : bool) (instr : Instruction) (literal_pos : Z) (st : emitter)
  : outcome (Z * emitter) :=
  let s := src instr in
  let d := dst instr in
  let codePos := st.2 in
  let done m := st ← m; Done (literal_pos, st) in
  match type_of_opcode (opcode instr) with
  | Some ISUB_R => done (emit32 (ARMV8A.SUB .| d .| d << 5 .| s << 16) st)
  | Some IXOR_R => done (emit32 (ARMV8A.EOR .| d .| d << 5 .| s << 16) st)
  | Some IADD_RS => done (emit32 (ARMV8A.ADD .| d .| d << 5 .| getModShift instr << 10 .| s << 16) st)
  | Some IMUL_R => done (emit32 (ARMV8A.MUL .| d .| d << 5 .| s << 16) st)
  | Some IROR_C => done (emit32 (ARMV8A.ROR_IMM .| d .| d << 5 .| (Z.land (getImm32 instr) 63) << 10 .| d << 16) st)
  | Some IADD_C7 | Some IADD_C8 | Some IADD_C9 =>
      done (st ← emitCpoolImmediate no_e24_pad 13 (getImm32 instr) st;
            emit32 (ARMV8A.ADD .| d .| d << 5 .| 13 << 16) st)
  | Some IXOR_C7 | Some IXOR_C8 | Some IXOR_C9 =>
      done (st ← emitCpoolImmediate no_e24_pad tmp_reg (getImm32 instr) st;
            emit32 (ARMV8A.EOR .| d .| d << 5 .| tmp_reg << 16) st)
  | Some IMULH_R => done (emit32 (ARMV8A.UMULH .| d .| d << 5 .| s << 16) st)
  | Some ISMULH_R => done (emit32 (ARMV8A.SMULH .| d .| d << 5 .| s << 16) st)
  | Some IMUL_RCP =>
      let offset := Z.land (wrap 32 (literal_pos - codePos) / 4) (2 ^ 19 - 1) in
      st ← emit32 (ARMV8A.LDR_LITERAL .| tmp_reg .| offset << 5) st;
      st ← emit32 (ARMV8A.MUL .| d .| d << 5 .| tmp_reg << 16) st;
      Done (literal_pos + 8, st)
  | Some INVALID | None => Done (literal_pos, st)
  end.

(** The pre-pass that fills the literal pool, in program order. *)
Definition emit_literal (reciprocalCache : list Z) (st : emitter) (instr : Instruction) : outcome emitter :=
  if bool_decide (type_of_opcode (opcode instr) = Some IMUL_RCP)
  then v ← at_index reciprocalCache (getImm32 instr); emit64 v st
  else Done st.

(** The code of one program: the jump over the pool, the pool, the instructions. *)
Definition emit_program (no_e24_pad : bool) (prog : SuperscalarProgram) (reciprocalCache : list Z)
  (st : emitter) : outcome emitter :=
  let '(code, jmp_pos) := st in
  '(code, codePos) ← ofoldl (emit_literal reciprocalCache) (code, jmp_pos + 4)
                       (take (Z.to_nat (size_ prog)) (program_buffer_ prog));
  '(code, literal_pos) ← emit32 (ARMV8A.B .| (codePos - jmp_pos) / 4) (code, jmp_pos);
  emit_order ← scheduleSuperscalarProgram prog;
  '(_, st) ← ofoldl (fun '(literal_pos, st) j =>
                       instr ← program_at prog j; emit_instruction no_e24_pad instr literal_pos st)
               (literal_pos, (code, codePos)) emit_order;
  Done st.

(** [memcpy(code + codePos, p1, p2 - p1); codePos += p2 - p1;] *)
Definition emit_template (bs : list Z) (st : emitter) : outcome emitter :=
  let '(code, codePos) := st in
  code ← write_bytes code codePos bs; Done (code, codePos + Z.of_nat (length bs)).

(** The assembled pieces of [randomx_calc_dataset_item_aarch64]: up to the prefetch label, from the
    instruction after it to the mix label, up to the store_result label, up to the end. *)
Record templates : Type := mkTemplates {
  t_prologue : list Z;
  t_prefetch : list Z;
  t_mix : list Z;
  t_store : list Z;
}.

Definition CodeSize : Z := 51516.

(** The sizes of jit_contract.h. *)
Definition CalcDatasetItemSize : Z := 176 + 8 * ((12 + 4) + (170 * 3 + 2) * 16 + (48 + 4)) + 52.

Definition emit_round (no_e24_pad : bool) (t : templates) (reciprocalCache : list Z) (st : emitter)
  (prog : SuperscalarProgram) : outcome emitter :=
  st ← emit32 (ARMV8A.AND_IMM_64 .| 11 .| 10 << 5 .| (Z.log2 (kRandomXCacheBytes / 64) - 1) << 10) st;
  st ← emit_template (t_prefetch t) st;
  st ← emit_program no_e24_pad prog reciprocalCache st;
  st ← emit_template (t_mix t) st;
  emit32 (ARMV8A.MOV_REG .| 10 .| addr_reg_ prog << 16) st.

(** [std::abort] at the end is a [Throw]. *)
Definition generateSuperscalarHash (no_e24_pad : bool) (t : templates) (programs : list SuperscalarProgram)
  (reciprocalCache : list Z) (code : list Z) : outcome emitter :=
  st ← emit_template (t_prologue t) (code, CodeSize);
  st ← ofoldl (emit_round no_e24_pad t reciprocalCache) st programs;
  '(code, codePos) ← emit_template (t_store t) st;
  if CodeSize + CalcDatasetItemSize <? codePos
  then Throw (runtime_error "superscalar JIT emission overran its buffer slot")
  else Done (code, codePos).

(** ** The bytes that are written *)

(** [f] writes [bs] at [pos] and moves on. *)
Definition emits (f : emitter -> outcome emitter) (pos : Z) (bs : list Z) : Prop := forall code,
  0 <= pos -> pos + Z.of_nat (length bs) <= Z.of_nat (length code) ->
  f (code, pos) = (code ← write_bytes code pos bs; Done (code, pos + Z.of_nat (length bs))).

Definition word_bytes (ws : list Z) : list Z := concat (le_bytes 4 <$> ws).

Lemma word_bytes_length ws : length (word_bytes ws) = (4 * length ws)%nat.
Proof.
  induction ws as [|w ws IH]; [done|]. unfold word_bytes in *. rewrite fmap_cons. cbn [concat length].
  rewrite length_app, length_le_bytes, IH. lia.
Qed.
Lemma word_bytes_app ws1 ws2 : word_bytes (ws1 ++ ws2) = word_bytes ws1 ++ word_bytes ws2.
Proof. unfold word_bytes. by rewrite fmap_app, concat_app. Qed.

Lemma emits_emit32 val pos : emits (emit32 val) pos (word_bytes [val]).
Proof. intros code H0 Hl. unfold emit32. cbn [word_bytes concat fmap list_fmap]. by rewrite app_nil_r, length_le_bytes. Qed.

Lemma emits_bind f g pos b1 b2 :
  emits f pos b1 -> emits g (pos + Z.of_nat (length b1)) b2 -> emits (fun st => st ← f st; g st) pos (b1 ++ b2).
Proof.
  intros Hf Hg code H0 Hl. rewrite length_app in Hl. rewrite Hf by lia.
  rewrite <- write_bytes_app by lia.
  destruct (write_bytes code pos b1) as [code1| | |] eqn:E; try done. cbn [mbind outcome_bind].
  pose proof (write_bytes_length _ _ _ _ E) as Hl1. rewrite Hg by lia.
  destruct (write_bytes code1 _ b2); try done. cbn [mbind outcome_bind]. by rewrite length_app, Nat2Z.inj_add, Z.add_assoc.
Qed.

(** The words of each instruction; [off] is the offset field of a literal load. *)
Definition imm_words (no_e24_pad : bool) (d imm : Z) : list Z :=
  if no_e24_pad && (imm <? 1 << 16) then [ARMV8A.MOVZ .| d .| imm << 5]
  else [if to_signed 32 imm <? 0 then ARMV8A.MOVN .| d .| 1 << 21 .| (not32 imm >> 16) << 5
        else ARMV8A.MOVZ .| d .| 1 << 21 .| (imm >> 16) << 5;
        ARMV8A.MOVK .| d .| (Z.land imm 0xFFFF) << 5].

Definition instr_words (no_e24_pad : bool) (instr : Instruction) (off : Z) : list Z :=
  let s := src instr in
  let d := dst instr in
  match type_of_opcode (opcode instr) with
  | Some ISUB_R => [ARMV8A.SUB .| d .| d << 5 .| s << 16]
  | Some IXOR_R => [ARMV8A.EOR .| d .| d << 5 .| s << 16]
  | Some IADD_RS => [ARMV8A.ADD .| d .| d << 5 .| getModShift instr << 10 .| s << 16]
  | Some IMUL_R => [ARMV8A.MUL .| d .| d << 5 .| s << 16]
  | Some IROR_C => [ARMV8A.ROR_IMM .| d .| d << 5 .| (Z.land (getImm32 instr) 63) << 10 .| d << 16]
  | Some IADD_C7 | Some IADD_C8 | Some IADD_C9 =>
      imm_words no_e24_pad 13 (getImm32 instr) ++ [ARMV8A.ADD .| d .| d << 5 .| 13 << 16]
  | Some IXOR_C7 | Some IXOR_C8 | Some IXOR_C9 =>
      imm_words no_e24_pad tmp_reg (getImm32 instr) ++ [ARMV8A.EOR .| d .| d << 5 .| tmp_reg << 16]
  | Some IMULH_R => [ARMV8A.UMULH .| d .| d << 5 .| s << 16]
  | Some ISMULH_R => [ARMV8A.SMULH .| d .| d << 5 .| s << 16]
  | Some IMUL_RCP => [ARMV8A.LDR_LITERAL .| tmp_reg .| off << 5; ARMV8A.MUL .| d .| d << 5 .| tmp_reg << 16]
  | Some INVALID | None => []
  end.

Definition is_rcp (instr : Instruction) : bool := bool_decide (type_of_opcode (opcode instr) = Some IMUL_RCP).
Definition literal_offset (literal_pos codePos : Z) : Z := Z.land (wrap 32 (literal_pos - codePos) / 4) (2 ^ 19 - 1).
Definition next_literal (instr : Instruction) (literal_pos : Z) : Z :=
  if is_rcp instr then literal_pos + 8 else literal_pos.

Lemma emits_imm no_e24_pad d imm pos :
  emits (emitCpoolImmediate no_e24_pad d imm) pos (word_bytes (imm_words no_e24_pad d imm)).
Proof.
  intros code H0 Hl. unfold emitCpoolImmediate, imm_words in *. destruct (no_e24_pad && _); [by apply emits_emit32|].
  assert (Hc : forall st, (if to_signed 32 imm <? 0 then emit32 (ARMV8A.MOVN .| d .| 1 << 21 .| (not32 imm >> 16) << 5) st
      else emit32 (ARMV8A.MOVZ .| d .| 1 << 21 .| (imm >> 16) << 5) st) =
    emit32 (if to_signed 32 imm <? 0 then ARMV8A.MOVN .| d .| 1 << 21 .| (not32 imm >> 16) << 5
      else ARMV8A.MOVZ .| d .| 1 << 21 .| (imm >> 16) << 5) st) by (intros; by destruct (to_signed 32 imm <? 0)).
  rewrite Hc. match goal with |- _ = (_ ← write_bytes _ _ (word_bytes [?a; ?b]); _) =>
    change (word_bytes [a; b]) with (word_bytes ([a] ++ [b])) in *; rewrite word_bytes_app in * end.
  refine (emits_bind (emit32 _) (emit32 _) pos _ _ _ _ code H0 Hl); apply emits_emit32.
Qed.

(** Emitting one instruction writes its words. *)
Lemma emit_instruction_words no_e24_pad instr lp code pos :
  let bs := word_bytes (instr_words no_e24_pad instr (literal_offset lp pos)) in
  0 <= pos -> pos + Z.of_nat (length bs) <= Z.of_nat (length code) ->
  emit_instruction no_e24_pad instr lp (code, pos) =
    (code ← write_bytes code pos bs; Done (next_literal instr lp, (code, pos + Z.of_nat (length bs)))).
Proof.
  intros bs H0 Hl.
  assert (Hone : forall f ws, emits f pos (word_bytes ws) -> pos + Z.of_nat (length (word_bytes ws)) <= Z.of_nat (length code) ->
    (st ← f (code, pos); Done (lp, st)) =
      (code ← write_bytes code pos (word_bytes ws); Done (lp, (code, pos + Z.of_nat (length (word_bytes ws)))))).
  { intros f ws He Hf. rewrite (He code H0 Hf). by destruct (write_bytes code pos (word_bytes ws)). }
  assert (Hnil : write_bytes code pos [] = Done code).
  { rewrite write_bytes_ok by (cbn in *; lia). cbn [length app]. by rewrite Nat.add_0_r, take_drop. }
  subst bs. revert Hl. unfold emit_instruction, instr_words, next_literal, is_rcp. cbn [snd].
  destruct (type_of_opcode (opcode instr)) as [[]|];
    try match goal with |- context [bool_decide (?a = ?b)] => change (bool_decide (a = b)) with false end;
    cbv iota; intros Hl.
  all: try (by apply Hone; [apply emits_emit32|]).
  all: try (rewrite word_bytes_app in *; rewrite <- word_bytes_app in *;
    apply (Hone (fun st => st ← emitCpoolImmediate no_e24_pad _ _ st; emit32 _ st)); [|done];
    rewrite word_bytes_app; apply emits_bind; [apply emits_imm|apply emits_emit32]).
  all: try (cbn [word_bytes concat fmap list_fmap length]; rewrite Hnil; cbn; by rewrite Z.add_0_r).
  rewrite bool_decide_true by done.
  set (w1 := ARMV8A.LDR_LITERAL .| _ .| _). set (w2 := ARMV8A.MUL .| _ .| _ .| _).
  change (word_bytes [w1; w2]) with (word_bytes ([w1] ++ [w2])) in *. fold (literal_offset lp pos). fold w1.
  pose proof (emits_bind (emit32 w1) (emit32 w2) pos _ _ (emits_emit32 w1 pos) (emits_emit32 w2 _) code H0) as E.
  rewrite word_bytes_app in *. specialize (E Hl). cbn beta in E.
  assert (R : forall (x y : outcome emitter), x = y ->
    (st ← x; Done (lp + 8, st)) = (st ← y; Done (lp + 8, st))) by (by intros ? ? ->).
  apply R in E. clear R. etrans; [|etrans; [exact E|]].
  - by destruct (emit32 w1 (code, pos)).
  - by destruct (write_bytes code pos (word_bytes [w1] ++ word_bytes [w2])).
Qed.

(** ** Running emitted words *)

(** The bytes [bs] are in memory at [pos]. *)
Definition holds (code : list Z) (pos : Z) (bs : list Z) : Prop := read_bytes code pos (length bs) = Done bs.

Lemma holds_bounds code pos bs : holds code pos bs -> 0 <= pos /\ pos + Z.of_nat (length bs) <= Z.of_nat (length code).
Proof. unfold holds, read_bytes. destruct (_ && _) eqn:E; [|done]. blia. Qed.

Lemma holds_app code pos b1 b2 :
  holds code pos (b1 ++ b2) -> holds code pos b1 /\ holds code (pos + Z.of_nat (length b1)) b2.
Proof.
  intros H. pose proof (holds_bounds _ _ _ H) as [H0 Hl]. rewrite length_app in Hl. unfold holds in *.
  rewrite length_app, <- read_bytes_app in H by lia. rewrite !read_bytes_ok in H by lia. rewrite !read_bytes_ok by lia.
  cbn [mbind outcome_bind] in H. injection H as H. apply app_inj_1 in H as [E1 E2]; [by rewrite E1, E2|].
  rewrite length_take, length_drop. lia.
Qed.

Lemma run_word code w ws pc xs i pc' xs' n :
  holds code pc (word_bytes (w :: ws)) -> 0 <= w < 2 ^ 32 -> decode w = Some i ->
  exec code i pc xs = Done (pc', xs') -> a64_run (S n) code (pc, xs) = a64_run n code (pc', xs').
Proof.
  intros H Hw Hd He. change (w :: ws) with ([w] ++ ws) in H. rewrite word_bytes_app in H.
  apply holds_app in H as [H _]. cbn [word_bytes fmap list_fmap concat] in H. rewrite app_nil_r in H.
  unfold holds in H. rewrite length_le_bytes in H. cbn [a64_run a64_step]. unfold read_le. rewrite H.
  cbn [mbind outcome_bind]. rewrite of_le_bytes, wrap_small by exact Hw. rewrite Hd, He. done.
Qed.

Lemma a64_run_0 code st : a64_run 0 code st = Done st.
Proof. done. Qed.

Lemma holds_next code w ws pc : holds code pc (word_bytes (w :: ws)) -> holds code (pc + 4) (word_bytes ws).
Proof.
  change (w :: ws) with ([w] ++ ws). rewrite word_bytes_app. intros [_ H]%holds_app.
  by rewrite word_bytes_length in H.
Qed.

Definition machine (xs : list Z) : Prop := length xs = 31%nat /\ Words xs.

Lemma xget_word xs n : machine xs -> 0 <= n < 32 -> word64 (xget xs n).
Proof.
  intros [Hl Hw] Hn. unfold xget. destruct (Z.eqb_spec n 31); [split; lia|].
  destruct (lookup_lt_is_Some_2 xs (Z.to_nat n)) as [v Hv]; [lia|].
  rewrite (list_lookup_total_correct _ _ _ Hv). by apply (Forall_lookup_1 _ _ _ _ Hw Hv).
Qed.
Lemma xset_machine xs n v : machine xs -> word64 v -> machine (xset xs n v).
Proof.
  intros [Hl Hw] Hv. unfold xset. destruct (n =? 31); [done|]. split; [by rewrite length_insert|].
  by apply Forall_insert.
Qed.
Lemma xget_xset xs n v : machine xs -> 0 <= n < 31 -> xget (xset xs n v) n = v.
Proof.
  intros [Hl _] Hn. unfold xget, xset. destruct (Z.eqb_spec n 31); [lia|]. apply list_lookup_total_insert_eq. lia.
Qed.
Lemma xget_xset_ne xs n k v : 0 <= n -> 0 <= k -> n <> k -> xget (xset xs n v) k = xget xs k.
Proof.
  intros Hn Hk Hne. unfold xget, xset. destruct (Z.eqb_spec k 31); [done|]. destruct (Z.eqb_spec n 31); [done|].
  apply list_lookup_total_insert_ne. lia.
Qed.
Lemma xset_xset xs n v w : xset (xset xs n v) n w = xset xs n w.
Proof. unfold xset. destruct (n =? 31); [done|]. apply list_insert_insert_eq. Qed.

(** ** Values *)

Lemma shl64_0 v : word64 v -> shl64 v 0 = v.
Proof. intros Hv. unfold shl64. by rewrite Z.shiftl_0_r, wrap_small. Qed.
Lemma not64_sub v : word64 v -> not64 v = 2 ^ 64 - 1 - v.
Proof.
  intros Hv. apply word64_ext; [by apply not64_range|unfold in_range in *; lia|]. intros i Hi.
  unfold not64. rewrite Z.lxor_spec, testbit_ones by lia. destruct (Z.ltb_spec i 64); [|lia].
  replace (2 ^ 64 - 1 - v) with (Z.lnot v + 1 * 2 ^ 64) by (unfold Z.lnot; lia).
  rewrite <- (Z.mod_pow2_bits_low (Z.lnot v + 1 * 2 ^ 64) 64 i) by lia.
  rewrite Z.mod_add, Z.mod_pow2_bits_low, Z.lnot_spec by lia.
  by destruct (Z.testbit v i).
Qed.
Lemma not32_sub v : 0 <= v < 2 ^ 32 -> not32 v = 2 ^ 32 - 1 - v.
Proof.
  intros Hv. unfold not32, wrap, Z.lnot. rewrite <- (Z.mod_small (2 ^ 32 - 1 - v) (2 ^ 32)) by lia.
  replace (2 ^ 32 - 1 - v) with (Z.pred (- v) + 1 * 2 ^ 32) by lia. by rewrite Z.mod_add by lia.
Qed.
Lemma movk_low v lo : word64 v -> 0 <= lo < 65536 ->
  Z.lor (Z.land v (not64 (shl64 0xFFFF 0))) (shl64 lo 0) = v - v mod 65536 + lo.
Proof.
  intros Hv Hlo. rewrite !shl64_0 by (unfold in_range in *; lia).
  assert (E : Z.land v (not64 0xFFFF) = Z.shiftl (v / 65536) 16).
  { apply word64_ext.
    - auto with word lia.
    - rewrite Z.shiftl_mul_pow2 by lia. unfold in_range in *. change (2 ^ 16) with 65536.
      pose proof (Z.mod_pos_bound v 65536). pose proof (Z.div_mod v 65536). lia.
    - intros i Hi. rewrite Z.land_spec. unfold not64. change 0xFFFF with (Z.ones 16).
      rewrite Z.lxor_spec, !testbit_ones, testbit_shiftl by lia. destruct (Z.ltb_spec i 64); [|lia].
      change 65536 with (2 ^ 16). rewrite <- Z.shiftr_div_pow2 by lia.
      destruct (Z.ltb_spec i 16), (Z.leb_spec 16 i); try lia; cbn; [apply andb_false_r|].
      rewrite Z.shiftr_spec, andb_true_r by lia. f_equal. lia. }
  rewrite E. rewrite <- (Z.shiftl_0_r lo) at 1. rewrite (lor_field _ lo 0 16); try lia.
  - rewrite Z.shiftl_mul_pow2 by lia. change (2 ^ 16) with 65536. pose proof (Z.div_mod v 65536). lia.
  - rewrite Z.shiftl_mul_pow2 by lia. change (2 ^ (0 + 16)) with (2 ^ 16). by rewrite Z.mod_mul by lia.
Qed.

(** [extr] of a register with itself rotates it. *)
Lemma extr_rotr x k : word64 x -> 0 <= k < 64 -> wrap 64 (Z.shiftr (x * 2 ^ 64 + x) k) = rotr64 x k.
Proof.
  intros Hx Hk. apply word64_ext; [by apply wrap_range|by apply rotr64_range|]. intros i Hi.
  rewrite testbit_wrap, Z.shiftr_spec, testbit_rotr64 by (done || lia). destruct (Z.ltb_spec i 64); [|lia]. cbn [andb].
  rewrite Z.add_comm. rewrite <- (lor_field x x 64 64); [| lia | lia | exact Hx |].
  - rewrite Z.lor_spec, testbit_shiftl by lia. destruct (Z.leb_spec 64 (i + k)); cbn [andb].
    + rewrite (testbit_high 64) by (done || lia). cbn [orb]. f_equal.
      rewrite <- (Z.mod_small (i + k - 64) 64) by lia. rewrite <- (Z.mod_add (i + k - 64) 1) by lia. f_equal. lia.
    + rewrite orb_false_r, Z.mod_small by lia. done.
  - rewrite Z.mod_small; [apply Hx|]. unfold in_range in *. change (2 ^ (64 + 64)) with (2 ^ 64 * 2 ^ 64). lia.
Qed.

(** ** Instructions *)

(** Loads of immediates. *)
Lemma wide_word op d hw imm :
  op mod 2 ^ 23 = 0 -> 0 <= d < 32 -> 0 <= hw < 4 -> 0 <= imm < 65536 ->
  (op .| d .| hw << 21 .| imm << 5 = op + d + hw * 2097152 + imm * 32) /\
  (op .| d .| imm << 5 = op + d + 0 * 2097152 + imm * 32).
Proof.
  intros Ho Hd Hw Hi. rewrite (lor_low op d) by plia. rewrite (lor_field _ hw 21 2) by plia.
  rewrite !(lor_field _ imm 5 16) by plia. split; plia.
Qed.

Lemma imm_runs no_e24_pad d imm code pc xs :
  0 <= d < 31 -> 0 <= imm < 2 ^ 32 -> machine xs -> holds code pc (word_bytes (imm_words no_e24_pad d imm)) ->
  let n := length (imm_words no_e24_pad d imm) in
  a64_run n code (pc, xs) = Done (pc + 4 * Z.of_nat n, xset xs d (sext32 imm)).
Proof.
  intros Hd Hi Hxs. unfold imm_words. change (1 << 16) with 65536.
  assert (H1 : 0 <= Z.land imm 0xFFFF < 65536).
  { change 0xFFFF with (Z.ones 16). rewrite Z.land_ones by lia. apply Z.mod_pos_bound. lia. }
  assert (H1' : Z.land imm 0xFFFF = imm mod 65536) by (change 0xFFFF with (Z.ones 16); by rewrite Z.land_ones by lia).
  assert (H2 : 0 <= imm >> 16 < 65536) by (rewrite Z.shiftr_div_pow2 by lia; plia).
  assert (H3 : 0 <= not32 imm >> 16 < 65536) by (rewrite not32_sub, Z.shiftr_div_pow2 by lia; plia).
  assert (Hk : forall v, word64 v -> sext32 imm = v - v mod 65536 + imm mod 65536 -> forall ws pc,
    holds code pc (word_bytes ((ARMV8A.MOVK .| d .| (Z.land imm 0xFFFF) << 5) :: ws)) ->
    a64_run 1 code (pc, xset xs d v) = Done (pc + 4, xset xs d (sext32 imm))).
  { intros v Hv Hs ws pc0 Hh. pose proof (wide_word ARMV8A.MOVK d 0 _ ltac:(reflexivity) ltac:(lia) ltac:(lia) H1) as [_ W].
    rewrite W in Hh. erewrite (run_word _ _ _ _ _ _ _ _ 0 Hh); [reflexivity|unfold ARMV8A.MOVK; plia|apply decode_MOVK; lia|].
    cbn [exec]. rewrite xset_xset. do 3 f_equal. change (16 * 0) with 0.
    rewrite movk_low; [|by rewrite xget_xset by (done || lia)|done]. rewrite xget_xset by (done || lia).
    by rewrite Hs, H1'. }
  destruct (no_e24_pad && (imm <? 65536)) eqn:Hp; cbn [length]; intros Hh.
  - apply andb_true_iff in Hp as [_ Hp%Z.ltb_lt].
    pose proof (wide_word ARMV8A.MOVZ d 0 imm ltac:(reflexivity) ltac:(lia) ltac:(lia) ltac:(lia)) as [_ W]. rewrite W in Hh.
    erewrite (run_word _ _ _ _ _ _ _ _ 0 Hh); [|unfold ARMV8A.MOVZ; plia|apply decode_MOVZ; lia|reflexivity].
    cbn [a64_run]. do 2 f_equal. change (16 * 0) with 0. f_equal. rewrite shl64_0 by (unfold in_range; lia).
    unfold sext32, to_signed. rewrite (wrap_small 32) by (unfold in_range; lia). change (2 ^ (32 - 1)) with 2147483648.
    destruct (Z.ltb_spec imm 2147483648); [|lia]. by rewrite wrap_small by (unfold in_range; lia).
  - pose proof (holds_next _ _ _ _ Hh) as Hh2. change 2%nat with (1 + 1)%nat. rewrite a64_run_app.
    assert (Hs : sext32 imm = if imm <? 2147483648 then imm else 2 ^ 64 - 2 ^ 32 + imm).
    { unfold sext32, to_signed. rewrite (wrap_small 32) by (unfold in_range; lia). change (2 ^ (32 - 1)) with 2147483648.
      destruct (Z.ltb_spec imm 2147483648); [by rewrite wrap_small by (unfold in_range; lia)|].
      unfold wrap. rewrite <- (Z.mod_small (2 ^ 64 - 2 ^ 32 + imm) (2 ^ 64)) by lia.
      replace (2 ^ 64 - 2 ^ 32 + imm) with (imm - 2 ^ 32 + 1 * 2 ^ 64) by lia. by rewrite Z.mod_add by lia. }
    assert (Hsg : (to_signed 32 imm <? 0) = negb (imm <? 2147483648)).
    { unfold to_signed. rewrite (wrap_small 32) by (unfold in_range; lia). change (2 ^ (32 - 1)) with 2147483648.
      destruct (Z.ltb_spec imm 2147483648); cbn [negb]; [apply Z.ltb_ge; lia|apply Z.ltb_lt; lia]. }
    rewrite Hsg in Hh. destruct (Z.ltb_spec imm 2147483648) as [Hlt|Hge]; cbn [negb] in Hh.
    + pose proof (wide_word ARMV8A.MOVZ d 1 _ ltac:(reflexivity) ltac:(lia) ltac:(lia) H2) as [W _]. rewrite W in Hh.
      erewrite (run_word _ _ _ _ _ _ _ _ 0 Hh); [|unfold ARMV8A.MOVZ; plia|apply decode_MOVZ; lia|reflexivity].
      rewrite a64_run_0. cbn [mbind outcome_bind]. assert (E : shl64 (imm >> 16) (16 * 1) = imm - imm mod 65536).
      { unfold shl64. rewrite Z.shiftl_mul_pow2, Z.shiftr_div_pow2 by lia. change (2 ^ (16 * 1)) with 65536. change (2 ^ 16) with 65536.
        rewrite wrap_small; [plia|]. unfold in_range. plia. }
      rewrite E. rewrite (Hk (imm - imm mod 65536) ltac:(unfold in_range; plia) ltac:(rewrite Hs; plia) _ _ Hh2).
      do 2 f_equal. lia.
    + pose proof (wide_word ARMV8A.MOVN d 1 _ ltac:(reflexivity) ltac:(lia) ltac:(lia) H3) as [W _]. rewrite W in Hh.
      erewrite (run_word _ _ _ _ _ _ _ _ 0 Hh); [|unfold ARMV8A.MOVN; plia|apply decode_MOVN; lia|reflexivity].
      rewrite a64_run_0. cbn [mbind outcome_bind].
      assert (E : not64 (shl64 (not32 imm >> 16) (16 * 1)) = 2 ^ 64 - 2 ^ 32 + imm - imm mod 65536 + 65535).
      { unfold shl64. rewrite not32_sub, Z.shiftl_mul_pow2, Z.shiftr_div_pow2 by lia. change (2 ^ (16 * 1)) with 65536.
        change (2 ^ 16) with 65536. rewrite wrap_small by (unfold in_range; plia).
        rewrite not64_sub by (unfold in_range; plia). plia. }
      rewrite E. rewrite (Hk (2 ^ 64 - 2 ^ 32 + imm - imm mod 65536 + 65535) ltac:(unfold in_range; plia)
        ltac:(rewrite Hs; plia) _ _ Hh2). do 2 f_equal. lia.
Qed.

(** The registers of the program are x0 to x7; x12 and x13 are scratch. *)
Record ran (xs xs' : list Z) (r' : list Z) : Prop := mkRan {
  rn_machine : machine xs';
  rn_regs : take 8 xs' = r';
  rn_frame : forall k, (8 <= k)%nat -> k <> 12%nat -> k <> 13%nat -> xs' !! k = xs !! k;
}.

Lemma get_take xs d v : machine xs -> 0 <= d < 8 -> get_reg (take 8 xs) d = Done v -> v = xget xs d.
Proof.
  intros [Hl _] Hd. unfold get_reg, xget. rewrite lookup_take_lt by lia. destruct (Z.eqb_spec d 31); [lia|].
  destruct (xs !! Z.to_nat d) eqn:E; [|done]. intros [= <-]. symmetry. by apply list_lookup_total_correct.
Qed.
Lemma take_xset xs d v : 0 <= d < 8 -> take 8 (xset xs d v) = set_reg (take 8 xs) d v.
Proof. intros Hd. unfold xset, set_reg. destruct (Z.eqb_spec d 31); [lia|]. apply take_insert_lt. lia. Qed.
Lemma take_xset_tmp xs t v : 8 <= t -> take 8 (xset xs t v) = take 8 xs.
Proof. intros Ht. unfold xset. destruct (t =? 31); [done|]. apply take_insert_ge. lia. Qed.

Lemma xset_ran xs xs0 d v r' : machine xs -> 0 <= d < 8 -> word64 v -> set_reg (take 8 xs) d v = r' ->
  (forall k, (8 <= k)%nat -> k <> 12%nat -> k <> 13%nat -> xs !! k = xs0 !! k) -> ran xs0 (xset xs d v) r'.
Proof.
  intros Hm Hd Hv Hr Hf. constructor; [by apply xset_machine|by rewrite take_xset|].
  intros k Hk H1 H2. unfold xset. destruct (d =? 31); [by apply Hf|].
  rewrite list_lookup_insert_ne by lia. by apply Hf.
Qed.

Lemma upd2_value f instr xs r' : machine xs -> regs_ok instr -> upd2 f (take 8 xs) instr = Done r' ->
  r' = set_reg (take 8 xs) (dst instr) (f (xget xs (dst instr)) (xget xs (src instr))).
Proof.
  intros Hm [Hd Hs] H. unfold upd2 in H. apply bind_Done in H as (d & E1 & H). apply bind_Done in H as (s & E2 & H).
  apply get_take in E1 as ->; [|done|done]. apply get_take in E2 as ->; [|done|done]. by injection H as <-.
Qed.
Lemma upd1_value f instr xs r' : machine xs -> regs_ok instr -> upd1 f (take 8 xs) instr = Done r' ->
  r' = set_reg (take 8 xs) (dst instr) (f (xget xs (dst instr))).
Proof.
  intros Hm [Hd Hs] H. unfold upd1 in H. apply bind_Done in H as (d & E1 & H).
  apply get_take in E1 as ->; [|done|done]. by injection H as <-.
Qed.

(** One word that sets the destination. *)
Lemma word_ran code pc xs xs0 w i d v r' :
  holds code pc (word_bytes [w]) -> 0 <= w < 2 ^ 32 -> decode w = Some i ->
  exec code i pc xs = Done (pc + 4, xset xs d v) -> machine xs -> 0 <= d < 8 -> word64 v ->
  r' = set_reg (take 8 xs) d v ->
  (forall k, (8 <= k)%nat -> k <> 12%nat -> k <> 13%nat -> xs !! k = xs0 !! k) ->
  exists xs', a64_run 1 code (pc, xs) = Done (pc + 4, xs') /\ ran xs0 xs' r'.
Proof.
  intros Hh Hw Hd He Hm Hdr Hv -> Hf. eexists. split; [by rewrite (run_word _ _ _ _ _ _ _ _ 0 Hh Hw Hd He)|].
  by apply xset_ran.
Qed.

Section instr.
Context (d s sh : Z) (Hd : 0 <= d < 32) (Hs : 0 <= s < 32) (Hsh : 0 <= sh < 64).

Lemma sub_word : (ARMV8A.SUB .| d .| d << 5 .| s << 16) = 0xCB000000 + d + d * 32 + 0 * 1024 + s * 65536.
Proof. clear sh Hsh. rewrite word3 by (unfold ARMV8A.SUB; reflexivity || lia). unfold ARMV8A.SUB. lia. Qed.
Lemma eor_word : (ARMV8A.EOR .| d .| d << 5 .| s << 16) = 0xCA000000 + d + d * 32 + 0 * 1024 + s * 65536.
Proof. clear sh Hsh. rewrite word3 by (unfold ARMV8A.EOR; reflexivity || lia). unfold ARMV8A.EOR. lia. Qed.
Lemma add_word : (ARMV8A.ADD .| d .| d << 5 .| s << 16) = 0x8B000000 + d + d * 32 + 0 * 1024 + s * 65536.
Proof. clear sh Hsh. rewrite word3 by (unfold ARMV8A.ADD; reflexivity || lia). unfold ARMV8A.ADD. lia. Qed.
Lemma add_shift_word : (ARMV8A.ADD .| d .| d << 5 .| sh << 10 .| s << 16) = 0x8B000000 + d + d * 32 + sh * 1024 + s * 65536.
Proof. apply word4; lia || reflexivity. Qed.
Lemma ror_word : (ARMV8A.ROR_IMM .| d .| d << 5 .| sh << 10 .| d << 16) = 0x93C00000 + d + d * 32 + sh * 1024 + d * 65536.
Proof. clear s Hs. apply word4; lia || reflexivity. Qed.
Lemma mul_word : (ARMV8A.MUL .| d .| d << 5 .| s << 16) = 0x9B007C00 + d + d * 32 + s * 65536.
Proof. clear sh Hsh. apply word3; lia || reflexivity. Qed.
Lemma umulh_word : (ARMV8A.UMULH .| d .| d << 5 .| s << 16) = 0x9BC07C00 + d + d * 32 + s * 65536.
Proof. clear sh Hsh. apply word3; lia || reflexivity. Qed.
Lemma smulh_word : (ARMV8A.SMULH .| d .| d << 5 .| s << 16) = 0x9B407C00 + d + d * 32 + s * 65536.
Proof. clear sh Hsh. apply word3; lia || reflexivity. Qed.
End instr.

Lemma literal_offset_value lp pc :
  (lp - pc) mod 4 = 0 -> - 2 ^ 20 <= lp - pc < 2 ^ 20 ->
  0 <= literal_offset lp pc < 2 ^ 19 /\ 4 * to_signed 19 (literal_offset lp pc) = lp - pc.
Proof.
  intros H4 Hr. unfold literal_offset. change (2 ^ 19 - 1) with (Z.ones 19). rewrite Z.land_ones by lia.
  assert (E : (wrap 32 (lp - pc) / 4) mod 2 ^ 19 = ((lp - pc) / 4) mod 2 ^ 19) by (unfold wrap; plia).
  rewrite E. split; [plia|]. unfold to_signed, wrap. rewrite Z.mod_mod by lia. change (2 ^ (19 - 1)) with 262144.
  destruct (Z.ltb_spec (((lp - pc) / 4) mod 2 ^ 19) 262144); plia.
Qed.

Lemma modshift_range instr : 0 <= getModShift instr < 4.
Proof. unfold getModShift. apply Z.mod_pos_bound. lia. Qed.
Lemma land63 x : 0 <= Z.land x 63 < 64 /\ Z.land x 63 = x mod 64.
Proof. change 63 with (Z.ones 6). rewrite Z.land_ones by lia. split; [apply Z.mod_pos_bound; lia|done]. Qed.
Lemma rotr64_mod x a b : a mod 64 = b mod 64 -> rotr64 x a = rotr64 x b.
Proof. unfold rotr64. by intros ->. Qed.

Lemma ref_frame (xs : list Z) : forall k, (8 <= k)%nat -> k <> 12%nat -> k <> 13%nat -> xs !! k = xs !! k.
Proof. done. Qed.

(** One word for one instruction with two operands: its encoding, then what it decodes to. *)
Ltac op2_runs word He Hh dec :=
  rewrite word in Hh by lia; rewrite ?word by lia; apply upd2_value in He; [|done|done]; cbn [length];
  eapply word_ran; [exact Hh|lia|dec|reflexivity|done|done| |rewrite He; f_equal|apply ref_frame].

Lemma mul_madd a b : add64 0 (mul64 a b) = mul64 a b.
Proof. unfold add64. rewrite Z.add_0_l. apply wrap_small. auto with word. Qed.
Lemma to_signed_mod64 x : x mod 64 = to_signed 32 x mod 64.
Proof. unfold to_signed, wrap. destruct (_ <? _); plia. Qed.

Section runs.
Context (no_e24_pad : bool) (rc : list Z) (code : list Z).

(** The literal of an IMUL_RCP is in reach, and is its reciprocal. *)
Definition literal_ok (instr : Instruction) (lp pc : Z) : Prop :=
  is_rcp instr = true -> (lp - pc) mod 4 = 0 /\ - 2 ^ 20 <= lp - pc < 2 ^ 20 /\
    exists v, rc !! Z.to_nat (getImm32 instr) = Some v /\ word64 v /\ read_le code lp 8 = Done v.

(** Loading an immediate and combining it with the destination. *)
Lemma imm_op_ran d t imm w i v pc xs r' :
  0 <= d < 8 -> t = 12 \/ t = 13 -> 0 <= imm < 2 ^ 32 -> machine xs ->
  holds code pc (word_bytes (imm_words no_e24_pad t imm ++ [w])) -> 0 <= w < 2 ^ 32 -> decode w = Some i ->
  (forall pc, exec code i pc (xset xs t (sext32 imm)) = Done (pc + 4, xset (xset xs t (sext32 imm)) d v)) ->
  word64 v -> r' = set_reg (take 8 xs) d v ->
  let n := length (imm_words no_e24_pad t imm ++ [w]) in
  exists xs', a64_run n code (pc, xs) = Done (pc + 4 * Z.of_nat n, xs') /\ ran xs xs' r'.
Proof.
  intros Hd Ht Hi Hm Hh Hw Hdec He Hv Hr n. rewrite word_bytes_app in Hh. apply holds_app in Hh as [H1 H2].
  subst n. rewrite length_app. rewrite a64_run_app, imm_runs by (done || lia). cbn [mbind outcome_bind length].
  rewrite word_bytes_length in H2. replace (Z.of_nat (4 * _)) with (4 * Z.of_nat (length (imm_words no_e24_pad t imm))) in H2 by lia.
  destruct (word_ran code _ (xset xs t (sext32 imm)) xs w i d v r' H2 Hw Hdec (He _)) as (xs' & E & Hran).
  - apply xset_machine; [done|apply sext32_range].
  - done.
  - done.
  - rewrite take_xset_tmp by lia. done.
  - intros k Hk H12 H13. unfold xset. destruct (t =? 31); [done|]. rewrite list_lookup_insert_ne by lia. done.
  - exists xs'. split; [|done]. rewrite E. do 2 f_equal. lia.
Qed.

(** [mov t, imm; op d, d, t]. *)
Lemma imm_op_value op t instr pc xs r' w i :
  let imm := getImm32 instr in
  let d := dst instr in
  t = 12 \/ t = 13 -> machine xs -> regs_ok instr -> 0 <= imm < 2 ^ 32 ->
  (forall a b, word64 a -> word64 b -> word64 (op a b)) ->
  upd1 (fun x => op x (signExtend2sCompl imm)) (take 8 xs) instr = Done r' ->
  holds code pc (word_bytes (imm_words no_e24_pad t imm ++ [w])) -> 0 <= w < 2 ^ 32 -> decode w = Some i ->
  (forall pc xs, machine xs -> exec code i pc xs = Done (pc + 4, xset xs d (op (xget xs d) (xget xs t)))) ->
  let n := length (imm_words no_e24_pad t imm ++ [w]) in
  exists xs', a64_run n code (pc, xs) = Done (pc + 4 * Z.of_nat n, xs') /\ ran xs xs' r'.
Proof.
  intros imm d Ht Hm Hregs Hi Hop He Hh Hw Hdec Hex. pose proof Hregs as [Hd Hs]. apply upd1_value in He; [|done|done].
  assert (Hm' : machine (xset xs t (sext32 imm))) by (apply xset_machine; [done|apply sext32_range]).
  apply (imm_op_ran d t imm w i (op (xget xs d) (sext32 imm))); try done.
  - intros pc'. rewrite Hex by done. rewrite xget_xset_ne by (subst d; lia). by rewrite xget_xset by (done || lia).
  - apply Hop; [apply xget_word; subst d; done || lia|apply sext32_range].
Qed.

Lemma add_imm_runs t instr pc xs r' :
  let w := ARMV8A.ADD .| dst instr .| dst instr << 5 .| t << 16 in
  t = 12 \/ t = 13 -> machine xs -> regs_ok instr -> 0 <= getImm32 instr < 2 ^ 32 ->
  upd1 (fun x => add64 x (signExtend2sCompl (getImm32 instr))) (take 8 xs) instr = Done r' ->
  holds code pc (word_bytes (imm_words no_e24_pad t (getImm32 instr) ++ [w])) ->
  let n := length (imm_words no_e24_pad t (getImm32 instr) ++ [w]) in
  exists xs', a64_run n code (pc, xs) = Done (pc + 4 * Z.of_nat n, xs') /\ ran xs xs' r'.
Proof.
  intros w Ht Hm Hregs Hi He Hh. subst w. pose proof Hregs as [Hd _]. rewrite add_word in * by lia.
  eapply (imm_op_value add64); try done; [intros; auto with word|lia|apply decode_ADD; lia|].
  intros pc' xs' Hm'. cbn [exec]. rewrite shl64_0; [done|]. apply xget_word; [done|lia].
Qed.
Lemma eor_imm_runs t instr pc xs r' :
  let w := ARMV8A.EOR .| dst instr .| dst instr << 5 .| t << 16 in
  t = 12 \/ t = 13 -> machine xs -> regs_ok instr -> 0 <= getImm32 instr < 2 ^ 32 ->
  upd1 (fun x => Z.lxor x (signExtend2sCompl (getImm32 instr))) (take 8 xs) instr = Done r' ->
  holds code pc (word_bytes (imm_words no_e24_pad t (getImm32 instr) ++ [w])) ->
  let n := length (imm_words no_e24_pad t (getImm32 instr) ++ [w]) in
  exists xs', a64_run n code (pc, xs) = Done (pc + 4 * Z.of_nat n, xs') /\ ran xs xs' r'.
Proof.
  intros w Ht Hm Hregs Hi He Hh. subst w. pose proof Hregs as [Hd _]. rewrite eor_word in * by lia.
  eapply (imm_op_value Z.lxor); try done; [intros; auto with word|lia|apply decode_EOR; lia|].
  intros pc' xs' Hm'. cbn [exec]. rewrite shl64_0; [done|]. apply xget_word; [done|lia].
Qed.

(** The literal is loaded and multiplied in. *)
Lemma rcp_runs instr lp pc xs r' :
  let off := literal_offset lp pc in
  is_rcp instr = true -> machine xs -> regs_ok instr ->
  (rcp ← reciprocal_of (Some rc) (getImm32 instr); upd1 (fun x => mul64 x rcp) (take 8 xs) instr) = Done r' ->
  holds code pc (word_bytes [ARMV8A.LDR_LITERAL .| tmp_reg .| off << 5;
    ARMV8A.MUL .| dst instr .| dst instr << 5 .| tmp_reg << 16]) -> literal_ok instr lp pc ->
  exists xs', a64_run 2 code (pc, xs) = Done (pc + 8, xs') /\ ran xs xs' r'.
Proof.
  intros off Hrcp Hm Hregs He Hh Hlit. destruct (Hlit Hrcp) as (H4 & Hr & v & Hv & Wv & Hl). pose proof Hregs as [Hd _].
  destruct (literal_offset_value lp pc H4 Hr) as [Ho Eo]. fold off in Ho, Eo. unfold reciprocal_of in He. rewrite Hv in He.
  cbn [mbind outcome_bind] in He. apply upd1_value in He; [|done|done]. unfold tmp_reg in Hh.
  clearbody off. change (ARMV8A.LDR_LITERAL .| 12) with (0x58000000 + 12) in Hh.
  rewrite (lor_field _ off 5 19) in Hh by plia. change (2 ^ 5) with 32 in Hh.
  pose proof (holds_next _ _ _ _ Hh) as Hh2. rewrite mul_word in Hh2 by lia.
  erewrite (run_word _ _ _ _ _ _ _ _ 1 Hh); [|plia|apply decode_LDR; lia|].
  2: { cbn [exec]. rewrite Eo. replace (pc + (lp - pc)) with lp by lia. rewrite Hl. reflexivity. }
  destruct (word_ran code (pc + 4) (xset xs 12 v) xs _ _ (dst instr) (mul64 (xget xs (dst instr)) v) r' Hh2
    ltac:(lia) ltac:(apply decode_MUL; lia)) as (xs' & E & R).
  - cbn [exec]. change (xget (xset xs 12 v) 31) with 0. rewrite (xget_xset_ne _ _ (dst instr)) by lia.
    rewrite xget_xset by (done || lia). by rewrite mul_madd.
  - by apply xset_machine.
  - done.
  - auto with word.
  - by rewrite take_xset_tmp by lia.
  - intros k Hk H1 H2. unfold xset. cbn [Z.eqb Pos.eqb]. rewrite list_lookup_insert_ne by lia. done.
  - exists xs'. split; [|done]. rewrite E. do 2 f_equal. lia.
Qed.

Lemma instr_runs instr lp pc xs r' :
  machine xs -> regs_ok instr -> 0 <= imm32 instr < 2 ^ 32 ->
  execute_instruction (Some rc) (take 8 xs) instr = Done r' ->
  holds code pc (word_bytes (instr_words no_e24_pad instr (literal_offset lp pc))) -> literal_ok instr lp pc ->
  let n := length (instr_words no_e24_pad instr (literal_offset lp pc)) in
  exists xs', a64_run n code (pc, xs) = Done (pc + 4 * Z.of_nat n, xs') /\ ran xs xs' r'.
Proof.
  intros Hm Hregs Himm He Hh Hlit. pose proof Hregs as [Hd Hs].
  pose proof (xget_word xs (dst instr) Hm ltac:(lia)) as Wd. pose proof (xget_word xs (src instr) Hm ltac:(lia)) as Ws.
  pose proof (modshift_range instr) as Hsh. destruct (land63 (getImm32 instr)) as [H63 E63].
  revert He Hh. unfold execute_instruction, instr_words. destruct (type_of_opcode (opcode instr)) as [[]|] eqn:Ety; intros He Hh;
    try discriminate He; cbv zeta.
  - op2_runs sub_word He Hh ltac:(apply decode_SUB; lia); rewrite shl64_0 by done; auto with word.
  - op2_runs eor_word He Hh ltac:(apply decode_EOR; lia); rewrite shl64_0 by done; auto with word.
  - op2_runs add_shift_word He Hh ltac:(apply decode_ADD; lia); auto with word.
  - op2_runs mul_word He Hh ltac:(apply decode_MUL; lia); [auto with word|]. by rewrite mul_madd.
  - rewrite ror_word in Hh by lia. rewrite ror_word by lia. apply upd1_value in He; [|done|done]. cbn [length].
    eapply word_ran; [exact Hh|lia|apply decode_EXTR; lia|reflexivity|done|done| |rewrite He; f_equal|apply ref_frame].
    + by apply wrap_range.
    + rewrite extr_rotr by done. apply rotr64_mod. rewrite E63, Z.mod_mod by lia. symmetry. apply to_signed_mod64.
  - apply (add_imm_runs 13); auto.
  - apply (eor_imm_runs 12); auto.
  - apply (add_imm_runs 13); auto.
  - apply (eor_imm_runs 12); auto.
  - apply (add_imm_runs 13); auto.
  - apply (eor_imm_runs 12); auto.
  - op2_runs umulh_word He Hh ltac:(apply decode_UMULH; lia); auto with word.
  - op2_runs smulh_word He Hh ltac:(apply decode_SMULH; lia); auto with word.
  - destruct (rcp_runs instr lp pc xs r') as (xs' & E & R); try done; [by apply bool_decide_true|].
    exists xs'. split; [|done]. cbn [length]. exact E.
Qed.
End runs.

(** ** Whole programs *)

(** What emission needs of an instruction: registers, an immediate, and for an IMUL_RCP a table entry. *)
Definition encodable (rc : list Z) (i : Instruction) : Prop :=
  regs_ok i /\ 0 <= imm32 i < 2 ^ 32 /\ (is_rcp i = true -> exists v, rc !! Z.to_nat (getImm32 i) = Some v /\ word64 v).

Section order.
Context (no_e24_pad : bool) (rc : list Z).

(** The words of the instructions in emission order, with the literals from [lp] and the code from [pc]. *)
Fixpoint order_words (instrs : list Instruction) (lp pc : Z) : list Z :=
  match instrs with
  | [] => []
  | i :: instrs =>
      let ws := instr_words no_e24_pad i (literal_offset lp pc) in
      ws ++ order_words instrs (next_literal i lp) (pc + 4 * Z.of_nat (length ws))
  end.

(** The literals of the IMUL_RCPs. *)
Definition literals (instrs : list Instruction) : list Z :=
  concat ((fun i => le_bytes 8 (rc !!! Z.to_nat (getImm32 i))) <$> base.filter (fun i => is_rcp i = true) instrs).

Lemma instr_words_length i off :
  (length (instr_words no_e24_pad i off) <= 3)%nat /\
  (is_rcp i = true -> length (instr_words no_e24_pad i off) = 2%nat).
Proof.
  unfold instr_words, is_rcp, imm_words. destruct (type_of_opcode (opcode i)) as [[]|];
    rewrite ?length_app; try (destruct (no_e24_pad && (getImm32 i <? 1 << 16))); cbn [length]; (split; [lia|intros H; try lia; by apply bool_decide_eq_true in H]).
Qed.

(** A literal in reach, and those behind it. *)
Lemma literal_here code i instrs lp pc : encodable rc i -> holds code lp (literals (i :: instrs)) -> (lp - pc) mod 4 = 0 -> - 2 ^ 20 <= lp - pc < 2 ^ 20 ->
  literal_ok rc code i lp pc /\ holds code (next_literal i lp) (literals instrs).
Proof.
  clear no_e24_pad. intros (_ & _ & Hv0) Hl H4 Hr. unfold literal_ok, next_literal, literals in *. destruct (is_rcp i) eqn:Hrcp.
  - rewrite filter_cons_True, fmap_cons in Hl by done. cbn [concat] in Hl. apply holds_app in Hl as [Hl1 Hl2].
    rewrite length_le_bytes in Hl2. split; [|exact Hl2]. intros _. split; [done|]. split; [lia|].
    destruct (Hv0 eq_refl) as (v & Hv & Wv). exists v. split; [done|]. split; [done|].
    rewrite (list_lookup_total_correct _ _ _ Hv) in Hl1. unfold holds in Hl1. rewrite length_le_bytes in Hl1.
    unfold read_le. rewrite Hl1. cbn [mbind outcome_bind]. f_equal. rewrite of_le_bytes. by apply wrap_small.
  - rewrite filter_cons_False in Hl by congruence. split; [done|exact Hl].
Qed.

Lemma order_runs code instrs : forall lp pc xs r',
  machine xs -> Forall (encodable rc) instrs ->
  ofoldl (execute_instruction (Some rc)) (take 8 xs) instrs = Done r' ->
  holds code pc (word_bytes (order_words instrs lp pc)) -> holds code lp (literals instrs) ->
  (lp - pc) mod 4 = 0 -> lp <= pc -> pc - lp + 12 * Z.of_nat (length instrs) <= 2 ^ 20 ->
  let n := length (order_words instrs lp pc) in
  exists xs', a64_run n code (pc, xs) = Done (pc + 4 * Z.of_nat n, xs') /\ ran xs xs' r'.
Proof.
  induction instrs as [|i instrs IH]; intros lp pc xs r' Hm Henc He Hh Hl H4 Hle Hreach.
  { cbn in *. injection He as <-. exists xs. split; [do 2 f_equal; lia|]. constructor; [done|done|by intros]. }
  inversion Henc as [|? ? (Hri & Hii & Hv0) Hencs]; subst. cbn [ofoldl] in He.
  apply bind_Done in He as (r1 & He1 & He). cbn [order_words] in *. cbv zeta. set (ws := instr_words _ _ _) in *.
  rewrite word_bytes_app in Hh. apply holds_app in Hh as [Hh1 Hh2]. rewrite word_bytes_length in Hh2.
  replace (Z.of_nat (4 * length ws)) with (4 * Z.of_nat (length ws)) in Hh2 by lia.
  destruct (instr_words_length i (literal_offset lp pc)) as [Hn3 Hn2]. fold ws in Hn3, Hn2.
  pose proof (literal_here code i instrs lp pc (conj Hri (conj Hii Hv0)) Hl H4 ltac:(cbn [length] in Hreach; lia)) as Hlit.
  destruct Hlit as [Hlit Hl'].
  destruct (instr_runs no_e24_pad rc code i lp pc xs r1) as (xs1 & E1 & R1); try done. fold ws in E1.
  destruct (IH (next_literal i lp) (pc + 4 * Z.of_nat (length ws)) xs1 r') as (xs2 & E2 & R2).
  - apply R1.
  - done.
  - by rewrite (rn_regs _ _ _ R1).
  - done.
  - done.
  - unfold next_literal. destruct (is_rcp i); plia.
  - unfold next_literal. destruct (is_rcp i); [rewrite Hn2 by done|]; lia.
  - unfold next_literal. cbn [length] in Hreach. destruct (is_rcp i); [rewrite Hn2 by done|]; lia.
  - exists xs2. split.
    + rewrite length_app, a64_run_app, E1. cbn [mbind outcome_bind]. rewrite E2. do 2 f_equal. lia.
    + constructor; [apply R2|apply R2|]. intros k Hk1 Hk2 Hk3.
      rewrite (rn_frame _ _ _ R2) by done. by apply (rn_frame _ _ _ R1).
Qed.

Lemma order_words_length instrs : forall lp pc, (length (order_words instrs lp pc) <= 3 * length instrs)%nat.
Proof.
  clear rc. induction instrs as [|i instrs IH]; intros lp pc; cbn [order_words length]; [lia|]. rewrite length_app.
  destruct (instr_words_length i (literal_offset lp pc)) as [H _].
  pose proof (IH (next_literal i lp) (pc + 4 * Z.of_nat (length (instr_words no_e24_pad i (literal_offset lp pc))))). lia.
Qed.

(** The loop over [emit_order] writes the words. *)
Lemma emit_order_words instrs : forall lp code pos,
  let ws := order_words instrs lp pos in
  0 <= pos -> pos + 4 * Z.of_nat (length ws) <= Z.of_nat (length code) ->
  exists lp', ofoldl (fun '(lp, st) i => emit_instruction no_e24_pad i lp st) (lp, (code, pos)) instrs =
    (code ← write_bytes code pos (word_bytes ws); Done (lp', (code, pos + 4 * Z.of_nat (length ws)))).
Proof.
  clear rc. induction instrs as [|i instrs IH]; intros lp code pos; cbn [order_words]; cbv zeta; intros H0 Hl.
  { exists lp. cbn [ofoldl word_bytes fmap list_fmap concat]. rewrite write_bytes_ok by (cbn in *; lia).
    cbn [length app mbind outcome_bind]. rewrite Nat.add_0_r, take_drop. do 4 f_equal. lia. }
  set (ws1 := instr_words _ _ _) in *. set (ws2 := order_words _ _ _) in *. rewrite length_app in Hl.
  assert (Hlen : Z.of_nat (length (word_bytes ws1)) = 4 * Z.of_nat (length ws1)) by (rewrite word_bytes_length; lia).
  assert (Hlen2 : Z.of_nat (length (word_bytes ws2)) = 4 * Z.of_nat (length ws2)) by (rewrite word_bytes_length; lia).
  cbn [ofoldl]. rewrite emit_instruction_words by (fold ws1; lia). fold ws1. rewrite Hlen.
  rewrite word_bytes_app, <- write_bytes_app by lia.
  destruct (write_bytes code pos (word_bytes ws1)) as [code1| | |] eqn:E;
    try (rewrite write_bytes_ok in E by lia; discriminate E). cbn [mbind outcome_bind].
  pose proof (write_bytes_length _ _ _ _ E) as Hl1.
  destruct (IH (next_literal i lp) code1 (pos + 4 * Z.of_nat (length ws1))) as [lp' E2]; [lia|fold ws2; lia|].
  exists lp'. rewrite E2. fold ws2. rewrite Hlen, length_app. destruct (write_bytes code1 _ _); try done.
  cbn [mbind outcome_bind]. do 3 f_equal. lia.
Qed.

(** The pre-pass writes the literals. *)
Lemma emit_literals instrs : forall code pos,
  Forall (encodable rc) instrs ->
  0 <= pos -> pos + Z.of_nat (length (literals instrs)) <= Z.of_nat (length code) ->
  ofoldl (emit_literal rc) (code, pos) instrs =
    (code ← write_bytes code pos (literals instrs); Done (code, pos + Z.of_nat (length (literals instrs)))).
Proof.
  clear no_e24_pad. induction instrs as [|i instrs IH]; intros code pos Hi H0 Hl.
  { cbn [ofoldl]. rewrite write_bytes_ok by (cbn in *; lia). cbn [literals fmap list_fmap concat length app mbind outcome_bind].
    change (literals []) with (@nil Z). cbn [length app]. rewrite Nat.add_0_r, take_drop. do 3 f_equal. lia. }
  inversion Hi as [|? ? (_ & [Hi0 _] & Hi1) Hi']; subst. cbn [ofoldl].
  assert (Ee : emit_literal rc (code, pos) i = if is_rcp i then v ← at_index rc (getImm32 i); emit64 v (code, pos) else Done (code, pos))
    by done. rewrite Ee. clear Ee.
  unfold literals in *. destruct (is_rcp i) eqn:Hrcp.
  - rewrite filter_cons_True, fmap_cons in * by done. cbn [concat] in *. rewrite length_app, length_le_bytes in *.
    destruct (Hi1 eq_refl) as (v & Hv & _). rewrite (proj2 (at_index_Done rc (getImm32 i) v)) by done.
    rewrite (list_lookup_total_correct _ _ _ Hv). cbn [mbind outcome_bind emit64].
    rewrite <- write_bytes_app by (rewrite ?length_le_bytes; lia). rewrite length_le_bytes.
    destruct (write_bytes code pos (le_bytes 8 v)) as [code1| | |] eqn:E; try done. cbn [mbind outcome_bind].
    pose proof (write_bytes_length _ _ _ _ E) as Hl1. rewrite IH by (done || lia).
    change (Z.of_nat 8) with 8. destruct (write_bytes code1 _ _); try done. cbn [mbind outcome_bind]. do 2 f_equal. lia.
  - rewrite filter_cons_False in * by congruence. cbn [mbind outcome_bind]. by apply IH.
Qed.
Lemma code_length instrs : forall lp pc,
  (4 * length (order_words instrs lp pc) + length (literals instrs) <= 16 * length instrs)%nat.
Proof.
  unfold literals. induction instrs as [|i instrs IH]; intros lp pc; [cbn; lia|]. cbn [order_words length].
  destruct (instr_words_length i (literal_offset lp pc)) as [H3 H2].
  set (ws := instr_words no_e24_pad i (literal_offset lp pc)) in *. rewrite length_app.
  pose proof (IH (next_literal i lp) (pc + 4 * Z.of_nat (length ws))) as H.
  destruct (decide (is_rcp i = true)) as [Hr|Hr].
  - rewrite filter_cons_True, fmap_cons by done. cbn [concat]. rewrite length_app, length_le_bytes. specialize (H2 Hr). lia.
  - rewrite filter_cons_False by done. lia.
Qed.
End order.

(** ** Memory that is written elsewhere *)

Lemma write_bytes_lookup code pos bs code' k : write_bytes code pos bs = Done code' ->
  Z.of_nat k < pos \/ pos + Z.of_nat (length bs) <= Z.of_nat k -> code' !! k = code !! k.
Proof.
  unfold write_bytes. destruct (_ && _) eqn:E; [|done]. intros [= <-] Hk.
  assert (H0 : 0 <= pos /\ pos + Z.of_nat (length bs) <= Z.of_nat (length code)) by blia. destruct Hk as [Hk|Hk].
  - rewrite lookup_app_l by (rewrite length_take; lia). by rewrite lookup_take_lt by lia.
  - rewrite lookup_app_r by (rewrite length_take; lia). rewrite lookup_app_r by (rewrite length_take; lia).
    rewrite lookup_drop, length_take. f_equal. lia.
Qed.
Lemma holds_ext code code' pos bs : length code' = length code ->
  (forall k, pos <= Z.of_nat k < pos + Z.of_nat (length bs) -> code' !! k = code !! k) -> holds code pos bs -> holds code' pos bs.
Proof.
  intros Hl Hk H. pose proof (holds_bounds _ _ _ H) as [H0 Hb]. unfold holds in *.
  rewrite read_bytes_ok in * by lia. injection H as H. f_equal. rewrite <- H at 2. apply list_eq. intros k.
  destruct (Nat.lt_ge_cases k (length bs)).
  - rewrite !lookup_take_lt, !lookup_drop by done. apply Hk. lia.
  - rewrite !lookup_take_ge by done. done.
Qed.
Lemma holds_write_other code pos bs code' q b : write_bytes code pos bs = Done code' -> holds code q b ->
  q + Z.of_nat (length b) <= pos \/ pos + Z.of_nat (length bs) <= q -> holds code' q b.
Proof.
  intros Hw Hh Hd. eapply holds_ext; [by eapply write_bytes_length| |done]. intros k Hk.
  eapply write_bytes_lookup; [done|lia].
Qed.

(** ** Programs in memory *)

Definition program_ok (rc : list Z) (prog : SuperscalarProgram) : Prop :=
  0 <= size_ prog <= Z.of_nat (length (program_buffer_ prog)) /\
  Forall (encodable rc) (take (Z.to_nat (size_ prog)) (program_buffer_ prog)).

Lemma is_rcp_footprint i : is_imul_rcp (super_footprint i) = is_rcp i.
Proof. unfold super_footprint, is_rcp. by destruct (type_of_opcode (opcode i)) as [[]|]. Qed.

Lemma literals_order rc (f : nat -> Instruction) l1 l2 :
  base.filter (fun j => is_imul_rcp (super_footprint (f j)) = true) l1 =
    base.filter (fun j => is_imul_rcp (super_footprint (f j)) = true) l2 ->
  literals rc (f <$> l1) = literals rc (f <$> l2).
Proof.
  assert (H : forall l : list nat, base.filter (fun i => is_rcp i = true) (f <$> l) =
    f <$> base.filter (fun j => is_imul_rcp (super_footprint (f j)) = true) l).
  { induction l as [|j l IH]; [done|]. rewrite fmap_cons. destruct (decide (is_rcp (f j) = true)) as [Hr|Hr].
    - rewrite !filter_cons_True by (by rewrite ?is_rcp_footprint). by rewrite fmap_cons, IH.
    - rewrite !filter_cons_False by (by rewrite ?is_rcp_footprint). done. }
  intros E. unfold literals. by rewrite !H, E.
Qed.

Lemma run_from_instrs {R} (step : R -> Instruction -> outcome R) prog l r :
  Forall (fun j => j < length (program_buffer_ prog))%nat l ->
  run_from step prog l r = ofoldl step r ((fun j => program_buffer_ prog !!! j) <$> l).
Proof.
  revert r. induction l as [|j l IH]; intros r Hl; [done|]. inversion Hl as [|? ? Hj Hl']; subst.
  rewrite fmap_cons. cbn [run_from ofoldl]. destruct (lookup_lt_is_Some_2 _ _ Hj) as [i Hi].
  unfold program_at at 1. rewrite Hi, (list_lookup_total_correct _ _ _ Hi). cbn [mbind outcome_bind].
  destruct (step r i); cbn; auto.
Qed.

Lemma ofoldl_instrs {R} (step : R -> Instruction -> outcome R) prog l r :
  Forall (fun j => j < length (program_buffer_ prog))%nat l ->
  ofoldl (fun r j => i ← program_at prog j; step r i) r l = ofoldl step r ((fun j => program_buffer_ prog !!! j) <$> l).
Proof.
  intros Hl. rewrite <- run_from_instrs by done. revert r. clear Hl. induction l as [|j l IH]; intros r; [done|].
  cbn [ofoldl run_from]. destruct (program_at prog j); try done. cbn [mbind outcome_bind]. destruct (step r a); cbn; auto.
Qed.

Lemma instrs_seq prog : 0 <= size_ prog <= Z.of_nat (length (program_buffer_ prog)) ->
  take (Z.to_nat (size_ prog)) (program_buffer_ prog) =
    (fun j => program_buffer_ prog !!! j) <$> seq 0 (Z.to_nat (size_ prog)).
Proof.
  intros H. apply list_eq. intros j. rewrite list_lookup_fmap. destruct (Nat.lt_ge_cases j (Z.to_nat (size_ prog))) as [Hj|Hj].
  - rewrite lookup_take_lt, lookup_seq_lt by done. cbn. apply list_lookup_lookup_total_lt. lia.
  - rewrite lookup_take_ge by done. rewrite (lookup_ge_None_2 (seq 0 _)); [done|]. by rewrite length_seq.
Qed.

(** The instructions in emission order. *)
Lemma emitted_instrs rc prog : program_ok rc prog -> exists order,
  let instrs := (fun j => program_buffer_ prog !!! j) <$> order in
  scheduleSuperscalarProgram prog = Done order /\
  Forall (fun j => j < length (program_buffer_ prog))%nat order /\
  length instrs = Z.to_nat (size_ prog) /\ Forall (encodable rc) instrs /\
  literals rc instrs = literals rc (take (Z.to_nat (size_ prog)) (program_buffer_ prog)) /\
  forall r r', execute_superscalar r prog (Some rc) = Done r' -> ofoldl (execute_instruction (Some rc)) r instrs = Done r'.
Proof.
  intros [Hsz Henc]. destruct (superscalar_schedule_ok prog) as (order & E & Hp & Hrcp & Hrun).
  - done.
  - eapply list.Forall_impl; [exact Henc|]. by intros i [? _].
  - exists order. cbv zeta. assert (Hlt : Forall (fun j => j < length (program_buffer_ prog))%nat order).
    { apply list.Forall_forall. intros j Hj. rewrite Hp in Hj. apply elem_of_seq in Hj. lia. }
    split; [done|]. split; [done|]. split; [by rewrite length_fmap, Hp, length_seq|]. split; [|split].
    + rewrite Hp, <- instrs_seq by done. done.
    + rewrite instrs_seq by done. by apply literals_order.
    + intros r r' Hr. rewrite <- run_from_instrs by done. by apply Hrun.
Qed.

(** The program at [pos]: the jump, the literals, the instructions. *)
Definition code_start (rc : list Z) (instrs : list Instruction) (pos : Z) : Z :=
  pos + 4 + Z.of_nat (length (literals rc instrs)).
Definition code_end (no_e24_pad : bool) (rc : list Z) (instrs : list Instruction) (pos : Z) : Z :=
  let start := code_start rc instrs pos in
  start + 4 * Z.of_nat (length (order_words no_e24_pad instrs (pos + 4) start)).

Record laid_out (no_e24_pad : bool) (rc : list Z) (instrs : list Instruction) (code : list Z) (pos : Z) : Prop := mkLaid {
  lo_jump : holds code pos (word_bytes [ARMV8A.B .| (code_start rc instrs pos - pos) / 4]);
  lo_pool : holds code (pos + 4) (literals rc instrs);
  lo_code : holds code (code_start rc instrs pos)
              (word_bytes (order_words no_e24_pad instrs (pos + 4) (code_start rc instrs pos)));
}.

Lemma code_end_bound no_e24_pad rc instrs pos :
  pos + 4 <= code_start rc instrs pos <= code_end no_e24_pad rc instrs pos /\
  code_end no_e24_pad rc instrs pos <= pos + 4 + 16 * Z.of_nat (length instrs).
Proof.
  unfold code_end, code_start. pose proof (code_length no_e24_pad rc instrs (pos + 4) (pos + 4 + Z.of_nat (length (literals rc instrs)))). lia.
Qed.

Lemma emit_program_layout no_e24_pad rc prog code pos :
  program_ok rc prog -> 0 <= pos -> pos + 4 + 16 * size_ prog <= Z.of_nat (length code) ->
  exists instrs code',
    let e := code_end no_e24_pad rc instrs pos in
    emit_program no_e24_pad prog rc (code, pos) = Done (code', e) /\
    laid_out no_e24_pad rc instrs code' pos /\ length code' = length code /\
    (forall k, Z.of_nat k < pos \/ e <= Z.of_nat k -> code' !! k = code !! k) /\
    length instrs = Z.to_nat (size_ prog) /\ Forall (encodable rc) instrs /\
    forall r r', execute_superscalar r prog (Some rc) = Done r' -> ofoldl (execute_instruction (Some rc)) r instrs = Done r'.
Proof.
  intros Hok H0 Hfit. pose proof Hok as [Hsz Henc].
  destruct (emitted_instrs rc prog Hok) as (order & Hord & Hlt & Hlen & Hencs & Hlits & Hrun).
  set (instrs := (fun j => program_buffer_ prog !!! j) <$> order) in *. exists instrs.
  pose proof (code_end_bound no_e24_pad rc instrs pos) as [[Hb1 Hb2] Hb3].
  set (cs := code_start rc instrs pos) in *. cbv zeta. set (e := code_end no_e24_pad rc instrs pos) in *.
  assert (Hcs : cs = pos + 4 + Z.of_nat (length (literals rc instrs))) by done.
  set (ws := order_words no_e24_pad instrs (pos + 4) cs).
  assert (He : e = cs + 4 * Z.of_nat (length ws)) by done.
  unfold emit_program. rewrite emit_literals.
  2: done.
  2: lia.
  2: rewrite <- Hlits; lia.
  rewrite <- Hlits. destruct (write_bytes code (pos + 4) (literals rc instrs)) as [c1| | |] eqn:E1;
    try (rewrite write_bytes_ok in E1 by lia; discriminate E1). cbn [mbind outcome_bind]. rewrite <- Hcs.
  pose proof (write_bytes_length _ _ _ _ E1) as Hl1. set (jw := ARMV8A.B .| (cs - pos) / 4).
  rewrite (emits_emit32 jw pos) by (rewrite ?word_bytes_length; cbn [length]; lia).
  assert (Hj4 : Z.of_nat (length (word_bytes [jw])) = 4) by (by rewrite word_bytes_length). rewrite Hj4.
  destruct (write_bytes c1 pos (word_bytes [jw])) as [c2| | |] eqn:E2;
    try (rewrite write_bytes_ok in E2 by lia; discriminate E2). cbn [mbind outcome_bind].
  pose proof (write_bytes_length _ _ _ _ E2) as Hl2. rewrite Hord. cbn [mbind outcome_bind].
  destruct (emit_order_words no_e24_pad instrs (pos + 4) c2 cs) as [lp' E3]; [lia|fold ws; lia|]. fold ws in E3.
  assert (Hws : Z.of_nat (length (word_bytes ws)) = 4 * Z.of_nat (length ws)) by (rewrite word_bytes_length; lia).
  destruct (write_bytes c2 cs (word_bytes ws)) as [c3| | |] eqn:E4;
    try (rewrite write_bytes_ok in E4 by lia; discriminate E4). cbn [mbind outcome_bind] in E3.
  exists c3. split; [|split; [|split; [|split]]].
  - rewrite (ofoldl_ext_inv (fun _ => True) _ (fun a j => i ← program_at prog j;
      (fun '(lp, st) i => emit_instruction no_e24_pad i lp st) a i)) by (done || by intros []).
    rewrite (ofoldl_instrs (fun '(lp, st) i => emit_instruction no_e24_pad i lp st) prog order) by done.
    fold instrs. rewrite E3. cbn [mbind outcome_bind]. by rewrite He.
  - constructor; fold cs.
    + eapply holds_write_other; [exact E4|by eapply read_write_same|]. fold jw. lia.
    + eapply holds_write_other; [exact E4|eapply holds_write_other; [exact E2|by eapply read_write_same|]|]; lia.
    + by eapply read_write_same.
  - rewrite (write_bytes_length _ _ _ _ E4). lia.
  - intros k Hk. rewrite (write_bytes_lookup _ _ _ _ k E4) by lia. rewrite (write_bytes_lookup _ _ _ _ k E2) by lia.
    apply (write_bytes_lookup _ _ _ _ k E1). lia.
  - done.
Qed.

Lemma literals_mod rc instrs : Z.of_nat (length (literals rc instrs)) mod 8 = 0.
Proof.
  unfold literals. induction (base.filter _ instrs) as [|i l IH]; [done|]. rewrite fmap_cons. cbn [concat].
  rewrite length_app, length_le_bytes. plia.
Qed.
Lemma literals_length rc instrs : (length (literals rc instrs) <= 8 * length instrs)%nat.
Proof.
  unfold literals. induction instrs as [|i instrs IH]; [cbn; lia|]. destruct (decide (is_rcp i = true)).
  - rewrite filter_cons_True, fmap_cons by done. cbn [concat length]. rewrite length_app, length_le_bytes. lia.
  - rewrite filter_cons_False by done. cbn [length]. lia.
Qed.

(** A program in memory runs from its jump to its end. *)
Lemma laid_out_runs no_e24_pad rc instrs code pos xs r' :
  machine xs -> Forall (encodable rc) instrs -> (length instrs <= 512)%nat ->
  ofoldl (execute_instruction (Some rc)) (take 8 xs) instrs = Done r' -> laid_out no_e24_pad rc instrs code pos ->
  exists n xs', a64_run n code (pos, xs) = Done (code_end no_e24_pad rc instrs pos, xs') /\ ran xs xs' r'.
Proof.
  intros Hm Henc H512 Hrun [Hj Hp Hc]. pose proof (literals_mod rc instrs) as H8. pose proof (literals_length rc instrs) as Hl8.
  unfold code_end, code_start in *. set (L := Z.of_nat (length (literals rc instrs))) in *.
  assert (HL : 0 <= L <= 8 * 512) by lia. clearbody L.
  destruct (order_runs no_e24_pad rc code instrs (pos + 4) (pos + 4 + L) xs r') as (xs' & E & R); try done.
  - plia.
  - lia.
  - lia.
  - eexists (S _), xs'. split; [|exact R].
    assert (Ew : ARMV8A.B .| (pos + 4 + L - pos) / 4 = 0x14000000 + (1 + L / 4)).
    { replace ((pos + 4 + L - pos) / 4) with (1 + L / 4) by plia. unfold ARMV8A.B.
      rewrite <- (Z.shiftl_0_r (1 + L / 4)) at 1. rewrite (lor_field _ (1 + L / 4) 0 26) by plia. lia. }
    rewrite Ew in Hj. erewrite (run_word _ _ _ _ _ _ _ _ _ Hj); [exact E|plia|apply decode_B; plia|].
    cbn [exec]. do 2 f_equal. unfold to_signed, wrap. rewrite Z.mod_small by plia.
    destruct (Z.ltb_spec (1 + L / 4) (2 ^ (26 - 1))); plia.
Qed.

(** The code the JIT emits for a superscalar program computes what the interpreter computes: emission
    writes at most 4 + 16 * size bytes at the given position and nothing else, and the machine, started on
    them with the program's registers in x0 to x7, reaches their end with the interpreter's result in x0 to
    x7 and no other register changed but the scratch registers x12 and x13.  The scheduler's reordering, the
    literal pool and both encodings of immediates are included. *)
Theorem superscalar_code_equiv no_e24_pad rc prog code pos xs r' :
  program_ok rc prog -> size_ prog <= 512 ->
  0 <= pos -> pos + 4 + 16 * size_ prog <= Z.of_nat (length code) -> machine xs ->
  execute_superscalar (take 8 xs) prog (Some rc) = Done r' ->
  exists code' pos',
    emit_program no_e24_pad prog rc (code, pos) = Done (code', pos') /\
    pos < pos' <= pos + 4 + 16 * size_ prog /\ length code' = length code /\
    (forall k, Z.of_nat k < pos \/ pos' <= Z.of_nat k -> code' !! k = code !! k) /\
    exists n xs', a64_run n code' (pos, xs) = Done (pos', xs') /\ take 8 xs' = r' /\
      (forall k, (8 <= k)%nat -> k <> 12%nat -> k <> 13%nat -> xs' !! k = xs !! k).
Proof.
  intros Hok H512 H0 Hfit Hm Hrun.
  destruct (emit_program_layout no_e24_pad rc prog code pos Hok H0 Hfit)
    as (instrs & code' & E & Hlo & Hlen & Hout & Hn & Henc & Hr).
  pose proof (code_end_bound no_e24_pad rc instrs pos) as [[? ?] ?]. destruct Hok as [Hsz _].
  exists code', (code_end no_e24_pad rc instrs pos). split_and!; [done|lia|lia|done|done|].
  destruct (laid_out_runs no_e24_pad rc instrs code' pos xs r' Hm Henc ltac:(lia) (Hr _ _ Hrun) Hlo) as (n & xs' & En & [Hm' Hx Hf]).
  by exists n, xs'.
Qed.

(** IMUL_RCP r0; IADD_C7 r1, -5; IROR_C r1, 7, with 2^63 / 3 normalised as the only reciprocal. *)
Definition code_sample : SuperscalarProgram :=
  mkProgram [mkInstruction 13 0 0 0 0; mkInstruction 5 1 0 0 4294967291; mkInstruction 4 1 0 0 7] 3 0.

Lemma superscalar_code_equiv_witness :
  exists code' pos', emit_program false code_sample [12297829382473034410] (replicate 80 0, 8) = Done (code', pos') /\
    exists n xs', a64_run n code' (8, replicate 31 9) = Done (pos', xs') /\
      take 8 xs' = [wrap 64 (9 * 12297829382473034410); 576460752303423488; 9; 9; 9; 9; 9; 9].
Proof.
  destruct (superscalar_code_equiv false [12297829382473034410] code_sample (replicate 80 0) 8 (replicate 31 9)
    [wrap 64 (9 * 12297829382473034410); 576460752303423488; 9; 9; 9; 9; 9; 9])
    as (code' & pos' & E & _ & _ & _ & n & xs' & En & Ex & _).
  - split; [cbn; lia|]. repeat (apply List.Forall_cons; [split_and!; cbn; try lia; try done|]).
    + intros _. exists 12297829382473034410. split; [done|split; lia].
    + repeat (apply List.Forall_cons; [split_and!; cbn; try lia; try done|]).
    apply List.Forall_nil.
  - cbn. lia.
  - lia.
  - rewrite length_replicate. cbn. lia.
  - split; [done|]. apply Forall_replicate. split; lia.
  - vm_compute. reflexivity.
  - exists code', pos'. split; [exact E|]. exists n, xs'. exact (conj En Ex).
Defined.

(** ** The code buffer *)

Lemma prepared_encodable rc i i' : ss_wf i -> cached rc i i' -> encodable rc i'.
Proof.
  intros (_ & Hd & Hs & _ & Hi & _) Hc. unfold cached in Hc. case_bool_decide as E.
  - destruct Hc as (k & rcp & -> & Hk & Hrc & Hr). split; [by split|]. split; [exact Hk|]. intros _. exists rcp. split; [done|].
    unfold randomx_reciprocal in Hr. destruct (imm32 i =? 0); [done|]. injection Hr as <-. apply add64_range.
  - subst i'. split; [by split|]. split; [exact Hi|]. unfold is_rcp. intros Hr%bool_decide_eq_true. done.
Qed.

Lemma prepared_programs_ok rejections programs key ps rc :
  length programs = kRandomXCacheAccesses -> fresh_buffers programs -> Bytes key ->
  prepare_programs rejections programs key = Done (ps, rc) ->
  length ps = kRandomXCacheAccesses /\ Forall (fun p => program_ok rc p /\ size_ p <= 512) ps.
Proof.
  intros Hn Hfresh Hkey E. pose proof (prepare_programs_ready rejections programs key Hn Hfresh Hkey) as Hr.
  rewrite E in Hr. split; [apply Hr|]. clear Hr. unfold prepare_programs in E.
  pose proof (prepare_loop rejections (Blake2Generator.make key 0) programs (Blake2Generator.make key 0) [] []) as H.
  rewrite Hn in H. specialize (H (conj (Blake2Generator.make_wf key 0 Hkey) (draws_refl _)) Hfresh ltac:(done)).
  destruct (generate_all rejections programs (Blake2Generator.make key 0)) as [[gs gen]| | |]; try done.
  2: { destruct H as [H _]. rewrite H in E. discriminate E. }
  destruct H as [Hwf (ps' & rc' & H & Hall)]. rewrite H in E. cbn in E. injection E as <- <-. clear H.
  revert Hwf. induction Hall as [|p p' gs ps' Hsame _ IH]; intros Hwf; [constructor|].
  apply Forall_cons_iff in Hwf as [Hp Hwf]. constructor; [|auto]. destruct Hp as (Hs & Hl & Hf & _).
  change kSuperscalarMaxSize with 512 in *. destruct Hsame as [S1 _ S3 S4]. rewrite <- S1 in *. rewrite <- S3 in Hl.
  split; [|lia]. split; [lia|]. apply list.Forall_forall. intros i' Hi'. apply list_elem_of_lookup in Hi' as [j Hj].
  apply lookup_take_Some in Hj as [Hj Hlt]. destruct (lookup_lt_is_Some_2 (program_buffer_ p) j) as [i Hi]; [lia|].
  destruct (S4 j i Hlt Hi) as (i2 & Hi2 & Hc). assert (i2 = i') as -> by congruence. apply (prepared_encodable _ i); [|done].
  apply (Forall_lookup_1 _ _ j _ Hf). by rewrite lookup_take_lt.
Qed.

(** [code'] is [code] with bytes from [p] to [q] written. *)
Definition wrote (code code' : list Z) (p q : Z) : Prop :=
  length code' = length code /\ forall k, Z.of_nat k < p \/ q <= Z.of_nat k -> code' !! k = code !! k.

Lemma wrote_trans c c1 c2 p q r : p <= q <= r -> wrote c c1 p q -> wrote c1 c2 q r -> wrote c c2 p r.
Proof. intros H [L1 H1] [L2 H2]. split; [congruence|]. intros k Hk. rewrite H2 by lia. apply H1. lia. Qed.
Lemma wrote_keeps c c' p q pos bs : wrote c c' p q -> holds c pos bs -> pos + Z.of_nat (length bs) <= p -> holds c' pos bs.
Proof. intros [Hl H] Hh Hp. eapply holds_ext; [done| |done]. intros k Hk. apply H. lia. Qed.

Lemma emit_template_ok bs code pos : 0 <= pos -> pos + Z.of_nat (length bs) <= Z.of_nat (length code) ->
  exists code', emit_template bs (code, pos) = Done (code', pos + Z.of_nat (length bs)) /\
    wrote code code' pos (pos + Z.of_nat (length bs)) /\ holds code' pos bs.
Proof.
  intros H0 Hl. unfold emit_template. destruct (write_bytes code pos bs) as [code'| | |] eqn:E;
    try (rewrite write_bytes_ok in E by lia; discriminate E).
  exists code'. split; [done|]. split; [|by eapply read_write_same]. split; [by eapply write_bytes_length|].
  intros k Hk. by eapply write_bytes_lookup.
Qed.
Lemma emit32_ok w code pos : 0 <= pos -> pos + 4 <= Z.of_nat (length code) ->
  exists code', emit32 w (code, pos) = Done (code', pos + 4) /\ wrote code code' pos (pos + 4) /\ holds code' pos (word_bytes [w]).
Proof.
  intros H0 Hl. assert (H4 : Z.of_nat (length (word_bytes [w])) = 4) by (by rewrite word_bytes_length).
  destruct (emit_template_ok (word_bytes [w]) code pos H0) as (code' & E & H); [lia|]. rewrite H4 in *. exists code'.
  split; [|exact H]. rewrite (emits_emit32 w pos) by lia. exact E.
Qed.

(** One round in memory. *)
Record round_at (no_e24_pad : bool) (t : templates) (rc : list Z) (prog : SuperscalarProgram)
  (instrs : list Instruction) (code : list Z) (pos : Z) : Prop := mkRound {
  ra_and : holds code pos (word_bytes [ARMV8A.AND_IMM_64 .| 11 .| 10 << 5 .| (Z.log2 (kRandomXCacheBytes / 64) - 1) << 10]);
  ra_prefetch : holds code (pos + 4) (t_prefetch t);
  ra_program : laid_out no_e24_pad rc instrs code (pos + 4 + Z.of_nat (length (t_prefetch t)));
  ra_mix : holds code (code_end no_e24_pad rc instrs (pos + 4 + Z.of_nat (length (t_prefetch t)))) (t_mix t);
  ra_mov : holds code (code_end no_e24_pad rc instrs (pos + 4 + Z.of_nat (length (t_prefetch t))) + Z.of_nat (length (t_mix t)))
             (word_bytes [ARMV8A.MOV_REG .| 10 .| addr_reg_ prog << 16]);
}.
Definition round_end (no_e24_pad : bool) (t : templates) (rc : list Z) (instrs : list Instruction) (pos : Z) : Z :=
  code_end no_e24_pad rc instrs (pos + 4 + Z.of_nat (length (t_prefetch t))) + Z.of_nat (length (t_mix t)) + 4.

(** The instructions [instrs] are those of [prog], in an order that computes the same. *)
Definition rearranged (rc : list Z) (prog : SuperscalarProgram) (instrs : list Instruction) : Prop :=
  length instrs = Z.to_nat (size_ prog) /\ Forall (encodable rc) instrs /\
  forall r r', execute_superscalar r prog (Some rc) = Done r' -> ofoldl (execute_instruction (Some rc)) r instrs = Done r'.

Definition round_size (t : templates) (prog : SuperscalarProgram) : Z :=
  4 + Z.of_nat (length (t_prefetch t)) + 4 + 16 * size_ prog + Z.of_nat (length (t_mix t)) + 4.

Lemma emit_round_ok no_e24_pad t rc prog code pos :
  program_ok rc prog -> 0 <= pos -> pos + round_size t prog <= Z.of_nat (length code) ->
  exists instrs code', let e := round_end no_e24_pad t rc instrs pos in
    emit_round no_e24_pad t rc (code, pos) prog = Done (code', e) /\ pos <= e <= pos + round_size t prog /\
    wrote code code' pos e /\ round_at no_e24_pad t rc prog instrs code' pos /\ rearranged rc prog instrs.
Proof.
  intros Hok H0 Hfit. pose proof Hok as [Hsz _]. unfold round_size in *. unfold emit_round.
  set (pf := Z.of_nat (length (t_prefetch t))) in *. set (mx := Z.of_nat (length (t_mix t))) in *.
  assert (Hpf : 0 <= pf) by (unfold pf; lia). assert (Hmx : 0 <= mx) by (unfold mx; lia).
  match goal with |- context [emit32 ?w (code, pos)] => destruct (emit32_ok w code pos) as (c1 & -> & W1 & K1); [lia|lia|] end.
  cbn [mbind outcome_bind]. destruct (emit_template_ok (t_prefetch t) c1 (pos + 4)) as (c2 & -> & W2 & K2); [lia|destruct W1; lia|].
  cbn [mbind outcome_bind]. fold pf in W2 |- *.
  assert (L2 : length c2 = length code) by (destruct W1, W2; lia).
  destruct (emit_program_layout no_e24_pad rc prog c2 (pos + 4 + pf) Hok)
    as (instrs & c3 & -> & Hlo & L3 & O3 & Hn & Henc & Hr); [lia|lia|]. cbn [mbind outcome_bind].
  pose proof (code_end_bound no_e24_pad rc instrs (pos + 4 + pf)) as [[B1 B2] B3].
  set (ce := code_end no_e24_pad rc instrs (pos + 4 + pf)) in *.
  assert (W3 : wrote c2 c3 (pos + 4 + pf) ce) by (by split).
  destruct (emit_template_ok (t_mix t) c3 ce) as (c4 & -> & W4 & K4); [lia|fold mx; lia|]. cbn [mbind outcome_bind]. fold mx in W4 |- *.
  match goal with |- context [emit32 ?w (c4, ?p)] => destruct (emit32_ok w c4 p) as (c5 & -> & W5 & K5); [lia|destruct W4; lia|] end.
  exists instrs, c5. unfold round_end. fold pf mx ce. split; [done|]. split; [lia|].
  assert (W45 : wrote c3 c5 ce (ce + mx + 4)) by (eapply wrote_trans; [|exact W4|exact W5]; lia).
  assert (W35 : wrote c2 c5 (pos + 4 + pf) (ce + mx + 4)) by (eapply wrote_trans; [|exact W3|exact W45]; lia).
  assert (W25 : wrote c1 c5 (pos + 4) (ce + mx + 4)) by (eapply wrote_trans; [|exact W2|exact W35]; lia).
  split; [eapply wrote_trans; [|exact W1|exact W25]; lia|]. split; [|done]. destruct Hlo as [J1 J2 J3]. constructor; fold pf mx ce.
  - eapply wrote_keeps; [exact W25|done|]. rewrite word_bytes_length. cbn [length]. lia.
  - eapply wrote_keeps; [exact W35|done|]. fold pf. lia.
  - unfold ce, code_end in W45. constructor; (eapply wrote_keeps; [exact W45|done|]);
      rewrite ?word_bytes_length; cbn [length]; unfold ce, code_end, code_start in *; lia.
  - eapply wrote_keeps; [exact W5|done|]. fold mx. lia.
  - exact K5.
Qed.

(** The rounds of the programs, one after another, from [pos] to [e]. *)
Inductive rounds_at (no_e24_pad : bool) (t : templates) (rc : list Z) (code : list Z)
  : Z -> list SuperscalarProgram -> Z -> Prop :=
  | rounds_nil pos : rounds_at no_e24_pad t rc code pos [] pos
  | rounds_cons pos prog progs instrs e :
      round_at no_e24_pad t rc prog instrs code pos -> rearranged rc prog instrs ->
      rounds_at no_e24_pad t rc code (round_end no_e24_pad t rc instrs pos) progs e ->
      rounds_at no_e24_pad t rc code pos (prog :: progs) e.

Lemma round_end_bound no_e24_pad t rc instrs pos : 
  pos + 4 + Z.of_nat (length (t_prefetch t)) + 4 <= code_start rc instrs (pos + 4 + Z.of_nat (length (t_prefetch t)))
    <= code_end no_e24_pad rc instrs (pos + 4 + Z.of_nat (length (t_prefetch t))).
Proof. pose proof (code_end_bound no_e24_pad rc instrs (pos + 4 + Z.of_nat (length (t_prefetch t)))). lia. Qed.

Lemma round_keeps no_e24_pad t rc prog instrs code code' p q pos :
  wrote code code' p q -> round_end no_e24_pad t rc instrs pos <= p ->
  round_at no_e24_pad t rc prog instrs code pos -> round_at no_e24_pad t rc prog instrs code' pos.
Proof.
  intros W He [K1 K2 [J1 J2 J3] K4 K5]. pose proof (round_end_bound no_e24_pad t rc instrs pos) as HB. unfold round_end in He.
  constructor; [| |constructor| |]; (eapply wrote_keeps; [exact W|done|]); rewrite ?word_bytes_length; cbn [length];
    unfold code_end, code_start in *; lia.
Qed.
Lemma rounds_keep no_e24_pad t rc code code' p q pos progs e :
  wrote code code' p q -> e <= p -> rounds_at no_e24_pad t rc code pos progs e ->
  pos <= e /\ rounds_at no_e24_pad t rc code' pos progs e.
Proof.
  intros W He. induction 1 as [pos|pos prog progs instrs e Hr Hre _ IH]; [split; [lia|constructor]|].
  destruct (IH He) as [Hle IH']. pose proof (round_end_bound no_e24_pad t rc instrs pos) as HB.
  assert (pos <= round_end no_e24_pad t rc instrs pos) by (unfold round_end; lia).
  split; [lia|]. econstructor; [|done|done]. eapply round_keeps; [done| |done]. lia.
Qed.

Definition max_round (t : templates) : Z := 4 + Z.of_nat (length (t_prefetch t)) + 4 + 16 * 512 + Z.of_nat (length (t_mix t)) + 4.

Lemma emit_rounds_ok no_e24_pad t rc progs : forall code pos,
  Forall (fun p => program_ok rc p /\ size_ p <= 512) progs ->
  0 <= pos -> pos + Z.of_nat (length progs) * max_round t <= Z.of_nat (length code) ->
  exists code' e, ofoldl (emit_round no_e24_pad t rc) (code, pos) progs = Done (code', e) /\
    pos <= e <= pos + Z.of_nat (length progs) * max_round t /\ wrote code code' pos e /\
    rounds_at no_e24_pad t rc code' pos progs e.
Proof.
  induction progs as [|prog progs IH]; intros code pos Hok H0 Hfit.
  { exists code, pos. cbn. split; [done|]. split; [lia|]. split; [by split|constructor]. }
  apply Forall_cons_iff in Hok as [[Hp H512] Hok]. cbn [length] in Hfit. pose proof Hp as [Hsz _].
  assert (HS : round_size t prog <= max_round t) by (unfold round_size, max_round; lia).
  assert (HM : 0 <= max_round t) by (unfold max_round; lia).
  destruct (emit_round_ok no_e24_pad t rc prog code pos Hp H0) as (instrs & c1 & E & He & W & R & Re); [nia|].
  destruct (IH c1 (round_end no_e24_pad t rc instrs pos) Hok) as (c2 & e & E2 & He2 & W2 & R2); [lia|destruct W; nia|].
  exists c2, e. cbn [ofoldl length]. rewrite E. cbn [mbind outcome_bind]. split; [done|]. split; [nia|].
  split; [eapply wrote_trans; [|done|done]; lia|]. econstructor; [|done|done]. eapply round_keeps; [exact W2|lia|done].
Qed.

(** The function in memory. *)
Record function_at (no_e24_pad : bool) (t : templates) (rc : list Z) (programs : list SuperscalarProgram)
  (code : list Z) (e : Z) : Prop := mkFunction {
  fa_prologue : holds code CodeSize (t_prologue t);
  fa_rounds : rounds_at no_e24_pad t rc code (CodeSize + Z.of_nat (length (t_prologue t))) programs e;
  fa_store : holds code e (t_store t);
}.

(** The template lengths jit_contract.h records. *)
Definition contract (t : templates) : Prop :=
  length (t_prologue t) = 176%nat /\ length (t_prefetch t) = 8%nat /\ length (t_mix t) = 48%nat /\ length (t_store t) = 52%nat.

(** What lies before the written part is kept. *)
Lemma wrote_before code code' p q : wrote code code' p q -> take (Z.to_nat p) code' = take (Z.to_nat p) code.
Proof.
  intros [_ W]. apply list_eq. intros k. destruct (Nat.lt_ge_cases k (Z.to_nat p)).
  - rewrite !lookup_take_lt by done. apply W. lia.
  - by rewrite !lookup_take_ge.
Qed.

Lemma generate_ok no_e24_pad t rc programs code :
  contract t -> length programs = kRandomXCacheAccesses ->
  Forall (fun p => program_ok rc p /\ size_ p <= 512) programs ->
  Z.of_nat (length code) = CodeSize + CalcDatasetItemSize ->
  exists code' e, generateSuperscalarHash no_e24_pad t programs rc code = Done (code', e + 52) /\
    CodeSize <= e /\ e + 52 <= CodeSize + CalcDatasetItemSize /\ wrote code code' CodeSize (e + 52) /\
    function_at no_e24_pad t rc programs code' e.
Proof.
  intros (T1 & T2 & T3 & T4) Hn Hok Hlen. unfold generateSuperscalarHash.
  assert (HM : max_round t = 8260) by (unfold max_round; rewrite T2, T3; done).
  unfold CalcDatasetItemSize, CodeSize in *. change kRandomXCacheAccesses with 8%nat in Hn.
  destruct (emit_template_ok (t_prologue t) code 51516) as (c1 & -> & W1 & K1); [lia|lia|]. rewrite T1 in *. cbn [mbind outcome_bind].
  destruct (emit_rounds_ok no_e24_pad t rc programs c1 (51516 + Z.of_nat 176) Hok) as (c2 & e & -> & He & W2 & R2);
    [lia|destruct W1; rewrite Hn, HM; lia|]. rewrite Hn, HM in He. cbn [mbind outcome_bind].
  destruct (emit_template_ok (t_store t) c2 e) as (c3 & -> & W3 & K3); [lia|destruct W1, W2; lia|]. rewrite T4 in *. cbn [mbind outcome_bind].
  destruct (Z.ltb_spec (51516 + (176 + 8 * (12 + 4 + (170 * 3 + 2) * 16 + (48 + 4)) + 52)) (e + Z.of_nat 52)); [lia|].
  exists c3, e. split; [done|]. split; [lia|]. split; [lia|].
  assert (W23 : wrote c1 c3 (51516 + Z.of_nat 176) (e + 52)) by (eapply wrote_trans; [|exact W2|exact W3]; lia).
  split; [eapply wrote_trans; [|exact W1|exact W23]; lia|]. constructor.
  - eapply wrote_keeps; [exact W23|exact K1|]. unfold CodeSize. lia.
  - rewrite T1. by eapply rounds_keep; [exact W3|lia|exact R2].
  - exact K3.
Qed.

(** The generated dataset code always fits: for the programs a cache prepares from any key, in either
    build, [generateSuperscalarHash] returns (its abort is unreachable), stays inside the buffer of CodeSize +
    CalcDatasetItemSize bytes and writes only the part from CodeSize on. *)
Theorem superscalar_code_fits no_e24_pad t rejections programs key code :
  contract t -> length programs = kRandomXCacheAccesses -> fresh_buffers programs -> Bytes key ->
  Z.of_nat (length code) = CodeSize + CalcDatasetItemSize ->
  match prepare_programs rejections programs key with
  | Done (ps, rc) => exists code' codePos,
      generateSuperscalarHash no_e24_pad t ps rc code = Done (code', codePos) /\
      CodeSize <= codePos <= CodeSize + CalcDatasetItemSize /\
      length code' = length code /\ take (Z.to_nat CodeSize) code' = take (Z.to_nat CodeSize) code
  | NoFuel => exhausted rejections (Blake2Generator.make key 0)
  | Throw _ | UB => False
  end.
Proof.
  intros Ht Hn Hf Hk Hlen. pose proof (prepare_programs_ready rejections programs key Hn Hf Hk) as Hr.
  pose proof (prepared_programs_ok rejections programs key) as Hall.
  destruct (prepare_programs rejections programs key) as [[ps rc]| | |]; try done.
  destruct (Hall ps rc Hn Hf Hk eq_refl) as [Hp Hok].
  destruct (generate_ok no_e24_pad t rc ps code Ht Hp Hok Hlen) as (code' & e & Eg & H1 & H2 & W & _).
  exists code', (e + 52). split; [done|]. split; [lia|]. split; [apply W|by eapply wrote_before].
Qed.

Definition blank_templates : templates :=
  mkTemplates (replicate 176 0) (replicate 8 0) (replicate 48 0) (replicate 52 0).

Lemma superscalar_code_fits_witness :
  match prepare_programs 9 (replicate 8 empty_program) [7] with
  | Done (ps, rc) => exists code' codePos,
      generateSuperscalarHash false blank_templates ps rc (replicate (Z.to_nat (CodeSize + CalcDatasetItemSize)) 0) =
        Done (code', codePos) /\ CodeSize <= codePos <= CodeSize + CalcDatasetItemSize
  | NoFuel => exhausted 9 (Blake2Generator.make [7] 0)
  | Throw _ | UB => False
  end.
Proof.
  assert (Ht : contract blank_templates) by (by split_and!).
  assert (Hf : fresh_buffers (replicate 8 empty_program)) by (apply Forall_replicate; apply length_replicate).
  assert (Hk : Bytes [7]) by (apply List.Forall_cons; [split; [lia|reflexivity]|apply List.Forall_nil]).
  assert (Hl : Z.of_nat (length (replicate (Z.to_nat (CodeSize + CalcDatasetItemSize)) 0)) = CodeSize + CalcDatasetItemSize)
    by (rewrite length_replicate, Z2Nat.id by (vm_compute; discriminate); reflexivity).
  pose proof (superscalar_code_fits false blank_templates 9 (replicate 8 empty_program) [7] _ Ht eq_refl Hf Hk Hl) as H.
  destruct (prepare_programs 9 (replicate 8 empty_program) [7]) as [[ps rc]| | |]; try exact H.
  destruct H as (code' & codePos & E & B & _). exists code', codePos. exact (conj E B).
Defined.
