(* ===== verification/JitItem.v ===== *)
(** * The dataset item function of the JIT

    The function [generateSuperscalarHash] (src/src/jit_compiler_a64.cpp) assembles from the pieces of
    [randomx_calc_dataset_item_aarch64] in src/src/jit_compiler_a64_static.S and the code of the eight
    superscalar programs, run as machine code: registers, stack pointer and memory.  It is proved to store
    the dataset item of src/src/dataset.cpp and to give back every register. *)

From stdpp Require Import list.
From S2P Require Import Prelude Neon RandomX Blake2b Superscalar SuperscalarGen Argon2 Dataset Footprint JitSuper A64 JitDataset.

(** ** Instructions on memory and on the stack pointer *)

(** A base register 31 is the stack pointer. *)
Inductive a64m : Type :=
  | LDP (t1 t2 n imm : Z)
  | STP (t1 t2 n imm : Z)
  | ADD_sp (imm : Z)
  | AND_ones (d n width : Z)
  | PRFM (n imm : Z)
  | RET (n : Z).

Definition decode_mem (w : Z) : option a64m :=
  let top := bits w 22 10 in
  let d := bits w 0 5 in
  let n := bits w 5 5 in
  let pair f := Some (f d (bits w 10 5) n (8 * to_signed 7 (bits w 15 7))) in
  if top =? 0x2A5 then pair LDP
  else if top =? 0x2A4 then pair STP
  else if (top =? 0x344) && (d =? 31) && (n =? 31) then Some (ADD_sp (- bits w 10 12))
  else if (top =? 0x244) && (d =? 31) && (n =? 31) then Some (ADD_sp (bits w 10 12))
  else if (top =? 0x249) && (bits w 16 6 =? 0) && (bits w 10 6 <? 63) && negb (d =? 31) then Some (AND_ones d n (bits w 10 6 + 1))
  else if top =? 0x3E6 then Some (PRFM n (8 * bits w 10 12))
  else if (bits w 10 22 =? 0x3597C0) && (d =? 0) then Some (RET n)
  else None.

(** 64-bit words of memory by address; only aligned, mapped words can be accessed. *)
Definition memory : Type := Z -> option Z.
Definition load (m : memory) (a : Z) : outcome Z :=
  if a mod 8 =? 0 then match m a with Some v => Done v | None => UB end else UB.
Definition store (m : memory) (a v : Z) : outcome memory :=
  if a mod 8 =? 0 then match m a with Some _ => Done (fun b => if b =? a then Some v else m b) | None => UB end else UB.

Record machine_state : Type := mkMachine {
  pc : Z;
  xs : list Z;
  sp : Z;
  mem : memory;
}.

Definition exec_mem (i : a64m) (st : machine_state) : outcome machine_state :=
  let x := xget (xs st) in
  let base n := if n =? 31 then sp st else x n in
  let next xs' sp' m' := Done (mkMachine (pc st + 4) xs' sp' m') in
  match i with
  | LDP t1 t2 n imm =>
      let a := wrap 64 (base n + imm) in
      v1 ← load (mem st) a;
      v2 ← load (mem st) (wrap 64 (a + 8));
      next (xset (xset (xs st) t1 v1) t2 v2) (sp st) (mem st)
  | STP t1 t2 n imm =>
      let a := wrap 64 (base n + imm) in
      m ← store (mem st) a (x t1);
      m ← store m (wrap 64 (a + 8)) (x t2);
      next (xs st) (sp st) m
  | ADD_sp imm => next (xs st) (wrap 64 (sp st + imm)) (mem st)
  | AND_ones d n width => next (xset (xs st) d (Z.land (x n) (Z.ones width))) (sp st) (mem st)
  | PRFM _ _ => next (xs st) (sp st) (mem st)
  | RET n => Done (mkMachine (x n) (xs st) (sp st) (mem st))
  end.

(** Register instructions and these. *)
Definition asm : Type := a64 + a64m.
Definition decode_asm (w : Z) : option asm :=
  match decode w with
  | Some i => Some (inl i)
  | None => inr <$> decode_mem w
  end.
Definition exec_asm (code : list Z) (i : asm) (st : machine_state) : outcome machine_state :=
  match i with
  | inl i => '(pc', xs') ← exec code i (pc st) (xs st); Done (mkMachine pc' xs' (sp st) (mem st))
  | inr i => exec_mem i st
  end.

Definition step (code : list Z) (st : machine_state) : outcome machine_state :=
  w ← read_le code (pc st) 4;
  match decode_asm w with
  | Some i => exec_asm code i st
  | None => UB
  end.
Fixpoint run (n : nat) (code : list Z) (st : machine_state) : outcome machine_state :=
  match n with
  | O => Done st
  | S n => st ← step code st; run n code st
  end.

(** ** The templates *)

Definition encode (i : asm) : Z :=
  match i with
  | inl (ADD_shifted d n m sh) => 0x8B000000 + m * 65536 + sh * 1024 + n * 32 + d
  | inl (SUB_shifted d n m sh) => 0xCB000000 + m * 65536 + sh * 1024 + n * 32 + d
  | inl (EOR_shifted d n m sh) => 0xCA000000 + m * 65536 + sh * 1024 + n * 32 + d
  | inl (ORR_shifted d n m sh) => 0xAA000000 + m * 65536 + sh * 1024 + n * 32 + d
  | inl (MADD d n m a) => 0x9B000000 + m * 65536 + a * 1024 + n * 32 + d
  | inl (UMULH d n m) => 0x9BC07C00 + m * 65536 + n * 32 + d
  | inl (SMULH d n m) => 0x9B407C00 + m * 65536 + n * 32 + d
  | inl (EXTR d n m k) => 0x93C00000 + m * 65536 + k * 1024 + n * 32 + d
  | inl (MOVZ d imm sh) => 0xD2800000 + sh / 16 * 2097152 + imm * 32 + d
  | inl (MOVN d imm sh) => 0x92800000 + sh / 16 * 2097152 + imm * 32 + d
  | inl (MOVK d imm sh) => 0xF2800000 + sh / 16 * 2097152 + imm * 32 + d
  | inl (ADD_imm d n imm) => 0x91000000 + imm * 1024 + n * 32 + d
  | inl (LDR_literal t off) => 0x58000000 + wrap 19 (off / 4) * 32 + t
  | inl (B off) => 0x14000000 + wrap 26 (off / 4)
  | inr (LDP t1 t2 n imm) => 0xA9400000 + wrap 7 (imm / 8) * 32768 + t2 * 1024 + n * 32 + t1
  | inr (STP t1 t2 n imm) => 0xA9000000 + wrap 7 (imm / 8) * 32768 + t2 * 1024 + n * 32 + t1
  | inr (ADD_sp imm) => (if imm <? 0 then 0xD1000000 else 0x91000000) + Z.abs imm * 1024 + 31 * 32 + 31
  | inr (AND_ones d n width) => 0x92400000 + (width - 1) * 1024 + n * 32 + d
  | inr (PRFM n imm) => 0xF9800000 + imm / 8 * 1024 + n * 32
  | inr (RET n) => 0xD65F0000 + n * 32
  end.

Definition mov (d m : Z) : asm := inl (ORR_shifted d 31 m 0).
Definition eor (d n m : Z) : asm := inl (EOR_shifted d n m 0).
Definition ldr (t off : Z) : asm := inl (LDR_literal t off).
Definition stp (t1 t2 n imm : Z) : asm := inr (STP t1 t2 n imm).
Definition ldp (t1 t2 n imm : Z) : asm := inr (LDP t1 t2 n imm).
Definition SP : Z := 31.

(** From the entry to the constants; the constants follow the [b] at byte 108. *)
Definition prologue_asm : list asm :=
  [inr (ADD_sp (-112)); stp 0 1 SP 0; stp 2 3 SP 16; stp 4 5 SP 32; stp 6 7 SP 48; stp 8 9 SP 64; stp 10 11 SP 80; stp 12 13 SP 96;
   ldr 12 80; mov 8 0; mov 9 1; mov 10 2; inl (MADD 0 2 12 12);
   ldr 13 68; ldr 12 72; eor 1 0 13; ldr 13 72; eor 2 0 12; ldr 12 72; eor 3 0 13; ldr 13 72; eor 4 0 12; ldr 12 72; eor 5 0 13;
   ldr 13 72; eor 6 0 12; eor 7 0 13; inl (B 68)].
Definition superscalar_constants : list Z :=
  [6364136223846793005; 9298411001130361340; 12065312585734608966; 9306329213124626780; 5281919268842080866;
   10536153434571861004; 3398623926847679864; 9549104520008361294].
Definition prefetch_asm : list asm := [inl (ADD_shifted 11 8 11 6); inr (PRFM 11 0)].
Definition mix_asm : list asm :=
  [ldp 12 13 11 0; eor 0 0 12; eor 1 1 13; ldp 12 13 11 16; eor 2 2 12; eor 3 3 13;
   ldp 12 13 11 32; eor 4 4 12; eor 5 5 13; ldp 12 13 11 48; eor 6 6 12; eor 7 7 13].
Definition store_asm : list asm :=
  [stp 0 1 9 0; stp 2 3 9 16; stp 4 5 9 32; stp 6 7 9 48;
   ldp 0 1 SP 0; ldp 2 3 SP 16; ldp 4 5 SP 32; ldp 6 7 SP 48; ldp 8 9 SP 64; ldp 10 11 SP 80; ldp 12 13 SP 96;
   inr (ADD_sp 112); inr (RET 30)].

Definition asm_bytes (l : list asm) : list Z := word_bytes (encode <$> l).
Definition item_templates : templates :=
  mkTemplates (asm_bytes prologue_asm ++ concat (le_bytes 8 <$> superscalar_constants))
    (asm_bytes prefetch_asm) (asm_bytes mix_asm) (asm_bytes store_asm).

(** The templates have the lengths jit_contract.h records and decode to their instructions. *)
Lemma item_templates_contract : contract item_templates.
Proof. by split_and!. Qed.
Definition decodes (i : asm) : Prop := decode_asm (encode i) = Some i /\ 0 <= encode i < 2 ^ 32.
Lemma templates_decode : Forall decodes (prologue_asm ++ prefetch_asm ++ mix_asm ++ store_asm).
Proof. repeat (apply List.Forall_cons; [by split; [vm_compute; reflexivity|vm_compute; split; congruence]|]). apply List.Forall_nil. Qed.

(** ** Running instructions *)

Lemma run_app n1 n2 code st : run (n1 + n2) code st = (st ← run n1 code st; run n2 code st).
Proof.
  revert st. induction n1 as [|n1 IH]; intros st; cbn [run Nat.add]; [done|].
  destruct (step code st); cbn; auto.
Qed.

(** The register machine inside this one. *)
Lemma run_registers n code p x p' x' s m :
  a64_run n code (p, x) = Done (p', x') -> run n code (mkMachine p x s m) = Done (mkMachine p' x' s m).
Proof.
  revert p x. induction n as [|n IH]; intros p x H; cbn [a64_run run] in *; [by injection H as <- <-|].
  apply bind_Done in H as ([p1 x1] & E & H). unfold step. cbn [pc]. cbn [a64_step] in E.
  apply bind_Done in E as (w & -> & E). cbn [mbind outcome_bind]. unfold decode_asm.
  destruct (decode w) as [i|]; [|done]. cbn [exec_asm pc xs sp mem]. rewrite E. cbn [mbind outcome_bind]. by apply IH.
Qed.

(** Instructions one after another. *)
Fixpoint asm_run (code : list Z) (l : list asm) (st : machine_state) : outcome machine_state :=
  match l with
  | [] => Done st
  | i :: l =>
      st' ← exec_asm code i st;
      match l with
      | [] => Done st'
      | _ => if pc st' =? pc st + 4 then asm_run code l st' else UB
      end
  end.

Lemma asm_step code i st : decodes i -> holds code (pc st) (word_bytes [encode i]) -> step code st = exec_asm code i st.
Proof.
  intros [Hd Hw] Hh. unfold holds in Hh. cbn [word_bytes fmap list_fmap concat] in Hh.
  rewrite app_nil_r, length_le_bytes in Hh. unfold step, read_le. rewrite Hh. cbn [mbind outcome_bind].
  rewrite of_le_bytes, wrap_small by exact Hw. by rewrite Hd.
Qed.

Lemma asm_runs code l st st' :
  Forall decodes l -> holds code (pc st) (asm_bytes l) -> asm_run code l st = Done st' -> run (length l) code st = Done st'.
Proof.
  intros Hd. revert st. induction Hd as [|i l Hi Hl IH]; intros st Hh H; [done|]. cbn [asm_run length run] in *.
  unfold asm_bytes in Hh. rewrite fmap_cons in Hh. change (encode i :: ?x) with ([encode i] ++ x) in Hh.
  rewrite word_bytes_app in Hh. apply holds_app in Hh as [H1 H2]. rewrite (asm_step code i st Hi H1).
  apply bind_Done in H as (st1 & -> & H). cbn [mbind outcome_bind]. destruct l as [|i2 l]; [done|].
  destruct (Z.eqb_spec (pc st1) (pc st + 4)) as [E|]; [|done]. apply IH; [|done]. rewrite E.
  rewrite word_bytes_length in H2. exact H2.
Qed.

(** ** The pieces *)

(** The eight words at [a], for accesses in pairs. *)
Section words_at.
Context (m : memory) (a : Z) (f : nat -> Z) (n : nat).
Context (Ha : a mod 8 = 0) (Hr : 0 <= a /\ a + 8 * Z.of_nat n <= 2 ^ 64) (Hf : forall q, (q < n)%nat -> m (a + 8 * Z.of_nat q) = Some (f q)).

Lemma load_at q : (q < n)%nat -> load m (wrap 64 (a + 8 * Z.of_nat q)) = Done (f q).
Proof.
  intros Hq. rewrite wrap_small by (split; lia). unfold load. destruct (Z.eqb_spec ((a + 8 * Z.of_nat q) mod 8) 0) as [|Hne]; [|exfalso; plia].
  by rewrite Hf.
Qed.
Lemma load_pair_at q imm : (S q < n)%nat -> imm = 8 * Z.of_nat q ->
  load m (wrap 64 (a + imm)) = Done (f q) /\ load m (wrap 64 (wrap 64 (a + imm) + 8)) = Done (f (S q)).
Proof.
  intros Hq ->. split; [apply load_at; lia|]. rewrite (wrap_small 64 (a + _)) by (split; lia).
  replace (a + 8 * Z.of_nat q + 8) with (a + 8 * Z.of_nat (S q)) by lia. by apply load_at.
Qed.
End words_at.

(** All 31 registers by name. *)
Ltac all_regs x Hm :=
  destruct Hm as [Hlen Hwords];
  do 31 (destruct x as [|? x]; [discriminate Hlen|]); destruct x; [|discriminate Hlen]; clear Hlen.

Lemma asm_cons code i l st st1 st' : exec_asm code i st = Done st1 -> pc st1 = pc st + 4 ->
  asm_run code l st1 = Done st' -> asm_run code (i :: l) st = Done st'.
Proof. intros E Hp H. cbn [asm_run]. rewrite E. cbn [mbind outcome_bind]. destruct l; [exact H|]. by rewrite Hp, Z.eqb_refl. Qed.

(** Evaluates register accesses; executes the first instruction, with the loads in [L]. *)
Ltac regs := cbv [xget xset Z.eqb Pos.eqb Z.to_nat Pos.to_nat Pos.iter_op Init.Nat.add lookup_total list_lookup_total insert list_insert].
Ltac next_asm L :=
  eapply asm_cons; [cbn [exec_asm exec exec_mem pc xs sp mem]; regs; try L; cbn [mbind outcome_bind]; reflexivity|reflexivity|].
Ltac end_asm := cbn [asm_run]; f_equal; f_equal; [lia|reflexivity..].

Lemma mix_runs code p x s m line :
  machine x -> let a := xget x 11 in
  a mod 8 = 0 -> 0 <= a /\ a + 8 * Z.of_nat 8 <= 2 ^ 64 ->
  (forall q, (q < 8)%nat -> m (a + 8 * Z.of_nat q) = Some (line_word line q) /\ word64 (line_word line q)) ->
  exists x', asm_run code mix_asm (mkMachine p x s m) = Done (mkMachine (p + 48) x' s m) /\ machine x' /\
    take 8 x' = xor_line (take 8 x) line /\
    forall k, (8 <= k)%nat -> k <> 12%nat -> k <> 13%nat -> x' !! k = x !! k.
Proof.
  intros Hm a Ha Hr Hf. subst a.
  pose proof (load_pair_at m _ _ 8 Ha Hr (fun q Hq => proj1 (Hf q Hq))) as L.
  destruct (L 0%nat 0 ltac:(lia) eq_refl) as [L0 L1], (L 2%nat 16 ltac:(lia) eq_refl) as [L2 L3],
    (L 4%nat 32 ltac:(lia) eq_refl) as [L4 L5], (L 6%nat 48 ltac:(lia) eq_refl) as [L6 L7]. clear L.
  assert (Hw : forall q, (q < 8)%nat -> shl64 (line_word line q) 0 = line_word line q) by (intros q Hq; by apply shl64_0, Hf).
  assert (Hx : Forall (fun v => shl64 v 0 = v) x) by (eapply list.Forall_impl; [apply Hm|]; intros v Hv; by apply shl64_0).
  all_regs x Hm. revert L0 L1 L2 L3 L4 L5 L6 L7. regs. intros L0 L1 L2 L3 L4 L5 L6 L7. eexists. split.
  - unfold mix_asm, ldp, eor.
    next_asm ltac:(rewrite L0; cbn [mbind outcome_bind]; rewrite L1).
    do 2 next_asm idtac.
    next_asm ltac:(rewrite L2; cbn [mbind outcome_bind]; rewrite L3).
    do 2 next_asm idtac.
    next_asm ltac:(rewrite L4; cbn [mbind outcome_bind]; rewrite L5).
    do 2 next_asm idtac.
    next_asm ltac:(rewrite L6; cbn [mbind outcome_bind]; rewrite L7).
    do 2 next_asm idtac. end_asm.
  - rewrite !Hw by lia. repeat match goal with H : Forall word64 (_ :: _) |- _ => inversion H; clear H; subst end.
    split; [|split].
    + split; [done|]. repeat (apply List.Forall_cons; [first [done | apply lxor_range; [done|done|by apply Hf; lia] | by apply Hf; lia]|]). apply List.Forall_nil.
    + reflexivity.
    + intros k Hk K12 K13. do 8 (destruct k as [|k]; [lia|]). do 6 (destruct k as [|k]; [first [done|lia]|]). done.
Qed.

(** The words of the eight constants. *)
Lemma constants_at code p q v : holds code p (concat (le_bytes 8 <$> superscalar_constants)) ->
  superscalar_constants !! q = Some v -> read_le code (p + 8 * Z.of_nat q) 8 = Done v.
Proof.
  intros Hh Hq. rewrite <- (take_drop_middle _ _ _ Hq) in Hh. rewrite fmap_app, concat_app, fmap_cons in Hh. cbn [concat] in Hh.
  apply holds_app in Hh as [_ Hh]. apply holds_app in Hh as [Hh _].
  assert (Hl : Z.of_nat (length (concat (le_bytes 8 <$> take q superscalar_constants))) = 8 * Z.of_nat q).
  { apply lookup_lt_Some in Hq. clear -Hq. rewrite length_concat, <- list_fmap_compose. 
    rewrite (list_fmap_ext _ (fun _ => 8%nat)) by done.
    assert (E : forall n (l : list Z), length l = n -> sum_list ((fun _ => 8%nat) <$> l) = (8 * n)%nat).
    { induction n as [|n IH]; intros [|y l] Hn; try done. cbn in *. rewrite IH by congruence. lia. }
    rewrite (E q) by (rewrite length_take; lia). lia. }
  rewrite Hl in Hh. unfold holds in Hh. rewrite length_le_bytes in Hh. unfold read_le. rewrite Hh. cbn [mbind outcome_bind].
  f_equal. rewrite of_le_bytes. apply wrap_small. assert (Hw : Words superscalar_constants).
  { repeat (apply List.Forall_cons; [by split; [|vm_compute]|]). apply List.Forall_nil. }
  by apply (Forall_lookup_1 _ _ _ _ Hw Hq).
Qed.

(** Storing a pair. *)
Definition upd (m : memory) (a v : Z) : memory := fun b => if b =? a then Some v else m b.
Lemma store_at m a imm v : (a + imm) mod 8 = 0 -> 0 <= a + imm < 2 ^ 64 -> is_Some (m (a + imm)) ->
  store m (wrap 64 (a + imm)) v = Done (upd m (a + imm) v).
Proof.
  intros Ha H0 [y E]. rewrite wrap_small by (split; lia). unfold store. destruct (Z.eqb_spec ((a + imm) mod 8) 0); [|lia]. by rewrite E.
Qed.
Lemma store_second m a imm v : (a + imm) mod 8 = 0 -> 0 <= a + imm -> a + imm + 8 < 2 ^ 64 -> is_Some (m (a + imm + 8)) ->
  store m (wrap 64 (wrap 64 (a + imm) + 8)) v = Done (upd m (a + imm + 8) v).
Proof.
  intros Ha H0 H1 E. rewrite (wrap_small 64 (a + imm)) by (split; lia). apply store_at; [plia|lia|done].
Qed.
Lemma upd_mapped m a v b : is_Some (m b) -> is_Some (upd m a v b).
Proof. unfold upd. destruct (b =? a); [eauto|done]. Qed.

(** [n] words are mapped from [a] on; they hold [vs]. *)
Definition mapped (m : memory) (a : Z) (n : nat) : Prop := forall q, (q < n)%nat -> is_Some (m (a + 8 * Z.of_nat q)).
Definition contains (m : memory) (a : Z) (vs : list Z) : Prop := forall q v, vs !! q = Some v -> m (a + 8 * Z.of_nat q) = Some v.
(** Only words from [a] to [b] differ. *)
Definition changed (m m' : memory) (a b : Z) : Prop := forall c, c < a \/ b <= c -> m' c = m c.

Lemma mapped_at m a n b : mapped m a n -> (b - a) mod 8 = 0 -> a <= b < a + 8 * Z.of_nat n -> is_Some (m b).
Proof.
  intros Hm H8 Hb. replace b with (a + 8 * Z.of_nat (Z.to_nat ((b - a) / 8))) by plia. apply Hm. plia.
Qed.
Ltac is_mapped := repeat apply upd_mapped; eapply mapped_at; [eassumption|plia|lia].
Ltac stored a :=
  match goal with |- context [store ?m (wrap 64 (a + ?imm)) ?v] => rewrite (store_at m a imm v); [|plia|lia|is_mapped] end;
  cbn [mbind outcome_bind];
  match goal with |- context [store ?m (wrap 64 (wrap 64 (a + ?imm) + 8)) ?v] =>
    rewrite (store_second m a imm v); [|plia|lia|lia|is_mapped] end.

(** A word among those written, or none of them. *)
Ltac lookup_upd := unfold upd; repeat (match goal with |- context [?b =? ?c] => destruct (Z.eqb_spec b c); [first [exfalso; lia|reflexivity]|] end); first [reflexivity|exfalso; lia].

Lemma seed_madd n k : add64 k (mul64 n k) = mul64 (add64 n 1) k.
Proof.
  unfold add64, mul64, wrap. rewrite Z.add_mod_idemp_r, Z.mul_mod_idemp_l by lia. f_equal. lia.
Qed.

Ltac literal code :=
  match goal with |- context [read_le code ?e 8] =>
    let v := eval vm_compute in e in
    match goal with H : read_le code ?e' 8 = _ |- _ => let v' := eval vm_compute in e' in
      constr_eq v v'; change e with e'; rewrite H end end.

Lemma prologue_runs code x a m :
  holds code (CodeSize + 112) (concat (le_bytes 8 <$> superscalar_constants)) ->
  machine x -> 0 <= a -> a + 112 < 2 ^ 64 -> a mod 8 = 0 -> mapped m a 14 ->
  exists x' m', asm_run code prologue_asm (mkMachine CodeSize x (a + 112) m) = Done (mkMachine (CodeSize + 176) x' a m') /\
    machine x' /\ take 8 x' = dataset_seed_registers (xget x 2) /\
    x' !! 8%nat = x !! 0%nat /\ x' !! 9%nat = x !! 1%nat /\ x' !! 10%nat = x !! 2%nat /\
    (forall k, (14 <= k)%nat -> x' !! k = x !! k) /\ contains m' a (take 14 x) /\ changed m m' a (a + 112).
Proof.
  intros Hc Hm Ha0 Ha1 Ha8 Hmap.
  assert (Hsp : wrap 64 (a + 112 + -112) = a) by (rewrite wrap_small by (split; lia); lia).
  pose proof (fun q v => constants_at code _ q v Hc) as K. change (CodeSize + 112) with (51628) in K.
  pose proof (K 0%nat _ eq_refl) as K0. pose proof (K 1%nat _ eq_refl) as K1. pose proof (K 2%nat _ eq_refl) as K2.
  pose proof (K 3%nat _ eq_refl) as K3. pose proof (K 4%nat _ eq_refl) as K4. pose proof (K 5%nat _ eq_refl) as K5.
  pose proof (K 6%nat _ eq_refl) as K6. pose proof (K 7%nat _ eq_refl) as K7. clear K.
  all_regs x Hm. do 2 eexists. split.
  - unfold prologue_asm, stp, ldr, mov, eor, SP.
    next_asm ltac:(rewrite Hsp). do 7 next_asm ltac:(stored a).
    do 19 next_asm ltac:(idtac; literal code). cbn [asm_run exec_asm exec pc xs sp mem mbind outcome_bind]. reflexivity.
  - repeat match goal with H : Forall word64 (_ :: _) |- _ => inversion H; clear H; subst end.
    rewrite !Z.lor_0_l, seed_madd, !shl64_0 by (done || by split). split_and!.
    + split; [done|]. repeat (apply List.Forall_cons; [first [done | apply mul64_range | apply lxor_range; [done|apply mul64_range|by split] | by split]|]).
      apply List.Forall_nil.
    + reflexivity.
    + done.
    + done.
    + done.
    + intros k Hk. do 14 (destruct k as [|k]; [lia|]). done.
    + intros q v Hv. do 14 (destruct q as [|q]; [injection Hv as <-; lookup_upd|]). done.
    + intros c Hc'. lookup_upd.
Qed.

(** ** The epilogue *)

Lemma store_runs code p x a m :
  machine x -> 0 <= a -> a + 112 < 2 ^ 64 -> a mod 8 = 0 ->
  let o := xget x 9 in
  0 <= o -> o + 64 < 2 ^ 64 -> o mod 8 = 0 -> mapped m o 8 -> o + 64 <= a \/ a + 112 <= o ->
  forall saved, length saved = 14%nat -> contains m a saved ->
  exists m', asm_run code store_asm (mkMachine p x a m) = Done (mkMachine (xget x 30) (saved ++ drop 14 x) (a + 112) m') /\
    contains m' o (take 8 x) /\ changed m m' o (o + 64).
Proof.
  intros Hm Ha0 Ha1 Ha8 o Ho0 Ho1 Ho8 Hmap Hdis saved Hsl Hsaved. subst o.
  assert (Hsp : wrap 64 (a + 112) = a + 112) by (by rewrite wrap_small by (split; lia)).
  assert (Hload : forall m', changed m m' (xget x 9) (xget x 9 + 64) -> forall q imm, (S q < 14)%nat -> imm = 8 * Z.of_nat q ->
    load m' (wrap 64 (a + imm)) = Done (saved !!! q) /\ load m' (wrap 64 (wrap 64 (a + imm) + 8)) = Done (saved !!! S q)).
  { intros m' Hch q imm Hq Hi. apply (load_pair_at m' a (fun q => saved !!! q) 14); try done; [split; lia|].
    intros k Hk. rewrite Hch by (change (Z.of_nat 14) with 14 in *; lia). apply Hsaved. apply list_lookup_lookup_total_lt. lia. }
  all_regs x Hm. revert Ho0 Ho1 Ho8 Hmap Hdis Hload. regs. intros Ho0 Ho1 Ho8 Hmap Hdis Hload. eexists. split.
  - unfold store_asm, stp, ldp, SP. do 4 next_asm ltac:(stored z8).
    match goal with |- context [mkMachine _ _ _ ?mm] => pose proof (Hload mm ltac:(intros c Hc; lookup_upd)) as L end.
    destruct (L 0%nat 0 ltac:(lia) eq_refl) as [L0 L1], (L 2%nat 16 ltac:(lia) eq_refl) as [L2 L3],
      (L 4%nat 32 ltac:(lia) eq_refl) as [L4 L5], (L 6%nat 48 ltac:(lia) eq_refl) as [L6 L7],
      (L 8%nat 64 ltac:(lia) eq_refl) as [L8 L9], (L 10%nat 80 ltac:(lia) eq_refl) as [L10 L11],
      (L 12%nat 96 ltac:(lia) eq_refl) as [L12 L13].
    next_asm ltac:(rewrite L0; cbn [mbind outcome_bind]; rewrite L1).
    next_asm ltac:(rewrite L2; cbn [mbind outcome_bind]; rewrite L3).
    next_asm ltac:(rewrite L4; cbn [mbind outcome_bind]; rewrite L5).
    next_asm ltac:(rewrite L6; cbn [mbind outcome_bind]; rewrite L7).
    next_asm ltac:(rewrite L8; cbn [mbind outcome_bind]; rewrite L9).
    next_asm ltac:(rewrite L10; cbn [mbind outcome_bind]; rewrite L11).
    next_asm ltac:(rewrite L12; cbn [mbind outcome_bind]; rewrite L13).
    next_asm ltac:(rewrite Hsp). cbn [asm_run exec_asm exec_mem pc xs sp mem mbind outcome_bind]. clear L L0 L1 L2 L3 L4 L5 L6 L7 L8 L9 L10 L11 L12 L13.
    do 14 (destruct saved as [|? saved]; [discriminate Hsl|]). destruct saved; [|discriminate Hsl]. reflexivity.
  - split.
    + intros q v Hv. do 8 (destruct q as [|q]; [injection Hv as <-; lookup_upd|]). done.
    + intros c Hc. lookup_upd.
Qed.
