(* ===== verification/JitItemEquiv.v ===== *)
(** * The JIT's dataset item function computes dataset items

    The function assembled by [generateSuperscalarHash] (JitDataset.v), run by the machine of JitItem.v,
    against [generate_dataset_item] of src/src/dataset.cpp (Dataset.v). *)

From stdpp Require Import list.
From S2P Require Import Prelude Neon RandomX Blake2b Superscalar SuperscalarGen Argon2 Dataset Footprint JitSuper A64 JitDataset JitItem.

(** ** One round *)

Definition reaches (code : list Z) (st st' : machine_state) : Prop := exists n, run n code st = Done st'.
Lemma reaches_chain code st1 st2 st3 : reaches code st1 st2 -> reaches code st2 st3 -> reaches code st1 st3.
Proof. intros [n1 E1] [n2 E2]. exists (n1 + n2)%nat. by rewrite run_app, E1. Qed.
Lemma reaches_asm code l st st' : Forall decodes l -> holds code (pc st) (asm_bytes l) -> asm_run code l st = Done st' -> reaches code st st'.
Proof. intros Hd Hh H. exists (length l). by apply asm_runs. Qed.

Lemma decodes_parts : Forall decodes prologue_asm /\ Forall decodes prefetch_asm /\ Forall decodes mix_asm /\ Forall decodes store_asm.
Proof. pose proof templates_decode as H. rewrite !Forall_app in H. tauto. Qed.

(** The mask and the address register, as emitted. *)
Lemma and_word : ARMV8A.AND_IMM_64 = 0x92400000 /\
  word_bytes [Z.lor (Z.lor (Z.lor ARMV8A.AND_IMM_64 11) (Z.shiftl 10 5)) (Z.shiftl (Z.log2 (kRandomXCacheBytes / 64) - 1) 10)] =
    asm_bytes [inr (AND_ones 11 10 22)] /\ decodes (inr (AND_ones 11 10 22)).
Proof. split; [done|]. split; [reflexivity|]. split; [reflexivity|]. by split. Qed.
Lemma mov_word d : 0 <= d < 8 ->
  word_bytes [Z.lor (Z.lor ARMV8A.MOV_REG 10) (Z.shiftl d 16)] = asm_bytes [mov 10 d] /\ decodes (mov 10 d).
Proof.
  intros Hd. assert (H : d = 0 \/ d = 1 \/ d = 2 \/ d = 3 \/ d = 4 \/ d = 5 \/ d = 6 \/ d = 7) by lia.
  repeat (destruct H as [->|H]; [by split_and!|]). subst d. by split_and!.
Qed.

Section item.
Context (c : Argon2dCache) (Hc : cache_ready c) (Hblocks : memory_blocks_ c = 262144).
Context (no_e24_pad : bool) (code : list Z) (base : Z) (m : memory) (s : Z).

(** The cache's lines are in memory at [base]. *)
Definition cache_at : Prop := forall i line q, 0 <= i < 2 ^ 22 -> (q < 8)%nat -> load_cache_line c i = Done line ->
  m (base + 64 * i + 8 * Z.of_nat q) = Some (line_word line q).

Context (Hbase : base mod 8 = 0 /\ 0 <= base /\ base + 2 ^ 28 <= 2 ^ 64) (Hcache : cache_at).

(** Between rounds: the registers, the cache, the item's address and the registers of the caller. *)
Record between (x : list Z) (rl : list Z) (rv : Z) (x0 : list Z) : Prop := mkBetween {
  bt_machine : machine x;
  bt_regs : take 8 x = rl;
  bt_cache : x !! 8%nat = Some base;
  bt_rv : x !! 10%nat = Some rv;
  bt_out : x !! 9%nat = x0 !! 9%nat;
  bt_frame : forall k, (14 <= k)%nat -> x !! k = x0 !! k;
}.

Lemma line_count : cache_line_count c = 2 ^ 22.
Proof. destruct (line_count_eq c Hc) as [-> _]. by rewrite Hblocks. Qed.

Lemma xget_lookup x n v : 0 <= n < 31 -> x !! Z.to_nat n = Some v -> xget x n = v.
Proof. intros Hn Hv. unfold xget. destruct (Z.eqb_spec n 31); [lia|]. by apply list_lookup_total_correct. Qed.

Lemma line_address rv : word64 rv ->
  let i := rv mod 2 ^ 22 in
  add64 base (shl64 (Z.land rv (Z.ones 22)) 6) = base + 64 * i /\ 0 <= i < 2 ^ 22.
Proof.
  intros Hrv i. rewrite Z.land_ones by lia. fold i. assert (Hi : 0 <= i < 2 ^ 22) by (apply Z.mod_pos_bound; lia).
  split; [|done]. clearbody i. unfold shl64, add64. rewrite Z.shiftl_mul_pow2 by lia. change (2 ^ 6) with 64.
  rewrite (wrap_small 64 (i * 64)) by (split; lia). rewrite wrap_small by (split; lia). lia.
Qed.

Lemma round_runs prog instrs pos x rl rv x0 i rl' rv' :
  at_index (programs_ c) i = Done prog -> 0 <= addr_reg_ prog < 8 -> size_ prog <= 512 -> 0 <= size_ prog ->
  round_at no_e24_pad item_templates (reciprocal_cache_ c) prog instrs code pos ->
  rearranged (reciprocal_cache_ c) prog instrs ->
  between x rl rv x0 -> item_round c (cache_line_count c) (rl, rv) i = Done (rl', rv') ->
  exists x', reaches code (mkMachine pos x s m)
      (mkMachine (round_end no_e24_pad item_templates (reciprocal_cache_ c) instrs pos) x' s m) /\ between x' rl' rv' x0.
Proof.
  intros Hat Haddr H512 Hsz0 [K1 K2 K3 K4 K5] (Hn & Henc & Hex) [Hm Hr Hb Hrv Ho Hf] Hround.
  unfold item_round in Hround. rewrite line_count in Hround. apply bind_Done in Hround as (line & El & Hround).
  rewrite Hat in Hround. cbn [mbind outcome_bind] in Hround. apply bind_Done in Hround as (r1 & Er & Hround).
  apply bind_Done in Hround as (v & Ev & Hround). injection Hround as <- <-.
  destruct decodes_parts as (_ & D2 & D3 & _). destruct and_word as (_ & Ew & D1). rewrite Ew in K1.
  assert (Wrv : word64 rv) by (by apply (Forall_lookup_1 _ _ _ _ (proj2 Hm) Hrv)).
  destruct (line_address rv Wrv) as [EA Hi]. set (A := base + 64 * (rv mod 2 ^ 22)) in *.
  set (pf := Z.of_nat (length (t_prefetch item_templates))) in *. change pf with 8 in *. clear pf.
  (* the line's address *)
  set (x2 := xset (xset x 11 (Z.land rv (Z.ones 22))) 11 A).
  assert (R1 : reaches code (mkMachine pos x s m) (mkMachine (pos + 4 + 8) x2 s m)).
  { eapply reaches_chain.
    - apply (reaches_asm code [inr (AND_ones 11 10 22)]); [by apply List.Forall_cons; [|apply List.Forall_nil]|exact K1|reflexivity].
    - apply (reaches_asm code prefetch_asm); [exact D2|exact K2|]. unfold prefetch_asm.
      eapply asm_cons; [reflexivity|reflexivity|]. eapply asm_cons; [reflexivity|reflexivity|]. cbn [asm_run]. f_equal.
      cbn [pc xs sp mem]. f_equal; [lia|]. unfold x2. rewrite (xget_lookup x 10 rv) by (done || lia). f_equal.
      rewrite (xget_xset_ne x 11 8) by lia. rewrite (xget_lookup x 8 base) by (done || lia).
      rewrite xget_xset by (done || lia). exact EA. }
  assert (Hm2 : machine x2).
  { unfold x2. apply xset_machine; [apply xset_machine; [done|]|].
    - rewrite Z.land_ones by lia. split; lia.
    - unfold A. split; lia. }
  assert (Hx2 : forall k, k <> 11%nat -> x2 !! k = x !! k).
  { intros k Hk. unfold x2, xset. cbn [Z.eqb Pos.eqb]. by rewrite !list_lookup_insert_ne by lia. }
  assert (Ht2 : take 8 x2 = rl) by (unfold x2; by rewrite !take_xset_tmp by lia).
  (* the program *)
  destruct (laid_out_runs no_e24_pad (reciprocal_cache_ c) instrs code (pos + 4 + 8) x2 r1) as (n & x3 & E3 & [Hm3 Ht3 Hf3]);
    [done|done|lia|rewrite Ht2; by apply Hex|exact K3|].
  apply (run_registers n code _ _ _ _ s m) in E3.
  (* the mix *)
  assert (Hx11 : xget x3 11 = A).
  { apply xget_lookup; [lia|]. rewrite Hf3 by (cbn; lia). unfold x2, xset. cbn [Z.eqb Pos.eqb].
    apply list_lookup_insert_eq. rewrite length_insert. destruct Hm as [-> _]. cbn. lia. }
  destruct (mix_runs code (code_end no_e24_pad (reciprocal_cache_ c) instrs (pos + 4 + 8)) x3 s m line) as (x4 & E4 & Hm4 & Ht4 & Hf4);
    [done|rewrite Hx11; unfold A; plia|rewrite Hx11; unfold A; lia| |].
  { intros q Hq. rewrite Hx11. split; [by apply Hcache|]. destruct (load_cache_line_ok c Hc (rv mod 2 ^ 22)) as (l2 & E2 & _ & Hb2).
    assert (l2 = line) as -> by congruence. by apply line_word_range. }
  (* the address register *)
  destruct (mov_word (addr_reg_ prog) Haddr) as [Ew5 D5]. change (Z.of_nat (length (t_mix item_templates))) with 48 in *.
  rewrite Ew5 in K5. set (x5 := xset x4 10 v).
  assert (Wv : word64 v).
  { rewrite Ht3 in Ht4. rewrite <- Ht4 in Ev. eapply at_index_Forall; [|exact Ev]. apply Forall_take, Hm4. }
  exists x5. split.
  - eapply reaches_chain; [exact R1|]. eapply reaches_chain; [by exists n|]. eapply reaches_chain.
    + apply (reaches_asm code mix_asm); [exact D3|exact K4|exact E4].
    + unfold round_end. change (Z.of_nat (length (t_prefetch item_templates))) with 8. change (Z.of_nat (length (t_mix item_templates))) with 48.
      apply (reaches_asm code [mov 10 (addr_reg_ prog)]); [by apply List.Forall_cons; [|apply List.Forall_nil]|exact K5|].
      unfold mov. cbn [asm_run exec_asm exec pc xs sp mem mbind outcome_bind]. do 3 f_equal. unfold x5. f_equal.
      change (xget x4 31) with 0. rewrite Z.lor_0_l. rewrite Ht3 in Ht4. rewrite <- Ht4 in Ev. apply at_index_Done in Ev as [_ Ev].
      apply lookup_take_Some in Ev as [Ev _]. rewrite (xget_lookup x4 _ v) by (done || lia). by apply shl64_0.
  - constructor.
    + by apply xset_machine.
    + unfold x5. rewrite take_xset_tmp by lia. by rewrite Ht4, Ht3.
    + unfold x5, xset. cbn [Z.eqb Pos.eqb]. rewrite list_lookup_insert_ne by done. rewrite Hf4, Hf3 by lia. by rewrite Hx2.
    + unfold x5, xset. cbn [Z.eqb Pos.eqb]. apply list_lookup_insert_eq. destruct Hm4 as [-> _]. cbn. lia.
    + unfold x5, xset. cbn [Z.eqb Pos.eqb]. rewrite list_lookup_insert_ne by done. rewrite Hf4, Hf3 by lia. by rewrite Hx2.
    + intros k Hk. unfold x5, xset. cbn [Z.eqb Pos.eqb]. rewrite list_lookup_insert_ne by (cbn; lia).
      rewrite Hf4, Hf3 by lia. rewrite Hx2 by lia. by apply Hf.
Qed.

Lemma rounds_run progs : forall pre pos e x rl rv x0 rl' rv',
  programs_ c = pre ++ progs ->
  Forall (fun p => program_ok (reciprocal_cache_ c) p /\ size_ p <= 512) progs ->
  rounds_at no_e24_pad item_templates (reciprocal_cache_ c) code pos progs e ->
  between x rl rv x0 ->
  ofoldl (item_round c (cache_line_count c)) (rl, rv) (seqZ (Z.of_nat (length pre)) (Z.of_nat (length progs))) = Done (rl', rv') ->
  exists x', reaches code (mkMachine pos x s m) (mkMachine e x' s m) /\ between x' rl' rv' x0.
Proof.
  induction progs as [|prog progs IH]; intros pre pos e x rl rv x0 rl' rv' Hp Hok Hr Hb Hrun.
  { inversion Hr; subst. cbn in Hrun. injection Hrun as <- <-. exists x. split; [by exists 0%nat|done]. }
  inversion Hr as [|? ? ? instrs ? Hra Hre Hrest]; subst. apply Forall_cons_iff in Hok as [[Hpo H512] Hok].
  cbn [length] in Hrun. rewrite seqZ_cons in Hrun by lia. cbn [ofoldl] in Hrun. apply bind_Done in Hrun as ([rl1 rv1] & E1 & Hrun).
  assert (Hat : programs_ c !! length pre = Some prog) by (rewrite Hp; by apply list_lookup_middle).
  destruct (round_runs prog instrs pos x rl rv x0 (Z.of_nat (length pre)) rl1 rv1) as (x1 & R1 & B1); try done.
  - apply at_index_Done. rewrite Nat2Z.id. split; [lia|done].
  - destruct Hc as [_ Hready]. by apply (Forall_lookup_1 _ _ _ _ Hready Hat).
  - destruct Hpo as [? _]. lia.
  - destruct (IH (pre ++ [prog]) (round_end no_e24_pad item_templates (reciprocal_cache_ c) instrs pos) e x1 rl1 rv1 x0 rl' rv') as (x2 & R2 & B2); try done.
    + by rewrite <- app_assoc.
    + rewrite length_app. cbn [length]. rewrite <- Hrun. f_equal. f_equal; lia.
    + exists x2. split; [by eapply reaches_chain|done].
Qed.
End item.

(** ** The function *)

(** A call: the cache, the place for the item and its number in x0 to x2, 112 bytes of stack from [a], apart
    from the cache and from the item. *)
Record call (c : Argon2dCache) (base out item a : Z) (x : list Z) (m : memory) : Prop := mkCall {
  cl_machine : machine x;
  cl_args : x !! 0%nat = Some base /\ x !! 1%nat = Some out /\ x !! 2%nat = Some item;
  cl_base : base mod 8 = 0 /\ 0 <= base /\ base + 2 ^ 28 <= 2 ^ 64;
  cl_cache : cache_at c base m;
  cl_out : out mod 8 = 0 /\ 0 <= out /\ out + 64 < 2 ^ 64 /\ mapped m out 8;
  cl_stack : a mod 8 = 0 /\ 0 <= a /\ a + 112 < 2 ^ 64 /\ mapped m a 14;
  cl_apart : (base + 2 ^ 28 <= a \/ a + 112 <= base) /\ (out + 64 <= a \/ a + 112 <= out);
}.

Lemma function_runs c no_e24_pad code e base out item a x m :
  cache_ready c -> memory_blocks_ c = 262144 ->
  Forall (fun p => program_ok (reciprocal_cache_ c) p /\ size_ p <= 512) (programs_ c) ->
  function_at no_e24_pad item_templates (reciprocal_cache_ c) (programs_ c) code e ->
  call c base out item a x m ->
  exists rl m', generate_dataset_item c item = Done (store_registers rl) /\ file_wf rl /\
    reaches code (mkMachine CodeSize x (a + 112) m) (mkMachine (xget x 30) x (a + 112) m') /\
    contains m' out rl /\
    forall b, (b < out \/ out + 64 <= b) -> (b < a \/ a + 112 <= b) -> m' b = m b.
Proof.
  intros Hc Hblocks Hok [F1 F2 F3] [Hm (A0 & A1 & A2) Hbase Hcache (O1 & O2 & O3 & O4) (S1 & S2 & S3 & S4) [P1 P2]].
  destruct decodes_parts as (D1 & _ & _ & D4). change (t_prologue item_templates)
    with (asm_bytes prologue_asm ++ concat (le_bytes 8 <$> superscalar_constants)) in F1, F2.
  apply holds_app in F1 as [F1 F1'].
  destruct (prologue_runs code x a m) as (x1 & m1 & E1 & Hm1 & T1 & X8 & X9 & X10 & Xf & Hsaved & Hch); [exact F1'|done|lia|lia|done|done|].
  rewrite A0 in X8. rewrite A1 in X9. rewrite A2 in X10. rewrite (xget_lookup x 2 item) in T1 by (done || lia).
  assert (Hcache1 : cache_at c base m1).
  { intros i line q Hi Hq El. rewrite Hch by lia. by apply (Hcache i line q). }
  (* the item in the model *)
  assert (Hlen : length (programs_ c) = 8%nat) by (destruct Hc as [[_ _ [? _]] _]; done).
  destruct (ofoldl_ok (fun st => file_wf st.1) (item_round c (cache_line_count c)) cache_accesses
    (dataset_seed_registers item, item)) as ([rl rv] & Er & Hfl & Hfw).
  { intros [r v] i Hi Hf. destruct (item_round_ok c Hc r v i Hf Hi) as (r' & v' & E & H). eauto. }
  { apply seed_registers_wf. }
  destruct (rounds_run c Hc Hblocks no_e24_pad code base m1 a Hbase Hcache1 (programs_ c) []
    (CodeSize + 176) e x1 (dataset_seed_registers item) item x1 rl rv) as (x2 & R2 & [Hm2 T2 _ _ Y9 Yf]); try done.
  { by rewrite Hlen. }
  assert (Ho : xget x2 9 = out) by (apply xget_lookup; [lia|]; change (Z.to_nat 9) with 9%nat; by rewrite Y9).
  destruct (store_runs code e x2 a m1) with (saved := take 14 x) as (m2 & E3 & Hout & Hch2); rewrite ?Ho; try done.
  { intros q Hq. rewrite Hch; [by apply O4|]. change (Z.of_nat 8) with 8 in *. lia. }
  { rewrite length_take. destruct Hm as [-> _]. done. }
  exists rl, m2. split.
  { unfold generate_dataset_item. destruct (line_count_eq c Hc) as [_ Hpos]. destruct (Z.eqb_spec (cache_line_count c) 0); [lia|].
    rewrite Er. done. }
  split; [by split|]. split; [|split].
  - eapply reaches_chain; [by apply (reaches_asm code prologue_asm); [|exact F1|exact E1]|].
    eapply reaches_chain; [exact R2|]. apply (reaches_asm code store_asm); [exact D4|exact F3|]. rewrite E3. f_equal. f_equal.
    + unfold xget. cbn [Z.eqb Pos.eqb]. rewrite !list_lookup_total_alt. by rewrite Yf, Xf by (cbn; lia).
    + apply list_eq. intros k. destruct (Nat.lt_ge_cases k 14).
      * rewrite lookup_app_l by (rewrite length_take; destruct Hm as [-> _]; lia). by rewrite lookup_take_lt.
      * rewrite lookup_app_r by (rewrite length_take; destruct Hm as [-> _]; lia).
        rewrite lookup_drop, length_take. destruct Hm as [-> _]. rewrite Yf, Xf by lia. f_equal. lia.
  - rewrite Ho in Hout. by rewrite T2 in Hout.
  - intros b H1 H2. rewrite Ho in Hch2. rewrite Hch2 by done. by apply Hch.
Qed.

(** The programs of an initialised cache are such programs. *)
Lemma initialized_programs permute rejections key c c' :
  cache_wf c -> Bytes key -> initialize permute rejections key c = Done c' ->
  Forall (fun p => program_ok (reciprocal_cache_ c') p /\ size_ p <= 512) (programs_ c').
Proof.
  intros [_ _ [Hpl Hpf]] Hkey E. unfold initialize in E.
  apply bind_Done in E as (h0 & _ & E). apply bind_Done in E as (b1 & _ & E). apply bind_Done in E as (b2 & _ & E).
  apply bind_Done in E as ([ps rc] & Ep & E). injection E as <-. cbn [programs_ reciprocal_cache_].
  by apply (prepared_programs_ok rejections (programs_ c) key).
Qed.

(** C14: the dataset item function the JIT generates is correct machine code: [generateSuperscalarHash] never
    reaches its abort, stays inside the buffer and leaves the part below CodeSize alone; then, on any A64
    machine whose memory holds the cache, a call with the cache, an output address and an item number returns to its caller with
    every register and the stack pointer as before, the eight words of the item that [generate_dataset_item]
    derives at the output address, and no other memory changed but the 112 bytes below the stack pointer. *)
Theorem jit_dataset_item c no_e24_pad code :
  cache_ready c -> memory_blocks_ c = 262144 ->
  Forall (fun p => program_ok (reciprocal_cache_ c) p /\ size_ p <= 512) (programs_ c) ->
  Z.of_nat (length code) = CodeSize + CalcDatasetItemSize ->
  exists code' codePos,
    generateSuperscalarHash no_e24_pad item_templates (programs_ c) (reciprocal_cache_ c) code = Done (code', codePos) /\
    CodeSize <= codePos <= CodeSize + CalcDatasetItemSize /\
    length code' = length code /\ take (Z.to_nat CodeSize) code' = take (Z.to_nat CodeSize) code /\
    forall base out item a x m, call c base out item a x m ->
      exists rl m', generate_dataset_item c item = Done (store_registers rl) /\ length rl = 8%nat /\
        reaches code' (mkMachine CodeSize x (a + 112) m) (mkMachine (xget x 30) x (a + 112) m') /\
        contains m' out rl /\
        forall b, (b < out \/ out + 64 <= b) -> (b < a \/ a + 112 <= b) -> m' b = m b.
Proof.
  intros Hc Hb Hok Hlen. assert (Hn : length (programs_ c) = kRandomXCacheAccesses) by (destruct Hc as [[_ _ [? _]] _]; done).
  destruct (generate_ok no_e24_pad item_templates (reciprocal_cache_ c) (programs_ c) code item_templates_contract Hn Hok Hlen)
    as (code' & e & E & B1 & B2 & W & Hf).
  exists code', (e + 52). split; [exact E|]. split; [lia|]. split; [apply W|]. split; [by eapply wrote_before|]. intros base out item a x m Hcall.
  destruct (function_runs c no_e24_pad code' e base out item a x m Hc Hb Hok Hf Hcall) as (rl & m' & H1 & [H2 _] & H3). by exists rl, m'.
Qed.

(** A full-size cache with equal words and empty programs, and a memory with it at 2^30. *)
Definition flat_cache (n : Z) : Argon2dCache :=
  mkCache 1 n (replicate (Z.to_nat n) (replicate 128 5)) (replicate 8 empty_program) [].
Definition flat_memory : memory := fun b =>
  if (2 ^ 30 <=? b) && (b <? 2 ^ 30 + 2 ^ 28) then Some 5 else if (0 <=? b) && (b <? 2 ^ 30) then Some 0 else None.

Lemma flat_cache_ready n : 8 <= n <= 2 ^ 32 -> n mod 4 = 0 -> cache_ready (flat_cache n).
Proof.
  intros Hn H4. split; [constructor|]; cbn [memory_blocks_ blocks_ programs_ reciprocal_cache_ flat_cache].
  - by split.
  - split; [by rewrite length_replicate, Z2Nat.id by lia|]. apply Forall_replicate. split; [apply length_replicate|].
    apply Forall_replicate. split; [lia|done].
  - split; [done|]. apply Forall_replicate, length_replicate.
  - apply Forall_replicate. split; [done|]. split; [apply length_replicate|]. intros r _. by exists r.
Qed.

Lemma flat_lines n i line q : (q < 8)%nat -> load_cache_line (flat_cache n) i = Done line -> line_word line q = 5.
Proof.
  intros Hq E. unfold load_cache_line in E. destruct (_ =? 0); [done|]. set (j := _ mod cache_line_count (flat_cache n)) in E.
  apply bind_Done in E as (b & Eb & E). unfold block_at in Eb. apply at_index_Done in Eb as [_ Eb].
  cbn [blocks_ flat_cache] in Eb. apply lookup_replicate in Eb as [-> _].
  change lines_per_block with 16 in E. change kRandomXDatasetItemBytes with 64 in E.
  pose proof (Z.mod_pos_bound j 16 ltac:(lia)) as Hj. set (k := j mod 16) in *. clearbody k.
  assert (H : forallb (fun k => match read_bytes (block_bytes (replicate 128 5)) (Z.of_nat k * 64) 64 with
    | Done line => forallb (fun q => line_word line q =? 5) (seq 0 8) | _ => false end) (seq 0 16) = true) by (vm_compute; reflexivity).
  rewrite forallb_forall in H. specialize (H (Z.to_nat k)). rewrite Z2Nat.id in H by lia. rewrite E in H.
  assert (Hk : In (Z.to_nat k) (seq 0 16)) by (apply in_seq; lia). specialize (H Hk). rewrite forallb_forall in H.
  apply Z.eqb_eq, H, in_seq. lia.
Qed.

Lemma jit_dataset_item_witness : exists code' codePos,
  generateSuperscalarHash false item_templates (programs_ (flat_cache 262144)) []
    (replicate (Z.to_nat (CodeSize + CalcDatasetItemSize)) 0) = Done (code', codePos) /\
  exists rl m', generate_dataset_item (flat_cache 262144) 7 = Done (store_registers rl) /\
    reaches code' (mkMachine CodeSize (2 ^ 30 :: 2 ^ 29 :: 7 :: replicate 28 9) (2 ^ 28 + 112) flat_memory)
      (mkMachine 9 (2 ^ 30 :: 2 ^ 29 :: 7 :: replicate 28 9) (2 ^ 28 + 112) m') /\ contains m' (2 ^ 29) rl.
Proof.
  destruct (jit_dataset_item (flat_cache 262144) false (replicate (Z.to_nat (CodeSize + CalcDatasetItemSize)) 0)
    (flat_cache_ready 262144 ltac:(lia) eq_refl) eq_refl) as (code' & codePos & E & _ & _ & _ & H).
  - apply Forall_replicate. split; [|done]. split; [by split|]. apply List.Forall_nil.
  - rewrite length_replicate, Z2Nat.id by (vm_compute; discriminate). reflexivity.
  - exists code', codePos. split; [exact E|].
    destruct (H (2 ^ 30) (2 ^ 29) 7 (2 ^ 28) (2 ^ 30 :: 2 ^ 29 :: 7 :: replicate 28 9) flat_memory) as (rl & m' & H1 & _ & H2 & H3 & _).
    + constructor.
      * split; [reflexivity|]. repeat (apply List.Forall_cons; [by split|]). apply List.Forall_nil.
      * split; [reflexivity|split; reflexivity].
      * split; [reflexivity|]. split; lia.
      * intros i line q Hi Hq El. rewrite (flat_lines _ i line q Hq El). unfold flat_memory.
        destruct (_ && _) eqn:Eb; [done|]. exfalso. apply andb_false_iff in Eb as [Eb|Eb]; [apply Z.leb_gt in Eb|apply Z.ltb_ge in Eb]; lia.
      * split; [reflexivity|]. split; [lia|]. split; [lia|]. intros q Hq. exists 0. do 8 (destruct q as [|q]; [reflexivity|]). lia.
      * split; [reflexivity|]. split; [lia|]. split; [lia|]. intros q Hq. exists 0. do 14 (destruct q as [|q]; [reflexivity|]). lia.
      * split; [right; lia|right; lia].
    + exists rl, m'. exact (conj H1 (conj H2 H3)).
Defined.
