(* ===== verification/A64Vec.v ===== *)
(** * A64 machine code with vector registers and the scratchpad

    The rest of the A64 instruction set (Arm Architecture Reference Manual) that the JIT emits for the
    program of the virtual machine: logical immediates, flags and conditional branches, loads and stores in
    the scratchpad, the vector registers and the floating-point control register.  The encodings are the
    architecture's; those of src/src/jit_compiler_a64.cpp are proved to decode to what their comments say. *)

From S2P Require Import Prelude RandomX Float Bytecode A64.

#[export] Instance FloatRegister_inhabited : Inhabited FloatRegister := populate (mkFloat 0 0).

(** [n] of a load or store is a general register (not the stack pointer); vector operations are on two
    64-bit lanes. *)
Inductive a64v : Type :=
  | RORV (d n m : Z)
  | AND_mask (d n mask : Z)
  | TST_mask (n mask : Z)
  | B_ne (off : Z)
  | LDR_x (t n m lsl : Z)
  | STR_x (t n m : Z)
  | LDR_d (t n m : Z)
  | SMOV (d n lane : Z)
  | UMOV (d n lane : Z)
  | BFI (d n lsb width : Z)
  | RBIT (d n : Z)
  | MSR_fpcr (n : Z)
  | SXTL (d n : Z)
  | SCVTF (d n : Z)
  | FADD (d n m : Z)
  | FSUB (d n m : Z)
  | FMUL (d n m : Z)
  | FDIV (d n m : Z)
  | FSQRT (d n : Z)
  | EOR_v (d n m : Z)
  | BIF (d n m : Z)
  | EXT (d n m : Z).

(** A 64-bit logical immediate ([N] = 1): [imms + 1] ones rotated right by [immr]. *)
Definition bit_mask (immr imms : Z) : Z := rotr64 (Z.ones (imms + 1)) immr.

(** By the fields [op] (31 to 21), [m] (20 to 16), [low] (15 to 10), [n] (9 to 5) and [d] (4 to 0). *)
Definition decode_fields (op m low n d : Z) : option a64v :=
  let immr := 32 * (op mod 2) + m in
  let based i := if n =? 31 then None else Some i in
  if op =? 0x4D6 then if low =? 0x0B then Some (RORV d n m) else None
  else if op / 2 =? 0x249 then if (low <? 63) && negb (d =? 31) then Some (AND_mask d n (bit_mask immr low)) else None
  else if op / 2 =? 0x3C9 then if (low <? 63) && (d =? 31) then Some (TST_mask n (bit_mask immr low)) else None
  else if op =? 0x7C3 then
    if low =? 0x1A then based (LDR_x d n m 0) else if low =? 0x1E then based (LDR_x d n m 3) else None
  else if op =? 0x7C1 then if low =? 0x1A then based (STR_x d n m) else None
  else if op =? 0x7E3 then if low =? 0x1A then based (LDR_d d n m) else None
  else if op =? 0x270 then if (low =? 0x0B) && (m mod 8 =? 4) then Some (SMOV d n (m / 8)) else None
  else if op =? 0x070 then if (low =? 0x0F) && (m mod 8 =? 4) then Some (UMOV d n (m / 8)) else None
  else if op / 2 =? 0x2CD then if low <? immr then Some (BFI d n (64 - immr) (low + 1)) else None
  else if op =? 0x6D6 then if (m =? 0) && (low =? 0) then Some (RBIT d n) else None
  else if op =? 0x6A8 then if (m =? 0x1B) && (low =? 0x11) && (n =? 0) then Some (MSR_fpcr d) else None
  else if op =? 0x079 then if (m =? 0) && (low =? 0x29) then Some (SXTL d n) else None
  else if op =? 0x273 then
    if low =? 0x35 then Some (FADD d n m) else if (low =? 0x36) && (m =? 1) then Some (SCVTF d n) else None
  else if op =? 0x277 then if low =? 0x35 then Some (FSUB d n m) else None
  else if op =? 0x373 then
    if low =? 0x37 then Some (FMUL d n m) else if low =? 0x3F then Some (FDIV d n m) else None
  else if op =? 0x377 then
    if low =? 0x07 then Some (BIF d n m) else if (low =? 0x3E) && (m =? 1) then Some (FSQRT d n) else None
  else if op =? 0x371 then if low =? 0x07 then Some (EOR_v d n m) else None
  else if op =? 0x370 then if low =? 0x10 then Some (EXT d n m) else None
  else None.

Definition decode_vec (w : Z) : option a64v :=
  if (bits w 24 8 =? 0x54) && (bits w 0 5 =? 1) then Some (B_ne (4 * to_signed 19 (bits w 5 19)))
  else decode_fields (bits w 21 11) (bits w 16 5) (bits w 10 6) (bits w 5 5) (bits w 0 5).

(** ** Execution *)

(** Program counter, general and vector registers, FPCR, the zero flag, and the memory from [base] on. *)
Record vec_state : Type := mkVec {
  vpc : Z;
  vx : list Z;
  vv : list FloatRegister;
  fpcr : Z;
  zf : bool;
  vmem : list Z;
}.

Definition vget (vs : list FloatRegister) (n : Z) : FloatRegister := vs !!! Z.to_nat n.
Definition vset (vs : list FloatRegister) (n : Z) (v : FloatRegister) : list FloatRegister := <[Z.to_nat n := v]> vs.

(** The lane [s[i]] of a vector register. *)
Definition lane32 (v : FloatRegister) (i : Z) : Z := bits (if i <? 2 then lo v else hi v) (32 * (i mod 2)) 32.

Definition rbit64 (x : Z) : Z := foldl (fun acc i => 2 * acc + Z.b2z (Z.testbit x i)) 0 (seqZ 0 64).

(** The RMode field; a value with another control bit set is not in the table. *)
Definition fpcr_rounding (v : Z) : outcome rounding :=
  if v =? 0 then Done ToNearest
  else if v =? 0x400000 then Done Upward
  else if v =? 0x800000 then Done Downward
  else if v =? 0xC00000 then Done TowardZero
  else UB.

Definition scvtf (mode : rounding) (x : Z) : Z :=
  let v := to_signed 64 x in round_pack mode (v <? 0) (Z.abs v) 0 false.

Definition lanes1 (op : Z -> Z) (x : FloatRegister) : FloatRegister := mkFloat (op (lo x)) (op (hi x)).
Definition lanes2 (op : Z -> Z -> Z) (x y : FloatRegister) : FloatRegister := mkFloat (op (lo x) (lo y)) (op (hi x) (hi y)).

Definition exec_vec (base : Z) (i : a64v) (st : vec_state) : outcome vec_state :=
  let x := xget (vx st) in
  let v := vget (vv st) in
  let setx d y := Done (mkVec (vpc st + 4) (xset (vx st) d y) (vv st) (fpcr st) (zf st) (vmem st)) in
  let setv d y := Done (mkVec (vpc st + 4) (vx st) (vset (vv st) d y) (fpcr st) (zf st) (vmem st)) in
  let addr n m sh := wrap 64 (x n + shl64 (x m) sh) - base in
  match i with
  | RORV d n m => setx d (rotr64 (x n) (x m mod 64))
  | AND_mask d n mask => setx d (Z.land (x n) mask)
  | TST_mask n mask =>
      Done (mkVec (vpc st + 4) (vx st) (vv st) (fpcr st) (Z.land (x n) mask =? 0) (vmem st))
  | B_ne off => Done (mkVec (vpc st + (if zf st then 4 else off)) (vx st) (vv st) (fpcr st) (zf st) (vmem st))
  | LDR_x t n m sh => y ← read_le (vmem st) (addr n m sh) 8; setx t y
  | STR_x t n m =>
      mem ← write_bytes (vmem st) (addr n m 0) (le_bytes 8 (x t));
      Done (mkVec (vpc st + 4) (vx st) (vv st) (fpcr st) (zf st) mem)
  | LDR_d t n m => y ← read_le (vmem st) (addr n m 0) 8; setv t (mkFloat y 0)
  | SMOV d n i => setx d (sext32 (lane32 (v n) i))
  | UMOV d n i => setx d (lane32 (v n) i)
  | BFI d n lsb width =>
      setx d (Z.lor (Z.land (x d) (not64 (shl64 (Z.ones width) lsb))) (shl64 (Z.land (x n) (Z.ones width)) lsb))
  | RBIT d n => setx d (rbit64 (x n))
  | MSR_fpcr n => Done (mkVec (vpc st + 4) (vx st) (vv st) (x n) (zf st) (vmem st))
  | SXTL d n => setv d (mkFloat (sext32 (bits (lo (v n)) 0 32)) (sext32 (bits (lo (v n)) 32 32)))
  | SCVTF d n => mode ← fpcr_rounding (fpcr st); setv d (lanes1 (scvtf mode) (v n))
  | FADD d n m => mode ← fpcr_rounding (fpcr st); setv d (lanes2 (fadd mode) (v n) (v m))
  | FSUB d n m => mode ← fpcr_rounding (fpcr st); setv d (lanes2 (fsub mode) (v n) (v m))
  | FMUL d n m => mode ← fpcr_rounding (fpcr st); setv d (lanes2 (fmul mode) (v n) (v m))
  | FDIV d n m => mode ← fpcr_rounding (fpcr st); setv d (lanes2 (fdiv mode) (v n) (v m))
  | FSQRT d n => mode ← fpcr_rounding (fpcr st); setv d (lanes1 (fsqrt mode) (v n))
  | EOR_v d n m => setv d (lanes2 Z.lxor (v n) (v m))
  | BIF d n m =>
      setv d (mkFloat (Z.lor (Z.land (lo (v d)) (lo (v m))) (Z.land (lo (v n)) (not64 (lo (v m)))))
                      (Z.lor (Z.land (hi (v d)) (hi (v m))) (Z.land (hi (v n)) (not64 (hi (v m))))))
  | EXT d n m => setv d (mkFloat (hi (v n)) (lo (v m)))
  end.

(** Register instructions and these. *)
Definition decode_any (w : Z) : option (a64 + a64v) :=
  match decode w with
  | Some i => Some (inl i)
  | None => inr <$> decode_vec w
  end.

Definition vec_exec (code : list Z) (base : Z) (i : a64 + a64v) (st : vec_state) : outcome vec_state :=
  match i with
  | inl i => '(pc, xs) ← exec code i (vpc st) (vx st); Done (mkVec pc xs (vv st) (fpcr st) (zf st) (vmem st))
  | inr i => exec_vec base i st
  end.

Definition vec_step (code : list Z) (base : Z) (st : vec_state) : outcome vec_state :=
  w ← read_le code (vpc st) 4;
  match decode_any w with
  | Some i => vec_exec code base i st
  | None => UB
  end.

Fixpoint vec_run (n : nat) (code : list Z) (base : Z) (st : vec_state) : outcome vec_state :=
  match n with
  | O => Done st
  | S n => st ← vec_step code base st; vec_run n code base st
  end.

Lemma vec_run_app n1 n2 code base st :
  vec_run (n1 + n2) code base st = (st ← vec_run n1 code base st; vec_run n2 code base st).
Proof.
  revert st. induction n1 as [|n1 IH]; intros st; cbn [vec_run Nat.add]; [done|].
  destruct (vec_step code base st); cbn; auto.
Qed.

(** ** Decoding *)

Section fields.
Context (op m low n d : Z).
Context (Hop : 0 <= op < 2048) (Hm : 0 <= m < 32) (Hlow : 0 <= low < 64) (Hn : 0 <= n < 32) (Hd : 0 <= d < 32).
Abbreviation word := (op * 2097152 + m * 65536 + low * 1024 + n * 32 + d).

Lemma decode_vec_fields : op / 8 <> 0x54 -> decode_vec word = decode_fields op m low n d.
Proof.
  intros H. unfold decode_vec.
  assert (E : bits word 24 8 = op / 8) by (unfold bits; plia). rewrite E.
  destruct (Z.eqb_spec (op / 8) 0x54); [done|]. cbn [andb].
  assert (E1 : bits word 21 11 = op) by (unfold bits; plia). assert (E2 : bits word 16 5 = m) by (unfold bits; plia).
  assert (E3 : bits word 10 6 = low) by (unfold bits; plia). assert (E4 : bits word 5 5 = n) by (unfold bits; plia).
  assert (E5 : bits word 0 5 = d) by (unfold bits; plia). by rewrite E1, E2, E3, E4, E5.
Qed.

(** The words that [decode] does not know. *)
Definition other_op (op : Z) : bool :=
  let top := op / 8 in
  negb (existsb (Z.eqb top) [0x8B; 0xCB; 0xCA; 0xAA; 0x9B; 0x93; 0xD2; 0x91; 0x58]) && negb (op / 32 =? 5) &&
  negb (existsb (Z.eqb top) [0x92; 0xF2] && ((op / 4) mod 2 =? 1)).

Lemma decode_other : other_op op = true -> decode word = None.
Proof.
  unfold other_op, decode. cbv zeta. intros H.
  assert (E1 : bits word 24 8 = op / 8) by (unfold bits; plia). assert (E2 : bits word 26 6 = op / 32) by (unfold bits; plia).
  assert (E3 : bits word 23 1 = (op / 4) mod 2) by (unfold bits; plia). rewrite E1, E2, E3. clear E1 E2 E3.
  cbn [existsb] in H. rewrite !orb_false_r in H. apply andb_true_iff in H as [H H3]. apply andb_true_iff in H as [H1 H2].
  apply negb_true_iff in H1, H2, H3. repeat apply orb_false_iff in H1 as [H1 ?].
  repeat match goal with H : (_ || _)%bool = false |- _ => apply orb_false_iff in H as [??] end.
  repeat match goal with H : (op / 8 =? ?c) = false |- _ => rewrite H; clear H end.
  rewrite H2. clear H2. destruct (Z.eqb_spec (op / 8) 0x92) as [E|E].
  { cbn in H3. by rewrite H3. }
  destruct (Z.eqb_spec (op / 8) 0xF2) as [E'|E']; [|done]. cbn in H3. by rewrite H3.
Qed.

Lemma decode_any_fields i : other_op op && negb (op / 8 =? 0x54) = true -> decode_fields op m low n d = Some i ->
  decode_any word = Some (inr i).
Proof.
  intros [H1 H2%negb_true_iff%Z.eqb_neq]%andb_true_iff E. unfold decode_any. rewrite decode_other by done.
  by rewrite decode_vec_fields, E.
Qed.
Lemma word_range : 0 <= word < 2 ^ 32.
Proof. plia. Qed.
End fields.
