(* ===== verification/JitEmit.v ===== *)
(** * Machine code of the virtual machine's programs

    Models the emission of the program code in src/src/jit_compiler_a64.cpp: the immediates, the memory
    operands, the thirty handlers behind the 256-entry table, and the loop of [emitPrologueMix] that writes
    the 256 instructions into the code buffer, with the two literal pools and the branch targets. *)

From stdpp Require Import list.
From S2P Require Import Prelude RandomX Float Bytecode Footprint JitSchedule A64 JitDataset.

Local Infix ".|" := Z.lor (at level 50, left associativity) : Z_scope.
Local Infix "<<" := Z.shiftl (at level 45, left associativity) : Z_scope.
Local Infix ">>" := Z.shiftr (at level 45, left associativity) : Z_scope.

Module ARMV8A.
Include JitDataset.ARMV8A.
Definition EOR32 : Z := 0x4A000000.
Definition ADD_IMM_LO : Z := 0x91000000.
Definition ADD_IMM_HI : Z := 0x91400000.
Definition ROR : Z := 0x9AC02C00.
Definition FADD : Z := 0x4E60D400.
Definition FSUB : Z := 0x4EE0D400.
Definition FEOR : Z := 0x6E201C00.
Definition FMUL : Z := 0x6E60DC00.
Definition FDIV : Z := 0x6E60FC00.
Definition FSQRT : Z := 0x6EE1F800.
Definition AND_IMM_32 : Z := 0x121A0000.
Definition AND_IMM_SHIFT : Z := 0x927D0000.
Definition UBFX : Z := 0xD3400000.
Definition LDR_64_REG : Z := 0xF8606840.
Definition LDR_64_REG_LSL3 : Z := 0xF8607840.
Definition LDR_64_SCALAR : Z := 0xFC606800.
Definition LDR_32_REG : Z := 0xF8206840.
End ARMV8A.

(** ** The compiler's state *)

Definition PrologueSize : Z := 480.
Definition ImulRcpLiteralsEnd : Z := 49728.

Record jit : Type := mkJit {
  code : list Z;
  literalPos : Z;
  num32bitLiterals : Z;
  reg_changed_offset : list Z;
  flags : Z;
}.

(** The compiler and [codePos] (a handler's [k]). *)
Definition emission : Type := jit * Z.
Definition emitting : Type := emission -> outcome emission.

Definition with_code (c : list Z) (j : jit) : jit :=
  mkJit c (literalPos j) (num32bitLiterals j) (reg_changed_offset j) (flags j).

(** [emit32(val, code, k)]. *)
Definition emit (val : Z) : emitting := fun '(j, k) =>
  '(c, k) ← emit32 val (code j, k); Done (with_code c j, k).

(** [reg_changed_offset[d] = k]. *)
Definition reg_changed (d : Z) : emitting := fun '(j, k) =>
  Done (mkJit (code j) (literalPos j) (num32bitLiterals j) (<[Z.to_nat d := k]> (reg_changed_offset j)) (flags j), k).

Definition IntRegMap : list Z := [4; 5; 6; 7; 12; 13; 14; 15].
Definition int_reg (i : Z) : Z := IntRegMap !!! Z.to_nat i.

Definition L1 : Z := 16384.
Definition L2 : Z := 262144.
Definition L3 : Z := kRandomXScratchpadBytes.
Definition ScratchpadL3Log2 : Z := Z.log2 L3.

(** ** Immediates and memory operands *)

Definition emitMovImmediate (d imm : Z) : emitting := fun st =>
  if imm <? 1 << 16 then emit (ARMV8A.MOVZ .| d .| imm << 5) st
  else
    let n := num32bitLiterals st.1 in
    if n <? 64 then
      let smov_umov := if to_signed 32 imm <? 0 then 0x4E042C00 else 0x0E043C00 in
      '(j, k) ← emit (smov_umov .| d .| (n / 4) << 5 .| (n mod 4) << 19) st;
      c ← write_bytes (code j) (ImulRcpLiteralsEnd + 4 * n) (le_bytes 4 imm);
      Done (mkJit c (literalPos j) (n + 1) (reg_changed_offset j) (flags j), k)
    else
      st ← (if to_signed 32 imm <? 0
            then emit (ARMV8A.MOVN .| d .| 1 << 21 .| (not32 imm >> 16) << 5) st
            else emit (ARMV8A.MOVZ .| d .| 1 << 21 .| (imm >> 16) << 5) st);
      emit (ARMV8A.MOVK .| d .| (Z.land imm 0xFFFF) << 5) st.

(** The overload with a [tmp_reg], which defaults to 20. *)
Definition emitAddImmediate (d s imm tmp_reg : Z) : emitting := fun st =>
  if imm <? 1 << 24 then
    let imm_lo := Z.land imm (2 ^ 12 - 1) in
    let imm_hi := imm >> 12 in
    if negb (imm_lo =? 0) && negb (imm_hi =? 0) then
      st ← emit (ARMV8A.ADD_IMM_LO .| d .| s << 5 .| imm_lo << 10) st;
      emit (ARMV8A.ADD_IMM_HI .| d .| d << 5 .| imm_hi << 10) st
    else if negb (imm_lo =? 0) then emit (ARMV8A.ADD_IMM_LO .| d .| s << 5 .| imm_lo << 10) st
    else emit (ARMV8A.ADD_IMM_HI .| d .| s << 5 .| imm_hi << 10) st
  else
    st ← emitMovImmediate tmp_reg imm st;
    emit (ARMV8A.ADD .| d .| s << 5 .| tmp_reg << 16) st.

(** [and tmp_reg, rn, mask] for a level of [size] bytes. *)
Definition and_instr (tmp_reg rn size : Z) : Z :=
  ARMV8A.AND_IMM_SHIFT .| tmp_reg .| rn << 5 .| (Z.log2 size - 4) << 10.
Definition mem_size (instr : Instruction) : Z := if negb (getModMem instr =? 0) then L1 else L2.

Definition emitMemLoad (tmp_reg d s : Z) (instr : Instruction) : emitting := fun st =>
  let imm := getImm32 instr in
  if negb (s =? d) then
    let imm := Z.land imm (mem_size instr - 1) in
    st ← (if negb (imm =? 0) then
            st ← emitAddImmediate tmp_reg s imm 20 st;
            emit (and_instr tmp_reg tmp_reg (mem_size instr)) st
          else emit (and_instr tmp_reg s (mem_size instr)) st);
    emit (ARMV8A.LDR_64_REG .| tmp_reg .| tmp_reg << 16) st
  else
    let imm := Z.land imm kScratchpadL3Mask >> 3 in
    st ← emitMovImmediate tmp_reg imm st;
    emit (ARMV8A.LDR_64_REG_LSL3 .| tmp_reg .| tmp_reg << 16) st.

Definition emitMemLoadFP (tmp_reg_fp s : Z) (instr : Instruction) : emitting := fun st =>
  let tmp_reg := 19 in
  let imm := Z.land (getImm32 instr) (mem_size instr - 1) in
  st ← (if negb (imm =? 0) then emitAddImmediate tmp_reg s imm 20 st else Done st);
  st ← emit (and_instr tmp_reg tmp_reg (mem_size instr)) st;
  st ← emit (ARMV8A.LDR_64_SCALAR .| tmp_reg << 16 .| 2 << 5 .| tmp_reg_fp) st;
  st ← emit (0x0F20A400 .| tmp_reg_fp << 5 .| tmp_reg_fp) st;
  emit (0x4E61D800 .| tmp_reg_fp .| tmp_reg_fp << 5) st.

(** ** Handlers *)

Definition emitter_fn : Type := Instruction -> emitting.

(** [op d, d, s] on integer registers. *)
Definition op3 (op d n s : Z) : Z := op .| d .| n << 5 .| s << 16.

Definition h_IADD_RS : emitter_fn := fun instr st =>
  let s := int_reg (src instr) in
  let d := int_reg (dst instr) in
  st ← emit (ARMV8A.ADD .| d .| d << 5 .| getModShift instr << 10 .| s << 16) st;
  st ← (if dst instr =? 5 then emitAddImmediate d d (getImm32 instr) 20 st else Done st);
  reg_changed (dst instr) st.

(** The six handlers that combine the destination with a scratchpad word. *)
Definition mem_handler (op : Z) : emitter_fn := fun instr st =>
  let s := int_reg (src instr) in
  let d := int_reg (dst instr) in
  let tmp_reg := 20 in
  st ← emitMemLoad tmp_reg d s instr st;
  st ← emit (op3 op d d tmp_reg) st;
  reg_changed (dst instr) st.

Definition h_IADD_M : emitter_fn := mem_handler ARMV8A.ADD.
Definition h_ISUB_M : emitter_fn := mem_handler ARMV8A.SUB.
Definition h_IMUL_M : emitter_fn := mem_handler ARMV8A.MUL.
Definition h_IMULH_M : emitter_fn := mem_handler ARMV8A.UMULH.
Definition h_ISMULH_M : emitter_fn := mem_handler ARMV8A.SMULH.
Definition h_IXOR_M : emitter_fn := mem_handler ARMV8A.EOR.

Definition h_ISUB_R : emitter_fn := fun instr st =>
  let s := int_reg (src instr) in
  let d := int_reg (dst instr) in
  st ← (if negb (s =? d) then emit (op3 ARMV8A.SUB d d s) st
        else if getImm32 instr =? 0x80000000 then
          st ← emit (ARMV8A.MOVZ .| 20 .| 1 << 21 .| 0x8000 << 5) st;
          emit (op3 ARMV8A.ADD d d 20) st
        else emitAddImmediate d d (wrap 32 (- getImm32 instr)) 20 st);
  reg_changed (dst instr) st.

(** IMUL_R and IXOR_R. *)
Definition reg_handler (op : Z) : emitter_fn := fun instr st =>
  let s := int_reg (src instr) in
  let d := int_reg (dst instr) in
  st ← (if s =? d then
          st ← emitMovImmediate 20 (getImm32 instr) st;
          emit (op3 op d d 20) st
        else emit (op3 op d d s) st);
  reg_changed (dst instr) st.

Definition h_IMUL_R : emitter_fn := reg_handler ARMV8A.MUL.
Definition h_IXOR_R : emitter_fn := reg_handler ARMV8A.EOR.

(** IMULH_R and ISMULH_R. *)
Definition mulh_handler (op : Z) : emitter_fn := fun instr st =>
  let s := int_reg (src instr) in
  let d := int_reg (dst instr) in
  st ← emit (op3 op d d s) st;
  reg_changed (dst instr) st.

Definition h_IMULH_R : emitter_fn := mulh_handler ARMV8A.UMULH.
Definition h_ISMULH_R : emitter_fn := mulh_handler ARMV8A.SMULH.

Definition literal_regs : list Z := [30; 29; 28; 27; 26; 25; 24; 23; 22; 21; 11; 0].

Definition h_IMUL_RCP : emitter_fn := fun instr '(j, k) =>
  let divisor := getImm32 instr in
  if Z.land divisor (wrap 32 (divisor - 1)) =? 0 then Done (j, k)
  else
    let d := int_reg (dst instr) in
    let literal_id := (ImulRcpLiteralsEnd - literalPos j) / 8 in
    let lp := literalPos j - 8 in
    reciprocal ← randomx_reciprocal divisor;
    c ← write_bytes (code j) lp (le_bytes 8 reciprocal);
    let j := mkJit c lp (num32bitLiterals j) (reg_changed_offset j) (flags j) in
    st ← (if literal_id <? 12 then emit (op3 ARMV8A.MUL d d (literal_regs !!! Z.to_nat literal_id)) (j, k)
          else
            st ← emit (ARMV8A.LDR_LITERAL .| 20 .| literal_offset lp k << 5) (j, k);
            emit (op3 ARMV8A.MUL d d 20) st);
    reg_changed (dst instr) st.

Definition h_INEG_R : emitter_fn := fun instr st =>
  let d := int_reg (dst instr) in
  st ← emit (op3 ARMV8A.SUB d 31 d) st;
  reg_changed (dst instr) st.

Definition ror_imm (d s amount : Z) : Z := ARMV8A.ROR_IMM .| d .| s << 5 .| amount << 10 .| s << 16.

Definition h_IROR_R : emitter_fn := fun instr st =>
  let s := int_reg (src instr) in
  let d := int_reg (dst instr) in
  st ← (if negb (s =? d) then emit (op3 ARMV8A.ROR d d s) st
        else emit (ror_imm d d (Z.land (getImm32 instr) 63)) st);
  reg_changed (dst instr) st.

Definition h_IROL_R : emitter_fn := fun instr st =>
  let s := int_reg (src instr) in
  let d := int_reg (dst instr) in
  st ← (if negb (s =? d) then
          st ← emit (op3 ARMV8A.SUB 20 31 s) st;
          emit (op3 ARMV8A.ROR d d 20) st
        else emit (ror_imm d d (Z.land (wrap 32 (- getImm32 instr)) 63)) st);
  reg_changed (dst instr) st.

Definition h_ISWAP_R : emitter_fn := fun instr st =>
  let s := int_reg (src instr) in
  let d := int_reg (dst instr) in
  if s =? d then Done st
  else
    st ← emit (ARMV8A.MOV_REG .| 20 .| d << 16) st;
    st ← emit (ARMV8A.MOV_REG .| d .| s << 16) st;
    st ← emit (ARMV8A.MOV_REG .| s .| 20 << 16) st;
    st ← reg_changed (src instr) st;
    reg_changed (dst instr) st.

Definition h_FSWAP_R : emitter_fn := fun instr =>
  let d := dst instr + 16 in emit (0x6E004000 .| d .| d << 5 .| d << 16).

(** [op vd, vd, va]: FADD_R and FSUB_R on the F registers, FMUL_R on the E registers. *)
Definition float_handler (op first : Z) : emitter_fn := fun instr =>
  let s := src instr mod 4 + 24 in
  let d := dst instr mod 4 + first in emit (op3 op d d s).

Definition h_FADD_R : emitter_fn := float_handler ARMV8A.FADD 16.
Definition h_FSUB_R : emitter_fn := float_handler ARMV8A.FSUB 16.
Definition h_FMUL_R : emitter_fn := float_handler ARMV8A.FMUL 20.

Definition fmem_handler (op : Z) : emitter_fn := fun instr st =>
  let s := int_reg (src instr) in
  let d := dst instr mod 4 + 16 in
  st ← emitMemLoadFP 28 s instr st;
  emit (op3 op d d 28) st.

Definition h_FADD_M : emitter_fn := fmem_handler ARMV8A.FADD.
Definition h_FSUB_M : emitter_fn := fmem_handler ARMV8A.FSUB.

Definition h_FSCAL_R : emitter_fn := fun instr =>
  let d := dst instr mod 4 + 16 in emit (op3 ARMV8A.FEOR d d 31).

Definition h_FDIV_M : emitter_fn := fun instr st =>
  let s := int_reg (src instr) in
  let d := dst instr mod 4 + 20 in
  st ← emitMemLoadFP 28 s instr st;
  st ← emit (op3 0x6EE01C00 28 30 29) st;
  emit (op3 ARMV8A.FDIV d d 28) st.

Definition h_FSQRT_R : emitter_fn := fun instr =>
  let d := dst instr mod 4 + 20 in emit (ARMV8A.FSQRT .| d .| d << 5).

(** [branch_off] is the arithmetic shift of an [int32_t]. *)
Definition h_CBRANCH : emitter_fn := fun instr st =>
  let d := int_reg (dst instr) in
  let modCond := getModCond instr in
  let shift := modCond + 8 in
  let imm := Z.land (getImm32 instr .| wrap 32 (1 << shift)) (not32 (wrap 32 (1 << (shift - 1)))) in
  st ← emitAddImmediate d d imm 20 st;
  st ← emit ((0xF2781C1F - modCond << 16) .| d << 5) st;
  '(j, k) ← emit (0x54000000 .| 2 << 5 .| 1) st;
  let offset := reg_changed_offset j !!! Z.to_nat (dst instr) in
  '(j, k) ← emit (0x14000000 .| Z.land ((offset - k) >> 2) 0x03FFFFFF) (j, k);
  Done (mkJit (code j) (literalPos j) (num32bitLiterals j) (replicate 8 k) (flags j), k).

Definition RANDOMX_FLAG_V2 : Z := 128.

Definition h_CFROUND : emitter_fn := fun instr st =>
  let s := int_reg (src instr) in
  st ← emit (ror_imm 20 s (Z.land (getImm32 instr) 63)) st;
  st ← (if negb (Z.land (flags st.1) RANDOMX_FLAG_V2 =? 0) then
          st ← emit 0xF27E0E9F st;
          emit 0x54000081 st
        else Done st);
  st ← emit (0xB3580400 .| 8 .| 20 << 5) st;
  st ← emit (0xDAC00000 .| 20 .| 8 << 5) st;
  emit (0xD51B4400 .| 20) st.

Definition h_ISTORE : emitter_fn := fun instr st =>
  let s := int_reg (src instr) in
  let d := int_reg (dst instr) in
  let size := if getModCond instr <? 14 then mem_size instr else L3 in
  let imm := Z.land (getImm32 instr) (size - 1) in
  st ← emitAddImmediate 20 d imm 20 st;
  st ← emit (and_instr 20 20 size) st;
  emit (ARMV8A.LDR_32_REG .| s .| 20 << 16) st.

Definition h_NOP : emitter_fn := fun _ st => Done st.

(** The handler of every opcode, each repeated [RANDOMX_FREQ_*] times. *)
Definition engine_weights : list (emitter_fn * nat) :=
  [(h_IADD_RS, 16); (h_IADD_M, 7); (h_ISUB_R, 16); (h_ISUB_M, 7); (h_IMUL_R, 16); (h_IMUL_M, 4);
   (h_IMULH_R, 4); (h_IMULH_M, 1); (h_ISMULH_R, 4); (h_ISMULH_M, 1); (h_IMUL_RCP, 8);
   (h_INEG_R, 2); (h_IXOR_R, 15); (h_IXOR_M, 5); (h_IROR_R, 8); (h_IROL_R, 2); (h_ISWAP_R, 4);
   (h_FSWAP_R, 4); (h_FADD_R, 16); (h_FADD_M, 5); (h_FSUB_R, 16); (h_FSUB_M, 5); (h_FSCAL_R, 6);
   (h_FMUL_R, 32); (h_FDIV_M, 4); (h_FSQRT_R, 6); (h_CBRANCH, 25); (h_CFROUND, 1); (h_ISTORE, 16);
   (h_NOP, 0)]%nat.
Definition engine : list emitter_fn := concat ((fun '(h, n) => replicate n h) <$> engine_weights).

(** One turn of the loop over [emit_order]. *)
Definition emit_vm_instruction (st : emission) (instr : Instruction) : outcome emission :=
  h ← at_index engine (opcode instr);
  h instr st.

Definition emitPrologueMix (use_dag : bool) (swaps : Z) (program : list Instruction) (j : jit) : outcome emission :=
  let codePos := PrologueSize in
  emitted ← emitted_program use_dag swaps program;
  ofoldl emit_vm_instruction (mkJit (code j) ImulRcpLiteralsEnd 0 (replicate 8 codePos) (flags j), codePos) emitted.
