(* ===== verification/JitLayout.v ===== *)
(** * The layout of the virtual machine's code

    Where the emission of src/src/jit_compiler_a64.cpp writes: an instruction takes at most 32 bytes of code
    and 8 bytes of the 64-bit literal pool that grows down towards it, so the 256 instructions fit between
    the prologue and the pools, and what one handler has written no later one changes. *)

From stdpp Require Import list.
From S2P Require Import Prelude RandomX Float Bytecode BytecodeSafety BytecodeTermination Footprint JitSchedule JitEquiv JitSim A64 JitDataset JitEmit.

(** ** Space *)

(** The code buffer: at least the pools, the last at [ImulRcpLiteralsEnd]. *)
Definition BufferSize : Z := ImulRcpLiteralsEnd + 256.

(** [b] more bytes of code fit below the 64-bit literals. *)
Record room (b : Z) (st : emission) : Prop := mkRoom {
  rm_code : 0 <= st.2 /\ st.2 + b <= literalPos st.1;
  rm_lits : literalPos st.1 <= ImulRcpLiteralsEnd /\ 0 <= num32bitLiterals st.1 <= 64;
  rm_size : BufferSize <= Z.of_nat (length (code st.1)) /\ length (reg_changed_offset st.1) = 8%nat;
}.

(** At most [b] bytes of code and [l] bytes of 64-bit literals were written, and nothing else but 32-bit
    literals. *)
Record spent (b l : Z) (st st' : emission) : Prop := mkSpent {
  sp_code : st.2 <= st'.2 <= st.2 + b;
  sp_lits : literalPos st.1 - l <= literalPos st'.1 <= literalPos st.1;
  sp_pool : num32bitLiterals st.1 <= num32bitLiterals st'.1 <= 64;
  sp_size : length (code st'.1) = length (code st.1) /\ length (reg_changed_offset st'.1) = 8%nat;
  sp_flags : flags st'.1 = flags st.1;
  sp_frame : forall i : nat, Z.of_nat i < st.2 \/ st'.2 <= Z.of_nat i < literalPos st'.1 \/
    literalPos st.1 <= Z.of_nat i < ImulRcpLiteralsEnd + 4 * num32bitLiterals st.1 \/ BufferSize <= Z.of_nat i ->
    code st'.1 !! i = code st.1 !! i;
}.

Definition grows (b l : Z) (f : emitting) : Prop := forall st, room (b + l) st -> returns (spent b l st) (f st).

Lemma spent_room b l b' st st' : room (b + l + b') st -> spent b l st st' -> room b' st'.
Proof.
  intros [H1 H2 H3] [S1 S2 S3 [S4 S4'] _ _]. constructor; [lia|lia|]. split; [|done]. rewrite S4. lia.
Qed.

Lemma spent_trans b1 l1 b2 l2 s1 s2 s3 : room (b1 + l1 + (b2 + l2)) s1 -> 0 <= l1 -> 0 <= l2 ->
  spent b1 l1 s1 s2 -> spent b2 l2 s2 s3 -> spent (b1 + b2) (l1 + l2) s1 s3.
Proof.
  intros Hr Hl1 Hl2 [P1 P2 P3 [P4 P4'] P5 P6] [Q1 Q2 Q3 [Q4 Q4'] Q5 Q6]. destruct Hr as [R1 R2 R3].
  constructor; [lia|lia|lia|by rewrite Q4, P4|congruence|]. intros i Hi. rewrite Q6, P6; [done| |]; lia.
Qed.

Lemma spent_mono b l b' l' st st' : b <= b' -> l <= l' -> spent b l st st' -> spent b' l' st st'.
Proof. intros Hb Hl [? ? ? ? ? ?]. constructor; try done; lia. Qed.

Lemma grows_mono b l b' l' f : b <= b' -> l <= l' -> grows b l f -> grows b' l' f.
Proof.
  intros Hb Hl Hf st [R1 R2 R3]. eapply returns_weaken; [apply Hf; constructor; [lia|done|done]|].
  intros st'. by apply spent_mono.
Qed.

Lemma grows_bind b1 l1 b2 l2 f g : 0 <= b2 -> 0 <= l1 -> 0 <= l2 -> grows b1 l1 f -> grows b2 l2 g ->
  grows (b1 + b2) (l1 + l2) (fun st => st ← f st; g st).
Proof.
  intros Hb2 Hl1 Hl2 Hf Hg st Hr. assert (Hr' : room (b1 + l1 + (b2 + l2)) st).
  { destruct Hr as [R1 R2 R3]. constructor; [lia|done|done]. }
  eapply returns_bind; [apply Hf; destruct Hr as [R1 R2 R3]; constructor; [lia|done|done]|].
  intros st1 S1. eapply returns_weaken; [apply Hg; by eapply spent_room|]. intros st2 S2. by eapply spent_trans.
Qed.

Lemma grows_done b l : 0 <= b -> 0 <= l -> grows b l Done.
Proof. intros Hb Hl st [R1 R2 [R3 R4]]. cbn. constructor; [lia|lia|lia|done|done|done]. Qed.

(** [if] outside and inside the emission. *)
Lemma grows_if b l (c : bool) f g : grows b l f -> grows b l g -> grows b l (fun st => if c then f st else g st).
Proof. by destruct c. Qed.

Lemma grows_emit w : grows 4 0 (emit w).
Proof.
  intros [j k] [R1 R2 [R3 R4]]. cbn [fst snd] in *. unfold emit, emit32. unfold BufferSize, ImulRcpLiteralsEnd in *.
  destruct (write_bytes (code j) k (le_bytes 4 w)) as [c| | |] eqn:E;
    try (rewrite write_bytes_ok in E by (rewrite ?length_le_bytes; lia); discriminate E).
  cbn [mbind outcome_bind returns]. constructor; cbn [fst snd with_code code literalPos num32bitLiterals reg_changed_offset flags];
    [lia|lia|lia|split; [by eapply write_bytes_length|done]|done|].
  unfold BufferSize, ImulRcpLiteralsEnd in *. intros i Hi. eapply write_bytes_lookup; [done|]. rewrite length_le_bytes. lia.
Qed.

Lemma grows_changed d : grows 0 0 (reg_changed d).
Proof.
  intros [j k] [R1 R2 [R3 R4]]. cbn [fst snd] in *. cbn. constructor; cbn; [lia|lia|lia|split; [done|by rewrite length_insert]|done|done].
Qed.

(** *** Handlers *)

Ltac grows_step :=
  lazymatch goal with
  | |- grows _ _ (emit _) => eapply (grows_mono 4 0); [| |apply grows_emit]; lia
  | |- grows _ _ (reg_changed _) => eapply (grows_mono 0 0); [| |apply grows_changed]; lia
  | |- grows _ _ Done => apply grows_done; lia
  end.

Lemma grows_mov d imm : grows 8 0 (emitMovImmediate d imm).
Proof.
  intros st Hr. unfold emitMovImmediate. cbv zeta. destruct (imm <? _).
  { eapply returns_weaken; [apply grows_emit; destruct Hr as [R1 R2 R3]; constructor; [lia|done|done]|].
    intros st'. apply spent_mono; lia. }
  destruct (Z.ltb_spec (num32bitLiterals st.1) 64).
  - assert (Hr4 : room (4 + 0) st) by (destruct Hr as [R1 R2 R3]; constructor; [lia|done|done]).
    eapply returns_bind; [by apply grows_emit|].
    intros [j k] [S1 S2 S3 [S4 S4'] S5 S6]. destruct Hr as [R1 R2 [R3 R4]]. cbn [fst snd] in *.
    unfold BufferSize, ImulRcpLiteralsEnd in *.
    destruct (write_bytes (code j) (49728 + 4 * num32bitLiterals st.1) (le_bytes 4 imm)) as [c| | |] eqn:E;
      try (rewrite write_bytes_ok in E by (rewrite ?length_le_bytes, ?S4; lia); discriminate E).
    cbn [mbind outcome_bind returns]. constructor; cbn [fst snd code literalPos num32bitLiterals reg_changed_offset flags];
      [lia|lia|lia|split; [by rewrite (write_bytes_length _ _ _ _ E)|done]|done|].
    unfold BufferSize, ImulRcpLiteralsEnd in *. intros i Hi. rewrite <- S6 by lia.
    eapply write_bytes_lookup; [done|]. rewrite length_le_bytes. lia.
  - revert st Hr H. intros st Hr _. revert st Hr. apply (grows_bind 4 0 4 0); [lia..| |apply grows_emit].
    apply grows_if; apply grows_emit.
Qed.

Lemma grows_add d s imm t : grows 12 0 (emitAddImmediate d s imm t).
Proof.
  unfold emitAddImmediate. apply grows_if; [apply grows_if; [|apply grows_if; grows_step]|].
  - apply (grows_bind 4 0 8 0); [lia..|apply grows_emit|grows_step].
  - apply (grows_bind 8 0 4 0); [lia..|apply grows_mov|apply grows_emit].
Qed.
(** An immediate below 2^24 takes two words. *)
Lemma grows_add_small d s imm t : imm < 2 ^ 24 -> grows 8 0 (emitAddImmediate d s imm t).
Proof.
  intros H. unfold emitAddImmediate. change (Z.shiftl 1 24) with (2 ^ 24). destruct (Z.ltb_spec imm (2 ^ 24)); [|lia].
  apply grows_if; [|apply grows_if; grows_step]. apply (grows_bind 4 0 4 0); [lia..|apply grows_emit|grows_step].
Qed.

Lemma mem_size_cases instr : mem_size instr = L1 \/ mem_size instr = L2.
Proof. unfold mem_size. destruct (negb _); auto. Qed.
Lemma land_level imm size : size = L1 \/ size = L2 \/ size = L3 -> 0 <= Z.land imm (size - 1) < size /\ size <= 2 ^ 21.
Proof.
  intros H. assert (E : exists k, 0 <= k <= 21 /\ size = 2 ^ k) by (destruct H as [->|[->| ->]]; [exists 14|exists 18|exists 21]; split; lia || reflexivity).
  destruct E as (k & Hk & ->). replace (2 ^ k - 1) with (Z.ones k) by (rewrite Z.ones_equiv; lia).
  rewrite Z.land_ones by lia. split; [apply Z.mod_pos_bound, pow2_pos; lia|]. apply Z.pow_le_mono_r; lia.
Qed.
Lemma land_mem_size imm instr : 0 <= Z.land imm (mem_size instr - 1) < 2 ^ 18.
Proof.
  destruct (land_level imm (mem_size instr)) as [H _]; [destruct (mem_size_cases instr); auto|].
  destruct (mem_size_cases instr) as [E|E]; rewrite E in *; unfold L1, L2 in *; lia.
Qed.

Lemma grows_load t d s instr : grows 16 0 (emitMemLoad t d s instr).
Proof.
  unfold emitMemLoad. apply grows_if.
  - apply (grows_bind 12 0 4 0); [lia..| |apply grows_emit]. apply grows_if; [|grows_step].
    apply (grows_bind 8 0 4 0); [lia..| |apply grows_emit]. apply grows_add_small.
    pose proof (land_mem_size (getImm32 instr) instr). lia.
  - apply (grows_bind 8 0 8 0); [lia..|apply grows_mov|grows_step].
Qed.

Lemma grows_load_fp t s instr : grows 24 0 (emitMemLoadFP t s instr).
Proof.
  unfold emitMemLoadFP. apply (grows_bind 8 0 16 0); [lia..| |].
  - apply grows_if; [|grows_step]. apply grows_add_small. pose proof (land_mem_size (getImm32 instr) instr). lia.
  - apply (grows_bind 4 0 12 0); [lia..|apply grows_emit|]. apply (grows_bind 4 0 8 0); [lia..|apply grows_emit|].
    apply (grows_bind 4 0 4 0); [lia..|apply grows_emit|apply grows_emit].
Qed.

(** Splits the steps of a handler, [b] bytes for the first. *)
Ltac then_grows b :=
  lazymatch goal with |- grows ?n _ _ =>
    let r := eval vm_compute in (n - b) in
    change (grows n 0) with (grows (b + r) (0 + 0)); apply (grows_bind b 0 r 0); [lia..| |] end.

Lemma grows_IADD_RS instr : grows 16 0 (h_IADD_RS instr).
Proof.
  unfold h_IADD_RS. then_grows 4; [apply grows_emit|]. then_grows 12; [|apply grows_changed].
  apply grows_if; [apply grows_add|grows_step].
Qed.
Lemma grows_mem_handler op instr : grows 20 0 (mem_handler op instr).
Proof.
  unfold mem_handler. then_grows 16; [apply grows_load|]. then_grows 4; [apply grows_emit|apply grows_changed].
Qed.
Lemma grows_ISUB_R instr : grows 12 0 (h_ISUB_R instr).
Proof.
  unfold h_ISUB_R. then_grows 12; [|apply grows_changed]. apply grows_if; [grows_step|]. apply grows_if; [|apply grows_add].
  then_grows 4; [apply grows_emit|grows_step].
Qed.
Lemma grows_reg_handler op instr : grows 12 0 (reg_handler op instr).
Proof.
  unfold reg_handler. then_grows 12; [|apply grows_changed]. apply grows_if; [|grows_step].
  then_grows 8; [apply grows_mov|apply grows_emit].
Qed.
Lemma grows_one w d : grows 4 0 (fun st => st ← emit w st; reg_changed d st).
Proof. then_grows 4; [apply grows_emit|apply grows_changed]. Qed.
Lemma grows_IROR_R instr : grows 4 0 (h_IROR_R instr).
Proof. unfold h_IROR_R. then_grows 4; [|apply grows_changed]. apply grows_if; apply grows_emit. Qed.
Lemma grows_IROL_R instr : grows 8 0 (h_IROL_R instr).
Proof.
  unfold h_IROL_R. then_grows 8; [|apply grows_changed]. apply grows_if; [|grows_step]. then_grows 4; apply grows_emit.
Qed.
Lemma grows_ISWAP_R instr : grows 12 0 (h_ISWAP_R instr).
Proof.
  unfold h_ISWAP_R. apply grows_if; [grows_step|]. then_grows 4; [apply grows_emit|]. then_grows 4; [apply grows_emit|].
  then_grows 4; [apply grows_emit|]. then_grows 0; apply grows_changed.
Qed.
Lemma grows_fmem_handler op instr : grows 28 0 (fmem_handler op instr).
Proof. unfold fmem_handler. then_grows 24; [apply grows_load_fp|apply grows_emit]. Qed.
Lemma grows_FDIV_M instr : grows 32 0 (h_FDIV_M instr).
Proof. unfold h_FDIV_M. then_grows 24; [apply grows_load_fp|]. then_grows 4; apply grows_emit. Qed.
Lemma grows_ISTORE instr : grows 16 0 (h_ISTORE instr).
Proof.
  unfold h_ISTORE. then_grows 8; [|then_grows 4; apply grows_emit]. apply grows_add_small.
  set (size := if getModCond instr <? 14 then mem_size instr else L3).
  destruct (land_level (getImm32 instr) size) as [H1 H2]; [|lia].
  subst size. destruct (getModCond instr <? 14); [|auto]. destruct (mem_size_cases instr); auto.
Qed.
Lemma grows_CFROUND instr : grows 24 0 (h_CFROUND instr).
Proof.
  unfold h_CFROUND. then_grows 4; [apply grows_emit|]. then_grows 8.
  - intros st. revert st. 
    assert (H : forall b : bool, grows 8 0 (fun st => if b then st ← emit 0xF27E0E9F st; emit 0x54000081 st else Done st)).
    { intros b. apply grows_if; [then_grows 4; apply grows_emit|grows_step]. }
    intros st. apply H.
  - then_grows 4; [apply grows_emit|]. then_grows 4; apply grows_emit.
Qed.

Lemma grows_CBRANCH instr : grows 24 0 (h_CBRANCH instr).
Proof.
  unfold h_CBRANCH. cbv zeta. then_grows 12; [apply grows_add|]. then_grows 4; [apply grows_emit|].
  set (w := Z.lor (Z.lor 0x54000000 _) 1).
  intros st Hr. assert (Hr4 : room (4 + 0 + 4) st) by (destruct Hr as [R1 R2 R3]; constructor; [lia|done|done]).
  eapply returns_bind; [apply (grows_emit w); destruct Hr as [R1 R2 R3]; constructor; [lia|done|done]|].
  intros [j k] S1. pose proof (spent_room _ _ _ _ _ Hr4 S1) as Hr1. set (w2 := Z.lor _ _).
  eapply returns_bind; [apply (grows_emit w2 _ Hr1)|]. intros [j2 k2] S2.
  assert (S : spent (4 + 4) (0 + 0) st (j2, k2)).
  { eapply spent_trans; [|lia|lia|exact S1|exact S2]. destruct Hr as [R1 R2 R3]. constructor; [lia|done|done]. }
  cbn [returns]. destruct S as [P1 P2 P3 [P4 _] P5 P6]. constructor; cbn in *; try done.
Qed.

Lemma grows_IMUL_RCP instr : grows 8 8 (h_IMUL_RCP instr).
Proof.
  intros [j k] Hr. unfold h_IMUL_RCP. cbv zeta. destruct (Z.land _ _ =? 0) eqn:E0.
  { apply (grows_mono 0 0 8 8 Done); [lia|lia| |done]. apply grows_done; lia. }
  unfold randomx_reciprocal. destruct (Z.eqb_spec (getImm32 instr) 0) as [E|_]; [by rewrite E in E0|]. cbv zeta.
  cbn [mbind outcome_bind]. set (rcp := add64 _ _). pose proof Hr as [R1 R2 [R3 R4]]. cbn [fst snd] in *.
  unfold BufferSize, ImulRcpLiteralsEnd in R2, R3.
  destruct (write_bytes (code j) (literalPos j - 8) (le_bytes 8 rcp)) as [c| | |] eqn:E;
    try (rewrite write_bytes_ok in E by (rewrite ?length_le_bytes; lia); discriminate E). cbn [mbind outcome_bind].
  set (j1 := mkJit c (literalPos j - 8) (num32bitLiterals j) (reg_changed_offset j) (flags j)).
  assert (S1 : spent 0 8 (j, k) (j1, k)).
  { constructor; cbn [fst snd j1 code literalPos num32bitLiterals reg_changed_offset flags]; [lia|lia|lia| |done|].
    - split; [by eapply write_bytes_length|done].
    - intros i Hi. eapply write_bytes_lookup; [done|]. rewrite length_le_bytes. unfold BufferSize, ImulRcpLiteralsEnd in *. lia. }
  assert (Hr1 : room (8 + 0) (j1, k)).
  { eapply spent_room; [|exact S1]. destruct Hr as [Q1 Q2 Q3]. constructor; [lia|done|done]. }
  set (ws := literal_offset _ _). set (id := _ / 8). clearbody ws id.
  assert (G : grows 8 0 (fun st => st ← (if id <? 12 then emit (op3 ARMV8A.MUL (int_reg (dst instr)) (int_reg (dst instr)) (literal_regs !!! Z.to_nat id)) st
    else st ← emit (Z.lor (Z.lor ARMV8A.LDR_LITERAL 20) (Z.shiftl ws 5)) st; emit (op3 ARMV8A.MUL (int_reg (dst instr)) (int_reg (dst instr)) 20) st);
    reg_changed (dst instr) st)).
  { then_grows 8; [|apply grows_changed]. apply grows_if; [grows_step|]. then_grows 4; apply grows_emit. }
  eapply returns_weaken; [apply (G (j1, k) Hr1)|]. intros st S2.
  eapply (spent_mono (0 + 8) (8 + 0)); [lia|lia|]. eapply spent_trans; [|lia|lia|exact S1|exact S2].
  destruct Hr as [Q1 Q2 Q3]. constructor; [lia|done|done].
Qed.

Lemma engine_grows : Forall (fun h => forall instr, grows 32 8 (h instr)) engine.
Proof.
  assert (W : forall b (h : emitter_fn), b <= 32 -> (forall instr, grows b 0 (h instr)) -> forall instr, grows 32 8 (h instr)).
  { intros b h Hb H instr. eapply (grows_mono b 0); [lia|lia|apply H]. }
  unfold engine. apply Forall_concat, Forall_fmap. unfold engine_weights.
  repeat (apply List.Forall_cons; [apply Forall_replicate|]); [..|apply List.Forall_nil].
  all: try (apply (W 20); [lia|apply grows_mem_handler]).
  all: try (apply (W 12); [lia|apply grows_reg_handler]).
  all: try (apply (W 4); [lia|intros instr; apply grows_one]).
  all: try (apply (W 4); [lia|intros instr; apply grows_emit]).
  all: try (apply (W 28); [lia|apply grows_fmem_handler]).
  - apply (W 16); [lia|apply grows_IADD_RS].
  - apply (W 12); [lia|apply grows_ISUB_R].
  - intros instr. eapply (grows_mono 8 8); [lia|lia|apply grows_IMUL_RCP].
  - apply (W 4); [lia|apply grows_IROR_R].
  - apply (W 8); [lia|apply grows_IROL_R].
  - apply (W 12); [lia|apply grows_ISWAP_R].
  - apply (W 32); [lia|apply grows_FDIV_M].
  - apply (W 24); [lia|apply grows_CBRANCH].
  - apply (W 24); [lia|apply grows_CFROUND].
  - apply (W 16); [lia|apply grows_ISTORE].
  - apply (W 0); [lia|intros instr; apply grows_done; lia].
Qed.

(** ** Programs *)

Lemma engine_at instr : instruction_wf instr -> exists h, at_index engine (opcode instr) = Done h /\ forall i, grows 32 8 (h i).
Proof. intros (H & _). apply (at_index_ok _ _ _ engine_grows). exact H. Qed.

Lemma emit_loop_grows instrs : Forall instruction_wf instrs -> let n := Z.of_nat (length instrs) in
  grows (32 * n) (8 * n) (fun st => ofoldl emit_vm_instruction st instrs).
Proof.
  induction 1 as [|i instrs Hi _ IH]; [apply grows_done; lia|]. cbn [length]. cbv zeta in *.
  apply (grows_mono (32 + 32 * Z.of_nat (length instrs)) (8 + 8 * Z.of_nat (length instrs))); [lia|lia|].
  apply (grows_bind 32 8); [lia..| |exact IH]. intros st Hr. unfold emit_vm_instruction.
  destruct (engine_at i Hi) as (h & E & Hh). rewrite E. cbn [mbind outcome_bind]. by apply Hh.
Qed.

(** Both schedulers give 256 normalized instructions. *)
Lemma emitted_program_wf use_dag swaps program :
  length program = 256%nat -> Forall instruction_wf program -> exists emitted,
    emitted_program use_dag swaps program = Done emitted /\ length emitted = 256%nat /\
    Forall instruction_wf emitted /\ Forall normal emitted /\ emitted ≡ₚ normalize <$> program.
Proof.
  intros Hl Hw. set (prog := normalize <$> program).
  assert (Hpl : length prog = 256%nat) by (unfold prog; by rewrite length_fmap).
  assert (Hpw : Forall instruction_wf prog) by (apply Forall_fmap; eapply list.Forall_impl; [exact Hw|]; intros x Hx; by apply normalize_wf).
  assert (Hpn : Forall normal prog) by (apply Forall_fmap; eapply list.Forall_impl; [exact Hw|]; intros x Hx; by apply normalize_wf).
  assert (H : exists order, order ≡ₚ seq 0 256 /\ emitted_program use_dag swaps program = Done (reorder order prog)).
  { unfold emitted_program. fold prog. destruct use_dag.
    - exists (seq 0 256). split; [done|]. assert (E : scheduleProgramDag swaps prog 256 = seq 0 256) by apply dag_order_identity.
      by rewrite E.
    - destruct (scheduleProgram_safe swaps prog 256) as (order & Eo & Hsafe). exists order.
      split; [apply (so_perm _ _ _ _ Hsafe)|]. by rewrite Eo. }
  destruct H as (order & Hp & E). destruct (emitted_wf order prog Hpl Hpw Hp) as (H1 & H2 & H3).
  exists (reorder order prog). split; [done|]. split; [done|]. split; [done|]. split; [by rewrite H3|done].
Qed.

Definition start (j : jit) : emission := (mkJit (code j) ImulRcpLiteralsEnd 0 (replicate 8 PrologueSize) (flags j), PrologueSize).

Lemma emitPrologueMix_spent use_dag swaps program j emitted :
  BufferSize <= Z.of_nat (length (code j)) -> emitted_program use_dag swaps program = Done emitted ->
  length emitted = 256%nat -> Forall instruction_wf emitted ->
  returns (spent 8192 2048 (start j)) (emitPrologueMix use_dag swaps program j).
Proof.
  intros Hb E Hl Hw. unfold emitPrologueMix. rewrite E. cbn [mbind outcome_bind].
  pose proof (emit_loop_grows emitted Hw (start j)) as H. rewrite Hl in H. apply H. constructor; cbn; [|lia|done].
  unfold PrologueSize, ImulRcpLiteralsEnd. lia.
Qed.

(** C12: whichever scheduler is used, the code of every program fits: 256 instructions take at most 8192
    bytes from the prologue on and at most 2048 bytes of 64-bit literals below [ImulRcpLiteralsEnd], with room
    left for the two closing words; the 32-bit literals stay in their pool, and every other byte of the
    buffer keeps its value. *)
Theorem program_code_fits use_dag swaps program j :
  length program = 256%nat -> Forall instruction_wf program -> BufferSize <= Z.of_nat (length (code j)) ->
  exists j' codePos, emitPrologueMix use_dag swaps program j = Done (j', codePos) /\
    PrologueSize <= codePos <= PrologueSize + 32 * 256 /\
    ImulRcpLiteralsEnd - 8 * 256 <= literalPos j' <= ImulRcpLiteralsEnd /\ codePos + 8 <= literalPos j' /\
    num32bitLiterals j' <= 64 /\ length (code j') = length (code j) /\
    forall i : nat, Z.of_nat i < PrologueSize \/ codePos <= Z.of_nat i < literalPos j' \/ BufferSize <= Z.of_nat i ->
      code j' !! i = code j !! i.
Proof.
  intros Hl Hw Hb. destruct (emitted_program_wf use_dag swaps program Hl Hw) as (emitted & E & El & Ew & _).
  pose proof (emitPrologueMix_spent _ _ _ _ _ Hb E El Ew) as H. apply returns_Done in H as ([j' k] & Ej & [S1 S2 S3 S4 _ S6]).
  cbn [start fst snd literalPos num32bitLiterals code] in *. exists j', k. split; [done|]. split; [lia|]. split; [lia|].
  split; [unfold PrologueSize, ImulRcpLiteralsEnd in *; lia|]. split; [lia|]. split; [apply S4|].
  intros i Hi. apply S6. tauto.
Qed.

(** 256 FDIV_M, the longest code. *)
Lemma program_code_fits_witness : exists j' codePos,
  emitPrologueMix false 0 (replicate 256 (mkInstruction 204 0 1 0 5000)) (mkJit (replicate (Z.to_nat 49984) 0) 0 0 [] 0) =
    Done (j', codePos) /\ PrologueSize <= codePos <= PrologueSize + 32 * 256 /\ codePos + 8 <= literalPos j'.
Proof.
  destruct (program_code_fits false 0 (replicate 256 (mkInstruction 204 0 1 0 5000)) (mkJit (replicate (Z.to_nat 49984) 0) 0 0 [] 0))
    as (j' & k & E & H1 & H2 & H3 & _).
  - reflexivity.
  - apply Forall_replicate. unfold instruction_wf, in_range. cbn. lia.
  - cbn [code]. rewrite length_replicate. unfold BufferSize, ImulRcpLiteralsEnd. lia.
  - exists j', k. exact (conj E (conj H1 H3)).
Defined.
