(* ===== verification/JitWords.v ===== *)
(** * The words of the virtual machine's code

    Every word the handlers of src/src/jit_compiler_a64.cpp assemble with [|] and [<<], and the A64
    instruction the architecture decodes it to. *)

From stdpp Require Import list.
From S2P Require Import Prelude RandomX Float Bytecode A64 JitDataset A64Vec JitEmit JitLayout.

Local Infix ".|" := Z.lor (at level 50, left associativity) : Z_scope.
Local Infix "<<" := Z.shiftl (at level 45, left associativity) : Z_scope.
Local Infix ">>" := Z.shiftr (at level 45, left associativity) : Z_scope.

Definition encodes (w : Z) (i : a64 + a64v) : Prop := 0 <= w < 2 ^ 32 /\ decode_any w = Some i.

Lemma encodes_a64 w i : 0 <= w < 2 ^ 32 -> decode w = Some i -> encodes w (inl i).
Proof. intros Hw Hd. split; [done|]. unfold decode_any. by rewrite Hd. Qed.

Lemma encodes_fields op m low n d w i :
  0 <= op < 2048 -> 0 <= m < 32 -> 0 <= low < 64 -> 0 <= n < 32 -> 0 <= d < 32 ->
  w = op * 2097152 + m * 65536 + low * 1024 + n * 32 + d ->
  other_op op && negb (op / 8 =? 0x54) = true -> decode_fields op m low n d = Some i -> encodes w (inr i).
Proof.
  intros Hop Hm Hlow Hn Hd -> Ho Hi. split; [by apply word_range|]. by apply decode_any_fields.
Qed.

Lemma op3_word op d n m : 0 <= d < 32 -> 0 <= n < 32 -> 0 <= m < 32 -> op mod 2 ^ 10 = 0 -> op mod 2 ^ 21 < 2 ^ 16 ->
  op3 op d n m = op + d + n * 32 + m * 65536.
Proof. intros. unfold op3. by apply word3. Qed.

Section integer.
Context (d n m : Z) (Hd : 0 <= d < 32) (Hn : 0 <= n < 32) (Hm : 0 <= m < 32).

Lemma encodes_add : encodes (op3 ARMV8A.ADD d n m) (inl (ADD_shifted d n m 0)).
Proof.
  rewrite op3_word by (reflexivity || done). apply encodes_a64; [unfold ARMV8A.ADD; lia|].
  rewrite <- (decode_ADD d n m 0) by lia. f_equal. unfold ARMV8A.ADD. lia.
Qed.
Lemma encodes_sub : encodes (op3 ARMV8A.SUB d n m) (inl (SUB_shifted d n m 0)).
Proof.
  rewrite op3_word by (reflexivity || done). apply encodes_a64; [unfold ARMV8A.SUB; lia|].
  rewrite <- (decode_SUB d n m 0) by lia. f_equal. unfold ARMV8A.SUB. lia.
Qed.
Lemma encodes_eor : encodes (op3 ARMV8A.EOR d n m) (inl (EOR_shifted d n m 0)).
Proof.
  rewrite op3_word by (reflexivity || done). apply encodes_a64; [unfold ARMV8A.EOR; lia|].
  rewrite <- (decode_EOR d n m 0) by lia. f_equal. unfold ARMV8A.EOR. lia.
Qed.
Lemma encodes_mul : encodes (op3 ARMV8A.MUL d n m) (inl (MADD d n m 31)).
Proof. rewrite op3_word by (reflexivity || done). apply encodes_a64; [unfold ARMV8A.MUL; lia|by apply decode_MUL]. Qed.
Lemma encodes_umulh : encodes (op3 ARMV8A.UMULH d n m) (inl (A64.UMULH d n m)).
Proof. rewrite op3_word by (reflexivity || done). apply encodes_a64; [unfold ARMV8A.UMULH; lia|by apply decode_UMULH]. Qed.
Lemma encodes_smulh : encodes (op3 ARMV8A.SMULH d n m) (inl (A64.SMULH d n m)).
Proof. rewrite op3_word by (reflexivity || done). apply encodes_a64; [unfold ARMV8A.SMULH; lia|by apply decode_SMULH]. Qed.
Lemma encodes_ror : encodes (op3 ARMV8A.ROR d n m) (inr (RORV d n m)).
Proof.
  rewrite op3_word by (reflexivity || done). unfold ARMV8A.ROR.
  by apply (encodes_fields 0x4D6 m 0x0B n d); try done; lia.
Qed.
Lemma encodes_add_shift k : 0 <= k < 64 -> encodes (ARMV8A.ADD .| d .| n << 5 .| k << 10 .| m << 16) (inl (ADD_shifted d n m k)).
Proof.
  intros Hk. rewrite word4 by (reflexivity || done). apply encodes_a64; [unfold ARMV8A.ADD; lia|by apply decode_ADD].
Qed.
Lemma encodes_mov : encodes (ARMV8A.MOV_REG .| d .| m << 16) (inl (ORR_shifted d 31 m 0)).
Proof.
  clear n Hn. unfold ARMV8A.MOV_REG.
  assert (E : (0xAA0003E0 .| d .| m << 16) = 0xAA000000 + d + 31 * 32 + 0 * 1024 + m * 65536).
  { rewrite (lor_low 0xAA0003E0 d) by plia. rewrite (lor_field _ m 16 5) by plia. plia. }
  rewrite E. apply encodes_a64; [lia|]. apply decode_ORR; lia.
Qed.
End integer.

Lemma encodes_ror_imm d s k : 0 <= d < 32 -> 0 <= s < 32 -> 0 <= k < 64 -> encodes (ror_imm d s k) (inl (EXTR d s s k)).
Proof.
  intros Hd Hs Hk. unfold ror_imm. rewrite word4 by (reflexivity || done).
  apply encodes_a64; [unfold ARMV8A.ROR_IMM; lia|by apply decode_EXTR].
Qed.

Section immediates.
Context (d : Z) (Hd : 0 <= d < 31).

Lemma encodes_movz imm : 0 <= imm < 65536 -> encodes (ARMV8A.MOVZ .| d .| imm << 5) (inl (A64.MOVZ d imm 0)).
Proof.
  intros Hi. destruct (wide_word ARMV8A.MOVZ d 0 imm) as [_ ->]; [reflexivity|lia|lia|lia|].
  apply encodes_a64; [unfold ARMV8A.MOVZ; lia|]. apply (decode_MOVZ d 0); lia.
Qed.
Lemma encodes_movz_hi imm : 0 <= imm < 65536 -> encodes (ARMV8A.MOVZ .| d .| 1 << 21 .| imm << 5) (inl (A64.MOVZ d imm 16)).
Proof.
  intros Hi. destruct (wide_word ARMV8A.MOVZ d 1 imm) as [-> _]; [reflexivity|lia|lia|lia|].
  apply encodes_a64; [unfold ARMV8A.MOVZ; lia|]. apply (decode_MOVZ d 1); lia.
Qed.
Lemma encodes_movn_hi imm : 0 <= imm < 65536 -> encodes (ARMV8A.MOVN .| d .| 1 << 21 .| imm << 5) (inl (A64.MOVN d imm 16)).
Proof.
  intros Hi. destruct (wide_word ARMV8A.MOVN d 1 imm) as [-> _]; [reflexivity|lia|lia|lia|].
  apply encodes_a64; [unfold ARMV8A.MOVN; lia|]. apply (decode_MOVN d 1); lia.
Qed.
Lemma encodes_movk imm : 0 <= imm < 65536 -> encodes (ARMV8A.MOVK .| d .| imm << 5) (inl (A64.MOVK d imm 0)).
Proof.
  intros Hi. destruct (wide_word ARMV8A.MOVK d 0 imm) as [_ ->]; [reflexivity|lia|lia|lia|].
  apply encodes_a64; [unfold ARMV8A.MOVK; lia|]. apply (decode_MOVK d 0); lia.
Qed.

Lemma add_imm_word op n imm : op mod 2 ^ 22 = 0 -> 0 <= n < 31 -> 0 <= imm < 4096 ->
  (op .| d .| n << 5 .| imm << 10) = op + d + n * 32 + imm * 1024.
Proof.
  intros Ho Hn Hi. rewrite (lor_low op d) by plia. rewrite (lor_field _ n 5 5) by plia.
  rewrite (lor_field _ imm 10 12) by plia. plia.
Qed.
Lemma encodes_add_lo n imm : 0 <= n < 31 -> 0 <= imm < 4096 ->
  encodes (ARMV8A.ADD_IMM_LO .| d .| n << 5 .| imm << 10) (inl (ADD_imm d n imm)).
Proof.
  intros Hn Hi. rewrite add_imm_word by (reflexivity || lia).
  apply encodes_a64; [unfold ARMV8A.ADD_IMM_LO; lia|by apply decode_ADD_lo].
Qed.
Lemma encodes_add_hi n imm : 0 <= n < 31 -> 0 <= imm < 4096 ->
  encodes (ARMV8A.ADD_IMM_HI .| d .| n << 5 .| imm << 10) (inl (ADD_imm d n (imm * 4096))).
Proof.
  intros Hn Hi. rewrite add_imm_word by (reflexivity || lia).
  apply encodes_a64; [unfold ARMV8A.ADD_IMM_HI; lia|by apply decode_ADD_hi].
Qed.
Lemma encodes_ldr_literal off : 0 <= off < 2 ^ 19 ->
  encodes (ARMV8A.LDR_LITERAL .| d .| off << 5) (inl (LDR_literal d (4 * to_signed 19 off))).
Proof.
  intros Ho. unfold ARMV8A.LDR_LITERAL. rewrite (lor_low 0x58000000 d) by plia. rewrite (lor_field _ off 5 19) by plia.
  change (2 ^ 5) with 32. apply encodes_a64; [plia|by apply decode_LDR].
Qed.

(** [smov d, vN.s[M]] and [umov d, vN.s[M]] of the literal [n]. *)
Lemma lane_word op n : op mod 2 ^ 10 = 0 -> op mod 2 ^ 21 < 2 ^ 19 -> 0 <= n < 64 ->
  (op .| d .| (n / 4) << 5 .| (n mod 4) << 19) = op + d + (n / 4) * 32 + (n mod 4) * 524288.
Proof.
  intros Ho1 Ho2 Hn. rewrite (lor_low op d) by plia. rewrite (lor_field _ (n / 4) 5 5) by plia.
  rewrite (lor_field _ (n mod 4) 19 2) by plia. plia.
Qed.
Lemma encodes_smov n : 0 <= n < 64 ->
  encodes (0x4E042C00 .| d .| (n / 4) << 5 .| (n mod 4) << 19) (inr (SMOV d (n / 4) (n mod 4))).
Proof.
  intros Hn. rewrite lane_word by (reflexivity || done). assert (H1 : 0 <= n / 4 < 32) by plia. assert (H2 : 0 <= n mod 4 < 4) by plia.
  set (q := n / 4) in *. set (r := n mod 4) in *. clearbody q r.
  apply (encodes_fields 0x270 (4 + r * 8) 0x0B q d); try done; try lia.
  assert (E1 : (4 + r * 8) mod 8 = 4) by plia. assert (E2 : (4 + r * 8) / 8 = r) by plia.
  unfold decode_fields. cbn -[Z.div Z.modulo Z.mul Z.add]. rewrite E1, E2. done.
Qed.
Lemma encodes_umov n : 0 <= n < 64 ->
  encodes (0x0E043C00 .| d .| (n / 4) << 5 .| (n mod 4) << 19) (inr (UMOV d (n / 4) (n mod 4))).
Proof.
  intros Hn. rewrite lane_word by (reflexivity || done). assert (H1 : 0 <= n / 4 < 32) by plia. assert (H2 : 0 <= n mod 4 < 4) by plia.
  set (q := n / 4) in *. set (r := n mod 4) in *. clearbody q r.
  apply (encodes_fields 0x070 (4 + r * 8) 0x0F q d); try done; try lia.
  assert (E1 : (4 + r * 8) mod 8 = 4) by plia. assert (E2 : (4 + r * 8) / 8 = r) by plia.
  unfold decode_fields. cbn -[Z.div Z.modulo Z.mul Z.add]. rewrite E1, E2. done.
Qed.
End immediates.

(** ** Memory operands *)

Definition level (size : Z) : Prop := size = L1 \/ size = L2 \/ size = L3.
Lemma mem_size_level instr : level (mem_size instr).
Proof. unfold level. destruct (mem_size_cases instr); auto. Qed.

Lemma and_instr_word t n k : 0 <= t < 32 -> 0 <= n < 32 -> 0 <= k < 64 ->
  (ARMV8A.AND_IMM_SHIFT .| t .| n << 5 .| k << 10) = 0x927D0000 + t + n * 32 + k * 1024.
Proof.
  intros Ht Hn Hk. unfold ARMV8A.AND_IMM_SHIFT. rewrite (lor_low _ t) by plia. rewrite (lor_field _ n 5 5) by plia.
  rewrite (lor_field _ k 10 6) by plia. plia.
Qed.
Lemma encodes_and t n size : 0 <= t < 31 -> 0 <= n < 32 -> level size ->
  encodes (and_instr t n size) (inr (AND_mask t n (size - 8))).
Proof.
  intros Ht Hn Hs. unfold and_instr.
  assert (E : exists k, 0 <= k < 63 /\ Z.log2 size - 4 = k /\ bit_mask 61 k = size - 8).
  { destruct Hs as [->|[->| ->]]; [exists 10|exists 14|exists 17]; (split; [lia|]); split; reflexivity. }
  destruct E as (k & Hk & -> & Em). rewrite and_instr_word by lia. rewrite <- Em.
  apply (encodes_fields 0x493 29 k n t); try done; try lia. unfold decode_fields.
  cbn -[Z.ltb Z.eqb bit_mask]. cbn [Z.eqb Pos.eqb]. destruct (Z.ltb_spec k 63); [|lia]. destruct (Z.eqb_spec t 31); [lia|]. done.
Qed.

Lemma mem_word op t m : op mod 2 ^ 5 = 0 -> op mod 2 ^ 21 < 2 ^ 16 -> 0 <= t < 32 -> 0 <= m < 32 ->
  (op .| t .| m << 16) = op + t + m * 65536.
Proof. intros Ho1 Ho2 Ht Hm. rewrite (lor_low op t) by plia. rewrite (lor_field _ m 16 5) by plia. plia. Qed.

Section memory.
Context (t m : Z) (Ht : 0 <= t < 32) (Hm : 0 <= m < 32).

Lemma encodes_ldr : encodes (ARMV8A.LDR_64_REG .| t .| m << 16) (inr (LDR_x t 2 m 0)).
Proof. rewrite mem_word by (reflexivity || done). by apply (encodes_fields 0x7C3 m 0x1A 2 t); try done; unfold ARMV8A.LDR_64_REG; lia. Qed.
Lemma encodes_ldr_lsl3 : encodes (ARMV8A.LDR_64_REG_LSL3 .| t .| m << 16) (inr (LDR_x t 2 m 3)).
Proof. rewrite mem_word by (reflexivity || done). by apply (encodes_fields 0x7C3 m 0x1E 2 t); try done; unfold ARMV8A.LDR_64_REG_LSL3; lia. Qed.
(** The constant the source calls [LDR_32_REG] is a 64-bit store. *)
Lemma encodes_str : encodes (ARMV8A.LDR_32_REG .| t .| m << 16) (inr (STR_x t 2 m)).
Proof. rewrite mem_word by (reflexivity || done). by apply (encodes_fields 0x7C1 m 0x1A 2 t); try done; unfold ARMV8A.LDR_32_REG; lia. Qed.
End memory.

(** ** Vector operations *)

Section vector.
Context (d n m : Z) (Hd : 0 <= d < 32) (Hn : 0 <= n < 32) (Hm : 0 <= m < 32).

Lemma encodes_fadd : encodes (op3 ARMV8A.FADD d n m) (inr (A64Vec.FADD d n m)).
Proof. rewrite op3_word by (reflexivity || done). by apply (encodes_fields 0x273 m 0x35 n d); try done; unfold ARMV8A.FADD; lia. Qed.
Lemma encodes_fsub : encodes (op3 ARMV8A.FSUB d n m) (inr (A64Vec.FSUB d n m)).
Proof. rewrite op3_word by (reflexivity || done). by apply (encodes_fields 0x277 m 0x35 n d); try done; unfold ARMV8A.FSUB; lia. Qed.
Lemma encodes_fmul : encodes (op3 ARMV8A.FMUL d n m) (inr (A64Vec.FMUL d n m)).
Proof. rewrite op3_word by (reflexivity || done). by apply (encodes_fields 0x373 m 0x37 n d); try done; unfold ARMV8A.FMUL; lia. Qed.
Lemma encodes_fdiv : encodes (op3 ARMV8A.FDIV d n m) (inr (A64Vec.FDIV d n m)).
Proof. rewrite op3_word by (reflexivity || done). by apply (encodes_fields 0x373 m 0x3F n d); try done; unfold ARMV8A.FDIV; lia. Qed.
Lemma encodes_feor : encodes (op3 ARMV8A.FEOR d n m) (inr (EOR_v d n m)).
Proof. rewrite op3_word by (reflexivity || done). by apply (encodes_fields 0x371 m 0x07 n d); try done; unfold ARMV8A.FEOR; lia. Qed.
Lemma encodes_bif : encodes (op3 0x6EE01C00 d n m) (inr (BIF d n m)).
Proof. rewrite op3_word by (reflexivity || done). by apply (encodes_fields 0x377 m 0x07 n d); try done; lia. Qed.
Lemma encodes_ext : encodes (0x6E004000 .| d .| n << 5 .| m << 16) (inr (EXT d n m)).
Proof. rewrite word3 by (reflexivity || done). by apply (encodes_fields 0x370 m 0x10 n d); try done; lia. Qed.

Lemma unary_word op : op mod 2 ^ 10 = 0 -> (op .| d .| n << 5) = op + d + n * 32.
Proof. clear m Hm. intros Ho. rewrite (lor_low op d) by plia. rewrite (lor_field _ n 5 5) by plia. plia. Qed.
Lemma encodes_fsqrt : encodes (ARMV8A.FSQRT .| d .| n << 5) (inr (A64Vec.FSQRT d n)).
Proof. clear m Hm. rewrite unary_word by reflexivity. by apply (encodes_fields 0x377 1 0x3E n d); try done; unfold ARMV8A.FSQRT; lia. Qed.
End vector.

(** [tst xn, 0xFF << (modCond + 8)]. *)
Lemma encodes_tst c n : 0 <= c < 16 -> 0 <= n < 31 ->
  encodes ((0xF2781C1F - c << 16) .| n << 5) (inr (TST_mask n (255 * 2 ^ (c + 8)))).
Proof.
  intros Hc Hn. rewrite Z.shiftl_mul_pow2 by lia.
  assert (E : (0xF2781C1F - c * 2 ^ 16 .| n << 5) = 0x793 * 2097152 + (24 - c) * 65536 + 7 * 1024 + n * 32 + 31).
  { replace (0xF2781C1F - c * 2 ^ 16) with ((0xF278 - c) * 65536 + 7168 + 31) by lia.
    assert (H31 : forall a, a mod 1024 = 0 -> Z.lor (a + 31) (Z.shiftl n 5) = a + 31 + n * 32).
    { intros a Ha. rewrite (lor_field _ n 5 5); [lia|lia|lia|lia|]. change (2 ^ (5 + 5)) with 1024. plia. }
    rewrite H31; [plia|]. plia. }
  rewrite E. assert (Em : bit_mask (32 * (0x793 mod 2) + (24 - c)) 7 = 255 * 2 ^ (c + 8)).
  { assert (Hall : forallb (fun c => bit_mask (32 * (0x793 mod 2) + (24 - c)) 7 =? 255 * 2 ^ (c + 8)) (seqZ 0 16) = true) by reflexivity.
    rewrite forallb_forall in Hall. apply Z.eqb_eq, Hall. apply list_elem_of_In, elem_of_seqZ. lia. }
  rewrite <- Em. apply (encodes_fields 0x793 (24 - c) 7 n 31); try done; lia.
Qed.

Lemma encodes_bne : encodes (0x54000000 .| 2 << 5 .| 1) (inr (B_ne 8)).
Proof. split; [by vm_compute|reflexivity]. Qed.

(** [b target]: the offset fits 26 bits. *)
Lemma encodes_b off : off mod 4 = 0 -> - 2 ^ 27 <= off < 2 ^ 27 ->
  encodes (0x14000000 .| Z.land (off >> 2) 0x03FFFFFF) (inl (A64.B off)).
Proof.
  intros H4 Hr. change 0x03FFFFFF with (Z.ones 26). rewrite Z.land_ones, Z.shiftr_div_pow2 by lia. change (2 ^ 2) with 4.
  set (k := (off / 4) mod 2 ^ 26). assert (Hk : 0 <= k < 2 ^ 26) by (apply Z.mod_pos_bound; lia).
  assert (E : (0x14000000 .| k) = 0x14000000 + k).
  { rewrite <- (Z.shiftl_0_r k) at 1. rewrite (lor_field _ k 0 26) by (done || lia). lia. }
  rewrite E. apply encodes_a64; [plia|]. rewrite decode_B by done. do 2 f_equal. unfold to_signed, wrap. rewrite Z.mod_small by lia.
  change (2 ^ (26 - 1)) with 33554432. unfold k in *. destruct (Z.ltb_spec ((off / 4) mod 2 ^ 26) 33554432); plia.
Qed.

(** The fixed words. *)
Lemma encodes_ldr_d : encodes (ARMV8A.LDR_64_SCALAR .| 19 << 16 .| 2 << 5 .| 28) (inr (LDR_d 28 2 19)).
Proof. split; [by vm_compute|reflexivity]. Qed.
Lemma encodes_sxtl : encodes (0x0F20A400 .| 28 << 5 .| 28) (inr (SXTL 28 28)).
Proof. split; [by vm_compute|reflexivity]. Qed.
Lemma encodes_scvtf : encodes (0x4E61D800 .| 28 .| 28 << 5) (inr (SCVTF 28 28)).
Proof. split; [by vm_compute|reflexivity]. Qed.
Lemma encodes_bfi : encodes (0xB3580400 .| 8 .| 20 << 5) (inr (BFI 8 20 40 2)).
Proof. split; [by vm_compute|reflexivity]. Qed.
Lemma encodes_rbit : encodes (0xDAC00000 .| 20 .| 8 << 5) (inr (RBIT 20 8)).
Proof. split; [by vm_compute|reflexivity]. Qed.
Lemma encodes_msr : encodes (0xD51B4400 .| 20) (inr (MSR_fpcr 20)).
Proof. split; [by vm_compute|reflexivity]. Qed.
