(* ===== verification/JitValues.v ===== *)
(** * Values the emitted words compute

    The integer and floating-point identities behind the code of src/src/jit_compiler_a64.cpp: scratchpad
    addresses, immediates, rotations, conversions and masks agree with those of src/src/vm.cpp. *)

From stdpp Require Import list.
From S2P Require Import Prelude RandomX Float Bytecode A64 JitDataset A64Vec JitEmit JitLayout JitWords.

(** ** Addresses *)

Lemma level_pow size : level size -> exists k, 3 < k <= 21 /\ size = 2 ^ k.
Proof. intros [->|[->| ->]]; [exists 14|exists 18|exists 21]; split; lia || reflexivity. Qed.

(** Only the low bits of an address matter. *)
Lemma land_mod x y k : 0 <= k -> 0 <= y < 2 ^ k -> Z.land x y = Z.land (x mod 2 ^ k) y.
Proof.
  intros Hk Hy. apply Z.bits_inj'. intros i Hi. rewrite !Z.land_spec.
  destruct (Z.lt_ge_cases i k); [by rewrite Z.mod_pow2_bits_low by lia|].
  by rewrite (testbit_high k y), !andb_false_r by (done || lia).
Qed.
Lemma wrap_mod w k x : 0 <= k <= w -> wrap w x mod 2 ^ k = x mod 2 ^ k.
Proof.
  intros Hk. unfold wrap. apply Z.mod_mod_divide. exists (2 ^ (w - k)). rewrite <- Z.pow_add_r by lia. f_equal. lia.
Qed.
Lemma land_same x y size : level size -> x mod size = y mod size -> Z.land x (size - 8) = Z.land y (size - 8).
Proof.
  intros (k & Hk & ->)%level_pow E. assert (H8 : 2 ^ 3 <= 2 ^ k) by (apply Z.pow_le_mono_r; lia).
  rewrite (land_mod x _ k), (land_mod y _ k), E by lia. done.
Qed.
Lemma sext32_mod imm k : 0 <= k <= 32 -> 0 <= imm < 2 ^ 32 -> sext32 imm mod 2 ^ k = imm mod 2 ^ k.
Proof.
  intros Hk Hi. unfold sext32. rewrite wrap_mod by lia. unfold to_signed. rewrite (wrap_small 32) by done.
  destruct (_ <? _); [done|]. rewrite <- (wrap_mod 32 k (imm - 2 ^ 32)) by lia. unfold wrap.
  replace (imm - 2 ^ 32) with (imm + (-1) * 2 ^ 32) by lia. rewrite Z.mod_add by lia. by rewrite (Z.mod_small imm (2 ^ 32)).
Qed.
Lemma mod_add_mod a b n : n <> 0 -> (a + b) mod n = (a mod n + b mod n) mod n.
Proof. intros. by apply Z.add_mod. Qed.

Lemma masked_mod imm size : level size -> Z.land imm (size - 1) mod size = imm mod size.
Proof.
  intros (k & Hk & ->)%level_pow. replace (2 ^ k - 1) with (Z.ones k) by (rewrite Z.ones_equiv; lia).
  rewrite Z.land_ones by lia. rewrite Z.mod_mod; [done|]. pose proof (pow2_pos k). lia.
Qed.
Lemma sext32_small imm : 0 <= imm < 2 ^ 31 -> sext32 imm = imm.
Proof.
  intros H. unfold sext32, to_signed. rewrite (wrap_small 32) by (unfold in_range; lia). change (2 ^ (32 - 1)) with 2147483648.
  destruct (Z.ltb_spec imm 2147483648); [|lia]. apply wrap_small. unfold in_range. lia.
Qed.

Section address.
Context (s imm size : Z) (Hs : level size) (Hi : 0 <= imm < 2 ^ 32).
Let imm' := Z.land imm (size - 1).

Lemma masked_range : 0 <= imm' < 2 ^ 21.
Proof. unfold imm'. destruct (land_level imm size) as [H1 H2]; [exact Hs|]. lia. Qed.

(** [tmp = src + imm; and tmp, tmp, mask] with the immediate masked at compile time. *)
Lemma address_load : Z.land (add64 s (sext32 imm')) (size - 8) = Z.land (wrap 32 (wrap 32 s + wrap 32 (sext32 imm))) (size - 8).
Proof.
  pose proof masked_range as Hm. apply land_same; [done|]. unfold add64. rewrite sext32_small by lia.
  pose proof (masked_mod imm size Hs) as E. fold imm' in E. destruct (level_pow size Hs) as (k & Hk & Ek). rewrite Ek in *.
  assert (2 ^ k <> 0) by (pose proof (pow2_pos k); lia).
  rewrite !wrap_mod by lia. rewrite (mod_add_mod s), (mod_add_mod (wrap 32 s)), !wrap_mod, sext32_mod by (done || lia). by rewrite E.
Qed.
Lemma address_store : Z.land (add64 s (sext32 imm')) (size - 8) = Z.land (add64 s (sext32 imm)) (size - 8).
Proof.
  pose proof masked_range as Hm. apply land_same; [done|]. unfold add64. rewrite (sext32_small imm') by lia.
  pose proof (masked_mod imm size Hs) as E. fold imm' in E. destruct (level_pow size Hs) as (k & Hk & Ek). rewrite Ek in *.
  assert (2 ^ k <> 0) by (pose proof (pow2_pos k); lia).
  rewrite !wrap_mod by lia. rewrite (mod_add_mod s), (mod_add_mod s (sext32 imm)), sext32_mod by (done || lia). by rewrite E.
Qed.
End address.

(** With a zero displacement the base register is masked directly. *)
Lemma address_zero s imm size : level size -> 0 <= imm < 2 ^ 32 -> Z.land imm (size - 1) = 0 ->
  Z.land s (size - 8) = Z.land (wrap 32 (wrap 32 s + wrap 32 (sext32 imm))) (size - 8).
Proof.
  intros Hs Hi H0. rewrite <- address_load by done. rewrite H0. apply land_same; [done|].
  destruct (level_pow size Hs) as (k & Hk & ->). unfold add64. rewrite sext32_small by lia. rewrite wrap_mod by lia. by rewrite Z.add_0_r.
Qed.

(** A constant address, loaded without its three low bits. *)
Lemma address_const imm : 0 <= imm < 2 ^ 32 ->
  shl64 (Z.shiftr (Z.land imm kScratchpadL3Mask) 3) 3 = Z.land (wrap 32 (wrap 32 0 + wrap 32 (sext32 imm))) kScratchpadL3Mask /\
  0 <= Z.shiftr (Z.land imm kScratchpadL3Mask) 3 < 2 ^ 18.
Proof.
  intros Hi. change kScratchpadL3Mask with (L3 - 8). assert (Hl : level L3) by (unfold level; auto).
  assert (E : Z.land (wrap 32 (wrap 32 0 + wrap 32 (sext32 imm))) (L3 - 8) = Z.land imm (L3 - 8)).
  { rewrite <- (address_load 0 imm L3 Hl Hi). rewrite (address_store 0 imm L3 Hl Hi). apply land_same; [done|].
    change L3 with (2 ^ 21). unfold add64. rewrite wrap_mod by lia. rewrite Z.add_0_l. by apply sext32_mod. }
  rewrite E. clear E. set (x := Z.land imm (L3 - 8)). assert (Hx : 0 <= x < 2 ^ 21).
  { apply land_range_r; [lia|]. unfold in_range, L3, kRandomXScratchpadBytes. lia. }
  assert (H8 : x mod 2 ^ 3 = 0).
  { rewrite <- Z.land_ones by lia. unfold x. rewrite <- Z.land_assoc. change (Z.land (L3 - 8) (Z.ones 3)) with 0. apply Z.land_0_r. }
  unfold shl64. rewrite Z.shiftl_mul_pow2, Z.shiftr_div_pow2 by lia. split; [|plia]. rewrite wrap_small by (unfold in_range; plia). plia.
Qed.

(** ** Immediates *)

Lemma sext32_value imm : 0 <= imm < 2 ^ 32 -> sext32 imm = if imm <? 2 ^ 31 then imm else imm + (2 ^ 64 - 2 ^ 32).
Proof.
  intros H. unfold sext32, to_signed. rewrite (wrap_small 32) by done. change (2 ^ (32 - 1)) with (2 ^ 31).
  destruct (Z.ltb_spec imm (2 ^ 31)); [apply wrap_small; unfold in_range; lia|]. unfold wrap.
  replace (imm - 2 ^ 32) with (imm + (2 ^ 64 - 2 ^ 32) + (-1) * 2 ^ 64) by lia. rewrite Z.mod_add by lia. apply Z.mod_small. lia.
Qed.
(** Subtracting an immediate is adding its negation, but for the one that has none. *)
Lemma sub_immediate d imm : 0 <= imm < 2 ^ 32 -> imm <> 2 ^ 31 -> add64 d (sext32 (wrap 32 (- imm))) = sub64 d (sext32 imm).
Proof.
  intros Hi Hne. destruct (Z.eq_dec imm 0) as [->|H0].
  { change (sext32 (wrap 32 (- 0))) with 0. change (sext32 0) with 0. unfold add64, sub64. by rewrite Z.add_0_r, Z.sub_0_r. }
  assert (E : wrap 32 (- imm) = 2 ^ 32 - imm).
  { unfold wrap. replace (- imm) with (2 ^ 32 - imm + (-1) * 2 ^ 32) by lia. rewrite Z.mod_add by lia. apply Z.mod_small. lia. }
  rewrite E. rewrite !sext32_value by lia. unfold add64, sub64, wrap.
  destruct (Z.ltb_spec (2 ^ 32 - imm) (2 ^ 31)), (Z.ltb_spec imm (2 ^ 31)); try lia.
  - replace (d - (imm + (2 ^ 64 - 2 ^ 32))) with (d + (2 ^ 32 - imm) + (-1) * 2 ^ 64) by lia. by rewrite Z.mod_add by lia.
  - replace (d + (2 ^ 32 - imm + (2 ^ 64 - 2 ^ 32))) with (d - imm + 1 * 2 ^ 64) by lia. by rewrite Z.mod_add by lia.
Qed.
Lemma sub_min d : add64 d (shl64 0x8000 16) = sub64 d (sext32 (2 ^ 31)).
Proof.
  change (shl64 0x8000 16) with (2 ^ 31). change (sext32 (2 ^ 31)) with (2 ^ 64 - 2 ^ 31). unfold add64, sub64, wrap.
  replace (d - (2 ^ 64 - 2 ^ 31)) with (d + 2 ^ 31 + (-1) * 2 ^ 64) by lia. by rewrite Z.mod_add by lia.
Qed.
Lemma neg_sub d : word64 d -> sub64 0 d = add64 (not64 d) 1.
Proof.
  intros Hd. rewrite not64_sub by done. unfold add64, sub64, wrap. replace (2 ^ 64 - 1 - d + 1) with (0 - d + 1 * 2 ^ 64) by lia.
  by rewrite Z.mod_add by lia.
Qed.

(** ** Rotations *)

Lemma rotl_rotr x k : word64 x -> rotl64 x k = rotr64 x (- k).
Proof.
  intros Hx. unfold rotl64, rotr64. set (q := k mod 64). assert (Hq : 0 <= q < 64) by (apply Z.mod_pos_bound; lia).
  assert (E : (- k) mod 64 = if q =? 0 then 0 else 64 - q).
  { unfold q in *. destruct (Z.eqb_spec (k mod 64) 0); [by rewrite Z.mod_opp_l_z by lia|by rewrite Z.mod_opp_l_nz by lia]. }
  rewrite E. destruct (Z.eqb_spec q 0) as [->|].
  - rewrite Z.shiftr_0_r. change (64 - 0) with 64. rewrite Z.shiftr_div_pow2 by lia. rewrite Z.div_small by apply Hx.
    rewrite shl64_0 by done. rewrite Z.lor_0_r. unfold shl64, wrap. rewrite Z.shiftl_mul_pow2, Z.mod_mul by lia. by rewrite Z.lor_0_r.
  - replace (64 - (64 - q)) with q by lia. apply Z.lor_comm.
Qed.
Lemma land63_mod x : Z.land x 63 = x mod 64.
Proof. apply (land63 x). Qed.
Lemma rotl_sub x s : word64 x -> word64 s -> rotr64 x (sub64 0 s mod 64) = rotl64 x (Z.land s 63).
Proof.
  intros Hx Hs. rewrite rotl_rotr by done. apply rotr64_mod. rewrite Z.mod_mod by lia. rewrite land63_mod. unfold sub64.
  change 64 with (2 ^ 6) at 2. rewrite wrap_mod by lia. change (2 ^ 6) with 64. rewrite Z.sub_0_l.
  plia.
Qed.
Lemma rotl_imm x imm : word64 x -> rotr64 x (Z.land (wrap 32 (- imm)) 63) = rotl64 x (Z.land imm 63).
Proof.
  intros Hx. rewrite rotl_rotr by done. apply rotr64_mod. rewrite !land63_mod, Z.mod_mod by lia.
  change 64 with (2 ^ 6) at 1. rewrite wrap_mod by lia. change (2 ^ 6) with 64. plia.
Qed.

(** ** The branch immediate *)

Lemma testbit_sext32 x i : 0 <= x < 2 ^ 32 -> 0 <= i < 64 -> Z.testbit (sext32 x) i = Z.testbit x (Z.min i 31).
Proof.
  intros Hx Hi. unfold sext32. rewrite testbit_wrap by lia. destruct (Z.ltb_spec i 64); [|lia]. cbn [andb].
  unfold to_signed. rewrite (wrap_small 32) by done. change (2 ^ (32 - 1)) with (2 ^ 31).
  assert (H31 : Z.testbit x 31 = negb (x <? 2 ^ 31)).
  { rewrite Z.testbit_eqb by lia. destruct (Z.ltb_spec x (2 ^ 31)); cbn [negb]; [apply Z.eqb_neq|apply Z.eqb_eq]; plia. }
  destruct (Z.ltb_spec x (2 ^ 31)); cbn [negb] in H31.
  - destruct (Z.lt_ge_cases i 31); [by rewrite Z.min_l by lia|]. rewrite Z.min_r, H31 by lia.
    apply (testbit_high 31); [unfold in_range; lia|lia].
  - destruct (Z.lt_ge_cases i 32) as [Hlt|Hge].
    + rewrite <- (Z.mod_pow2_bits_low _ 32) by lia. replace (x - 2 ^ 32) with (x + (-1) * 2 ^ 32) by lia.
      rewrite Z.mod_add, Z.mod_pow2_bits_low by lia. f_equal. lia.
    + rewrite Z.min_r, H31 by lia. replace (x - 2 ^ 32) with (Z.lnot (2 ^ 32 - 1 - x)) by (unfold Z.lnot; lia).
      rewrite Z.lnot_spec by lia. rewrite (testbit_high 31); [done|unfold in_range; lia|lia].
Qed.

(** The 32-bit immediate of the JIT, sign-extended, is the 64-bit immediate of the interpreter. *)
Lemma branch_immediate imm sh : 0 <= imm < 2 ^ 32 -> 8 <= sh <= 23 ->
  let imm' := Z.land (Z.lor imm (wrap 32 (Z.shiftl 1 sh))) (not32 (wrap 32 (Z.shiftl 1 (sh - 1)))) in
  0 <= imm' < 2 ^ 32 /\
  sext32 imm' = Z.land (Z.lor (sext32 imm) (shl64 1 sh)) (not64 (shl64 1 (sh - 1))).
Proof.
  intros Hi Hsh imm'. assert (Hp : forall k, 0 <= k < 32 -> 0 < 2 ^ k < 2 ^ 32) by (intros k Hk; split; [apply pow2_pos; lia|apply Z.pow_lt_mono_r; lia]).
  assert (Hp64 : forall k, 0 <= k < 32 -> wrap 64 (Z.shiftl 1 k) = 2 ^ k /\ wrap 32 (Z.shiftl 1 k) = 2 ^ k).
  { intros k Hk. rewrite Z.shiftl_1_l. specialize (Hp k Hk). split; apply wrap_small; unfold in_range; lia. }
  unfold imm', shl64. destruct (Hp64 sh ltac:(lia)) as [-> ->], (Hp64 (sh - 1) ltac:(lia)) as [-> ->].
  clear imm'. set (p := 2 ^ sh). set (q := 2 ^ (sh - 1)).
  assert (Wp : in_range 32 p) by (unfold in_range, p; pose proof (Hp sh); lia).
  assert (Wq : in_range 32 q) by (unfold in_range, q; pose proof (Hp (sh - 1)); lia).
  assert (Wn : in_range 32 (not32 q)) by (by apply wrap_range).
  assert (Wl : in_range 32 (Z.land (Z.lor imm p) (not32 q))) by (apply land_range_r; [lia|done]).
  split; [exact Wl|]. apply word64_ext.
  - apply sext32_range.
  - apply land_range_r; [lia|]. apply not64_range. eapply in_range_mono; [|exact Wq]. lia.
  - intros i Hi2. rewrite testbit_sext32 by (done || lia). rewrite !Z.land_spec, !Z.lor_spec. rewrite testbit_sext32 by (done || lia).
    assert (Ep : forall k, 0 <= k -> Z.testbit p k = (k =? sh)) by (intros k Hk; unfold p; rewrite Z.pow2_bits_eqb by lia; apply Z.eqb_sym).
    assert (Eq : forall k, 0 <= k -> Z.testbit q k = (k =? sh - 1)) by (intros k Hk; unfold q; rewrite Z.pow2_bits_eqb by lia; apply Z.eqb_sym).
    rewrite !Ep by lia. unfold not32, not64. rewrite testbit_wrap, Z.lnot_spec, Z.lxor_spec, testbit_ones, !Eq by lia.
    destruct (Z.ltb_spec (Z.min i 31) 32); [|lia]. destruct (Z.ltb_spec i 64); [|lia]. cbn [andb].
    replace (Z.min i 31 =? sh) with (i =? sh) by (apply Bool.eq_iff_eq_true; rewrite !Z.eqb_eq; lia).
    replace (Z.min i 31 =? sh - 1) with (i =? sh - 1) by (apply Bool.eq_iff_eq_true; rewrite !Z.eqb_eq; lia).
    by destruct (i =? sh - 1).
Qed.

(** ** Floating point *)

(** A number of at most 53 bits is converted exactly, in every rounding direction. *)
Lemma round_pack_int mode s n : 0 <= n < 2 ^ 52 -> n <> 0 ->
  round_pack mode s n 0 false = with_sign s ((Z.log2 n + 1022) * 2 ^ 52 + n * 2 ^ (52 - Z.log2 n)) /\ 0 <= Z.log2 n < 52.
Proof.
  intros Hn H0. assert (Hl : 0 <= Z.log2 n < 52).
  { split; [apply Z.log2_nonneg|]. apply Z.log2_lt_pow2; lia. }
  split; [|done]. unfold round_pack. destruct (Z.eqb_spec n 0); [done|]. replace (Z.max (0 + Z.log2 n - 52) (-1074)) with (Z.log2 n - 52) by lia.
  destruct (Z.leb_spec (Z.log2 n - 52) 0); [|lia]. rewrite Z.shiftl_mul_pow2 by lia.
  replace (0 - (Z.log2 n - 52)) with (52 - Z.log2 n) by lia. replace (Z.log2 n - 52 + 1074) with (Z.log2 n + 1022) by lia.
  assert (Hq : n * 2 ^ (52 - Z.log2 n) < 2 ^ 53).
  { destruct (Z.log2_spec n) as [_ H2]; [lia|]. replace (2 ^ 53) with (2 ^ Z.succ (Z.log2 n) * 2 ^ (52 - Z.log2 n)).
    - apply Z.mul_lt_mono_pos_r; [apply pow2_pos; lia|done].
    - rewrite <- Z.pow_add_r by lia. f_equal. lia. }
  destruct (Z.leb_spec inf_bits ((Z.log2 n + 1022) * 2 ^ 52 + n * 2 ^ (52 - Z.log2 n))) as [Hb|Hb]; [|done].
  unfold inf_bits in Hb. lia.
Qed.
Lemma signed32_abs v : Z.abs (to_signed 32 v) <= 2 ^ 31.
Proof.
  unfold to_signed, wrap. change (2 ^ (32 - 1)) with (2 ^ 31). pose proof (Z.mod_pos_bound v (2 ^ 32)).
  destruct (Z.ltb_spec (v mod 2 ^ 32) (2 ^ 31)); lia.
Qed.
Lemma to_signed_sext32 v : to_signed 64 (sext32 v) = to_signed 32 v.
Proof.
  pose proof (signed32_abs v) as H. unfold sext32. set (t := to_signed 32 v) in *. clearbody t. unfold to_signed, wrap.
  change (2 ^ (64 - 1)) with (2 ^ 63). rewrite Z.mod_mod by lia. destruct (Z.ltb_spec (t mod 2 ^ 64) (2 ^ 63)); plia.
Qed.

(** [scvtf] of a sign-extended integer is the interpreter's conversion. *)
Lemma scvtf_int32 mode v : scvtf mode (sext32 v) = of_int32 v.
Proof.
  unfold scvtf, of_int32. rewrite to_signed_sext32. pose proof (signed32_abs v) as H. set (t := to_signed 32 v) in *.
  destruct (Z.eq_dec (Z.abs t) 0) as [E|E]; [by rewrite E|].
  assert (Hb : 0 <= Z.abs t < 2 ^ 52) by lia. by rewrite !(proj1 (round_pack_int _ _ _ Hb E)).
Qed.

(** Its 22 low bits are zero, so the "and" mask of the E registers loses nothing. *)
Lemma of_int32_low v : of_int32 v mod 2 ^ 22 = 0.
Proof.
  unfold of_int32. pose proof (signed32_abs v) as H. set (t := to_signed 32 v) in *.
  destruct (Z.eq_dec (Z.abs t) 0) as [E|E].
  { rewrite E. unfold round_pack. cbn [Z.eqb]. unfold with_sign. by destruct (t <? 0). }
  destruct (round_pack_int ToNearest (t <? 0) (Z.abs t)) as [-> Hl]; [lia|done|].
  set (n := Z.abs t) in *. assert (Hn : (n * 2 ^ (52 - Z.log2 n)) mod 2 ^ 22 = 0).
  { destruct (Z.eq_dec n (2 ^ 31)) as [->|Hne]; [reflexivity|].
    assert (Hl30 : Z.log2 n < 31) by (apply Z.log2_lt_pow2; lia).
    replace (52 - Z.log2 n) with ((30 - Z.log2 n) + 22) by lia. rewrite Z.pow_add_r by lia.
    rewrite Z.mul_assoc. apply Z.mod_mul. lia. }
  set (y := n * 2 ^ (52 - Z.log2 n)) in *. clearbody y. set (l := Z.log2 n) in *. clearbody l.
  unfold with_sign, sign_bit. destruct (t <? 0).
  - replace (2 ^ 63 + ((l + 1022) * 2 ^ 52 + y)) with (y + (2 ^ 41 + (l + 1022) * 2 ^ 30) * 2 ^ 22) by lia. by rewrite Z.mod_add by lia.
  - replace ((l + 1022) * 2 ^ 52 + y) with (y + ((l + 1022) * 2 ^ 30) * 2 ^ 22) by lia. by rewrite Z.mod_add by lia.
Qed.

(** The "and" mask of static.S. *)
Definition e_and : Z := 0x00FFFFFFFFC00000.
Lemma testbit_e_and i : 0 <= i < 64 -> Z.testbit e_and i = (22 <=? i) && (i <? 56).
Proof.
  intros Hi. change e_and with (Z.shiftl (Z.ones 34) 22). rewrite testbit_shiftl by lia. destruct (Z.leb_spec 22 i); [|done].
  rewrite testbit_ones by lia. cbn [andb]. apply Bool.eq_iff_eq_true. rewrite !Z.ltb_lt. lia.
Qed.

(** The masks of the E registers: nothing between the low 22 bits and the exponent. *)
Definition e_or_ok (m : Z) : Prop := word64 m /\ Z.land m e_and = 0.

Lemma bif_mask v m : e_or_ok m ->
  Z.lor (Z.land (of_int32 v) e_and) (Z.land m (not64 e_and)) = Z.lor (Z.land (of_int32 v) dynamicMantissaMask) m.
Proof.
  intros [Hm H0]. pose proof (of_int32_word64 v) as Hx. pose proof (of_int32_low v) as Hl. set (x := of_int32 v) in *. clearbody x.
  assert (We : word64 e_and) by (unfold in_range, e_and; lia).
  apply word64_ext.
  - apply lor_range; [lia|by apply land_range_l|by apply land_range_l].
  - apply lor_range; [lia|by apply land_range_l|done].
  - intros i Hi. rewrite !Z.lor_spec, !Z.land_spec. unfold not64. rewrite Z.lxor_spec, testbit_ones by lia.
    destruct (Z.ltb_spec i 64); [|lia]. change dynamicMantissaMask with (Z.ones 56). rewrite testbit_ones by lia.
    assert (Hb : Z.testbit m i && Z.testbit e_and i = false) by (rewrite <- Z.land_spec, H0; apply Z.testbit_0_l).
    rewrite testbit_e_and in * by lia. destruct (Z.leb_spec 22 i), (Z.ltb_spec i 56); cbn [andb xorb] in *; rewrite ?andb_true_r, ?andb_false_r in *; try done; try lia.
    + by rewrite Hb.
    + assert (E : Z.testbit x i = false); [|by rewrite E].
      rewrite <- (Z.mod_pow2_bits_low x 22) by lia. rewrite Hl. apply Z.testbit_0_l.
Qed.

(** ** The rounding mode *)

Lemma bfi_mode mode v : 0 <= mode < 4 -> word64 v ->
  Z.lor (Z.land (mode * 2 ^ 40) (not64 (shl64 (Z.ones 2) 40))) (shl64 (Z.land v (Z.ones 2)) 40) = (v mod 4) * 2 ^ 40.
Proof.
  intros Hm Hv. rewrite Z.land_ones by lia. change (2 ^ 2) with 4. assert (H : 0 <= v mod 4 < 4) by (apply Z.mod_pos_bound; lia).
  set (q := v mod 4) in *. clearbody q.
  assert (Em : mode = 0 \/ mode = 1 \/ mode = 2 \/ mode = 3) by lia. assert (Eq : q = 0 \/ q = 1 \/ q = 2 \/ q = 3) by lia.
  destruct Em as [->|[->|[->| ->]]]; destruct Eq as [->|[->|[->| ->]]]; reflexivity.
Qed.
Lemma fpcr_mode mode : 0 <= mode < 4 -> fpcr_rounding (rbit64 (mode * 2 ^ 40)) = Done (rounding_of mode).
Proof. intros H. assert (E : mode = 0 \/ mode = 1 \/ mode = 2 \/ mode = 3) by lia. by destruct E as [->|[->|[->| ->]]]. Qed.

(** ** Halves of a word in memory *)

Lemma of_le_app b1 b2 : of_le (b1 ++ b2) = of_le b1 + 2 ^ (8 * Z.of_nat (length b1)) * of_le b2.
Proof.
  induction b1 as [|b b1 IH]; [cbn; lia|]. cbn [app of_le length]. rewrite IH.
  replace (8 * Z.of_nat (S (length b1))) with (8 + 8 * Z.of_nat (length b1)) by lia. rewrite Z.pow_add_r by lia. change (2 ^ 8) with 256. lia.
Qed.
Lemma read_halves mem a y : Bytes mem -> read_le mem a 8 = Done y ->
  read_le mem a 4 = Done (bits y 0 32) /\ read_le mem (a + 4) 4 = Done (bits y 32 32).
Proof.
  intros Hb H. unfold read_le in *. apply bind_Done in H as (bs & E & H). injection H as <-.
  assert (Hr : 0 <= a /\ a + 8 <= Z.of_nat (length mem)) by (revert E; unfold read_bytes; destruct (_ && _) eqn:Ec; [blia|done]).
  change 8%nat with (4 + 4)%nat in E. rewrite <- read_bytes_app in E by lia. rewrite !read_bytes_ok in * by lia.
  cbn [mbind outcome_bind] in *. injection E as <-. change (Z.of_nat 4) with 4.
  set (b1 := take 4 _). set (b2 := take 4 (drop (Z.to_nat (a + 4)) mem)).
  assert (Hl1 : length b1 = 4%nat) by (unfold b1; rewrite length_take, length_drop; lia).
  assert (Hl2 : length b2 = 4%nat) by (unfold b2; rewrite length_take, length_drop; lia).
  pose proof (of_le_range b1 ltac:(by apply Forall_take, Forall_drop)) as H1. pose proof (of_le_range b2 ltac:(by apply Forall_take, Forall_drop)) as H2.
  rewrite Hl1 in H1. rewrite Hl2 in H2. rewrite of_le_app, Hl1. unfold in_range in *. change (2 ^ (8 * Z.of_nat 4)) with (2 ^ 32) in *.
  unfold bits. split; f_equal; plia.
Qed.
