(* ===== verification/JitVmRun.v ===== *)
(** * Running the virtual machine's code

    What the words written by the immediates and memory operands of src/src/jit_compiler_a64.cpp do on the
    A64 machine, in a buffer that keeps what they wrote. *)

From stdpp Require Import list.
From S2P Require Import Prelude RandomX Float Bytecode A64 JitDataset A64Vec JitEmit JitLayout JitWords JitValues.

(** ** What every emission keeps *)

Section keeping.
Context (R : emission -> emission -> Prop) `{!PreOrder R}.

Definition keeps (f : emitting) : Prop := forall st st', f st = Done st' -> R st st'.

Lemma keeps_bind f g : keeps f -> keeps g -> keeps (fun st => st ← f st; g st).
Proof. intros Hf Hg st st' H. apply bind_Done in H as (st1 & E1 & E2). etrans; eauto. Qed.
Lemma keeps_if (c : bool) f g : keeps f -> keeps g -> keeps (fun st => if c then f st else g st).
Proof. by destruct c. Qed.
Lemma keeps_return : keeps Done.
Proof. by intros st st' [= <-]. Qed.

(** A word, and a literal in the 32-bit pool. *)
Context (Remit : forall w, keeps (emit w)).
Context (Rliteral : forall imm c j k, write_bytes (code j) (ImulRcpLiteralsEnd + 4 * num32bitLiterals j) (le_bytes 4 imm) = Done c ->
  R (j, k) (mkJit c (literalPos j) (num32bitLiterals j + 1) (reg_changed_offset j) (flags j), k)).

Lemma emit_inv w st st' : emit w st = Done st' -> exists c,
  write_bytes (code st.1) st.2 (le_bytes 4 w) = Done c /\ st' = (with_code c st.1, st.2 + 4).
Proof.
  destruct st as [j k]. unfold emit, emit32. intros H. apply bind_Done in H as ([c k'] & E & H).
  apply bind_Done in E as (c' & E & Ek). apply Done_pair in Ek as [-> <-]. injection H as <-. by exists c.
Qed.

Lemma keeps_mov d imm : keeps (emitMovImmediate d imm).
Proof.
  intros st st'. unfold emitMovImmediate. cbv zeta. destruct (imm <? _); [apply Remit|]. destruct (_ <? 64).
  - intros H. apply bind_Done in H as ([j k] & E1 & H). apply bind_Done in H as (c & E2 & H). injection H as <-.
    etrans; [by eapply Remit|]. apply emit_inv in E1 as (c1 & _ & E1). injection E1 as -> ->. exact (Rliteral imm c (with_code c1 st.1) _ E2).
  - revert st st'. apply keeps_bind; [|apply Remit]. apply keeps_if; apply Remit.
Qed.
Lemma keeps_add d s imm t : keeps (emitAddImmediate d s imm t).
Proof.
  unfold emitAddImmediate. apply keeps_if; [apply keeps_if; [|apply keeps_if; apply Remit]|].
  - apply keeps_bind; apply Remit.
  - apply keeps_bind; [apply keeps_mov|apply Remit].
Qed.
Lemma keeps_load t d s instr : keeps (emitMemLoad t d s instr).
Proof.
  unfold emitMemLoad. apply keeps_if.
  - apply keeps_bind; [|apply Remit]. apply keeps_if; [|apply Remit]. apply keeps_bind; [apply keeps_add|apply Remit].
  - apply keeps_bind; [apply keeps_mov|apply Remit].
Qed.
Lemma keeps_load_fp t s instr : keeps (emitMemLoadFP t s instr).
Proof.
  unfold emitMemLoadFP. apply keeps_bind; [apply keeps_if; [apply keeps_add|apply keeps_return]|].
  repeat (apply keeps_bind; [apply Remit|]). apply Remit.
Qed.
End keeping.

(** ** The finished buffer *)

(** Words and literals are aligned. *)
Definition aligned (st : emission) : Prop := st.2 mod 4 = 0 /\ literalPos st.1 mod 8 = 0 /\ literalPos st.1 <= ImulRcpLiteralsEnd.

Section runs.
Context (C : list Z) (base : Z).

(** [C] has everything that was written up to the emission state. *)
Record settled (st : emission) : Prop := mkSettled {
  sd_len : length C = length (code st.1) /\ BufferSize <= Z.of_nat (length C);
  sd_room : 0 <= st.2 <= literalPos st.1 /\ literalPos st.1 <= ImulRcpLiteralsEnd;
  sd_pool : 0 <= num32bitLiterals st.1 <= 64;
  sd_same : forall i : nat, Z.of_nat i < st.2 \/ literalPos st.1 <= Z.of_nat i < ImulRcpLiteralsEnd + 4 * num32bitLiterals st.1 ->
    C !! i = code st.1 !! i;
}.

(** Later writes leave earlier ones alone. *)
Definition follows (st st' : emission) : Prop := 0 <= num32bitLiterals st.1 ->
  (st.2 <= st'.2 /\ (aligned st -> aligned st')) /\ 0 <= num32bitLiterals st'.1 /\ (settled st' -> settled st).
#[local] Instance follows_preorder : PreOrder follows.
Proof.
  split; [by intros st H|]. intros s1 s2 s3 H1 H2 H. destruct (H1 H) as ((K1 & A1) & N1 & S1). destruct (H2 N1) as ((K2 & A2) & N2 & S2).
  split; [split; [lia|auto]|]. auto.
Qed.
Definition flows (f : emitting) : Prop := forall st st', 0 <= num32bitLiterals st.1 -> f st = Done st' ->
  (st.2 <= st'.2 /\ (aligned st -> aligned st')) /\ 0 <= num32bitLiterals st'.1 /\ (settled st' -> settled st).
Lemma keeps_flows f : keeps follows f -> flows f.
Proof. intros H st st' H0 E. by apply H. Qed.

Lemma follows_changed d : keeps follows (reg_changed d).
Proof.
  intros [j k] st' [= <-] H0. split; [split; [cbn; lia|done]|]. split; [exact H0|]. intros [[S1 S1'] S2 S3 S4]. constructor; done.
Qed.
Lemma follows_emit w : keeps follows (emit w).
Proof.
  intros st st' (c & E & ->)%emit_inv H0. cbn [fst snd]. split.
  { split; [lia|]. unfold aligned. cbn [fst snd with_code literalPos]. intros [A1 A2]. split; [plia|done]. }
  split; [exact H0|]. intros [[S1 S1'] S2 S3 S4]. cbn [fst snd with_code code literalPos num32bitLiterals] in *.
  pose proof (write_bytes_length _ _ _ _ E) as Hl. assert (Hk : 0 <= st.2) by (revert E; unfold write_bytes; destruct (_ && _) eqn:Eb; [blia|done]).
  constructor; [split; [congruence|done]|lia|done|]. intros i Hi. rewrite S4 by lia. eapply write_bytes_lookup; [exact E|].
  rewrite length_le_bytes. lia.
Qed.
Lemma follows_literal imm c j k : write_bytes (code j) (ImulRcpLiteralsEnd + 4 * num32bitLiterals j) (le_bytes 4 imm) = Done c ->
  follows (j, k) (mkJit c (literalPos j) (num32bitLiterals j + 1) (reg_changed_offset j) (flags j), k).
Proof.
  intros E H0. cbn [fst snd] in *. split; [by split; [lia|]|]. cbn [num32bitLiterals]. split; [lia|].
  intros [[S1 S1'] S2 S3 S4]. cbn [fst snd num32bitLiterals code literalPos] in *.
  pose proof (write_bytes_length _ _ _ _ E) as Hl. constructor; cbn [fst snd]; [split; [congruence|done]|lia|lia|].
  intros i Hi. rewrite S4 by lia. eapply write_bytes_lookup; [exact E|]. rewrite length_le_bytes. lia.
Qed.

Lemma flows_changed d : flows (reg_changed d).
Proof. apply keeps_flows, follows_changed. Qed.
Lemma flows_emit w : flows (emit w).
Proof. apply keeps_flows, follows_emit. Qed.
Lemma flows_mov d imm : flows (emitMovImmediate d imm).
Proof. apply keeps_flows, keeps_mov; [apply _|apply follows_emit|apply follows_literal]. Qed.
Lemma flows_add d s imm t : flows (emitAddImmediate d s imm t).
Proof. apply keeps_flows, keeps_add; [apply _|apply follows_emit|apply follows_literal]. Qed.
Lemma flows_load t d s instr : flows (emitMemLoad t d s instr).
Proof. apply keeps_flows, keeps_load; [apply _|apply follows_emit|apply follows_literal]. Qed.
Lemma flows_load_fp t s instr : flows (emitMemLoadFP t s instr).
Proof. apply keeps_flows, keeps_load_fp; [apply _|apply follows_emit|apply follows_literal]. Qed.

(** ** Steps *)

Definition leads (ms ms' : vec_state) : Prop := exists n, vec_run n C base ms = Done ms'.

Lemma leads_refl ms : leads ms ms.
Proof. by exists 0%nat. Qed.
Lemma leads_trans m1 m2 m3 : leads m1 m2 -> leads m2 m3 -> leads m1 m3.
Proof. intros [n1 E1] [n2 E2]. exists (n1 + n2)%nat. rewrite vec_run_app, E1. exact E2. Qed.

(** Bytes that were written are read back from the finished buffer. *)
Lemma settled_read st a n v : settled st -> read_le (code st.1) a n = Done v -> (0 < n)%nat ->
  a + Z.of_nat n <= st.2 \/ (literalPos st.1 <= a /\ a + Z.of_nat n <= ImulRcpLiteralsEnd + 4 * num32bitLiterals st.1) ->
  read_le C a n = Done v.
Proof.
  intros [[S1 S1'] S2 S3 S4] H Hn Ha. unfold read_le in *. apply bind_Done in H as (bs & E & H). injection H as <-.
  pose proof (read_bytes_Done _ _ _ _ E) as Hl. assert (Hh : holds C a bs).
  { apply (holds_ext (code st.1)); [done| |by unfold holds; rewrite Hl]. intros k Hk. apply S4. rewrite Hl in Hk. lia. }
  unfold holds in Hh. rewrite Hl in Hh. by rewrite Hh.
Qed.

Lemma read_written mem off n v mem' : write_bytes mem off (le_bytes n v) = Done mem' ->
  read_le mem' off n = Done (wrap (8 * Z.of_nat n) v).
Proof.
  intros E. apply read_write_same in E. rewrite length_le_bytes in E. unfold read_le. rewrite E. cbn. by rewrite of_le_bytes.
Qed.

(** One emitted word, executed. *)
Lemma emit_leads w i st st' ms ms' :
  emit w st = Done st' -> settled st' -> encodes w i -> vpc ms = st.2 -> vec_exec C base i ms = Done ms' ->
  leads ms ms' /\ st'.2 = st.2 + 4 /\ st'.1 = with_code (code st'.1) st.1.
Proof.
  intros (c & E & ->)%emit_inv Hs [Hw Hd] Hp Hx. split; [|done]. exists 1%nat. cbn [vec_run]. unfold vec_step. rewrite Hp.
  rewrite (settled_read _ _ 4 w Hs); [cbn [mbind outcome_bind]; by rewrite Hd, Hx| |lia|cbn [fst snd]; lia].
  cbn [fst with_code code]. rewrite (read_written _ _ 4 w _ E). by rewrite wrap_small.
Qed.

(** Machine states that differ in the program counter and one register. *)
Definition set_x (pc d v : Z) (ms : vec_state) : vec_state := mkVec pc (xset (vx ms) d v) (vv ms) (fpcr ms) (zf ms) (vmem ms).
Definition set_v (pc d : Z) (v : FloatRegister) (ms : vec_state) : vec_state :=
  mkVec pc (vx ms) (vset (vv ms) d v) (fpcr ms) (zf ms) (vmem ms).

(** The literal pools, loaded by the prologue. *)
Record pooled (ms : vec_state) : Prop := mkPooled {
  po_32 : forall j v, 0 <= j < 64 -> read_le C (ImulRcpLiteralsEnd + 4 * j) 4 = Done v ->
    lane32 (vget (vv ms) (j / 4)) (j mod 4) = v;
  po_64 : forall j v, 0 <= j < 12 -> read_le C (ImulRcpLiteralsEnd - 8 * (j + 1)) 8 = Done v ->
    xget (vx ms) (literal_regs !!! Z.to_nat j) = v;
}.

(** Words in sequence, as [emit_leads] finds them. *)
Ltac unseq H :=
  repeat (lazymatch type of H with mbind _ _ = Done _ => idtac end;
    apply bind_Done in H as (? & ? & H); cbv beta in H).

Lemma xset_twice xs d a b : xset (xset xs d a) d b = xset xs d b.
Proof. apply xset_xset. Qed.

(** [mov d, imm] in one or two words. *)
Lemma mov_leads d imm st st' ms :
  emitMovImmediate d imm st = Done st' -> settled st' -> 0 <= num32bitLiterals st.1 -> pooled ms ->
  0 <= d < 31 -> 0 <= imm < 2 ^ 32 -> machine (vx ms) -> vpc ms = st.2 ->
  leads ms (set_x st'.2 d (sext32 imm) ms).
Proof.
  intros H Hs H0 Hpool Hd Hi Hm Hp. revert H. unfold emitMovImmediate. cbv zeta. change (Z.shiftl 1 16) with 65536.
  destruct (Z.ltb_spec imm 65536) as [Hlt|Hge].
  { intros H. destruct (emit_leads _ _ _ _ ms (set_x st'.2 d (sext32 imm) ms) H Hs (encodes_movz d Hd imm ltac:(lia)) Hp) as [L _]; [|done].
    apply emit_inv in H as (c & _ & ->). cbn [vec_exec exec mbind outcome_bind fst snd]. unfold set_x. rewrite Hp.
    rewrite shl64_0, sext32_small by (unfold in_range; lia). done. }
  destruct (Z.ltb_spec (num32bitLiterals st.1) 64) as [Hn|Hn].
  - intros H. apply bind_Done in H as ([j k] & E1 & H). apply bind_Done in H as (c & E2 & H). injection H as <-.
    set (n := num32bitLiterals st.1) in *.
    assert (Hlit : read_le C (ImulRcpLiteralsEnd + 4 * n) 4 = Done imm).
    { apply (settled_read _ _ 4 imm Hs); [|lia|right]; cbn [fst snd code literalPos num32bitLiterals].
      - rewrite (read_written _ _ 4 imm _ E2). by rewrite wrap_small.
      - destruct Hs as [_ S2 _ _]. cbn [fst snd literalPos] in S2. lia. }
    assert (Hlane : lane32 (vget (vv ms) (n / 4)) (n mod 4) = imm) by (by apply (po_32 ms Hpool); [lia|]).
    assert (Hs1 : settled (j, k)).
    { destruct Hs as [[S1 S1'] S2 S3 S4]. cbn [fst snd code literalPos num32bitLiterals] in *.
      pose proof (write_bytes_length _ _ _ _ E2) as Hl. apply emit_inv in E1 as (c1 & Ec & E1). injection E1 as -> ->.
      constructor; cbn [fst snd with_code code literalPos num32bitLiterals] in *; [split; [congruence|done]|lia|fold n; lia|]. 
      intros i Hx. rewrite S4 by (fold n in Hx; lia). eapply write_bytes_lookup; [exact E2|]. rewrite length_le_bytes. fold n in Hx. lia. }
    assert (Hk : k = st.2 + 4) by (apply emit_inv in E1 as (c1 & _ & E1); by injection E1). cbn [snd].
    assert (Hx : encodes (Z.lor (Z.lor (Z.lor (if to_signed 32 imm <? 0 then 0x4E042C00 else 0x0E043C00) d) (Z.shiftl (n / 4) 5)) (Z.shiftl (n mod 4) 19))
      (inr (if to_signed 32 imm <? 0 then SMOV d (n / 4) (n mod 4) else UMOV d (n / 4) (n mod 4)))).
    { destruct (to_signed 32 imm <? 0); [apply encodes_smov|apply encodes_umov]; lia. }
    destruct (emit_leads _ _ _ _ ms (set_x k d (sext32 imm) ms) E1 Hs1 Hx Hp) as [L _]; [|done].
    cbn [vec_exec]. unfold set_x. rewrite Hk, <- Hp. destruct (Z.ltb_spec (to_signed 32 imm) 0) as [Hneg|Hpos]; cbn [exec_vec]; rewrite Hlane; [done|].
    do 3 f_equal. rewrite sext32_value by done. destruct (Z.ltb_spec imm (2 ^ 31)); [done|].
    unfold to_signed in Hpos. rewrite wrap_small in Hpos by done. change (2 ^ (32 - 1)) with (2 ^ 31) in Hpos.
    destruct (Z.ltb_spec imm (2 ^ 31)); lia.
  - intros H. apply bind_Done in H as (st1 & E1 & E2).
    assert (Hs1 : settled st1).
    { refine (proj2 (proj2 (flows_emit _ st1 st' _ E2)) Hs). destruct (to_signed 32 imm <? 0); apply emit_inv in E1 as (c & _ & ->); exact H0. }
    assert (H1 : 0 <= Z.land imm 0xFFFF < 65536 /\ Z.land imm 0xFFFF = imm mod 65536).
    { change 0xFFFF with (Z.ones 16). rewrite Z.land_ones by lia. split; [apply Z.mod_pos_bound; lia|done]. }
    destruct H1 as [H1 E16]. assert (Hk1 : st1.2 = st.2 + 4) by (destruct (to_signed 32 imm <? 0); by apply emit_inv in E1 as (c & _ & ->)).
    assert (Hhi : exists hi, word64 hi /\ hi - hi mod 65536 + imm mod 65536 = sext32 imm /\ leads ms (set_x st1.2 d hi ms)).
    { pose proof (sext32_value imm Hi) as Es. unfold to_signed in E1. rewrite wrap_small in E1 by done. change (2 ^ (32 - 1)) with (2 ^ 31) in E1.
      destruct (Z.ltb_spec imm (2 ^ 31)) as [Hl|Hg].
      - assert (Hb : (imm <? 0) = false) by lia. rewrite Hb in E1. assert (Hh : 0 <= Z.shiftr imm 16 < 65536) by (rewrite Z.shiftr_div_pow2 by lia; plia).
        exists (shl64 (Z.shiftr imm 16) 16). split; [auto with word|].
        assert (Ev : shl64 (Z.shiftr imm 16) 16 = imm - imm mod 65536).
        { unfold shl64. rewrite Z.shiftl_mul_pow2, Z.shiftr_div_pow2 by lia. rewrite wrap_small by (unfold in_range; plia). plia. }
        split; [rewrite Ev, Es; plia|].
        apply (emit_leads _ _ _ _ ms _ E1 Hs1 (encodes_movz_hi d Hd _ Hh) Hp). cbn [vec_exec exec mbind outcome_bind]. unfold set_x. by rewrite Hk1, Hp.
      - assert (Hb : (imm - 2 ^ 32 <? 0) = true) by lia. rewrite Hb in E1.
        assert (Hh : 0 <= Z.shiftr (not32 imm) 16 < 65536) by (rewrite not32_sub, Z.shiftr_div_pow2 by lia; plia).
        exists (not64 (shl64 (Z.shiftr (not32 imm) 16) 16)). split; [apply not64_range, shl64_range|].
        assert (Ev : not64 (shl64 (Z.shiftr (not32 imm) 16) 16) = 2 ^ 64 - 2 ^ 32 + imm - imm mod 65536 + 65535).
        { unfold shl64. rewrite not32_sub, Z.shiftl_mul_pow2, Z.shiftr_div_pow2 by lia. rewrite wrap_small by (unfold in_range; plia).
          rewrite not64_sub by (unfold in_range; plia). plia. }
        split; [rewrite Ev, Es; plia|].
        apply (emit_leads _ _ _ _ ms _ E1 Hs1 (encodes_movn_hi d Hd _ Hh) Hp). cbn [vec_exec exec mbind outcome_bind]. unfold set_x. by rewrite Hk1, Hp. }
    destruct Hhi as (hi & Whi & Ehi & L1). eapply leads_trans; [exact L1|].
    apply (emit_leads _ _ _ _ (set_x st1.2 d hi ms) _ E2 Hs (encodes_movk d Hd _ H1)); [done|].
    apply emit_inv in E2 as (c & _ & ->). cbn [vec_exec exec mbind outcome_bind set_x vx vpc vv fpcr zf vmem fst snd].
    rewrite xset_xset, xget_xset by (done || lia). rewrite movk_low by done. rewrite E16, Ehi. done.
Qed.

(** *** Additions *)

(** The registers but for x19 and x20. *)
Definition temp (xs xs1 : list Z) : Prop := machine xs1 /\ forall n, 0 <= n < 31 -> n <> 19 -> n <> 20 -> xget xs1 n = xget xs n.

Lemma temp_refl xs : machine xs -> temp xs xs.
Proof. by split. Qed.
Lemma temp_set xs d v : machine xs -> word64 v -> d = 19 \/ d = 20 -> temp xs (xset xs d v).
Proof.
  intros Hm Hv Hd. split; [by apply xset_machine|]. intros n Hn H1 H2. apply xget_xset_ne; lia.
Qed.
Lemma temp_trans a b c : temp a b -> temp b c -> temp a c.
Proof. intros [_ H1] [Hm H2]. split; [done|]. intros n Hn N1 N2. by rewrite H2, H1. Qed.

Lemma add_split x lo hi : add64 (add64 x lo) (hi * 4096) = add64 x (hi * 4096 + lo).
Proof. rewrite <- add64_assoc. unfold add64 at 2. rewrite add64_wrap_r. f_equal. lia. Qed.

(** [add d, s, imm]: x20 may hold the immediate. *)
Lemma add_leads d s imm st st' ms :
  emitAddImmediate d s imm 20 st = Done st' -> settled st' -> 0 <= num32bitLiterals st.1 -> pooled ms ->
  0 <= d < 31 -> 0 <= s < 31 -> s <> 20 -> 0 <= imm < 2 ^ 32 -> machine (vx ms) -> vpc ms = st.2 ->
  exists xs1, (xs1 = vx ms \/ xs1 = xset (vx ms) 20 (sext32 imm)) /\
    leads ms (mkVec st'.2 (xset xs1 d (add64 (xget (vx ms) s) (sext32 imm))) (vv ms) (fpcr ms) (zf ms) (vmem ms)).
Proof.
  intros H Hs H0 Hpool Hd Hsr Hs20 Hi Hm Hp. revert H. unfold emitAddImmediate. cbv zeta. change (Z.shiftl 1 24) with (2 ^ 24).
  destruct (Z.ltb_spec imm (2 ^ 24)) as [Hlt|Hge].
  - intros H. exists (vx ms). split; [by left|]. rewrite sext32_small by lia.
    assert (Elo : Z.land imm (2 ^ 12 - 1) = imm mod 4096) by (change (2 ^ 12 - 1) with (Z.ones 12); by rewrite Z.land_ones by lia).
    assert (Ehi : Z.shiftr imm 12 = imm / 4096) by (by rewrite Z.shiftr_div_pow2 by lia). rewrite Elo, Ehi in H. clear Elo Ehi.
    assert (Hlo : 0 <= imm mod 4096 < 4096) by plia. assert (Hhi : 0 <= imm / 4096 < 4096) by plia.
    assert (Ei : imm = imm / 4096 * 4096 + imm mod 4096) by plia.
    set (lo := imm mod 4096) in *. set (hi := imm / 4096) in *. clearbody lo hi. subst imm.
    destruct (Z.eqb_spec lo 0) as [->|]; cbn [negb andb] in H; [|destruct (Z.eqb_spec hi 0) as [->|]; cbn [negb andb] in H].
    + apply (emit_leads _ _ _ _ _ _ H Hs (encodes_add_hi d Hd s hi Hsr Hhi) Hp). apply emit_inv in H as (c & _ & ->).
      cbn [vec_exec exec mbind outcome_bind fst snd]. by rewrite Z.add_0_r, Hp.
    + apply (emit_leads _ _ _ _ _ _ H Hs (encodes_add_lo d Hd s lo Hsr Hlo) Hp). apply emit_inv in H as (c & _ & ->).
      cbn [vec_exec exec mbind outcome_bind fst snd]. by rewrite Hp.
    + apply bind_Done in H as (st1 & E1 & E2). assert (Hs1 : settled st1).
      { refine (proj2 (proj2 (flows_emit _ st1 st' _ E2)) Hs). by apply emit_inv in E1 as (c & _ & ->). }
      assert (Hk : st1.2 = st.2 + 4) by (by apply emit_inv in E1 as (c & _ & ->)).
      eapply leads_trans.
      { apply (emit_leads _ _ _ _ _ (set_x st1.2 d (add64 (xget (vx ms) s) lo) ms) E1 Hs1 (encodes_add_lo d Hd s lo Hsr Hlo) Hp).
        cbn [vec_exec exec mbind outcome_bind]. unfold set_x. by rewrite Hk, Hp. }
      apply (emit_leads _ _ _ _ _ _ E2 Hs (encodes_add_hi d Hd d hi Hd Hhi)); [done|]. apply emit_inv in E2 as (c & _ & ->).
      cbn [vec_exec exec mbind outcome_bind fst snd set_x vx vv fpcr zf vmem vpc]. rewrite xset_xset, xget_xset by (done || lia).
      by rewrite add_split.
  - intros H. apply bind_Done in H as (st1 & E1 & E2). exists (xset (vx ms) 20 (sext32 imm)). split; [by right|].
    destruct (flows_mov _ _ _ _ H0 E1) as (_ & H1 & _). destruct (flows_emit _ _ _ H1 E2) as (_ & _ & F).
    pose proof (mov_leads 20 imm st st1 ms E1 (F Hs) H0 Hpool ltac:(lia) Hi Hm Hp) as L1.
    eapply leads_trans; [exact L1|].
    apply (emit_leads _ _ _ _ _ _ E2 Hs (encodes_add d s 20 ltac:(lia) ltac:(lia) ltac:(lia))); [done|].
    apply emit_inv in E2 as (c & _ & ->). cbn [vec_exec exec mbind outcome_bind fst snd set_x vx vv fpcr zf vmem vpc].
    rewrite xget_xset by (done || lia). rewrite xget_xset_ne by lia. rewrite shl64_0 by apply sext32_range. done.
Qed.

(** Into x20 itself. *)
Lemma add_tmp_leads s imm st st' ms :
  emitAddImmediate 20 s imm 20 st = Done st' -> settled st' -> 0 <= num32bitLiterals st.1 -> pooled ms ->
  0 <= s < 31 -> s <> 20 -> 0 <= imm < 2 ^ 32 -> machine (vx ms) -> vpc ms = st.2 ->
  leads ms (set_x st'.2 20 (add64 (xget (vx ms) s) (sext32 imm)) ms).
Proof.
  intros H Hs H0 Hpool Hsr Hs20 Hi Hm Hp.
  destruct (add_leads 20 s imm st st' ms H Hs H0 Hpool ltac:(lia) Hsr Hs20 Hi Hm Hp) as (xs1 & Hx & L).
  unfold set_x. destruct Hx as [->| ->]; [exact L|]. rewrite xset_xset in L. exact L.
Qed.

(** *** Memory operands *)

Context (Hbase : 0 <= base /\ base + 2 ^ 21 <= 2 ^ 64).

Lemma address_value a : 0 <= a -> a + 8 <= 2 ^ 21 -> wrap 64 (base + a) - base = a.
Proof. intros H1 H2. rewrite wrap_small by (unfold in_range; lia). lia. Qed.

Lemma masked_address x size : 0 <= x -> level size -> 0 <= Z.land x (size - 8) /\ Z.land x (size - 8) + 8 <= 2 ^ 21 /\ word64 (Z.land x (size - 8)).
Proof.
  clear Hbase. intros Hx Hl. destruct (level_pow size Hl) as (k & Hk & ->).
  assert (H3 : 2 ^ 3 < 2 ^ k <= 2 ^ 21) by (split; [apply Z.pow_lt_mono_r|apply Z.pow_le_mono_r]; lia).
  assert (H : 0 <= Z.land x (2 ^ k - 8) <= 2 ^ k - 8).
  { split; [apply Z.land_nonneg; lia|]. apply Z.ldiff_le; [lia|]. apply Z.bits_inj'. intros i Hi.
    rewrite Z.ldiff_spec, Z.land_spec, Z.bits_0. by destruct (Z.testbit x i), (Z.testbit (2 ^ k - 8) i). }
  unfold in_range. lia.
Qed.

Section operand.
Context (ms : vec_state) (Hm : machine (vx ms)) (H2 : xget (vx ms) 2 = base).

(** The last word: [ldr x20, [x2, x20]]. *)
Lemma ldr_leads a v st st' pc : settled st' -> word64 a -> 0 <= a -> a + 8 <= 2 ^ 21 -> read_le (vmem ms) a 8 = Done v ->
  emit (Z.lor (Z.lor ARMV8A.LDR_64_REG 20) (Z.shiftl 20 16)) st = Done st' -> pc = st.2 ->
  leads (set_x pc 20 a ms) (set_x st'.2 20 v ms).
Proof.
  intros Hs Wa Ha1 Ha2 Hv E Hpc. apply (emit_leads _ _ _ _ _ _ E Hs (encodes_ldr 20 20 ltac:(lia) ltac:(lia))); [done|].
  apply emit_inv in E as (c & _ & ->). cbn [vec_exec exec_vec set_x vx vmem fst snd vpc vv fpcr zf].
  rewrite xget_xset by (done || lia). rewrite xget_xset_ne, H2, shl64_0 by (done || lia). rewrite address_value, Hv by done.
  cbn [mbind outcome_bind]. unfold set_x. cbn [vx vmem vv fpcr zf]. by rewrite xset_xset, Hpc.
Qed.

Definition operand_address (d s : Z) (instr : Instruction) : Z :=
  if negb (s =? d) then Z.land (wrap 32 (wrap 32 (xget (vx ms) s) + wrap 32 (sext32 (getImm32 instr)))) (mem_size instr - 8)
  else Z.land (wrap 32 (wrap 32 0 + wrap 32 (sext32 (getImm32 instr)))) kScratchpadL3Mask.

Lemma load_leads d s instr v st st' :
  emitMemLoad 20 d s instr st = Done st' -> settled st' -> 0 <= num32bitLiterals st.1 -> pooled ms ->
  0 <= s < 31 -> s <> 20 -> 0 <= getImm32 instr < 2 ^ 32 -> vpc ms = st.2 ->
  read_le (vmem ms) (operand_address d s instr) 8 = Done v -> leads ms (set_x st'.2 20 v ms).
Proof.
  intros H Hs H0 Hpool Hsr Hs20 Hi Hp. revert H. unfold emitMemLoad, operand_address. cbv zeta. set (imm := getImm32 instr) in *.
  pose proof (mem_size_level instr) as Hl. pose proof (xget_word (vx ms) s Hm ltac:(lia)) as Ws.
  destruct (negb (s =? d)).
  - intros H Hv. apply bind_Done in H as (st1 & E1 & E2). set (size := mem_size instr) in *.
    destruct (land_level imm size) as [Hi1 Hi2]; [exact Hl|]. destruct (negb (Z.land imm (size - 1) =? 0)) eqn:Ez.
    + apply bind_Done in E1 as (st2 & E0 & E1). destruct (flows_add _ _ _ _ _ _ H0 E0) as (_ & N1 & F1).
      destruct (flows_emit _ _ _ N1 E1) as (_ & N2 & F2). destruct (flows_emit _ _ _ N2 E2) as (_ & _ & F3).
      pose proof (F3 Hs) as S1. pose proof (F2 S1) as S2.
      rewrite <- (address_load _ imm size Hl Hi) in Hv. set (x := add64 _ _) in Hv.
      assert (Wx : word64 x) by apply add64_range. destruct (masked_address x size (proj1 Wx) Hl) as (A1 & A2 & A3).
      eapply leads_trans; [by apply (add_tmp_leads s _ st st2 ms E0 S2 H0 Hpool Hsr Hs20 ltac:(lia) Hm Hp)|].
      eapply leads_trans; [|by apply (ldr_leads (Z.land x (size - 8)) v st1 st' st1.2 Hs A3 A1 A2 Hv E2)].
      apply (emit_leads _ _ _ _ _ _ E1 S1 (encodes_and 20 20 size ltac:(lia) ltac:(lia) Hl)); [done|].
      apply emit_inv in E1 as (c & _ & ->). cbn [vec_exec exec_vec set_x vx vmem fst snd vpc vv fpcr zf].
      rewrite xget_xset by (done || lia). by rewrite xset_xset.
    + apply negb_false_iff, Z.eqb_eq in Ez. destruct (flows_emit _ _ _ H0 E1) as (_ & N1 & F1).
      destruct (flows_emit _ _ _ N1 E2) as (_ & _ & F2). pose proof (F2 Hs) as S1.
      rewrite <- (address_zero _ imm size Hl Hi Ez) in Hv. destruct (masked_address (xget (vx ms) s) size (proj1 Ws) Hl) as (A1 & A2 & A3).
      eapply leads_trans; [|by apply (ldr_leads _ v st1 st' st1.2 Hs A3 A1 A2 Hv E2)].
      apply (emit_leads _ _ _ _ _ _ E1 S1 (encodes_and 20 s size ltac:(lia) ltac:(lia) Hl) Hp).
      apply emit_inv in E1 as (c & _ & ->). cbn [vec_exec exec_vec set_x vx vmem fst snd vpc vv fpcr zf]. by rewrite Hp.
  - intros H Hv. apply bind_Done in H as (st1 & E1 & E2). destruct (flows_mov _ _ _ _ H0 E1) as (_ & N1 & F1).
    destruct (flows_emit _ _ _ N1 E2) as (_ & _ & F2). pose proof (F2 Hs) as S1. destruct (address_const imm Hi) as [Ea Hc].
    assert (Hl3 : level L3) by (unfold level; auto).
    rewrite <- Ea in Hv. set (c3 := Z.shiftr _ 3) in *. clearbody c3.
    eapply leads_trans; [by apply (mov_leads 20 c3 st st1 ms E1 S1 H0 Hpool ltac:(lia) ltac:(lia) Hm Hp)|].
    rewrite sext32_small by lia.
    apply (emit_leads _ _ _ _ _ _ E2 Hs (encodes_ldr_lsl3 20 20 ltac:(lia) ltac:(lia))); [done|].
    apply emit_inv in E2 as (c & _ & ->). cbn [vec_exec exec_vec set_x vx vmem fst snd vpc vv fpcr zf].
    rewrite xget_xset by (done || lia). rewrite xget_xset_ne, H2 by lia.
    assert (A : 0 <= shl64 c3 3 /\ shl64 c3 3 + 8 <= 2 ^ 21).
    { unfold shl64. rewrite Z.shiftl_mul_pow2 by lia. rewrite wrap_small by (unfold in_range; lia). lia. }
    rewrite address_value, Hv by apply A. cbn [mbind outcome_bind]. unfold set_x. cbn [vx vmem vv fpcr zf]. by rewrite xset_xset.
Qed.

(** [sxtl; scvtf] of the two integers at an address, with a displacement that is not masked away. *)
Lemma load_fp_leads s instr l h st st' mode :
  emitMemLoadFP 28 s instr st = Done st' -> settled st' -> 0 <= num32bitLiterals st.1 -> pooled ms ->
  0 <= s < 31 -> s <> 20 -> 0 <= getImm32 instr < 2 ^ 32 -> vpc ms = st.2 -> Bytes (vmem ms) -> length (vv ms) = 32%nat ->
  Z.land (getImm32 instr) (mem_size instr - 1) <> 0 -> fpcr_rounding (fpcr ms) = Done mode ->
  let a := Z.land (wrap 32 (wrap 32 (xget (vx ms) s) + wrap 32 (sext32 (getImm32 instr)))) (mem_size instr - 8) in
  a + 8 <= Z.of_nat (length (vmem ms)) -> read_le (vmem ms) a 4 = Done l -> read_le (vmem ms) (a + 4) 4 = Done h ->
  exists xs1, temp (vx ms) xs1 /\
    leads ms (mkVec st'.2 xs1 (vset (vv ms) 28 (mkFloat (of_int32 l) (of_int32 h))) (fpcr ms) (zf ms) (vmem ms)).
Proof.
  intros H Hs H0 Hpool Hsr Hs20 Hi Hp Hb Hvl Hz Hmode. revert H. unfold emitMemLoadFP. cbv zeta. set (imm := getImm32 instr) in *.
  pose proof (mem_size_level instr) as Hl. set (size := mem_size instr) in *. rewrite <- (address_load _ imm size Hl Hi).
  destruct (land_level imm size) as [Hi1 Hi2]; [exact Hl|]. destruct (Z.eqb_spec (Z.land imm (size - 1)) 0) as [|_]; [done|]. cbn [negb].
  intros H Ha Hrl Hrh. apply bind_Done in H as (st1 & E1 & H). apply bind_Done in H as (st2 & E2 & H). apply bind_Done in H as (st3 & E3 & H).
  apply bind_Done in H as (st4 & E4 & E5).
  destruct (flows_add _ _ _ _ _ _ H0 E1) as (_ & N1 & F1). destruct (flows_emit _ _ _ N1 E2) as (_ & N2 & F2).
  destruct (flows_emit _ _ _ N2 E3) as (_ & N3 & F3). destruct (flows_emit _ _ _ N3 E4) as (_ & N4 & F4).
  destruct (flows_emit _ _ _ N4 E5) as (_ & _ & F5).
  pose proof (F5 Hs) as S4. pose proof (F4 S4) as S3. pose proof (F3 S3) as S2. pose proof (F2 S2) as S1.
  set (x := add64 _ _) in *. assert (Wx : word64 x) by apply add64_range.
  destruct (masked_address x size (proj1 Wx) Hl) as (A1 & A2 & A3). set (a := Z.land x (size - 8)) in *.
  destruct (add_leads 19 s _ st st1 ms E1 S1 H0 Hpool ltac:(lia) Hsr Hs20 ltac:(lia) Hm Hp) as (xs1 & Hx1 & L1). fold x in L1.
  assert (T1 : temp (vx ms) xs1) by (destruct Hx1 as [->| ->]; [by apply temp_refl|apply temp_set; [done|apply sext32_range|by right]]).
  destruct T1 as [M1 T1]. exists (xset xs1 19 a). split.
  { eapply temp_trans; [by split|]. apply temp_set; [done|done|by left]. }
  pose proof (read_le_range (vmem ms) a 8 64 Hb A1 ltac:(lia) eq_refl) as Hy. apply returns_Done in Hy as (y & Ey & Wy).
  destruct (read_halves _ _ _ Hb Ey) as [Y1 Y2]. rewrite Y1 in Hrl. injection Hrl as <-. rewrite Y2 in Hrh. injection Hrh as <-.
  eapply leads_trans; [exact L1|].
  assert (K2 : st2.2 = st1.2 + 4) by (by apply emit_inv in E2 as (c & _ & ->)).
  assert (K3 : st3.2 = st2.2 + 4) by (by apply emit_inv in E3 as (c & _ & ->)).
  assert (K4 : st4.2 = st3.2 + 4) by (by apply emit_inv in E4 as (c & _ & ->)).
  assert (K5 : st'.2 = st4.2 + 4) by (by apply emit_inv in E5 as (c & _ & ->)).
  eapply leads_trans.
  { apply (emit_leads _ _ _ _ _ (mkVec st2.2 (xset xs1 19 a) (vv ms) (fpcr ms) (zf ms) (vmem ms)) E2 S2 (encodes_and 19 19 size ltac:(lia) ltac:(lia) Hl)); [done|].
    cbn [vec_exec exec_vec vx vmem vpc vv fpcr zf]. rewrite xget_xset by (done || lia). by rewrite xset_xset, K2. }
  eapply leads_trans.
  { apply (emit_leads _ _ _ _ _ (mkVec st3.2 (xset xs1 19 a) (vset (vv ms) 28 (mkFloat y 0)) (fpcr ms) (zf ms) (vmem ms)) E3 S3 encodes_ldr_d); [done|].
    cbn [vec_exec exec_vec vx vmem vpc vv fpcr zf]. rewrite xget_xset by (done || lia). rewrite xget_xset_ne by lia.
    rewrite T1, H2, shl64_0 by (done || lia). rewrite address_value, Ey by done. cbn [mbind outcome_bind]. by rewrite K3. }
  assert (V : forall v, vget (vset (vv ms) 28 v) 28 = v) by (intros v; apply list_lookup_total_insert_eq; rewrite Hvl; lia).
  assert (VV : forall v w, vset (vset (vv ms) 28 v) 28 w = vset (vv ms) 28 w) by (intros v w; apply list_insert_insert_eq).
  eapply leads_trans.
  { apply (emit_leads _ _ _ _ _ (mkVec st4.2 (xset xs1 19 a) (vset (vv ms) 28 (mkFloat (sext32 (bits y 0 32)) (sext32 (bits y 32 32)))) (fpcr ms) (zf ms) (vmem ms)) E4 S4 encodes_sxtl); [done|].
    cbn [vec_exec exec_vec vx vmem vpc vv fpcr zf]. rewrite V, VV. by rewrite K4. }
  apply (emit_leads _ _ _ _ _ _ E5 Hs encodes_scvtf); [done|].
  cbn [vec_exec exec_vec vx vmem vpc vv fpcr zf]. rewrite Hmode. cbn [mbind outcome_bind]. rewrite V, VV. unfold lanes1. cbn [lo hi].
  by rewrite !scvtf_int32, K5.
Qed.
End operand.
End runs.
