(* ===== verification/JitVmSim.v ===== *)
(** * The handlers simulate the interpreter

    Each handler of src/src/jit_compiler_a64.cpp emits code that does to the machine's registers and memory
    what the interpreter of src/src/vm.cpp does to its state for the same instruction. *)

From stdpp Require Import list.
From S2P Require Import Prelude RandomX Float Bytecode BytecodeSafety BytecodeTermination BytecodeStale Footprint JitSchedule JitEquiv A64 JitDataset A64Vec JitEmit JitLayout JitWords JitValues JitVmRun.

(** ** The simulation relation *)

Section sim.
Context (C : list Z) (base : Z) (m : Z * Z) (K : Z -> Z).
Context (Hbase : 0 <= base /\ base + 2 ^ 21 <= 2 ^ 64) (Hmask : e_or_ok m.1 /\ e_or_ok m.2).

Definition scale_mask : Z := 0x80F0000000000000.
(** Registers that the code of the instructions leaves alone: the dataset, the iterations left, [ma] and [mx],
    a dataset address and the two scratchpad addresses; [K] is what they hold. *)
Definition kept : list Z := [1; 3; 9; 10; 16; 17].

(** The register allocation of static.S. *)
Record sim (x : xstate) (ms : vec_state) : Prop := mkSim {
  si_machine : machine (vx ms) /\ length (vv ms) = 32%nat;
  si_r : forall i, 0 <= i < 8 -> xget (vx ms) (int_reg i) = r (reg_ x) !!! Z.to_nat i;
  si_f : forall i, 0 <= i < 4 -> vget (vv ms) (16 + i) = f (reg_ x) !!! Z.to_nat i;
  si_e : forall i, 0 <= i < 4 -> vget (vv ms) (20 + i) = e (reg_ x) !!! Z.to_nat i;
  si_a : forall i, 0 <= i < 4 -> vget (vv ms) (24 + i) = a (reg_ x) !!! Z.to_nat i;
  si_base : xget (vx ms) 2 = base;
  si_masks : vget (vv ms) 29 = mkFloat e_and e_and /\ vget (vv ms) 30 = mkFloat m.1 m.2 /\
    vget (vv ms) 31 = mkFloat scale_mask scale_mask;
  si_mode : 0 <= last_rounding_mode_ x < 4 /\ fe_round x = rounding_of (last_rounding_mode_ x) /\
    xget (vx ms) 8 = last_rounding_mode_ x * 2 ^ 40 /\ fpcr ms = rbit64 (last_rounding_mode_ x * 2 ^ 40);
  si_mem : vmem ms = scratchpad_ x;
  si_pool : pooled C ms;
  si_keep : forall n, List.In n kept -> xget (vx ms) n = K n;
}.

Lemma sim_rounding x ms : sim x ms -> fpcr_rounding (fpcr ms) = Done (fe_round x).
Proof. intros H. destruct (si_mode _ _ H) as (Hm & -> & _ & ->). by apply fpcr_mode. Qed.

(** *** Registers *)

Lemma int_reg_range i : 0 <= i < 8 -> 4 <= int_reg i < 16 /\ int_reg i <> 8 /\ int_reg i <> 11.
Proof.
  intros H. assert (E : i = 0 \/ i = 1 \/ i = 2 \/ i = 3 \/ i = 4 \/ i = 5 \/ i = 6 \/ i = 7) by lia.
  by destruct E as [->|[->|[->|[->|[->|[->|[->| ->]]]]]]].
Qed.
Lemma int_reg_inj i j : 0 <= i < 8 -> 0 <= j < 8 -> int_reg i = int_reg j -> i = j.
Proof.
  intros Hi Hj E. unfold int_reg in E. assert (N : NoDup IntRegMap) by (apply (bool_decide_unpack _); by vm_compute).
  assert (H : Z.to_nat i = Z.to_nat j); [|lia]. eapply NoDup_lookup; [exact N| |];
    [apply list_lookup_lookup_total_lt; cbn; lia|]. rewrite E. apply list_lookup_lookup_total_lt. cbn. lia.
Qed.
Lemma int_reg_eqb i j : 0 <= i < 8 -> 0 <= j < 8 -> (int_reg i =? int_reg j) = (i =? j).
Proof.
  intros Hi Hj. apply Bool.eq_iff_eq_true. rewrite !Z.eqb_eq. split; [by apply int_reg_inj|by intros ->].
Qed.
Lemma literal_reg_cases j : 0 <= j < 12 -> let n := literal_regs !!! Z.to_nat j in 0 <= n < 31 /\ (n < 4 \/ n = 11 \/ 20 < n) /\ n <> 2.
Proof.
  intros H. assert (E : forallb (fun j => let n := literal_regs !!! Z.to_nat j in
    (0 <=? n) && (n <? 31) && ((n <? 4) || (n =? 11) || (20 <? n)) && negb (n =? 2)) (seqZ 0 12) = true) by reflexivity.
  rewrite forallb_forall in E. specialize (E j). cbv zeta in *. assert (Hin : List.In j (seqZ 0 12)) by (apply list_elem_of_In, elem_of_seqZ; lia).
  specialize (E Hin). set (n := literal_regs !!! Z.to_nat j) in *. clearbody n. blia.
Qed.

Lemma kept_range n : List.In n kept -> 0 <= n < 19 /\ (n < 4 \/ 8 < n < 11 \/ 15 < n).
Proof. cbn [kept List.In]. lia. Qed.

Lemma int_reg_kept i : 0 <= i < 8 -> ~ List.In (int_reg i) kept.
Proof.
  intros H. assert (E : i = 0 \/ i = 1 \/ i = 2 \/ i = 3 \/ i = 4 \/ i = 5 \/ i = 6 \/ i = 7) by lia.
  destruct E as [->|[->|[->|[->|[->|[->|[->| ->]]]]]]]; intros Hk; repeat (destruct Hk as [Hk|Hk]; [discriminate Hk|]); exact Hk.
Qed.

Lemma pooled_keep ms xs vs z k mem fp : pooled C ms ->
  (forall n, 0 <= n < 31 -> n < 4 \/ n = 11 \/ 20 < n -> xget xs n = xget (vx ms) n) -> (forall n, 0 <= n < 16 -> vget vs n = vget (vv ms) n) ->
  pooled C (mkVec k xs vs fp z mem).
Proof.
  clear K.
  intros [P1 P2] Hx Hv. constructor; cbn [vx vv].
  - intros j v Hj Hr. rewrite Hv by plia. by apply P1.
  - intros j v Hj Hr. destruct (literal_reg_cases j Hj) as (H1 & H2 & _). rewrite Hx by done. by apply P2.
Qed.

(** [&r[d]] changes. *)
Definition set_r (d : Z) (v : Z) (x : xstate) : xstate :=
  set_reg_file (mkRegisterFile (<[Z.to_nat d := v]> (r (reg_ x))) (f (reg_ x)) (e (reg_ x)) (a (reg_ x))) x.

Lemma sim_temp x ms xs1 k z : sim x ms -> temp (vx ms) xs1 -> sim x (mkVec k xs1 (vv ms) (fpcr ms) z (vmem ms)).
Proof.
  intros [[H1 H1'] H2 H3 H4 H5 H6 H7 H8 H9 H10 H11] [Hm Ht]. constructor; cbn [vx vv fpcr zf vmem vpc]; try done.
  - intros i Hi. pose proof (int_reg_range i Hi). rewrite Ht by lia. by apply H2.
  - rewrite Ht by lia. done.
  - rewrite Ht by lia. done.
  - apply (pooled_keep ms); [done| |done]. intros n Hn Hc. apply Ht; lia.
  - intros n Hk. pose proof (kept_range n Hk). rewrite Ht by lia. by apply H11.
Qed.

Lemma sim_set_r x ms d v k z : sim x ms -> length (r (reg_ x)) = 8%nat -> 0 <= d < 8 -> word64 v ->
  sim (set_r d v x) (mkVec k (xset (vx ms) (int_reg d) v) (vv ms) (fpcr ms) z (vmem ms)).
Proof.
  intros [[H1 H1'] H2 H3 H4 H5 H6 H7 H8 H9 H10 H11] Hl Hd Hv. pose proof (int_reg_range d Hd) as Hr.
  assert (Hn : forall n, 0 <= n < 31 -> n <> int_reg d -> xget (xset (vx ms) (int_reg d) v) n = xget (vx ms) n).
  { intros n Hn Hne. apply xget_xset_ne; lia. }
  constructor; cbn [vx vv fpcr zf vmem vpc set_r set_reg_file reg_ r f e a scratchpad_ last_rounding_mode_ fe_round]; try done.
  - split; [by apply xset_machine|done].
  - intros i Hi. destruct (Z.eq_dec i d) as [->|Hne].
    + rewrite xget_xset by (done || lia). rewrite list_lookup_total_insert_eq by lia. done.
    + rewrite list_lookup_total_insert_ne by lia. pose proof (int_reg_range i Hi). rewrite Hn; [by apply H2|lia|].
      intros E. by apply Hne, int_reg_inj.
  - rewrite Hn by lia. done.
  - rewrite Hn by lia. done.
  - apply (pooled_keep ms); [done| |done]. intros n Hn1 Hc. apply Hn; lia.
  - intros n Hk. pose proof (kept_range n Hk). pose proof (int_reg_kept d Hd). rewrite Hn; [by apply H11|lia|congruence].
Qed.

(** ** Steps of the interpreter *)

Lemma load_r x ibc i v : load_int x ibc (PR i) = Done v -> v = r (reg_ x) !!! i.
Proof.
  cbn [load_int]. intros [_ H]%at_index_Done. rewrite Nat2Z.id in H. symmetry. by apply list_lookup_total_correct.
Qed.
Lemma store_r x d v x' : 0 <= d -> store_int (PR (Z.to_nat d)) v x = Done x' -> x' = set_r d v x.
Proof.
  intros Hd. unfold store_int, set_at. destruct (_ <? _)%nat; [|done]. intros [= <-]. done.
Qed.

Lemma alu_inv op ibc x x' d : 0 <= d -> idst ibc = PR (Z.to_nat d) -> alu op ibc x = Done x' ->
  exists s, load_int x ibc (isrc ibc) = Done s /\ x' = set_r d (op (r (reg_ x) !!! Z.to_nat d) s) x.
Proof.
  intros Hd E H. unfold alu in H. rewrite E in H. apply bind_Done in H as (dv & E1 & H). apply bind_Done in H as (s & E2 & H).
  apply load_r in E1 as ->. apply store_r in H as ->; [|done]. by exists s.
Qed.
Lemma alu_mem_inv op ibc x x' d : 0 <= d -> idst ibc = PR (Z.to_nat d) -> alu_mem op ibc x = Done x' ->
  exists a s, getScratchpadAddress ibc x = Done a /\ load64 x a = Done s /\ x' = set_r d (op (r (reg_ x) !!! Z.to_nat d) s) x.
Proof.
  intros Hd E H. unfold alu_mem in H. rewrite E in H. apply bind_Done in H as (dv & E1 & H). apply bind_Done in H as (ad & E2 & H).
  apply bind_Done in H as (s & E3 & H). apply load_r in E1 as ->. apply store_r in H as ->; [|done]. by exists ad, s.
Qed.

(** ** Integer operations *)

(** The word [op d, n, m] computes [fn]. *)
Definition computes (op : Z) (fn : Z -> Z -> Z) : Prop :=
  (forall a b, word64 a -> word64 b -> word64 (fn a b)) /\
  forall d n k, 0 <= d < 32 -> 0 <= n < 32 -> 0 <= k < 32 -> exists i, encodes (op3 op d n k) i /\
    forall ms, machine (vx ms) ->
      vec_exec C base i ms = Done (set_x (vpc ms + 4) d (fn (xget (vx ms) n) (xget (vx ms) k)) ms).

Lemma computes_add : computes ARMV8A.ADD add64.
Proof.
  split; [auto with word|]. intros d n k Hd Hn Hk. eexists. split; [by apply encodes_add|]. intros ms Hm.
  cbn [vec_exec exec mbind outcome_bind]. rewrite shl64_0 by (by apply xget_word). done.
Qed.
Lemma computes_sub : computes ARMV8A.SUB sub64.
Proof.
  split; [auto with word|]. intros d n k Hd Hn Hk. eexists. split; [by apply encodes_sub|]. intros ms Hm.
  cbn [vec_exec exec mbind outcome_bind]. rewrite shl64_0 by (by apply xget_word). done.
Qed.
Lemma computes_eor : computes ARMV8A.EOR Z.lxor.
Proof.
  split; [intros; apply lxor_range; auto with word|]. intros d n k Hd Hn Hk. eexists. split; [by apply encodes_eor|]. intros ms Hm.
  cbn [vec_exec exec mbind outcome_bind]. rewrite shl64_0 by (by apply xget_word). done.
Qed.
Lemma computes_mul : computes ARMV8A.MUL mul64.
Proof.
  split; [auto with word|]. intros d n k Hd Hn Hk. eexists. split; [by apply encodes_mul|]. intros ms Hm.
  cbn [vec_exec exec mbind outcome_bind]. change (xget (vx ms) 31) with 0. by rewrite mul_madd.
Qed.
Lemma computes_umulh : computes ARMV8A.UMULH mulh.
Proof. split; [auto with word|]. intros d n k Hd Hn Hk. eexists. split; [by apply encodes_umulh|]. done. Qed.
Lemma computes_smulh : computes ARMV8A.SMULH smulh.
Proof. split; [auto with word|]. intros d n k Hd Hn Hk. eexists. split; [by apply encodes_smulh|]. done. Qed.
Lemma computes_ror : computes ARMV8A.ROR (fun a b => rotr64 a (b mod 64)).
Proof. split; [auto with word|]. intros d n k Hd Hn Hk. eexists. split; [by apply encodes_ror|]. done. Qed.

(** The state after the code of an instruction. *)
Definition reached (x' : xstate) (st' : emission) (ms : vec_state) : Prop :=
  exists ms', leads C base ms ms' /\ vpc ms' = st'.2 /\ sim x' ms'.

Lemma reached_trans x' st' ms ms1 : leads C base ms ms1 -> reached x' st' ms1 -> reached x' st' ms.
Proof. intros L (ms' & L' & H). exists ms'. split; [by eapply leads_trans|done]. Qed.

(** [reg_changed_offset[dst] = k] at the end of a handler. *)
Lemma changed_inv d st st' : reg_changed d st = Done st' -> settled C st' -> settled C st /\ st'.2 = st.2.
Proof. destruct st as [j k]. intros [= <-] [[A1 A2] A3 A4 A5]. split; [by constructor|done]. Qed.
Lemma reached_changed x' d st st' ms : reg_changed d st = Done st' -> reached x' st ms -> reached x' st' ms.
Proof. destruct st as [j k]. by intros [= <-]. Qed.

(** A word that sets the destination. *)
Lemma set_word w i d v st st' x ms :
  emit w st = Done st' -> settled C st' -> encodes w i -> sim x ms -> length (r (reg_ x)) = 8%nat -> vpc ms = st.2 ->
  0 <= d < 8 -> word64 v -> vec_exec C base i ms = Done (set_x (vpc ms + 4) (int_reg d) v ms) -> reached (set_r d v x) st' ms.
Proof.
  intros E1 Hs Hw Hsim Hx Hp Hd Hv He. destruct (emit_leads C base _ _ _ _ _ _ E1 Hs Hw Hp He) as (L & Ek & _).
  eexists. split; [exact L|]. split; [cbn; lia|]. by apply sim_set_r.
Qed.

Lemma op_word op fn d n k st st' x ms :
  computes op fn -> emit (op3 op (int_reg d) n k) st = Done st' -> settled C st' ->
  sim x ms -> length (r (reg_ x)) = 8%nat -> vpc ms = st.2 -> 0 <= d < 8 -> 0 <= n < 32 -> 0 <= k < 32 ->
  reached (set_r d (fn (xget (vx ms) n) (xget (vx ms) k)) x) st' ms.
Proof.
  intros [Hf Hc] E1 Hs Hsim Hx Hp Hd Hn Hk. pose proof (int_reg_range d Hd).
  destruct (Hc (int_reg d) n k) as (i & Hi & He); [lia|lia|lia|]. destruct (si_machine _ _ Hsim) as [Hm _].
  eapply set_word; [exact E1|done|exact Hi|done|done|done|done| |by apply He]. apply Hf; by apply xget_word.
Qed.

Lemma set_r_set_r d v w x : set_r d w (set_r d v x) = set_r d w x.
Proof. unfold set_r, set_reg_file. cbn. by rewrite list_insert_insert_eq. Qed.
Lemma set_r_length d v x : length (r (reg_ (set_r d v x))) = length (r (reg_ x)).
Proof. cbn. by rewrite length_insert. Qed.
Lemma set_r_lookup d v x : length (r (reg_ x)) = 8%nat -> 0 <= d < 8 -> r (reg_ (set_r d v x)) !!! Z.to_nat d = v.
Proof. intros Hl Hd. cbn. apply list_lookup_total_insert_eq. lia. Qed.

(** [add dst, dst, imm]. *)
Lemma add_dest d imm st st' x ms :
  emitAddImmediate (int_reg d) (int_reg d) imm 20 st = Done st' -> settled C st' -> 0 <= num32bitLiterals st.1 ->
  sim x ms -> length (r (reg_ x)) = 8%nat -> vpc ms = st.2 -> 0 <= d < 8 -> 0 <= imm < 2 ^ 32 ->
  reached (set_r d (add64 (r (reg_ x) !!! Z.to_nat d) (sext32 imm)) x) st' ms.
Proof.
  intros E Hs H0 Hsim Hl Hp Hd Hi. pose proof (int_reg_range d Hd). destruct (si_machine _ _ Hsim) as [Hm _].
  destruct (add_leads C base _ _ _ _ _ ms E Hs H0 (si_pool _ _ Hsim) ltac:(lia) ltac:(lia) ltac:(lia) Hi Hm Hp) as (xs1 & Hx1 & L).
  assert (T : temp (vx ms) xs1).
  { destruct Hx1 as [->| ->]; [by apply temp_refl|apply temp_set; [done|apply sext32_range|by right]]. }
  rewrite (si_r _ _ Hsim _ Hd) in L. eexists. split; [exact L|]. split; [done|].
  apply (sim_set_r _ (mkVec st'.2 xs1 (vv ms) (fpcr ms) (zf ms) (vmem ms))); [by apply sim_temp|done|done|apply add64_range].
Qed.

(** A value in x20, then [op dst, dst, x20]. *)
Lemma tmp_word op fn d v st st' x ms :
  computes op fn -> emit (op3 op (int_reg d) (int_reg d) 20) st = Done st' -> settled C st' ->
  sim x ms -> length (r (reg_ x)) = 8%nat -> word64 v -> 0 <= d < 8 ->
  reached (set_r d (fn (r (reg_ x) !!! Z.to_nat d) v) x) st' (set_x st.2 20 v ms).
Proof.
  intros Hc E Hs Hsim Hl Hv Hd. pose proof (int_reg_range d Hd). destruct (si_machine _ _ Hsim) as [Hm _].
  assert (S1 : sim x (set_x st.2 20 v ms)) by (apply sim_temp; [done|apply temp_set; [done|done|by right]]).
  pose proof (op_word op fn d (int_reg d) 20 st st' x (set_x st.2 20 v ms) Hc E Hs S1 Hl eq_refl Hd ltac:(lia) ltac:(lia)) as G.
  rewrite (si_r _ _ S1 _ Hd) in G. cbn [set_x vx] in G. by rewrite xget_xset in G by (done || lia).
Qed.

(** ** Integer handlers *)

(** Before an instruction: literals counted, words aligned, RandomX v1. *)
Definition ready_to_emit (st : emission) : Prop :=
  0 <= num32bitLiterals st.1 /\ aligned st /\ Z.land (flags st.1) RANDOMX_FLAG_V2 = 0.

Definition simulates (instr : Instruction) (h : emitter_fn) : Prop := forall st st' x x' ms,
  h instr st = Done st' -> settled C st' -> ready_to_emit st -> sim x ms -> x_wf x -> vpc ms = st.2 ->
  exec1 m (lower 0 instr) x = Done x' -> reached x' st' ms.

(** One step that does not branch, without the program counter. *)
Lemma exec1_inv g ibc x x' : (forall st, execute_one m ibc 0 st = (st ← g st; Done (0, st))) -> exec1 m ibc x = Done x' -> g x = Done x'.
Proof.
  intros E H. unfold exec1 in H. rewrite E in H. apply bind_Done in H as ([p x1] & H & Ex).
  apply bind_Done in H as (x2 & H & Ey). injection Ey as <- <-. by injection Ex as <-.
Qed.

Section instruction.
Context (instr : Instruction) (Hn : normal instr) (Hwf : instruction_wf instr).

Let Hd : 0 <= dst instr < 8 := proj1 Hn.
Let Hsr : 0 <= src instr < 8 := proj2 Hn.
Lemma imm_range : 0 <= getImm32 instr < 2 ^ 32.
Proof. by destruct Hwf as (_ & _ & _ & _ & H). Qed.
Lemma reg8_dst : reg8 (dst instr) = Z.to_nat (dst instr).
Proof. by apply reg8_normal. Qed.
Lemma reg8_src : reg8 (src instr) = Z.to_nat (src instr).
Proof. by apply reg8_normal. Qed.
Lemma same_reg : bool_decide (PR (reg8 (src instr)) = PR (reg8 (dst instr))) = (src instr =? dst instr).
Proof.
  rewrite reg8_dst, reg8_src. apply Bool.eq_iff_eq_true. rewrite bool_decide_eq_true, Z.eqb_eq. split; [intros [= E]; lia|by intros ->].
Qed.

(** The slot of an instruction of a given type. *)
Ltac slot E := unfold lower; rewrite E; reflexivity.
(** The facts every handler needs. *)
Ltac enter :=
  intros st st' x x' ms H Hs (H0 & Hal & Hfl) Hsim Hx Hp He; pose proof imm_range as Hi; destruct (xw_r _ Hx) as [Hl Hw];
  pose proof (int_reg_range _ Hd) as Rd; pose proof (int_reg_range _ Hsr) as Rs; destruct (si_machine _ _ Hsim) as [Hm Hv32];
  pose proof (si_r _ _ Hsim _ Hd) as Vd; pose proof (si_r _ _ Hsim _ Hsr) as Vs.

Lemma simulates_IADD_RS : type_of instr = IADD_RS -> simulates instr h_IADD_RS.
Proof.
  intros Ety. enter. assert (El : lower 0 instr = mkIBC (PR (reg8 (dst instr))) (PR (reg8 (src instr)))
    (if negb (reg8 (dst instr) =? 5)%nat then 0 else signExtend2sCompl (getImm32 instr)) IADD_RS (wrap 16 (getModShift instr)) 0) by slot Ety.
  rewrite El in He. eapply exec1_inv in He; [|intros ?; reflexivity]. 
  apply (alu_inv _ _ _ _ (dst instr)) in He as (s & Es & ->); [|lia|cbn [idst]; by rewrite reg8_dst]. cbn [isrc] in Es.
  apply load_r in Es as ->. rewrite reg8_src. cbn [shift imm].
  pose proof (modshift_range instr) as Hsh. rewrite (wrap_small 16) by (unfold in_range; lia).
  unfold h_IADD_RS in H. cbv zeta in H. apply bind_Done in H as (st1 & E1 & H). apply bind_Done in H as (st2 & E2 & E3).
  destruct (changed_inv _ _ _ E3 Hs) as [S2 _]. apply (reached_changed _ _ _ _ _ E3). rewrite <- Vd, <- Vs.
  pose proof (encodes_add_shift (int_reg (dst instr)) (int_reg (dst instr)) (int_reg (src instr)) ltac:(lia) ltac:(lia) ltac:(lia) (getModShift instr) ltac:(lia)) as W.
  set (v1 := shl64 (xget (vx ms) (int_reg (src instr))) (getModShift instr)).
  assert (E5 : (reg8 (dst instr) =? 5)%nat = (dst instr =? 5)).
  { rewrite reg8_dst. apply Bool.eq_iff_eq_true. rewrite Nat.eqb_eq, Z.eqb_eq. lia. }
  rewrite E5. clear E5. destruct (dst instr =? 5); cbn [negb].
  - destruct (flows_emit C _ _ _ H0 E1) as (_ & N1 & _). destruct (flows_add C _ _ _ _ _ _ N1 E2) as (_ & _ & F2).
    destruct (set_word _ _ (dst instr) (add64 (xget (vx ms) (int_reg (dst instr))) v1) st st1 x ms E1 (F2 S2) W Hsim Hl Hp Hd (add64_range _ _) eq_refl) as (ms1 & L1 & K1 & Sim1).
    eapply reached_trans; [exact L1|].
    pose proof (add_dest _ _ _ _ _ ms1 E2 S2 N1 Sim1 ltac:(by rewrite set_r_length) K1 Hd Hi) as G.
    rewrite set_r_lookup, set_r_set_r, <- add64_assoc in G by done. exact G.
  - injection E2 as <-. replace (add64 v1 0) with v1 by (unfold add64; rewrite Z.add_0_r, wrap_small; [done|apply shl64_range]).
    eapply set_word; [exact E1|done|exact W|done|done|done|done|apply add64_range|done].
Qed.

(** The operand address of the interpreter. *)
Lemma mem_address x ms ibc ad : sim x ms -> x_wf x ->
  (isrc ibc, memMask ibc) = (if negb (src instr =? dst instr) then (PR (Z.to_nat (src instr)), mem_level instr) else (PZero, kScratchpadL3Mask)) ->
  imm ibc = sext32 (getImm32 instr) -> getScratchpadAddress ibc x = Done ad ->
  ad = operand_address ms (int_reg (dst instr)) (int_reg (src instr)) instr.
Proof.
  intros Hsim Hx Hib Him H. unfold getScratchpadAddress in H. apply bind_Done in H as (s & Es & H). injection H as <-. rewrite Him.
  unfold operand_address. rewrite int_reg_eqb by done. destruct (negb (src instr =? dst instr)); injection Hib as Ei Em; rewrite Ei in Es; rewrite Em.
  - apply load_r in Es as ->. rewrite (si_r _ _ Hsim _ Hsr). f_equal. unfold mem_level, mem_size. by destruct (negb _).
  - injection Es as <-. done.
Qed.

Lemma simulates_mem op fn h ty : computes op fn -> h = mem_handler op ->
  type_of instr = ty -> lower 0 instr = live (compile_mem_op ibc_init instr (PR (reg8 (dst instr))) (PR (reg8 (src instr))) ty (signExtend2sCompl (getImm32 instr))) ->
  (forall ibc st, type ibc = ty -> execute_one m (live ibc) 0 st = (st ← alu_mem fn ibc st; Done (0, st))) ->
  simulates instr h.
Proof.
  intros Hc -> Ety El Hex. enter. rewrite El in He. set (ibc := compile_mem_op _ _ _ _ _ _) in *.
  assert (Hty : type ibc = ty) by (unfold ibc, compile_mem_op; by destruct (negb _)).
  eapply exec1_inv in He; [|intros ?; by apply Hex].
  assert (Hib : idst ibc = PR (Z.to_nat (dst instr)) /\ (isrc ibc, memMask ibc) = (if negb (src instr =? dst instr) then (PR (Z.to_nat (src instr)), mem_level instr) else (PZero, kScratchpadL3Mask)) /\
    imm ibc = sext32 (getImm32 instr)).
  { unfold ibc, compile_mem_op. rewrite same_reg, reg8_dst, reg8_src. by destruct (negb (src instr =? dst instr)). }
  destruct Hib as (H1 & H2 & H3). apply (alu_mem_inv _ _ _ _ (dst instr)) in He as (ad & v & Ha & Hv & ->); [|lia|done].
  apply (mem_address x ms) in Ha as ->; [|done|done|done|done]. unfold load64 in Hv. rewrite <- (si_mem _ _ Hsim) in Hv.
  unfold mem_handler in H. cbv zeta in H. apply bind_Done in H as (st1 & E1 & H). apply bind_Done in H as (st2 & E2 & E3).
  destruct (changed_inv _ _ _ E3 Hs) as [S2 _]. apply (reached_changed _ _ _ _ _ E3).
  destruct (flows_load C _ _ _ _ _ _ H0 E1) as (_ & N1 & _). destruct (flows_emit C _ _ _ N1 E2) as (_ & _ & F2).
  pose proof (load_leads C base Hbase ms Hm (si_base _ _ Hsim) _ _ _ _ _ _ E1 (F2 S2) H0 (si_pool _ _ Hsim) ltac:(lia) ltac:(lia) Hi Hp Hv) as L.
  eapply reached_trans; [exact L|]. eapply tmp_word; [done|exact E2|done|done|done| |done].
  pose proof (xw_mem _ Hx) as [_ Hb]. rewrite (si_mem _ _ Hsim) in Hv. unfold read_le in Hv. apply bind_Done in Hv as (bs & Eb & Hv). injection Hv as <-.
  pose proof (read_bytes_Done _ _ _ _ Eb) as Hbl. assert (Hbb : Bytes bs).
  { unfold read_bytes in Eb. destruct (_ && _); [|done]. injection Eb as <-. by apply Forall_take, Forall_drop. }
  pose proof (of_le_range bs Hbb) as Hr. by rewrite Hbl in Hr.
Qed.

(** The register forms: the source register, or an immediate [im] when it is the destination. *)
Lemma alu_slot ty im : lower 0 instr = live (compile_alu_reg ibc_init (PR (reg8 (dst instr))) (PR (reg8 (src instr))) ty im) ->
  forall fn, (forall ibc st, type ibc = ty -> execute_one m (live ibc) 0 st = (st ← alu fn ibc st; Done (0, st))) ->
  forall x x', exec1 m (lower 0 instr) x = Done x' ->
  x' = set_r (dst instr) (fn (r (reg_ x) !!! Z.to_nat (dst instr))
    (if src instr =? dst instr then im else r (reg_ x) !!! Z.to_nat (src instr))) x.
Proof.
  intros El fn Hex x x' He. rewrite El in He. set (ibc := compile_alu_reg _ _ _ _ _) in *.
  assert (Hty : type ibc = ty) by (unfold ibc, compile_alu_reg; by destruct (negb _)).
  eapply exec1_inv in He; [|intros ?; by apply Hex].
  assert (Hib : idst ibc = PR (Z.to_nat (dst instr)) /\
    (if src instr =? dst instr then isrc ibc = PImm /\ imm ibc = im else isrc ibc = PR (Z.to_nat (src instr)))).
  { unfold ibc, compile_alu_reg. rewrite same_reg, reg8_dst, reg8_src. by destruct (src instr =? dst instr). }
  destruct Hib as (H1 & H2). apply (alu_inv _ _ _ _ (dst instr)) in He as (v & Hv & ->); [|lia|done].
  destruct (src instr =? dst instr); [destruct H2 as [H2 H3]; rewrite H2 in Hv; injection Hv as <-; by rewrite H3|].
  rewrite H2 in Hv. by apply load_r in Hv as ->.
Qed.
(** What the interpreter runs for a slot of a given type. *)
Ltac runs_alu := let ibc := fresh in let xs := fresh in let E := fresh in
  intros ibc xs E; rewrite execute_one_live; unfold execute_one; by rewrite E.

Lemma simulates_reg op fn h ty : computes op fn -> h = reg_handler op ->
  lower 0 instr = live (compile_alu_reg ibc_init (PR (reg8 (dst instr))) (PR (reg8 (src instr))) ty (signExtend2sCompl (getImm32 instr))) ->
  (forall ibc st, type ibc = ty -> execute_one m (live ibc) 0 st = (st ← alu fn ibc st; Done (0, st))) ->
  simulates instr h.
Proof.
  intros Hc -> El Hex. enter. apply (alu_slot ty _ El fn Hex) in He as ->. unfold reg_handler in H. cbv zeta in H. rewrite int_reg_eqb in H by done.
  apply bind_Done in H as (st1 & E1 & E2). destruct (changed_inv _ _ _ E2 Hs) as [S1 _]. apply (reached_changed _ _ _ _ _ E2).
  destruct (src instr =? dst instr).
  - apply bind_Done in E1 as (st2 & E0 & E1). destruct (flows_mov C _ _ _ _ H0 E0) as (_ & N1 & _). destruct (flows_emit C _ _ _ N1 E1) as (_ & _ & F1).
    eapply reached_trans; [apply (mov_leads C base 20 _ st st2 ms E0 (F1 S1) H0 (si_pool _ _ Hsim) ltac:(lia) Hi Hm Hp)|].
    eapply tmp_word; [done|exact E1|done|done|done|apply sext32_range|done].
  - rewrite <- Vd, <- Vs. eapply op_word; [done|exact E1|done|done|done|done|done|lia|lia].
Qed.

Lemma simulates_ISUB_R : type_of instr = ISUB_R -> simulates instr h_ISUB_R.
Proof.
  intros Ety. enter. apply (alu_slot ISUB_R _ ltac:(slot Ety) sub64) in He as ->; [|runs_alu].
  unfold h_ISUB_R in H. cbv zeta in H. rewrite int_reg_eqb in H by done.
  apply bind_Done in H as (st1 & E1 & E2). destruct (changed_inv _ _ _ E2 Hs) as [S1 _]. apply (reached_changed _ _ _ _ _ E2).
  destruct (src instr =? dst instr); cbn [negb] in E1.
  - change 0x80000000 with (2 ^ 31) in E1. destruct (Z.eqb_spec (getImm32 instr) (2 ^ 31)) as [->|Hne].
    + apply bind_Done in E1 as (st2 & E0 & E1). destruct (flows_emit C _ _ _ H0 E0) as (_ & N1 & _). destruct (flows_emit C _ _ _ N1 E1) as (_ & _ & F1).
      rewrite <- sub_min. eapply reached_trans; [|eapply (tmp_word ARMV8A.ADD); [apply computes_add|exact E1|done|done|done|apply shl64_range|done]].
      destruct (emit_leads C base _ _ _ _ _ (set_x (vpc ms + 4) 20 (shl64 0x8000 16) ms) E0 (F1 S1) (encodes_movz_hi 20 ltac:(lia) 0x8000 ltac:(lia)) Hp eq_refl) as (L & Ek & _).
      by rewrite Ek, <- Hp.
    + rewrite <- sub_immediate by done. eapply add_dest; [exact E1|done|done|done|done|done|done|]. by apply wrap_range.
  - rewrite <- Vd, <- Vs. eapply op_word; [apply computes_sub|exact E1|done|done|done|done|done|lia|lia].
Qed.

Lemma simulates_mulh op fn h ty : computes op fn -> h = mulh_handler op ->
  lower 0 instr = live (mkIBC (PR (reg8 (dst instr))) (PR (reg8 (src instr))) 0 ty 0 0) ->
  (forall ibc st, type ibc = ty -> execute_one m (live ibc) 0 st = (st ← alu fn ibc st; Done (0, st))) ->
  simulates instr h.
Proof.
  intros Hc -> El Hex. enter. rewrite El in He. eapply exec1_inv in He; [|intros ?; by apply Hex].
  apply (alu_inv _ _ _ _ (dst instr)) in He as (v & Hv & ->); [|lia|cbn [idst]; by rewrite reg8_dst]. cbn [isrc] in Hv. rewrite reg8_src in Hv. apply load_r in Hv as ->.
  unfold mulh_handler in H. cbv zeta in H. apply bind_Done in H as (st1 & E1 & E2).
  destruct (changed_inv _ _ _ E2 Hs) as [S1 _]. apply (reached_changed _ _ _ _ _ E2).
  rewrite <- Vd, <- Vs. eapply op_word; [done|exact E1|done|done|done|done|done|lia|lia].
Qed.

Lemma simulates_INEG_R : type_of instr = INEG_R -> simulates instr h_INEG_R.
Proof.
  intros Ety. enter. assert (El : lower 0 instr = mkIBC (PR (reg8 (dst instr))) PNull 0 INEG_R 0 0) by slot Ety.
  rewrite El in He. eapply exec1_inv in He; [|intros ?; reflexivity]. cbn [idst] in He. apply bind_Done in He as (v & Ev & He).
  rewrite reg8_dst in *. apply load_r in Ev as ->. apply store_r in He as ->; [|lia].
  unfold h_INEG_R in H. cbv zeta in H. apply bind_Done in H as (st1 & E1 & E2).
  destruct (changed_inv _ _ _ E2 Hs) as [S1 _]. apply (reached_changed _ _ _ _ _ E2). rewrite <- Vd.
  rewrite <- neg_sub by (apply xget_word; [done|lia]). change 0 with (xget (vx ms) 31).
  eapply op_word; [apply computes_sub|exact E1|done|done|done|done|done|lia|lia].
Qed.

(** [ror dst, dst, amount]. *)
Lemma ror_word_reached k st st' x ms : emit (ror_imm (int_reg (dst instr)) (int_reg (dst instr)) k) st = Done st' -> settled C st' ->
  sim x ms -> length (r (reg_ x)) = 8%nat -> vpc ms = st.2 -> 0 <= k < 64 ->
  reached (set_r (dst instr) (rotr64 (r (reg_ x) !!! Z.to_nat (dst instr)) k) x) st' ms.
Proof.
  intros E Hs Hsim Hl Hp Hk. pose proof (int_reg_range _ Hd) as Rd. destruct (si_machine _ _ Hsim) as [Hm _].
  rewrite <- (si_r _ _ Hsim _ Hd). pose proof (xget_word (vx ms) (int_reg (dst instr)) Hm ltac:(lia)) as Wd.
  eapply set_word; [exact E|done|apply (encodes_ror_imm (int_reg (dst instr)) (int_reg (dst instr)) k); lia|done|done|done|done|by apply rotr64_range|].
  cbn [vec_exec exec mbind outcome_bind]. by rewrite extr_rotr.
Qed.

Lemma simulates_IROR_R : type_of instr = IROR_R -> simulates instr h_IROR_R.
Proof.
  intros Ety. enter. apply (alu_slot IROR_R _ ltac:(slot Ety) (fun d s => rotr64 d (Z.land s 63))) in He as ->; [|runs_alu].
  unfold h_IROR_R in H. cbv zeta in H. rewrite int_reg_eqb in H by done.
  apply bind_Done in H as (st1 & E1 & E2). destruct (changed_inv _ _ _ E2 Hs) as [S1 _]. apply (reached_changed _ _ _ _ _ E2).
  destruct (src instr =? dst instr); cbn [negb] in E1.
  - apply (ror_word_reached _ _ _ _ _ E1); try done. apply land63.
  - rewrite land63_mod. rewrite <- Vd, <- Vs.
    apply (op_word ARMV8A.ROR (fun a b => rotr64 a (b mod 64)) _ _ _ _ _ _ _ computes_ror E1); try done; lia.
Qed.

Lemma simulates_IROL_R : type_of instr = IROL_R -> simulates instr h_IROL_R.
Proof.
  intros Ety. enter. apply (alu_slot IROL_R _ ltac:(slot Ety) (fun d s => rotl64 d (Z.land s 63))) in He as ->; [|runs_alu].
  unfold h_IROL_R in H. cbv zeta in H. rewrite int_reg_eqb in H by done.
  pose proof (xget_word (vx ms) (int_reg (dst instr)) Hm ltac:(lia)) as Wd. pose proof (xget_word (vx ms) (int_reg (src instr)) Hm ltac:(lia)) as Ws.
  rewrite Vd in Wd. rewrite Vs in Ws.
  apply bind_Done in H as (st1 & E1 & E2). destruct (changed_inv _ _ _ E2 Hs) as [S1 _]. apply (reached_changed _ _ _ _ _ E2).
  destruct (src instr =? dst instr); cbn [negb] in E1.
  - rewrite <- rotl_imm by done. apply (ror_word_reached _ _ _ _ _ E1); try done. apply land63.
  - apply bind_Done in E1 as (st2 & E0 & E1). destruct (flows_emit C _ _ _ H0 E0) as (_ & N1 & _). destruct (flows_emit C _ _ _ N1 E1) as (_ & _ & F1).
    rewrite <- rotl_sub by done. destruct (proj2 computes_sub 20 31 (int_reg (src instr))) as (i & Wi & Xi); [lia|lia|lia|].
    destruct (emit_leads C base _ _ _ _ ms _ E0 (F1 S1) Wi Hp (Xi ms Hm)) as (L & Ek & _). change (xget (vx ms) 31) with 0 in L. rewrite Vs, Hp, <- Ek in L.
    eapply reached_trans; [exact L|]. apply (tmp_word ARMV8A.ROR (fun a b => rotr64 a (b mod 64)) _ _ _ _ _ _ computes_ror E1); try done. apply sub64_range.
Qed.

Lemma simulates_ISWAP_R : type_of instr = ISWAP_R -> simulates instr h_ISWAP_R.
Proof.
  intros Ety. enter. unfold h_ISWAP_R in H. cbv zeta in H. rewrite int_reg_eqb in H by done.
  assert (Eq : (reg8 (src instr) =? reg8 (dst instr))%nat = (src instr =? dst instr)).
  { rewrite reg8_dst, reg8_src. apply Bool.eq_iff_eq_true. rewrite Nat.eqb_eq, Z.eqb_eq. lia. }
  assert (El : lower 0 instr = if negb (src instr =? dst instr) then mkIBC (PR (reg8 (dst instr))) (PR (reg8 (src instr))) 0 ISWAP_R 0 0
    else mkIBC PNull PNull 0 NOP 0 0).
  { unfold lower. rewrite Ety. cbn [handler_of]. unfold Bytecode.h_ISWAP_R. cbv zeta. rewrite Eq. by destruct (src instr =? dst instr). }
  rewrite El in He. destruct (Z.eqb_spec (src instr) (dst instr)) as [E|Hne]; cbn [negb] in He.
  { injection H as <-. injection He as <-. exists ms. split; [apply leads_refl|done]. }
  eapply exec1_inv in He; [|intros ?; reflexivity]. cbn [idst isrc] in He. rewrite reg8_dst, reg8_src in He.
  apply bind_Done in He as (t & Et & He). apply bind_Done in He as (v & Ev & He). apply bind_Done in He as (x1 & Ex & He).
  apply load_r in Et as ->. apply load_r in Ev as ->. apply store_r in Ex as ->; [|lia]. apply store_r in He as ->; [|lia].
  apply bind_Done in H as (st1 & E1 & H). apply bind_Done in H as (st2 & E2 & H). apply bind_Done in H as (st3 & E3 & H). apply bind_Done in H as (st4 & E4 & E5).
  destruct (changed_inv _ _ _ E5 Hs) as [S4 _]. destruct (changed_inv _ _ _ E4 S4) as [S3 _].
  destruct (flows_emit C _ _ _ H0 E1) as (_ & N1 & _). destruct (flows_emit C _ _ _ N1 E2) as (_ & N2 & F2). destruct (flows_emit C _ _ _ N2 E3) as (_ & _ & F3).
  pose proof (F3 S3) as S2. pose proof (F2 S2) as S1.
  apply (reached_changed _ _ _ _ _ E5), (reached_changed _ _ _ _ _ E4).
  assert (X : forall ms d k, machine (vx ms) -> 0 <= k < 32 -> vec_exec C base (inl (ORR_shifted d 31 k 0)) ms = Done (set_x (vpc ms + 4) d (xget (vx ms) k) ms)).
  { intros ms0 d0 k0 Hm0 Hk0. cbn [vec_exec exec mbind outcome_bind]. change (xget (vx ms0) 31) with 0. rewrite shl64_0 by (by apply xget_word). done. }
  set (d := int_reg (dst instr)) in *. set (s := int_reg (src instr)) in *. assert (Hds : d <> s) by (intros E; apply Hne; symmetry; by apply int_reg_inj).
  destruct (emit_leads C base _ _ _ _ ms _ E1 S1 (encodes_mov 20 d ltac:(lia) ltac:(lia)) Hp (X ms 20 d Hm ltac:(lia))) as (L1 & K1 & _).
  set (m1 := set_x _ _ _ ms) in L1. pose proof (xget_word (vx ms) d Hm ltac:(lia)) as Wd. pose proof (xget_word (vx ms) s Hm ltac:(lia)) as Ws.
  assert (M1 : machine (vx m1)) by (by apply xset_machine). assert (P1 : vpc m1 = st1.2) by (unfold m1, set_x; cbn [vpc]; lia).
  destruct (emit_leads C base _ _ _ _ m1 _ E2 S2 (encodes_mov d s ltac:(lia) ltac:(lia)) P1 (X m1 d s M1 ltac:(lia))) as (L2 & K2 & _).
  set (m2 := set_x _ _ _ m1) in L2. assert (G1 : xget (vx m1) s = xget (vx ms) s) by (apply xget_xset_ne; lia).
  assert (M2 : machine (vx m2)) by (apply xset_machine; [done|by rewrite G1]). assert (P2 : vpc m2 = st2.2) by (unfold m2, set_x; cbn [vpc]; lia).
  destruct (emit_leads C base _ _ _ _ m2 _ E3 S3 (encodes_mov s 20 ltac:(lia) ltac:(lia)) P2 (X m2 s 20 M2 ltac:(lia))) as (L3 & K3 & _).
  assert (G2 : xget (vx m2) 20 = xget (vx ms) d) by (unfold m2, set_x; cbn [vx]; rewrite xget_xset_ne by lia; apply xget_xset; [done|lia]).
  eapply reached_trans; [exact L1|]. eapply reached_trans; [exact L2|]. eapply reached_trans; [exact L3|].
  eexists. split; [apply leads_refl|]. split; [unfold set_x; cbn [vpc]; lia|]. rewrite G2.
  assert (Sim1 : sim x m1) by (apply sim_temp; [done|apply temp_set; [done|done|by right]]).
  assert (Sim2 : sim (set_r (dst instr) (xget (vx ms) s) x) m2) by (unfold m2; rewrite G1; by apply sim_set_r).
  assert (Esw : set_r (dst instr) (r (reg_ x) !!! Z.to_nat (src instr)) (set_r (src instr) (r (reg_ x) !!! Z.to_nat (dst instr)) x) =
    set_r (src instr) (xget (vx ms) d) (set_r (dst instr) (xget (vx ms) s) x)).
  { unfold set_r, set_reg_file. cbn. rewrite Vd, Vs. f_equal. f_equal. apply list_insert_insert_ne. lia. }
  rewrite Esw. apply sim_set_r; [done|by rewrite set_r_length|done|done].
Qed.

(** ** Reciprocals *)

Lemma trivial_divisor d : 0 <= d < 2 ^ 32 -> (Z.land d (wrap 32 (d - 1)) =? 0) = isZeroOrPowerOf2_64 d.
Proof.
  intros H. unfold isZeroOrPowerOf2_64. destruct (Z.eq_dec d 0) as [->|]; [done|].
  rewrite !wrap_small by (unfold in_range; lia). done.
Qed.

Lemma simulates_IMUL_RCP : type_of instr = IMUL_RCP -> simulates instr h_IMUL_RCP.
Proof.
  intros Ety. enter. destruct st as [j k]. unfold h_IMUL_RCP in H. cbv zeta in H. cbn [fst snd] in *.
  rewrite trivial_divisor in H by done.
  assert (El : lower 0 instr = match (if negb (isZeroOrPowerOf2_64 (getImm32 instr)) then rcp ← randomx_reciprocal (getImm32 instr);
      Done (mkIBC (PR (reg8 (dst instr))) PImm rcp IMUL_R 0 0) else Done (mkIBC PNull PNull 0 NOP 0 0)) with Done y => y | _ => mkIBC PNull PNull 0 NOP 0 0 end).
  { unfold lower. rewrite Ety. cbn [handler_of]. unfold Bytecode.h_IMUL_RCP. cbv zeta.
    destruct (isZeroOrPowerOf2_64 (getImm32 instr)); [done|]. cbn [negb]. by destruct (randomx_reciprocal _). }
  rewrite El in He. clear El. destruct (isZeroOrPowerOf2_64 (getImm32 instr)); cbn [negb] in He.
  { injection H as <-. injection He as <-. exists ms. split; [apply leads_refl|done]. }
  apply bind_Done in H as (rcp & Er & H). rewrite Er in He. cbn [mbind outcome_bind] in He.
  assert (Wr : word64 rcp).
  { unfold randomx_reciprocal in Er. destruct (_ =? 0); [done|]. cbv zeta in Er. injection Er as <-. apply add64_range. }
  eapply exec1_inv in He; [|intros ?; reflexivity].
  apply (alu_inv _ _ _ _ (dst instr)) in He as (v & Hv & ->); [|lia|cbn [idst]; by rewrite reg8_dst]. cbn [isrc] in Hv. injection Hv as <-.
  apply bind_Done in H as (c & Ec & H). apply bind_Done in H as (st1 & E1 & E2).
  destruct (changed_inv _ _ _ E2 Hs) as [S1 _]. apply (reached_changed _ _ _ _ _ E2). set (lp := literalPos j - 8) in *.
  set (j1 := mkJit c lp (num32bitLiterals j) (reg_changed_offset j) (flags j)) in *. set (id := (ImulRcpLiteralsEnd - literalPos j) / 8) in *.
  assert (Hsj : settled C (j1, k)).
  { destruct (id <? 12); [exact (proj2 (proj2 (flows_emit C _ (j1, k) st1 H0 E1)) S1)|]. apply bind_Done in E1 as (st2 & E0 & E1).
    destruct (flows_emit C _ (j1, k) _ H0 E0) as (_ & N & F). exact (F (proj2 (proj2 (flows_emit C _ st2 st1 N E1)) S1)). }
  destruct Hal as (Al1 & Al2 & Al3). cbn [fst snd] in Al1, Al2, Al3.
  assert (Hlit : read_le C lp 8 = Done rcp).
  { apply (settled_read C (j1, k) lp 8 rcp Hsj); [|lia|right; cbn [fst snd j1 literalPos num32bitLiterals]; unfold lp; cbn [fst] in Al3; lia]. cbn [fst j1 code]. rewrite (read_written _ _ 8 _ _ Ec). by rewrite wrap_small. }
  destruct Hsj as [_ [K1 K2] _ _]. cbn [fst snd j1 literalPos] in K1, K2.
  assert (Hid : ImulRcpLiteralsEnd - literalPos j = 8 * id) by (unfold id, ImulRcpLiteralsEnd; plia).
  assert (Hid0 : 0 <= id) by (unfold lp in K2; unfold id, ImulRcpLiteralsEnd in *; plia).
  destruct (Z.ltb_spec id 12) as [Hlt|Hge].
  - pose proof (literal_reg_cases id ltac:(lia)) as Rl. cbv zeta in Rl.
    assert (Hreg : xget (vx ms) (literal_regs !!! Z.to_nat id) = rcp).
    { apply (po_64 C ms (si_pool _ _ Hsim) id rcp); [lia|]. replace (ImulRcpLiteralsEnd - 8 * (id + 1)) with lp by (unfold lp; lia). done. }
    rewrite <- Vd, <- Hreg. eapply op_word; [apply computes_mul|exact E1|done|done|done|done|done|lia|lia].
  - apply bind_Done in E1 as (st2 & E0 & E1). destruct (flows_emit C _ (j1, k) _ H0 E0) as (_ & N & F). destruct (flows_emit C _ st2 st1 N E1) as (_ & _ & F2).
    destruct (literal_offset_value lp k) as [Ho Eo]; [unfold lp; plia|unfold lp, ImulRcpLiteralsEnd in *; lia|].
    destruct (emit_leads C base _ _ _ _ ms (set_x (vpc ms + 4) 20 rcp ms) E0 (F2 S1) (encodes_ldr_literal 20 ltac:(lia) _ Ho)) as (L & Ek & _).
    { exact Hp. }
    { cbn [vec_exec exec]. rewrite Eo, Hp. replace (k + (lp - k)) with lp by lia. rewrite Hlit. done. }
    eapply reached_trans; [exact L|]. rewrite Hp. cbn [snd] in Ek. rewrite <- Ek. eapply tmp_word; [apply computes_mul|exact E1|done|done|done|done|done].
Qed.
End instruction.
End sim.
