(* ===== verification/JitVmFloat.v ===== *)
(** * The floating-point, memory and control handlers simulate the interpreter

    The remaining handlers of src/src/jit_compiler_a64.cpp: the vector operations, CFROUND, ISTORE and
    CBRANCH.  A floating-point memory operand is loaded from where the interpreter loads it when its masked
    displacement is not zero. *)

From stdpp Require Import list.
From S2P Require Import Prelude RandomX Float Bytecode BytecodeSafety BytecodeTermination BytecodeStale Footprint JitSchedule JitEquiv A64 JitDataset A64Vec JitEmit JitLayout JitWords JitValues JitVmRun JitVmSim.

Section float.
Context (C : list Z) (base : Z) (m : Z * Z) (K : Z -> Z).
Context (Hbase : 0 <= base /\ base + 2 ^ 21 <= 2 ^ 64) (Hmask : e_or_ok m.1 /\ e_or_ok m.2).

Abbreviation sim := (JitVmSim.sim C base m K).
Abbreviation reached := (JitVmSim.reached C base m K).
Abbreviation simulates := (JitVmSim.simulates C base m K).

(** ** Vector registers *)

Lemma vget_vset vs n v : length vs = 32%nat -> 0 <= n < 32 -> vget (vset vs n v) n = v.
Proof. intros Hl Hn. apply list_lookup_total_insert_eq. lia. Qed.
Lemma vget_vset_ne vs n k v : 0 <= n -> 0 <= k -> n <> k -> vget (vset vs n v) k = vget vs k.
Proof. intros Hn Hk Hne. apply list_lookup_total_insert_ne. lia. Qed.
Lemma vset_length vs n v : length (vset vs n v) = length vs.
Proof. apply length_insert. Qed.

Definition set_f (i : Z) (v : FloatRegister) (x : xstate) : xstate :=
  set_reg_file (mkRegisterFile (r (reg_ x)) (<[Z.to_nat i := v]> (f (reg_ x))) (e (reg_ x)) (a (reg_ x))) x.
Definition set_e (i : Z) (v : FloatRegister) (x : xstate) : xstate :=
  set_reg_file (mkRegisterFile (r (reg_ x)) (f (reg_ x)) (<[Z.to_nat i := v]> (e (reg_ x))) (a (reg_ x))) x.

(** A scratch vector register and scratch registers. *)
Lemma sim_scratch x ms xs1 v k z : sim x ms -> temp (vx ms) xs1 -> sim x (mkVec k xs1 (vset (vv ms) 28 v) (fpcr ms) z (vmem ms)).
Proof.
  intros Hs Ht. pose proof (sim_temp C base m K x ms xs1 k z Hs Ht) as [[H1 H1'] H2 H3 H4 H5 H6 H7 H8 H9 H10 H11]. cbn [vx vv fpcr zf vmem] in *.
  assert (Hv : forall n, 0 <= n < 32 -> n <> 28 -> vget (vset (vv ms) 28 v) n = vget (vv ms) n) by (intros n Hn Hne; apply vget_vset_ne; lia).
  constructor; cbn [vx vv fpcr zf vmem]; try done.
  - by rewrite vset_length.
  - intros i Hi. rewrite Hv by lia. by apply H3.
  - intros i Hi. rewrite Hv by lia. by apply H4.
  - intros i Hi. rewrite Hv by lia. by apply H5.
  - rewrite !Hv by lia. done.
  - apply (pooled_keep C (mkVec k xs1 (vv ms) (fpcr ms) z (vmem ms))); [done|done|]. intros n Hn. apply Hv; lia.
Qed.

Lemma sim_set_f x ms i v k z : sim x ms -> length (f (reg_ x)) = 4%nat -> 0 <= i < 4 ->
  sim (set_f i v x) (mkVec k (vx ms) (vset (vv ms) (16 + i) v) (fpcr ms) z (vmem ms)).
Proof.
  intros [[H1 H1'] H2 H3 H4 H5 H6 H7 H8 H9 H10 H11] Hl Hi.
  assert (Hv : forall n, 0 <= n < 32 -> n <> 16 + i -> vget (vset (vv ms) (16 + i) v) n = vget (vv ms) n) by (intros n Hn Hne; apply vget_vset_ne; lia).
  constructor; cbn [vx vv fpcr zf vmem set_f set_reg_file reg_ r f e a scratchpad_ last_rounding_mode_ fe_round]; try done.
  - by rewrite vset_length.
  - intros n Hn. destruct (Z.eq_dec n i) as [->|Hne].
    + rewrite vget_vset by (done || lia). rewrite list_lookup_total_insert_eq by lia. done.
    + rewrite Hv by lia. rewrite list_lookup_total_insert_ne by lia. by apply H3.
  - intros n Hn. rewrite Hv by lia. by apply H4.
  - intros n Hn. rewrite Hv by lia. by apply H5.
  - rewrite !Hv by lia. done.
  - apply (pooled_keep C ms); [done|done|]. intros n Hn. apply Hv; lia.
Qed.
Lemma sim_set_e x ms i v k z : sim x ms -> length (e (reg_ x)) = 4%nat -> 0 <= i < 4 ->
  sim (set_e i v x) (mkVec k (vx ms) (vset (vv ms) (20 + i) v) (fpcr ms) z (vmem ms)).
Proof.
  intros [[H1 H1'] H2 H3 H4 H5 H6 H7 H8 H9 H10 H11] Hl Hi.
  assert (Hv : forall n, 0 <= n < 32 -> n <> 20 + i -> vget (vset (vv ms) (20 + i) v) n = vget (vv ms) n) by (intros n Hn Hne; apply vget_vset_ne; lia).
  constructor; cbn [vx vv fpcr zf vmem set_e set_reg_file reg_ r f e a scratchpad_ last_rounding_mode_ fe_round]; try done.
  - by rewrite vset_length.
  - intros n Hn. rewrite Hv by lia. by apply H3.
  - intros n Hn. destruct (Z.eq_dec n i) as [->|Hne].
    + rewrite vget_vset by (done || lia). rewrite list_lookup_total_insert_eq by lia. done.
    + rewrite Hv by lia. rewrite list_lookup_total_insert_ne by lia. by apply H4.
  - intros n Hn. rewrite Hv by lia. by apply H5.
  - rewrite !Hv by lia. done.
  - apply (pooled_keep C ms); [done|done|]. intros n Hn. apply Hv; lia.
Qed.

(** A word that sets an F or E register. *)
Lemma set_f_word w i n v st st' x ms :
  emit w st = Done st' -> settled C st' -> encodes w i -> sim x ms -> length (f (reg_ x)) = 4%nat -> vpc ms = st.2 -> 0 <= n < 4 ->
  vec_exec C base i ms = Done (set_v (vpc ms + 4) (16 + n) v ms) -> reached (set_f n v x) st' ms.
Proof.
  intros E Hs Hw Hsim Hl Hp Hn He. destruct (emit_leads C base _ _ _ _ _ _ E Hs Hw Hp He) as (L & Ek & _).
  eexists. split; [exact L|]. split; [unfold set_v; cbn [vpc]; lia|]. by apply sim_set_f.
Qed.
Lemma set_e_word w i n v st st' x ms :
  emit w st = Done st' -> settled C st' -> encodes w i -> sim x ms -> length (e (reg_ x)) = 4%nat -> vpc ms = st.2 -> 0 <= n < 4 ->
  vec_exec C base i ms = Done (set_v (vpc ms + 4) (20 + n) v ms) -> reached (set_e n v x) st' ms.
Proof.
  intros E Hs Hw Hsim Hl Hp Hn He. destruct (emit_leads C base _ _ _ _ _ _ E Hs Hw Hp He) as (L & Ek & _).
  eexists. split; [exact L|]. split; [unfold set_v; cbn [vpc]; lia|]. by apply sim_set_e.
Qed.

(** ** Steps of the interpreter *)

Lemma at_lookup {A} `{!Inhabited A} (l : list A) i v : at_index l (Z.of_nat i) = Done v -> v = l !!! i.
Proof. intros [_ H]%at_index_Done. rewrite Nat2Z.id in H. symmetry. by apply list_lookup_total_correct. Qed.
Lemma store_f i v x x' : store_float (PF i) v x = Done x' -> x' = set_f (Z.of_nat i) v x.
Proof. unfold store_float, set_at. destruct (_ <? _)%nat; [|done]. intros [= <-]. unfold set_f. by rewrite Nat2Z.id. Qed.
Lemma store_e i v x x' : store_float (PE i) v x = Done x' -> x' = set_e (Z.of_nat i) v x.
Proof. unfold store_float, set_at. destruct (_ <? _)%nat; [|done]. intros [= <-]. unfold set_e. by rewrite Nat2Z.id. Qed.

Lemma flt_f op ibc s x x' i : idst ibc = PF i -> flt op ibc s x = Done x' ->
  x' = set_f (Z.of_nat i) (lanes2 op (f (reg_ x) !!! i) s) x.
Proof.
  intros E H. unfold flt in H. rewrite E in H. apply bind_Done in H as (d & Ed & H). cbn [load_float] in Ed. apply at_lookup in Ed as ->. by apply store_f in H.
Qed.
Lemma flt_e op ibc s x x' i : idst ibc = PE i -> flt op ibc s x = Done x' ->
  x' = set_e (Z.of_nat i) (lanes2 op (e (reg_ x) !!! i) s) x.
Proof.
  intros E H. unfold flt in H. rewrite E in H. apply bind_Done in H as (d & Ed & H). cbn [load_float] in Ed. apply at_lookup in Ed as ->. by apply store_e in H.
Qed.

(** The operation [op vd, vn, vm] under the rounding mode. *)
Definition computes_v (op : Z) (fn : rounding -> Z -> Z -> Z) : Prop := forall d n k, 0 <= d < 32 -> 0 <= n < 32 -> 0 <= k < 32 ->
  exists i, encodes (op3 op d n k) i /\ forall ms mode, fpcr_rounding (fpcr ms) = Done mode ->
    vec_exec C base i ms = Done (set_v (vpc ms + 4) d (lanes2 (fn mode) (vget (vv ms) n) (vget (vv ms) k)) ms).
Lemma computes_fadd : computes_v ARMV8A.FADD fadd.
Proof. intros d n k Hd Hn Hk. eexists. split; [by apply encodes_fadd|]. intros ms mode Hm. cbn [vec_exec exec_vec]. by rewrite Hm. Qed.
Lemma computes_fsub : computes_v ARMV8A.FSUB fsub.
Proof. intros d n k Hd Hn Hk. eexists. split; [by apply encodes_fsub|]. intros ms mode Hm. cbn [vec_exec exec_vec]. by rewrite Hm. Qed.
Lemma computes_fmul : computes_v ARMV8A.FMUL fmul.
Proof. intros d n k Hd Hn Hk. eexists. split; [by apply encodes_fmul|]. intros ms mode Hm. cbn [vec_exec exec_vec]. by rewrite Hm. Qed.
Lemma computes_fdiv : computes_v ARMV8A.FDIV fdiv.
Proof. intros d n k Hd Hn Hk. eexists. split; [by apply encodes_fdiv|]. intros ms mode Hm. cbn [vec_exec exec_vec]. by rewrite Hm. Qed.

Section instruction.
Context (instr : Instruction) (Hn : normal instr) (Hwf : instruction_wf instr).

Let Hd : 0 <= dst instr < 8 := proj1 Hn.
Let Hsr : 0 <= src instr < 8 := proj2 Hn.
Let Hd4 : 0 <= dst instr mod 4 < 4 := Z.mod_pos_bound (dst instr) 4 eq_refl.
Let Hs4 : 0 <= src instr mod 4 < 4 := Z.mod_pos_bound (src instr) 4 eq_refl.

Ltac slot E := unfold lower; rewrite E; reflexivity.
Ltac enter :=
  intros st st' x x' ms H Hs (H0 & Hal & Hfl) Hsim Hx Hp He; pose proof (imm_range instr Hwf) as Hi; destruct (xw_r _ Hx) as [Hl Hw];
  destruct (xw_f _ Hx) as [Hlf _]; destruct (xw_e _ Hx) as [Hle _];
  pose proof (int_reg_range _ Hd) as Rd; pose proof (int_reg_range _ Hsr) as Rs; destruct (si_machine _ _ _ _ _ _ Hsim) as [Hm Hv32];
  pose proof (sim_rounding _ _ _ _ _ _ Hsim) as Hmode.

Lemma reg4_Z x : Z.of_nat (reg4 x) = x mod 4.
Proof. unfold reg4. pose proof (Z.mod_pos_bound x 4). lia. Qed.

Lemma simulates_FSWAP_R : type_of instr = FSWAP_R -> simulates instr h_FSWAP_R.
Proof.
  intros Ety. enter. unfold h_FSWAP_R in H. cbv zeta in H.
  assert (El : lower 0 instr = mkIBC (if (reg8 (dst instr) <? 4)%nat then PF (reg8 (dst instr)) else PE (reg8 (dst instr) - 4)) PNull 0 FSWAP_R 0 0) by slot Ety.
  rewrite El in He. eapply exec1_inv in He; [|intros ?; reflexivity]. cbn [idst] in He. rewrite (reg8_dst instr Hn) in He.
  assert (W : encodes (Z.lor (Z.lor (Z.lor 0x6E004000 (dst instr + 16)) (Z.shiftl (dst instr + 16) 5)) (Z.shiftl (dst instr + 16) 16))
    (inr (EXT (dst instr + 16) (dst instr + 16) (dst instr + 16)))) by (apply encodes_ext; lia).
  apply bind_Done in He as (d & Ed & He). destruct (Nat.ltb_spec (Z.to_nat (dst instr)) 4).
  - apply at_lookup in Ed as ->. apply store_f in He as ->. rewrite Z2Nat.id by lia.
    eapply set_f_word; [exact H|done|exact W|done|done|done|lia|]. cbn [vec_exec exec_vec]. replace (dst instr + 16) with (16 + dst instr) by lia.
    rewrite (si_f _ _ _ _ _ _ Hsim (dst instr)) by lia. done.
  - apply at_lookup in Ed as ->. apply store_e in He as ->. replace (Z.of_nat (Z.to_nat (dst instr) - 4)) with (dst instr - 4) by lia.
    eapply set_e_word; [exact H|done|exact W|done|done|done|lia|]. cbn [vec_exec exec_vec].
    replace (dst instr + 16) with (20 + (dst instr - 4)) by lia. rewrite (si_e _ _ _ _ _ _ Hsim (dst instr - 4)) by lia.
    replace (Z.to_nat (dst instr) - 4)%nat with (Z.to_nat (dst instr - 4)) by lia. done.
Qed.

Lemma simulates_fa op fn h ty : computes_v op fn -> h = float_handler op 16 ->
  lower 0 instr = mkIBC (PF (reg4 (dst instr))) (PA (reg4 (src instr))) 0 ty 0 0 ->
  (forall ibc st, type ibc = ty -> execute_one m ibc 0 st = (st ← (s ← load_float st (isrc ibc); flt (fn (fe_round st)) ibc s st); Done (0, st))) ->
  simulates instr h.
Proof.
  intros Hc -> El Hex. enter. rewrite El in He. eapply exec1_inv in He; [|intros ?; by apply Hex]. cbn [isrc] in He.
  apply bind_Done in He as (s & Es & He). apply at_lookup in Es as ->. apply (flt_f _ _ _ _ _ (reg4 (dst instr))) in He as ->; [|done].
  unfold float_handler in H. cbv zeta in H. rewrite reg4_Z.
  destruct (Hc (dst instr mod 4 + 16) (dst instr mod 4 + 16) (src instr mod 4 + 24)) as (i & W & X); [lia|lia|lia|].
  eapply set_f_word; [exact H|done|exact W|done|done|done|lia|]. rewrite (X ms _ Hmode).
  rewrite !(Z.add_comm (dst instr mod 4)), (Z.add_comm (src instr mod 4)).
  rewrite (si_f _ _ _ _ _ _ Hsim), (si_a _ _ _ _ _ _ Hsim) by lia. done.
Qed.

Lemma simulates_FMUL_R : type_of instr = FMUL_R -> simulates instr h_FMUL_R.
Proof.
  intros Ety. enter. assert (El : lower 0 instr = mkIBC (PE (reg4 (dst instr))) (PA (reg4 (src instr))) 0 FMUL_R 0 0) by slot Ety.
  rewrite El in He. eapply exec1_inv in He; [|intros ?; reflexivity]. cbn [isrc] in He.
  apply bind_Done in He as (s & Es & He). apply at_lookup in Es as ->. apply (flt_e _ _ _ _ _ (reg4 (dst instr))) in He as ->; [|done].
  unfold h_FMUL_R, float_handler in H. cbv zeta in H. rewrite reg4_Z.
  destruct (computes_fmul (dst instr mod 4 + 20) (dst instr mod 4 + 20) (src instr mod 4 + 24)) as (i & W & X); [lia|lia|lia|].
  eapply set_e_word; [exact H|done|exact W|done|done|done|lia|]. rewrite (X ms _ Hmode).
  rewrite !(Z.add_comm (dst instr mod 4)), (Z.add_comm (src instr mod 4)).
  rewrite (si_e _ _ _ _ _ _ Hsim), (si_a _ _ _ _ _ _ Hsim) by lia. done.
Qed.

Lemma simulates_FSCAL_R : type_of instr = FSCAL_R -> simulates instr h_FSCAL_R.
Proof.
  intros Ety. enter. assert (El : lower 0 instr = mkIBC (PF (reg4 (dst instr))) PNull 0 FSCAL_R 0 0) by slot Ety.
  rewrite El in He. eapply exec1_inv in He; [|intros ?; reflexivity]. cbn [idst] in He.
  apply bind_Done in He as (d & Ed & He). apply at_lookup in Ed as ->. apply store_f in He as ->.
  unfold h_FSCAL_R in H. cbv zeta in H. rewrite reg4_Z.
  eapply set_f_word; [exact H|done|apply (encodes_feor (dst instr mod 4 + 16) (dst instr mod 4 + 16) 31); lia|done|done|done|lia|].
  cbn [vec_exec exec_vec]. rewrite !(Z.add_comm (dst instr mod 4)). rewrite (si_f _ _ _ _ _ _ Hsim) by lia.
  destruct (si_masks _ _ _ _ _ _ Hsim) as (_ & _ & ->). done.
Qed.
Lemma simulates_FSQRT_R : type_of instr = FSQRT_R -> simulates instr h_FSQRT_R.
Proof.
  intros Ety. enter. assert (El : lower 0 instr = mkIBC (PE (reg4 (dst instr))) PNull 0 FSQRT_R 0 0) by slot Ety.
  rewrite El in He. eapply exec1_inv in He; [|intros ?; reflexivity]. cbn [idst] in He.
  apply bind_Done in He as (d & Ed & He). apply at_lookup in Ed as ->. apply store_e in He as ->.
  unfold h_FSQRT_R in H. cbv zeta in H. rewrite reg4_Z.
  eapply set_e_word; [exact H|done|apply (encodes_fsqrt (dst instr mod 4 + 20) (dst instr mod 4 + 20)); lia|done|done|done|lia|].
  cbn [vec_exec exec_vec]. rewrite Hmode. cbn [mbind outcome_bind]. rewrite !(Z.add_comm (dst instr mod 4)). rewrite (si_e _ _ _ _ _ _ Hsim) by lia. done.
Qed.

(** ** Scratchpad operands *)

(** A displacement that survives the mask; without one, [emitMemLoadFP] does not read the base register. *)
Definition displaced : Prop := Z.land (getImm32 instr) (mem_size instr - 1) <> 0.

Lemma mem_level_size : mem_level instr = mem_size instr - 8.
Proof. unfold mem_level, mem_size. by destruct (negb _). Qed.

(** The code of a floating-point memory operand leaves it in v28. *)
Lemma fp_operand x ms st st' ibc ad s :
  displaced -> emitMemLoadFP 28 (int_reg (src instr)) instr st = Done st' -> settled C st' -> 0 <= num32bitLiterals st.1 ->
  sim x ms -> x_wf x -> vpc ms = st.2 ->
  getScratchpadAddress ibc x = Done ad -> load_int_pair x ad = Done s ->
  isrc ibc = PR (reg8 (src instr)) -> imm ibc = sext32 (getImm32 instr) -> memMask ibc = mem_level instr ->
  exists ms', leads C base ms ms' /\ vpc ms' = st'.2 /\ sim x ms' /\ vget (vv ms') 28 = s /\
    exists l h, s = mkFloat (of_int32 l) (of_int32 h).
Proof.
  intros Hz E Hs H0 Hsim Hx Hp Ha Hld Hib Him Hmm. pose proof (imm_range instr Hwf) as Hi. pose proof (int_reg_range _ Hsr) as Rs.
  destruct (si_machine _ _ _ _ _ _ Hsim) as [Hm Hv32]. pose proof (sim_rounding _ _ _ _ _ _ Hsim) as Hmode.
  unfold getScratchpadAddress in Ha. apply bind_Done in Ha as (b & Eb & Ha). injection Ha as <-. rewrite Hib, (reg8_src instr Hn) in Eb. apply load_r in Eb as ->.
  rewrite Him, Hmm, mem_level_size, <- (si_r _ _ _ _ _ _ Hsim _ Hsr) in Hld.
  unfold load_int_pair, load32, unsigned32ToSigned2sCompl in Hld. rewrite <- (si_mem _ _ _ _ _ _ Hsim) in Hld.
  apply bind_Done in Hld as (l & El & Hld). apply bind_Done in Hld as (h & Eh & Hld). injection Hld as <-.
  assert (Hb : Bytes (vmem ms)) by (rewrite (si_mem _ _ _ _ _ _ Hsim); apply (xw_mem _ Hx)).
  set (ad := Z.land _ _) in *. assert (Hlen : ad + 8 <= Z.of_nat (length (vmem ms))).
  { revert Eh. unfold read_le, read_bytes. destruct (_ && _) eqn:Ec; [intros _; blia|done]. }
  destruct (load_fp_leads C base Hbase ms Hm (si_base _ _ _ _ _ _ Hsim) (int_reg (src instr)) instr l h st st' (fe_round x) E Hs H0 (si_pool _ _ _ _ _ _ Hsim)
    ltac:(lia) ltac:(lia) Hi Hp Hb Hv32 Hz Hmode Hlen El Eh) as (xs1 & T & L).
  eexists. split; [exact L|]. split; [done|]. split; [by apply sim_scratch|]. split; [by apply vget_vset|]. by exists l, h.
Qed.

Lemma simulates_fmem op fn h ty : displaced -> computes_v op fn -> h = fmem_handler op ->
  lower 0 instr = mkIBC (PF (reg4 (dst instr))) (PR (reg8 (src instr))) (sext32 (getImm32 instr)) ty 0 (mem_level instr) ->
  (forall ibc st, type ibc = ty -> execute_one m ibc 0 st =
    (st ← (addr ← getScratchpadAddress ibc st; s ← load_int_pair st addr; flt (fn (fe_round st)) ibc s st); Done (0, st))) ->
  simulates instr h.
Proof.
  intros Hz Hc -> El Hex. enter. rewrite El in He. eapply exec1_inv in He; [|intros ?; by apply Hex].
  apply bind_Done in He as (ad & Ea & He). apply bind_Done in He as (s & Es & He). apply (flt_f _ _ _ _ _ (reg4 (dst instr))) in He as ->; [|done].
  unfold fmem_handler in H. cbv zeta in H. apply bind_Done in H as (st1 & E1 & E2). rewrite reg4_Z.
  destruct (flows_load_fp C _ _ _ _ _ H0 E1) as (_ & N1 & _). destruct (flows_emit C _ _ _ N1 E2) as (_ & _ & F2).
  destruct (fp_operand x ms st st1 _ ad s Hz E1 (F2 Hs) H0 Hsim Hx Hp Ea Es eq_refl eq_refl eq_refl) as (ms1 & L & P1 & Sim1 & V28 & _).
  eapply reached_trans; [exact L|].
  destruct (Hc (dst instr mod 4 + 16) (dst instr mod 4 + 16) 28) as (i & W & X); [lia|lia|lia|].
  eapply set_f_word; [exact E2|done|exact W|exact Sim1|done|done|lia|]. rewrite (X ms1 _ (sim_rounding _ _ _ _ _ _ Sim1)).
  rewrite V28, !(Z.add_comm (dst instr mod 4)). rewrite (si_f _ _ _ _ _ _ Sim1) by lia. done.
Qed.

Lemma simulates_FDIV_M : displaced -> type_of instr = FDIV_M -> simulates instr h_FDIV_M.
Proof.
  intros Hz Ety. enter.
  assert (El : lower 0 instr = mkIBC (PE (reg4 (dst instr))) (PR (reg8 (src instr))) (sext32 (getImm32 instr)) FDIV_M 0 (mem_level instr)) by slot Ety.
  rewrite El in He. eapply exec1_inv in He; [|intros ?; reflexivity].
  apply bind_Done in He as (ad & Ea & He). apply bind_Done in He as (s & Es & He). apply (flt_e _ _ _ _ _ (reg4 (dst instr))) in He as ->; [|done].
  unfold h_FDIV_M in H. cbv zeta in H. apply bind_Done in H as (st1 & E1 & H). apply bind_Done in H as (st2 & E2 & E3). rewrite reg4_Z.
  destruct (flows_load_fp C _ _ _ _ _ H0 E1) as (_ & N1 & _). destruct (flows_emit C _ _ _ N1 E2) as (_ & N2 & F2). destruct (flows_emit C _ _ _ N2 E3) as (_ & _ & F3).
  pose proof (F3 Hs) as S2. pose proof (F2 S2) as S1.
  destruct (fp_operand x ms st st1 _ ad s Hz E1 S1 H0 Hsim Hx Hp Ea Es eq_refl eq_refl eq_refl) as (ms1 & L & P1 & Sim1 & V28 & lv & hv & ->).
  eapply reached_trans; [exact L|]. destruct (si_machine _ _ _ _ _ _ Sim1) as [M1 Hv1]. destruct (si_masks _ _ _ _ _ _ Sim1) as (K29 & K30 & _).
  set (s := mask_float m (mkFloat (of_int32 lv) (of_int32 hv))) in *.
  destruct (emit_leads C base _ _ _ _ ms1 (set_v (vpc ms1 + 4) 28 s ms1) E2 S2 (encodes_bif 28 30 29 ltac:(lia) ltac:(lia) ltac:(lia)) P1) as (L2 & K2 & _).
  { cbn [vec_exec exec_vec]. rewrite V28, K29, K30. cbn [lo hi]. rewrite !bif_mask by apply Hmask. done. }
  eapply reached_trans; [exact L2|].
  assert (Sim2 : sim x (set_v (vpc ms1 + 4) 28 s ms1)) by (apply sim_scratch; [done|by apply temp_refl]).
  destruct (computes_fdiv (dst instr mod 4 + 20) (dst instr mod 4 + 20) 28) as (i & W & X); [lia|lia|lia|].
  eapply set_e_word; [exact E3|done|exact W|exact Sim2|done|unfold set_v; cbn [vpc]; lia|lia|]. rewrite (X _ _ (sim_rounding _ _ _ _ _ _ Sim2)).
  rewrite !(Z.add_comm (dst instr mod 4)). rewrite (si_e _ _ _ _ _ _ Sim2) by lia.
  unfold set_v at 3. cbn [vv]. by rewrite vget_vset by (done || lia).
Qed.

(** ** The rounding mode *)

Lemma simulates_CFROUND : type_of instr = CFROUND -> simulates instr h_CFROUND.
Proof.
  intros Ety. enter. assert (El : lower 0 instr = mkIBC PNull (PR (reg8 (src instr))) (Z.land (getImm32 instr) 63) CFROUND 0 0) by slot Ety.
  rewrite El in He. eapply exec1_inv in He; [|intros ?; reflexivity]. cbn [isrc imm] in He. apply bind_Done in He as (v & Ev & He). injection He as <-.
  rewrite (reg8_src instr Hn) in Ev. apply load_r in Ev as ->. rewrite <- (si_r _ _ _ _ _ _ Hsim _ Hsr).
  destruct (land63 (getImm32 instr)) as [H63 _]. rewrite (wrap_small 32) by (unfold in_range; lia).
  pose proof (xget_word (vx ms) (int_reg (src instr)) Hm ltac:(lia)) as Ws. set (k := Z.land (getImm32 instr) 63) in *. set (sv := xget (vx ms) (int_reg (src instr))) in *.
  pose proof (rotr64_range sv k Ws) as Wv. set (v := rotr64 sv k) in *.
  unfold h_CFROUND in H. cbv zeta in H. apply bind_Done in H as (st1 & E1 & H). apply bind_Done in H as (st2 & E2 & H).
  assert (Hf1 : flags st1.1 = flags st.1) by (by apply emit_inv in E1 as (c & _ & ->)). rewrite Hf1, Hfl in E2. change (negb (0 =? 0)) with false in E2. injection E2 as <-.
  apply bind_Done in H as (st3 & E3 & H). apply bind_Done in H as (st4 & E4 & E5).
  destruct (flows_emit C _ _ _ H0 E1) as (_ & N1 & _). destruct (flows_emit C _ _ _ N1 E3) as (_ & N3 & F3). destruct (flows_emit C _ _ _ N3 E4) as (_ & N4 & F4).
  destruct (flows_emit C _ _ _ N4 E5) as (_ & _ & F5). pose proof (F5 Hs) as S4. pose proof (F4 S4) as S3. pose proof (F3 S3) as S1.
  destruct (si_mode _ _ _ _ _ _ Hsim) as (Hmd & Hfe & H8 & Hfp). set (md := v mod 4). assert (Hmd' : 0 <= md < 4) by (apply Z.mod_pos_bound; lia).
  destruct (emit_leads C base _ _ _ _ ms (set_x (vpc ms + 4) 20 v ms) E1 S1 (encodes_ror_imm 20 (int_reg (src instr)) k ltac:(lia) ltac:(lia) H63) Hp) as (L1 & K1 & _).
  { cbn [vec_exec exec mbind outcome_bind]. fold sv. by rewrite extr_rotr. }
  set (m1 := set_x (vpc ms + 4) 20 v ms) in *.
  destruct (emit_leads C base _ _ _ _ m1 (set_x (vpc m1 + 4) 8 (md * 2 ^ 40) m1) E3 S3 encodes_bfi) as (L3 & K3 & _); [unfold m1, set_x; cbn [vpc]; lia| |].
  { assert (G8 : xget (vx m1) 8 = last_rounding_mode_ x * 2 ^ 40) by (rewrite <- H8; apply xget_xset_ne; lia).
    assert (G20 : xget (vx m1) 20 = v) by (apply xget_xset; [done|lia]). cbn [vec_exec exec_vec]. rewrite G8, G20. by rewrite bfi_mode. }
  set (m3 := set_x (vpc m1 + 4) 8 (md * 2 ^ 40) m1) in *. assert (Wm : word64 (md * 2 ^ 40)) by (unfold in_range; lia).
  assert (M1 : machine (vx m1)) by (by apply xset_machine). assert (M3 : machine (vx m3)) by (by apply xset_machine).
  assert (Wr : word64 (rbit64 (md * 2 ^ 40))).
  { assert (Eq : md = 0 \/ md = 1 \/ md = 2 \/ md = 3) by lia. by destruct Eq as [->|[->|[->| ->]]]. }
  destruct (emit_leads C base _ _ _ _ m3 (set_x (vpc m3 + 4) 20 (rbit64 (md * 2 ^ 40)) m3) E4 S4 encodes_rbit) as (L4 & K4 & _); [unfold m3, m1, set_x; cbn [vpc]; lia| |].
  { assert (G8 : xget (vx m3) 8 = md * 2 ^ 40) by (apply xget_xset; [done|lia]). cbn [vec_exec exec_vec]. by rewrite G8. }
  set (m4 := set_x (vpc m3 + 4) 20 (rbit64 (md * 2 ^ 40)) m3) in *.
  destruct (emit_leads C base _ _ _ _ m4 (mkVec (vpc m4 + 4) (vx m4) (vv m4) (rbit64 (md * 2 ^ 40)) (zf m4) (vmem m4)) E5 Hs encodes_msr) as (L5 & K5 & _);
    [unfold m4, m3, m1, set_x; cbn [vpc]; lia| |].
  { assert (G20 : xget (vx m4) 20 = rbit64 (md * 2 ^ 40)) by (apply xget_xset; [done|lia]). cbn [vec_exec exec_vec]. by rewrite G20. }
  eapply reached_trans; [exact L1|]. eapply reached_trans; [exact L3|]. eapply reached_trans; [exact L4|]. eapply reached_trans; [exact L5|].
  eexists. split; [apply leads_refl|]. split; [unfold m4, m3, m1, set_x; cbn [vpc]; lia|].
  assert (Ex : rx_set_rounding_mode md x = mkX (reg_ x) (scratchpad_ x) md (rounding_of md)).
  { unfold rx_set_rounding_mode. change 3 with (Z.ones 2). rewrite Z.land_ones by lia. change (2 ^ 2) with 4. rewrite Z.mod_small by lia.
    destruct (Z.eqb_spec md (last_rounding_mode_ x)) as [E|]; [|done]. rewrite E, <- Hfe. by destruct x. }
  rewrite Ex. unfold m4, m3, m1, set_x. cbn [vx vv fpcr zf vmem vpc].
  assert (G : forall n, 0 <= n < 31 -> n <> 8 -> n <> 20 -> xget (xset (xset (xset (vx ms) 20 v) 8 (md * 2 ^ 40)) 20 (rbit64 (md * 2 ^ 40))) n = xget (vx ms) n).
  { intros n Hn8 Hne1 Hne2. rewrite !xget_xset_ne by lia. done. }
  destruct Hsim as [[Q1 Q1'] Q2 Q3 Q4 Q5 Q6 Q7 Q8 Q9 Q10 Q11]. constructor; cbn [vx vv fpcr zf vmem vpc reg_ scratchpad_ last_rounding_mode_ fe_round]; try done.
  - split; [|done]. by apply xset_machine.
  - intros i Hi2. pose proof (int_reg_range i Hi2). rewrite G by lia. by apply Q2.
  - rewrite G by lia. done.
  - split; [done|]. split; [done|]. split; [|done]. rewrite xget_xset_ne by lia. apply xget_xset; [done|lia].
  - apply (pooled_keep C ms); [done| |done]. intros n Hn2 Hc. apply G; lia.
  - intros n Hk. pose proof (kept_range n Hk). rewrite G by lia. by apply Q11.
Qed.

(** ** Stores *)

Lemma simulates_ISTORE : type_of instr = ISTORE -> simulates instr h_ISTORE.
Proof.
  intros Ety. enter. set (size := if getModCond instr <? 14 then mem_size instr else L3) in *.
  assert (Hlv : level size) by (unfold size; destruct (_ <? 14); [apply mem_size_level|unfold level; auto]).
  assert (El : lower 0 instr = mkIBC (PR (reg8 (dst instr))) (PR (reg8 (src instr))) (sext32 (getImm32 instr)) ISTORE 0 (size - 8)).
  { unfold lower. rewrite Ety. cbn [handler_of]. unfold Bytecode.h_ISTORE. cbv zeta.
    assert (Es : (if getModCond instr <? 14 then mem_level instr else kScratchpadL3Mask) = size - 8) by (unfold size; destruct (_ <? 14); [apply mem_level_size|done]).
    rewrite Es. reflexivity. }
  rewrite El in He. eapply exec1_inv in He; [|intros ?; reflexivity]. cbn [idst isrc imm memMask] in He.
  rewrite (reg8_dst instr Hn), (reg8_src instr Hn) in He. apply bind_Done in He as (d & Ed & He). apply bind_Done in He as (s & Es & He).
  apply load_r in Ed as ->. apply load_r in Es as ->. unfold store64 in He. apply bind_Done in He as (mem & Ew & He). injection He as <-.
  pose proof (si_r _ _ _ _ _ _ Hsim _ Hd) as Vd. pose proof (si_r _ _ _ _ _ _ Hsim _ Hsr) as Vs.
  rewrite <- Vd, <- Vs, <- (si_mem _ _ _ _ _ _ Hsim), <- (address_store _ _ size Hlv Hi) in Ew.
  unfold h_ISTORE in H. cbv zeta in H. fold size in H. apply bind_Done in H as (st1 & E1 & H). apply bind_Done in H as (st2 & E2 & E3).
  destruct (flows_add C _ _ _ _ _ _ H0 E1) as (_ & N1 & _). destruct (flows_emit C _ _ _ N1 E2) as (_ & N2 & F2). destruct (flows_emit C _ _ _ N2 E3) as (_ & _ & F3).
  pose proof (F3 Hs) as S2. pose proof (F2 S2) as S1. pose proof (masked_range (getImm32 instr) size Hlv) as Hmr. cbv zeta in Hmr.
  pose proof (add_tmp_leads C base (int_reg (dst instr)) _ st st1 ms E1 S1 H0 (si_pool _ _ _ _ _ _ Hsim) ltac:(lia) ltac:(lia) ltac:(lia) Hm Hp) as L1.
  set (y := add64 _ _) in *. assert (Wy : word64 y) by apply add64_range. destruct (masked_address y size (proj1 Wy) Hlv) as (A1 & A2 & A3). set (ad := Z.land y (size - 8)) in *.
  eapply reached_trans; [exact L1|].
  destruct (emit_leads C base _ _ _ _ (set_x st1.2 20 y ms) (set_x st2.2 20 ad ms) E2 S2 (encodes_and 20 20 size ltac:(lia) ltac:(lia) Hlv) eq_refl) as (L2 & K2 & _).
  { apply emit_inv in E2 as (c & _ & ->). cbn [vec_exec exec_vec set_x vx vmem fst snd vpc vv fpcr zf]. rewrite xget_xset by (done || lia). by rewrite xset_xset. }
  eapply reached_trans; [exact L2|].
  destruct (emit_leads C base _ _ _ _ (set_x st2.2 20 ad ms) (mkVec (st2.2 + 4) (xset (vx ms) 20 ad) (vv ms) (fpcr ms) (zf ms) mem) E3 Hs
    (encodes_str (int_reg (src instr)) 20 ltac:(lia) ltac:(lia)) eq_refl) as (L3 & K3 & _).
  { cbn [vec_exec exec_vec set_x vx vmem fst snd vpc vv fpcr zf]. rewrite xget_xset by (done || lia). rewrite !xget_xset_ne by lia.
    rewrite (si_base _ _ _ _ _ _ Hsim), shl64_0 by done. rewrite (address_value base Hbase) by done. by rewrite Ew. }
  eexists. split; [exact L3|]. split; [done|].
  pose proof (sim_temp C base m K x ms (xset (vx ms) 20 ad) (st2.2 + 4) (zf ms) Hsim ltac:(apply temp_set; [done|done|by right])) as [Q1 Q2 Q3 Q4 Q5 Q6 Q7 Q8 Q9 [Q10 Q11] Q12].
  by constructor.
Qed.

Lemma simulates_NOP : type_of instr = NOP -> simulates instr h_NOP.
Proof.
  intros Ety. enter. assert (El : lower 0 instr = mkIBC PNull PNull 0 NOP 0 0) by slot Ety.
  rewrite El in He. injection He as <-. injection H as <-. exists ms. split; [apply leads_refl|done].
Qed.

(** ** Branches *)

Lemma lower_cbranch u : type_of instr = CBRANCH -> let sh := getModCond instr + 8 in
  lower u instr = mkIBC (PR (reg8 (dst instr))) PNull
    (Z.land (Z.lor (sext32 (getImm32 instr)) (shl64 1 sh)) (not64 (shl64 1 (sh - 1)))) CBRANCH (wrap 16 u) (wrap 32 (Z.shiftl 255 sh)).
Proof.
  intros Ety sh. pose proof (modCond_range instr Hwf) as Hc. unfold lower. rewrite Ety. cbn [handler_of]. unfold Bytecode.h_CBRANCH. cbv zeta. fold sh.
  destruct (Z.ltb_spec 0 sh); [|unfold sh in *; lia]. rewrite lookup_total_replicate_2 by apply reg8_lt. reflexivity.
Qed.

(** The condition register is updated; the branch goes back to after its last change, or on. *)
Lemma simulates_CBRANCH st st' x ms u pc pc' x' :
  let offset := reg_changed_offset st.1 !!! Z.to_nat (dst instr) in
  type_of instr = CBRANCH -> h_CBRANCH instr st = Done st' -> settled C st' -> ready_to_emit st -> sim x ms -> x_wf x -> vpc ms = st.2 ->
  0 <= offset <= st.2 -> offset mod 4 = 0 -> -1 <= u < 256 -> execute_one m (lower u instr) pc x = Done (pc', x') ->
  exists ms', leads C base ms ms' /\ sim x' ms' /\ (pc' = u /\ vpc ms' = offset \/ pc' = pc /\ vpc ms' = st'.2).
Proof.
  intros offset Ety H Hs (H0 & Hal & _) Hsim Hx Hp Ho Ho4 Hu He. pose proof (imm_range instr Hwf) as Hi. destruct (xw_r _ Hx) as [Hl Hw].
  pose proof (int_reg_range _ Hd) as Rd. pose proof (modCond_range instr Hwf) as Hc.
  rewrite (lower_cbranch u Ety) in He. unfold execute_one in He. cbn [type idst imm memMask] in He. unfold target in He. cbn [shift] in He.
  rewrite target_of_usage in He by done. rewrite (reg8_dst instr Hn) in He. apply bind_Done in He as (v & Ev & He). apply bind_Done in He as (x1 & Ex & He).
  apply load_r in Ev as ->. apply store_r in Ex as ->; [|lia]. apply Done_pair in He as [Epc <-].
  unfold h_CBRANCH in H. cbv zeta in H. set (sh := getModCond instr + 8) in *.
  destruct (branch_immediate (getImm32 instr) sh Hi ltac:(unfold sh; lia)) as [Him Eim]. cbv zeta in Him, Eim. set (im := Z.land (Z.lor (getImm32 instr) _) _) in *.
  rewrite <- Eim in *. set (v := add64 (r (reg_ x) !!! Z.to_nat (dst instr)) (sext32 im)) in *.
  apply bind_Done in H as (st1 & E1 & H). apply bind_Done in H as (st2 & E2 & H). apply bind_Done in H as ([j3 k3] & E3 & H). apply bind_Done in H as ([j4 k4] & E4 & H). injection H as <-.
  destruct (flows_add C _ _ _ _ _ _ H0 E1) as ((K1 & _) & N1 & _). destruct (flows_emit C _ _ _ N1 E2) as (_ & N2 & F2). destruct (flows_emit C _ _ _ N2 E3) as (_ & N3 & F3).
  destruct (flows_emit C _ _ _ N3 E4) as (_ & N4 & F4).
  assert (S4 : settled C (j4, k4)) by (destruct Hs as [[A1 A2] A3 A4 A5]; by constructor). pose proof (F4 S4) as S3. pose proof (F3 S3) as S2. pose proof (F2 S2) as S1.
  assert (Eoff : reg_changed_offset j3 = reg_changed_offset st.1).
  { assert (Q : keeps (fun s s' => reg_changed_offset s'.1 = reg_changed_offset s.1) (emitAddImmediate (int_reg (dst instr)) (int_reg (dst instr)) im 20)).
    { apply keeps_add; [split; [done|by intros ? ? ? -> ->]| |done]. by intros w s s' (c & _ & ->)%emit_inv. }
    apply Q in E1. apply emit_inv in E2 as (c2 & _ & ->). apply emit_inv in E3 as (c3 & _ & E3). injection E3 as -> _. exact E1. }
  rewrite Eoff in E4. fold offset in E4.
  destruct (add_dest C base m K _ _ _ _ _ ms E1 S1 H0 Hsim Hl Hp Hd Him) as (ms1 & L1 & P1 & Sim1). fold v in Sim1.
  pose proof (si_r _ _ _ _ _ _ Sim1 _ Hd) as V1. rewrite set_r_lookup in V1 by done.
  destruct (emit_leads C base _ _ _ _ ms1 (mkVec (vpc ms1 + 4) (vx ms1) (vv ms1) (fpcr ms1) (Z.land v (255 * 2 ^ sh) =? 0) (vmem ms1)) E2 S2
    (encodes_tst (getModCond instr) (int_reg (dst instr)) ltac:(lia) ltac:(lia)) P1) as (L2 & K2 & _).
  { cbn [vec_exec exec_vec]. fold sh. by rewrite V1. }
  assert (Emask : wrap 32 (Z.shiftl 255 sh) = 255 * 2 ^ sh).
  { rewrite Z.shiftl_mul_pow2 by (unfold sh; lia). apply wrap_small. unfold in_range. assert (0 < 2 ^ sh <= 2 ^ 23) by (split; [apply pow2_pos|apply Z.pow_le_mono_r]; unfold sh; lia). lia. }
  rewrite Emask in Epc. set (taken := Z.land v (255 * 2 ^ sh) =? 0) in *.
  set (ms2 := mkVec (vpc ms1 + 4) (vx ms1) (vv ms1) (fpcr ms1) taken (vmem ms1)) in *.
  assert (Sim2 : forall k, sim (set_r (dst instr) v x) (mkVec k (vx ms2) (vv ms2) (fpcr ms2) (zf ms2) (vmem ms2))).
  { intros k. apply (sim_temp C base m K _ ms1 (vx ms1) k taken Sim1). apply temp_refl, Sim1. }
  assert (P2 : vpc ms2 = st2.2) by (unfold ms2; cbn [vpc]; lia).
  destruct (emit_leads C base _ _ _ _ ms2 (mkVec (vpc ms2 + (if taken then 4 else 8)) (vx ms2) (vv ms2) (fpcr ms2) (zf ms2) (vmem ms2)) E3 S3 encodes_bne P2 eq_refl) as (L3 & K3 & _).
  cbn [snd] in K3. assert (K4 : k4 = k3 + 4) by (apply emit_inv in E4 as (c4 & _ & E4); by injection E4).
  assert (L : leads C base ms (mkVec (vpc ms2 + (if taken then 4 else 8)) (vx ms2) (vv ms2) (fpcr ms2) (zf ms2) (vmem ms2)))
    by (eapply leads_trans; [exact L1|]; eapply leads_trans; [exact L2|exact L3]).
  destruct taken eqn:Et.
  - assert (A3 : aligned (j3, k3)).
    { destruct (flows_add C _ _ _ _ _ _ H0 E1) as ((_ & A1) & _ & _). destruct (flows_emit C _ _ _ N1 E2) as ((_ & A2) & _ & _).
      destruct (flows_emit C _ _ _ N2 E3) as ((_ & A3) & _ & _). auto. }
    destruct A3 as (A3 & _). cbn [snd] in A3. destruct S3 as [_ [R1 R2] _ _]. cbn [fst snd] in R1, R2.
    destruct (emit_leads C base _ _ _ _ (mkVec (vpc ms2 + 4) (vx ms2) (vv ms2) (fpcr ms2) (zf ms2) (vmem ms2)) (mkVec (k3 + (offset - k3)) (vx ms2) (vv ms2) (fpcr ms2) (zf ms2) (vmem ms2)) E4 S4 (encodes_b (offset - k3) ltac:(plia) ltac:(unfold ImulRcpLiteralsEnd in *; lia)))
      as (L4 & _ & _).
    { cbn [vpc snd]. lia. }
    { cbn [vec_exec exec mbind outcome_bind vpc vx vv fpcr zf vmem]. do 2 f_equal. lia. }
    eexists. split; [eapply leads_trans; [exact L|exact L4]|]. split; [apply Sim2|]. left. split; [done|]. cbn [vpc]. lia.
  - eexists. split; [exact L|]. split; [apply Sim2|]. right. split; [done|]. cbn [vpc snd]. lia.
Qed.
End instruction.
End float.
