(* ===== verification/JitVmEquiv.v ===== *)
(** * Compiled programs compute what the interpreter computes

    The code that [emitPrologueMix] of src/src/jit_compiler_a64.cpp writes for a program, run on the A64
    machine, against the bytecode interpreter of src/src/vm.cpp: the emission's record of where each register
    last changed is the interpreter's [register_usage_], so branches go back to the same instruction, and one
    run of the code is one run of the interpreter. *)

From stdpp Require Import list.
From S2P Require Import Prelude RandomX Float Bytecode BytecodeSafety BytecodeTermination BytecodeStale Footprint JitSchedule JitEquiv JitSim A64 JitDataset A64Vec JitEmit JitLayout JitWords JitValues JitVmRun JitVmSim JitVmFloat.

(** ** The table *)

Definition emit_of (ty : InstructionType) : emitter_fn :=
  match ty with
  | IADD_RS => h_IADD_RS | IADD_M => h_IADD_M | ISUB_R => h_ISUB_R | ISUB_M => h_ISUB_M
  | IMUL_R => h_IMUL_R | IMUL_M => h_IMUL_M | IMULH_R => h_IMULH_R | IMULH_M => h_IMULH_M
  | ISMULH_R => h_ISMULH_R | ISMULH_M => h_ISMULH_M | IMUL_RCP => h_IMUL_RCP | INEG_R => h_INEG_R
  | IXOR_R => h_IXOR_R | IXOR_M => h_IXOR_M | IROR_R => h_IROR_R | IROL_R => h_IROL_R
  | ISWAP_R => h_ISWAP_R | FSWAP_R => h_FSWAP_R | FADD_R => h_FADD_R | FADD_M => h_FADD_M
  | FSUB_R => h_FSUB_R | FSUB_M => h_FSUB_M | FSCAL_R => h_FSCAL_R | FMUL_R => h_FMUL_R
  | FDIV_M => h_FDIV_M | FSQRT_R => h_FSQRT_R | CBRANCH => h_CBRANCH | CFROUND => h_CFROUND
  | ISTORE => h_ISTORE | NOP => h_NOP
  end.

(** Compiler and interpreter decode every opcode to the same instruction. *)
Lemma emit_at st st' instr : emit_vm_instruction st instr = Done st' -> emit_of (type_of instr) instr st = Done st'.
Proof.
  assert (E : engine = emit_of <$> kTypeOfEngine) by reflexivity. unfold emit_vm_instruction. intros H.
  apply bind_Done in H as (h & [_ Hh]%at_index_Done & H). rewrite E, list_lookup_fmap in Hh.
  unfold resolveInstructionType. apply fmap_Some in Hh as (ty & Hh & ->). by rewrite (list_lookup_total_correct _ _ _ Hh).
Qed.

(** ** Where registers last changed *)

(** What a handler records: the registers the interpreter marks as changed get the position after its code,
    all of them after a branch. *)
Record tracked (instr : Instruction) (st st' : emission) : Prop := mkTracked {
  tr_aligned : aligned st -> aligned st';
  tr_bytes : Bytes (code st.1) -> Bytes (code st'.1);
  tr_length : length (reg_changed_offset st'.1) = 8%nat;
  tr_offset : forall k, (k < 8)%nat -> reg_changed_offset st'.1 !!! k =
    if is_cbranch_instr instr || updates instr k then st'.2 else reg_changed_offset st.1 !!! k;
}.

(** Code that changes no integer register of the program, as far as branches know. *)
Definition still (st st' : emission) : Prop :=
  (aligned st -> aligned st') /\ (Bytes (code st.1) -> Bytes (code st'.1)) /\ reg_changed_offset st'.1 = reg_changed_offset st.1.
#[local] Instance still_preorder : PreOrder still.
Proof. split; [by intros st|]. intros s1 s2 s3 (A1 & B1 & E1) (A2 & B2 & E2). split; [auto|]. split; [auto|congruence]. Qed.

Lemma still_emit w : keeps still (emit w).
Proof.
  intros st st' (c & E & ->)%emit_inv. split; [|split; [|done]]; cbn [fst with_code code]; [|intros B; by eapply write_bytes_range; [| |exact E]; [|apply le_bytes_range]].
  unfold aligned. cbn [fst snd with_code literalPos]. intros [A1 A2]. split; [plia|done].
Qed.
Lemma still_literal imm c j k : write_bytes (code j) (ImulRcpLiteralsEnd + 4 * num32bitLiterals j) (le_bytes 4 imm) = Done c ->
  still (j, k) (mkJit c (literalPos j) (num32bitLiterals j + 1) (reg_changed_offset j) (flags j), k).
Proof.
  intros E. split; [done|]. split; [|done]. cbn [fst code]. intros B. by eapply write_bytes_range; [| |exact E]; [|apply le_bytes_range].
Qed.
Lemma still_mov d imm : keeps still (emitMovImmediate d imm).
Proof. apply keeps_mov; [apply _|apply still_emit|apply still_literal]. Qed.
Lemma still_add d s imm t : keeps still (emitAddImmediate d s imm t).
Proof. apply keeps_add; [apply _|apply still_emit|apply still_literal]. Qed.
Lemma still_load t d s instr : keeps still (emitMemLoad t d s instr).
Proof. apply keeps_load; [apply _|apply still_emit|apply still_literal]. Qed.
Lemma still_load_fp t s instr : keeps still (emitMemLoadFP t s instr).
Proof. apply keeps_load_fp; [apply _|apply still_emit|apply still_literal]. Qed.
Lemma still_flags w1 w2 : keeps still (fun st => if negb (Z.land (flags st.1) RANDOMX_FLAG_V2 =? 0) then st ← emit w1 st; emit w2 st else Done st).
Proof.
  intros st st'. destruct (negb _); [|by intros [= <-]]. revert st st'. apply keeps_bind; [apply _|apply still_emit|apply still_emit].
Qed.

(** Decomposes an emission without [reg_changed]. *)
Ltac stay :=
  lazymatch goal with
  | |- keeps still (emit _) => apply still_emit
  | |- keeps still (fun st => emit _ st) => apply still_emit
  | |- keeps still (fun st => emitMovImmediate _ _ st) => apply still_mov
  | |- keeps still (fun st => emitAddImmediate _ _ _ _ st) => apply still_add
  | |- keeps still (fun st => emitMemLoad _ _ _ _ st) => apply still_load
  | |- keeps still (fun st => emitMemLoadFP _ _ _ st) => apply still_load_fp
  | |- keeps still (fun st => if negb (Z.land (flags st.1) _ =? 0) then _ else _) => apply still_flags
  | |- keeps still (fun st => Done st) => apply (keeps_return still)
  | |- keeps still (fun st => if ?c then @?f st else @?g st) => apply (keeps_if still c f g); stay
  | |- keeps still (fun st => mbind (fun st' => @?g st') (@?f st)) => apply (keeps_bind still f g); stay
  end.

Section tracking.
Context (instr : Instruction) (Hn : normal instr).

(** What [f] records is right. *)
Definition records (f : emitting) : Prop := forall st st', f st = Done st' -> length (reg_changed_offset st.1) = 8%nat -> tracked instr st st'.

Lemma records_seq f g : keeps still f -> records g -> records (fun st => st ← f st; g st).
Proof.
  intros Hf Hg st st' E Hl. apply bind_Done in E as (s1 & E1 & E2). destruct (Hf _ _ E1) as (A1 & B1 & H1). rewrite <- H1 in Hl.
  destruct (Hg _ _ E2 Hl) as [T1 TB T2 T3]. constructor; [auto|auto|done|]. intros k Hk. by rewrite <- H1, T3.
Qed.

Lemma records_still f : keeps still f -> is_cbranch_instr instr = false -> (forall k, updates instr k = false) -> records f.
Proof.
  intros Hf Hb Hu st st' E Hl. destruct (Hf st st' E) as (H1 & HB & H2). constructor; [done|done|by rewrite H2|].
  intros k Hk. by rewrite Hb, Hu, H2.
Qed.

Lemma records_changed : is_cbranch_instr instr = false -> (forall k, updates instr k = (k =? reg8 (dst instr))%nat) ->
  records (reg_changed (dst instr)).
Proof.
  intros Hb Hu [j k] st' [= <-] Hl. cbn [fst snd] in *. constructor; cbn [fst snd reg_changed_offset]; [done|done|by rewrite length_insert|].
  intros i Hi. rewrite Hb, Hu, (reg8_normal _ (proj1 Hn)). cbn [orb]. destruct (Nat.eqb_spec i (Z.to_nat (dst instr))) as [->|Hne].
  - apply list_lookup_total_insert_eq. rewrite Hl. destruct Hn. lia.
  - by apply list_lookup_total_insert_ne.
Qed.

Lemma tracked_swap st st' : type_of instr = ISWAP_R -> h_ISWAP_R instr st = Done st' ->
  length (reg_changed_offset st.1) = 8%nat -> tracked instr st st'.
Proof.
  intros Ety H Hl. destruct Hn as [Hd Hs]. unfold h_ISWAP_R in H. cbv zeta in H. rewrite int_reg_eqb in H by done.
  assert (U : forall k, updates instr k = negb (src instr =? dst instr) && ((k =? Z.to_nat (dst instr))%nat || (k =? Z.to_nat (src instr))%nat)).
  { intros k. unfold updates. rewrite Ety, !reg8_normal by done. do 2 f_equal. apply Bool.eq_iff_eq_true. rewrite Nat.eqb_eq, Z.eqb_eq. lia. }
  assert (B : is_cbranch_instr instr = false) by (unfold is_cbranch_instr; by rewrite Ety).
  destruct (src instr =? dst instr).
  { injection H as <-. constructor; [done|done|done|]. intros k Hk. by rewrite B, U. }
  assert (Q : keeps still (fun st => st ← emit (Z.lor (Z.lor ARMV8A.MOV_REG 20) (Z.shiftl (int_reg (dst instr)) 16)) st;
    st ← emit (Z.lor (Z.lor ARMV8A.MOV_REG (int_reg (dst instr))) (Z.shiftl (int_reg (src instr)) 16)) st;
    emit (Z.lor (Z.lor ARMV8A.MOV_REG (int_reg (src instr))) (Z.shiftl 20 16)) st)) by stay.
  apply bind_Done in H as (s1 & E1 & H). apply bind_Done in H as (s2 & E2 & H). apply bind_Done in H as (s3 & E3 & H).
  destruct (Q st s3) as (Q1 & QB & Q2); [by rewrite E1; cbn [mbind outcome_bind]; rewrite E2|]. destruct s3 as [j k]. cbn [reg_changed mbind outcome_bind] in H.
  injection H as <-. cbn [fst snd] in Q1, QB, Q2.
  constructor; cbn [fst snd reg_changed_offset]; [done|done|by rewrite !length_insert, Q2|]. intros i Hi. rewrite B, U, Q2. cbn [negb orb andb].
  destruct (Nat.eqb_spec i (Z.to_nat (dst instr))) as [->|Hne]; [apply list_lookup_total_insert_eq; rewrite length_insert; lia|].
  rewrite list_lookup_total_insert_ne by done. destruct (Nat.eqb_spec i (Z.to_nat (src instr))) as [->|Hne2].
  - apply list_lookup_total_insert_eq. lia.
  - by apply list_lookup_total_insert_ne.
Qed.

Lemma tracked_rcp st st' : instruction_wf instr -> type_of instr = IMUL_RCP -> h_IMUL_RCP instr st = Done st' ->
  length (reg_changed_offset st.1) = 8%nat -> tracked instr st st'.
Proof.
  intros Hwf Ety H Hl. destruct st as [j k]. unfold h_IMUL_RCP in H. cbv zeta in H. rewrite (trivial_divisor (getImm32 instr)) in H by apply Hwf.
  assert (B : is_cbranch_instr instr = false) by (unfold is_cbranch_instr; by rewrite Ety).
  assert (U : forall k, updates instr k = negb (isZeroOrPowerOf2_64 (getImm32 instr)) && (k =? reg8 (dst instr))%nat) by (intros i; unfold updates; by rewrite Ety).
  destruct (isZeroOrPowerOf2_64 (getImm32 instr)).
  { injection H as <-. constructor; [done|done|done|]. intros i Hi. by rewrite B, U. }
  apply bind_Done in H as (rcp & _ & H). apply bind_Done in H as (c & Ec & H). set (j1 := mkJit _ _ _ _ _) in H. set (id := _ / 8) in H. set (ws := literal_offset _ _) in H.
  assert (R : records (fun st => st ← (if id <? 12 then emit (op3 ARMV8A.MUL (int_reg (dst instr)) (int_reg (dst instr)) (literal_regs !!! Z.to_nat id)) st
    else st ← emit (Z.lor (Z.lor ARMV8A.LDR_LITERAL 20) (Z.shiftl ws 5)) st; emit (op3 ARMV8A.MUL (int_reg (dst instr)) (int_reg (dst instr)) 20) st);
    reg_changed (dst instr) st)) by (apply records_seq; [stay|apply records_changed; [done|intros i; by rewrite U]]).
  destruct (R _ _ H Hl) as [T1 TB T2 T3]. constructor; [| |done|done];
    [|intros Hb; apply TB; cbn [fst j1 code]; by eapply write_bytes_range; [| |exact Ec]; [|apply le_bytes_range]].
  intros A. apply T1. destruct A as (A1 & A2 & A3). cbn [fst snd] in *. unfold aligned, j1. cbn [fst snd literalPos]. split; [done|]. split; [plia|lia].
Qed.

Lemma tracked_branch st st' : type_of instr = CBRANCH -> h_CBRANCH instr st = Done st' -> tracked instr st st'.
Proof.
  intros Ety H. unfold h_CBRANCH in H. cbv zeta in H. apply bind_Done in H as (s1 & E1 & H). apply bind_Done in H as (s2 & E2 & H).
  apply bind_Done in H as ([j3 k3] & E3 & H). apply bind_Done in H as ([j4 k4] & E4 & H). injection H as <-.
  apply still_add in E1 as (A1 & B1 & _). apply still_emit in E2 as (A2 & B2 & _). apply still_emit in E3 as (A3 & B3 & _). apply still_emit in E4 as (A4 & B4 & _).
  constructor; cbn [fst snd reg_changed_offset]; [intros A; exact (A4 (A3 (A2 (A1 A))))|intros B; exact (B4 (B3 (B2 (B1 B))))|done|]. intros k Hk.
  rewrite (lookup_total_replicate_2 8 k4 k Hk). unfold is_cbranch_instr. by rewrite bool_decide_true.
Qed.

Ltac record G :=
  lazymatch goal with
  | |- records (fun st => mbind (fun st' => @?g st') (@?f st)) => apply (records_seq f g); [stay|record G]
  | |- records _ => exact G
  end.

Lemma emit_tracked st st' : instruction_wf instr -> emit_of (type_of instr) instr st = Done st' ->
  length (reg_changed_offset st.1) = 8%nat -> tracked instr st st'.
Proof.
  intros Hwf. destruct (type_of instr) eqn:Ety; cbn [emit_of].
  all: try (by apply tracked_swap).
  all: try (by apply tracked_rcp).
  all: try (intros E _; by apply tracked_branch).
  all: assert (B : is_cbranch_instr instr = false) by (unfold is_cbranch_instr; by rewrite Ety).
  all: first [ assert (U : forall k, updates instr k = (k =? reg8 (dst instr))%nat) by (intros k; unfold updates; by rewrite Ety);
      pose proof (records_changed B U) as G
    | assert (U : forall k, updates instr k = false) by (intros k; unfold updates; by rewrite Ety) ].
  all: revert st st'; lazymatch goal with |- forall st st', ?f st = Done st' -> _ => change (records f) end.
  all: unfold h_IADD_RS, h_IADD_M, h_ISUB_R, h_ISUB_M, h_IMUL_R, h_IMUL_M, h_IMULH_R, h_IMULH_M, h_ISMULH_R, h_ISMULH_M, h_INEG_R, h_IXOR_R, h_IXOR_M,
    h_IROR_R, h_IROL_R, h_FSWAP_R, h_FADD_R, h_FADD_M, h_FSUB_R, h_FSUB_M, h_FSCAL_R, h_FMUL_R, h_FDIV_M, h_FSQRT_R, h_CFROUND, h_ISTORE, h_NOP,
    mem_handler, reg_handler, mulh_handler, float_handler, fmem_handler; cbv zeta.
  all: lazymatch goal with G : records (reg_changed _) |- _ => idtac | _ => apply records_still; [|done|done] end.
  all: lazymatch goal with G : records _ |- _ => record G | _ => stay end.
Qed.
End tracking.

(** ** Every instruction *)

(** The masked displacement of a floating-point memory operand is not 0. *)
Definition fp_displaced (instr : Instruction) : bool :=
  match type_of instr with
  | FADD_M | FSUB_M | FDIV_M => negb (Z.land (getImm32 instr) (mem_size instr - 1) =? 0)
  | _ => true
  end.

(** The interpreter's slot and step of an instruction of a known type. *)
Ltac slot_of Ety := unfold lower; rewrite Ety; reflexivity.
Ltac runs_live := let ibc := fresh in let xs := fresh in let E := fresh in
  intros ibc xs E; rewrite ?execute_one_live; unfold execute_one; by rewrite E.

Section instructions.
Context (C : list Z) (base : Z) (m : Z * Z) (K : Z -> Z).
Context (Hbase : 0 <= base /\ base + 2 ^ 21 <= 2 ^ 64) (Hmask : e_or_ok m.1 /\ e_or_ok m.2).

Lemma instr_simulates instr : normal instr -> instruction_wf instr -> fp_displaced instr = true ->
  type_of instr <> CBRANCH -> simulates C base m K instr (emit_of (type_of instr)).
Proof.
  intros Hn Hwf Hd Hb. unfold fp_displaced in Hd.
  assert (Hz : negb (Z.land (getImm32 instr) (mem_size instr - 1) =? 0) = true -> displaced instr) by (unfold displaced; blia).
  destruct (type_of instr) eqn:Ety; cbn [emit_of].
  - by apply simulates_IADD_RS.
  - by apply (simulates_mem _ _ _ _ Hbase _ Hn Hwf ARMV8A.ADD add64 _ IADD_M (computes_add C base)); [|exact Ety|slot_of Ety|runs_live].
  - by apply simulates_ISUB_R.
  - by apply (simulates_mem _ _ _ _ Hbase _ Hn Hwf ARMV8A.SUB sub64 _ ISUB_M (computes_sub C base)); [|exact Ety|slot_of Ety|runs_live].
  - by apply (simulates_reg _ _ _ _ _ Hn Hwf ARMV8A.MUL mul64 _ IMUL_R (computes_mul C base)); [|slot_of Ety|runs_live].
  - by apply (simulates_mem _ _ _ _ Hbase _ Hn Hwf ARMV8A.MUL mul64 _ IMUL_M (computes_mul C base)); [|exact Ety|slot_of Ety|runs_live].
  - by apply (simulates_mulh _ _ _ _ _ Hn Hwf ARMV8A.UMULH mulh _ IMULH_R (computes_umulh C base)); [|slot_of Ety|runs_live].
  - by apply (simulates_mem _ _ _ _ Hbase _ Hn Hwf ARMV8A.UMULH mulh _ IMULH_M (computes_umulh C base)); [|exact Ety|slot_of Ety|runs_live].
  - by apply (simulates_mulh _ _ _ _ _ Hn Hwf ARMV8A.SMULH smulh _ ISMULH_R (computes_smulh C base)); [|slot_of Ety|runs_live].
  - by apply (simulates_mem _ _ _ _ Hbase _ Hn Hwf ARMV8A.SMULH smulh _ ISMULH_M (computes_smulh C base)); [|exact Ety|slot_of Ety|runs_live].
  - by apply simulates_IMUL_RCP.
  - by apply simulates_INEG_R.
  - by apply (simulates_reg _ _ _ _ _ Hn Hwf ARMV8A.EOR Z.lxor _ IXOR_R (computes_eor C base)); [|slot_of Ety|runs_live].
  - by apply (simulates_mem _ _ _ _ Hbase _ Hn Hwf ARMV8A.EOR Z.lxor _ IXOR_M (computes_eor C base)); [|exact Ety|slot_of Ety|runs_live].
  - by apply simulates_IROR_R.
  - by apply simulates_IROL_R.
  - by apply simulates_ISWAP_R.
  - by apply simulates_FSWAP_R.
  - by apply (simulates_fa _ _ _ _ _ Hn Hwf ARMV8A.FADD fadd _ FADD_R (computes_fadd C base)); [|slot_of Ety|runs_live].
  - by apply (simulates_fmem _ _ _ _ Hbase _ Hn Hwf ARMV8A.FADD fadd _ FADD_M (Hz Hd) (computes_fadd C base)); [|slot_of Ety|runs_live].
  - by apply (simulates_fa _ _ _ _ _ Hn Hwf ARMV8A.FSUB fsub _ FSUB_R (computes_fsub C base)); [|slot_of Ety|runs_live].
  - by apply (simulates_fmem _ _ _ _ Hbase _ Hn Hwf ARMV8A.FSUB fsub _ FSUB_M (Hz Hd) (computes_fsub C base)); [|slot_of Ety|runs_live].
  - by apply simulates_FSCAL_R.
  - by apply simulates_FMUL_R.
  - apply simulates_FDIV_M; auto.
  - by apply simulates_FSQRT_R.
  - done.
  - by apply simulates_CFROUND.
  - by apply simulates_ISTORE.
  - by apply simulates_NOP.
Qed.
End instructions.

(** ** The emission as a sequence of states *)

Lemma ofoldl_trace {A B} `{Inhabited B} (f : A -> B -> outcome A) l a a' : ofoldl f a l = Done a' ->
  exists T : nat -> A, T 0%nat = a /\ T (length l) = a' /\ forall n, (n < length l)%nat -> f (T n) (l !!! n) = Done (T (S n)).
Proof.
  revert a. induction l as [|b l IH]; intros a; cbn [ofoldl].
  - intros [= <-]. exists (fun _ => a). split; [done|]. split; [done|]. cbn. lia.
  - intros E. apply bind_Done in E as (a1 & E1 & E2). destruct (IH a1 E2) as (T & T0 & Tl & Ts).
    exists (fun n => match n with O => a | S n => T n end). split; [done|]. split; [done|]. intros [|n] Hn; [by rewrite T0|].
    apply Ts. cbn in Hn. lia.
Qed.

Section trace.
Context (p : list Instruction) (j : jit) (T : nat -> emission).
Context (Hlen : length p = 256%nat) (Hwf : Forall instruction_wf p) (Hn : Forall normal p).
Context (Hbuf : BufferSize <= Z.of_nat (length (code j))) (Hv1 : Z.land (flags j) RANDOMX_FLAG_V2 = 0).
Context (T0 : T 0%nat = start j) (Ts : forall n, (n < 256)%nat -> emit_vm_instruction (T n) (p !!! n) = Done (T (S n))).

Lemma instr_at n : (n < 256)%nat -> instruction_wf (p !!! n) /\ normal (p !!! n).
Proof.
  intros H. destruct (lookup_lt_is_Some_2 p n ltac:(lia)) as [i Hi]. rewrite (list_lookup_total_correct _ _ _ Hi).
  split; [exact (Forall_lookup_1 _ _ _ _ Hwf Hi)|exact (Forall_lookup_1 _ _ _ _ Hn Hi)].
Qed.

(** One instruction's part. *)
Lemma trace_spent n b : (n < 256)%nat -> 0 <= b -> room (40 + b) (T n) -> spent 32 8 (T n) (T (S n)).
Proof.
  intros Hn1 Hb [R1 R2 R3]. destruct (engine_at _ (proj1 (instr_at n Hn1))) as (h & E & Hh).
  specialize (Ts n Hn1). unfold emit_vm_instruction in Ts. rewrite E in Ts. cbn [mbind outcome_bind] in Ts.
  assert (H : returns (spent 32 8 (T n)) (h (p !!! n) (T n))) by (apply Hh; constructor; [lia|done|done]). by rewrite Ts in H.
Qed.

(** Every state of the emission has room for what is left. *)
Lemma trace_room n : (n <= 256)%nat -> room (40 * (256 - Z.of_nat n)) (T n) /\ flags (T n).1 = flags j /\ PrologueSize <= (T n).2.
Proof.
  induction n as [|n IH]; intros Hle.
  - rewrite T0. split; [|done]. constructor; cbn; [unfold PrologueSize, ImulRcpLiteralsEnd; lia|lia|done].
  - destruct (IH ltac:(lia)) as (R & F & P). set (b := 40 * (256 - Z.of_nat (S n))).
    assert (R' : room (32 + 8 + b) (T n)) by (replace (32 + 8 + b) with (40 * (256 - Z.of_nat n)) by (unfold b; lia); done).
    assert (H : spent 32 8 (T n) (T (S n))) by (apply (trace_spent n b); [lia|unfold b; lia|done]).
    split; [by eapply spent_room|]. destruct H as [S1 _ _ _ S5 _]. split; [congruence|lia].
Qed.

Lemma trace_step n : (n < 256)%nat -> spent 32 8 (T n) (T (S n)).
Proof.
  intros H. destruct (trace_room n ltac:(lia)) as (R & _). apply (trace_spent n (40 * (256 - Z.of_nat n) - 40)); [done|lia|].
  by replace (40 + (40 * (256 - Z.of_nat n) - 40)) with (40 * (256 - Z.of_nat n)) by lia.
Qed.

(** A buffer that keeps the emitted code and literals has every state's. *)
Context (C : list Z) (HC : settled C (T 256%nat)).

Lemma spent_settled b l st st' : room (b + l) st -> spent b l st st' -> settled C st' -> settled C st.
Proof.
  intros [R1 R2 R3] [S1 S2 S3 [S4 _] _ S6] [[D1 D1'] D2 D3 D4]. constructor; [split; [congruence|done]|lia|lia|].
  intros i Hi. rewrite <- S6 by lia. apply D4. lia.
Qed.
Lemma trace_settled n : (n <= 256)%nat -> settled C (T n).
Proof.
  intros H. remember (256 - n)%nat as k eqn:Ek. revert n H Ek. induction k as [|k IH]; intros n H Ek.
  - by replace n with 256%nat by lia.
  - destruct (trace_room n H) as ([R1 R2 R3] & _). apply (spent_settled 32 8 _ (T (S n))); [constructor; [lia|done|done]|apply trace_step; lia|].
    apply IH; lia.
Qed.

Lemma trace_tracked n : (n < 256)%nat -> tracked (p !!! n) (T n) (T (S n)).
Proof.
  intros H. destruct (instr_at n H) as [H1 H2]. destruct (trace_room n ltac:(lia)) as ([_ _ [_ R]] & _). specialize (Ts n H). apply emit_at in Ts.
  by apply emit_tracked.
Qed.
Lemma trace_aligned n : (n <= 256)%nat -> aligned (T n).
Proof.
  induction n as [|n IH]; intros H; [by rewrite T0|]. apply (tr_aligned _ _ _ (trace_tracked n ltac:(lia))), IH. lia.
Qed.
Lemma trace_bytes n : Bytes (code j) -> (n <= 256)%nat -> Bytes (code (T n).1).
Proof.
  intros Hb. induction n as [|n IH]; intros H; [by rewrite T0|]. apply (tr_bytes _ _ _ (trace_tracked n ltac:(lia))), IH. lia.
Qed.
Lemma trace_ready n : (n <= 256)%nat -> ready_to_emit (T n).
Proof.
  intros H. destruct (trace_room n H) as ([_ R _] & F & _). split; [lia|]. split; [by apply trace_aligned|by rewrite F].
Qed.

(** [reg_changed_offset] is [register_usage_] in code positions. *)
Lemma trace_offset n k : (n <= 256)%nat -> (k < 8)%nat ->
  reg_changed_offset (T n).1 !!! k = (T (Z.to_nat (last_use updates p k n + 1))).2.
Proof.
  intros H Hk. induction n as [|n IH].
  - cbn [last_use]. change (Z.to_nat (-1 + 1)) with 0%nat. rewrite T0. cbn [start fst snd reg_changed_offset].
    exact (lookup_total_replicate_2 8 PrologueSize k Hk).
  - rewrite (tr_offset _ _ _ (trace_tracked n ltac:(lia)) k Hk). cbn [last_use]. destruct (_ || _).
    + by replace (Z.to_nat (Z.of_nat n + 1)) with (S n) by lia.
    + apply IH. lia.
Qed.
Lemma trace_mono n n' : (n <= n')%nat -> (n' <= 256)%nat -> (T n).2 <= (T n').2.
Proof.
  intros H. induction H as [|n' H IH]; intros Hl; [lia|]. pose proof (sp_code _ _ _ _ (trace_step n' ltac:(lia))). specialize (IH ltac:(lia)). lia.
Qed.

(** ** The run *)

Context (base : Z) (m : Z * Z) (K : Z -> Z) (Hbase : 0 <= base /\ base + 2 ^ 21 <= 2 ^ 64) (Hmask : e_or_ok m.1 /\ e_or_ok m.2) (Hm : mask_wf m).
Context (Hfp : forallb fp_displaced p = true).
Context (bc : list InstructionByteCode) (Hbc : compiled bc).
Context (Hslots : forall i, (i < 256)%nat -> exists x, at_index bc (Z.of_nat i) = Done x /\
  live x = lower (last_use updates p (reg8 (dst (p !!! i))) i) (p !!! i)).

Lemma fp_displaced_at n : (n < 256)%nat -> fp_displaced (p !!! n) = true.
Proof.
  intros H. rewrite forallb_forall in Hfp. apply Hfp, list_elem_of_In. destruct (lookup_lt_is_Some_2 p n ltac:(lia)) as [i Hi].
  rewrite (list_lookup_total_correct _ _ _ Hi). by eapply list_elem_of_lookup_2.
Qed.

(** The code of instruction [n] goes where the interpreter goes. *)
Lemma run_one n ibc x pc' x' ms : (n < 256)%nat -> at_index bc (Z.of_nat n) = Done ibc ->
  execute_one m ibc (Z.of_nat n) x = Done (pc', x') -> sim C base m K x ms -> x_wf x -> vpc ms = (T n).2 ->
  exists ms' n', leads C base ms ms' /\ sim C base m K x' ms' /\ pc' + 1 = Z.of_nat n' /\ (n' <= 256)%nat /\ vpc ms' = (T n').2.
Proof.
  intros Hlt Hat He Hsim Hx Hp. destruct (Hslots n Hlt) as (y & Hy & El). rewrite Hat in Hy. injection Hy as <-.
  destruct (instr_at n Hlt) as [Hw Hnn]. pose proof (emit_at _ _ _ (Ts n Hlt)) as Em. pose proof (trace_settled (S n) ltac:(lia)) as Hs.
  pose proof (trace_ready n ltac:(lia)) as Hr. rewrite <- execute_one_live, El in He. destruct (decide (type_of (p !!! n) = CBRANCH)) as [Ety|Ety].
  - set (u := last_use updates p (reg8 (dst (p !!! n))) n) in *. destruct (last_use_spec updates p (reg8 (dst (p !!! n))) n) as (Hu & _ & _). fold u in Hu.
    assert (Eo : reg_changed_offset (T n).1 !!! Z.to_nat (dst (p !!! n)) = (T (Z.to_nat (u + 1))).2).
    { rewrite <- (reg8_normal _ (proj1 Hnn)). apply trace_offset; [lia|apply reg8_lt]. }
    rewrite Ety in Em. cbn [emit_of] in Em.
    pose proof (trace_mono (Z.to_nat (u + 1)) n ltac:(lia) ltac:(lia)). destruct (trace_aligned (Z.to_nat (u + 1)) ltac:(lia)) as [Ha _].
    destruct (trace_room (Z.to_nat (u + 1)) ltac:(lia)) as (_ & _ & Hpr).
    destruct (simulates_CBRANCH C base m K _ Hnn Hw (T n) (T (S n)) x ms u (Z.of_nat n) pc' x' Ety Em Hs Hr Hsim Hx Hp) as (ms' & L & Hsim' & Hgo);
      [rewrite Eo; unfold PrologueSize in *; lia|by rewrite Eo|lia|exact He|].
    exists ms'. destruct Hgo as [[-> Hv]|[-> Hv]].
    + exists (Z.to_nat (u + 1)). split; [done|]. split; [done|]. split; [lia|]. split; [lia|]. by rewrite Hv, Eo.
    + exists (S n). split; [done|]. split; [done|]. split; [lia|]. split; [lia|done].
  - rewrite (lower_usage _ 0) in He by done. rewrite execute_one_exec1 in He by (by rewrite lower_branch).
    apply bind_Done in He as (x1 & He & E). apply Done_pair in E as [<- <-].
    destruct (instr_simulates C base m K Hbase Hmask _ Hnn Hw (fp_displaced_at n Hlt) Ety _ _ _ _ _ Em Hs Hr Hsim Hx Hp He) as (ms' & L & Hv & Hsim').
    exists ms', (S n). split; [done|]. split; [done|]. split; [lia|]. split; [lia|done].
Qed.

Lemma run_program fuel n x x' ms : (n <= 256)%nat -> execute_from fuel m bc (Z.of_nat n) x = Done x' ->
  sim C base m K x ms -> x_wf x -> vpc ms = (T n).2 -> exists ms', leads C base ms ms' /\ vpc ms' = (T 256%nat).2 /\ sim C base m K x' ms'.
Proof.
  revert n x ms. induction fuel as [|fuel IH]; intros n x ms Hle; cbn [execute_from]; destruct (Z.ltb_spec (Z.of_nat n) 256) as [Hlt|Hge].
  { done. }
  1, 3: intros [= <-] Hsim Hx Hp; exists ms; split; [apply leads_refl|]; by replace n with 256%nat in Hp by lia.
  intros H Hsim Hx Hp. apply bind_Done in H as (ibc & Hat & H). apply bind_Done in H as ([pc1 x1] & He & H).
  destruct (run_one n ibc x pc1 x1 ms ltac:(lia) Hat He Hsim Hx Hp) as (ms1 & n' & L1 & Hsim1 & E & Hn' & Hp1). rewrite E in H.
  assert (Hx1 : x_wf x1).
  { pose proof (execute_one_ok m ibc (Z.of_nat n) x Hm (at_index_Forall _ _ _ _ (cp_wf _ Hbc) Hat) Hx) as G. rewrite He in G. apply G. }
  destruct (IH n' x1 ms1 Hn' H Hsim1 Hx1 Hp1) as (ms' & L & Hv & Hs). exists ms'. split; [by eapply leads_trans|done].
Qed.
End trace.

(** ** Whole programs *)

(** Both schedulers keep what a program computes. *)
Lemma emitted_computes use_dag swaps program slots m x :
  length program = 256%nat -> Forall instruction_wf program -> length slots = 256%nat -> Forall slot_ok slots -> mask_wf m -> x_wf x ->
  use_dag || anchors_agree (normalize <$> program) = true ->
  exists emitted x', emitted_program use_dag swaps program = Done emitted /\ length emitted = 256%nat /\ Forall instruction_wf emitted /\
    Forall normal emitted /\ emitted ≡ₚ normalize <$> program /\
    interpret m slots program x = Done x' /\ interpret m slots emitted x = Done x'.
Proof.
  intros Hl Hw Hsl Hs Hm Hx Hag. destruct (emitted_program_wf use_dag swaps program Hl Hw) as (emitted & E & El & Ew & En & Ep).
  exists emitted. assert (H : exists x', interpret m slots program x = Done x' /\ interpret m slots emitted x = Done x').
  { destruct use_dag.
    - assert (Ei : emitted = normalize <$> program).
      { unfold emitted_program in E. assert (Ed : scheduleProgramDag swaps (normalize <$> program) 256 = seq 0 256) by apply dag_order_identity.
        rewrite Ed in E. cbn [mbind outcome_bind] in E. injection E as <-. apply reorder_id. by rewrite length_fmap. }
      rewrite Ei, interpret_normalize by done. pose proof (compile_program_compiled program slots Hl Hw Hsl Hs) as Hc.
      apply returns_Done in Hc as ([usage bc] & Ec & Hc). pose proof (execute_bytecode_ok m bc Hm Hc x Hx) as He.
      apply returns_Done in He as (x' & Ee & _). exists x'. unfold interpret. by rewrite Ec.
    - destruct (scheduled_program_equiv swaps program slots m x Hl Hw Hsl Hs Hm Hx Hag) as (em & x' & E1 & _ & E2 & E3).
      rewrite E in E1. injection E1 as <-. by exists x'. }
  destruct H as (x' & H1 & H2). by exists x'.
Qed.

(** What [emitPrologueMix] leaves: the position after the code is aligned and far from the literals. *)
Record emitted_at (j : jit) (st : emission) : Prop := mkEmitted {
  ea_settled : settled (code st.1) st;
  ea_aligned : aligned st;
  ea_start : PrologueSize <= st.2 <= PrologueSize + 32 * 256;
  ea_literals : ImulRcpLiteralsEnd - 8 * 256 <= literalPos st.1;
  ea_flags : flags st.1 = flags j;
  ea_length : length (code st.1) = length (code j);
  ea_bytes : Bytes (code j) -> Bytes (code st.1);
  ea_outside : forall i : nat, (Z.of_nat i < PrologueSize \/ BufferSize <= Z.of_nat i) -> code st.1 !! i = code j !! i;
}.

(** The code of a program, in any buffer that keeps it. *)
Lemma emission_runs use_dag swaps program slots m j :
  length program = 256%nat -> Forall instruction_wf program -> length slots = 256%nat -> Forall slot_ok slots ->
  mask_wf m -> e_or_ok m.1 /\ e_or_ok m.2 ->
  use_dag || anchors_agree (normalize <$> program) = true -> forallb fp_displaced program = true ->
  BufferSize <= Z.of_nat (length (code j)) -> Z.land (flags j) RANDOMX_FLAG_V2 = 0 ->
  exists st, emitPrologueMix use_dag swaps program j = Done st /\ emitted_at j st /\
    forall x, x_wf x -> exists x', interpret m slots program x = Done x' /\
      forall C base K ms, 0 <= base /\ base + 2 ^ 21 <= 2 ^ 64 -> settled C st -> sim C base m K x ms -> vpc ms = PrologueSize ->
        exists ms', leads C base ms ms' /\ vpc ms' = st.2 /\ sim C base m K x' ms'.
Proof.
  intros Hl Hw Hsl Hs Hm Hmask Hag Hfp Hbuf Hv1.
  destruct (emitted_program_wf use_dag swaps program Hl Hw) as (em & Ee & El & Ew & En & Ep).
  pose proof (emitPrologueMix_spent use_dag swaps program j em Hbuf Ee El Ew) as H. apply returns_Done in H as ([j' k] & Ej & Hsp).
  exists (j', k). split; [done|]. pose proof Ej as Ej'. unfold emitPrologueMix in Ej'. rewrite Ee in Ej'. cbn [mbind outcome_bind] in Ej'.
  destruct (ofoldl_trace _ _ _ _ Ej') as (T & T0 & Tl & Ts). rewrite El in Tl, Ts. split.
  { destruct Hsp as [S1 S2 S3 [S4 _] S5 S6]. cbn [start fst snd literalPos num32bitLiterals code flags] in *. constructor; cbn [fst snd].
    - constructor; cbn [fst snd]; [split; [done|lia]|unfold PrologueSize, ImulRcpLiteralsEnd in *; lia|lia|done].
    - rewrite <- Tl. apply (trace_aligned em j T El Ew En Hbuf T0 Ts). lia.
    - lia.
    - unfold ImulRcpLiteralsEnd in *. lia.
    - done.
    - done.
    - intros Hb. pose proof (trace_bytes em j T El Ew En Hbuf T0 Ts 256 Hb ltac:(lia)) as H. by rewrite Tl in H.
    - intros i Hi. apply S6. lia. }
  intros x Hx. destruct (emitted_computes use_dag swaps program slots m x Hl Hw Hsl Hs Hm Hx Hag) as (em2 & x' & Ee2 & _ & _ & _ & _ & E1 & E2).
  rewrite Ee in Ee2. injection Ee2 as <-. exists x'. split; [done|]. intros C base K ms Hbase HC Hsim Hp.
  pose proof (compile_program_compiled em slots El Ew Hsl Hs) as Hc. apply returns_Done in Hc as ([usage bc] & Ec & Hc). cbn [snd] in Hc.
  unfold interpret in E2. rewrite Ec in E2. cbn [mbind outcome_bind] in E2.
  assert (Hf : forallb fp_displaced em = true).
  { rewrite forallb_forall in *. intros i Hi. rewrite <- list_elem_of_In, Ep in Hi. apply list_elem_of_fmap in Hi as (i0 & -> & Hi).
    rewrite list_elem_of_In in Hi. exact (Hfp i0 Hi). }
  rewrite <- Tl in *. apply (run_program em j T El Ew En Hbuf Hv1 T0 Ts C HC base m K Hbase Hmask Hm Hf bc Hc (compile_slots em slots usage bc El Ec) execute_fuel 0 x x' ms);
    [lia|exact E2|done|done|by rewrite T0].
Qed.

(** C11: compiled programs compute what interpreted ones do.  For every program of 256 instructions (whose
    branch anchors are real writers, when the adjacent-swap scheduler is used, and whose floating-point memory
    operands have a displacement), [emitPrologueMix] writes code such that, from every machine state that has
    the interpreter's registers, scratchpad and rounding mode where the register allocation puts them, the code
    runs to its end and leaves exactly the state the interpreter reaches. *)
Theorem jit_program_equiv use_dag swaps program slots m K x j base :
  length program = 256%nat -> Forall instruction_wf program -> length slots = 256%nat -> Forall slot_ok slots ->
  mask_wf m -> e_or_ok m.1 /\ e_or_ok m.2 -> x_wf x ->
  use_dag || anchors_agree (normalize <$> program) = true -> forallb fp_displaced program = true ->
  BufferSize <= Z.of_nat (length (code j)) -> Z.land (flags j) RANDOMX_FLAG_V2 = 0 -> 0 <= base /\ base + 2 ^ 21 <= 2 ^ 64 ->
  exists j' codePos x', emitPrologueMix use_dag swaps program j = Done (j', codePos) /\ interpret m slots program x = Done x' /\
    forall ms, sim (code j') base m K x ms -> vpc ms = PrologueSize -> exists n ms',
      vec_run n (code j') base ms = Done ms' /\ vpc ms' = codePos /\ sim (code j') base m K x' ms'.
Proof.
  intros Hl Hw Hsl Hs Hm Hmask Hx Hag Hfp Hbuf Hv1 Hbase.
  destruct (emission_runs use_dag swaps program slots m j Hl Hw Hsl Hs Hm Hmask Hag Hfp Hbuf Hv1) as ([j' k] & Ej & He & H).
  destruct (H x Hx) as (x' & E & Hr). exists j', k, x'. split; [done|]. split; [done|]. intros ms Hsim Hp.
  destruct (Hr (code j') base K ms Hbase (ea_settled _ _ He) Hsim Hp) as (ms' & [n L] & H'). by exists n, ms'.
Qed.

(** ** A state to start from *)

Definition literal (C : list Z) (a : Z) (n : nat) : Z := match read_le C a n with Done v => v | _ => 0 end.
Definition literal64 (C : list Z) (i : Z) : Z := literal C (ImulRcpLiteralsEnd - 8 * (i + 1)) 8.
Definition literal32 (C : list Z) (i : Z) : Z := literal C (ImulRcpLiteralsEnd + 4 * i) 4.

(** The registers of the code's allocation, the literal pools loaded, at the start of the code. *)
Definition entry_state (C : list Z) (base : Z) (m : Z * Z) (x19 : Z) (x : xstate) : vec_state :=
  let rs := reg_ x in
  let l i := literal64 C i in
  let w i := literal32 C (4 * i) + literal32 C (4 * i + 1) * 2 ^ 32 in
  let w' i := literal32 C (4 * i + 2) + literal32 C (4 * i + 3) * 2 ^ 32 in
  mkVec PrologueSize
    ([l 11; 0; base; 0] ++ take 4 (r rs) ++ [last_rounding_mode_ x * 2 ^ 40; 0; 0; l 10] ++ drop 4 (r rs) ++
     [0; 0; 0; x19; 0; l 9; l 8; l 7; l 6; l 5; l 4; l 3; l 2; l 1; l 0])
    (((fun i => mkFloat (w i) (w' i)) <$> seqZ 0 16) ++ f rs ++ e rs ++ a rs ++
     [mkFloat 0 0; mkFloat e_and e_and; mkFloat m.1 m.2; mkFloat scale_mask scale_mask])
    (rbit64 (last_rounding_mode_ x * 2 ^ 40)) false (scratchpad_ x).

Lemma literal_range C a n : Bytes C -> 0 <= literal C a n < 2 ^ (8 * Z.of_nat n).
Proof.
  intros Hb. unfold literal. destruct (read_le C a n) as [v| | |] eqn:E; try (split; [lia|apply pow2_pos; lia]).
  assert (Ha : 0 <= a /\ a + Z.of_nat n <= Z.of_nat (length C)) by (revert E; unfold read_le, read_bytes; destruct (_ && _) eqn:Ec; [blia|done]).
  pose proof (read_le_range C a n _ Hb (proj1 Ha) (proj2 Ha) eq_refl) as H. by rewrite E in H.
Qed.
Lemma lane_split w1 w2 : 0 <= w1 < 2 ^ 32 -> 0 <= w2 < 2 ^ 32 -> bits (w1 + w2 * 2 ^ 32) 0 32 = w1 /\ bits (w1 + w2 * 2 ^ 32) 32 32 = w2.
Proof. intros H1 H2. unfold bits. split; plia. Qed.

(** A small index, one case each. *)
Ltac each i n :=
  lazymatch n with
  | O => lia
  | S ?n => destruct (Z.eq_dec i (Z.of_nat n)) as [->|?]; [reflexivity|each i n]
  end.

Lemma entry_sim C base m x19 x : Bytes C -> x_wf x -> 0 <= base /\ base + 2 ^ 21 <= 2 ^ 64 -> word64 x19 ->
  0 <= last_rounding_mode_ x < 4 -> fe_round x = rounding_of (last_rounding_mode_ x) ->
  sim C base m (fun _ => 0) x (entry_state C base m x19 x) /\ vpc (entry_state C base m x19 x) = PrologueSize.
Proof.
  intros Hb Hx Hbase H19 Hmd Hfe. split; [|done]. destruct Hx as [[Lr Wr] [Lf _] [Le _] [La _] _].
  destruct x as [[rs fs es fas] mem md fe]. cbn [reg_ r f e a last_rounding_mode_ fe_round] in *.
  destruct rs as [|r0 [|r1 [|r2 [|r3 [|r4 [|r5 [|r6 [|r7 [|]]]]]]]]]; try discriminate Lr.
  destruct fs as [|f0 [|f1 [|f2 [|f3 [|]]]]]; try discriminate Lf. destruct es as [|e0 [|e1 [|e2 [|e3 [|]]]]]; try discriminate Le.
  destruct fas as [|a0 [|a1 [|a2 [|a3 [|]]]]]; try discriminate La.
  assert (L64 : forall i, word64 (literal64 C i)) by (intros i; by apply (literal_range C _ 8)).
  assert (L32 : forall i, 0 <= literal32 C i < 2 ^ 32) by (intros i; by apply (literal_range C _ 4)).
  constructor; cbn [entry_state vpc vx vv fpcr zf vmem reg_ r f e a scratchpad_ last_rounding_mode_ fe_round].
  - split; [|reflexivity]. split; [reflexivity|]. cbn [take drop]. rewrite !Forall_app.
    repeat match goal with H : Forall _ (_ :: _) |- _ => inversion_clear H end.
    split_and!; repeat (apply List.Forall_cons; [try done; unfold in_range; lia|]); try apply List.Forall_nil.
  - intros i Hi. each i 8%nat.
  - intros i Hi. each i 4%nat.
  - intros i Hi. each i 4%nat.
  - intros i Hi. each i 4%nat.
  - done.
  - done.
  - done.
  - done.
  - constructor; cbn [entry_state vx vv reg_ r f e a].
    + intros k v Hk Hr. assert (Hq : 0 <= k / 4 < 16) by plia. assert (Hl : literal32 C k = v) by (unfold literal32, literal; by rewrite Hr).
      unfold vget. rewrite lookup_total_app_l by (rewrite length_fmap, length_seqZ; lia).
      rewrite (list_lookup_total_correct _ _ (mkFloat (literal32 C (4 * (k / 4)) + literal32 C (4 * (k / 4) + 1) * 2 ^ 32)
        (literal32 C (4 * (k / 4) + 2) + literal32 C (4 * (k / 4) + 3) * 2 ^ 32)));
        [|rewrite list_lookup_fmap, lookup_seqZ_lt by lia; cbn; by rewrite Z2Nat.id by lia].
      rewrite <- Hl. unfold lane32. cbn [lo hi].
      destruct (lane_split _ _ (L32 (4 * (k / 4))) (L32 (4 * (k / 4) + 1))) as [B0 B1].
      destruct (lane_split _ _ (L32 (4 * (k / 4) + 2)) (L32 (4 * (k / 4) + 3))) as [B2 B3].
      assert (E : k mod 4 = 0 \/ k mod 4 = 1 \/ k mod 4 = 2 \/ k mod 4 = 3) by plia.
      destruct E as [E|[E|[E|E]]]; rewrite E; cbn [Z.ltb Z.compare Pos.compare Pos.compare_cont];
        [change (32 * (0 mod 2)) with 0; rewrite B0|change (32 * (1 mod 2)) with 32; rewrite B1
        |change (32 * (2 mod 2)) with 0; rewrite B2|change (32 * (3 mod 2)) with 32; rewrite B3]; f_equal; plia.
    + intros k v Hk Hr. assert (Hl : literal64 C k = v) by (unfold literal64, literal; by rewrite Hr). rewrite <- Hl.
      each k 12%nat.
  - intros n Hk. repeat (destruct Hk as [<-|Hk]; [reflexivity|]). by destruct Hk.
Qed.

Lemma emitted_bytes use_dag swaps program j j' k : length program = 256%nat -> Forall instruction_wf program ->
  BufferSize <= Z.of_nat (length (code j)) -> Bytes (code j) -> emitPrologueMix use_dag swaps program j = Done (j', k) -> Bytes (code j').
Proof.
  intros Hl Hw Hbuf Hb Ej. destruct (emitted_program_wf use_dag swaps program Hl Hw) as (em & Ee & El & Ew & En & _).
  unfold emitPrologueMix in Ej. rewrite Ee in Ej. cbn [mbind outcome_bind] in Ej. destruct (ofoldl_trace _ _ _ _ Ej) as (T & T0 & Tl & Ts). rewrite El in Tl, Ts.
  pose proof (trace_bytes em j T El Ew En Hbuf T0 Ts 256 Hb ltac:(lia)) as H. by rewrite Tl in H.
Qed.

Definition blank : jit := mkJit (replicate (Z.to_nat BufferSize) 0) 0 0 [] 0.
Lemma blank_wf : BufferSize <= Z.of_nat (length (code blank)) /\ Bytes (code blank).
Proof. cbn [code blank]. split; [rewrite length_replicate; unfold BufferSize, ImulRcpLiteralsEnd; lia|apply Forall_replicate; unfold in_range; lia]. Qed.
Definition masks : Z * Z := (0x3300000000112233, 0x3300000000112234).
Lemma masks_ok : mask_wf masks /\ (e_or_ok masks.1 /\ e_or_ok masks.2).
Proof. split; [unfold mask_wf; cbn; lia|]. split; (split; [unfold in_range; cbn; lia|reflexivity]). Qed.
Lemma blank_slots : Forall slot_ok (replicate 256 ibc_init).
Proof. apply Forall_replicate. unfold slot_ok, in_range. cbn. lia. Qed.

(** Three instructions that are reordered, and a branch. *)
Lemma jit_program_equiv_witness :
  let program := sample (mkInstruction 84 3 3 0 0) in
  exists j' codePos x' n ms', emitPrologueMix false (-1) program blank = Done (j', codePos) /\
    interpret masks (replicate 256 ibc_init) program demo_state = Done x' /\
    vec_run n (code j') 65536 (entry_state (code j') 65536 masks 0 demo_state) = Done ms' /\ vpc ms' = codePos /\ sim (code j') 65536 masks (fun _ => 0) x' ms'.
Proof.
  intros program. assert (Hw : Forall instruction_wf program) by (apply sample_wf; unfold instruction_wf, in_range; cbn; lia).
  destruct (jit_program_equiv false (-1) program (replicate 256 ibc_init) masks (fun _ => 0) demo_state blank 65536) as (j' & k & x' & E1 & E2 & H).
  - reflexivity.
  - exact Hw.
  - reflexivity.
  - exact blank_slots.
  - exact (proj1 masks_ok).
  - exact (proj2 masks_ok).
  - exact demo_state_wf.
  - vm_compute. reflexivity.
  - vm_compute. reflexivity.
  - exact (proj1 blank_wf).
  - reflexivity.
  - lia.
  - pose proof (emitted_bytes false (-1) program blank j' k eq_refl Hw (proj1 blank_wf) (proj2 blank_wf) E1) as Hb.
    destruct (entry_sim (code j') 65536 masks 0 demo_state Hb demo_state_wf ltac:(lia) ltac:(unfold in_range; lia) ltac:(cbn; lia) eq_refl) as [Hs Hp].
    destruct (H _ Hs Hp) as (n & ms' & Hr). exists j', k, x', n, ms'. exact (conj E1 (conj E2 Hr)).
Defined.

(** ** Where the displacement is zero *)

(** FADD_M f0, [r1 + 0], then registers swapped with themselves. *)
Definition zero_displacement : list Instruction := mkInstruction 140 0 1 0 0 :: replicate 255 (mkInstruction 116 7 7 0 0).
(** r1 is 8, and there is a 1 at that address of the scratchpad. *)
Definition zero_state : xstate :=
  mkX (mkRegisterFile (0 :: 8 :: replicate 6 0) (replicate 4 (mkFloat 0 0)) (replicate 4 (mkFloat 1 1)) (replicate 4 (mkFloat 1 1)))
    (replicate 8 0 ++ 1 :: replicate (Z.to_nat (kRandomXScratchpadBytes - 9)) 0) 0 ToNearest.
Lemma zero_state_wf : x_wf zero_state.
Proof.
  constructor; cbn [reg_ r f e a scratchpad_ zero_state].
  - split; [reflexivity|]. repeat (apply List.Forall_cons; [unfold in_range; lia|]). apply List.Forall_nil.
  - split; [reflexivity|]. apply (xw_f _ demo_state_wf).
  - split; [reflexivity|]. apply (xw_e _ demo_state_wf).
  - split; [reflexivity|]. apply (xw_a _ demo_state_wf).
  - split; [rewrite length_app; cbn [length]; rewrite !length_replicate; unfold kRandomXScratchpadBytes; lia|].
    apply Forall_app. split; [|apply List.Forall_cons; [unfold in_range; lia|]]; apply Forall_replicate; unfold in_range; lia.
Qed.

(** The first float register of the code's run, [n] instructions from [entry], and of the interpreter's. *)
Definition first_floats (emitted : outcome emission) (interpreted : outcome xstate) (entry : list Z -> vec_state) (n : nat)
  : outcome (FloatRegister * FloatRegister) :=
  '(j', k) ← emitted;
  ms ← vec_run n (code j') 65536 (entry (code j'));
  x ← interpreted;
  if vpc ms =? k then Done (vget (vv ms) 16, f (reg_ x) !!! 0%nat) else UB.

Lemma first_floats_inv emitted interpreted entry n v w : first_floats emitted interpreted entry n = Done (v, w) ->
  exists j' codePos x' ms', emitted = Done (j', codePos) /\ interpreted = Done x' /\
    vec_run n (code j') 65536 (entry (code j')) = Done ms' /\ vpc ms' = codePos /\ vget (vv ms') 16 = v /\ f (reg_ x') !!! 0%nat = w.
Proof.
  unfold first_floats. intros H. apply bind_Done in H as ([j' k] & E1 & H). apply bind_Done in H as (ms' & E2 & H). apply bind_Done in H as (x' & E3 & H).
  destruct (Z.eqb_spec (vpc ms') k) as [Hv|]; [|discriminate H]. apply Done_pair in H as [<- <-]. by exists j', k, x', ms'.
Qed.

Lemma first_floats_differ : first_floats (emitPrologueMix false (-1) zero_displacement blank)
  (interpret masks (replicate 256 ibc_init) zero_displacement zero_state) (fun C => entry_state C 65536 masks 0 zero_state) 5 =
  Done (mkFloat 0 0, mkFloat 0x3FF0000000000000 0).
Proof. vm_compute. reflexivity. Qed.

Lemma zero_displacement_wf : Forall instruction_wf zero_displacement.
Proof.
  apply List.Forall_cons; [unfold instruction_wf, in_range; cbn; lia|]. apply Forall_replicate. unfold instruction_wf, in_range. cbn. lia.
Qed.
Lemma zero_entry j' k : emitPrologueMix false (-1) zero_displacement blank = Done (j', k) ->
  sim (code j') 65536 masks (fun _ => 0) zero_state (entry_state (code j') 65536 masks 0 zero_state).
Proof.
  intros E. apply entry_sim; [|exact zero_state_wf|lia|unfold in_range; lia|cbn; lia|reflexivity].
  apply (emitted_bytes false (-1) zero_displacement blank j' k); [reflexivity|exact zero_displacement_wf|apply blank_wf|apply blank_wf|exact E].
Qed.

(** C13: with a zero displacement the compiled code reads the wrong scratchpad word: for FADD_M f0, [r1 + 0] with
    8 in r1 and a 1 at address 8, the interpreter adds 1.0 to f0, while the code, started in a state that
    matches the interpreter's, masks x19 instead of r1 and leaves f0 zero. *)
Theorem zero_displacement_diverges : exists j' codePos x' ms',
  let ms := entry_state (code j') 65536 masks 0 zero_state in
  emitPrologueMix false (-1) zero_displacement blank = Done (j', codePos) /\
  interpret masks (replicate 256 ibc_init) zero_displacement zero_state = Done x' /\
  sim (code j') 65536 masks (fun _ => 0) zero_state ms /\ vec_run 5 (code j') 65536 ms = Done ms' /\ vpc ms' = codePos /\
  vget (vv ms') 16 = mkFloat 0 0 /\ f (reg_ x') !!! 0%nat = mkFloat 0x3FF0000000000000 0.
Proof.
  destruct (first_floats_inv _ _ _ _ _ _ first_floats_differ) as (j' & k & x' & ms' & E1 & E3 & E2 & Hv & Hv1 & Hv2).
  exists j', k, x', ms'. exact (conj E1 (conj E3 (conj (zero_entry j' k E1) (conj E2 (conj Hv (conj Hv1 Hv2)))))).
Qed.
