(* ===== verification/A64Loop.v ===== *)
(** * A64 machine code of whole functions

    The machine that runs the function [randomx_program_aarch64] of src/src/jit_compiler_a64_static.S as
    src/src/jit_compiler_a64.cpp completes it: the vector machine of A64Vec.v, whose memory is the scratchpad,
    with a stack pointer, a carry flag and the rest of memory in words (JitItem.v), and the instructions
    (Arm Architecture Reference Manual) that only this function uses.  Runs of the two smaller machines are
    runs of this one. *)

From S2P Require Import Prelude RandomX Float Bytecode A64 JitDataset JitItem A64Vec.

(** Register 31 as a base [n] is the stack pointer. *)
Inductive a64l : Type :=
  | LDR_i (t n imm : Z)
  | STR_i (t n imm : Z)
  | LDR_w (t n imm : Z)
  | STR_pre (t n imm : Z)
  | LDR_post (t n imm : Z)
  | LDR_di (t n imm : Z)
  | LDR_qi (t n imm : Z)
  | LDP_d (t1 t2 n imm : Z)
  | STP_d (t1 t2 n imm : Z)
  | LDP_q (t1 t2 n imm : Z)
  | STP_q (t1 t2 n imm : Z)
  | LDR_ql (t off : Z)
  | INS (d lane n : Z)
  | MRS_fpcr (d : Z)
  | UBFX (d n lsb width : Z)
  | EOR_w (d n m : Z)
  | MOV_w (d m : Z)
  | AND_w (d n mask : Z)
  | MOV_mask (d mask : Z)
  | SUBS_i (d n imm : Z)
  | CMP (n m : Z)
  | MOV_sp (d : Z)
  | NOP_
  | BL (off : Z)
  | CBZ_w (t off : Z)
  | B_hs (off : Z).

(** A 32-bit logical immediate ([N] = 0, element size 32). *)
Definition bit_mask32 (immr imms : Z) : Z :=
  let x := Z.ones (imms + 1) in wrap 32 (Z.lor (Z.shiftr x immr) (Z.shiftl x (32 - immr))).

Definition decode_more (w : Z) : option a64l :=
  let d := bits w 0 5 in
  let n := bits w 5 5 in
  let t2 := bits w 10 5 in
  let m := bits w 16 5 in
  let top := bits w 22 10 in
  let unsigned f scale := Some (f d n (scale * bits w 10 12)) in
  let pair f scale := Some (f d t2 n (scale * to_signed 7 (bits w 15 7))) in
  let imm9 := to_signed 9 (bits w 12 9) in
  let immr := bits w 16 6 in
  let imms := bits w 10 6 in
  let off19 := 4 * to_signed 19 (bits w 5 19) in
  if top =? 0x3E5 then unsigned LDR_i 8
  else if top =? 0x3E4 then unsigned STR_i 8
  else if top =? 0x2E5 then unsigned LDR_w 4
  else if (top =? 0x3E0) && (bits w 21 1 =? 0) && (bits w 10 2 =? 3) then Some (STR_pre d n imm9)
  else if (top =? 0x3E1) && (bits w 21 1 =? 0) && (bits w 10 2 =? 1) then Some (LDR_post d n imm9)
  else if top =? 0x3F5 then unsigned LDR_di 8
  else if top =? 0x0F7 then unsigned LDR_qi 16
  else if top =? 0x1B5 then pair LDP_d 8
  else if top =? 0x1B4 then pair STP_d 8
  else if top =? 0x2B5 then pair LDP_q 16
  else if top =? 0x2B4 then pair STP_q 16
  else if bits w 24 8 =? 0x9C then Some (LDR_ql d off19)
  else if (bits w 21 11 =? 0x270) && (imms =? 7) && (m mod 16 =? 8) then Some (INS d (m / 16) n)
  else if bits w 5 27 =? 0x6A9DA20 then Some (MRS_fpcr d)
  else if (top =? 0x34D) && (immr <=? imms) then Some (UBFX d n immr (imms - immr + 1))
  else if (bits w 21 11 =? 0x250) && (imms =? 0) then Some (EOR_w d n m)
  else if (bits w 21 11 =? 0x150) && (imms =? 0) && (n =? 31) then Some (MOV_w d m)
  else if (top =? 0x048) && (immr <? 32) && (imms <? 31) && negb (d =? 31) then Some (AND_w d n (bit_mask32 immr imms))
  else if (top =? 0x2C9) && (imms <? 63) && (n =? 31) && negb (d =? 31) then Some (MOV_mask d (bit_mask immr imms))
  else if (top =? 0x3C4) && negb (n =? 31) then Some (SUBS_i d n (bits w 10 12))
  else if (bits w 21 11 =? 0x758) && (imms =? 0) && (d =? 31) then Some (CMP n m)
  else if (top =? 0x244) && (n =? 31) && negb (d =? 31) && (bits w 10 12 =? 0) then Some (MOV_sp d)
  else if w =? 0xD503201F then Some NOP_
  else if bits w 26 6 =? 0x25 then Some (BL (4 * to_signed 26 (bits w 0 26)))
  else if bits w 24 8 =? 0x34 then Some (CBZ_w d off19)
  else if (bits w 24 8 =? 0x54) && (bits w 0 5 =? 2) then Some (B_hs off19)
  else None.

(** ** State *)

Record loop_state : Type := mkLoop {
  lv : vec_state;
  lsp : Z;
  cf : bool;
  lmem : memory;
}.

(** 64-bit accesses: the scratchpad at [base], or a word of the rest of memory. *)
Definition in_pad (base a : Z) (st : loop_state) : bool :=
  (base <=? a) && (a + 8 <=? base + Z.of_nat (length (vmem (lv st)))).
Definition load_word (base a : Z) (st : loop_state) : outcome Z :=
  if in_pad base a st then read_le (vmem (lv st)) (a - base) 8 else load (lmem st) a.
Definition store_word (base a v : Z) (st : loop_state) : outcome loop_state :=
  if in_pad base a st then
    mem ← write_bytes (vmem (lv st)) (a - base) (le_bytes 8 v);
    let s := lv st in Done (mkLoop (mkVec (vpc s) (vx s) (vv s) (fpcr s) (zf s) mem) (lsp st) (cf st) (lmem st))
  else
    mem ← store (lmem st) a v; Done (mkLoop (lv st) (lsp st) (cf st) mem).

Definition with_vec (s : vec_state) (st : loop_state) : loop_state := mkLoop s (lsp st) (cf st) (lmem st).
(** The next instruction, [xd] or [vd] set. *)
Definition advance (st : loop_state) : loop_state :=
  let s := lv st in with_vec (mkVec (vpc s + 4) (vx s) (vv s) (fpcr s) (zf s) (vmem s)) st.
Definition put_x (d v : Z) (st : loop_state) : loop_state :=
  let s := lv st in with_vec (mkVec (vpc s) (xset (vx s) d v) (vv s) (fpcr s) (zf s) (vmem s)) st.
Definition put_v (d : Z) (v : FloatRegister) (st : loop_state) : loop_state :=
  let s := lv st in with_vec (mkVec (vpc s) (vx s) (vset (vv s) d v) (fpcr s) (zf s) (vmem s)) st.
Definition put_sp (v : Z) (st : loop_state) : loop_state := mkLoop (lv st) v (cf st) (lmem st).
Definition jump (off : Z) (st : loop_state) : loop_state :=
  let s := lv st in with_vec (mkVec (vpc s + off) (vx s) (vv s) (fpcr s) (zf s) (vmem s)) st.
(** [subs]: the zero flag and, when there is no borrow, the carry flag. *)
Definition put_flags (x y : Z) (st : loop_state) : loop_state :=
  let s := lv st in mkLoop (mkVec (vpc s) (vx s) (vv s) (fpcr s) (sub64 x y =? 0) (vmem s)) (lsp st) (y <=? x) (lmem st).

Definition load_quad (base a : Z) (st : loop_state) : outcome FloatRegister :=
  x ← load_word base a st; y ← load_word base (wrap 64 (a + 8)) st; Done (mkFloat x y).
Definition store_quad (base a : Z) (v : FloatRegister) (st : loop_state) : outcome loop_state :=
  st ← store_word base a (lo v) st; store_word base (wrap 64 (a + 8)) (hi v) st.

Definition exec_more (code : list Z) (base : Z) (i : a64l) (st : loop_state) : outcome loop_state :=
  let x := xget (vx (lv st)) in
  let v := vget (vv (lv st)) in
  let at_ n imm := wrap 64 ((if n =? 31 then lsp st else x n) + imm) in
  match i with
  | LDR_i t n imm => y ← load_word base (at_ n imm) st; Done (advance (put_x t y st))
  | STR_i t n imm => st ← store_word base (at_ n imm) (x t) st; Done (advance st)
  | LDR_w t n imm =>
      let a := at_ n imm in
      if negb (a mod 4 =? 0) then UB else
      y ← load_word base (a - a mod 8) st; Done (advance (put_x t (bits y (8 * (a mod 8)) 32) st))
  | STR_pre t n imm =>
      if negb (n =? 31) then UB else
      st ← store_word base (at_ n imm) (x t) st; Done (advance (put_sp (at_ n imm) st))
  | LDR_post t n imm =>
      if negb (n =? 31) then UB else
      y ← load_word base (at_ n 0) st; Done (advance (put_sp (at_ n imm) (put_x t y st)))
  | LDR_di t n imm => y ← load_word base (at_ n imm) st; Done (advance (put_v t (mkFloat y 0) st))
  | LDR_qi t n imm => y ← load_quad base (at_ n imm) st; Done (advance (put_v t y st))
  | LDP_d t1 t2 n imm =>
      y1 ← load_word base (at_ n imm) st; y2 ← load_word base (wrap 64 (at_ n imm + 8)) st;
      Done (advance (put_v t2 (mkFloat y2 0) (put_v t1 (mkFloat y1 0) st)))
  | STP_d t1 t2 n imm =>
      st ← store_word base (at_ n imm) (lo (v t1)) st; st ← store_word base (wrap 64 (at_ n imm + 8)) (lo (v t2)) st; Done (advance st)
  | LDP_q t1 t2 n imm =>
      y1 ← load_quad base (at_ n imm) st; y2 ← load_quad base (wrap 64 (at_ n imm + 16)) st;
      Done (advance (put_v t2 y2 (put_v t1 y1 st)))
  | STP_q t1 t2 n imm =>
      st ← store_quad base (at_ n imm) (v t1) st; st ← store_quad base (wrap 64 (at_ n imm + 16)) (v t2) st; Done (advance st)
  | LDR_ql t off =>
      y1 ← read_le code (vpc (lv st) + off) 8; y2 ← read_le code (vpc (lv st) + off + 8) 8;
      Done (advance (put_v t (mkFloat y1 y2) st))
  | INS d lane n =>
      Done (advance (put_v d (if lane =? 0 then mkFloat (x n) (hi (v d)) else mkFloat (lo (v d)) (x n)) st))
  | MRS_fpcr d => Done (advance (put_x d (fpcr (lv st)) st))
  | UBFX d n lsb width => Done (advance (put_x d (bits (x n) lsb width) st))
  | EOR_w d n m => Done (advance (put_x d (wrap 32 (Z.lxor (x n) (x m))) st))
  | MOV_w d m => Done (advance (put_x d (wrap 32 (x m)) st))
  | AND_w d n mask => Done (advance (put_x d (Z.land (wrap 32 (x n)) mask) st))
  | MOV_mask d mask => Done (advance (put_x d mask st))
  | SUBS_i d n imm => Done (advance (put_x d (sub64 (x n) imm) (put_flags (x n) imm st)))
  | CMP n m => Done (advance (put_flags (x n) (x m) st))
  | MOV_sp d => Done (advance (put_x d (lsp st) st))
  | NOP_ => Done (advance st)
  | BL off => Done (jump off (put_x 30 (vpc (lv st) + 4) st))
  | CBZ_w t off => Done (if wrap 32 (x t) =? 0 then jump off st else advance st)
  | B_hs off => Done (if cf st then jump off st else advance st)
  end.

(** The pairs and stack adjustments of JitItem.v, which may also touch the scratchpad here. *)
Definition exec_pair (base : Z) (i : a64m) (st : loop_state) : outcome loop_state :=
  let x := xget (vx (lv st)) in
  let at_ n imm := wrap 64 ((if n =? 31 then lsp st else x n) + imm) in
  match i with
  | LDP t1 t2 n imm =>
      y1 ← load_word base (at_ n imm) st; y2 ← load_word base (wrap 64 (at_ n imm + 8)) st; Done (advance (put_x t2 y2 (put_x t1 y1 st)))
  | STP t1 t2 n imm =>
      st ← store_word base (at_ n imm) (x t1) st; st ← store_word base (wrap 64 (at_ n imm + 8)) (x t2) st; Done (advance st)
  | ADD_sp imm => Done (advance (put_sp (wrap 64 (lsp st + imm)) st))
  | AND_ones d n width => Done (advance (put_x d (Z.land (x n) (Z.ones width)) st))
  | PRFM _ _ => Done (advance st)
  | RET n => let s := lv st in Done (with_vec (mkVec (x n) (vx s) (vv s) (fpcr s) (zf s) (vmem s)) st)
  end.

Inductive ins : Type :=
  | Reg (i : a64)
  | Pair (i : a64m)
  | Vec (i : a64v)
  | More (i : a64l).

Definition decode_ins (w : Z) : option ins :=
  match decode w with
  | Some i => Some (Reg i)
  | None =>
      match decode_mem w with
      | Some i => Some (Pair i)
      | None => match decode_vec w with Some i => Some (Vec i) | None => More <$> decode_more w end
      end
  end.

Definition exec_ins (code : list Z) (base : Z) (i : ins) (st : loop_state) : outcome loop_state :=
  match i with
  | Reg i => s ← vec_exec code base (inl i) (lv st); Done (with_vec s st)
  | Pair i => exec_pair base i st
  | Vec i => s ← exec_vec base i (lv st); Done (with_vec s st)
  | More i => exec_more code base i st
  end.

Definition loop_step (code : list Z) (base : Z) (st : loop_state) : outcome loop_state :=
  w ← read_le code (vpc (lv st)) 4;
  match decode_ins w with
  | Some i => exec_ins code base i st
  | None => UB
  end.

Fixpoint loop_run (n : nat) (code : list Z) (base : Z) (st : loop_state) : outcome loop_state :=
  match n with
  | O => Done st
  | S n => st ← loop_step code base st; loop_run n code base st
  end.

Lemma loop_run_app n1 n2 code base st :
  loop_run (n1 + n2) code base st = (st ← loop_run n1 code base st; loop_run n2 code base st).
Proof.
  revert st. induction n1 as [|n1 IH]; intros st; cbn [loop_run Nat.add]; [done|].
  destruct (loop_step code base st); cbn; auto.
Qed.

(** ** The smaller machines *)

Lemma bit_mask_ones k : 0 <= k < 63 -> bit_mask 0 k = Z.ones (k + 1).
Proof.
  intros Hk. unfold bit_mask, rotr64. rewrite Z.mod_0_l by lia. cbv zeta. rewrite Z.shiftr_0_r, Z.sub_0_r. unfold shl64.
  rewrite Z.shiftl_mul_pow2 by lia. unfold wrap. rewrite Z.mod_mul by lia. apply Z.lor_0_r.
Qed.

Lemma bits_split w lo n k : 0 <= lo -> 0 <= n -> 0 <= k -> bits w (lo + k) n = bits w lo (k + n) / 2 ^ k.
Proof.
  intros H1 H2 H3. unfold bits. rewrite !Z.pow_add_r by lia. rewrite <- Z.div_div by (apply Z.pow_nonzero || apply Z.pow_pos_nonneg; lia).
  set (y := w / 2 ^ lo). assert (0 < 2 ^ k) by (apply Z.pow_pos_nonneg; lia). assert (0 < 2 ^ n) by (apply Z.pow_pos_nonneg; lia).
  rewrite Z.rem_mul_r by lia. rewrite Z.add_comm, Z.mul_comm, Z.div_add_l by lia.
  rewrite (Z.div_small (y mod 2 ^ k)) by (apply Z.mod_pos_bound; lia). lia.
Qed.

(** The only word that both JitItem.v and A64Vec.v decode, an [and] with low ones, means the same to both. *)
Lemma pair_vec w i j : decode_mem w = Some i -> decode_vec w = Some j ->
  exists d n k, i = AND_ones d n (k + 1) /\ j = AND_mask d n (bit_mask 0 k) /\ 0 <= k < 63.
Proof.
  unfold decode_mem, decode_vec. cbv zeta. set (op := bits w 21 11). set (m := bits w 16 5). set (top := bits w 22 10).
  assert (E1 : top = op / 2) by apply (bits_split w 21 10 1 ltac:(lia) ltac:(lia) ltac:(lia)).
  assert (E2 : bits w 24 8 = top / 4) by apply (bits_split w 22 8 2 ltac:(lia) ltac:(lia) ltac:(lia)).
  assert (E3 : top = bits w 10 22 / 4096) by apply (bits_split w 10 10 12 ltac:(lia) ltac:(lia) ltac:(lia)).
  assert (E4 : bits w 16 6 = m + 32 * (op mod 2)) by (unfold m, op, bits; plia).
  assert (Hm : 0 <= m < 32) by (unfold m, bits; plia). rewrite E2, E4. clearbody top op m.
  assert (No : forall c, top = c -> existsb (Z.eqb c) [0x2A5; 0x2A4; 0x344; 0x244; 0x3E6; 0x359] = true ->
    (if (top / 4 =? 84) && (bits w 0 5 =? 1) then Some (B_ne (4 * to_signed 19 (bits w 5 19))) else decode_fields op m (bits w 10 6) (bits w 5 5) (bits w 0 5)) = None).
  { intros c Hc Hx. cbn [existsb] in Hx. rewrite Hc. assert (Ho : op = 2 * c \/ op = 2 * c + 1) by plia. clear E1 E2 E3 E4 Hc.
    rewrite orb_false_r in Hx. repeat rewrite orb_true_iff in Hx. rewrite !Z.eqb_eq in Hx.
    destruct Hx as [->|[->|[->|[->|[->| ->]]]]]; destruct Ho as [->| ->]; reflexivity. }
  assert (Nx : forall c, (top =? c) = true -> existsb (Z.eqb c) [0x2A5; 0x2A4; 0x344; 0x244; 0x3E6; 0x359] = true ->
    (if (top / 4 =? 84) && (bits w 0 5 =? 1) then Some (B_ne (4 * to_signed 19 (bits w 5 19))) else decode_fields op m (bits w 10 6) (bits w 5 5) (bits w 0 5)) = Some j -> False).
  { intros c Hc Hx. rewrite (No c (proj1 (Z.eqb_eq _ _) Hc) Hx). discriminate. }
  destruct (top =? 0x2A5) eqn:T1; [intros _ H; by destruct (Nx _ T1 eq_refl)|].
  destruct (top =? 0x2A4) eqn:T2; [intros _ H; by destruct (Nx _ T2 eq_refl)|].
  destruct ((top =? 0x344) && _ && _) eqn:T3; [intros _ H; apply andb_prop in T3 as [T3 _]; apply andb_prop in T3 as [T3 _]; by destruct (Nx _ T3 eq_refl)|].
  destruct ((top =? 0x244) && _ && _) eqn:T4; [intros _ H; apply andb_prop in T4 as [T4 _]; apply andb_prop in T4 as [T4 _]; by destruct (Nx _ T4 eq_refl)|].
  destruct ((top =? 0x249) && _ && _ && _) eqn:T5.
  - intros [= <-]. apply andb_prop in T5 as [T5 Td]. apply andb_prop in T5 as [T5 Tk]. apply andb_prop in T5 as [T5 Ti].
    apply Z.eqb_eq in T5, Ti. apply Z.ltb_lt in Tk. rewrite T5. change (585 / 4 =? 84) with false. cbn [andb].
    assert (Hz : m = 0 /\ op mod 2 = 0) by (pose proof (Z.mod_pos_bound op 2); lia). destruct Hz as [-> Ho2].
    assert (Hop : op = 2 * 0x249) by plia. rewrite Hop. unfold decode_fields. change (32 * ((2 * 585) mod 2) + 0) with 0.
    change (2 * 585 =? 0x4D6) with false. change (2 * 585 / 2 =? 0x249) with true. cbv iota. rewrite Td. destruct (Z.ltb_spec (bits w 10 6) 63); [|lia]. cbn [andb].
    intros [= <-]. do 3 eexists. split; [reflexivity|]. split; [reflexivity|]. split; [unfold bits; plia|done].
  - destruct (top =? 0x3E6) eqn:T6; [intros _ H; by destruct (Nx _ T6 eq_refl)|].
    destruct ((_ =? 0x3597C0) && _) eqn:T7; [|done]. intros _ H. apply andb_prop in T7 as [T7 _]. apply Z.eqb_eq in T7. rewrite T7 in E3.
    destruct (Nx 0x359); [by rewrite E3|done|done].
Qed.

(** A run of the vector machine, with everything else left alone. *)
Lemma loop_vec n code base st s' : vec_run n code base (lv st) = Done s' -> loop_run n code base st = Done (with_vec s' st).
Proof.
  revert st. induction n as [|n IH]; intros st H; cbn [vec_run loop_run] in *; [injection H as <-; by destruct st|].
  apply bind_Done in H as (s1 & E & H). assert (E1 : loop_step code base st = Done (with_vec s1 st)).
  { unfold vec_step, decode_any in E. unfold loop_step, decode_ins. apply bind_Done in E as (w & -> & E). cbn [mbind outcome_bind].
    destruct (decode w) as [i|]; [cbn [exec_ins]; by rewrite E|]. destruct (decode_vec w) as [j|] eqn:Ej; [|done]. cbn [fmap option_fmap option_map] in E.
    destruct (decode_mem w) as [i|] eqn:Ei; [|cbn [exec_ins]; cbn [vec_exec] in E; by rewrite E].
    destruct (pair_vec w i j Ei Ej) as (d & m & k & -> & -> & Hk). cbn [vec_exec exec_vec] in E. injection E as <-.
    cbn [exec_ins exec_pair]. by rewrite bit_mask_ones by done. }
  rewrite E1. cbn [mbind outcome_bind]. rewrite (IH (with_vec s1 st)) by done. done.
Qed.

(** The scratchpad is apart from the rest of memory. *)
Definition apart (base : Z) (st : loop_state) : Prop := forall a, in_pad base a st = true -> lmem st a = None.

Definition item_view (st : loop_state) : machine_state := mkMachine (vpc (lv st)) (vx (lv st)) (lsp st) (lmem st).
Definition with_item (ms : machine_state) (st : loop_state) : loop_state :=
  let s := lv st in mkLoop (mkVec (pc ms) (xs ms) (vv s) (fpcr s) (zf s) (vmem s)) (sp ms) (cf st) (mem ms).
Definition same_domain (m m' : memory) : Prop := forall a, m a = None <-> m' a = None.

Lemma load_apart base a st v : apart base st -> load (lmem st) a = Done v -> load_word base a st = Done v.
Proof.
  intros Ha H. unfold load_word. destruct (in_pad base a st) eqn:E; [|done]. unfold load in H. rewrite (Ha a E) in H. by destruct (a mod 8 =? 0).
Qed.
Lemma store_apart base a v st m : apart base st -> store (lmem st) a v = Done m ->
  store_word base a v st = Done (mkLoop (lv st) (lsp st) (cf st) m) /\ same_domain (lmem st) m.
Proof.
  intros Ha H. unfold store_word, store in *. destruct (a mod 8 =? 0); [|done]. destruct (lmem st a) as [y|] eqn:Ey; [|done]. injection H as <-.
  destruct (in_pad base a st) eqn:E; [by rewrite (Ha a E) in Ey|]. split; [done|]. intros b. destruct (Z.eqb_spec b a) as [->|]; [by rewrite Ey|done].
Qed.
Lemma apart_domain base st st' : apart base st -> length (vmem (lv st')) = length (vmem (lv st)) -> same_domain (lmem st) (lmem st') -> apart base st'.
Proof. intros Ha Hl Hd a E. apply Hd, Ha. unfold in_pad in *. by rewrite Hl in E. Qed.

Lemma loop_item_step code base st ms : apart base st -> JitItem.step code (item_view st) = Done ms ->
  loop_step code base st = Done (with_item ms st) /\ same_domain (lmem st) (mem ms).
Proof.
  intros Ha E. unfold JitItem.step, decode_asm in E. unfold loop_step, decode_ins. cbn [pc item_view] in E.
  apply bind_Done in E as (w & -> & E). cbn [mbind outcome_bind]. destruct (decode w) as [i|].
  { cbn [exec_asm item_view pc xs sp mem] in E. apply bind_Done in E as ([p x] & E & H). injection H as <-.
    cbn [exec_ins vec_exec]. rewrite E. cbn [mbind outcome_bind]. split; [reflexivity|done]. }
  destruct (decode_mem w) as [i|]; [|done]. cbn [fmap option_fmap option_map exec_asm] in E. cbn [exec_ins].
  destruct i as [t1 t2 n imm|t1 t2 n imm|imm|d n width|n imm|n]; cbn [exec_mem item_view pc xs sp mem exec_pair] in *.
  - apply bind_Done in E as (v1 & E1 & E). apply bind_Done in E as (v2 & E2 & E). injection E as <-.
    rewrite (load_apart _ _ _ _ Ha E1). cbn [mbind outcome_bind]. rewrite (load_apart _ _ _ _ Ha E2). split; [reflexivity|done].
  - apply bind_Done in E as (m1 & E1 & E). apply bind_Done in E as (m2 & E2 & E). injection E as <-.
    destruct (store_apart _ _ _ _ _ Ha E1) as [-> D1]. cbn [mbind outcome_bind].
    set (st1 := mkLoop (lv st) (lsp st) (cf st) m1). assert (A1 : apart base st1) by (by apply (apart_domain base st)).
    destruct (store_apart base _ (xget (vx (lv st)) t2) st1 m2 A1 E2) as [-> D2]. split; [reflexivity|]. intros b. rewrite (D1 b). apply D2.
  - injection E as <-. split; [reflexivity|done].
  - injection E as <-. split; [reflexivity|done].
  - injection E as <-. split; [reflexivity|done].
  - injection E as <-. split; [reflexivity|done].
Qed.

(** A run of JitItem.v's machine, with the vector registers and the scratchpad left alone. *)
Lemma loop_item n code base st ms : apart base st -> JitItem.run n code (item_view st) = Done ms ->
  loop_run n code base st = Done (with_item ms st) /\ same_domain (lmem st) (mem ms).
Proof.
  revert st. induction n as [|n IH]; intros st Ha H; cbn [JitItem.run loop_run] in *.
  { injection H as <-. split; [by destruct st as [[] ? ? ?]|done]. }
  apply bind_Done in H as (m1 & E & H). destruct (loop_item_step _ _ _ _ Ha E) as [-> D]. cbn [mbind outcome_bind].
  assert (V : item_view (with_item m1 st) = m1) by (by destruct m1). rewrite <- V in H.
  destruct (IH (with_item m1 st)) with (2 := H) as [-> D2]; [by apply (apart_domain base st)|]. split; [reflexivity|].
  intros b. rewrite (D b). apply D2.
Qed.
