(* ===== verification/JitTemplate.v ===== *)
(** * The main loop's template and its patches

    The function [randomx_program_aarch64] of src/src/jit_compiler_a64_static.S as instructions at the offsets
    of its labels, and what src/src/jit_compiler_a64.cpp writes into a copy of it for every program:
    [generateProgram] and [generateProgramLight], in light and in hybrid mode. *)

From stdpp Require Import list.
From S2P Require Import Prelude RandomX Float Bytecode A64 JitDataset JitItem A64Vec JitEmit A64Loop.

(** ** Encodings *)

Definition encode_ins (i : ins) : Z :=
  let rd d n := n * 32 + d in
  let unsigned op scale t n imm := op + imm / scale * 1024 + rd t n in
  let pair op scale t1 t2 n imm := op + wrap 7 (imm / scale) * 32768 + t2 * 1024 + rd t1 n in
  let mask op mask d n := op + (64 - Z.log2 (Z.land mask (- mask))) mod 64 * 65536 + (Z.log2 (mask / Z.land mask (- mask))) * 1024 + rd d n in
  match i with
  | Reg i => encode (inl i)
  | Pair i => encode (inr i)
  | Vec (RBIT d n) => 0xDAC00000 + rd d n
  | Vec (B_ne off) => 0x54000000 + wrap 19 (off / 4) * 32 + 1
  | Vec (SXTL d n) => 0x0F20A400 + rd d n
  | Vec (SCVTF d n) => 0x4E61D800 + rd d n
  | Vec (BIF d n m) => 0x6EE01C00 + m * 65536 + rd d n
  | Vec (EOR_v d n m) => 0x6E201C00 + m * 65536 + rd d n
  | Vec _ => 0
  | More (LDR_i t n imm) => unsigned 0xF9400000 8 t n imm
  | More (STR_i t n imm) => unsigned 0xF9000000 8 t n imm
  | More (LDR_w t n imm) => unsigned 0xB9400000 4 t n imm
  | More (STR_pre t n imm) => 0xF8000C00 + wrap 9 imm * 4096 + rd t n
  | More (LDR_post t n imm) => 0xF8400400 + wrap 9 imm * 4096 + rd t n
  | More (LDR_di t n imm) => unsigned 0xFD400000 8 t n imm
  | More (LDR_qi t n imm) => unsigned 0x3DC00000 16 t n imm
  | More (LDP_d t1 t2 n imm) => pair 0x6D400000 8 t1 t2 n imm
  | More (STP_d t1 t2 n imm) => pair 0x6D000000 8 t1 t2 n imm
  | More (LDP_q t1 t2 n imm) => pair 0xAD400000 16 t1 t2 n imm
  | More (STP_q t1 t2 n imm) => pair 0xAD000000 16 t1 t2 n imm
  | More (LDR_ql t off) => 0x9C000000 + wrap 19 (off / 4) * 32 + t
  | More (INS d lane n) => 0x4E081C00 + lane * 16 * 65536 + rd d n
  | More (MRS_fpcr d) => 0xD53B4400 + d
  | More (UBFX d n lsb width) => 0xD3400000 + lsb * 65536 + (lsb + width - 1) * 1024 + rd d n
  | More (EOR_w d n m) => 0x4A000000 + m * 65536 + rd d n
  | More (MOV_w d m) => 0x2A000000 + m * 65536 + rd d 31
  | More (AND_w d n k) => 0x12000000 + (32 - Z.log2 (Z.land k (- k))) mod 32 * 65536 + (Z.log2 (k / Z.land k (- k))) * 1024 + rd d n
  | More (MOV_mask d k) => mask 0xB2400000 k d 31
  | More (SUBS_i d n imm) => 0xF1000000 + imm * 1024 + rd d n
  | More (CMP n m) => 0xEB000000 + m * 65536 + rd 31 n
  | More (MOV_sp d) => 0x91000000 + rd d 31
  | More NOP_ => 0xD503201F
  | More (BL off) => 0x94000000 + wrap 26 (off / 4)
  | More (CBZ_w t off) => 0x34000000 + wrap 19 (off / 4) * 32 + t
  | More (B_hs off) => 0x54000000 + wrap 19 (off / 4) * 32 + 2
  end.
Definition ins_bytes (l : list ins) : list Z := word_bytes (encode_ins <$> l).

Definition stp (t1 t2 n imm : Z) : ins := Pair (STP t1 t2 n imm).
Definition ldp (t1 t2 n imm : Z) : ins := Pair (LDP t1 t2 n imm).
Definition str (t n imm : Z) : ins := More (STR_i t n imm).
Definition ldr (t n imm : Z) : ins := More (LDR_i t n imm).
Definition add_sp (imm : Z) : ins := Pair (ADD_sp imm).
Definition mov (d m : Z) : ins := Reg (ORR_shifted d 31 m 0).
Definition eor (d n m : Z) : ins := Reg (EOR_shifted d n m 0).
Definition add (d n m sh : Z) : ins := Reg (ADD_shifted d n m sh).
Definition ubfx (d n lsb width : Z) : ins := More (UBFX d n lsb width).
Definition lsr (d n k : Z) : ins := ubfx d n k (64 - k).
Definition ror (d n k : Z) : ins := Reg (EXTR d n n k).
Definition prfm (n imm : Z) : ins := Pair (PRFM n imm).

(** ** The template *)

Definition MainLoopBegin : Z := 320.

(** [literal_x*] from byte 49632, [literal_v*] from byte 49728; the twelve loads are at byte 144, the sixteen
    after them. *)
Definition literal_loads : list ins :=
  (fun '(i, t) => Reg (LDR_literal t (49632 + 8 * i - (144 + 4 * i)))) <$> zip (seqZ 0 12) [0; 11; 21; 22; 23; 24; 25; 26; 27; 28; 29; 30].
Definition vector_loads : list ins :=
  (fun i => More (LDR_ql i (49728 + 16 * i - (192 + 4 * i)))) <$> seqZ 0 16.

Definition entry_asm : list ins :=
  [add_sp (-192); stp 16 17 SP 0; str 19 SP 16; stp 20 21 SP 32; stp 22 23 SP 48; stp 24 25 SP 64; stp 26 27 SP 80; stp 28 29 SP 96;
   stp 8 30 SP 112; More (STP_d 8 9 SP 128); More (STP_d 10 11 SP 144); More (STP_d 12 13 SP 160); More (STP_d 14 15 SP 176);
   mov 4 31; mov 5 31; mov 6 31; mov 7 31; mov 12 31; mov 13 31; mov 14 31; mov 15 31;
   str 1 SP 24; ldp 9 1 1 0; mov 10 9; More (LDP_q 24 25 0 192); More (LDP_q 26 27 0 224);
   More (MOV_mask 16 0x00FFFFFFFFC00000); More (INS 29 0 16); More (INS 29 1 16); More (LDR_qi 30 0 64);
   Reg (MOVZ 16 0x80F0 48); More (INS 31 0 16); More (INS 31 1 16); More (MRS_fpcr 8); Vec (RBIT 8 8); More (STR_pre 0 SP (-16))] ++
  literal_loads ++ vector_loads ++
  [ubfx 16 10 6 15; ubfx 17 10 38 15; add 16 2 16 6; add 17 2 17 6; prfm 16 0; prfm 17 0; prfm 17 32] ++ replicate 9 (More NOP_).

Definition head_asm : list ins :=
  [More (LDR_di 16 17 0); More (LDR_di 17 17 8); More (LDR_di 18 17 16); More (LDR_di 19 17 24); More (LDR_di 20 17 32);
   ldp 20 19 16 0; More (LDR_di 21 17 40); More (LDR_di 22 17 48); More (LDR_di 23 17 56); eor 4 4 20; eor 5 5 19;
   ldp 20 19 16 16; Vec (SXTL 16 16); Vec (SXTL 17 17); Vec (SXTL 18 18); eor 6 6 20; eor 7 7 19;
   ldp 20 19 16 32; Vec (SXTL 19 19); Vec (SXTL 20 20); Vec (SXTL 21 21); eor 12 12 20; eor 13 13 19;
   ldp 20 19 16 48; Vec (SXTL 22 22); Vec (SXTL 23 23); Vec (SCVTF 16 16); eor 14 14 20; eor 15 15 19;
   Vec (SCVTF 17 17); Vec (SCVTF 18 18); Vec (SCVTF 19 19); Vec (SCVTF 20 20); Vec (SCVTF 21 21); Vec (SCVTF 22 22); Vec (SCVTF 23 23);
   Vec (BIF 20 30 29); Vec (BIF 21 30 29); Vec (BIF 22 30 29); Vec (BIF 23 30 29)].

(** From [vm_instructions_end]; the two masks are patched in. *)
Definition memory_v1 : list ins := [lsr 10 9 32; eor 9 9 20; More (MOV_w 20 9); ror 9 9 32].
Definition prefetch_line : list ins := [add 20 20 1 0; prfm 20 0].
Definition line_asm : list ins :=
  [ldp 20 19 10 0; eor 4 4 20; eor 5 5 19; ldp 20 19 10 16; eor 6 6 20; eor 7 7 19;
   ldp 20 19 10 32; eor 12 12 20; eor 13 13 19; ldp 20 19 10 48; eor 14 14 20; eor 15 15 19].
(** After the patched words of [update_spMix1]. *)
Definition store_ints : list ins := [add 19 2 19 6; add 20 2 20 6; stp 4 5 17 0; stp 6 7 17 16; stp 12 13 17 32; stp 14 15 17 48].
(** From [v1_FE_mix] at byte 50304. *)
Definition finish_asm : list ins :=
  [Vec (EOR_v 16 16 20); Vec (EOR_v 17 17 21); Vec (EOR_v 18 18 22); Vec (EOR_v 19 19 23); More (STP_q 16 17 16 0); More (STP_q 18 19 16 32);
   mov 16 19; mov 17 20; More (SUBS_i 3 3 1); Vec (B_ne (MainLoopBegin - 50340))].
Definition exit_asm : list ins :=
  [More (LDR_post 0 SP 16); stp 4 5 0 0; stp 6 7 0 16; stp 12 13 0 32; stp 14 15 0 48;
   More (STP_q 16 17 0 64); More (STP_q 18 19 0 96); More (STP_q 20 21 0 128); More (STP_q 22 23 0 160);
   ldp 16 17 SP 0; ldr 19 SP 16; ldp 20 21 SP 32; ldp 22 23 SP 48; ldp 24 25 SP 64; ldp 26 27 SP 80; ldp 28 29 SP 96; ldp 8 30 SP 112;
   More (LDP_d 8 9 SP 128); More (LDP_d 10 11 SP 144); More (LDP_d 12 13 SP 160); More (LDP_d 14 15 SP 176); add_sp 192; Pair (RET 30)].
(** [vm_instructions_end_light]. *)
Definition light_enter : list ins := [add_sp (-96); stp 0 1 SP 64; stp 2 30 SP 80; lsr 2 9 32].
Definition light_v1 : list ins := [eor 9 9 20; ror 9 9 32].
Definition light_args : list ins := [mov 0 1; More (MOV_sp 1); lsr 2 2 6].
Definition light_call : list ins := [More (BL (CodeSize - 50484))].
Definition light_leave : list ins := [More (MOV_sp 10); ldp 0 1 SP 64; ldp 2 30 SP 80; add_sp 96; Reg (B (50020 - 50504))].
(** [vm_instructions_end_hybrid]: the bound check, the hit path and the miss path. *)
Definition hybrid_enter : list ins := [add_sp (-112); stp 0 1 SP 64; stp 2 30 SP 80; str 16 SP 96; str 17 SP 104; lsr 2 9 32].
Definition hybrid_item : list ins := [lsr 2 2 6].
Definition hybrid_check : list ins :=
  [ldr 16 SP 152; More (LDR_w 16 16 24); More (CBZ_w 16 (50624 - 50564)); More (CMP 2 16); More (B_hs (50624 - 50572))].
Definition hybrid_hit : list ins :=
  [ldr 16 SP 152; ldr 16 16 16; add 16 16 2 6; ldp 17 0 16 0; stp 17 0 SP 0; ldp 17 0 16 16; stp 17 0 SP 16;
   ldp 17 0 16 32; stp 17 0 SP 32; ldp 17 0 16 48; stp 17 0 SP 48; Reg (B (50636 - 50620))].
Definition hybrid_miss : list ins := [mov 0 1; More (MOV_sp 1); More (BL (CodeSize - 50632))].
Definition hybrid_leave : list ins := [ldp 16 17 SP 96; More (MOV_sp 10); ldp 0 1 SP 64; ldp 2 30 SP 80; add_sp 112; Reg (B (50020 - 50656))].
(** The orders of the [ma]/[mx] update that are copied into place. *)
Definition memory_v2 : list ins := [lsr 10 9 32; ror 9 9 32; eor 9 9 20; More (MOV_w 20 9)].
Definition light_v2 : list ins := [ror 9 9 32; eor 9 9 20].

(** Where the pieces above stand in the copied template.  What is left out: the words that are always patched, the
    room of the program with its literal pool, and the mixing block of RandomX v2, which version 1 branches around. *)
Definition template : list (Z * list ins) :=
  [(0, entry_asm); (MainLoopBegin, head_asm); (50004, prefetch_line); (50016, [add 10 10 1 0]); (50020, line_asm);
   (50080, store_ints); (50304, finish_asm); (50344, exit_asm);
   (50436, light_enter); (50464, light_args); (50484, light_call); (50488, light_leave);
   (50508, hybrid_enter); (50544, hybrid_item); (50556, hybrid_check); (50576, hybrid_hit); (50624, hybrid_miss); (50636, hybrid_leave);
   (50660, memory_v1); (50676, memory_v2); (50692, light_v1); (50700, light_v2)].
Definition template_at (code : list Z) : Prop := Forall (fun '(o, l) => holds code o (ins_bytes l)) template.

Definition reads_as (i : ins) : Prop := decode_ins (encode_ins i) = Some i /\ 0 <= encode_ins i < 2 ^ 32.
Lemma template_reads : Forall reads_as (concat template.*2).
Proof.
  let l := eval vm_compute in (concat template.*2) in change (concat template.*2) with l.
  repeat (apply List.Forall_cons; [split; [vm_compute; reflexivity|vm_compute; split; congruence]|]). apply List.Forall_nil.
Qed.

(** ** The patches *)

Definition RANDOMX_FLAG_HARD_AES : Z := 2.
Definition RANDOMX_DATASET_BASE_SIZE : Z := 2147483648.

(** Offsets of the labels that are written to. *)
Module Label.
Definition vm_instructions_end : Z := 49984.
Definition cacheline_align_mask1 : Z := 50000.
Definition cacheline_align_mask2 : Z := 50012.
Definition xor_with_dataset_line : Z := 50020.
Definition update_spMix1 : Z := 50068.
Definition v2_FE_mix : Z := 50104.
Definition v1_FE_mix : Z := 50304.
Definition vm_instructions_end_light : Z := 50436.
Definition light_cacheline_align_mask : Z := 50452.
Definition vm_instructions_end_light_tweak : Z := 50456.
Definition light_dataset_offset : Z := 50476.
Definition vm_instructions_end_hybrid : Z := 50508.
Definition hybrid_cacheline_align_mask : Z := 50532.
Definition vm_instructions_end_hybrid_tweak : Z := 50536.
Definition hybrid_dataset_offset : Z := 50548.
Definition vm_instructions_end_v1 : Z := 50660.
Definition vm_instructions_end_v2 : Z := 50676.
Definition vm_instructions_end_light_v1 : Z := 50692.
Definition vm_instructions_end_light_v2 : Z := 50700.
Definition v2_FE_mix_soft_aes : Z := 50708.
Definition aes_lut_pointers : Z := 51464.
End Label.

Record ProgramConfiguration : Type := mkConfiguration {
  eMask : Z * Z;
  readReg0 : Z;
  readReg1 : Z;
  readReg2 : Z;
  readReg3 : Z;
}.

Local Infix ".|" := Z.lor (at level 50, left associativity) : Z_scope.
Local Infix "<<" := Z.shiftl (at level 45, left associativity) : Z_scope.
Local Infix ">>" := Z.shiftr (at level 45, left associativity) : Z_scope.

(** [memcpy(code + dst, code + src, n)]. *)
Definition copy_code (dst src : Z) (n : nat) (j : jit) : outcome jit :=
  bs ← read_bytes (code j) src n;
  c ← write_bytes (code j) dst bs;
  Done (with_code c j).
(** [codePos = pos; emit32(val, code, codePos)]. *)
Definition patch (val pos : Z) (j : jit) : outcome jit :=
  '(j, _) ← emit val (j, pos); Done j.

Definition is_v2 (j : jit) : bool := negb (Z.land (flags j) RANDOMX_FLAG_V2 =? 0).

(** [lut_enc] and [lut_dec]: the addresses of the two tables. *)
Definition emitV2AesTweak (lut_enc lut_dec : Z) (codePos : Z) (j : jit) : outcome jit :=
  if is_v2 j then
    if negb (Z.land (flags j) RANDOMX_FLAG_HARD_AES =? 0) then patch 0x4F00041C codePos j
    else
      j ← patch (ARMV8A.B .| (Label.v2_FE_mix_soft_aes - Label.v2_FE_mix) / 4) codePos j;
      c ← write_bytes (code j) Label.aes_lut_pointers (le_bytes 8 lut_enc);
      c ← write_bytes c (Label.aes_lut_pointers + 8) (le_bytes 8 lut_dec);
      Done (with_code c j)
  else patch (ARMV8A.B .| (Label.v1_FE_mix - Label.v2_FE_mix) / 4) codePos j.

Definition emitSpMix2 (lut_enc lut_dec : Z) (config : ProgramConfiguration) (j : jit) : outcome jit :=
  '(j, codePos) ← emit (ARMV8A.EOR .| 10 .| int_reg (readReg0 config) << 5 .| int_reg (readReg1 config) << 16) (j, Label.update_spMix1);
  '(j, codePos) ← emit (ARMV8A.UBFX .| 19 .| 10 << 5 .| 6 << 16 .| (ScratchpadL3Log2 - 1) << 10) (j, codePos);
  '(j, codePos) ← emit (ARMV8A.UBFX .| 20 .| 10 << 5 .| 38 << 16 .| (32 + ScratchpadL3Log2 - 1) << 10) (j, codePos);
  emitV2AesTweak lut_enc lut_dec Label.v2_FE_mix j.

(** [and wd, wd, CacheLineAlignMask]. *)
Definition align_word (d : Z) : Z := ARMV8A.AND_IMM_32 .| d .| d << 5 .| (Z.log2 RANDOMX_DATASET_BASE_SIZE - 7) << 10.
(** [eor w20, config.readReg2, config.readReg3]. *)
Definition spMix2_word (config : ProgramConfiguration) : Z :=
  ARMV8A.EOR32 .| 20 .| int_reg (readReg2 config) << 5 .| int_reg (readReg3 config) << 16.

Definition generateProgram (use_dag : bool) (swaps lut_enc lut_dec : Z) (program : list Instruction) (config : ProgramConfiguration)
    (j : jit) : outcome jit :=
  '(j, codePos) ← emitPrologueMix use_dag swaps program j;
  '(j, codePos) ← emit (spMix2_word config) (j, codePos);
  let offset := wrap 32 (Label.vm_instructions_end - codePos) in
  '(j, codePos) ← emit (ARMV8A.B .| offset / 4) (j, codePos);
  j ← patch (align_word 20) Label.cacheline_align_mask1 j;
  j ← patch (align_word 10) Label.cacheline_align_mask2 j;
  j ← emitSpMix2 lut_enc lut_dec config j;
  copy_code Label.vm_instructions_end (if is_v2 j then Label.vm_instructions_end_v2 else Label.vm_instructions_end_v1) 16 j.

(** [add x2, x2, imm_lo] and [add x2, x2, imm_hi] at the dataset offset's label. *)
Definition emit_offset (pos datasetOffset : Z) (j : jit) : outcome jit :=
  let datasetOffset := datasetOffset / 64 in
  let imm_lo := Z.land datasetOffset (2 ^ 12 - 1) in
  let imm_hi := datasetOffset >> 12 in
  '(j, codePos) ← emit (ARMV8A.ADD_IMM_LO .| 2 .| 2 << 5 .| wrap 32 (imm_lo << 10)) (j, pos);
  '(j, codePos) ← emit (ARMV8A.ADD_IMM_HI .| 2 .| 2 << 5 .| wrap 32 (imm_hi << 10)) (j, codePos);
  Done j.

Definition generateProgramLight (use_dag : bool) (swaps lut_enc lut_dec : Z) (program : list Instruction) (config : ProgramConfiguration)
    (datasetOffset : Z) (useHybrid : bool) (j : jit) : outcome jit :=
  '(j, codePos) ← emitPrologueMix use_dag swaps program j;
  '(j, codePos) ← emit (spMix2_word config) (j, codePos);
  let tweak_src := if is_v2 j then Label.vm_instructions_end_light_v2 else Label.vm_instructions_end_light_v1 in
  j ← copy_code Label.vm_instructions_end_light_tweak tweak_src 8 j;
  let offset := wrap 32 ((if useHybrid then Label.vm_instructions_end_hybrid else Label.vm_instructions_end_light) - codePos) in
  '(j, codePos) ← emit (ARMV8A.B .| offset / 4) (j, codePos);
  if useHybrid then
    j ← patch (align_word 2) Label.hybrid_cacheline_align_mask j;
    j ← copy_code Label.vm_instructions_end_hybrid_tweak tweak_src 8 j;
    j ← emitSpMix2 lut_enc lut_dec config j;
    emit_offset Label.hybrid_dataset_offset datasetOffset j
  else
    j ← patch (align_word 2) Label.light_cacheline_align_mask j;
    j ← emitSpMix2 lut_enc lut_dec config j;
    emit_offset Label.light_dataset_offset datasetOffset j.
