(* ===== verification/JitGenerate.v ===== *)
(** * What the code generator leaves in the buffer

    [generateProgram] and [generateProgramLight] (src/src/jit_compiler_a64.cpp) write the program's code and
    literals, the words at the labels of src/src/jit_compiler_a64_static.S, and nothing else of the template:
    the buffer then reads, instruction by instruction, as the main loop of the mode that was asked for, and
    the template is ready for the next program. *)

From stdpp Require Import list.
From S2P Require Import Prelude RandomX Float Bytecode BytecodeSafety BytecodeTermination Footprint JitSchedule JitEquiv.
From S2P Require Import A64 JitDataset JitItem A64Vec JitEmit JitLayout JitWords JitVmRun JitVmSim JitVmEquiv A64Loop JitTemplate.

(** ** Instructions in memory *)

Fixpoint fetched (C : list Z) (pos : Z) (l : list ins) : Prop :=
  match l with
  | [] => True
  | i :: l => (exists w, read_le C pos 4 = Done w /\ decode_ins w = Some i) /\ fetched C (pos + 4) l
  end.

Lemma fetched_app C pos l1 l2 : fetched C pos l1 -> fetched C (pos + 4 * Z.of_nat (length l1)) l2 -> fetched C pos (l1 ++ l2).
Proof.
  revert pos. induction l1 as [|i l1 IH]; intros pos; cbn [fetched app length].
  - intros _. by rewrite Z.add_0_r.
  - intros [H1 H2] H. split; [done|]. apply IH; [done|]. by replace (pos + 4 + 4 * Z.of_nat (length l1)) with (pos + 4 * Z.of_nat (S (length l1))) by lia.
Qed.

Lemma fetched_split C pos l1 l2 : fetched C pos (l1 ++ l2) -> fetched C pos l1 /\ fetched C (pos + 4 * Z.of_nat (length l1)) l2.
Proof.
  revert pos. induction l1 as [|i l1 IH]; intros pos; cbn [fetched app length]; [by rewrite Z.add_0_r|].
  intros [H1 H2]. destruct (IH _ H2) as [H3 H4]. split; [done|]. by replace (pos + 4 * Z.of_nat (S (length l1))) with (pos + 4 + 4 * Z.of_nat (length l1)) by lia.
Qed.

Lemma holds_word C pos w : holds C pos (le_bytes 4 w) -> 0 <= w < 2 ^ 32 -> read_le C pos 4 = Done w.
Proof.
  unfold holds. rewrite length_le_bytes. intros H Hw. unfold read_le. rewrite H. cbn [mbind outcome_bind]. by rewrite of_le_bytes, wrap_small.
Qed.
Lemma fetched_word C pos w i : holds C pos (le_bytes 4 w) -> 0 <= w < 2 ^ 32 -> decode_ins w = Some i -> fetched C pos [i].
Proof. intros H Hw Hd. split; [|done]. exists w. split; [by apply holds_word|done]. Qed.
Lemma fetched_bytes C pos l : holds C pos (ins_bytes l) -> Forall reads_as l -> fetched C pos l.
Proof.
  revert pos. induction l as [|i l IH]; intros pos H Hl; [done|]. inversion_clear Hl as [|? ? [Hi1 Hi2] Hl']. unfold ins_bytes in H. rewrite fmap_cons in H.
  split; [|apply IH; [by apply holds_next in H|done]]. exists (encode_ins i). split; [|done]. apply holds_word; [|done].
  change (?x :: ?y) with ([x] ++ y) in H. rewrite word_bytes_app in H. apply holds_app in H as [H _]. unfold word_bytes in H. cbn [fmap list_fmap concat] in H.
  by rewrite app_nil_r in H.
Qed.

(** Instructions stay when their bytes do. *)
Lemma fetched_keep C C' pos l : fetched C pos l ->
  (forall q b, holds C q b -> length b = 4%nat -> pos <= q -> q + 4 <= pos + 4 * Z.of_nat (length l) -> holds C' q b) -> fetched C' pos l.
Proof.
  revert pos. induction l as [|i l IH]; intros pos; cbn [fetched length]; [done|]. intros [(w & Hw & Hd) H] Hk. split.
  - exists w. split; [|done]. unfold read_le in *. apply bind_Done in Hw as (bs & E & Hw). pose proof (read_bytes_Done _ _ _ _ E) as El.
    assert (Hh : holds C' pos bs) by (apply Hk; [unfold holds; by rewrite El|done|lia|lia]). unfold holds in Hh. rewrite El in Hh. by rewrite Hh.
  - apply IH; [done|]. intros q b Hq Hl H1 H2. apply Hk; [done|done|lia|lia].
Qed.

Lemma encodes_ins w i : encodes w (inl i) -> decode_ins w = Some (Reg i).
Proof. intros [_ H]. unfold decode_any in H. unfold decode_ins. destruct (decode w); [congruence|]. by destruct (decode_vec w). Qed.
Lemma fetched_reg C pos w i : holds C pos (le_bytes 4 w) -> encodes w (inl i) -> fetched C pos [Reg i].
Proof. intros H He. eapply fetched_word; [exact H|apply He|by apply encodes_ins]. Qed.

(** ** Writes that the template survives *)

Lemma ins_bytes_length l : length (ins_bytes l) = (4 * length l)%nat.
Proof. unfold ins_bytes. by rewrite word_bytes_length, length_fmap. Qed.

(** Bytes that no template_segment of the template has. *)
Definition free (pos len : Z) : bool := forallb (fun '(o, l) => (pos + len <=? o) || (o + 4 * Z.of_nat (length l) <=? pos)) template.

Lemma template_write c pos bs c' : template_at c -> write_bytes c pos bs = Done c' -> free pos (Z.of_nat (length bs)) = true -> template_at c'.
Proof.
  intros Ht Hw Hf. unfold template_at in *. unfold free in Hf. rewrite forallb_forall in Hf. rewrite list.Forall_forall in *.
  intros [o l] Hin. specialize (Ht _ Hin). cbn beta iota in *. rewrite list_elem_of_In in Hin. specialize (Hf _ Hin). cbn beta iota in Hf.
  eapply holds_write_other; [exact Hw|exact Ht|]. rewrite ins_bytes_length. blia.
Qed.
Lemma template_outside c c' : template_at c -> length c' = length c ->
  (forall i : nat, Z.of_nat i < PrologueSize \/ BufferSize <= Z.of_nat i -> c' !! i = c !! i) -> template_at c'.
Proof.
  intros Ht Hl Hk. unfold template_at in *. rewrite list.Forall_forall in *. intros [o l] Hin. specialize (Ht _ Hin). cbn beta iota in *.
  assert (Hf : free PrologueSize (BufferSize - PrologueSize) = true) by reflexivity. unfold free in Hf. rewrite forallb_forall in Hf.
  rewrite list_elem_of_In in Hin. specialize (Hf _ Hin). cbn beta iota in Hf.
  apply (holds_ext c); [done| |done]. intros k Hk2. rewrite ins_bytes_length in Hk2. apply Hk. blia.
Qed.
Lemma free_program pos len : PrologueSize <= pos -> 0 <= len -> pos + len <= BufferSize -> free pos len = true.
Proof.
  intros H1 H2 H3. assert (Hf : free PrologueSize (BufferSize - PrologueSize) = true) by reflexivity. unfold free in *. rewrite forallb_forall in *.
  intros [o l] Hin. specialize (Hf _ Hin). cbn beta iota in *. blia.
Qed.

(** A template_segment of the template. *)
Lemma template_segment c o l : template_at c -> (o, l) ∈ template -> fetched c o l.
Proof.
  intros Ht Hin. unfold template_at in Ht. rewrite list.Forall_forall in Ht. apply fetched_bytes; [exact (Ht _ Hin)|].
  pose proof template_reads as Hr. rewrite Forall_concat, list.Forall_forall in Hr. apply Hr. apply list_elem_of_fmap. by exists (o, l).
Qed.

(** ** The program's code, then patches *)

Record building (st : emission) (c : list Z) : Prop := mkBuilding {
  bu_settled : settled c st;
  bu_template : template_at c;
  bu_size : CodeSize <= Z.of_nat (length c);
  bu_bytes : Bytes c;
  bu_beyond : forall i : nat, CodeSize <= Z.of_nat i -> c !! i = code st.1 !! i;
}.

Lemma holds_range c pos bs : holds c pos bs -> Bytes c -> Bytes bs.
Proof. unfold holds, read_bytes. destruct (_ && _); [|done]. intros [= E] H. rewrite <- E. by apply Forall_take, Forall_drop. Qed.

Lemma building_write st c pos bs : building st c -> 0 <= pos -> pos + Z.of_nat (length bs) <= CodeSize ->
  (st.2 <= pos /\ pos + Z.of_nat (length bs) <= literalPos st.1 \/ BufferSize <= pos) -> free pos (Z.of_nat (length bs)) = true -> Bytes bs ->
  exists c', write_bytes c pos bs = Done c' /\ building st c' /\ holds c' pos bs.
Proof.
  intros [[[D1 D1'] D2 D3 D4] Ht Hz Hb Hy] H0 H1 H2 Hf Hbs. eexists. split; [apply write_bytes_ok; lia|]. set (c' := _ ++ _).
  assert (E : write_bytes c pos bs = Done c') by (apply write_bytes_ok; lia). pose proof (write_bytes_length _ _ _ _ E) as El.
  split; [|exact (read_write_same _ _ _ _ E)]. constructor; [|by eapply template_write|lia|exact (write_bytes_range _ _ _ _ Hb Hbs E)|intros i Hi; rewrite (write_bytes_lookup _ _ _ _ i E); [by apply Hy|lia]].
  constructor; [split; [congruence|lia]|done|done|]. intros i Hi. rewrite (write_bytes_lookup _ _ _ _ i E); [by apply D4|]. unfold BufferSize in *. lia.
Qed.

(** [c'] is [c] with [bs] at [pos]. *)
Record rewritten (st : emission) (c : list Z) (pos : Z) (bs c' : list Z) : Prop := mkRewritten {
  rw_building : building st c';
  rw_new : holds c' pos bs;
  rw_old : forall q b, holds c q b -> q + Z.of_nat (length b) <= pos \/ pos + Z.of_nat (length bs) <= q -> holds c' q b;
}.

(** Words at the labels. *)
Definition patchable (pos len : Z) : bool := (BufferSize <=? pos) && (pos + len <=? CodeSize) && free pos len.

Lemma emit_label st j pos w : building st (code j) -> patchable pos 4 = true ->
  exists c, emit w (j, pos) = Done (with_code c j, pos + 4) /\ rewritten st (code j) pos (le_bytes 4 w) c.
Proof.
  intros Hb Hp. unfold patchable in Hp. assert (H0 : 0 <= BufferSize) by (vm_compute; congruence).
  destruct (building_write st (code j) pos (le_bytes 4 w) Hb) as (c & E & B & H); rewrite ?length_le_bytes; [blia|blia|right; blia|by apply andb_prop in Hp as [_ ?]|apply le_bytes_range|].
  exists c. split; [unfold emit, emit32; by rewrite E|]. constructor; [done|done|]. intros q b Hq Hd. by eapply holds_write_other.
Qed.
Lemma patch_label st j pos w : building st (code j) -> patchable pos 4 = true ->
  exists c, patch w pos j = Done (with_code c j) /\ rewritten st (code j) pos (le_bytes 4 w) c.
Proof. intros Hb Hp. destruct (emit_label st j pos w Hb Hp) as (c & E & H). exists c. unfold patch. by rewrite E. Qed.
Lemma copy_label st j dst src bs : building st (code j) -> holds (code j) src bs -> patchable dst (Z.of_nat (length bs)) = true ->
  exists c, copy_code dst src (length bs) j = Done (with_code c j) /\ rewritten st (code j) dst bs c.
Proof.
  intros Hb Hs Hp. unfold patchable in Hp. assert (H0 : 0 <= BufferSize) by (vm_compute; congruence).
  destruct (building_write st (code j) dst bs Hb) as (c & E & B & H); [blia|blia|right; blia|by apply andb_prop in Hp as [_ ?]|exact (holds_range _ _ _ Hs (bu_bytes _ _ Hb))|].
  exists c. split; [unfold copy_code; rewrite Hs; cbn [mbind outcome_bind]; by rewrite E|]. constructor; [done|done|]. intros q b Hq Hd. by eapply holds_write_other.
Qed.

(** ** The main loop of each mode *)

Definition align_mask : Z := 0x7FFFFFC0.
Definition spMix1_asm (config : ProgramConfiguration) : list ins :=
  [eor 10 (int_reg (readReg0 config)) (int_reg (readReg1 config)); ubfx 19 10 6 15; ubfx 20 10 38 15].
Definition spMix2_asm (config : ProgramConfiguration) (off : Z) : list ins :=
  [More (EOR_w 20 (int_reg (readReg2 config)) (int_reg (readReg3 config))); Reg (B off)].
Definition fast_asm : list ins :=
  memory_v1 ++ [More (AND_w 20 20 align_mask)] ++ prefetch_line ++ [More (AND_w 10 10 align_mask); add 10 10 1 0].
Definition update_asm (config : ProgramConfiguration) : list ins :=
  line_asm ++ spMix1_asm config ++ store_ints ++ [Reg (B (Label.v1_FE_mix - Label.v2_FE_mix))].
Definition offset_asm (datasetOffset : Z) : list ins :=
  [Reg (ADD_imm 2 2 (datasetOffset / 64 mod 4096)); Reg (ADD_imm 2 2 (datasetOffset / 64 / 4096 * 4096))].
Definition light_asm (datasetOffset : Z) : list ins :=
  light_enter ++ [More (AND_w 2 2 align_mask)] ++ light_v1 ++ light_args ++ offset_asm datasetOffset ++ light_call ++ light_leave.
Definition hybrid_asm (datasetOffset : Z) : list ins :=
  hybrid_enter ++ [More (AND_w 2 2 align_mask)] ++ light_v1 ++ hybrid_item ++ offset_asm datasetOffset ++ hybrid_check ++ hybrid_hit ++
  hybrid_miss ++ hybrid_leave.

(** What every mode reads; the code of the program is from [PrologueSize] to [st.2], and jumps to [target]. *)
Record loop_code (config : ProgramConfiguration) (target : Z) (st : emission) (C : list Z) : Prop := mkLoopCode {
  lc_settled : settled C st;
  lc_entry : fetched C 0 entry_asm;
  lc_head : fetched C MainLoopBegin head_asm;
  lc_spMix2 : fetched C st.2 (spMix2_asm config (target - (st.2 + 4)));
  lc_update : fetched C Label.xor_with_dataset_line (update_asm config);
  lc_finish : fetched C Label.v1_FE_mix (finish_asm ++ exit_asm);
}.

Definition config_wf (config : ProgramConfiguration) : Prop :=
  0 <= readReg0 config < 8 /\ 0 <= readReg1 config < 8 /\ 0 <= readReg2 config < 8 /\ 0 <= readReg3 config < 8.

Lemma spMix2_decodes config : config_wf config -> 0 <= spMix2_word config < 2 ^ 32 /\
  decode_ins (spMix2_word config) = Some (More (EOR_w 20 (int_reg (readReg2 config)) (int_reg (readReg3 config)))).
Proof.
  intros (_ & _ & H2 & H3). unfold spMix2_word. set (a := readReg2 config) in *. set (b := readReg3 config) in *. clearbody a b.
  assert (Ea : a = 0 \/ a = 1 \/ a = 2 \/ a = 3 \/ a = 4 \/ a = 5 \/ a = 6 \/ a = 7) by lia.
  assert (Eb : b = 0 \/ b = 1 \/ b = 2 \/ b = 3 \/ b = 4 \/ b = 5 \/ b = 6 \/ b = 7) by lia. clear H2 H3.
  destruct Ea as [->|[->|[->|[->|[->|[->|[->| ->]]]]]]], Eb as [->|[->|[->|[->|[->|[->|[->| ->]]]]]]];
    (split; [vm_compute; split; congruence|vm_compute; reflexivity]).
Qed.
Lemma align_decodes d : d = 2 \/ d = 10 \/ d = 20 -> 0 <= align_word d < 2 ^ 32 /\ decode_ins (align_word d) = Some (More (AND_w d d align_mask)).
Proof. intros [->|[->| ->]]; (split; [vm_compute; split; congruence|vm_compute; reflexivity]). Qed.

Lemma branch_encodes off : 0 <= off < 2 ^ 27 -> off mod 4 = 0 -> encodes (Z.lor ARMV8A.B (off / 4)) (inl (B off)).
Proof.
  intros H H4. pose proof (encodes_b off H4 ltac:(lia)) as E. change 0x03FFFFFF with (Z.ones 26) in E.
  rewrite Z.land_ones, Z.shiftr_div_pow2 in E by lia. change (2 ^ 2) with 4 in E. rewrite Z.mod_small in E by plia. exact E.
Qed.

(** [emitSpMix2] for RandomX v1. *)
Record mixed (config : ProgramConfiguration) (c : list Z) : Prop := mkMixed {
  mi_spMix1 : fetched c Label.update_spMix1 (spMix1_asm config);
  mi_branch : fetched c Label.v2_FE_mix [Reg (B (Label.v1_FE_mix - Label.v2_FE_mix))];
}.

(** The next word or copy at a label. *)
Ltac at_label B c R :=
  lazymatch goal with
  | |- context [emit ?w (?j, ?p)] => destruct (emit_label _ j p w B eq_refl) as (c & -> & R)
  | |- context [patch ?w ?p ?j] => destruct (patch_label _ j p w B eq_refl) as (c & -> & R)
  end; cbn [mbind outcome_bind].
(** Bytes that later words leave alone. *)
Ltac labels := unfold Label.vm_instructions_end, Label.cacheline_align_mask1, Label.cacheline_align_mask2, Label.xor_with_dataset_line,
  Label.update_spMix1, Label.v2_FE_mix, Label.v1_FE_mix, Label.vm_instructions_end_light, Label.light_cacheline_align_mask,
  Label.vm_instructions_end_light_tweak, Label.light_dataset_offset, Label.vm_instructions_end_hybrid, Label.hybrid_cacheline_align_mask,
  Label.vm_instructions_end_hybrid_tweak, Label.hybrid_dataset_offset in *.
Ltac apart_label := rewrite ?length_le_bytes, ?ins_bytes_length; cbn [length memory_v1 light_v1 prefetch_line light_enter hybrid_enter app]; labels; lia.
Ltac unwritten := repeat lazymatch goal with
  | R : rewritten _ _ _ _ ?c |- holds ?c _ _ =>
      first [exact (rw_new _ _ _ _ _ R) | apply (rw_old _ _ _ _ _ R); [cbn [code with_code]|apart_label]]
  end.

Lemma mixed_keep config c c' pos bs st : mixed config c -> rewritten st c pos bs c' ->
  pos + Z.of_nat (length bs) <= Label.update_spMix1 \/ Label.v2_FE_mix + 4 <= pos -> mixed config c'.
Proof.
  intros [M1 M2] R Hd. unfold Label.update_spMix1, Label.v2_FE_mix in *.
  constructor; (eapply fetched_keep; [eassumption|]); intros q b Hq Hl H1 H2; (apply (rw_old _ _ _ _ _ R); [done|]); cbn [length spMix1_asm] in H2;
    unfold Label.update_spMix1, Label.v2_FE_mix in *; lia.
Qed.
Lemma spMix2_done lut_enc lut_dec config j st : config_wf config -> is_v2 j = false -> building st (code j) ->
  exists c, emitSpMix2 lut_enc lut_dec config j = Done (with_code c j) /\ building st c /\ mixed config c /\
    forall pos bs, holds (code j) pos bs -> pos + Z.of_nat (length bs) <= Label.update_spMix1 \/ Label.v2_FE_mix + 4 <= pos -> holds c pos bs.
Proof.
  intros (H0 & H1 & _) Hv Hb. unfold emitSpMix2. at_label Hb c1 R1. at_label (rw_building _ _ _ _ _ R1) c2 R2. at_label (rw_building _ _ _ _ _ R2) c3 R3.
  unfold emitV2AesTweak. change (is_v2 (with_code c3 _)) with (is_v2 j). rewrite Hv. at_label (rw_building _ _ _ _ _ R3) c4 R4.
  exists c4. split; [done|]. split; [apply R4|]. cbn [code with_code] in *. split.
  - constructor.
    + apply (fetched_app _ _ [_]); [|apply (fetched_app _ _ [_])].
      * eapply fetched_reg; [unwritten|]. apply encodes_eor; pose proof (int_reg_range _ H0); pose proof (int_reg_range _ H1); lia.
      * eapply fetched_word; [unwritten|vm_compute; split; congruence|reflexivity].
      * eapply fetched_word; [unwritten|vm_compute; split; congruence|reflexivity].
    + eapply fetched_reg; [unwritten|]. apply branch_encodes; [vm_compute; split; congruence|reflexivity].
  - intros pos bs Hh Hd. unwritten. done.
Qed.

(** The two words after the program's code. *)
Lemma emit_after st j k w : building st (code j) -> PrologueSize <= st.2 -> st.2 <= k -> k + 4 <= literalPos st.1 ->
  exists c, emit w (j, k) = Done (with_code c j, k + 4) /\ rewritten st (code j) k (le_bytes 4 w) c.
Proof.
  intros Hb H0 H1 H2. pose proof (bu_settled _ _ Hb) as [_ [_ Hl] _ _].
  assert (Hz : ImulRcpLiteralsEnd < BufferSize /\ BufferSize < CodeSize /\ 0 <= PrologueSize) by (vm_compute; split_and!; congruence).
  destruct (building_write st (code j) k (le_bytes 4 w) Hb) as (c & E & B & H); rewrite ?length_le_bytes; [lia|lia|left; lia|apply free_program; lia|apply le_bytes_range|].
  exists c. split; [unfold emit, emit32; by rewrite E|]. constructor; [done|done|]. intros q b Hq Hd. by eapply holds_write_other.
Qed.

(** A template_segment's instructions decode. *)
Lemma segment_reads n o l : template !! n = Some (o, l) -> Forall reads_as l.
Proof.
  intros E. pose proof template_reads as Hr. rewrite Forall_concat, list.Forall_forall in Hr. apply Hr, list_elem_of_fmap.
  exists (o, l). split; [done|by eapply list_elem_of_lookup_2].
Qed.

Section generate.
Context (use_dag : bool) (swaps lut_enc lut_dec : Z) (program : list Instruction) (config : ProgramConfiguration) (j j0 : jit) (k : Z).
Abbreviation st := (j0, k).
Context (Hemit : emitPrologueMix use_dag swaps program j = Done st) (Hst : emitted_at j st).
Context (Htemplate : template_at (code j)) (Hsize : CodeSize <= Z.of_nat (length (code j))) (Hbytes : Bytes (code j)) (Hv1 : is_v2 j = false) (Hconfig : config_wf config).

Lemma start_building : building st (code j0).
Proof.
  destruct Hst as [H1 _ _ _ _ H6 H7 H8]. constructor; [done| |cbn in *; lia|by apply H7|done]. by apply (template_outside (code j)).
Qed.
Lemma st_bounds : PrologueSize <= k /\ k mod 4 = 0 /\ k + 8 <= literalPos j0 /\ literalPos j0 <= ImulRcpLiteralsEnd /\ k <= 8672.
Proof.
  destruct Hst as [[_ [_ Hl] _ _] [Ha _] Hk Hlit _ _ _ _]. cbn [fst snd] in *. unfold PrologueSize, ImulRcpLiteralsEnd in *. lia.
Qed.
Lemma st_v1 : is_v2 j0 = false.
Proof. unfold is_v2. pose proof (ea_flags _ _ Hst) as E. cbn [fst] in E. rewrite E. exact Hv1. Qed.
Lemma template_holds c n o l : building st c -> template !! n = Some (o, l) -> holds c o (ins_bytes l).
Proof. intros [_ Ht _ _ _] E. unfold template_at in Ht. exact (Forall_lookup_1 _ _ _ _ Ht E). Qed.

Lemma spMix2_fetched C target : holds C k (le_bytes 4 (spMix2_word config)) ->
  holds C (k + 4) (le_bytes 4 (Z.lor ARMV8A.B (wrap 32 (target - (k + 4)) / 4))) -> k + 4 <= target < 2 ^ 26 -> 0 <= k -> (target - k) mod 4 = 0 ->
  fetched C k (spMix2_asm config (target - (k + 4))).
Proof.
  intros H1 H2 Ht Hk H4. destruct (spMix2_decodes config Hconfig) as [Hw Hd]. apply (fetched_app _ _ [_]); [by eapply fetched_word|].
  rewrite wrap_small in H2 by (split; lia). eapply fetched_reg; [exact H2|]. apply branch_encodes; [lia|plia].
Qed.

(** The parts of the template that every mode uses. *)
Lemma common_code C target : building st C -> mixed config C -> fetched C k (spMix2_asm config (target - (k + 4))) -> loop_code config target st C.
Proof.
  intros [B1 B2 B3 _ _] [M1 M2] Hm.
  assert (Hin : forall n o l, template !! n = Some (o, l) -> fetched C o l) by (intros n o l E; apply template_segment; [done|by eapply list_elem_of_lookup_2]).
  constructor; [done|exact (Hin 0%nat _ _ eq_refl)|exact (Hin 1%nat _ _ eq_refl)|done| |].
  - unfold update_asm. apply fetched_app; [exact (Hin 4%nat _ _ eq_refl)|]. apply fetched_app; [exact M1|]. apply fetched_app; [exact (Hin 5%nat _ _ eq_refl)|exact M2].
  - apply fetched_app; [exact (Hin 6%nat _ _ eq_refl)|exact (Hin 7%nat _ _ eq_refl)].
Qed.

Lemma generateProgram_done : exists C, generateProgram use_dag swaps lut_enc lut_dec program config j = Done (with_code C j0) /\
  loop_code config Label.vm_instructions_end st C /\ fetched C Label.vm_instructions_end fast_asm /\ building st C.
Proof.
  pose proof st_bounds as (K1 & K2 & K3 & K4 & K5). pose proof start_building as B0. unfold generateProgram. rewrite Hemit. cbn [mbind outcome_bind].
  destruct (emit_after st j0 k (spMix2_word config) B0 K1 ltac:(cbn; lia) ltac:(cbn; lia)) as (c1 & -> & R1). cbn [mbind outcome_bind].
  set (w2 := Z.lor ARMV8A.B _).
  destruct (emit_after st (with_code c1 j0) (k + 4) w2 (rw_building _ _ _ _ _ R1) K1 ltac:(cbn; lia) ltac:(cbn; lia)) as (c2 & -> & R2). cbn [mbind outcome_bind].
  at_label (rw_building _ _ _ _ _ R2) c3 R3. at_label (rw_building _ _ _ _ _ R3) c4 R4.
  lazymatch goal with |- context [emitSpMix2 _ _ _ ?jj] =>
    destruct (spMix2_done lut_enc lut_dec config jj st Hconfig st_v1 (rw_building _ _ _ _ _ R4)) as (c5 & -> & B5 & M5 & O5) end. cbn [mbind outcome_bind].
  change (is_v2 (with_code c5 _)) with (is_v2 j0). rewrite st_v1. change 16%nat with (length (ins_bytes memory_v1)).
  lazymatch goal with |- context [copy_code _ _ _ ?jj] =>
    destruct (copy_label st jj Label.vm_instructions_end Label.vm_instructions_end_v1 (ins_bytes memory_v1) B5) as (c6 & -> & R6);
    [exact (template_holds c5 18 _ _ B5 eq_refl)|reflexivity|] end.
  exists c6. split; [done|]. cbn [code with_code] in *.
  assert (Keep : forall pos bs, holds c4 pos bs -> pos + Z.of_nat (length bs) <= Label.vm_instructions_end \/ 50000 <= pos /\ pos + Z.of_nat (length bs) <= Label.update_spMix1 ->
    holds c6 pos bs).
  { intros pos bs Hh Hd. apply (rw_old _ _ _ _ _ R6); [apply O5; [done|]|]; rewrite ?ins_bytes_length; unfold Label.vm_instructions_end, Label.update_spMix1 in *; cbn [length memory_v1]; lia. }
  assert (Hin : forall n o l, template !! n = Some (o, l) -> fetched c6 o l) by (intros n o l E; apply template_segment; [apply R6|by eapply list_elem_of_lookup_2]).
  split; [apply common_code|split; [|apply R6]].
  - apply R6.
  - eapply mixed_keep; [exact M5|exact R6|]. left. vm_compute. congruence.
  - unfold PrologueSize in *. apply spMix2_fetched; [| |labels; lia|lia|labels; plia]; (apply Keep; [unwritten|apart_label]).
  - unfold fast_asm. apply fetched_app; [apply fetched_bytes; [apply R6|exact (segment_reads 18 _ _ eq_refl)]|].
    apply fetched_app; [eapply fetched_word; [apply Keep; [unwritten|apart_label]|apply align_decodes; auto..]|].
    apply fetched_app; [exact (Hin 2%nat _ _ eq_refl)|]. apply (fetched_app _ _ [_]); [|exact (Hin 3%nat _ _ eq_refl)].
    eapply fetched_word; [apply Keep; [unwritten|apart_label]|apply align_decodes; auto..].
Qed.

(** The dataset offset in lines, split between two additions. *)
Lemma offset_done pos datasetOffset jj : building st (code jj) -> patchable pos 4 = true -> patchable (pos + 4) 4 = true -> 0 <= datasetOffset < 2 ^ 30 ->
  exists c, emit_offset pos datasetOffset jj = Done (with_code c jj) /\ building st c /\ fetched c pos (offset_asm datasetOffset) /\
    forall q b, holds (code jj) q b -> q + Z.of_nat (length b) <= pos \/ pos + 8 <= q -> holds c q b.
Proof.
  intros Hb P1 P2 Ho. unfold emit_offset, offset_asm. cbv zeta. change (2 ^ 12 - 1) with (Z.ones 12). rewrite Z.land_ones, Z.shiftr_div_pow2 by lia. change (2 ^ 12) with 4096.
  set (lo := (datasetOffset / 64) mod 4096). set (hi := datasetOffset / 64 / 4096).
  assert (Hlo : 0 <= lo < 4096) by (apply Z.mod_pos_bound; lia). assert (Hhi : 0 <= hi < 4096) by (unfold hi; plia). clearbody lo hi.
  assert (W : forall x, 0 <= x < 4096 -> wrap 32 (Z.shiftl x 10) = Z.shiftl x 10) by (intros x Hx; apply wrap_small; rewrite Z.shiftl_mul_pow2 by lia; split; lia).
  rewrite !W by done. clear W. destruct (emit_label st jj pos (Z.lor (Z.lor (Z.lor ARMV8A.ADD_IMM_LO 2) (Z.shiftl 2 5)) (Z.shiftl lo 10)) Hb P1) as (c1 & -> & R1). cbn [mbind outcome_bind].
  destruct (emit_label st (with_code c1 jj) (pos + 4) (Z.lor (Z.lor (Z.lor ARMV8A.ADD_IMM_HI 2) (Z.shiftl 2 5)) (Z.shiftl hi 10)) (rw_building _ _ _ _ _ R1) P2) as (c2 & -> & R2).
  cbn [mbind outcome_bind]. exists c2. split; [done|]. split; [apply R2|]. cbn [code with_code] in *. split.
  - apply (fetched_app _ _ [_]).
    + eapply fetched_reg; [unwritten|]. apply encodes_add_lo; lia.
    + eapply fetched_reg; [exact (rw_new _ _ _ _ _ R2)|]. apply encodes_add_hi; lia.
  - intros q b Hq Hd. unwritten. done.
Qed.

Lemma generateProgramLight_done datasetOffset : 0 <= datasetOffset < 2 ^ 30 ->
  exists C, generateProgramLight use_dag swaps lut_enc lut_dec program config datasetOffset false j = Done (with_code C j0) /\
    loop_code config Label.vm_instructions_end_light st C /\ fetched C Label.vm_instructions_end_light (light_asm datasetOffset) /\ building st C.
Proof.
  intros Ho. pose proof st_bounds as (K1 & K2 & K3 & K4 & K5). pose proof start_building as B0. unfold generateProgramLight. rewrite Hemit. cbn [mbind outcome_bind].
  destruct (emit_after st j0 k (spMix2_word config) B0 K1 ltac:(cbn; lia) ltac:(cbn; lia)) as (c1 & -> & R1). cbn [mbind outcome_bind].
  change (is_v2 (with_code c1 _)) with (is_v2 j0). rewrite st_v1. change 8%nat with (length (ins_bytes light_v1)).
  lazymatch goal with |- context [copy_code ?d ?s _ ?jj] =>
    destruct (copy_label st jj d s (ins_bytes light_v1) (rw_building _ _ _ _ _ R1)) as (c2 & -> & R2);
    [exact (template_holds c1 20 _ _ (rw_building _ _ _ _ _ R1) eq_refl)|reflexivity|] end. cbn [mbind outcome_bind]. set (w2 := Z.lor ARMV8A.B _).
  destruct (emit_after st (with_code c2 (with_code c1 j0)) (k + 4) w2 (rw_building _ _ _ _ _ R2) K1 ltac:(cbn; lia) ltac:(cbn; lia)) as (c3 & -> & R3).
  cbn [mbind outcome_bind]. at_label (rw_building _ _ _ _ _ R3) c4 R4.
  lazymatch goal with |- context [emitSpMix2 _ _ _ ?jj] =>
    destruct (spMix2_done lut_enc lut_dec config jj st Hconfig st_v1 (rw_building _ _ _ _ _ R4)) as (c5 & -> & B5 & M5 & O5) end. cbn [mbind outcome_bind].
  lazymatch goal with |- context [emit_offset ?p ?o ?jj] => destruct (offset_done p o jj B5 eq_refl eq_refl Ho) as (c6 & -> & B6 & F6 & O6) end.
  exists c6. split; [done|]. cbn [code with_code] in *.
  assert (Keep : forall pos bs, holds c4 pos bs -> pos + Z.of_nat (length bs) <= Label.update_spMix1 \/ Label.v2_FE_mix + 4 <= pos /\ pos + Z.of_nat (length bs) <= Label.light_dataset_offset ->
    holds c6 pos bs).
  { intros pos bs Hh Hd. apply O6; [apply O5; [done|]|]; labels; lia. }
  assert (Hin : forall n o l, template !! n = Some (o, l) -> fetched c6 o l) by (intros n o l E; apply template_segment; [apply B6|by eapply list_elem_of_lookup_2]).
  split; [apply common_code|split; [|done]].
  - done.
  - destruct M5 as [M1 M2]. constructor; (eapply fetched_keep; [eassumption|]); intros q b Hq Hl H1 H2; (apply O6; [done|]); cbn [length spMix1_asm] in H2; labels; lia.
  - unfold PrologueSize in *. apply spMix2_fetched; [| |labels; lia|lia|labels; plia]; (apply Keep; [unwritten|apart_label]).
  - unfold light_asm. apply fetched_app; [exact (Hin 8%nat _ _ eq_refl)|].
    apply fetched_app; [eapply fetched_word; [apply Keep; [unwritten|apart_label]|apply align_decodes; auto..]|].
    apply fetched_app; [apply fetched_bytes; [apply Keep; [unwritten|apart_label]|exact (segment_reads 20 _ _ eq_refl)]|].
    apply fetched_app; [exact (Hin 9%nat _ _ eq_refl)|]. apply fetched_app; [exact F6|]. apply fetched_app; [exact (Hin 10%nat _ _ eq_refl)|exact (Hin 11%nat _ _ eq_refl)].
Qed.

Lemma generateProgramHybrid_done datasetOffset : 0 <= datasetOffset < 2 ^ 30 ->
  exists C, generateProgramLight use_dag swaps lut_enc lut_dec program config datasetOffset true j = Done (with_code C j0) /\
    loop_code config Label.vm_instructions_end_hybrid st C /\ fetched C Label.vm_instructions_end_hybrid (hybrid_asm datasetOffset) /\ building st C.
Proof.
  intros Ho. pose proof st_bounds as (K1 & K2 & K3 & K4 & K5). pose proof start_building as B0. unfold generateProgramLight. rewrite Hemit. cbn [mbind outcome_bind].
  destruct (emit_after st j0 k (spMix2_word config) B0 K1 ltac:(cbn; lia) ltac:(cbn; lia)) as (c1 & -> & R1). cbn [mbind outcome_bind].
  change (is_v2 (with_code c1 _)) with (is_v2 j0). rewrite st_v1. change 8%nat with (length (ins_bytes light_v1)).
  lazymatch goal with |- context [copy_code Label.vm_instructions_end_light_tweak ?s _ ?jj] =>
    destruct (copy_label st jj Label.vm_instructions_end_light_tweak s (ins_bytes light_v1) (rw_building _ _ _ _ _ R1)) as (c2 & -> & R2);
    [exact (template_holds c1 20 _ _ (rw_building _ _ _ _ _ R1) eq_refl)|reflexivity|] end. cbn [mbind outcome_bind]. set (w2 := Z.lor ARMV8A.B _).
  destruct (emit_after st (with_code c2 (with_code c1 j0)) (k + 4) w2 (rw_building _ _ _ _ _ R2) K1 ltac:(cbn; lia) ltac:(cbn; lia)) as (c3 & -> & R3).
  cbn [mbind outcome_bind]. at_label (rw_building _ _ _ _ _ R3) c4 R4.
  lazymatch goal with |- context [copy_code ?d ?s _ ?jj] =>
    destruct (copy_label st jj d s (ins_bytes light_v1) (rw_building _ _ _ _ _ R4)) as (c5 & -> & R5);
    [exact (template_holds c4 20 _ _ (rw_building _ _ _ _ _ R4) eq_refl)|reflexivity|] end. cbn [mbind outcome_bind].
  lazymatch goal with |- context [emitSpMix2 _ _ _ ?jj] =>
    destruct (spMix2_done lut_enc lut_dec config jj st Hconfig st_v1 (rw_building _ _ _ _ _ R5)) as (c6 & -> & B6 & M6 & O6) end. cbn [mbind outcome_bind].
  lazymatch goal with |- context [emit_offset ?p ?o ?jj] => destruct (offset_done p o jj B6 eq_refl eq_refl Ho) as (c7 & -> & B7 & F7 & O7) end.
  exists c7. split; [done|]. cbn [code with_code] in *.
  assert (Keep : forall pos bs, holds c5 pos bs -> pos + Z.of_nat (length bs) <= Label.update_spMix1 \/ Label.v2_FE_mix + 4 <= pos /\ pos + Z.of_nat (length bs) <= Label.hybrid_dataset_offset ->
    holds c7 pos bs).
  { intros pos bs Hh Hd. apply O7; [apply O6; [done|]|]; labels; lia. }
  assert (Hin : forall n o l, template !! n = Some (o, l) -> fetched c7 o l) by (intros n o l E; apply template_segment; [apply B7|by eapply list_elem_of_lookup_2]).
  split; [apply common_code|split; [|done]].
  - done.
  - destruct M6 as [M1 M2]. constructor; (eapply fetched_keep; [eassumption|]); intros q b Hq Hl H1 H2; (apply O7; [done|]); cbn [length spMix1_asm] in H2; labels; lia.
  - unfold PrologueSize in *. apply spMix2_fetched; [| |labels; lia|lia|labels; plia]; (apply Keep; [unwritten|apart_label]).
  - unfold hybrid_asm. apply fetched_app; [exact (Hin 12%nat _ _ eq_refl)|].
    apply fetched_app; [eapply fetched_word; [apply Keep; [unwritten|apart_label]|apply align_decodes; auto..]|].
    apply fetched_app; [apply fetched_bytes; [apply Keep; [unwritten|apart_label]|exact (segment_reads 20 _ _ eq_refl)]|].
    apply fetched_app; [exact (Hin 13%nat _ _ eq_refl)|]. apply fetched_app; [exact F7|]. apply fetched_app; [exact (Hin 14%nat _ _ eq_refl)|].
    apply fetched_app; [exact (Hin 15%nat _ _ eq_refl)|]. apply fetched_app; [exact (Hin 16%nat _ _ eq_refl)|exact (Hin 17%nat _ _ eq_refl)].
Qed.
End generate.
