(* ===== verification/A64Run.v ===== *)
(** * Straight A64 code

    Pieces of the machine code of A64Loop.v that run from one instruction to the next: the run of a piece that
    is in memory is the execution of its instructions in order, and the loads and stores of a piece are
    accesses to the scratchpad or to the rest of memory. *)

From stdpp Require Import list.
From S2P Require Import Prelude RandomX Float Bytecode A64 JitDataset JitItem A64Vec A64Loop JitTemplate JitGenerate.

(** ** Straight code *)

Definition straight (i : ins) : bool :=
  match i with
  | Reg (B _) | Pair (RET _) | Vec (B_ne _) | More (BL _) | More (CBZ_w _ _) | More (B_hs _) => false
  | _ => true
  end.

Definition exec_all (C : list Z) (base : Z) (l : list ins) (st : loop_state) : outcome loop_state :=
  ofoldl (fun st i => exec_ins C base i st) st l.

Definition reaches (C : list Z) (base : Z) (st st' : loop_state) : Prop := exists n, loop_run n C base st = Done st'.

Lemma reaches_refl C base st : reaches C base st st.
Proof. by exists 0%nat. Qed.
Lemma run_trans C base s1 s2 s3 : reaches C base s1 s2 -> reaches C base s2 s3 -> reaches C base s1 s3.
Proof. intros [n1 E1] [n2 E2]. exists (n1 + n2)%nat. rewrite loop_run_app, E1. exact E2. Qed.

Lemma store_word_pc base a v st st' : store_word base a v st = Done st' -> vpc (lv st') = vpc (lv st).
Proof. unfold store_word. destruct (in_pad _ _ _); intros H; apply bind_Done in H as (m & _ & H); by injection H as <-. Qed.
Lemma store_quad_pc base a v st st' : store_quad base a v st = Done st' -> vpc (lv st') = vpc (lv st).
Proof. unfold store_quad. intros H. apply bind_Done in H as (s1 & E1 & E2). by rewrite (store_word_pc _ _ _ _ _ E2), (store_word_pc _ _ _ _ _ E1). Qed.

Ltac unbind H := repeat (lazymatch type of H with mbind _ _ = Done _ => idtac end; apply bind_Done in H as (? & ? & H); cbv beta in H).

Ltac settle_pc H := cbv zeta in H; unbind H;
  repeat match goal with
    | H : Done _ = Done _ |- _ => injection H as <-
    | H : store_word _ _ _ _ = Done _ |- _ => apply store_word_pc in H
    | H : store_quad _ _ _ _ = Done _ |- _ => apply store_quad_pc in H
    end; cbn [vpc lv advance with_vec put_x put_v put_sp jump put_flags] in *; try lia.

Lemma reg_pc C i pc xs pc' xs' : straight (Reg i) = true -> exec C i pc xs = Done (pc', xs') -> pc' = pc + 4.
Proof. destruct i; cbn [straight exec]; try discriminate; intros _ H; cbv zeta in H; unbind H; by injection H as <- _. Qed.
Lemma vec_pc base i s s' : straight (Vec i) = true -> exec_vec base i s = Done s' -> vpc s' = vpc s + 4.
Proof. destruct i; cbn [straight exec_vec]; try discriminate; intros _ H; settle_pc H. Qed.

Lemma straight_pc C base i st st' : straight i = true -> exec_ins C base i st = Done st' -> vpc (lv st') = vpc (lv st) + 4.
Proof.
  destruct i as [i|i|i|i]; cbn [exec_ins].
  - intros Hs H. cbn [vec_exec] in H. apply bind_Done in H as (s & H & E). injection E as <-. apply bind_Done in H as ([pc' xs'] & H & E).
    injection E as <-. by apply reg_pc in H.
  - destruct i; cbn [straight exec_pair]; try discriminate; intros _ H; settle_pc H.
  - intros Hs H. apply bind_Done in H as (s & H & E). injection E as <-. by apply vec_pc in H.
  - destruct i; cbn [straight exec_more]; try discriminate; intros _ H; cbv zeta in H;
      repeat match type of H with (if ?c then UB else _) = _ => destruct c; [discriminate H|] end; settle_pc H.
Qed.

Lemma step_fetched C base i st st' : fetched C (vpc (lv st)) [i] -> exec_ins C base i st = Done st' -> reaches C base st st'.
Proof. intros [(w & Hw & Hd) _] E. exists 1%nat. cbn [loop_run]. unfold loop_step. rewrite Hw. cbn [mbind outcome_bind]. by rewrite Hd, E. Qed.

(** Instructions that follow one another. *)
Lemma run_fetched C base l st st' : fetched C (vpc (lv st)) l -> forallb straight l = true -> exec_all C base l st = Done st' ->
  reaches C base st st' /\ vpc (lv st') = vpc (lv st) + 4 * Z.of_nat (length l).
Proof.
  revert st. induction l as [|i l IH]; intros st; cbn [fetched forallb exec_all ofoldl length].
  - intros _ _ [= <-]. split; [apply reaches_refl|lia].
  - intros [Hw Hf] [Hi Hs]%andb_prop H. apply bind_Done in H as (st1 & E & H). pose proof (straight_pc _ _ _ _ _ Hi E) as Hp.
    destruct (IH st1) as [R P]; [by rewrite Hp|done|exact H|]. split; [|lia]. eapply run_trans; [|exact R]. by eapply step_fetched.
Qed.

(** ** Loads and stores *)

Definition load_at (base : Z) (pad : list Z) (mem : memory) (a : Z) : outcome Z :=
  if (base <=? a) && (a + 8 <=? base + Z.of_nat (length pad)) then read_le pad (a - base) 8 else load mem a.
Definition store_at (base : Z) (pad : list Z) (mem : memory) (a v : Z) : outcome (list Z * memory) :=
  if (base <=? a) && (a + 8 <=? base + Z.of_nat (length pad)) then pad ← write_bytes pad (a - base) (le_bytes 8 v); Done (pad, mem)
  else mem ← store mem a v; Done (pad, mem).

Lemma load_word_at base a s sp c mem : load_word base a (mkLoop s sp c mem) = load_at base (vmem s) mem a.
Proof. done. Qed.
Lemma store_word_at base a v pc xs vs fp z pad sp c mem : store_word base a v (mkLoop (mkVec pc xs vs fp z pad) sp c mem) =
  ('(pad, mem) ← store_at base pad mem a v; Done (mkLoop (mkVec pc xs vs fp z pad) sp c mem)).
Proof.
  unfold store_word, store_at, in_pad. cbn [lv vmem lmem]. destruct (_ && _).
  - by destruct (write_bytes _ _ _).
  - by destruct (store _ _ _).
Qed.

(** Addresses are sums of a register and an offset. *)
Lemma wrap_add_wrap p a b : wrap 64 (wrap 64 (p + a) + b) = wrap 64 (p + (a + b)).
Proof. unfold wrap. rewrite Zplus_mod_idemp_l. f_equal. lia. Qed.

(** Eight words from [p] on. *)
Definition line_at (base : Z) (pad : list Z) (mem : memory) (p : Z) (ws : list Z) : Prop :=
  length ws = 8%nat /\ forall i, 0 <= i < 8 -> load_at base pad mem (wrap 64 (p + 8 * i)) = Done (ws !!! Z.to_nat i).

(** Words stored from [p + k] on, in the scratchpad or in the rest of memory. *)
Fixpoint stores_at (base : Z) (pad : list Z) (mem : memory) (p k : Z) (vs : list Z) : outcome (list Z * memory) :=
  match vs with
  | [] => Done (pad, mem)
  | v :: vs => '(pad, mem) ← store_at base pad mem (wrap 64 (p + k)) v; stores_at base pad mem p (k + 8) vs
  end.

(** ** Symbolic execution *)

Lemma exec_cons C base i l st st1 r : exec_ins C base i st = Done st1 -> exec_all C base l st1 = r -> exec_all C base (i :: l) st = r.
Proof. intros E H. unfold exec_all. cbn [ofoldl]. by rewrite E. Qed.
Lemma exec_nil C base st : exec_all C base [] st = Done st.
Proof. done. Qed.
Lemma exec_app C base l1 l2 st : exec_all C base (l1 ++ l2) st = (st ← exec_all C base l1 st; exec_all C base l2 st).
Proof.
  unfold exec_all. revert st. induction l1 as [|i l1 IH]; intros st; cbn [ofoldl app]; [done|]. destruct (exec_ins _ _ _ _); cbn [mbind outcome_bind]; auto.
Qed.

Lemma exec_seq C base l1 l2 st st1 st2 : exec_all C base l1 st = Done st1 -> exec_all C base l2 st1 = Done st2 -> exec_all C base (l1 ++ l2) st = Done st2.
Proof. intros E1 E2. by rewrite exec_app, E1. Qed.

(** Everything but arithmetic and memory. *)
Ltac symbolic := lazy [exec_ins exec_pair exec_more vec_exec exec exec_vec with_vec advance jump put_x put_v put_sp put_flags
  lv lsp cf lmem vpc vx vv fpcr zf vmem lo hi mbind outcome_bind xget xset vget vset lookup_total list_lookup_total insert list_insert
  Z.to_nat Pos.to_nat Pos.iter_op Init.Nat.add Z.eqb Pos.eqb negb app lanes2 lanes1
  stp ldp str ldr add_sp mov eor add ubfx lsr ror prfm SP load_quad store_quad].
(** Offsets folded into one. *)
Ltac fold_offsets := rewrite ?wrap_add_wrap;
  repeat match goal with |- context [wrap 64 (?p + (?a + ?b))] => let k := eval vm_compute in (a + b) in change (a + b) with k end.
(** The loads of a line, by its equation [L]. *)
Ltac load_line L :=
  lazymatch type of L with forall i, _ -> load_at _ _ _ (wrap 64 (?at_ + _)) = _ =>
    repeat match goal with |- context [load_at _ _ _ (wrap 64 (at_ + ?k))] =>
      let i := eval vm_compute in (k / 8) in let E := fresh in
      pose proof (L i ltac:(lia)) as E; change (8 * i) with k in E; rewrite E; clear E end
  end.
(** The stores of a block of words, one equation each. *)
Ltac split_stores H := repeat (
  cbn [stores_at] in H;
  lazymatch type of H with
  | mbind _ _ = Done _ =>
      let pd := fresh "pad" in let mm := fresh "mem" in let S := fresh "S" in apply bind_Done in H as ([pd mm] & S & H);
      lazymatch type of S with store_at _ _ _ (wrap 64 (_ + ?k)) _ = _ => let k' := eval vm_compute in k in change k with k' in S end
  end); cbn [stores_at] in H; injection H as ? ?; subst.
Ltac store_block := repeat match goal with H : store_at ?b ?pd ?mm ?a ?v = Done _ |- context [store_at ?b ?pd ?mm ?a ?v] => rewrite H end.
(** One instruction; [access] rewrites what it loads and stores. *)
Ltac one access := eapply exec_cons;
  [symbolic; repeat (first [rewrite load_word_at | rewrite store_word_at]; cbn [vmem]; fold_offsets; access; symbolic); try (access; symbolic); reflexivity|].

(** Thirty-one and thirty-two registers by name. *)
Tactic Notation "eight" constr(l) ident(a) ident(b) ident(c) ident(d) ident(e) ident(f) ident(g) ident(h) :=
  destruct l as [|a [|b [|c [|d [|e [|f [|g [|h l]]]]]]]]; try discriminate.
Ltac x_registers l := eight l x0 x1 x2 x3 x4 x5 x6 x7; eight l x8 x9 x10 x11 x12 x13 x14 x15; eight l x16 x17 x18 x19 x20 x21 x22 x23;
  destruct l as [|x24 [|x25 [|x26 [|x27 [|x28 [|x29 [|x30 [|]]]]]]]]; try discriminate.
Ltac v_registers l := eight l v0 v1 v2 v3 v4 v5 v6 v7; eight l v8 v9 v10 v11 v12 v13 v14 v15; eight l v16 v17 v18 v19 v20 v21 v22 v23;
  eight l v24 v25 v26 v27 v28 v29 v30 v31; destruct l; try discriminate.
(** Words, one by one. *)
Ltac words_of H := repeat (apply Forall_cons_1 in H; destruct H as [? H]).
