(* ===== verification/JitLoop.v ===== *)
(** * The main loop, compiled

    One turn of the loop of [randomx_program_aarch64] (src/src/jit_compiler_a64_static.S) as the code
    generator completed it, against the loop body of [run_interpreted] (src/src/vm.cpp), for any way of
    reaching the dataset line. *)

From stdpp Require Import list.
From S2P Require Import Prelude RandomX Float Bytecode BytecodeSafety BytecodeTermination BytecodeStale Argon2 Dataset Vm.
From S2P Require Import Footprint JitSchedule JitEquiv A64 JitDataset JitItem A64Vec JitEmit JitLayout JitWords JitValues JitVmRun JitVmSim JitVmFloat JitVmEquiv.
From S2P Require Import A64Loop JitTemplate JitGenerate A64Run.

(** ** Lines of 64 bytes *)

Definition line_words (bs : list Z) : list Z := (fun i => of_le (take 8 (drop (8 * i) bs))) <$> seq 0 8.

Lemma xor_words_line rs bs : length rs = 8%nat -> xor_words rs bs = zip_with Z.lxor rs (line_words bs).
Proof. intros Hl. destruct rs as [|r0 [|r1 [|r2 [|r3 [|r4 [|r5 [|r6 [|r7 [|]]]]]]]]]; try discriminate Hl. reflexivity. Qed.

Lemma read_line mem s bs i : read_bytes mem s 64 = Done bs -> 0 <= i < 8 -> read_le mem (s + 8 * i) 8 = Done (line_words bs !!! Z.to_nat i).
Proof.
  intros E Hi. assert (Hb : 0 <= s /\ s + 64 <= Z.of_nat (length mem)) by (revert E; unfold read_bytes; destruct (_ && _) eqn:Ec; [blia|done]).
  rewrite read_bytes_ok in E by lia. injection E as <-. unfold read_le. rewrite read_bytes_ok by lia. cbn [mbind outcome_bind]. f_equal. unfold line_words.
  rewrite (list_lookup_total_correct _ _ (of_le (take 8 (drop (8 * Z.to_nat i) (take 64 (drop (Z.to_nat s) mem))))));
    [|rewrite list_lookup_fmap, lookup_seq_lt by lia; done].
  f_equal. rewrite skipn_firstn_comm, firstn_firstn, drop_drop. f_equal; [lia|]. f_equal. lia.
Qed.

Lemma line_words_range bs : Bytes bs -> Words (line_words bs).
Proof.
  intros Hb. unfold line_words. apply Forall_fmap, Forall_forall. intros i _. cbn [compose]. unfold word64, in_range.
  pose proof (of_le_range (take 8 (drop (8 * i) bs)) ltac:(by apply Forall_take, Forall_drop)) as H.
  assert (Hl : (length (take 8 (drop (8 * i) bs)) <= 8)%nat) by (rewrite length_take; lia). unfold in_range in H.
  pose proof (Z.pow_le_mono_r 2 (8 * Z.of_nat (length (take 8 (drop (8 * i) bs)))) 64 ltac:(lia) ltac:(lia)). lia.
Qed.

Lemma read_bytes_range mem s n bs : Bytes mem -> read_bytes mem s n = Done bs -> Bytes bs /\ 0 <= s /\ s + Z.of_nat n <= Z.of_nat (length mem).
Proof. unfold read_bytes. destruct (_ && _) eqn:E; [|done]. intros Hb [= <-]. split; [by apply Forall_take, Forall_drop|blia]. Qed.

Lemma word_lxor x y : word64 x -> word64 y -> word64 (Z.lxor x y).
Proof. intros. apply lxor_range; auto with word. Qed.

Section pad.
Context (base : Z) (Hbase : 0 <= base /\ base + 2 ^ 21 <= 2 ^ 64).

Lemma pad_load pad mem s v : Z.of_nat (length pad) = 2 ^ 21 -> 0 <= s -> s + 8 <= 2 ^ 21 -> read_le pad s 8 = Done v -> load_at base pad mem (wrap 64 (base + s)) = Done v.
Proof.
  intros Hl H0 H1 E. rewrite wrap_small by (split; lia). unfold load_at. replace (base + s - base) with s by lia.
  destruct (Z.leb_spec base (base + s)); [|lia]. destruct (Z.leb_spec (base + s + 8) (base + Z.of_nat (length pad))); [done|lia].
Qed.
Lemma pad_line pad mem s bs : Z.of_nat (length pad) = 2 ^ 21 -> read_bytes pad s 64 = Done bs -> line_at base pad mem (base + s) (line_words bs).
Proof.
  intros Hl E. split; [done|]. intros i Hi. assert (Hb : 0 <= s /\ s + 64 <= Z.of_nat (length pad)) by (revert E; unfold read_bytes; destruct (_ && _) eqn:Ec; [blia|done]).
  rewrite <- Z.add_assoc. apply pad_load; [done|lia|lia|]. by apply read_line.
Qed.

(** Words written one after the other. *)
Lemma pad_stores pad mem s k vs pad' : Z.of_nat (length pad) = 2 ^ 21 -> write_bytes pad (s + k) (concat (le_bytes 8 <$> vs)) = Done pad' ->
  stores_at base pad mem (base + s) k vs = Done (pad', mem).
Proof.
  revert pad k. induction vs as [|v vs IH]; intros pad k Hl E; cbn [stores_at].
  - f_equal. f_equal. revert E. unfold write_bytes. destruct (_ && _) eqn:Eb; [|done]. cbn [fmap list_fmap concat length app]. intros [= <-].
    rewrite Nat.add_0_r. symmetry. apply take_drop.
  - rewrite fmap_cons in E. cbn [concat] in E.
    assert (Hb : 0 <= s + k /\ s + k + 8 + Z.of_nat (length (concat (le_bytes 8 <$> vs))) <= Z.of_nat (length pad)).
    { revert E. unfold write_bytes. rewrite length_app, length_le_bytes. destruct (_ && _) eqn:Eb; [blia|done]. }
    rewrite <- write_bytes_app in E by (rewrite ?length_le_bytes; lia). apply bind_Done in E as (pad1 & E1 & E2). rewrite length_le_bytes in E2.
    rewrite wrap_small by (split; lia). unfold store_at. replace (base + s + k - base) with (s + k) by lia.
    destruct (Z.leb_spec base (base + s + k)); [|lia]. destruct (Z.leb_spec (base + s + k + 8) (base + Z.of_nat (length pad))); [|lia]. cbn [andb]. rewrite E1.
    cbn [mbind outcome_bind]. pose proof (write_bytes_length _ _ _ _ E1). apply IH; [lia|]. by rewrite Z.add_assoc.
Qed.
End pad.

(** The two integers of a word, converted. *)
Definition int_pair (u : Z) : FloatRegister := mkFloat (of_int32 (bits u 0 32)) (of_int32 (bits u 32 32)).

Lemma load_pairs_words c s bs k n : Bytes (scratchpad_ c) -> read_bytes (scratchpad_ c) s 64 = Done bs -> (k + n <= 8)%nat ->
  load_pairs c (s + 8 * Z.of_nat k) n = Done (int_pair <$> take n (drop k (line_words bs))).
Proof.
  intros Hb E. revert k. induction n as [|n IH]; intros k Hk; cbn [load_pairs]; [done|].
  assert (Hl : line_words bs !! k = Some (line_words bs !!! k)) by (apply list_lookup_lookup_total_lt; unfold line_words; rewrite length_fmap, length_seq; lia).
  pose proof (read_line _ _ _ (Z.of_nat k) E ltac:(lia)) as Er. rewrite Nat2Z.id in Er. destruct (read_halves _ _ _ Hb Er) as [E1 E2].
  unfold load_int_pair, load32. rewrite E1. cbn [mbind outcome_bind]. rewrite E2. cbn [mbind outcome_bind].
  replace (s + 8 * Z.of_nat k + 8) with (s + 8 * Z.of_nat (S k)) by lia. rewrite IH by lia. cbn [mbind outcome_bind]. by rewrite (drop_S _ _ _ Hl).
Qed.

(** What the loop needs of the interpreter's state at its head, where the float registers are still to be loaded. *)
Record shaped (c : xstate) : Prop := mkShaped {
  sh_r : length (r (reg_ c)) = 8%nat;
  sh_f : length (f (reg_ c)) = 4%nat;
  sh_e : length (e (reg_ c)) = 4%nat;
  sh_a : length (a (reg_ c)) = 4%nat;
  sh_mem : Z.of_nat (length (scratchpad_ c)) = 2 ^ 21 /\ Bytes (scratchpad_ c);
}.
Lemma x_wf_shaped c : x_wf c -> shaped c.
Proof. intros [[? _] [? _] [? _] [? _] ?]. by constructor. Qed.

Section loop.
Context (C : list Z) (base : Z) (m : Z * Z) (config : ProgramConfiguration) (st : emission) (target : Z).
Context (Hcode : loop_code config target st C).
Context (Hbase : 0 <= base /\ base + 2 ^ 21 <= 2 ^ 64) (Hmask : e_or_ok m.1 /\ e_or_ok m.2).

Abbreviation sim := (JitVmSim.sim C base m).
Abbreviation reaches := (A64Run.reaches C base).

(** What the first part of an iteration leaves. *)
Definition loaded (c : xstate) (rs : list Z) (fs es : list FloatRegister) : xstate :=
  set_reg_file (mkRegisterFile rs fs (mask_float m <$> es) (a (reg_ c))) c.

Lemma bif_pair v : mkFloat (Z.lor (Z.land (of_int32 (bits v 0 32)) e_and) (Z.land m.1 (not64 e_and)))
  (Z.lor (Z.land (of_int32 (bits v 32 32)) e_and) (Z.land m.2 (not64 e_and))) = mask_float m (int_pair v).
Proof. destruct Hmask. unfold mask_float, int_pair. cbn [lo hi]. by rewrite !bif_mask. Qed.

Ltac literal_in H := lazy [xget vget int_reg IntRegMap lookup_total list_lookup_total Z.to_nat Pos.to_nat Pos.iter_op Init.Nat.add Z.eqb Pos.eqb Z.add Pos.add] in H.

(** The literal pools in the registers that hold them. *)
Definition pools (lits : list Z) (vecs : list FloatRegister) : Prop :=
  (forall j v, 0 <= j < 64 -> read_le C (ImulRcpLiteralsEnd + 4 * j) 4 = Done v -> lane32 (vecs !!! Z.to_nat (j / 4)) (j mod 4) = v) /\
  (forall j v, 0 <= j < 12 -> read_le C (ImulRcpLiteralsEnd - 8 * (j + 1)) 8 = Done v -> lits !!! Z.to_nat j = v).

(** The sixty-three registers of the allocation: general registers, then vectors. *)
Definition x_file (x0 x1 x3 : Z) (rs : list Z) (md x9 x10 x11 x16 x17 x18 x19 x20 : Z) (lits : list Z) : list Z :=
  [x0; x1; base; x3] ++ take 4 rs ++ [md * 2 ^ 40; x9; x10; x11] ++ drop 4 rs ++ [x16; x17; x18; x19; x20] ++ lits.
Definition v_file (vecs fs es fas : list FloatRegister) (v28 : FloatRegister) : list FloatRegister :=
  vecs ++ fs ++ es ++ fas ++ [v28; mkFloat e_and e_and; mkFloat m.1 m.2; mkFloat scale_mask scale_mask].

Lemma x_words x0 x1 x3 rs md x9 x10 x11 x16 x17 x18 x19 x20 lits :
  Words (x_file x0 x1 x3 rs md x9 x10 x11 x16 x17 x18 x19 x20 lits) <->
  Words [x0; x1; base; x3; md * 2 ^ 40; x9; x10; x11; x16; x17; x18; x19; x20] /\ Words rs /\ Words lits.
Proof.
  unfold x_file. rewrite !Forall_app, !list.Forall_cons, !list.Forall_nil. split.
  - intros (H1 & H2 & H3 & H4 & H5 & H6). split; [tauto|]. split; [|done]. rewrite <- (take_drop 4 rs). by apply Forall_app.
  - intros (H1 & H2 & H3). split_and!; try tauto; [by apply Forall_take|by apply Forall_drop].
Qed.

(** Words, one by one. *)
Ltac words_in := repeat match goal with H : Forall _ (_ :: _) |- _ => apply Forall_cons_1 in H; destruct H as [? H] end.
Ltac file_words W := let W2 := fresh in let W3 := fresh in
  apply x_words in W as (W & W2 & W3); apply x_words; words_in;
  split; [|split]; repeat (apply List.Forall_cons; [try assumption|]); try apply List.Forall_nil; try assumption.

(** A machine state and the interpreter's, register by register. *)
Lemma sim_literal K c s : sim K c s -> shaped c -> exists x0 x11 x18 x19 x20 x21 x22 x23 x24 x25 x26 x27 x28 x29 x30
    v0 v1 v2 v3 v4 v5 v6 v7 v8 v9 v10 v11 v12 v13 v14 v15 v28 r0 r1 r2 r3 r4 r5 r6 r7 f0 f1 f2 f3 e0 e1 e2 e3 a0 a1 a2 a3 pad md fe pc fp z,
  let rs := [r0; r1; r2; r3; r4; r5; r6; r7] in
  let lits := [x21; x22; x23; x24; x25; x26; x27; x28; x29; x30] in
  let vecs := [v0; v1; v2; v3; v4; v5; v6; v7; v8; v9; v10; v11; v12; v13; v14; v15] in
  let xs := x_file x0 (K 1) (K 3) rs (md) (K 9) (K 10) x11 (K 16) (K 17) x18 x19 x20 lits in
  c = mkX (mkRegisterFile rs [f0; f1; f2; f3] [e0; e1; e2; e3] [a0; a1; a2; a3]) pad md fe /\
  s = mkVec pc xs (v_file vecs [f0; f1; f2; f3] [e0; e1; e2; e3] [a0; a1; a2; a3] v28) fp z pad /\
  Words xs /\ pools (rev lits ++ [x11; x0]) vecs /\
  0 <= md < 4 /\ fe = rounding_of (md) /\ fp = rbit64 (md * 2 ^ 40).
Proof.
  intros [[[Lx Wx] Lv] Sr Sf Se Sa Sb Sm Smode Smem [P1 P2] Skeep] [Lr Lf Le La _].
  destruct s as [pc xs vs fp z pad], c as [[rs fs es fas] mem md fe]. cbn [vpc vx vv fpcr zf vmem reg_ r f e a scratchpad_ last_rounding_mode_ fe_round] in *. subst pad.
  x_registers xs. v_registers vs. clear Lx Lv. eight rs r0 r1 r2 r3 r4 r5 r6 r7. destruct rs; [|discriminate].
  destruct fs as [|f0 [|f1 [|f2 [|f3 [|]]]]]; try discriminate. destruct es as [|e0 [|e1 [|e2 [|e3 [|]]]]]; try discriminate.
  destruct fas as [|a0 [|a1 [|a2 [|a3 [|]]]]]; try discriminate. clear Lr Lf Le La. destruct Sm as (M29 & M30 & M31). destruct Smode as (Q1 & Q2 & M8 & Q3).
  pose proof (Sr 0 ltac:(lia)) as R0. pose proof (Sr 1 ltac:(lia)) as R1. pose proof (Sr 2 ltac:(lia)) as R2. pose proof (Sr 3 ltac:(lia)) as R3.
  pose proof (Sr 4 ltac:(lia)) as R4. pose proof (Sr 5 ltac:(lia)) as R5. pose proof (Sr 6 ltac:(lia)) as R6. pose proof (Sr 7 ltac:(lia)) as R7.
  pose proof (Sf 0 ltac:(lia)) as F0. pose proof (Sf 1 ltac:(lia)) as F1. pose proof (Sf 2 ltac:(lia)) as F2. pose proof (Sf 3 ltac:(lia)) as F3.
  pose proof (Se 0 ltac:(lia)) as G0. pose proof (Se 1 ltac:(lia)) as G1. pose proof (Se 2 ltac:(lia)) as G2. pose proof (Se 3 ltac:(lia)) as G3.
  pose proof (Sa 0 ltac:(lia)) as A0. pose proof (Sa 1 ltac:(lia)) as A1. pose proof (Sa 2 ltac:(lia)) as A2. pose proof (Sa 3 ltac:(lia)) as A3.
  pose proof (Skeep 1 ltac:(cbn; tauto)) as K1. pose proof (Skeep 3 ltac:(cbn; tauto)) as K3. pose proof (Skeep 9 ltac:(cbn; tauto)) as K9.
  pose proof (Skeep 10 ltac:(cbn; tauto)) as K10. pose proof (Skeep 16 ltac:(cbn; tauto)) as K16. pose proof (Skeep 17 ltac:(cbn; tauto)) as K17.
  clear Sr Sf Se Sa Skeep.
  repeat match goal with H : xget _ _ = _ |- _ => literal_in H | H : vget _ _ = _ |- _ => literal_in H end.
  subst. do 58 eexists. cbv zeta. split; [reflexivity|]. split; [reflexivity|]. split; [exact Wx|]. split; [|done]. split.
  - intros j v Hj Hr. rewrite <- (P1 j v Hj Hr). assert (Hq : 0 <= j / 4 < 16) by plia. unfold vget. f_equal.
    set (q := j / 4) in *. clearbody q. each q 16%nat.
  - intros j v Hj Hr. rewrite <- (P2 j v Hj Hr). each j 12%nat.
Qed.

Lemma sim_build K pc fp z pad x0 x1 x3 r0 r1 r2 r3 r4 r5 r6 r7 md x9 x10 x11 x16 x17 x18 x19 x20 x21 x22 x23 x24 x25 x26 x27 x28 x29 x30
    v0 v1 v2 v3 v4 v5 v6 v7 v8 v9 v10 v11 v12 v13 v14 v15 v28 f0 f1 f2 f3 e0 e1 e2 e3 a0 a1 a2 a3 fe :
  let rs := [r0; r1; r2; r3; r4; r5; r6; r7] in
  let lits := [x21; x22; x23; x24; x25; x26; x27; x28; x29; x30] in
  let vecs := [v0; v1; v2; v3; v4; v5; v6; v7; v8; v9; v10; v11; v12; v13; v14; v15] in
  let xs := x_file x0 x1 x3 rs md x9 x10 x11 x16 x17 x18 x19 x20 lits in
  Words xs -> pools (rev lits ++ [x11; x0]) vecs -> 0 <= md < 4 -> fe = rounding_of md -> fp = rbit64 (md * 2 ^ 40) ->
  x1 = K 1 -> x3 = K 3 -> x9 = K 9 -> x10 = K 10 -> x16 = K 16 -> x17 = K 17 ->
  sim K (mkX (mkRegisterFile rs [f0; f1; f2; f3] [e0; e1; e2; e3] [a0; a1; a2; a3]) pad md fe)
    (mkVec pc xs (v_file vecs [f0; f1; f2; f3] [e0; e1; e2; e3] [a0; a1; a2; a3] v28) fp z pad).
Proof.
  cbv zeta. intros W [P1 P2] Hmd -> -> K1 K3 K9 K10 K16 K17. constructor; cbn [vpc vx vv fpcr zf vmem reg_ r f e a scratchpad_ last_rounding_mode_ fe_round].
  - split; [split; [reflexivity|exact W]|reflexivity].
  - intros i Hi. each i 8%nat.
  - intros i Hi. each i 4%nat.
  - intros i Hi. each i 4%nat.
  - intros i Hi. each i 4%nat.
  - done.
  - done.
  - done.
  - done.
  - constructor; cbn [vx vv].
    + intros j v Hj Hr. rewrite <- (P1 j v Hj Hr). assert (Hq : 0 <= j / 4 < 16) by plia. unfold vget. f_equal. set (q := j / 4) in *. clearbody q. each q 16%nat.
    + intros j v Hj Hr. rewrite <- (P2 j v Hj Hr). each j 12%nat.
  - intros n Hn. repeat (destruct Hn as [<-|Hn]; [assumption|]). by destruct Hn.
Qed.

(** The registers of a state [s] that matches [c], by name. *)
Ltac explode Hs Hx W P Hmd :=
  let H := fresh in
  pose proof (sim_literal _ _ _ Hs Hx) as H; cbv zeta in H;
  destruct H as (x0 & x11 & x18 & x19 & x20 & x21 & x22 & x23 & x24 & x25 & x26 & x27 & x28 & x29 & x30 &
    v0 & v1 & v2 & v3 & v4 & v5 & v6 & v7 & v8 & v9 & v10 & v11 & v12 & v13 & v14 & v15 & v28 & r0 & r1 & r2 & r3 & r4 & r5 & r6 & r7 &
    f0 & f1 & f2 & f3 & e0 & e1 & e2 & e3 & a0 & a1 & a2 & a3 & pad & md & fe & pc & fp & z & -> & -> & W & P & Hmd & Hfe & Hfp).

Lemma head_runs ms c K s0 s1 line0 line1 : sim K c (lv ms) -> shaped c -> vpc (lv ms) = MainLoopBegin -> K 16 = base + s0 -> K 17 = base + s1 ->
  read_bytes (scratchpad_ c) s0 64 = Done line0 -> read_bytes (scratchpad_ c) s1 64 = Done line1 ->
  exists ms', reaches ms ms' /\ vpc (lv ms') = PrologueSize /\
    sim K (loaded c (zip_with Z.lxor (r (reg_ c)) (line_words line0)) (int_pair <$> take 4 (line_words line1)) (int_pair <$> drop 4 (line_words line1))) (lv ms') /\
    lsp ms' = lsp ms /\ lmem ms' = lmem ms.
Proof.
  intros Hs Hx Hp K16 K17 E0 E1. pose proof (sim_rounding _ _ _ _ _ _ Hs) as Hmode. 
  pose proof (pad_line base Hbase (scratchpad_ c) (lmem ms) s0 line0 (proj1 (sh_mem _ Hx)) E0) as L0.
  pose proof (pad_line base Hbase (scratchpad_ c) (lmem ms) s1 line1 (proj1 (sh_mem _ Hx)) E1) as L1.
  destruct ms as [s sp cc mem]. cbn [lv lsp lmem] in *. explode Hs Hx W P Hmd. cbn [vpc fpcr scratchpad_ fe_round] in *. subst pc. rewrite <- K16 in L0. rewrite <- K17 in L1.
  set (l0 := line_words line0) in *. set (l1 := line_words line1) in *. assert (W0 : Words l0) by (apply line_words_range; exact (proj1 (read_bytes_range _ _ _ _ (proj2 (sh_mem _ Hx)) E0))). clearbody l0 l1. destruct L0 as [Hl0 L0], L1 as [Hl1 L1].
  eight l0 w0 w1 w2 w3 w4 w5 w6 w7. destruct l0; [|discriminate]. eight l1 u0 u1 u2 u3 u4 u5 u6 u7. destruct l1; [|discriminate].
  lazymatch goal with |- exists ms', reaches ?s ms' /\ _ => eassert (E : exec_all C base head_asm s = Done _);
    [unfold head_asm, x_file, v_file; cbn [app take drop]; do 40 (one ltac:(rewrite ?Hmode; load_line L0; load_line L1)); apply exec_nil|] end.
  rewrite !scvtf_int32, !bif_pair in E. words_in.
  rewrite !shl64_0 in E by assumption. eapply run_fetched in E as [R _]; [|exact (lc_head _ _ _ _ Hcode)|reflexivity].
  eexists. split; [exact R|]. split; [reflexivity|]. clear R. split; [|done]. cbn [lv].
  cbn [loaded set_reg_file reg_ r f e a scratchpad_ last_rounding_mode_ fe_round zip_with take drop fmap list_fmap].
  apply sim_build; try done. file_words W; by apply word_lxor.
Qed.

(** The registers [r] of the interpreter's state. *)
Definition with_r (rs : list Z) (c : xstate) : xstate := set_reg_file (mkRegisterFile rs (f (reg_ c)) (e (reg_ c)) (a (reg_ c))) c.
Definition with_pad (pad : list Z) (c : xstate) : xstate := mkX (reg_ c) pad (last_rounding_mode_ c) (fe_round c).

(** The dataset line is XORed into the integer registers. *)
Lemma line_runs ms c K p ws : sim K c (lv ms) -> shaped c -> vpc (lv ms) = Label.xor_with_dataset_line -> K 10 = p -> Words ws ->
  line_at base (scratchpad_ c) (lmem ms) p ws ->
  exists ms', reaches ms ms' /\ vpc (lv ms') = Label.update_spMix1 /\ sim K (with_r (zip_with Z.lxor (r (reg_ c)) ws) c) (lv ms') /\
    lsp ms' = lsp ms /\ lmem ms' = lmem ms.
Proof.
  intros Hs Hx Hp K10 Ww [Hl L]. destruct (fetched_split _ _ _ _ (lc_update _ _ _ _ Hcode)) as [F _].
  destruct ms as [s sp cc mem]. cbn [lv lsp lmem] in *. explode Hs Hx W P Hmd. cbn [vpc fpcr scratchpad_ fe_round reg_ r f e a] in *. subst pc. rewrite <- K10 in L.
  eight ws w0 w1 w2 w3 w4 w5 w6 w7. destruct ws; [|discriminate].
  lazymatch goal with |- exists ms', reaches ?s ms' /\ _ => eassert (E : exec_all C base line_asm s = Done _);
    [unfold line_asm, x_file, v_file; cbn [app take drop]; do 12 (one ltac:(idtac; load_line L)); apply exec_nil|] end.
  words_in.
  rewrite !shl64_0 in E by assumption. eapply run_fetched in E as [R _]; [|exact F|reflexivity].
  eexists. split; [exact R|]. split; [reflexivity|]. clear R. split; [|done]. cbn [lv].
  cbn [with_r set_reg_file reg_ r f e a scratchpad_ last_rounding_mode_ fe_round zip_with]. apply sim_build; try done.
  file_words W; by apply word_lxor.
Qed.

Definition upd (K : Z -> Z) (n v : Z) : Z -> Z := fun k => if k =? n then v else K k.

Lemma sim_keep K c s n v pc z : sim K c s -> List.In n kept -> word64 v -> sim (upd K n v) c (mkVec pc (xset (vx s) n v) (vv s) (fpcr s) z (vmem s)).
Proof.
  intros [[H1 H1'] H2 H3 H4 H5 H6 H7 H8 H9 H10 H11] Hn Hv. pose proof (kept_range n Hn) as Hr.
  assert (G : forall k, 0 <= k < 31 -> k <> n -> xget (xset (vx s) n v) k = xget (vx s) k) by (intros; apply xget_xset_ne; lia).
  constructor; cbn [vx vv fpcr zf vmem vpc]; try done.
  - split; [by apply xset_machine|done].
  - intros i Hi. pose proof (int_reg_range i Hi). pose proof (int_reg_kept i Hi). rewrite G; [by apply H2|lia|congruence].
  - rewrite G; [done|lia|]. intros <-. cbn in Hn. lia.
  - rewrite G; [done|lia|]. intros <-. cbn in Hn. lia.
  - destruct H10 as [P1 P2]. constructor; cbn [vx vv]; [done|]. intros j w Hj Hw. destruct (literal_reg_cases j Hj) as (L1 & L2 & L3).
    rewrite G; [by apply P2|lia|]. intros E. cbn in Hn. assert (Hz : literal_regs !!! Z.to_nat j = 1 \/ literal_regs !!! Z.to_nat j = 3) by lia.
    clear -Hj Hz. revert Hz. assert (Ej : j = 0 \/ j = 1 \/ j = 2 \/ j = 3 \/ j = 4 \/ j = 5 \/ j = 6 \/ j = 7 \/ j = 8 \/ j = 9 \/ j = 10 \/ j = 11) by lia.
    destruct Ej as [->|[->|[->|[->|[->|[->|[->|[->|[->|[->|[->| ->]]]]]]]]]]]; (intros [Hz|Hz]; discriminate Hz).
  - intros k Hk. unfold upd. destruct (Z.eqb_spec k n) as [->|Hne]; [apply xget_xset; [done|lia]|]. pose proof (kept_range k Hk). rewrite G by lia. by apply H11.
Qed.

(** The integer registers stored, from the third word of [update_spMix1] on. *)
Lemma spill_runs ms c K s1 pad' : sim K c (lv ms) -> shaped c -> vpc (lv ms) = Label.update_spMix1 + 4 -> K 17 = base + s1 ->
  write_bytes (scratchpad_ c) s1 (concat (le_bytes 8 <$> r (reg_ c))) = Done pad' ->
  fetched C (Label.update_spMix1 + 4) ([ubfx 19 10 6 15; ubfx 20 10 38 15] ++ store_ints) ->
  fetched C Label.v2_FE_mix [Reg (B (Label.v1_FE_mix - Label.v2_FE_mix))] ->
  exists ms', reaches ms ms' /\ vpc (lv ms') = Label.v1_FE_mix /\ sim K (with_pad pad' c) (lv ms') /\
    xget (vx (lv ms')) 19 = add64 base (shl64 (bits (K 10) 6 15) 6) /\ xget (vx (lv ms')) 20 = add64 base (shl64 (bits (K 10) 38 15) 6) /\
    lsp ms' = lsp ms /\ lmem ms' = lmem ms.
Proof.
  intros Hs Hx Hp K17 Ew F1 F2. destruct ms as [s sp cc mem]. cbn [lv lsp lmem] in *.
  assert (Ew' : write_bytes (scratchpad_ c) (s1 + 0) (concat (le_bytes 8 <$> r (reg_ c))) = Done pad') by (by rewrite Z.add_0_r).
  pose proof (pad_stores base Hbase _ mem s1 0 _ _ (proj1 (sh_mem _ Hx)) Ew') as S. clear Ew Ew'. rewrite <- K17 in S.
  explode Hs Hx W P Hmd. cbn [vpc fpcr scratchpad_ fe_round reg_ r f e a] in *. subst pc. split_stores S.
  lazymatch goal with |- exists ms', reaches ?s ms' /\ _ => eassert (E : exec_all C base ([ubfx 19 10 6 15; ubfx 20 10 38 15] ++ store_ints) s = Done _);
    [unfold store_ints, x_file, v_file; cbn [app take drop]; do 8 (one ltac:(idtac; store_block)); apply exec_nil|] end.
  eapply run_fetched in E as [R _]; [|exact F1|reflexivity].
  eexists. split; [eapply run_trans; [exact R|eapply step_fetched; [exact F2|symbolic; reflexivity]]|]. split; [reflexivity|]. clear R.
  split; [|done]. apply sim_build; try done. file_words W; unfold add64; apply wrap_range; lia.
Qed.

Lemma sim_mix K c s i j : sim K c s -> 0 <= i < 8 -> 0 <= j < 8 -> word64 (Z.lxor (r (reg_ c) !!! Z.to_nat i) (r (reg_ c) !!! Z.to_nat j)).
Proof.
  intros Hs Hi Hj. pose proof (int_reg_range i Hi). pose proof (int_reg_range j Hj).
  rewrite <- !(si_r _ _ _ _ _ _ Hs) by done. apply word_lxor; (apply xget_word; [apply Hs|lia]).
Qed.

(** The next scratchpad addresses, and the integer registers stored. *)
Lemma ints_stored ms c K s1 pad' : config_wf config -> sim K c (lv ms) -> shaped c -> vpc (lv ms) = Label.update_spMix1 -> K 17 = base + s1 ->
  write_bytes (scratchpad_ c) s1 (concat (le_bytes 8 <$> r (reg_ c))) = Done pad' ->
  let mix := Z.lxor (r (reg_ c) !!! Z.to_nat (readReg0 config)) (r (reg_ c) !!! Z.to_nat (readReg1 config)) in
  exists ms', reaches ms ms' /\ vpc (lv ms') = Label.v1_FE_mix /\ sim (upd K 10 mix) (with_pad pad' c) (lv ms') /\
    xget (vx (lv ms')) 19 = add64 base (shl64 (bits mix 6 15) 6) /\ xget (vx (lv ms')) 20 = add64 base (shl64 (bits mix 38 15) 6) /\
    lsp ms' = lsp ms /\ lmem ms' = lmem ms.
Proof.
  intros (C0 & C1 & _) Hs Hx Hp K17 Ew mix. destruct (fetched_split _ _ _ _ (lc_update _ _ _ _ Hcode)) as [_ F]. change (spMix1_asm config ++ ?x) with ([eor 10 (int_reg (readReg0 config)) (int_reg (readReg1 config))] ++ [ubfx 19 10 6 15; ubfx 20 10 38 15] ++ x) in F.
  destruct (fetched_split _ _ _ _ F) as [F1 F2]. clear F. rewrite app_assoc in F2. destruct (fetched_split _ _ _ _ F2) as [F3 F4]. clear F2.
  assert (Wm : word64 mix) by (by eapply sim_mix).
  set (ms1 := with_vec (mkVec (Label.update_spMix1 + 4) (xset (vx (lv ms)) 10 mix) (vv (lv ms)) (fpcr (lv ms)) (zf (lv ms)) (vmem (lv ms))) ms).
  assert (R1 : reaches ms ms1).
  { apply step_fetched with (i := eor 10 (int_reg (readReg0 config)) (int_reg (readReg1 config))); [by rewrite Hp|].
    unfold eor. cbn [exec_ins vec_exec exec mbind outcome_bind]. rewrite !(si_r _ _ _ _ _ _ Hs) by done. rewrite Hp.
    rewrite shl64_0; [done|]. rewrite <- (si_r _ _ _ _ _ _ Hs) by done. apply xget_word; [apply Hs|]. pose proof (int_reg_range _ C1). lia. }
  pose proof (sim_keep K c (lv ms) 10 mix (Label.update_spMix1 + 4) (zf (lv ms)) Hs ltac:(cbn; tauto) Wm) as Hs1.
  change (sim (upd K 10 mix) c (lv ms1)) in Hs1.
  destruct (spill_runs ms1 c (upd K 10 mix) s1 pad' Hs1 Hx eq_refl K17 Ew F3 F4) as (ms' & R & H). exists ms'. split; [by eapply run_trans|exact H].
Qed.

(** The float registers combined and stored, the addresses of the next turn, and the branch. *)
Definition with_f (fs : list FloatRegister) (c : xstate) : xstate := set_reg_file (mkRegisterFile (r (reg_ c)) fs (e (reg_ c)) (a (reg_ c))) c.

Lemma float_words fs : concat (float_bytes <$> fs) = concat (le_bytes 8 <$> concat ((fun x => [lo x; hi x]) <$> fs)).
Proof.
  induction fs as [|x fs IH]; [done|]. rewrite !fmap_cons. cbn [concat app]. rewrite !fmap_cons. cbn [concat]. rewrite IH. unfold float_bytes. symmetry. apply app_assoc.
Qed.

Lemma finish_runs ms c K s0 pad' n : sim K c (lv ms) -> shaped c -> vpc (lv ms) = Label.v1_FE_mix -> K 16 = base + s0 -> K 3 = n -> 1 <= n < 2 ^ 64 ->
  write_bytes (scratchpad_ c) s0 (concat (float_bytes <$> zip_with xor_float (f (reg_ c)) (e (reg_ c)))) = Done pad' ->
  exists ms', reaches ms ms' /\ vpc (lv ms') = (if n =? 1 then Label.v1_FE_mix + 40 else MainLoopBegin) /\
    sim (upd (upd (upd K 16 (xget (vx (lv ms)) 19)) 17 (xget (vx (lv ms)) 20)) 3 (n - 1)) (with_pad pad' (with_f (zip_with xor_float (f (reg_ c)) (e (reg_ c))) c)) (lv ms') /\
    lsp ms' = lsp ms /\ lmem ms' = lmem ms.
Proof.
  intros Hs Hx Hp K16 K3 Hn Ew. destruct (fetched_split _ _ _ _ (lc_finish _ _ _ _ Hcode)) as [F _]. rewrite <- (take_drop 9 finish_asm) in F.
  destruct (fetched_split _ _ _ _ F) as [F1 F2]. clear F. destruct ms as [s sp cc mem]. cbn [lv lsp lmem] in *.
  rewrite float_words in Ew. rewrite <- (Z.add_0_r s0) in Ew.
  pose proof (pad_stores base Hbase _ mem s0 0 _ _ (proj1 (sh_mem _ Hx)) Ew) as S. clear Ew. rewrite <- K16 in S.
  explode Hs Hx W P Hmd. destruct f0 as [fl0 fh0], f1 as [fl1 fh1], f2 as [fl2 fh2], f3 as [fl3 fh3], e0 as [el0 eh0], e1 as [el1 eh1], e2 as [el2 eh2], e3 as [el3 eh3]. cbn [vpc fpcr scratchpad_ fe_round reg_ r f e a vx zip_with fmap list_fmap concat app lo hi xor_float] in *. subst pc. split_stores S.
  assert (Hsub : sub64 (K 3) 1 = K 3 - 1) by (apply wrap_small; split; lia).
  assert (Hz : K 3 - 1 = 0 \/ exists q, K 3 - 1 = Z.pos q) by (destruct (K 3 - 1) as [|q|q] eqn:Eq; [by left|right; by exists q|lia]).
  assert (W19 : word64 x19 /\ word64 x20) by (apply x_words in W as (W & _); words_in; done). destruct W19 as [W19 W20].
  assert (W' : Words (x_file x0 (K 1) (K 3 - 1) [r0; r1; r2; r3; r4; r5; r6; r7] md (K 9) (K 10) x11 x19 x20 x18 x19 x20 [x21; x22; x23; x24; x25; x26; x27; x28; x29; x30])).
  { file_words W. split; lia. }
  assert (Ht : (K 3 =? 1) = match K 3 - 1 with Z0 => true | _ => false end) by (destruct (Z.eqb_spec (K 3) 1); destruct (K 3 - 1) eqn:?; lia || done). rewrite Ht. clear Ht.
  destruct Hz as [Hz|[q Hz]]; rewrite Hz in *;
    (lazymatch goal with |- exists ms', reaches ?s ms' /\ _ => eassert (E : exec_all C base (take 9 finish_asm) s = Done _);
      [unfold finish_asm, x_file, v_file; cbn [app take drop]; do 9 (one ltac:(rewrite ?Hsub; store_block)); apply exec_nil|] end;
    change (Z.lor 0 ?x) with x in E; rewrite !shl64_0 in E by assumption;
    eapply run_fetched in E as [R _]; [|exact F1|reflexivity];
    eexists; split; [eapply run_trans; [exact R|eapply step_fetched; [exact F2|symbolic; reflexivity]]|]; clear R; split; [reflexivity|]; split; [|done]; by apply sim_build).
Qed.

(** ** One turn *)

Lemma line_mask x : Z.land x kScratchpadL3Mask64 = bits x 6 15 * 64.
Proof.
  change kScratchpadL3Mask64 with (Z.shiftl (Z.ones 15) 6). unfold bits. rewrite <- Z.land_ones, <- Z.shiftr_div_pow2 by lia. change 64 with (2 ^ 6).
  rewrite <- Z.shiftl_mul_pow2 by lia. rewrite Z.shiftl_land, <- Z.ldiff_ones_r by lia. apply Z.bits_inj'. intros n Hn.
  rewrite !Z.land_spec, Z.ldiff_spec, Z.shiftl_spec by lia. destruct (Z.ltb_spec n 6).
  - rewrite (Z.testbit_neg_r _ (n - 6)) by lia. by rewrite !andb_false_r.
  - rewrite (Z.ones_spec_high 6 n) by lia. cbn [negb]. by rewrite andb_true_r.
Qed.
Lemma next_address mix : 0 <= bits mix 6 15 < 2 ^ 15 /\ add64 base (shl64 (bits mix 6 15) 6) = base + Z.land (Z.lxor 0 (wrap 32 mix)) kScratchpadL3Mask64.
Proof.
  rewrite Z.lxor_0_l, line_mask. assert (E : bits (wrap 32 mix) 6 15 = bits mix 6 15) by (unfold bits, wrap; plia). rewrite E.
  assert (H : 0 <= bits mix 6 15 < 2 ^ 15) by (unfold bits; apply Z.mod_pos_bound; lia). split; [done|]. unfold shl64. rewrite Z.shiftl_mul_pow2 by lia.
  unfold add64. rewrite !wrap_small; [done|..]; rewrite ?wrap_small; split; lia.
Qed.
Lemma next_address_high mix : word64 mix -> add64 base (shl64 (bits mix 38 15) 6) = base + Z.land (Z.lxor 0 (wrap 32 (Z.shiftr mix 32))) kScratchpadL3Mask64.
Proof.
  intros Hm. destruct (next_address (Z.shiftr mix 32)) as [_ <-]. do 2 f_equal. unfold bits. rewrite Z.shiftr_div_pow2 by lia. by rewrite Z.div_div.
Qed.

(** A way to reach the dataset: from the end of the program's code to the first instruction that reads the
    line, whose 64 bytes are [line ma]; [I] is what holds of memory outside the scratchpad all along. *)
Class LineSource (I : memory -> Prop) (stack ptr : Z) (line : Z -> outcome (list Z)) : Prop :=
  fetch_line : forall ms c K mx ma bs, sim K c (lv ms) -> x_wf c -> vpc (lv ms) = st.2 -> lsp ms = stack -> I (lmem ms) ->
    K 1 = ptr -> K 9 = mx + ma * 2 ^ 32 -> word32 mx -> word32 ma -> line ma = Done bs ->
    let mix := Z.lxor (r (reg_ c) !!! Z.to_nat (readReg2 config)) (r (reg_ c) !!! Z.to_nat (readReg3 config)) in
    exists ms' p, reaches ms ms' /\ vpc (lv ms') = Label.xor_with_dataset_line /\
      sim (upd (upd K 9 (ma + Z.lxor mx (wrap 32 mix) * 2 ^ 32)) 10 p) c (lv ms') /\ lsp ms' = stack /\ I (lmem ms') /\
      line_at base (scratchpad_ c) (lmem ms') p (line_words bs).

Context (I : memory -> Prop) (stack ptr : Z) (line : Z -> outcome (list Z)) `{!LineSource I stack ptr line}.
Context (bc : list InstructionByteCode) (Hconfig : config_wf config).
Context (Hprogram : forall x x', x_wf x -> execute_bytecode m bc x = Done x' -> forall K ms, sim K x ms -> vpc ms = PrologueSize ->
  exists ms', leads C base ms ms' /\ vpc ms' = st.2 /\ sim K x' ms').

(** The interpreter's machine runs the same program with the same dataset. *)
Record same_setup (vm : VirtualMachine) : Prop := mkSetup {
  ss_bytecode : bytecode_ vm = bc;
  ss_mask : e_mask_ vm = m;
  ss_config : read_reg0_ vm = readReg0 config /\ read_reg1_ vm = readReg1 config /\ read_reg2_ vm = readReg2 config /\ read_reg3_ vm = readReg3 config;
  ss_line : forall ma rs rs', word32 ma -> dataset_read vm (add64 (dataset_offset_ vm) (Z.land ma 0x7fffffc0)) rs = Done rs' ->
    exists bs, line ma = Done bs /\ Bytes bs /\ rs' = xor_words rs bs;
}.

(** The scratchpad addresses of the turn to come. *)
Definition spMix (c : xstate) : Z := Z.lxor (r (reg_ c) !!! Z.to_nat (readReg0 config)) (r (reg_ c) !!! Z.to_nat (readReg1 config)).
Definition sp_first (a0 : Z) (c : xstate) : Z := Z.land (Z.lxor a0 (wrap 32 (spMix c))) kScratchpadL3Mask64.
Definition sp_second (a1 : Z) (c : xstate) : Z := Z.land (Z.lxor a1 (wrap 32 (Z.shiftr (spMix c) 32))) kScratchpadL3Mask64.

(** At the head of the loop, [n] turns to go; the float registers do not matter. *)
Record at_head (vm : VirtualMachine) (a0 a1 n : Z) (ms : loop_state) : Prop := mkHead {
  ah_pc : vpc (lv ms) = MainLoopBegin;
  ah_sp : lsp ms = stack;
  ah_mem : I (lmem ms);
  ah_sim : exists fs es K, let c := core_ vm in
    length fs = 4%nat /\ length es = 4%nat /\ sim K (set_reg_file (mkRegisterFile (r (reg_ c)) fs es (a (reg_ c))) c) (lv ms) /\
    K 1 = ptr /\ K 3 = n /\ K 9 = mx_ vm + ma_ vm * 2 ^ 32 /\ K 16 = base + sp_first a0 c /\ K 17 = base + sp_second a1 c;
}.
Record at_exit (vm : VirtualMachine) (ms : loop_state) : Prop := mkExit {
  ax_pc : vpc (lv ms) = Label.v1_FE_mix + 40;
  ax_sp : lsp ms = stack;
  ax_mem : I (lmem ms);
  ax_sim : exists K, sim K (core_ vm) (lv ms);
}.

Lemma reaches_vec ms s : leads C base (lv ms) s -> reaches ms (with_vec s ms).
Proof. intros [n E]. exists n. by apply loop_vec. Qed.

Lemma shaped_r c rs : shaped c -> length rs = 8%nat -> shaped (with_r rs c).
Proof. intros [] ?. by constructor. Qed.
Lemma shaped_pad c s bs pad : shaped c -> Bytes bs -> write_bytes (scratchpad_ c) s bs = Done pad -> shaped (with_pad pad c).
Proof.
  intros [? ? ? ? [Hl Hb]] Hbs E. constructor; try done. cbn [with_pad scratchpad_]. rewrite (write_bytes_length _ _ _ _ E). split; [done|]. exact (write_bytes_range _ _ _ _ Hb Hbs E).
Qed.

(** From the head of the loop to the end of the program's code. *)
Lemma turn_front vm a0 a1 n ms rs fs es c2 : at_head vm a0 a1 n ms -> same_setup vm -> loop_inv (vm, a0, a1) ->
  load_registers (sp_first a0 (core_ vm)) (core_ vm) = Done rs -> load_pairs (core_ vm) (sp_second a1 (core_ vm)) 4 = Done fs ->
  load_pairs (core_ vm) (sp_second a1 (core_ vm) + 32) 4 = Done es ->
  execute_bytecode m bc (loaded (core_ vm) rs fs es) = Done c2 ->
  later (loaded (core_ vm) rs fs es) c2 /\ exists ms' K, reaches ms ms' /\ vpc (lv ms') = st.2 /\ lsp ms' = stack /\ I (lmem ms') /\ sim K c2 (lv ms') /\
    K 1 = ptr /\ K 3 = n /\ K 9 = mx_ vm + ma_ vm * 2 ^ 32 /\ K 16 = base + sp_first a0 (core_ vm) /\ K 17 = base + sp_second a1 (core_ vm).
Proof.
  intros [Hp Hsp Hi (fs0 & es0 & K & Hf0 & He0 & Hs & K1 & K3 & K9 & K16 & K17)] [Hbc Hm _ _] (Hvm & Hc & W0 & W1) Er Ef Ee Ex.
  set (c := core_ vm) in *. pose proof (vr_core _ Hvm) as Hx. fold c in Hx. set (s0 := sp_first a0 c) in *. set (s1 := sp_second a1 c) in *.
  assert (B1 : 0 <= s1 /\ s1 + 64 <= kRandomXScratchpadBytes) by (apply l3_address, (word32_lxor _ _ W1 (wrap32_range _))).
  unfold load_registers in Er. apply bind_Done in Er as (line0 & E0 & Er). injection Er as <-.
  pose proof (xw_mem _ Hx) as [Lm Hb]. pose proof (read_bytes_ok (scratchpad_ c) s1 64 ltac:(lia) ltac:(lia)) as E1. set (line1 := take _ _) in E1.
  pose proof (load_pairs_words c s1 line1 0 4 Hb E1 ltac:(lia)) as Ef'. rewrite Z.add_0_r, Ef in Ef'.
  assert (fs = int_pair <$> take 4 (drop 0 (line_words line1))) as -> by (injection Ef' as H; exact H).
  pose proof (load_pairs_words c s1 line1 4 4 Hb E1 ltac:(lia)) as Ee'. change (8 * Z.of_nat 4) with 32 in Ee'. rewrite Ee in Ee'.
  assert (es = int_pair <$> take 4 (drop 4 (line_words line1))) as -> by (injection Ee' as H; exact H).
  set (c0 := set_reg_file (mkRegisterFile (r (reg_ c)) fs0 es0 (a (reg_ c))) c) in *.
  assert (Hc0 : shaped c0) by (destruct (x_wf_shaped _ Hx); by constructor).
  destruct (head_runs ms c0 K s0 s1 line0 line1 Hs Hc0 Hp K16 K17 E0 E1) as (ms1 & R1 & P1 & Hs1 & S1 & M1).
  rewrite xor_words_line in Ex by apply (sh_r _ Hc0).
  assert (Ed : drop 4 (line_words line1) = take 4 (drop 4 (line_words line1))) by (symmetry; by apply take_ge). rewrite Ed in Hs1. change (take 4 (line_words line1)) with (take 4 (drop 0 (line_words line1))) in Hs1.
  assert (Hxl : x_wf (loaded c (zip_with Z.lxor (r (reg_ c)) (line_words line0)) (int_pair <$> take 4 (drop 0 (line_words line1))) (int_pair <$> take 4 (drop 4 (line_words line1))))).
  { rewrite <- xor_words_line by apply (sh_r _ Hc0). apply loaded_wf; [done|rewrite <- Hm; apply Hvm| | |].
    - apply xor_words_wf; [apply Hx|]. exact (proj1 (read_bytes_range _ _ _ _ Hb E0)).
    - pose proof (load_pairs_ok c 4 s1 Hx ltac:(lia) ltac:(lia)) as H. by rewrite Ef in H.
    - pose proof (load_pairs_ok c 4 (s1 + 32) Hx ltac:(lia) ltac:(lia)) as H. by rewrite Ee in H. }
  pose proof (execute_bytecode_ok m bc ltac:(rewrite <- Hm; apply Hvm) ltac:(by rewrite <- Hbc) _ Hxl) as Ho. rewrite Ex in Ho. split; [exact Ho|].
  destruct (Hprogram _ _ Hxl Ex K (lv ms1) Hs1 P1) as (s2 & L2 & P2 & Hs2).
  exists (with_vec s2 ms1), K. split; [eapply run_trans; [exact R1|by apply reaches_vec]|]. split; [exact P2|]. split; [by rewrite <- Hsp, <- S1|].
  split; [cbn [with_vec lmem]; by rewrite M1|]. done.
Qed.

(** From the end of the program's code to the next head, or out of the loop. *)
Lemma turn_back vm n ms K c s0 s1 rs pad1 pad2 : same_setup vm -> vm_running vm -> x_wf c -> vpc (lv ms) = st.2 -> lsp ms = stack -> I (lmem ms) -> sim K c (lv ms) ->
  K 1 = ptr -> K 3 = n -> K 9 = mx_ vm + ma_ vm * 2 ^ 32 -> K 16 = base + s0 -> K 17 = base + s1 -> 1 <= n < 2 ^ 64 ->
  dataset_read vm (add64 (dataset_offset_ vm) (Z.land (ma_ vm) 0x7fffffc0)) (r (reg_ c)) = Done rs ->
  write_bytes (scratchpad_ c) s1 (concat (le_bytes 8 <$> rs)) = Done pad1 ->
  write_bytes pad1 s0 (concat (float_bytes <$> zip_with xor_float (f (reg_ c)) (e (reg_ c)))) = Done pad2 ->
  let c' := mkX (mkRegisterFile rs (zip_with xor_float (f (reg_ c)) (e (reg_ c))) (e (reg_ c)) (a (reg_ c))) pad2 (last_rounding_mode_ c) (fe_round c) in
  let mix := Z.lxor (r (reg_ c) !!! Z.to_nat (readReg2 config)) (r (reg_ c) !!! Z.to_nat (readReg3 config)) in
  let vm' := set_core c' (set_mem_regs (ma_ vm) (Z.lxor (mx_ vm) (wrap 32 mix)) vm) in
  exists ms', reaches ms ms' /\ (if n =? 1 then at_exit vm' ms' else at_head vm' 0 0 (n - 1) ms').
Proof.
  intros [_ _ _ Hline] Hvm Hx Hp Hsp Hi Hs K1 K3 K9 K16 K17 Hn Ed E1 E2 c' mix vm'. destruct (vr_mx _ Hvm) as [Wmx Wma].
  destruct (Hline _ _ _ Wma Ed) as (bs & El & Hbs & Ers). rewrite xor_words_line in Ers by apply (x_wf_shaped _ Hx).
  destruct (fetch_line ms c K (mx_ vm) (ma_ vm) bs Hs Hx Hp Hsp Hi K1 K9 Wmx Wma El) as (ms1 & p & R1 & P1 & Hs1 & S1 & I1 & L1). fold mix in Hs1.
  set (K' := upd (upd K 9 _) 10 p) in Hs1. pose proof (x_wf_shaped _ Hx) as Hc.
  destruct (line_runs ms1 c K' p (line_words bs) Hs1 Hc P1 eq_refl (line_words_range _ Hbs) L1) as (ms2 & R2 & P2 & Hs2 & S2 & M2).
  rewrite <- Ers in Hs2. assert (Hlr : length rs = 8%nat) by (rewrite Ers, length_zip_with, (sh_r _ Hc); done).
  destruct (ints_stored ms2 (with_r rs c) K' s1 pad1 Hconfig Hs2 (shaped_r _ _ Hc Hlr) P2 K17 E1) as (ms3 & R3 & P3 & Hs3 & X19 & X20 & S3 & M3).
  set (mix1 := Z.lxor _ _) in Hs3, X19, X20.
  assert (Hc3 : shaped (with_pad pad1 (with_r rs c))) by (apply (shaped_pad _ s1 (concat (le_bytes 8 <$> rs))); [by apply shaped_r|apply words_bytes_range|done]).
  destruct (finish_runs ms3 _ (upd K' 10 mix1) s0 pad2 n Hs3 Hc3 P3 K16 K3 Hn E2) as (ms4 & R4 & P4 & Hs4 & S4 & M4).
  exists ms4. split; [eapply run_trans; [exact R1|]; eapply run_trans; [exact R2|]; eapply run_trans; [exact R3|exact R4]|].
  assert (Hsp4 : lsp ms4 = stack) by congruence. assert (HI4 : I (lmem ms4)) by (rewrite M4, M3, M2; done).
  rewrite X19, X20 in Hs4. destruct (n =? 1); [constructor; [done..|]; eexists; exact Hs4|].
  constructor; [done..|]. do 3 eexists. split; [|split; [exact (sh_e _ Hc3)|split; [exact Hs4|]]].
  - rewrite length_zip_with, (sh_f _ Hc3), (sh_e _ Hc3). done.
  - split; [exact K1|]. split; [reflexivity|]. split; [reflexivity|]. split; [exact (proj2 (next_address mix1))|]. apply next_address_high.
    eapply sim_mix; [exact Hs2|apply Hconfig|apply Hconfig].
Qed.

(** One iteration of [run_interpreted] is one turn of the compiled loop. *)
Lemma turn vm a0 a1 ic n ms st' : at_head vm a0 a1 n ms -> same_setup vm -> loop_inv (vm, a0, a1) -> 1 <= n < 2 ^ 64 -> iteration (vm, a0, a1) ic = Done st' ->
  exists vm' ms', st' = (vm', 0, 0) /\ same_setup vm' /\ a (reg_ (core_ vm')) = a (reg_ (core_ vm)) /\ reaches ms ms' /\ (if n =? 1 then at_exit vm' ms' else at_head vm' 0 0 (n - 1) ms').
Proof.
  intros Hh Hset Hinv Hn E. pose proof Hset as [Hbc Hm (Q0 & Q1 & Q2 & Q3) _]. unfold iteration in E. rewrite Hbc, Hm, Q0, Q1, Q2, Q3 in E.
  set (c := core_ vm) in *.
  apply bind_Done in E as (r0 & E0 & E). apply bind_Done in E as (r1 & E1 & E). cbv zeta in E.
  assert (Er : forall (x : xstate) i v, at_index (r (reg_ x)) i = Done v -> v = r (reg_ x) !!! Z.to_nat i)
    by (intros x i v [_ H]%at_index_Done; symmetry; by apply list_lookup_total_correct).
  apply Er in E0 as ->. apply Er in E1 as ->. change (Z.lxor (r (reg_ c) !!! _) (r (reg_ c) !!! _)) with (spMix c) in E.
  change (Z.land (Z.lxor a0 (wrap 32 (spMix c))) kScratchpadL3Mask64) with (sp_first a0 c) in E.
  change (Z.land (Z.lxor a1 (wrap 32 (Z.shiftr (spMix c) 32))) kScratchpadL3Mask64) with (sp_second a1 c) in E.
  apply bind_Done in E as (rs & E2 & E). apply bind_Done in E as (fs & E3 & E). apply bind_Done in E as (es & E4 & E). apply bind_Done in E as (c2 & E5 & E).
  destruct (turn_front vm a0 a1 n ms rs fs es c2 Hh Hset Hinv E2 E3 E4 E5) as ([Hx2 Ha2] & ms1 & K & R1 & P1 & S1 & I1 & Hs1 & K1 & K3 & K9 & K16 & K17).
  apply bind_Done in E as (r2 & E6 & E). apply bind_Done in E as (r3 & E7 & E). apply Er in E6 as ->. apply Er in E7 as ->.
  apply bind_Done in E as (rs2 & E8 & E). apply bind_Done in E as (c3 & E9 & E). apply bind_Done in E as (c4 & E10 & E). injection E as <-.
  unfold store_bytes in E9. apply bind_Done in E9 as (pad1 & E9 & F9). injection F9 as <-. cbn [reg_ f e a scratchpad_ set_reg_file last_rounding_mode_ fe_round] in E10.
  unfold store_bytes in E10. apply bind_Done in E10 as (pad2 & E10 & F10). injection F10 as <-. cbn [reg_ f e a scratchpad_ set_reg_file last_rounding_mode_ fe_round] in *.
  destruct (turn_back vm n ms1 K c2 _ _ rs2 pad1 pad2 Hset (proj1 Hinv) Hx2 P1 S1 I1 Hs1 K1 K3 K9 K16 K17 Hn E8 E9 E10) as (ms2 & R2 & H2).
  do 2 eexists. split; [reflexivity|]. split; [destruct Hset; by constructor|]. split; [exact Ha2|]. split; [by eapply run_trans|]. exact H2.
Qed.

(** The whole loop. *)
Lemma turns l vm a0 a1 ms vm' b0 b1 : at_head vm a0 a1 (Z.of_nat (length l)) ms -> same_setup vm -> loop_inv (vm, a0, a1) ->
  (0 < length l)%nat -> Z.of_nat (length l) < 2 ^ 64 -> ofoldl iteration (vm, a0, a1) l = Done (vm', b0, b1) ->
  a (reg_ (core_ vm')) = a (reg_ (core_ vm)) /\ exists ms', reaches ms ms' /\ at_exit vm' ms'.
Proof.
  revert vm a0 a1 ms. induction l as [|ic l IH]; intros vm a0 a1 ms Hh Hset Hinv Hl Hn E; [cbn in Hl; lia|]. cbn [ofoldl] in E. apply bind_Done in E as (st1 & E1 & E).
  destruct (turn vm a0 a1 ic _ ms st1 Hh Hset Hinv ltac:(cbn [length] in *; lia) E1) as (vm1 & ms1 & -> & Hset1 & Ha1 & R1 & H1).
  assert (Hinv1 : loop_inv (vm1, 0, 0)) by (pose proof (iteration_ok _ ic Hinv) as H; by rewrite E1 in H).
  destruct (Z.eqb_spec (Z.of_nat (length (ic :: l))) 1) as [E2|E2].
  - destruct l; [|cbn in E2; lia]. cbn [ofoldl] in E. injection E as <- _ _. split; [done|]. by exists ms1.
  - replace (Z.of_nat (length (ic :: l)) - 1) with (Z.of_nat (length l)) in H1 by (cbn [length]; lia). cbn [length] in *.
    destruct (IH vm1 0 0 ms1 H1 Hset1 Hinv1 ltac:(lia) ltac:(lia) E) as (Ha' & ms' & R & H). split; [congruence|]. exists ms'. split; [by eapply run_trans|done].
Qed.
End loop.
