(* ===== verification/JitEntry.v ===== *)
(** * Entering the compiled function

    [randomx_program_aarch64] (src/src/jit_compiler_a64_static.S) from its first instruction to the head of
    its loop: the memory it is called with, the callee-saved registers stored, the literals, the masks and the
    register file loaded, the first scratchpad addresses computed. *)

From stdpp Require Import list.
From S2P Require Import Prelude RandomX Float Bytecode BytecodeSafety BytecodeTermination BytecodeStale Argon2 Dataset Vm.
From S2P Require Import Footprint JitSchedule JitEquiv A64 JitDataset JitItem A64Vec JitEmit JitLayout JitWords JitValues JitVmRun JitVmSim JitVmFloat JitVmEquiv.
From S2P Require Import A64Loop JitTemplate JitGenerate A64Run JitLoop.

(** ** Mapped words *)

Definition put (mem : memory) (a v : Z) : memory := fun b => if b =? a then Some v else mem b.

Lemma put_same mm q v : put mm q v q = Some v.
Proof. unfold put. by rewrite Z.eqb_refl. Qed.
Lemma put_skip S mm j k v : (k =? j) = false -> put mm (S + j) v (S + k) = mm (S + k).
Proof. intros H. unfold put. destruct (Z.eqb_spec (S + k) (S + j)); [lia|done]. Qed.
Lemma put_outside S mm k v b : -208 <= k < 0 -> b < S - 208 \/ S <= b -> put mm (S + k) v b = mm b.
Proof. intros Hk Hb. unfold put. destruct (Z.eqb_spec b (S + k)); [lia|done]. Qed.

Section mapped.
Context (base : Z) (pad : list Z) (Hpad : Z.of_nat (length pad) = 2 ^ 21).

(** No word of [mem] is in the scratchpad. *)
Definition clear_pad (mem : memory) : Prop := forall a, base <= a -> a + 8 <= base + 2 ^ 21 -> mem a = None.

Lemma load_mapped mem a v : clear_pad mem -> mem a = Some v -> 0 <= a < 2 ^ 64 -> a mod 8 = 0 -> load_at base pad mem (wrap 64 a) = Done v.
Proof.
  intros Hc Hm Ha H8. rewrite wrap_small by done. unfold load_at. destruct ((base <=? a) && _) eqn:E; [rewrite Hc in Hm by blia; done|].
  unfold load. by rewrite H8, Hm.
Qed.
Lemma store_mapped mem a v : clear_pad mem -> mem a <> None -> 0 <= a < 2 ^ 64 -> a mod 8 = 0 -> store_at base pad mem (wrap 64 a) v = Done (pad, put mem a v).
Proof.
  intros Hc Hm Ha H8. rewrite wrap_small by done. unfold store_at. destruct ((base <=? a) && _) eqn:E; [rewrite Hc in Hm by blia; done|].
  unfold store. rewrite H8. destruct (mem a); [done|by destruct Hm].
Qed.
Lemma clear_put mem a v : clear_pad mem -> mem a <> None -> clear_pad (put mem a v).
Proof. intros Hc Hm b H1 H2. unfold put. destruct (Z.eqb_spec b a) as [->|]; [by rewrite Hc in Hm|by apply Hc]. Qed.
Lemma put_mapped mem a v b : mem b <> None -> put mem a v b <> None.
Proof. unfold put. by destruct (b =? a). Qed.

(** A block of words. *)
Lemma mem_stores mem p k vs : clear_pad mem -> 0 <= p + k -> p + k + 8 * Z.of_nat (length vs) <= 2 ^ 64 -> (p + k) mod 8 = 0 ->
  (forall i, 0 <= i < Z.of_nat (length vs) -> mem (p + k + 8 * i) <> None) ->
  exists mem', stores_at base pad mem p k vs = Done (pad, mem') /\ clear_pad mem' /\ (forall b, mem b <> None -> mem' b <> None) /\
    (forall i, 0 <= i < Z.of_nat (length vs) -> mem' (p + k + 8 * i) = Some (vs !!! Z.to_nat i)) /\
    forall b, b < p + k \/ p + k + 8 * Z.of_nat (length vs) <= b -> mem' b = mem b.
Proof.
  revert mem k. induction vs as [|v vs IH]; intros mem k Hc H0 H1 H8 Hm; cbn [stores_at length].
  - exists mem. split; [done|]. split; [done|]. split; [done|]. split; [lia|done].
  - pose proof (Hm 0 ltac:(cbn [length]; lia)) as M0. rewrite Z.mul_0_r, Z.add_0_r in M0. cbn [length] in *.
    rewrite store_mapped by (done || lia). cbn [mbind outcome_bind].
    destruct (IH (put mem (p + k) v) (k + 8)) as (mem' & E & Hc' & Hk & Hv & Ho); [by apply clear_put|lia|lia|plia|..].
    { intros i Hi. apply put_mapped. replace (p + (k + 8) + 8 * i) with (p + k + 8 * (i + 1)) by lia. apply Hm. lia. }
    exists mem'. split; [done|]. split; [done|]. split; [intros b Hb; by apply Hk, put_mapped|]. split.
    + intros i Hi. destruct (Z.eq_dec i 0) as [->|].
      * rewrite Z.mul_0_r, Z.add_0_r, Ho by lia. unfold put. by rewrite Z.eqb_refl.
      * replace (p + k + 8 * i) with (p + (k + 8) + 8 * (i - 1)) by lia. rewrite Hv by lia. f_equal.
        replace (Z.to_nat i) with (S (Z.to_nat (i - 1))) by lia. done.
    + intros b Hb. rewrite Ho by lia. unfold put. destruct (Z.eqb_spec b (p + k)); [lia|done].
Qed.
End mapped.

(** [mem] is [M], but for bytes from [low] to [high]. *)
Record beside (low high : Z) (M mem : memory) : Prop := mkBeside {
  be_same : forall b, b < low \/ high <= b -> mem b = M b;
  be_domain : forall b, mem b = None <-> M b = None;
}.

Lemma beside_refl low high M : beside low high M M.
Proof. done. Qed.
Lemma beside_clear low high M mem base : beside low high M mem -> clear_pad base M -> clear_pad base mem.
Proof. intros [_ Hd] Hc b H1 H2. apply Hd. by apply Hc. Qed.

(** ** The call *)

Definition float_words_of (fs : list FloatRegister) : list Z := concat ((fun x => [lo x; hi x]) <$> fs).

(** Memory outside the scratchpad at the call: [depth] bytes of stack below [S], the register file at [rf] with
    the masks of the E registers and the A registers in it, and [mem_regs] at [mr]. *)
Record call_memory (base S depth rf mr : Z) (m : Z * Z) (fas : list FloatRegister) (mx ma ptr : Z) (mem : memory) : Prop := mkCall {
  cm_clear : clear_pad base mem;
  cm_stack : 208 <= depth <= S /\ S < 2 ^ 64 /\ S mod 16 = 0 /\ forall k, - depth <= k < 0 -> k mod 8 = 0 -> mem (S + k) <> None;
  cm_file : 0 <= rf /\ rf + 256 <= 2 ^ 64 /\ rf mod 8 = 0 /\ forall i, 0 <= i < 24 -> mem (rf + 8 * i) <> None;
  cm_masks : mem (rf + 64) = Some m.1 /\ mem (rf + 72) = Some m.2;
  cm_a : length fas = 4%nat /\ forall i, 0 <= i < 8 -> mem (rf + 8 * (24 + i)) = Some (float_words_of fas !!! Z.to_nat i);
  cm_mem_regs : 0 <= mr /\ mr + 32 <= 2 ^ 64 /\ mr mod 8 = 0 /\ mem mr = Some (mx + ma * 2 ^ 32) /\ mem (mr + 8) = Some ptr;
  cm_apart : (rf + 256 <= S - depth \/ S <= rf) /\ (mr + 32 <= S - depth \/ S <= mr);
}.

(** Where the callee-saved registers are kept. *)
Definition saved_x : list (Z * Z) := [(16, -192); (17, -184); (19, -176); (20, -160); (21, -152); (22, -144); (23, -136); (24, -128); (25, -120);
  (26, -112); (27, -104); (28, -96); (29, -88); (8, -80); (30, -72)].
Definition saved_d : list (Z * Z) := [(8, -64); (9, -56); (10, -48); (11, -40); (12, -32); (13, -24); (14, -16); (15, -8)].
Record saved (S rf mr : Z) (xs : list Z) (vs : list FloatRegister) (mem : memory) : Prop := mkSaved {
  sv_x : Forall (fun '(n, k) => mem (S + k) = Some (xget xs n)) saved_x;
  sv_d : Forall (fun '(n, k) => mem (S + k) = Some (lo (vget vs n))) saved_d;
  sv_args : mem (S + -208) = Some rf /\ mem (S + -168) = Some mr;
}.

Section entry.
Context (C : list Z) (base : Z) (m : Z * Z) (config : ProgramConfiguration) (st : emission) (target : Z).
Context (Hcode : loop_code config target st C) (HbC : Bytes C).
Context (Hbase : 0 <= base /\ base + 2 ^ 21 <= 2 ^ 64) (Hmask : e_or_ok m.1 /\ e_or_ok m.2).
Context (S depth rf mr mx ma ptr : Z) (fas : list FloatRegister) (mem0 : memory) (pad : list Z) (Hpad : Z.of_nat (length pad) = 2 ^ 21).
Context (Hcall : call_memory base S depth rf mr m fas mx ma ptr mem0).

(** The stack frame of the function. *)
Definition framed (mm : memory) : Prop := clear_pad base mm /\ forall k, -208 <= k < 0 -> k mod 8 = 0 -> mm (S + k) <> None.
Lemma framed_start : framed mem0.
Proof. destruct (cm_stack _ _ _ _ _ _ _ _ _ _ _ Hcall) as (H1 & _ & _ & H). split; [apply Hcall|]. intros k Hk H8. apply H; [lia|done]. Qed.
Lemma framed_put mm k v : framed mm -> -208 <= k < 0 -> k mod 8 = 0 -> framed (put mm (S + k) v).
Proof. intros [H1 H2] Hk H8. split; [apply clear_put; auto|]. intros j Hj Hj8. apply put_mapped. auto. Qed.
Lemma framed_store mm k v : framed mm -> -208 <= k < 0 -> k mod 8 = 0 -> store_at base pad mm (wrap 64 (S + k)) v = Done (pad, put mm (S + k) v).
Proof.
  intros [H1 H2] Hk H8. destruct (cm_stack _ _ _ _ _ _ _ _ _ _ _ Hcall) as (H3 & H4 & H5 & _). apply store_mapped; [done|done|auto|lia|plia].
Qed.
(** Words outside it. *)
Lemma outside_load mm k v q : -208 <= k < 0 -> 0 <= q < 2 ^ 64 -> q < S - 208 \/ S <= q ->
  load_at base pad (put mm (S + k) v) (wrap 64 q) = load_at base pad mm (wrap 64 q).
Proof.
  intros Hk Hq Ho. rewrite wrap_small by done. unfold load_at. destruct (_ && _); [done|]. unfold load, put. destruct (Z.eqb_spec q (S + k)); [lia|done].
Qed.

Definition entry_saves : list ins := Eval cbv [entry_asm take app] in take 36 entry_asm.
Definition entry_loads : list ins := Eval vm_compute in literal_loads ++ vector_loads.
Definition entry_rest : list ins :=
  [ubfx 16 10 6 15; ubfx 17 10 38 15; add 16 2 16 6; add 17 2 17 6; prfm 16 0; prfm 17 0; prfm 17 32] ++ replicate 9 (More NOP_).
Lemma entry_parts : entry_asm = entry_saves ++ entry_loads ++ entry_rest.
Proof. vm_compute. reflexivity. Qed.

Ltac in_frame := repeat (apply framed_put; [|lia|reflexivity]); exact framed_start.
Ltac frame_store := repeat match goal with |- context [store_at base pad ?mm (wrap 64 (S + ?k)) ?v] =>
  rewrite (framed_store mm k v) by (in_frame || lia || reflexivity) end.
Ltac frame_load := repeat match goal with |- context [load_at base pad (put _ (S + ?k) _) (wrap 64 ?q)] => rewrite (outside_load _ k _ q) by lia end.

Ltac frame_word := repeat (rewrite put_skip by reflexivity); rewrite put_same; reflexivity.

Lemma entry_saves_run x0 x1 x2 x3 x4 x5 x6 x7 x8 x9 x10 x11 x12 x13 x14 x15 x16 x17 x18 x19 x20 x21 x22 x23 x24 x25 x26 x27 x28 x29 x30
    v0 v1 v2 v3 v4 v5 v6 v7 v8 v9 v10 v11 v12 v13 v14 v15 v16 v17 v18 v19 v20 v21 v22 v23 v24 v25 v26 v27 v28 v29 v30 v31 fp z cc :
  let xs := [x0; x1; x2; x3; x4; x5; x6; x7; x8; x9; x10; x11; x12; x13; x14; x15; x16; x17; x18; x19; x20; x21; x22; x23; x24; x25; x26; x27; x28; x29; x30] in
  let vs := [v0; v1; v2; v3; v4; v5; v6; v7; v8; v9; v10; v11; v12; v13; v14; v15; v16; v17; v18; v19; v20; v21; v22; v23; v24; v25; v26; v27; v28; v29; v30; v31] in
  let X := mx + ma * 2 ^ 32 in
  x0 = rf -> x1 = mr -> word32 mx -> word32 ma -> exists a0 a1 a2 a3 mm, fas = [a0; a1; a2; a3] /\
    exec_all C base entry_saves (mkLoop (mkVec 0 xs vs fp z pad) S cc mem0) =
    Done (mkLoop (mkVec 144 [rf; ptr; x2; x3; 0; 0; 0; 0; rbit64 fp; X; X; x11; 0; 0; 0; 0; scale_mask; x17; x18; x19; x20; x21; x22; x23; x24; x25; x26; x27; x28; x29; x30]
      [v0; v1; v2; v3; v4; v5; v6; v7; v8; v9; v10; v11; v12; v13; v14; v15; v16; v17; v18; v19; v20; v21; v22; v23; a0; a1; a2; a3; v28;
       mkFloat e_and e_and; mkFloat m.1 m.2; mkFloat scale_mask scale_mask] fp z pad) (wrap 64 (S + -208)) cc mm) /\
    saved S rf mr xs vs mm /\ framed mm /\ (forall b, b < S - 208 \/ S <= b -> mm b = mem0 b) /\ (forall b, mem0 b <> None -> mm b <> None).
Proof.
  intros xs vs X -> -> Wx Wa. unfold xs, vs. clear xs vs.
  destruct (cm_stack _ _ _ _ _ _ _ _ _ _ _ Hcall) as (D1 & D2 & D3 & _). destruct (cm_file _ _ _ _ _ _ _ _ _ _ _ Hcall) as (F1 & F2 & F3 & _).
  destruct (cm_mem_regs _ _ _ _ _ _ _ _ _ _ _ Hcall) as (Q1 & Q2 & Q3 & Q4 & Q5). destruct (cm_masks _ _ _ _ _ _ _ _ _ _ _ Hcall) as (M1 & M2).
  destruct (cm_a _ _ _ _ _ _ _ _ _ _ _ Hcall) as (La & Ha). destruct (cm_apart _ _ _ _ _ _ _ _ _ _ _ Hcall) as (A1 & A2). pose proof (cm_clear _ _ _ _ _ _ _ _ _ _ _ Hcall) as Hc.
  assert (L0 : load_at base pad mem0 (wrap 64 (mr + 0)) = Done X) by (apply load_mapped; [done|done|by rewrite Z.add_0_r|lia|by rewrite Z.add_0_r]).
  assert (L1 : load_at base pad mem0 (wrap 64 (mr + 8)) = Done ptr) by (apply load_mapped; [done|done|done|lia|plia]).
  assert (L2 : load_at base pad mem0 (wrap 64 (rf + 64)) = Done m.1) by (apply load_mapped; [done|done|done|lia|plia]).
  assert (L3 : load_at base pad mem0 (wrap 64 (rf + 72)) = Done m.2) by (apply load_mapped; [done|done|done|lia|plia]).
  assert (Ef : exists a0 a1 a2 a3, fas = [a0; a1; a2; a3]).
  { clear -La. destruct fas as [|a0 [|a1 [|a2 [|a3 [|]]]]]; try discriminate La. by exists a0, a1, a2, a3. }
  destruct Ef as ([l0 h0] & [l1 h1] & [l2 h2] & [l3 h3] & Ef). rewrite Ef in Ha.
  assert (L4 : forall i v, 0 <= i < 8 -> [l0; h0; l1; h1; l2; h2; l3; h3] !!! Z.to_nat i = v -> load_at base pad mem0 (wrap 64 (rf + 8 * (24 + i))) = Done v).
  { intros i v Hi <-. apply load_mapped; [done|done|by apply Ha|lia|plia]. }
  pose proof (L4 0 l0 ltac:(lia) eq_refl : load_at base pad mem0 (wrap 64 (rf + 192)) = Done l0) as B0.
  pose proof (L4 1 h0 ltac:(lia) eq_refl : load_at base pad mem0 (wrap 64 (rf + 200)) = Done h0) as B1.
  pose proof (L4 2 l1 ltac:(lia) eq_refl : load_at base pad mem0 (wrap 64 (rf + 208)) = Done l1) as B2.
  pose proof (L4 3 h1 ltac:(lia) eq_refl : load_at base pad mem0 (wrap 64 (rf + 216)) = Done h1) as B3.
  pose proof (L4 4 l2 ltac:(lia) eq_refl : load_at base pad mem0 (wrap 64 (rf + 224)) = Done l2) as B4.
  pose proof (L4 5 h2 ltac:(lia) eq_refl : load_at base pad mem0 (wrap 64 (rf + 232)) = Done h2) as B5.
  pose proof (L4 6 l3 ltac:(lia) eq_refl : load_at base pad mem0 (wrap 64 (rf + 240)) = Done l3) as B6.
  pose proof (L4 7 h3 ltac:(lia) eq_refl : load_at base pad mem0 (wrap 64 (rf + 248)) = Done h3) as B7.
  assert (WX : word64 X) by (unfold in_range in *; lia). clearbody X.
  exists (mkFloat l0 h0), (mkFloat l1 h1), (mkFloat l2 h2), (mkFloat l3 h3). eexists. split; [exact Ef|]. split.
  - unfold entry_saves. do 21 (one ltac:(idtac; frame_store)).
    do 15 (one ltac:(frame_store; frame_load; rewrite ?L0, ?L1, ?L2, ?L3, ?B0, ?B1, ?B2, ?B3, ?B4, ?B5, ?B6, ?B7)).
    rewrite exec_nil. assert (EX : Z.lor 0 (shl64 X 0) = X) by (rewrite Z.lor_0_l; unfold shl64; rewrite Z.shiftl_0_r; by apply wrap_small). rewrite EX.
    apply (f_equal Done). apply f_equal4; reflexivity.
  - split; [|split; [in_frame|split]].
    + constructor; [repeat (apply List.Forall_cons; [frame_word|]); apply List.Forall_nil..|]. split; frame_word.
    + intros b Hb. by repeat (rewrite put_outside by lia).
    + intros b Hb. by repeat apply put_mapped.
Qed.

(** ** The literals *)

Definition lit (q : Z) : Z := of_le (take 8 (drop (Z.to_nat q) C)).
Definition quad (q : Z) : FloatRegister := mkFloat (lit q) (lit (q + 8)).
Lemma read_lit q : 0 <= q -> q + 8 <= BufferSize -> read_le C q 8 = Done (lit q).
Proof. intros H0 H1. destruct (sd_len _ _ (lc_settled _ _ _ _ Hcode)) as [_ H]. unfold read_le. rewrite read_bytes_ok by lia. reflexivity. Qed.
Lemma word_lit q : word64 (lit q).
Proof.
  pose proof (of_le_range (take 8 (drop (Z.to_nat q) C)) ltac:(by apply Forall_take, Forall_drop)) as H. unfold word64, in_range, lit in *.
  pose proof (firstn_le_length 8 (drop (Z.to_nat q) C)) as Hl. pose proof (Z.pow_le_mono_r 2 (8 * Z.of_nat (length (take 8 (drop (Z.to_nat q) C)))) 64 ltac:(lia) ltac:(lia)). lia.
Qed.

Ltac code_load := repeat match goal with |- context [read_le C ?q 8] => let k := eval vm_compute in q in change q with k; rewrite (read_lit k) by (unfold BufferSize, ImulRcpLiteralsEnd; lia) end.

Lemma entry_loads_run x0 x1 x2 x3 x4 x5 x6 x7 x8 x9 x10 x11 x12 x13 x14 x15 x16 x17 x18 x19 x20 x21 x22 x23 x24 x25 x26 x27 x28 x29 x30 v0 v1 v2 v3 v4 v5 v6 v7 v8 v9 v10 v11 v12 v13 v14 v15 v16 v17 v18 v19 v20 v21 v22 v23 v24 v25 v26 v27 v28 v29 v30 v31 fp z pd sp cc mm :
  exec_all C base entry_loads (mkLoop (mkVec 144 [x0; x1; x2; x3; x4; x5; x6; x7; x8; x9; x10; x11; x12; x13; x14; x15; x16; x17; x18; x19; x20; x21; x22; x23; x24; x25; x26; x27; x28; x29; x30] [v0; v1; v2; v3; v4; v5; v6; v7; v8; v9; v10; v11; v12; v13; v14; v15; v16; v17; v18; v19; v20; v21; v22; v23; v24; v25; v26; v27; v28; v29; v30; v31] fp z pd) sp cc mm) =
  Done (mkLoop (mkVec 256 [lit 49632; x1; x2; x3; x4; x5; x6; x7; x8; x9; x10; lit 49640; x12; x13; x14; x15; x16; x17; x18; x19; x20; lit 49648; lit 49656; lit 49664; lit 49672; lit 49680; lit 49688; lit 49696; lit 49704; lit 49712; lit 49720]
    [quad 49728; quad 49744; quad 49760; quad 49776; quad 49792; quad 49808; quad 49824; quad 49840; quad 49856; quad 49872; quad 49888; quad 49904; quad 49920; quad 49936; quad 49952; quad 49968; v16; v17; v18; v19; v20; v21; v22; v23; v24; v25; v26; v27; v28; v29; v30; v31] fp z pd) sp cc mm).
Proof. unfold entry_loads. do 28 (one ltac:(idtac; code_load)). rewrite exec_nil. reflexivity. Qed.

Lemma loaded_pools : pools C (rev [lit 49648; lit 49656; lit 49664; lit 49672; lit 49680; lit 49688; lit 49696; lit 49704; lit 49712; lit 49720] ++ [lit 49640; lit 49632])
  [quad 49728; quad 49744; quad 49760; quad 49776; quad 49792; quad 49808; quad 49824; quad 49840; quad 49856; quad 49872; quad 49888; quad 49904; quad 49920; quad 49936; quad 49952; quad 49968].
Proof.
  split.
  - intros j v Hj. assert (Hq : 0 <= j / 4 < 16) by plia. assert (Hr : 0 <= j mod 4 < 4) by plia.
    rewrite (Z.div_mod j 4) at 1 by lia. set (q := j / 4) in *. set (k := j mod 4) in *. clearbody q k.
    assert (E : [quad 49728; quad 49744; quad 49760; quad 49776; quad 49792; quad 49808; quad 49824; quad 49840; quad 49856; quad 49872; quad 49888; quad 49904; quad 49920; quad 49936; quad 49952; quad 49968] !!! Z.to_nat q = quad (49728 + 16 * q)) by (each q 16%nat).
    rewrite E. destruct (read_halves C (49728 + 16 * q) _ HbC (read_lit (49728 + 16 * q) ltac:(lia) ltac:(unfold BufferSize, ImulRcpLiteralsEnd; lia))) as [E1 E2].
    destruct (read_halves C (49728 + 16 * q + 8) _ HbC (read_lit (49728 + 16 * q + 8) ltac:(lia) ltac:(unfold BufferSize, ImulRcpLiteralsEnd; lia))) as [E3 E4].
    assert (E0 : read_le C (ImulRcpLiteralsEnd + 4 * (4 * q + k)) 4 = Done (lane32 (quad (49728 + 16 * q)) k)).
    { assert (Ek : k = 0 \/ k = 1 \/ k = 2 \/ k = 3) by lia. unfold ImulRcpLiteralsEnd, lane32, quad. cbn [lo hi].
      destruct Ek as [->|[->|[->| ->]]]; [etrans; [|exact E1]|etrans; [|exact E2]|etrans; [|exact E3]|etrans; [|exact E4]]; f_equal; lia. }
    intros H. rewrite E0 in H. by injection H as <-.
  - intros j v Hj. unfold ImulRcpLiteralsEnd. rewrite read_lit by (unfold BufferSize, ImulRcpLiteralsEnd; lia). intros [= <-]. each j 12%nat.
Qed.

(** ** From the call to the head of the loop *)

Lemma entry_rest_run x0 x1 x2 x3 x4 x5 x6 x7 x8 x9 x10 x11 x12 x13 x14 x15 x16 x17 x18 x19 x20 x21 x22 x23 x24 x25 x26 x27 x28 x29 x30 v0 v1 v2 v3 v4 v5 v6 v7 v8 v9 v10 v11 v12 v13 v14 v15 v16 v17 v18 v19 v20 v21 v22 v23 v24 v25 v26 v27 v28 v29 v30 v31 fp z pd sp cc mm :
  exec_all C base entry_rest (mkLoop (mkVec 256 [x0; x1; x2; x3; x4; x5; x6; x7; x8; x9; x10; x11; x12; x13; x14; x15; x16; x17; x18; x19; x20; x21; x22; x23; x24; x25; x26; x27; x28; x29; x30] [v0; v1; v2; v3; v4; v5; v6; v7; v8; v9; v10; v11; v12; v13; v14; v15; v16; v17; v18; v19; v20; v21; v22; v23; v24; v25; v26; v27; v28; v29; v30; v31] fp z pd) sp cc mm) =
  Done (mkLoop (mkVec 320 [x0; x1; x2; x3; x4; x5; x6; x7; x8; x9; x10; x11; x12; x13; x14; x15; add64 x2 (shl64 (bits x10 6 15) 6); add64 x2 (shl64 (bits x10 38 15) 6); x18; x19; x20; x21; x22; x23; x24; x25; x26; x27; x28; x29; x30]
    [v0; v1; v2; v3; v4; v5; v6; v7; v8; v9; v10; v11; v12; v13; v14; v15; v16; v17; v18; v19; v20; v21; v22; v23; v24; v25; v26; v27; v28; v29; v30; v31] fp z pd) sp cc mm).
Proof. unfold entry_rest. cbn [app replicate]. do 16 (one idtac). rewrite exec_nil. reflexivity. Qed.

Lemma entry_address X k : 0 <= k -> let y := add64 base (shl64 (bits X k 15) 6) in y = base + bits X k 15 * 64 /\ word64 y.
Proof.
  intros Hk y. assert (H : 0 <= bits X k 15 < 2 ^ 15) by (unfold bits; apply Z.mod_pos_bound; lia).
  assert (E : y = base + bits X k 15 * 64).
  { unfold y, add64, shl64. rewrite Z.shiftl_mul_pow2 by lia. change (2 ^ 6) with 64. rewrite !wrap_small; [done|..]; rewrite ?wrap_small; split; lia. }
  split; [done|]. rewrite E. unfold in_range. lia.
Qed.

Lemma mode_rbit md : 0 <= md < 4 -> rbit64 (rbit64 (md * 2 ^ 40)) = md * 2 ^ 40.
Proof. intros H. assert (Em : md = 0 \/ md = 1 \/ md = 2 \/ md = 3) by lia. destruct Em as [->|[->|[->| ->]]]; vm_compute; reflexivity. Qed.

Lemma head_sim n md z X x18 x19 x20 v16 v17 v18 v19 v20 v21 v22 v23 a0 a1 a2 a3 v28 :
  word64 X -> word64 ptr -> word64 n -> word64 x18 -> word64 x19 -> word64 x20 -> 0 <= md < 4 -> exists K,
  sim C base m K (mkX (mkRegisterFile (replicate 8 0) [v16; v17; v18; v19] [v20; v21; v22; v23] [a0; a1; a2; a3]) pad md (rounding_of md))
    (mkVec 320 [lit 49632; ptr; base; n; 0; 0; 0; 0; md * 2 ^ 40; X; X; lit 49640; 0; 0; 0; 0; add64 base (shl64 (bits X 6 15) 6); add64 base (shl64 (bits X 38 15) 6); x18; x19; x20; lit 49648; lit 49656; lit 49664; lit 49672; lit 49680; lit 49688; lit 49696; lit 49704; lit 49712; lit 49720]
      [quad 49728; quad 49744; quad 49760; quad 49776; quad 49792; quad 49808; quad 49824; quad 49840; quad 49856; quad 49872; quad 49888; quad 49904; quad 49920; quad 49936; quad 49952; quad 49968; v16; v17; v18; v19; v20; v21; v22; v23; a0; a1; a2; a3; v28; mkFloat e_and e_and; mkFloat m.1 m.2; mkFloat scale_mask scale_mask]
      (rbit64 (md * 2 ^ 40)) z pad) /\
  K 1 = ptr /\ K 3 = n /\ K 9 = X /\ K 16 = base + bits X 6 15 * 64 /\ K 17 = base + bits X 38 15 * 64.
Proof.
  intros WX Wp Wn W18 W19 W20 Hmd. destruct (entry_address X 6 ltac:(lia)) as [A6 W6]. destruct (entry_address X 38 ltac:(lia)) as [A38 W38].
  exists (fun k => if k =? 1 then ptr else if k =? 3 then n else if k =? 16 then base + bits X 6 15 * 64 else if k =? 17 then base + bits X 38 15 * 64 else X).
  split; [|done]. apply sim_build; try done; [|exact loaded_pools].
  refine (proj2 (x_words base m Hbase Hmask _ _ _ _ _ _ _ _ _ _ _ _ _ _) (conj _ (conj _ _))).
  - repeat (apply List.Forall_cons; [try assumption|]); try apply List.Forall_nil; try apply word_lit; unfold in_range; lia.
  - repeat (apply List.Forall_cons; [unfold in_range; lia|]). apply List.Forall_nil.
  - repeat (apply List.Forall_cons; [apply word_lit|]). apply List.Forall_nil.
Qed.

Lemma entry_runs xs vs n md z cc : (length xs = 31%nat /\ Words xs) -> length vs = 32%nat ->
  xget xs 0 = rf -> xget xs 1 = mr -> xget xs 2 = base -> xget xs 3 = n -> word32 mx -> word32 ma -> word64 ptr -> 0 <= md < 4 ->
  exists ms, reaches C base (mkLoop (mkVec 0 xs vs (rbit64 (md * 2 ^ 40)) z pad) S cc mem0) ms /\ vpc (lv ms) = MainLoopBegin /\ lsp ms = S - 208 /\
    saved S rf mr xs vs (lmem ms) /\ framed (lmem ms) /\ (forall b, b < S - 208 \/ S <= b -> lmem ms b = mem0 b) /\ (forall b, mem0 b <> None -> lmem ms b <> None) /\
    exists fs es K, length fs = 4%nat /\ length es = 4%nat /\
      sim C base m K (mkX (mkRegisterFile (replicate 8 0) fs es fas) pad md (rounding_of md)) (lv ms) /\
      let X := mx + ma * 2 ^ 32 in
      K 1 = ptr /\ K 3 = n /\ K 9 = X /\ K 16 = base + bits X 6 15 * 64 /\ K 17 = base + bits X 38 15 * 64.
Proof.
  intros [Lx Wx] Lv E0 E1 E2 E3 Wmx Wma Wp Hmd. x_registers xs. v_registers vs. clear Lx Lv.
  change (x0 = rf) in E0. change (x1 = mr) in E1. change (x2 = base) in E2. change (x3 = n) in E3. subst x2 x3.
  destruct (entry_saves_run x0 x1 base n x4 x5 x6 x7 x8 x9 x10 x11 x12 x13 x14 x15 x16 x17 x18 x19 x20 x21 x22 x23 x24 x25 x26 x27 x28 x29 x30 v0 v1 v2 v3 v4 v5 v6 v7 v8 v9 v10 v11 v12 v13 v14 v15 v16 v17 v18 v19 v20 v21 v22 v23 v24 v25 v26 v27 v28 v29 v30 v31 (rbit64 (md * 2 ^ 40)) z cc E0 E1 Wmx Wma) as (a0 & a1 & a2 & a3 & mm & Ef & R1 & Hsv & Hfr & Ho & Hmp).
  set (X := mx + ma * 2 ^ 32) in *. assert (WX : word64 X) by (unfold X, in_range in *; lia).
  destruct (cm_stack _ _ _ _ _ _ _ _ _ _ _ Hcall) as (D1 & D2 & D3 & _). rewrite (mode_rbit _ Hmd) in R1.
  destruct (entry_address X 6 ltac:(lia)) as [A6 W6]. destruct (entry_address X 38 ltac:(lia)) as [A38 W38].
  pose proof (exec_seq _ _ _ _ _ _ _ R1 (exec_seq _ _ _ _ _ _ _ (entry_loads_run _ _ _ _ _ _ _ _ _ _ _ _ _ _ _ _ _ _ _ _ _ _ _ _ _ _ _ _ _ _ _
    _ _ _ _ _ _ _ _ _ _ _ _ _ _ _ _ _ _ _ _ _ _ _ _ _ _ _ _ _ _ _ _ _ _ _ _ _ _) (entry_rest_run _ _ _ _ _ _ _ _ _ _ _ _ _ _ _ _ _ _ _ _ _ _ _ _ _ _ _ _ _ _ _
    _ _ _ _ _ _ _ _ _ _ _ _ _ _ _ _ _ _ _ _ _ _ _ _ _ _ _ _ _ _ _ _ _ _ _ _ _ _))) as R. rewrite <- entry_parts in R.
  destruct (run_fetched C base entry_asm (mkLoop (mkVec 0 [x0; x1; base; n; x4; x5; x6; x7; x8; x9; x10; x11; x12; x13; x14; x15; x16; x17; x18; x19; x20; x21; x22; x23; x24; x25; x26; x27; x28; x29; x30] [v0; v1; v2; v3; v4; v5; v6; v7; v8; v9; v10; v11; v12; v13; v14; v15; v16; v17; v18; v19; v20; v21; v22; v23; v24; v25; v26; v27; v28; v29; v30; v31] (rbit64 (md * 2 ^ 40)) z pad) S cc mem0) _ (lc_entry _ _ _ _ Hcode) eq_refl R) as [Rr _]. eexists. split; [exact Rr|]. cbn [lv vpc lsp lmem].
  split; [done|]. split; [by rewrite wrap_small by (split; lia)|]. split; [exact Hsv|]. split; [exact Hfr|]. split; [exact Ho|]. split; [exact Hmp|].
  repeat match goal with H : Forall _ (_ :: _) |- _ => apply Forall_cons_1 in H; destruct H as [? H] end.
  destruct (head_sim n md z X x18 x19 x20 v16 v17 v18 v19 v20 v21 v22 v23 a0 a1 a2 a3 v28) as (K & HK & HK'); try assumption.
  exists [v16; v17; v18; v19], [v20; v21; v22; v23], K. rewrite Ef. split; [done|]. split; [done|]. split; [exact HK|exact HK'].
Qed.
End entry.
