(* ===== verification/JitLines.v ===== *)
(** * Dataset lines for the compiled loop

    The ways in which src/src/jit_compiler_a64_static.S reaches the dataset line of a turn
    ([LineSource], JitLoop.v): a read of the dataset, or a call of the compiled dataset item function. *)

From stdpp Require Import list.
From S2P Require Import Prelude RandomX Float Bytecode BytecodeSafety BytecodeTermination BytecodeStale Argon2 Dataset Vm.
From S2P Require Import Superscalar SuperscalarGen JitSuper.
From S2P Require Import Footprint JitSchedule JitEquiv A64 JitDataset JitItem A64Vec JitEmit JitLayout JitWords JitValues JitVmRun JitVmSim JitVmFloat JitVmEquiv JitItemEquiv.
From S2P Require Import A64Loop JitTemplate JitGenerate A64Run JitLoop JitEntry.

(** ** The words [mx] and [ma] *)

Lemma low_high_disjoint x y : 0 <= x < 2 ^ 32 -> Z.land x (y * 2 ^ 32) = 0.
Proof.
  intros Hx. rewrite <- Z.shiftl_mul_pow2 by lia. apply Z.bits_inj'. intros n Hn. rewrite Z.land_spec, Z.shiftl_spec, Z.bits_0 by lia.
  destruct (Z.ltb_spec n 32).
  - rewrite (Z.testbit_neg_r y) by lia. apply andb_false_r.
  - rewrite <- (Z.mod_small x (2 ^ 32)) by done. rewrite Z.mod_pow2_bits_high by lia. done.
Qed.
Lemma xor_low x y u : word32 x -> word32 u -> Z.lxor (x + y * 2 ^ 32) u = Z.lxor x u + y * 2 ^ 32.
Proof.
  intros Hx Hu. rewrite (Z.add_nocarry_lxor x), (Z.add_nocarry_lxor (Z.lxor x u)); [|apply low_high_disjoint, (word32_lxor _ _ Hx Hu)|by apply low_high_disjoint].
  rewrite !Z.lxor_assoc. f_equal. apply Z.lxor_comm.
Qed.
(** [ror 32] swaps them. *)
Lemma swap_halves x y : word32 x -> word32 y -> wrap 64 (Z.shiftr ((x + y * 2 ^ 32) * 2 ^ 64 + (x + y * 2 ^ 32)) 32) = y + x * 2 ^ 32.
Proof.
  unfold in_range. intros Hx Hy. rewrite Z.shiftr_div_pow2 by lia.
  replace ((x + y * 2 ^ 32) * 2 ^ 64 + (x + y * 2 ^ 32)) with (((x + y * 2 ^ 32) * 2 ^ 32 * 2 ^ 32 + y * 2 ^ 32) + x) by lia.
  rewrite <- Z.mul_add_distr_r, Z.div_add_l, (Z.div_small x), Z.add_0_r by lia. unfold wrap. symmetry. apply (Z.mod_unique_pos _ _ y); lia.
Qed.
Lemma high_half x y : word32 x -> word32 y -> bits (x + y * 2 ^ 32) 32 32 = y.
Proof. unfold in_range. intros Hx Hy. unfold bits. rewrite Z.div_add, Z.div_small, Z.add_0_l by lia. apply Z.mod_small. lia. Qed.

Section lines.
Context (C : list Z) (base : Z) (m : Z * Z) (config : ProgramConfiguration) (st : emission) (target : Z).
Context (Hcode : loop_code config target st C) (Hconfig : config_wf config).
Context (Hbase : 0 <= base /\ base + 2 ^ 21 <= 2 ^ 64) (Hmask : e_or_ok m.1 /\ e_or_ok m.2).

Abbreviation sim := (JitVmSim.sim C base m).
Abbreviation reaches := (A64Run.reaches C base).

(** [eor w20, readReg2, readReg3], and the jump to the mode's code. *)
Lemma line_mix_runs ms c K : sim K c (lv ms) -> vpc (lv ms) = st.2 ->
  let mix := Z.lxor (r (reg_ c) !!! Z.to_nat (readReg2 config)) (r (reg_ c) !!! Z.to_nat (readReg3 config)) in
  exists ms', reaches ms ms' /\ vpc (lv ms') = target /\ sim K c (lv ms') /\ xget (vx (lv ms')) 20 = wrap 32 mix /\ lsp ms' = lsp ms /\ lmem ms' = lmem ms.
Proof.
  intros Hs Hp mix. destruct Hconfig as (_ & _ & C2 & C3). pose proof (lc_spMix2 _ _ _ _ Hcode) as F. unfold spMix2_asm in F.
  change (?x :: ?y) with ([x] ++ y) in F. apply fetched_split in F as [F1 F2]. cbn [length] in F2. change (4 * Z.of_nat 1) with 4 in F2.
  set (s1 := mkVec (st.2 + 4) (xset (vx (lv ms)) 20 (wrap 32 mix)) (vv (lv ms)) (fpcr (lv ms)) (zf (lv ms)) (vmem (lv ms))).
  assert (R1 : reaches ms (with_vec s1 ms)).
  { eapply step_fetched; [by rewrite Hp|]. cbn [exec_ins exec_more]. rewrite !(si_r _ _ _ _ _ _ Hs) by done. unfold advance, put_x, with_vec. cbn [lv vpc vx vv fpcr zf vmem lsp cf lmem].
    rewrite Hp. reflexivity. }
  set (s2 := mkVec target (vx s1) (vv s1) (fpcr s1) (zf s1) (vmem s1)).
  assert (R2 : reaches (with_vec s1 ms) (with_vec s2 ms)).
  { eapply step_fetched; [exact F2|]. cbn [exec_ins vec_exec exec mbind outcome_bind with_vec lv s1 vpc vx vv fpcr zf vmem]. unfold s2. cbn [s1 vx vv fpcr zf vmem].
    replace (st.2 + 4 + (target - (st.2 + 4))) with target by lia. reflexivity. }
  destruct (si_machine _ _ _ _ _ _ Hs) as [Hm Hv].
  exists (with_vec s2 ms). split; [by eapply run_trans|]. split; [done|]. split; [|split; [|done]].
  - apply (sim_temp C base m K c (lv ms)); [done|]. apply temp_set; [done|pose proof (wrap32_range mix) as W; unfold in_range in *; lia|auto].
  - apply xget_xset; [done|lia].
Qed.

(** ** Fast mode *)

(** The dataset in memory at [D]. *)
Record dataset_at (mem : memory) (D : Z) (ds : list Z) : Prop := mkDatasetAt {
  da_range : 0 <= D /\ D + Z.of_nat (length ds) <= 2 ^ 64 /\ D mod 8 = 0;
  da_words : forall k : nat, (8 * k + 8 <= length ds)%nat -> mem (D + 8 * Z.of_nat k) = Some (of_le (take 8 (drop (8 * k) ds)));
}.

Lemma dataset_line mem D ds off bs pad : clear_pad base mem -> Z.of_nat (length pad) = 2 ^ 21 -> dataset_at mem D ds -> off mod 8 = 0 -> read_bytes ds off 64 = Done bs ->
  line_at base pad mem (D + off) (line_words bs).
Proof.
  intros Hc Hp [(D0 & D1 & D8) Hw] O8 E. split; [done|]. intros i Hi.
  assert (Hb : 0 <= off /\ off + 64 <= Z.of_nat (length ds)) by (revert E; unfold read_bytes; destruct (_ && _) eqn:Ec; [blia|done]).
  pose proof (read_line _ _ _ i E Hi) as Er. unfold read_le in Er. rewrite read_bytes_ok in Er by lia. cbn [mbind outcome_bind] in Er.
  apply load_mapped; [done|done| |lia|plia]. specialize (Hw (Z.to_nat ((off + 8 * i) / 8)) ltac:(plia)).
  replace (D + 8 * Z.of_nat (Z.to_nat ((off + 8 * i) / 8))) with (D + off + 8 * i) in Hw by plia.
  replace (8 * Z.to_nat ((off + 8 * i) / 8))%nat with (Z.to_nat (off + 8 * i)) in Hw by plia. rewrite Hw. f_equal. by injection Er.
Qed.

Lemma fast_runs K c ms mx ma : fetched C Label.vm_instructions_end fast_asm -> sim K c (lv ms) -> shaped c -> vpc (lv ms) = Label.vm_instructions_end ->
  K 9 = mx + ma * 2 ^ 32 -> word32 mx -> word32 ma -> word32 (xget (vx (lv ms)) 20) ->
  exists ms', reaches ms ms' /\ vpc (lv ms') = Label.xor_with_dataset_line /\ lsp ms' = lsp ms /\ lmem ms' = lmem ms /\
    sim (upd (upd K 9 (ma + Z.lxor mx (xget (vx (lv ms)) 20) * 2 ^ 32)) 10 (add64 (Z.land ma align_mask) (K 1))) c (lv ms').
Proof.
  intros F Hs Hx Hp K9 Wx Wa W20. destruct ms as [s sp cc mem]. cbn [lv lsp lmem] in *.
  destruct (sim_literal C base m Hbase Hmask K c s Hs Hx) as (x0 & x11 & x18 & x19 & x20 & x21 & x22 & x23 & x24 & x25 & x26 & x27 & x28 & x29 & x30 &
    v0 & v1 & v2 & v3 & v4 & v5 & v6 & v7 & v8 & v9 & v10 & v11 & v12 & v13 & v14 & v15 & v28 & r0 & r1 & r2 & r3 & r4 & r5 & r6 & r7 &
    f0 & f1 & f2 & f3 & e0 & e1 & e2 & e3 & a0 & a1 & a2 & a3 & pad & md & fe & pc & fp & z & -> & -> & W & P & Hmd & Hfe & Hfp).
  clear Hs. cbn [vpc fpcr scratchpad_ fe_round reg_ r f e a vx] in *. subst pc. change (word32 x20) in W20. change (xget (x_file _ _ _ _ _ _ _ _ _ _ _ _ _ _ _) 20) with x20.
  lazymatch goal with |- exists ms', reaches ?s ms' /\ _ => eassert (E : exec_all C base fast_asm s = Done _);
    [unfold fast_asm, memory_v1, prefetch_line, x_file, v_file; cbn [app take drop]; do 9 (one idtac); apply exec_nil|] end.
  eapply run_fetched in E as [R _]; [|exact F|reflexivity].
  assert (Wk : word64 (K 1) /\ word64 x20).
  { apply (x_words base m Hbase Hmask) in W as (W & _). repeat match goal with H : Forall _ (_ :: _) |- _ => apply Forall_cons_1 in H; destruct H as [? H] end. done. }
  destruct Wk as [W1 W20'].
  assert (A9 : wrap 64 (Z.shiftr (Z.lxor (K 9) (shl64 x20 0) * 2 ^ 64 + Z.lxor (K 9) (shl64 x20 0)) 32) = ma + Z.lxor mx x20 * 2 ^ 32).
  { rewrite (shl64_0 _ W20'), K9, (xor_low _ _ _ Wx W20). apply swap_halves; [by apply word32_lxor|done]. }
  assert (A10 : add64 (Z.land (wrap 32 (bits (K 9) 32 (64 - 32))) align_mask) (shl64 (K 1) 0) = add64 (Z.land ma align_mask) (K 1)).
  { rewrite (shl64_0 _ W1), K9. change (64 - 32) with 32. rewrite (high_half _ _ Wx Wa), wrap_small by done. done. }
  rewrite A9, A10 in R. eexists. split; [exact R|]. split; [reflexivity|]. split; [done|]. split; [done|]. cbn [lv].
  apply sim_build; try done. apply (x_words base m Hbase Hmask) in W as (W & Wr & Wl).
  refine (proj2 (x_words base m Hbase Hmask _ _ _ _ _ _ _ _ _ _ _ _ _ _) (conj _ (conj Wr Wl))).
  repeat match goal with H : Forall _ (_ :: _) |- _ => apply Forall_cons_1 in H; destruct H as [? H] end.
  repeat (apply List.Forall_cons; [try assumption|]); try apply List.Forall_nil; try (unfold add64; apply wrap_range; lia).
  pose proof (word32_lxor _ _ Wx W20). unfold in_range in *. lia.
Qed.

Lemma fast_lines (J : memory -> Prop) D ds off ptr : (forall mem, J mem -> clear_pad base mem /\ dataset_at mem D ds) -> fetched C Label.vm_instructions_end fast_asm -> target = Label.vm_instructions_end ->
  0 <= off <= 524287 * 64 -> off mod 64 = 0 -> ptr = D + off -> forall stack,
  LineSource C base m config st J stack ptr (fun ma => read_bytes ds (add64 off (Z.land ma align_mask)) 64).
Proof.
  intros HJ F Ht Ho O8 Hptr stack ms c K mx ma bs Hs Hx Hp Hsp Hj K1 K9 Wx Wa El mix.
  destruct (HJ _ Hj) as [Hc Hd]. destruct (line_mix_runs ms c K Hs Hp) as (ms1 & R1 & P1 & Hs1 & X20 & S1 & M1). fold mix in X20. rewrite Ht in P1.
  destruct (fast_runs K c ms1 mx ma F Hs1 (x_wf_shaped _ Hx) P1 K9 Wx Wa) as (ms2 & R2 & P2 & S2 & M2 & Hs2); [rewrite X20; apply wrap32_range|]. rewrite X20 in Hs2.
  destruct (read_address off ma Ho (proj1 Wa)) as (Ea & A1 & _ & A3). change 0x7fffffc0 with align_mask in Ea, A1, A3. rewrite Ea in El.
  pose proof (da_range _ _ _ Hd) as (D0 & D1 & D8).
  assert (Hb : off + Z.land ma align_mask + 64 <= Z.of_nat (length ds)) by (revert El; unfold read_bytes; destruct (_ && _) eqn:Ec; [blia|done]).
  assert (Ep : add64 (Z.land ma align_mask) (K 1) = D + (off + Z.land ma align_mask)) by (rewrite K1, Hptr; unfold add64; rewrite wrap_small; [lia|split; lia]).
  rewrite Ep in Hs2. exists ms2, (D + (off + Z.land ma align_mask)). split; [by eapply run_trans|]. split; [done|]. split; [done|].
  rewrite S2, S1, M2, M1. split; [done|]. split; [done|]. apply (dataset_line _ _ ds); [done|apply Hx|done|plia|done].
Qed.

(** ** Light mode *)

(** The item function does not move when only the code before it is written. *)
Lemma function_moves no_e24_pad t rc programs code code' e : length code' = length code ->
  (forall k : nat, CodeSize <= Z.of_nat k -> code' !! k = code !! k) -> function_at no_e24_pad t rc programs code e -> function_at no_e24_pad t rc programs code' e.
Proof.
  intros Hl Hk [F1 F2 F3]. assert (Hh : forall pos bs, CodeSize <= pos -> holds code pos bs -> holds code' pos bs).
  { intros pos bs Hp. apply holds_ext; [done|]. intros k Hk'. apply Hk. lia. }
  assert (Hr : forall pos progs, CodeSize <= pos -> rounds_at no_e24_pad t rc code pos progs e -> CodeSize <= e /\ rounds_at no_e24_pad t rc code' pos progs e).
  { clear F1 F2 F3. intros pos progs Hp H. induction H as [pos|pos prog progs instrs e [K1 K2 [J1 J2 J3] K4 K5] Hre _ IH]; [split; [done|constructor]|].
    pose proof (round_end_bound no_e24_pad t rc instrs pos) as HB. destruct (IH ltac:(unfold round_end; lia)) as [He IH']. split; [done|].
    econstructor; [|done|exact IH']. constructor; [| |constructor| |]; (apply Hh; [lia|done]). }
  destruct (Hr (CodeSize + Z.of_nat (length (t_prologue t))) programs ltac:(lia) F2) as [He F2']. constructor; [by apply Hh|done|by apply Hh].
Qed.

Definition light_before (off : Z) : list ins := light_enter ++ [More (AND_w 2 2 align_mask)] ++ light_v1 ++ light_args ++ offset_asm off.
Lemma light_parts off : light_asm off = light_before off ++ light_call ++ take 4 light_leave ++ [Reg (B (50020 - 50504))].
Proof. reflexivity. Qed.

Lemma item_number ma off : word32 ma -> 0 <= off <= 524287 * 64 -> off mod 64 = 0 ->
  add64 (add64 (bits (Z.land ma align_mask) 6 58) (off / 64 mod 4096)) (off / 64 / 4096 * 4096) = (off + Z.land ma align_mask) / 64.
Proof.
  intros Wa Ho O64. destruct (read_address off ma Ho (proj1 Wa)) as (_ & A1 & _ & A3). change 0x7fffffc0 with align_mask in A1, A3.
  set (y := Z.land ma align_mask) in *. clearbody y. unfold bits. change (2 ^ 6) with 64. change align_mask with 0x7fffffc0 in A1.
  assert (Hy : y = 64 * (y / 64)) by (apply Z.div_exact; lia). assert (Hq : off = 64 * (off / 64)) by (apply Z.div_exact; lia).
  set (u := y / 64) in *. set (q := off / 64) in *. clearbody u q. subst y off. replace (64 * q + 64 * u) with ((q + u) * 64) by lia. rewrite Z.div_mul by lia.
  rewrite (Z.mod_small u) by lia. pose proof (Z.div_mod q 4096 ltac:(lia)). pose proof (Z.mod_pos_bound q 4096 ltac:(lia)).
  unfold add64. rewrite !wrap_small; [lia|..]; rewrite ?wrap_small; split; lia.
Qed.

(** Stores and loads below the stack pointer. *)
Lemma put_domain mem q v : mem q <> None -> forall b, put mem q v b = None <-> mem b = None.
Proof. intros Hm b. unfold put. destruct (Z.eqb_spec b q) as [->|]; [|done]. split; [done|by intros]. Qed.

Lemma light_runs K c ms sp mx ma off cache ptr no_e24_pad e0 : fetched C Label.vm_instructions_end_light (light_asm off) -> 0 <= off <= 524287 * 64 -> off mod 64 = 0 ->
  cache_ready cache -> memory_blocks_ cache = 262144 -> Forall (fun p => program_ok (reciprocal_cache_ cache) p /\ size_ p <= 512) (programs_ cache) ->
  function_at no_e24_pad item_templates (reciprocal_cache_ cache) (programs_ cache) C e0 ->
  sim K c (lv ms) -> shaped c -> vpc (lv ms) = Label.vm_instructions_end_light ->
  K 9 = mx + ma * 2 ^ 32 -> word32 mx -> word32 ma -> word32 (xget (vx (lv ms)) 20) -> K 1 = ptr ->
  lsp ms = sp -> 208 <= sp < 2 ^ 64 -> sp mod 16 = 0 -> clear_pad base (lmem ms) -> (forall k, -208 <= k < 0 -> k mod 8 = 0 -> lmem ms (sp + k) <> None) ->
  (ptr mod 8 = 0 /\ 0 <= ptr /\ ptr + 2 ^ 28 <= 2 ^ 64) -> cache_at cache ptr (lmem ms) -> ptr + 2 ^ 28 <= sp - 208 \/ sp <= ptr ->
  exists ms' rl, reaches ms ms' /\ vpc (lv ms') = Label.xor_with_dataset_line /\ lsp ms' = sp /\
    sim (upd (upd K 9 (ma + Z.lxor mx (xget (vx (lv ms)) 20) * 2 ^ 32)) 10 (sp - 96)) c (lv ms') /\
    generate_dataset_item cache ((off + Z.land ma align_mask) / 64) = Done (store_registers rl) /\ file_wf rl /\ contains (lmem ms') (sp - 96) rl /\
    (forall b, b < sp - 208 \/ sp <= b -> lmem ms' b = lmem ms b) /\ forall b, lmem ms' b = None <-> lmem ms b = None.
Proof.
  intros F Ho O64 Hcr Hcb Hcp Hfn Hs Hx Hp K9 Wx Wa W20 K1 Esp Hsp S16 Hcl Hmap Hptr Hca Hap. destruct ms as [s sp0 cc mem]. cbn [lv lsp lmem] in *. subst sp0.
  pose proof (proj1 (sh_mem _ Hx)) as Hpad.
  destruct (sim_literal C base m Hbase Hmask K c s Hs Hx) as (x0 & x11 & x18 & x19 & x20 & x21 & x22 & x23 & x24 & x25 & x26 & x27 & x28 & x29 & x30 &
    v0 & v1 & v2 & v3 & v4 & v5 & v6 & v7 & v8 & v9 & v10 & v11 & v12 & v13 & v14 & v15 & v28 & r0 & r1 & r2 & r3 & r4 & r5 & r6 & r7 &
    f0 & f1 & f2 & f3 & ee0 & e1 & e2 & e3 & a0 & a1 & a2 & a3 & pad & md & fe & pc & fp & z & -> & -> & W & P & Hmd & Hfe & Hfp).
  clear Hs. cbn [vpc fpcr scratchpad_ fe_round reg_ r f e a vx] in *. subst pc. change (word32 x20) in W20. change (xget (x_file _ _ _ _ _ _ _ _ _ _ _ _ _ _ _) 20) with x20.
  assert (St : forall mm k v, (clear_pad base mm /\ forall k, -208 <= k < 0 -> k mod 8 = 0 -> mm (sp + k) <> None) -> -208 <= k < 0 -> k mod 8 = 0 ->
    store_at base pad mm (wrap 64 (sp + k)) v = Done (pad, put mm (sp + k) v) /\
    (clear_pad base (put mm (sp + k) v) /\ forall k', -208 <= k' < 0 -> k' mod 8 = 0 -> put mm (sp + k) v (sp + k') <> None)).
  { intros mm k v [H1 H2] Hk K8. split; [apply store_mapped; [done|done|by apply H2|lia|plia]|]. split; [apply clear_put; [done|by apply H2]|].
    intros k' Hk' K8'. apply put_mapped. by apply H2. }
  destruct (St mem (-32) x0 (conj Hcl Hmap) ltac:(lia) eq_refl) as [S1 G1]. destruct (St _ (-24) (K 1) G1 ltac:(lia) eq_refl) as [S2 G2].
  destruct (St _ (-16) base G2 ltac:(lia) eq_refl) as [S3 G3]. destruct (St _ (-8) x30 G3 ltac:(lia) eq_refl) as [S4 [Hcl1 Hmap1]].
  rewrite light_parts in F. apply fetched_split in F as [F1 F]. apply fetched_split in F as [F2 F]. apply fetched_split in F as [F3 F4].
  lazymatch goal with |- exists ms' rl, reaches ?s ms' /\ _ => eassert (E : exec_all C base (light_before off) s = Done _);
    [unfold light_before, light_enter, light_v1, light_args, offset_asm, x_file, v_file; cbn [app take drop]; do 12 (one ltac:(rewrite ?S1, ?S2, ?S3, ?S4)); apply exec_nil|] end.
  pose proof W as W'. apply (x_words base m Hbase Hmask) in W' as (Wg & Wr & Wl). pose proof Wg as Wg'. words_of Wg'. words_of Wr. words_of Wl.
  set (item := (off + Z.land ma align_mask) / 64) in *.
  assert (A0 : Z.lor 0 (shl64 (K 1) 0) = ptr) by (rewrite Z.lor_0_l, shl64_0 by done; done).
  assert (A1 : wrap 64 (sp + -96) = sp - 96) by (rewrite wrap_small by (split; lia); lia).
  assert (A2 : add64 (add64 (bits (Z.land (wrap 32 (bits (K 9) 32 (64 - 32))) align_mask) 6 (64 - 6)) (off / 64 mod 4096)) (off / 64 / 4096 * 4096) = item).
  { rewrite K9. change (64 - 32) with 32. change (64 - 6) with 58. rewrite (high_half _ _ Wx Wa), wrap_small by done. by apply item_number. }
  assert (A9 : wrap 64 (Z.shiftr (Z.lxor (K 9) (shl64 x20 0) * 2 ^ 64 + Z.lxor (K 9) (shl64 x20 0)) 32) = ma + Z.lxor mx x20 * 2 ^ 32).
  { rewrite shl64_0, K9, (xor_low _ _ _ Wx W20) by done. apply swap_halves; [by apply word32_lxor|done]. }
  rewrite A0, A1, A2, A9 in E. set (mem1 := put _ (sp + -8) x30) in *.
  eapply run_fetched in E as [R1 _]; [|exact F1|reflexivity].
  set (x1 := [ptr; sp - 96; item; K 3; r0; r1; r2; r3; md * 2 ^ 40; ma + Z.lxor mx x20 * 2 ^ 32; K 10; x11; r4; r5; r6; r7; K 16; K 17; x18; x19; x20; x21; x22; x23; x24; x25; x26; x27; x28; x29; 50488]).
  set (st2 := mkLoop (mkVec CodeSize x1 (v_file m [v0; v1; v2; v3; v4; v5; v6; v7; v8; v9; v10; v11; v12; v13; v14; v15] [f0; f1; f2; f3] [ee0; e1; e2; e3] [a0; a1; a2; a3] v28) fp z pad)
    (sp - 96) cc mem1).
  match type of R1 with A64Run.reaches _ _ _ ?st1 => assert (R2 : reaches st1 st2) by (eapply step_fetched; [exact F2|reflexivity]) end.
  assert (O1 : forall b, b < sp - 32 \/ sp <= b -> mem1 b = mem b).
  { intros b Hb. unfold mem1, put. repeat match goal with |- context [b =? ?q] => destruct (Z.eqb_spec b q); [lia|] end. done. }
  assert (D1 : forall b, mem1 b = None <-> mem b = None).
  { intros b. unfold mem1. rewrite put_domain by (apply G3; [lia|reflexivity]). rewrite put_domain by (apply G2; [lia|reflexivity]). rewrite put_domain by (apply G1; [lia|reflexivity]).
    apply put_domain, Hmap; [lia|reflexivity]. }
  assert (V1 : mem1 (sp + -32) = Some x0 /\ mem1 (sp + -24) = Some (K 1) /\ mem1 (sp + -16) = Some base /\ mem1 (sp + -8) = Some x30).
  { unfold mem1. split_and!; repeat (rewrite (put_skip sp) by reflexivity); apply put_same. }
  assert (Hitem : 0 <= item < 2 ^ 32).
  { destruct (read_address off ma Ho (proj1 Wa)) as (_ & Y1 & Y2 & _). change kRandomXDatasetBytes with 2181038080 in Y2. change 0x7fffffc0 with align_mask in Y1, Y2.
    unfold item. split; [apply Z.div_pos; lia|apply Z.div_lt_upper_bound; lia]. }
  assert (Hx1 : machine x1).
  { split; [reflexivity|]. pose proof (word32_lxor _ _ Wx W20). unfold x1. repeat (apply List.Forall_cons; [try assumption; unfold in_range in *; lia|]). apply List.Forall_nil. }
  assert (Hcall : JitItemEquiv.call cache ptr (sp - 96) item (sp - 208) x1 mem1).
  { constructor; [done|done|done| | | |lia].
    - intros i line q Hi Hq El. assert (Hr : 8 * Z.of_nat q < 64) by lia. rewrite O1 by lia. by apply (Hca i line q).
    - split; [plia|]. split; [lia|]. split; [lia|]. intros q Hq. replace (sp - 96 + 8 * Z.of_nat q) with (sp + (8 * Z.of_nat q - 96)) by lia.
      apply not_eq_None_Some, Hmap1; [lia|plia].
    - split; [plia|]. split; [lia|]. split; [lia|]. intros q Hq. replace (sp - 208 + 8 * Z.of_nat q) with (sp + (8 * Z.of_nat q - 208)) by lia.
      apply not_eq_None_Some, Hmap1; [lia|plia]. }
  destruct (function_runs cache no_e24_pad C e0 ptr (sp - 96) item (sp - 208) x1 mem1 Hcr Hcb Hcp Hfn Hcall) as (rl & m' & Eg & Hrl & [n En] & Hct & Om).
  replace (sp - 208 + 112) with (sp - 96) in En, Om by lia. change (xget x1 30) with 50488 in En.
  assert (Hpt : apart base st2).
  { intros q Hq. unfold in_pad in Hq. cbn [lv vmem st2] in Hq. rewrite Hpad in Hq. apply Hcl1; blia. }
  destruct (loop_item n C base st2 _ Hpt En) as [R3 D3]. change (same_domain mem1 m') in D3.
  assert (Hcl' : clear_pad base m') by (intros b B1 B2; apply D3; by apply Hcl1).
  assert (Ld : forall k v, -32 <= k < 0 -> k mod 8 = 0 -> mem1 (sp + k) = Some v -> load_at base pad m' (wrap 64 (sp - 96 + (96 + k))) = Done v).
  { intros k v Hk K8 Ek. replace (sp - 96 + (96 + k)) with (sp + k) by lia. apply load_mapped; [done|done| |lia|plia]. rewrite Om by lia. exact Ek. }
  destruct V1 as (V0 & V2 & V3 & V4). apply Ld in V0; [|lia|reflexivity]. apply Ld in V2; [|lia|reflexivity]. apply Ld in V3; [|lia|reflexivity]. apply Ld in V4; [|lia|reflexivity].
  change (96 + -32) with 64 in V0. change (96 + -24) with 72 in V2. change (96 + -16) with 80 in V3. change (96 + -8) with 88 in V4.
  set (st3 := with_item _ st2) in R3. eassert (E : exec_all C base (take 4 light_leave) st3 = Done _).
  { unfold light_leave, st3, st2, x1, v_file, with_item. cbn [app take JitItem.pc JitItem.xs JitItem.sp JitItem.mem lv vv fpcr zf vmem cf]. do 4 (one ltac:(rewrite ?V0, ?V2, ?V3, ?V4)). apply exec_nil. }
  assert (A3 : wrap 64 (sp - 96 + 96) = sp) by (rewrite wrap_small by (split; lia); lia). rewrite A3 in E.
  eapply run_fetched in E as [R4 _]; [|exact F3|reflexivity].
  match type of R4 with A64Run.reaches _ _ _ ?st4 => eassert (R5 : reaches st4 _) by (eapply step_fetched; [exact F4|reflexivity]) end.
  do 2 eexists. split; [eapply run_trans; [exact R1|]; eapply run_trans; [exact R2|]; eapply run_trans; [by exists n|]; eapply run_trans; [exact R4|exact R5]|].
  split; [reflexivity|]. split; [done|]. cbn [lv lmem]. split; [|split; [exact Eg|split; [done|split; [exact Hct|split]]]].
  - apply sim_build; try done. refine (proj2 (x_words base m Hbase Hmask _ _ _ _ _ _ _ _ _ _ _ _ _ _) (conj _ (conj _ _))).
    + pose proof (word32_lxor _ _ Wx W20). repeat (apply List.Forall_cons; [try assumption; unfold in_range in *; lia|]). apply List.Forall_nil.
    + repeat (apply List.Forall_cons; [assumption|]). apply List.Forall_nil.
    + repeat (apply List.Forall_cons; [assumption|]). apply List.Forall_nil.
  - intros b Hb. rewrite Om by lia. apply O1. lia.
  - intros b. rewrite <- D1. symmetry. apply D3.
Qed.

Lemma line_words_store rl : file_wf rl -> line_words (store_registers rl) = rl.
Proof.
  intros [Hl Hw]. eight rl w0 w1 w2 w3 w4 w5 w6 w7. destruct rl; [|discriminate]. unfold line_words, store_registers. words_of Hw.
  cbn [seq fmap list_fmap concat Nat.mul Nat.add]. assert (T : forall v l, word64 v -> of_le (take 8 (le_bytes 8 v ++ l)) = v).
  { intros v l Hv. rewrite take_app_length' by (by rewrite length_le_bytes). by rewrite of_le_bytes, wrap_small. }
  repeat f_equal; rewrite ?(drop_app_ge (le_bytes 8 _)) by (rewrite length_le_bytes; lia); rewrite ?length_le_bytes; cbn [Nat.sub]; apply T; assumption.
Qed.

Lemma light_lines M low sp off cache ptr no_e24_pad e0 : fetched C Label.vm_instructions_end_light (light_asm off) -> target = Label.vm_instructions_end_light ->
  0 <= off <= 524287 * 64 -> off mod 64 = 0 ->
  cache_ready cache -> memory_blocks_ cache = 262144 -> Forall (fun p => program_ok (reciprocal_cache_ cache) p /\ size_ p <= 512) (programs_ cache) ->
  function_at no_e24_pad item_templates (reciprocal_cache_ cache) (programs_ cache) C e0 ->
  208 <= sp < 2 ^ 64 -> sp mod 16 = 0 -> low <= sp - 208 -> clear_pad base M -> (forall k, -208 <= k < 0 -> k mod 8 = 0 -> M (sp + k) <> None) ->
  (ptr mod 8 = 0 /\ 0 <= ptr /\ ptr + 2 ^ 28 <= 2 ^ 64) -> cache_at cache ptr M -> ptr + 2 ^ 28 <= low \/ sp <= ptr ->
  LineSource C base m config st (beside low sp M) sp ptr (fun ma => generate_dataset_item cache (wrap 32 (add64 off (Z.land ma align_mask) / 64))).
Proof.
  intros F Ht Ho O64 Hcr Hcb Hcp Hfn Hsp S16 Hlo Hcl Hmap Hptr Hca Hap ms c K mx ma bs Hs Hx Hp Esp Hbe K1 K9 Wx Wa El mix.
  destruct (line_mix_runs ms c K Hs Hp) as (ms1 & R1 & P1 & Hs1 & X20 & S1 & M1). fold mix in X20. rewrite Ht in P1.
  destruct (light_runs K c ms1 sp mx ma off cache ptr no_e24_pad e0 F Ho O64 Hcr Hcb Hcp Hfn Hs1 (x_wf_shaped _ Hx) P1 K9 Wx Wa) as (ms2 & rl & R2 & P2 & S2 & Hs2 & Eg & Hrl & Hct & Om & Dm);
    try done; rewrite ?M1, ?S1; try done.
  - rewrite X20. apply wrap32_range.
  - by apply (beside_clear _ _ _ _ _ Hbe).
  - intros k Hk K8 Hn. apply (be_domain _ _ _ _ Hbe) in Hn. by apply (Hmap k).
  - intros i line q Hi Hq E. assert (Hr : 8 * Z.of_nat q < 64) by lia. rewrite (be_same _ _ _ _ Hbe) by lia. by apply (Hca i line q).
  - lia.
  - destruct (read_address off ma Ho (proj1 Wa)) as (Ea & Y1 & Y2 & _). change kRandomXDatasetBytes with 2181038080 in Y2. change 0x7fffffc0 with align_mask in Ea, Y1, Y2.
    cbv beta in El. rewrite Ea, wrap_small, Eg in El by (split; [apply Z.div_pos; lia|apply Z.div_lt_upper_bound; lia]). injection El as <-.
    rewrite X20 in Hs2. exists ms2, (sp - 96). split; [by eapply run_trans|]. split; [done|]. split; [done|]. split; [done|]. rewrite M1 in Om, Dm. split.
    + constructor; [intros b Hb; rewrite Om by lia; by apply Hbe|]. intros b. rewrite Dm. apply Hbe.
    + rewrite (line_words_store _ Hrl). split; [apply Hrl|]. intros i Hi. apply load_mapped; [apply Hx| | |lia|plia].
      * intros b B1 B2. apply Dm. by apply (beside_clear _ _ _ _ _ Hbe Hcl).
      * replace i with (Z.of_nat (Z.to_nat i)) at 1 by lia. apply Hct, list_lookup_lookup_total_lt. rewrite (proj1 Hrl). lia.
Qed.
End lines.
