(* ===== verification/JitHybrid.v ===== *)
(** * Dataset lines with a partial dataset

    The entry point [vm_instructions_end_hybrid] of src/src/jit_compiler_a64_static.S: a line of the partial
    dataset is copied below the stack pointer, any other is derived there by the dataset item function. *)

From stdpp Require Import list.
From S2P Require Import Prelude RandomX Float Bytecode BytecodeSafety BytecodeTermination BytecodeStale Argon2 Dataset Vm.
From S2P Require Import Superscalar SuperscalarGen JitSuper.
From S2P Require Import Footprint JitSchedule JitEquiv A64 JitDataset JitItem A64Vec JitEmit JitLayout JitWords JitValues JitVmRun JitVmSim JitVmFloat JitVmEquiv JitItemEquiv.
From S2P Require Import A64Loop JitTemplate JitGenerate A64Run JitLoop JitEntry JitLines.

(** ** A frame below the stack pointer *)

Section frame.
Context (base : Z) (pad : list Z) (Hpad : Z.of_nat (length pad) = 2 ^ 21) (sp depth : Z) (Hsp : 0 <= depth <= sp /\ sp < 2 ^ 64 /\ sp mod 8 = 0).

Definition frame (mm : memory) : Prop := clear_pad base mm /\ forall k, - depth <= k < 0 -> k mod 8 = 0 -> mm (sp + k) <> None.
Lemma frame_put mm k v : frame mm -> - depth <= k < 0 -> k mod 8 = 0 -> frame (put mm (sp + k) v).
Proof. intros [H1 H2] Hk K8. split; [apply clear_put; auto|]. intros j Hj J8. apply put_mapped. auto. Qed.
Lemma frame_store mm k v : frame mm -> - depth <= k < 0 -> k mod 8 = 0 -> store_at base pad mm (wrap 64 (sp + k)) v = Done (pad, put mm (sp + k) v).
Proof. intros [H1 H2] Hk K8. apply store_mapped; [done|done|auto|lia|plia]. Qed.
Lemma frame_domain mm k v : frame mm -> - depth <= k < 0 -> k mod 8 = 0 -> forall b, put mm (sp + k) v b = None <-> mm b = None.
Proof. intros [_ H2] Hk K8. apply put_domain. auto. Qed.
Lemma frame_load mm k v : frame mm -> - depth <= k < 0 -> k mod 8 = 0 -> mm (sp + k) = Some v -> load_at base pad mm (wrap 64 (sp + k)) = Done v.
Proof. intros [H1 _] Hk K8 E. apply load_mapped; [done|done|done|lia|plia]. Qed.
End frame.

(** ** The pieces *)

Definition hybrid_before (off : Z) : list ins := hybrid_enter ++ [More (AND_w 2 2 align_mask)] ++ light_v1 ++ hybrid_item ++ offset_asm off.
Definition hybrid_copy : list ins := Eval cbv [hybrid_hit take] in take 11 hybrid_hit.
Definition hybrid_restore : list ins := Eval cbv [hybrid_leave take] in take 5 hybrid_leave.
Lemma hybrid_parts off : hybrid_asm off = hybrid_before off ++ hybrid_check ++ (hybrid_copy ++ [Reg (B (50636 - 50620))]) ++
  (take 2 hybrid_miss ++ [More (BL (CodeSize - 50632))]) ++ hybrid_restore ++ [Reg (B (50020 - 50656))].
Proof. reflexivity. Qed.

Section pieces.
Context (C : list Z) (base : Z) (pad : list Z) (Hpad : Z.of_nat (length pad) = 2 ^ 21) (sp : Z) (Hsp : 0 <= 224 <= sp /\ sp < 2 ^ 64 /\ sp mod 8 = 0).

(** The registers saved at [sp]. *)
Definition hybrid_saved (x0 x1 x2 x30 x16 x17 : Z) (mm : memory) : memory :=
  put (put (put (put (put (put mm (sp + -48) x0) (sp + -40) x1) (sp + -32) x2) (sp + -24) x30) (sp + -16) x16) (sp + -8) x17.

Ltac in_frame := repeat (apply (frame_put base sp 224); [|lia|reflexivity]); assumption.
Ltac store_frame := repeat match goal with |- context [store_at base pad ?mm (wrap 64 (sp + ?k)) ?v] =>
  rewrite (frame_store base pad Hpad sp 224 Hsp mm k v) by (in_frame || lia || reflexivity) end.

Lemma hybrid_before_run off x0 x1 x2 x3 x4 x5 x6 x7 x8 x9 x10 x11 x12 x13 x14 x15 x16 x17 x18 x19 x20 x21 x22 x23 x24 x25 x26 x27 x28 x29 x30 vs fp z cc mm : frame base sp 224 mm ->
  exec_all C base (hybrid_before off) (mkLoop (mkVec 50508 [x0; x1; x2; x3; x4; x5; x6; x7; x8; x9; x10; x11; x12; x13; x14; x15; x16; x17; x18; x19; x20; x21; x22; x23; x24; x25; x26; x27; x28; x29; x30] vs fp z pad) sp cc mm) =
  Done (mkLoop (mkVec 50556 [x0; x1; add64 (add64 (bits (Z.land (wrap 32 (bits x9 32 (64 - 32))) align_mask) 6 (64 - 6)) (off / 64 mod 4096)) (off / 64 / 4096 * 4096); x3; x4; x5; x6; x7; x8; wrap 64 (Z.shiftr (Z.lxor x9 (shl64 x20 0) * 2 ^ 64 + Z.lxor x9 (shl64 x20 0)) 32); x10; x11; x12; x13; x14; x15; x16; x17; x18; x19; x20; x21; x22; x23; x24; x25; x26; x27; x28; x29; x30]
    vs fp z pad) (wrap 64 (sp + -112)) cc (hybrid_saved x0 x1 x2 x30 x16 x17 mm)).
Proof.
  intros Hf. unfold hybrid_before, hybrid_enter, light_v1, hybrid_item, offset_asm. cbn [app]. do 12 (one ltac:(idtac; store_frame)). rewrite exec_nil. reflexivity.
Qed.

Lemma hybrid_restore_run x0 x1 x2 x3 x4 x5 x6 x7 x8 x9 x10 x11 x12 x13 x14 x15 x16 x17 x18 x19 x20 x21 x22 x23 x24 x25 x26 x27 x28 x29 x30 vs fp z cc mm y0 y1 y2 y30 y16 y17 : frame base sp 224 mm ->
  mm (sp + -48) = Some y0 -> mm (sp + -40) = Some y1 -> mm (sp + -32) = Some y2 -> mm (sp + -24) = Some y30 -> mm (sp + -16) = Some y16 -> mm (sp + -8) = Some y17 ->
  exec_all C base hybrid_restore (mkLoop (mkVec 50636 [x0; x1; x2; x3; x4; x5; x6; x7; x8; x9; x10; x11; x12; x13; x14; x15; x16; x17; x18; x19; x20; x21; x22; x23; x24; x25; x26; x27; x28; x29; x30] vs fp z pad) (sp + -112) cc mm) =
  Done (mkLoop (mkVec 50656 [y0; y1; y2; x3; x4; x5; x6; x7; x8; x9; sp + -112; x11; x12; x13; x14; x15; y16; y17; x18; x19; x20; x21; x22; x23; x24; x25; x26; x27; x28; x29; y30]
    vs fp z pad) (wrap 64 (sp + 0)) cc mm).
Proof.
  intros Hf E0 E1 E2 E3 E4 E5.
  assert (L : forall k v, - 224 <= k < 0 -> k mod 8 = 0 -> mm (sp + k) = Some v -> load_at base pad mm (wrap 64 (sp + -112 + (112 + k))) = Done v).
  { intros k v Hk K8 E. replace (sp + -112 + (112 + k)) with (sp + k) by lia. by apply (frame_load base pad Hpad sp 224). }
  apply L in E0; [|lia|reflexivity]. apply L in E1; [|lia|reflexivity]. apply L in E2; [|lia|reflexivity]. apply L in E3; [|lia|reflexivity]. apply L in E4; [|lia|reflexivity]. apply L in E5; [|lia|reflexivity].
  change (112 + -48) with 64 in E0. change (112 + -40) with 72 in E1. change (112 + -32) with 80 in E2. change (112 + -24) with 88 in E3. change (112 + -16) with 96 in E4. change (112 + -8) with 104 in E5.
  unfold hybrid_restore. do 5 (one ltac:(rewrite ?E0, ?E1, ?E2, ?E3, ?E4, ?E5)). rewrite exec_nil. replace (sp + 0) with (sp + -112 + 112) by lia. reflexivity.
Qed.

(** A line copied. *)
Definition copied (w0 w1 w2 w3 w4 w5 w6 w7 : Z) (mm : memory) : memory :=
  put (put (put (put (put (put (put (put mm (sp + -112) w0) (sp + -104) w1) (sp + -96) w2) (sp + -88) w3) (sp + -80) w4) (sp + -72) w5) (sp + -64) w6) (sp + -56) w7.

Lemma hybrid_copy_run x0 x1 x2 x3 x4 x5 x6 x7 x8 x9 x10 x11 x12 x13 x14 x15 x16 x17 x18 x19 x20 x21 x22 x23 x24 x25 x26 x27 x28 x29 x30 vs fp z cc mm mr data w0 w1 w2 w3 w4 w5 w6 w7 : frame base sp 224 mm ->
  load_at base pad mm (wrap 64 (sp + -112 + 152)) = Done mr -> load_at base pad mm (wrap 64 (mr + 16)) = Done data ->
  let line := add64 data (shl64 x2 6) in line + 64 <= sp - 224 \/ sp <= line -> 0 <= line -> line + 64 <= 2 ^ 64 ->
  (forall i, 0 <= i < 8 -> load_at base pad mm (wrap 64 (line + 8 * i)) = Done ([w0; w1; w2; w3; w4; w5; w6; w7] !!! Z.to_nat i)) ->
  exec_all C base hybrid_copy (mkLoop (mkVec 50576 [x0; x1; x2; x3; x4; x5; x6; x7; x8; x9; x10; x11; x12; x13; x14; x15; x16; x17; x18; x19; x20; x21; x22; x23; x24; x25; x26; x27; x28; x29; x30] vs fp z pad) (sp + -112) cc mm) =
  Done (mkLoop (mkVec 50620 [w7; x1; x2; x3; x4; x5; x6; x7; x8; x9; x10; x11; x12; x13; x14; x15; line; w6; x18; x19; x20; x21; x22; x23; x24; x25; x26; x27; x28; x29; x30]
    vs fp z pad) (sp + -112) cc (copied w0 w1 w2 w3 w4 w5 w6 w7 mm)).
Proof.
  intros Hf E0 E1 line Ho H0 H1 L.
  assert (St : forall m' k v, frame base sp 224 m' -> 0 <= k < 112 -> k mod 8 = 0 -> store_at base pad m' (wrap 64 (sp + -112 + k)) v = Done (pad, put m' (sp + (-112 + k)) v)).
  { intros m' k v Hm Hk K8. replace (sp + -112 + k) with (sp + (-112 + k)) by lia. apply (frame_store base pad Hpad sp 224 Hsp); [done|lia|plia]. }
  assert (Sk : forall m' j v k, -224 <= j < 0 -> 0 <= k < 64 -> load_at base pad (put m' (sp + j) v) (wrap 64 (line + k)) = load_at base pad m' (wrap 64 (line + k))).
  { intros m' j v k Hj Hk. rewrite wrap_small by (split; lia). unfold load_at. destruct (_ && _); [done|]. unfold load, put. destruct (Z.eqb_spec (line + k) (sp + j)); [lia|done]. }
  pose proof (L 0 ltac:(lia) : load_at base pad mm (wrap 64 (line + 0)) = Done w0) as L0.
  pose proof (L 1 ltac:(lia) : load_at base pad mm (wrap 64 (line + 8)) = Done w1) as L1.
  pose proof (L 2 ltac:(lia) : load_at base pad mm (wrap 64 (line + 16)) = Done w2) as L2.
  pose proof (L 3 ltac:(lia) : load_at base pad mm (wrap 64 (line + 24)) = Done w3) as L3.
  pose proof (L 4 ltac:(lia) : load_at base pad mm (wrap 64 (line + 32)) = Done w4) as L4.
  pose proof (L 5 ltac:(lia) : load_at base pad mm (wrap 64 (line + 40)) = Done w5) as L5.
  pose proof (L 6 ltac:(lia) : load_at base pad mm (wrap 64 (line + 48)) = Done w6) as L6.
  pose proof (L 7 ltac:(lia) : load_at base pad mm (wrap 64 (line + 56)) = Done w7) as L7.
  clear L. unfold hybrid_copy. do 2 (one ltac:(rewrite ?E0, ?E1)). one idtac. fold line. clearbody line. clear E0 E1.
  do 8 (one ltac:(rewrite ?Sk by lia; rewrite ?L0, ?L1, ?L2, ?L3, ?L4, ?L5, ?L6, ?L7;
    repeat match goal with |- context [store_at base pad ?mm (wrap 64 (sp + -112 + ?k)) ?v] => rewrite (St mm k v) by (in_frame || lia || reflexivity) end)).
  rewrite exec_nil. reflexivity.
Qed.

Ltac outside b := repeat match goal with |- context [b =? ?q] => destruct (Z.eqb_spec b q); [lia|] end.
Ltac domain := repeat (rewrite (frame_domain base sp 224) by (in_frame || lia || reflexivity)).
Ltac slot := repeat (rewrite (put_skip sp) by reflexivity); apply put_same.

Lemma saved_facts x0 x1 x2 x30 x16 x17 mm : frame base sp 224 mm -> let m1 := hybrid_saved x0 x1 x2 x30 x16 x17 mm in
  frame base sp 224 m1 /\ (forall b, b < sp - 48 \/ sp <= b -> m1 b = mm b) /\ same_domain mm m1 /\
  m1 (sp + -48) = Some x0 /\ m1 (sp + -40) = Some x1 /\ m1 (sp + -32) = Some x2 /\ m1 (sp + -24) = Some x30 /\ m1 (sp + -16) = Some x16 /\ m1 (sp + -8) = Some x17.
Proof.
  intros Hf m1. unfold m1, hybrid_saved. split; [in_frame|]. split; [intros b Hb; unfold put; outside b; done|]. split; [intros b; domain; done|].
  split_and!; slot.
Qed.

Lemma copied_facts w0 w1 w2 w3 w4 w5 w6 w7 mm : frame base sp 224 mm -> let m1 := copied w0 w1 w2 w3 w4 w5 w6 w7 mm in
  frame base sp 224 m1 /\ (forall b, b < sp - 112 \/ sp - 48 <= b -> m1 b = mm b) /\ same_domain mm m1 /\
  forall q, 0 <= q < 8 -> m1 (sp + -112 + 8 * q) = Some ([w0; w1; w2; w3; w4; w5; w6; w7] !!! Z.to_nat q).
Proof.
  intros Hf m1. unfold m1, copied. split; [in_frame|]. split; [intros b Hb; unfold put; outside b; done|]. split; [intros b; domain; done|].
  intros q Hq. rewrite <- Z.add_assoc. assert (E : q = 0 \/ q = 1 \/ q = 2 \/ q = 3 \/ q = 4 \/ q = 5 \/ q = 6 \/ q = 7) by lia.
  destruct E as [->|[->|[->|[->|[->|[->|[->| ->]]]]]]]; cbn [Z.add Z.mul Z.opp Pos.mul Pos.add Pos.succ]; lazymatch goal with |- context [sp + ?k] => let k' := eval vm_compute in k in change k with k' end; slot.
Qed.

(** The bound check. *)
Lemma hybrid_check_runs x0 x1 x2 x3 x4 x5 x6 x7 x8 x9 x10 x11 x12 x13 x14 x15 x16 x17 x18 x19 x20 x21 x22 x23 x24 x25 x26 x27 x28 x29 x30 vs fp z cc mm mr items : fetched C 50556 hybrid_check ->
  load_at base pad mm (wrap 64 (sp + -112 + 152)) = Done mr -> 0 <= mr /\ mr + 32 <= 2 ^ 64 /\ mr mod 8 = 0 -> load_at base pad mm (wrap 64 (mr + 24)) = Done items ->
  0 <= items < 2 ^ 32 -> 0 <= x2 ->
  exists z' cc', A64Run.reaches C base (mkLoop (mkVec 50556 [x0; x1; x2; x3; x4; x5; x6; x7; x8; x9; x10; x11; x12; x13; x14; x15; x16; x17; x18; x19; x20; x21; x22; x23; x24; x25; x26; x27; x28; x29; x30] vs fp z pad) (sp + -112) cc mm)
    (mkLoop (mkVec (if x2 <? items then 50576 else 50624) [x0; x1; x2; x3; x4; x5; x6; x7; x8; x9; x10; x11; x12; x13; x14; x15; items; x17; x18; x19; x20; x21; x22; x23; x24; x25; x26; x27; x28; x29; x30]
      vs fp z' pad) (sp + -112) cc' mm).
Proof.
  intros F E0 (M0 & M1 & M8) E1 Hi H2.
  assert (Q : wrap 64 (mr + 24) = mr + 24) by (apply wrap_small; split; lia). rewrite Q in E1.
  assert (Q4 : (mr + 24) mod 4 = 0) by plia. assert (Q8 : (mr + 24) mod 8 = 0) by plia.
  assert (Qb : bits items 0 32 = items) by (unfold bits; rewrite Z.div_1_r, Z.mod_small by lia; done).
  change hybrid_check with ([ldr 16 SP 152; More (LDR_w 16 16 24)] ++ [More (CBZ_w 16 (50624 - 50564))] ++ [More (CMP 2 16)] ++ [More (B_hs (50624 - 50572))]) in F.
  apply fetched_split in F as [F1 F]. apply fetched_split in F as [F2 F]. apply fetched_split in F as [F3 F4].
  lazymatch goal with |- exists z' cc', A64Run.reaches _ _ ?s _ => eassert (E : exec_all C base [ldr 16 SP 152; More (LDR_w 16 16 24)] s = Done _);
    [one ltac:(rewrite E0); one ltac:(rewrite ?Q, ?Q4, ?Q8, ?Z.sub_0_r, ?E1); apply exec_nil|] end.
  change (8 * 0) with 0 in E. rewrite Qb in E. eapply run_fetched in E as [R1 _]; [|exact F1|reflexivity].
  assert (Qw : (wrap 32 items =? 0) = (items =? 0)) by (by rewrite wrap_small by done).
  match type of R1 with A64Run.reaches _ _ _ ?s => set (st1 := s) in * end.
  assert (E2 : exec_ins C base (More (CBZ_w 16 (50624 - 50564))) st1 = Done (if items =? 0 then jump (50624 - 50564) st1 else advance st1)).
  { unfold st1 at 1. cbn [exec_ins exec_more lv vx]. change (xget _ 16) with items. by rewrite Qw. }
  pose proof (step_fetched C base _ st1 _ F2 E2) as R2. destruct (Z.eqb_spec items 0) as [Ez|Ez].
  { exists z, cc. destruct (Z.ltb_spec x2 items); [lia|]. exact (run_trans _ _ _ _ _ R1 R2). }
  set (st2 := advance st1) in *. assert (R3 : A64Run.reaches C base st2 (advance (put_flags x2 items st2))) by (eapply step_fetched; [exact F3|reflexivity]).
  set (st3 := advance (put_flags x2 items st2)) in *.
  assert (R4 : A64Run.reaches C base st3 (if items <=? x2 then jump (50624 - 50572) st3 else advance st3)) by (eapply step_fetched; [exact F4|reflexivity]).
  eexists _, _. eapply run_trans; [exact R1|]. eapply run_trans; [exact R2|]. eapply run_trans; [exact R3|].
  destruct (Z.leb_spec items x2), (Z.ltb_spec x2 items); try lia; exact R4.
Qed.

(** An item derived. *)
Lemma hybrid_miss_runs cache no_e24_pad e0 x0 x1 x2 x3 x4 x5 x6 x7 x8 x9 x10 x11 x12 x13 x14 x15 x16 x17 x18 x19 x20 x21 x22 x23 x24 x25 x26 x27 x28 x29 x30 vs fp z cc mm :
  fetched C 50624 (take 2 hybrid_miss ++ [More (BL (CodeSize - 50632))]) ->
  cache_ready cache -> memory_blocks_ cache = 262144 -> Forall (fun p => program_ok (reciprocal_cache_ cache) p /\ size_ p <= 512) (programs_ cache) ->
  function_at no_e24_pad item_templates (reciprocal_cache_ cache) (programs_ cache) C e0 ->
  Words [x0; x1; x2; x3; x4; x5; x6; x7; x8; x9; x10; x11; x12; x13; x14; x15; x16; x17; x18; x19; x20; x21; x22; x23; x24; x25; x26; x27; x28; x29; x30] -> frame base sp 224 mm ->
  (x1 mod 8 = 0 /\ 0 <= x1 /\ x1 + 2 ^ 28 <= 2 ^ 64) -> cache_at cache x1 mm -> x1 + 2 ^ 28 <= sp - 224 \/ sp <= x1 ->
  exists rl m', A64Run.reaches C base (mkLoop (mkVec 50624 [x0; x1; x2; x3; x4; x5; x6; x7; x8; x9; x10; x11; x12; x13; x14; x15; x16; x17; x18; x19; x20; x21; x22; x23; x24; x25; x26; x27; x28; x29; x30] vs fp z pad) (sp + -112) cc mm)
      (mkLoop (mkVec 50636 [x1; sp + -112; x2; x3; x4; x5; x6; x7; x8; x9; x10; x11; x12; x13; x14; x15; x16; x17; x18; x19; x20; x21; x22; x23; x24; x25; x26; x27; x28; x29; 50636]
        vs fp z pad) (sp + -112) cc m') /\
    generate_dataset_item cache x2 = Done (store_registers rl) /\ file_wf rl /\ contains m' (sp + -112) rl /\
    (forall b, b < sp - 224 \/ sp - 48 <= b -> m' b = mm b) /\ same_domain mm m'.
Proof.
  intros F Hcr Hcb Hcp Hfn W [Hcl Hmap] Hptr Hca Hap. apply fetched_split in F as [F1 F2].
  assert (W1 : word64 x1) by (unfold in_range; lia). assert (A0 : Z.lor 0 (shl64 x1 0) = x1) by (rewrite Z.lor_0_l, shl64_0 by done; done).
  lazymatch goal with |- exists rl m', A64Run.reaches _ _ ?s _ /\ _ => eassert (E : exec_all C base (take 2 hybrid_miss) s = Done _);
    [unfold hybrid_miss; cbn [take]; do 2 (one idtac); apply exec_nil|] end.
  rewrite A0 in E. eapply run_fetched in E as [R1 _]; [|exact F1|reflexivity].
  set (xs1 := [x1; sp + -112; x2; x3; x4; x5; x6; x7; x8; x9; x10; x11; x12; x13; x14; x15; x16; x17; x18; x19; x20; x21; x22; x23; x24; x25; x26; x27; x28; x29; 50636]
    ). set (st2 := mkLoop (mkVec CodeSize xs1 vs fp z pad) (sp + -112) cc mm).
  match type of R1 with A64Run.reaches _ _ _ ?st1 => assert (R2 : A64Run.reaches C base st1 st2) by (eapply step_fetched; [exact F2|reflexivity]) end.
  assert (Hm1 : machine xs1).
  { split; [reflexivity|]. words_of W. unfold xs1. repeat (apply List.Forall_cons; [first [assumption | unfold in_range; lia]|]). apply List.Forall_nil. }
  assert (Hcall : JitItemEquiv.call cache x1 (sp + -112) x2 (sp - 224) xs1 mm).
  { constructor; [done|done|done|done| | |lia].
    - split; [plia|]. split; [lia|]. split; [lia|]. intros q Hq. replace (sp + -112 + 8 * Z.of_nat q) with (sp + (8 * Z.of_nat q - 112)) by lia.
      apply not_eq_None_Some, Hmap; [lia|plia].
    - split; [plia|]. split; [lia|]. split; [lia|]. intros q Hq. replace (sp - 224 + 8 * Z.of_nat q) with (sp + (8 * Z.of_nat q - 224)) by lia.
      apply not_eq_None_Some, Hmap; [lia|plia]. }
  destruct (function_runs cache no_e24_pad C e0 x1 (sp + -112) x2 (sp - 224) xs1 mm Hcr Hcb Hcp Hfn Hcall) as (rl & m' & Eg & Hrl & [n En] & Hct & Om).
  replace (sp - 224 + 112) with (sp + -112) in En, Om by lia. change (xget xs1 30) with 50636 in En.
  assert (Hpt : apart base st2). { intros q Hq. unfold in_pad in Hq. cbn [lv vmem st2] in Hq. rewrite Hpad in Hq. apply Hcl; blia. }
  destruct (loop_item n C base st2 _ Hpt En) as [R3 D3]. exists rl, m'. split; [|split; [done|split; [done|split; [done|split; [|exact D3]]]]].
  - eapply run_trans; [exact R1|]. eapply run_trans; [exact R2|]. exists n. exact R3.
  - intros b Hb. apply Om; lia.
Qed.
End pieces.

(** ** The line *)

(** The first [items] items of the dataset in memory at [data]. *)
Definition partial_at (cache : Argon2dCache) (mm : memory) (data items : Z) : Prop :=
  forall i bs q, 0 <= i < items -> 0 <= q < 8 -> generate_dataset_item cache i = Done bs -> mm (data + 64 * i + 8 * q) = Some (line_words bs !!! Z.to_nat q).

(** What the entry point finds in memory: the cache at [ptr], and [mem_regs] at [mr] with the partial dataset. *)
Record hybrid_memory (base : Z) (cache : Argon2dCache) (low sp ptr mr data items : Z) (mm : memory) : Prop := mkHybridMemory {
  hm_frame : frame base sp 224 mm /\ low <= sp - 224;
  hm_cache : (ptr mod 8 = 0 /\ 0 <= ptr /\ ptr + 2 ^ 28 <= 2 ^ 64) /\ cache_at cache ptr mm /\ (ptr + 2 ^ 28 <= low \/ sp <= ptr);
  hm_mem_regs : mm (sp + 40) = Some mr /\ (0 <= mr /\ mr + 32 <= 2 ^ 64 /\ mr mod 8 = 0) /\ (mr + 32 <= low \/ sp <= mr) /\
    mm (mr + 16) = Some data /\ mm (mr + 24) = Some items;
  hm_partial : 0 <= items < 2 ^ 32 /\ (0 < items -> (data mod 8 = 0 /\ 0 <= data /\ data + 64 * items <= 2 ^ 64) /\ (data + 64 * items <= low \/ sp <= data)) /\
    partial_at cache mm data items;
}.

Lemma hybrid_beside base cache low sp ptr mr data items M mm : 0 <= sp -> hybrid_memory base cache low sp ptr mr data items M -> beside low sp M mm ->
  hybrid_memory base cache low sp ptr mr data items mm.
Proof.
  intros Hsp [[[Hcl Hmap] Hlow] (Hptr & Hca & Hap) (M0 & M1 & M2 & M3 & M4) (I0 & I1 & I2)] [Same Dom]. constructor.
  - split; [|done]. split; [intros b B1 B2; apply Dom; by apply Hcl|]. intros k Hk K8 Hn. apply Dom in Hn. by apply (Hmap k).
  - split; [done|]. split; [|done]. intros i line q Hi Hq E. assert (Hr : 8 * Z.of_nat q < 64) by lia. rewrite Same by lia. by apply (Hca i line q).
  - rewrite !Same by lia. done.
  - split; [done|]. split; [done|]. intros i bs q Hi Hq E. destruct I1 as [_ I1]; [lia|]. rewrite Same by lia. by apply I2.
Qed.

Section hybrid.
Context (C : list Z) (base : Z) (m : Z * Z) (config : ProgramConfiguration) (st : emission) (target : Z).
Context (Hcode : loop_code config target st C) (Hconfig : config_wf config).
Context (Hbase : 0 <= base /\ base + 2 ^ 21 <= 2 ^ 64) (Hmask : e_or_ok m.1 /\ e_or_ok m.2).
Context (cache : Argon2dCache) (no_e24_pad : bool) (e0 off low sp ptr mr data items : Z).
Context (F : fetched C Label.vm_instructions_end_hybrid (hybrid_asm off)) (Ho : 0 <= off <= 524287 * 64) (O64 : off mod 64 = 0).
Context (Hcr : cache_ready cache) (Hcb : memory_blocks_ cache = 262144).
Context (Hcp : Forall (fun p => program_ok (reciprocal_cache_ cache) p /\ size_ p <= 512) (programs_ cache)).
Context (Hfn : function_at no_e24_pad item_templates (reciprocal_cache_ cache) (programs_ cache) C e0).
Context (Hsp : 0 <= 224 <= sp /\ sp + 48 < 2 ^ 64 /\ sp mod 8 = 0).

Abbreviation sim := (JitVmSim.sim C base m).
Abbreviation reaches := (A64Run.reaches C base).

Lemma hybrid_runs K c ms mx ma bs : sim K c (lv ms) -> shaped c -> vpc (lv ms) = Label.vm_instructions_end_hybrid -> lsp ms = sp ->
  hybrid_memory base cache low sp ptr mr data items (lmem ms) ->
  K 9 = mx + ma * 2 ^ 32 -> word32 mx -> word32 ma -> word32 (xget (vx (lv ms)) 20) -> K 1 = ptr ->
  generate_dataset_item cache ((off + Z.land ma align_mask) / 64) = Done bs ->
  exists ms', reaches ms ms' /\ vpc (lv ms') = Label.xor_with_dataset_line /\ lsp ms' = sp /\
    sim (upd (upd K 9 (ma + Z.lxor mx (xget (vx (lv ms)) 20) * 2 ^ 32)) 10 (sp + -112)) c (lv ms') /\
    line_at base (scratchpad_ c) (lmem ms') (sp + -112) (line_words bs) /\
    (forall b, b < sp - 224 \/ sp <= b -> lmem ms' b = lmem ms b) /\ forall b, lmem ms' b = None <-> lmem ms b = None.
Proof.
  intros Hs Hx Hp Esp [[Hfr Hlow] (Hptr & Hca & Hap) (M0 & M1 & M2 & M3 & M4) (I0 & I1 & I2)] K9 Wx Wa W20 K1 Eg. destruct ms as [s sp0 cc mem]. cbn [lv lsp lmem] in *. subst sp0.
  pose proof (proj1 (sh_mem _ Hx)) as Hpad. pose proof (proj1 Hfr) as Hcl.
  destruct (sim_literal C base m Hbase Hmask K c s Hs Hx) as (x0 & x11 & x18 & x19 & x20 & x21 & x22 & x23 & x24 & x25 & x26 & x27 & x28 & x29 & x30 &
    v0 & v1 & v2 & v3 & v4 & v5 & v6 & v7 & v8 & v9 & v10 & v11 & v12 & v13 & v14 & v15 & v28 & r0 & r1 & r2 & r3 & r4 & r5 & r6 & r7 &
    f0 & f1 & f2 & f3 & ee0 & e1 & e2 & e3 & a0 & a1 & a2 & a3 & pad & md & fe & pc & fp & z & -> & -> & W & P & Hmd & Hfe & Hfp).
  clear Hs. cbn [vpc fpcr scratchpad_ fe_round reg_ r f e a vx] in *. subst pc. change (word32 x20) in W20. change (xget (x_file _ _ _ _ _ _ _ _ _ _ _ _ _ _ _) 20) with x20.
  set (vs := v_file m _ _ _ _ v28) in *. assert (Hsp' : 0 <= 224 <= sp /\ sp < 2 ^ 64 /\ sp mod 8 = 0) by lia.
  pose proof F as F'. rewrite hybrid_parts in F'. apply fetched_split in F' as [F1 F']. apply fetched_split in F' as [F2 F']. apply fetched_split in F' as [F3 F'].
  apply fetched_split in F' as [F4 F']. apply fetched_split in F' as [F5 F6]. apply fetched_split in F3 as [F3 F3b].
  pose proof W as W'. apply (x_words base m Hbase Hmask) in W' as (Wg & Wr & Wl). words_of Wg. words_of Wr. words_of Wl.
  set (item := (off + Z.land ma align_mask) / 64) in *.
  assert (A2 : add64 (add64 (bits (Z.land (wrap 32 (bits (K 9) 32 (64 - 32))) align_mask) 6 (64 - 6)) (off / 64 mod 4096)) (off / 64 / 4096 * 4096) = item).
  { rewrite K9. change (64 - 32) with 32. change (64 - 6) with 58. rewrite (high_half _ _ Wx Wa), wrap_small by done. by apply item_number. }
  assert (A9 : wrap 64 (Z.shiftr (Z.lxor (K 9) (shl64 x20 0) * 2 ^ 64 + Z.lxor (K 9) (shl64 x20 0)) 32) = ma + Z.lxor mx x20 * 2 ^ 32).
  { rewrite shl64_0, K9, (xor_low _ _ _ Wx W20) by done. apply swap_halves; [by apply word32_lxor|done]. }
  assert (A1 : wrap 64 (sp + -112) = sp + -112) by (apply wrap_small; split; lia).
  pose proof (hybrid_before_run C base pad Hpad sp Hsp' off x0 (K 1) base (K 3) r0 r1 r2 r3 (md * 2 ^ 40) (K 9) (K 10) x11 r4 r5 r6 r7 (K 16) (K 17) x18 x19 x20
    x21 x22 x23 x24 x25 x26 x27 x28 x29 x30 vs fp z cc mem Hfr) as E. rewrite A1, A2, A9 in E. set (mem1 := hybrid_saved _ _ _ _ _ _ _ mem) in *.
  set (x9 := ma + Z.lxor mx x20 * 2 ^ 32) in *.
  eapply run_fetched in E as [R1 _]; [|exact F1|reflexivity].
  destruct (saved_facts base pad sp x0 (K 1) base x30 (K 16) (K 17) mem Hfr) as (Hf1 & O1 & D1 & Q0 & Q1 & Q2 & Q3 & Q4 & Q5). fold mem1 in Hf1, O1, D1, Q0, Q1, Q2, Q3, Q4, Q5.
  (* the way out *)
  assert (Fin : forall y0 y1 y16 y17 y30 z2 cc2 m2, frame base sp 224 m2 -> (forall b, sp - 48 <= b < sp -> m2 b = mem1 b) -> exists ms',
    reaches (mkLoop (mkVec 50636 [y0; y1; item; K 3; r0; r1; r2; r3; md * 2 ^ 40; x9; K 10; x11; r4; r5; r6; r7; y16; y17; x18; x19; x20; x21; x22; x23; x24; x25; x26; x27; x28; x29; y30]
      vs fp z2 pad) (sp + -112) cc2 m2) ms' /\ vpc (lv ms') = Label.xor_with_dataset_line /\ lsp ms' = sp /\ lmem ms' = m2 /\
    sim (upd (upd K 9 x9) 10 (sp + -112)) (mkX (mkRegisterFile [r0; r1; r2; r3; r4; r5; r6; r7] [f0; f1; f2; f3] [ee0; e1; e2; e3] [a0; a1; a2; a3]) pad md fe) (lv ms')).
  { intros y0 y1 y16 y17 y30 z2 cc2 m2 Hf2 Hk.
    pose proof (hybrid_restore_run C base pad Hpad sp Hsp' y0 y1 item (K 3) r0 r1 r2 r3 (md * 2 ^ 40) x9 (K 10) x11 r4 r5 r6 r7 y16 y17 x18 x19 x20
      x21 x22 x23 x24 x25 x26 x27 x28 x29 y30 vs fp z2 cc2 m2 x0 (K 1) base x30 (K 16) (K 17) Hf2 ltac:(by rewrite Hk by lia) ltac:(by rewrite Hk by lia)
      ltac:(by rewrite Hk by lia) ltac:(by rewrite Hk by lia) ltac:(by rewrite Hk by lia) ltac:(by rewrite Hk by lia)) as E.
    rewrite Z.add_0_r, (wrap_small 64 sp) in E by (split; lia). eapply run_fetched in E as [R _]; [|exact F5|reflexivity].
    match type of R with A64Run.reaches _ _ _ ?s1 => eassert (Rb : reaches s1 _) by (eapply step_fetched; [exact F6|reflexivity]) end.
    eexists. split; [exact (run_trans _ _ _ _ _ R Rb)|]. split; [reflexivity|]. split; [done|]. split; [done|]. cbn [lv].
    apply sim_build; try done. refine (proj2 (x_words base m Hbase Hmask _ _ _ _ _ _ _ _ _ _ _ _ _ _) (conj _ (conj _ _))).
    - pose proof (word32_lxor _ _ Wx W20). repeat (apply List.Forall_cons; [first [assumption | unfold x9, in_range in *; lia]|]). apply List.Forall_nil.
    - repeat (apply List.Forall_cons; [assumption|]). apply List.Forall_nil.
    - repeat (apply List.Forall_cons; [assumption|]). apply List.Forall_nil. }
  (* the bound check *)
  assert (Lo : forall b v, mem b = Some v -> (b < sp - 48 \/ sp <= b) -> 0 <= b < 2 ^ 64 -> b mod 8 = 0 -> load_at base pad mem1 (wrap 64 b) = Done v).
  { intros b v Eb Hb Hr Hb8. apply load_mapped; [done|apply Hf1|by rewrite O1|done|done]. }
  assert (E0 : load_at base pad mem1 (wrap 64 (sp + -112 + 152)) = Done mr) by (replace (sp + -112 + 152) with (sp + 40) by lia; apply Lo; [done|lia|lia|plia]).
  assert (E1 : load_at base pad mem1 (wrap 64 (mr + 24)) = Done items) by (apply Lo; [done|lia|lia|plia]).
  assert (Hitem : 0 <= item < 2 ^ 32).
  { destruct (read_address off ma Ho (proj1 Wa)) as (_ & Y1 & Y2 & _). change kRandomXDatasetBytes with 2181038080 in Y2. change 0x7fffffc0 with align_mask in Y1, Y2.
    unfold item. split; [apply Z.div_pos; lia|apply Z.div_lt_upper_bound; lia]. }
  destruct (hybrid_check_runs C base pad sp x0 (K 1) item (K 3) r0 r1 r2 r3 (md * 2 ^ 40) x9 (K 10) x11 r4 r5 r6 r7 (K 16) (K 17) x18 x19 x20
    x21 x22 x23 x24 x25 x26 x27 x28 x29 x30 vs fp z cc mem1 mr items F2 E0 M1 E1 I0 (proj1 Hitem)) as (z1 & cc1 & R2).
  destruct (Z.ltb_spec item items) as [Hit|Hmiss].
  - destruct I1 as [(I8 & I9 & I10) I11]; [lia|].
    assert (Al : add64 data (shl64 item 6) = data + 64 * item).
    { unfold add64, shl64. rewrite Z.shiftl_mul_pow2 by lia. change (2 ^ 6) with 64. rewrite (wrap_small 64 (item * 64)), wrap_small; [lia|split; lia..]. }
    assert (Hw : forall q, 0 <= q < 8 -> mem (data + 64 * item + 8 * q) = Some (line_words bs !!! Z.to_nat q)) by (intros q Hq; exact (I2 item bs q ltac:(lia) Hq Eg)).
    assert (Hl : length (line_words bs) = 8%nat) by reflexivity. set (ws := line_words bs) in *. clearbody ws. eight ws w0 w1 w2 w3 w4 w5 w6 w7. destruct ws; [|discriminate].
    assert (Ed : load_at base pad mem1 (wrap 64 (mr + 16)) = Done data) by (apply Lo; [done|lia|lia|plia]).
    pose proof (hybrid_copy_run C base pad Hpad sp Hsp' x0 (K 1) item (K 3) r0 r1 r2 r3 (md * 2 ^ 40) x9 (K 10) x11 r4 r5 r6 r7 items (K 17) x18 x19 x20
      x21 x22 x23 x24 x25 x26 x27 x28 x29 x30 vs fp z1 cc1 mem1 mr data w0 w1 w2 w3 w4 w5 w6 w7 Hf1 E0 Ed) as E. cbv zeta in E. rewrite Al in E.
    specialize (E ltac:(lia) ltac:(lia) ltac:(lia)).
    lapply E; [clear E; intros E|intros q Hq; apply Lo; [by apply Hw|lia|lia|plia]].
    eapply run_fetched in E as [R3 _]; [|exact F3|reflexivity].
    match type of R3 with A64Run.reaches _ _ _ ?s1 => eassert (R4 : reaches s1 _) by (eapply step_fetched; [exact F3b|reflexivity]) end.
    destruct (copied_facts base pad sp w0 w1 w2 w3 w4 w5 w6 w7 mem1 Hf1) as (Hf2 & O2 & D2 & V2). set (mem2 := copied sp w0 w1 w2 w3 w4 w5 w6 w7 mem1) in *.
    destruct (Fin w7 (K 1) (data + 64 * item) w6 x30 z1 cc1 mem2 Hf2 ltac:(intros b Hb; apply O2; lia)) as (ms' & R5 & P5 & S5 & Em & Hs5).
    exists ms'. split; [eapply run_trans; [exact R1|]; eapply run_trans; [exact R2|]; eapply run_trans; [exact R3|]; eapply run_trans; [exact R4|exact R5]|].
    split; [done|]. split; [done|]. split; [done|]. rewrite Em. split; [|split].
    + split; [done|]. intros q Hq. apply load_mapped; [done|apply Hf2|by apply V2|lia|plia].
    + intros b Hb. rewrite O2 by lia. apply O1. lia.
    + intros b. rewrite <- (D2 b). symmetry. apply D1.
  - assert (Hca1 : cache_at cache (K 1) mem1).
    { rewrite K1. intros i line q Hi Hq El. assert (Hr : 8 * Z.of_nat q < 64) by lia. rewrite O1 by lia. by apply (Hca i line q). }
    rewrite <- K1 in Hptr, Hap. assert (W9 : word64 x9) by (pose proof (word32_lxor _ _ Wx W20); unfold x9, in_range in *; lia).
    edestruct (hybrid_miss_runs C base pad Hpad sp Hsp' cache no_e24_pad e0 x0 (K 1) item (K 3) r0 r1 r2 r3 (md * 2 ^ 40) x9 (K 10) x11 r4 r5 r6 r7 items (K 17) x18 x19 x20
      x21 x22 x23 x24 x25 x26 x27 x28 x29 x30 vs fp z1 cc1 mem1 F4 Hcr Hcb Hcp Hfn) as (rl & m2 & R3 & Eg' & Hrl & Hct & O2 & D2); try done.
    { repeat (apply List.Forall_cons; [first [assumption | unfold in_range in *; lia]|]). apply List.Forall_nil. }
    { lia. }
    rewrite Eg' in Eg. injection Eg as <-.
    assert (Hf2 : frame base sp 224 m2).
    { split; [intros b B1 B2; apply D2; by apply (proj1 Hf1)|]. intros k Hk K8 Hn. apply D2 in Hn. by apply (proj2 Hf1 k). }
    destruct (Fin (K 1) (sp + -112) items (K 17) 50636 z1 cc1 m2 Hf2 ltac:(intros b Hb; apply O2; lia)) as (ms' & R5 & P5 & S5 & Em & Hs5).
    exists ms'. split; [eapply run_trans; [exact R1|]; eapply run_trans; [exact R2|]; eapply run_trans; [exact R3|exact R5]|].
    split; [done|]. split; [done|]. split; [done|]. rewrite Em, (line_words_store _ Hrl). split; [|split].
    + split; [apply Hrl|]. intros q Hq. apply load_mapped; [done|apply Hf2| |lia|plia].
      replace q with (Z.of_nat (Z.to_nat q)) at 1 by lia. apply Hct, list_lookup_lookup_total_lt. rewrite (proj1 Hrl). lia.
    + intros b Hb. rewrite O2 by lia. apply O1. lia.
    + intros b. rewrite <- (D2 b). symmetry. apply D1.
Qed.

Lemma hybrid_lines M : target = Label.vm_instructions_end_hybrid -> hybrid_memory base cache low sp ptr mr data items M ->
  LineSource C base m config st (beside low sp M) sp ptr (fun ma => generate_dataset_item cache (wrap 32 (add64 off (Z.land ma align_mask) / 64))).
Proof.
  intros Ht HM ms c K mx ma bs Hs Hx Hp Esp Hbe K1 K9 Wx Wa El mix.
  destruct (line_mix_runs C base m config st target Hcode Hconfig ms c K Hs Hp) as (ms1 & R1 & P1 & Hs1 & X20 & S1 & M1). fold mix in X20. rewrite Ht in P1.
  destruct (read_address off ma Ho (proj1 Wa)) as (Ea & Y1 & Y2 & _). change kRandomXDatasetBytes with 2181038080 in Y2. change 0x7fffffc0 with align_mask in Ea, Y1, Y2.
  cbv beta in El. rewrite Ea, wrap_small in El by (split; [apply Z.div_pos; lia|apply Z.div_lt_upper_bound; lia]).
  destruct (hybrid_runs K c ms1 mx ma bs Hs1 (x_wf_shaped _ Hx) P1) as (ms2 & R2 & P2 & S2 & Hs2 & Hl & Om & Dm); try done.
  - by rewrite S1.
  - rewrite M1. apply (hybrid_beside base cache low sp ptr mr data items M); [lia|done|done].
  - rewrite X20. apply wrap32_range.
  - rewrite X20 in Hs2. rewrite M1 in Om, Dm. exists ms2, (sp + -112). split; [by eapply run_trans|]. split; [done|]. split; [done|]. split; [done|]. split; [|done].
    pose proof (proj2 (hm_frame _ _ _ _ _ _ _ _ _ HM)) as Hlow. constructor; [intros b Hb; rewrite Om by lia; by apply Hbe|]. intros b. rewrite Dm. apply Hbe.
Qed.
End hybrid.
