(* ===== verification/JitRun.v ===== *)
(** * The compiled function

    [randomx_program_aarch64] (src/src/jit_compiler_a64_static.S) from its first instruction to its return: the
    entry (JitEntry.v), the 2048 turns of the loop (JitLoop.v), the register file stored and the callee-saved
    registers restored. *)

From stdpp Require Import list.
From S2P Require Import Prelude RandomX Float Bytecode BytecodeSafety BytecodeTermination BytecodeStale Argon2 Dataset Vm.
From S2P Require Import Footprint JitSchedule JitEquiv A64 JitDataset JitItem A64Vec JitEmit JitLayout JitWords JitValues JitVmRun JitVmSim JitVmFloat JitVmEquiv.
From S2P Require Import A64Loop JitTemplate JitGenerate A64Run JitLoop JitEntry.

(** ** Leaving the loop *)

Definition exit_body : list ins := Eval cbv [exit_asm take] in take 22 exit_asm.
Lemma exit_parts : exit_asm = exit_body ++ [Pair (RET 30)].
Proof. reflexivity. Qed.

Lemma exit_body_run C base rf (y d : Z -> Z) x0 x1 x2 x3 x4 x5 x6 x7 x8 x9 x10 x11 x12 x13 x14 x15 x16 x17 x18 x19 x20 x21 x22 x23 x24 x25 x26 x27 x28 x29 x30
    v0 v1 v2 v3 v4 v5 v6 v7 v8 v9 v10 v11 v12 v13 v14 v15 v16 v17 v18 v19 v20 v21 v22 v23 v24 v25 v26 v27 v28 v29 v30 v31 fp z pd sp cc mm mm' :
  stores_at base pd mm rf 0 [x4; x5; x6; x7; x12; x13; x14; x15; lo v16; hi v16; lo v17; hi v17; lo v18; hi v18; lo v19; hi v19; lo v20; hi v20; lo v21; hi v21; lo v22; hi v22; lo v23; hi v23] = Done (pd, mm') ->
  load_at base pd mm (wrap 64 (sp + 0)) = Done rf ->
  (forall n k, In (n, k) saved_x -> load_at base pd mm' (wrap 64 (sp + (208 + k))) = Done (y n)) ->
  (forall n k, In (n, k) saved_d -> load_at base pd mm' (wrap 64 (sp + (208 + k))) = Done (d n)) ->
  exec_all C base exit_body (mkLoop (mkVec 50344 [x0; x1; x2; x3; x4; x5; x6; x7; x8; x9; x10; x11; x12; x13; x14; x15; x16; x17; x18; x19; x20; x21; x22; x23; x24; x25; x26; x27; x28; x29; x30] [v0; v1; v2; v3; v4; v5; v6; v7; v8; v9; v10; v11; v12; v13; v14; v15; v16; v17; v18; v19; v20; v21; v22; v23; v24; v25; v26; v27; v28; v29; v30; v31] fp z pd) sp cc mm) =
  Done (mkLoop (mkVec 50432 [rf; x1; x2; x3; x4; x5; x6; x7; y 8; x9; x10; x11; x12; x13; x14; x15; y 16; y 17; x18; y 19; y 20; y 21; y 22; y 23; y 24; y 25; y 26; y 27; y 28; y 29; y 30]
    [v0; v1; v2; v3; v4; v5; v6; v7; mkFloat (d 8) 0; mkFloat (d 9) 0; mkFloat (d 10) 0; mkFloat (d 11) 0; mkFloat (d 12) 0; mkFloat (d 13) 0; mkFloat (d 14) 0; mkFloat (d 15) 0; v16; v17; v18; v19; v20; v21; v22; v23; v24; v25; v26; v27; v28; v29; v30; v31] fp z pd) (wrap 64 (sp + 208)) cc mm').
Proof.
  intros Hst H0 Hy Hd.
  pose proof (Hy 16 (-192) ltac:(cbn; tauto) : load_at base pd mm' (wrap 64 (sp + 16)) = Done (y 16)) as Y16.
  pose proof (Hy 17 (-184) ltac:(cbn; tauto) : load_at base pd mm' (wrap 64 (sp + 24)) = Done (y 17)) as Y17.
  pose proof (Hy 19 (-176) ltac:(cbn; tauto) : load_at base pd mm' (wrap 64 (sp + 32)) = Done (y 19)) as Y19.
  pose proof (Hy 20 (-160) ltac:(cbn; tauto) : load_at base pd mm' (wrap 64 (sp + 48)) = Done (y 20)) as Y20.
  pose proof (Hy 21 (-152) ltac:(cbn; tauto) : load_at base pd mm' (wrap 64 (sp + 56)) = Done (y 21)) as Y21.
  pose proof (Hy 22 (-144) ltac:(cbn; tauto) : load_at base pd mm' (wrap 64 (sp + 64)) = Done (y 22)) as Y22.
  pose proof (Hy 23 (-136) ltac:(cbn; tauto) : load_at base pd mm' (wrap 64 (sp + 72)) = Done (y 23)) as Y23.
  pose proof (Hy 24 (-128) ltac:(cbn; tauto) : load_at base pd mm' (wrap 64 (sp + 80)) = Done (y 24)) as Y24.
  pose proof (Hy 25 (-120) ltac:(cbn; tauto) : load_at base pd mm' (wrap 64 (sp + 88)) = Done (y 25)) as Y25.
  pose proof (Hy 26 (-112) ltac:(cbn; tauto) : load_at base pd mm' (wrap 64 (sp + 96)) = Done (y 26)) as Y26.
  pose proof (Hy 27 (-104) ltac:(cbn; tauto) : load_at base pd mm' (wrap 64 (sp + 104)) = Done (y 27)) as Y27.
  pose proof (Hy 28 (-96) ltac:(cbn; tauto) : load_at base pd mm' (wrap 64 (sp + 112)) = Done (y 28)) as Y28.
  pose proof (Hy 29 (-88) ltac:(cbn; tauto) : load_at base pd mm' (wrap 64 (sp + 120)) = Done (y 29)) as Y29.
  pose proof (Hy 8 (-80) ltac:(cbn; tauto) : load_at base pd mm' (wrap 64 (sp + 128)) = Done (y 8)) as Y8.
  pose proof (Hy 30 (-72) ltac:(cbn; tauto) : load_at base pd mm' (wrap 64 (sp + 136)) = Done (y 30)) as Y30.
  pose proof (Hd 8 (-64) ltac:(cbn; tauto) : load_at base pd mm' (wrap 64 (sp + 144)) = Done (d 8)) as D8.
  pose proof (Hd 9 (-56) ltac:(cbn; tauto) : load_at base pd mm' (wrap 64 (sp + 152)) = Done (d 9)) as D9.
  pose proof (Hd 10 (-48) ltac:(cbn; tauto) : load_at base pd mm' (wrap 64 (sp + 160)) = Done (d 10)) as D10.
  pose proof (Hd 11 (-40) ltac:(cbn; tauto) : load_at base pd mm' (wrap 64 (sp + 168)) = Done (d 11)) as D11.
  pose proof (Hd 12 (-32) ltac:(cbn; tauto) : load_at base pd mm' (wrap 64 (sp + 176)) = Done (d 12)) as D12.
  pose proof (Hd 13 (-24) ltac:(cbn; tauto) : load_at base pd mm' (wrap 64 (sp + 184)) = Done (d 13)) as D13.
  pose proof (Hd 14 (-16) ltac:(cbn; tauto) : load_at base pd mm' (wrap 64 (sp + 192)) = Done (d 14)) as D14.
  pose proof (Hd 15 (-8) ltac:(cbn; tauto) : load_at base pd mm' (wrap 64 (sp + 200)) = Done (d 15)) as D15.
  clear Hy Hd. unfold exit_body.
  destruct v16 as [l16 h16], v17 as [l17 h17], v18 as [l18 h18], v19 as [l19 h19], v20 as [l20 h20], v21 as [l21 h21], v22 as [l22 h22], v23 as [l23 h23].
  cbn [lo hi] in Hst. one ltac:(rewrite H0). split_stores Hst.
  do 8 (one ltac:(idtac; store_block)). do 13 (one ltac:(rewrite ?Y16, ?Y17, ?Y19, ?Y20, ?Y21, ?Y22, ?Y23, ?Y24, ?Y25, ?Y26, ?Y27, ?Y28, ?Y29, ?Y8, ?Y30, ?D8, ?D9, ?D10, ?D11, ?D12, ?D13, ?D14, ?D15)). rewrite exec_nil, wrap_add_wrap. reflexivity.
Qed.

(** The words of the register file that the function stores. *)
Definition file_words (c : xstate) : list Z := r (reg_ c) ++ float_words_of (f (reg_ c)) ++ float_words_of (e (reg_ c)).

(** What a function that returns leaves: the callee-saved registers, the stack pointer and the address it returns to. *)
Record restored (S : Z) (xs : list Z) (vs : list FloatRegister) (ms : loop_state) : Prop := mkRestored {
  rs_pc : vpc (lv ms) = xget xs 30;
  rs_sp : lsp ms = S;
  rs_x : Forall (fun n => xget (vx (lv ms)) n = xget xs n) [19; 20; 21; 22; 23; 24; 25; 26; 27; 28; 29];
  rs_d : Forall (fun n => lo (vget (vv (lv ms)) n) = lo (vget vs n)) [8; 9; 10; 11; 12; 13; 14; 15];
}.

Section leave.
Context (C : list Z) (base : Z) (m : Z * Z) (config : ProgramConfiguration) (st : emission) (target : Z).
Context (Hcode : loop_code config target st C).
Context (Hbase : 0 <= base /\ base + 2 ^ 21 <= 2 ^ 64) (Hmask : e_or_ok m.1 /\ e_or_ok m.2).

Lemma exit_runs K c ms S rf mr xs vs : sim C base m K c (lv ms) -> shaped c -> vpc (lv ms) = Label.v1_FE_mix + 40 -> lsp ms = S - 208 ->
  saved S rf mr xs vs (lmem ms) -> clear_pad base (lmem ms) -> 208 <= S < 2 ^ 64 -> S mod 16 = 0 ->
  0 <= rf /\ rf + 256 <= 2 ^ 64 /\ rf mod 8 = 0 -> (forall i, 0 <= i < 24 -> lmem ms (rf + 8 * i) <> None) -> rf + 256 <= S - 208 \/ S <= rf ->
  exists ms', reaches C base ms ms' /\ restored S xs vs ms' /\ vmem (lv ms') = scratchpad_ c /\ fpcr (lv ms') = fpcr (lv ms) /\
    (forall i, 0 <= i < 24 -> lmem ms' (rf + 8 * i) = Some (file_words c !!! Z.to_nat i)) /\
    forall b, b < rf \/ rf + 192 <= b -> lmem ms' b = lmem ms b.
Proof.
  intros Hs Hx Hp Hsp [Sx Sd [S0 _]] Hcl HS S16 (F1 & F2 & F3) Hm Hap. pose proof (proj1 (sh_mem _ Hx)) as Lm.
  destruct ms as [s sp cc mm]. cbn [lv lsp lmem] in *. subst sp. set (sp := S - 208) in *.
  assert (Lw : length (file_words c) = 24%nat).
  { destruct Hx as [Lr Lf Le _ _]. unfold file_words, float_words_of. rewrite !length_app, Lr.
    destruct (f (reg_ c)) as [|? [|? [|? [|? [|]]]]]; try discriminate Lf. destruct (e (reg_ c)) as [|? [|? [|? [|? [|]]]]]; try discriminate Le. done. }
  destruct (mem_stores base (scratchpad_ c) Lm mm rf 0 (file_words c)) as (mm' & Est & Hc' & _ & Hv & Ho);
    [done|lia|lia|by rewrite Z.add_0_r|rewrite Lw, Z.add_0_r; exact Hm|]. rewrite Lw, Z.add_0_r in *.
  assert (Hld : forall k v, -208 <= k < 0 -> k mod 8 = 0 -> mm (S + k) = Some v -> load_at base (scratchpad_ c) mm' (wrap 64 (sp + (208 + k))) = Done v).
  { intros k v Hk K8 Ek. replace (sp + (208 + k)) with (S + k) by (unfold sp; lia). apply load_mapped; [done|done| |lia|plia]. rewrite Ho by lia. exact Ek. }
  assert (H0 : load_at base (scratchpad_ c) mm (wrap 64 (sp + 0)) = Done rf).
  { apply load_mapped; [done|done| |unfold sp; lia|unfold sp; plia]. by replace (sp + 0) with (S + -208) by (unfold sp; lia). }
  assert (Hy : forall n k, In (n, k) saved_x -> load_at base (scratchpad_ c) mm' (wrap 64 (sp + (208 + k))) = Done (xget xs n)).
  { intros n k Hin. assert (Hk : -208 <= k < 0 /\ k mod 8 = 0) by (cbn in Hin; repeat (destruct Hin as [[= <- <-]|Hin]; [done|]); destruct Hin).
    apply Hld; [apply Hk..|]. rewrite List.Forall_forall in Sx. exact (Sx _ Hin). }
  assert (Hd : forall n k, In (n, k) saved_d -> load_at base (scratchpad_ c) mm' (wrap 64 (sp + (208 + k))) = Done (lo (vget vs n))).
  { intros n k Hin. assert (Hk : -208 <= k < 0 /\ k mod 8 = 0) by (cbn in Hin; repeat (destruct Hin as [[= <- <-]|Hin]; [done|]); destruct Hin).
    apply Hld; [apply Hk..|]. rewrite List.Forall_forall in Sd. exact (Sd _ Hin). }
  destruct (sim_literal C base m Hbase Hmask K c s Hs Hx) as (x0 & x11 & x18 & x19 & x20 & x21 & x22 & x23 & x24 & x25 & x26 & x27 & x28 & x29 & x30 &
    v0 & v1 & v2 & v3 & v4 & v5 & v6 & v7 & v8 & v9 & v10 & v11 & v12 & v13 & v14 & v15 & v28 & r0 & r1 & r2 & r3 & r4 & r5 & r6 & r7 &
    f0 & f1 & f2 & f3 & e0 & e1 & e2 & e3 & a0 & a1 & a2 & a3 & pad & md & fe & pc & fp & z & -> & -> & _).
  clear Hs. cbn [vpc fpcr scratchpad_] in *. subst pc.
  pose proof (exit_body_run C base rf (xget xs) (fun n => lo (vget vs n)) x0 (K 1) base (K 3) r0 r1 r2 r3 (md * 2 ^ 40) (K 9) (K 10) x11 r4 r5 r6 r7
    (K 16) (K 17) x18 x19 x20 x21 x22 x23 x24 x25 x26 x27 x28 x29 x30 v0 v1 v2 v3 v4 v5 v6 v7 v8 v9 v10 v11 v12 v13 v14 v15 f0 f1 f2 f3 e0 e1 e2 e3 a0 a1 a2 a3
    v28 (mkFloat e_and e_and) (mkFloat m.1 m.2) (mkFloat scale_mask scale_mask) fp z pad sp cc mm mm' Est H0 Hy Hd) as R.
  pose proof (lc_finish _ _ _ _ Hcode) as Hf. rewrite exit_parts, app_assoc in Hf. apply fetched_split in Hf as [Hf Fr]. apply fetched_split in Hf as [_ Fb].
  destruct (run_fetched C base exit_body (mkLoop (mkVec 50344 _ _ fp z pad) sp cc mm) _ Fb eq_refl R) as [Rb _].
  match type of Rb with reaches _ _ _ ?st1 => pose proof (step_fetched C base (Pair (RET 30)) st1 _ Fr eq_refl) as Rr end.
  eexists. split; [exact (run_trans _ _ _ _ _ Rb Rr)|]. clear Rb Rr R Fb Fr.
  split; [constructor; cbn [lv lsp with_vec vpc vx vv]|].
  - reflexivity.
  - rewrite wrap_small by (unfold sp; split; lia). unfold sp. lia.
  - repeat (apply List.Forall_cons; [reflexivity|]). apply List.Forall_nil.
  - repeat (apply List.Forall_cons; [reflexivity|]). apply List.Forall_nil.
  - split; [done|]. split; [done|]. split; [exact Hv|exact Ho].
Qed.
End leave.

(** ** The whole function *)

Section whole.
Context (C : list Z) (base : Z) (m : Z * Z) (config : ProgramConfiguration) (st : emission) (target : Z).
Context (Hcode : loop_code config target st C) (HbC : Bytes C) (Hconfig : config_wf config).
Context (Hbase : 0 <= base /\ base + 2 ^ 21 <= 2 ^ 64) (Hmask : e_or_ok m.1 /\ e_or_ok m.2).
Context (bc : list InstructionByteCode).
Context (Hprogram : forall x x', x_wf x -> execute_bytecode m bc x = Done x' -> forall K ms, sim C base m K x ms -> vpc ms = PrologueSize ->
  exists ms', leads C base ms ms' /\ vpc ms' = st.2 /\ sim C base m K x' ms').
Context (S depth rf mr ptr : Z) (mem0 : memory) (line : Z -> outcome (list Z)).
Context (Hsource : forall M, clear_pad base M -> (forall b, b < S - 208 \/ S <= b -> M b = mem0 b) -> (forall b, mem0 b <> None -> M b <> None) -> M (S + -168) = Some mr ->
  LineSource C base m config st (beside (S - depth) (S - 208) M) (S - 208) ptr line).

Lemma zero_mix n : 0 <= n < 8 -> replicate 8 0 !!! Z.to_nat n = 0.
Proof. intros Hn. apply lookup_total_replicate_2. lia. Qed.

Lemma function_returns vm vm' b0 b1 xs vs z cc : let c := core_ vm in let c' := core_ vm' in
  call_memory base S depth rf mr m (a (reg_ c)) (mx_ vm) (ma_ vm) ptr mem0 ->
  (length xs = 31%nat /\ Words xs) -> length vs = 32%nat -> xget xs 0 = rf -> xget xs 1 = mr -> xget xs 2 = base -> xget xs 3 = 2048 -> word64 ptr ->
  vm_running vm -> same_setup m config line bc vm -> loop_inv (vm, mx_ vm, ma_ vm) -> r (reg_ c) = replicate 8 0 ->
  0 <= last_rounding_mode_ c < 4 -> fe_round c = rounding_of (last_rounding_mode_ c) ->
  ofoldl iteration (vm, mx_ vm, ma_ vm) (seqZ 0 2048) = Done (vm', b0, b1) ->
  exists ms, reaches C base (mkLoop (mkVec 0 xs vs (rbit64 (last_rounding_mode_ c * 2 ^ 40)) z (scratchpad_ c)) S cc mem0) ms /\
    restored S xs vs ms /\ vmem (lv ms) = scratchpad_ c' /\ fpcr (lv ms) = rbit64 (last_rounding_mode_ c' * 2 ^ 40) /\ fe_round c' = rounding_of (last_rounding_mode_ c') /\
    0 <= last_rounding_mode_ c' < 4 /\ a (reg_ c') = a (reg_ c) /\
    (forall i, 0 <= i < 24 -> lmem ms (rf + 8 * i) = Some (file_words c' !!! Z.to_nat i)) /\
    forall b, b < S - depth \/ S <= b -> b < rf \/ rf + 192 <= b -> lmem ms b = mem0 b.
Proof.
  intros c c' Hcall Hxs Hvs E0 E1 E2 E3 Wp Hvm Hset Hinv Hr Hmd Hfe Hrun. pose proof (vr_core _ Hvm) as Hx. fold c in Hx.
  destruct (vr_mx _ Hvm) as [Wmx Wma]. pose proof (proj1 (xw_mem _ Hx)) as Hpad. change kRandomXScratchpadBytes with (2 ^ 21) in Hpad.
  destruct (entry_runs C base m config st target Hcode HbC Hbase Hmask S depth rf mr (mx_ vm) (ma_ vm) ptr (a (reg_ c)) mem0 (scratchpad_ c) Hpad Hcall
    xs vs 2048 (last_rounding_mode_ c) z cc Hxs Hvs E0 E1 E2 E3 Wmx Wma Wp Hmd) as (ms1 & R1 & P1 & S1 & Sv & [Cl _] & Ho & Hd & fs & es & K & Lf & Le & Hs & K1 & K3 & K9 & K16 & K17).
  set (M := lmem ms1) in *. set (I := beside (S - depth) (S - 208) M).
  pose proof (Hsource M Cl Ho Hd (proj2 (sv_args _ _ _ _ _ _ Sv))) as HL. fold I in HL.
  assert (Hz : spMix config c = 0).
  { destruct Hconfig as (C0 & C1 & _). unfold spMix. rewrite Hr, !zero_mix by done. done. }
  assert (Hh : at_head C base m config I (S - 208) ptr vm (mx_ vm) (ma_ vm) (Z.of_nat (length (seqZ 0 2048))) ms1).
  { constructor; [done|done|apply beside_refl|]. exists fs, es, K. split; [done|]. split; [done|]. fold c. split; [|split; [done|split; [exact K3|split; [done|]]]].
    - unfold set_reg_file. rewrite Hfe, Hr. exact Hs.
    - unfold sp_first, sp_second. rewrite Hz, !line_mask, K16, K17. change (wrap 32 0) with 0. change (wrap 32 (Z.shiftr 0 32)) with 0. rewrite !Z.lxor_0_r.
      unfold bits, in_range in *. split; f_equal; plia. }
  destruct (turns C base m config st target Hcode Hbase Hmask I (S - 208) ptr line bc Hconfig Hprogram (seqZ 0 2048) vm _ _ ms1 vm' b0 b1 Hh Hset Hinv
    ltac:(rewrite length_seqZ; lia) ltac:(rewrite length_seqZ; lia) Hrun) as (Ha' & ms2 & R2 & [P2 S2 I2 (K2 & Hs2)]). fold c' in Hs2.
  assert (Hvm' : vm_running vm').
  { assert (H : returns loop_inv (ofoldl iteration (vm, mx_ vm, ma_ vm) (seqZ 0 2048))) by (apply ofoldl_inv_returns; [intros; by apply iteration_ok|done]).
    rewrite Hrun in H. exact (proj1 H). }
  pose proof (x_wf_shaped _ (vr_core _ Hvm')) as Hx'. fold c' in Hx'.
  destruct (cm_stack _ _ _ _ _ _ _ _ _ _ _ Hcall) as (D1 & D2 & D3 & _). destruct (cm_file _ _ _ _ _ _ _ _ _ _ _ Hcall) as (F1 & F2 & F3 & F4).
  destruct (cm_apart _ _ _ _ _ _ _ _ _ _ _ Hcall) as [A1 _]. destruct I2 as [Same Dom].
  assert (Sv2 : saved S rf mr xs vs (lmem ms2)).
  { destruct Sv as [X1 X2 [X3 X4]]. constructor; [| |rewrite !Same by lia; done].
    - revert X1. unfold saved_x. rewrite !list.Forall_cons, !list.Forall_nil. rewrite !Same by lia. tauto.
    - revert X2. unfold saved_d. rewrite !list.Forall_cons, !list.Forall_nil. rewrite !Same by lia. tauto. }
  destruct (exit_runs C base m config st target Hcode Hbase Hmask K2 c' ms2 S rf mr xs vs) as (ms3 & R3 & Hres & V3 & F & Hw & Ho3); try done.
  { by apply (beside_clear (S - depth) (S - 208) M). }
  { lia. }
  { intros i Hi Hn. apply Dom in Hn. by apply (Hd (rf + 8 * i)) in Hn; [|apply F4]. }
  { lia. }
  exists ms3. split; [eapply run_trans; [exact R1|eapply run_trans; [exact R2|exact R3]]|]. split; [done|]. split; [done|].
  destruct (si_mode _ _ _ _ _ _ Hs2) as (Q1 & Q2 & _ & Q3). split; [by rewrite F|]. split; [done|]. split; [done|]. split; [done|]. split; [done|].
  intros b Hb Hb'. rewrite Ho3 by done. rewrite Same by lia. apply Ho. lia.
Qed.
End whole.
