(* ===== verification/JitCall.v ===== *)
(** * Running a compiled program

    [run_jit] (src/src/vm.cpp): the program is compiled into the buffer, called with the register file, the
    memory registers and the scratchpad, and the registers are read back; against [run_interpreted]. *)

From stdpp Require Import list.
From S2P Require Import Prelude RandomX Float Bytecode BytecodeSafety BytecodeTermination BytecodeStale Argon2 Dataset Vm HashSim.
From S2P Require Import Footprint JitSchedule JitEquiv JitSim A64 JitDataset JitItem A64Vec JitEmit JitLayout JitWords JitValues JitVmRun JitVmSim JitVmFloat JitVmEquiv JitItemEquiv.
From S2P Require Import Superscalar SuperscalarGen JitSuper.
From S2P Require Import A64Loop JitTemplate JitGenerate A64Run JitLoop JitEntry JitLines JitHybrid JitRun.

(** ** The call *)

(** Where the thread's memory has the objects of the call, and the registers it is made with. *)
Record Host : Type := mkHost {
  scratchpad_at : Z;
  stack_at : Z;
  reg_at : Z;
  mem_regs_at : Z;
  memory_at : Z;  (* the cache's blocks, or the dataset *)
  link : Z;
  host_x : list Z;
  host_v : list FloatRegister;
  host_mem : memory;
}.

Fixpoint put_words (mem : memory) (p : Z) (ws : list Z) : memory :=
  match ws with [] => mem | w :: ws => put_words (put mem p w) (p + 8) ws end.
Fixpoint load_words (mem : memory) (p : Z) (n : nat) : outcome (list Z) :=
  match n with
  | O => Done []
  | S n => w ← load mem p; ws ← load_words mem (p + 8) n; Done (w :: ws)
  end.

Definition fpcr_of (fe : rounding) : Z :=
  match fe with ToNearest => 0 | Upward => 0x400000 | Downward => 0x800000 | TowardZero => 0xC00000 end.

(** The register file in memory, [eMask] copied over [reg_.f[0]]. *)
Definition reg_image (eMask : Z * Z) (rf : RegisterFile) : list Z :=
  r rf ++ float_words_of (mkFloat eMask.1 eMask.2 :: tail (f rf)) ++ float_words_of (e rf) ++ float_words_of (a rf).
Fixpoint floats_of (ws : list Z) : list FloatRegister :=
  match ws with x :: y :: ws => mkFloat x y :: floats_of ws | _ => [] end.
Definition reg_of (ws : list Z) : RegisterFile :=
  mkRegisterFile (take 8 ws) (floats_of (take 8 (drop 8 ws))) (floats_of (take 8 (drop 16 ws))) (floats_of (drop 24 ws)).

(** [mem_regs]: mx, ma, memory, partial_dataset_, partial_dataset_items_. *)
Definition mem_regs_image (mx ma memory partial_dataset_ partial_dataset_items_ : Z) : list Z :=
  [mx + ma * 2 ^ 32; memory; partial_dataset_; partial_dataset_items_].

Definition call_state (h : Host) (vm : VirtualMachine) (mem_regs : list Z) : loop_state :=
  let c := core_ vm in
  let xs := xset ([reg_at h; mem_regs_at h; scratchpad_at h; 2048] ++ drop 4 (host_x h)) 30 (link h) in
  let mem := put_words (put_words (host_mem h) (reg_at h) (reg_image (e_mask_ vm) (reg_ c))) (mem_regs_at h) mem_regs in
  mkLoop (mkVec 0 xs (host_v h) (fpcr_of (fe_round c)) false (scratchpad_ c)) (stack_at h) false mem.

(** Until the function returns. *)
Fixpoint call (fuel : nat) (C : list Z) (base ret : Z) (ms : loop_state) : outcome loop_state :=
  if vpc (lv ms) =? ret then Done ms else
  match fuel with
  | O => NoFuel
  | S fuel => ms ← loop_step C base ms; call fuel C base ret ms
  end.

(** What the compiler's other settings are ([use_dag], [swaps]), the addresses of the AES tables, whether the two
    changes of the pages' protection succeed, and the partial dataset with the count of its items, if there is one. *)
Record JitEnv : Type := mkEnv {
  use_dag : bool;
  swaps : Z;
  lut_enc : Z;
  lut_dec : Z;
  writable : bool;
  executable : bool;
  partial : option (Z * Z);
}.

Definition configuration (vm : VirtualMachine) : ProgramConfiguration :=
  mkConfiguration (e_mask_ vm) (read_reg0_ vm) (read_reg1_ vm) (read_reg2_ vm) (read_reg3_ vm).

(** The program, compiled for the machine's mode. *)
Definition jit_generate (env : JitEnv) (vm : VirtualMachine) (j : jit) : outcome jit :=
  if negb (is_fast_mode vm) then
    let useHybrid := match partial env with Some _ => true | None => false end in
    generateProgramLight (use_dag env) (swaps env) (lut_enc env) (lut_dec env) (program_ vm) (configuration vm) (wrap 32 (dataset_offset_ vm)) useHybrid j
  else generateProgram (use_dag env) (swaps env) (lut_enc env) (lut_dec env) (program_ vm) (configuration vm) j.

Definition jit_mem_regs (env : JitEnv) (h : Host) (vm : VirtualMachine) : list Z :=
  if negb (is_fast_mode vm) then
    let memory := match cache_ vm with Some _ => memory_at h | None => 0 end in
    match partial env with
    | Some (data, items) => mem_regs_image (mx_ vm) (ma_ vm) memory data items
    | None => mem_regs_image (mx_ vm) (ma_ vm) memory 0 0
    end
  else mem_regs_image (mx_ vm) (ma_ vm) (memory_at h + dataset_offset_ vm) 0 0.

(** [run_jit].  Two writes that nothing reads again are left out: [emitPrologueMix] reduces the register numbers of
    [program_] in place (here [normalize] is applied to the copy that is emitted; the next [run] overwrites
    [program_]), and [last_mem_regs_], which only the benchmark entry point [run_execute_only] reads. *)
Definition run_jit (fuel : nat) (env : JitEnv) (h : Host) (vm : VirtualMachine) (j : jit) : outcome (VirtualMachine * jit) :=
  if negb (writable env) then Throw (runtime_error "JIT: enableWriting (run) failed") else
  j ← jit_generate env vm j;
  if negb (executable env) then Throw (runtime_error "JIT: enableExecution (run) failed") else
  ms ← call fuel (code j) (scratchpad_at h) (link h) (call_state h vm (jit_mem_regs env h vm));
  ws ← load_words (lmem ms) (reg_at h) 32;
  fe ← fpcr_rounding (fpcr (lv ms));
  w ← load (lmem ms) (mem_regs_at h);
  let c := core_ vm in
  Done (set_mem_regs (wrap 32 w) (w / 2 ^ 32) (set_core (mkX (reg_of ws) (vmem (lv ms)) (last_rounding_mode_ c) fe) vm), j).

(** ** The call returns *)

Lemma loop_step_pc C base ms ms' : loop_step C base ms = Done ms' -> 0 <= vpc (lv ms) < Z.of_nat (length C).
Proof.
  unfold loop_step. intros H. apply bind_Done in H as (w & E & _). unfold read_le in E. apply bind_Done in E as (bs & E & _).
  revert E. unfold read_bytes. destruct (_ && _) eqn:Ec; [blia|done].
Qed.
Lemma call_returns C base ret ms ms' : reaches C base ms ms' -> vpc (lv ms') = ret -> ret < 0 \/ Z.of_nat (length C) <= ret ->
  exists n, forall fuel, (n <= fuel)%nat -> call fuel C base ret ms = Done ms'.
Proof.
  intros [n E] Hp Hr. exists n. revert ms E. induction n as [|n IH]; intros ms E fuel Hf; cbn [loop_run] in E.
  - injection E as ->. destruct fuel; cbn [call]; by rewrite Hp, Z.eqb_refl.
  - apply bind_Done in E as (ms1 & E1 & E). pose proof (loop_step_pc _ _ _ _ E1). destruct fuel as [|fuel]; [lia|]. cbn [call].
    destruct (Z.eqb_spec (vpc (lv ms)) ret); [lia|]. rewrite E1. cbn [mbind outcome_bind]. apply IH; [done|lia].
Qed.

(** ** Words in memory *)

Lemma put_words_other mem p ws b : b < p \/ p + 8 * Z.of_nat (length ws) <= b -> put_words mem p ws b = mem b.
Proof.
  revert mem p. induction ws as [|w ws IH]; intros mem p H; cbn [put_words length] in *; [done|]. rewrite IH by lia. unfold put.
  destruct (Z.eqb_spec b p); [lia|done].
Qed.
Lemma put_words_at mem p ws i : 0 <= i < Z.of_nat (length ws) -> put_words mem p ws (p + 8 * i) = Some (ws !!! Z.to_nat i).
Proof.
  revert mem p i. induction ws as [|w ws IH]; intros mem p i Hi; cbn [put_words length] in *; [lia|]. destruct (Z.eq_dec i 0) as [->|].
  - rewrite put_words_other by lia. unfold put. by rewrite Z.mul_0_r, Z.add_0_r, Z.eqb_refl.
  - replace (p + 8 * i) with (p + 8 + 8 * (i - 1)) by lia. rewrite IH by lia. by replace (Z.to_nat i) with (S (Z.to_nat (i - 1))) by lia.
Qed.
Lemma put_words_mapped mem p ws b : mem b <> None -> put_words mem p ws b <> None.
Proof. revert mem p. induction ws as [|w ws IH]; intros mem p H; cbn [put_words]; [done|]. by apply IH, put_mapped. Qed.
Lemma put_words_clear base mem p ws : clear_pad base mem -> (forall i, 0 <= i < Z.of_nat (length ws) -> mem (p + 8 * i) <> None) -> clear_pad base (put_words mem p ws).
Proof.
  revert mem p. induction ws as [|w ws IH]; intros mem p Hc Hm; cbn [put_words length] in *; [done|].
  pose proof (Hm 0 ltac:(lia)) as H0. rewrite Z.mul_0_r, Z.add_0_r in H0. apply IH; [by apply clear_put|].
  intros i Hi. apply put_mapped. replace (p + 8 + 8 * i) with (p + 8 * (i + 1)) by lia. apply Hm. lia.
Qed.
Lemma load_words_ok mem p ws : p mod 8 = 0 -> (forall i, 0 <= i < Z.of_nat (length ws) -> mem (p + 8 * i) = Some (ws !!! Z.to_nat i)) ->
  load_words mem p (length ws) = Done ws.
Proof.
  revert p. induction ws as [|w ws IH]; intros p H8 Hm; cbn [load_words length] in *; [done|].
  pose proof (Hm 0 ltac:(lia)) as H0. rewrite Z.mul_0_r, Z.add_0_r in H0. unfold load. rewrite H8, H0. cbn [Z.eqb negb mbind outcome_bind lookup_total list_lookup_total Z.to_nat].
  rewrite IH; [done|plia|]. intros i Hi. replace (p + 8 + 8 * i) with (p + 8 * (i + 1)) by lia. rewrite Hm by lia. by replace (Z.to_nat (i + 1)) with (S (Z.to_nat i)) by lia.
Qed.
Lemma floats_words fs : floats_of (float_words_of fs) = fs.
Proof. induction fs as [|[x y] fs IH]; [done|]. unfold float_words_of in *. rewrite fmap_cons. cbn [concat app floats_of lo hi]. by rewrite IH. Qed.
Lemma float_words_length fs : length (float_words_of fs) = (2 * length fs)%nat.
Proof. induction fs as [|x fs IH]; [done|]. unfold float_words_of in *. rewrite fmap_cons. cbn [concat]. rewrite length_app, IH. cbn [length]. lia. Qed.

Lemma reg_of_words c : length (r (reg_ c)) = 8%nat -> length (f (reg_ c)) = 4%nat -> length (e (reg_ c)) = 4%nat ->
  reg_of (file_words c ++ float_words_of (a (reg_ c))) = reg_ c.
Proof.
  intros Lr Lf Le. unfold reg_of, file_words. destruct (reg_ c) as [rs fs es fas]. cbn [r f e a] in *. eight rs r0 r1 r2 r3 r4 r5 r6 r7. destruct rs; [|discriminate].
  destruct fs as [|[] [|[] [|[] [|[] [|]]]]]; try discriminate. destruct es as [|[] [|[] [|[] [|[] [|]]]]]; try discriminate.
  f_equal. apply floats_words.
Qed.

(** ** Rounding modes *)

Definition mode_of (fe : rounding) : Z := match fe with ToNearest => 0 | Downward => 1 | Upward => 2 | TowardZero => 3 end.
Lemma mode_range fe : 0 <= mode_of fe < 4.
Proof. destruct fe; cbn; lia. Qed.
Lemma rounding_mode fe : rounding_of (mode_of fe) = fe.
Proof. by destruct fe. Qed.
Lemma fpcr_of_mode fe : fpcr_of fe = rbit64 (mode_of fe * 2 ^ 40).
Proof. destruct fe; vm_compute; reflexivity. Qed.
Lemma fpcr_rounding_mode md : 0 <= md < 4 -> fpcr_rounding (rbit64 (md * 2 ^ 40)) = Done (rounding_of md).
Proof. intros H. assert (E : md = 0 \/ md = 1 \/ md = 2 \/ md = 3) by lia. destruct E as [->|[->|[->| ->]]]; vm_compute; reflexivity. Qed.

(** ** The layout of the call *)

(** [depth] bytes of stack; the buffer is [len] bytes long, and the return address is not in it. *)
Record host_ok (h : Host) (depth len : Z) : Prop := mkHostOk {
  ho_pad : (0 <= scratchpad_at h /\ scratchpad_at h + 2 ^ 21 <= 2 ^ 64) /\ clear_pad (scratchpad_at h) (host_mem h);
  ho_stack : 208 <= depth <= stack_at h /\ stack_at h < 2 ^ 64 /\ stack_at h mod 16 = 0 /\
    forall k, - depth <= k < 0 -> k mod 8 = 0 -> host_mem h (stack_at h + k) <> None;
  ho_reg : 0 <= reg_at h /\ reg_at h + 256 <= 2 ^ 64 /\ reg_at h mod 8 = 0 /\ forall i, 0 <= i < 32 -> host_mem h (reg_at h + 8 * i) <> None;
  ho_mem_regs : 0 <= mem_regs_at h /\ mem_regs_at h + 32 <= 2 ^ 64 /\ mem_regs_at h mod 8 = 0 /\
    forall i, 0 <= i < 4 -> host_mem h (mem_regs_at h + 8 * i) <> None;
  ho_apart : (reg_at h + 256 <= stack_at h - depth \/ stack_at h <= reg_at h) /\
    (mem_regs_at h + 32 <= stack_at h - depth \/ stack_at h <= mem_regs_at h) /\
    (reg_at h + 256 <= mem_regs_at h \/ mem_regs_at h + 32 <= reg_at h);
  ho_registers : length (host_x h) = 31%nat /\ Words (host_x h) /\ length (host_v h) = 32%nat;
  ho_link : word64 (link h) /\ len <= link h;
}.

Section layout.
Context (h : Host) (depth len : Z) (Hhost : host_ok h depth len) (m : Z * Z) (rf : RegisterFile).
Context (Lr : length (r rf) = 8%nat) (Lf : length (f rf) = 4%nat) (Le : length (e rf) = 4%nat) (La : length (a rf) = 4%nat).

Lemma reg_image_length : length (reg_image m rf) = 32%nat.
Proof. unfold reg_image. rewrite !length_app, !float_words_length, Lr, Le, La. cbn [length]. rewrite length_tl, Lf. done. Qed.

Lemma reg_image_words : reg_image m rf !!! 8%nat = m.1 /\ reg_image m rf !!! 9%nat = m.2 /\
  forall i, 0 <= i < 8 -> reg_image m rf !!! Z.to_nat (24 + i) = float_words_of (a rf) !!! Z.to_nat i.
Proof.
  unfold reg_image. destruct rf as [rs fs es fas]. cbn [r f e a] in *. eight rs r0 r1 r2 r3 r4 r5 r6 r7. destruct rs; [|discriminate].
  destruct fs as [|[] [|[] [|[] [|[] [|]]]]]; try discriminate. destruct es as [|[] [|[] [|[] [|[] [|]]]]]; try discriminate.
  split; [done|]. split; [done|]. intros i Hi. replace (Z.to_nat (24 + i)) with (24 + Z.to_nat i)%nat by lia. done.
Qed.

Definition call_mem (mem_regs : list Z) : memory := put_words (put_words (host_mem h) (reg_at h) (reg_image m rf)) (mem_regs_at h) mem_regs.

Lemma call_mem_other mem_regs b : length mem_regs = 4%nat -> b < reg_at h \/ reg_at h + 256 <= b -> b < mem_regs_at h \/ mem_regs_at h + 32 <= b ->
  call_mem mem_regs b = host_mem h b.
Proof. intros L H1 H2. unfold call_mem. rewrite !put_words_other; [done|rewrite reg_image_length; lia|rewrite L; lia]. Qed.

Lemma host_call mx ma ptr pd items : call_memory (scratchpad_at h) (stack_at h) depth (reg_at h) (mem_regs_at h) m (a rf) mx ma ptr
  (call_mem (mem_regs_image mx ma ptr pd items)).
Proof.
  destruct Hhost as [[Hb Hcl] Hst (R1 & R2 & R3 & R4) (M1 & M2 & M3 & M4) (A1 & A2 & A3) _ _]. destruct reg_image_words as (W1 & W2 & W3).
  assert (Hrf : forall i, 0 <= i < 32 -> call_mem (mem_regs_image mx ma ptr pd items) (reg_at h + 8 * i) = Some (reg_image m rf !!! Z.to_nat i)).
  { intros i Hi. unfold call_mem. rewrite put_words_other by (cbn [length mem_regs_image]; lia). apply put_words_at. rewrite reg_image_length. lia. }
  constructor.
  - unfold call_mem. apply put_words_clear; [apply put_words_clear; [done|]|].
    + rewrite reg_image_length. exact R4.
    + intros i Hi. apply put_words_mapped. by apply M4.
  - destruct Hst as (S1 & S2 & S3 & S4). split; [done|]. split; [done|]. split; [done|]. intros k Hk K8. unfold call_mem. by apply put_words_mapped, put_words_mapped, S4.
  - split; [done|]. split; [done|]. split; [done|]. intros i Hi. rewrite Hrf by lia. done.
  - rewrite <- W1, <- W2. split; [exact (Hrf 8 ltac:(lia))|exact (Hrf 9 ltac:(lia))].
  - split; [done|]. intros i Hi. rewrite Hrf by lia. by rewrite W3.
  - split; [done|]. split; [done|]. split; [done|]. unfold call_mem.
    set (mem := put_words _ _ (reg_image m rf)). set (ws := mem_regs_image _ _ _ _ _).
    split; [|exact (put_words_at mem (mem_regs_at h) ws 1 ltac:(cbn; lia))].
    pose proof (put_words_at mem (mem_regs_at h) ws 0 ltac:(cbn; lia)) as E. by rewrite Z.mul_0_r, Z.add_0_r in E.
  - done.
Qed.
End layout.

Lemma call_registers h depth len : host_ok h depth len -> (0 <= scratchpad_at h < 2 ^ 64) ->
  let xs := xset ([reg_at h; mem_regs_at h; scratchpad_at h; 2048] ++ drop 4 (host_x h)) 30 (link h) in
  (length xs = 31%nat /\ Words xs) /\ xget xs 0 = reg_at h /\ xget xs 1 = mem_regs_at h /\ xget xs 2 = scratchpad_at h /\ xget xs 3 = 2048 /\ xget xs 30 = link h.
Proof.
  intros [_ _ (R1 & R2 & _) (M1 & M2 & _) _ (L & W & _) [Wl _]] Hp xs. unfold xs. set (l := _ ++ _).
  assert (Hm : machine l).
  { split; [unfold l; cbn [app length]; rewrite length_drop, L; done|]. unfold l. cbn [app]. repeat (apply List.Forall_cons; [unfold in_range; lia|]). by apply Forall_drop. }
  split; [by apply xset_machine|]. split_and!; [rewrite xget_xset_ne by lia; done..|]. by apply xget_xset; [|lia].
Qed.

(** ** Interpreted and compiled *)

(** The interpreter's copy of the rounding mode, which [run_jit] leaves alone, set to the thread's. *)
Definition synced (vm : VirtualMachine) : VirtualMachine :=
  let c := core_ vm in set_core (mkX (reg_ c) (scratchpad_ c) (mode_of (fe_round c)) (fe_round c)) vm.

(** They agree. *)
Definition in_step (c : xstate) : Prop := fe_round c = rounding_of (last_rounding_mode_ c) /\ 0 <= last_rounding_mode_ c < 4.
Lemma in_step_mode c : in_step c -> mode_of (fe_round c) = last_rounding_mode_ c.
Proof. intros [-> H]. assert (E : last_rounding_mode_ c = 0 \/ last_rounding_mode_ c = 1 \/ last_rounding_mode_ c = 2 \/ last_rounding_mode_ c = 3) by lia. by destruct E as [->|[->|[->| ->]]]. Qed.

(** What the compiled program leaves of a machine that the interpreter takes to [vm']. *)
Definition jit_result (vm vm' : VirtualMachine) : VirtualMachine :=
  let c' := core_ vm' in set_core (mkX (reg_ c') (scratchpad_ c') (last_rounding_mode_ (core_ vm)) (fe_round c')) vm.

Lemma float_mask_e_or x : word64 x -> e_or_ok (getFloatMask x).
Proof.
  intros Hx. split; [destruct (float_mask_ok x Hx); unfold in_range; lia|]. unfold getFloatMask. rewrite Z.land_lor_distr_l, <- Z.land_assoc.
  change (Z.land (2 ^ 22 - 1) e_and) with 0. rewrite Z.land_0_r, Z.lor_0_l. unfold getStaticExponent.
  assert (Hh : in_range 4 (Z.shiftr x (64 - 4))) by (apply (shiftr_range_sub 64 x 60); [lia|done]). unfold in_range in Hh. set (k := Z.shiftr x (64 - 4)) in *. clearbody k.
  assert (E : In k (seqZ 0 16)) by (apply list_elem_of_In, elem_of_seqZ; lia). cbn in E. repeat (destruct E as [<-|E]; [reflexivity|]). destruct E.
Qed.

Section compiled.
Context (h : Host) (depth : Z) (vm : VirtualMachine) (C : list Z) (st : emission) (target : Z) (bc : list InstructionByteCode) (usage : list Z).
Abbreviation base := (scratchpad_at h).
Abbreviation m := (e_mask_ vm).
Context (Hvm : vm_running vm) (Hzero : r (reg_ (core_ vm)) = replicate 8 0) (Hmask : e_or_ok m.1 /\ e_or_ok m.2).
Context (Hcode : loop_code (configuration vm) target st C) (HbC : Bytes C) (Hhost : host_ok h depth (Z.of_nat (length C))).
Context (Hcompile : compile_program (program_ vm) (bytecode_ vm) = Done (usage, bc)).
Context (Hprogram : forall x x', x_wf x -> execute_bytecode m bc x = Done x' -> forall K ms, sim C base m K x ms -> vpc ms = PrologueSize ->
  exists ms', leads C base ms ms' /\ vpc ms' = st.2 /\ sim C base m K x' ms').
Context (ptr pd items : Z) (line : Z -> outcome (list Z)) (Hptr : word64 ptr).
Abbreviation mem_regs := (mem_regs_image (mx_ vm) (ma_ vm) ptr pd items).
Abbreviation mem0 := (call_mem h m (reg_ (core_ vm)) mem_regs).
Context (Hsource : forall M, clear_pad base M -> (forall b, b < stack_at h - 208 \/ stack_at h <= b -> M b = mem0 b) -> (forall b, mem0 b <> None -> M b <> None) ->
  M (stack_at h + -168) = Some (mem_regs_at h) ->
  LineSource C base m (configuration vm) st (beside (stack_at h - depth) (stack_at h - 208) M) (stack_at h - 208) ptr line).
Context (Hline : forall ma rs rs', word32 ma -> dataset_read vm (add64 (dataset_offset_ vm) (Z.land ma 0x7fffffc0)) rs = Done rs' ->
  exists bs, line ma = Done bs /\ Bytes bs /\ rs' = xor_words rs bs).

Lemma compiled_returns : exists vm' ms, run_interpreted (synced vm) = Done vm' /\ in_step (core_ vm') /\
  reaches C base (call_state h vm mem_regs) ms /\ vpc (lv ms) = link h /\ lsp ms = stack_at h /\
  vmem (lv ms) = scratchpad_ (core_ vm') /\ fpcr_rounding (fpcr (lv ms)) = Done (fe_round (core_ vm')) /\
  load (lmem ms) (mem_regs_at h) = Done (mx_ vm + ma_ vm * 2 ^ 32) /\
  exists ws, load_words (lmem ms) (reg_at h) 32 = Done ws /\ reg_of ws = reg_ (core_ vm').
Proof.
  pose proof (vr_core _ Hvm) as Hx. set (c := core_ vm) in *. set (vm1 := synced vm).
  assert (Hvm1 : vm_running vm1).
  { destruct Hvm as [[I1 I2 I3 I4 I5 I6 I7 I8] [X1 X2 X3 X4 X5] V3 V4 V5 V6]. constructor; try done; constructor; done. }
  pose proof (vi_program _ (vr_idle _ Hvm)) as [Lp Hp]. pose proof (vi_bytecode _ (vr_idle _ Hvm)) as [Lb Hb].
  pose proof (compile_program_compiled _ _ Lp Hp Lb Hb) as Hc. rewrite Hcompile in Hc. cbn [returns snd] in Hc.
  set (vm2 := set_bytecode bc vm1).
  assert (Hvm2 : vm_running vm2).
  { destruct Hvm1 as [[]]. constructor; cbn; auto. constructor; cbn; auto. by apply compiled_slots. }
  assert (Hinv : loop_inv (vm2, mx_ vm2, ma_ vm2)) by (split; [done|]; split; [done|]; apply Hvm2).
  destruct (vr_regs _ Hvm) as (Q0 & Q1 & Q2 & Q3).
  assert (Hset : same_setup m (configuration vm) line bc vm2) by (constructor; [done|done|done|exact Hline]).
  assert (Hrun : returns loop_inv (ofoldl iteration (vm2, mx_ vm2, ma_ vm2) (seqZ 0 2048))) by (apply ofoldl_inv_returns; [intros; by apply iteration_ok|done]).
  apply returns_Done in Hrun as ([[vm' b0] b1] & Erun & Hvm' & _).
  assert (Ei : run_interpreted vm1 = Done vm').
  { unfold run_interpreted. change (program_ vm1) with (program_ vm). change (bytecode_ vm1) with (bytecode_ vm). rewrite Hcompile. cbn [mbind outcome_bind]. fold vm2. by rewrite Erun. }
  pose proof Hhost as [[Hbase _] _ (R1 & R2 & R3 & R4) (M1 & M2 & M3 & M4) (A1 & A2 & A3) (_ & _ & Hv) [Wl Hl]].
  destruct (call_registers h depth _ Hhost ltac:(lia)) as (Hxs & X0 & X1 & X2 & X3 & X30). set (xs := xset _ 30 (link h)) in *.
  pose proof (x_wf_shaped _ Hx) as [Lr Lf Le La _].
  pose proof (host_call h depth _ Hhost m (reg_ c) Lr Lf Le La (mx_ vm) (ma_ vm) ptr pd items) as Hcall.
  destruct (function_returns C base m (configuration vm) st target Hcode HbC ltac:(done) Hbase Hmask bc Hprogram (stack_at h) depth (reg_at h) (mem_regs_at h) ptr mem0 line Hsource
    vm2 vm' b0 b1 xs (host_v h) false false Hcall Hxs Hv X0 X1 X2 X3 Hptr Hvm2 Hset Hinv Hzero (mode_range _) (eq_sym (rounding_mode _)) Erun)
    as (ms & R & [P S _ _] & V & F & Fe & Md & Ha & Hw & Ho).
  exists vm', ms. split; [done|]. split; [by split|]. split; [|split; [by rewrite P, X30|split; [done|split; [done|]]]].
  { unfold call_state. rewrite fpcr_of_mode. exact R. }
  split; [rewrite F, Fe; by apply fpcr_rounding_mode|].
  destruct (cm_mem_regs _ _ _ _ _ _ _ _ _ _ _ Hcall) as (_ & _ & _ & E0 & _). destruct (cm_a _ _ _ _ _ _ _ _ _ _ _ Hcall) as (_ & Ea).
  assert (Eh : lmem ms (mem_regs_at h) = Some (mx_ vm + ma_ vm * 2 ^ 32)) by (etrans; [apply Ho; lia|exact E0]).
  split; [unfold load; by rewrite M3, Eh|].
  pose proof (x_wf_shaped _ (vr_core _ Hvm')) as [Lr' Lf' Le' La' _].
  assert (Lw : length (file_words (core_ vm')) = 24%nat) by (unfold file_words; rewrite !length_app, !float_words_length, Lr', Lf', Le'; done).
  assert (La'' : length (float_words_of (a (reg_ (core_ vm')))) = 8%nat) by (by rewrite float_words_length, La').
  exists (file_words (core_ vm') ++ float_words_of (a (reg_ (core_ vm')))). split; [|by apply reg_of_words].
  replace 32%nat with (length (file_words (core_ vm') ++ float_words_of (a (reg_ (core_ vm'))))) by (rewrite length_app, Lw, La''; done).
  apply load_words_ok; [done|]. rewrite length_app, Lw, La''. intros i Hi. destruct (Z.ltb_spec i 24).
  - rewrite lookup_total_app_l by lia. apply Hw. lia.
  - rewrite lookup_total_app_r by lia. replace (reg_at h + 8 * i) with (reg_at h + 8 * (24 + (i - 24))) by lia.
    etrans; [apply Ho; lia|]. etrans; [apply (Ea (i - 24)); lia|]. rewrite Ha, Lw. by replace (Z.to_nat i - 24)%nat with (Z.to_nat (i - 24)) by lia.
Qed.
End compiled.

(** The buffer between programs. *)
Record jit_ready (j : jit) : Prop := mkReady {
  jr_template : template_at (code j);
  jr_size : CodeSize <= Z.of_nat (length (code j));
  jr_bytes : Bytes (code j);
  jr_v1 : is_v2 j = false;
}.

Lemma ready_after j j0 k C : jit_ready j -> emitted_at j (j0, k) -> building (j0, k) C -> jit_ready (with_code C j0) /\ length C = length (code j).
Proof.
  intros [_ _ _ Hv] [H1 _ _ _ H5 H6 _ _] [B1 B2 B3 B4 _]. split.
  - constructor; try done. unfold is_v2 in *. cbn [with_code flags fst] in *. by rewrite H5.
  - etrans; [apply (sd_len _ _ B1)|exact H6].
Qed.

(** What the machine sets up for every mode. *)
Lemma jit_setup vm : vm_idle vm -> let vm0 := initialize_vm_state vm in
  vm_running vm0 /\ r (reg_ (core_ vm0)) = replicate 8 0 /\ e_or_ok (e_mask_ vm0).1 /\ e_or_ok (e_mask_ vm0).2.
Proof.
  intros Hidle vm0. split; [by apply initialize_running|]. split; [done|].
  assert (W : forall i, word64 (entropy_ vm !!! i)) by (intros; by apply Forall_lookup_total_range, Hidle). split; apply float_mask_e_or, W.
Qed.

(** The code of the program, against the interpreter's bytecode. *)
Lemma jit_emits env vm j : vm_running vm -> e_or_ok (e_mask_ vm).1 /\ e_or_ok (e_mask_ vm).2 -> jit_ready j ->
  use_dag env || anchors_agree (normalize <$> program_ vm) = true -> forallb fp_displaced (program_ vm) = true ->
  exists j0 k usage bc, emitPrologueMix (use_dag env) (swaps env) (program_ vm) j = Done (j0, k) /\ emitted_at j (j0, k) /\
    compile_program (program_ vm) (bytecode_ vm) = Done (usage, bc) /\
    forall C base, 0 <= base /\ base + 2 ^ 21 <= 2 ^ 64 -> settled C (j0, k) -> forall x x', x_wf x -> execute_bytecode (e_mask_ vm) bc x = Done x' ->
      forall K ms, sim C base (e_mask_ vm) K x ms -> vpc ms = PrologueSize -> exists ms', leads C base ms ms' /\ vpc ms' = k /\ sim C base (e_mask_ vm) K x' ms'.
Proof.
  intros Hvm Hmask [_ J2 _ J4] Hag Hfp. pose proof (vr_idle _ Hvm) as [_ _ _ _ _ [Lp Hp] [Lb Hb] _].
  assert (Hsz : BufferSize <= CodeSize) by (vm_compute; congruence). unfold is_v2 in J4. apply negb_false_iff, Z.eqb_eq in J4.
  destruct (emission_runs (use_dag env) (swaps env) (program_ vm) (bytecode_ vm) (e_mask_ vm) j Lp Hp Lb Hb (vr_mask _ Hvm) Hmask Hag Hfp ltac:(lia) J4) as ([j0 k] & Ej & Hst & Hrun).
  pose proof (compile_program_compiled _ _ Lp Hp Lb Hb) as Hc. apply returns_Done in Hc as ([usage bc] & Hcompile & _).
  exists j0, k, usage, bc. split; [done|]. split; [done|]. split; [done|]. intros C base Hbase Hs x x' Hx Ex K ms Hsim Hpc.
  destruct (Hrun x Hx) as (x1 & E1 & H). unfold interpret in E1. rewrite Hcompile in E1. cbn [mbind outcome_bind] in E1.
  assert (x1 = x') as -> by congruence. by apply (H C base K ms).
Qed.

(** A call that returns is a run. *)
Lemma run_jit_result env h vm j j' vm' ms : word32 (mx_ vm) -> writable env = true -> executable env = true -> jit_generate env vm j = Done j' ->
  reaches (code j') (scratchpad_at h) (call_state h vm (jit_mem_regs env h vm)) ms -> vpc (lv ms) = link h -> Z.of_nat (length (code j')) <= link h ->
  vmem (lv ms) = scratchpad_ (core_ vm') -> fpcr_rounding (fpcr (lv ms)) = Done (fe_round (core_ vm')) ->
  load (lmem ms) (mem_regs_at h) = Done (mx_ vm + ma_ vm * 2 ^ 32) ->
  (exists ws, load_words (lmem ms) (reg_at h) 32 = Done ws /\ reg_of ws = reg_ (core_ vm')) ->
  exists n, forall fuel, (n <= fuel)%nat -> run_jit fuel env h vm j = Done (jit_result vm vm', j').
Proof.
  intros Wx Hw He Hg R P Hl V F L (ws & Ew & Er). destruct (call_returns _ _ _ _ _ R P ltac:(lia)) as [n Hn]. exists n. intros fuel Hf.
  unfold run_jit. rewrite Hw, Hg, He. cbn [negb mbind outcome_bind]. rewrite (Hn fuel Hf). cbn [mbind outcome_bind]. rewrite Ew. cbn [mbind outcome_bind]. rewrite F.
  cbn [mbind outcome_bind]. rewrite L. cbn [mbind outcome_bind]. rewrite Er, V. unfold jit_result.
  assert (E1 : wrap 32 (mx_ vm + ma_ vm * 2 ^ 32) = mx_ vm) by (unfold wrap; rewrite Z.mod_add by lia; by apply Z.mod_small).
  assert (E2 : (mx_ vm + ma_ vm * 2 ^ 32) / 2 ^ 32 = ma_ vm) by (rewrite Z.div_add, Z.div_small by (lia || done); lia).
  rewrite E1, E2. done.
Qed.

(** Whatever the mode: compiled, called and returned. *)
Lemma run_mode env h depth vm j j' C st target usage bc ptr pd items line :
  vm_running vm -> r (reg_ (core_ vm)) = replicate 8 0 -> e_or_ok (e_mask_ vm).1 /\ e_or_ok (e_mask_ vm).2 ->
  loop_code (configuration vm) target st C -> Bytes C -> host_ok h depth (Z.of_nat (length C)) ->
  compile_program (program_ vm) (bytecode_ vm) = Done (usage, bc) ->
  (forall x x', x_wf x -> execute_bytecode (e_mask_ vm) bc x = Done x' -> forall K ms, sim C (scratchpad_at h) (e_mask_ vm) K x ms -> vpc ms = PrologueSize ->
    exists ms', leads C (scratchpad_at h) ms ms' /\ vpc ms' = st.2 /\ sim C (scratchpad_at h) (e_mask_ vm) K x' ms') ->
  writable env = true -> executable env = true -> jit_generate env vm j = Done j' -> code j' = C ->
  jit_mem_regs env h vm = mem_regs_image (mx_ vm) (ma_ vm) ptr pd items -> word64 ptr ->
  let mem0 := call_mem h (e_mask_ vm) (reg_ (core_ vm)) (jit_mem_regs env h vm) in
  (forall M, clear_pad (scratchpad_at h) M -> (forall b, b < stack_at h - 208 \/ stack_at h <= b -> M b = mem0 b) -> (forall b, mem0 b <> None -> M b <> None) ->
    M (stack_at h + -168) = Some (mem_regs_at h) ->
    LineSource C (scratchpad_at h) (e_mask_ vm) (configuration vm) st (beside (stack_at h - depth) (stack_at h - 208) M) (stack_at h - 208) ptr line) ->
  (forall ma rs rs', word32 ma -> dataset_read vm (add64 (dataset_offset_ vm) (Z.land ma 0x7fffffc0)) rs = Done rs' ->
    exists bs, line ma = Done bs /\ Bytes bs /\ rs' = xor_words rs bs) ->
  exists vm' n, run_interpreted (synced vm) = Done vm' /\ in_step (core_ vm') /\ forall fuel, (n <= fuel)%nat -> run_jit fuel env h vm j = Done (jit_result vm vm', j').
Proof.
  intros Hvm Hz Hmask Hcode HbC Hhost Hcompile Hprogram Hw He Hg Ec Hm Wp mem0 Hsource Hline. unfold mem0 in Hsource. rewrite Hm in Hsource.
  destruct (compiled_returns h depth vm C st target bc usage Hvm Hz Hmask Hcode HbC Hhost Hcompile Hprogram ptr pd items line Wp Hsource Hline) as (vm' & ms & Ei & Hs & R & P & _ & V & F & L & Hws).
  rewrite <- Hm, <- Ec in R. rewrite <- Ec in Hhost.
  destruct (run_jit_result env h vm j j' vm' ms (proj1 (vr_mx _ Hvm)) Hw He Hg R P (proj2 (ho_link _ _ _ Hhost)) V F L Hws) as [n Hn]. by exists vm', n.
Qed.

(** ** Where the lines come from *)

(** [n] bytes from [b] on are not in the way of the call. *)
Definition outside_call (h : Host) (depth : Z) (b n : Z) : Prop :=
  (b + n <= stack_at h - depth \/ stack_at h <= b) /\ (b + n <= reg_at h \/ reg_at h + 256 <= b) /\ (b + n <= mem_regs_at h \/ mem_regs_at h + 32 <= b).

Record fast_ready (h : Host) (depth : Z) (vm : VirtualMachine) : Prop := mkFastReady {
  fr_dataset : dataset_at (host_mem h) (memory_at h) (dataset_ vm);
  fr_outside : outside_call h depth (memory_at h) (Z.of_nat (length (dataset_ vm)));
}.
(** A cache of the full size, its item function in the buffer and, in hybrid mode, the items of the partial
    dataset. *)
Record light_ready (env : JitEnv) (h : Host) (depth : Z) (vm : VirtualMachine) (C : list Z) (cache : Argon2dCache) : Prop := mkLightReady {
  lr_cache : cache_ vm = Some cache;
  lr_ready : cache_ready cache /\ memory_blocks_ cache = 262144 /\ Forall (fun p => program_ok (reciprocal_cache_ cache) p /\ size_ p <= 512) (programs_ cache);
  lr_function : exists no_e24_pad e0, function_at no_e24_pad item_templates (reciprocal_cache_ cache) (programs_ cache) C e0;
  lr_depth : 432 <= depth;
  lr_memory : (memory_at h mod 8 = 0 /\ 0 <= memory_at h /\ memory_at h + 2 ^ 28 <= 2 ^ 64) /\ cache_at cache (memory_at h) (host_mem h) /\
    outside_call h depth (memory_at h) (2 ^ 28);
  lr_partial : match partial env with
    | None => True
    | Some (data, items) => 0 <= items < 2 ^ 32 /\ partial_at cache (host_mem h) data items /\
        (0 < items -> (data mod 8 = 0 /\ 0 <= data /\ data + 64 * items <= 2 ^ 64) /\ outside_call h depth data (64 * items))
    end;
}.
Definition lines_ready (env : JitEnv) (h : Host) (depth : Z) (vm : VirtualMachine) (C : list Z) : Prop :=
  if is_fast_mode vm then fast_ready h depth vm else exists cache, light_ready env h depth vm C cache.

Section modes.
Context (env : JitEnv) (h : Host) (depth : Z) (vm : VirtualMachine) (j j0 : jit) (k : Z) (usage : list Z) (bc : list InstructionByteCode).
Context (Hvm : vm_running vm) (Hz : r (reg_ (core_ vm)) = replicate 8 0) (Hmask : e_or_ok (e_mask_ vm).1 /\ e_or_ok (e_mask_ vm).2).
Context (Hj : jit_ready j) (Hhost : host_ok h depth (Z.of_nat (length (code j)))) (Hw : writable env = true) (He : executable env = true).
Context (Ej : emitPrologueMix (use_dag env) (swaps env) (program_ vm) j = Done (j0, k)) (Hst : emitted_at j (j0, k)).
Context (Hcompile : compile_program (program_ vm) (bytecode_ vm) = Done (usage, bc)).
Context (Hrun : forall C base, 0 <= base /\ base + 2 ^ 21 <= 2 ^ 64 -> settled C (j0, k) -> forall x x', x_wf x -> execute_bytecode (e_mask_ vm) bc x = Done x' ->
  forall K ms, sim C base (e_mask_ vm) K x ms -> vpc ms = PrologueSize -> exists ms', leads C base ms ms' /\ vpc ms' = k /\ sim C base (e_mask_ vm) K x' ms').

Abbreviation mem0 := (call_mem h (e_mask_ vm) (reg_ (core_ vm)) (jit_mem_regs env h vm)).

Definition runs_as_interpreted (j' : jit) : Prop :=
  length (code j') = length (code j) /\
  exists vm' n, run_interpreted (synced vm) = Done vm' /\ in_step (core_ vm') /\ forall fuel, (n <= fuel)%nat -> run_jit fuel env h vm j = Done (jit_result vm vm', j').

(** Memory that the call leaves alone. *)
Lemma outside_same M b n : outside_call h depth b n -> length (jit_mem_regs env h vm) = 4%nat -> (forall b, b < stack_at h - 208 \/ stack_at h <= b -> M b = mem0 b) ->
  forall q, b <= q < b + n -> M q = host_mem h q.
Proof.
  intros (U1 & U2 & U3) L Hsame q Hq. pose proof (proj1 (ho_stack _ _ _ Hhost)). rewrite Hsame by lia. pose proof (x_wf_shaped _ (vr_core _ Hvm)) as [].
  apply call_mem_other; [done..|lia|lia].
Qed.

Lemma fast_mode_runs : is_fast_mode vm = true -> fast_ready h depth vm -> exists j', jit_ready j' /\ runs_as_interpreted j'.
Proof.
  intros Hfast [Hds Hout]. pose proof (vr_offset _ Hvm) as [Ho O64].
  destruct (generateProgram_done (use_dag env) (swaps env) (lut_enc env) (lut_dec env) (program_ vm) (configuration vm) j j0 k Ej Hst
    (jr_template _ Hj) (jr_size _ Hj) (jr_bytes _ Hj) (jr_v1 _ Hj) (vr_regs _ Hvm)) as (C & Eg & Hcode & Hfetch & Hbu).
  destruct (ready_after j j0 k C Hj Hst Hbu) as [Hready HlC]. exists (with_code C j0). split; [done|]. pose proof (proj1 (ho_pad _ _ _ Hhost)) as Hbase.
  assert (Hm : jit_mem_regs env h vm = mem_regs_image (mx_ vm) (ma_ vm) (memory_at h + dataset_offset_ vm) 0 0) by (unfold jit_mem_regs; by rewrite Hfast).
  set (ds := dataset_ vm) in *. set (off := dataset_offset_ vm) in *.
  assert (Hmem : memory_ok vm) by apply Hvm. unfold memory_ok in Hmem. rewrite Hfast in Hmem. destruct Hmem as [Ld Bd].
  change (dataset_ vm) with ds in Ld, Bd. change kRandomXDatasetBytes with 2181038080 in Ld. pose proof (da_range _ _ _ Hds) as (D0 & D1 & D8).
  split; [exact HlC|]. apply (run_mode env h depth vm j (with_code C j0) C (j0, k) Label.vm_instructions_end usage bc (memory_at h + off) 0 0 (fun ma => read_bytes ds (add64 off (Z.land ma align_mask)) 64)); try done.
  - apply Hbu.
  - by rewrite HlC.
  - apply (Hrun C _ Hbase), Hbu.
  - unfold jit_generate. rewrite Hfast. exact Eg.
  - unfold in_range. lia.
  - intros M HM Hsame _ _. eapply (fast_lines C _ _ _ _ _ Hcode (vr_regs _ Hvm) Hbase Hmask _ (memory_at h) ds off); try done.
    intros mem Hbe. split; [by apply (beside_clear _ _ _ _ _ Hbe)|]. constructor; [done|]. intros q Hq. rewrite <- (da_words _ _ _ Hds q Hq).
    pose proof (proj1 (ho_stack _ _ _ Hhost)). pose proof (proj1 Hout). rewrite (be_same _ _ _ _ Hbe) by lia. apply (outside_same M _ _ Hout); [by rewrite Hm|done|lia].
  - intros ma rs rs' Wa E. destruct (read_address off ma Ho (proj1 Wa)) as (Ea & A1 & A2 & A3). change kRandomXDatasetBytes with 2181038080 in A2.
    unfold dataset_read in E. rewrite Hfast in E. change (dataset_offset_ vm) with off in E. change (dataset_ vm) with ds in E.
    rewrite Ea in E. unfold add64 in E. rewrite wrap_small in E by (split; lia). destruct (Z.ltb_spec (Z.of_nat (length ds)) (off + Z.land ma 0x7fffffc0 + 64)); [lia|].
    apply bind_Done in E as (bs & E & Eb). injection Eb as <-. exists bs. change align_mask with 0x7fffffc0. rewrite Ea. split; [done|]. split; [|done].
    exact (proj1 (read_bytes_range _ _ _ _ Bd E)).
Qed.

Lemma function_kept C no_e24_pad cache e0 : building (j0, k) C -> length C = length (code j) ->
  function_at no_e24_pad item_templates (reciprocal_cache_ cache) (programs_ cache) (code j) e0 ->
  function_at no_e24_pad item_templates (reciprocal_cache_ cache) (programs_ cache) C e0.
Proof.
  intros Hbu Hl. apply function_moves; [done|]. intros i Hi. rewrite (bu_beyond _ _ Hbu i Hi). apply (ea_outside _ _ Hst).
  right. assert (BufferSize <= CodeSize) by (vm_compute; congruence). lia.
Qed.

(** What both kinds of light mode read. *)
Lemma light_line cache ma rs rs' : is_fast_mode vm = false -> cache_ vm = Some cache -> cache_ready cache ->
  dataset_read vm (add64 (dataset_offset_ vm) (Z.land ma 0x7fffffc0)) rs = Done rs' ->
  exists bs, generate_dataset_item cache (wrap 32 (add64 (dataset_offset_ vm) (Z.land ma align_mask) / 64)) = Done bs /\ Bytes bs /\ rs' = xor_words rs bs.
Proof.
  intros Hlight Hc Hcr E. unfold dataset_read in E. rewrite Hlight, Hc in E. cbv zeta in E. apply bind_Done in E as (bs & E & Eb). injection Eb as <-.
  exists bs. split; [exact E|]. split; [|done]. set (n := wrap 32 _) in E. destruct (generate_dataset_item_ok cache Hcr n) as (item & E' & _ & Hb). congruence.
Qed.

Lemma light_mode_runs cache : is_fast_mode vm = false -> light_ready env h depth vm (code j) cache ->
  exists j', jit_ready j' /\ light_ready env h depth vm (code j') cache /\ runs_as_interpreted j'.
Proof.
  intros Hlight [Hc (Hcr & Hcb & Hcp) (nop & e0 & Hfn) Hdepth (Hptr & Hca & Hco) Hpart]. pose proof (vr_offset _ Hvm) as [Ho O64].
  pose proof (proj1 (ho_pad _ _ _ Hhost)) as Hbase. pose proof (ho_stack _ _ _ Hhost) as (D1 & D2 & D3 & D4).
  assert (Eo : wrap 32 (dataset_offset_ vm) = dataset_offset_ vm) by (apply wrap_small; split; lia). set (off := dataset_offset_ vm) in *.
  assert (Hstack : forall M : memory, (forall b, mem0 b <> None -> M b <> None) -> forall k, - 224 <= k < 0 -> k mod 8 = 0 -> M (stack_at h - 208 + k) <> None).
  { intros M HM i Hi I8. apply HM. replace (stack_at h - 208 + i) with (stack_at h + (i - 208)) by lia. unfold call_mem. apply put_words_mapped, put_words_mapped, D4; [lia|plia]. }
  assert (Hcm : forall M : memory, length (jit_mem_regs env h vm) = 4%nat -> (forall b, b < stack_at h - 208 \/ stack_at h <= b -> M b = mem0 b) -> cache_at cache (memory_at h) M).
  { intros M L Hsame i line q Hi Hq E. assert (Hr : 8 * Z.of_nat q < 64) by lia. rewrite (outside_same M _ _ Hco L Hsame) by lia. by apply (Hca i line q). }
  assert (Hap : memory_at h + 2 ^ 28 <= stack_at h - depth \/ stack_at h <= memory_at h) by apply Hco.
  destruct (partial env) as [[data items]|] eqn:Epart.
  - destruct Hpart as (I0 & I2 & I1).
    destruct (generateProgramHybrid_done (use_dag env) (swaps env) (lut_enc env) (lut_dec env) (program_ vm) (configuration vm) j j0 k Ej Hst
      (jr_template _ Hj) (jr_size _ Hj) (jr_bytes _ Hj) (jr_v1 _ Hj) (vr_regs _ Hvm) off ltac:(lia)) as (C & Eg & Hcode & Hfetch & Hbu).
    destruct (ready_after j j0 k C Hj Hst Hbu) as [Hready HlC]. pose proof (function_kept C nop cache e0 Hbu HlC Hfn) as HfC. exists (with_code C j0). split; [done|].
    assert (Hm : jit_mem_regs env h vm = mem_regs_image (mx_ vm) (ma_ vm) (memory_at h) data items) by (unfold jit_mem_regs; by rewrite Hlight, Hc, Epart).
    assert (L4 : length (jit_mem_regs env h vm) = 4%nat) by (by rewrite Hm).
    split; [constructor; try done; [by exists nop, e0|by rewrite Epart]|]. pose proof (ho_mem_regs _ _ _ Hhost) as (M0 & M1 & M8 & _).
    split; [exact HlC|]. apply (run_mode env h depth vm j (with_code C j0) C (j0, k) Label.vm_instructions_end_hybrid usage bc (memory_at h) data items
      (fun ma => generate_dataset_item cache (wrap 32 (add64 off (Z.land ma align_mask) / 64)))); try done.
    + apply Hbu.
    + by rewrite HlC.
    + apply (Hrun C _ Hbase), Hbu.
    + unfold jit_generate. rewrite Hlight, Epart. fold off. rewrite Eo. exact Eg.
    + unfold in_range. lia.
    + intros M HM Hsame Hmap Hmr.
      assert (Hmem : hybrid_memory (scratchpad_at h) cache (stack_at h - depth) (stack_at h - 208) (memory_at h) (mem_regs_at h) data items M).
      { assert (Mr : forall q, 0 <= q < 4 -> M (mem_regs_at h + 8 * q) = Some (mem_regs_image (mx_ vm) (ma_ vm) (memory_at h) data items !!! Z.to_nat q)).
        { intros q Hq. destruct (ho_apart _ _ _ Hhost) as (_ & A2 & _). rewrite Hsame by lia. rewrite Hm. unfold call_mem. apply put_words_at. cbn. lia. }
        constructor.
        - split; [|lia]. split; [done|]. intros i Hi I8. by apply Hstack.
        - split; [done|]. split; [by apply Hcm|lia].
        - split; [by replace (stack_at h - 208 + 40) with (stack_at h + -168) by lia|]. split; [done|]. split; [destruct (ho_apart _ _ _ Hhost) as (_ & A2 & _); lia|].
          split; [exact (Mr 2 ltac:(lia))|exact (Mr 3 ltac:(lia))].
        - split; [done|]. split; [intros Hi; destruct (I1 Hi) as [B1 B2]; split; [done|]; pose proof (proj1 B2); lia|].
          intros i bs q Hi Hq E. destruct (I1 ltac:(lia)) as [_ B2]. rewrite (outside_same M _ _ B2 L4 Hsame) by lia. by apply I2. }
      apply (hybrid_lines C _ _ _ _ _ Hcode (vr_regs _ Hvm) Hbase Hmask cache nop e0 off (stack_at h - depth) (stack_at h - 208) (memory_at h) (mem_regs_at h) data items); try done.
      split; [lia|]. split; [lia|plia].
    + intros ma rs rs' Wa E. by apply light_line.
  - destruct (generateProgramLight_done (use_dag env) (swaps env) (lut_enc env) (lut_dec env) (program_ vm) (configuration vm) j j0 k Ej Hst
      (jr_template _ Hj) (jr_size _ Hj) (jr_bytes _ Hj) (jr_v1 _ Hj) (vr_regs _ Hvm) off ltac:(lia)) as (C & Eg & Hcode & Hfetch & Hbu).
    destruct (ready_after j j0 k C Hj Hst Hbu) as [Hready HlC]. pose proof (function_kept C nop cache e0 Hbu HlC Hfn) as HfC. exists (with_code C j0). split; [done|].
    assert (Hm : jit_mem_regs env h vm = mem_regs_image (mx_ vm) (ma_ vm) (memory_at h) 0 0) by (unfold jit_mem_regs; by rewrite Hlight, Hc, Epart).
    split; [constructor; try done; [by exists nop, e0|by rewrite Epart]|].
    split; [exact HlC|]. apply (run_mode env h depth vm j (with_code C j0) C (j0, k) Label.vm_instructions_end_light usage bc (memory_at h) 0 0
      (fun ma => generate_dataset_item cache (wrap 32 (add64 off (Z.land ma align_mask) / 64)))); try done.
    + apply Hbu.
    + by rewrite HlC.
    + apply (Hrun C _ Hbase), Hbu.
    + unfold jit_generate. rewrite Hlight, Epart. fold off. rewrite Eo. exact Eg.
    + unfold in_range. lia.
    + intros M HM Hsame Hmap _. apply (light_lines C _ _ _ _ _ Hcode (vr_regs _ Hvm) Hbase Hmask M (stack_at h - depth) (stack_at h - 208) off cache (memory_at h) nop e0); try done.
      * lia.
      * plia.
      * lia.
      * intros i Hi I8. apply Hstack; [done|lia|done].
      * apply Hcm; [by rewrite Hm|done].
      * lia.
    + intros ma rs rs' Wa E. by apply light_line.
Qed.
End modes.

(** A compiled program, in every mode, and what the next one needs. *)
Lemma run_jit_sim env h depth vm j :
  vm_idle vm -> jit_ready j -> host_ok h depth (Z.of_nat (length (code j))) -> lines_ready env h depth vm (code j) ->
  writable env = true -> executable env = true ->
  use_dag env || anchors_agree (normalize <$> program_ vm) = true -> forallb fp_displaced (program_ vm) = true ->
  let vm0 := initialize_vm_state vm in
  exists vm' j' n, run_interpreted (synced vm0) = Done vm' /\ in_step (core_ vm') /\ jit_ready j' /\ lines_ready env h depth vm (code j') /\
    length (code j') = length (code j) /\ forall fuel, (n <= fuel)%nat -> run_jit fuel env h vm0 j = Done (jit_result vm0 vm', j').
Proof.
  intros Hidle Hj Hhost Hlines Hw He Hag Hfp vm0. destruct (jit_setup vm Hidle) as (Hvm & Hz & Hmask). fold vm0 in Hvm, Hz, Hmask.
  destruct (jit_emits env vm0 j Hvm Hmask Hj Hag Hfp) as (j0 & k & usage & bc & Ej & Hst & Hcompile & Hrun). unfold lines_ready in *.
  destruct (is_fast_mode vm) eqn:Em.
  - destruct (fast_mode_runs env h depth vm0 j j0 k usage bc Hvm Hz Hmask Hj Hhost Hw He Ej Hst Hcompile Hrun Em) as (j' & Hj' & Hlen & vm' & n & E & Hs & Hn).
    { destruct Hlines. by constructor. }
    by exists vm', j', n.
  - destruct Hlines as [cache Hl].
    destruct (light_mode_runs env h depth vm0 j j0 k usage bc Hvm Hz Hmask Hj Hhost Hw He Ej Hst Hcompile Hrun cache Em) as (j' & Hj' & Hl' & Hlen & vm' & n & E & Hs & Hn).
    { destruct Hl. by constructor. }
    exists vm', j', n. split; [done|]. split; [done|]. split; [done|]. split; [exists cache; destruct Hl'; by constructor|done].
Qed.

(** C3: a compiled program computes what an interpreted one does, in fast, light and hybrid mode.  From any
    machine between programs, with the template in the buffer and the mode's dataset, cache or partial dataset in
    memory, and for every program the scheduler handles (branch anchors that are real writers when adjacent swaps
    are used, displacements on floating-point memory operands), [run_jit] compiles the program and calls it, and
    the call returns: the register file, the scratchpad and the rounding mode are exactly those
    [run_interpreted] leaves, and the buffer is ready for the next program. *)
Theorem run_jit_equiv env h depth vm j :
  vm_idle vm -> jit_ready j -> host_ok h depth (Z.of_nat (length (code j))) -> lines_ready env h depth vm (code j) ->
  writable env = true -> executable env = true ->
  use_dag env || anchors_agree (normalize <$> program_ vm) = true -> forallb fp_displaced (program_ vm) = true ->
  let vm0 := initialize_vm_state vm in
  exists vm' j' n, run_interpreted (synced vm0) = Done vm' /\ jit_ready j' /\ lines_ready env h depth vm (code j') /\
    length (code j') = length (code j) /\ forall fuel, (n <= fuel)%nat -> run_jit fuel env h vm0 j = Done (jit_result vm0 vm', j').
Proof.
  intros Hidle Hj Hhost Hlines Hw He Hag Hfp. destruct (run_jit_sim env h depth vm j Hidle Hj Hhost Hlines Hw He Hag Hfp) as (vm' & j' & n & E & _ & Hj' & Hl & Hlen & Hn).
  by exists vm', j', n.
Qed.

(** ** A call to make *)

(** Segments laid out in a buffer. *)
Fixpoint lay (pos : Z) (segs : list (Z * list ins)) : list Z :=
  match segs with
  | [] => []
  | (o, l) :: segs => replicate (Z.to_nat (o - pos)) 0 ++ ins_bytes l ++ lay (o + 4 * Z.of_nat (length l)) segs
  end.
Fixpoint in_order (pos : Z) (segs : list (Z * list ins)) : bool :=
  match segs with [] => true | (o, l) :: segs => (pos <=? o) && in_order (o + 4 * Z.of_nat (length l)) segs end.

Lemma lay_holds segs : forall pre post, in_order (Z.of_nat (length pre)) segs = true ->
  Forall (fun '(o, l) => holds (pre ++ lay (Z.of_nat (length pre)) segs ++ post) o (ins_bytes l)) segs.
Proof.
  induction segs as [|[o l] segs IH]; intros pre post H; cbn [in_order lay] in *; [apply List.Forall_nil|].
  apply andb_prop in H as [H1 H2]. apply Z.leb_le in H1. set (gap := replicate (Z.to_nat (o - Z.of_nat (length pre))) 0).
  assert (Lg : Z.of_nat (length (pre ++ gap)) = o) by (rewrite length_app; unfold gap; rewrite length_replicate; lia).
  assert (Ll : Z.of_nat (length ((pre ++ gap) ++ ins_bytes l)) = o + 4 * Z.of_nat (length l)) by (rewrite length_app, ins_bytes_length; lia).
  apply List.Forall_cons.
  - replace (pre ++ (gap ++ ins_bytes l ++ _) ++ post) with ((pre ++ gap) ++ ins_bytes l ++ (lay (o + 4 * Z.of_nat (length l)) segs ++ post)) by (by rewrite <- !app_assoc).
    unfold holds. rewrite <- Lg. rewrite read_bytes_ok by (rewrite ?length_app; lia). f_equal. rewrite Nat2Z.id, drop_app_length. apply take_app_length.
  - replace (pre ++ (gap ++ ins_bytes l ++ _) ++ post) with (((pre ++ gap) ++ ins_bytes l) ++ lay (o + 4 * Z.of_nat (length l)) segs ++ post) by (by rewrite <- !app_assoc).
    rewrite <- Ll in H2 |- *. by apply IH.
Qed.
Lemma lay_bytes segs : forall pos, Bytes (lay pos segs).
Proof.
  induction segs as [|[o l] segs IH]; intros pos; cbn [lay]; [apply List.Forall_nil|]. rewrite !Forall_app. split; [apply Forall_replicate; by split|]. split; [|done].
  unfold ins_bytes, word_bytes. apply Forall_concat, Forall_fmap, Forall_forall. intros x _. apply le_bytes_range.
Qed.

Fixpoint lay_end (pos : Z) (segs : list (Z * list ins)) : Z :=
  match segs with [] => pos | (o, l) :: segs => lay_end (o + 4 * Z.of_nat (length l)) segs end.
Lemma lay_length segs : forall pos, in_order pos segs = true -> Z.of_nat (length (lay pos segs)) = lay_end pos segs - pos.
Proof.
  induction segs as [|[o l] segs IH]; intros pos H; cbn [in_order lay lay_end] in *; [cbn [length]; lia|]. apply andb_prop in H as [H1 H2]. apply Z.leb_le in H1.
  rewrite !length_app, length_replicate, ins_bytes_length. specialize (IH _ H2). lia.
Qed.

Definition sample_jit : jit := with_code (lay 0 template ++ replicate (Z.to_nat (CodeSize + CalcDatasetItemSize)) 0) blank.
Lemma sample_ready : jit_ready sample_jit.
Proof.
  constructor.
  - unfold template_at. cbn [code sample_jit with_code]. generalize (replicate (Z.to_nat (CodeSize + CalcDatasetItemSize)) 0). intros post.
    pose proof (lay_holds template [] post eq_refl) as H. change (Z.of_nat (length (A:=Z) [])) with 0 in H. rewrite app_nil_l in H. exact H.
  - cbn [code sample_jit with_code]. rewrite length_app, length_replicate. unfold CodeSize, CalcDatasetItemSize. lia.
  - cbn [code sample_jit with_code]. apply Forall_app. split; [apply lay_bytes|apply Forall_replicate; by split].
  - reflexivity.
Qed.

Section sample.
Context (ds : list Z) (Hds : Z.of_nat (length ds) = 2181038080) (Hbytes : Bytes ds).

Definition sample_vm : VirtualMachine := with_memory 32 None ds light_vm.
(** The scratchpad at 2^33, the dataset at 2^34, zeros elsewhere. *)
Definition sample_host : Host :=
  mkHost (2 ^ 33) (2 ^ 20) (2 ^ 21) (2 ^ 22) (2 ^ 34) (2 ^ 30) (replicate 31 0) (replicate 32 (mkFloat 0 0))
    (fun b => if (2 ^ 33 <=? b) && (b <? 2 ^ 33 + 2 ^ 21) then None
      else if 2 ^ 34 <=? b then Some (of_le (take 8 (drop (Z.to_nat (b - 2 ^ 34)) ds))) else Some 0).
Definition sample_env : JitEnv := mkEnv true 64 0 0 true true None.

Lemma sample_idle : vm_idle sample_vm.
Proof using Hbytes Hds. destruct light_vm_idle as [H1 H2 H3 H4 H5 H6 H7 _]. exact (mkIdle sample_vm H1 H2 H3 H4 H5 H6 H7 (conj Hds Hbytes)). Qed.

Lemma sample_mapped b : b < 2 ^ 33 \/ 2 ^ 33 + 2 ^ 21 <= b -> host_mem sample_host b <> None.
Proof. intros Hb. cbn [host_mem sample_host]. destruct ((2 ^ 33 <=? b) && _) eqn:E; [blia|]. by destruct (2 ^ 34 <=? b). Qed.

Lemma sample_clear : clear_pad (2 ^ 33) (host_mem sample_host).
Proof. intros b H1 H2. cbn [host_mem sample_host]. destruct (_ && _) eqn:E; [done|blia]. Qed.

Lemma sample_host_ok : host_ok sample_host 4096 (Z.of_nat (length (code sample_jit))).
Proof.
  constructor; cbn [scratchpad_at stack_at reg_at mem_regs_at memory_at link host_x host_v sample_host].
  - split; [lia|exact sample_clear].
  - split; [lia|]. split; [lia|]. split; [reflexivity|]. intros k Hk _. apply sample_mapped. lia.
  - split; [lia|]. split; [lia|]. split; [reflexivity|]. intros i Hi. apply sample_mapped. lia.
  - split; [lia|]. split; [lia|]. split; [reflexivity|]. intros i Hi. apply sample_mapped. lia.
  - lia.
  - split; [reflexivity|]. split; [apply Forall_replicate; by split|reflexivity].
  - split; [by split|]. cbn [code sample_jit with_code]. rewrite length_app, length_replicate, Nat2Z.inj_add, (lay_length template 0 eq_refl).
    change (lay_end 0 template) with 50708. unfold CodeSize, CalcDatasetItemSize. lia.
Qed.
Lemma sample_lines : lines_ready sample_env sample_host 4096 sample_vm (code sample_jit).
Proof using Hds.
  change (fast_ready sample_host 4096 sample_vm). constructor.
  - constructor; change (dataset_ sample_vm) with ds; change (memory_at sample_host) with (2 ^ 34).
    + rewrite Hds. split; [lia|]. split; [lia|reflexivity].
    + intros k Hk. cbn [host_mem sample_host]. destruct (_ && _) eqn:E; [blia|]. destruct (Z.leb_spec (2 ^ 34) (2 ^ 34 + 8 * Z.of_nat k)); [|lia].
      by replace (Z.to_nat (2 ^ 34 + 8 * Z.of_nat k - 2 ^ 34)) with (8 * k)%nat by lia.
  - unfold outside_call. change (dataset_ sample_vm) with ds. rewrite Hds. cbn [memory_at stack_at reg_at mem_regs_at sample_host]. lia.
Qed.
End sample.

#[local] Opaque full_dataset.

Lemma run_jit_equiv_witness : let ds := full_dataset idle_cache in let vm0 := initialize_vm_state (sample_vm ds) in
  exists vm' j' n, run_interpreted (synced vm0) = Done vm' /\ jit_ready j' /\ lines_ready sample_env (sample_host ds) 4096 (sample_vm ds) (code j') /\
    length (code j') = length (code sample_jit) /\ forall fuel, (n <= fuel)%nat -> run_jit fuel sample_env (sample_host ds) vm0 sample_jit = Done (jit_result vm0 vm', j').
Proof.
  intros ds. pose proof (length_full_dataset idle_cache idle_cache_ready) as L. pose proof (full_dataset_bytes idle_cache idle_cache_ready) as B.
  exact (run_jit_equiv sample_env (sample_host ds) 4096 (sample_vm ds) sample_jit (sample_idle ds L B) sample_ready (sample_host_ok ds) (sample_lines ds L) eq_refl eq_refl eq_refl eq_refl).
Defined.
