(* ===== verification/JitHash.v ===== *)
(** * The hash of a machine that compiles its programs

    The top of src/src/vm.cpp for a machine with a JIT compiler: [run] (its [jit_] branch),
    [randomx_calculate_hash] and [randomx_calculate_hash_pipelined], against the interpreted machine of
    Hash.v. *)

From S2P Require Import Prelude RandomX Float Bytecode BytecodeSafety Argon2 Dataset Vm HashSim Blake2b AesTables Aes AesHash Hash.
From S2P Require Import JitSchedule JitEquiv JitSim JitEmit JitVmFloat JitVmEquiv JitTemplate JitCall.

(** ** Operations *)

(** What each of the eight calls of a hash meets: the compiler's settings with the bound of the partial
    dataset read for that program, and the thread's memory and registers. *)
Record Session : Type := mkSession {
  envs : Z -> JitEnv;
  hosts : Z -> Host;
}.

Section operations.
Context (fuel : nat) (ss : Session) (b : build).

(** [VirtualMachine::run] with a JIT, the [k]-th time in a hash. *)
Definition jit_run (k : Z) (seed : AesState) (vm : VirtualMachine) (j : jit) : outcome (VirtualMachine * jit) :=
  '(_, prog_bytes) ← AesGenerator4R_fill b seed (replicate (128 + 2048) 0);
  run_jit fuel (envs ss k) (hosts ss k) (initialize_vm_state (set_program (entropy_of prog_bytes) (program_of prog_bytes) vm)) j.

Definition jit_chain_step (st : VirtualMachine * jit * AesState) (chain : Z) : outcome (VirtualMachine * jit * AesState) :=
  let '(vm, j, temp) := st in
  '(vm, j) ← jit_run chain temp vm j;
  temp ← Blake2b.blake2b_into (reg_bytes (reg_ (core_ vm))) temp 64;
  Done (vm, j, temp).

Definition jit_programs (vm : VirtualMachine) (j : jit) (temp : AesState) : outcome (VirtualMachine * jit) :=
  let vm := reset_rounding_mode vm in
  '(vm, j, temp) ← ofoldl jit_chain_step (vm, j, temp) (seqZ 0 7);
  jit_run 7 temp vm j.

Definition jit_calculate_hash (vm : VirtualMachine) (j : jit) (input output : list Z) : outcome (VirtualMachine * jit * list Z) :=
  let fpstate := fe_round (core_ vm) in
  temp ← Blake2b.blake2b_into input (replicate 64 0) 64;
  '(temp, vm) ← init_scratchpad b temp vm;
  '(vm, j) ← jit_programs vm j temp;
  '(vm, output) ← get_final_result b vm output;
  Done (set_fe_round fpstate vm, j, output).

Definition jit_calculate_hash_pipelined (d2 : bool) (vm : VirtualMachine) (j : jit) (input output next_input : list Z)
    (next_scratchpad : option (list Z)) (run_seed : option AesState) : outcome (VirtualMachine * jit * list Z * AesState * option (list Z)) :=
  let fpstate := fe_round (core_ vm) in
  temp ← Blake2b.blake2b_into input (replicate 64 0) 64;
  '(temp, vm) ← match run_seed with
                | Some seed => Done (seed, vm)
                | None => init_scratchpad b temp vm
                end;
  '(vm, j) ← jit_programs vm j temp;
  next_seed ← Blake2b.blake2b_into next_input (replicate 64 0) 64;
  let current_reg := reg_ (core_ vm) in
  let hash_state := floats_bytes (a current_reg) in
  '(hash_state, next_seed, next) ← hash_then_fill b d2 (scratchpad_ (core_ vm)) next_scratchpad hash_state next_seed;
  let next_seed_out := next_seed in
  let current_reg := set_a hash_state current_reg in
  output ← Blake2b.blake2b_into (reg_bytes current_reg) output 32;
  let retired := (fun _ => scratchpad_ (core_ vm)) <$> next_scratchpad in
  let vm := set_scratchpad next vm in
  Done (set_fe_round fpstate vm, j, output, next_seed_out, retired).
End operations.

(** ** Programs the scheduler handles *)

Definition schedulable (env : JitEnv) (program : list Instruction) : bool :=
  (use_dag env || anchors_agree (normalize <$> program)) && forallb fp_displaced program.

(** The programs of a hash, as the interpreted machine generates them one from the other. *)
Fixpoint chain_handled (b : build) (ss : Session) (l : list Z) (vm : VirtualMachine) (temp : AesState) : bool :=
  match l with
  | [] => true
  | k :: l => schedulable (envs ss k) (program_of (prog_stream temp)) &&
      match chain_step b (vm, temp) k with Done (vm, temp) => chain_handled b ss l vm temp | _ => false end
  end.
Definition programs_handled (b : build) (ss : Session) (vm : VirtualMachine) (temp : AesState) : bool :=
  chain_handled b ss (seqZ 0 8) (reset_rounding_mode vm) temp.
Definition hash_handled (b : build) (ss : Session) (vm : VirtualMachine) (input : list Z) : bool :=
  programs_handled b ss (set_scratchpad (filled_pad (digest input 64)) vm) (filled_seed (digest input 64)).

Lemma chain_handled_app b ss l1 l2 vm temp vm' temp' :
  chain_handled b ss (l1 ++ l2) vm temp = true -> ofoldl (chain_step b) (vm, temp) l1 = Done (vm', temp') -> chain_handled b ss l2 vm' temp' = true.
Proof.
  revert vm temp. induction l1 as [|k l1 IH]; intros vm temp H E; cbn [ofoldl app] in *; [by apply Done_pair in E as [<- <-]|].
  apply bind_Done in E as ([v t] & Ek & E). cbn [chain_handled] in H. rewrite Ek in H. apply andb_prop in H as [_ H]. by apply (IH v t).
Qed.

Lemma chain_handled_prefix b ss l1 l2 vm temp : chain_handled b ss (l1 ++ l2) vm temp = true -> chain_handled b ss l1 vm temp = true.
Proof.
  revert vm temp. induction l1 as [|k l1 IH]; intros vm temp H; [done|]. cbn [app chain_handled] in *. apply andb_prop in H as [-> H].
  destruct (chain_step b (vm, temp) k) as [[v t]| | |]; [by apply IH|done..].
Qed.

(** ** The machine and the buffer between programs *)

(** The buffer serves each of the eight calls. *)
Record session_ok (ss : Session) (depth : Z) (vm : VirtualMachine) (j : jit) : Prop := mkSessionOk {
  so_ready : jit_ready j;
  so_calls : forall k, 0 <= k < 8 -> host_ok (hosts ss k) depth (Z.of_nat (length (code j))) /\ lines_ready (envs ss k) (hosts ss k) depth vm (code j) /\
    writable (envs ss k) = true /\ executable (envs ss k) = true;
}.

Lemma lines_ready_memory env h depth vm vm' C : memory_of vm' = memory_of vm -> lines_ready env h depth vm C -> lines_ready env h depth vm' C.
Proof.
  intros [= E1 E2 E3]. unfold lines_ready, is_fast_mode. rewrite E1. destruct (negb _).
  - intros [A B]. rewrite <- E3 in A, B. by constructor.
  - intros [cache [A B D E F G]]. exists cache. rewrite <- E2 in A. by constructor.
Qed.

(** Another program's code in the buffer, with the item function where it was. *)
Lemma lines_ready_code env1 h1 env2 h2 depth vm C C' :
  lines_ready env1 h1 depth vm C' -> lines_ready env2 h2 depth vm C -> lines_ready env2 h2 depth vm C'.
Proof.
  unfold lines_ready. destruct (is_fast_mode vm); [done|]. intros [c1 [A1 _ F1 _ _ _]] [c2 [A2 B2 _ D2 E2 G2]].
  assert (c1 = c2) as -> by congruence. exists c2. by constructor.
Qed.

Lemma session_memory ss depth vm vm' j : memory_of vm' = memory_of vm -> session_ok ss depth vm j -> session_ok ss depth vm' j.
Proof.
  intros E [A B]. constructor; [done|]. intros k Hk. destruct (B k Hk) as (B1 & B2 & B3). split; [done|]. split; [|done]. by apply (lines_ready_memory _ _ _ vm).
Qed.
Lemma session_next ss depth vm vm' j j' k : session_ok ss depth vm j -> 0 <= k < 8 -> jit_ready j' -> length (code j') = length (code j) ->
  memory_of vm' = memory_of vm -> lines_ready (envs ss k) (hosts ss k) depth vm (code j') -> session_ok ss depth vm' j'.
Proof.
  intros [_ H] Hk Hj Hl Hm Hlines. constructor; [done|]. intros i Hi. destruct (H i Hi) as (A & B & C). rewrite Hl. split; [done|]. split; [|done].
  apply (lines_ready_memory _ _ _ vm); [done|]. by eapply lines_ready_code.
Qed.

Lemma synced_initialized en p vm : synced (initialize_vm_state (set_program en p vm)) = initialize_vm_state (set_program en p (synced vm)).
Proof. reflexivity. Qed.

Section machines.
Context (c : Argon2dCache) (Hc : cache_ready c) (b : build) (ss : Session) (depth : Z).

(** A program, compiled and interpreted. *)
Lemma jit_run_sim k vm j vmi seed : 0 <= k < 8 -> session_ok ss depth vm j -> linked c (synced vm) vmi -> state64 seed ->
  schedulable (envs ss k) (program_of (prog_stream seed)) = true ->
  exists vmi' vm' j' n, run b seed vmi = Done vmi' /\ (forall fuel, (n <= fuel)%nat -> jit_run fuel ss b k seed vm j = Done (vm', j')) /\
    joined c (synced vm') vmi' /\ session_ok ss depth vm' j'.
Proof using Hc.
  intros Hk Hss Hl Hs Hh. pose proof Hl as [[S1 S2] [I1 I2] _ _ _]. apply andb_prop in Hh as [Hag Hfp].
  assert (Iv : vm_idle vm) by (destruct I1 as [K1 K2 K3 K4 K5 K6 K7 K8]; by constructor).
  set (P := set_program (entropy_of (prog_stream seed)) (program_of (prog_stream seed)) vm).
  destruct (so_calls _ _ _ _ Hss k Hk) as (Hh & Hlines & Hw & He). pose proof (so_ready _ _ _ _ Hss) as Hj.
  assert (Hlines' : lines_ready (envs ss k) (hosts ss k) depth P (code j)) by (by apply (lines_ready_memory _ _ _ vm)).
  destruct (run_jit_sim _ _ depth P j (set_program_idle seed vm Iv) Hj Hh Hlines' Hw He Hag Hfp) as (v & j' & n & Ev & Hstep & Hj' & Hlj & Hlen & Hn).
  destruct (run_linked c Hc b b (synced vm) vmi seed Hl Hs) as (v1 & v2 & E1 & E2 & Hjoin).
  rewrite run_eq in E1 by done. unfold P in Ev. rewrite synced_initialized in Ev. rewrite Ev in E1. injection E1 as <-.
  exists v2, (jit_result (initialize_vm_state P) v), j', n. split; [done|]. split; [|split].
  - intros fuel Hf. unfold jit_run, P in *. rewrite (fill_4r_ref b seed (replicate (128 + 2048) 0) 34) by (done || by rewrite length_replicate). by apply Hn.
  - destruct Hjoin as [[[T1 T2] [J1 J2] M L F] [Hcore Ha]].
    assert (Ec : core_ (synced (jit_result (initialize_vm_state P) v)) = core_ v).
    { cbn [synced jit_result set_core core_ reg_ scratchpad_ fe_round last_rounding_mode_]. rewrite (in_step_mode _ Hstep). by destruct (core_ v). }
    split; [|by rewrite Ec]. constructor; [|split; [|done]|by rewrite Ec..].
    + split; [exact S1|done].
    + destruct J1 as [K1 K2 K3 K4 _ _ _ _]. destruct (set_program_idle seed vm Iv) as [_ _ _ _ K5 K6 K7 K8]. constructor; rewrite ?Ec; done.
  - eapply (session_next ss depth vm); try done. by apply (lines_ready_memory _ _ _ P).
Qed.

Lemma jit_chain_sim l vm j vmi temp : Forall (fun k => 0 <= k < 8) l -> session_ok ss depth vm j -> linked c (synced vm) vmi -> state64 temp ->
  chain_handled b ss l vmi temp = true ->
  exists vmi' vm' j' temp' n, ofoldl (chain_step b) (vmi, temp) l = Done (vmi', temp') /\
    (forall fuel, (n <= fuel)%nat -> ofoldl (jit_chain_step fuel ss b) (vm, j, temp) l = Done (vm', j', temp')) /\
    linked c (synced vm') vmi' /\ session_ok ss depth vm' j' /\ state64 temp'.
Proof using Hc.
  revert vm j vmi temp. induction l as [|k l IH]; intros vm j vmi temp Hr Hss Hl Ht Hh; cbn [ofoldl]; [exists vmi, vm, j, temp, 0%nat; done|].
  apply list.Forall_cons in Hr as [Hk Hr]. cbn [chain_handled] in Hh. apply andb_prop in Hh as [Hh1 Hh2].
  destruct (jit_run_sim k vm j vmi temp Hk Hss Hl Ht Hh1) as (v2 & v & j1 & n1 & E2 & En & [Hl' [Hcore _]] & Hss').
  destruct (digest64 (reg_bytes (reg_ (core_ v2))) temp (proj1 Ht)) as [Ed Hd].
  assert (Er : reg_ (core_ v) = reg_ (core_ v2)) by (by rewrite <- Hcore).
  assert (Es : chain_step b (vmi, temp) k = Done (v2, digest (reg_bytes (reg_ (core_ v2))) 64)) by (unfold chain_step; rewrite E2; cbn [mbind outcome_bind]; by rewrite Ed).
  rewrite Es in Hh2 |- *. cbn [mbind outcome_bind].
  destruct (IH v j1 v2 _ Hr Hss' Hl' Hd Hh2) as (vmi' & vm' & j' & temp' & n & F & G & Rest). exists vmi', vm', j', temp', (Nat.max n1 n).
  split; [done|]. split; [|done]. intros fuel Hf.
  assert (Ej : jit_chain_step fuel ss b (vm, j, temp) k = Done (v, j1, digest (reg_bytes (reg_ (core_ v2))) 64))
    by (cbn [jit_chain_step]; rewrite En by lia; cbn [mbind outcome_bind]; by rewrite Er, Ed).
  rewrite Ej. cbn [mbind outcome_bind]. apply G. lia.
Qed.

Lemma jit_programs_sim vm j vmi temp : session_ok ss depth vm j -> serves c vm -> serves c vmi -> vm_idle vm -> vm_idle vmi ->
  scratchpad_ (core_ vm) = scratchpad_ (core_ vmi) -> state64 temp -> programs_handled b ss vmi temp = true ->
  exists vmi' vm' j' n, run_programs b vmi temp = Done vmi' /\ (forall fuel, (n <= fuel)%nat -> jit_programs fuel ss b vm j temp = Done (vm', j')) /\
    joined c (synced vm') vmi' /\ session_ok ss depth vm' j'.
Proof using Hc.
  intros Hss S1 S2 I1 I2 Hm Ht Hh.
  assert (Hl : linked c (synced (reset_rounding_mode vm)) (reset_rounding_mode vmi)).
  { constructor; try done. split; [destruct I1|destruct I2]; by constructor. }
  assert (Hss' : session_ok ss depth (reset_rounding_mode vm) j) by (by apply (session_memory _ _ vm)).
  unfold programs_handled in Hh. change (seqZ 0 8) with (seqZ 0 7 ++ [7]) in Hh.
  assert (Hr : Forall (fun k => 0 <= k < 8) (seqZ 0 7)) by (apply Forall_forall; intros k Hk%list_elem_of_In%elem_of_seqZ; lia).
  destruct (jit_chain_sim (seqZ 0 7) (reset_rounding_mode vm) j (reset_rounding_mode vmi) temp Hr Hss' Hl Ht (chain_handled_prefix _ _ _ _ _ _ Hh))
    as (v2 & v & j1 & t & n1 & E & En & Hl' & Hss1 & Ht').
  pose proof (chain_handled_app _ _ _ _ _ _ _ _ Hh E) as H7. cbn [chain_handled] in H7. apply andb_prop in H7 as [H7 _].
  destruct (jit_run_sim 7 v j1 v2 t ltac:(lia) Hss1 Hl' Ht' H7) as (w2 & w & j2 & n2 & F & Fn & Hjoin & Hss2). exists w2, w, j2, (Nat.max n1 n2).
  unfold run_programs, jit_programs. rewrite E. cbn [mbind outcome_bind]. split; [done|]. split; [|done].
  intros fuel Hf. rewrite En by lia. cbn [mbind outcome_bind]. apply Fn. lia.
Qed.
End machines.

(** ** Whole hashes *)

#[local] Opaque filled_pad filled_seed scratchpad_lines.

Lemma synced_joined c vm vmi : joined c (synced vm) vmi ->
  vm_idle vm /\ serves c vm /\ vm_idle vmi /\ reg_ (core_ vm) = reg_ (core_ vmi) /\ scratchpad_ (core_ vm) = scratchpad_ (core_ vmi) /\
  length (floats_bytes (a (reg_ (core_ vm)))) = 64%nat.
Proof.
  intros [[[S1 _] [I1 I2] _ _ _] [Hcore Ha]]. split; [destruct I1; by constructor|]. split; [exact S1|]. split; [done|]. rewrite <- Hcore. done.
Qed.

(** C2: a machine that compiles computes RandomX.  With a buffer that holds the template, and a dataset, a
    cache or a partial dataset behind the machine, whose bound may move between programs: when the scheduler
    handles each of the eight programs that the hash of [input] goes through, the compiled hash returns the digest
    of the interpreted one, in both entry points; the pipelined one also prepares the next input's scratchpad
    and seed.  The machine is idle again, serves the same cache, and the buffer is ready for the next hash. *)
Theorem jit_hash_equiv c b d2 ss depth vm j input out next_input next run_seed :
  cache_ready c -> serves c vm -> vm_idle vm -> session_ok ss depth vm j -> length out = 32%nat ->
  (forall m, next = Some m -> pad_sized m) -> (forall seed, run_seed = Some seed -> prepared b input vm seed) ->
  exists vm1 h, randomx_calculate_hash b vm input out = Done (vm1, h) /\
    (hash_handled b ss vm input = true ->
     exists n vm2 j2 vm3 j3 seed retired, (forall fuel, (n <= fuel)%nat ->
         jit_calculate_hash fuel ss b vm j input out = Done (vm2, j2, h) /\
         jit_calculate_hash_pipelined fuel ss b d2 vm j input out next_input next run_seed = Done (vm3, j3, h, seed, retired)) /\
       prepared b next_input vm3 seed /\ fe_round (core_ vm2) = fe_round (core_ vm) /\ fe_round (core_ vm3) = fe_round (core_ vm) /\
       (vm_idle vm2 /\ serves c vm2 /\ session_ok ss depth vm2 j2) /\ (vm_idle vm3 /\ serves c vm3 /\ session_ok ss depth vm3 j3)).
Proof.
  intros Hc S I Hss Lo Ln Hseed.
  destruct (hash_linked c Hc b b vm vm input out out S S I I Lo Lo) as (vm1 & _ & h & E1 & _ & _ & _ & _ & _ & _ & w & Ew & Eh).
  exists vm1, h. split; [done|]. intros Hh. destruct (digest64 input (replicate 64 0)) as [Et Ht]; [done|]. set (t := digest input 64) in *.
  destruct (init_scratchpad_eq b vm t I Ht) as [Ei Ii]. destruct (digest64 next_input (replicate 64 0)) as [En Hn]; [done|].
  assert (Hss' : session_ok ss depth (set_scratchpad (filled_pad t) vm) j) by (by apply (session_memory _ _ vm)).
  destruct (jit_programs_sim c Hc b ss depth (set_scratchpad (filled_pad t) vm) j (set_scratchpad (filled_pad t) vm) (filled_seed t) Hss' S S Ii Ii eq_refl (filled_seed_wf t Ht) Hh) as (w' & v & j' & n & Ew' & Ev & Hjoin & Hssv).
  assert (w' = w) as -> by congruence. destruct (synced_joined c v w Hjoin) as (Iv & Sv & _ & Er & Ep & Ha).
  assert (Ed : final_digest v = h) by (rewrite Eh; unfold final_digest; by rewrite Er, Ep).
  assert (Hstart : (match run_seed with Some seed => Done (seed, vm) | None => init_scratchpad b t vm end) = Done (filled_seed t, set_scratchpad (filled_pad t) vm)).
  { destruct run_seed as [seed|]; [|done]. destruct (prepared_eq b input vm seed I (Hseed _ eq_refl)) as [-> Hp]. by rewrite set_scratchpad_same. }
  destruct (filled_pad_wf (digest next_input 64)) as [Lp Bp]. pose proof (vi_mem _ Iv) as [Hm Hb].
  eexists n, _, j', _, j', _, _. split; [intros fuel Hf; split|].
  - unfold jit_calculate_hash. rewrite Et. cbn [mbind outcome_bind]. rewrite Ei. cbn [mbind outcome_bind]. rewrite Ev by done. cbn [mbind outcome_bind].
    rewrite final_result_eq by done. cbn [mbind outcome_bind]. rewrite Ed. reflexivity.
  - unfold jit_calculate_hash_pipelined. rewrite Et. cbn [mbind outcome_bind]. rewrite Hstart. cbn [mbind outcome_bind]. rewrite Ev by done. cbn [mbind outcome_bind].
    rewrite En. cbn [mbind outcome_bind]. rewrite hash_then_fill_eq by done. cbn [mbind outcome_bind].
    destruct (blake_into_eq (reg_bytes (set_a (hash_result scratchpad_lines (scratchpad_ (core_ v))) (reg_ (core_ v)))) out 32) as (-> & _); [lia|lia|].
    cbn [mbind outcome_bind]. fold (final_digest v). rewrite Ed. reflexivity.
  - split; [|split; [done|split; [done|split]]].
    + exists (digest next_input 64). split; [exact En|]. by apply fill_pad.
    + split; [by apply finished_idle|]. split; [exact Sv|]. by apply (session_memory _ _ v).
    + split; [|split; [exact Sv|by apply (session_memory _ _ v)]].
      destruct Iv as [K1 K2 K3 _ K5 K6 K7 K8]. constructor; [exact K1|exact K2|exact K3|exact (conj Lp Bp)|exact K5|exact K6|exact K7|exact K8].
Qed.

Definition sample_session (ds : list Z) : Session := mkSession (fun _ => sample_env) (fun _ => sample_host ds).
Lemma sample_session_ok ds : Z.of_nat (length ds) = 2181038080 -> session_ok (sample_session ds) 4096 (sample_vm ds) sample_jit.
Proof. intros L. constructor; [exact sample_ready|]. intros k _. split; [exact (sample_host_ok ds)|]. split; [exact (sample_lines ds L)|split; reflexivity]. Qed.

#[local] Opaque full_dataset.
Lemma jit_hash_equiv_witness : let ds := full_dataset idle_cache in let ss := sample_session ds in let vm := sample_vm ds in
  let b := mkBuild true false false in
  exists vm1 h, randomx_calculate_hash b vm [1; 2; 3] (replicate 32 0) = Done (vm1, h) /\
    (hash_handled b ss vm [1; 2; 3] = true ->
     exists n vm2 j2 vm3 j3 seed retired, (forall fuel, (n <= fuel)%nat ->
         jit_calculate_hash fuel ss b vm sample_jit [1; 2; 3] (replicate 32 0) = Done (vm2, j2, h) /\
         jit_calculate_hash_pipelined fuel ss b true vm sample_jit [1; 2; 3] (replicate 32 0) [4] None None = Done (vm3, j3, h, seed, retired)) /\
       prepared b [4] vm3 seed /\ fe_round (core_ vm2) = fe_round (core_ vm) /\ fe_round (core_ vm3) = fe_round (core_ vm) /\
       (vm_idle vm2 /\ serves idle_cache vm2 /\ session_ok ss 4096 vm2 j2) /\ (vm_idle vm3 /\ serves idle_cache vm3 /\ session_ok ss 4096 vm3 j3)).
Proof.
  intros ds ss vm b. pose proof (length_full_dataset idle_cache idle_cache_ready) as L. pose proof (full_dataset_bytes idle_cache idle_cache_ready) as B.
  refine (jit_hash_equiv idle_cache b true ss 4096 vm sample_jit [1; 2; 3] (replicate 32 0) [4] None None
    idle_cache_ready eq_refl (sample_idle ds L B) (sample_session_ok ds L) eq_refl _ _); discriminate.
Defined.
