(* ===== verification/JitTwoWay.v ===== *)
(** * Two dataset items at once

    The generator of src/src/jit_dataset_2way.cpp: the code of a superscalar program, each instruction emitted
    for two streams of registers over one pool of literals, and the function around it; the bytes of
    [randomx_calc_dataset_item_aarch64_2way] are parameters here.  The streams do not disturb each other. *)

From stdpp Require Import list.
From S2P Require Import Prelude RandomX Blake2b Superscalar SuperscalarGen Argon2 Footprint JitSuper A64 JitDataset.

(** ** Emission *)

Module TwoWay.
Definition B_INSTR : Z := 0x14000000.
Definition EOR : Z := 0xCA000000.
Definition ADD : Z := 0x8B000000.
Definition SUB : Z := 0xCB000000.
Definition MUL : Z := 0x9B007C00.
Definition UMULH : Z := 0x9BC07C00.
Definition SMULH : Z := 0x9B407C00.
Definition MOVZ : Z := 0xD2800000.
Definition MOVN : Z := 0x92800000.
Definition MOVK : Z := 0xF2800000.
Definition ADD_IMM_LO : Z := 0x91000000.
Definition ADD_IMM_HI : Z := 0x91400000.
Definition LDR_LITERAL : Z := 0x58000000.
Definition ROR_IMM : Z := 0x93C00000.
Definition MOV_REG : Z := 0xAA0003E0.
Definition AND_IMM_BASE : Z := 0x92400000.
End TwoWay.

Definition StreamBRegMap : list Z := [19; 20; 21; 22; 23; 24; 25; 26].
Definition StreamARegisterValue : Z := 10.
Definition StreamBRegisterValue : Z := 28.
Definition StreamAMixBlock : Z := 11.
Definition StreamBMixBlock : Z := 17.
Definition StreamATmp : Z := 12.
Definition StreamBTmp : Z := 16.

Local Infix ".|" := Z.lor (at level 50, left associativity) : Z_scope.
Local Infix "<<" := Z.shiftl (at level 45, left associativity) : Z_scope.
Local Infix ">>" := Z.shiftr (at level 45, left associativity) : Z_scope.

Definition emitMovImmediate2Way (dst imm : Z) (st : emitter) : outcome emitter :=
  if imm <? 1 << 16 then emit32 (TwoWay.MOVZ .| dst .| imm << 5) st
  else
    st ← (if to_signed 32 imm <? 0
          then emit32 (TwoWay.MOVN .| dst .| 1 << 21 .| (not32 imm >> 16) << 5) st
          else emit32 (TwoWay.MOVZ .| dst .| 1 << 21 .| (imm >> 16) << 5) st);
    emit32 (TwoWay.MOVK .| dst .| (Z.land imm 0xFFFF) << 5) st.

Definition emitAddImmediate2Way (dst src imm tmpReg : Z) (st : emitter) : outcome emitter :=
  if imm <? 1 << 24 then
    let imm_lo := Z.land imm ((1 << 12) - 1) in
    let imm_hi := imm >> 12 in
    if negb (imm_lo =? 0) && negb (imm_hi =? 0) then
      st ← emit32 (TwoWay.ADD_IMM_LO .| dst .| src << 5 .| imm_lo << 10) st;
      emit32 (TwoWay.ADD_IMM_HI .| dst .| dst << 5 .| imm_hi << 10) st
    else if negb (imm_lo =? 0) then emit32 (TwoWay.ADD_IMM_LO .| dst .| src << 5 .| imm_lo << 10) st
    else emit32 (TwoWay.ADD_IMM_HI .| dst .| src << 5 .| imm_hi << 10) st
  else
    st ← emitMovImmediate2Way tmpReg imm st;
    emit32 (TwoWay.ADD .| dst .| src << 5 .| tmpReg << 16) st.

(** One instruction for one stream; [literalPos] is the stream's place in the pool. *)
Definition emitSuperscalarInstr (instr : Instruction) (d s tmpReg literalPos : Z) (st : emitter) : outcome (Z * emitter) :=
  let done m := st ← m; Done (literalPos, st) in
  match type_of_opcode (opcode instr) with
  | Some ISUB_R => done (emit32 (TwoWay.SUB .| d .| d << 5 .| s << 16) st)
  | Some IXOR_R => done (emit32 (TwoWay.EOR .| d .| d << 5 .| s << 16) st)
  | Some IADD_RS => done (emit32 (TwoWay.ADD .| d .| d << 5 .| getModShift instr << 10 .| s << 16) st)
  | Some IMUL_R => done (emit32 (TwoWay.MUL .| d .| d << 5 .| s << 16) st)
  | Some IROR_C => done (emit32 (TwoWay.ROR_IMM .| d .| d << 5 .| (Z.land (getImm32 instr) 63) << 10 .| d << 16) st)
  | Some IADD_C7 | Some IADD_C8 | Some IADD_C9 => done (emitAddImmediate2Way d d (getImm32 instr) tmpReg st)
  | Some IXOR_C7 | Some IXOR_C8 | Some IXOR_C9 =>
      done (st ← emitMovImmediate2Way tmpReg (getImm32 instr) st;
            emit32 (TwoWay.EOR .| d .| d << 5 .| tmpReg << 16) st)
  | Some IMULH_R => done (emit32 (TwoWay.UMULH .| d .| d << 5 .| s << 16) st)
  | Some ISMULH_R => done (emit32 (TwoWay.SMULH .| d .| d << 5 .| s << 16) st)
  | Some IMUL_RCP =>
      let offset := Z.land (wrap 32 (literalPos - st.2) / 4) (2 ^ 19 - 1) in
      st ← emit32 (TwoWay.LDR_LITERAL .| tmpReg .| offset << 5) st;
      st ← emit32 (TwoWay.MUL .| d .| d << 5 .| tmpReg << 16) st;
      Done (literalPos + 8, st)
  | Some INVALID | None => Done (literalPos, st)
  end.

Definition streamB (k : Z) : Z := StreamBRegMap !!! Z.to_nat k.

(** One turn of the loop over [emit_order]. *)
Definition emit_both (instr : Instruction) (literalPosA literalPosB : Z) (st : emitter) : outcome (Z * Z * emitter) :=
  '(literalPosA, st) ← emitSuperscalarInstr instr (dst instr) (src instr) StreamATmp literalPosA st;
  '(literalPosB, st) ← emitSuperscalarInstr instr (streamB (dst instr)) (streamB (src instr)) StreamBTmp literalPosB st;
  Done (literalPosA, literalPosB, st).

(** The jump over the pool, the pool, the instructions of both streams. *)
Definition emit_program2 (scheduler : SuperscalarProgram -> outcome (list nat)) (prog : SuperscalarProgram) (reciprocalCache : list Z)
  (st : emitter) : outcome emitter :=
  let '(code, jmp_pos) := st in
  '(code, codePos) ← ofoldl (emit_literal reciprocalCache) (code, jmp_pos + 4)
                       (take (Z.to_nat (size_ prog)) (program_buffer_ prog));
  '(code, branchWritePos) ← emit32 (TwoWay.B_INSTR .| (codePos - jmp_pos) / 4) (code, jmp_pos);
  emit_order ← scheduler prog;
  '(_, _, st) ← ofoldl (fun '(literalPosA, literalPosB, st) idx =>
                          instr ← program_at prog idx; emit_both instr literalPosA literalPosB st)
                  (branchWritePos, branchWritePos, (code, codePos)) emit_order;
  Done st.

(** One turn of the loop over the programs. *)
Definition emit_round2 (scheduler : SuperscalarProgram -> outcome (list nat)) (t : templates) (reciprocalCache : list Z) (st : emitter)
  (prog : SuperscalarProgram) : outcome emitter :=
  let mask := Z.log2 (kRandomXCacheBytes / 64) - 1 in
  st ← emit32 (TwoWay.AND_IMM_BASE .| StreamAMixBlock .| StreamARegisterValue << 5 .| mask << 10) st;
  st ← emit32 (TwoWay.AND_IMM_BASE .| StreamBMixBlock .| StreamBRegisterValue << 5 .| mask << 10) st;
  st ← emit_template (t_prefetch t) st;
  st ← emit_program2 scheduler prog reciprocalCache st;
  st ← emit_template (t_mix t) st;
  st ← emit32 (TwoWay.MOV_REG .| StreamARegisterValue .| addr_reg_ prog << 16) st;
  emit32 (TwoWay.MOV_REG .| StreamBRegisterValue .| streamB (addr_reg_ prog) << 16) st.

(** The pieces of [randomx_calc_dataset_item_aarch64_2way]: to its prefetch, mix and store_result labels and its end. *)
Definition calcDataset2WaySize (t : templates) : Z :=
  let prologue := Z.of_nat (length (t_prologue t)) in
  let roundPrologue := Z.of_nat (length (t_prefetch t)) + 4 + 4 in
  let roundEpilogue := Z.of_nat (length (t_mix t)) + 4 + 4 in
  let roundBody := kSuperscalarMaxSize * 16 * 2 + kSuperscalarMaxSize * 8 in
  let epilogue := Z.of_nat (length (t_store t)) in
  prologue + Z.of_nat kRandomXCacheAccesses * (roundPrologue + roundBody + roundEpilogue) + epilogue.

Record JitDataset2Way : Type := mk2Way {
  code_ : list Z;
  bufferBytes_ : Z;
  codeSize_ : Z;
}.

(** [pages]: what [allocMemoryPages] returns; [rwx] and [rw]: whether the changes of protection succeed. *)
Definition make2Way (t : templates) (pages : Z -> option (list Z)) (rwx rw : bool) : outcome JitDataset2Way :=
  let bufferBytes := calcDataset2WaySize t in
  match pages bufferBytes with
  | None => Throw (runtime_error "JitDataset2Way: allocMemoryPages failed")
  | Some code =>
      if negb rwx && negb rw then Throw (runtime_error "JitDataset2Way: setPagesRW failed")
      else Done (mk2Way code bufferBytes 0)
  end.

Definition generate (scheduler : SuperscalarProgram -> outcome (list nat)) (t : templates) (programs : list SuperscalarProgram)
  (reciprocalCache : list Z) (j : JitDataset2Way) : outcome JitDataset2Way :=
  st ← emit_template (t_prologue t) (code_ j, 0);
  st ← ofoldl (emit_round2 scheduler t reciprocalCache) st programs;
  '(code, codePos) ← emit_template (t_store t) st;
  if bufferBytes_ j <? codePos
  then Throw (runtime_error "JitDataset2Way: emitted code exceeded allocated buffer")
  else Done (mk2Way code (bufferBytes_ j) codePos).

(** ** One stream *)

(** The words of an instruction for a stream; [off] is the offset field of a literal load. *)
Definition add_imm_words (d imm tmp : Z) : list Z :=
  let lo := Z.land imm 4095 in
  let hi := imm >> 12 in
  if imm <? 2 ^ 24 then
    if negb (lo =? 0) && negb (hi =? 0) then [TwoWay.ADD_IMM_LO .| d .| d << 5 .| lo << 10; TwoWay.ADD_IMM_HI .| d .| d << 5 .| hi << 10]
    else if negb (lo =? 0) then [TwoWay.ADD_IMM_LO .| d .| d << 5 .| lo << 10] else [TwoWay.ADD_IMM_HI .| d .| d << 5 .| hi << 10]
  else imm_words true tmp imm ++ [ARMV8A.ADD .| d .| d << 5 .| tmp << 16].

Definition stream_words (instr : Instruction) (d s tmp off : Z) : list Z :=
  match type_of_opcode (opcode instr) with
  | Some ISUB_R => [ARMV8A.SUB .| d .| d << 5 .| s << 16]
  | Some IXOR_R => [ARMV8A.EOR .| d .| d << 5 .| s << 16]
  | Some IADD_RS => [ARMV8A.ADD .| d .| d << 5 .| getModShift instr << 10 .| s << 16]
  | Some IMUL_R => [ARMV8A.MUL .| d .| d << 5 .| s << 16]
  | Some IROR_C => [ARMV8A.ROR_IMM .| d .| d << 5 .| (Z.land (getImm32 instr) 63) << 10 .| d << 16]
  | Some IADD_C7 | Some IADD_C8 | Some IADD_C9 => add_imm_words d (getImm32 instr) tmp
  | Some IXOR_C7 | Some IXOR_C8 | Some IXOR_C9 => imm_words true tmp (getImm32 instr) ++ [ARMV8A.EOR .| d .| d << 5 .| tmp << 16]
  | Some IMULH_R => [ARMV8A.UMULH .| d .| d << 5 .| s << 16]
  | Some ISMULH_R => [ARMV8A.SMULH .| d .| d << 5 .| s << 16]
  | Some IMUL_RCP => [ARMV8A.LDR_LITERAL .| tmp .| off << 5; ARMV8A.MUL .| d .| d << 5 .| tmp << 16]
  | Some INVALID | None => []
  end.

Lemma emits_mov2 d imm pos : emits (emitMovImmediate2Way d imm) pos (word_bytes (imm_words true d imm)).
Proof. exact (emits_imm true d imm pos). Qed.
Lemma emits_two w1 w2 pos : emits (fun st => st ← emit32 w1 st; emit32 w2 st) pos (word_bytes [w1; w2]).
Proof. change [w1; w2] with ([w1] ++ [w2]). rewrite word_bytes_app. apply emits_bind; apply emits_emit32. Qed.
Lemma emits_mov_op d imm w pos : emits (fun st => st ← emitMovImmediate2Way d imm st; emit32 w st) pos (word_bytes (imm_words true d imm ++ [w])).
Proof. rewrite word_bytes_app. apply emits_bind; [apply emits_mov2|apply emits_emit32]. Qed.
Lemma emits_add2 d imm tmp pos : emits (emitAddImmediate2Way d d imm tmp) pos (word_bytes (add_imm_words d imm tmp)).
Proof.
  intros code H0 Hl. unfold emitAddImmediate2Way, add_imm_words in *. change (1 << 24) with (2 ^ 24). change ((1 << 12) - 1) with 4095.
  destruct (imm <? 2 ^ 24); [|exact (emits_mov_op tmp imm _ pos code H0 Hl)]. cbv zeta.
  destruct (negb (Z.land imm 4095 =? 0)); cbn [andb] in *; [|exact (emits_emit32 _ pos code H0 Hl)].
  destruct (negb (imm >> 12 =? 0)); [exact (emits_two _ _ pos code H0 Hl)|exact (emits_emit32 _ pos code H0 Hl)].
Qed.

(** Emitting one instruction writes its words. *)
Lemma emit_stream_words instr d s tmp lp code pos :
  let bs := word_bytes (stream_words instr d s tmp (literal_offset lp pos)) in
  0 <= pos -> pos + Z.of_nat (length bs) <= Z.of_nat (length code) ->
  emitSuperscalarInstr instr d s tmp lp (code, pos) =
    (code ← write_bytes code pos bs; Done (next_literal instr lp, (code, pos + Z.of_nat (length bs)))).
Proof.
  intros bs H0 Hl.
  assert (Hone : forall f ws (v : Z), emits f pos (word_bytes ws) -> pos + Z.of_nat (length (word_bytes ws)) <= Z.of_nat (length code) ->
    (st ← f (code, pos); Done (v, st)) =
      (code ← write_bytes code pos (word_bytes ws); Done (v, (code, pos + Z.of_nat (length (word_bytes ws)))))).
  { intros f ws v He Hf. rewrite (He code H0 Hf). by destruct (write_bytes code pos (word_bytes ws)). }
  assert (Hnil : write_bytes code pos [] = Done code).
  { rewrite write_bytes_ok by (cbn in *; lia). cbn [length app]. by rewrite Nat.add_0_r, take_drop. }
  subst bs. revert Hl. unfold emitSuperscalarInstr, stream_words, next_literal, is_rcp. cbn [snd].
  destruct (type_of_opcode (opcode instr)) as [[]|];
    try match goal with |- context [bool_decide (?a = ?b)] => change (bool_decide (a = b)) with false end;
    cbv iota; intros Hl.
  all: try (by apply (Hone (emit32 _)); [apply emits_emit32|]).
  all: try (by apply (Hone (emitAddImmediate2Way _ _ _ _)); [apply emits_add2|]).
  all: try (by apply (Hone (fun st => st ← emitMovImmediate2Way _ _ st; emit32 _ st)); [apply emits_mov_op|]).
  all: try (cbn [word_bytes concat fmap list_fmap length]; rewrite Hnil; cbn; by rewrite Z.add_0_r).
  rewrite bool_decide_true by done. fold (literal_offset lp pos).
  set (w1 := ARMV8A.LDR_LITERAL .| _ .| _) in *. set (w2 := ARMV8A.MUL .| _ .| _ .| _) in *.
  etrans; [|exact (Hone (fun st => st ← emit32 w1 st; emit32 w2 st) [w1; w2] (lp + 8) (emits_two w1 w2 pos) Hl)].
  change (TwoWay.LDR_LITERAL .| tmp .| literal_offset lp pos << 5) with w1. change (TwoWay.MUL .| d .| d << 5 .| tmp << 16) with w2.
  cbn beta. generalize (emit32 w1 (code, pos)). intros o. destruct o as [st| | |]; reflexivity.
Qed.

Lemma stream_words_length instr d s tmp off :
  (length (stream_words instr d s tmp off) <= 3)%nat /\ (is_rcp instr = true -> length (stream_words instr d s tmp off) = 2%nat).
Proof.
  unfold stream_words, is_rcp, add_imm_words, imm_words. destruct (type_of_opcode (opcode instr)) as [[]|];
    repeat match goal with |- context [if ?b then _ else _] => destruct b end; rewrite ?length_app; cbn [length]; (split; [lia|intros H; try lia; by apply bool_decide_eq_true in H]).
Qed.

(** The registers of a stream: [rm k] for the program's register [k], and a scratch register. *)
Record stream (rm : Z -> Z) (tmp : Z) : Prop := mkStream {
  sm_range : forall k, 0 <= k < 8 -> 0 <= rm k < 31 /\ rm k <> tmp;
  sm_inj : forall i j, 0 <= i < 8 -> 0 <= j < 8 -> rm i = rm j -> i = j;
  sm_tmp : 0 <= tmp < 31;
}.
Lemma streamA_ok : stream (fun k => k) StreamATmp.
Proof. constructor; unfold StreamATmp; intros; lia. Qed.
Lemma streamB_eq k : 0 <= k < 8 -> streamB k = 19 + k.
Proof. intros Hk. assert (H : k = 0 \/ k = 1 \/ k = 2 \/ k = 3 \/ k = 4 \/ k = 5 \/ k = 6 \/ k = 7) by lia. by repeat (destruct H as [->|H]; [reflexivity|]); subst k. Qed.
Lemma streamB_ok : stream streamB StreamBTmp.
Proof. constructor; unfold StreamBTmp; intros; rewrite ?streamB_eq in *; lia. Qed.

Section stream.
Context (rm : Z -> Z) (tmp : Z) (Hst : stream rm tmp).

Definition view (xs : list Z) : list Z := (fun k => xget xs (rm k)) <$> seqZ 0 8.

Lemma view_lookup xs k : 0 <= k < 8 -> view xs !! Z.to_nat k = Some (xget xs (rm k)).
Proof. intros Hk. unfold view. rewrite list_lookup_fmap, lookup_seqZ_lt by lia. cbn. do 3 f_equal. lia. Qed.
Lemma view_get xs d : 0 <= d < 8 -> get_reg (view xs) d = Done (xget xs (rm d)).
Proof. intros Hd. unfold get_reg. by rewrite view_lookup. Qed.
Lemma view_ext xs ys : (forall k, 0 <= k < 8 -> xget ys (rm k) = xget xs (rm k)) -> view ys = view xs.
Proof. intros H. unfold view. apply list_fmap_ext. intros i k Hk. apply lookup_seqZ in Hk. apply H. lia. Qed.
Lemma view_set xs d v : machine xs -> 0 <= d < 8 -> view (xset xs (rm d) v) = set_reg (view xs) d v.
Proof using Hst.
  intros Hm Hd. apply list_eq. intros i. unfold set_reg. assert (Lv : length (view xs) = 8%nat) by (unfold view; by rewrite length_fmap, length_seqZ).
  destruct (Nat.lt_ge_cases i 8) as [Hi|Hi].
  - pose proof (view_lookup (xset xs (rm d) v) (Z.of_nat i) ltac:(lia)) as E. rewrite Nat2Z.id in E. rewrite E.
    destruct (decide (i = Z.to_nat d)) as [->|Hne].
    + rewrite list_lookup_insert_eq by lia. rewrite Z2Nat.id by lia. by rewrite xget_xset by (done || apply (sm_range _ _ Hst); lia).
    + rewrite list_lookup_insert_ne by congruence. pose proof (view_lookup xs (Z.of_nat i) ltac:(lia)) as E'. rewrite Nat2Z.id in E'. rewrite E'. f_equal.
      destruct (sm_range _ _ Hst d Hd), (sm_range _ _ Hst (Z.of_nat i) ltac:(lia)). apply xget_xset_ne; [lia|lia|].
      intros C. apply (sm_inj _ _ Hst) in C; lia.
  - rewrite !lookup_ge_None_2; [done| |]; rewrite ?length_insert; [lia|]. unfold view. rewrite length_fmap, length_seqZ. lia.
Qed.
Lemma view_tmp xs v : view (xset xs tmp v) = view xs.
Proof using Hst. apply view_ext. intros k Hk. destruct (sm_range _ _ Hst k Hk), (sm_tmp _ _ Hst). apply xget_xset_ne; [lia|lia|congruence]. Qed.

Definition outside (k : Z) : Prop := 0 <= k < 31 /\ k <> tmp /\ forall i, 0 <= i < 8 -> k <> rm i.
Record stream_ran (xs xs' r' : list Z) : Prop := mkStreamRan {
  sr_machine : machine xs';
  sr_regs : view xs' = r';
  sr_frame : forall k, outside k -> xget xs' k = xget xs k;
}.

Lemma upd2_view f instr xs r' : regs_ok instr -> upd2 f (view xs) instr = Done r' ->
  r' = set_reg (view xs) (dst instr) (f (xget xs (rm (dst instr))) (xget xs (rm (src instr)))).
Proof. intros [Hd Hs] H. unfold upd2 in H. rewrite !view_get in H by done. by injection H as <-. Qed.
Lemma upd1_view f instr xs r' : regs_ok instr -> upd1 f (view xs) instr = Done r' ->
  r' = set_reg (view xs) (dst instr) (f (xget xs (rm (dst instr)))).
Proof. intros [Hd Hs] H. unfold upd1 in H. rewrite !view_get in H by done. by injection H as <-. Qed.

(** One word that sets the destination, after the scratch register at most. *)
Lemma word_stream code pc xs xs0 w i d v r' :
  holds code pc (word_bytes [w]) -> 0 <= w < 2 ^ 32 -> decode w = Some i ->
  exec code i pc xs = Done (pc + 4, xset xs (rm d) v) -> machine xs -> 0 <= d < 8 -> word64 v ->
  r' = set_reg (view xs) d v -> (forall k, outside k -> xget xs k = xget xs0 k) ->
  exists xs', a64_run 1 code (pc, xs) = Done (pc + 4, xs') /\ stream_ran xs0 xs' r'.
Proof using Hst.
  intros Hh Hw Hdec He Hm Hd Hv -> Hf. exists (xset xs (rm d) v). split; [by rewrite (run_word _ _ _ _ _ _ _ _ 0 Hh Hw Hdec He)|].
  destruct (sm_range _ _ Hst d Hd). constructor; [by apply xset_machine|by apply view_set|]. intros k Hk. destruct Hk as (K1 & K2 & K3).
  rewrite xget_xset_ne by (try lia; intros C; by apply (K3 d Hd)). by apply Hf.
Qed.
Lemma same_frame (xs : list Z) : forall k, outside k -> xget xs k = xget xs k.
Proof. done. Qed.
Lemma tmp_frame xs v : forall k, outside k -> xget (xset xs tmp v) k = xget xs k.
Proof using Hst. intros k (K1 & K2 & _). destruct (sm_tmp _ _ Hst). apply xget_xset_ne; [lia|lia|congruence]. Qed.

Context (rc code : list Z).

(** [mov tmp, imm; op d, d, tmp]. *)
Lemma imm_op_stream op instr pc xs r' w i :
  let imm := getImm32 instr in
  let d := rm (dst instr) in
  machine xs -> regs_ok instr -> 0 <= imm < 2 ^ 32 -> (forall a b, word64 a -> word64 b -> word64 (op a b)) ->
  upd1 (fun x => op x (signExtend2sCompl imm)) (view xs) instr = Done r' ->
  holds code pc (word_bytes (imm_words true tmp imm ++ [w])) -> 0 <= w < 2 ^ 32 -> decode w = Some i ->
  (forall pc xs, machine xs -> exec code i pc xs = Done (pc + 4, xset xs d (op (xget xs d) (xget xs tmp)))) ->
  let n := length (imm_words true tmp imm ++ [w]) in
  exists xs', a64_run n code (pc, xs) = Done (pc + 4 * Z.of_nat n, xs') /\ stream_ran xs xs' r'.
Proof using Hst.
  intros imm d Hm Hregs Hi Hop He Hh Hw Hdec Hex n. pose proof Hregs as [Hd Hs]. apply upd1_view in He; [|done].
  destruct (sm_range _ _ Hst _ Hd) as [Rd Nd]. fold d in Rd, Nd. pose proof (sm_tmp _ _ Hst) as Ht.
  rewrite word_bytes_app in Hh. apply holds_app in Hh as [H1 H2]. subst n. rewrite length_app, a64_run_app, imm_runs by (done || lia). cbn [mbind outcome_bind length].
  rewrite word_bytes_length in H2. replace (Z.of_nat (4 * _)) with (4 * Z.of_nat (length (imm_words true tmp imm))) in H2 by lia.
  assert (Hm' : machine (xset xs tmp (sext32 imm))) by (apply xset_machine; [done|apply sext32_range]).
  destruct (word_stream code _ (xset xs tmp (sext32 imm)) xs w i (dst instr) (op (xget xs d) (sext32 imm)) r' H2 Hw Hdec) as (xs' & E & R); try done.
  - rewrite Hex by done. rewrite xget_xset_ne by (lia || done). by rewrite xget_xset by (done || lia).
  - apply Hop; [apply xget_word; [done|lia]|apply sext32_range].
  - by rewrite view_tmp.
  - apply tmp_frame.
  - exists xs'. split; [|done]. rewrite E. do 2 f_equal. lia.
Qed.

Lemma small_sext imm : 0 <= imm < 2 ^ 24 -> sext32 imm = imm.
Proof.
  clear. intros H. unfold sext32, to_signed. rewrite (wrap_small 32) by (unfold in_range; lia). change (2 ^ (32 - 1)) with 2147483648.
  destruct (Z.ltb_spec imm 2147483648); [|lia]. by rewrite wrap_small by (unfold in_range; lia).
Qed.
Lemma imm_word op d imm : op mod 2 ^ 22 = 0 -> 0 <= d < 31 -> 0 <= imm < 4096 -> op .| d .| d << 5 .| imm << 10 = op + d + d * 32 + imm * 1024.
Proof. clear. intros Ho Hd Hi. rewrite (lor_low op d) by plia. rewrite (lor_field _ d 5 5) by plia. rewrite (lor_field _ imm 10 12) by plia. plia. Qed.

Lemma add_stream instr pc xs r' :
  let imm := getImm32 instr in
  machine xs -> regs_ok instr -> 0 <= imm < 2 ^ 32 ->
  upd1 (fun x => add64 x (signExtend2sCompl imm)) (view xs) instr = Done r' ->
  holds code pc (word_bytes (add_imm_words (rm (dst instr)) imm tmp)) ->
  let n := length (add_imm_words (rm (dst instr)) imm tmp) in
  exists xs', a64_run n code (pc, xs) = Done (pc + 4 * Z.of_nat n, xs') /\ stream_ran xs xs' r'.
Proof using Hst.
  intros imm Hm Hregs Hi He. pose proof Hregs as [Hd _]. destruct (sm_range _ _ Hst _ Hd) as [Rd Nd]. pose proof (sm_tmp _ _ Hst) as Ht.
  set (d := rm (dst instr)) in *. unfold add_imm_words. destruct (Z.ltb_spec imm (2 ^ 24)) as [Hs|Hs].
  2:{ intros Hh. rewrite add_word in * by lia. eapply (imm_op_stream add64); try done; [intros; auto with word|lia|apply decode_ADD; lia|].
      intros pc' xs' Hm'. cbn [exec]. rewrite shl64_0; [done|]. apply xget_word; [done|lia]. }
  apply upd1_view in He; [|done]. fold d in He. change (signExtend2sCompl imm) with (sext32 imm) in He. rewrite small_sext in He by lia.
  assert (Elo : Z.land imm 4095 = imm mod 4096) by (change 4095 with (Z.ones 12); by rewrite Z.land_ones by lia).
  assert (Ehi : imm >> 12 = imm / 4096) by (by rewrite Z.shiftr_div_pow2 by lia). rewrite Elo, Ehi.
  assert (Wlo : TwoWay.ADD_IMM_LO .| d .| d << 5 .| (imm mod 4096) << 10 = 0x91000000 + d + d * 32 + imm mod 4096 * 1024) by (apply imm_word; [reflexivity|lia|plia]).
  assert (Whi : TwoWay.ADD_IMM_HI .| d .| d << 5 .| (imm / 4096) << 10 = 0x91400000 + d + d * 32 + imm / 4096 * 1024) by (apply imm_word; [reflexivity|lia|plia]).
  rewrite Wlo, Whi. pose proof (xget_word xs d Hm ltac:(lia)) as Wd.
  assert (Vadd : word64 (add64 (xget xs d) imm)) by auto with word.
  destruct (Z.eqb_spec (imm mod 4096) 0) as [E0|N0]; cbn [negb andb].
  - intros Hh. cbn [length]. eapply word_stream; [exact Hh|plia|apply decode_ADD_hi; plia|cbn [exec]; fold d; reflexivity|done|done| | |apply same_frame].
    + replace (imm / 4096 * 4096) with imm by plia. done.
    + replace (imm / 4096 * 4096) with imm by plia. done.
  - destruct (Z.eqb_spec (imm / 4096) 0) as [E1|N1]; cbn [negb].
    + intros Hh. cbn [length]. eapply word_stream; [exact Hh|plia|apply decode_ADD_lo; plia|cbn [exec]; fold d; reflexivity|done|done| | |apply same_frame].
      * replace (imm mod 4096) with imm by plia. done.
      * replace (imm mod 4096) with imm by plia. done.
    + intros Hh. pose proof (holds_next _ _ _ _ Hh) as Hh2. cbn [length].
      erewrite (run_word _ _ _ _ _ _ _ _ 1 Hh); [|plia|apply decode_ADD_lo; plia|cbn [exec]; reflexivity].
      assert (W1 : word64 (add64 (xget xs d) (imm mod 4096))) by auto with word.
      destruct (word_stream code (pc + 4) (xset xs d (add64 (xget xs d) (imm mod 4096))) xs _ (ADD_imm d d (imm / 4096 * 4096)) (dst instr) (add64 (xget xs d) imm) r' Hh2) as (xs' & E & R).
      * plia.
      * apply decode_ADD_hi; plia.
      * cbn [exec]. fold d. do 2 f_equal. f_equal. rewrite xget_xset by (done || lia). unfold add64, wrap. rewrite Z.add_mod_idemp_l by lia. f_equal. plia.
      * by apply xset_machine.
      * done.
      * done.
      * rewrite He. unfold d at 2. rewrite view_set by done. unfold set_reg. by rewrite list_insert_insert_eq.
      * intros k (K1 & K2 & K3). apply xget_xset_ne; [lia|lia|]. intros C. by apply (K3 (dst instr) Hd).
      * exists xs'. split; [|done]. rewrite E. do 2 f_equal. lia.
Qed.

Lemma rcp_stream instr lp pc xs r' :
  is_rcp instr = true -> machine xs -> regs_ok instr ->
  (rcp ← reciprocal_of (Some rc) (getImm32 instr); upd1 (fun x => mul64 x rcp) (view xs) instr) = Done r' ->
  holds code pc (word_bytes [ARMV8A.LDR_LITERAL .| tmp .| literal_offset lp pc << 5; ARMV8A.MUL .| rm (dst instr) .| rm (dst instr) << 5 .| tmp << 16]) ->
  literal_ok rc code instr lp pc ->
  exists xs', a64_run 2 code (pc, xs) = Done (pc + 8, xs') /\ stream_ran xs xs' r'.
Proof using Hst.
  intros Hrcp Hm Hregs He Hh Hlit. destruct (Hlit Hrcp) as (H4 & Hr & v & Hv & Wv & Hl). pose proof Hregs as [Hd _].
  destruct (sm_range _ _ Hst _ Hd) as [Rd Nd]. pose proof (sm_tmp _ _ Hst) as Ht.
  destruct (literal_offset_value lp pc H4 Hr) as [Ho Eo]. set (off := literal_offset lp pc) in *. clearbody off.
  unfold reciprocal_of in He. rewrite Hv in He. cbn [mbind outcome_bind] in He. apply upd1_view in He; [|done].
  assert (Ew : ARMV8A.LDR_LITERAL .| tmp .| off << 5 = 0x58000000 + tmp + off * 32).
  { rewrite (lor_low ARMV8A.LDR_LITERAL tmp) by (lia || reflexivity). unfold ARMV8A.LDR_LITERAL. rewrite (lor_field _ off 5 19) by plia. plia. }
  rewrite Ew in Hh. pose proof (holds_next _ _ _ _ Hh) as Hh2. rewrite mul_word in Hh2 by lia.
  erewrite (run_word _ _ _ _ _ _ _ _ 1 Hh); [|plia|apply decode_LDR; lia|].
  2: { cbn [exec]. rewrite Eo. replace (pc + (lp - pc)) with lp by lia. rewrite Hl. reflexivity. }
  destruct (word_stream code (pc + 4) (xset xs tmp v) xs _ _ (dst instr) (mul64 (xget xs (rm (dst instr))) v) r' Hh2
    ltac:(lia) ltac:(apply decode_MUL; lia)) as (xs' & E & R).
  - cbn [exec]. change (xget (xset xs tmp v) 31) with 0. rewrite (xget_xset_ne _ _ (rm (dst instr))) by (lia || done).
    rewrite xget_xset by (done || lia). by rewrite mul_madd.
  - by apply xset_machine.
  - done.
  - auto with word.
  - by rewrite view_tmp.
  - apply tmp_frame.
  - exists xs'. split; [|done]. rewrite E. do 2 f_equal. lia.
Qed.

Ltac two_regs word He Hh dec :=
  rewrite word in Hh by lia; rewrite ?word by lia; apply upd2_view in He; [|done]; cbn [length];
  eapply word_stream; [exact Hh|lia|dec|reflexivity|done|done| |rewrite He; f_equal|apply same_frame].

Lemma stream_runs instr lp pc xs r' :
  let ws := stream_words instr (rm (dst instr)) (rm (src instr)) tmp (literal_offset lp pc) in
  machine xs -> regs_ok instr -> 0 <= imm32 instr < 2 ^ 32 -> execute_instruction (Some rc) (view xs) instr = Done r' ->
  holds code pc (word_bytes ws) -> literal_ok rc code instr lp pc ->
  exists xs', a64_run (length ws) code (pc, xs) = Done (pc + 4 * Z.of_nat (length ws), xs') /\ stream_ran xs xs' r'.
Proof using Hst.
  intros ws Hm Hregs Himm He Hh Hlit. pose proof Hregs as [Hd Hs]. destruct (sm_range _ _ Hst _ Hd) as [Rd Nd]. destruct (sm_range _ _ Hst _ Hs) as [Rs Ns].
  pose proof (sm_tmp _ _ Hst) as Ht.
  pose proof (xget_word xs (rm (dst instr)) Hm ltac:(lia)) as Wd. pose proof (xget_word xs (rm (src instr)) Hm ltac:(lia)) as Ws.
  pose proof (modshift_range instr) as Hsh. destruct (land63 (getImm32 instr)) as [H63 E63].
  subst ws. revert He Hh. unfold execute_instruction, stream_words. destruct (type_of_opcode (opcode instr)) as [[]|] eqn:Ety; intros He Hh; try discriminate He.
  - two_regs sub_word He Hh ltac:(apply decode_SUB; lia); rewrite shl64_0 by done; auto with word.
  - two_regs eor_word He Hh ltac:(apply decode_EOR; lia); rewrite shl64_0 by done; auto with word.
  - two_regs add_shift_word He Hh ltac:(apply decode_ADD; lia); auto with word.
  - two_regs mul_word He Hh ltac:(apply decode_MUL; lia); [auto with word|]. by rewrite mul_madd.
  - rewrite ror_word in Hh by lia. rewrite ror_word by lia. apply upd1_view in He; [|done]. cbn [length].
    eapply word_stream; [exact Hh|lia|apply decode_EXTR; lia|reflexivity|done|done| |rewrite He; f_equal|apply same_frame].
    + by apply wrap_range.
    + rewrite extr_rotr by done. apply rotr64_mod. rewrite E63, Z.mod_mod by lia. symmetry. apply to_signed_mod64.
  - by apply add_stream.
  - rewrite eor_word in * by lia. eapply (imm_op_stream Z.lxor); try done; [intros; auto with word|lia|apply decode_EOR; lia|].
    intros pc' xs' Hm'. cbn [exec]. rewrite shl64_0; [done|]. apply xget_word; [done|lia].
  - by apply add_stream.
  - rewrite eor_word in * by lia. eapply (imm_op_stream Z.lxor); try done; [intros; auto with word|lia|apply decode_EOR; lia|].
    intros pc' xs' Hm'. cbn [exec]. rewrite shl64_0; [done|]. apply xget_word; [done|lia].
  - by apply add_stream.
  - rewrite eor_word in * by lia. eapply (imm_op_stream Z.lxor); try done; [intros; auto with word|lia|apply decode_EOR; lia|].
    intros pc' xs' Hm'. cbn [exec]. rewrite shl64_0; [done|]. apply xget_word; [done|lia].
  - two_regs umulh_word He Hh ltac:(apply decode_UMULH; lia); auto with word.
  - two_regs smulh_word He Hh ltac:(apply decode_SMULH; lia); auto with word.
  - destruct (rcp_stream instr lp pc xs r') as (xs' & E & R); try done; [by apply bool_decide_true|].
    exists xs'. split; [|done]. cbn [length]. exact E.
Qed.
End stream.

(** ** Both streams *)

Abbreviation viewA := (view (fun k => k)).
Abbreviation viewB := (view streamB).

Record both_ran (xs xs' ra rb : list Z) : Prop := mkBothRan {
  br_machine : machine xs';
  br_a : viewA xs' = ra;
  br_b : viewB xs' = rb;
  br_frame : forall k, 8 <= k < 31 -> k <> 12 -> k <> 16 -> k < 19 \/ 26 < k -> xget xs' k = xget xs k;
}.

Lemma outside_A k : 8 <= k < 31 -> k <> 12 -> outside (fun k => k) StreamATmp k.
Proof. intros H1 H2. unfold outside, StreamATmp. split; [lia|]. split; [done|]. intros i Hi. lia. Qed.
Lemma outside_B k : 0 <= k < 31 -> k <> 16 -> k < 19 \/ 26 < k -> outside streamB StreamBTmp k.
Proof. intros H1 H2 H3. unfold outside, StreamBTmp. split; [lia|]. split; [done|]. intros i Hi. rewrite streamB_eq; lia. Qed.

Section order.
Context (rc : list Z).

(** The words in emission order, with the literals of both streams from [lp] and the code from [pc]. *)
Definition words_A (i : Instruction) (lp pc : Z) : list Z := stream_words i (dst i) (src i) StreamATmp (literal_offset lp pc).
Definition words_B (i : Instruction) (lp pc : Z) : list Z := stream_words i (streamB (dst i)) (streamB (src i)) StreamBTmp (literal_offset lp pc).
Definition past (ws : list Z) (pc : Z) : Z := pc + 4 * Z.of_nat (length ws).
Fixpoint both_words (instrs : list Instruction) (lp pc : Z) : list Z :=
  match instrs with
  | [] => []
  | i :: instrs =>
      let wa := words_A i lp pc in
      let wb := words_B i lp (past wa pc) in
      wa ++ wb ++ both_words instrs (next_literal i lp) (past wb (past wa pc))
  end.

Lemma words_length i lp pc :
  (length (words_A i lp pc) <= 3)%nat /\ (length (words_B i lp pc) <= 3)%nat /\
  (is_rcp i = true -> length (words_A i lp pc) = 2%nat /\ length (words_B i lp pc) = 2%nat).
Proof.
  clear rc. unfold words_A, words_B. destruct (stream_words_length i (dst i) (src i) StreamATmp (literal_offset lp pc)).
  destruct (stream_words_length i (streamB (dst i)) (streamB (src i)) StreamBTmp (literal_offset lp pc)). auto.
Qed.

Lemma holds_words code pc ws ws2 : holds code pc (word_bytes (ws ++ ws2)) -> holds code pc (word_bytes ws) /\ holds code (past ws pc) (word_bytes ws2).
Proof. rewrite word_bytes_app. intros [H1 H2]%holds_app. rewrite word_bytes_length in H2. unfold past. by replace (Z.of_nat (4 * length ws)) with (4 * Z.of_nat (length ws)) in H2 by lia. Qed.

(** One instruction, for one stream and then for the other. *)
Lemma both_step code i lp pc xs ra rb :
  machine xs -> encodable rc i -> execute_instruction (Some rc) (viewA xs) i = Done ra -> execute_instruction (Some rc) (viewB xs) i = Done rb ->
  let wa := words_A i lp pc in let wb := words_B i lp (past wa pc) in
  holds code pc (word_bytes wa) -> holds code (past wa pc) (word_bytes wb) ->
  literal_ok rc code i lp pc -> literal_ok rc code i lp (past wa pc) ->
  exists xs', a64_run (length wa + length wb) code (pc, xs) = Done (past wb (past wa pc), xs') /\ both_ran xs xs' ra rb.
Proof.
  intros Hm (Hri & Hii & _) Ea Eb wa wb Ha Hb La Lb. pose proof streamA_ok as SA. pose proof streamB_ok as SB.
  destruct (stream_runs (fun k => k) StreamATmp SA rc code i lp pc xs ra Hm Hri Hii Ea Ha La) as (x1 & E1 & [M1 V1 F1]).
  assert (VB : viewB x1 = viewB xs) by (apply view_ext; intros k Hk; rewrite streamB_eq by done; apply F1, outside_A; lia).
  rewrite <- VB in Eb.
  destruct (stream_runs streamB StreamBTmp SB rc code i lp (past wa pc) x1 rb M1 Hri Hii Eb Hb Lb) as (x2 & E2 & [M2 V2 F2]).
  assert (E1' : a64_run (length wa) code (pc, xs) = Done (past wa pc, x1)) by exact E1.
  exists x2. split; [rewrite a64_run_app, E1'; exact E2|]. constructor; [done| |done|].
  - rewrite <- V1. apply view_ext. intros k Hk. apply F2, outside_B; lia.
  - intros k K1 K2 K3 K4. rewrite F2 by (apply outside_B; lia). apply F1, outside_A; lia.
Qed.

Lemma both_runs code instrs : forall lp pc xs ra rb,
  machine xs -> Forall (encodable rc) instrs ->
  ofoldl (execute_instruction (Some rc)) (viewA xs) instrs = Done ra -> ofoldl (execute_instruction (Some rc)) (viewB xs) instrs = Done rb ->
  holds code pc (word_bytes (both_words instrs lp pc)) -> holds code lp (literals rc instrs) ->
  (lp - pc) mod 4 = 0 -> lp <= pc -> pc - lp + 24 * Z.of_nat (length instrs) <= 2 ^ 20 ->
  let n := length (both_words instrs lp pc) in
  exists xs', a64_run n code (pc, xs) = Done (pc + 4 * Z.of_nat n, xs') /\ both_ran xs xs' ra rb.
Proof.
  induction instrs as [|i instrs IH]; intros lp pc xs ra rb Hm Henc Ea Eb Hh Hl H4 Hle Hreach.
  { cbn in *. injection Ea as <-. injection Eb as <-. exists xs. split; [do 2 f_equal; lia|]. by constructor. }
  apply list.Forall_cons in Henc as [Hi Henc]. cbn [ofoldl] in Ea, Eb. apply bind_Done in Ea as (ra1 & Ea1 & Ea). apply bind_Done in Eb as (rb1 & Eb1 & Eb).
  cbn [both_words] in *. cbv zeta in *. destruct (words_length i lp pc) as (LA & _ & LR). set (wa := words_A i lp pc) in *.
  destruct (words_length i lp (past wa pc)) as (_ & LB & LR'). set (wb := words_B i lp (past wa pc)) in *. cbn [length] in Hreach.
  apply holds_words in Hh as [Hh1 Hh]. apply holds_words in Hh as [Hh2 Hh].
  destruct (literal_here rc code i instrs lp pc Hi Hl H4 ltac:(lia)) as [Lit1 Hl'].
  destruct (literal_here rc code i instrs lp (past wa pc) Hi Hl ltac:(unfold past; plia) ltac:(unfold past; lia)) as [Lit2 _].
  destruct (both_step code i lp pc xs ra1 rb1 Hm Hi Ea1 Eb1 Hh1 Hh2 Lit1 Lit2) as (x1 & E1 & [M1 A1 B1 F1]).
  destruct (IH (next_literal i lp) (past wb (past wa pc)) x1 ra rb) as (x2 & E2 & [M2 A2 B2 F2]); try done.
  - by rewrite A1.
  - by rewrite B1.
  - unfold past, next_literal. destruct (is_rcp i); plia.
  - unfold past, next_literal. destruct (is_rcp i) eqn:Hr; [destruct (LR eq_refl)|]; lia.
  - unfold past, next_literal. destruct (is_rcp i); lia.
  - exists x2. split.
    + rewrite !length_app, Nat.add_assoc, a64_run_app. fold wa wb in E1. rewrite E1. cbn [mbind outcome_bind]. rewrite E2. unfold past. do 2 f_equal. lia.
    + constructor; [done..|]. intros k K1 K2 K3 K4. rewrite F2 by done. by apply F1.
Qed.

(** The loop over [emit_order] writes the words. *)
Lemma emit_both_words i lp code pos :
  let wa := words_A i lp pos in let wb := words_B i lp (past wa pos) in
  0 <= pos -> past wb (past wa pos) <= Z.of_nat (length code) ->
  emit_both i lp lp (code, pos) = (code ← write_bytes code pos (word_bytes (wa ++ wb)); Done (next_literal i lp, next_literal i lp, (code, past wb (past wa pos)))).
Proof.
  clear rc. intros wa wb H0 Hl. unfold past in Hl. assert (La : Z.of_nat (length (word_bytes wa)) = 4 * Z.of_nat (length wa)) by (rewrite word_bytes_length; lia).
  assert (Lb : Z.of_nat (length (word_bytes wb)) = 4 * Z.of_nat (length wb)) by (rewrite word_bytes_length; lia).
  unfold emit_both. rewrite emit_stream_words; [|done|fold (words_A i lp pos) wa; lia]. fold (words_A i lp pos) wa. rewrite word_bytes_app, <- write_bytes_app by lia.
  destruct (write_bytes code pos (word_bytes wa)) as [c1| | |] eqn:E; try done. cbn [mbind outcome_bind]. pose proof (write_bytes_length _ _ _ _ E) as L1.
  rewrite La. fold (past wa pos). rewrite emit_stream_words; [|unfold past; lia|fold (words_B i lp (past wa pos)) wb; unfold past; lia].
  fold (words_B i lp (past wa pos)) wb. destruct (write_bytes c1 (past wa pos) (word_bytes wb)); try done. cbn [mbind outcome_bind]. by rewrite Lb.
Qed.
Lemma emit_order2_words instrs : forall lp code pos,
  let ws := both_words instrs lp pos in
  0 <= pos -> past ws pos <= Z.of_nat (length code) ->
  exists lp', ofoldl (fun '(la, lb, st) i => emit_both i la lb st) (lp, lp, (code, pos)) instrs =
    (code ← write_bytes code pos (word_bytes ws); Done (lp', lp', (code, past ws pos))).
Proof.
  clear rc. induction instrs as [|i instrs IH]; intros lp code pos; cbn [both_words]; cbv zeta; intros H0 Hl.
  { exists lp. unfold past in *. cbn [ofoldl word_bytes fmap list_fmap concat]. rewrite write_bytes_ok by (cbn in *; lia).
    cbn [length app mbind outcome_bind]. rewrite Nat.add_0_r, take_drop. do 3 f_equal. lia. }
  set (wa := words_A i lp pos) in *. set (wb := words_B i lp (past wa pos)) in *. set (ws := both_words instrs _ _) in *.
  assert (Ep : past (wa ++ wb ++ ws) pos = past ws (past wb (past wa pos))) by (unfold past; rewrite !length_app; lia). rewrite Ep in *.
  assert (Hb : past wb (past wa pos) <= Z.of_nat (length code)) by (unfold past in *; lia).
  cbn [ofoldl]. rewrite (emit_both_words i lp code pos H0 Hb). fold wa wb.
  assert (Lab : Z.of_nat (length (word_bytes (wa ++ wb))) = 4 * Z.of_nat (length wa) + 4 * Z.of_nat (length wb)) by (rewrite word_bytes_length, length_app; lia).
  assert (Ls : Z.of_nat (length (word_bytes ws)) = 4 * Z.of_nat (length ws)) by (rewrite word_bytes_length; lia).
  rewrite (app_assoc wa wb ws), (word_bytes_app (wa ++ wb) ws), <- write_bytes_app by (rewrite ?Lab, ?Ls; unfold past in Hl; lia).
  destruct (write_bytes code pos (word_bytes (wa ++ wb))) as [c1| | |] eqn:E;
    try (rewrite write_bytes_ok in E by (unfold past in Hb; lia); discriminate E). cbn [mbind outcome_bind].
  pose proof (write_bytes_length _ _ _ _ E) as L1. destruct (IH (next_literal i lp) c1 (past wb (past wa pos))) as [lp' E2]; [unfold past; lia|fold ws; lia|].
  exists lp'. rewrite E2. fold ws. rewrite Lab. replace (pos + (4 * Z.of_nat (length wa) + 4 * Z.of_nat (length wb))) with (past wb (past wa pos)) by (unfold past; lia). done.
Qed.

Lemma code2_length instrs : forall lp pc, (4 * length (both_words instrs lp pc) + length (literals rc instrs) <= 24 * length instrs)%nat.
Proof.
  unfold literals. induction instrs as [|i instrs IH]; intros lp pc; [cbn; lia|]. cbn [both_words length]. cbv zeta.
  destruct (words_length i lp pc) as (LA & _ & LR). set (wa := words_A i lp pc) in *.
  destruct (words_length i lp (past wa pc)) as (_ & LB & LR'). set (wb := words_B i lp (past wa pc)) in *. rewrite !length_app.
  pose proof (IH (next_literal i lp) (past wb (past wa pc))) as H. destruct (decide (is_rcp i = true)) as [Hr|Hr].
  - rewrite filter_cons_True, fmap_cons by done. cbn [concat]. rewrite length_app, length_le_bytes. destruct (LR Hr), (LR' Hr). lia.
  - rewrite filter_cons_False by done. lia.
Qed.
End order.

(** ** Programs in memory *)

Definition code2_end (rc : list Z) (instrs : list Instruction) (pos : Z) : Z :=
  let start := code_start rc instrs pos in past (both_words instrs (pos + 4) start) start.

Record laid_out2 (rc : list Z) (instrs : list Instruction) (code : list Z) (pos : Z) : Prop := mkLaid2 {
  lo2_jump : holds code pos (word_bytes [ARMV8A.B .| (code_start rc instrs pos - pos) / 4]);
  lo2_pool : holds code (pos + 4) (literals rc instrs);
  lo2_code : holds code (code_start rc instrs pos) (word_bytes (both_words instrs (pos + 4) (code_start rc instrs pos)));
}.

Lemma code2_end_bound rc instrs pos :
  pos + 4 <= code_start rc instrs pos <= code2_end rc instrs pos /\ code2_end rc instrs pos <= pos + 4 + 24 * Z.of_nat (length instrs).
Proof. unfold code2_end, past, code_start. pose proof (code2_length rc instrs (pos + 4) (pos + 4 + Z.of_nat (length (literals rc instrs)))). lia. Qed.

Lemma emit_program2_layout rc prog code pos :
  program_ok rc prog -> 0 <= pos -> pos + 4 + 24 * size_ prog <= Z.of_nat (length code) ->
  exists instrs code', let e := code2_end rc instrs pos in
    emit_program2 scheduleSuperscalarProgram prog rc (code, pos) = Done (code', e) /\ laid_out2 rc instrs code' pos /\ wrote code code' pos e /\
    rearranged rc prog instrs.
Proof.
  intros Hok H0 Hfit. pose proof Hok as [Hsz Henc]. destruct (emitted_instrs rc prog Hok) as (order & Hord & Hlt & Hlen & Hencs & Hlits & Hrun).
  set (instrs := (fun j => program_buffer_ prog !!! j) <$> order) in *. exists instrs.
  pose proof (code2_end_bound rc instrs pos) as [[Hb1 Hb2] Hb3].
  set (cs := code_start rc instrs pos) in *. cbv zeta. set (e := code2_end rc instrs pos) in *.
  assert (Hcs : cs = pos + 4 + Z.of_nat (length (literals rc instrs))) by done. set (ws := both_words instrs (pos + 4) cs).
  assert (He : e = past ws cs) by done. unfold emit_program2. rewrite emit_literals; [|done|lia|rewrite <- Hlits; lia].
  rewrite <- Hlits. destruct (emit_template_ok (literals rc instrs) code (pos + 4)) as (c1 & E1 & W1 & K1); [lia|lia|].
  unfold emit_template in E1. apply bind_Done in E1 as (c1' & Ew1 & E1). injection E1 as ->. rewrite Ew1. cbn [mbind outcome_bind]. rewrite <- Hcs in *.
  change TwoWay.B_INSTR with ARMV8A.B. destruct (emit32_ok (ARMV8A.B .| (cs - pos) / 4) c1 pos) as (c2 & -> & W2 & K2); [lia|destruct W1; lia|].
  cbn [mbind outcome_bind]. rewrite Hord. cbn [mbind outcome_bind]. assert (L2 : length c2 = length code) by (destruct W1, W2; lia).
  destruct (emit_order2_words instrs (pos + 4) c2 cs) as [lp' E3]; [lia|fold ws; lia|]. fold ws in E3.
  assert (Lw : Z.of_nat (length (word_bytes ws)) = 4 * Z.of_nat (length ws)) by (rewrite word_bytes_length; lia). unfold past in He.
  destruct (emit_template_ok (word_bytes ws) c2 cs) as (c3 & E4 & W3 & K3); [lia|lia|]. unfold emit_template in E4.
  apply bind_Done in E4 as (c3' & Ew3 & E4). injection E4 as ->. rewrite Ew3 in E3. cbn [mbind outcome_bind] in E3. rewrite Lw, <- He in W3.
  exists c3. split; [|split; [|split]].
  - rewrite (ofoldl_ext_inv (fun _ => True) _ (fun a j => i ← program_at prog j; (fun '(la, lb, st) i => emit_both i la lb st) a i)) by (done || by intros [[]]).
    rewrite (ofoldl_instrs (fun '(la, lb, st) i => emit_both i la lb st) prog order) by done.
    fold instrs. rewrite E3. cbn [mbind outcome_bind]. unfold past. by rewrite <- He.
  - constructor; fold cs.
    + eapply wrote_keeps; [exact W3|exact K2|]. rewrite word_bytes_length. cbn [length]. lia.
    + eapply wrote_keeps; [exact W3| |lia]. destruct W2 as [W2 W2']. eapply holds_ext; [exact W2| |exact K1]. intros k Hk. apply W2'. lia.
    + exact K3.
  - destruct W1 as [L1 O1], W2 as [L2' O2], W3 as [L3 O3]. split; [lia|]. intros k Hk. rewrite O3, O2 by lia. apply O1. lia.
  - by split_and!.
Qed.

(** A program in memory runs from its jump to its end, for both streams. *)
Lemma laid_out2_runs rc instrs code pos xs ra rb :
  machine xs -> Forall (encodable rc) instrs -> (length instrs <= 512)%nat ->
  ofoldl (execute_instruction (Some rc)) (viewA xs) instrs = Done ra -> ofoldl (execute_instruction (Some rc)) (viewB xs) instrs = Done rb ->
  laid_out2 rc instrs code pos ->
  exists n xs', a64_run n code (pos, xs) = Done (code2_end rc instrs pos, xs') /\ both_ran xs xs' ra rb.
Proof.
  intros Hm Henc H512 Ea Eb [Hj Hp Hc]. pose proof (literals_mod rc instrs) as H8. pose proof (literals_length rc instrs) as Hl8.
  unfold code2_end, code_start in *. set (L := Z.of_nat (length (literals rc instrs))) in *.
  assert (HL : 0 <= L <= 8 * 512) by lia. clearbody L.
  destruct (both_runs rc code instrs (pos + 4) (pos + 4 + L) xs ra rb) as (xs' & E & R); try done; [plia|lia|lia|].
  eexists (S _), xs'. split; [|exact R].
  assert (Ew : ARMV8A.B .| (pos + 4 + L - pos) / 4 = 0x14000000 + (1 + L / 4)).
  { replace ((pos + 4 + L - pos) / 4) with (1 + L / 4) by plia. unfold ARMV8A.B.
    rewrite <- (Z.shiftl_0_r (1 + L / 4)) at 1. rewrite (lor_field _ (1 + L / 4) 0 26) by plia. lia. }
  rewrite Ew in Hj. erewrite (run_word _ _ _ _ _ _ _ _ _ Hj); [exact E|plia|apply decode_B; plia|].
  cbn [exec]. do 2 f_equal. unfold to_signed, wrap. rewrite Z.mod_small by plia.
  destruct (Z.ltb_spec (1 + L / 4) (2 ^ (26 - 1))); plia.
Qed.

(** ** The function in memory *)

Definition and_A : Z := TwoWay.AND_IMM_BASE .| StreamAMixBlock .| StreamARegisterValue << 5 .| (Z.log2 (kRandomXCacheBytes / 64) - 1) << 10.
Definition and_B : Z := TwoWay.AND_IMM_BASE .| StreamBMixBlock .| StreamBRegisterValue << 5 .| (Z.log2 (kRandomXCacheBytes / 64) - 1) << 10.
Definition mov_A (r : Z) : Z := TwoWay.MOV_REG .| StreamARegisterValue .| r << 16.
Definition mov_B (r : Z) : Z := TwoWay.MOV_REG .| StreamBRegisterValue .| streamB r << 16.

Section rounds.
Context (t : templates) (rc : list Z).
Abbreviation pf := (Z.of_nat (length (t_prefetch t))).
Abbreviation mx := (Z.of_nat (length (t_mix t))).

Definition program_at2 (pos : Z) : Z := pos + 8 + pf.
Definition mix_at (instrs : list Instruction) (pos : Z) : Z := code2_end rc instrs (program_at2 pos).
Record round2_at (prog : SuperscalarProgram) (instrs : list Instruction) (code : list Z) (pos : Z) : Prop := mkRound2 {
  r2_and : holds code pos (word_bytes [and_A; and_B]);
  r2_prefetch : holds code (pos + 8) (t_prefetch t);
  r2_program : laid_out2 rc instrs code (program_at2 pos);
  r2_mix : holds code (mix_at instrs pos) (t_mix t);
  r2_mov : holds code (mix_at instrs pos + mx) (word_bytes [mov_A (addr_reg_ prog); mov_B (addr_reg_ prog)]);
}.
Definition round2_end (instrs : list Instruction) (pos : Z) : Z := mix_at instrs pos + mx + 8.
Definition round2_size (n : Z) : Z := 8 + pf + 4 + 24 * n + mx + 8.

Lemma emit_two_ok w1 w2 code pos : 0 <= pos -> pos + 8 <= Z.of_nat (length code) ->
  exists code', (st ← emit32 w1 (code, pos); emit32 w2 st) = Done (code', pos + 8) /\ wrote code code' pos (pos + 8) /\ holds code' pos (word_bytes [w1; w2]).
Proof.
  intros H0 Hl. assert (L8 : Z.of_nat (length (word_bytes [w1; w2])) = 8) by (by rewrite word_bytes_length).
  destruct (emit_template_ok (word_bytes [w1; w2]) code pos H0) as (code' & E & H); [lia|]. rewrite L8 in *. exists code'. split; [|exact H].
  unfold emit_template in E. rewrite L8 in E. etrans; [exact (emits_two w1 w2 pos code H0 ltac:(lia))|]. rewrite L8. exact E.
Qed.

Lemma emit_round2_ok prog code pos :
  program_ok rc prog -> 0 <= pos -> pos + round2_size (size_ prog) <= Z.of_nat (length code) ->
  exists instrs code', emit_round2 scheduleSuperscalarProgram t rc (code, pos) prog = Done (code', round2_end instrs pos) /\
    pos <= round2_end instrs pos <= pos + round2_size (size_ prog) /\ wrote code code' pos (round2_end instrs pos) /\
    round2_at prog instrs code' pos /\ rearranged rc prog instrs.
Proof.
  intros Hok H0 Hfit. pose proof Hok as [Hsz _]. unfold round2_size in Hfit. unfold emit_round2. cbv zeta. fold and_A and_B.
  destruct (emit_two_ok and_A and_B code pos) as (c1 & E1 & W1 & K1); [lia|lia|]. apply bind_Done in E1 as (st & Ea & Eb). rewrite Ea. cbn [mbind outcome_bind]. rewrite Eb. cbn [mbind outcome_bind].
  destruct (emit_template_ok (t_prefetch t) c1 (pos + 8)) as (c2 & -> & W2 & K2); [lia|destruct W1; lia|]. cbn [mbind outcome_bind].
  assert (L2 : length c2 = length code) by (destruct W1, W2; lia).
  destruct (emit_program2_layout rc prog c2 (pos + 8 + pf) Hok) as (instrs & c3 & E3 & Hlo & W3 & Hre); [lia|lia|]. rewrite E3. cbn [mbind outcome_bind].
  pose proof (code2_end_bound rc instrs (pos + 8 + pf)) as [[B1 B2] B3]. destruct Hre as (Hn & Hre).
  set (ce := code2_end rc instrs (pos + 8 + pf)) in *. assert (L3 : length c3 = length code) by (destruct W3; lia).
  destruct (emit_template_ok (t_mix t) c3 ce) as (c4 & -> & W4 & K4); [lia|lia|]. cbn [mbind outcome_bind].
  destruct (emit_two_ok (mov_A (addr_reg_ prog)) (mov_B (addr_reg_ prog)) c4 (ce + mx)) as (c5 & E5 & W5 & K5); [lia|destruct W4; lia|].
  assert (Ee : round2_end instrs pos = ce + mx + 8) by done. exists instrs, c5. rewrite Ee. split; [exact E5|]. unfold round2_size. split; [lia|].
  assert (W45 : wrote c3 c5 ce (ce + mx + 8)) by (eapply wrote_trans; [|exact W4|exact W5]; lia).
  assert (W35 : wrote c2 c5 (pos + 8 + pf) (ce + mx + 8)) by (eapply wrote_trans; [|exact W3|exact W45]; lia).
  assert (W25 : wrote c1 c5 (pos + 8) (ce + mx + 8)) by (eapply wrote_trans; [|exact W2|exact W35]; lia).
  split; [eapply wrote_trans; [|exact W1|exact W25]; lia|]. split; [|by split]. destruct Hlo as [J1 J2 J3]. constructor; unfold program_at2, mix_at; fold ce.
  - eapply wrote_keeps; [exact W25|done|]. rewrite word_bytes_length. cbn [length]. lia.
  - eapply wrote_keeps; [exact W35|done|]. lia.
  - unfold ce, code2_end, past in W45. constructor; (eapply wrote_keeps; [exact W45|done|]);
      rewrite ?word_bytes_length; cbn [length]; unfold ce, code2_end, past, code_start in *; lia.
  - eapply wrote_keeps; [exact W5|exact K4|]. apply Z.le_refl.
  - exact K5.
Qed.

(** The rounds one after another, from [pos] to [e]. *)
Inductive rounds2_at (code : list Z) : Z -> list SuperscalarProgram -> Z -> Prop :=
  | rounds2_nil pos : rounds2_at code pos [] pos
  | rounds2_cons pos prog progs instrs e :
      round2_at prog instrs code pos -> rearranged rc prog instrs -> rounds2_at code (round2_end instrs pos) progs e -> rounds2_at code pos (prog :: progs) e.

Lemma round2_keeps prog instrs code code' p q pos : wrote code code' p q -> round2_end instrs pos <= p -> round2_at prog instrs code pos -> round2_at prog instrs code' pos.
Proof.
  intros W He [K1 K2 [J1 J2 J3] K4 K5]. pose proof (code2_end_bound rc instrs (program_at2 pos)) as HB. unfold round2_end, mix_at, program_at2 in *.
  constructor; [| |constructor| |]; (eapply wrote_keeps; [exact W|done|]); unfold mix_at, program_at2; rewrite ?word_bytes_length; cbn [length];
    unfold code2_end, past, code_start in *; lia.
Qed.
Lemma rounds2_keep code code' p q pos progs e : wrote code code' p q -> e <= p -> rounds2_at code pos progs e -> pos <= e /\ rounds2_at code' pos progs e.
Proof.
  intros W He. induction 1 as [pos|pos prog progs instrs e Hr Hre _ IH]; [split; [lia|constructor]|].
  destruct (IH He) as [Hle IH']. pose proof (code2_end_bound rc instrs (program_at2 pos)) as HB.
  assert (pos <= round2_end instrs pos) by (unfold round2_end, mix_at, program_at2 in *; lia).
  split; [lia|]. econstructor; [|done|done]. eapply round2_keeps; [done| |done]. lia.
Qed.

Lemma emit_rounds2_ok progs : forall code pos,
  Forall (fun p => program_ok rc p /\ size_ p <= 512) progs -> 0 <= pos -> pos + Z.of_nat (length progs) * round2_size 512 <= Z.of_nat (length code) ->
  exists code' e, ofoldl (emit_round2 scheduleSuperscalarProgram t rc) (code, pos) progs = Done (code', e) /\
    pos <= e <= pos + Z.of_nat (length progs) * round2_size 512 /\ wrote code code' pos e /\ rounds2_at code' pos progs e.
Proof.
  induction progs as [|prog progs IH]; intros code pos Hok H0 Hfit.
  { exists code, pos. cbn. split; [done|]. split; [lia|]. split; [by split|constructor]. }
  apply list.Forall_cons in Hok as [[Hp H512] Hok]. cbn [length] in Hfit. pose proof Hp as [Hsz _].
  assert (HS : round2_size (size_ prog) <= round2_size 512) by (unfold round2_size; lia).
  assert (HM : 0 <= round2_size 512) by (unfold round2_size; lia).
  destruct (emit_round2_ok prog code pos Hp H0) as (instrs & c1 & E & He & W & R & Re); [nia|].
  destruct (IH c1 (round2_end instrs pos) Hok) as (c2 & e & E2 & He2 & W2 & R2); [lia|destruct W; nia|].
  exists c2, e. cbn [ofoldl length]. rewrite E. cbn [mbind outcome_bind]. split; [done|]. split; [nia|].
  split; [eapply wrote_trans; [|done|done]; lia|]. econstructor; [|done|done]. eapply round2_keeps; [exact W2|lia|done].
Qed.

Record function2_at (programs : list SuperscalarProgram) (code : list Z) (e : Z) : Prop := mkFunction2 {
  f2_prologue : holds code 0 (t_prologue t);
  f2_rounds : rounds2_at code (Z.of_nat (length (t_prologue t))) programs e;
  f2_store : holds code e (t_store t);
}.

(** The estimate of [calcDataset2WaySize] is enough for every program list. *)
Lemma generate2_ok programs j : length programs = kRandomXCacheAccesses -> Forall (fun p => program_ok rc p /\ size_ p <= 512) programs ->
  bufferBytes_ j = calcDataset2WaySize t -> Z.of_nat (length (code_ j)) = bufferBytes_ j ->
  exists code e, generate scheduleSuperscalarProgram t programs rc j = Done (mk2Way code (bufferBytes_ j) (e + Z.of_nat (length (t_store t)))) /\
    length code = length (code_ j) /\ e + Z.of_nat (length (t_store t)) <= bufferBytes_ j /\ function2_at programs code e.
Proof.
  intros Hn Hok Hb Hlen. unfold generate. set (pl := Z.of_nat (length (t_prologue t))). set (sl := Z.of_nat (length (t_store t))).
  assert (HB : bufferBytes_ j = pl + 8 * (pf + 4 + 4 + 20480 + (mx + 4 + 4)) + sl) by (rewrite Hb; done).
  change kRandomXCacheAccesses with 8%nat in Hn. assert (0 <= pl /\ 0 <= sl) by (unfold pl, sl; lia). assert (HM : round2_size 512 = 8 + pf + 4 + 24 * 512 + mx + 8) by done.
  destruct (emit_template_ok (t_prologue t) (code_ j) 0) as (c1 & -> & W1 & K1); [lia|fold pl; lia|]. cbn [mbind outcome_bind]. rewrite Z.add_0_l in *. fold pl in W1.
  destruct (emit_rounds2_ok programs c1 pl Hok) as (c2 & e & E2 & He & W2 & R2); [lia|destruct W1; rewrite Hn; lia|]. fold pl. rewrite E2. rewrite Hn in He. cbn [mbind outcome_bind].
  destruct (emit_template_ok (t_store t) c2 e) as (c3 & -> & W3 & K3); [lia|fold sl; destruct W1, W2; lia|]. fold sl in W3. cbn [mbind outcome_bind]. fold sl.
  destruct (Z.ltb_spec (bufferBytes_ j) (e + sl)); [lia|]. exists c3, e. split; [done|]. split; [destruct W1, W2, W3; lia|]. split; [done|].
  assert (W23 : wrote c1 c3 pl (e + sl)) by (eapply wrote_trans; [|exact W2|exact W3]; lia). constructor.
  - eapply wrote_keeps; [exact W23|exact K1|]. fold pl. lia.
  - by eapply rounds2_keep; [exact W3|lia|exact R2].
  - exact K3.
Qed.
End rounds.
