(* ===== verification/JitTwoWayItem.v ===== *)
(** * Two dataset items at once: the function

    [randomx_calc_dataset_item_aarch64_2way] of src/src/jit_compiler_a64_static.S with the rounds that
    src/src/jit_dataset_2way.cpp generates (JitTwoWay.v), run on the machine of JitItem.v, against
    [generate_dataset_item] of src/src/dataset.cpp. *)

From stdpp Require Import list.
From S2P Require Import Prelude Neon RandomX Blake2b Superscalar SuperscalarGen Argon2 Dataset Footprint JitSuper A64 JitDataset JitItem JitItemEquiv JitTwoWay.

(** ** The templates *)

(** From the entry to the constants; the constants follow the [b] at byte 176. *)
Definition prologue2_asm : list asm :=
  [inr (ADD_sp (-80)); stp 19 20 SP 0; stp 21 22 SP 16; stp 23 24 SP 32; stp 25 26 SP 48; stp 27 28 SP 64;
   ldr 12 156; mov 8 0; mov 9 1; mov 10 2; mov 27 3; mov 16 4; inl (MADD 0 2 12 12);
   ldr 12 136; eor 1 0 12; ldr 12 136; eor 2 0 12; ldr 12 136; eor 3 0 12; ldr 12 136; eor 4 0 12; ldr 12 136; eor 5 0 12;
   ldr 12 136; eor 6 0 12; ldr 12 136; eor 7 0 12;
   ldr 17 72; inl (MADD 19 16 17 17); mov 28 16;
   ldr 17 68; eor 20 19 17; ldr 17 68; eor 21 19 17; ldr 17 68; eor 22 19 17; ldr 17 68; eor 23 19 17; ldr 17 68; eor 24 19 17;
   ldr 17 68; eor 25 19 17; ldr 17 68; eor 26 19 17; inl (B 68)].
Definition prefetch2_asm : list asm :=
  [inl (ADD_shifted 11 8 11 6); inr (PRFM 11 0); inl (ADD_shifted 17 8 17 6); inr (PRFM 17 0)].
Definition mixB_asm : list asm :=
  [ldp 16 14 17 0; eor 19 19 16; eor 20 20 14; ldp 16 14 17 16; eor 21 21 16; eor 22 22 14;
   ldp 16 14 17 32; eor 23 23 16; eor 24 24 14; ldp 16 14 17 48; eor 25 25 16; eor 26 26 14].
(** The first half is that of the one-stream function. *)
Definition mix2_asm : list asm := mix_asm ++ mixB_asm.
Definition store2_asm : list asm :=
  [stp 0 1 9 0; stp 2 3 9 16; stp 4 5 9 32; stp 6 7 9 48; stp 19 20 27 0; stp 21 22 27 16; stp 23 24 27 32; stp 25 26 27 48;
   ldp 19 20 SP 0; ldp 21 22 SP 16; ldp 23 24 SP 32; ldp 25 26 SP 48; ldp 27 28 SP 64; inr (ADD_sp 80); inr (RET 30)].
Definition item2_templates : templates :=
  mkTemplates (asm_bytes prologue2_asm ++ concat (le_bytes 8 <$> superscalar_constants))
    (asm_bytes prefetch2_asm) (asm_bytes mix2_asm) (asm_bytes store2_asm).

Lemma templates2_decode : Forall decodes (prologue2_asm ++ prefetch2_asm ++ mix_asm ++ mixB_asm ++ store2_asm).
Proof. repeat (apply List.Forall_cons; [by split; [vm_compute; reflexivity|vm_compute; split; congruence]|]). apply List.Forall_nil. Qed.
Lemma decodes2_parts : Forall decodes prologue2_asm /\ Forall decodes prefetch2_asm /\ Forall decodes mix_asm /\ Forall decodes mixB_asm /\ Forall decodes store2_asm.
Proof. pose proof templates2_decode as H. rewrite !Forall_app in H. tauto. Qed.

Lemma viewA_take x : machine x -> viewA x = take 8 x.
Proof. intros Hm. all_regs x Hm. reflexivity. Qed.

(** ** The pieces *)

Lemma prologue2_runs code x a m :
  holds code 180 (concat (le_bytes 8 <$> superscalar_constants)) ->
  machine x -> 0 <= a -> a + 80 < 2 ^ 64 -> a mod 8 = 0 -> mapped m a 10 ->
  exists x' m', asm_run code prologue2_asm (mkMachine 0 x (a + 80) m) = Done (mkMachine 244 x' a m') /\ machine x' /\
    viewA x' = dataset_seed_registers (xget x 2) /\ viewB x' = dataset_seed_registers (xget x 4) /\
    xget x' 8 = xget x 0 /\ xget x' 9 = xget x 1 /\ xget x' 10 = xget x 2 /\ xget x' 27 = xget x 3 /\ xget x' 28 = xget x 4 /\
    (forall k, k = 18 \/ k = 29 \/ k = 30 -> xget x' k = xget x k) /\ contains m' a (take 10 (drop 19 x)) /\ changed m m' a (a + 80).
Proof.
  intros Hc Hm Ha0 Ha1 Ha8 Hmap.
  assert (Hsp : wrap 64 (a + 80 + -80) = a) by (rewrite wrap_small by (split; lia); lia).
  pose proof (fun q v => constants_at code _ q v Hc) as K.
  pose proof (K 0%nat _ eq_refl) as K0. pose proof (K 1%nat _ eq_refl) as K1. pose proof (K 2%nat _ eq_refl) as K2.
  pose proof (K 3%nat _ eq_refl) as K3. pose proof (K 4%nat _ eq_refl) as K4. pose proof (K 5%nat _ eq_refl) as K5.
  pose proof (K 6%nat _ eq_refl) as K6. pose proof (K 7%nat _ eq_refl) as K7. clear K.
  all_regs x Hm. do 2 eexists. split.
  - unfold prologue2_asm, stp, ldr, mov, eor, SP.
    next_asm ltac:(rewrite Hsp). do 5 next_asm ltac:(stored a).
    do 38 next_asm ltac:(idtac; literal code). cbn [asm_run exec_asm exec pc xs sp mem mbind outcome_bind]. reflexivity.
  - repeat match goal with H : Forall word64 (_ :: _) |- _ => inversion H; clear H; subst end.
    rewrite !Z.lor_0_l, !shl64_0 by (done || by split). rewrite !seed_madd. split_and!.
    + split; [done|]. repeat (apply List.Forall_cons; [first [done | apply mul64_range | apply lxor_range; [done|apply mul64_range|by split] | by split]|]).
      apply List.Forall_nil.
    + reflexivity.
    + reflexivity.
    + done.
    + done.
    + done.
    + done.
    + done.
    + intros k [->|[->| ->]]; reflexivity.
    + intros q v Hv. do 10 (destruct q as [|q]; [injection Hv as <-; lookup_upd|]). done.
    + intros c Hc'. lookup_upd.
Qed.

Lemma mixB_runs code p x s m line :
  machine x -> let a := xget x 17 in
  a mod 8 = 0 -> 0 <= a /\ a + 8 * Z.of_nat 8 <= 2 ^ 64 ->
  (forall q, (q < 8)%nat -> m (a + 8 * Z.of_nat q) = Some (line_word line q) /\ word64 (line_word line q)) ->
  exists x', asm_run code mixB_asm (mkMachine p x s m) = Done (mkMachine (p + 48) x' s m) /\ machine x' /\
    viewB x' = xor_line (viewB x) line /\ forall k, 0 <= k < 31 -> k < 19 \/ 26 < k -> k <> 14 -> k <> 16 -> xget x' k = xget x k.
Proof.
  intros Hm a Ha Hr Hf. subst a.
  pose proof (load_pair_at m _ _ 8 Ha Hr (fun q Hq => proj1 (Hf q Hq))) as L.
  destruct (L 0%nat 0 ltac:(lia) eq_refl) as [L0 L1], (L 2%nat 16 ltac:(lia) eq_refl) as [L2 L3],
    (L 4%nat 32 ltac:(lia) eq_refl) as [L4 L5], (L 6%nat 48 ltac:(lia) eq_refl) as [L6 L7]. clear L.
  assert (Hw : forall q, (q < 8)%nat -> shl64 (line_word line q) 0 = line_word line q) by (intros q Hq; by apply shl64_0, Hf).
  all_regs x Hm. revert L0 L1 L2 L3 L4 L5 L6 L7. regs. intros L0 L1 L2 L3 L4 L5 L6 L7. eexists. split.
  - unfold mixB_asm, ldp, eor.
    next_asm ltac:(rewrite L0; cbn [mbind outcome_bind]; rewrite L1).
    do 2 next_asm idtac.
    next_asm ltac:(rewrite L2; cbn [mbind outcome_bind]; rewrite L3).
    do 2 next_asm idtac.
    next_asm ltac:(rewrite L4; cbn [mbind outcome_bind]; rewrite L5).
    do 2 next_asm idtac.
    next_asm ltac:(rewrite L6; cbn [mbind outcome_bind]; rewrite L7).
    do 2 next_asm idtac. end_asm.
  - rewrite !Hw by lia. repeat match goal with H : Forall word64 (_ :: _) |- _ => inversion H; clear H; subst end.
    split; [|split].
    + split; [done|]. repeat (apply List.Forall_cons; [first [done | apply lxor_range; [done|done|by apply Hf; lia] | by apply Hf; lia]|]). apply List.Forall_nil.
    + reflexivity.
    + intros k Hk K1 K2 K3. assert (Hin : In k (seqZ 0 31)) by (apply list_elem_of_In, elem_of_seqZ; lia).
      cbn [seqZ fmap list_fmap seq Z.to_nat Pos.to_nat Pos.iter_op Init.Nat.add In] in Hin.
      repeat (destruct Hin as [<-|Hin]; [first [exfalso; lia|reflexivity]|]). destruct Hin.
Qed.

(** A store into the words that [H] says are mapped. *)
Ltac stored_in a H :=
  match goal with |- context [store ?m (wrap 64 (a + ?imm)) ?v] =>
    rewrite (store_at m a imm v); [|plia|lia|repeat apply upd_mapped; eapply mapped_at; [exact H|plia|lia]] end;
  cbn [mbind outcome_bind];
  match goal with |- context [store ?m (wrap 64 (wrap 64 (a + ?imm) + 8)) ?v] =>
    rewrite (store_second m a imm v); [|plia|lia|lia|repeat apply upd_mapped; eapply mapped_at; [exact H|plia|lia]] end.

Lemma store2_runs code p x a m :
  machine x -> 0 <= a -> a + 80 < 2 ^ 64 -> a mod 8 = 0 ->
  let o := xget x 9 in let o' := xget x 27 in
  0 <= o -> o + 64 < 2 ^ 64 -> o mod 8 = 0 -> mapped m o 8 -> o + 64 <= a \/ a + 80 <= o ->
  0 <= o' -> o' + 64 < 2 ^ 64 -> o' mod 8 = 0 -> mapped m o' 8 -> o' + 64 <= a \/ a + 80 <= o' -> o + 64 <= o' \/ o' + 64 <= o ->
  forall saved, length saved = 10%nat -> contains m a saved ->
  exists m', asm_run code store2_asm (mkMachine p x a m) = Done (mkMachine (xget x 30) (take 19 x ++ saved ++ drop 29 x) (a + 80) m') /\
    contains m' o (viewA x) /\ contains m' o' (viewB x) /\ (forall b, b < o \/ o + 64 <= b -> b < o' \/ o' + 64 <= b -> m' b = m b).
Proof.
  intros Hm Ha0 Ha1 Ha8 o o' Ho0 Ho1 Ho8 Hmap Hdis Hp0 Hp1 Hp8 Hmap' Hdis' Hoo saved Hsl Hsaved. subst o o'.
  assert (Hsp : wrap 64 (a + 80) = a + 80) by (by rewrite wrap_small by (split; lia)).
  assert (Hload : forall m', (forall b, a <= b < a + 80 -> m' b = m b) -> forall q imm, (S q < 10)%nat -> imm = 8 * Z.of_nat q ->
    load m' (wrap 64 (a + imm)) = Done (saved !!! q) /\ load m' (wrap 64 (wrap 64 (a + imm) + 8)) = Done (saved !!! S q)).
  { intros m' Hch q imm Hq Hi. apply (load_pair_at m' a (fun q => saved !!! q) 10); try done; [split; lia|].
    intros k Hk. rewrite Hch by (change (Z.of_nat 10) with 10 in *; lia). apply Hsaved. apply list_lookup_lookup_total_lt. lia. }
  all_regs x Hm. revert Ho0 Ho1 Ho8 Hmap Hdis Hp0 Hp1 Hp8 Hmap' Hdis' Hoo Hload. regs. intros Ho0 Ho1 Ho8 Hmap Hdis Hp0 Hp1 Hp8 Hmap' Hdis' Hoo Hload. eexists. split.
  - unfold store2_asm, stp, ldp, SP. do 4 next_asm ltac:(stored_in z8 Hmap). do 4 next_asm ltac:(stored_in z26 Hmap').
    match goal with |- context [mkMachine _ _ _ ?mm] => pose proof (Hload mm ltac:(intros c Hc; lookup_upd)) as L end.
    destruct (L 0%nat 0 ltac:(lia) eq_refl) as [L0 L1], (L 2%nat 16 ltac:(lia) eq_refl) as [L2 L3],
      (L 4%nat 32 ltac:(lia) eq_refl) as [L4 L5], (L 6%nat 48 ltac:(lia) eq_refl) as [L6 L7],
      (L 8%nat 64 ltac:(lia) eq_refl) as [L8 L9].
    next_asm ltac:(rewrite L0; cbn [mbind outcome_bind]; rewrite L1).
    next_asm ltac:(rewrite L2; cbn [mbind outcome_bind]; rewrite L3).
    next_asm ltac:(rewrite L4; cbn [mbind outcome_bind]; rewrite L5).
    next_asm ltac:(rewrite L6; cbn [mbind outcome_bind]; rewrite L7).
    next_asm ltac:(rewrite L8; cbn [mbind outcome_bind]; rewrite L9).
    next_asm ltac:(rewrite Hsp). cbn [asm_run exec_asm exec_mem pc xs sp mem mbind outcome_bind]. clear L L0 L1 L2 L3 L4 L5 L6 L7 L8 L9.
    do 10 (destruct saved as [|? saved]; [discriminate Hsl|]). destruct saved; [|discriminate Hsl]. reflexivity.
  - split; [|split].
    + intros q v Hv. do 8 (destruct q as [|q]; [injection Hv as <-; lookup_upd|]). done.
    + intros q v Hv. do 8 (destruct q as [|q]; [injection Hv as <-; lookup_upd|]). done.
    + intros c Hc Hc'. lookup_upd.
Qed.

(** ** A round *)

Lemma and2_words : word_bytes [and_A; and_B] = asm_bytes [inr (AND_ones 11 10 22); inr (AND_ones 17 28 22)] /\
  Forall decodes [inr (AND_ones 11 10 22); inr (AND_ones 17 28 22)].
Proof. split; [reflexivity|]. repeat (apply List.Forall_cons; [by split; [vm_compute; reflexivity|vm_compute; split; congruence]|]). apply List.Forall_nil. Qed.
Lemma mov2_words d : 0 <= d < 8 -> word_bytes [mov_A d; mov_B d] = asm_bytes [mov 10 d; mov 28 (streamB d)] /\ Forall decodes [mov 10 d; mov 28 (streamB d)].
Proof.
  intros Hd. assert (H : d = 0 \/ d = 1 \/ d = 2 \/ d = 3 \/ d = 4 \/ d = 5 \/ d = 6 \/ d = 7) by lia.
  assert (G : forall d, word_bytes [mov_A d; mov_B d] = asm_bytes [mov 10 d; mov 28 (streamB d)] -> decodes (mov 10 d) -> decodes (mov 28 (streamB d)) ->
    word_bytes [mov_A d; mov_B d] = asm_bytes [mov 10 d; mov 28 (streamB d)] /\ Forall decodes [mov 10 d; mov 28 (streamB d)]).
  { intros e E D1 D2. split; [done|]. apply List.Forall_cons; [done|]. apply List.Forall_cons; [done|]. apply List.Forall_nil. }
  repeat (destruct H as [->|H]; [apply G; [reflexivity|by split|by split]|]). subst d. apply G; [reflexivity|by split|by split].
Qed.

Lemma xget_same (x y : list Z) k : x !! Z.to_nat k = y !! Z.to_nat k -> xget x k = xget y k.
Proof. intros E. unfold xget. destruct (k =? 31); [done|]. by rewrite !list_lookup_total_alt, E. Qed.

Section item.
Context (c : Argon2dCache) (Hc : cache_ready c) (Hblocks : memory_blocks_ c = 262144).
Context (code : list Z) (base : Z) (m : memory) (s : Z).
Context (Hbase : base mod 8 = 0 /\ 0 <= base /\ base + 2 ^ 28 <= 2 ^ 64) (Hcache : cache_at c base m).
Abbreviation rc := (reciprocal_cache_ c).

(** Between rounds: the two register files, their address registers, the cache, the places for the items. *)
Record between2 (x rla rlb : list Z) (rva rvb : Z) (x0 : list Z) : Prop := mkBetween2 {
  b2_machine : machine x;
  b2_a : viewA x = rla /\ xget x 10 = rva;
  b2_b : viewB x = rlb /\ xget x 28 = rvb;
  b2_cache : xget x 8 = base;
  b2_frame : forall k, k = 9 \/ k = 18 \/ k = 27 \/ k = 29 \/ k = 30 -> xget x k = xget x0 k;
}.

(** One stream's part of a round in the model. *)
Lemma item_round_parts prog i rl rv rl' rv' : at_index (programs_ c) i = Done prog ->
  item_round c (cache_line_count c) (rl, rv) i = Done (rl', rv') ->
  exists line r1, load_cache_line c (rv mod 2 ^ 22) = Done line /\ execute_superscalar rl prog (Some rc) = Done r1 /\ rl' = xor_line r1 line /\
    at_index rl' (addr_reg_ prog) = Done rv' /\ forall q, (q < 8)%nat -> m (base + 64 * (rv mod 2 ^ 22) + 8 * Z.of_nat q) = Some (line_word line q) /\ word64 (line_word line q).
Proof using Hc Hblocks Hcache.
  intros Hat Hround. unfold item_round in Hround. rewrite (line_count c Hc Hblocks) in Hround. apply bind_Done in Hround as (line & El & Hround).
  rewrite Hat in Hround. cbn [mbind outcome_bind] in Hround. apply bind_Done in Hround as (r1 & Er & Hround).
  apply bind_Done in Hround as (v & Ev & Hround). injection Hround as <- <-. exists line, r1. split_and!; [done..|].
  intros q Hq. assert (Hi : 0 <= rv mod 2 ^ 22 < 2 ^ 22) by (apply Z.mod_pos_bound; lia). split; [by apply Hcache|].
  destruct (load_cache_line_ok c Hc (rv mod 2 ^ 22)) as (l2 & E2 & _ & Hb2). assert (l2 = line) as -> by congruence. by apply line_word_range.
Qed.

Lemma view_at rm x d v : 0 <= d < 8 -> at_index (view rm x) d = Done v -> xget x (rm d) = v.
Proof. intros Hd E. apply at_index_Done in E as [_ E]. rewrite view_lookup in E by done. by injection E. Qed.

(** The two lines' addresses. *)
Lemma addresses_run pos x : machine x -> xget x 8 = base -> holds code pos (word_bytes [and_A; and_B]) -> holds code (pos + 8) (asm_bytes prefetch2_asm) ->
  exists x', reaches code (mkMachine pos x s m) (mkMachine (pos + 8 + 16) x' s m) /\ machine x' /\
    xget x' 11 = base + 64 * (xget x 10 mod 2 ^ 22) /\ xget x' 17 = base + 64 * (xget x 28 mod 2 ^ 22) /\
    forall k, 0 <= k < 31 -> k <> 11 -> k <> 17 -> xget x' k = xget x k.
Proof using Hbase.
  intros Hm H8 K1 K2. destruct and2_words as [Ew D1]. rewrite Ew in K1. destruct decodes2_parts as (_ & D2 & _).
  pose proof (xget_word x 10 Hm ltac:(lia)) as W10. pose proof (xget_word x 28 Hm ltac:(lia)) as W28.
  destruct (line_address base Hbase _ W10) as [EA HA]. destruct (line_address base Hbase _ W28) as [EB HB].
  set (va := Z.land (xget x 10) (Z.ones 22)) in *. set (vb := Z.land (xget x 28) (Z.ones 22)) in *.
  assert (Hx1 : machine (xset (xset x 11 va) 17 vb)).
  { apply xset_machine; [apply xset_machine; [done|]|]; unfold va, vb; rewrite Z.land_ones by lia; split; lia. }
  set (A := base + 64 * (xget x 10 mod 2 ^ 22)) in *. set (B := base + 64 * (xget x 28 mod 2 ^ 22)) in *.
  assert (Hx2 : machine (xset (xset (xset x 11 va) 17 vb) 11 A)) by (apply xset_machine; [done|unfold A; split; lia]).
  exists (xset (xset (xset (xset x 11 va) 17 vb) 11 A) 17 B). split; [|split; [|split; [|split]]].
  - eapply reaches_chain.
    + apply (reaches_asm code _ (mkMachine pos x s m) (mkMachine (pos + 8) (xset (xset x 11 va) 17 vb) s m) D1 K1).
      eapply asm_cons; [reflexivity|reflexivity|]. cbn [asm_run exec_asm exec_mem pc xs sp mem mbind outcome_bind]. do 2 f_equal; [lia|].
      rewrite (xget_xset_ne x 11 28) by lia. reflexivity.
    + apply (reaches_asm code prefetch2_asm); [exact D2|exact K2|]. unfold prefetch2_asm.
      eapply (asm_cons code _ _ _ (mkMachine (pos + 8 + 4) (xset (xset (xset x 11 va) 17 vb) 11 A) s m)); [|reflexivity|].
      { cbn [exec_asm exec pc xs sp mem mbind outcome_bind]. do 3 f_equal.
        rewrite (xget_xset_ne _ 17 8), (xget_xset_ne _ 11 8), H8 by lia. rewrite (xget_xset_ne _ 17 11), (xget_xset x 11) by (done || lia). exact EA. }
      eapply asm_cons; [reflexivity|reflexivity|].
      eapply (asm_cons code _ _ _ (mkMachine (pos + 8 + 4 + 4 + 4) (xset (xset (xset (xset x 11 va) 17 vb) 11 A) 17 B) s m)); [|reflexivity|].
      { cbn [exec_asm exec exec_mem pc xs sp mem mbind outcome_bind]. do 3 f_equal.
        rewrite (xget_xset_ne _ 11 8), (xget_xset_ne _ 17 8), (xget_xset_ne _ 11 8), H8 by lia. rewrite (xget_xset_ne _ 11 17) by lia.
        rewrite xget_xset; [exact EB|apply xset_machine; [done|unfold va; rewrite Z.land_ones by lia; split; lia]|lia]. }
      eapply asm_cons; [reflexivity|reflexivity|]. cbn [asm_run]. do 2 f_equal. cbn [pc xs sp mem]. lia.
  - apply xset_machine; [done|unfold B; split; lia].
  - rewrite xget_xset_ne by lia. by apply xget_xset; [|lia].
  - by apply xget_xset; [|lia].
  - intros k Hk N11 N17. rewrite !xget_xset_ne by lia. done.
Qed.

Lemma round2_runs prog instrs pos x rla rlb rva rvb x0 i rla' rlb' rva' rvb' :
  at_index (programs_ c) i = Done prog -> 0 <= addr_reg_ prog < 8 -> 0 <= size_ prog <= 512 ->
  round2_at item2_templates rc prog instrs code pos -> rearranged rc prog instrs -> between2 x rla rlb rva rvb x0 ->
  item_round c (cache_line_count c) (rla, rva) i = Done (rla', rva') -> item_round c (cache_line_count c) (rlb, rvb) i = Done (rlb', rvb') ->
  exists x', reaches code (mkMachine pos x s m) (mkMachine (round2_end item2_templates rc instrs pos) x' s m) /\ between2 x' rla' rlb' rva' rvb' x0.
Proof using Hc Hblocks Hbase Hcache.
  intros Hat Haddr Hsz [K1 K2 K3 K4 K5] (Hn & Henc & Hex) [Hm [Va Ra] [Vb Rb] H8 Hf] Ea Eb.
  destruct (item_round_parts prog i _ _ _ _ Hat Ea) as (la & r1a & _ & Xa & -> & Aa & La). destruct (item_round_parts prog i _ _ _ _ Hat Eb) as (lb & r1b & _ & Xb & -> & Ab & Lb).
  destruct decodes2_parts as (_ & _ & D3 & D4 & _). change (t_prefetch item2_templates) with (asm_bytes prefetch2_asm) in K2.
  destruct (addresses_run pos x Hm H8 K1 K2) as (x1 & R1 & M1 & A11 & A17 & F1). rewrite Ra in A11. rewrite Rb in A17.
  assert (Ep : program_at2 item2_templates pos = pos + 8 + 16) by done. unfold mix_at in *. rewrite Ep in K3, K4, K5.
  assert (VA1 : viewA x1 = rla) by (rewrite <- Va; apply view_ext; intros k Hk; apply F1; lia).
  assert (VB1 : viewB x1 = rlb) by (rewrite <- Vb; apply view_ext; intros k Hk; rewrite streamB_eq by done; apply F1; lia).
  destruct (laid_out2_runs rc instrs code (pos + 8 + 16) x1 r1a r1b M1 Henc ltac:(lia)) as (n & x2 & E2 & [M2 VA2 VB2 F2]);
    [rewrite VA1; by apply Hex|rewrite VB1; by apply Hex|exact K3|]. apply (run_registers n code _ _ _ _ s m) in E2.
  set (e := code2_end rc instrs (pos + 8 + 16)) in *. change (t_mix item2_templates) with (asm_bytes (mix_asm ++ mixB_asm)) in K4.
  unfold asm_bytes in K4. rewrite fmap_app, word_bytes_app in K4. apply holds_app in K4 as [K4 K4']. fold (asm_bytes mix_asm) in K4. fold (asm_bytes mixB_asm) in K4'.
  rewrite word_bytes_length in K4'. change (Z.of_nat (4 * length (encode <$> mix_asm))) with 48 in K4'.
  destruct (mix_runs code e x2 s m la M2) as (x3 & E3 & M3 & T3 & F3).
  { rewrite F2, A11 by lia. assert (0 <= rva mod 2 ^ 22 < 2 ^ 22) by (apply Z.mod_pos_bound; lia). plia. }
  { rewrite F2, A11 by lia. assert (0 <= rva mod 2 ^ 22 < 2 ^ 22) by (apply Z.mod_pos_bound; lia). lia. }
  { intros q Hq. rewrite F2, A11 by lia. by apply La. }
  assert (F3' : forall k, 8 <= k < 31 -> k <> 12 -> k <> 13 -> xget x3 k = xget x2 k) by (intros k H1 H2 H3; apply xget_same, F3; lia).
  assert (X17 : xget x3 17 = base + 64 * (rvb mod 2 ^ 22)) by (rewrite F3', F2 by lia; done).
  destruct (mixB_runs code (e + 48) x3 s m lb M3) as (x4 & E4 & M4 & T4 & F4).
  { rewrite X17. assert (0 <= rvb mod 2 ^ 22 < 2 ^ 22) by (apply Z.mod_pos_bound; lia). plia. }
  { rewrite X17. assert (0 <= rvb mod 2 ^ 22 < 2 ^ 22) by (apply Z.mod_pos_bound; lia). lia. }
  { intros q Hq. rewrite X17. by apply Lb. }
  assert (VA4 : viewA x4 = xor_line r1a la).
  { rewrite <- VA2, (viewA_take x2 M2), <- T3, <- (viewA_take x3 M3). apply view_ext. intros k Hk. apply F4; lia. }
  assert (VB4 : viewB x4 = xor_line r1b lb).
  { rewrite T4. f_equal. rewrite <- VB2. apply view_ext. intros k Hk. rewrite streamB_eq by done. apply F3'; lia. }
  destruct (mov2_words (addr_reg_ prog) Haddr) as [Ew5 D5]. rewrite Ew5 in K5. change (Z.of_nat (length (t_mix item2_templates))) with 96 in *.
  rewrite <- VA4 in Aa. rewrite <- VB4 in Ab. apply (view_at _ _ _ _ Haddr) in Aa. apply (view_at _ _ _ _ Haddr) in Ab. cbn beta in Aa. rewrite (streamB_eq _ Haddr) in Ab.
  assert (Wa : word64 rva') by (rewrite <- Aa; apply xget_word; [done|lia]). assert (Wb : word64 rvb') by (rewrite <- Ab; apply xget_word; [done|lia]).
  assert (M5 : machine (xset x4 10 rva')) by (by apply xset_machine).
  exists (xset (xset x4 10 rva') 28 rvb'). split.
  - eapply reaches_chain; [exact R1|]. eapply reaches_chain; [by exists n|]. eapply reaches_chain; [apply (reaches_asm code mix_asm); [exact D3|exact K4|exact E3]|].
    eapply reaches_chain; [apply (reaches_asm code mixB_asm); [exact D4|exact K4'|exact E4]|].
    assert (Ee : round2_end item2_templates rc instrs pos = e + 96 + 8) by done. rewrite Ee.
    apply (reaches_asm code [mov 10 (addr_reg_ prog); mov 28 (streamB (addr_reg_ prog))]); [exact D5|cbn [pc]; replace (e + 48 + 48) with (e + 96) by lia; exact K5|].
    unfold mov. eapply asm_cons; [reflexivity|reflexivity|]. cbn [asm_run exec_asm exec pc xs sp mem mbind outcome_bind].
    change (xget x4 31) with 0. rewrite Z.lor_0_l, Aa, shl64_0 by done. rewrite (streamB_eq _ Haddr). change (xget (xset x4 10 rva') 31) with 0.
    rewrite Z.lor_0_l, (xget_xset_ne x4 10) by lia. rewrite Ab, shl64_0 by done. do 2 f_equal. lia.
  - constructor.
    + by apply xset_machine.
    + split; [|rewrite xget_xset_ne by lia; by apply xget_xset; [|lia]]. rewrite <- VA4. apply view_ext. intros k Hk. by rewrite !xget_xset_ne by lia.
    + split; [|by apply xget_xset; [|lia]]. rewrite <- VB4. apply view_ext. intros k Hk. rewrite streamB_eq by done. by rewrite !xget_xset_ne by lia.
    + rewrite !xget_xset_ne, F4, F3', F2, F1 by lia. done.
    + intros k Hk. rewrite <- (Hf k Hk). rewrite !xget_xset_ne, F4, F3', F2, F1 by lia. done.
Qed.

Lemma rounds2_run progs : forall pre pos e x rla rlb rva rvb x0 rla' rlb' rva' rvb',
  programs_ c = pre ++ progs -> Forall (fun p => program_ok rc p /\ size_ p <= 512) progs ->
  rounds2_at item2_templates rc code pos progs e -> between2 x rla rlb rva rvb x0 ->
  let l := seqZ (Z.of_nat (length pre)) (Z.of_nat (length progs)) in
  ofoldl (item_round c (cache_line_count c)) (rla, rva) l = Done (rla', rva') -> ofoldl (item_round c (cache_line_count c)) (rlb, rvb) l = Done (rlb', rvb') ->
  exists x', reaches code (mkMachine pos x s m) (mkMachine e x' s m) /\ between2 x' rla' rlb' rva' rvb' x0.
Proof using Hc Hblocks Hbase Hcache.
  induction progs as [|prog progs IH]; intros pre pos e x rla rlb rva rvb x0 rla' rlb' rva' rvb' Hp Hok Hr Hb; cbv zeta; intros Ea Eb.
  { inversion Hr; subst. cbn in Ea, Eb. injection Ea as <- <-. injection Eb as <- <-. exists x. split; [by exists 0%nat|done]. }
  inversion Hr as [|? ? ? instrs ? Hra Hre Hrest]; subst. apply list.Forall_cons in Hok as [[Hpo H512] Hok].
  cbn [length] in Ea, Eb. rewrite seqZ_cons in Ea, Eb by lia. cbn [ofoldl] in Ea, Eb.
  apply bind_Done in Ea as ([rla1 rva1] & Ea1 & Ea). apply bind_Done in Eb as ([rlb1 rvb1] & Eb1 & Eb).
  assert (Hat : programs_ c !! length pre = Some prog) by (rewrite Hp; by apply list_lookup_middle).
  destruct (round2_runs prog instrs pos x rla rlb rva rvb x0 (Z.of_nat (length pre)) rla1 rlb1 rva1 rvb1) as (x1 & R1 & B1); try done.
  - apply at_index_Done. rewrite Nat2Z.id. split; [lia|done].
  - destruct Hc as [_ Hready]. by apply (Forall_lookup_1 _ _ _ _ Hready Hat).
  - destruct Hpo as [? _]. lia.
  - destruct (IH (pre ++ [prog]) (round2_end item2_templates rc instrs pos) e x1 rla1 rlb1 rva1 rvb1 x0 rla' rlb' rva' rvb') as (x2 & R2 & B2); try done.
    + by rewrite <- app_assoc.
    + rewrite length_app. cbn [length]. rewrite <- Ea. f_equal. f_equal; lia.
    + rewrite length_app. cbn [length]. rewrite <- Eb. f_equal. f_equal; lia.
    + exists x2. split; [by eapply reaches_chain|done].
Qed.
End item.

(** ** The function *)

(** A call: the cache in x0, an item's place and number in x1 and x2 and the other's in x3 and x4, 80 bytes of
    stack from [a]; the places are apart from each other and from the stack, the stack from the cache. *)
Record call2 (c : Argon2dCache) (base outA itemA outB itemB a : Z) (x : list Z) (m : memory) : Prop := mkCall2 {
  c2_machine : machine x;
  c2_args : xget x 0 = base /\ xget x 1 = outA /\ xget x 2 = itemA /\ xget x 3 = outB /\ xget x 4 = itemB;
  c2_base : base mod 8 = 0 /\ 0 <= base /\ base + 2 ^ 28 <= 2 ^ 64;
  c2_cache : cache_at c base m;
  c2_outA : outA mod 8 = 0 /\ 0 <= outA /\ outA + 64 < 2 ^ 64 /\ mapped m outA 8;
  c2_outB : outB mod 8 = 0 /\ 0 <= outB /\ outB + 64 < 2 ^ 64 /\ mapped m outB 8;
  c2_stack : a mod 8 = 0 /\ 0 <= a /\ a + 80 < 2 ^ 64 /\ mapped m a 10;
  c2_apart : (base + 2 ^ 28 <= a \/ a + 80 <= base) /\ (outA + 64 <= a \/ a + 80 <= outA) /\ (outB + 64 <= a \/ a + 80 <= outB) /\
    (outA + 64 <= outB \/ outB + 64 <= outA);
}.

(** The item the model derives, with the rounds that lead to it. *)
Lemma item_rounds c item : cache_ready c -> exists rl rv,
  ofoldl (item_round c (cache_line_count c)) (dataset_seed_registers item, item) (seqZ 0 (Z.of_nat (length (programs_ c)))) = Done (rl, rv) /\
  generate_dataset_item c item = Done (store_registers rl) /\ length rl = 8%nat.
Proof.
  intros Hc. assert (Hlen : length (programs_ c) = 8%nat) by (destruct Hc as [[_ _ [? _]] _]; done).
  destruct (ofoldl_ok (fun st => file_wf st.1) (item_round c (cache_line_count c)) cache_accesses (dataset_seed_registers item, item)) as ([rl rv] & Er & Hfl & Hfw).
  { intros [r v] i Hi Hf. destruct (item_round_ok c Hc r v i Hf Hi) as (r' & v' & E & H). eauto. }
  { apply seed_registers_wf. }
  exists rl, rv. split; [by rewrite Hlen|]. split; [|done]. unfold generate_dataset_item.
  destruct (line_count_eq c Hc) as [_ Hpos]. destruct (Z.eqb_spec (cache_line_count c) 0); [lia|]. by rewrite Er.
Qed.

Lemma mapped_changed m m' a b o n : changed m m' a b -> o + 8 * Z.of_nat n <= a \/ b <= o -> mapped m o n -> mapped m' o n.
Proof. intros Hch Hd Hmap q Hq. rewrite Hch by lia. by apply Hmap. Qed.

(** The registers on return: the saved ones are the caller's. *)
Lemma restored x0 x k : length x0 = 31%nat -> length x = 31%nat -> 18 <= k < 31 ->
  (k = 18 \/ k = 29 \/ k = 30 -> xget x k = xget x0 k) -> xget (take 19 x ++ take 10 (drop 19 x0) ++ drop 29 x) k = xget x0 k.
Proof.
  intros L0 L Hk Hf. assert (Hn : 18 <= k < 19 \/ 19 <= k < 29 \/ 29 <= k) by lia. destruct Hn as [Hn|[Hn|Hn]].
  - rewrite <- Hf by lia. apply xget_same. rewrite lookup_app_l by (rewrite length_take; lia). apply lookup_take_lt. lia.
  - apply xget_same. rewrite lookup_app_r by (rewrite length_take; lia). rewrite length_take.
    rewrite lookup_app_l by (rewrite length_take, length_drop; lia). rewrite lookup_take_lt, lookup_drop by lia. f_equal. lia.
  - rewrite <- Hf by lia. apply xget_same. rewrite lookup_app_r by (rewrite length_take; lia). rewrite length_take.
    rewrite lookup_app_r by (rewrite length_take, length_drop; lia). rewrite length_take, length_drop, lookup_drop. f_equal. lia.
Qed.

Lemma function2_runs c code e base outA itemA outB itemB a x m :
  cache_ready c -> memory_blocks_ c = 262144 -> Forall (fun p => program_ok (reciprocal_cache_ c) p /\ size_ p <= 512) (programs_ c) ->
  function2_at item2_templates (reciprocal_cache_ c) (programs_ c) code e -> call2 c base outA itemA outB itemB a x m ->
  exists rla rlb x' m', generate_dataset_item c itemA = Done (store_registers rla) /\ length rla = 8%nat /\
    generate_dataset_item c itemB = Done (store_registers rlb) /\ length rlb = 8%nat /\
    reaches code (mkMachine 0 x (a + 80) m) (mkMachine (xget x 30) x' (a + 80) m') /\ (forall k, 18 <= k < 31 -> xget x' k = xget x k) /\
    contains m' outA rla /\ contains m' outB rlb /\
    forall b, (b < outA \/ outA + 64 <= b) -> (b < outB \/ outB + 64 <= b) -> (b < a \/ a + 80 <= b) -> m' b = m b.
Proof.
  intros Hc Hblocks Hok [F1 F2 F3] [Hm (A0 & A1 & A2 & A3 & A4) Hbase Hcache (O1 & O2 & O3 & O4) (Q1 & Q2 & Q3 & Q4) (S1 & S2 & S3 & S4) (P1 & P2 & P3 & P4)].
  destruct decodes2_parts as (D1 & _ & _ & _ & D5).
  change (t_prologue item2_templates) with (asm_bytes prologue2_asm ++ concat (le_bytes 8 <$> superscalar_constants)) in F1, F2.
  apply holds_app in F1 as [F1 F1'].
  destruct (prologue2_runs code x a m) as (x1 & m1 & E1 & M1 & VA & VB & X8 & X9 & X10 & X27 & X28 & Xf & Hsaved & Hch); [exact F1'|done|lia|lia|done|done|].
  rewrite A0 in X8. rewrite A1 in X9. rewrite A2 in VA, X10. rewrite A3 in X27. rewrite A4 in VB, X28.
  assert (Hcache1 : cache_at c base m1) by (intros i line q Hi Hq El; rewrite Hch by lia; by apply (Hcache i line q)).
  destruct (item_rounds c itemA Hc) as (rla & rva & Ea & Ga & La). destruct (item_rounds c itemB Hc) as (rlb & rvb & Eb & Gb & Lb).
  destruct (rounds2_run c Hc Hblocks code base m1 a Hbase Hcache1 (programs_ c) [] 244 e x1 _ _ itemA itemB x1 rla rlb rva rvb
    eq_refl Hok F2 ltac:(by constructor) Ea Eb) as (x2 & R2 & [M2 [VA2 _] [VB2 _] _ Y]).
  assert (Y9 : xget x2 9 = outA) by (rewrite Y by lia; done). assert (Y27 : xget x2 27 = outB) by (rewrite Y by lia; done).
  destruct (store2_runs code e x2 a m1) with (saved := take 10 (drop 19 x)) as (m2 & E3 & CA & CB & Hch2); rewrite ?Y9, ?Y27; try done.
  { eapply mapped_changed; [exact Hch|lia|done]. }
  { eapply mapped_changed; [exact Hch|lia|done]. }
  { rewrite length_take, length_drop. destruct Hm as [-> _]. done. }
  rewrite Y9, VA2 in CA. rewrite Y27, VB2 in CB. rewrite Y9, Y27 in Hch2.
  assert (Yf : forall k, k = 18 \/ k = 29 \/ k = 30 -> xget x2 k = xget x k) by (intros k Hk; rewrite Y by lia; by apply Xf).
  exists rla, rlb, (take 19 x2 ++ take 10 (drop 19 x) ++ drop 29 x2), m2. split_and!; try done.
  - eapply reaches_chain; [by apply (reaches_asm code prologue2_asm); [|exact F1|exact E1]|].
    eapply reaches_chain; [exact R2|]. apply (reaches_asm code store2_asm); [exact D5|exact F3|]. rewrite E3, (Yf 30) by lia. done.
  - intros k Hk. destruct Hm as [L0 _], M2 as [L2 _]. apply restored; try done. apply Yf.
  - intros b H1 H2 H3. rewrite Hch2 by done. by apply Hch.
Qed.

(** C15: the two-stream function is correct machine code: in a buffer of the size [calcDataset2WaySize] gives it,
    [generate] produces code that, on any A64 machine whose memory holds the cache, takes a call with two item
    numbers and two output addresses back to its caller with x18 to x30 and the stack pointer as before, each
    item that [generate_dataset_item] derives at its address, and no other memory changed but the 80 bytes
    below the stack pointer. *)
Theorem jit_two_items c j :
  cache_ready c -> memory_blocks_ c = 262144 -> Forall (fun p => program_ok (reciprocal_cache_ c) p /\ size_ p <= 512) (programs_ c) ->
  bufferBytes_ j = calcDataset2WaySize item2_templates -> Z.of_nat (length (code_ j)) = bufferBytes_ j ->
  exists j', generate scheduleSuperscalarProgram item2_templates (programs_ c) (reciprocal_cache_ c) j = Done j' /\ codeSize_ j' <= bufferBytes_ j /\
    forall base outA itemA outB itemB a x m, call2 c base outA itemA outB itemB a x m ->
      exists rla rlb x' m', generate_dataset_item c itemA = Done (store_registers rla) /\ length rla = 8%nat /\
        generate_dataset_item c itemB = Done (store_registers rlb) /\ length rlb = 8%nat /\
        reaches (code_ j') (mkMachine 0 x (a + 80) m) (mkMachine (xget x 30) x' (a + 80) m') /\ (forall k, 18 <= k < 31 -> xget x' k = xget x k) /\
        contains m' outA rla /\ contains m' outB rlb /\
        forall b, (b < outA \/ outA + 64 <= b) -> (b < outB \/ outB + 64 <= b) -> (b < a \/ a + 80 <= b) -> m' b = m b.
Proof.
  intros Hc Hb Hok Hbuf Hlen. assert (Hn : length (programs_ c) = kRandomXCacheAccesses) by (destruct Hc as [[_ _ [? _]] _]; done).
  destruct (generate2_ok item2_templates (reciprocal_cache_ c) (programs_ c) j Hn Hok Hbuf Hlen) as (code & e & E & _ & Hsz & Hf).
  eexists. split; [exact E|]. split; [exact Hsz|]. intros base outA itemA outB itemB a x m Hcall. by apply (function2_runs c code e base outA itemA outB itemB a x m).
Qed.

Lemma jit_two_items_witness : exists j', generate scheduleSuperscalarProgram item2_templates (programs_ (flat_cache 262144)) []
    (mk2Way (replicate (Z.to_nat (calcDataset2WaySize item2_templates)) 0) (calcDataset2WaySize item2_templates) 0) = Done j' /\
  exists rla rlb x' m', generate_dataset_item (flat_cache 262144) 7 = Done (store_registers rla) /\ generate_dataset_item (flat_cache 262144) 8 = Done (store_registers rlb) /\
    reaches (code_ j') (mkMachine 0 (2 ^ 30 :: 2 ^ 29 :: 7 :: 2 ^ 29 + 64 :: 8 :: replicate 26 9) (2 ^ 28 + 80) flat_memory) (mkMachine 9 x' (2 ^ 28 + 80) m') /\
    contains m' (2 ^ 29) rla /\ contains m' (2 ^ 29 + 64) rlb.
Proof.
  destruct (jit_two_items (flat_cache 262144) (mk2Way (replicate (Z.to_nat (calcDataset2WaySize item2_templates)) 0) (calcDataset2WaySize item2_templates) 0)
    (flat_cache_ready 262144 ltac:(lia) eq_refl) eq_refl) as (j' & E & _ & H).
  - apply Forall_replicate. split; [|done]. split; [by split|]. apply List.Forall_nil.
  - reflexivity.
  - cbn [code_ bufferBytes_]. rewrite length_replicate, Z2Nat.id by (vm_compute; discriminate). reflexivity.
  - exists j'. split; [exact E|].
    destruct (H (2 ^ 30) (2 ^ 29) 7 (2 ^ 29 + 64) 8 (2 ^ 28) (2 ^ 30 :: 2 ^ 29 :: 7 :: 2 ^ 29 + 64 :: 8 :: replicate 26 9) flat_memory)
      as (rla & rlb & x' & m' & H1 & _ & H2 & _ & H3 & _ & H4 & H5 & _).
    + constructor.
      * split; [reflexivity|]. repeat (apply List.Forall_cons; [by split|]). apply List.Forall_nil.
      * split; [reflexivity|split; [reflexivity|split; [reflexivity|split; reflexivity]]].
      * split; [reflexivity|]. split; lia.
      * intros i line q Hi Hq El. rewrite (flat_lines _ i line q Hq El). unfold flat_memory.
        destruct (_ && _) eqn:Eb; [done|]. exfalso. apply andb_false_iff in Eb as [Eb|Eb]; [apply Z.leb_gt in Eb|apply Z.ltb_ge in Eb]; lia.
      * split; [reflexivity|]. split; [lia|]. split; [lia|]. intros q Hq. exists 0. do 8 (destruct q as [|q]; [reflexivity|]). lia.
      * split; [reflexivity|]. split; [lia|]. split; [lia|]. intros q Hq. exists 0. do 8 (destruct q as [|q]; [reflexivity|]). lia.
      * split; [reflexivity|]. split; [lia|]. split; [lia|]. intros q Hq. exists 0. do 10 (destruct q as [|q]; [reflexivity|]). lia.
      * split; [right; lia|split; [right; lia|split; [right; lia|left; lia]]].
    + exists rla, rlb, x', m'. exact (conj H1 (conj H2 (conj H3 (conj H4 H5)))).
Defined.
